(* ===== verification/_CoqProject ===== *)
-Q . S2P
Prelude.v
Atomic.v
Links.v
Pqueue.v
Ring.v
Timeval.v
Data.v
Msg.v
Waitq.v
Mutex.v
MutexSys.v
Rwlock.v
RwlockSys.v
Cond.v
Barrier.v
Util.v
Clean.v
Event.v
Inbox.v
Queues.v
World.v
Thread.v
Demo.v
Sched.v
Dispatch.v
Evman.v
Evstep.v
Pollset.v
Evdemo.v
Evcleanup.v
Evassemble.v
Evpass.v
Epoll.v
Evreg.v
Epollspec.v
Kqueue.v
Kqueuespec.v
Attr.v
Lib.v
Libspec.v
Boot.v
Mctx.v
Mcsc.v
Uctx.v
Format.v
Formatspec.v
Io.v
Iospec.v
Highsel.v
Highspec.v
Selspec.v
Fork.v
Forkspec.v
Psync.v
Psyncspec.v
Once.v
Pthread.v
Pthreadspec.v
Selectset.v
Mp.v
Loop.v
Syscall.v
Ctrl.v
