(* ===== verification/Prelude.v ===== *)
(** * Verification of GNU Pth with several schedulers

    GNU Pth runs many cooperative threads inside of a process. Every scheduler
    owns threads in five priority queues and switches between them; a thread
    gives up the processor only where it yields or waits for events. This
    version has several schedulers, each on an operating system thread of its
    own; they never touch each other's queues but send messages to each other's
    wakeup inbox. On top are mutexes, condition variables, read-write locks,
    barriers, message ports, thread-specific data, cleanup handlers, and
    replacements for the blocking system calls.

    ** Conventions

    A C function is a function of the state it works on; [st S A] is a
    computation on a state [S] that may be undefined (a bad dereference, a
    write out of bounds, an index out of range), so that a theorem that a
    computation gives [Some] is a statement of memory safety as well. Pointers
    are optional addresses; the fields of structures on the heap are finite
    maps from addresses. Integers are [Z], with conversions to the C types
    written out where they matter ([i32], [u64] and so on). A function that sets
    [errno] returns it with its value. A call that blocks is cut where it
    switches to the scheduler: one definition up to the switch, one for what
    follows. Critical sections of a spinlock and single atomic operations are
    single steps; systems of threads are step relations over these steps.
    Loops that are not structural take fuel; their lemmas prove that the fuel
    which the callers give is enough.

    ** Files

    [Atomic] (src/pth_atomic.h): atomic operations and the spinlock; why a
    critical section counts as one step.

    Data structures. [Links]: cycles of doubly linked nodes, shared by the
    three kinds of lists. [Pqueue] (src/pth_pqueue.c): the circular priority
    queues whose members store differences of priorities. [Ring]
    (src/pth_ring.c). [Timeval] (src/pth_time.c). [Data] (src/pth_data.c).
    [Msg] (src/pth_msg.c). [Clean] (src/pth_clean.c). [Event]
    (src/pth_event.c). [Util] (src/pth_util.c). [Attr] (src/pth_attr.c and the
    allocation in src/pth_tcb.c).

    Synchronisation (src/pth_sync.c). [Waitq], the queues of blocked threads;
    [Mutex], [Rwlock], [Cond], [Barrier]; [MutexSys] and [RwlockSys], the
    interleavings of all threads, which [Cond] and [Barrier] have in their own
    files.

    Schedulers (src/pth_sched.c, src/pth_lib.c, src/pth_cancel.c). [Inbox]: the
    lock-free wakeup inbox with any number of posting schedulers. [Queues]: the
    interface of the five queues and its implementation by [Pqueue]. [World]:
    the state of a scheduler and the invariant of threads and queues. [Thread]:
    what a scheduler does to threads. [Demo]: a small instance of all
    parameters for the witnesses. [Sched]: draining. [Dispatch]: choosing,
    dispatching and putting away threads. [Loop]: the scheduler's loop as a
    whole, out of these parts and the event manager, with the load average.
    [Lib], [Libspec]: the library functions and what they promise.

    The event manager (src/pth_sched.c). [Evman]: the code that the backends
    share, over the interface [FdBackend]; [Evstep]: what it relies on;
    [Evassemble]: looking at the events; [Evcleanup]: waking the threads;
    [Evpass]: a whole pass; [Evdemo]: a concrete pass. [Pollset]: the backend
    with poll(2); [Epoll], [Evreg], [Epollspec]: the backend with epoll(7) and
    its registration cache; [Kqueue], [Kqueuespec]: the backend with kqueue(2)
    on the same cache; [Selectset]: the backend with select(2).

    Schedulers (src/pth_sched.c). [Mp]: starting and stopping additional
    schedulers, each step of the calls and of the schedulers' threads. [Boot]
    (src/pth_lib.c): starting the library with its first scheduler.

    Contexts. [Mctx], [Mcsc] (src/pth_mctx.c): switching between machine
    contexts, on Boost.Context and on ucontext(3);
    [Uctx] (src/pth_uctx.c): the contexts that programs use.

    System calls (src/pth_high.c, src/pth_fork.c). [Io], [Iospec]: threaded
    reading and writing over a kernel that is a parameter. [Highsel]: sleeping,
    signals, waiting for children, select and poll; [Selspec], [Highspec]: what
    they promise. [Fork], [Forkspec]: fork handlers, and commands in a child.

    The Pthread interface (src/pthread.c). [Psync], [Psyncspec]: the handles of
    mutexes, condition variables and read-write locks, with their static
    initializers. [Once]: one-time initialization, in all interleavings.
    [Pthread], [Pthreadspec]: attributes, threads, cancellation, keys, fork
    handlers. [Ctrl]: the initialization of the interface, the replacements of
    blocking functions, and pth_ctrl (src/pth_lib.c).

    The hard mapping of system calls. [Syscall] (src/pth_syscall.c): how the real
    functions are found, and the exit and entry points.

    Text. [Format], [Formatspec] (src/pth_string.c): the formatter and the text
    it stands for.

    ** What the theorems show

    Critical sections under a spinlock are atomic, and the lock is had and left.
    Safety of the synchronisation primitives in every interleaving (mutual
    exclusion, readers and writers, barrier rounds) and liveness (no lost
    wakeup, fair handoff, no lost notification), each primitive refining an
    abstract one. The wakeup inbox keeps the order of messages and never lets a
    scheduler sleep on a wakeup. The invariant of threads and queues - every
    thread of a scheduler is in exactly the queue of its state - is kept by
    draining, dispatching, the event manager and the library functions; a ready
    thread is not starved. Out of these the scheduler's loop as a whole never
    gets stuck, runs the best thread in each round, and ends only with no
    thread left. The event manager wakes exactly the threads it should
    and never waits too long; a whole pass makes every thread ready for which
    a wakeup came in before or during the wait; the epoll cache stays coherent
    with the kernel, kqueue(2) is told every difference in whatever batches,
    and select(2) is asked for what the events want and its
    answer reaches each of them. Starting and stopping schedulers uses no slot
    or memory that is not there, leaves nothing behind, and ends. Starting
    the library establishes the invariant, and ending it takes all away.
    Machine contexts are contexts with an errno, a mask and a place of their
    own; user-space contexts are coroutines.
    The data structures refine lists and maps. Times and timeouts are right
    within stated bounds. Threaded output writes what it should, once and in
    order; select and poll give what the kernel has found, or wait for exactly
    the events that the call asks for. A command runs with the signals as POSIX
    wants them, which are restored whenever the call returns. The Pthread
    mutexes refine the abstract mutex through their handles; a constructor
    completes at most once, before any call of its pthread_once returns, and no
    call waits for ever; cancellation states stay well formed. The formatter
    writes the text its format stands for and never more than its buffer. With
    the hard mapping every internal call finds the real function.
    Lemmas next to the theorems show, by computation or in general, where the code fails to do what it means to; the properties state
    the conditions under which it works.

    ** Bounds and fuel

    Rings and queues: the number of their nodes. Cleanup handlers and
    destructors: the height of the stack, the number of rounds. The formatter:
    eight rounds per character of the format. The load average:
    the seconds since the last tick. The scheduler's loop: the rounds and passes
    that are given. Repeated system calls: the
    patience of the kernel, a bound for the number of interruptions in a row,
    which the laws of the kernel let decrease.

    ** Not modelled

    The support for other libraries (src/pth_ext.c), debugging output, version
    numbers and compatibility code have no state of their own. The closing of
    descriptors at the end is not in the model. The macros with which pthread.h
    redefines functions of the C library are left out. Names of threads are not
    part of the state; the schedulers are cut at their switches instead of
    being put on the machine contexts of [Mctx]. Memory orders weaker than
    sequential consistency are not modelled; sections under a spinlock are
    single steps of the interleaving models, as [Atomic] justifies. *)

From stdpp Require Import base numbers gmap list.
Open Scope Z_scope.

(** ** Machine integers

    [int], [unsigned int], [long] and [size_t] of the supported LP64
    targets, as integers with the conversion to the type written out. *)

Definition wrap (w z : Z) : Z := z mod 2 ^ w.
Definition swrap (w z : Z) : Z := (z + 2 ^ (w - 1)) mod 2 ^ w - 2 ^ (w - 1).
Definition i32 (z : Z) : Z := swrap 32 z.
Definition u32 (z : Z) : Z := wrap 32 z.
Definition i64 (z : Z) : Z := swrap 64 z.
Definition u64 (z : Z) : Z := wrap 64 z.

Definition in_i32 (z : Z) : Prop := - 2 ^ 31 <= z < 2 ^ 31.
Definition in_i64 (z : Z) : Prop := - 2 ^ 63 <= z < 2 ^ 63.

Lemma swrap_small (w z : Z) :
  0 < w -> - 2 ^ (w - 1) <= z < 2 ^ (w - 1) -> swrap w z = z.
Proof.
  intros Hw Hz. unfold swrap.
  assert (H2 : 2 ^ w = 2 * 2 ^ (w - 1)).
  { rewrite <- Z.pow_succ_r by lia. f_equal. lia. }
  rewrite Z.mod_small by lia. lia.
Qed.

Lemma wrap_small (w z : Z) : 0 <= z < 2 ^ w -> wrap w z = z.
Proof. apply Z.mod_small. Qed.

Lemma i32_small (z : Z) : in_i32 z -> i32 z = z.
Proof. intros H. apply swrap_small; [lia|exact H]. Qed.

Lemma i64_small (z : Z) : in_i64 z -> i64 z = z.
Proof. intros H. apply swrap_small; [lia|exact H]. Qed.

Lemma swrap_range (w z : Z) :
  0 < w -> - 2 ^ (w - 1) <= swrap w z < 2 ^ (w - 1).
Proof.
  intros Hw. unfold swrap.
  assert (H2 : 2 ^ w = 2 * 2 ^ (w - 1)).
  { rewrite <- Z.pow_succ_r by lia. f_equal. lia. }
  pose proof (Z.mod_pos_bound (z + 2 ^ (w - 1)) (2 ^ w)
                (Z.pow_pos_nonneg 2 w ltac:(lia) ltac:(lia))).
  lia.
Qed.

Lemma u32_small (z : Z) : 0 <= z < 2 ^ 32 -> u32 z = z.
Proof. apply wrap_small. Qed.

Lemma u64_small (z : Z) : 0 <= z < 2 ^ 64 -> u64 z = z.
Proof. apply wrap_small. Qed.

(** Drop the conversions of values that fit, the innermost first. *)
Ltac fits :=
  repeat match goal with
  | |- context [i64 ?x] =>
      lazymatch x with
      | context [i64 _] => fail
      | _ => rewrite (i64_small x) by (unfold in_i64; nia)
      end
  | |- context [i32 ?x] =>
      lazymatch x with
      | context [i32 _] => fail
      | _ => rewrite (i32_small x) by (unfold in_i32; nia)
      end
  | |- context [u32 ?x] => rewrite (u32_small x) by nia
  | |- context [u64 ?x] => rewrite (u64_small x) by nia
  end.

(** ** Pointers

    An address is a positive; a C pointer is an optional address. *)

Abbreviation addr := positive (only parsing).
Abbreviation ptr := (option positive).
Abbreviation NULL := (@None positive).

(** ** [errno] and the [pth_error] return convention

    Every function that reports an error does it with
    [return pth_error(value, errno)]. The models return the value together
    with the [errno] it was set to, [None] when it was left alone. *)

Inductive errno : Type :=
| EINVAL | ENOMEM | EAGAIN | ENOENT | EPERM | ESRCH | EACCES | EBUSY
| EDEADLK | EINTR | EIO | EBADF | EFAULT | ENOSYS | EOTHER (n : Z).

#[export] Instance errno_eq_dec : EqDecision errno.
Proof. solve_decision. Defined.

Definition pth_error {A : Type} (return_val : A) (errno_val : errno)
  : A * option errno := (return_val, Some errno_val).
Definition ok {A : Type} (return_val : A) : A * option errno := (return_val, None).

(** ** Computations on a store

    [None] is undefined behaviour (a NULL or dangling dereference), so a
    theorem that a computation yields [Some] is also a memory-safety
    statement. *)

Definition st (S A : Type) : Type := S -> option (A * S).

#[export] Instance st_ret {S : Type} : MRet (st S) := fun A a s => Some (a, s).
#[export] Instance st_bind {S : Type} : MBind (st S) :=
  fun A B f m s => match m s with Some (a, s') => f a s' | None => None end.

Definition undef {S A : Type} : st S A := fun _ => None.
Definition get_st {S : Type} : st S S := fun s => Some (s, s).
Definition put_st {S : Type} (s : S) : st S unit := fun _ => Some (tt, s).

(** Run a computation on one part of a larger store. *)
Definition zoom {S T A : Type} (g : S -> T) (p : T -> S -> S) (m : st T A) : st S A :=
  fun s => match m (g s) with Some (a, t) => Some (a, p t s) | None => None end.

Lemma st_bind_Some {S A B : Type} (m : st S A) (f : A -> st S B) s a s' :
  m s = Some (a, s') -> (m ≫= f) s = f a s'.
Proof. intros H. unfold mbind, st_bind. by rewrite H. Qed.

Lemma st_bind_inv {S A B : Type} (m : st S A) (f : A -> st S B) s b s'' :
  (m ≫= f) s = Some (b, s'') -> exists a s', m s = Some (a, s') /\ f a s' = Some (b, s'').
Proof.
  unfold mbind, st_bind. destruct (m s) as [[a s']|] eqn:E; [|done].
  intros H. eauto.
Qed.

Lemma st_bind_assoc {S A B C : Type} (m : st S A) (f : A -> st S B) (g : B -> st S C) s :
  ((m ≫= f) ≫= g) s = (m ≫= (fun a => f a ≫= g)) s.
Proof. unfold mbind, st_bind. by destruct (m s) as [[a s']|]. Qed.

(** Total-correctness triples: from a state satisfying the precondition the
    computation is defined and its result satisfies the postcondition. *)
Definition triple {S A : Type} (P : S -> Prop) (m : st S A) (Q : A -> S -> Prop) : Prop :=
  forall s, P s -> exists a s', m s = Some (a, s') /\ Q a s'.

Lemma triple_bind {S A B : Type} (P : S -> Prop) (m : st S A) R (f : A -> st S B) Q :
  triple P m R -> (forall a, triple (R a) (f a) Q) -> triple P (m ≫= f) Q.
Proof.
  intros Hm Hf s Hs. destruct (Hm s Hs) as (a & s' & E & HR).
  rewrite (st_bind_Some _ _ _ _ _ E). by apply (Hf a).
Qed.

Lemma triple_ret {S A : Type} (a : A) (P : S -> Prop) :
  triple P (mret a) (fun r s => r = a /\ P s).
Proof. intros s Hs. exists a, s. done. Qed.

Lemma triple_conseq {S A : Type} (P P' : S -> Prop) (m : st S A) (Q Q' : A -> S -> Prop) :
  triple P' m Q' -> (forall s, P s -> P' s) -> (forall a s, Q' a s -> Q a s) -> triple P m Q.
Proof.
  intros H HP HQ s Hs. destruct (H s (HP s Hs)) as (a & s' & E & HR). eauto.
Qed.

(** One step of symbolic execution of a [st] computation. *)
Lemma st_ret_eq {S A : Type} (a : A) (s : S) : (mret a : st S A) s = Some (a, s).
Proof. done. Qed.

(** ** Lists *)

Lemma nil_or_snoc {A : Type} (l : list A) : l = [] \/ exists l' z, l = l' ++ [z].
Proof. destruct l as [|z l' _] using rev_ind; [by left|right; eauto]. Qed.

Lemma perm_rot {A : Type} (l1 l2 : list A) (a : A) :
  l1 ++ a :: l2 ≡ₚ a :: l2 ++ l1.
Proof. rewrite <- Permutation_middle. f_equiv. apply Permutation_app_comm. Qed.

Lemma perm_rot_end {A : Type} (l1 l2 : list A) (a : A) :
  l1 ++ a :: l2 ≡ₚ (l2 ++ l1) ++ [a].
Proof. rewrite perm_rot. apply Permutation_cons_append. Qed.

Lemma perm_after {A : Type} (l1 l2 : list A) (a b : A) :
  l1 ++ a :: b :: l2 ≡ₚ b :: l1 ++ a :: l2.
Proof. rewrite <- !Permutation_middle. apply Permutation_swap. Qed.

(** Case analysis on a test of the code. *)
Ltac bcase P H :=
  destruct (decide P) as [H|H];
  [ rewrite ?(bool_decide_eq_true_2 P) by exact H
  | rewrite ?(bool_decide_eq_false_2 P) by exact H ];
  rewrite ?(bool_decide_eq_true_2 (not P)) by exact H;
  rewrite ?(bool_decide_eq_false_2 (not P)) by (intros ?; contradiction);
  cbn [negb andb orb].

(** Use a lookup in a singleton map. *)
Ltac single H := cbn in H; apply lookup_singleton_Some in H as [<- <-].

Create HintDb pth discriminated.
#[export] Hint Resolve swrap_small wrap_small i32_small i64_small u32_small u64_small : pth.
