(* ===== verification/Atomic.v ===== *)
(** * Atomic operations and spinlocks (src/pth_atomic.h)

    The operations on one word, in the variant for several schedulers and in the
    classic one; the spinlock as steps of the system threads that contend for
    it. A system of such threads runs critical sections of any number of steps
    on shared data: what the rest of the development models as one step. The
    steps are interleaved; the memory orders of the compiler's builtins make
    the section of one holder visible to the next, and nothing weaker is used
    of them. *)

From stdpp Require Import base numbers list.
From S2P Require Import Prelude.
Open Scope Z_scope.

(** ** Words *)

(** *** With several schedulers: the compiler's builtins, which wrap around *)

Definition pth_atomic_load : st Z Z := fun p => Some (p, p).
Definition pth_atomic_store (v : Z) : st Z unit := fun _ => Some (tt, v).
Definition pth_atomic_inc : st Z Z := fun p => let v := i32 (p + 1) in Some (v, v).
Definition pth_atomic_dec : st Z Z := fun p => let v := i32 (p - 1) in Some (v, v).
Definition pth_atomic_cas (expected desired : Z) : st Z bool := fun p =>
  if p =? expected then Some (true, desired) else Some (false, p).
Definition pth_atomic_ptr_cas (expected desired : ptr) : st ptr bool := fun p =>
  if bool_decide (p = expected) then Some (true, desired) else Some (false, p).
Definition pth_atomic_ptr_xchg (v : ptr) : st ptr ptr := fun p => Some (p, v).
Definition pth_atomic_ptr_load : st ptr ptr := fun p => Some (p, p).

(** The test-and-set builtin works on the first byte of the word (the lowest
    one: little endian). *)
Definition pth_spin_init : st Z unit := fun _ => Some (tt, 0).
Definition pth_spin_trylock : st Z bool := fun l => Some (Z.land l 255 =? 0, Z.lor (Z.land l (Z.lnot 255)) 1).
Definition pth_spin_unlock : st Z unit := fun l => Some (tt, Z.land l (Z.lnot 255)).

(** *** With one scheduler: plain C, whose overflows are undefined *)

Definition classic_load : st Z Z := fun p => Some (p, p).
Definition classic_store (v : Z) : st Z unit := fun _ => Some (tt, v).
Definition classic_inc : st Z Z := fun p => if p =? 2 ^ 31 - 1 then None else Some (p + 1, p + 1).
Definition classic_dec : st Z Z := fun p => if p =? - 2 ^ 31 then None else Some (p - 1, p - 1).
Definition classic_cas (expected desired : Z) : st Z bool := fun p =>
  if p =? expected then Some (true, desired) else Some (false, p).
Definition classic_ptr_cas (expected desired : ptr) : st ptr bool := fun p =>
  if bool_decide (p = expected) then Some (true, desired) else Some (false, p).
Definition classic_ptr_xchg (v : ptr) : st ptr ptr := fun p => let old := p in Some (old, v).
Definition classic_ptr_load : st ptr ptr := fun p => Some (p, p).
Definition classic_spin_init : st Z unit := fun _ => Some (tt, 0).
Definition classic_spin_trylock : st Z bool := fun _ => Some (true, 1).
Definition classic_spin_lock : st Z unit := fun _ => Some (tt, 1).
Definition classic_spin_unlock : st Z unit := fun _ => Some (tt, 0).

(** ** The spinlock *)

Definition PTH_SPIN_SPINS : Z := 256.
(** What a waiting thread does before it looks again: a hint to the processor,
    or [pth_spin_yield]. *)
Inductive backoff := PTH_CPU_RELAX | pth_spin_yield.
Definition spin_backoff (n : Z) : backoff := if n <? PTH_SPIN_SPINS then PTH_CPU_RELAX else pth_spin_yield.

Section spin.
(** Shared data and the local variables of a thread. *)
Context {S L : Type}.
Definition micro : Type := S -> L -> S * L.

(** Where a thread is in [pth_spin_lock]: trying, reading the word, backing
    off; or in its critical section. *)
Inductive spc := PIdle | PTry (n : Z) | PRead (n : Z) | PWait (n : Z) | PIn (rest : list micro).
Record agent := Agent { g_pc : spc; g_loc : L; g_todo : list (list micro) }.
(** [sp_log]: the sections in the order in which the lock was taken. *)
Record spin := Spin { sp_word : Z; sp_data : S; sp_agents : list agent; sp_log : list (nat * list micro) }.

Definition set_pc (pc : spc) (a : agent) : agent := Agent pc (g_loc a) (g_todo a).
Definition put_agent (i : nat) (a : agent) (s : spin) : spin :=
  Spin (sp_word s) (sp_data s) (<[i := a]> (sp_agents s)) (sp_log s).
Definition put_word (w : Z) (s : spin) : spin := Spin w (sp_data s) (sp_agents s) (sp_log s).

(** The next step of [pth_spin_lock]. *)
Definition lock_step (i : nat) (a : agent) (s : spin) : option (option backoff * spin) :=
  match g_pc a with
  | PTry n =>
      match g_todo a with
      | [] => None
      | sec :: todo =>
          '(got, w) ← pth_spin_trylock (sp_word s);
          if (got : bool) then
            Some (None, put_agent i (Agent (PIn sec) (g_loc a) todo) (Spin w (sp_data s) (sp_agents s) (sp_log s ++ [(i, sec)])))
          else Some (None, put_agent i (set_pc (PRead n) a) (put_word w s))
      end
  | PRead n => Some (None, put_agent i (set_pc (if negb (sp_word s =? 0) then PWait n else PTry n) a) s)
  | PWait n => Some (Some (spin_backoff n), put_agent i (set_pc (PRead (u32 (n + 1))) a) s)
  | _ => None
  end.
(** The next step of thread [i]: it takes the lock for its next section, runs
    it step by step, and unlocks. *)
Definition spin_step (i : nat) (s : spin) : option (option backoff * spin) :=
  a ← sp_agents s !! i;
  match g_pc a with
  | PIdle => match g_todo a with [] => None | _ => Some (None, put_agent i (set_pc (PTry 0) a) s) end
  | PIn (f :: rest) =>
      let '(d, l) := f (sp_data s) (g_loc a) in
      Some (None, Spin (sp_word s) d (<[i := Agent (PIn rest) l (g_todo a)]> (sp_agents s)) (sp_log s))
  | PIn [] => '(_, w) ← pth_spin_unlock (sp_word s); Some (None, put_agent i (set_pc PIdle a) (put_word w s))
  | _ => lock_step i a s
  end.
(** A schedule: the threads in the order of their steps. *)
Fixpoint spin_run (sched : list nat) (s : spin) : spin :=
  match sched with
  | [] => s
  | i :: sched' => spin_run sched' (match spin_step i s with Some (_, s') => s' | None => s end)
  end.
End spin.
Arguments micro : clear implicits.
Arguments spc : clear implicits.
Arguments agent : clear implicits.
Arguments spin : clear implicits.

(** ** The two variants agree where the classic one is defined *)

Lemma inc_agree p r : in_i32 p -> classic_inc p = Some r -> pth_atomic_inc p = Some r.
Proof.
  unfold classic_inc, pth_atomic_inc, in_i32. intros Hp. destruct (Z.eqb_spec p (2 ^ 31 - 1)); [done|]. rewrite i32_small; [done|]. unfold in_i32. lia.
Qed.
Lemma dec_agree p r : in_i32 p -> classic_dec p = Some r -> pth_atomic_dec p = Some r.
Proof.
  unfold classic_dec, pth_atomic_dec, in_i32. intros Hp. destruct (Z.eqb_spec p (- 2 ^ 31)); [done|]. rewrite i32_small; [done|]. unfold in_i32. lia.
Qed.
(** A lock taken and released by the only thread. *)
Lemma spin_agree : (pth_spin_init;; b ← pth_spin_trylock; pth_spin_unlock;; mret b) 5 = Some (true, 0) /\
  (classic_spin_init;; b ← classic_spin_trylock; classic_spin_unlock;; mret b) 5 = Some (true, 0).
Proof. done. Qed.

(** ** Words of a spinlock *)

Lemma trylock_free : pth_spin_trylock 0 = Some (true, 1).
Proof. done. Qed.
Lemma trylock_held : pth_spin_trylock 1 = Some (false, 1).
Proof. done. Qed.
Lemma unlock_held : pth_spin_unlock 1 = Some (tt, 0).
Proof. done. Qed.

(** ** Sections one after another *)

Section atomic.
Context {S L : Type}.
Implicit Types (s : spin S L) (a : agent S L).

(** A section as a whole. *)
Definition run_sec (ms : list (micro S L)) (d : S) (l : L) : S * L := foldl (fun p f => f p.1 p.2) (d, l) ms.
(** Sections of threads with the local variables [ls], each as a whole. *)
Definition run_one (p : S * list L) (x : nat * list (micro S L)) : S * list L :=
  match p.2 !! x.1 with
  | Some l => let '(d, l) := run_sec x.2 p.1 l in (d, <[x.1 := l]> p.2)
  | None => p
  end.
Definition serial (log : list (nat * list (micro S L))) (d : S) (ls : list L) : S * list L := foldl run_one (d, ls) log.

Definition locs s : list L := g_loc <$> sp_agents s.
Definition inside a : option (list (micro S L)) := match g_pc a with PIn r => Some r | _ => None end.
Definition waiting a : Prop := match g_pc a with PTry _ | PRead _ | PWait _ => True | _ => False end.
(** The sections of a thread in the log. *)
Definition taken (i : nat) (log : list (nat * list (micro S L))) : list (list (micro S L)) :=
  (filter (fun x => x.1 = i) log).*2.

(** Started at data [d0] with agents [A0]: the lock is free and the data is
    that of the sections so far, or one thread is inside and the data will be
    that when it has run the rest of its section. *)
Record spin_inv (d0 : S) (A0 : list (agent S L)) s : Prop := {
  si_len : length (sp_agents s) = length A0;
  si_hold :
    sp_word s = 0 /\ (forall i a, sp_agents s !! i = Some a -> inside a = None) /\
      serial (sp_log s) d0 (g_loc <$> A0) = (sp_data s, locs s) \/
    exists i a r, sp_word s = 1 /\ sp_agents s !! i = Some a /\ inside a = Some r /\
      (forall j b, sp_agents s !! j = Some b -> inside b <> None -> j = i) /\
      serial (sp_log s) d0 (g_loc <$> A0) = (let '(d, l) := run_sec r (sp_data s) (g_loc a) in (d, <[i := l]> (locs s)));
  si_wait : forall i a, sp_agents s !! i = Some a -> waiting a -> g_todo a <> [];
  si_order : forall i a a0, sp_agents s !! i = Some a -> A0 !! i = Some a0 -> taken i (sp_log s) ++ g_todo a = g_todo a0
}.
(** Nobody has started. *)
Definition fresh s : Prop := sp_word s = 0 /\ sp_log s = [] /\ forall i a, sp_agents s !! i = Some a -> g_pc a = PIdle.

Lemma fresh_inv s : fresh s -> spin_inv (sp_data s) (sp_agents s) s.
Proof.
  intros (Hw & Hl & Ha). constructor; [done|..].
  - left. split_and!; [done| |by rewrite Hl]. intros i a Hi. unfold inside. by rewrite (Ha i a Hi).
  - intros i a Hi. unfold waiting. by rewrite (Ha i a Hi).
  - intros i a a0 Hi Hi0. rewrite Hl. cbn. congruence.
Qed.

Lemma put_lookup i a (l : list (agent S L)) j b : (i < length l)%nat -> <[i := a]> l !! j = Some b ->
  j = i /\ b = a \/ j <> i /\ l !! j = Some b.
Proof.
  intros Hlt. destruct (decide (j = i)) as [->|Hn]; [rewrite list_lookup_insert_eq by done; intros [= <-]; by left|].
  rewrite list_lookup_insert_ne by done. by right.
Qed.
Lemma locs_put (i : nat) (a0 a : agent S L) (l : list (agent S L)) : l !! i = Some a0 -> g_loc a = g_loc a0 -> g_loc <$> <[i := a]> l = g_loc <$> l.
Proof. intros Hi Hg. rewrite list_fmap_insert, Hg. apply list_insert_id. by rewrite list_lookup_fmap, Hi. Qed.

(** A step outside of the sections leaves word and data alone. *)
Lemma put_inv d0 A0 s i a0 a : spin_inv d0 A0 s -> sp_agents s !! i = Some a0 -> inside a0 = None -> inside a = None ->
  g_loc a = g_loc a0 -> g_todo a = g_todo a0 -> (waiting a -> g_todo a0 <> []) -> spin_inv d0 A0 (put_agent i a s).
Proof.
  intros [I1 I2 I3 I4] Hi H0 Ha Hl Ht Hw. assert (Hlt : (i < length (sp_agents s))%nat) by (by eapply lookup_lt_Some).
  constructor; cbn [put_agent put_word sp_word sp_data sp_agents sp_log].
  - by rewrite length_insert.
  - unfold locs. cbn. rewrite (locs_put i a0 a) by done. destruct I2 as [(W & N & E)|(k & b & r & W & Hk & Hb & U & E)].
    + left. split_and!; [done| |done]. intros j b [[-> ->]|[_ Hj]]%put_lookup; [done|by eapply N|done].
    + assert (k <> i) by (intros ->; simplify_eq; congruence).
      right. exists k, b, r. rewrite list_lookup_insert_ne by done. split_and!; [done..| |done].
      intros j c [[-> ->]|[_ Hj]]%put_lookup; [by rewrite Ha|by apply (U j c)|done].
  - intros j b [[-> ->]|[_ Hj]]%put_lookup; [|by eapply I3|done]. rewrite Ht. done.
  - intros j b b0 [[-> ->]|[_ Hj]]%put_lookup H; [|by eapply I4|done]. rewrite Ht. by eapply I4.
Qed.

Lemma taken_app i log1 log2 : taken i (log1 ++ log2) = taken i log1 ++ taken i log2.
Proof. unfold taken. by rewrite filter_app, fmap_app. Qed.
Lemma serial_app log1 log2 d ls : serial (log1 ++ log2) d ls = foldl run_one (serial log1 d ls) log2.
Proof. apply foldl_app. Qed.

(** Taking the lock. *)
Lemma take_inv d0 A0 s i a sec todo : spin_inv d0 A0 s -> sp_agents s !! i = Some a -> waiting a -> g_todo a = sec :: todo ->
  sp_word s = 0 ->
  spin_inv d0 A0 (put_agent i (Agent (PIn sec) (g_loc a) todo) (Spin 1 (sp_data s) (sp_agents s) (sp_log s ++ [(i, sec)]))).
Proof.
  intros [I1 I2 I3 I4] Hi Hwa Ht W. assert (Hlt : (i < length (sp_agents s))%nat) by (by eapply lookup_lt_Some).
  destruct I2 as [(_ & N & E)|(k & b & r & W1 & _)]; [|congruence]. set (a' := Agent (PIn sec) (g_loc a) todo). constructor; cbn [put_agent put_word sp_word sp_data sp_agents sp_log].
  - by rewrite length_insert.
  - right. exists i, a', sec. split_and!; [done|by rewrite list_lookup_insert_eq|done| |].
    + intros j b [[-> ->]|[_ Hj]]%put_lookup Hb; [done| |done]. by rewrite (N j b Hj) in Hb.
    + rewrite serial_app, E. cbn. unfold run_one, locs. cbn [fst snd sp_agents put_agent sp_data].
      rewrite list_lookup_fmap, Hi. cbn [fmap option_fmap option_map]. by rewrite (locs_put i a a').
  - intros j b [[-> ->]|[_ Hj]]%put_lookup; [by intros []|by eapply I3|done].
  - intros j b b0 [[-> ->]|[Hn Hj]]%put_lookup H; [| |done]; rewrite taken_app; unfold taken at 2.
    + rewrite filter_cons_True by done. cbn. rewrite <- app_assoc. cbn. rewrite <- Ht. by eapply I4.
    + rewrite filter_cons_False by (cbn; congruence). cbn. rewrite app_nil_r. by eapply I4.
Qed.
(** A step of a section. *)
Lemma micro_inv d0 A0 s i a f rest d l : spin_inv d0 A0 s -> sp_agents s !! i = Some a -> g_pc a = PIn (f :: rest) ->
  f (sp_data s) (g_loc a) = (d, l) ->
  spin_inv d0 A0 (Spin (sp_word s) d (<[i := Agent (PIn rest) l (g_todo a)]> (sp_agents s)) (sp_log s)).
Proof.
  intros [I1 I2 I3 I4] Hi Hp Hf. assert (Hlt : (i < length (sp_agents s))%nat) by (by eapply lookup_lt_Some).
  destruct I2 as [(_ & N & _)|(k & b & r & W & Hk & Hb & U & E)]; [specialize (N i a Hi); unfold inside in N; by rewrite Hp in N|].
  assert (i = k) as -> by (apply (U i a Hi); unfold inside; by rewrite Hp). simplify_eq.
  unfold inside in Hb. rewrite Hp in Hb. injection Hb as <-. constructor; cbn [put_agent put_word sp_word sp_data sp_agents sp_log].
  - by rewrite length_insert.
  - right. exists k, (Agent (PIn rest) l (g_todo b)), rest. split_and!; [done|by rewrite list_lookup_insert_eq|done| |].
    + intros j c [[-> ->]|[_ Hj]]%put_lookup Hc; [done|by apply (U j c)|done].
    + rewrite E. unfold run_sec, locs. cbn [foldl fst snd sp_agents sp_data g_loc]. rewrite Hf. destruct (foldl _ _ _) as [d' l'].
      rewrite list_fmap_insert. cbn [g_loc]. by rewrite list_insert_insert_eq.
  - intros j c [[-> ->]|[_ Hj]]%put_lookup; [by intros []|by eapply I3|done].
  - intros j c b0 [[-> ->]|[_ Hj]]%put_lookup H; [exact (I4 k b b0 Hk H)|by eapply I4|done].
Qed.
(** Leaving. *)
Lemma leave_inv d0 A0 s i a : spin_inv d0 A0 s -> sp_agents s !! i = Some a -> g_pc a = PIn [] ->
  spin_inv d0 A0 (put_agent i (set_pc PIdle a) (put_word 0 s)).
Proof.
  intros [I1 I2 I3 I4] Hi Hp. assert (Hlt : (i < length (sp_agents s))%nat) by (by eapply lookup_lt_Some).
  destruct I2 as [(_ & N & _)|(k & b & r & W & Hk & Hb & U & E)]; [specialize (N i a Hi); unfold inside in N; by rewrite Hp in N|].
  assert (i = k) as -> by (apply (U i a Hi); unfold inside; by rewrite Hp). simplify_eq.
  unfold inside in Hb. rewrite Hp in Hb. injection Hb as <-. constructor; cbn [put_agent put_word sp_word sp_data sp_agents sp_log].
  - by rewrite length_insert.
  - left. split_and!; [done| |].
    + intros j c [[-> ->]|[Hn Hj]]%put_lookup; [done| |done]. destruct (inside c) as [r|] eqn:Ec; [|done].
      exfalso. apply Hn, (U j c Hj). by rewrite Ec.
    + rewrite E. cbn. unfold locs. cbn. rewrite (locs_put k b (set_pc PIdle b)) by done. f_equal. apply list_insert_id.
      by rewrite list_lookup_fmap, Hk.
  - intros j c [[-> ->]|[_ Hj]]%put_lookup; [by intros []|by eapply I3|done].
  - intros j c b0 [[-> ->]|[_ Hj]]%put_lookup H; [exact (I4 k b b0 Hk H)|by eapply I4|done].
Qed.

Lemma word_free d0 A0 s : spin_inv d0 A0 s -> sp_word s = 0 \/ sp_word s = 1.
Proof. intros [_ [(W & _)|(k & b & r & W & _)] _ _]; auto. Qed.
Lemma spin_step_inv d0 A0 s i o s' : spin_inv d0 A0 s -> spin_step i s = Some (o, s') -> spin_inv d0 A0 s'.
Proof.
  intros Hv. unfold spin_step. destruct (sp_agents s !! i) as [a|] eqn:Hi; [|done]. cbn [mbind option_bind].
  destruct (g_pc a) as [|n|n|n|[|f rest]] eqn:Hp; unfold lock_step; rewrite ?Hp.
  - destruct (g_todo a) as [|sec todo] eqn:Ht; [done|]. intros [= <- <-].
    eapply put_inv; try done; unfold inside; rewrite ?Hp; try done. by rewrite Ht.
  - destruct (g_todo a) as [|sec todo] eqn:Ht; [done|]. destruct (word_free _ _ _ Hv) as [W|W]; rewrite W, ?trylock_free, ?trylock_held;
      cbn [mbind option_bind]; intros [= <- <-].
    + eapply take_inv; try done. unfold waiting. by rewrite Hp.
    + assert (Hs : put_word 1 s = s) by (destruct s; cbn in W |- *; by subst). rewrite Hs.
      eapply put_inv; try done; unfold inside; rewrite ?Hp; try done. by rewrite Ht.
  - intros [= <- <-]. assert (Hw := si_wait _ _ _ Hv i a Hi). unfold waiting in Hw. rewrite Hp in Hw.
    eapply put_inv; try done; unfold inside; cbn; rewrite ?Hp; try done; [by destruct (negb _)|auto].
  - intros [= <- <-]. assert (Hw := si_wait _ _ _ Hv i a Hi). unfold waiting in Hw. rewrite Hp in Hw.
    eapply put_inv; try done; unfold inside; cbn; rewrite ?Hp; try done; auto.
  - assert (W : sp_word s = 1).
    { destruct (si_hold _ _ _ Hv) as [(_ & N & _)|(k & b & r & W & _)]; [|done]. specialize (N i a Hi). unfold inside in N. by rewrite Hp in N. }
    rewrite W. cbn. intros [= <- <-]. by eapply leave_inv.
  - destruct (f (sp_data s) (g_loc a)) as [d l] eqn:Hf. intros [= <- <-]. by eapply micro_inv.
Qed.
Lemma run_inv d0 A0 s sched : spin_inv d0 A0 s -> spin_inv d0 A0 (spin_run sched s).
Proof.
  revert s. induction sched as [|i sched IH]; intros s Hv; cbn [spin_run]; [done|]. apply IH.
  destruct (spin_step i s) as [[o s']|] eqn:E; [by eapply spin_step_inv|done].
Qed.

(** ** Progress *)

Definition gets_in (i : nat) s : Prop := exists a r, sp_agents s !! i = Some a /\ inside a = Some r.
Lemma run_app l1 l2 s : spin_run (l1 ++ l2) s = spin_run l2 (spin_run l1 s).
Proof. revert s. induction l1 as [|i l1 IH]; intros s; cbn; [done|]. apply IH. Qed.
Lemma try_free i a s n : sp_agents s !! i = Some a -> g_pc a = PTry n -> g_todo a <> [] -> sp_word s = 0 -> gets_in i (spin_run [i] s).
Proof.
  intros Hi Hp Ht W. cbn [spin_run]. unfold spin_step. rewrite Hi. cbn [mbind option_bind]. rewrite Hp. unfold lock_step. rewrite Hp.
  destruct (g_todo a) as [|sec todo]; [done|]. rewrite W, trylock_free. unfold gets_in. cbn [mbind option_bind sp_agents put_agent].
  eexists _, sec. rewrite list_lookup_insert_eq by (by eapply lookup_lt_Some). done.
Qed.
Lemma pc_step i a s pc o : sp_agents s !! i = Some a -> spin_step i s = Some (o, put_agent i (set_pc pc a) s) ->
  spin_run [i] s = put_agent i (set_pc pc a) s /\ sp_agents (put_agent i (set_pc pc a) s) !! i = Some (set_pc pc a).
Proof.
  intros Hi E. cbn [spin_run]. rewrite E. split; [done|]. cbn. apply list_lookup_insert_eq. by eapply lookup_lt_Some.
Qed.
Lemma read_free i a s n : sp_agents s !! i = Some a -> g_pc a = PRead n -> g_todo a <> [] -> sp_word s = 0 -> gets_in i (spin_run [i; i] s).
Proof.
  intros Hi Hp Ht W. destruct (pc_step i a s (PTry n) None Hi) as [E Hl].
  { unfold spin_step. rewrite Hi. cbn [mbind option_bind]. rewrite Hp. unfold lock_step. by rewrite Hp, W. }
  change [i; i] with ([i] ++ [i]). rewrite run_app, E. by eapply try_free.
Qed.
(** A thread that wants the free lock has it after at most three steps of its
    own. *)
Lemma gets_in_free i a s : sp_agents s !! i = Some a -> g_todo a <> [] -> inside a = None -> sp_word s = 0 ->
  exists k, (k <= 3)%nat /\ gets_in i (spin_run (replicate k i) s).
Proof.
  intros Hi Ht Hn W. unfold inside in Hn. destruct (g_pc a) as [|n|n|n|r] eqn:Hp; [| | | |done].
  - exists 2%nat. split; [lia|]. destruct (pc_step i a s (PTry 0) None Hi) as [E Hl].
    { unfold spin_step. rewrite Hi. cbn [mbind option_bind]. rewrite Hp. by destruct (g_todo a). }
    change (replicate 2 i) with ([i] ++ [i]). rewrite run_app, E. by eapply try_free.
  - exists 1%nat. split; [lia|]. by eapply try_free.
  - exists 2%nat. split; [lia|]. by eapply read_free.
  - exists 3%nat. split; [lia|]. destruct (pc_step i a s (PRead (u32 (n + 1))) (Some (spin_backoff n)) Hi) as [E Hl].
    { unfold spin_step. rewrite Hi. cbn [mbind option_bind]. rewrite Hp. unfold lock_step. by rewrite Hp. }
    change (replicate 3 i) with ([i] ++ [i; i]). rewrite run_app, E. by eapply read_free.
Qed.

(** A step of another thread does not touch the holder. *)
Lemma step_other i j s o s' : spin_step j s = Some (o, s') -> j <> i -> sp_agents s' !! i = sp_agents s !! i.
Proof.
  intros E Hn. unfold spin_step, lock_step in E. destruct (sp_agents s !! j) as [a|]; [|done]. cbn [mbind option_bind] in E.
  assert (Hput : forall b (w : spin S L), sp_agents w = sp_agents s -> sp_agents (put_agent j b w) !! i = sp_agents s !! i).
  { intros b w Hw. cbn. rewrite Hw. by apply list_lookup_insert_ne. }
  destruct (g_pc a) as [|n|n|n|[|f rest]].
  - destruct (g_todo a); simplify_eq. by apply Hput.
  - destruct (g_todo a); [done|]. cbn in E. destruct (_ =? 0); simplify_eq; by apply Hput.
  - simplify_eq. by apply Hput.
  - simplify_eq. by apply Hput.
  - cbn in E. simplify_eq. by apply Hput.
  - destruct (f _ _) as [d l]. simplify_eq. cbn. by apply list_lookup_insert_ne.
Qed.
(** The holder leaves after as many steps of its own as its section has left,
    and one, whatever the others do in between. *)
Lemma holder_leaves d0 A0 sched i a r s : spin_inv d0 A0 s -> sp_agents s !! i = Some a -> g_pc a = PIn r ->
  (length (filter (fun j => j = i) sched) = length r + 1)%nat ->
  exists pre post, sched = pre ++ post /\ sp_word (spin_run pre s) = 0.
Proof.
  revert a r s. induction sched as [|j sched IH]; intros a r s Hv Hi Hp Hc; [cbn in Hc; lia|].
  assert (Hgo : forall s1, spin_inv d0 A0 s1 -> (match spin_step j s with Some (_, s') => s' | None => s end) = s1 ->
    (exists a1 r1, sp_agents s1 !! i = Some a1 /\ g_pc a1 = PIn r1 /\ (length (filter (fun j => j = i) sched) = length r1 + 1)%nat) \/ sp_word s1 = 0 ->
    exists pre post, j :: sched = pre ++ post /\ sp_word (spin_run pre s) = 0).
  { intros s1 Hv1 E1 [(a1 & r1 & Hi1 & Hp1 & Hc1)|W].
    - destruct (IH a1 r1 s1 Hv1 Hi1 Hp1 Hc1) as (pre & post & -> & W). exists (j :: pre), post. split; [done|]. cbn [spin_run]. by rewrite E1.
    - exists [j], sched. split; [done|]. cbn [spin_run]. by rewrite E1. }
  destruct (spin_step j s) as [[o s']|] eqn:E.
  - apply (Hgo s'); [by eapply spin_step_inv|done|]. destruct (decide (j = i)) as [->|Hn].
    + rewrite filter_cons_True in Hc by done. cbn in Hc. unfold spin_step in E. rewrite Hi in E. cbn [mbind option_bind] in E. rewrite Hp in E.
      assert (Hlt : (i < length (sp_agents s))%nat) by (by eapply lookup_lt_Some). destruct r as [|f r].
      * right. assert (W : sp_word s = 1).
        { destruct (si_hold _ _ _ Hv) as [(_ & N & _)|(k & b & x & W & _)]; [|done]. specialize (N i a Hi). unfold inside in N. by rewrite Hp in N. }
        rewrite W in E. cbn in E. by simplify_eq.
      * left. destruct (f _ _) as [d l]. simplify_eq. eexists _, r. cbn. rewrite list_lookup_insert_eq by done. split_and!; [done|done|cbn in Hc; lia].
    + rewrite filter_cons_False in Hc by done. left. exists a, r. rewrite (step_other i j s o s' E Hn). done.
  - apply (Hgo s); [done|done|]. destruct (decide (j = i)) as [->|Hn].
    + exfalso. unfold spin_step in E. rewrite Hi in E. cbn [mbind option_bind] in E. rewrite Hp in E. destruct r as [|f r]; [done|].
      by destruct (f _ _).
    + rewrite filter_cons_False in Hc by done. left. by exists a, r.
Qed.
End atomic.

(** C4: critical sections under a spinlock are atomic. Whatever the schedule of
    the steps of any number of threads that start with the lock free: at most
    one of them is in its section; while none is, the shared data and the local
    variables are what the sections give that have been entered, each run as a
    whole, one after the other in the order in which the lock was taken, and
    while one is, they will be when it has run the rest of it; every thread's
    sections come in its own order, each once. A thread that wants the free
    lock has it after at most three of its own steps if the others rest, and a
    holder leaves after as many of its own steps as its section has left, and
    one, whatever the others do. *)
Theorem spin_sections_atomic {S L : Type} (s0 : spin S L) (sched : list nat) :
  fresh s0 ->
  let s := spin_run sched s0 in
  let total := serial (sp_log s) (sp_data s0) (locs s0) in
  (forall i j a b, sp_agents s !! i = Some a -> sp_agents s !! j = Some b -> inside a <> None -> inside b <> None -> i = j) /\
  ((forall i a, sp_agents s !! i = Some a -> inside a = None) -> (sp_data s, locs s) = total) /\
  (forall i a r, sp_agents s !! i = Some a -> inside a = Some r ->
     (let '(d, l) := run_sec r (sp_data s) (g_loc a) in (d, <[i := l]> (locs s))) = total) /\
  (forall i a a0, sp_agents s !! i = Some a -> sp_agents s0 !! i = Some a0 -> taken i (sp_log s) ++ g_todo a = g_todo a0) /\
  (forall i a, sp_agents s !! i = Some a -> g_todo a <> [] -> (forall j b, sp_agents s !! j = Some b -> inside b = None) ->
     exists k, (k <= 3)%nat /\ gets_in i (spin_run (replicate k i) s)) /\
  (forall i a r sched', sp_agents s !! i = Some a -> inside a = Some r ->
     (length (filter (fun j => j = i) sched') = length r + 1)%nat ->
     exists pre post, sched' = pre ++ post /\ sp_word (spin_run pre s) = 0).
Proof.
  intros Hf s total. assert (Hv := run_inv _ _ _ sched (fresh_inv s0 Hf)). fold s in Hv.
  assert (Hfree : (forall i a, sp_agents s !! i = Some a -> inside a = None) -> sp_word s = 0 /\ total = (sp_data s, locs s)).
  { intros N. destruct (si_hold _ _ _ Hv) as [(W & _ & E)|(k & b & r & W & Hk & Hb & _)]; [done|]. by rewrite (N k b Hk) in Hb. }
  split_and!.
  - intros i j a b Hi Hj Ha Hb. destruct (si_hold _ _ _ Hv) as [(_ & N & _)|(k & c & r & _ & _ & _ & U & _)]; [by destruct Ha; eapply N|].
    by rewrite (U i a Hi Ha), (U j b Hj Hb).
  - intros N. by destruct (Hfree N) as [_ ->].
  - intros i a r Hi Ha. destruct (si_hold _ _ _ Hv) as [(_ & N & _)|(k & c & r' & _ & Hk & Hc & U & E)]; [by rewrite (N i a Hi) in Ha|].
    assert (i = k) as -> by (apply (U i a Hi); by rewrite Ha). simplify_eq. by rewrite <- E.
  - intros i a a0 Hi Hi0. by eapply si_order.
  - intros i a Hi Ht N. eapply gets_in_free; [done|done|by eapply N|by apply Hfree].
  - intros i a r sched' Hi Ha Hc. unfold inside in Ha. destruct (g_pc a) eqn:Hp; simplify_eq. by eapply holder_leaves.
Qed.

(** Two threads add to a counter in two steps each: reading and writing. *)
Definition count_sec : list (micro Z Z) := [(fun d l => (d, d)); (fun d l => (l + 1, l))].
Definition two_counters : spin Z Z := Spin 0 0 [Agent PIdle 0 [count_sec]; Agent PIdle 0 [count_sec]] [].
Definition two_sched : list nat := [0; 1; 0; 1; 0; 1; 1; 0; 1; 0; 1; 1; 1; 1; 1; 1; 1; 1]%nat.
Lemma spin_sections_atomic_witness :
  let s := spin_run two_sched two_counters in sp_data s = 2 /\ sp_word (spin_run (take 6 two_sched) two_counters) = 1.
Proof.
  assert (Hf : fresh two_counters).
  { split_and!; [done..|]. intros [|[|i]] a; cbn; intros [= <-]; done. }
  destruct (spin_sections_atomic two_counters two_sched Hf) as (_ & H & _). split; [|vm_compute; reflexivity].
  assert (E : (sp_data (spin_run two_sched two_counters), locs (spin_run two_sched two_counters)) = (2, [0; 1])).
  { rewrite H; [vm_compute; reflexivity|].
    assert (Hs : sp_agents (spin_run two_sched two_counters) = [Agent PIdle 0 []; Agent PIdle 1 []]) by (vm_compute; reflexivity).
    rewrite Hs. intros [|[|i]] a; cbn; intros [= <-]; done. }
  exact (f_equal fst E).
Defined.
