(* ===== verification/Links.v ===== *)
(** * Circular doubly-linked lists

    The thread queues ([q_next]/[q_prev] of a TCB), the rings
    ([rn_next]/[rn_prev]) and the event rings ([ev_next]/[ev_prev]) all link
    their nodes into a cycle. This file holds the two link fields as maps
    from the address of a node to the field's value, the reads and writes of
    a field through a pointer, and the segment predicate the three components
    share. *)

From stdpp Require Import base numbers gmap list.
From S2P Require Import Prelude.
Open Scope Z_scope.

Record dll := Dll { nxt : gmap addr ptr; prv : gmap addr ptr }.

(** [p->next], [p->prev] and the assignments to them; undefined when [p] is
    NULL or not the address of a node. *)
Definition rd_next (p : ptr) : st dll ptr :=
  fun h => match p with
           | Some a => match nxt h !! a with Some v => Some (v, h) | None => None end
           | None => None end.
Definition rd_prev (p : ptr) : st dll ptr :=
  fun h => match p with
           | Some a => match prv h !! a with Some v => Some (v, h) | None => None end
           | None => None end.
Definition wr_next (p v : ptr) : st dll unit :=
  fun h => match p with
           | Some a => match nxt h !! a with
                       | Some _ => Some (tt, Dll (<[a := v]> (nxt h)) (prv h))
                       | None => None end
           | None => None end.
Definition wr_prev (p v : ptr) : st dll unit :=
  fun h => match p with
           | Some a => match prv h !! a with
                       | Some _ => Some (tt, Dll (nxt h) (<[a := v]> (prv h)))
                       | None => None end
           | None => None end.

(** The address has both link fields, i.e. it is a node. *)
Definition node (h : dll) (a : addr) : Prop :=
  is_Some (nxt h !! a) /\ is_Some (prv h !! a).

(** [seg h x l y]: from [x] the [next] fields lead through [l] to [y], and
    the [prev] fields lead back. *)
Fixpoint seg (h : dll) (x : addr) (l : list addr) (y : addr) : Prop :=
  match l with
  | [] => nxt h !! x = Some (Some y) /\ prv h !! y = Some (Some x)
  | z :: l' => nxt h !! x = Some (Some z) /\ prv h !! z = Some (Some x) /\ seg h z l' y
  end.

(** The cycle through the nodes of a list. *)
Definition cyc (h : dll) (l : list addr) : Prop :=
  match l with [] => True | x :: l' => seg h x l' x end.

Lemma seg_app h x l1 z l2 y :
  seg h x (l1 ++ z :: l2) y <-> seg h x l1 z /\ seg h z l2 y.
Proof.
  revert x. induction l1 as [|w l1 IH]; intros x; simpl; [tauto|].
  rewrite IH. tauto.
Qed.

Lemma seg_snoc h x l z y :
  seg h x (l ++ [z]) y <-> seg h x l z /\ nxt h !! z = Some (Some y) /\ prv h !! y = Some (Some z).
Proof. apply (seg_app h x l z [] y). Qed.

(** Only the [next] fields of the segment's sources and the [prev] fields of
    its targets matter. *)
Lemma seg_frame h h' x l y :
  (forall a, a ∈ x :: l -> nxt h' !! a = nxt h !! a) ->
  (forall a, a ∈ l ++ [y] -> prv h' !! a = prv h !! a) ->
  seg h x l y -> seg h' x l y.
Proof.
  revert x. induction l as [|z l IH]; intros x Hn Hp; simpl in *.
  - rewrite Hn, Hp by set_solver. done.
  - intros (H1 & H2 & H3). rewrite Hn, Hp by set_solver.
    split_and!; [done..|]. apply IH; [..|done]; intros a Ha; [apply Hn|apply Hp]; set_solver.
Qed.

Lemma cyc_frame h h' l :
  (forall a, a ∈ l -> nxt h' !! a = nxt h !! a /\ prv h' !! a = prv h !! a) ->
  cyc h l -> cyc h' l.
Proof.
  destruct l as [|x l]; [done|]. simpl. intros H. apply seg_frame.
  - intros a Ha. by apply H.
  - intros a Ha. apply H. set_solver.
Qed.

Lemma cyc_rotate h l1 l2 : cyc h (l1 ++ l2) -> cyc h (l2 ++ l1).
Proof.
  destruct l1 as [|x l1], l2 as [|y l2]; simpl; rewrite ?app_nil_r; try done.
  rewrite !seg_app. tauto.
Qed.

Lemma seg_node h x l y : seg h x l y -> forall a, a ∈ l -> node h a.
Proof.
  revert x. induction l as [|z l IH]; intros x; [set_solver|].
  intros (H1 & H2 & H3) a [->|Ha]%elem_of_cons; [|by eapply IH].
  split; [|by eexists]. destruct l; simpl in H3; destruct H3; by eexists.
Qed.

Lemma seg_next_Some h x l y : seg h x l y -> is_Some (nxt h !! x).
Proof. destruct l; simpl; intros [? _]; by eexists. Qed.

Lemma cyc_node h l a : cyc h l -> a ∈ l -> node h a.
Proof.
  destruct l as [|x l]; [set_solver|]. simpl. intros H [->|Ha]%elem_of_cons.
  - split; [by eapply seg_next_Some|].
    destruct (nil_or_snoc l) as [->|(l' & z & ->)].
    + destruct H; by eexists.
    + rewrite seg_snoc in H. destruct H as (_ & _ & H). by eexists.
  - by eapply seg_node.
Qed.

(** The successor and the predecessor of a node of a cycle, and the two ways
    the cycle is written around it. *)
Lemma cyc_next h l1 a b l2 : cyc h (l1 ++ a :: b :: l2) ->
  nxt h !! a = Some (Some b) /\ prv h !! b = Some (Some a).
Proof.
  intros H%cyc_rotate. simpl in H. tauto.
Qed.

(** The successor of a node, wherever it is in the list. *)
Lemma cyc_next_head h l1 a l2 : cyc h (l1 ++ a :: l2) ->
  nxt h !! a = Some (head (l2 ++ l1 ++ [a])).
Proof.
  intros H%cyc_rotate. simpl in H. destruct (l2 ++ l1) as [|x l] eqn:E.
  - destruct l2, l1; [|done..]. simpl in *. tauto.
  - rewrite app_assoc, E. simpl in *. tauto.
Qed.

Lemma cyc_last h a l b : cyc h (a :: l ++ [b]) ->
  nxt h !! b = Some (Some a) /\ prv h !! a = Some (Some b).
Proof. simpl. rewrite seg_snoc. tauto. Qed.

Lemma cyc_single h a : cyc h [a] -> nxt h !! a = Some (Some a) /\ prv h !! a = Some (Some a).
Proof. done. Qed.

(** ** Linking a node in and out

    [t] is linked between the neighbours [a] and [b]: the four fields the
    insertions assign, whatever the order of the assignments. *)
Definition link_between (a b t : addr) (h : dll) : dll :=
  Dll (<[a := Some t]> (<[t := Some b]> (nxt h)))
      (<[b := Some t]> (<[t := Some a]> (prv h))).

Lemma seg_link h x l a b t :
  t ∉ x :: l -> t <> a -> t <> b -> a ∉ x :: l -> b ∉ l ->
  b <> a -> seg h x l a -> seg (link_between a b t h) x l a.
Proof.
  intros Ht Hta Htb Ha Hb Hba. apply seg_frame; simpl.
  - intros c Hc. rewrite !lookup_insert_ne; [done|set_solver..].
  - intros c Hc. rewrite !lookup_insert_ne; [done|set_solver..].
Qed.

(** Linking [t] before the first node of a cycle: between the last and the
    first. The cycle then ends with [t]. *)
Lemma cyc_link_end h x l t a :
  cyc h (x :: l) -> NoDup (x :: l) -> t ∉ x :: l -> prv h !! x = Some (Some a) ->
  cyc (link_between a x t h) (x :: l ++ [t]).
Proof.
  intros Hc Hnd Ht Ha. simpl. rewrite seg_snoc.
  destruct (nil_or_snoc l) as [->|(l' & z & ->)].
  - simpl in *. destruct Hc as [H1 H2]. assert (a = x) as -> by congruence.
    assert (t <> x) by set_solver.
    split_and!; by simplify_map_eq.
  - simpl in Hc. apply seg_snoc in Hc as (Hc & Hz1 & Hz2).
    assert (a = z) as -> by congruence.
    apply NoDup_cons in Hnd as [Hx Hnd]. apply NoDup_app in Hnd as (_ & Hzl & _).
    assert (x <> z) as Hxz by set_solver. assert (x ∉ l') as Hxl by set_solver.
    assert (z ∉ l') as Hzl' by set_solver. assert (t <> x) as Htx by set_solver.
    assert (t <> z) as Htz by set_solver. assert (t ∉ l') as Htl by set_solver.
    rewrite seg_snoc. split_and!.
    + revert Hc. apply seg_frame; simpl; intros c Hc;
        rewrite !lookup_insert_ne; set_solver.
    + by simplify_map_eq.
    + by simplify_map_eq.
    + by simplify_map_eq.
    + by simplify_map_eq.
Qed.

(** Linking [t] behind a node [a] of a cycle. *)
Lemma cyc_link_after h l1 a l2 t b :
  cyc h (l1 ++ a :: l2) -> NoDup (l1 ++ a :: l2) -> t ∉ l1 ++ a :: l2 ->
  nxt h !! a = Some (Some b) ->
  cyc (link_between a b t h) (l1 ++ a :: t :: l2).
Proof.
  intros Hc Hnd Ht Hb.
  assert (Hc' : cyc h ((l2 ++ l1) ++ [a])).
  { rewrite <- app_assoc. apply cyc_rotate. rewrite <- app_assoc. by apply cyc_rotate, cyc_rotate. }
  assert (Hnd' : NoDup ((l2 ++ l1) ++ [a])).
  { by rewrite <- perm_rot_end. }
  assert (Ht' : t ∉ (l2 ++ l1) ++ [a]) by set_solver.
  assert (Hg : cyc (link_between a b t h) ((l2 ++ l1) ++ [a; t])).
  { destruct (l2 ++ l1) as [|x l] eqn:El.
    - simpl in *. destruct Hc' as [H1 H2]. assert (b = a) as -> by congruence.
      assert (t <> a) by set_solver.
      split_and!; by simplify_map_eq.
    - simpl in Hc'. pose proof (proj1 (seg_snoc _ _ _ _ _) Hc') as (_ & H1 & H2).
      assert (b = x) as -> by congruence.
      pose proof (cyc_link_end h x (l ++ [a]) t a Hc' Hnd' Ht' H2) as Hr.
      rewrite <- app_assoc in Hr. exact Hr. }
  apply cyc_rotate in Hg. simpl in Hg.
  assert (Hg2 : cyc (link_between a b t h) ((a :: t :: l2) ++ l1)) by done.
  by apply cyc_rotate in Hg2.
Qed.

(** Taking [t] out: its neighbours are linked to each other. *)
Definition unlink (a b : addr) (h : dll) : dll :=
  Dll (<[a := Some b]> (nxt h)) (<[b := Some a]> (prv h)).

Lemma cyc_unlink_head h t x l a :
  cyc h (t :: x :: l) -> NoDup (t :: x :: l) -> prv h !! t = Some (Some a) ->
  cyc (unlink a x h) (x :: l).
Proof.
  intros Hc Hnd Ha.
  destruct (nil_or_snoc l) as [->|(l' & z & ->)].
  - simpl in *. destruct Hc as (H1 & H2 & H3 & H4). assert (a = x) as -> by congruence.
    by rewrite !lookup_insert_eq.
  - simpl in Hc. destruct Hc as (H1 & H2 & Hc).
    apply seg_snoc in Hc as (Hc & Hz1 & Hz2). assert (a = z) as -> by congruence.
    simpl. rewrite seg_snoc.
    apply NoDup_cons in Hnd as [_ Hnd]. apply NoDup_cons in Hnd as [Hx Hnd].
    apply NoDup_app in Hnd as (_ & Hzl & _).
    assert (x <> z) as Hxz by set_solver. assert (x ∉ l') as Hxl by set_solver.
    assert (z ∉ l') as Hzl' by set_solver.
    split_and!.
    + revert Hc. apply seg_frame; simpl; intros c Hc; rewrite !lookup_insert_ne; set_solver.
    + simpl. by rewrite lookup_insert_eq.
    + simpl. by rewrite lookup_insert_eq.
Qed.

Lemma cyc_unlink h l1 t l2 a b :
  l1 ++ l2 <> [] ->
  cyc h (l1 ++ t :: l2) -> NoDup (l1 ++ t :: l2) ->
  prv h !! t = Some (Some a) -> nxt h !! t = Some (Some b) ->
  cyc (unlink a b h) (l1 ++ l2).
Proof.
  intros Hne Hc Hnd Ha Hb.
  apply cyc_rotate in Hc. rewrite <- app_comm_cons in Hc.
  assert (Hnd' : NoDup (t :: l2 ++ l1)).
  { by rewrite <- perm_rot. }
  apply cyc_rotate.
  destruct (l2 ++ l1) as [|x l] eqn:El.
  { exfalso. apply Hne. destruct l1, l2; simpl in *; done. }
  assert (b = x) as -> by (simpl in Hc; destruct Hc; congruence).
  by apply (cyc_unlink_head h t x l a).
Qed.

(** The neighbours of a node of a cycle are nodes of the cycle. *)
Lemma seg_neighbours h x l y :
  seg h x l y -> forall a, a ∈ x :: l -> exists b, nxt h !! a = Some (Some b) /\ b ∈ l ++ [y].
Proof.
  revert x. induction l as [|z l IH]; intros x; simpl.
  - intros [H1 H2] a ->%list_elem_of_singleton. exists y. set_solver.
  - intros (H1 & H2 & H3) a [->|Ha]%elem_of_cons.
    + exists z. set_solver.
    + destruct (IH z H3 a Ha) as (b & Hb & Hin). exists b. set_solver.
Qed.

Lemma seg_neighbours_prev h x l y :
  seg h x l y -> forall a, a ∈ l ++ [y] -> exists b, prv h !! a = Some (Some b) /\ b ∈ x :: l.
Proof.
  revert x. induction l as [|z l IH]; intros x; simpl.
  - intros [H1 H2] a ->%list_elem_of_singleton. exists x. set_solver.
  - intros (H1 & H2 & H3) a [->|Ha]%elem_of_cons.
    + exists x. set_solver.
    + destruct (IH z H3 a Ha) as (b & Hb & Hin). exists b. set_solver.
Qed.

Lemma cyc_next_in h l a : cyc h l -> a ∈ l -> exists b, nxt h !! a = Some (Some b) /\ b ∈ l.
Proof.
  destruct l as [|x l]; [set_solver|]. intros Hc Ha.
  destruct (seg_neighbours _ _ _ _ Hc a Ha) as (b & Hb & Hin). exists b. set_solver.
Qed.

Lemma cyc_prev_in h l a : cyc h l -> a ∈ l -> exists b, prv h !! a = Some (Some b) /\ b ∈ l.
Proof.
  destruct l as [|x l]; [set_solver|]. intros Hc Ha.
  destruct (seg_neighbours_prev _ _ _ _ Hc a) as (b & Hb & Hin); [set_solver|].
  exists b. set_solver.
Qed.

(** A node of a cycle of more than one node has other nodes around it. *)
Lemma cyc_other h l1 t l2 :
  cyc h (l1 ++ t :: l2) -> NoDup (l1 ++ t :: l2) -> l1 ++ l2 <> [] ->
  exists a b, prv h !! t = Some (Some a) /\ nxt h !! t = Some (Some b) /\
    a ∈ l1 ++ l2 /\ b ∈ l1 ++ l2 /\ head (l2 ++ l1 ++ [t]) = Some b.
Proof.
  intros Hc Hnd Hne. assert (Hc' := cyc_rotate _ _ _ Hc). simpl in Hc'.
  assert (Hnx := cyc_next_head _ _ _ _ Hc).
  destruct (nil_or_snoc (l2 ++ l1)) as [El|(l' & z & El)].
  { apply app_eq_nil in El as [-> ->]. done. }
  assert (Hz : z ∈ l1 ++ l2).
  { rewrite Permutation_app_comm, El. apply elem_of_app. right. by left. }
  rewrite El in Hc'. apply cyc_last in Hc' as [_ Hp].
  rewrite app_assoc, El in Hnx |- *. exists z.
  destruct l' as [|b l']; simpl in *.
  - exists z. done.
  - exists b. split_and!; [done..| |done]. rewrite Permutation_app_comm, El. by left.
Qed.

#[export] Hint Resolve cyc_frame seg_frame : pth.
#[global] Arguments cyc : simpl never.

(** ** Symbolic execution of the field accesses *)

Lemma x_rnext h a v : nxt h !! a = Some v -> rd_next (Some a) h = Some (v, h).
Proof. intros H. unfold rd_next. by rewrite H. Qed.
Lemma x_rprev h a v : prv h !! a = Some v -> rd_prev (Some a) h = Some (v, h).
Proof. intros H. unfold rd_prev. by rewrite H. Qed.
Lemma x_wnext h a w v : nxt h !! a = Some w ->
  wr_next (Some a) v h = Some (tt, Dll (<[a := v]> (nxt h)) (prv h)).
Proof. intros H. unfold wr_next. by rewrite H. Qed.
Lemma x_wprev h a w v : prv h !! a = Some w ->
  wr_prev (Some a) v h = Some (tt, Dll (nxt h) (<[a := v]> (prv h))).
Proof. intros H. unfold wr_prev. by rewrite H. Qed.

(** A lookup in a chain of updates, and the execution of the first statement
    of a sequence. *)
Ltac lookup_upd :=
  simpl; repeat first [ rewrite lookup_insert_eq | rewrite lookup_insert_ne by congruence ];
  first [ reflexivity | eassumption ].
Ltac lstep :=
  cbn [fst snd nxt prv];
  first [ rewrite (st_bind_Some _ _ _ _ _ (st_ret_eq _ _))
        | erewrite st_bind_Some;
          [ | first [ apply x_rnext; lookup_upd | apply x_rprev; lookup_upd
                    | eapply x_wnext; lookup_upd | eapply x_wprev; lookup_upd
                    | eassumption ] ] ].

(** The frame obligation of a chain of updates. *)
Ltac upd_cases := intros ?a; simpl; rewrite ?lookup_insert; repeat case_decide; subst;
  first [ by left
        | right; split; [by repeat (first [assumption | by left | right])|by eexists] ].

(** [h'] differs from [h] only in the nodes of [S]. *)
Record lframe (S : list addr) (h h' : dll) : Prop := {
  lf_next : forall a, a ∉ S -> nxt h' !! a = nxt h !! a;
  lf_prev : forall a, a ∉ S -> prv h' !! a = prv h !! a;
  lf_node : forall a, node h a -> node h' a
}.

Lemma lframe_refl S h : lframe S h h.
Proof. by constructor. Qed.

Lemma lframe_trans S S' h1 h2 h3 :
  lframe S h1 h2 -> lframe S' h2 h3 -> (forall a, a ∈ S' -> a ∈ S) -> lframe S h1 h3.
Proof.
  intros [H1 H2 H3] [K1 K2 K3] HS.
  constructor; intros a Ha; [rewrite K1 by auto; auto|rewrite K2 by auto; auto|auto].
Qed.

Lemma lframe_upd S h nx pv :
  (forall a, nx !! a = nxt h !! a \/ (a ∈ S /\ is_Some (nx !! a))) ->
  (forall a, pv !! a = prv h !! a \/ (a ∈ S /\ is_Some (pv !! a))) ->
  lframe S h (Dll nx pv).
Proof.
  intros Hn Hp. constructor; simpl; intros a Ha.
  - destruct (Hn a) as [|[]]; [done|by destruct Ha].
  - destruct (Hp a) as [|[]]; [done|by destruct Ha].
  - destruct Ha as [H1 H2]. split; simpl.
    + destruct (Hn a) as [->|[]]; done.
    + destruct (Hp a) as [->|[]]; done.
Qed.

Lemma cyc_lframe S h h' l : lframe S h h' -> (forall a, a ∈ l -> a ∉ S) -> cyc h l -> cyc h' l.
Proof.
  intros [Hn Hp _] HS. apply cyc_frame. intros a Ha. split; [apply Hn|apply Hp]; by apply HS.
Qed.

#[export] Hint Resolve lframe_refl : pth.
