(* ===== verification/Pqueue.v ===== *)
(** * Thread priority queues (src/pth_pqueue.c)

    A queue is a cycle of thread control blocks linked through their
    [q_next]/[q_prev] fields. The head stores its priority in [q_prio], every
    other thread the difference to its predecessor. The operations are
    modelled on the three fields of all control blocks; [pq_rep] relates a
    queue to the list of its threads with their absolute priorities, and each
    operation is shown to implement an operation on that list. *)

From stdpp Require Import base numbers gmap list.
From S2P Require Import Prelude Links.
Open Scope Z_scope.

(** [q_next], [q_prev] (links) and [q_prio] of every control block. *)
Record qheap := QHeap { q_links : dll; q_prios : gmap addr Z }.

(** [struct pth_pqueue_st] *)
Record pqueue := Pqueue { q_head : ptr; q_num : Z }.

Definition on_links {A : Type} (m : st dll A) : st qheap A :=
  zoom q_links (fun d h => QHeap d (q_prios h)) m.

Definition rd_qprio (p : ptr) : st qheap Z :=
  fun h => match p with
           | Some a => match q_prios h !! a with Some v => Some (v, h) | None => None end
           | None => None end.
Definition wr_qprio (p : ptr) (v : Z) : st qheap unit :=
  fun h => match p with
           | Some a => match q_prios h !! a with
                       | Some _ => Some (tt, QHeap (q_links h) (<[a := v]> (q_prios h)))
                       | None => None end
           | None => None end.

Definition PTH_PRIO_MAX : Z := 5.
Definition PTH_PRIO_STD : Z := 0.
Definition PTH_PRIO_MIN : Z := -5.

Definition pth_pqueue_init (q : option pqueue) : option pqueue :=
  match q with Some _ => Some (Pqueue NULL 0) | None => None end.

(** The [while] loop of [pth_pqueue_insert]: from [c] with absolute priority
    [p], pass every thread whose successor has at least priority [prio]. *)
Fixpoint pth_pqueue_insert_walk (fuel : nat) (qh : ptr) (prio : Z) (c : ptr) (p : Z)
  : st qheap (ptr * Z) :=
  match fuel with
  | O => undef
  | S fuel' =>
      cn ← on_links (rd_next c);
      cnp ← rd_qprio cn;
      if (p - cnp >=? prio) && negb (bool_decide (cn = qh))
      then pth_pqueue_insert_walk fuel' qh prio cn (p - cnp)
      else mret (c, p)
  end.

Definition pth_pqueue_insert (q : option pqueue) (prio : Z) (t : ptr)
  : st qheap (option pqueue) :=
  match q with
  | None => mret None
  | Some q =>
      if bool_decide (q_head q = NULL) || (q_num q =? 0) then
        on_links (wr_prev t t);;
        on_links (wr_next t t);;
        wr_qprio t prio;;
        mret (Some (Pqueue t (q_num q + 1)))
      else
        hp ← rd_qprio (q_head q);
        if hp <? prio then
          pv ← on_links (rd_prev (q_head q));
          on_links (wr_prev t pv);;
          on_links (wr_next t (q_head q));;
          tp ← on_links (rd_prev t);
          on_links (wr_next tp t);;
          tn ← on_links (rd_next t);
          on_links (wr_prev tn t);;
          wr_qprio t prio;;
          np ← rd_qprio tn;
          wr_qprio tn (prio - np);;
          mret (Some (Pqueue t (q_num q + 1)))
        else
          cp ← pth_pqueue_insert_walk (Z.to_nat (q_num q)) (q_head q) prio (q_head q) hp;
          on_links (wr_prev t cp.1);;
          cn ← on_links (rd_next cp.1);
          on_links (wr_next t cn);;
          tp ← on_links (rd_prev t);
          on_links (wr_next tp t);;
          tn ← on_links (rd_next t);
          on_links (wr_prev tn t);;
          wr_qprio t (cp.2 - prio);;
          (if bool_decide (tn = q_head q) then mret tt
           else np ← rd_qprio tn; tq ← rd_qprio t; wr_qprio tn (np - tq));;
          mret (Some (Pqueue (q_head q) (q_num q + 1)))
  end.

(** The common tail of [pth_pqueue_delmax] and [pth_pqueue_delete]: the last
    thread of a queue is taken out. *)
Definition pth_pqueue_clear_last (t : ptr) : st qheap (option pqueue) :=
  on_links (wr_next t NULL);;
  on_links (wr_prev t NULL);;
  wr_qprio t 0;;
  mret (Some (Pqueue NULL 0)).

(** ... and the head of a queue with more than one thread. *)
Definition pth_pqueue_unlink_head (q : pqueue) (t : ptr) : st qheap (option pqueue) :=
  tn ← on_links (rd_next t);
  tp ← on_links (rd_prev t);
  on_links (wr_next tp tn);;
  on_links (wr_prev tn tp);;
  hp ← rd_qprio t;
  np ← rd_qprio tn;
  wr_qprio tn (hp - np);;
  wr_qprio t 0;;
  mret (Some (Pqueue tn (q_num q - 1))).

Definition pth_pqueue_delmax (q : option pqueue) : st qheap (ptr * option pqueue) :=
  match q with
  | None => mret (NULL, None)
  | Some q =>
      if bool_decide (q_head q = NULL) then mret (NULL, Some q)
      else
        hn ← on_links (rd_next (q_head q));
        q' ← (if bool_decide (hn = q_head q)
              then pth_pqueue_clear_last (q_head q)
              else pth_pqueue_unlink_head q (q_head q));
        mret (q_head q, q')
  end.

Definition pth_pqueue_delete (q : option pqueue) (t : ptr) : st qheap (option pqueue) :=
  match q with
  | None => mret None
  | Some q =>
      if bool_decide (q_head q = NULL) then mret (Some q)
      else if bool_decide (q_head q = t) then
        tn ← on_links (rd_next t);
        if bool_decide (tn = t) then pth_pqueue_clear_last t
        else pth_pqueue_unlink_head q t
      else
        tn ← on_links (rd_next t);
        tp ← on_links (rd_prev t);
        on_links (wr_next tp tn);;
        on_links (wr_prev tn tp);;
        (if bool_decide (tn = q_head q) then mret tt
         else np ← rd_qprio tn; tq ← rd_qprio t; wr_qprio tn (np + tq));;
        wr_qprio t 0;;
        mret (Some (Pqueue (q_head q) (q_num q - 1)))
  end.

(** The macro [pth_pqueue_favorite_prio] *)
Definition pth_pqueue_favorite_prio (q : pqueue) : st qheap Z :=
  if bool_decide (q_head q = NULL) then mret PTH_PRIO_MAX
  else hp ← rd_qprio (q_head q); mret (hp + 1).

Definition pth_pqueue_favorite (q : option pqueue) (t : ptr)
  : st qheap (bool * option pqueue) :=
  match q with
  | None => mret (false, None)
  | Some q =>
      if bool_decide (q_head q = NULL) || (q_num q =? 0) then mret (false, Some q)
      else if q_num q =? 1 then mret (true, Some q)
      else
        q1 ← pth_pqueue_delete (Some q) t;
        match q1 with
        | None => undef
        | Some q1 =>
            fp ← pth_pqueue_favorite_prio q1;
            q2 ← pth_pqueue_insert (Some q1) fp t;
            mret (true, q2)
        end
  end.

Definition pth_pqueue_increase (q : option pqueue) : st qheap (option pqueue) :=
  match q with
  | None => mret None
  | Some q =>
      if bool_decide (q_head q = NULL) then mret (Some q)
      else hp ← rd_qprio (q_head q); wr_qprio (q_head q) (hp + 1);; mret (Some q)
  end.

Definition pth_pqueue_elements (q : option pqueue) : Z :=
  match q with None => -1 | Some q => q_num q end.

Definition pth_pqueue_head (q : option pqueue) : ptr :=
  match q with None => NULL | Some q => q_head q end.

Definition pth_pqueue_tail (q : option pqueue) : st qheap ptr :=
  match q with
  | None => mret NULL
  | Some q => if bool_decide (q_head q = NULL) then mret NULL
              else on_links (rd_prev (q_head q))
  end.

(** The [direction] argument: [PTH_WALK_PREV], [PTH_WALK_NEXT] or neither. *)
Inductive walk_dir := WALK_NEXT | WALK_PREV | WALK_OTHER.

Definition pth_pqueue_walk (q : option pqueue) (t : ptr) (direction : walk_dir)
  : st qheap ptr :=
  match q, t with
  | None, _ | _, None => mret NULL
  | Some q, Some _ =>
      match direction with
      | WALK_PREV => if bool_decide (t = q_head q) then mret NULL else on_links (rd_prev t)
      | WALK_NEXT => tn ← on_links (rd_next t);
                     mret (if bool_decide (tn = q_head q) then NULL else tn)
      | WALK_OTHER => mret NULL
      end
  end.

(** The [for] loop of [pth_pqueue_contains]. *)
Fixpoint pth_pqueue_contains_from (fuel : nat) (q : option pqueue) (tc t : ptr)
  : st qheap bool :=
  match tc with
  | None => mret false
  | Some _ =>
      if bool_decide (tc = t) then mret true
      else match fuel with
           | O => undef
           | S fuel' => tn ← pth_pqueue_walk q tc WALK_NEXT;
                        pth_pqueue_contains_from fuel' q tn t
           end
  end.

Definition pth_pqueue_contains (q : option pqueue) (t : ptr) : st qheap bool :=
  pth_pqueue_contains_from (Z.to_nat (pth_pqueue_elements q)) q (pth_pqueue_head q) t.

(** ** The list a queue represents *)

Fixpoint deltas (m : gmap addr Z) (p : Z) (l : list (addr * Z)) : Prop :=
  match l with
  | [] => True
  | (x, px) :: l' => m !! x = Some (p - px) /\ deltas m px l'
  end.

Definition prios_ok (m : gmap addr Z) (l : list (addr * Z)) : Prop :=
  match l with [] => True | (x, p) :: l' => m !! x = Some p /\ deltas m p l' end.

(** [l] lists the threads of [q] from the head on with their absolute
    priorities. *)
Record pq_rep (h : qheap) (q : pqueue) (l : list (addr * Z)) : Prop := {
  pr_num : q_num q = Z.of_nat (length l);
  pr_head : q_head q = head l.*1;
  pr_nodup : NoDup l.*1;
  pr_cyc : cyc (q_links h) l.*1;
  pr_prios : prios_ok (q_prios h) l
}.

(** An allocated control block. *)
Definition qnode (h : qheap) (t : addr) : Prop :=
  node (q_links h) t /\ is_Some (q_prios h !! t).

(** [h'] differs from [h] only in the fields of the nodes in [S], and the
    allocated nodes are the same. *)
Record qframe (S : list addr) (h h' : qheap) : Prop := {
  qf_next : forall a, a ∉ S -> nxt (q_links h') !! a = nxt (q_links h) !! a;
  qf_prev : forall a, a ∉ S -> prv (q_links h') !! a = prv (q_links h) !! a;
  qf_prio : forall a, a ∉ S -> q_prios h' !! a = q_prios h !! a;
  qf_node : forall a, qnode h a -> qnode h' a
}.

(** The operations on lists. *)
Fixpoint pq_ins (prio : Z) (t : addr) (l : list (addr * Z)) : list (addr * Z) :=
  match l with
  | [] => [(t, prio)]
  | (x, p) :: l' => if p <? prio then (t, prio) :: l else (x, p) :: pq_ins prio t l'
  end.

Definition pq_del (t : addr) (l : list (addr * Z)) : list (addr * Z) :=
  filter (fun x => x.1 <> t) l.

Definition pq_incr (l : list (addr * Z)) : list (addr * Z) :=
  (fun x => (x.1, x.2 + 1)) <$> l.

Definition pq_fav (t : addr) (l : list (addr * Z)) : list (addr * Z) :=
  match l with
  | [_] => l
  | _ => match pq_del t l with
         | [] => l
         | (x, p) :: l' => (t, p + 1) :: (x, p) :: l'
         end
  end.

(** A queue ordered by priority. *)
Fixpoint pq_sorted (l : list (addr * Z)) : Prop :=
  match l with
  | [] => True
  | x :: l' => Forall (fun y => y.2 <= x.2) l' /\ pq_sorted l'
  end.

(** ** Lemmas on deltas *)

Lemma deltas_app m p l1 x px l2 :
  deltas m p (l1 ++ (x, px) :: l2) <-> deltas m p (l1 ++ [(x, px)]) /\ deltas m px l2.
Proof.
  revert p. induction l1 as [|[y py] l1 IH]; intros p; simpl; [tauto|].
  rewrite IH. tauto.
Qed.

Lemma deltas_frame m m' p l :
  (forall a, a ∈ l.*1 -> m' !! a = m !! a) -> deltas m p l -> deltas m' p l.
Proof.
  revert p. induction l as [|[y py] l IH]; intros p H; simpl; [done|].
  simpl in H. intros [H1 H2]. rewrite H by set_solver. split; [done|].
  apply IH; [|done]. intros a Ha. apply H. set_solver.
Qed.

Lemma prios_frame m m' l :
  (forall a, a ∈ l.*1 -> m' !! a = m !! a) -> prios_ok m l -> prios_ok m' l.
Proof.
  destruct l as [|[x p] l]; [done|]. simpl. intros H [H1 H2].
  rewrite H by set_solver. split; [done|]. eapply deltas_frame; [|done]. set_solver.
Qed.

Lemma deltas_Some m p l a : deltas m p l -> a ∈ l.*1 -> is_Some (m !! a).
Proof.
  revert p. induction l as [|[y py] l IH]; intros p; simpl; [set_solver|].
  intros [H1 H2] [->|Ha]%elem_of_cons; [by eexists|by eapply IH].
Qed.

Lemma prios_Some m l a : prios_ok m l -> a ∈ l.*1 -> is_Some (m !! a).
Proof.
  destruct l as [|[x p] l]; simpl; [set_solver|].
  intros [H1 H2] [->|Ha]%elem_of_cons; [by eexists|by eapply deltas_Some].
Qed.

Lemma prios_app m l1 x px l2 :
  prios_ok m (l1 ++ (x, px) :: l2) <-> prios_ok m (l1 ++ [(x, px)]) /\ deltas m px l2.
Proof.
  destruct l1 as [|[y py] l1]; simpl; [tauto|]. rewrite deltas_app. tauto.
Qed.

Lemma rep_qnode h q l a : pq_rep h q l -> a ∈ l.*1 -> qnode h a.
Proof.
  intros [] Ha. split; [by eapply cyc_node|by eapply prios_Some].
Qed.

(** A queue is untouched by a change to nodes outside it. *)
Lemma rep_eq h h' q l :
  (forall a, a ∈ l.*1 -> nxt (q_links h') !! a = nxt (q_links h) !! a /\
     prv (q_links h') !! a = prv (q_links h) !! a /\ q_prios h' !! a = q_prios h !! a) ->
  pq_rep h q l -> pq_rep h' q l.
Proof.
  intros He []. constructor; [done..| |].
  - eapply cyc_frame; [|done]. intros a Ha. by destruct (He a Ha) as (? & ? & ?).
  - eapply prios_frame; [|done]. intros a Ha. by apply He.
Qed.
Lemma rep_frame S h h' q l :
  qframe S h h' -> (forall a, a ∈ l.*1 -> a ∉ S) -> pq_rep h q l -> pq_rep h' q l.
Proof.
  intros [Hn Hp Hq _] HS. apply rep_eq. intros a Ha. split_and!; [apply Hn|apply Hp|apply Hq]; by apply HS.
Qed.

(** A queue represents one list only. *)
Lemma seg_inj (h : dll) x l l' y y' : seg h x l y -> seg h x l' y' -> length l = length l' -> l = l'.
Proof.
  revert x l'. induction l as [|z l IH]; intros x [|z' l']; cbn [length seg]; try done.
  intros (Hn & _ & Hs) (Hn' & _ & Hs') [= Hl]. rewrite Hn in Hn'. injection Hn' as <-. f_equal. by eapply IH.
Qed.
Lemma deltas_inj m p l l' : deltas m p l -> deltas m p l' -> l.*1 = l'.*1 -> l = l'.
Proof.
  revert p l'. induction l as [|[x px] l IH]; intros p [|[x' px'] l']; cbn; try done.
  intros [Hx Hd] [Hx' Hd'] [= <- Hl]. rewrite Hx in Hx'. injection Hx' as Hp. assert (px = px') as <- by lia.
  f_equal. by eapply IH.
Qed.
Lemma rep_inj h q l l' : pq_rep h q l -> pq_rep h q l' -> l = l'.
Proof.
  intros [Hn Hh _ Hc Hp] [Hn' Hh' _ Hc' Hp'].
  destruct l as [|[x p] l], l' as [|[x' p'] l']; cbn [length] in *; try done; try lia.
  rewrite Hh in Hh'. injection Hh' as <-. cbn in Hc, Hc', Hp, Hp'. destruct Hp as [Hx Hd], Hp' as [Hx' Hd'].
  rewrite Hx in Hx'. injection Hx' as <-. f_equal. eapply deltas_inj; [done|done|].
  eapply seg_inj; [exact Hc|exact Hc'|]. rewrite !length_fmap. lia.
Qed.

Lemma rep_empty h q : pq_rep h q [] <-> q = Pqueue NULL 0.
Proof.
  split; [|intros ->; constructor; simpl; [done..|constructor|done|done]].
  intros [Hn Hh _ _ _]. destruct q; simpl in *. by subst.
Qed.

Lemma rep_cons h q x p l : pq_rep h q ((x, p) :: l) ->
  q_head q = Some x /\ 0 < q_num q /\ q_prios h !! x = Some p /\ deltas (q_prios h) p l.
Proof. intros [Hn Hh _ _ [Hp Hd]]. simpl in *. split_and!; [done|lia|done..]. Qed.

(** ** Symbolic execution of the field accesses *)

Lemma x_rd_next h a v : nxt (q_links h) !! a = Some v ->
  on_links (rd_next (Some a)) h = Some (v, h).
Proof. intros H. unfold on_links, zoom, rd_next. rewrite H. by destruct h. Qed.
Lemma x_rd_prev h a v : prv (q_links h) !! a = Some v ->
  on_links (rd_prev (Some a)) h = Some (v, h).
Proof. intros H. unfold on_links, zoom, rd_prev. rewrite H. by destruct h. Qed.
Lemma x_rd_prio h a v : q_prios h !! a = Some v -> rd_qprio (Some a) h = Some (v, h).
Proof. intros H. unfold rd_qprio. by rewrite H. Qed.
Lemma x_wr_next h a w v : nxt (q_links h) !! a = Some w ->
  on_links (wr_next (Some a) v) h =
  Some (tt, QHeap (Dll (<[a := v]> (nxt (q_links h))) (prv (q_links h))) (q_prios h)).
Proof. intros H. unfold on_links, zoom, wr_next. by rewrite H. Qed.
Lemma x_wr_prev h a w v : prv (q_links h) !! a = Some w ->
  on_links (wr_prev (Some a) v) h =
  Some (tt, QHeap (Dll (nxt (q_links h)) (<[a := v]> (prv (q_links h)))) (q_prios h)).
Proof. intros H. unfold on_links, zoom, wr_prev. by rewrite H. Qed.
Lemma x_wr_prio h a w v : q_prios h !! a = Some w ->
  wr_qprio (Some a) v h = Some (tt, QHeap (q_links h) (<[a := v]> (q_prios h))).
Proof. intros H. unfold wr_qprio. by rewrite H. Qed.

(** A lookup in a chain of updates. *)
Ltac lk := simpl; repeat first [ rewrite lookup_insert_eq
                               | rewrite lookup_insert_ne by congruence ];
           first [ reflexivity | eassumption ].

(** Execute the first statement of a sequence. *)
Ltac qstep :=
  cbn [fst snd q_links q_prios nxt prv];
  first [ rewrite (st_bind_Some _ _ _ _ _ (st_ret_eq _ _))
        | erewrite st_bind_Some;
          [ | first [ apply x_rd_next; lk | apply x_rd_prev; lk | apply x_rd_prio; lk
                    | eapply x_wr_next; lk | eapply x_wr_prev; lk | eapply x_wr_prio; lk
                    | eassumption ] ] ].

Lemma qframe_refl S h : qframe S h h.
Proof. constructor; auto. Qed.

Lemma qframe_trans S S' h1 h2 h3 :
  qframe S h1 h2 -> qframe S' h2 h3 -> (forall a, a ∈ S' -> a ∈ S) -> qframe S h1 h3.
Proof.
  intros [H1 H2 H3 H4] [K1 K2 K3 K4] HS.
  constructor; intros a Ha; [rewrite K1 by auto; auto|rewrite K2 by auto; auto
    |rewrite K3 by auto; auto|auto].
Qed.

Lemma qframe_sub S S' h h' : qframe S h h' -> (forall a, a ∈ S -> a ∈ S') -> qframe S' h h'.
Proof. intros [H1 H2 H3 H4] HS. constructor; intros a Ha; auto. Qed.

(** A heap that is the old one with some fields of nodes of [S] assigned. *)
Lemma qframe_upd S h nx pv pr :
  (forall a, nx !! a = nxt (q_links h) !! a \/ (a ∈ S /\ is_Some (nx !! a))) ->
  (forall a, pv !! a = prv (q_links h) !! a \/ (a ∈ S /\ is_Some (pv !! a))) ->
  (forall a, pr !! a = q_prios h !! a \/ (a ∈ S /\ is_Some (pr !! a))) ->
  qframe S h (QHeap (Dll nx pv) pr).
Proof.
  intros Hn Hp Hq. constructor; simpl; intros a Ha.
  - destruct (Hn a) as [|[]]; [done|by destruct Ha].
  - destruct (Hp a) as [|[]]; [done|by destruct Ha].
  - destruct (Hq a) as [|[]]; [done|by destruct Ha].
  - destruct Ha as [[H1 H2] H3]. split; [split|]; simpl.
    + destruct (Hn a) as [->|[]]; done.
    + destruct (Hp a) as [->|[]]; done.
    + destruct (Hq a) as [->|[]]; done.
Qed.

(** ** Insertion *)

Lemma pq_ins_cons prio t x p l :
  pq_ins prio t ((x, p) :: l) =
  if p <? prio then (t, prio) :: (x, p) :: l else (x, p) :: pq_ins prio t l.
Proof. done. Qed.

Lemma insert_walk_spec h q pre c p suf prio t fuel :
  pq_rep h q (pre ++ (c, p) :: suf) -> prio <= p -> (length suf < fuel)%nat ->
  exists s1 c' p' s2,
    (c, p) :: suf = s1 ++ (c', p') :: s2 /\
    pth_pqueue_insert_walk fuel (q_head q) prio (Some c) p h = Some ((Some c', p'), h) /\
    pq_ins prio t ((c, p) :: suf) = s1 ++ (c', p') :: (t, prio) :: s2 /\
    prio <= p'.
Proof.
  revert pre c p fuel. induction suf as [|[x px] suf IH]; intros pre c p fuel Hr Hp Hf;
    destruct fuel as [|fuel]; [lia| |lia|].
  - assert (Hnx : nxt (q_links h) !! c = Some (q_head q)).
    { destruct Hr as [_ Hh _ Hc _]. rewrite fmap_app in Hc, Hh. simpl in Hc, Hh.
      rewrite Hh. destruct (pre.*1) as [|y l].
      - by apply cyc_single in Hc as [??].
      - by apply cyc_last in Hc as [??]. }
    assert (exists hd hp, q_head q = Some hd /\ q_prios h !! hd = Some hp) as (hd & hp & Hhd & Hhp).
    { destruct pre as [|[y py] pre]; simpl in Hr; apply rep_cons in Hr; naive_solver. }
    exists [], c, p, []. split_and!; [done| | |done].
    + cbn [pth_pqueue_insert_walk]. rewrite Hhd in *. do 2 qstep.
      rewrite (bool_decide_eq_true_2 (Some hd = Some hd)) by done.
      by rewrite andb_false_r.
    + rewrite pq_ins_cons. by replace (p <? prio) with false by lia.
  - assert (Hx : nxt (q_links h) !! c = Some (Some x) /\ q_prios h !! x = Some (p - px)
                 /\ q_head q <> Some x).
    { destruct Hr as [_ Hh Hnd Hc Hpr]. rewrite fmap_app in Hc, Hh, Hnd. csimpl in *.
      split_and!.
      - by apply cyc_next in Hc as [??].
      - apply prios_app in Hpr as [_ Hd]. simpl in Hd. tauto.
      - rewrite Hh. destruct (pre.*1) as [|y l]; simpl in *.
        + rewrite NoDup_cons in Hnd. intros [= ->]. set_solver.
        + rewrite NoDup_cons in Hnd. intros [= ->]. set_solver. }
    destruct Hx as (Hnx & Hpx & Hhx).
    cbn [pth_pqueue_insert_walk]. do 2 qstep. replace (p - (p - px)) with px by lia.
    destruct (Z.leb_spec prio px) as [Hle|Hlt].
    + replace (px >=? prio) with true by lia.
      rewrite bool_decide_eq_false_2 by congruence. cbn [negb andb].
      destruct (IH (pre ++ [(c, p)]) x px fuel) as (s1 & c' & p' & s2 & E1 & E2 & E3 & E4);
        [by rewrite <- app_assoc|done|simpl in Hf; lia|].
      exists ((c, p) :: s1), c', p', s2. split_and!; [by rewrite E1|done| |done].
      rewrite pq_ins_cons. replace (p <? prio) with false by lia. by rewrite E3.
    + replace (px >=? prio) with false by lia. cbn [negb andb].
      exists [], c, p, ((x, px) :: suf). split_and!; [done|done| |done].
      rewrite !pq_ins_cons. replace (p <? prio) with false by lia.
      by replace (px <? prio) with true by lia.
Qed.

Lemma pq_ins_length prio t l : length (pq_ins prio t l) = S (length l).
Proof. induction l as [|[x p] l IH]; simpl; [done|]. case_match; simpl; [done|]. by rewrite IH. Qed.

Lemma pq_ins_perm prio t l : pq_ins prio t l ≡ₚ (t, prio) :: l.
Proof.
  induction l as [|[x p] l IH]; simpl; [done|]. case_match; [done|].
  rewrite IH. apply Permutation_swap.
Qed.

Lemma pq_ins_nodup prio t l : NoDup l.*1 -> t ∉ l.*1 -> NoDup (pq_ins prio t l).*1.
Proof. intros Hn Ht. rewrite pq_ins_perm. simpl. by apply NoDup_cons. Qed.

Lemma qnode_elim h t : qnode h t -> exists n p z,
  nxt (q_links h) !! t = Some n /\ prv (q_links h) !! t = Some p /\ q_prios h !! t = Some z.
Proof. intros [[[? ?] [? ?]] [? ?]]. eauto 10. Qed.

(** The new thread becomes the head. *)
Lemma insert_head_ok h q x px l prio t :
  pq_rep h q ((x, px) :: l) -> px < prio -> qnode h t -> t ∉ x :: l.*1 ->
  exists h' q', pth_pqueue_insert (Some q) prio (Some t) h = Some (Some q', h') /\
    pq_rep h' q' ((t, prio) :: (x, px) :: l) /\ qframe (t :: x :: l.*1) h h'.
Proof.
  intros Hr Hlt Ht Hni. destruct (rep_cons _ _ _ _ _ Hr) as (Hh & Hnum & Hp & Hd).
  destruct (qnode_elim _ _ Ht) as (n & v & z & Hn & Hv & Hz).
  assert (Hrx := rep_qnode _ _ _ x Hr). destruct Hr as [Hlen _ Hnd Hc Hpr].
  csimpl in *. destruct (cyc_prev_in _ _ x Hc) as (a & Ha & Hain); [set_solver|].
  destruct (cyc_next_in _ _ a Hc) as (b & Hab & _); [done|].
  assert (Hta : t <> a) by set_solver. assert (Htx : t <> x) by set_solver.
  assert (Hnx := cyc_next_in _ _ x Hc). destruct Hnx as (xn & Hxn & _); [set_solver|].
  unfold pth_pqueue_insert. rewrite Hh. replace (q_num q =? 0) with false by lia. simpl.
  qstep. replace (px <? prio) with true by lia. do 10 qstep.
  eexists _, _. split; [reflexivity|]. split.
  - constructor; simpl.
    + lia.
    + done.
    + by apply NoDup_cons.
    + apply (cyc_rotate _ (x :: l.*1) [t]).
      by apply cyc_link_end.
    + split; [by simplify_map_eq|]. split; [by simplify_map_eq|].
      eapply deltas_frame; [|exact Hd].
      intros c Hc'. apply NoDup_cons in Hnd as [Hnd _].
      rewrite !lookup_insert_ne; [done|set_solver..].
  - apply qframe_upd; upd_cases.
Qed.

Lemma not_in_split t s1 (x : addr * Z) s2 : t ∉ (s1 ++ x :: s2).*1 ->
  (forall a, a ∈ (s1 ++ [x]).*1 -> t <> a) /\ (forall a, a ∈ s2.*1 -> t <> a).
Proof. rewrite !fmap_app. csimpl. set_solver. Qed.

(** The new thread is linked in behind [c]: the assigned fields represent the
    extended list. *)
Lemma rep_link h q hd s1 c p s2 t prio b m :
  pq_rep h q (s1 ++ (c, p) :: s2) -> q_head q = hd -> t ∉ (s1 ++ (c, p) :: s2).*1 ->
  nxt (q_links h) !! c = Some (Some b) ->
  (forall a, a ∈ (s1 ++ [(c, p)]).*1 -> m !! a = q_prios h !! a) ->
  m !! t = Some (p - prio) -> deltas m prio s2 ->
  pq_rep (QHeap (link_between c b t (q_links h)) m) (Pqueue hd (q_num q + 1))
    (s1 ++ (c, p) :: (t, prio) :: s2).
Proof.
  intros [Hlen Hh Hnd Hc Hpr] <- Ht Hb Hm Hmt Hd. constructor; simpl.
  - rewrite Hlen, !length_app. simpl. lia.
  - rewrite Hh. by destruct s1.
  - replace (s1 ++ (c, p) :: (t, prio) :: s2) with ((s1 ++ [(c, p)]) ++ (t, prio) :: s2)
      by (by rewrite <- app_assoc).
    rewrite <- Permutation_middle, <- app_assoc. simpl. by apply NoDup_cons.
  - rewrite fmap_app in *. csimpl in *. by apply cyc_link_after.
  - apply prios_app. split; [|by split].
    eapply prios_frame; [exact Hm|]. by apply prios_app in Hpr as [??].
Qed.

(** The successor [b] of [c]: the head of the queue when [c] is the last
    thread, otherwise the thread behind [c], which is not the head. *)
Lemma rep_succ h q s1 c p s2 : pq_rep h q (s1 ++ (c, p) :: s2) ->
  match s2 with
  | [] => nxt (q_links h) !! c = Some (q_head q)
  | (y, py) :: s2' => nxt (q_links h) !! c = Some (Some y) /\ q_head q <> Some y /\
      q_prios h !! y = Some (p - py) /\ deltas (q_prios h) py s2' /\
      y ∉ (s1 ++ [(c, p)]).*1 /\ y ∉ s2'.*1
  end.
Proof.
  intros [_ Hh Hnd Hc Hpr]. rewrite Hh. rewrite fmap_app in *. csimpl in *.
  apply cyc_next_head in Hc. destruct s2 as [|[y py] s2].
  - rewrite Hc. by destruct (s1.*1).
  - apply prios_app in Hpr as [_ [Hy Hd]]. split_and!; [done| |done|done| |].
    all: apply NoDup_app in Hnd as (_ & Hnd1 & Hnd2); csimpl in *;
      apply NoDup_cons in Hnd2 as [Hnd2 Hnd3]; apply NoDup_cons in Hnd3 as [Hnd3 _].
    + destruct (s1.*1) as [|z l]; simpl in *; intros [= ->]; set_solver.
    + rewrite fmap_app. csimpl. clear -Hnd1 Hnd2. set_solver.
    + done.
Qed.

Lemma insert_after_ok h q x0 p0 l s1 c p s2 prio t :
  pq_rep h q ((x0, p0) :: l) -> (x0, p0) :: l = s1 ++ (c, p) :: s2 -> prio <= p0 ->
  qnode h t -> t ∉ x0 :: l.*1 ->
  pth_pqueue_insert_walk (Z.to_nat (q_num q)) (Some x0) prio (Some x0) p0 h
    = Some ((Some c, p), h) ->
  exists h' q', pth_pqueue_insert (Some q) prio (Some t) h = Some (Some q', h') /\
    pq_rep h' q' (s1 ++ (c, p) :: (t, prio) :: s2) /\ qframe (t :: x0 :: l.*1) h h'.
Proof.
  intros Hr Hl Hp0 Ht Hni Hw.
  destruct (rep_cons _ _ _ _ _ Hr) as (Hh & Hnum & Hpx & _).
  destruct (qnode_elim _ _ Ht) as (n & v & z & Hn & Hv & Hz).
  change (t ∉ ((x0, p0) :: l).*1) in Hni.
  assert (Hcin : c ∈ x0 :: l.*1).
  { change (c ∈ ((x0, p0) :: l).*1). rewrite Hl, fmap_app. set_solver. }
  destruct (cyc_next_in _ _ c (pr_cyc _ _ _ Hr)) as (b & Hb & Hbin); [done|].
  destruct (qnode_elim _ _ (rep_qnode _ _ _ c Hr Hcin)) as (cn & cv & cz & _ & _ & _).
  destruct (qnode_elim _ _ (rep_qnode _ _ _ b Hr Hbin)) as (bn & bv & bz & _ & Hbv & Hbz).
  assert (Htc : t <> c) by (by intros ->). assert (Htb : t <> b) by (by intros ->).
  rewrite Hl in Hr, Hni. pose proof (rep_succ _ _ _ _ _ _ Hr) as Hs.
  destruct (not_in_split _ _ _ _ Hni) as [Hni1 Hni2].
  unfold pth_pqueue_insert. rewrite Hh. replace (q_num q =? 0) with false by lia.
  simpl. qstep. replace (p0 <? prio) with false by lia. do 9 qstep.
  destruct s2 as [|[y py] s2].
  - assert (b = x0) as -> by congruence.
    rewrite bool_decide_eq_true_2 by done. qstep. eexists _, _. split; [reflexivity|].
    split; [|apply qframe_upd; upd_cases].
    apply (rep_link _ _ _ _ _ _ [] _ _ x0); simpl; [done..| |by simplify_map_eq|done].
    intros a Ha. rewrite lookup_insert_ne; [done|by apply Hni1].
  - destruct Hs as (Hs & Hhy & Hy & Hd & Hy1 & Hy2). assert (b = y) as -> by congruence.
    rewrite bool_decide_eq_false_2 by congruence.
    erewrite (st_bind_Some _ _ _ tt); [|do 2 qstep; eapply x_wr_prio; lk].
    eexists _, _. split; [reflexivity|].
    split; [|apply qframe_upd; upd_cases].
    apply (rep_link _ _ _ _ _ _ _ _ _ y); simpl; [done..| |by simplify_map_eq|].
    + intros a Ha. rewrite !lookup_insert_ne; [done|by apply Hni1|congruence].
    + split; [rewrite lookup_insert_eq; f_equal; lia|]. eapply deltas_frame; [|exact Hd].
      intros a Ha. rewrite !lookup_insert_ne; [done|apply Hni2; set_solver|congruence].
Qed.

(** [pth_pqueue_insert] implements [pq_ins]: it never touches an invalid
    address, its loop ends, and only nodes of the queue are written. *)
Lemma insert_ok h q l prio t :
  pq_rep h q l -> qnode h t -> t ∉ l.*1 ->
  exists h' q', pth_pqueue_insert (Some q) prio (Some t) h = Some (Some q', h') /\
    pq_rep h' q' (pq_ins prio t l) /\ qframe (t :: l.*1) h h'.
Proof.
  intros Hr Ht Hni. destruct l as [|[x p] l].
  - apply rep_empty in Hr as ->. destruct (qnode_elim _ _ Ht) as (n & v & z & Hn & Hv & Hz).
    unfold pth_pqueue_insert. simpl. do 3 qstep. eexists _, _. split; [reflexivity|].
    split; [|apply qframe_upd; upd_cases].
    constructor; simpl; [done|done| | |by simplify_map_eq].
    + apply NoDup_singleton.
    + split; by simplify_map_eq.
  - rewrite pq_ins_cons. destruct (Z.ltb_spec p prio) as [Hlt|Hle].
    + by apply insert_head_ok.
    + destruct (insert_walk_spec h q [] x p l prio t (Z.to_nat (q_num q)) Hr Hle)
        as (s1 & c & pc & s2 & E1 & E2 & E3 & _).
      { rewrite (pr_num _ _ _ Hr). simpl. lia. }
      rewrite pq_ins_cons in E3. replace (p <? prio) with false in E3 by lia.
      rewrite E3. eapply insert_after_ok; [done|exact E1|done..|].
      destruct (rep_cons _ _ _ _ _ Hr) as (Hh & _). by rewrite Hh in E2.
Qed.

(** ** Deletion *)

(** The heap after a thread [t] was unlinked from between [a] and [b], with
    the priority of [b] set to [v] and that of [t] to 0. *)
Lemma clear_last_ok h q t p :
  pq_rep h q [(t, p)] ->
  exists h', pth_pqueue_clear_last (Some t) h = Some (Some (Pqueue NULL 0), h') /\
    pq_rep h' (Pqueue NULL 0) [] /\ qframe [t] h h'.
Proof.
  intros Hr. pose proof (rep_qnode _ _ _ t Hr ltac:(set_solver)) as Ht.
  destruct (qnode_elim _ _ Ht) as (n & v & z & Hn & Hv & Hz).
  unfold pth_pqueue_clear_last. do 3 qstep. eexists. split; [reflexivity|].
  split; [by apply rep_empty|]. apply qframe_upd; upd_cases.
Qed.

(** The lists around a thread that is taken out. *)
Lemma rep_head_links h q t p x px l :
  pq_rep h q ((t, p) :: (x, px) :: l) ->
  exists a, prv (q_links h) !! t = Some (Some a) /\ a <> t /\ a ∈ x :: l.*1 /\
    nxt (q_links h) !! t = Some (Some x) /\ is_Some (nxt (q_links h) !! a) /\
    is_Some (prv (q_links h) !! x) /\ x <> t /\ t ∉ l.*1 /\ x ∉ l.*1.
Proof.
  intros Hr. assert (Hr' := Hr). destruct Hr' as [_ _ Hnd Hc _]. csimpl in *.
  apply NoDup_cons in Hnd as [Ht Hnd]. apply NoDup_cons in Hnd as [Hx _].
  assert (exists a, prv (q_links h) !! t = Some (Some a) /\ a ∈ x :: l.*1) as (a & Ha & Hin).
  { destruct (nil_or_snoc l.*1) as [El|(l' & z & El)]; rewrite El in *.
    - exists x. destruct Hc as (?&?&?&?). split; [done|by left].
    - exists z. apply (cyc_last _ t (x :: l') z) in Hc as [_ ?]. split; [done|].
      right. apply elem_of_app. right. by left. }
  exists a. pose proof (rep_qnode _ _ _ a Hr) as [[? _] _]; [by right|].
  pose proof (rep_qnode _ _ _ x Hr) as [[_ ?] _]; [right; by left|].
  split_and!; [done| |done| |done|done| |by intros ?; apply Ht; right|done].
  - intros ->. done.
  - destruct Hc as (? & ? & ?). done.
  - intros ->. apply Ht. by left.
Qed.

Lemma unlink_head_ok h q t p x px l :
  pq_rep h q ((t, p) :: (x, px) :: l) ->
  exists h' q', pth_pqueue_unlink_head q (Some t) h = Some (Some q', h') /\
    pq_rep h' q' ((x, px) :: l) /\ qframe (t :: x :: l.*1) h h'.
Proof.
  intros Hr. destruct (rep_head_links _ _ _ _ _ _ _ Hr)
    as (a & Ha & Hat & Hain & Htn & [an Han] & [xv Hxv] & Hxt & Htl & Hxl).
  destruct Hr as [Hnum Hh Hnd Hc [Hp [Hpx Hd]]]. csimpl in *.
  unfold pth_pqueue_unlink_head. do 8 qstep. eexists _, _. split; [reflexivity|].
  split; [constructor; simpl|apply qframe_upd; upd_cases].
  - lia.
  - done.
  - by apply NoDup_cons in Hnd as [_ ?].
  - apply (cyc_unlink_head _ t x l.*1 a Hc Hnd Ha).
  - split; [rewrite lookup_insert_ne, lookup_insert_eq by done; f_equal; lia|].
    eapply deltas_frame; [|exact Hd]. intros c Hcin.
    rewrite !lookup_insert_ne; [done|by intros ->..].
Qed.

(** [pth_pqueue_delmax] returns the first thread of a queue and leaves the
    rest. *)
Lemma delmax_ok h q t p l :
  pq_rep h q ((t, p) :: l) ->
  exists h' q', pth_pqueue_delmax (Some q) h = Some ((Some t, Some q'), h') /\
    pq_rep h' q' l /\ qframe (t :: l.*1) h h'.
Proof.
  intros Hr. destruct (rep_cons _ _ _ _ _ Hr) as (Hh & Hnum & _).
  unfold pth_pqueue_delmax. rewrite Hh. rewrite bool_decide_eq_false_2 by done.
  destruct l as [|[x px] l].
  - assert (Hc := pr_cyc _ _ _ Hr). apply cyc_single in Hc as [Hc _]. qstep.
    rewrite bool_decide_eq_true_2 by done.
    destruct (clear_last_ok _ _ _ _ Hr) as (h' & E & Hr' & Hf).
    rewrite (st_bind_Some _ _ _ _ _ E). eauto 10.
  - destruct (rep_head_links _ _ _ _ _ _ _ Hr)
      as (a & _ & _ & _ & Htn & _ & _ & Hxt & _). qstep.
    rewrite bool_decide_eq_false_2 by congruence.
    destruct (unlink_head_ok _ _ _ _ _ _ _ Hr) as (h' & q' & E & Hr' & Hf).
    rewrite (st_bind_Some _ _ _ _ _ E). eauto 10.
Qed.

Lemma delmax_empty h q : pq_rep h q [] ->
  pth_pqueue_delmax (Some q) h = Some ((NULL, Some q), h).
Proof. by intros ->%rep_empty. Qed.

Lemma pq_del_split t p l1 l2 : NoDup (l1 ++ (t, p) :: l2).*1 ->
  pq_del t (l1 ++ (t, p) :: l2) = l1 ++ l2.
Proof.
  intros Hnd. rewrite fmap_app in Hnd. csimpl in *.
  apply NoDup_app in Hnd as (_ & H1 & H2). apply NoDup_cons in H2 as [H2 _].
  assert (Hf : forall l : list (addr * Z), t ∉ l.*1 -> filter (fun x => x.1 <> t) l = l).
  { intros l Hl. induction l as [|[y py] l IH]; [done|].
    csimpl in Hl. rewrite filter_cons_True; [f_equal; apply IH|]; simpl.
    - intros ?. apply Hl. by right.
    - intros ->. apply Hl. by left. }
  unfold pq_del. rewrite filter_app, filter_cons_False by (simpl; tauto).
  rewrite !Hf; [done|done|]. intros Hin. apply (H1 t Hin). by left.
Qed.

(** The neighbours of a thread behind the head. *)
Lemma rep_mid_links h q l1 c pc t p l2 :
  pq_rep h q (l1 ++ (c, pc) :: (t, p) :: l2) ->
  nxt (q_links h) !! c = Some (Some t) /\ prv (q_links h) !! t = Some (Some c) /\
  q_prios h !! t = Some (pc - p) /\ t ∉ (l1 ++ (c, pc) :: l2).*1 /\ q_head q <> Some t.
Proof.
  intros [_ Hh Hnd Hc Hpr]. rewrite fmap_app in *. csimpl in *.
  apply prios_app in Hpr as [_ [Hp _]].
  destruct (cyc_next _ _ _ _ _ Hc) as [Hn Hp'].
  assert (Ht : t ∉ l1.*1 ++ c :: l2.*1).
  { apply NoDup_app in Hnd as (_ & H1 & H2). apply NoDup_cons in H2 as [H2 H3].
    apply NoDup_cons in H3 as [H3 _]. intros [Hin|[->|Hin]%elem_of_cons]%elem_of_app.
    - apply (H1 t Hin). right. by left.
    - apply H2. by left.
    - done. }
  split_and!; [done..|]. rewrite Hh.
  destruct l1 as [|[y py] l1]; simpl in *; intros [= ->]; apply Ht; by left.
Qed.

(** What remains of a queue without a thread behind the head. *)
Lemma rep_remove_mid h q l1 c pc t p l2 b :
  pq_rep h q (l1 ++ (c, pc) :: (t, p) :: l2) -> nxt (q_links h) !! t = Some (Some b) ->
  q_num q - 1 = Z.of_nat (length (l1 ++ (c, pc) :: l2)) /\
  q_head q = head (l1 ++ (c, pc) :: l2).*1 /\
  NoDup (l1 ++ (c, pc) :: l2).*1 /\
  cyc (unlink c b (q_links h)) (l1 ++ (c, pc) :: l2).*1 /\
  prios_ok (q_prios h) (l1 ++ [(c, pc)]) /\
  (forall a, a ∈ (l1 ++ [(c, pc)]).*1 \/ a ∈ l2.*1 -> t <> a).
Proof.
  intros Hr Hb. destruct (rep_mid_links _ _ _ _ _ _ _ _ Hr) as (Hcn & Htp & Hpt & Hti & Hht).
  destruct Hr as [Hnum Hh Hnd Hc Hpr]. split_and!.
  - rewrite Hnum, !length_app. simpl. lia.
  - rewrite Hh. by destruct l1.
  - rewrite fmap_app in *. csimpl in *. apply NoDup_app in Hnd as (H1 & H2 & H3).
    apply NoDup_app. split_and!; [done| |].
    + intros a Ha Hin. apply (H2 a Ha). rewrite !elem_of_cons in *. tauto.
    + apply NoDup_cons in H3 as [H3 H4]. apply NoDup_cons in H4 as [_ H4].
      apply NoDup_cons. split; [|done]. intros Hin. apply H3. by right.
  - rewrite fmap_app in *. csimpl in *.
    assert (H : cyc (unlink c b (q_links h)) ((l1.*1 ++ [c]) ++ l2.*1));
      [|by rewrite <- app_assoc in H].
    eapply (cyc_unlink _ _ t); [by destruct l1.*1|by rewrite <- app_assoc| |done..].
    by rewrite <- app_assoc.
  - by apply prios_app in Hpr as [? _].
  - intros a Ha ->. apply Hti. rewrite !fmap_app in *. csimpl in *.
    rewrite !elem_of_app, !elem_of_cons in *. set_solver.
Qed.

(** Deleting a thread that is not the head. *)
Lemma delete_mid_ok h q l1 c pc t p l2 :
  pq_rep h q (l1 ++ (c, pc) :: (t, p) :: l2) ->
  exists h' q', pth_pqueue_delete (Some q) (Some t) h = Some (Some q', h') /\
    pq_rep h' q' (l1 ++ (c, pc) :: l2) /\ qframe (l1 ++ (c, pc) :: (t, p) :: l2).*1 h h'.
Proof.
  intros Hr. destruct (rep_mid_links _ _ _ _ _ _ _ _ Hr) as (Hcn & Htp & Hpt & Hti & Hht).
  assert (Hr1 : pq_rep h q ((l1 ++ [(c, pc)]) ++ (t, p) :: l2)) by (by rewrite <- app_assoc).
  pose proof (rep_succ _ _ _ _ _ _ Hr1) as Hs.
  assert (exists x, q_head q = Some x /\ x ∈ (l1 ++ (c, pc) :: l2).*1) as (x & Hx & Hxin).
  { rewrite (pr_head _ _ _ Hr). destruct l1 as [|[y py] l1]; csimpl; eexists; split; try done; by left. }
  assert (exists b, nxt (q_links h) !! t = Some (Some b) /\ b ∈ (l1 ++ (c, pc) :: l2).*1)
    as (b & Hb & Hbin).
  { destruct l2 as [|[y py] l2]; [rewrite Hx in Hs; eauto|]. destruct Hs as [Hs _].
    exists y. split; [done|]. rewrite fmap_app. csimpl. apply elem_of_app. right. right. by left. }
  assert (exists bz, q_prios h !! b = Some bz) as [bz Hbz].
  { destruct (rep_qnode _ _ _ b Hr) as [_ ?]; [|done]. rewrite fmap_app in *. csimpl in *.
    rewrite elem_of_app, !elem_of_cons in *. tauto. }
  assert (exists bp, prv (q_links h) !! b = Some bp) as [bp Hbp].
  { destruct (rep_qnode _ _ _ b Hr) as [[_ ?] _]; [|done]. rewrite fmap_app in *. csimpl in *.
    rewrite elem_of_app, !elem_of_cons in *. tauto. }
  assert (Htb : t <> b) by (by intros ->).
  assert (Hxt : x <> t) by (by intros ->).
  set (S := (l1 ++ (c, pc) :: (t, p) :: l2).*1).
  assert (t ∈ S /\ c ∈ S /\ b ∈ S) as (HtS & HcS & HbS).
  { unfold S. rewrite fmap_app in *. csimpl in *. rewrite !elem_of_app, !elem_of_cons in *. tauto. }
  clearbody S. unfold pth_pqueue_delete. rewrite Hx. rewrite !bool_decide_eq_false_2 by congruence.
  do 4 qstep.
  destruct (rep_remove_mid _ _ _ _ _ _ _ _ b Hr Hb) as (Hnum & Hhead & Hnd & Hcyc & Hpr1 & Htl).
  destruct l2 as [|[y py] l2].
  - assert (b = x) as -> by congruence. rewrite bool_decide_eq_true_2 by congruence.
    do 2 qstep. eexists _, _. split; [reflexivity|].
    split; [|apply qframe_upd; upd_cases]. constructor; cbn [q_num q_head q_links q_prios]; 
      [done|congruence|done| |].
    + exact Hcyc.
    + eapply prios_frame; [|exact Hpr1]. intros a Ha.
      rewrite lookup_insert_ne; [done|auto].
  - destruct Hs as (Hs & Hhy & Hy & Hd2 & Hy1 & Hy2). assert (b = y) as -> by congruence.
    assert (bz = p - py) as -> by congruence.
    rewrite bool_decide_eq_false_2 by congruence.
    erewrite (st_bind_Some _ _ _ tt); [|do 2 qstep; eapply x_wr_prio; lk]. qstep.
    eexists _, _. split; [reflexivity|].
    split; [|apply qframe_upd; upd_cases]. constructor; cbn [q_num q_head q_links q_prios]; 
      [done|congruence|done| |].
    + exact Hcyc.
    + apply prios_app. split.
      * eapply prios_frame; [|exact Hpr1]. intros a Ha.
        rewrite !lookup_insert_ne; [done| |auto]. intros ->. apply Hy1.
        rewrite !fmap_app in *. csimpl in *. rewrite !elem_of_app, !elem_of_cons in *. tauto.
      * split; [rewrite lookup_insert_ne, lookup_insert_eq by done; f_equal; lia|].
        eapply deltas_frame; [|exact Hd2]. intros a Ha.
        rewrite !lookup_insert_ne; [done|by intros ->|]. apply Htl. right. by right.
Qed.

(** [pth_pqueue_delete] takes a thread of the queue out, wherever it is. *)
Lemma delete_ok h q l t :
  pq_rep h q l -> t ∈ l.*1 ->
  exists h' q', pth_pqueue_delete (Some q) (Some t) h = Some (Some q', h') /\
    pq_rep h' q' (pq_del t l) /\ qframe l.*1 h h'.
Proof.
  intros Hr Ht. assert (exists l1 p l2, l = l1 ++ (t, p) :: l2) as (l1 & p & l2 & ->).
  { apply list_elem_of_fmap in Ht as ([? p] & -> & Ht). simpl.
    apply list_elem_of_split in Ht as (l1 & l2 & ->). eauto. }
  rewrite (pq_del_split t p l1 l2 (pr_nodup _ _ _ Hr)).
  destruct (nil_or_snoc l1) as [->|(l1' & [c pc] & ->)].
  - destruct (delmax_ok _ _ _ _ _ Hr) as (h' & q' & E & Hr' & Hf). exists h', q'.
    split_and!; [|done..]. destruct (rep_cons _ _ _ _ _ Hr) as (Hh & _).
    unfold pth_pqueue_delmax in E. unfold pth_pqueue_delete. rewrite Hh in *.
    rewrite bool_decide_eq_false_2 in * by done. rewrite bool_decide_eq_true_2 by done.
    apply st_bind_inv in E as (tn & h1 & E1 & E). rewrite (st_bind_Some _ _ _ _ _ E1).
    apply st_bind_inv in E as (q1 & h2 & E2 & E).
    assert (E3 : q1 = Some q' /\ h2 = h') by (by injection E as -> ->).
    destruct E3 as [-> ->]. by case_bool_decide.
  - rewrite <- !app_assoc in *. cbn [app] in *. by apply delete_mid_ok.
Qed.

(** ** The other operations *)

Lemma increase_ok h q l :
  pq_rep h q l ->
  exists h', pth_pqueue_increase (Some q) h = Some (Some q, h') /\
    pq_rep h' q (pq_incr l) /\ qframe l.*1 h h'.
Proof.
  intros Hr. destruct l as [|[x p] l].
  - exists h. apply rep_empty in Hr as ->. split_and!; [done|by apply rep_empty|apply qframe_refl].
  - destruct (rep_cons _ _ _ _ _ Hr) as (Hh & Hnum & Hp & Hd).
    unfold pth_pqueue_increase. rewrite Hh, bool_decide_eq_false_2 by done. do 2 qstep.
    eexists. split; [reflexivity|]. split; [|destruct h as [[]]; apply qframe_upd; upd_cases].
    assert (Hfst : (pq_incr ((x, p) :: l)).*1 = ((x, p) :: l).*1).
    { unfold pq_incr. rewrite <- list_fmap_compose. by apply list_fmap_ext. }
    destruct Hr as [Hn Hh' Hnd Hc _]. constructor; rewrite ?Hfst; [|done..|].
    + rewrite Hn. unfold pq_incr. by rewrite length_fmap.
    + split; [by simplify_map_eq|]. csimpl in *. apply NoDup_cons in Hnd as [Hx _].
      cut (deltas (<[x:=p + 1]> (q_prios h)) p l).
      { generalize (<[x:=p + 1]> (q_prios h)). clear. intros m. revert p.
        induction l as [|[y py] l IH]; intros p; [done|]. simpl. intros [H1 H2].
        split; [rewrite H1; f_equal; lia|]. by apply IH. }
      eapply deltas_frame; [|exact Hd]. intros a Ha. rewrite lookup_insert_ne; [done|].
      by intros ->.
Qed.

Lemma qnode_frame S h h' t : qframe S h h' -> qnode h t -> qnode h' t.
Proof. intros H. apply (qf_node _ _ _ H). Qed.

Lemma favorite_ok h q l t :
  pq_rep h q l -> t ∈ l.*1 ->
  exists h' q', pth_pqueue_favorite (Some q) (Some t) h = Some ((true, Some q'), h') /\
    pq_rep h' q' (pq_fav t l) /\ qframe l.*1 h h'.
Proof.
  intros Hr Ht. destruct l as [|[x p] l]; [by apply not_elem_of_nil in Ht|].
  destruct (rep_cons _ _ _ _ _ Hr) as (Hh & Hnum & _).
  unfold pth_pqueue_favorite. rewrite bool_decide_eq_false_2 by (by rewrite Hh).
  replace (q_num q =? 0) with false by lia. simpl orb. cbn iota.
  destruct l as [|[y py] l].
  { exists h, q. assert (q_num q = 1) as -> by apply Hr.
    split_and!; [done|done|apply qframe_refl]. }
  assert ((q_num q =? 1) = false) as ->.
  { pose proof (pr_num _ _ _ Hr) as E. cbn [length] in E. lia. }
  destruct (delete_ok _ _ _ _ Hr Ht) as (h1 & q1 & E1 & Hr1 & Hf1).
  assert (Hnt : qnode h1 t) by (eapply qnode_frame, rep_qnode; eauto).
  assert (Hdel : pq_del t ((x, p) :: (y, py) :: l) <> []).
  { assert (Hnd := pr_nodup _ _ _ Hr). csimpl in Hnd. apply NoDup_cons in Hnd as [Hxy _].
    unfold pq_del. rewrite filter_cons. case_decide as Hx; [done|]. simpl in Hx.
    subst x. rewrite filter_cons_True; [done|]. simpl. intros ->.
    apply Hxy. by left. }
  change (pq_fav t ((x, p) :: (y, py) :: l)) with
    (match pq_del t ((x, p) :: (y, py) :: l) with
     | [] => (x, p) :: (y, py) :: l | (x, p) :: l' => (t, p + 1) :: (x, p) :: l' end).
  cbn [orb]. rewrite (st_bind_Some _ _ _ _ _ E1).
  assert (Hsub : forall a, a ∈ (pq_del t ((x, p) :: (y, py) :: l)).*1 ->
     a ∈ ((x, p) :: (y, py) :: l).*1 /\ a <> t).
  { intros a (b & -> & Hb)%list_elem_of_fmap. unfold pq_del in Hb.
    apply list_elem_of_filter in Hb as [Hb1 Hb2]. split; [by apply list_elem_of_fmap_2|done]. }
  destruct (pq_del t _) as [|[z pz] l']; [done|].
  destruct (rep_cons _ _ _ _ _ Hr1) as (Hh1 & _ & Hpz & _).
  unfold pth_pqueue_favorite_prio. rewrite Hh1, bool_decide_eq_false_2 by done.
  erewrite (st_bind_Some _ _ _ (pz + 1)); [|by qstep].
  destruct (insert_ok _ _ _ (pz + 1) _ Hr1 Hnt) as (h2 & q2 & E2 & Hr2 & Hf2).
  { intros Hin. by apply Hsub in Hin as [_ ?]. }
  rewrite (st_bind_Some _ _ _ _ _ E2). exists h2, q2. split; [done|].
  rewrite pq_ins_cons in Hr2. replace (pz <? pz + 1) with true in Hr2 by lia.
  split; [done|]. eapply qframe_trans; [done..|].
  intros a [->|Ha]%elem_of_cons; [done|by apply Hsub].
Qed.

Lemma tail_ok h q l : pq_rep h q l -> pth_pqueue_tail (Some q) h = Some (last l.*1, h).
Proof.
  intros Hr. destruct (nil_or_snoc l) as [->|(l' & [z pz] & ->)].
  { by apply rep_empty in Hr as ->. }
  assert (Hh := pr_head _ _ _ Hr). assert (Hc := pr_cyc _ _ _ Hr).
  rewrite fmap_app in *. csimpl in *. rewrite last_snoc.
  unfold pth_pqueue_tail. rewrite Hh. destruct (l'.*1) as [|x l2]; simpl.
  - apply cyc_single in Hc as [_ Hc]. by apply x_rd_prev.
  - apply cyc_last in Hc as [_ Hc].
    by apply x_rd_prev.
Qed.

Lemma walk_next_ok h q l1 c p l2 :
  pq_rep h q (l1 ++ (c, p) :: l2) ->
  pth_pqueue_walk (Some q) (Some c) WALK_NEXT h = Some (head l2.*1, h).
Proof.
  intros Hr. pose proof (rep_succ _ _ _ _ _ _ Hr) as Hs. unfold pth_pqueue_walk.
  destruct l2 as [|[y py] l2].
  - erewrite st_bind_Some by (by apply x_rd_next). by rewrite bool_decide_eq_true_2.
  - destruct Hs as (Hs & Hy & _). erewrite st_bind_Some by (by apply x_rd_next).
    by rewrite bool_decide_eq_false_2 by congruence.
Qed.

Lemma walk_prev_ok h q l1 c p l2 :
  pq_rep h q (l1 ++ (c, p) :: l2) ->
  pth_pqueue_walk (Some q) (Some c) WALK_PREV h = Some (last l1.*1, h).
Proof.
  intros Hr. unfold pth_pqueue_walk. assert (Hh := pr_head _ _ _ Hr).
  destruct (nil_or_snoc l1) as [->|(l1' & [z pz] & ->)]; simpl in Hh.
  - by rewrite Hh, bool_decide_eq_true_2.
  - rewrite <- app_assoc in Hr. simpl in Hr.
    destruct (rep_mid_links _ _ _ _ _ _ _ _ Hr) as (_ & Htp & _ & _ & Hne).
    rewrite bool_decide_eq_false_2 by congruence. rewrite fmap_app; csimpl; rewrite last_snoc.
    by apply x_rd_prev.
Qed.

Lemma contains_from_ok h q l1 l2 t fuel :
  pq_rep h q (l1 ++ l2) -> (length l2 <= fuel)%nat ->
  pth_pqueue_contains_from fuel (Some q) (head l2.*1) (Some t) h
    = Some (bool_decide (t ∈ l2.*1), h).
Proof.
  revert l1 fuel. induction l2 as [|[c p] l2 IH]; intros l1 fuel Hr Hf.
  { by destruct fuel. }
  assert (Hgo : forall f, (length l2 <= f)%nat ->
    (tn ← pth_pqueue_walk (Some q) (Some c) WALK_NEXT;
     pth_pqueue_contains_from f (Some q) tn (Some t)) h = Some (bool_decide (t ∈ l2.*1), h)).
  { intros f Hlen. rewrite (st_bind_Some _ _ _ _ _ (walk_next_ok _ _ _ _ _ _ Hr)).
    apply (IH (l1 ++ [(c, p)])); [by rewrite <- app_assoc|done]. }
  destruct (decide (c = t)) as [->|Hne].
  - rewrite (bool_decide_eq_true_2 (t ∈ _)) by (csimpl; by left).
    destruct fuel; simpl; by rewrite bool_decide_eq_true_2.
  - rewrite (bool_decide_ext (t ∈ ((c, p) :: l2).*1) (t ∈ l2.*1)).
    2:{ csimpl. rewrite elem_of_cons. split; [intros [->|]; done|by right]. }
    destruct fuel as [|fuel]; simpl in Hf; [lia|].
    cbn [pth_pqueue_contains_from head fmap list_fmap fst].
    rewrite bool_decide_eq_false_2 by congruence. apply Hgo. lia.
Qed.

Lemma contains_ok h q l t : pq_rep h q l ->
  pth_pqueue_contains (Some q) (Some t) h = Some (bool_decide (t ∈ l.*1), h).
Proof.
  intros Hr. unfold pth_pqueue_contains. simpl. rewrite (pr_head _ _ _ Hr), (pr_num _ _ _ Hr).
  apply (contains_from_ok _ _ []); [done|lia].
Qed.

(** ** Order *)

(** Insertion goes behind every thread of at least the new priority and
    before every thread of a lower one, so threads of one priority are served
    first come, first served. *)
Lemma pq_ins_fifo prio t l1 l2 :
  Forall (fun x => prio <= x.2) l1 -> Forall (fun x => x.2 < prio) l2 ->
  pq_ins prio t (l1 ++ l2) = l1 ++ (t, prio) :: l2.
Proof.
  intros H1 H2. induction H1 as [|[x p] l1 Hx H1 IH]; simpl in *.
  - destruct H2 as [|[y py] l2 Hy H2]; [done|]. simpl in *. by replace (py <? prio) with true by lia.
  - replace (p <? prio) with false by lia. by rewrite IH.
Qed.

Lemma pq_sorted_split prio l : pq_sorted l ->
  exists l1 l2, l = l1 ++ l2 /\ Forall (fun x => prio <= x.2) l1 /\ Forall (fun x => x.2 < prio) l2.
Proof.
  induction l as [|[x p] l IH]; simpl; [by exists [], []|].
  intros [Hx Hs]. destruct (decide (prio <= p)) as [Hp|Hp].
  - destruct (IH Hs) as (l1 & l2 & -> & H1 & H2). exists ((x, p) :: l1), l2.
    split_and!; [done|by constructor|done].
  - exists [], ((x, p) :: l). split_and!; [done|constructor|]. constructor; [simpl; lia|].
    eapply Forall_impl; [exact Hx|]. simpl. lia.
Qed.

Lemma pq_sorted_app l1 l2 : pq_sorted (l1 ++ l2) <->
  pq_sorted l1 /\ pq_sorted l2 /\ Forall (fun x => Forall (fun y => y.2 <= x.2) l2) l1.
Proof.
  induction l1 as [|x l1 IH]; simpl.
  - split; [intros H; split_and!; [done..|constructor]|tauto].
  - rewrite Forall_app, Forall_cons, IH. tauto.
Qed.

Lemma pq_ins_sorted prio t l : pq_sorted l -> pq_sorted (pq_ins prio t l).
Proof.
  intros Hs. destruct (pq_sorted_split prio l Hs) as (l1 & l2 & -> & H1 & H2).
  rewrite pq_ins_fifo by done. apply pq_sorted_app in Hs as (Hs1 & Hs2 & Hs3).
  apply pq_sorted_app. split_and!; [done| |].
  - simpl. split; [|done]. eapply Forall_impl; [exact H2|]. simpl. lia.
  - rewrite Forall_forall in *. intros x Hx. constructor; [by apply H1|by apply Hs3].
Qed.

Lemma pq_del_sorted t l : pq_sorted l -> pq_sorted (pq_del t l).
Proof.
  induction l as [|x l IH]; simpl; [done|]. intros [Hx Hs]. unfold pq_del.
  rewrite filter_cons. case_decide; [|by apply IH]. simpl. split; [|by apply IH].
  rewrite Forall_forall in *. intros y Hy. apply list_elem_of_filter in Hy as [_ Hy]. by apply Hx.
Qed.

Lemma pq_incr_sorted l : pq_sorted l -> pq_sorted (pq_incr l).
Proof.
  induction l as [|x l IH]; simpl; [done|]. intros [Hx Hs]. split; [|by apply IH].
  unfold pq_incr. rewrite Forall_fmap. eapply Forall_impl; [exact Hx|]. simpl. lia.
Qed.

(** The favored thread becomes the head. *)
Lemma pq_fav_head t l : pq_sorted l -> t ∈ l.*1 ->
  pq_sorted (pq_fav t l) /\ head (pq_fav t l).*1 = Some t.
Proof.
  intros Hs Ht. destruct l as [|x [|y l]]; csimpl in *; [by apply not_elem_of_nil in Ht| |].
  - split; [done|]. by apply list_elem_of_singleton in Ht as ->.
  - assert (Hs' := pq_del_sorted t (x :: y :: l) Hs). unfold pq_fav.
    destruct (pq_del t _) as [|[z pz] l'] eqn:E.
    + split; [done|]. destruct (decide (x.1 = t)) as [Hx|Hx]; [csimpl; by rewrite Hx|].
      unfold pq_del in E. by rewrite filter_cons_True in E.
    + split; [|done]. simpl in *. destruct Hs' as [H1 H2]. split_and!; [|done..].
      constructor; simpl; [lia|]. eapply Forall_impl; [exact H1|]. simpl. lia.
Qed.

(** The stored priorities stay far inside an [int] as long as the absolute
    priorities do. *)
Lemma deltas_range m p l a v : deltas m p l -> a ∈ l.*1 -> m !! a = Some v ->
  - 2 ^ 30 <= p < 2 ^ 30 -> Forall (fun x => - 2 ^ 30 <= x.2 < 2 ^ 30) l -> in_i32 v.
Proof.
  revert p. induction l as [|[y py] l IH]; intros p; simpl; [by intros _ []%not_elem_of_nil|].
  intros [H1 H2] [->|Ha]%elem_of_cons Hv Hp [Hy Hl]%Forall_cons; simpl in *.
  - assert (v = p - py) as -> by congruence. unfold in_i32. lia.
  - by eapply IH.
Qed.

(** A heap of three control blocks in which threads 1 and 2 are queued with
    the priorities 3 and 1, and the queue. *)
Definition demo_heap : qheap :=
  QHeap (Dll (list_to_map [(1%positive, Some 2%positive); (2%positive, Some 1%positive);
                           (3%positive, NULL)])
             (list_to_map [(1%positive, Some 2%positive); (2%positive, Some 1%positive);
                           (3%positive, NULL)]))
        (list_to_map [(1%positive, 3); (2%positive, 2); (3%positive, 0)]).
Definition demo_queue : pqueue := Pqueue (Some 1%positive) 2.

Lemma demo_rep : pq_rep demo_heap demo_queue [(1%positive, 3); (2%positive, 1)].
Proof.
  constructor; [done|done| | |].
  - apply (bool_decide_unpack _). by vm_compute.
  - by vm_compute.
  - by vm_compute.
Qed.

Lemma demo_node : qnode demo_heap 3.
Proof. split; [split|]; by eexists. Qed.

(** ** Properties *)

(** [pth_pqueue_insert] called with an allocated thread that is not in
    the queue dereferences only valid addresses, terminates, and turns the
    represented list into the one with the thread behind all threads of at
    least its priority; a sorted queue stays sorted, and no field of a thread
    outside the queue changes. *)
Lemma pqueue_insert_correct h q l prio t :
  pq_rep h q l -> pq_sorted l -> qnode h t -> t ∉ l.*1 ->
  exists h' q' l1 l2, pth_pqueue_insert (Some q) prio (Some t) h = Some (Some q', h') /\
    l = l1 ++ l2 /\ Forall (fun x => prio <= x.2) l1 /\ Forall (fun x => x.2 < prio) l2 /\
    pq_rep h' q' (l1 ++ (t, prio) :: l2) /\ pq_sorted (l1 ++ (t, prio) :: l2) /\
    qframe (t :: l.*1) h h'.
Proof.
  intros Hr Hs Ht Hni. destruct (insert_ok _ _ _ prio _ Hr Ht Hni) as (h' & q' & E & Hr' & Hf).
  destruct (pq_sorted_split prio l Hs) as (l1 & l2 & Hl & H1 & H2).
  exists h', q', l1, l2. assert (Hi := pq_ins_fifo prio t l1 l2 H1 H2). rewrite <- Hl in Hi.
  rewrite <- Hi. split_and!; try done. by apply pq_ins_sorted.
Qed.

Lemma pqueue_insert_correct_witness :
  exists h' q' l1 l2, pth_pqueue_insert (Some demo_queue) 3 (Some 3%positive) demo_heap = Some (Some q', h') /\
    [(1%positive, 3); (2%positive, 1)] = l1 ++ l2 /\
    Forall (fun x => 3 <= x.2) l1 /\ Forall (fun x => x.2 < 3) l2 /\
    pq_rep h' q' (l1 ++ (3%positive, 3) :: l2) /\ pq_sorted (l1 ++ (3%positive, 3) :: l2) /\
    qframe [3%positive; 1%positive; 2%positive] demo_heap h'.
Proof.
  apply (pqueue_insert_correct demo_heap demo_queue [(1%positive, 3); (2%positive, 1)] 3 3).
  - apply demo_rep.
  - simpl. repeat constructor; simpl; lia.
  - apply demo_node.
  - by apply (bool_decide_unpack _).
Defined.

(** [pth_pqueue_delmax] on a sorted queue returns a thread of maximal
    priority, among those the one queued first (the head), leaves the others
    as a sorted queue, and returns NULL without any change exactly when the
    queue is empty. *)
Lemma pqueue_delmax_correct h q l :
  pq_rep h q l -> pq_sorted l ->
  exists h' q', pth_pqueue_delmax (Some q) h = Some ((head l.*1, Some q'), h') /\
    pq_rep h' q' (tail l) /\ pq_sorted (tail l) /\ qframe l.*1 h h' /\
    (forall x, head l = Some x -> Forall (fun y => y.2 <= x.2) l) /\
    (l = [] -> h' = h /\ q' = q).
Proof.
  intros Hr Hs. destruct l as [|[t p] l].
  - exists h, q. rewrite (delmax_empty _ _ Hr). pose proof (qframe_refl [] h). by split_and!.
  - destruct (delmax_ok _ _ _ _ _ Hr) as (h' & q' & E & Hr' & Hf). exists h', q'.
    destruct Hs as [Hs1 Hs2]. split_and!; try done.
    intros x [= <-]. by constructor.
Qed.

Lemma pqueue_delmax_correct_witness :
  exists h' q', pth_pqueue_delmax (Some demo_queue) demo_heap = Some ((Some 1%positive, Some q'), h') /\
    pq_rep h' q' [(2%positive, 1)] /\ pq_sorted [(2%positive, 1)] /\
    qframe [1%positive; 2%positive] demo_heap h' /\
    (forall x, Some (1%positive, 3) = Some x ->
      Forall (fun y => y.2 <= x.2) [(1%positive, 3); (2%positive, 1)]) /\
    ([(1%positive, 3); (2%positive, 1)] = [] -> h' = demo_heap /\ q' = demo_queue).
Proof.
  apply (pqueue_delmax_correct demo_heap demo_queue [(1%positive, 3); (2%positive, 1)]).
  - apply demo_rep.
  - simpl. repeat constructor; simpl; lia.
Defined.

(** [pth_pqueue_delete] and [pth_pqueue_favorite], called with a thread of
    the queue, take it out respectively move it to the front with a priority
    one above the former maximum; the order and the priorities of all other
    threads are kept, and a sorted queue stays sorted. *)
Lemma pqueue_delete_favorite_correct h q l t :
  pq_rep h q l -> pq_sorted l -> t ∈ l.*1 ->
  (exists h' q', pth_pqueue_delete (Some q) (Some t) h = Some (Some q', h') /\
     pq_rep h' q' (pq_del t l) /\ pq_sorted (pq_del t l) /\ qframe l.*1 h h') /\
  (exists h' q', pth_pqueue_favorite (Some q) (Some t) h = Some ((true, Some q'), h') /\
     pq_rep h' q' (pq_fav t l) /\ pq_sorted (pq_fav t l) /\ head (pq_fav t l).*1 = Some t /\
     qframe l.*1 h h').
Proof.
  intros Hr Hs Ht. split.
  - destruct (delete_ok _ _ _ _ Hr Ht) as (h' & q' & E & Hr' & Hf).
    exists h', q'. split_and!; [done|done|by apply pq_del_sorted|done].
  - destruct (favorite_ok _ _ _ _ Hr Ht) as (h' & q' & E & Hr' & Hf). exists h', q'.
    destruct (pq_fav_head t l Hs Ht). by split_and!.
Qed.

Lemma pqueue_delete_favorite_correct_witness :
  (exists h' q', pth_pqueue_delete (Some demo_queue) (Some 2%positive) demo_heap = Some (Some q', h') /\
     pq_rep h' q' [(1%positive, 3)] /\ pq_sorted [(1%positive, 3)] /\
     qframe [1%positive; 2%positive] demo_heap h') /\
  (exists h' q', pth_pqueue_favorite (Some demo_queue) (Some 2%positive) demo_heap
       = Some ((true, Some q'), h') /\
     pq_rep h' q' [(2%positive, 4); (1%positive, 3)] /\
     pq_sorted [(2%positive, 4); (1%positive, 3)] /\
     head [2%positive; 1%positive] = Some 2%positive /\
     qframe [1%positive; 2%positive] demo_heap h').
Proof.
  apply (pqueue_delete_favorite_correct demo_heap demo_queue [(1%positive, 3); (2%positive, 1)] 2).
  - apply demo_rep.
  - simpl. repeat constructor; simpl; lia.
  - by apply (bool_decide_unpack _).
Defined.

(** Walking a queue enumerates exactly its list: from a thread to the one
    behind it ([PTH_WALK_NEXT]) or in front of it ([PTH_WALK_PREV]), NULL at
    the ends; [pth_pqueue_contains] terminates and decides membership,
    [pth_pqueue_tail] and [pth_pqueue_elements] give the last thread and the
    length, and none of them changes the heap. *)
Lemma pqueue_walk_contains_correct h q l1 c p l2 t :
  pq_rep h q (l1 ++ (c, p) :: l2) ->
  pth_pqueue_walk (Some q) (Some c) WALK_NEXT h = Some (head l2.*1, h) /\
  pth_pqueue_walk (Some q) (Some c) WALK_PREV h = Some (last l1.*1, h) /\
  pth_pqueue_contains (Some q) (Some t) h = Some (bool_decide (t ∈ (l1 ++ (c, p) :: l2).*1), h) /\
  pth_pqueue_tail (Some q) h = Some (last (l1 ++ (c, p) :: l2).*1, h) /\
  pth_pqueue_elements (Some q) = Z.of_nat (length (l1 ++ (c, p) :: l2)).
Proof.
  intros Hr. split_and!; [by eapply walk_next_ok|by eapply walk_prev_ok|by apply contains_ok
                         |by apply tail_ok|apply Hr].
Qed.

Lemma pqueue_walk_contains_correct_witness :
  pth_pqueue_walk (Some demo_queue) (Some 1%positive) WALK_NEXT demo_heap = Some (Some 2%positive, demo_heap) /\
  pth_pqueue_walk (Some demo_queue) (Some 1%positive) WALK_PREV demo_heap = Some (NULL, demo_heap) /\
  pth_pqueue_contains (Some demo_queue) (Some 3%positive) demo_heap = Some (false, demo_heap) /\
  pth_pqueue_tail (Some demo_queue) demo_heap = Some (Some 2%positive, demo_heap) /\
  pth_pqueue_elements (Some demo_queue) = 2.
Proof.
  apply (pqueue_walk_contains_correct demo_heap demo_queue [] 1 3 [(2%positive, 1)] 3).
  apply demo_rep.
Defined.
