(* ===== verification/Ring.v ===== *)
(** * Rings (src/pth_ring.c)

    A ring is a hook into a cycle of nodes ([rn_next]/[rn_prev]) and the
    number of its nodes. It holds the pending messages of a port, the ports
    of the process and the mutexes a thread has locked. [ring_rep] relates a
    ring to the list of its nodes from the hook on. *)

From stdpp Require Import base numbers gmap list.
From S2P Require Import Prelude Links.
Open Scope Z_scope.

(** [struct pth_ring_st]; [r_nodes] is an [unsigned int]. *)
Record ring := Ring { r_hook : ptr; r_nodes : Z }.

Definition pth_ring_init (r : option ring) : option ring :=
  match r with Some _ => Some (Ring NULL 0) | None => None end.

(** The conditional has type [unsigned int], so the error value is
    [UINT_MAX]. *)
Definition pth_ring_elements (r : option ring) : Z :=
  match r with None => u32 (-1) | Some r => r_nodes r end.

Definition pth_ring_first (r : option ring) : ptr :=
  match r with None => NULL | Some r => r_hook r end.

Definition pth_ring_last (r : option ring) : st dll ptr :=
  match r with
  | None => mret NULL
  | Some r => if bool_decide (r_hook r = NULL) then mret NULL else rd_prev (r_hook r)
  end.

Definition pth_ring_next (r : option ring) (rn : ptr) : st dll ptr :=
  match r, rn with
  | Some r, Some _ =>
      n ← rd_next rn;
      if bool_decide (n = r_hook r) then mret NULL else rd_next rn
  | _, _ => mret NULL
  end.

Definition pth_ring_prev (r : option ring) (rn : ptr) : st dll ptr :=
  match r, rn with
  | Some r, Some _ =>
      p ← rd_prev rn;
      hp ← rd_prev (r_hook r);
      if bool_decide (p = hp) then mret NULL else rd_prev rn
  | _, _ => mret NULL
  end.

Definition pth_ring_insert_after (r : option ring) (rn1 rn2 : ptr) : st dll (option ring) :=
  match r, rn1, rn2 with
  | Some r', Some _, Some _ =>
      wr_prev rn2 rn1;;
      n ← rd_next rn1;
      wr_next rn2 n;;
      p ← rd_prev rn2;
      wr_next p rn2;;
      n ← rd_next rn2;
      wr_prev n rn2;;
      mret (Some (Ring (r_hook r') (u32 (r_nodes r' + 1))))
  | _, _, _ => mret r
  end.

Definition pth_ring_insert_before (r : option ring) (rn1 rn2 : ptr) : st dll (option ring) :=
  match r, rn1, rn2 with
  | Some r', Some _, Some _ =>
      wr_next rn2 rn1;;
      p ← rd_prev rn1;
      wr_prev rn2 p;;
      p ← rd_prev rn2;
      wr_next p rn2;;
      n ← rd_next rn2;
      wr_prev n rn2;;
      mret (Some (Ring (r_hook r') (u32 (r_nodes r' + 1))))
  | _, _, _ => mret r
  end.

Definition pth_ring_delete (r : option ring) (rn : ptr) : st dll (option ring) :=
  match r, rn with
  | Some r', Some _ =>
      p ← (if bool_decide (r_hook r' = rn) then rd_prev rn else mret NULL);
      n ← (if bool_decide (r_hook r' = rn) && bool_decide (p = rn) then rd_next rn else mret NULL);
      if bool_decide (r_hook r' = rn) && bool_decide (p = rn) && bool_decide (n = rn)
      then mret (Some (Ring NULL (u32 (r_nodes r' - 1))))
      else
        hook ← (if bool_decide (r_hook r' = rn) then rd_next rn else mret (r_hook r'));
        p ← rd_prev rn;
        n ← rd_next rn;
        wr_next p n;;
        n ← rd_next rn;
        p ← rd_prev rn;
        wr_prev n p;;
        mret (Some (Ring hook (u32 (r_nodes r' - 1))))
  | _, _ => mret r
  end.

(** Prepending and appending differ in the hook only. *)
Definition pth_ring_prepend (r : option ring) (rn : ptr) : st dll (option ring) :=
  match r, rn with
  | Some r', Some _ =>
      if bool_decide (r_hook r' = NULL) then
        wr_next rn rn;;
        wr_prev rn rn;;
        mret (Some (Ring rn (u32 (r_nodes r' + 1))))
      else
        wr_next rn (r_hook r');;
        p ← rd_prev (r_hook r');
        wr_prev rn p;;
        n ← rd_next rn;
        wr_prev n rn;;
        p ← rd_prev rn;
        wr_next p rn;;
        mret (Some (Ring rn (u32 (r_nodes r' + 1))))
  | _, _ => mret r
  end.

Definition pth_ring_append (r : option ring) (rn : ptr) : st dll (option ring) :=
  match r, rn with
  | Some r', Some _ =>
      if bool_decide (r_hook r' = NULL) then
        wr_next rn rn;;
        wr_prev rn rn;;
        mret (Some (Ring rn (u32 (r_nodes r' + 1))))
      else
        wr_next rn (r_hook r');;
        p ← rd_prev (r_hook r');
        wr_prev rn p;;
        n ← rd_next rn;
        wr_prev n rn;;
        p ← rd_prev rn;
        wr_next p rn;;
        mret (Some (Ring (r_hook r') (u32 (r_nodes r' + 1))))
  | _, _ => mret r
  end.

Definition pth_ring_pop (r : option ring) : st dll (ptr * option ring) :=
  let rn := pth_ring_first r in
  if bool_decide (rn = NULL) then mret (rn, r)
  else r' ← pth_ring_delete r rn; mret (rn, r').

Definition pth_ring_favorite (r : option ring) (rn : ptr) : st dll (bool * option ring) :=
  match r with
  | None => mret (false, None)
  | Some r' =>
      if bool_decide (r_hook r' = NULL) then mret (false, r)
      else if bool_decide (r_hook r' = rn) then mret (true, r)
      else r1 ← pth_ring_delete r rn;
           r2 ← pth_ring_prepend r1 rn;
           mret (true, r2)
  end.

Definition pth_ring_dequeue (r : option ring) : st dll (ptr * option ring) :=
  rn ← pth_ring_last r;
  if bool_decide (rn = NULL) then mret (rn, r)
  else r' ← pth_ring_delete r rn; mret (rn, r').

(** The [do ... while] loop of [pth_ring_contains]. *)
Fixpoint pth_ring_contains_from (fuel : nat) (hook rn rns : ptr) : st dll bool :=
  if bool_decide (rn = rns) then mret true
  else match fuel with
       | O => undef
       | S fuel' =>
           rn' ← rd_next rn;
           if bool_decide (rn' = hook) then mret false
           else pth_ring_contains_from fuel' hook rn' rns
       end.

Definition pth_ring_contains (r : option ring) (rns : ptr) : st dll (bool * option errno) :=
  match r, rns with
  | Some r', Some _ =>
      if bool_decide (r_hook r' = NULL) then mret (ok false)
      else rc ← pth_ring_contains_from (Z.to_nat (r_nodes r')) (r_hook r') (r_hook r') rns;
           mret (ok rc)
  | _, _ => mret (pth_error false EINVAL)
  end.

(** ** The list a ring represents *)

Record ring_rep (h : dll) (r : ring) (l : list addr) : Prop := {
  rr_num : r_nodes r = Z.of_nat (length l);
  rr_hook : r_hook r = head l;
  rr_nodup : NoDup l;
  rr_cyc : cyc h l;
  rr_max : Z.of_nat (length l) < 2 ^ 32
}.

Lemma ring_empty h r : ring_rep h r [] <-> r = Ring NULL 0.
Proof.
  split; [|intros ->; constructor; simpl; [done..|constructor|done|lia]].
  intros [Hn Hh _ _ _]. destruct r; simpl in *. by subst.
Qed.

Lemma ring_frame (S : list addr) h h' r l :
  lframe S h h' -> (forall a, a ∈ l -> a ∉ S) -> ring_rep h r l -> ring_rep h' r l.
Proof. intros Hf HS []. constructor; try done. by eapply cyc_lframe. Qed.

Lemma node_elim (h : dll) (t : addr) : node h t -> exists n p, nxt h !! t = Some n /\ prv h !! t = Some p.
Proof. intros [[? ?] [? ?]]. eauto. Qed.

(** ** Insertion *)

(** A ring after one node was linked in. *)
Lemma ring_add (h' : dll) hook n (l l' : list addr) :
  Z.of_nat (length l) + 1 < 2 ^ 32 -> n = Z.of_nat (length l) -> length l' = S (length l) ->
  hook = head l' -> NoDup l' -> cyc h' l' ->
  ring_rep h' (Ring hook (u32 (n + 1))) l'.
Proof.
  intros Hl -> Hl' -> Hnd Hc. rewrite u32_small by lia.
  constructor; simpl; [lia|done|done|done|lia].
Qed.

Lemma nodup_snoc (l : list addr) t : NoDup l -> t ∉ l -> NoDup (l ++ [t]).
Proof. intros Hn Ht. rewrite <- Permutation_cons_append. by constructor. Qed.

Lemma append_ok h r l t :
  ring_rep h r l -> node h t -> t ∉ l -> Z.of_nat (length l) + 1 < 2 ^ 32 ->
  exists h' r', pth_ring_append (Some r) (Some t) h = Some (Some r', h') /\
    ring_rep h' r' (l ++ [t]) /\ lframe (t :: l) h h'.
Proof.
  intros [Hn Hh Hnd Hc _] Ht Hni Hl. destruct (node_elim _ _ Ht) as (tn & tp & Htn & Htp).
  unfold pth_ring_append. rewrite Hh. destruct l as [|x l]; simpl head.
  - rewrite bool_decide_eq_true_2 by done. do 2 lstep. eexists _, _. split; [reflexivity|].
    split; [|apply lframe_upd; upd_cases].
    apply (ring_add _ _ _ []); [done..|apply NoDup_singleton|].
    split; by simplify_map_eq.
  - rewrite bool_decide_eq_false_2 by done.
    destruct (cyc_prev_in _ _ x Hc) as (a & Ha & Hain); [by left|].
    destruct (cyc_next_in _ _ a Hc) as (b & Hb & _); [done|].
    assert (Hta : t <> a) by (by intros ->). assert (Htx : t <> x) by (intros ->; apply Hni; by left).
    do 7 lstep. eexists _, _. split; [reflexivity|].
    split; [|apply lframe_upd; upd_cases].
    apply (ring_add _ _ _ (x :: l)); [done|done| |done|by apply nodup_snoc|].
    { rewrite length_app. simpl. lia. }
    by apply cyc_link_end.
Qed.

Lemma prepend_ok h r l t :
  ring_rep h r l -> node h t -> t ∉ l -> Z.of_nat (length l) + 1 < 2 ^ 32 ->
  exists h' r', pth_ring_prepend (Some r) (Some t) h = Some (Some r', h') /\
    ring_rep h' r' (t :: l) /\ lframe (t :: l) h h'.
Proof.
  intros [Hn Hh Hnd Hc _] Ht Hni Hl. destruct (node_elim _ _ Ht) as (tn & tp & Htn & Htp).
  unfold pth_ring_prepend. rewrite Hh. destruct l as [|x l]; simpl head.
  - rewrite bool_decide_eq_true_2 by done. do 2 lstep. eexists _, _. split; [reflexivity|].
    split; [|apply lframe_upd; upd_cases].
    apply (ring_add _ _ _ []); [done..|apply NoDup_singleton|].
    split; by simplify_map_eq.
  - rewrite bool_decide_eq_false_2 by done.
    destruct (cyc_prev_in _ _ x Hc) as (a & Ha & Hain); [by left|].
    destruct (cyc_next_in _ _ a Hc) as (b & Hb & _); [done|].
    assert (Hta : t <> a) by (by intros ->). assert (Htx : t <> x) by (intros ->; apply Hni; by left).
    do 7 lstep. eexists _, _. split; [reflexivity|].
    split; [|apply lframe_upd; upd_cases].
    apply (ring_add _ _ _ (x :: l)); [done|done|done|done|by constructor|].
    apply (cyc_rotate _ (x :: l) [t]). by apply cyc_link_end.
Qed.

Lemma ring_insert_after_ok h r l1 a l2 t :
  ring_rep h r (l1 ++ a :: l2) -> node h t -> t ∉ l1 ++ a :: l2 ->
  Z.of_nat (length (l1 ++ a :: l2)) + 1 < 2 ^ 32 ->
  exists h' r', pth_ring_insert_after (Some r) (Some a) (Some t) h = Some (Some r', h') /\
    ring_rep h' r' (l1 ++ a :: t :: l2) /\ lframe (t :: l1 ++ a :: l2) h h'.
Proof.
  intros [Hn Hh Hnd Hc _] Ht Hni Hl. destruct (node_elim _ _ Ht) as (tn & tp & Htn & Htp).
  assert (Hain : a ∈ l1 ++ a :: l2) by (apply elem_of_app; right; by left).
  destruct (cyc_next_in _ _ a Hc) as (b & Hb & Hbin); [done|].
  destruct (cyc_prev_in _ _ b Hc) as (c & Hc' & _); [done|].
  assert (Hta : t <> a) by (by intros ->). assert (Htb : t <> b) by (by intros ->).
  unfold pth_ring_insert_after. do 7 lstep. eexists _, _. split; [reflexivity|].
  split; [|apply lframe_upd; upd_cases].
  apply (ring_add _ _ _ (l1 ++ a :: l2)); [done|done| | | |].
  - rewrite !length_app. simpl. lia.
  - rewrite Hh. by destruct l1.
  - rewrite perm_after. by constructor.
  - by apply cyc_link_after.
Qed.

Lemma insert_before_ok h r l1 a l2 t :
  ring_rep h r (l1 ++ a :: l2) -> node h t -> t ∉ l1 ++ a :: l2 ->
  Z.of_nat (length (l1 ++ a :: l2)) + 1 < 2 ^ 32 ->
  exists h' r', pth_ring_insert_before (Some r) (Some a) (Some t) h = Some (Some r', h') /\
    ring_rep h' r' (match l1 with [] => a :: l2 ++ [t] | _ => l1 ++ t :: a :: l2 end) /\
    lframe (t :: l1 ++ a :: l2) h h'.
Proof.
  intros [Hn Hh Hnd Hc _] Ht Hni Hl. destruct (node_elim _ _ Ht) as (tn & tp & Htn & Htp).
  assert (Hain : a ∈ l1 ++ a :: l2) by (apply elem_of_app; right; by left).
  destruct (cyc_prev_in _ _ a Hc) as (b & Hb & Hbin); [done|].
  destruct (cyc_next_in _ _ b Hc) as (c & Hc' & _); [done|].
  assert (Hta : t <> a) by (by intros ->). assert (Htb : t <> b) by (by intros ->).
  unfold pth_ring_insert_before. do 7 lstep. eexists _, _. split; [reflexivity|].
  split; [|apply lframe_upd; upd_cases].
  apply (ring_add _ _ _ (l1 ++ a :: l2)); [done|done| | | |].
  - destruct l1; simpl; rewrite !length_app; simpl; lia.
  - rewrite Hh. by destruct l1.
  - destruct l1 as [|x l1]; [by apply (nodup_snoc (a :: l2))|].
    change (NoDup ((x :: l1) ++ t :: a :: l2)). rewrite <- Permutation_middle. by constructor.
  - destruct (nil_or_snoc l1) as [->|(l1' & z & ->)]; [by apply cyc_link_end|].
    rewrite <- app_assoc in *. simpl in *.
    destruct (cyc_next _ _ _ _ _ Hc) as [Hz Hz']. assert (b = z) as -> by congruence.
    assert (Hg := cyc_link_after _ _ _ _ t a Hc Hnd Hni Hz).
    destruct (l1' ++ [z]) eqn:E; [by destruct l1'|]. exact Hg.
Qed.

(** ** Deletion *)

(** A ring after one node was taken out. *)
Lemma ring_sub (h' : dll) hook n (l l' : list addr) :
  Z.of_nat (length l) < 2 ^ 32 -> n = Z.of_nat (length l) -> length l = S (length l') ->
  hook = head l' -> NoDup l' -> cyc h' l' ->
  ring_rep h' (Ring hook (u32 (n - 1))) l'.
Proof.
  intros Hl -> Hl' -> Hnd Hc. rewrite u32_small by lia.
  constructor; simpl; [lia|done|done|done|lia].
Qed.

(** The hook after a deletion. *)
Lemma delete_hook l1 (t b : addr) l2 :
  NoDup (l1 ++ t :: l2) -> b ∈ l1 ++ l2 -> head (l2 ++ l1 ++ [t]) = Some b ->
  (if bool_decide (head (l1 ++ t :: l2) = Some t) then Some b else head (l1 ++ t :: l2))
    = head (l1 ++ l2).
Proof.
  intros Hnd Hb Hh. destruct l1 as [|x l1]; simpl.
  - rewrite bool_decide_eq_true_2 by done. destruct l2; [by apply not_elem_of_nil in Hb|done].
  - rewrite bool_decide_eq_false_2; [done|]. intros [= ->]. simpl in Hnd.
    apply NoDup_cons in Hnd as [Hnd _]. apply Hnd. apply elem_of_app. right. by left.
Qed.

Lemma delete_last_ok h r t :
  ring_rep h r [t] ->
  exists r', pth_ring_delete (Some r) (Some t) h = Some (Some r', h) /\ ring_rep h r' [].
Proof.
  intros [Hn Hh Hnd Hc _]. apply cyc_single in Hc as [H1 H2].
  unfold pth_ring_delete. rewrite Hh. rewrite (bool_decide_eq_true_2 (head [t] = Some t)) by done.
  lstep. rewrite (bool_decide_eq_true_2 (Some t = Some t)) by done. cbn [andb]. lstep.
  rewrite (bool_decide_eq_true_2 (Some t = Some t)) by done. cbn [andb].
  eexists. split; [reflexivity|]. apply (ring_sub _ _ _ [t]); try done. constructor.
Qed.

Lemma ring_delete_ok h r l1 t l2 :
  ring_rep h r (l1 ++ t :: l2) ->
  exists h' r', pth_ring_delete (Some r) (Some t) h = Some (Some r', h') /\
    ring_rep h' r' (l1 ++ l2) /\ lframe (l1 ++ l2) h h'.
Proof.
  intros Hr. destruct (decide (l1 ++ l2 = [])) as [Hnil|Hne].
  { apply app_eq_nil in Hnil as [-> ->].
    destruct (delete_last_ok _ _ _ Hr) as (r' & E & Hr'). exists h, r'. eauto with pth. }
  destruct Hr as [Hn Hh Hnd Hc Hmax].
  assert (Hnx := cyc_next_head _ _ _ _ Hc).
  assert (exists a b, prv h !! t = Some (Some a) /\ nxt h !! t = Some (Some b) /\
            a ∈ l1 ++ l2 /\ b ∈ l1 ++ l2 /\ head (l2 ++ l1 ++ [t]) = Some b)
    as (a & b & Ha & Hb & Hain & Hbin & Hhd) by (by apply cyc_other).
  assert (Hti : t ∉ l1 ++ l2).
  { rewrite <- Permutation_middle in Hnd. by apply NoDup_cons in Hnd as [? _]. }
  destruct (cyc_next_in _ _ a Hc) as (c & Hac & _).
  { apply elem_of_app in Hain. apply elem_of_app. rewrite elem_of_cons. tauto. }
  destruct (cyc_prev_in _ _ b Hc) as (d & Hbd & _).
  { apply elem_of_app in Hbin. apply elem_of_app. rewrite elem_of_cons. tauto. }
  assert (Hta : t <> a) by (by intros ->). assert (Htb : t <> b) by (by intros ->).
  pose proof (delete_hook _ _ _ _ Hnd Hbin Hhd) as Hhook. rewrite <- Hh in Hhook.
  assert (Hfin : exists h' r', pth_ring_delete (Some r) (Some t) h = Some (Some r', h') /\
    r' = Ring (head (l1 ++ l2)) (u32 (r_nodes r - 1)) /\ h' = unlink a b h).
  { unfold pth_ring_delete. rewrite <- Hhook. case_bool_decide; lstep.
    - rewrite (bool_decide_eq_false_2 (Some a = Some t)) by congruence. cbn [andb].
      do 8 lstep. eauto.
    - cbn [andb]. do 8 lstep. eauto. }
  destruct Hfin as (h' & r' & E & -> & ->). eexists _, _. split; [exact E|].
  split; [|apply lframe_upd; upd_cases].
  apply (ring_sub _ _ _ (l1 ++ t :: l2)); [done|done| |done| |].
  - rewrite !length_app. simpl. lia.
  - rewrite <- Permutation_middle in Hnd. by apply NoDup_cons in Hnd as [_ ?].
  - by apply (cyc_unlink h l1 t l2).
Qed.

(** ** The stack and queue operations *)

Lemma pop_ok h r l :
  ring_rep h r l ->
  exists h' r', pth_ring_pop (Some r) h = Some ((head l, Some r'), h') /\
    ring_rep h' r' (tail l) /\ lframe (tail l) h h'.
Proof.
  intros Hr. unfold pth_ring_pop. cbn [pth_ring_first]. rewrite (rr_hook _ _ _ Hr).
  destruct l as [|x l]; simpl head.
  - rewrite bool_decide_eq_true_2 by done. eauto 10 with pth.
  - rewrite bool_decide_eq_false_2 by done.
    destruct (ring_delete_ok _ _ [] _ _ Hr) as (h' & r' & E & Hr' & Hf). lstep. eauto.
Qed.

Lemma last_ok h r l : ring_rep h r l -> pth_ring_last (Some r) h = Some (last l, h).
Proof.
  intros [_ Hh _ Hc _]. unfold pth_ring_last. rewrite Hh.
  destruct l as [|x l]; [by rewrite bool_decide_eq_true_2|].
  rewrite bool_decide_eq_false_2 by done. simpl head.
  destruct (nil_or_snoc l) as [->|(l' & z & ->)].
  - apply cyc_single in Hc as [_ Hc]. by apply x_rprev.
  - apply cyc_last in Hc as [_ Hc]. rewrite app_comm_cons, last_snoc. by apply x_rprev.
Qed.

Lemma dequeue_ok h r l :
  ring_rep h r l ->
  exists h' r', pth_ring_dequeue (Some r) h = Some ((last l, Some r'), h') /\
    ring_rep h' r' (removelast l) /\ lframe l h h'.
Proof.
  intros Hr. unfold pth_ring_dequeue. rewrite (st_bind_Some _ _ _ _ _ (last_ok _ _ _ Hr)).
  destruct (nil_or_snoc l) as [->|(l' & z & ->)].
  - simpl last. rewrite bool_decide_eq_true_2 by done. eauto 10 with pth.
  - rewrite last_snoc, removelast_last. rewrite bool_decide_eq_false_2 by done.
    destruct (ring_delete_ok _ _ _ _ _ Hr) as (h' & r' & E & Hr' & Hf). lstep.
    rewrite app_nil_r in *. exists h', r'. split_and!; [done|done|].
    eapply lframe_trans; [apply lframe_refl|done|]. intros a Ha. apply elem_of_app. by left.
Qed.

Lemma ring_favorite_ok h r l1 t l2 :
  ring_rep h r (l1 ++ t :: l2) ->
  exists h' r', pth_ring_favorite (Some r) (Some t) h = Some ((true, Some r'), h') /\
    ring_rep h' r' (t :: l1 ++ l2) /\ lframe (l1 ++ t :: l2) h h'.
Proof.
  intros Hr. unfold pth_ring_favorite. assert (Hh := rr_hook _ _ _ Hr).
  rewrite (bool_decide_eq_false_2 (r_hook r = NULL)) by (rewrite Hh; by destruct l1).
  case_bool_decide as Hk.
  - exists h, r. destruct l1 as [|x l1]; [by eauto with pth|].
    rewrite Hh in Hk. injection Hk as ->. assert (Hnd := rr_nodup _ _ _ Hr). simpl in Hnd.
    apply NoDup_cons in Hnd as [Hnd _]. exfalso. apply Hnd, elem_of_app. right. by left.
  - destruct (ring_delete_ok _ _ _ _ _ Hr) as (h1 & r1 & E1 & Hr1 & Hf1). lstep.
    assert (Hlen := rr_max _ _ _ Hr). rewrite length_app in Hlen. simpl in Hlen.
    assert (Hnd := rr_nodup _ _ _ Hr). rewrite <- Permutation_middle in Hnd.
    apply NoDup_cons in Hnd as [Hni _].
    destruct (prepend_ok h1 r1 (l1 ++ l2) t Hr1) as (h2 & r2 & E2 & Hr2 & Hf2).
    { apply (lf_node _ _ _ Hf1). eapply cyc_node; [apply Hr|]. apply elem_of_app. right. by left. }
    { done. }
    { rewrite length_app. lia. }
    lstep. exists h2, r2. split_and!; [done|done|].
    assert (Hs : forall a, a ∈ t :: l1 ++ l2 <-> a ∈ l1 ++ t :: l2).
    { intros a. by rewrite <- Permutation_middle. }
    eapply lframe_trans; [|exact Hf2|by intros a Ha%Hs].
    eapply (lframe_trans _ (l1 ++ l2)); [apply lframe_refl|done|].
    intros a Ha. apply Hs. by right.
Qed.

Lemma ring_contains_from_ok h r l1 c l2 t fuel :
  ring_rep h r (l1 ++ c :: l2) -> (length (c :: l2) <= fuel)%nat ->
  pth_ring_contains_from fuel (r_hook r) (Some c) (Some t) h
    = Some (bool_decide (t ∈ c :: l2), h).
Proof.
  revert l1 c fuel. induction l2 as [|b l2 IH]; intros l1 c fuel Hr Hf;
    (destruct fuel as [|fuel]; [simpl in Hf; lia|]); cbn [pth_ring_contains_from];
    (destruct (decide (c = t)) as [->|Hne];
      [rewrite (bool_decide_eq_true_2 (t ∈ _)) by (by left); by rewrite bool_decide_eq_true_2
      |rewrite (bool_decide_eq_false_2 (Some c = Some t)) by congruence]);
    assert (Hnx := cyc_next_head _ _ _ _ (rr_cyc _ _ _ Hr)); assert (Hh := rr_hook _ _ _ Hr).
  - rewrite (st_bind_Some _ _ _ _ _ (x_rnext _ _ _ Hnx)).
    rewrite (bool_decide_eq_false_2 (t ∈ _)) by (by intros ->%list_elem_of_singleton).
    rewrite bool_decide_eq_true_2; [done|]. rewrite Hh. by destruct l1.
  - rewrite (st_bind_Some _ _ _ _ _ (x_rnext _ _ _ Hnx)). simpl head.
    rewrite (bool_decide_eq_false_2 (Some b = r_hook r)).
    + rewrite (IH (l1 ++ [c]) b); [|by rewrite <- app_assoc|simpl in *; lia].
      do 2 f_equal. apply bool_decide_ext. rewrite (elem_of_cons _ t c).
      split; [by right|by intros [->|]].
    + rewrite Hh. assert (Hnd := rr_nodup _ _ _ Hr). intros Heq.
      destruct l1 as [|x l1]; simpl in *; injection Heq as ->.
      * apply NoDup_cons in Hnd as [Hnd _]. apply Hnd. by left.
      * apply NoDup_cons in Hnd as [Hnd _]. apply Hnd, elem_of_app. right. right. by left.
Qed.

Lemma ring_contains_ok h r l t : ring_rep h r l ->
  pth_ring_contains (Some r) (Some t) h = Some (ok (bool_decide (t ∈ l)), h).
Proof.
  intros Hr. unfold pth_ring_contains. destruct l as [|x l].
  - apply ring_empty in Hr as ->.
    by rewrite (bool_decide_eq_false_2 (t ∈ _)) by apply not_elem_of_nil.
  - rewrite (rr_hook _ _ _ Hr). simpl head. rewrite (bool_decide_eq_false_2 (Some x = NULL)) by done.
    assert (E := ring_contains_from_ok h r [] x l t (length (x :: l)) Hr (le_n _)).
    rewrite (rr_hook _ _ _ Hr) in E. simpl head in E.
    rewrite (rr_num _ _ _ Hr), Nat2Z.id. by rewrite (st_bind_Some _ _ _ _ _ E).
Qed.

(** [pth_ring_next] enumerates the nodes from the hook on. *)
Lemma next_ok h r l1 c l2 : ring_rep h r (l1 ++ c :: l2) ->
  pth_ring_next (Some r) (Some c) h = Some (head l2, h).
Proof.
  intros Hr. assert (Hnx := cyc_next_head _ _ _ _ (rr_cyc _ _ _ Hr)).
  unfold pth_ring_next. rewrite (st_bind_Some _ _ _ _ _ (x_rnext _ _ _ Hnx)).
  assert (Hh := rr_hook _ _ _ Hr). assert (Hnd := rr_nodup _ _ _ Hr).
  destruct l2 as [|b l2].
  - rewrite bool_decide_eq_true_2; [done|]. rewrite Hh. by destruct l1.
  - simpl head in *. rewrite bool_decide_eq_false_2; [by apply x_rnext|].
    rewrite Hh. intros Heq. destruct l1 as [|x l1]; simpl in *; injection Heq as ->.
    * apply NoDup_cons in Hnd as [Hnd _]. apply Hnd. by left.
    * apply NoDup_cons in Hnd as [Hnd _]. apply Hnd, elem_of_app. right. right. by left.
Qed.

(** ** Properties *)

(** A ring of the nodes 1 and 2, and a free node 3. *)
Definition demo_dll : dll :=
  Dll (list_to_map [(1%positive, Some 2%positive); (2%positive, Some 1%positive); (3%positive, NULL)])
      (list_to_map [(1%positive, Some 2%positive); (2%positive, Some 1%positive); (3%positive, NULL)]).
Definition demo_ring : ring := Ring (Some 1%positive) 2.

Lemma demo_ring_rep : ring_rep demo_dll demo_ring [1%positive; 2%positive].
Proof. constructor; [done|done|by apply (bool_decide_unpack _)|by vm_compute|simpl; lia]. Qed.

Lemma demo_ring_node : node demo_dll 3.
Proof. split; by eexists. Qed.

(** Each of the four insertions puts an allocated node that is not in the
    ring at its place: at the end ([pth_ring_append]), at the hook
    ([pth_ring_prepend]), behind a given node or in front of it; all other
    nodes keep their order, only valid addresses are dereferenced and nodes
    outside the ring are not written. Inserting in front of the hook leaves
    the hook where it is, so it appends. *)
Lemma ring_insertions_correct h r l1 a l2 t :
  ring_rep h r (l1 ++ a :: l2) -> node h t -> t ∉ l1 ++ a :: l2 ->
  Z.of_nat (length (l1 ++ a :: l2)) + 1 < 2 ^ 32 ->
  let after m l' := exists h' r', m h = Some (Some r', h') /\ ring_rep h' r' l' /\
                       lframe (t :: l1 ++ a :: l2) h h' in
  after (pth_ring_append (Some r) (Some t)) (l1 ++ a :: l2 ++ [t]) /\
  after (pth_ring_prepend (Some r) (Some t)) (t :: l1 ++ a :: l2) /\
  after (pth_ring_insert_after (Some r) (Some a) (Some t)) (l1 ++ a :: t :: l2) /\
  after (pth_ring_insert_before (Some r) (Some a) (Some t))
    (match l1 with [] => a :: l2 ++ [t] | _ => l1 ++ t :: a :: l2 end).
Proof.
  intros Hr Ht Hni Hl. split_and!.
  - destruct (append_ok _ _ _ _ Hr Ht Hni Hl) as (h' & r' & E & Hr' & Hf). exists h', r'.
    rewrite <- app_assoc in Hr'. by split_and!.
  - by apply prepend_ok.
  - by apply ring_insert_after_ok.
  - by apply insert_before_ok.
Qed.

Lemma ring_insertions_correct_witness :
  let after m l' := exists h' r', m demo_dll = Some (Some r', h') /\ ring_rep h' r' l' /\
                       lframe [3%positive; 1%positive; 2%positive] demo_dll h' in
  after (pth_ring_append (Some demo_ring) (Some 3%positive)) [1%positive; 2%positive; 3%positive] /\
  after (pth_ring_prepend (Some demo_ring) (Some 3%positive)) [3%positive; 1%positive; 2%positive] /\
  after (pth_ring_insert_after (Some demo_ring) (Some 1%positive) (Some 3%positive))
    [1%positive; 3%positive; 2%positive] /\
  after (pth_ring_insert_before (Some demo_ring) (Some 1%positive) (Some 3%positive))
    [1%positive; 2%positive; 3%positive].
Proof.
  apply (ring_insertions_correct demo_dll demo_ring [] 1 [2%positive] 3).
  - apply demo_ring_rep.
  - apply demo_ring_node.
  - by apply (bool_decide_unpack _).
  - simpl; lia.
Defined.

(** [pth_ring_delete] takes exactly the given node out of a ring and
    keeps the order of the others, [pth_ring_favorite] moves it to the hook,
    [pth_ring_pop] and [pth_ring_dequeue] take the first and the last node
    (NULL on an empty ring), and [pth_ring_contains] terminates and decides
    membership. *)
Lemma ring_removals_correct h r l1 t l2 s :
  ring_rep h r (l1 ++ t :: l2) ->
  let l := l1 ++ t :: l2 in
  (exists h' r', pth_ring_delete (Some r) (Some t) h = Some (Some r', h') /\
     ring_rep h' r' (l1 ++ l2) /\ lframe (l1 ++ l2) h h') /\
  (exists h' r', pth_ring_favorite (Some r) (Some t) h = Some ((true, Some r'), h') /\
     ring_rep h' r' (t :: l1 ++ l2) /\ lframe l h h') /\
  (exists h' r', pth_ring_pop (Some r) h = Some ((head l, Some r'), h') /\
     ring_rep h' r' (tail l) /\ lframe (tail l) h h') /\
  (exists h' r', pth_ring_dequeue (Some r) h = Some ((last l, Some r'), h') /\
     ring_rep h' r' (removelast l) /\ lframe l h h') /\
  pth_ring_contains (Some r) (Some s) h = Some (ok (bool_decide (s ∈ l)), h).
Proof.
  intros Hr l. split_and!; [by apply ring_delete_ok|by apply ring_favorite_ok|by apply pop_ok
                           |by apply dequeue_ok|by apply ring_contains_ok].
Qed.

Lemma ring_removals_correct_witness :
  let l := [1%positive; 2%positive] in
  (exists h' r', pth_ring_delete (Some demo_ring) (Some 2%positive) demo_dll = Some (Some r', h') /\
     ring_rep h' r' [1%positive] /\ lframe [1%positive] demo_dll h') /\
  (exists h' r', pth_ring_favorite (Some demo_ring) (Some 2%positive) demo_dll = Some ((true, Some r'), h') /\
     ring_rep h' r' [2%positive; 1%positive] /\ lframe l demo_dll h') /\
  (exists h' r', pth_ring_pop (Some demo_ring) demo_dll = Some ((head l, Some r'), h') /\
     ring_rep h' r' (tail l) /\ lframe (tail l) demo_dll h') /\
  (exists h' r', pth_ring_dequeue (Some demo_ring) demo_dll = Some ((last l, Some r'), h') /\
     ring_rep h' r' (removelast l) /\ lframe l demo_dll h') /\
  pth_ring_contains (Some demo_ring) (Some 1%positive) demo_dll = Some (ok (bool_decide (1%positive ∈ l)), demo_dll).
Proof.
  apply (ring_removals_correct demo_dll demo_ring [1%positive] 2 [] 1). apply demo_ring_rep.
Defined.
