(* ===== verification/Timeval.v ===== *)
(** * Time values (src/pth_time.c)

    A [pth_time_t] is a [struct timeval]: two [long]s. Comparison, sum,
    difference, product and quotient, with the conversions of the C types
    written out, and what they compute in microseconds. *)

From stdpp Require Import base numbers.
From Stdlib Require Import Floats.SpecFloat.
From S2P Require Import Prelude.
Open Scope Z_scope.

Record pth_time_t := Tv { tv_sec : Z; tv_usec : Z }.

#[export] Instance pth_time_eq_dec : EqDecision pth_time_t.
Proof. solve_decision. Defined.

Definition pth_time_zero : pth_time_t := Tv 0 0.

Definition pth_time_equal (t1 t2 : pth_time_t) : bool :=
  (tv_sec t1 =? tv_sec t2) && (tv_usec t1 =? tv_usec t2).

(** [PTH_TIME_NOW] is the NULL pointer; [now] is the clock. *)
Definition pth_time_set (now : pth_time_t) (t2 : option pth_time_t) : pth_time_t :=
  match t2 with None => now | Some t2 => t2 end.

Definition pth_time (sec usec : Z) : pth_time_t := Tv sec usec.

(** The difference of the seconds is a [long] that is converted to [int]. *)
Definition pth_time_cmp (t1 t2 : pth_time_t) : Z :=
  let rc := i32 (i64 (tv_sec t1 - tv_sec t2)) in
  if rc =? 0 then i32 (i64 (tv_usec t1 - tv_usec t2)) else rc.

Definition pth_time_add (t1 t2 : pth_time_t) : pth_time_t :=
  let s := i64 (tv_sec t1 + tv_sec t2) in
  let u := i64 (tv_usec t1 + tv_usec t2) in
  if u >? 1000000 then Tv (i64 (s + 1)) (i64 (u - 1000000)) else Tv s u.

Definition pth_time_sub (t1 t2 : pth_time_t) : pth_time_t :=
  let s := i64 (tv_sec t1 - tv_sec t2) in
  let u := i64 (tv_usec t1 - tv_usec t2) in
  if u <? 0 then Tv (i64 (s - 1)) (i64 (u + 1000000)) else Tv s u.

Definition pth_timeout (now : pth_time_t) (sec usec : Z) : pth_time_t :=
  let tv := pth_time_set now None in
  pth_time_add tv (Tv sec usec).

Definition pth_time_div (t1 : pth_time_t) (n : Z) : pth_time_t :=
  let q := i64 (Z.quot (tv_sec t1) n) in
  let r := i64 (Z.quot (i64 (Z.rem (tv_sec t1) n * 1000000)) n + Z.quot (tv_usec t1) n) in
  if r >? 1000000 then Tv (i64 (q + 1)) (i64 (r - 1000000)) else Tv q r.

Definition pth_time_mul (t1 : pth_time_t) (n : Z) : pth_time_t :=
  let s := i64 (tv_sec t1 * n) in
  let u := i64 (tv_usec t1 * n) in
  Tv (i64 (s + Z.quot u 1000000)) (Z.rem u 1000000).

Definition pth_time_t2i (t : pth_time_t) : Z :=
  i32 (Z.quot (i64 (i64 (tv_sec t * 1000000) + tv_usec t)) 1000000).

Definition pth_time_pos (t : pth_time_t) : bool := (tv_sec t >? 0) && (tv_usec t >? 0).

(** [double] is the IEEE format of 53 bits. *)
Definition to_double (n : Z) : spec_float := binary_normalize 53 1024 n 0 false.
Definition pth_time_t2d (t : pth_time_t) : spec_float :=
  SFdiv 53 1024 (SFadd 53 1024 (SFmul 53 1024 (to_double (tv_sec t)) (to_double 1000000)) (to_double (tv_usec t))) (to_double 1000000).

(** Sleeping: [usleep n], [select t], which gives its value, [errno] and the
    timeout that it leaves. The amount is an [unsigned long]. *)
Definition usleep_timeout (usec : Z) : pth_time_t :=
  let sec := usec / 1000000 in Tv sec (u64 (usec - u64 (1000000 * sec))).
Section usleep.
Context {W : Type} (HAVE_USLEEP : bool) (usleep : Z -> st W unit) (select : pth_time_t -> st W (Z * errno * pth_time_t)).
Fixpoint usleep_loop (fuel : nat) (t : pth_time_t) : st W unit :=
  r ← select t;
  if (r.1.1 <? 0) && bool_decide (r.1.2 = EINTR) then
    match fuel with O => undef | S fuel' => usleep_loop fuel' r.2 end
  else mret tt.
Definition pth_time_usleep (fuel : nat) (usec : Z) : st W unit :=
  if HAVE_USLEEP then usleep (u32 usec) else usleep_loop fuel (usleep_timeout usec).
End usleep.

(** The timeout is the amount, with less than a second of microseconds. *)
Lemma usleep_timeout_ok usec : 0 <= usec < 2 ^ 64 ->
  let t := usleep_timeout usec in tv_sec t * 1000000 + tv_usec t = usec /\ 0 <= tv_usec t < 1000000.
Proof.
  intros Hu. cbv zeta. unfold usleep_timeout. cbn [tv_sec tv_usec]. assert (H := Z.div_mod usec 1000000 ltac:(lia)).
  assert (Hm := Z.mod_pos_bound usec 1000000 ltac:(lia)). rewrite (u64_small (1000000 * (usec / 1000000))) by lia.
  rewrite u64_small by lia. lia.
Qed.
(** A second and a half is 1.5. *)
Example t2d_ex : pth_time_t2d (Tv 1 500000) = S754_finite false (3 * 2 ^ 51) (-52).
Proof. vm_compute. reflexivity. Qed.

(** ** What they compute *)

(** A time in microseconds. *)
Definition usecs (t : pth_time_t) : Z := tv_sec t * 1000000 + tv_usec t.
(** The canonical representation. *)
Definition normal (t : pth_time_t) : Prop := 0 <= tv_usec t < 1000000.
(** The range of seconds in which none of the operations overflows. *)
Definition sane (t : pth_time_t) : Prop := - 2 ^ 40 <= tv_sec t <= 2 ^ 40.


Lemma normal_inj t1 t2 : normal t1 -> normal t2 -> usecs t1 = usecs t2 -> t1 = t2.
Proof.
  unfold normal, usecs. destruct t1 as [s1 u1], t2 as [s2 u2]. simpl. intros.
  f_equal; lia.
Qed.

Lemma add_usecs t1 t2 : sane t1 -> sane t2 -> normal t1 -> normal t2 ->
  usecs (pth_time_add t1 t2) = usecs t1 + usecs t2 /\
  0 <= tv_usec (pth_time_add t1 t2) <= 1000000 /\
  (normal (pth_time_add t1 t2) <-> tv_usec t1 + tv_usec t2 <> 1000000).
Proof.
  unfold sane, normal, pth_time_add, usecs. intros. cbv zeta. fits.
  destruct (Z.gtb_spec (tv_usec t1 + tv_usec t2) 1000000); simpl; fits; lia.
Qed.

Lemma sub_usecs t1 t2 : sane t1 -> sane t2 -> normal t1 -> normal t2 ->
  usecs (pth_time_sub t1 t2) = usecs t1 - usecs t2 /\ normal (pth_time_sub t1 t2).
Proof.
  unfold sane, normal, pth_time_sub, usecs. intros. cbv zeta. fits.
  destruct (Z.ltb_spec (tv_usec t1 - tv_usec t2) 0); simpl; fits; lia.
Qed.

Lemma mul_usecs t n : sane t -> normal t -> 0 <= n < 2 ^ 20 ->
  usecs (pth_time_mul t n) = n * usecs t /\ normal (pth_time_mul t n).
Proof.
  unfold sane, normal, pth_time_mul, usecs. intros Hs Hn Hb. cbv zeta.
  assert (0 <= tv_usec t * n < 2 ^ 40) by nia.
  assert (- 2 ^ 60 <= tv_sec t * n <= 2 ^ 60) by nia.
  fits. rewrite Z.quot_div_nonneg, Z.rem_mod_nonneg by lia.
  pose proof (Z.div_mod (tv_usec t * n) 1000000). pose proof (Z.mod_pos_bound (tv_usec t * n) 1000000).
  assert (0 <= tv_usec t * n / 1000000 <= tv_usec t * n).
  { split; [apply Z.div_pos; lia|]. apply Z.div_le_upper_bound; lia. }
  simpl. fits. lia.
Qed.

Lemma div_usecs t n : 0 <= tv_sec t <= 2 ^ 40 -> normal t -> 0 < n < 2 ^ 20 ->
  usecs t - 2 * n < n * usecs (pth_time_div t n) <= usecs t /\
  0 <= tv_usec (pth_time_div t n) <= 1000000.
Proof.
  unfold normal, pth_time_div, usecs. intros Hs Hn Hb. cbv zeta.
  rewrite (Z.quot_div_nonneg (tv_sec t)), (Z.quot_div_nonneg (tv_usec t)), Z.rem_mod_nonneg by lia.
  pose proof (Z.div_mod (tv_sec t) n ltac:(lia)) as D1.
  pose proof (Z.mod_pos_bound (tv_sec t) n ltac:(lia)) as B1.
  set (q := tv_sec t / n) in *. set (m := tv_sec t mod n) in *.
  assert (0 <= q <= 2 ^ 40) by nia. assert (0 <= m * 1000000 < n * 1000000) by lia.
  rewrite (i64_small (m * 1000000)) by (unfold in_i64; lia).
  rewrite Z.quot_div_nonneg by lia.
  pose proof (Z.div_mod (m * 1000000) n ltac:(lia)) as D2.
  pose proof (Z.mod_pos_bound (m * 1000000) n ltac:(lia)) as B2.
  pose proof (Z.div_mod (tv_usec t) n ltac:(lia)) as D3.
  pose proof (Z.mod_pos_bound (tv_usec t) n ltac:(lia)) as B3.
  set (a := m * 1000000 / n) in *. set (b := tv_usec t / n) in *.
  assert (0 <= a < 1000000) by nia. assert (0 <= b < 1000000) by nia.
  fits. destruct (Z.gtb_spec (a + b) 1000000); simpl; fits; nia.
Qed.

(** ** Properties *)

(** On canonical times whose seconds stay within 2^40, the sum and the
    difference are exact in microseconds, the product by a factor below 2^20
    is exact and canonical, the difference is canonical, and the quotient is
    less than two microseconds below the exact one. The sum is canonical
    except when the microseconds add up to exactly one second. *)
Lemma time_arith_correct t1 t2 n :
  0 <= tv_sec t1 <= 2 ^ 40 -> sane t2 -> normal t1 -> normal t2 -> 0 < n < 2 ^ 20 ->
  usecs (pth_time_add t1 t2) = usecs t1 + usecs t2 /\
  (normal (pth_time_add t1 t2) <-> tv_usec t1 + tv_usec t2 <> 1000000) /\
  usecs (pth_time_sub t1 t2) = usecs t1 - usecs t2 /\ normal (pth_time_sub t1 t2) /\
  usecs (pth_time_mul t1 n) = n * usecs t1 /\ normal (pth_time_mul t1 n) /\
  usecs t1 - 2 * n < n * usecs (pth_time_div t1 n) <= usecs t1.
Proof.
  intros H1 H2 Hn1 Hn2 Hn. assert (sane t1) as Hs by (unfold sane; lia).
  destruct (add_usecs t1 t2) as (? & ? & ?); [done..|].
  destruct (sub_usecs t1 t2); [done..|]. destruct (mul_usecs t1 n) as [? ?]; [done|done|lia|].
  destruct (div_usecs t1 n) as [? ?]; [done..|]. tauto.
Qed.

Lemma time_arith_correct_witness :
  usecs (pth_time_add (Tv 7 600000) (Tv 2 400000)) = usecs (Tv 7 600000) + usecs (Tv 2 400000) /\
  (normal (pth_time_add (Tv 7 600000) (Tv 2 400000)) <-> 600000 + 400000 <> 1000000) /\
  usecs (pth_time_sub (Tv 7 600000) (Tv 2 400000)) = usecs (Tv 7 600000) - usecs (Tv 2 400000) /\
  normal (pth_time_sub (Tv 7 600000) (Tv 2 400000)) /\
  usecs (pth_time_mul (Tv 7 600000) 3) = 3 * usecs (Tv 7 600000) /\
  normal (pth_time_mul (Tv 7 600000) 3) /\
  usecs (Tv 7 600000) - 2 * 3 < 3 * usecs (pth_time_div (Tv 7 600000) 3) <= usecs (Tv 7 600000).
Proof.
  apply (time_arith_correct (Tv 7 600000) (Tv 2 400000) 3); unfold sane, normal; simpl; lia.
Defined.

(** For canonical times less than 2^31 seconds apart the sign of
    [pth_time_cmp] is the order of the times. *)
Lemma time_cmp_correct t1 t2 :
  normal t1 -> normal t2 -> - 2 ^ 31 <= tv_sec t1 - tv_sec t2 < 2 ^ 31 ->
  Z.sgn (pth_time_cmp t1 t2) = Z.sgn (usecs t1 - usecs t2) /\
  (pth_time_cmp t1 t2 = 0 <-> t1 = t2).
Proof.
  intros H1 H2 Hd. assert (Hu := normal_inj t1 t2 H1 H2).
  assert (Hs : Z.sgn (pth_time_cmp t1 t2) = Z.sgn (usecs t1 - usecs t2)).
  { unfold normal, usecs, pth_time_cmp in *. cbv zeta. fits.
    destruct (Z.eqb_spec (tv_sec t1 - tv_sec t2) 0); lia. }
  split; [done|]. split; [|intros ->; lia]. intros E. apply Hu. rewrite E in Hs. lia.
Qed.

Lemma time_cmp_correct_witness :
  Z.sgn (pth_time_cmp (Tv 5 999999) (Tv 6 0)) = Z.sgn (usecs (Tv 5 999999) - usecs (Tv 6 0)) /\
  (pth_time_cmp (Tv 5 999999) (Tv 6 0) = 0 <-> Tv 5 999999 = Tv 6 0).
Proof. apply time_cmp_correct; unfold normal; simpl; lia. Defined.

(** Two deadlines 2^32 seconds apart compare as equal, and a sum of exactly
    one second of microseconds compares as less than the second it equals. *)
Lemma time_cmp_truncates : pth_time_cmp (Tv (2 ^ 32) 0) (Tv 0 0) = 0.
Proof. reflexivity. Qed.

Lemma time_add_not_normal :
  pth_time_add (Tv 0 500000) (Tv 0 500000) = Tv 0 1000000 /\
  pth_time_cmp (pth_time_add (Tv 0 500000) (Tv 0 500000)) (Tv 1 0) < 0.
Proof. split; reflexivity. Qed.

(** A time of five full seconds is not positive for [pth_time_pos]. *)
Lemma time_pos_full_seconds : pth_time_pos (Tv 5 0) = false.
Proof. reflexivity. Qed.
