(* ===== verification/Data.v ===== *)
(** * Thread-specific data (src/pth_data.c)

    The table of keys is shared by the process; each thread has a vector of
    values and the count of those that are not NULL. A key's destructor is
    user code: a function of the whole state that the model takes as a
    parameter. The critical sections of [pth_keytab_lock] are single steps. *)

From stdpp Require Import base numbers gmap list.
From S2P Require Import Prelude.
Open Scope Z_scope.

Definition PTH_KEY_MAX : nat := 256%nat.
Definition PTH_DESTRUCTOR_ITERATIONS : nat := 4%nat.

(** [struct pth_keytab_st] *)
Record keyent := Keyent { used : bool; destructor : ptr }.

(** The fields [data_value] (NULL or the vector) and [data_count] of a
    thread. *)
Record kthread := Kthread { data_value : option (list ptr); data_count : Z }.

(** [k_user] is the state the destructors work on. *)
Record kstate (U : Type) := Kstate {
  keytab : list keyent;
  k_threads : gmap addr kthread;
  k_current : addr;
  k_user : U
}.
Arguments Kstate {U}. Arguments keytab {U}. Arguments k_threads {U}.
Arguments k_current {U}. Arguments k_user {U}.

Section keys.
Context {U : Type}.
Implicit Types s : kstate U.

Definition set_keytab (tab : list keyent) : st (kstate U) unit :=
  fun s => Some (tt, Kstate tab (k_threads s) (k_current s) (k_user s)).

(** [t->data_value], [t->data_count] *)
Definition rd_thread (t : addr) : st (kstate U) kthread :=
  fun s => match k_threads s !! t with Some k => Some (k, s) | None => None end.
Definition wr_thread (t : addr) (k : kthread) : st (kstate U) unit :=
  fun s => match k_threads s !! t with
           | Some _ => Some (tt, Kstate (keytab s) (<[t := k]> (k_threads s)) (k_current s) (k_user s))
           | None => None end.

(** The search loop of [pth_key_create]: the value of [*key] when it ends. *)
Fixpoint pth_key_search (tab : list keyent) (key : nat) : nat :=
  match tab with
  | [] => key
  | e :: tab' => if used e then pth_key_search tab' (S key) else key
  end.

(** The key that is stored in [*key], the result and [errno]. *)
Definition pth_key_create (key : bool) (func : ptr)
  : st (kstate U) (option nat * (bool * option errno)) :=
  if negb key then mret (None, pth_error false EINVAL)
  else
    s ← get_st;
    let k := pth_key_search (keytab s) 0 in
    if (k <? PTH_KEY_MAX)%nat then
      set_keytab (<[k := Keyent true func]> (keytab s));; mret (Some k, ok true)
    else mret (Some k, pth_error false EAGAIN).

Definition pth_key_valid (key : Z) : bool := negb ((key <? 0) || (key >=? Z.of_nat PTH_KEY_MAX)).

Definition pth_key_delete (key : Z) : st (kstate U) (bool * option errno) :=
  if negb (pth_key_valid key) then mret (pth_error false EINVAL)
  else
    s ← get_st;
    match keytab s !! Z.to_nat key with
    | None => undef
    | Some e =>
        if negb (used e) then mret (pth_error false ENOENT)
        else set_keytab (<[Z.to_nat key := Keyent false (destructor e)]> (keytab s));;
             mret (ok true)
    end.

(** The vector of the running thread, allocated on first use; [calloc_ok]
    says whether the allocation succeeds. *)
Definition key_vector (calloc_ok : bool) (k : kthread) : option (list ptr) :=
  match data_value k with
  | Some v => Some v
  | None => if calloc_ok then Some (replicate PTH_KEY_MAX NULL) else None
  end.

Definition pth_key_setdata (calloc_ok : bool) (key : Z) (value : ptr)
  : st (kstate U) (bool * option errno) :=
  if negb (pth_key_valid key) then mret (pth_error false EINVAL)
  else
    s ← get_st;
    match keytab s !! Z.to_nat key with
    | None => undef
    | Some e =>
        if negb (used e) then mret (pth_error false ENOENT)
        else
          k ← rd_thread (k_current s);
          match key_vector calloc_ok k with
          | None => mret (pth_error false ENOMEM)
          | Some v =>
              match v !! Z.to_nat key with
              | None => undef
              | Some old =>
                  let count := if bool_decide (old = NULL)
                               then (if bool_decide (value <> NULL) then data_count k + 1 else data_count k)
                               else (if bool_decide (value = NULL) then data_count k - 1 else data_count k) in
                  wr_thread (k_current s) (Kthread (Some (<[Z.to_nat key := value]> v)) count);;
                  mret (ok true)
              end
          end
    end.

Definition pth_key_getdata (key : Z) : st (kstate U) (ptr * option errno) :=
  if negb (pth_key_valid key) then mret (pth_error NULL EINVAL)
  else
    s ← get_st;
    match keytab s !! Z.to_nat key with
    | None => undef
    | Some e =>
        if negb (used e) then mret (pth_error NULL ENOENT)
        else
          k ← rd_thread (k_current s);
          match data_value k with
          | None => mret (ok NULL)
          | Some v => match v !! Z.to_nat key with None => undef | Some x => mret (ok x) end
          end
    end.

(** The user's destructors. *)
Variable call : addr -> ptr -> kstate U -> kstate U.

(** The body of the loop over the keys, for one key with [data_count > 0]. *)
Definition destroy_one (t : addr) (key : nat) : st (kstate U) unit :=
  s ← get_st;
  match keytab s !! key with
  | None => undef
  | Some e =>
      if negb (used e) then mret tt
      else
        k ← rd_thread t;
        match data_value k with
        | None => undef
        | Some v =>
            match v !! key with
            | None => undef
            | Some None => mret tt
            | Some (Some data) =>
                wr_thread t (Kthread (Some (<[key := NULL]> v)) (data_count k - 1));;
                match destructor e with
                | None => mret tt
                | Some f => s ← get_st; put_st (call f (Some data) s)
                end
            end
        end
  end.

(** The loop over the keys, left when no value is stored any more. *)
Fixpoint destroy_keys (t : addr) (keys : list nat) : st (kstate U) unit :=
  match keys with
  | [] => mret tt
  | key :: keys' =>
      k ← rd_thread t;
      (if data_count k >? 0 then destroy_one t key else mret tt);;
      k ← rd_thread t;
      if data_count k =? 0 then mret tt else destroy_keys t keys'
  end.

Fixpoint destroy_iter (itr : nat) (t : addr) : st (kstate U) unit :=
  match itr with
  | O => mret tt
  | S itr' =>
      destroy_keys t (seq 0 PTH_KEY_MAX);;
      k ← rd_thread t;
      if data_count k =? 0 then mret tt else destroy_iter itr' t
  end.

Definition pth_key_destroydata (t : ptr) : st (kstate U) unit :=
  match t with
  | None => mret tt
  | Some t =>
      k ← rd_thread t;
      match data_value k with
      | None => mret tt
      | Some _ =>
          destroy_iter PTH_DESTRUCTOR_ITERATIONS t;;
          k ← rd_thread t;
          wr_thread t (Kthread None (data_count k))
      end
  end.
End keys.

(** ** The invariant *)

(** The number of values that are not NULL. *)
Definition stored (v : list ptr) : nat := length (filter (fun x => x <> NULL) v).

(** [data_count] counts the stored values; the vector has a slot per key. *)
Definition kthread_ok (k : kthread) : Prop :=
  match data_value k with
  | None => True
  | Some v => length v = PTH_KEY_MAX /\ data_count k = Z.of_nat (stored v)
  end.

(** ... and a thread without a vector has stored nothing. *)
Definition kthread_fresh (k : kthread) : Prop := data_value k = None -> data_count k = 0.

Record kinv {U : Type} (s : kstate U) : Prop := {
  ki_tab : length (keytab s) = PTH_KEY_MAX;
  ki_cur : is_Some (k_threads s !! k_current s);
  ki_ok : forall t k, k_threads s !! t = Some k -> kthread_ok k;
  ki_fresh : forall k, k_threads s !! k_current s = Some k -> kthread_fresh k
}.

(** The value of a key in a thread. *)
Definition kvalue {U : Type} (s : kstate U) (t : addr) (key : nat) : ptr :=
  match k_threads s !! t with
  | Some k => match data_value k with Some v => default NULL (v !! key) | None => NULL end
  | None => NULL
  end.

Lemma stored_insert v i old new : v !! i = Some old ->
  Z.of_nat (stored (<[i := new]> v)) =
  Z.of_nat (stored v) + (if bool_decide (new <> NULL) then 1 else 0)
                      - (if bool_decide (old <> NULL) then 1 else 0).
Proof.
  intros Hv. rewrite insert_take_drop by (by eapply lookup_lt_Some).
  rewrite <- (take_drop_middle v i old Hv) at 3. unfold stored.
  rewrite !filter_app, !filter_cons, !length_app.
  repeat case_bool_decide; repeat case_decide; simpl; try tauto; lia.
Qed.

Lemma stored_replicate n : stored (replicate n NULL) = 0%nat.
Proof. induction n; [done|]. unfold stored. simpl. done. Qed.

Lemma key_valid_true key : pth_key_valid key = true <-> 0 <= key < Z.of_nat PTH_KEY_MAX.
Proof. unfold pth_key_valid. destruct (Z.ltb_spec key 0), (Z.geb_spec key (Z.of_nat PTH_KEY_MAX)); simpl; split; try done; lia. Qed.

(** The search finds the first unused key, or the end of the table. *)
Lemma search_spec tab k :
  exists n, pth_key_search tab k = (k + n)%nat /\ (n <= length tab)%nat /\
    (forall i e, (i < n)%nat -> tab !! i = Some e -> used e = true) /\
    (forall e, tab !! n = Some e -> used e = false).
Proof.
  revert k. induction tab as [|e tab IH]; intros k; simpl.
  - exists 0%nat. split_and!; [lia|lia|intros; lia|done].
  - destruct (used e) eqn:Eu.
    + destruct (IH (S k)) as (n & E & Hn & H1 & H2). exists (S n).
      split_and!; [lia|lia| |done]. intros [|i] e' Hi He; simpl in He; [congruence|].
      apply (H1 i); [lia|done].
    + exists 0%nat. split_and!; [lia|lia|intros; lia|by intros ? [= <-]].
Qed.

Section properties.
Context {U : Type}.
Implicit Types s : kstate U.

Definition set_tab s tab : kstate U := Kstate tab (k_threads s) (k_current s) (k_user s).
Definition set_thread s t k : kstate U :=
  Kstate (keytab s) (<[t := k]> (k_threads s)) (k_current s) (k_user s).

Lemma rd_thread_eq s t k : k_threads s !! t = Some k -> rd_thread t s = Some (k, s).
Proof. intros H. unfold rd_thread. by rewrite H. Qed.
Lemma wr_thread_eq s t k k' : k_threads s !! t = Some k' ->
  wr_thread t k s = Some (tt, set_thread s t k).
Proof. intros H. unfold wr_thread. by rewrite H. Qed.
Lemma get_st_eq s : get_st s = Some (s, s).
Proof. done. Qed.
Lemma set_keytab_eq s tab : set_keytab tab s = Some (tt, set_tab s tab).
Proof. done. Qed.

(** Execute the first statement of a sequence. *)
Local Ltac kstep :=
  first [ rewrite (st_bind_Some _ _ _ _ _ (st_ret_eq _ _))
        | rewrite (st_bind_Some _ _ _ _ _ (get_st_eq _))
        | rewrite (st_bind_Some _ _ _ _ _ (set_keytab_eq _ _))
        | erewrite st_bind_Some;
          [ | first [ eapply rd_thread_eq; eassumption | eapply wr_thread_eq; eassumption ] ] ].

Lemma kinv_set_tab s tab : kinv s -> length tab = PTH_KEY_MAX -> kinv (set_tab s tab).
Proof. intros [] H. by constructor. Qed.

Lemma kinv_set_thread s t k : kinv s -> kthread_ok k ->
  (t = k_current s -> kthread_fresh k) -> kinv (set_thread s t k).
Proof.
  intros [H1 [k0 H2] H3 H4] Hk Hf. constructor; simpl; [done| | |].
  - destruct (decide (t = k_current s)) as [->|Hne].
    + rewrite lookup_insert_eq. by eexists.
    + rewrite lookup_insert_ne by done. by eexists.
  - intros t' k' [[-> <-]|[Hne Hl]]%lookup_insert_Some; [done|by eapply H3].
  - intros k' [[-> <-]|[Hne Hl]]%lookup_insert_Some; [by apply Hf|by apply H4].
Qed.


Lemma kvalue_set_thread s t v c t' key :
  kvalue (set_thread s t (Kthread (Some v) c)) t' key =
  if bool_decide (t = t') then default NULL (v !! key) else kvalue s t' key.
Proof.
  unfold kvalue. simpl. case_bool_decide; subst.
  - by rewrite lookup_insert_eq.
  - by rewrite lookup_insert_ne.
Qed.

(** The vector [pth_key_setdata] works on. *)
Definition kvector (k : kthread) : list ptr := default (replicate PTH_KEY_MAX NULL) (data_value k).

Lemma kvector_ok k : kthread_ok k -> kthread_fresh k ->
  length (kvector k) = PTH_KEY_MAX /\ data_count k = Z.of_nat (stored (kvector k)).
Proof.
  unfold kthread_ok, kthread_fresh, kvector. destruct (data_value k) as [v|]; cbn [from_option].
  - done.
  - intros _ Hf. rewrite length_replicate, stored_replicate. by rewrite Hf.
Qed.

Lemma key_vector_eq calloc_ok k :
  key_vector calloc_ok k =
  if bool_decide (data_value k = None) && negb calloc_ok then None else Some (kvector k).
Proof. unfold key_vector, kvector. destruct (data_value k); [done|]. by destruct calloc_ok. Qed.

Lemma kvalue_vector s t k key : k_threads s !! t = Some k -> (key < PTH_KEY_MAX)%nat ->
  kvalue s t key = default NULL (kvector k !! key).
Proof.
  intros Hk Hkey. unfold kvalue, kvector. rewrite Hk.
  destruct (data_value k); [done|]. cbn [from_option]. by rewrite lookup_replicate_2.
Qed.

(** Storing a value under a used key of the running thread (the vector
    being allocated on the first call) makes [pth_key_getdata] return it,
    leaves every other key and every other thread as they were and keeps the
    count of stored values exact; an unused key gives [ENOENT] and a failed
    allocation [ENOMEM], without a change. *)
Lemma key_setdata_getdata_correct s calloc_ok key value e k :
  kinv s -> 0 <= key < 256 -> keytab s !! Z.to_nat key = Some e ->
  k_threads s !! k_current s = Some k ->
  exists r s', pth_key_setdata calloc_ok key value s = Some (r, s') /\ kinv s' /\
    keytab s' = keytab s /\ k_current s' = k_current s /\
    (if used e then
       if bool_decide (data_value k = None) && negb calloc_ok
       then r = pth_error false ENOMEM /\ s' = s
       else r = ok true /\ pth_key_getdata key s' = Some (ok value, s') /\
            (forall t i, (i < 256)%nat -> t <> k_current s \/ i <> Z.to_nat key ->
                         kvalue s' t i = kvalue s t i)
     else r = pth_error false ENOENT /\ s' = s /\
          pth_key_getdata key s' = Some (pth_error NULL ENOENT, s')).
Proof.
  intros Hi Hk He Hcur.
  destruct (kvector_ok k (ki_ok _ Hi _ _ Hcur) (ki_fresh _ Hi _ Hcur)) as [Hlen Hcnt].
  assert (Hv : pth_key_valid key = true) by (by apply key_valid_true).
  assert (Hkey : (Z.to_nat key < PTH_KEY_MAX)%nat) by (change PTH_KEY_MAX with 256%nat; lia).
  assert (is_Some (kvector k !! Z.to_nat key)) as [old Hold]
    by (apply lookup_lt_is_Some; by rewrite Hlen).
  unfold pth_key_setdata, pth_key_getdata. rewrite Hv. cbn [negb]. kstep. rewrite He.
  destruct (used e) eqn:Eu; cbn [negb].
  2:{ eexists _, _. split; [reflexivity|]. split_and!; try done. kstep. by rewrite He, Eu. }
  kstep. rewrite key_vector_eq.
  destruct (bool_decide (data_value k = None) && negb calloc_ok).
  { eexists _, _. split; [reflexivity|]. by split_and!. }
  rewrite Hold. kstep. eexists _, _. split; [reflexivity|]. split_and!; [|done..| |].
  - apply kinv_set_thread; [done| |done]. split; [by rewrite length_insert|].
    simpl. rewrite (stored_insert _ _ _ _ Hold), Hcnt. repeat case_bool_decide; try done; lia.
  - kstep. simpl. rewrite He, Eu. cbn [negb].
    erewrite st_bind_Some by (apply rd_thread_eq; simpl; apply lookup_insert_eq). simpl.
    by rewrite list_lookup_insert_eq by (by rewrite Hlen).
  - intros t i Hti Hne. rewrite kvalue_set_thread. case_bool_decide as Ht; [|done].
    subst t. destruct Hne as [Hne|Hne]; [done|]. rewrite list_lookup_insert_ne by done.
    by rewrite (kvalue_vector _ _ _ _ Hcur).
Qed.
End properties.

(** ** Destruction *)

Section destroy.
(** Destructors that record their calls. *)
Definition klog : Type := list (addr * ptr).
Definition log_call (f : addr) (v : ptr) (s : kstate klog) : kstate klog :=
  Kstate (keytab s) (k_threads s) (k_current s) (k_user s ++ [(f, v)]).

(** The destructor call a key is good for, and the value that remains. *)
Definition key_entry (tab : list keyent) (v : list ptr) (key : nat) : option (addr * ptr) :=
  match tab !! key, v !! key with
  | Some e, Some (Some d) => if used e then (fun f => (f, Some d)) <$> destructor e else None
  | _, _ => None
  end.
Definition key_clear (tab : list keyent) (v : list ptr) (key : nat) : list ptr :=
  match tab !! key with
  | Some e => if used e then <[key := NULL]> v else v
  | None => v
  end.

Implicit Types s : kstate klog.

(** [s] with a new vector for [t] and more calls in the log. *)
Definition after_calls s (t : addr) (v : list ptr) (calls : klog) : kstate klog :=
  Kstate (keytab s) (<[t := Kthread (Some v) (Z.of_nat (stored v))]> (k_threads s))
         (k_current s) (k_user s ++ calls).

Definition has_vector s (t : addr) (v : list ptr) : Prop :=
  k_threads s !! t = Some (Kthread (Some v) (Z.of_nat (stored v))).

Lemma after_calls_id s t v : has_vector s t v -> after_calls s t v [] = s.
Proof.
  intros H. unfold after_calls. rewrite insert_id by done. rewrite app_nil_r. by destruct s.
Qed.

Lemma after_calls_trans s t v1 c1 v2 c2 :
  after_calls (after_calls s t v1 c1) t v2 c2 = after_calls s t v2 (c1 ++ c2).
Proof. unfold after_calls. simpl. by rewrite insert_insert_eq, app_assoc. Qed.

Lemma has_vector_after s t v c : has_vector (after_calls s t v c) t v.
Proof. unfold has_vector. simpl. by rewrite lookup_insert_eq. Qed.

Lemma list_insert_null (v : list ptr) key : v !! key = Some NULL -> <[key := NULL]> v = v.
Proof. apply list_insert_id. Qed.

Lemma destroy_one_ok s t v key :
  length (keytab s) = PTH_KEY_MAX -> length v = PTH_KEY_MAX -> (key < PTH_KEY_MAX)%nat ->
  has_vector s t v ->
  destroy_one log_call t key s =
  Some (tt, after_calls s t (key_clear (keytab s) v key)
              (option_list (key_entry (keytab s) v key))).
Proof.
  intros Ht Hv Hk Hs. unfold destroy_one, key_clear, key_entry.
  assert (is_Some (keytab s !! key)) as [e He] by (apply lookup_lt_is_Some; by rewrite Ht).
  assert (is_Some (v !! key)) as [x Hx] by (apply lookup_lt_is_Some; by rewrite Hv).
  rewrite (st_bind_Some _ _ _ _ _ (get_st_eq _)). rewrite He, Hx.
  destruct (used e); cbn [negb].
  2:{ assert (E : (match x with Some _ | _ => @None (addr * ptr) end) = None) by (by destruct x).
      rewrite E. simpl option_list. by rewrite after_calls_id. }
  rewrite (st_bind_Some _ _ _ _ _ (rd_thread_eq _ _ _ Hs)). cbn [data_value]. rewrite Hx.
  destruct x as [d|]; [|simpl option_list; by rewrite list_insert_null, after_calls_id].
  rewrite (st_bind_Some _ _ _ _ _ (wr_thread_eq _ _ _ _ Hs)). cbn [data_count].
  assert (Hc : Z.of_nat (stored v) - 1 = Z.of_nat (stored (<[key := NULL]> v)))
    by (rewrite (stored_insert _ _ _ _ Hx); simpl; lia).
  destruct (destructor e) as [f|]; simpl; rewrite Hc; [done|].
  unfold after_calls, set_thread. simpl. rewrite app_nil_r. done.
Qed.

Lemma key_clear_length tab v key : length (key_clear tab v key) = length v.
Proof.
  unfold key_clear. destruct (tab !! key) as [e|]; [|done].
  destruct (used e); [by rewrite length_insert|done].
Qed.

Lemma key_clear_lookup tab v key i :
  key_clear tab v key !! i = v !! i \/ key_clear tab v key !! i = Some NULL.
Proof.
  unfold key_clear. destruct (tab !! key) as [e|]; [|by left]. destruct (used e); [|by left].
  destruct (decide (i = key)) as [->|]; [|left; by rewrite list_lookup_insert_ne].
  destruct (decide (key < length v)%nat).
  - right. by rewrite list_lookup_insert_eq.
  - left. by rewrite list_insert_ge by lia.
Qed.

(** A vector without values has no entries and nothing to clear. *)
Lemma stored_0 v i x : stored v = 0%nat -> v !! i = Some x -> x = NULL.
Proof.
  intros Hs Hx. destruct (decide (x = NULL)) as [|Hne]; [done|].
  pose proof (stored_insert v i x NULL Hx) as E. rewrite Hs in E.
  rewrite (bool_decide_eq_true_2 (x <> NULL)) in E by done. simpl in E. lia.
Qed.

Lemma omap_list_cons {A B : Type} (f : A -> option B) x (l : list A) :
  omap f (x :: l) = option_list (f x) ++ omap f l.
Proof. simpl. by destruct (f x). Qed.

Lemma cleared_entries tab v keys : stored v = 0%nat ->
  omap (key_entry tab v) keys = [] /\ foldl (key_clear tab) v keys = v.
Proof.
  intros Hs. induction keys as [|key keys [IH1 IH2]]; [done|].
  rewrite omap_list_cons. cbn [foldl].
  assert (E1 : key_entry tab v key = None).
  { unfold key_entry. destruct (tab !! key); [|done]. destruct (v !! key) as [x|] eqn:Ex; [|done].
    by rewrite (stored_0 _ _ _ Hs Ex). }
  assert (E2 : key_clear tab v key = v).
  { unfold key_clear. destruct (tab !! key) as [e|]; [|done]. destruct (used e); [|done].
    destruct (v !! key) as [x|] eqn:Ex.
    - apply list_insert_null. by rewrite Ex, (stored_0 _ _ _ Hs Ex).
    - apply list_insert_ge. by apply lookup_ge_None. }
  by rewrite E1, E2.
Qed.

Lemma key_entry_clear tab v key (keys : list nat) : key ∉ keys ->
  omap (key_entry tab (key_clear tab v key)) keys = omap (key_entry tab v) keys.
Proof.
  induction keys as [|i keys IH]; [done|]. intros [Hne Hni]%not_elem_of_cons.
  rewrite !omap_list_cons.
  assert (E : key_entry tab (key_clear tab v key) i = key_entry tab v i).
  { unfold key_entry, key_clear. destruct (tab !! key) as [e|]; [|done].
    destruct (used e); [|done]. by rewrite list_lookup_insert_ne. }
  by rewrite E, IH.
Qed.

Lemma destroy_keys_ok s t v keys :
  length (keytab s) = PTH_KEY_MAX -> length v = PTH_KEY_MAX -> NoDup keys ->
  Forall (fun key => (key < PTH_KEY_MAX)%nat) keys -> has_vector s t v ->
  destroy_keys log_call t keys s =
  Some (tt, after_calls s t (foldl (key_clear (keytab s)) v keys) (omap (key_entry (keytab s) v) keys)).
Proof.
  intros Ht Hv Hnd Hk. revert s v Ht Hv. induction keys as [|key keys IH]; intros s v Ht Hv Hs.
  { simpl. by rewrite after_calls_id. }
  apply NoDup_cons in Hnd as [Hni Hnd]. apply Forall_cons in Hk as [Hkey Hk].
  cbn [destroy_keys]. rewrite (st_bind_Some _ _ _ _ _ (rd_thread_eq _ _ _ Hs)). cbn [data_count].
  destruct (Z.gtb_spec (Z.of_nat (stored v)) 0) as [Hgt|Hle].
  - rewrite (st_bind_Some _ _ _ _ _ (destroy_one_ok _ _ _ _ Ht Hv Hkey Hs)).
    set (v1 := key_clear (keytab s) v key). set (c1 := option_list _).
    assert (Hs1 := has_vector_after s t v1 c1).
    rewrite (st_bind_Some _ _ _ _ _ (rd_thread_eq _ _ _ Hs1)). cbn [data_count].
    rewrite omap_list_cons. cbn [foldl]. fold v1 c1.
    rewrite <- (key_entry_clear (keytab s) v key keys Hni). fold v1.
    destruct (Z.eqb_spec (Z.of_nat (stored v1)) 0) as [H0|H0].
    + destruct (cleared_entries (keytab s) v1 keys) as [-> ->]; [lia|]. by rewrite app_nil_r.
    + rewrite (IH Hnd Hk (after_calls s t v1 c1) v1); [|done|by unfold v1; rewrite key_clear_length|done].
      by rewrite after_calls_trans.
  - rewrite (st_bind_Some _ _ _ _ _ (st_ret_eq _ _)).
    rewrite (st_bind_Some _ _ _ _ _ (rd_thread_eq _ _ _ Hs)). cbn [data_count].
    replace (Z.of_nat (stored v) =? 0) with true by lia.
    destruct (cleared_entries (keytab s) v (key :: keys)) as [-> ->]; [lia|].
    by rewrite after_calls_id.
Qed.

(** After one pass no used key has a value, so the further passes of the
    iteration scheme call nothing. *)
Lemma pass_entries tab v (keys : list nat) key : key ∈ keys ->
  key_entry tab (foldl (key_clear tab) v keys) key = None.
Proof.
  intros Hin. unfold key_entry. destruct (tab !! key) as [e|] eqn:He; [|done].
  destruct (used e) eqn:Hu; [|by destruct (foldl (key_clear tab) v keys !! key) as [[]|]].
  assert (H : forall d, foldl (key_clear tab) v keys !! key = Some (Some d) -> False);
    [|destruct (foldl (key_clear tab) v keys !! key) as [[d|]|]; [exfalso; by eapply H|done|done]].
  revert v. induction keys as [|i keys IH] using rev_ind; intros v d.
  { by apply not_elem_of_nil in Hin. }
  rewrite foldl_snoc. intros Hd. apply elem_of_app in Hin as [Hin|Hin%list_elem_of_singleton].
  - destruct (key_clear_lookup tab (foldl (key_clear tab) v keys) i key) as [E|E];
      rewrite E in Hd; [|done]. by eapply IH.
  - subst i. unfold key_clear in Hd at 1. rewrite He, Hu in Hd.
    destruct (decide (key < length (foldl (key_clear tab) v keys))%nat).
    + by rewrite list_lookup_insert_eq in Hd.
    + apply lookup_lt_Some in Hd. rewrite length_insert in Hd. lia.
Qed.

Lemma foldl_clear_length tab v (keys : list nat) :
  length (foldl (key_clear tab) v keys) = length v.
Proof. revert v. induction keys as [|k keys IH]; intros v; [done|]. simpl. by rewrite IH, key_clear_length. Qed.

Lemma omap_nil (f : nat -> option (addr * ptr)) keys :
  (forall k, k ∈ keys -> f k = None) -> omap f keys = [].
Proof.
  induction keys as [|k keys IH]; intros H; [done|].
  rewrite omap_list_cons, (H k) by (by left). apply IH. intros k' Hk. apply H. by right.
Qed.

Lemma all_keys : NoDup (seq 0 PTH_KEY_MAX) /\ Forall (fun key => (key < PTH_KEY_MAX)%nat) (seq 0 PTH_KEY_MAX).
Proof. split; [apply NoDup_seq|]. apply Forall_seq. lia. Qed.

Local Opaque PTH_KEY_MAX.

Lemma destroy_iter_ok s t v n :
  length (keytab s) = PTH_KEY_MAX -> length v = PTH_KEY_MAX -> has_vector s t v ->
  exists v', length v' = PTH_KEY_MAX /\ destroy_iter log_call (S n) t s =
    Some (tt, after_calls s t v' (omap (key_entry (keytab s) v) (seq 0 PTH_KEY_MAX))).
Proof.
  intros Ht Hv Hs. destruct all_keys as [Hnd Hlt].
  revert s v Ht Hv Hs. induction n as [|n IH]; intros s v Ht Hv Hs; cbn [destroy_iter];
    rewrite (st_bind_Some _ _ _ _ _ (destroy_keys_ok _ _ _ _ Ht Hv Hnd Hlt Hs));
    set (v1 := foldl _ _ _); assert (Hv1 : length v1 = PTH_KEY_MAX)
      by (unfold v1; by rewrite foldl_clear_length);
    set (c1 := omap _ _); assert (Hs1 := has_vector_after s t v1 c1);
    rewrite (st_bind_Some _ _ _ _ _ (rd_thread_eq _ _ _ Hs1)); cbn [data_count].
  - exists v1. split; [done|]. by destruct (_ =? 0).
  - destruct (Z.of_nat (stored v1) =? 0); [by exists v1|].
    destruct (IH (after_calls s t v1 c1) v1) as (v' & Hv' & E); [done..|].
    exists v'. split; [done|]. cbn [destroy_iter] in E. rewrite E, after_calls_trans.
    assert (Hn : omap (key_entry (keytab (after_calls s t v1 c1)) v1) (seq 0 PTH_KEY_MAX) = []).
    { apply omap_nil. intros k Hk. by apply pass_entries. }
    clear E IH. clearbody c1 v1. by rewrite Hn, app_nil_r.
Qed.

(** At the end of a thread [pth_key_destroydata] calls, in the order of
    the keys, the destructor of every used key under which the thread has
    stored a value, exactly once and with that value, frees the vector and
    changes nothing else, when the destructors store no new values. *)
Lemma key_destroydata_correct s t v :
  length (keytab s) = PTH_KEY_MAX -> length v = PTH_KEY_MAX -> has_vector s t v ->
  exists s' c, pth_key_destroydata log_call (Some t) s = Some (tt, s') /\
    keytab s' = keytab s /\ k_threads s' = <[t := Kthread None c]> (k_threads s) /\
    k_user s' = k_user s ++ omap (key_entry (keytab s) v) (seq 0 PTH_KEY_MAX).
Proof.
  intros Ht Hv Hs. unfold pth_key_destroydata.
  rewrite (st_bind_Some _ _ _ _ _ (rd_thread_eq _ _ _ Hs)). cbn [data_value].
  destruct (destroy_iter_ok s t v 3 Ht Hv Hs) as (v' & _ & E).
  rewrite (st_bind_Some _ _ _ _ _ E).
  assert (Hs1 := has_vector_after s t v' (omap (key_entry (keytab s) v) (seq 0 PTH_KEY_MAX))).
  rewrite (st_bind_Some _ _ _ _ _ (rd_thread_eq _ _ _ Hs1)).
  rewrite (wr_thread_eq _ _ _ _ Hs1). eexists _, _. split; [reflexivity|].
  split_and!; [done| |done]. simpl. by rewrite insert_insert_eq.
Qed.
End destroy.

(** ** Concrete states *)

(** Key 0 is used and has the destructor 7, key 1 is used and has none;
    thread 1 runs and has stored the value 42 under key 0. *)
Definition demo_tab : list keyent :=
  Keyent true (Some 7%positive) :: Keyent true NULL :: replicate 254 (Keyent false NULL).
Definition demo_vector : list ptr := Some 42%positive :: replicate 255 NULL.
Definition demo_keys : kstate klog :=
  Kstate demo_tab {[ 1%positive := Kthread (Some demo_vector) 1 ]} 1 [].

Lemma demo_keys_kinv : kinv demo_keys.
Proof.
  constructor; simpl.
  - reflexivity.
  - eexists. reflexivity.
  - intros t k [<- <-]%lookup_singleton_Some. split; reflexivity.
  - by intros k [_ <-]%lookup_singleton_Some.
Qed.


Lemma key_setdata_getdata_correct_witness :
  exists r s', pth_key_setdata true 1 (Some 5%positive) demo_keys = Some (r, s') /\ kinv s' /\
    keytab s' = demo_tab /\ k_current s' = 1%positive /\
    (if true then
       if false && negb true
       then r = pth_error false ENOMEM /\ s' = demo_keys
       else r = ok true /\ pth_key_getdata 1 s' = Some (ok (Some 5%positive), s') /\
            (forall t i, (i < 256)%nat -> t <> 1%positive \/ i <> 1%nat ->
                         kvalue s' t i = kvalue demo_keys t i)
     else r = pth_error false ENOENT /\ s' = demo_keys /\
          pth_key_getdata 1 s' = Some (pth_error NULL ENOENT, s')).
Proof.
  apply (key_setdata_getdata_correct demo_keys true 1 (Some 5%positive) (Keyent true NULL)
           (Kthread (Some demo_vector) 1)); [apply demo_keys_kinv|lia|reflexivity|reflexivity].
Defined.

Lemma key_destroydata_correct_witness :
  exists s' c, pth_key_destroydata log_call (Some 1%positive) demo_keys = Some (tt, s') /\
    keytab s' = demo_tab /\
    k_threads s' = <[1%positive := Kthread None c]> (k_threads demo_keys) /\
    k_user s' = [] ++ [(7%positive, Some 42%positive)].
Proof.
  apply (key_destroydata_correct demo_keys 1 demo_vector); reflexivity.
Defined.

(** A key that is deleted and created again still has the values stored under
    its former incarnation. *)
Definition key_reuse : st (kstate klog) (ptr * option errno) :=
  pth_key_delete 0;; pth_key_create true NULL;; pth_key_getdata 0.

Lemma key_reuse_stale : exists s', key_reuse demo_keys = Some (ok (Some 42%positive), s').
Proof. eexists. vm_compute. reflexivity. Qed.
