(* ===== verification/Msg.v ===== *)
(** * Message ports (src/pth_msg.c)

    The registry of ports and the queue of pending messages of each port are
    rings. A port's ring node is its first field, as is a message's, so the
    address of a port or message is the address of its node. The critical
    sections of the registry lock and of the port locks are single steps; the
    kick of the other schedulers, which [Sched] models, is counted. *)

From stdpp Require Import base numbers gmap list strings.
From S2P Require Import Prelude Links Ring.
Open Scope Z_scope.

(** [struct pth_msgport_st]; [mp_name] may be NULL. *)
Record port := Port { mp_name : option string; mp_tid : ptr; mp_queue : ring }.

(** [m_links] holds the ring nodes of ports and messages, [m_reply] the field
    [m_replyport] of every message, [m_registry] the ring [pth_msgport]. *)
Record mstate := Mstate {
  m_links : dll;
  m_ports : gmap addr port;
  m_registry : ring;
  m_reply : gmap addr ptr;
  m_current : ptr;
  m_kicks : nat
}.

Definition set_links (s : mstate) (d : dll) : mstate :=
  Mstate d (m_ports s) (m_registry s) (m_reply s) (m_current s) (m_kicks s).
Definition set_registry (s : mstate) (r : ring) : mstate :=
  Mstate (m_links s) (m_ports s) r (m_reply s) (m_current s) (m_kicks s).
Definition set_port (s : mstate) (p : addr) (pt : port) : mstate :=
  Mstate (m_links s) (<[p := pt]> (m_ports s)) (m_registry s) (m_reply s) (m_current s) (m_kicks s).

Definition with_links {A : Type} (m : st dll A) : st mstate A :=
  zoom m_links (fun d s => set_links s d) m.

Definition rd_port (p : addr) : st mstate port :=
  fun s => match m_ports s !! p with Some pt => Some (pt, s) | None => None end.
Definition wr_port (p : addr) (pt : port) : st mstate unit :=
  fun s => match m_ports s !! p with Some _ => Some (tt, set_port s p pt) | None => None end.
Definition wr_registry (r : option ring) : st mstate unit :=
  fun s => match r with Some r => Some (tt, set_registry s r) | None => None end.

Definition pth_gsched_kick_others : st mstate unit :=
  fun s => Some (tt, Mstate (m_links s) (m_ports s) (m_registry s) (m_reply s) (m_current s)
                            (S (m_kicks s))).

(** [malloc] gives NULL or a fresh block, whose link fields are not
    initialised. *)
Definition malloc_port (a : ptr) (name : option string) : st mstate unit :=
  fun s => match a with
  | None => Some (tt, s)
  | Some p => Some (tt, Mstate (Dll (<[p := NULL]> (nxt (m_links s))) (<[p := NULL]> (prv (m_links s))))
                               (<[p := Port name (m_current s) (Ring NULL 0)]> (m_ports s))
                               (m_registry s) (m_reply s) (m_current s) (m_kicks s))
  end.

Definition pth_msgport_create (malloc : ptr) (name : option string)
  : st mstate (ptr * option errno) :=
  match malloc with
  | None => mret (pth_error NULL ENOMEM)
  | Some p =>
      malloc_port malloc name;;
      s ← get_st;
      r ← with_links (pth_ring_append (Some (m_registry s)) (Some p));
      wr_registry r;;
      mret (ok (Some p))
  end.

Definition pth_msgport_pending (mp : ptr) : st mstate (Z * option errno) :=
  match mp with
  | None => mret (pth_error (-1) EINVAL)
  | Some p => pt ← rd_port p; mret (ok (i32 (pth_ring_elements (Some (mp_queue pt)))))
  end.

Definition pth_msgport_put (mp m : ptr) : st mstate (bool * option errno) :=
  match mp with
  | None => mret (pth_error false EINVAL)
  | Some p =>
      pt ← rd_port p;
      r ← with_links (pth_ring_append (Some (mp_queue pt)) m);
      match r with
      | None => undef
      | Some q => wr_port p (Port (mp_name pt) (mp_tid pt) q);;
                  pth_gsched_kick_others;;
                  mret (ok true)
      end
  end.

Definition pth_msgport_get (mp : ptr) : st mstate (ptr * option errno) :=
  match mp with
  | None => mret (pth_error NULL EINVAL)
  | Some p =>
      pt ← rd_port p;
      x ← with_links (pth_ring_pop (Some (mp_queue pt)));
      match x.2 with
      | None => undef
      | Some q => wr_port p (Port (mp_name pt) (mp_tid pt) q);; mret (ok x.1)
      end
  end.

Definition rd_reply (m : addr) : st mstate ptr :=
  fun s => match m_reply s !! m with Some r => Some (r, s) | None => None end.

Definition pth_msgport_reply (m : ptr) : st mstate (bool * option errno) :=
  match m with
  | None => mret (pth_error false EINVAL)
  | Some a => r ← rd_reply a; pth_msgport_put r m
  end.

(** The loop of [pth_msgport_destroy] that replies to the pending
    messages. *)
Fixpoint destroy_reply (fuel : nat) (mp : ptr) : st mstate unit :=
  match fuel with
  | O => undef
  | S fuel' =>
      m ← pth_msgport_get mp;
      match m.1 with
      | None => mret tt
      | Some _ => pth_msgport_reply m.1;; destroy_reply fuel' mp
      end
  end.

(** [free(mp)] *)
Definition free_port (p : addr) : st mstate unit :=
  fun s => Some (tt, Mstate (Dll (delete p (nxt (m_links s))) (delete p (prv (m_links s))))
                            (delete p (m_ports s)) (m_registry s) (m_reply s) (m_current s) (m_kicks s)).

Definition pth_msgport_destroy (fuel : nat) (mp : ptr) : st mstate unit :=
  match mp with
  | None => mret tt
  | Some p =>
      destroy_reply fuel mp;;
      s ← get_st;
      r ← with_links (pth_ring_delete (Some (m_registry s)) mp);
      wr_registry r;;
      free_port p
  end.

(** The loop of [pth_msgport_find]. *)
Fixpoint find_from (fuel : nat) (name : string) (mpf mp : ptr) : st mstate ptr :=
  match mp with
  | None => mret NULL
  | Some p =>
      pt ← rd_port p;
      if bool_decide (mp_name pt = Some name) then mret mp
      else
        match fuel with
        | O => undef
        | S fuel' =>
            s ← get_st;
            mp' ← with_links (pth_ring_next (Some (m_registry s)) mp);
            if bool_decide (mp' = mpf) then mret NULL
            else find_from fuel' name mpf mp'
        end
  end.

Definition pth_msgport_find (name : option string) : st mstate (ptr * option errno) :=
  match name with
  | None => mret (pth_error NULL EINVAL)
  | Some nm =>
      s ← get_st;
      let mpf := pth_ring_first (Some (m_registry s)) in
      r ← find_from (Z.to_nat (r_nodes (m_registry s))) nm mpf mpf;
      mret (ok r)
  end.

(** ** The ports and queues a state represents *)

(** [reg] lists the registered ports, [Q] gives the pending messages of each
    port; no node is in two rings. *)
Record mrep (s : mstate) (reg : list addr) (Q : gmap addr (list addr)) : Prop := {
  mr_reg : ring_rep (m_links s) (m_registry s) reg;
  mr_ports : forall p, p ∈ reg <-> is_Some (Q !! p);
  mr_queue : forall p l, Q !! p = Some l ->
    exists pt, m_ports s !! p = Some pt /\ ring_rep (m_links s) (mp_queue pt) l;
  mr_sep_reg : forall p l a, Q !! p = Some l -> a ∈ l -> a ∉ reg;
  mr_sep : forall p p' l l' a, Q !! p = Some l -> Q !! p' = Some l' -> p <> p' -> a ∈ l -> a ∉ l'
}.

(** A message that is in no ring. *)
Definition mfree (s : mstate) (reg : list addr) (Q : gmap addr (list addr)) (m : addr) : Prop :=
  node (m_links s) m /\ m ∉ reg /\ (forall p l, Q !! p = Some l -> m ∉ l).

Lemma with_links_eq {A : Type} (m : st dll A) s a d :
  m (m_links s) = Some (a, d) -> with_links m s = Some (a, set_links s d).
Proof. intros H. unfold with_links, zoom. by rewrite H. Qed.

Lemma rd_port_eq s p pt : m_ports s !! p = Some pt -> rd_port p s = Some (pt, s).
Proof. intros H. unfold rd_port. by rewrite H. Qed.

Lemma wr_port_eq s p pt pt' : m_ports s !! p = Some pt -> wr_port p pt' s = Some (tt, set_port s p pt').
Proof. intros H. unfold wr_port. by rewrite H. Qed.

(** Replacing the queue of one port, whose ring operation changed only nodes
    of the old and the new queue. *)
Lemma mrep_queue s reg Q p pt l l' d q (S : list addr) :
  mrep s reg Q -> Q !! p = Some l -> m_ports s !! p = Some pt ->
  ring_rep d q l' -> lframe S (m_links s) d ->
  (forall a, a ∈ S \/ a ∈ l' -> a ∈ l \/ (a ∉ reg /\ forall p' l0, Q !! p' = Some l0 -> a ∉ l0)) ->
  mrep (set_port (set_links s d) p (Port (mp_name pt) (mp_tid pt) q)) reg (<[p := l']> Q).
Proof.
  intros [H1 H2 H3 H4 H5] Hp Hpt Hr Hf HS.
  assert (Hreg : forall a, a ∈ S \/ a ∈ l' -> a ∉ reg).
  { intros a Ha. destruct (HS a Ha) as [Hl|[? _]]; [by eapply H4|done]. }
  assert (Hoth : forall p' l0 a, Q !! p' = Some l0 -> p' <> p -> a ∈ S \/ a ∈ l' -> a ∉ l0).
  { intros p' l0 a Hq Hne Ha. destruct (HS a Ha) as [Hl|[_ ?]]; [|by eauto].
    apply (H5 p p' l l0 a); [done|done|congruence|done]. }
  constructor; simpl.
  - eapply ring_frame; [done| |done]. intros a Ha Hin. apply (Hreg a); auto.
  - intros p'. rewrite H2. destruct (decide (p = p')) as [->|].
    + rewrite lookup_insert_eq, Hp. split; by eexists.
    + by rewrite lookup_insert_ne.
  - intros p' l0 [[<- <-]|[Hne Hq]]%lookup_insert_Some.
    + eexists. rewrite lookup_insert_eq. split; [reflexivity|done].
    + destruct (H3 p' l0 Hq) as (pt' & Hpt' & Hr'). exists pt'.
      rewrite lookup_insert_ne by done. split; [done|].
      eapply ring_frame; [done| |done]. intros a Ha Hin. apply (Hoth p' l0 a); auto.
  - intros p' l0 a [[<- <-]|[Hne Hq]]%lookup_insert_Some Ha; [by auto|by eapply H4].
  - intros p1 p2 l1 l2 a [[<- <-]|[Hne1 Hq1]]%lookup_insert_Some
      [[<- <-]|[Hne2 Hq2]]%lookup_insert_Some Hne Ha; [done| | |].
    + apply (Hoth p2 l2 a); auto.
    + intros Hin. by eapply (Hoth p1 l1 a); eauto.
    + by eapply (H5 p1 p2 l1 l2).
Qed.

(** Execute the first statement of a sequence. *)
Ltac mstep :=
  cbn [fst snd];
  first [ rewrite (st_bind_Some _ _ _ _ _ (st_ret_eq _ _))
        | erewrite st_bind_Some;
          [ | first [ reflexivity | eapply rd_port_eq; eassumption | apply with_links_eq; eassumption
                    | eapply wr_port_eq; eassumption | eassumption ] ] ].

Lemma mrep_kicks s reg Q n : mrep s reg Q ->
  mrep (Mstate (m_links s) (m_ports s) (m_registry s) (m_reply s) (m_current s) n) reg Q.
Proof. by intros []. Qed.

(** What a message operation leaves alone. *)
Record mkeep (s s' : mstate) : Prop := {
  mk_reply : m_reply s' = m_reply s;
  mk_reg : m_registry s' = m_registry s;
  mk_cur : m_current s' = m_current s;
  mk_node : forall a, node (m_links s) a -> node (m_links s') a
}.

Lemma mkeep_trans s1 s2 s3 : mkeep s1 s2 -> mkeep s2 s3 -> mkeep s1 s3.
Proof. intros [H1 H2 H3 H4] [K1 K2 K3 K4]. constructor; try congruence. auto. Qed.

Lemma put_ok s reg Q p l m :
  mrep s reg Q -> Q !! p = Some l -> mfree s reg Q m -> Z.of_nat (length l) + 1 < 2 ^ 32 ->
  exists s', pth_msgport_put (Some p) (Some m) s = Some (ok true, s') /\
    mrep s' reg (<[p := l ++ [m]]> Q) /\ mkeep s s' /\ m_kicks s' = S (m_kicks s).
Proof.
  intros Hr Hp (Hn & Hreg & Hq) Hl. destruct (mr_queue _ _ _ Hr p l Hp) as (pt & Hpt & Hrq).
  destruct (append_ok _ _ _ m Hrq Hn (Hq p l Hp) Hl) as (d & q & E & Hrd & Hf).
  unfold pth_msgport_put. do 4 mstep. eexists. split; [reflexivity|]. split_and!.
  - apply mrep_kicks. eapply mrep_queue; [done..|].
    assert (Hm : forall a, a ∈ m :: l \/ a ∈ l ++ [m] -> a = m \/ a ∈ l).
    { clear. intros a. rewrite elem_of_app, elem_of_cons, list_elem_of_singleton. tauto. }
    intros a [->|Ha]%Hm; [by right|by left].
  - constructor; try done. apply (lf_node _ _ _ Hf).
  - done.
Qed.

Lemma get_ok s reg Q p l :
  mrep s reg Q -> Q !! p = Some l ->
  exists s', pth_msgport_get (Some p) s = Some (ok (head l), s') /\
    mrep s' reg (<[p := tail l]> Q) /\ mkeep s s' /\ m_kicks s' = m_kicks s /\
    (forall m, head l = Some m -> mfree s' reg (<[p := tail l]> Q) m).
Proof.
  intros Hr Hp. destruct (mr_queue _ _ _ Hr p l Hp) as (pt & Hpt & Hrq).
  destruct (pop_ok _ _ _ Hrq) as (d & q & E & Hrd & Hf).
  unfold pth_msgport_get. do 2 mstep. cbn [fst snd]. mstep.
  assert (Htl : forall a, a ∈ tail l -> a ∈ l) by (clear; intros a; destruct l; [done|by right]).
  assert (Hk : forall a, node (m_links s) a -> node d a) by apply (lf_node _ _ _ Hf).
  eexists. split; [reflexivity|]. split_and!; [|by constructor|done|].
  - eapply mrep_queue; [done..|]. intros a [Ha|Ha]; left; auto.
  - intros m Hm. destruct l as [|m' l]; [done|]. injection Hm as ->. simpl.
    assert (Hin : m ∈ m :: l) by by left. split_and!.
    + simpl. apply Hk. eapply cyc_node; [apply Hrq|done].
    + by eapply mr_sep_reg.
    + intros p' l0 [[<- <-]|[Hne Hq]]%lookup_insert_Some.
      * assert (Hnd := rr_nodup _ _ _ Hrq). by apply NoDup_cons in Hnd as [? _].
      * by eapply (mr_sep _ _ _ Hr p p').
Qed.

(** The queues after the messages [l] of port [p] were replied to in turn. *)
Fixpoint deliver (reply : gmap addr ptr) (l : list addr) (Q : gmap addr (list addr))
  : gmap addr (list addr) :=
  match l with
  | [] => Q
  | m :: l' =>
      deliver reply l'
        (match reply !! m with
         | Some (Some rp) => <[rp := default [] (Q !! rp) ++ [m]]> Q
         | _ => Q
         end)
  end.

(** Every message of [l] has a reply port, which is not [p] and exists. *)
Definition replies_elsewhere (s : mstate) (Q : gmap addr (list addr)) (p : addr) (l : list addr) : Prop :=
  Forall (fun m => exists r, m_reply s !! m = Some r /\
            (forall rp, r = Some rp -> rp <> p /\ is_Some (Q !! rp))) l.

(** No queue can reach the length at which the counter wraps. *)
Definition queues_small (Q : gmap addr (list addr)) (n : nat) : Prop :=
  forall p l, Q !! p = Some l -> Z.of_nat (length l) + Z.of_nat n < 2 ^ 32.

Lemma reply_ok s reg Q p m rp :
  mrep s reg Q -> mfree s reg Q m -> m_reply s !! m = Some rp -> queues_small Q 1 ->
  (forall r, rp = Some r -> r <> p /\ is_Some (Q !! r)) ->
  exists s' x, pth_msgport_reply (Some m) s = Some (x, s') /\
    mrep s' reg (match rp with Some r => <[r := default [] (Q !! r) ++ [m]]> Q | None => Q end) /\
    mkeep s s'.
Proof.
  intros Hr Hm Hrp Hsm Hel. unfold pth_msgport_reply.
  assert (E : rd_reply m s = Some (rp, s)) by (unfold rd_reply; by rewrite Hrp). mstep.
  destruct rp as [r|].
  - destruct (Hel r) as [Hne [l Hl]]; [done|]. rewrite Hl. simpl default.
    destruct (put_ok s reg Q r l m Hr Hl Hm) as (s' & E' & Hr' & Hk & _); [by eapply (Hsm r)|].
    eauto 10.
  - eexists _, _. split; [reflexivity|]. by split.
Qed.

Lemma destroy_reply_ok reg p l : forall s Q fuel,
  mrep s reg Q -> Q !! p = Some l -> queues_small Q (length l) ->
  replies_elsewhere s Q p l -> (length l < fuel)%nat ->
  exists s', destroy_reply fuel (Some p) s = Some (tt, s') /\
    mrep s' reg (deliver (m_reply s) l (<[p := []]> Q)) /\ mkeep s s'.
Proof.
  induction l as [|m l IH]; intros s Q fuel Hr Hp Hsm Hel Hf;
    (destruct fuel as [|fuel]; [simpl in Hf; lia|]); cbn [destroy_reply];
    destruct (get_ok s reg Q p _ Hr Hp) as (s1 & E1 & Hr1 & Hk1 & _ & Hfree); mstep.
  - eexists. split; [reflexivity|]. by split.
  - cbn [fst ok head]. apply Forall_cons in Hel as [(rp & Hrp & Hel1) Hel].
    cbn [tail] in *. set (Q1 := <[p := l]> Q) in *.
    assert (Hrp1 : m_reply s1 !! m = Some rp) by (by rewrite (mk_reply _ _ Hk1)).
    assert (Hex : forall r, r <> p -> Q1 !! r = Q !! r).
    { intros r Hr0. unfold Q1. by rewrite lookup_insert_ne. }
    destruct (reply_ok s1 reg Q1 p m rp Hr1 (Hfree m eq_refl) Hrp1) as (s2 & x & E2 & Hr2 & Hk2).
    { intros r l0 [[<- <-]|[Hne Hq]]%lookup_insert_Some; [pose proof (Hsm p _ Hp)|pose proof (Hsm r _ Hq)];
        cbn [length] in *; lia. }
    { intros r ->. destruct (Hel1 r eq_refl) as [Hne Hs]. split; [done|]. by rewrite Hex. }
    mstep. set (Q2 := match rp with Some r => _ | None => _ end) in Hr2.
    assert (Hp2 : Q2 !! p = Some l).
    { unfold Q2. destruct rp as [r|]; [|unfold Q1; by rewrite lookup_insert_eq].
      destruct (Hel1 r eq_refl) as [Hne _]. rewrite lookup_insert_ne by done.
      unfold Q1. by rewrite lookup_insert_eq. }
    assert (HQ2 : forall r l0, Q2 !! r = Some l0 ->
       (length l0 <= S (length (default [] (Q !! r))))%nat /\ is_Some (Q !! r)).
    { intros r l0. unfold Q2. destruct rp as [r'|].
      - destruct (Hel1 r' eq_refl) as [Hne [l1 Hl1]].
        rewrite (Hex r' Hne), Hl1. simpl default. intros [[<- <-]|[Hne' Hq]]%lookup_insert_Some.
        + rewrite Hl1. simpl. rewrite length_app. simpl. split; [lia|by eexists].
        + apply lookup_insert_Some in Hq as [[<- <-]|[? Hq]];
            [rewrite Hp|rewrite Hq]; simpl; (split; [lia|by eexists]).
      - intros [[<- <-]|[? Hq]]%lookup_insert_Some; [rewrite Hp|rewrite Hq]; simpl;
          (split; [lia|by eexists]). }
    destruct (IH s2 Q2 fuel Hr2 Hp2) as (s3 & E3 & Hr3 & Hk3).
    + intros r l0 Hl0. destruct (HQ2 r l0 Hl0) as [Hlen [l1 Hl1]]. rewrite Hl1 in Hlen. simpl in Hlen.
      pose proof (Hsm r l1 Hl1). cbn [length] in *. lia.
    + eapply Forall_impl; [exact Hel|]. intros m' (r & Hr' & Hel'). exists r.
      rewrite (mk_reply _ _ Hk2), (mk_reply _ _ Hk1). split; [done|].
      intros r' ->. destruct (Hel' r' eq_refl) as [Hne Hs]. split; [done|]. unfold Q2.
      destruct rp as [r0|]; [|by rewrite Hex].
      destruct (decide (r0 = r')) as [->|]; [rewrite lookup_insert_eq; by eexists|].
      rewrite lookup_insert_ne, Hex; done.
    + simpl in Hf. lia.
    + exists s3. split; [done|]. split; [|by eapply mkeep_trans; [|eapply mkeep_trans]].
      rewrite (mk_reply _ _ Hk2), (mk_reply _ _ Hk1) in Hr3. cbn [deliver]. rewrite Hrp.
      replace (<[p := []]> Q2) with (match rp with
        | Some rp0 => <[rp0 := default [] (<[p := []]> Q !! rp0) ++ [m]]> (<[p := []]> Q)
        | None => <[p := []]> Q end) in Hr3; [done|].
      unfold Q2, Q1. destruct rp as [r|]; [|by rewrite insert_insert_eq].
      destruct (Hel1 r eq_refl) as [Hne _]. rewrite !lookup_insert_ne by done.
      rewrite (insert_insert_ne _ p r) by done. by rewrite insert_insert_eq.
Qed.

(** The registered ports with a name, and the first of them. *)
Definition named_in (m : gmap addr port) (name : string) (l : list addr) : list addr :=
  filter (fun p => (m !! p) ≫= mp_name = Some name) l.
Definition first_named (s : mstate) (name : string) (l : list addr) : ptr :=
  head (named_in (m_ports s) name l).

Lemma named_in_insert m name l p pt : p ∉ l -> named_in (<[p := pt]> m) name l = named_in m name l.
Proof.
  induction l as [|q l IH]; [done|]. intros [Hne Hni]%not_elem_of_cons.
  unfold named_in in *. rewrite !filter_cons, (IH Hni). by rewrite lookup_insert_ne.
Qed.

Lemma find_from_ok s reg Q name l1 l2 fuel :
  mrep s reg Q -> reg = l1 ++ l2 -> (length l2 <= fuel)%nat ->
  find_from fuel name (head reg) (head l2) s = Some (first_named s name l2, s).
Proof.
  revert l1 fuel. induction l2 as [|p l2 IH]; intros l1 fuel Hr Hreg Hf.
  { simpl. by destruct fuel. }
  destruct (mr_queue _ _ _ Hr p) with (l := default [] (Q !! p)) as (pt & Hpt & _).
  { destruct (proj1 (mr_ports _ _ _ Hr p)) as [l Hl]; [subst; apply elem_of_app; right; by left|].
    by rewrite Hl. }
  destruct fuel as [|fuel]; [simpl in Hf; lia|]. cbn [find_from head].
  rewrite (st_bind_Some _ _ _ _ _ (rd_port_eq _ _ _ Hpt)).
  unfold first_named, named_in. rewrite filter_cons, Hpt. cbn [mbind option_bind].
  case_bool_decide as Hn; [by rewrite decide_True|]. rewrite decide_False by done.
  erewrite st_bind_Some by reflexivity.
  assert (Hring := mr_reg _ _ _ Hr). rewrite Hreg in Hring.
  assert (E := next_ok _ _ _ _ _ Hring).
  rewrite (st_bind_Some _ _ _ (head l2) s) by (rewrite (with_links_eq _ _ _ _ E); by destruct s).
  destruct l2 as [|p' l2].
  - simpl head. case_bool_decide; [done|]. by destruct fuel.
  - rewrite bool_decide_eq_false_2.
    + apply (IH (l1 ++ [p])); [done|by rewrite <- app_assoc|simpl in *; lia].
    + assert (Hnd := rr_nodup _ _ _ Hring). rewrite Hreg. intros Heq.
      destruct l1 as [|x l1]; simpl in *; injection Heq as ->;
        apply NoDup_cons in Hnd as [Hnd _]; apply Hnd; [by left|].
      apply elem_of_app. right. right. by left.
Qed.

Lemma find_ok s reg Q name : mrep s reg Q ->
  pth_msgport_find (Some name) s = Some (ok (first_named s name reg), s).
Proof.
  intros Hr. unfold pth_msgport_find. erewrite st_bind_Some by reflexivity. cbv zeta.
  cbn [pth_ring_first]. assert (Hring := mr_reg _ _ _ Hr).
  rewrite (rr_hook _ _ _ Hring), (rr_num _ _ _ Hring), Nat2Z.id.
  by erewrite st_bind_Some by (by apply (find_from_ok s reg Q name [])).
Qed.

Lemma create_ok s reg Q p name :
  mrep s reg Q -> p ∉ reg -> (forall p' l, Q !! p' = Some l -> p ∉ l) ->
  Z.of_nat (length reg) + 1 < 2 ^ 32 ->
  exists s', pth_msgport_create (Some p) name s = Some (ok (Some p), s') /\
    mrep s' (reg ++ [p]) (<[p := []]> Q) /\
    m_ports s' = <[p := Port name (m_current s) (Ring NULL 0)]> (m_ports s).
Proof.
  intros [H1 H2 H3 H4 H5] Hp Hq Hl. unfold pth_msgport_create.
  assert (Hnone : Q !! p = None).
  { destruct (Q !! p) eqn:E; [|done]. exfalso. apply Hp, H2. by eexists. }
  erewrite st_bind_Some by reflexivity. erewrite st_bind_Some by reflexivity.
  set (s1 := Mstate _ _ _ _ _ _).
  assert (Hf0 : lframe [p] (m_links s) (m_links s1)).
  { unfold s1; simpl. apply lframe_upd; upd_cases. }
  assert (Hfr : forall r l, p ∉ l -> ring_rep (m_links s) r l -> ring_rep (m_links s1) r l).
  { intros r l Hni. apply (ring_frame _ _ _ _ _ Hf0). intros a Ha ->%list_elem_of_singleton. done. }
  destruct (append_ok (m_links s1) (m_registry s1) reg p) as (d & r & E & Hrd & Hf);
    [by apply Hfr| |done|done|].
  { split; simpl; rewrite lookup_insert_eq; by eexists. }
  mstep. erewrite st_bind_Some by reflexivity. eexists. split; [reflexivity|]. split; [|done].
  constructor; simpl.
  - done.
  - intros p'. rewrite elem_of_app, list_elem_of_singleton, H2.
    destruct (decide (p = p')) as [->|].
    + rewrite lookup_insert_eq. split; [by eexists|by right].
    + rewrite lookup_insert_ne by done. split; [intros [?|?]; congruence|by left].
  - intros p' l [[<- <-]|[Hne Hl']]%lookup_insert_Some.
    + eexists. rewrite lookup_insert_eq. split; [reflexivity|]. by apply ring_empty.
    + destruct (H3 p' l Hl') as (pt & Hpt & Hring). exists pt.
      rewrite lookup_insert_ne by done. split; [done|].
      eapply ring_frame; [exact Hf| |apply Hfr; [by eapply Hq|done]].
      intros a Ha [->|Hin]%elem_of_cons; [by eapply Hq|by eapply H4].
  - intros p' l a [[<- <-]|[Hne Hl']]%lookup_insert_Some Ha; [by apply not_elem_of_nil in Ha|].
    rewrite elem_of_app, list_elem_of_singleton. intros [Hin| ->]; [by eapply H4|by eapply Hq].
  - intros p1 p2 l1 l2 a [[<- <-]|[Hne1 Hl1]]%lookup_insert_Some
      [[<- <-]|[Hne2 Hl2]]%lookup_insert_Some Hne Ha;
      [by apply not_elem_of_nil in Ha..|apply not_elem_of_nil|by eapply (H5 p1 p2)].
Qed.

Lemma deliver_other reply l Q p :
  Forall (fun m => forall rp, reply !! m = Some (Some rp) -> rp <> p) l ->
  deliver reply l Q !! p = Q !! p.
Proof.
  revert Q. induction l as [|m l IH]; intros Q H; [done|].
  apply Forall_cons in H as [Hm H]. simpl. rewrite (IH _ H).
  destruct (reply !! m) as [[rp|]|]; [|done..]. rewrite lookup_insert_ne; [done|by apply Hm].
Qed.

(** Taking a port without pending messages out of the registry. *)
Lemma unregister_ok s l1 p l2 Q :
  mrep s (l1 ++ p :: l2) Q -> Q !! p = Some [] ->
  exists d r, pth_ring_delete (Some (m_registry s)) (Some p) (m_links s) = Some (Some r, d) /\
    mrep (Mstate (Dll (delete p (nxt d)) (delete p (prv d))) (delete p (m_ports s)) r
                 (m_reply s) (m_current s) (m_kicks s)) (l1 ++ l2) (delete p Q).
Proof.
  intros [H1 H2 H3 H4 H5] Hp. destruct (ring_delete_ok _ _ _ _ _ H1) as (d & r & E & Hr & Hf).
  exists d, r. split; [done|]. assert (Hnd := rr_nodup _ _ _ H1).
  rewrite <- Permutation_middle in Hnd. apply NoDup_cons in Hnd as [Hni Hnd].
  assert (Hreg : forall a, a ∈ l1 ++ p :: l2 <-> a = p \/ a ∈ l1 ++ l2).
  { intros a. by rewrite <- Permutation_middle, elem_of_cons. }
  assert (Hdel : forall q l, p ∉ l -> ring_rep d q l ->
            ring_rep (Dll (delete p (nxt d)) (delete p (prv d))) q l).
  { intros q l Hpl []. constructor; try done. eapply cyc_frame; [|done].
    intros a Ha. simpl. rewrite !lookup_delete_ne by (by intros ->). done. }
  constructor; simpl.
  - by apply Hdel.
  - intros p'. destruct (decide (p = p')) as [<-|Hne].
    + rewrite lookup_delete_eq. split; [done|by intros [? ?]].
    + rewrite lookup_delete_ne, <- H2, Hreg by done. split; [by right|by intros [->|]].
  - intros p' l [Hne Hl]%lookup_delete_Some. destruct (H3 p' l Hl) as (pt & Hpt & Hq).
    exists pt. rewrite lookup_delete_ne by done. split; [done|].
    assert (Hpl : forall a, a ∈ l -> a ∉ l1 ++ p :: l2) by (intros a Ha; by eapply H4).
    apply Hdel; [intros Hin; apply (Hpl _ Hin), Hreg; by left|].
    eapply ring_frame; [done| |done]. intros a Ha Hin. apply (Hpl a Ha), Hreg. by right.
  - intros p' l a [Hne Hl]%lookup_delete_Some Ha Hin. eapply (H4 p' l a Hl Ha), Hreg. by right.
  - intros p1 p2 q1 q2 a [_ Hq1]%lookup_delete_Some [_ Hq2]%lookup_delete_Some. by eapply H5.
Qed.

(** ** Properties *)

Definition demo_mstate : mstate :=
  Mstate (Dll {[ 1%positive := Some 1%positive; 5%positive := Some 6%positive;
                 6%positive := Some 5%positive; 7%positive := NULL ]}
              {[ 1%positive := Some 1%positive; 5%positive := Some 6%positive;
                 6%positive := Some 5%positive; 7%positive := NULL ]})
         {[ 1%positive := Port (Some "log"%string) NULL (Ring (Some 5%positive) 2) ]}
         (Ring (Some 1%positive) 1)
         {[ 5%positive := NULL; 6%positive := NULL; 7%positive := Some 1%positive ]} NULL 0.

Lemma demo_mrep : mrep demo_mstate [1%positive] {[ 1%positive := [5%positive; 6%positive] ]}.
Proof.
  constructor.
  - constructor; [done|done|apply NoDup_singleton|by vm_compute|simpl; lia].
  - intros p. rewrite list_elem_of_singleton. split.
    + intros ->. by eexists.
    + intros [l [<- _]%lookup_singleton_Some]. done.
  - intros p l [<- <-]%lookup_singleton_Some. eexists. split; [reflexivity|].
    constructor; [done|done|by apply (bool_decide_unpack _)|by vm_compute|simpl; lia].
  - intros p l a [<- <-]%lookup_singleton_Some Ha ->%list_elem_of_singleton.
    revert Ha. by apply (bool_decide_unpack _).
  - by intros p p' l l' a [<- <-]%lookup_singleton_Some [<- <-]%lookup_singleton_Some.
Qed.

Lemma demo_mfree : mfree demo_mstate [1%positive] {[ 1%positive := [5%positive; 6%positive] ]} 7.
Proof.
  split_and!; [split; by eexists|by apply (bool_decide_unpack _)|].
  intros p l [<- <-]%lookup_singleton_Some. by apply (bool_decide_unpack _).
Qed.

(** A port is a first-in first-out queue. [pth_msgport_put] adds a free
    message behind the pending ones and wakes the other schedulers once,
    [pth_msgport_get] takes the oldest one (NULL if there is none) and leaves
    it free, [pth_msgport_pending] is their number; the other ports, the
    registry and every message elsewhere are untouched. *)
Lemma msgport_fifo s reg Q p l m :
  mrep s reg Q -> Q !! p = Some l -> mfree s reg Q m -> Z.of_nat (length l) < 2 ^ 31 - 1 ->
  (exists s', pth_msgport_put (Some p) (Some m) s = Some (ok true, s') /\
     mrep s' reg (<[p := l ++ [m]]> Q) /\ mkeep s s' /\ m_kicks s' = S (m_kicks s)) /\
  (exists s', pth_msgport_get (Some p) s = Some (ok (head l), s') /\
     mrep s' reg (<[p := tail l]> Q) /\ mkeep s s' /\ m_kicks s' = m_kicks s /\
     (forall x, head l = Some x -> mfree s' reg (<[p := tail l]> Q) x)) /\
  pth_msgport_pending (Some p) s = Some (ok (Z.of_nat (length l)), s).
Proof.
  intros Hr Hp Hm Hl. split_and!; [apply put_ok; [done..|lia]|by apply get_ok|].
  destruct (mr_queue _ _ _ Hr p l Hp) as (pt & Hpt & Hrq). unfold pth_msgport_pending. mstep.
  simpl. rewrite (rr_num _ _ _ Hrq), i32_small; [done|]. unfold in_i32. lia.
Qed.

Lemma msgport_fifo_witness :
  (exists s', pth_msgport_put (Some 1%positive) (Some 7%positive) demo_mstate = Some (ok true, s') /\
     mrep s' [1%positive] (<[1%positive := [5%positive; 6%positive; 7%positive]]>
                             {[ 1%positive := [5%positive; 6%positive] ]}) /\
     mkeep demo_mstate s' /\ m_kicks s' = 1%nat) /\
  (exists s', pth_msgport_get (Some 1%positive) demo_mstate = Some (ok (Some 5%positive), s') /\
     mrep s' [1%positive] (<[1%positive := [6%positive]]> {[ 1%positive := [5%positive; 6%positive] ]}) /\
     mkeep demo_mstate s' /\ m_kicks s' = 0%nat /\
     (forall x, Some 5%positive = Some x -> mfree s' [1%positive]
        (<[1%positive := [6%positive]]> {[ 1%positive := [5%positive; 6%positive] ]}) x)) /\
  pth_msgport_pending (Some 1%positive) demo_mstate = Some (ok 2, demo_mstate).
Proof.
  apply (msgport_fifo demo_mstate [1%positive] {[ 1%positive := [5%positive; 6%positive] ]} 1
           [5%positive; 6%positive] 7);
    [apply demo_mrep|reflexivity|apply demo_mfree|simpl; lia].
Defined.

(** [pth_msgport_destroy] on a registered port whose pending messages
    reply to other ports (or to none) terminates, has put every pending
    message, oldest first, on its reply port, and removes the port and only
    it from the registry. *)
Lemma msgport_destroy_correct s l1 p l2 Q l fuel :
  mrep s (l1 ++ p :: l2) Q -> Q !! p = Some l -> queues_small Q (length l) ->
  replies_elsewhere s Q p l -> (length l < fuel)%nat ->
  exists s', pth_msgport_destroy fuel (Some p) s = Some (tt, s') /\
    mrep s' (l1 ++ l2) (delete p (deliver (m_reply s) l (<[p := []]> Q))).
Proof.
  intros Hr Hp Hsm Hel Hf. unfold pth_msgport_destroy.
  destruct (destroy_reply_ok _ _ _ _ _ _ Hr Hp Hsm Hel Hf) as (s1 & E1 & Hr1 & Hk).
  mstep. erewrite st_bind_Some by reflexivity.
  assert (Hp1 : deliver (m_reply s) l (<[p := []]> Q) !! p = Some []).
  { rewrite deliver_other; [by rewrite lookup_insert_eq|].
    eapply Forall_impl; [exact Hel|]. intros m (r & Hr' & Hne) rp Hrp.
    rewrite Hrp in Hr'. injection Hr' as <-. by apply Hne. }
  destruct (unregister_ok _ _ _ _ _ Hr1 Hp1) as (d & r & E2 & Hr2).
  mstep. erewrite st_bind_Some by reflexivity. eexists. split; [reflexivity|]. exact Hr2.
Qed.

Lemma msgport_destroy_correct_witness :
  exists s', pth_msgport_destroy 3 (Some 1%positive) demo_mstate = Some (tt, s') /\
    mrep s' [] (delete 1%positive (deliver (m_reply demo_mstate) [5%positive; 6%positive]
      (<[1%positive := []]> {[ 1%positive := [5%positive; 6%positive] ]}))).
Proof.
  apply (msgport_destroy_correct demo_mstate [] 1 [] {[ 1%positive := [5%positive; 6%positive] ]}).
  - apply demo_mrep.
  - reflexivity.
  - intros p l [<- <-]%lookup_singleton_Some. simpl. lia.
  - repeat constructor; by exists NULL.
  - simpl. lia.
Defined.

(** A pending message whose reply port is the port itself is put back every
    time: the loop of [pth_msgport_destroy] never ends. *)
Lemma destroy_self_reply_diverges s reg Q p m fuel :
  mrep s reg Q -> Q !! p = Some [m] -> m_reply s !! m = Some (Some p) ->
  destroy_reply fuel (Some p) s = None.
Proof.
  revert s Q. induction fuel as [|fuel IH]; intros s Q Hr Hp Hm; [done|]. cbn [destroy_reply].
  destruct (get_ok _ _ _ _ _ Hr Hp) as (s1 & E1 & Hr1 & Hk1 & _ & Hfree). mstep.
  cbn [fst ok head]. cbn [tail] in *. set (Q1 := <[p := []]> Q) in *.
  assert (Hp1 : Q1 !! p = Some []) by (unfold Q1; by rewrite lookup_insert_eq).
  assert (Hrm : rd_reply m s1 = Some (Some p, s1)).
  { unfold rd_reply. by rewrite (mk_reply _ _ Hk1), Hm. }
  destruct (put_ok _ _ _ _ _ m Hr1 Hp1 (Hfree m eq_refl)) as (s2 & E2 & Hr2 & Hk2 & _); [simpl; lia|].
  assert (E3 : pth_msgport_reply (Some m) s1 = Some (ok true, s2)).
  { unfold pth_msgport_reply. mstep. exact E2. }
  mstep. apply (IH s2 (<[p := [] ++ [m]]> Q1)); [done|by rewrite lookup_insert_eq|].
  by rewrite (mk_reply _ _ Hk2), (mk_reply _ _ Hk1).
Qed.

(** [pth_msgport_create] registers a new empty port at the end of the
    registry, and [pth_msgport_find] terminates and returns the first
    registered port with the name, NULL when there is none (a port without a
    name is never found); neither changes another port. *)
Theorem msgport_registry_correct s reg Q p name nm :
  mrep s reg Q -> p ∉ reg -> (forall p' l, Q !! p' = Some l -> p ∉ l) ->
  Z.of_nat (length reg) + 1 < 2 ^ 32 ->
  pth_msgport_find (Some nm) s = Some (ok (first_named s nm reg), s) /\
  exists s', pth_msgport_create (Some p) name s = Some (ok (Some p), s') /\
    mrep s' (reg ++ [p]) (<[p := []]> Q) /\
    pth_msgport_find (Some nm) s' =
      Some (ok (match first_named s nm reg with
                | Some q => Some q
                | None => if bool_decide (name = Some nm) then Some p else NULL end), s').
Proof.
  intros Hr Hp Hq Hl. split; [by eapply find_ok|].
  destruct (create_ok s reg Q p name Hr Hp Hq Hl) as (s' & E & Hr' & Hpts).
  exists s'. split_and!; [done..|]. rewrite (find_ok _ _ _ _ Hr').
  do 3 f_equal. unfold first_named, named_in at 1. rewrite filter_app, Hpts.
  fold (named_in (<[p := Port name (m_current s) (Ring NULL 0)]> (m_ports s)) nm reg).
  rewrite named_in_insert by done. destruct (named_in (m_ports s) nm reg) as [|q l]; [|done].
  simpl app. rewrite filter_cons, lookup_insert_eq. simpl. case_bool_decide; by case_decide.
Qed.

Lemma msgport_registry_correct_witness :
  pth_msgport_find (Some "log"%string) demo_mstate = Some (ok (Some 1%positive), demo_mstate) /\
  exists s', pth_msgport_create (Some 9%positive) (Some "in"%string) demo_mstate = Some (ok (Some 9%positive), s') /\
    mrep s' [1%positive; 9%positive] (<[9%positive := []]> {[ 1%positive := [5%positive; 6%positive] ]}) /\
    pth_msgport_find (Some "log"%string) s' = Some (ok (Some 1%positive), s').
Proof.
  apply (msgport_registry_correct demo_mstate [1%positive] {[ 1%positive := [5%positive; 6%positive] ]}
           9 (Some "in"%string) "log"%string).
  - apply demo_mrep.
  - by apply (bool_decide_unpack _).
  - intros p' l [<- <-]%lookup_singleton_Some. by apply (bool_decide_unpack _).
  - simpl. lia.
Defined.
