(* ===== verification/Waitq.v ===== *)
(** * Wait queues of blocked threads (src/pth_sync.c, lines 38-92)

    A wait queue is a singly-linked list of control blocks through the field
    [wq_next], with a head and a tail. [wq_rep] relates a queue to the list of
    its threads; the operations implement a FIFO on that list. *)

From stdpp Require Import base numbers gmap list.
From S2P Require Import Prelude.
Open Scope Z_scope.

(** [struct pth_waitq_st] *)
Record waitq := Waitq { wq_head : ptr; wq_tail : ptr }.

(** [t->wq_next] of every thread *)
Abbreviation wheap := (gmap positive ptr).

Definition rd_wq (p : ptr) : st wheap ptr :=
  fun h => match p with
           | Some a => match h !! a with Some v => Some (v, h) | None => None end
           | None => None end.
Definition wr_wq (p v : ptr) : st wheap unit :=
  fun h => match p with
           | Some a => match h !! a with Some _ => Some (tt, <[a := v]> h) | None => None end
           | None => None end.

Definition pth_waitq_init : waitq := Waitq NULL NULL.

Definition pth_waitq_append (q : waitq) (t : ptr) : st wheap waitq :=
  wr_wq t NULL;;
  if bool_decide (wq_tail q <> NULL)
  then wr_wq (wq_tail q) t;; mret (Waitq (wq_head q) t)
  else mret (Waitq t t).

Definition pth_waitq_shift (q : waitq) : st wheap (ptr * waitq) :=
  let t := wq_head q in
  if bool_decide (t <> NULL) then
    n ← rd_wq t;
    let q' := if bool_decide (n = NULL) then Waitq n NULL else Waitq n (wq_tail q) in
    wr_wq t NULL;;
    mret (t, q')
  else mret (t, q).

(** The loop of [pth_waitq_remove]: [c] is the current thread, [p] its
    predecessor. *)
Fixpoint pth_waitq_remove_from (fuel : nat) (q : waitq) (p c t : ptr) : st wheap (bool * waitq) :=
  match c with
  | None => mret (false, q)
  | Some _ =>
      if bool_decide (c = t) then
        n ← rd_wq c;
        q1 ← (if bool_decide (p <> NULL) then wr_wq p n;; mret q
              else mret (Waitq n (wq_tail q)));
        let q2 := if bool_decide (wq_tail q1 = c) then Waitq (wq_head q1) p else q1 in
        wr_wq c NULL;;
        mret (true, q2)
      else match fuel with
           | O => undef
           | S fuel' => n ← rd_wq c; pth_waitq_remove_from fuel' q c n t
           end
  end.

(** [fuel]: at least the number of threads in the queue; the number of
    threads of the process always is. *)
Definition pth_waitq_remove (q : waitq) (t : ptr) : st wheap (bool * waitq) :=
  h ← get_st;
  pth_waitq_remove_from (size h) q NULL (wq_head q) t.

(** ** The list a queue represents *)

(** From [x] the [wq_next] fields lead through [l] to NULL. *)
Fixpoint chain (h : wheap) (x : addr) (l : list addr) : Prop :=
  match l with
  | [] => h !! x = Some NULL
  | y :: l' => h !! x = Some (Some y) /\ chain h y l'
  end.

Definition chained (h : wheap) (l : list addr) : Prop :=
  match l with [] => True | x :: l' => chain h x l' end.

Record wq_rep (h : wheap) (q : waitq) (l : list addr) : Prop := {
  wr_head : wq_head q = head l;
  wr_tail : wq_tail q = last l;
  wr_nodup : NoDup l;
  wr_chain : chained h l
}.

(** [h'] differs from [h] only in the threads of [S]; the same threads
    exist. *)
Record wframe (S : list addr) (h h' : wheap) : Prop := {
  wf_eq : forall a, a ∉ S -> h' !! a = h !! a;
  wf_dom : forall a, is_Some (h !! a) -> is_Some (h' !! a)
}.

Lemma chain_frame h h' x l :
  (forall a, a ∈ x :: l -> h' !! a = h !! a) -> chain h x l -> chain h' x l.
Proof.
  revert x. induction l as [|y l IH]; intros x H; simpl.
  - intros Hx. rewrite H; [done|by left].
  - intros [H1 H2]. rewrite H by (by left). split; [done|]. apply IH; [|done].
    intros a Ha. apply H. by right.
Qed.

Lemma wq_frame S h h' q l :
  wframe S h h' -> (forall a, a ∈ l -> a ∉ S) -> wq_rep h q l -> wq_rep h' q l.
Proof.
  intros [He _] HS []. constructor; try done. destruct l as [|x l]; [done|].
  eapply chain_frame; [|done]. intros a Ha. by apply He, HS.
Qed.

Lemma chain_app h x l1 y l2 :
  chain h x (l1 ++ y :: l2) -> chain h y l2 /\
  (forall z, last (x :: l1) = Some z -> h !! z = Some (Some y)).
Proof.
  revert x. induction l1 as [|w l1 IH]; intros x; cbn [app chain].
  - intros [H1 H2]. split; [done|]. by intros z [= <-].
  - intros [H1 H2]. destruct (IH w H2) as [H3 H4]. by split.
Qed.

Lemma chain_In h x l a : chain h x l -> a ∈ x :: l -> is_Some (h !! a).
Proof.
  revert x. induction l as [|y l IH]; intros x; simpl.
  - intros H ->%list_elem_of_singleton. by eexists.
  - intros [H1 H2] [->|Ha]%elem_of_cons; [by eexists|by eapply IH].
Qed.

Lemma wq_in h q l a : wq_rep h q l -> a ∈ l -> is_Some (h !! a).
Proof. intros [_ _ _ Hc] Ha. destruct l as [|x l]; [by apply not_elem_of_nil in Ha|by eapply chain_In]. Qed.

Lemma wq_empty h q : wq_rep h q [] <-> q = Waitq NULL NULL.
Proof.
  split; [|intros ->; constructor; try done; constructor].
  intros [H1 H2 _ _]. destruct q; simpl in *. by subst.
Qed.

Lemma x_rd_wq h a v : h !! a = Some v -> rd_wq (Some a) h = Some (v, h).
Proof. intros H. unfold rd_wq. by rewrite H. Qed.
Lemma x_wr_wq h a w v : h !! a = Some w -> wr_wq (Some a) v h = Some (tt, <[a := v]> h).
Proof. intros H. unfold wr_wq. by rewrite H. Qed.

Lemma wframe_upd S h h' :
  (forall a, h' !! a = h !! a \/ (a ∈ S /\ is_Some (h' !! a))) -> wframe S h h'.
Proof.
  intros H. constructor.
  - intros a Ha. destruct (H a) as [|[]]; [done|by destruct Ha].
  - intros a Ha. destruct (H a) as [->|[]]; done.
Qed.

Lemma chain_snoc h x l t :
  chain h x l -> t ∉ x :: l -> NoDup (x :: l) -> forall z, last (x :: l) = Some z ->
  chain (<[z := Some t]> (<[t := NULL]> h)) x (l ++ [t]).
Proof.
  revert x. induction l as [|y l IH]; intros x Hc Ht Hnd z Hz; simpl in Hc; simpl.
  - injection Hz as <-. assert (t <> x) by (intros ->; apply Ht; by left).
    rewrite lookup_insert_eq, lookup_insert_ne, lookup_insert_eq by done. done.
  - destruct Hc as [H1 H2]. apply not_elem_of_cons in Ht as [Htx Ht].
    apply NoDup_cons in Hnd as [Hx Hnd]. rewrite last_cons_cons in Hz. split.
    + rewrite !lookup_insert_ne; [done|congruence|].
      intros ->. by apply Hx, last_Some_elem_of.
    + by apply IH.
Qed.

(** [pth_waitq_append] adds at the end. *)
Lemma waitq_append_ok h q l t :
  wq_rep h q l -> is_Some (h !! t) -> t ∉ l ->
  exists h' q', pth_waitq_append q (Some t) h = Some (q', h') /\
    wq_rep h' q' (l ++ [t]) /\ wframe (t :: l) h h'.
Proof.
  intros Hr [v Hv] Hni. assert (Hin := fun a => wq_in h q l a Hr).
  destruct Hr as [Hh Ht Hnd Hc]. unfold pth_waitq_append.
  rewrite (st_bind_Some _ _ _ _ _ (x_wr_wq _ _ _ _ Hv)). rewrite Ht.
  destruct (last l) as [z|] eqn:Hz.
  - rewrite bool_decide_eq_true_2 by done.
    assert (Hzin := last_Some_elem_of _ _ Hz).
    assert (t <> z) by (by intros ->).
    destruct (Hin z Hzin) as [w Hw].
    erewrite st_bind_Some by (eapply x_wr_wq; by rewrite lookup_insert_ne by done).
    eexists _, _. split; [reflexivity|]. split; [constructor; simpl|].
    + rewrite Hh. by destruct l.
    + by rewrite last_snoc.
    + rewrite <- Permutation_cons_append. by constructor.
    + destruct l as [|x l]; [done|]. by apply chain_snoc.
    + apply wframe_upd. intros a. rewrite !lookup_insert. repeat case_decide; subst.
      * right. split; [by right|by eexists].
      * right. split; [by left|by eexists].
      * by left.
  - apply last_None in Hz as ->. rewrite bool_decide_eq_false_2 by (intros H; by apply H).
    eexists _, _. split; [reflexivity|]. split; [constructor; simpl; try done|].
    + apply NoDup_singleton.
    + by rewrite lookup_insert_eq.
    + apply wframe_upd. intros a. rewrite !lookup_insert. case_decide; subst; [|by left].
      right. split; [by left|by eexists].
Qed.

(** [pth_waitq_shift] takes the first thread out, or returns NULL. *)
Lemma waitq_shift_ok h q l :
  wq_rep h q l ->
  exists h' q', pth_waitq_shift q h = Some ((head l, q'), h') /\
    wq_rep h' q' (tail l) /\ wframe (option_list (head l)) h h'.
Proof.
  intros Hr. assert (Hr' := Hr). destruct Hr as [Hh Ht Hnd Hc]. unfold pth_waitq_shift. rewrite Hh.
  destruct l as [|x l]; simpl head.
  - exists h, q. split_and!; [done|done|by constructor].
  - rewrite bool_decide_eq_true_2 by done.
    assert (Hx : h !! x = Some (head l)) by (destruct l; simpl in Hc; tauto).
    rewrite (st_bind_Some _ _ _ _ _ (x_rd_wq _ _ _ Hx)).
    rewrite (st_bind_Some _ _ _ _ _ (x_wr_wq _ _ _ _ Hx)).
    eexists _, _. split; [reflexivity|]. apply NoDup_cons in Hnd as [Hxl Hnd]. split.
    + destruct l as [|y l]; simpl head; simpl tail.
      * by apply wq_empty.
      * rewrite bool_decide_eq_false_2 by done. constructor; simpl; [done| |done|].
        { by rewrite Ht. }
        { destruct Hc as [_ Hc]. eapply chain_frame; [|exact Hc].
          intros a Ha. rewrite lookup_insert_ne; [done|]. by intros ->. }
    + apply wframe_upd. intros a. rewrite !lookup_insert. case_decide; subst; [|by left].
      right. split; [by left|by eexists].
Qed.

(** ** Removal *)

(** A chain whose last thread [z] is redirected to the head of [l2]. *)
Lemma chain_redirect h h' x l1 rest l2 :
  chain h x (l1 ++ rest) -> NoDup (x :: l1) ->
  (forall a, a ∈ x :: l1 -> last (x :: l1) <> Some a -> h' !! a = h !! a) ->
  (forall z, last (x :: l1) = Some z -> h' !! z = Some (head l2)) ->
  chained h' l2 -> chain h' x (l1 ++ l2).
Proof.
  revert x. induction l1 as [|y l1 IH]; intros x Hc Hnd He Hz H2.
  - specialize (Hz x eq_refl). simpl. destruct l2; simpl in *; [done|by split].
  - destruct Hc as [H1 Hc]. apply NoDup_cons in Hnd as [Hx Hnd]. cbn [app chain]. split.
    + rewrite He; [done|by left|]. rewrite last_cons_cons. intros E.
      by apply Hx, last_Some_elem_of.
    + apply IH; [done|done| |done|done]. intros a Ha Hl. apply He; [by right|].
      by rewrite last_cons_cons.
Qed.

Lemma chained_unlink h l1 t l2 :
  chained h (l1 ++ t :: l2) -> NoDup (l1 ++ t :: l2) ->
  chained (<[t := NULL]> (match last l1 with Some p => <[p := head l2]> h | None => h end)) (l1 ++ l2).
Proof.
  intros Hc Hnd. apply NoDup_app in Hnd as (Hnd1 & Hd & Hnd2).
  apply NoDup_cons in Hnd2 as [Ht Hnd2].
  assert (Hc2 : chained h (t :: l2)).
  { destruct l1 as [|x l1]; [done|]. by apply (chain_app h x l1 t l2) in Hc as [? _]. }
  assert (Hframe : forall h', (forall a, a ∈ l2 -> h' !! a = h !! a) -> chained h' l2).
  { intros h' He. destruct l2 as [|y l2]; [done|]. destruct Hc2 as [_ Hc2].
    by eapply chain_frame. }
  destruct l1 as [|x l1].
  - apply Hframe. intros a Ha. simpl. rewrite lookup_insert_ne; [done|]. by intros ->.
  - assert (Htl : t ∉ x :: l1) by (intros Hin; apply (Hd t Hin); by left).
    destruct (last (x :: l1)) as [p|] eqn:Hp; [|by apply last_None in Hp].
    assert (Hpin := last_Some_elem_of _ _ Hp).
    assert (Hpt : t <> p) by (by intros ->).
    eapply (chain_redirect h); [exact Hc|done| | |].
    + intros a Ha Hl. rewrite !lookup_insert_ne; [done|congruence|]. by intros ->.
    + intros z Hz. rewrite Hp in Hz. injection Hz as <-.
      by rewrite lookup_insert_ne, lookup_insert_eq by done.
    + apply Hframe. intros a Ha. rewrite !lookup_insert_ne; [done| |].
      * intros ->. apply (Hd a Hpin). by right.
      * by intros ->.
Qed.

Lemma filter_ne_notin (l : list addr) t : t ∉ l -> filter (fun x => x <> t) l = l.
Proof.
  induction l as [|x l IH]; [done|]. intros [Hne Hni]%not_elem_of_cons.
  rewrite filter_cons_True by done. by rewrite IH.
Qed.

Lemma filter_ne_split l1 t l2 : NoDup (l1 ++ t :: l2) ->
  filter (fun x : addr => x <> t) (l1 ++ t :: l2) = l1 ++ l2.
Proof.
  intros Hnd. apply NoDup_app in Hnd as (_ & Hd & Hnd). apply NoDup_cons in Hnd as [Ht _].
  rewrite filter_app, filter_cons_False by tauto. rewrite !filter_ne_notin; [done|done|].
  intros Hin. apply (Hd t Hin). by left.
Qed.

(** The step of the walk that finds [t]. *)
Lemma remove_found_ok h q l1 l2 t fuel :
  wq_rep h q (l1 ++ t :: l2) ->
  exists h' q', pth_waitq_remove_from fuel q (last l1) (Some t) (Some t) h = Some ((true, q'), h') /\
    wq_rep h' q' (l1 ++ l2) /\ wframe (l1 ++ t :: l2) h h'.
Proof.
  intros Hr. assert (Hin := fun a => wq_in h q _ a Hr). destruct Hr as [Hh Htl Hnd Hc].
  assert (Hc' := chained_unlink _ _ _ _ Hc Hnd).
  assert (Hnd' : NoDup (l1 ++ l2)).
  { rewrite <- Permutation_middle in Hnd. by apply NoDup_cons in Hnd as [_ ?]. }
  assert (Hht : h !! t = Some (head l2)).
  { assert (chain h t l2) as H; [|destruct l2; simpl in H; tauto].
    destruct l1 as [|x l1]; [done|]. by apply (chain_app h x l1 t l2) in Hc as [? _]. }
  assert (Hlast : (if bool_decide (wq_tail q = Some t) then last l1 else wq_tail q) = last (l1 ++ l2)).
  { rewrite Htl. destruct (nil_or_snoc l2) as [->|(l2' & z & ->)].
    - by rewrite last_snoc, bool_decide_eq_true_2, app_nil_r.
    - rewrite app_comm_cons, !app_assoc, !last_snoc, bool_decide_eq_false_2; [done|].
      intros [= ->]. apply NoDup_app in Hnd as (_ & _ & Hnd). apply NoDup_cons in Hnd as [Hnd _].
      apply Hnd, elem_of_app. right. by left. }
  assert (Hgo : pth_waitq_remove_from fuel q (last l1) (Some t) (Some t) h =
    Some ((true, Waitq (head (l1 ++ l2)) (last (l1 ++ l2))),
          <[t := NULL]> (match last l1 with Some p => <[p := head l2]> h | None => h end))).
  { assert (Hstep : (q1 ← (if bool_decide (last l1 <> NULL) then wr_wq (last l1) (head l2);; mret q
                           else mret (Waitq (head l2) (wq_tail q)));
        let q2 := if bool_decide (wq_tail q1 = Some t) then Waitq (wq_head q1) (last l1) else q1 in
        wr_wq (Some t) NULL;; mret (true, q2)) h =
      Some ((true, Waitq (head (l1 ++ l2)) (last (l1 ++ l2))),
          <[t := NULL]> (match last l1 with Some p => <[p := head l2]> h | None => h end))).
    { rewrite <- Hlast. destruct (last l1) as [p|] eqn:Hp.
      - rewrite bool_decide_eq_true_2 by done. assert (Hpin := last_Some_elem_of _ _ Hp).
        destruct (Hin p) as [w Hw]; [apply elem_of_app; by left|].
        erewrite (st_bind_Some _ _ _ q) by (rewrite (st_bind_Some _ _ _ _ _ (x_wr_wq _ _ _ _ Hw)); reflexivity).
        assert (t <> p).
        { intros ->. apply NoDup_app in Hnd as (_ & Hd & _). apply (Hd p Hpin). by left. }
        erewrite st_bind_Some by (eapply x_wr_wq; by rewrite lookup_insert_ne).
        assert (Hhd : wq_head q = head (l1 ++ l2)) by (rewrite Hh; by destruct l1).
        rewrite <- Hhd. case_bool_decide; destruct q; done.
      - apply last_None in Hp as ->. rewrite bool_decide_eq_false_2 by (intros H; by apply H).
        erewrite st_bind_Some by reflexivity. cbv zeta.
        rewrite (st_bind_Some _ _ _ _ _ (x_wr_wq _ _ _ _ Hht)).
        cbn [wq_tail wq_head app]. case_bool_decide; done. }
    destruct fuel; cbn [pth_waitq_remove_from]; rewrite bool_decide_eq_true_2 by done;
      rewrite (st_bind_Some _ _ _ _ _ (x_rd_wq _ _ _ Hht)); exact Hstep. }
  eexists _, _. split; [exact Hgo|]. split; [by constructor|].
  apply wframe_upd. intros a. destruct (decide (t = a)) as [<-|Hta].
  { rewrite lookup_insert_eq. right. split; [|by eexists]. apply elem_of_app. right. by left. }
  rewrite lookup_insert_ne by done. destruct (last l1) as [p|] eqn:Hp; [|by left].
  destruct (decide (p = a)) as [<-|Hpa]; [|rewrite lookup_insert_ne by done; by left].
  rewrite lookup_insert_eq. right. split; [|by eexists]. apply elem_of_app. left.
  by apply last_Some_elem_of.
Qed.

(** The queue without [t], for a walk that has passed [l1]. *)
Lemma remove_from_ok h q l1 l2 t fuel :
  wq_rep h q (l1 ++ l2) -> t ∉ l1 -> (length l2 <= fuel)%nat ->
  exists h' q', pth_waitq_remove_from fuel q (last l1) (head l2) (Some t) h
      = Some ((bool_decide (t ∈ l2), q'), h') /\
    wq_rep h' q' (filter (fun x => x <> t) (l1 ++ l2)) /\ wframe (l1 ++ l2) h h' /\
    (t ∉ l2 -> h' = h /\ q' = q).
Proof.
  revert l1 fuel. induction l2 as [|c l2 IH]; intros l1 fuel Hr Hni Hf.
  - exists h, q. rewrite (bool_decide_eq_false_2 (t ∈ [])) by apply not_elem_of_nil.
    rewrite app_nil_r in *. rewrite filter_ne_notin by done.
    split_and!; [by destruct fuel|done|by constructor|done].
  - destruct (decide (c = t)) as [->|Hne].
    + destruct (remove_found_ok _ _ _ _ _ fuel Hr) as (h' & q' & E & Hr' & Hfr).
      exists h', q'. rewrite (bool_decide_eq_true_2 (t ∈ _)) by (by left).
      rewrite (filter_ne_split _ _ _ (wr_nodup _ _ _ Hr)). split_and!; [done..|].
      intros Hn. destruct Hn. by left.
    + destruct fuel as [|fuel]; [simpl in Hf; lia|]. cbn [pth_waitq_remove_from head].
      rewrite bool_decide_eq_false_2 by congruence.
      assert (Hc : h !! c = Some (head l2)).
      { assert (chain h c l2) as H; [|destruct l2; simpl in H; tauto].
        destruct Hr as [_ _ _ Hc]. destruct l1 as [|x l1]; [done|].
        by apply (chain_app h x l1 c l2) in Hc as [? _]. }
      rewrite (st_bind_Some _ _ _ _ _ (x_rd_wq _ _ _ Hc)).
      assert (Hr' : wq_rep h q ((l1 ++ [c]) ++ l2)) by (by rewrite <- app_assoc).
      destruct (IH (l1 ++ [c]) fuel Hr') as (h' & q' & E & Hq & Hfr & Hno).
      { rewrite elem_of_app, list_elem_of_singleton. intros [|]; congruence. }
      { simpl in Hf. lia. }
      rewrite last_snoc in E. rewrite <- app_assoc in Hq, Hfr. exists h', q'.
      rewrite (bool_decide_ext (t ∈ c :: l2) (t ∈ l2))
        by (rewrite elem_of_cons; split; [intros [->|]|right]; done).
      split_and!; [done..|]. intros Hn. apply Hno. intros Hin. apply Hn. by right.
Qed.

Lemma chain_fuel h q l : wq_rep h q l -> (length l <= size h)%nat.
Proof.
  intros Hr. rewrite <- size_dom. rewrite <- (size_list_to_set (C:=gset addr) l) by apply Hr.
  apply subseteq_size. intros a Ha%elem_of_list_to_set. apply elem_of_dom. by eapply wq_in.
Qed.

(** [pth_waitq_remove] takes [t] out if it is in the queue and tells whether
    it was. *)
Lemma waitq_remove_ok h q l t :
  wq_rep h q l ->
  exists h' q', pth_waitq_remove q (Some t) h = Some ((bool_decide (t ∈ l), q'), h') /\
    wq_rep h' q' (filter (fun x => x <> t) l) /\ wframe l h h' /\
    (t ∉ l -> h' = h /\ q' = q).
Proof.
  intros Hr. unfold pth_waitq_remove. erewrite st_bind_Some by reflexivity.
  rewrite (wr_head _ _ _ Hr). apply (remove_from_ok h q [] l t (size h) Hr).
  - apply not_elem_of_nil.
  - by eapply chain_fuel.
Qed.

(** A queue without a thread. *)
Definition without (cur : addr) (l : list addr) : list addr := filter (fun t => t <> cur) l.

Lemma elem_without t x (l : list addr) : t ∈ without x l <-> t <> x /\ t ∈ l.
Proof. unfold without. by rewrite list_elem_of_filter. Qed.

(** ** The state shared by the blocking primitives

    Besides the queues, a parked thread has the event it waits for in
    [wq_event], and a releaser delivers a directed wakeup of that event
    through the thread's scheduler ([pth_gsched_wake], modelled in [Sched]);
    here the wakeups are recorded in the order they are sent. *)

Record park := Park { k_next : wheap; k_event : gmap addr ptr; k_wakes : list (addr * ptr) }.

Definition on_wq {A : Type} (m : st wheap A) : st park A :=
  zoom k_next (fun h s => Park h (k_event s) (k_wakes s)) m.

(** [t->wq_event = ev] *)
Definition wr_wqevent (t : addr) (ev : ptr) : st park unit :=
  fun s => match k_event s !! t with
           | Some _ => Some (tt, Park (k_next s) (<[t := ev]> (k_event s)) (k_wakes s))
           | None => None end.

(** [pth_gsched_wake(w->sched_home, w, w->wq_event)] *)
Definition pth_gsched_wake_waiter (w : ptr) : st park unit :=
  fun s => match w with
           | Some t => match k_event s !! t with
                       | Some ev => Some (tt, Park (k_next s) (k_event s) (k_wakes s ++ [(t, ev)]))
                       | None => None end
           | None => None end.

(** [p'] differs from [p] in the fields of the threads of [S], and [w] are the
    wakeups sent in between. *)
Record pframe (S : list addr) (w : list addr) (p p' : park) : Prop := {
  pf_next : wframe S (k_next p) (k_next p');
  pf_event : forall a, a ∉ S -> k_event p' !! a = k_event p !! a;
  pf_edom : forall a, is_Some (k_event p !! a) -> is_Some (k_event p' !! a);
  pf_wakes : (k_wakes p').*1 = (k_wakes p).*1 ++ w
}.

(** A thread with its fields. *)
Definition thread_ok (p : park) (t : addr) : Prop :=
  is_Some (k_next p !! t) /\ is_Some (k_event p !! t).

Lemma on_wq_eq {A : Type} (m : st wheap A) p a h :
  m (k_next p) = Some (a, h) -> on_wq m p = Some (a, Park h (k_event p) (k_wakes p)).
Proof. intros H. unfold on_wq, zoom. by rewrite H. Qed.

Lemma wr_wqevent_eq p t ev v : k_event p !! t = Some v ->
  wr_wqevent t ev p = Some (tt, Park (k_next p) (<[t := ev]> (k_event p)) (k_wakes p)).
Proof. intros H. unfold wr_wqevent. by rewrite H. Qed.

Lemma wake_eq p t ev : k_event p !! t = Some ev ->
  pth_gsched_wake_waiter (Some t) p = Some (tt, Park (k_next p) (k_event p) (k_wakes p ++ [(t, ev)])).
Proof. intros H. unfold pth_gsched_wake_waiter. by rewrite H. Qed.

Lemma wframe_refl S h : wframe S h h.
Proof. by constructor. Qed.

Lemma wframe_trans S h1 h2 h3 : wframe S h1 h2 -> wframe S h2 h3 -> wframe S h1 h3.
Proof.
  intros [H1 H2] [K1 K2]. constructor; [|auto].
  intros a Ha. rewrite K1 by done. by apply H1.
Qed.

Lemma wframe_sub S S' h h' : wframe S h h' -> (forall a, a ∈ S -> a ∈ S') -> wframe S' h h'.
Proof. intros [H1 H2] HS. constructor; auto. Qed.

Lemma pframe_refl S p : pframe S [] p p.
Proof. constructor; [apply wframe_refl|done|done|by rewrite app_nil_r]. Qed.

Lemma pframe_wq S p h : wframe S (k_next p) h -> pframe S [] p (Park h (k_event p) (k_wakes p)).
Proof. intros H. constructor; simpl; [done|done|done|by rewrite app_nil_r]. Qed.

Lemma pframe_wake S p t ev : pframe S [t] p (Park (k_next p) (k_event p) (k_wakes p ++ [(t, ev)])).
Proof. constructor; simpl; [apply wframe_refl|done|done|by rewrite fmap_app]. Qed.

Lemma pframe_event S p t ev : t ∈ S -> is_Some (k_event p !! t) ->
  pframe S [] p (Park (k_next p) (<[t := ev]> (k_event p)) (k_wakes p)).
Proof.
  intros Ht Hs. constructor; simpl; [apply wframe_refl| | |by rewrite app_nil_r].
  - intros a Ha. rewrite lookup_insert_ne; [done|]. by intros ->.
  - intros a Ha. destruct (decide (t = a)) as [->|].
    + rewrite lookup_insert_eq. by eexists.
    + by rewrite lookup_insert_ne.
Qed.

Lemma pframe_trans S w1 w2 p1 p2 p3 :
  pframe S w1 p1 p2 -> pframe S w2 p2 p3 -> pframe S (w1 ++ w2) p1 p3.
Proof.
  intros [H1 H2 H3 H4] [K1 K2 K3 K4]. constructor; [by eapply wframe_trans| |auto|].
  - intros a Ha. rewrite K2 by done. auto.
  - by rewrite K4, H4, app_assoc.
Qed.

Lemma pframe_sub S S' w p p' : pframe S w p p' -> (forall a, a ∈ S -> a ∈ S') -> pframe S' w p p'.
Proof. intros [H1 H2 H3 H4] HS. constructor; [by eapply wframe_sub|auto|done|done]. Qed.

Lemma thread_frame S w p p' t : pframe S w p p' -> thread_ok p t -> thread_ok p' t.
Proof. intros [[_ H1] _ H2 _] [? ?]. split; auto. Qed.

Lemma wq_pframe S w p p' q l :
  pframe S w p p' -> (forall a, a ∈ l -> a ∉ S) -> wq_rep (k_next p) q l -> wq_rep (k_next p') q l.
Proof. intros [H _ _ _]. by apply wq_frame. Qed.

(** ** Properties *)

Definition demo_wheap : wheap :=
  list_to_map [(1%positive, Some 2%positive); (2%positive, Some 3%positive);
               (3%positive, NULL); (4%positive, NULL)].
Definition demo_waitq : waitq := Waitq (Some 1%positive) (Some 3%positive).

Lemma demo_wq_rep : wq_rep demo_wheap demo_waitq [1%positive; 2%positive; 3%positive].
Proof. constructor; [done|done|by apply (bool_decide_unpack _)|by vm_compute]. Qed.

(** A wait queue is a first-in first-out queue: [pth_waitq_append] adds a
    thread that is in no queue at the end, [pth_waitq_shift] takes the oldest
    one (NULL if there is none), [pth_waitq_remove] takes a given thread out
    wherever it is, tells whether it was there and changes nothing if it was
    not; the walk ends, only valid addresses are dereferenced, and the links
    of no other thread are written. *)
Lemma waitq_fifo h q l t s :
  wq_rep h q l -> is_Some (h !! t) -> t ∉ l ->
  (exists h' q', pth_waitq_append q (Some t) h = Some (q', h') /\
     wq_rep h' q' (l ++ [t]) /\ wframe (t :: l) h h') /\
  (exists h' q', pth_waitq_shift q h = Some ((head l, q'), h') /\
     wq_rep h' q' (tail l) /\ wframe (option_list (head l)) h h') /\
  (exists h' q', pth_waitq_remove q (Some s) h = Some ((bool_decide (s ∈ l), q'), h') /\
     wq_rep h' q' (filter (fun x => x <> s) l) /\ wframe l h h' /\
     (s ∉ l -> h' = h /\ q' = q)).
Proof.
  intros Hr Ht Hni. split_and!; [by apply waitq_append_ok|by apply waitq_shift_ok|by apply waitq_remove_ok].
Qed.

Lemma waitq_fifo_witness :
  (exists h' q', pth_waitq_append demo_waitq (Some 4%positive) demo_wheap = Some (q', h') /\
     wq_rep h' q' [1%positive; 2%positive; 3%positive; 4%positive] /\
     wframe [4%positive; 1%positive; 2%positive; 3%positive] demo_wheap h') /\
  (exists h' q', pth_waitq_shift demo_waitq demo_wheap = Some ((Some 1%positive, q'), h') /\
     wq_rep h' q' [2%positive; 3%positive] /\ wframe [1%positive] demo_wheap h') /\
  (exists h' q', pth_waitq_remove demo_waitq (Some 3%positive) demo_wheap = Some ((true, q'), h') /\
     wq_rep h' q' [1%positive; 2%positive] /\ wframe [1%positive; 2%positive; 3%positive] demo_wheap h' /\
     (3%positive ∉ [1%positive; 2%positive; 3%positive] -> h' = demo_wheap /\ q' = demo_waitq)).
Proof.
  apply (waitq_fifo demo_wheap demo_waitq [1%positive; 2%positive; 3%positive] 4 3).
  - apply demo_wq_rep.
  - by eexists.
  - by apply (bool_decide_unpack _).
Defined.
