(* ===== verification/Mutex.v ===== *)
(** * Mutexes (src/pth_sync.c, lines 94-324)

    The critical sections of a mutex's spinlock are single steps of the
    model. [pth_mutex_acquire] blocks in [pth_wait], so it is split there:
    [pth_mutex_acquire] runs up to the return or the wait, [mutex_resume]
    from the return of the wait to the next return or wait, and
    [pth_mutex_wait_cleanup] is what a thread cancelled in the wait runs.
    The operations refine operations on an abstract mutex (an owner, a count
    and a queue); the step relation at the end interleaves them. *)

From stdpp Require Import base numbers gmap list.
From S2P Require Import Prelude Links Ring Waitq.
Open Scope Z_scope.

Definition PTH_MUTEX_INITIALIZED : Z := 1.
Definition PTH_MUTEX_LOCKED : Z := 2.
Definition PTH_MUTEX_FAIR : Z := 4.

(** [struct pth_mutex_st] without its ring node and spinlock; [mx_count] is
    an [unsigned long]. *)
Record mutex := Mutex { mx_state : Z; mx_owner : ptr; mx_count : Z; mx_waitq : waitq }.

(** [x_nodes] holds the ring nodes of the mutexes (a mutex starts with its
    node), [x_rings] the field [mutexring] of every thread. *)
Record mxs := Mxs {
  x_park : park;
  x_mutex : gmap addr mutex;
  x_nodes : dll;
  x_rings : gmap addr ring
}.

Definition on_park {A : Type} (m : st park A) : st mxs A :=
  zoom x_park (fun p s => Mxs p (x_mutex s) (x_nodes s) (x_rings s)) m.
Definition on_nodes {A : Type} (m : st dll A) : st mxs A :=
  zoom x_nodes (fun d s => Mxs (x_park s) (x_mutex s) d (x_rings s)) m.

Definition rd_mutex (m : addr) : st mxs mutex :=
  fun s => match x_mutex s !! m with Some x => Some (x, s) | None => None end.
Definition wr_mutex (m : addr) (x : mutex) : st mxs unit :=
  fun s => Some (tt, Mxs (x_park s) (<[m := x]> (x_mutex s)) (x_nodes s) (x_rings s)).
Definition rd_ring (t : addr) : st mxs ring :=
  fun s => match x_rings s !! t with Some r => Some (r, s) | None => None end.
Definition wr_ring (t : addr) (r : option ring) : st mxs unit :=
  fun s => match r with
           | Some r => Some (tt, Mxs (x_park s) (x_mutex s) (x_nodes s) (<[t := r]> (x_rings s)))
           | None => None end.

(** A bit of [mx_state]. *)
Definition mx_flag (x : mutex) (bit : Z) : bool := negb (Z.land (mx_state x) bit =? 0).
Definition mx_set (x : mutex) (bit : Z) : Z := Z.lor (mx_state x) bit.
Definition mx_clear (x : mutex) (bit : Z) : Z := Z.land (mx_state x) (Z.lnot bit).

Definition pth_mutex_init (mutex : ptr) : st mxs (bool * option errno) :=
  match mutex with
  | None => mret (pth_error false EINVAL)
  | Some m => wr_mutex m (Mutex PTH_MUTEX_INITIALIZED NULL 0 pth_waitq_init);; mret (ok true)
  end.

Definition pth_mutex_setfair (mutex : ptr) (fair : bool) : st mxs (bool * option errno) :=
  match mutex with
  | None => mret (pth_error false EINVAL)
  | Some m =>
      x ← rd_mutex m;
      if negb (mx_flag x PTH_MUTEX_INITIALIZED) then mret (pth_error false EDEADLK)
      else
        wr_mutex m (Mutex (if fair then mx_set x PTH_MUTEX_FAIR else mx_clear x PTH_MUTEX_FAIR)
                          (mx_owner x) (mx_count x) (mx_waitq x));;
        mret (ok true)
  end.

(** [pth_ring_append(&t->mutexring, &mutex->mx_node)] and the deletion. *)
Definition mutexring_append (t m : addr) : st mxs unit :=
  r ← rd_ring t;
  r' ← on_nodes (pth_ring_append (Some r) (Some m));
  wr_ring t r'.
Definition mutexring_delete (t m : addr) : st mxs unit :=
  r ← rd_ring t;
  r' ← on_nodes (pth_ring_delete (Some r) (Some m));
  wr_ring t r'.

(** The thread becomes the owner of an unlocked mutex. *)
Definition mutex_take (cur m : addr) : st mxs unit :=
  x ← rd_mutex m;
  wr_mutex m (Mutex (mx_set x PTH_MUTEX_LOCKED) (Some cur) 1 (mx_waitq x));;
  mutexring_append cur m.

(** The thread enters the wait queue of the mutex, with the event [ev]. *)
Definition mutex_enqueue (cur m : addr) (ev : ptr) : st mxs unit :=
  on_park (wr_wqevent cur ev);;
  x ← rd_mutex m;
  q ← on_park (on_wq (pth_waitq_append (mx_waitq x) (Some cur)));
  wr_mutex m (Mutex (mx_state x) (mx_owner x) (mx_count x) q).

(** [mutex->mx_waitq] without the thread. *)
Definition mutex_unqueue (cur m : addr) : st mxs unit :=
  x ← rd_mutex m;
  q ← on_park (on_wq (pth_waitq_remove (mx_waitq x) (Some cur)));
  wr_mutex m (Mutex (mx_state x) (mx_owner x) (mx_count x) q.2).

(** A blocking operation returns, or waits in [pth_wait]. *)
Inductive outcome :=
| Done (r : bool * option errno)
| Blocked.

Definition pth_mutex_acquire (cur : addr) (mutex : ptr) (tryonly : bool) (ev : ptr)
  : st mxs outcome :=
  match mutex with
  | None => mret (Done (pth_error false EINVAL))
  | Some m =>
      x ← rd_mutex m;
      if negb (mx_flag x PTH_MUTEX_INITIALIZED) then mret (Done (pth_error false EDEADLK))
      else if negb (mx_flag x PTH_MUTEX_LOCKED) then
        mutex_take cur m;; mret (Done (ok true))
      else if (mx_count x >=? 1) && bool_decide (mx_owner x = Some cur) then
        wr_mutex m (Mutex (mx_state x) (mx_owner x) (u64 (mx_count x + 1)) (mx_waitq x));;
        mret (Done (ok true))
      else if tryonly then mret (Done (pth_error false EBUSY))
      else mutex_enqueue cur m ev;; mret Blocked
  end.

(** The loop of [pth_mutex_acquire] from the return of [pth_wait] on.
    [ev_extra]: an extra event was given; [pending]: the status of the
    mutex's event is [PTH_STATUS_PENDING]. *)
Definition mutex_resume (cur m : addr) (ev_extra pending : bool) (ev : ptr) : st mxs outcome :=
  x ← rd_mutex m;
  if bool_decide (mx_owner x = Some cur) then
    mutexring_append cur m;; mret (Done (ok true))
  else
    mutex_unqueue cur m;;
    if ev_extra && pending then mret (Done (pth_error false EINTR))
    else
      x ← rd_mutex m;
      if negb (mx_flag x PTH_MUTEX_LOCKED) then mutex_take cur m;; mret (Done (ok true))
      else mutex_enqueue cur m ev;; mret Blocked.

(** The cleanup handler of a thread that is cancelled in the wait. *)
Definition pth_mutex_wait_cleanup (cur m : addr) : st mxs unit :=
  x ← rd_mutex m;
  if bool_decide (mx_owner x = Some cur) then
    w ← on_park (on_wq (pth_waitq_shift (mx_waitq x)));
    match w.1 with
    | Some _ =>
        wr_mutex m (Mutex (mx_state x) w.1 1 w.2);;
        on_park (pth_gsched_wake_waiter w.1)
    | None =>
        wr_mutex m (Mutex (mx_clear x PTH_MUTEX_LOCKED) NULL 0 w.2)
    end
  else mutex_unqueue cur m.

Definition pth_mutex_release (cur : addr) (mutex : ptr) : st mxs (bool * option errno) :=
  match mutex with
  | None => mret (pth_error false EINVAL)
  | Some m =>
      x ← rd_mutex m;
      if negb (mx_flag x PTH_MUTEX_INITIALIZED) then mret (pth_error false EDEADLK)
      else if negb (mx_flag x PTH_MUTEX_LOCKED) then mret (pth_error false EDEADLK)
      else if negb (bool_decide (mx_owner x = Some cur)) then mret (pth_error false EACCES)
      else
        let count := u64 (mx_count x - 1) in
        if count <=? 0 then
          w ← on_park (on_wq (pth_waitq_shift (mx_waitq x)));
          if bool_decide (w.1 <> NULL) && mx_flag x PTH_MUTEX_FAIR then
            wr_mutex m (Mutex (mx_state x) w.1 1 w.2);;
            mutexring_delete cur m;;
            on_park (pth_gsched_wake_waiter w.1);;
            mret (ok true)
          else
            wr_mutex m (Mutex (mx_clear x PTH_MUTEX_LOCKED) NULL 0 w.2);;
            mutexring_delete cur m;;
            (if bool_decide (w.1 <> NULL) then on_park (pth_gsched_wake_waiter w.1) else mret tt);;
            mret (ok true)
        else
          wr_mutex m (Mutex (mx_state x) (mx_owner x) count (mx_waitq x));;
          mret (ok true)
  end.

(** The loop of [pth_mutex_releaseall]; the releases are those of the running
    thread. *)
Fixpoint releaseall_from (fuel : nat) (cur thread : addr) (rnf rn : ptr) : st mxs unit :=
  match rn with
  | None => mret tt
  | Some _ =>
      match fuel with
      | O => undef
      | S fuel' =>
          pth_mutex_release cur rn;;
          r ← rd_ring thread;
          rn' ← on_nodes (pth_ring_next (Some r) rn);
          if bool_decide (rn' = rnf) then mret tt
          else releaseall_from fuel' cur thread rnf rn'
      end
  end.

Definition pth_mutex_releaseall (fuel : nat) (cur : addr) (thread : ptr) : st mxs unit :=
  match thread with
  | None => mret tt
  | Some t =>
      r ← rd_ring t;
      let rnf := pth_ring_first (Some r) in
      releaseall_from fuel cur t rnf rnf
  end.

(** ** The abstract mutex *)

Record amutex := AM { a_fair : bool; a_owner : ptr; a_count : Z; a_queue : list addr }.

(** All mutexes, and the mutexes in the ring of each thread. *)
Record ast := Ast { a_mx : gmap addr amutex; a_held : gmap addr (list addr) }.

Definition a_set (A : ast) (m : addr) (a : amutex) : ast := Ast (<[m := a]> (a_mx A)) (a_held A).
Definition a_add (A : ast) (t m : addr) : ast :=
  Ast (a_mx A) (<[t := default [] (a_held A !! t) ++ [m]]> (a_held A)).
Definition a_remove (A : ast) (t m : addr) : ast :=
  Ast (a_mx A) (<[t := filter (fun x => x <> m) (default [] (a_held A !! t))]> (a_held A)).

Definition mx_bits (fair : bool) (owner : ptr) : Z :=
  1 + (if bool_decide (owner = NULL) then 0 else 2) + (if fair then 4 else 0).

Record mx_ok (h : wheap) (x : mutex) (a : amutex) : Prop := {
  mo_state : mx_state x = mx_bits (a_fair a) (a_owner a);
  mo_owner : mx_owner x = a_owner a;
  mo_count : mx_count x = a_count a;
  mo_queue : wq_rep h (mx_waitq x) (a_queue a);
  mo_free : a_owner a = NULL <-> a_count a = 0;
  mo_range : 0 <= a_count a < 2 ^ 64
}.

(** The rings of all threads, as lists; a node is in one ring at most. *)
Record rings_rep (d : dll) (R : gmap addr ring) (H : gmap addr (list addr)) : Prop := {
  rg_ring : forall t l, H !! t = Some l -> exists r, R !! t = Some r /\ ring_rep d r l;
  rg_sep : forall t t' l l' m, H !! t = Some l -> H !! t' = Some l' -> t <> t' -> m ∈ l -> m ∉ l'
}.

Record mrel (s : mxs) (A : ast) : Prop := {
  ml_mx : forall m a, a_mx A !! m = Some a ->
    exists x, x_mutex s !! m = Some x /\ mx_ok (k_next (x_park s)) x a;
  ml_threads : forall t, is_Some (a_held A !! t) -> thread_ok (x_park s) t;
  ml_queue : forall m a t, a_mx A !! m = Some a -> t ∈ a_queue a -> is_Some (a_held A !! t);
  ml_sep : forall m m' a a' t, a_mx A !! m = Some a -> a_mx A !! m' = Some a' -> m <> m' ->
    t ∈ a_queue a -> t ∉ a_queue a';
  ml_rings : rings_rep (x_nodes s) (x_rings s) (a_held A);
  ml_nodes : forall m, is_Some (a_mx A !! m) -> node (x_nodes s) m;
  ml_small : forall t l, a_held A !! t = Some l -> Forall (fun m => is_Some (a_mx A !! m)) l;
  ml_few : Z.of_nat (size (a_mx A)) < 2 ^ 32
}.

(** ** Steps of the proofs *)

Lemma x_park_eq {A : Type} (m : st park A) s a p :
  m (x_park s) = Some (a, p) -> on_park m s = Some (a, Mxs p (x_mutex s) (x_nodes s) (x_rings s)).
Proof. intros H. unfold on_park, zoom. by rewrite H. Qed.
Lemma x_nodes_eq {A : Type} (m : st dll A) s a d :
  m (x_nodes s) = Some (a, d) -> on_nodes m s = Some (a, Mxs (x_park s) (x_mutex s) d (x_rings s)).
Proof. intros H. unfold on_nodes, zoom. by rewrite H. Qed.
Lemma rd_mutex_eq s m x : x_mutex s !! m = Some x -> rd_mutex m s = Some (x, s).
Proof. intros H. unfold rd_mutex. by rewrite H. Qed.
Lemma wr_mutex_eq s m x :
  wr_mutex m x s = Some (tt, Mxs (x_park s) (<[m := x]> (x_mutex s)) (x_nodes s) (x_rings s)).
Proof. done. Qed.
Lemma rd_ring_eq s t r : x_rings s !! t = Some r -> rd_ring t s = Some (r, s).
Proof. intros H. unfold rd_ring. by rewrite H. Qed.

Ltac xstep :=
  cbn [fst snd];
  first [ rewrite (st_bind_Some _ _ _ _ _ (st_ret_eq _ _))
        | rewrite (st_bind_Some _ _ _ _ _ (wr_mutex_eq _ _ _))
        | erewrite st_bind_Some;
          [ | first [ eapply rd_mutex_eq; eassumption | eapply rd_ring_eq; eassumption
                    | apply x_nodes_eq; eassumption | apply x_park_eq; eassumption
                    | apply x_park_eq, on_wq_eq; eassumption | eassumption ] ] ].

(** The bits of a represented mutex. *)
Lemma flag_init f o : negb (Z.land (mx_bits f o) PTH_MUTEX_INITIALIZED =? 0) = true.
Proof. unfold mx_bits. case_bool_decide; by destruct f. Qed.
Lemma flag_locked f o : negb (Z.land (mx_bits f o) PTH_MUTEX_LOCKED =? 0) = bool_decide (o <> NULL).
Proof. unfold mx_bits. repeat case_bool_decide; try tauto; by destruct f. Qed.
Lemma flag_fair f o : negb (Z.land (mx_bits f o) PTH_MUTEX_FAIR =? 0) = f.
Proof. unfold mx_bits. case_bool_decide; by destruct f. Qed.
Lemma set_locked f o t : Z.lor (mx_bits f o) PTH_MUTEX_LOCKED = mx_bits f (Some t).
Proof. unfold mx_bits. repeat case_bool_decide; try done; by destruct f. Qed.
Lemma clear_locked f o : Z.land (mx_bits f o) (Z.lnot PTH_MUTEX_LOCKED) = mx_bits f NULL.
Proof. unfold mx_bits. repeat case_bool_decide; try done; by destruct f. Qed.

Lemma ok_flags h x a : mx_ok h x a ->
  mx_flag x PTH_MUTEX_INITIALIZED = true /\
  mx_flag x PTH_MUTEX_LOCKED = bool_decide (a_owner a <> NULL) /\
  mx_flag x PTH_MUTEX_FAIR = a_fair a /\
  (forall t, mx_set x PTH_MUTEX_LOCKED = mx_bits (a_fair a) (Some t)) /\
  mx_clear x PTH_MUTEX_LOCKED = mx_bits (a_fair a) NULL.
Proof.
  intros []. unfold mx_flag, mx_set, mx_clear. rewrite mo_state0.
  split_and!; [apply flag_init|apply flag_locked|apply flag_fair|intros; apply set_locked|apply clear_locked].
Qed.

(** The invariant after the mutex [m] and the threads' fields changed. *)
Lemma mrel_upd s A m a a' x' p' S w :
  mrel s A -> a_mx A !! m = Some a -> pframe S w (x_park s) p' ->
  mx_ok (k_next p') x' a' ->
  (forall t, t ∈ S \/ t ∈ a_queue a' -> is_Some (a_held A !! t) /\
     (forall m' b, m' <> m -> a_mx A !! m' = Some b -> t ∉ a_queue b)) ->
  mrel (Mxs p' (<[m := x']> (x_mutex s)) (x_nodes s) (x_rings s)) (a_set A m a').
Proof.
  intros [] Hm Hf Hx HS. constructor; simpl; [| | | |done| | |].
  - intros m' b [[<- <-]|[Hne Hb]]%lookup_insert_Some.
    + exists x'. by rewrite lookup_insert_eq.
    + destruct (ml_mx0 m' b Hb) as (y & Hy & []). exists y. rewrite lookup_insert_ne by done.
      split; [done|]. constructor; try done. eapply wq_pframe; [done| |done].
      intros t Ht Hin. destruct (HS t) as [_ Hno]; [by left|]. by eapply (Hno m' b).
  - intros t Ht. eapply thread_frame; [done|auto].
  - intros m' b t [[<- <-]|[Hne Hb]]%lookup_insert_Some Ht; [|by eauto].
    by destruct (HS t) as [? _]; [right|].
  - intros m1 m2 b1 b2 t [[<- <-]|[Hne1 Hb1]]%lookup_insert_Some
      [[<- <-]|[Hne2 Hb2]]%lookup_insert_Some Hne Ht; [done| | |by eapply (ml_sep0 m1 m2)].
    + destruct (HS t) as [_ Hno]; [by right|]. by eapply (Hno m2 b2).
    + intros Hin. destruct (HS t) as [_ Hno]; [by right|]. by eapply (Hno m1 b1).
  - intros m' [b [[<- <-]|[Hne Hb]]%lookup_insert_Some]; eauto.
  - intros t l Hl. eapply Forall_impl; [by eapply ml_small0|]. intros m' Hm'. simpl.
    destruct (decide (m = m')) as [<-|]; [rewrite lookup_insert_eq; by eexists|].
    by rewrite lookup_insert_ne.
  - rewrite map_size_insert_Some by (by eexists). done.
Qed.

Lemma ring_length s A t l :
  mrel s A -> a_held A !! t = Some l -> NoDup l -> Z.of_nat (length l) <= Z.of_nat (size (a_mx A)).
Proof.
  intros Hr Hl Hnd. apply inj_le. rewrite <- size_dom.
  rewrite <- (size_list_to_set (C:=gset addr) l) by done.
  apply subseteq_size. intros m Hm%elem_of_list_to_set. apply elem_of_dom.
  pose proof (ml_small _ _ Hr t l Hl) as Hf. rewrite Forall_forall in Hf. by apply Hf.
Qed.

(** A mutex in no ring. *)
Definition unheld (A : ast) (m : addr) : Prop := forall t l, a_held A !! t = Some l -> m ∉ l.

Lemma held_append s A t m :
  mrel s A -> is_Some (a_held A !! t) -> is_Some (a_mx A !! m) -> unheld A m ->
  exists s', mutexring_append t m s = Some (tt, s') /\ mrel s' (a_add A t m) /\
    x_park s' = x_park s /\ x_mutex s' = x_mutex s.
Proof.
  intros Hr [l Hl] Hm Hun. destruct (rg_ring _ _ _ (ml_rings _ _ Hr) t l Hl) as (r & HR & Hring).
  assert (Hlen : Z.of_nat (length (m :: l)) <= Z.of_nat (size (a_mx A))).
  { apply inj_le. rewrite <- size_dom.
    rewrite <- (size_list_to_set (C:=gset addr) (m :: l)).
    2:{ constructor; [by eapply Hun|apply Hring]. }
    apply subseteq_size. intros m' Hm'%elem_of_list_to_set. apply elem_of_dom.
    apply elem_of_cons in Hm' as [->|Hm']; [done|].
    pose proof (ml_small _ _ Hr t l Hl) as Hf. rewrite Forall_forall in Hf. by apply Hf. }
  pose proof (ml_few _ _ Hr) as Hfew.
  destruct (append_ok _ _ _ m Hring (ml_nodes _ _ Hr m Hm) (Hun t l Hl)) as (d & r' & E & Hr' & Hf);
    [simpl in Hlen; lia|].
  unfold mutexring_append. do 2 xstep. eexists. split; [reflexivity|]. split; [|done].
  destruct Hr. constructor; simpl; try done.
  - intros t' Ht'. apply ml_threads0. destruct (decide (t = t')) as [<-|]; [by eexists|].
    by rewrite lookup_insert_ne in Ht'.
  - intros m' a t' Ha Ht'. destruct (decide (t = t')) as [<-|].
    + rewrite lookup_insert_eq. by eexists.
    + rewrite lookup_insert_ne by done. by eapply ml_queue0.
  - rewrite Hl. simpl default. destruct ml_rings0 as [H1 H2]. constructor.
    + intros t' l' [[<- <-]|[Hne Hl']]%lookup_insert_Some.
      * exists r'. by rewrite lookup_insert_eq.
      * destruct (H1 t' l' Hl') as (r0 & HR0 & Hr0). exists r0. rewrite lookup_insert_ne by done.
        split; [done|]. eapply ring_frame; [done| |done].
        intros m' Hm' [->|Hin]%elem_of_cons; [by eapply Hun|by eapply (H2 t' t)].
    + intros t1 t2 l1 l2 m' [[<- <-]|[Hne1 Hl1]]%lookup_insert_Some
        [[<- <-]|[Hne2 Hl2]]%lookup_insert_Some Hne; [done| | |by eapply H2].
      * intros [Hin| ->%list_elem_of_singleton]%elem_of_app; [by eapply (H2 t t2)|by eapply Hun].
      * intros Hin [Hin'| ->%list_elem_of_singleton]%elem_of_app; [by eapply (H2 t t1)|by eapply Hun].
  - intros m' Hm'. apply (lf_node _ _ _ Hf). by apply ml_nodes0.
  - intros t' l' [[<- <-]|[Hne Hl']]%lookup_insert_Some; [|by eapply ml_small0].
    rewrite Hl. simpl default. apply Forall_app. split; [by eapply ml_small0|by constructor].
Qed.

Lemma held_remove s A t m l :
  mrel s A -> a_held A !! t = Some l -> m ∈ l ->
  exists s', mutexring_delete t m s = Some (tt, s') /\ mrel s' (a_remove A t m) /\
    x_park s' = x_park s /\ x_mutex s' = x_mutex s.
Proof.
  intros Hr Hl Hm. destruct (rg_ring _ _ _ (ml_rings _ _ Hr) t l Hl) as (r & HR & Hring).
  apply list_elem_of_split in Hm as (l1 & l2 & ->).
  destruct (ring_delete_ok _ _ _ _ _ Hring) as (d & r' & E & Hr' & Hf).
  unfold mutexring_delete. do 2 xstep. eexists. split; [reflexivity|]. split; [|done].
  assert (Hfil : default [] (a_held A !! t) = l1 ++ m :: l2) by (by rewrite Hl).
  unfold a_remove. rewrite Hfil, (filter_ne_split _ _ _ (rr_nodup _ _ _ Hring)).
  assert (Hsub : forall x, x ∈ l1 ++ l2 -> x ∈ l1 ++ m :: l2).
  { intros x. rewrite <- Permutation_middle, elem_of_cons. by right. }
  destruct Hr. constructor; simpl; try done.
  - intros t' Ht'. apply ml_threads0. destruct (decide (t = t')) as [<-|]; [by eexists|].
    by rewrite lookup_insert_ne in Ht'.
  - intros m' a t' Ha Ht'. destruct (decide (t = t')) as [<-|].
    + rewrite lookup_insert_eq. by eexists.
    + rewrite lookup_insert_ne by done. by eapply ml_queue0.
  - destruct ml_rings0 as [H1 H2]. constructor.
    + intros t' l' [[<- <-]|[Hne Hl']]%lookup_insert_Some.
      * exists r'. by rewrite lookup_insert_eq.
      * destruct (H1 t' l' Hl') as (r0 & HR0 & Hr0). exists r0. rewrite lookup_insert_ne by done.
        split; [done|]. eapply ring_frame; [done| |done].
        intros m' Hm' Hin. by eapply (H2 t' t); [..|apply Hsub].
    + intros t1 t2 k1 k2 m' [[<- <-]|[Hne1 Hl1]]%lookup_insert_Some
        [[<- <-]|[Hne2 Hl2]]%lookup_insert_Some Hne; [done| | |by eapply H2].
      * intros Hin%Hsub. by eapply (H2 t t2).
      * intros Hin Hin2%Hsub. by eapply (H2 t1 t).
  - intros m' Hm'. apply (lf_node _ _ _ Hf). by apply ml_nodes0.
  - intros t' l' [[<- <-]|[Hne Hl']]%lookup_insert_Some; [|by eapply ml_small0].
    rewrite Forall_forall. intros x Hx%Hsub. pose proof (ml_small0 t _ Hl) as Hs.
    rewrite Forall_forall in Hs. by apply Hs.
Qed.

(** Taking an unlocked mutex. *)
Lemma take_ok s A cur m a :
  mrel s A -> a_mx A !! m = Some a -> a_owner a = NULL -> is_Some (a_held A !! cur) -> unheld A m ->
  exists s', mutex_take cur m s = Some (tt, s') /\
    mrel s' (a_add (a_set A m (AM (a_fair a) (Some cur) 1 (a_queue a))) cur m) /\
    x_park s' = x_park s.
Proof.
  intros Hr Hm Ho Hc Hun. destruct (ml_mx _ _ Hr m a Hm) as (x & Hx & Hok).
  destruct (ok_flags _ _ _ Hok) as (_ & _ & _ & Hset & _). unfold mutex_take. do 2 xstep.
  rewrite (Hset cur).
  set (x' := Mutex (mx_bits (a_fair a) (Some cur)) (Some cur) 1 (mx_waitq x)).
  set (a' := AM (a_fair a) (Some cur) 1 (a_queue a)).
  assert (Hok' : mx_ok (k_next (x_park s)) x' a').
  { constructor; simpl; [done|done|done|apply Hok|by split|lia]. }
  assert (Hr1 : mrel (Mxs (x_park s) (<[m := x']> (x_mutex s)) (x_nodes s) (x_rings s)) (a_set A m a')).
  { eapply (mrel_upd s A m a _ _ _ [] []); [done|done|apply pframe_refl|done|].
    intros t [Ht|Ht]; [by apply not_elem_of_nil in Ht|]. split; [by eapply (ml_queue _ _ Hr m a)|].
    intros m' b Hne Hb. by eapply (ml_sep _ _ Hr m m'). }
  destruct (held_append _ _ cur m Hr1) as (s' & E & Hr' & Hp & _); [done| |done|].
  - simpl. rewrite lookup_insert_eq. by eexists.
  - exists s'. by split_and!.
Qed.

(** Entering the queue. *)
Lemma enqueue_ok s A cur m a ev :
  mrel s A -> a_mx A !! m = Some a -> is_Some (a_held A !! cur) ->
  (forall m' b, a_mx A !! m' = Some b -> cur ∉ a_queue b) ->
  exists s', mutex_enqueue cur m ev s = Some (tt, s') /\
    mrel s' (a_set A m (AM (a_fair a) (a_owner a) (a_count a) (a_queue a ++ [cur]))) /\
    pframe (cur :: a_queue a) [] (x_park s) (x_park s').
Proof.
  intros Hr Hm Hc Hq. destruct (ml_mx _ _ Hr m a Hm) as (x & Hx & Hok).
  destruct (ml_threads _ _ Hr cur Hc) as [Hn [v Hv]].
  unfold mutex_enqueue. erewrite st_bind_Some by (apply x_park_eq; by eapply wr_wqevent_eq).
  erewrite st_bind_Some by (by eapply rd_mutex_eq).
  destruct (waitq_append_ok (k_next (x_park s)) (mx_waitq x) (a_queue a) cur) as (h' & q' & E & Hq' & Hf);
    [apply Hok|done|by eapply Hq|].
  set (p1 := Park (k_next (x_park s)) (<[cur := ev]> (k_event (x_park s))) (k_wakes (x_park s))).
  erewrite st_bind_Some by (apply x_park_eq, on_wq_eq; exact E).
  eexists. split; [reflexivity|]. simpl x_park.
  assert (Hpf : pframe (cur :: a_queue a) [] (x_park s) (Park h' (k_event p1) (k_wakes p1))).
  { apply (pframe_trans _ [] [] _ p1); [apply pframe_event; [by left|by eexists]|by apply (pframe_wq _ p1)]. }
  split; [|exact Hpf].
  eapply (mrel_upd s A m a _ _ _ (cur :: a_queue a) []); [done|done|exact Hpf| |].
  - destruct Hok. by constructor.
  - assert (forall t, t ∈ cur :: a_queue a \/ t ∈ a_queue a ++ [cur] -> t = cur \/ t ∈ a_queue a) as Ht.
    { clear. intros t. rewrite elem_of_app, elem_of_cons, list_elem_of_singleton. tauto. }
    intros t [->|Hin]%Ht; split; [done|intros m' b _; by apply Hq|by eapply ml_queue|].
    intros m' b Hne Hb. by eapply (ml_sep _ _ Hr m m').
Qed.

(** Leaving the queue. *)
Lemma unqueue_ok s A cur m a :
  mrel s A -> a_mx A !! m = Some a ->
  exists s', mutex_unqueue cur m s = Some (tt, s') /\
    mrel s' (a_set A m (AM (a_fair a) (a_owner a) (a_count a) (filter (fun t => t <> cur) (a_queue a)))) /\
    pframe (a_queue a) [] (x_park s) (x_park s').
Proof.
  intros Hr Hm. destruct (ml_mx _ _ Hr m a Hm) as (x & Hx & Hok). unfold mutex_unqueue. xstep.
  destruct (waitq_remove_ok _ _ _ cur (mo_queue _ _ _ Hok)) as (h' & q' & E & Hq' & Hf & _). xstep.
  eexists. split; [reflexivity|].
  assert (Hpf : pframe (a_queue a) [] (x_park s) (Park h' (k_event (x_park s)) (k_wakes (x_park s))))
    by (by apply pframe_wq).
  split; [|exact Hpf]. eapply (mrel_upd s A m a _ _ _ (a_queue a) []); [done|done|exact Hpf| |].
  - destruct Hok. by constructor.
  - assert (forall t, t ∈ a_queue a \/ t ∈ filter (fun t => t <> cur) (a_queue a) -> t ∈ a_queue a) as Ht.
    { intros t [|Hin]; [done|]. by apply list_elem_of_filter in Hin as [_ ?]. }
    intros t Hin%Ht; split; [by eapply ml_queue|].
    intros m' b Hne Hb. by eapply (ml_sep _ _ Hr m m').
Qed.

(** ** The operations on abstract mutexes

    Each gives the result, the new state and the threads that are woken. *)

Definition a_take (A : ast) (cur m : addr) (a : amutex) : ast :=
  a_add (a_set A m (AM (a_fair a) (Some cur) 1 (a_queue a))) cur m.
Definition a_enqueue (A : ast) (cur m : addr) (a : amutex) : ast :=
  a_set A m (AM (a_fair a) (a_owner a) (a_count a) (a_queue a ++ [cur])).
Definition a_unqueue (A : ast) (cur m : addr) (a : amutex) : ast :=
  a_set A m (AM (a_fair a) (a_owner a) (a_count a) (without cur (a_queue a))).

Definition sp_acquire (A : ast) (cur m : addr) (a : amutex) (tryonly : bool) : outcome * ast :=
  if bool_decide (a_owner a = NULL) then (Done (ok true), a_take A cur m a)
  else if bool_decide (a_owner a = Some cur)
  then (Done (ok true), a_set A m (AM (a_fair a) (a_owner a) (a_count a + 1) (a_queue a)))
  else if tryonly then (Done (pth_error false EBUSY), A)
  else (Blocked, a_enqueue A cur m a).

Definition sp_resume (A : ast) (cur m : addr) (a : amutex) (interrupted : bool) : outcome * ast :=
  if bool_decide (a_owner a = Some cur) then (Done (ok true), a_add A cur m)
  else
    let a1 := AM (a_fair a) (a_owner a) (a_count a) (without cur (a_queue a)) in
    if interrupted then (Done (pth_error false EINTR), a_set A m a1)
    else if bool_decide (a_owner a = NULL) then (Done (ok true), a_take (a_set A m a1) cur m a1)
    else (Blocked, a_enqueue (a_set A m a1) cur m a1).

(** What a release does to the mutex: under the fair policy the first waiter
    becomes the owner, otherwise the mutex is unlocked; the first waiter is
    woken in both cases. *)
Definition handoff (a : amutex) : amutex :=
  match a_queue a with
  | w :: q => if a_fair a then AM true (Some w) 1 q else AM false NULL 0 q
  | [] => AM (a_fair a) NULL 0 []
  end.

Definition sp_release (A : ast) (cur m : addr) (a : amutex)
  : (bool * option errno) * ast * list addr :=
  if bool_decide (a_owner a = NULL) then (pth_error false EDEADLK, A, [])
  else if negb (bool_decide (a_owner a = Some cur)) then (pth_error false EACCES, A, [])
  else if a_count a =? 1
  then (ok true, a_remove (a_set A m (handoff a)) cur m, option_list (head (a_queue a)))
  else (ok true, a_set A m (AM (a_fair a) (a_owner a) (a_count a - 1) (a_queue a)), []).

Definition sp_cleanup (A : ast) (cur m : addr) (a : amutex) : ast * list addr :=
  if bool_decide (a_owner a = Some cur)
  then (a_set A m (match a_queue a with
                   | w :: q => AM (a_fair a) (Some w) 1 q
                   | [] => AM (a_fair a) NULL 0 [] end), option_list (head (a_queue a)))
  else (a_unqueue A cur m a, []).

(** The threads whose fields an operation on [m] may write. *)
Definition touched (cur : addr) (a : amutex) : list addr := cur :: a_queue a.

Lemma acquire_refines s A cur m a tryonly ev :
  mrel s A -> a_mx A !! m = Some a -> is_Some (a_held A !! cur) ->
  (forall m' b, a_mx A !! m' = Some b -> cur ∉ a_queue b) ->
  (a_owner a = NULL -> unheld A m) -> (a_owner a = Some cur -> a_count a + 1 < 2 ^ 64) ->
  exists s', pth_mutex_acquire cur (Some m) tryonly ev s = Some ((sp_acquire A cur m a tryonly).1, s') /\
    mrel s' (sp_acquire A cur m a tryonly).2 /\ pframe (touched cur a) [] (x_park s) (x_park s').
Proof.
  intros Hr Hm Hc Hq Hun Hov. destruct (ml_mx _ _ Hr m a Hm) as (x & Hx & Hok).
  destruct (ok_flags _ _ _ Hok) as (Hf1 & Hf2 & _). unfold pth_mutex_acquire, sp_acquire. xstep.
  rewrite Hf1, Hf2. cbn [negb]. bcase (a_owner a = NULL) Ho.
  { destruct (take_ok s A cur m a) as (s' & E & Hr' & Hp); [by auto..|]. xstep.
    exists s'. split_and!; [done|done|]. rewrite Hp. apply pframe_refl. }
  rewrite (mo_owner _ _ _ Hok), (mo_count _ _ _ Hok).
  assert (Hcount : (a_count a >=? 1) = true).
  { destruct Hok. assert (a_count a <> 0) by tauto. lia. }
  rewrite Hcount. cbn [andb]. bcase (a_owner a = Some cur) Hown.
  { specialize (Hov Hown). xstep. eexists. split; [reflexivity|]. split; [|apply pframe_refl].
    eapply (mrel_upd s A m a _ _ _ [] []); [done|done|apply pframe_refl| |].
    - destruct Hok. constructor; simpl; try done; [|split; [done|lia]|lia].
      rewrite u64_small by lia. done.
    - intros t [Ht|Ht]; [by apply not_elem_of_nil in Ht|]. split; [by eapply (ml_queue _ _ Hr m a)|].
      intros m' b Hne Hb. by eapply (ml_sep _ _ Hr m m'). }
  destruct tryonly.
  { eexists. split; [reflexivity|]. split; [done|apply pframe_refl]. }
  destruct (enqueue_ok s A cur m a ev) as (s' & E & Hr' & Hp); [done..|]. xstep.
  exists s'. by split_and!.
Qed.

Lemma resume_refines s A cur m a extra pending ev :
  mrel s A -> a_mx A !! m = Some a -> is_Some (a_held A !! cur) ->
  (forall m' b, m' <> m -> a_mx A !! m' = Some b -> cur ∉ a_queue b) ->
  (a_owner a = NULL \/ a_owner a = Some cur -> unheld A m) ->
  exists s', mutex_resume cur m extra pending ev s = Some ((sp_resume A cur m a (extra && pending)).1, s') /\
    mrel s' (sp_resume A cur m a (extra && pending)).2 /\
    pframe (touched cur a) [] (x_park s) (x_park s').
Proof.
  intros Hr Hm Hc Hq Hun. destruct (ml_mx _ _ Hr m a Hm) as (x & Hx & Hok).
  unfold mutex_resume, sp_resume. xstep. rewrite (mo_owner _ _ _ Hok).
  bcase (a_owner a = Some cur) Hown.
  { destruct (held_append s A cur m) as (s' & E & Hr' & Hp & _); [done..|by eexists|auto|]. xstep.
    exists s'. split_and!; [done|done|]. rewrite Hp. apply pframe_refl. }
  destruct (unqueue_ok s A cur m a Hr Hm) as (s1 & E1 & Hr1 & Hp1). xstep.
  assert (Hp1' : pframe (touched cur a) [] (x_park s) (x_park s1)).
  { eapply pframe_sub; [exact Hp1|]. intros t Ht. by right. }
  destruct (extra && pending); [by exists s1|].
  set (a1 := AM (a_fair a) (a_owner a) (a_count a) (without cur (a_queue a))) in *.
  assert (Hm1 : a_mx (a_set A m a1) !! m = Some a1) by (simpl; by rewrite lookup_insert_eq).
  destruct (ml_mx _ _ Hr1 m a1 Hm1) as (x1 & Hx1 & Hok1).
  destruct (ok_flags _ _ _ Hok1) as (_ & Hf2 & _). xstep. rewrite Hf2. cbn [a_owner a1].
  bcase (a_owner a = NULL) Ho.
  - destruct (take_ok s1 (a_set A m a1) cur m a1) as (s' & E & Hr' & Hp);
      [done|done|done|done|apply Hun; by left|]. xstep.
    exists s'. split_and!; [done|done|]. by rewrite Hp.
  - destruct (enqueue_ok s1 (a_set A m a1) cur m a1 ev) as (s' & E & Hr' & Hp); [done|done|done| |].
    { intros m' b Hb. simpl in Hb. apply lookup_insert_Some in Hb as [[<- <-]|[Hne Hb]]; [|by eapply Hq].
      simpl. unfold without. rewrite list_elem_of_filter. tauto. }
    xstep. exists s'. split_and!; [done|done|]. apply (pframe_trans _ [] [] _ _ _ Hp1').
    eapply pframe_sub; [exact Hp|]. intros t [->|Ht]%elem_of_cons; [by left|].
    right. unfold a1, without in Ht. simpl in Ht. by apply list_elem_of_filter in Ht as [_ ?].
Qed.

(** The queue without its first thread, and the mutex set to [a']. *)
Lemma shift_ok s A m a x o' c' bits :
  mrel s A -> a_mx A !! m = Some a -> x_mutex s !! m = Some x -> mx_ok (k_next (x_park s)) x a ->
  bits = mx_bits (a_fair a) o' -> (o' = NULL <-> c' = 0) -> 0 <= c' < 2 ^ 64 ->
  exists q' p', on_park (on_wq (pth_waitq_shift (mx_waitq x))) s
      = Some ((head (a_queue a), q'), Mxs p' (x_mutex s) (x_nodes s) (x_rings s)) /\
    mrel (Mxs p' (<[m := Mutex bits o' c' q']> (x_mutex s)) (x_nodes s) (x_rings s))
         (a_set A m (AM (a_fair a) o' c' (tail (a_queue a)))) /\
    pframe (a_queue a) [] (x_park s) p'.
Proof.
  intros Hr Hm Hx Hok -> Hfree Hc.
  destruct (waitq_shift_ok _ _ _ (mo_queue _ _ _ Hok)) as (h' & q' & E & Hq' & Hf).
  exists q', (Park h' (k_event (x_park s)) (k_wakes (x_park s))).
  split; [by apply x_park_eq, on_wq_eq|].
  assert (Hpf : pframe (a_queue a) [] (x_park s) (Park h' (k_event (x_park s)) (k_wakes (x_park s)))).
  { eapply pframe_sub; [by apply pframe_wq|]. intros t. destruct (a_queue a); simpl; [done|].
    intros ->%list_elem_of_singleton. by left. }
  split; [|exact Hpf].
  eapply (mrel_upd s A m a _ _ _ (a_queue a) []); [done|done|exact Hpf|by constructor|].
  assert (forall t, t ∈ a_queue a \/ t ∈ tail (a_queue a) -> t ∈ a_queue a) as Ht.
  { clear. intros t [?|Hin]; [done|]. destruct (a_queue a); [done|by right]. }
  simpl. intros t Hin%Ht. split; [by eapply (ml_queue _ _ Hr m a)|].
  intros m' b Hne Hb. by eapply (ml_sep _ _ Hr m m').
Qed.

(** Waking the first waiter, if there is one. *)
Lemma wake_ok s A w S :
  mrel s A -> (forall t, w = Some t -> is_Some (a_held A !! t)) ->
  exists s', (if bool_decide (w <> NULL) then on_park (pth_gsched_wake_waiter w) else mret tt) s = Some (tt, s') /\
    (w <> NULL -> on_park (pth_gsched_wake_waiter w) s = Some (tt, s')) /\
    mrel s' A /\ pframe S (option_list w) (x_park s) (x_park s').
Proof.
  intros Hr Hw. destruct w as [t|]; simpl option_list.
  - destruct (ml_threads _ _ Hr t (Hw t eq_refl)) as [_ [ev Hev]].
    rewrite bool_decide_eq_true_2 by done.
    eexists. split; [by apply x_park_eq, wake_eq|]. split; [intros _; by apply x_park_eq, wake_eq|].
    split; [|apply pframe_wake]. destruct Hr. by constructor.
  - rewrite bool_decide_eq_false_2 by (intros H; by apply H).
    exists s. split_and!; [done|intros H; by destruct H|done|apply pframe_refl].
Qed.

Lemma u64_pred c : 0 < c < 2 ^ 64 -> u64 (c - 1) = c - 1.
Proof. intros. apply u64_small. lia. Qed.

(** The last release: the mutex is handed over or unlocked, taken out of the
    ring of its owner, and the first waiter is woken. *)
Lemma release_last s A cur m a x l o' c' bits :
  mrel s A -> a_mx A !! m = Some a -> x_mutex s !! m = Some x -> mx_ok (k_next (x_park s)) x a ->
  a_held A !! cur = Some l -> m ∈ l ->
  bits = mx_bits (a_fair a) o' -> (o' = NULL <-> c' = 0) -> 0 <= c' < 2 ^ 64 ->
  exists q' s1 s2 s', on_park (on_wq (pth_waitq_shift (mx_waitq x))) s = Some ((head (a_queue a), q'), s1) /\
    mutexring_delete cur m (Mxs (x_park s1) (<[m := Mutex bits o' c' q']> (x_mutex s1))
                               (x_nodes s1) (x_rings s1)) = Some (tt, s2) /\
    (if bool_decide (head (a_queue a) <> NULL)
     then on_park (pth_gsched_wake_waiter (head (a_queue a))) else mret tt) s2 = Some (tt, s') /\
    mrel s' (a_remove (a_set A m (AM (a_fair a) o' c' (tail (a_queue a)))) cur m) /\
    pframe (a_queue a) (option_list (head (a_queue a))) (x_park s) (x_park s').
Proof.
  intros Hr Hm Hx Hok Hl Hin Hb Hfree Hc.
  destruct (shift_ok s A m a x o' c' bits) as (q' & p' & E1 & Hr1 & Hp1); [done..|].
  destruct (held_remove _ _ cur m l Hr1) as (s2 & E2 & Hr2 & Hpk & _); [done..|].
  destruct (wake_ok s2 _ (head (a_queue a)) (a_queue a) Hr2) as (s' & E3 & _ & Hr3 & Hp3).
  { intros t Ht. assert (t ∈ a_queue a) as Htin by by apply head_Some_elem_of.
    destruct (ml_queue _ _ Hr m a t Hm Htin) as [k0 Hk]. simpl.
    destruct (decide (cur = t)) as [->|];
      [rewrite lookup_insert_eq|rewrite lookup_insert_ne by done]; by eexists. }
  eexists q', _, s2, s'. split_and!; [done|exact E2|done|done|].
  rewrite Hpk in Hp3. apply (pframe_trans _ [] _ _ _ _ Hp1 Hp3).
Qed.

Lemma release_refines s A cur m a l :
  mrel s A -> a_mx A !! m = Some a -> a_held A !! cur = Some l ->
  (a_owner a = Some cur -> m ∈ l) ->
  exists s', pth_mutex_release cur (Some m) s = Some ((sp_release A cur m a).1.1, s') /\
    mrel s' (sp_release A cur m a).1.2 /\
    pframe (a_queue a) (sp_release A cur m a).2 (x_park s) (x_park s').
Proof.
  intros Hr Hm Hl Hin. destruct (ml_mx _ _ Hr m a Hm) as (x & Hx & Hok).
  destruct (ok_flags _ _ _ Hok) as (Hf1 & Hf2 & Hf3 & _ & Hclr).
  unfold pth_mutex_release, sp_release. xstep. rewrite Hf1, Hf2. cbn [negb].
  bcase (a_owner a = NULL) Ho.
  { exists s. split_and!; [done|done|apply pframe_refl]. }
  rewrite (mo_owner _ _ _ Hok), (mo_count _ _ _ Hok). bcase (a_owner a = Some cur) Hown.
  2:{ exists s. split_and!; [done|done|apply pframe_refl]. }
  specialize (Hin Hown). assert (Hpos : 0 < a_count a < 2 ^ 64).
  { destruct Hok. assert (a_count a <> 0) by tauto. lia. }
  rewrite u64_pred by done. cbv zeta. destruct (Z.eqb_spec (a_count a) 1) as [H1|H1].
  - replace (a_count a - 1 <=? 0) with true by lia. rewrite Hf3. cbn [fst snd].
    assert (Hbits : mx_state x = mx_bits (a_fair a) (Some cur)) by (rewrite (mo_state _ _ _ Hok); by rewrite Hown).
    destruct (a_fair a && bool_decide (head (a_queue a) <> NULL)) eqn:Ecase.
    + apply andb_true_iff in Ecase as [Ef Eq]. apply bool_decide_eq_true in Eq.
      destruct (a_queue a) as [|w q] eqn:Equ; [done|].
      destruct (release_last s A cur m a x l (Some w) 1 (mx_state x))
        as (q' & s1 & s2 & s' & E1 & E2 & E3 & Hr' & Hp); [done..|by rewrite Hbits|done|lia|].
      rewrite Equ in *. rewrite (st_bind_Some _ _ _ _ _ E1). cbn [fst snd head] in *.
      rewrite bool_decide_eq_true_2 in * by done. rewrite Ef. cbn [andb].
      do 3 xstep.
      exists s'. split_and!; [done| |exact Hp]. unfold handoff. by rewrite Equ, Ef in *.
    + destruct (release_last s A cur m a x l NULL 0 (mx_clear x PTH_MUTEX_LOCKED))
        as (q' & s1 & s2 & s' & E1 & E2 & E3 & Hr' & Hp); [done..|lia|].
      rewrite (st_bind_Some _ _ _ _ _ E1). cbn [fst snd].
      assert (Hif : bool_decide (head (a_queue a) <> NULL) && a_fair a = false) by (by rewrite andb_comm).
      rewrite Hif. do 3 xstep.
      exists s'. split_and!; [done| |exact Hp]. unfold handoff.
      destruct (a_queue a) as [|w q]; [by destruct (a_fair a)|].
      destruct (a_fair a); [by rewrite bool_decide_eq_true_2 in Ecase|done].
  - replace (a_count a - 1 <=? 0) with false by lia. xstep. eexists. split; [reflexivity|].
    split; [|apply pframe_refl]. cbn [fst snd].
    eapply (mrel_upd s A m a _ _ _ [] []); [done|done|apply pframe_refl| |].
    + destruct Hok. constructor; simpl; try done; [split; [done|lia]|lia].
    + intros t [Ht|Ht]; [by apply not_elem_of_nil in Ht|]. split; [by eapply (ml_queue _ _ Hr m a)|].
      intros m' b Hne Hb. by eapply (ml_sep _ _ Hr m m').
Qed.

Lemma cleanup_refines s A cur m a :
  mrel s A -> a_mx A !! m = Some a ->
  exists s', pth_mutex_wait_cleanup cur m s = Some (tt, s') /\
    mrel s' (sp_cleanup A cur m a).1 /\
    pframe (a_queue a) (sp_cleanup A cur m a).2 (x_park s) (x_park s').
Proof.
  intros Hr Hm. destruct (ml_mx _ _ Hr m a Hm) as (x & Hx & Hok).
  destruct (ok_flags _ _ _ Hok) as (_ & _ & _ & _ & Hclr).
  unfold pth_mutex_wait_cleanup, sp_cleanup. xstep. rewrite (mo_owner _ _ _ Hok).
  bcase (a_owner a = Some cur) Hown.
  2:{ destruct (unqueue_ok s A cur m a Hr Hm) as (s' & E & Hr' & Hp). exists s'. by split_and!. }
  assert (Hbits : mx_state x = mx_bits (a_fair a) (Some cur)) by (rewrite (mo_state _ _ _ Hok); by rewrite Hown).
  destruct (a_queue a) as [|w q] eqn:Eq.
  - destruct (shift_ok s A m a x NULL 0 (mx_clear x PTH_MUTEX_LOCKED)) as (q' & p' & E1 & Hr1 & Hp1);
      [done..|lia|]. rewrite Eq in *. rewrite (st_bind_Some _ _ _ _ _ E1). cbn [fst snd head].
    eexists. split; [reflexivity|]. by split.
  - destruct (shift_ok s A m a x (Some w) 1 (mx_state x)) as (q' & p' & E1 & Hr1 & Hp1);
      [done..|by rewrite Hbits|done|lia|]. rewrite Eq in *. rewrite (st_bind_Some _ _ _ _ _ E1).
    cbn [fst snd head tail] in *. xstep.
    destruct (wake_ok _ _ (Some w) (w :: q) Hr1) as (s' & _ & E3 & Hr3 & Hp3).
    { intros t [= ->]. eapply (ml_queue _ _ Hr m a t Hm). rewrite Eq. by left. }
    exists s'. split; [by apply E3|]. split; [exact Hr3|].
    apply (pframe_trans _ [] _ _ _ _ Hp1 Hp3).
Qed.

(** The mutex operations of a thread do what they promise on every
    branch. [pth_mutex_acquire] takes a free mutex, counts a recursive
    acquisition by the owner, fails with [EBUSY] when it must not wait and
    otherwise parks the thread at the end of the queue; [pth_mutex_release]
    fails with [EDEADLK] on a free mutex and [EACCES] for a thread that is not
    the owner, undoes a recursive acquisition, and on the last release hands
    the mutex to the first waiter (fair policy) or unlocks it (default),
    waking that waiter and no other. All pointers followed are valid and only
    the queue of this mutex is written. *)
Lemma mutex_ops_correct s A cur m a l tryonly ev :
  mrel s A -> a_mx A !! m = Some a -> a_held A !! cur = Some l ->
  (forall m' b, a_mx A !! m' = Some b -> cur ∉ a_queue b) ->
  (a_owner a = NULL -> unheld A m) -> (a_owner a = Some cur -> m ∈ l) ->
  (a_owner a = Some cur -> a_count a + 1 < 2 ^ 64) ->
  (exists s', pth_mutex_acquire cur (Some m) tryonly ev s = Some ((sp_acquire A cur m a tryonly).1, s') /\
     mrel s' (sp_acquire A cur m a tryonly).2 /\ pframe (touched cur a) [] (x_park s) (x_park s')) /\
  (exists s', pth_mutex_release cur (Some m) s = Some ((sp_release A cur m a).1.1, s') /\
     mrel s' (sp_release A cur m a).1.2 /\
     pframe (a_queue a) (sp_release A cur m a).2 (x_park s) (x_park s')).
Proof.
  intros Hr Hm Hl Hq Hun Hin Hc. split.
  - apply acquire_refines; done.
  - by eapply release_refines.
Qed.

(** Mutex 9, fair, is held once by thread 1, and threads 2 and 3 wait. *)
Definition demo_mxs : mxs :=
  Mxs (Park {[ 1%positive := NULL; 2%positive := Some 3%positive; 3%positive := NULL; 4%positive := NULL ]}
            {[ 1%positive := NULL; 2%positive := Some 20%positive; 3%positive := Some 30%positive;
               4%positive := NULL ]} [])
      {[ 9%positive := Mutex 7 (Some 1%positive) 1 (Waitq (Some 2%positive) (Some 3%positive)) ]}
      (Dll {[ 9%positive := Some 9%positive ]} {[ 9%positive := Some 9%positive ]})
      {[ 1%positive := Ring (Some 9%positive) 1; 2%positive := Ring NULL 0;
         3%positive := Ring NULL 0; 4%positive := Ring NULL 0 ]}.
Definition demo_amutex : amutex := AM true (Some 1%positive) 1 [2%positive; 3%positive].
Definition demo_ast : ast :=
  Ast {[ 9%positive := demo_amutex ]}
      {[ 1%positive := [9%positive]; 2%positive := []; 3%positive := []; 4%positive := [] ]}.

Lemma demo_held t l : a_held demo_ast !! t = Some l ->
  (t = 1%positive /\ l = [9%positive]) \/ (l = [] /\ (t = 2%positive \/ t = 3%positive \/ t = 4%positive)).
Proof.
  simpl. intros [[<- <-]|[_ H]]%lookup_insert_Some; [by left|].
  apply lookup_insert_Some in H as [[<- <-]|[_ H]]; [by auto|].
  apply lookup_insert_Some in H as [[<- <-]|[_ H]]; [by auto|].
  apply lookup_singleton_Some in H as [<- <-]. auto 10.
Qed.

Lemma demo_mrel : mrel demo_mxs demo_ast.
Proof.
  constructor.
  - intros m a Ha. single Ha. eexists. split; [reflexivity|].
    constructor; simpl; [done|done|done| |by split|lia].
    constructor; [done|done|by apply (bool_decide_unpack _)|by vm_compute].
  - intros t [l Hl]. apply demo_held in Hl as [[-> _]|[_ [->|[->| ->]]]]; split; by eexists.
  - intros m a t Ha. single Ha. simpl.
    intros [->|[->|Ht]%elem_of_cons]%elem_of_cons; [by eexists|by eexists|by apply not_elem_of_nil in Ht].
  - intros m m' a a' t Ha Ha'. single Ha. by single Ha'.
  - constructor.
    + intros t l Hl. apply demo_held in Hl as [[-> ->]|[-> [->|[->| ->]]]];
        (eexists; split; [reflexivity|]); [|by apply ring_empty..].
      constructor; [done|done|apply NoDup_singleton|by vm_compute|simpl; lia].
    + intros t t' l l' m Hl Hl' Hne Hm. apply demo_held in Hl as [[-> ->]|[-> _]].
      * apply demo_held in Hl' as [[-> _]|[-> _]]; [done|apply not_elem_of_nil].
      * by apply not_elem_of_nil in Hm.
  - intros m [a Ha]. single Ha. split; by eexists.
  - intros t l Hl. apply demo_held in Hl as [[-> ->]|[-> _]]; [|constructor].
    constructor; [by eexists|constructor].
  - vm_compute. done.
Qed.

Lemma mutex_ops_correct_witness :
  (exists s', pth_mutex_acquire 1 (Some 9%positive) true NULL demo_mxs
      = Some ((sp_acquire demo_ast 1 9 demo_amutex true).1, s') /\
     mrel s' (sp_acquire demo_ast 1 9 demo_amutex true).2 /\
     pframe (touched 1 demo_amutex) [] (x_park demo_mxs) (x_park s')) /\
  (exists s', pth_mutex_release 1 (Some 9%positive) demo_mxs = Some (ok true, s') /\
     mrel s' (sp_release demo_ast 1 9 demo_amutex).1.2 /\
     pframe [2%positive; 3%positive] [2%positive] (x_park demo_mxs) (x_park s')).
Proof.
  apply (mutex_ops_correct demo_mxs demo_ast 1 9 demo_amutex [9%positive] true NULL).
  - apply demo_mrel.
  - reflexivity.
  - reflexivity.
  - intros m' b Hb. single Hb. by apply (bool_decide_unpack _).
  - done.
  - intros _. by left.
  - simpl. lia.
Defined.
