(* ===== verification/MutexSys.v ===== *)
(** * Threads contending for mutexes

    The interleavings of the mutex operations of all threads, on any number
    of schedulers: a thread that is not waiting acquires or releases a mutex;
    a waiting thread resumes when it was woken, or because its extra event
    occurred, or is cancelled. [reach] is reachability by such steps, and the
    invariant [inv] relates the mutexes to what the threads were told. *)

From stdpp Require Import base numbers gmap list.
From S2P Require Import Prelude Links Ring Waitq Mutex.
Open Scope Z_scope.

(** [c_phase]: the mutex in whose [pth_wait] a thread is; [c_hold]: how often
    a thread was told that it has acquired a mutex, less its releases;
    [c_woken]: the threads with a wakeup on its way. *)
Record cfg := Cfg {
  c_s : mxs;
  c_phase : gmap addr addr;
  c_hold : gmap (addr * addr) Z;
  c_woken : list addr
}.

Definition hold (c : cfg) (t m : addr) : Z := default 0 (c_hold c !! (t, m)).
Definition add_hold (n : Z) (t m : addr) (h : gmap (addr * addr) Z) : gmap (addr * addr) Z :=
  <[(t, m) := default 0 (h !! (t, m)) + n]> h.

(** The wakeups sent between two states. *)
Definition new_wakes (s s' : mxs) : list addr :=
  drop (length (k_wakes (x_park s))) (k_wakes (x_park s')).*1.

(** The phase and the holds after an acquisition by [t] gave [r]. *)
Definition phase_after (t m : addr) (r : outcome) (ph : gmap addr addr) : gmap addr addr :=
  match r with Blocked => <[t := m]> ph | Done _ => delete t ph end.
Definition hold_after (t m : addr) (r : outcome) (h : gmap (addr * addr) Z) : gmap (addr * addr) Z :=
  match r with Done (true, _) => add_hold 1 t m h | _ => h end.
Definition after_acquire (c : cfg) (t m : addr) (r : outcome) (s' : mxs) : cfg :=
  Cfg s' (phase_after t m r (c_phase c)) (hold_after t m r (c_hold c)) (without t (c_woken c)).

Section system.
Context (threads mutexes : list addr).

(** [plain]: no extra events and no cancellation. *)
Inductive mstep (plain : bool) (c : cfg) : cfg -> Prop :=
| step_acquire t m tryonly ev r s' :
    t ∈ threads -> m ∈ mutexes -> c_phase c !! t = None -> hold c t m + 1 < 2 ^ 64 ->
    pth_mutex_acquire t (Some m) tryonly ev (c_s c) = Some (r, s') ->
    mstep plain c (after_acquire c t m r s')
| step_resume t m extra pending ev r s' :
    c_phase c !! t = Some m -> (if plain then extra = false else True) ->
    (if extra && pending then True else t ∈ c_woken c) ->
    mutex_resume t m extra pending ev (c_s c) = Some (r, s') ->
    mstep plain c (after_acquire c t m r s')
| step_release t m r s' :
    t ∈ threads -> m ∈ mutexes -> c_phase c !! t = None ->
    pth_mutex_release t (Some m) (c_s c) = Some (r, s') ->
    mstep plain c (Cfg s' (c_phase c) (if r.1 then add_hold (-1) t m (c_hold c) else c_hold c)
                       (c_woken c ++ new_wakes (c_s c) s'))
| step_cancel t m s' :
    plain = false -> c_phase c !! t = Some m ->
    pth_mutex_wait_cleanup t m (c_s c) = Some (tt, s') ->
    mstep plain c (Cfg s' (delete t (c_phase c)) (c_hold c)
                       (without t (c_woken c) ++ new_wakes (c_s c) s')).

(** The owner [t] of [m] knows that it has it: it is not waiting for the
    handoff any more. *)
Definition owns (ph : gmap addr addr) (t m : addr) (a : amutex) : Prop :=
  a_owner a = Some t /\ ph !! t <> Some m.

(** What holds of one mutex: waiters are in its wait and do not own it; an
    owner's count is what it was told; it is in the ring of its owner only; a
    thread that was handed the mutex has a count of one; whoever left the
    queue without having resumed has a wakeup on its way; a free fair mutex
    has no waiters. *)
Record linv (m : addr) (a : amutex) (ph : gmap addr addr) (h : gmap (addr * addr) Z)
    (H : gmap addr (list addr)) (wk : list addr) : Prop := {
  li_queue : forall t, t ∈ a_queue a -> ph !! t = Some m /\ a_owner a <> Some t;
  li_own : forall t, owns ph t m a -> default 0 (h !! (t, m)) = a_count a;
  li_other : forall t, ~ owns ph t m a -> default 0 (h !! (t, m)) = 0;
  li_ring : forall t l, H !! t = Some l -> (m ∈ l <-> owns ph t m a);
  li_handoff : forall t, a_owner a = Some t -> ph !! t = Some m -> a_count a = 1;
  li_woken : forall t, ph !! t = Some m -> t ∉ a_queue a -> t ∈ wk;
  li_fair : a_fair a = true -> a_owner a = NULL -> a_queue a = []
}.

Record ainv (A : ast) (ph : gmap addr addr) (h : gmap (addr * addr) Z) (wk : list addr) : Prop := {
  ai_threads : forall t, t ∈ threads -> is_Some (a_held A !! t);
  ai_mutexes : forall m, m ∈ mutexes -> is_Some (a_mx A !! m);
  ai_phase : forall t m, ph !! t = Some m -> t ∈ threads /\ m ∈ mutexes;
  ai_local : forall m a, a_mx A !! m = Some a -> linv m a ph h (a_held A) wk
}.

(** Nobody sleeps in front of an unlocked mutex without a wakeup on its way
    to one of the threads that wait for it. *)
Definition no_lost_wakeup (A : ast) (ph : gmap addr addr) (wk : list addr) : Prop :=
  forall m a, a_mx A !! m = Some a -> a_owner a = NULL -> a_queue a <> [] ->
    exists t, ph !! t = Some m /\ t ∉ a_queue a /\ t ∈ wk.

Record inv (plain : bool) (c : cfg) (A : ast) : Prop := {
  iv_rel : mrel (c_s c) A;
  iv_inv : ainv A (c_phase c) (c_hold c) (c_woken c);
  iv_wake : plain = true -> no_lost_wakeup A (c_phase c) (c_woken c)
}.

Inductive reach (plain : bool) (c0 : cfg) : cfg -> Prop :=
| reach_init : reach plain c0 c0
| reach_step c c' : reach plain c0 c -> mstep plain c c' -> reach plain c0 c'.

Lemma inv_unheld A ph h wk m a :
  ainv A ph h wk -> a_mx A !! m = Some a -> (forall t, ~ owns ph t m a) -> unheld A m.
Proof.
  intros Hi Hm Hno t l Hl Hin. apply (Hno t). by apply (li_ring _ _ _ _ _ _ (ai_local _ _ _ _ Hi m a Hm) t l).
Qed.

(** The local invariant of a mutex an operation is not about. *)
Lemma linv_frame m a ph ph' h h' H H' wk wk' :
  linv m a ph h H wk ->
  (forall t, ph' !! t = Some m <-> ph !! t = Some m) ->
  (forall t, h' !! (t, m) = h !! (t, m)) ->
  (forall t l', H' !! t = Some l' -> exists l, H !! t = Some l /\ (m ∈ l' <-> m ∈ l)) ->
  (forall t, ph !! t = Some m -> t ∈ wk -> t ∈ wk') ->
  linv m a ph' h' H' wk'.
Proof.
  intros [H1 H2 H3 H4 H5 H6 H7] Hph Hh HH Hw.
  assert (Hown : forall t, owns ph' t m a <-> owns ph t m a) by (intros t; unfold owns; by rewrite Hph).
  constructor.
  - intros t Ht. rewrite Hph. by apply H1.
  - intros t Ht%Hown. rewrite Hh. by apply H2.
  - intros t Ht. rewrite Hh. apply H3. by rewrite <- Hown.
  - intros t l' Hl'. destruct (HH t l' Hl') as (l & Hl & Hm). rewrite Hm, Hown. by apply H4.
  - intros t Ho Ht%Hph. by eapply H5.
  - intros t Ht%Hph Hq. apply Hw; [done|]. by apply H6.
  - done.
Qed.

(** Threads that are in no wait are in no queue. *)
Lemma inv_no_queue A ph h wk t m a :
  ainv A ph h wk -> a_mx A !! m = Some a -> ph !! t <> Some m -> t ∉ a_queue a.
Proof.
  intros Hi Hm Hph Hin. apply Hph. by apply (li_queue _ _ _ _ _ _ (ai_local _ _ _ _ Hi m a Hm)).
Qed.

(** ** The steps preserve the invariant *)

Lemma add_hold_eq n t m h : default 0 (add_hold n t m h !! (t, m)) = default 0 (h !! (t, m)) + n.
Proof. unfold add_hold. by rewrite lookup_insert_eq. Qed.
Lemma add_hold_ne n t m h t' m' : (t', m') <> (t, m) -> add_hold n t m h !! (t', m') = h !! (t', m').
Proof. intros Hne. unfold add_hold. by rewrite lookup_insert_ne. Qed.

(** An operation of thread [t] on mutex [m]: the new state of [m] is [a'],
    the phase of [t] changes between running and waiting for [m]. *)
Lemma ainv_update A ph h wk t m a a' ph' h' H' wk' :
  ainv A ph h wk -> t ∈ threads -> m ∈ mutexes -> a_mx A !! m = Some a ->
  (forall t', t' <> t -> ph' !! t' = ph !! t') ->
  ph !! t = None \/ ph !! t = Some m -> ph' !! t = None \/ ph' !! t = Some m ->
  (forall t' m', m' <> m -> h' !! (t', m') = h !! (t', m')) ->
  (forall t' l', H' !! t' = Some l' -> exists l, a_held A !! t' = Some l /\
     (forall m', m' <> m -> m' ∈ l' <-> m' ∈ l)) ->
  (forall t', is_Some (a_held A !! t') -> is_Some (H' !! t')) ->
  (forall t', t' <> t -> t' ∈ wk -> t' ∈ wk') ->
  linv m a' ph' h' H' wk' ->
  ainv (Ast (<[m := a']> (a_mx A)) H') ph' h' wk'.
Proof.
  intros Hi Ht Hmm Hm Hph Hpt Hpt' Hh HH Hd Hw Hl.
  assert (Hph' : forall t' m', m' <> m -> ph' !! t' = Some m' <-> ph !! t' = Some m').
  { intros t' m' Hne. destruct (decide (t' = t)) as [->|]; [|by rewrite Hph].
    split; intros E; exfalso; [destruct Hpt'|destruct Hpt]; congruence. }
  constructor; simpl.
  - intros t' Ht'. apply Hd. by eapply ai_threads.
  - intros m' Hm'. destruct (decide (m = m')) as [<-|]; [rewrite lookup_insert_eq; by eexists|].
    rewrite lookup_insert_ne by done. by eapply ai_mutexes.
  - intros t' m' Hp. destruct (decide (m' = m)) as [->|Hne].
    + split; [|done]. destruct (decide (t' = t)) as [->|Hne']; [done|].
      rewrite Hph in Hp by done. by eapply (ai_phase _ _ _ _ Hi).
    + eapply (ai_phase _ _ _ _ Hi). by apply Hph'.
  - intros m' b [[<- <-]|[Hne Hb]]%lookup_insert_Some; [done|].
    eapply linv_frame; [by eapply (ai_local _ _ _ _ Hi)|..].
    + intros t'. by apply Hph'.
    + intros t'. by apply Hh.
    + intros t' l' Hl'. destruct (HH t' l' Hl') as (l & ? & Hin). exists l. split; [done|]. by apply Hin.
    + intros t' Hp Hin. apply Hw; [|done]. intros ->. destruct Hpt; congruence.
Qed.

(** Thread [t] takes the free mutex: [q'] is the queue without it. *)
Lemma linv_take m a ph ph' h H H' wk t q' :
  linv m a ph h H wk -> a_owner a = NULL ->
  (forall t', t' ∈ q' <-> t' <> t /\ t' ∈ a_queue a) ->
  (forall t', t' <> t -> ph' !! t' = ph !! t') -> ph' !! t = None ->
  (forall t' l', t' <> t -> H' !! t' = Some l' -> exists l, H !! t' = Some l /\ (m ∈ l' <-> m ∈ l)) ->
  (forall l', H' !! t = Some l' -> m ∈ l') ->
  linv m (AM (a_fair a) (Some t) 1 q') ph' (add_hold 1 t m h) H' (without t wk).
Proof.
  intros [H1 H2 H3 H4 H5 H6 H7] Ho Hq Hph Hpt HH HHt.
  assert (Hno : forall t', ~ owns ph t' m a) by (intros t' [E _]; congruence).
  constructor; simpl.
  - intros t' [Hne Hin]%Hq. rewrite Hph by done. destruct (H1 t' Hin) as [Hp _]. by split; [|congruence].
  - intros t' [[= <-] _]. rewrite add_hold_eq. by rewrite (H3 t (Hno t)).
  - intros t' Ht'. rewrite add_hold_ne; [by apply H3|]. intros [= ->]. apply Ht'. split; [done|].
    by rewrite Hpt.
  - intros t' l' Hl'. destruct (decide (t' = t)) as [->|Hne].
    + split; [intros _; split; [done|by rewrite Hpt]|intros _; by apply HHt].
    + destruct (HH t' l' Hne Hl') as (l & Hl & Hm). rewrite Hm, (H4 t' l Hl).
      split; [by intros Hw%Hno|]. intros [[= ->] _]. done.
  - intros t' [= <-] Hp. congruence.
  - intros t' Hp Hnq. assert (t' <> t) as Hne by (intros ->; congruence).
    apply elem_without. split; [done|]. rewrite Hph in Hp by done. apply H6; [done|].
    intros Hin. apply Hnq, Hq. by split.
  - done.
Qed.

(** Thread [t] enters (or stays in) the wait of a mutex another thread has. *)
Lemma linv_park m a ph ph' h H wk t q' :
  linv m a ph h H wk -> a_owner a <> NULL -> a_owner a <> Some t ->
  (forall t', t' ∈ q' <-> t' = t \/ t' ∈ a_queue a) ->
  (forall t', t' <> t -> ph' !! t' = ph !! t') -> ph' !! t = Some m ->
  linv m (AM (a_fair a) (a_owner a) (a_count a) q') ph' h H (without t wk).
Proof.
  intros [H1 H2 H3 H4 H5 H6 H7] Ho Hot Hq Hph Hpt.
  assert (Hown : forall t', owns ph' t' m (AM (a_fair a) (a_owner a) (a_count a) q') <-> owns ph t' m a).
  { intros t'. unfold owns. simpl. destruct (decide (t' = t)) as [->|Hne]; [|by rewrite Hph].
    split; intros [E _]; done. }
  constructor; simpl.
  - intros t' [->|Hin]%Hq; [done|]. destruct (H1 t' Hin) as [Hp Hne].
    destruct (decide (t' = t)) as [->|]; [done|]. by rewrite Hph.
  - intros t' Ht'%Hown. by apply H2.
  - intros t' Ht'. apply H3. by rewrite <- Hown.
  - intros t' l Hl. rewrite Hown. by apply H4.
  - intros t' Hot' Hp. assert (t' <> t) as Hne by (intros ->; done).
    rewrite Hph in Hp by done. by eapply H5.
  - intros t' Hp Hnq. assert (t' <> t) as Hne by (intros ->; apply Hnq, Hq; by left).
    apply elem_without. split; [done|]. rewrite Hph in Hp by done. apply H6; [done|].
    intros Hin. apply Hnq, Hq. by right.
  - done.
Qed.

(** Thread [t] leaves the wait without the mutex. *)
Lemma linv_leave m a ph ph' h H wk t :
  linv m a ph h H wk -> a_owner a <> Some t ->
  (forall t', t' <> t -> ph' !! t' = ph !! t') -> ph' !! t = None ->
  linv m (AM (a_fair a) (a_owner a) (a_count a) (without t (a_queue a))) ph' h H (without t wk).
Proof.
  intros [H1 H2 H3 H4 H5 H6 H7] Hot Hph Hpt.
  assert (Hown : forall t', owns ph' t' m (AM (a_fair a) (a_owner a) (a_count a) (without t (a_queue a)))
                            <-> owns ph t' m a).
  { intros t'. unfold owns. simpl. destruct (decide (t' = t)) as [->|Hne]; [|by rewrite Hph].
    split; intros [E _]; done. }
  constructor; simpl.
  - intros t' [Hne Hin]%elem_without. rewrite Hph by done. by apply H1.
  - intros t' Ht'%Hown. by apply H2.
  - intros t' Ht'. apply H3. by rewrite <- Hown.
  - intros t' l Hl. rewrite Hown. by apply H4.
  - intros t' Hot' Hp. assert (t' <> t) as Hne by (intros ->; done).
    rewrite Hph in Hp by done. by eapply H5.
  - intros t' Hp Hnq. assert (t' <> t) as Hne by (intros ->; congruence).
    apply elem_without. split; [done|]. rewrite Hph in Hp by done. apply H6; [done|].
    intros Hin. apply Hnq, elem_without. by split.
  - intros Hf Hn. by rewrite (H7 Hf Hn).
Qed.

(** Thread [t] learns that the mutex was handed to it. *)
Lemma linv_grant m a ph ph' h H H' wk t :
  linv m a ph h H wk -> a_owner a = Some t -> ph !! t = Some m ->
  (forall t', t' <> t -> ph' !! t' = ph !! t') -> ph' !! t = None ->
  (forall t' l', t' <> t -> H' !! t' = Some l' -> exists l, H !! t' = Some l /\ (m ∈ l' <-> m ∈ l)) ->
  (forall l', H' !! t = Some l' -> m ∈ l') ->
  linv m a ph' (add_hold 1 t m h) H' (without t wk).
Proof.
  intros [H1 H2 H3 H4 H5 H6 H7] Ho Hp Hph Hpt HH HHt.
  assert (Hnot : ~ owns ph t m a) by (intros [_ E]; congruence).
  constructor.
  - intros t' Hin. destruct (H1 t' Hin) as [Hp' Hne]. rewrite Hph by congruence. done.
  - intros t' [E _]. assert (t' = t) as -> by congruence. rewrite add_hold_eq, (H3 t Hnot).
    by rewrite (H5 t Ho Hp).
  - intros t' Ht'. destruct (decide (t' = t)) as [->|Hne].
    + destruct Ht'. split; [done|]. by rewrite Hpt.
    + rewrite add_hold_ne by congruence. apply H3. intros [E _]. congruence.
  - intros t' l' Hl'. destruct (decide (t' = t)) as [->|Hne].
    + split; [intros _; split; [done|by rewrite Hpt]|intros _; by apply HHt].
    + destruct (HH t' l' Hne Hl') as (l & Hl & Hm). rewrite Hm, (H4 t' l Hl). unfold owns. by rewrite Hph.
  - intros t' E Hp'. assert (t' = t) as -> by congruence. congruence.
  - intros t' Hp' Hnq. assert (t' <> t) as Hne by (intros ->; congruence).
    apply elem_without. split; [done|]. rewrite Hph in Hp' by done. by apply H6.
  - done.
Qed.

(** The owner [t] acquires again, or releases all but the last time. *)
Lemma linv_count m a ph h H wk t n :
  linv m a ph h H wk -> owns ph t m a ->
  linv m (AM (a_fair a) (a_owner a) (a_count a + n) (a_queue a)) ph (add_hold n t m h) H wk.
Proof.
  intros [H1 H2 H3 H4 H5 H6 H7] Ho. assert (Hot : a_owner a = Some t) by apply Ho.
  constructor; simpl; try done.
  - intros t' [E _]. simpl in E. assert (t' = t) as -> by congruence. rewrite add_hold_eq. by rewrite H2.
  - intros t' Ht'. rewrite add_hold_ne; [by apply H3|]. intros [= ->]. by apply Ht'.
  - intros t' E Hp. assert (t' = t) as -> by congruence. by destruct Ho.
Qed.

(** The owner [t] passes the mutex on: to the first waiter, who is woken, or
    to nobody. [n]: what it was told it had. *)
Lemma linv_pass m a ph ph' h h' H H' wk wk' t b :
  linv m a ph h H wk -> NoDup (a_queue a) -> a_owner a = Some t ->
  (a_queue a <> [] -> b = true \/ a_fair a = false) ->
  (forall t', t' <> t -> ph' !! t' = ph !! t') -> ph' !! t = None ->
  (forall t', t' <> t -> h' !! (t', m) = h !! (t', m)) -> default 0 (h' !! (t, m)) = 0 ->
  (forall t' l', t' <> t -> H' !! t' = Some l' -> exists l, H !! t' = Some l /\ (m ∈ l' <-> m ∈ l)) ->
  (forall l', H' !! t = Some l' -> m ∉ l') ->
  (forall t', t' <> t -> t' ∈ wk -> t' ∈ wk') -> (forall w, head (a_queue a) = Some w -> w ∈ wk') ->
  linv m (match a_queue a with
          | w :: q => if b then AM (a_fair a) (Some w) 1 q else AM (a_fair a) NULL 0 q
          | [] => AM (a_fair a) NULL 0 [] end) ph' h' H' wk'.
Proof.
  intros [H1 H2 H3 H4 H5 H6 H7] Hnd Ho Hb Hph Hpt Hh Hht HH HHt Hwk Hw.
  assert (Hnot : forall t', t' <> t -> ~ owns ph t' m a) by (intros t' Hne [E _]; congruence).
  assert (Hh0 : forall t', default 0 (h' !! (t', m)) = 0).
  { intros t'. destruct (decide (t' = t)) as [->|Hne]; [done|]. rewrite Hh by done. by apply H3, Hnot. }
  assert (HH0 : forall t' l', H' !! t' = Some l' -> m ∉ l').
  { intros t' l' Hl'. destruct (decide (t' = t)) as [->|Hne]; [by apply HHt|].
    destruct (HH t' l' Hne Hl') as (l & Hl & Hm). rewrite Hm, (H4 t' l Hl). by apply Hnot. }
  assert (Hq : forall t', t' ∈ a_queue a -> ph' !! t' = Some m /\ t' <> t).
  { intros t' Hin. destruct (H1 t' Hin) as [Hp Hne]. rewrite Hph by congruence. by split; [|congruence]. }
  assert (Hwo : forall t', ph' !! t' = Some m -> t' ∉ a_queue a -> t' ∈ wk').
  { intros t' Hp Hnq. assert (t' <> t) as Hne by (intros ->; congruence).
    apply Hwk; [done|]. rewrite Hph in Hp by done. by apply H6. }
  (* the invariant of a mutex that nobody owns knowingly *)
  assert (Hgen : forall a', (forall t', ~ owns ph' t' m a') ->
    (forall t', t' ∈ a_queue a' -> ph' !! t' = Some m /\ a_owner a' <> Some t') ->
    (forall t', a_owner a' = Some t' -> a_count a' = 1) ->
    (forall t', ph' !! t' = Some m -> t' ∉ a_queue a' -> t' ∈ wk') ->
    (a_fair a' = true -> a_owner a' = NULL -> a_queue a' = []) -> linv m a' ph' h' H' wk').
  { intros a' Hno Hq1 Hc1 Hw1 Hf1. constructor; try done.
    - intros t' Ht'. by apply Hno in Ht'.
    - intros t' l' Hl'. split; intros Hin; [by destruct (HH0 t' l' Hl')|by apply Hno in Hin].
    - intros t' Ht' _. by eapply Hc1. }
  destruct (a_queue a) as [|w q] eqn:Eq.
  { apply Hgen; simpl; try done; [by intros t' [? _]|by intros t' Hin%not_elem_of_nil]. }
  destruct (Hq w) as [Hpw Hwt]; [by left|]. apply NoDup_cons in Hnd as [Hwni _].
  assert (Hwq : forall t', ph' !! t' = Some m -> t' ∉ q -> t' ∈ wk').
  { intros t' Hp Hnq. destruct (decide (t' = w)) as [->|Hne]; [by apply Hw|].
    apply Hwo; [done|]. by intros [->|]%elem_of_cons. }
  destruct b; apply Hgen; simpl; try done.
  - by intros t' [[= <-] E].
  - intros t' Hin. destruct (Hq t') as [Hp _]; [by right|]. split; [done|]. by intros [= ->].
  - by intros t' [E _].
  - intros t' Hin. destruct (Hq t') as [Hp _]; [by right|]. by split.
  - intros Hf. destruct Hb as [|Hb]; [done|done|congruence].
Qed.

Lemma new_wakes_eq S w s s' : pframe S w (x_park s) (x_park s') -> new_wakes s s' = w.
Proof.
  intros Hf. unfold new_wakes. rewrite (pf_wakes _ _ _ _ Hf).
  rewrite <- (length_fmap fst (k_wakes (x_park s))). apply drop_app_length.
Qed.

Lemma held_other (A : ast) t m l0 l' t' : t' <> t -> <[t := l0]> (a_held A) !! t' = Some l' ->
  exists l, a_held A !! t' = Some l /\ (m ∈ l' <-> m ∈ l).
Proof. intros Hne Hl. rewrite lookup_insert_ne in Hl by done. by exists l'. Qed.

(** The rings after [m] was added to or removed from that of [t]. *)
Lemma held_add_other A t m : forall t' l', a_held (a_add A t m) !! t' = Some l' ->
  is_Some (a_held A !! t) ->
  exists l, a_held A !! t' = Some l /\ (forall m', m' <> m -> m' ∈ l' <-> m' ∈ l).
Proof.
  intros t' l' Hl' [l0 Hl0]. simpl in Hl'. apply lookup_insert_Some in Hl' as [[<- <-]|[Hne Hl']].
  - exists l0. split; [done|]. intros m' Hne. rewrite Hl0. simpl.
    rewrite elem_of_app, list_elem_of_singleton. tauto.
  - by exists l'.
Qed.

Lemma held_remove_other A t m : forall t' l', a_held (a_remove A t m) !! t' = Some l' ->
  is_Some (a_held A !! t) ->
  exists l, a_held A !! t' = Some l /\ (forall m', m' <> m -> m' ∈ l' <-> m' ∈ l).
Proof.
  intros t' l' Hl' [l0 Hl0]. simpl in Hl'. apply lookup_insert_Some in Hl' as [[<- <-]|[Hne Hl']].
  - exists l0. split; [done|]. intros m' Hne. rewrite Hl0. simpl.
    rewrite list_elem_of_filter. tauto.
  - by exists l'.
Qed.

Lemma add_hold_other n t m h t' m' : m' <> m -> add_hold n t m h !! (t', m') = h !! (t', m').
Proof. intros Hne. apply add_hold_ne. congruence. Qed.

Lemma phase_delete t t' (ph : gmap addr addr) : t' <> t -> delete t ph !! t' = ph !! t'.
Proof. intros Hne. by rewrite lookup_delete_ne. Qed.
Lemma phase_insert t t' m (ph : gmap addr addr) : t' <> t -> <[t := m]> ph !! t' = ph !! t'.
Proof. intros Hne. by rewrite lookup_insert_ne. Qed.

Lemma is_Some_insert {B : Type} t t' (x : B) (H : gmap addr B) :
  is_Some (H !! t') -> is_Some (<[t := x]> H !! t').
Proof.
  intros Hs. destruct (decide (t = t')) as [->|]; [rewrite lookup_insert_eq; by eexists|].
  by rewrite lookup_insert_ne.
Qed.

#[local] Hint Resolve phase_delete phase_insert is_Some_insert add_hold_other : pth.

(** The free mutex is taken, by a thread that runs or that has resumed; [a]
    is the mutex before, [a1] the one without [t] in its queue. *)
Lemma ainv_take A ph h wk t m a a1 :
  ainv A ph h wk -> t ∈ threads -> m ∈ mutexes -> a_mx A !! m = Some a ->
  ph !! t = None \/ ph !! t = Some m -> a_owner a = NULL ->
  a1 = AM (a_fair a) (Some t) 1 (without t (a_queue a)) ->
  ainv (a_add (a_set A m a1) t m) (delete t ph) (add_hold 1 t m h) (without t wk).
Proof.
  intros Hi Ht Hmm Hm Hp Ho ->. destruct (ai_threads _ _ _ _ Hi t Ht) as [l0 Hl0].
  assert (Hl := ai_local _ _ _ _ Hi m a Hm).
  eapply (ainv_update A ph h wk t m a); eauto with pth.
  - left. apply lookup_delete_eq.
  - intros t' l' Hl'. eapply held_add_other; [exact Hl'|by eexists].
  - intros t' Hne Hin. by apply elem_without.
  - eapply (linv_take m a); [exact Hl|done|intros ?; apply elem_without|by intros; apply phase_delete
      |apply lookup_delete_eq| |].
    + intros t' l' Hne Hl'. by eapply held_other.
    + intros l' Hl'. rewrite lookup_insert_eq in Hl'. injection Hl' as <-.
      apply elem_of_app. right. by left.
Qed.

(** An operation that leaves the rings alone. *)
Lemma ainv_set A ph h wk t m a a' ph' h' wk' :
  ainv A ph h wk -> t ∈ threads -> m ∈ mutexes -> a_mx A !! m = Some a ->
  (forall t', t' <> t -> ph' !! t' = ph !! t') ->
  ph !! t = None \/ ph !! t = Some m -> ph' !! t = None \/ ph' !! t = Some m ->
  (forall t' m', m' <> m -> h' !! (t', m') = h !! (t', m')) ->
  (forall t', t' <> t -> t' ∈ wk -> t' ∈ wk') ->
  linv m a' ph' h' (a_held A) wk' ->
  ainv (a_set A m a') ph' h' wk'.
Proof.
  intros. eapply (ainv_update A ph h wk t m a a' ph' h' (a_held A)); try done.
  intros t' l' Hl'. by exists l'.
Qed.

Lemma ainv_park A ph h wk t m a a' :
  ainv A ph h wk -> t ∈ threads -> m ∈ mutexes -> a_mx A !! m = Some a ->
  ph !! t = None \/ ph !! t = Some m -> a_owner a <> NULL -> a_owner a <> Some t ->
  a' = AM (a_fair a) (a_owner a) (a_count a) (without t (a_queue a) ++ [t]) ->
  ainv (a_set A m a') (<[t := m]> ph) h (without t wk).
Proof.
  intros Hi Ht Hmm Hm Hp Ho Hot ->. assert (Hl := ai_local _ _ _ _ Hi m a Hm).
  eapply (ainv_set A ph h wk t m a); eauto with pth.
  - right. apply lookup_insert_eq.
  - intros t' Hne Hin. by apply elem_without.
  - eapply (linv_park m a); [exact Hl|done|done| |by intros; apply phase_insert|apply lookup_insert_eq].
    intros t'. rewrite elem_of_app, list_elem_of_singleton, elem_without.
    destruct (decide (t' = t)); tauto.
Qed.

Lemma ainv_leave A ph h wk t m a a' :
  ainv A ph h wk -> t ∈ threads -> m ∈ mutexes -> a_mx A !! m = Some a ->
  ph !! t = None \/ ph !! t = Some m -> a_owner a <> Some t ->
  a' = AM (a_fair a) (a_owner a) (a_count a) (without t (a_queue a)) ->
  ainv (a_set A m a') (delete t ph) h (without t wk).
Proof.
  intros Hi Ht Hmm Hm Hp Hot ->. assert (Hl := ai_local _ _ _ _ Hi m a Hm).
  eapply (ainv_set A ph h wk t m a); eauto with pth.
  - left. apply lookup_delete_eq.
  - intros t' Hne Hin. by apply elem_without.
  - eapply (linv_leave m a); [exact Hl|done|by intros; apply phase_delete|apply lookup_delete_eq].
Qed.

Lemma ainv_grant A ph h wk t m a :
  ainv A ph h wk -> t ∈ threads -> m ∈ mutexes -> a_mx A !! m = Some a ->
  ph !! t = Some m -> a_owner a = Some t ->
  ainv (a_add A t m) (delete t ph) (add_hold 1 t m h) (without t wk).
Proof.
  intros Hi Ht Hmm Hm Hp Ho. destruct (ai_threads _ _ _ _ Hi t Ht) as [l0 Hl0].
  assert (Hl := ai_local _ _ _ _ Hi m a Hm).
  assert (HA : a_add A t m = Ast (<[m := a]> (a_mx A)) (a_held (a_add A t m))).
  { unfold a_add. simpl. by rewrite (insert_id (a_mx A)). }
  rewrite HA. eapply (ainv_update A ph h wk t m a); eauto with pth.
  - left. apply lookup_delete_eq.
  - intros t' l' Hl'. eapply held_add_other; [exact Hl'|by eexists].
  - intros t' Hs. cbn. by apply is_Some_insert.
  - intros t' Hne Hin. by apply elem_without.
  - eapply (linv_grant m a); [exact Hl|done|done|by intros; apply phase_delete|apply lookup_delete_eq| |].
    + intros t' l' Hne Hl'. cbn in Hl'. by eapply held_other.
    + intros l' Hl'. simpl in Hl'. rewrite lookup_insert_eq in Hl'. injection Hl' as <-.
      apply elem_of_app. right. by left.
Qed.

Lemma ainv_count A ph h wk t m a n a' :
  ainv A ph h wk -> t ∈ threads -> m ∈ mutexes -> a_mx A !! m = Some a ->
  ph !! t = None -> a_owner a = Some t ->
  a' = AM (a_fair a) (a_owner a) (a_count a + n) (a_queue a) ->
  ainv (a_set A m a') ph (add_hold n t m h) wk.
Proof.
  intros Hi Ht Hmm Hm Hp Ho ->. assert (Hl := ai_local _ _ _ _ Hi m a Hm).
  eapply (ainv_set A ph h wk t m a); eauto with pth.
  apply linv_count; [done|]. split; [done|]. by rewrite Hp.
Qed.

(** The last release of a mutex by its owner. *)
Lemma ainv_release A ph h wk t m a :
  ainv A ph h wk -> t ∈ threads -> m ∈ mutexes -> a_mx A !! m = Some a -> NoDup (a_queue a) ->
  ph !! t = None -> a_owner a = Some t -> a_count a = 1 ->
  ainv (a_remove (a_set A m (handoff a)) t m) ph (add_hold (-1) t m h)
       (wk ++ option_list (head (a_queue a))).
Proof.
  intros Hi Ht Hmm Hm Hnd Hp Ho Hc. destruct (ai_threads _ _ _ _ Hi t Ht) as [l0 Hl0].
  assert (Hl := ai_local _ _ _ _ Hi m a Hm).
  eapply (ainv_update A ph h wk t m a); eauto with pth.
  - intros t' l' Hl'. eapply held_remove_other; [exact Hl'|by eexists].
  - intros t' _ Hin. apply elem_of_app. by left.
  - assert (Hh : handoff a = match a_queue a with
          | w :: q => if a_fair a then AM (a_fair a) (Some w) 1 q else AM (a_fair a) NULL 0 q
          | [] => AM (a_fair a) NULL 0 [] end).
    { unfold handoff. destruct (a_queue a); [done|]. by destruct (a_fair a). }
    rewrite Hh. eapply (linv_pass m a); [exact Hl|done|done| |done|done| | | | | |].
    + intros _. destruct (a_fair a); [by left|by right].
    + intros t' Hne. apply add_hold_ne. congruence.
    + rewrite add_hold_eq, (li_own _ _ _ _ _ _ Hl t), Hc; [done|]. split; [done|]. by rewrite Hp.
    + intros t' l' Hne Hl'. by eapply held_other.
    + intros l' Hl'. rewrite lookup_insert_eq in Hl'. injection Hl' as <-.
      rewrite list_elem_of_filter. tauto.
    + intros t' _ Hin. apply elem_of_app. by left.
    + intros w Hw. rewrite Hw. apply elem_of_app. right. by left.
Qed.

(** A thread cancelled in the wait. *)
Lemma ainv_cancel A ph h wk t m a :
  ainv A ph h wk -> t ∈ threads -> m ∈ mutexes -> a_mx A !! m = Some a -> NoDup (a_queue a) ->
  ph !! t = Some m ->
  ainv (sp_cleanup A t m a).1 (delete t ph) h (without t wk ++ (sp_cleanup A t m a).2).
Proof.
  intros Hi Ht Hmm Hm Hnd Hp. assert (Hl := ai_local _ _ _ _ Hi m a Hm). unfold sp_cleanup.
  bcase (a_owner a = Some t) Ho; cbn [fst snd].
  2:{ rewrite app_nil_r. unfold a_unqueue. eapply ainv_leave; eauto. }
  assert (Hno : ~ owns ph t m a) by (intros [_ E]; congruence).
  eapply (ainv_set A ph h wk t m a); eauto with pth.
  - left. apply lookup_delete_eq.
  - intros t' Hne Hin. apply elem_of_app. left. by apply elem_without.
  - eapply (linv_pass m a _ _ _ _ _ _ _ _ t true); [exact Hl|done|done|by left
      |by intros; apply phase_delete|apply lookup_delete_eq|done|by apply (li_other _ _ _ _ _ _ Hl)| | | |].
    + intros t' l' Hne Hl'. by exists l'.
    + intros l' Hl'. rewrite (li_ring _ _ _ _ _ _ Hl t l' Hl'). done.
    + intros t' Hne Hin. apply elem_of_app. left. by apply elem_without.
    + intros w Hw. rewrite Hw. apply elem_of_app. right. by left.
Qed.

(** Wakeups of other mutexes survive an operation of [t] on [m]. *)
Lemma wakeup_update A ph wk t m a a' mx' ph' wk' H' :
  no_lost_wakeup A ph wk -> a_mx A !! m = Some a -> mx' = <[m := a']> (a_mx A) ->
  ph !! t = None \/ ph !! t = Some m -> (forall t', t' <> t -> ph' !! t' = ph !! t') ->
  (forall t', t' <> t -> t' ∈ wk -> t' ∈ wk') ->
  (a_owner a' = NULL -> a_queue a' <> [] -> exists w, ph' !! w = Some m /\ w ∉ a_queue a' /\ w ∈ wk') ->
  no_lost_wakeup (Ast mx' H') ph' wk'.
Proof.
  intros Hn Hm -> Hp Hph Hwk Hloc m' b Hb Ho Hq. simpl in Hb.
  apply lookup_insert_Some in Hb as [[<- <-]|[Hne Hb]]; [by apply Hloc|].
  destruct (Hn m' b Hb Ho Hq) as (w & Hw & Hnq & Hin).
  assert (w <> t) as Hwt by (intros ->; destruct Hp; congruence).
  exists w. rewrite Hph by done. auto.
Qed.

Lemma queue_nodup s A m a : mrel s A -> a_mx A !! m = Some a -> NoDup (a_queue a).
Proof. intros Hr Hm. destruct (ml_mx _ _ Hr m a Hm) as (x & _ & []). by apply wr_nodup with (h := k_next (x_park s)) (q := mx_waitq x). Qed.

(** The invariants together, the last for plain runs only. *)
Definition good (plain : bool) (A : ast) ph h wk : Prop :=
  ainv A ph h wk /\ (plain = true -> no_lost_wakeup A ph wk).

Lemma ainv_busy A ph h wk t m :
  ainv A ph h wk -> ph !! t = None -> m ∈ mutexes -> ainv A (delete t ph) h (without t wk).
Proof.
  intros [H1 H2 H3 H4] Hp Hm. rewrite delete_id by done. constructor; try done.
  intros m' a Ha. eapply linv_frame; [by apply H4|done|done|by eauto|].
  intros t' Hp' Hin. apply elem_without. split; [|done]. intros ->. congruence.
Qed.

Lemma sp_acquire_good plain A ph h wk t m a tryonly :
  good plain A ph h wk -> t ∈ threads -> m ∈ mutexes -> a_mx A !! m = Some a -> ph !! t = None ->
  let r := sp_acquire A t m a tryonly in
  good plain r.2 (phase_after t m r.1 ph) (hold_after t m r.1 h) (without t wk).
Proof.
  intros [Hi Hw] Ht Hmm Hm Hp. cbv zeta.
  assert (Hl := ai_local _ _ _ _ Hi m a Hm).
  assert (Hq : without t (a_queue a) = a_queue a).
  { apply filter_ne_notin. eapply inv_no_queue; [exact Hi|exact Hm|]. by rewrite Hp. }
  assert (Hdel : delete t ph = ph) by (by apply delete_id).
  assert (Hwk : forall t', t' <> t -> t' ∈ wk -> t' ∈ without t wk) by (intros; by apply elem_without).
  assert (Hbusy := ainv_busy A ph h wk t m Hi Hp Hmm). rewrite Hdel in Hbusy.
  unfold sp_acquire. bcase (a_owner a = NULL) Ho; [|bcase (a_owner a = Some t) Ho2; [|destruct tryonly]];
    cbn [fst snd phase_after hold_after ok pth_error]; rewrite ?Hdel; (split; [|intros Hpl; specialize (Hw Hpl)]).
  - rewrite <- Hdel at 1. eapply ainv_take; eauto. by rewrite Hq.
  - eapply (wakeup_update A ph wk t m a); eauto. done.
  - eapply ainv_count; [exact Hbusy|..]; done.
  - eapply (wakeup_update A ph wk t m a); eauto. done.
  - done.
  - destruct A as [mx hd]. eapply (wakeup_update (Ast mx hd) ph wk t m a a); eauto; [|done].
    simpl in *. by rewrite insert_id.
  - eapply ainv_park; eauto. by rewrite Hq.
  - eapply (wakeup_update A ph wk t m a); eauto; [|done]. intros; by rewrite lookup_insert_ne.
Qed.

Lemma sp_resume_good plain A ph h wk t m a intr :
  good plain A ph h wk -> t ∈ threads -> m ∈ mutexes -> a_mx A !! m = Some a -> ph !! t = Some m ->
  (plain = true -> intr = false) ->
  let r := sp_resume A t m a intr in
  good plain r.2 (phase_after t m r.1 ph) (hold_after t m r.1 h) (without t wk).
Proof.
  intros [Hi Hw] Ht Hmm Hm Hp Hin. cbv zeta.
  assert (Hwk : forall t', t' <> t -> t' ∈ wk -> t' ∈ without t wk) by (intros; by apply elem_without).
  assert (Hdel : forall t', t' <> t -> delete t ph !! t' = ph !! t') by (intros; by apply phase_delete).
  assert (Hins : forall t', t' <> t -> <[t := m]> ph !! t' = ph !! t') by (intros; by apply phase_insert).
  set (a1 := AM (a_fair a) (a_owner a) (a_count a) (without t (a_queue a))).
  assert (Hset : forall a', a_set (a_set A m a1) m a' = a_set A m a').
  { intros a'. unfold a_set. simpl. by rewrite insert_insert_eq. }
  unfold sp_resume. fold a1. bcase (a_owner a = Some t) Ho; [|destruct intr; [|bcase (a_owner a = NULL) Ho2]];
    cbn [fst snd phase_after hold_after ok pth_error]; (split; [|intros Hpl; specialize (Hw Hpl)]).
  - by eapply ainv_grant.
  - destruct A as [mx hd]. eapply (wakeup_update (Ast mx hd) ph wk t m a a); eauto; [|congruence].
    simpl in *. by rewrite insert_id.
  - eapply ainv_leave; eauto.
  - by specialize (Hin Hpl).
  - unfold a_take. rewrite Hset. by eapply ainv_take; eauto.
  - unfold a_take. rewrite Hset. eapply (wakeup_update A ph wk t m a); eauto. done.
  - unfold a_enqueue. rewrite Hset. eapply ainv_park; eauto.
  - unfold a_enqueue. rewrite Hset. eapply (wakeup_update A ph wk t m a); eauto. done.
Qed.

Lemma sp_release_good plain A ph h wk t m a :
  good plain A ph h wk -> t ∈ threads -> m ∈ mutexes -> a_mx A !! m = Some a -> ph !! t = None ->
  NoDup (a_queue a) ->
  let r := sp_release A t m a in
  good plain r.1.2 ph (if r.1.1.1 then add_hold (-1) t m h else h) (wk ++ r.2).
Proof.
  intros [Hi Hw] Ht Hmm Hm Hp Hnd. cbv zeta.
  assert (Hwk : forall x t', t' <> t -> t' ∈ wk -> t' ∈ wk ++ x) by (intros; apply elem_of_app; by left).
  unfold sp_release. bcase (a_owner a = NULL) Ho; [|bcase (a_owner a = Some t) Ho2;
    [destruct (Z.eqb_spec (a_count a) 1) as [Hc|Hc]|]];
    cbn [fst snd ok pth_error]; rewrite ?app_nil_r; (split; [|intros Hpl; specialize (Hw Hpl)]); try done.
  - by apply ainv_release.
  - eapply (wakeup_update A ph wk t m a (handoff a)); eauto.
    unfold handoff. destruct (a_queue a) as [|w q] eqn:Eq; [done|]. destruct (a_fair a); [done|].
    intros _ _. exists w. apply NoDup_cons in Hnd as [Hni _].
    split_and!; [|done|apply elem_of_app; right; by left].
    apply (li_queue _ _ _ _ _ _ (ai_local _ _ _ _ Hi m a Hm)). rewrite Eq. by left.
  - eapply ainv_count; eauto.
  - eapply (wakeup_update A ph wk t m a); eauto. simpl. congruence.
Qed.

Lemma sp_cleanup_good A ph h wk t m a :
  good false A ph h wk -> a_mx A !! m = Some a -> ph !! t = Some m -> NoDup (a_queue a) ->
  good false (sp_cleanup A t m a).1 (delete t ph) h (without t wk ++ (sp_cleanup A t m a).2).
Proof.
  intros [Hi _] Hm Hp Hnd. destruct (ai_phase _ _ _ _ Hi t m Hp). split; [|done].
  by apply ainv_cancel.
Qed.

(** Every step from a configuration of the invariant preserves it. *)
Lemma step_inv plain c c' A : inv plain c A -> mstep plain c c' -> exists A', inv plain c' A'.
Proof.
  intros [Hr Hi Hw] Hstep.
  assert (Hg : good plain A (c_phase c) (c_hold c) (c_woken c)) by done.
  destruct Hstep as [t m tryonly ev r s' Ht Hmm Hp Hh E|t m extra pending ev r s' Hp Hpl Hwk E
                    |t m r s' Ht Hmm Hp E|t m s' Hpl Hp E].
  - destruct (ai_mutexes _ _ _ _ Hi m Hmm) as [a Hm]. assert (Hl := ai_local _ _ _ _ Hi m a Hm).
    destruct (acquire_refines (c_s c) A t m a tryonly ev Hr Hm) as (s1 & E1 & Hr1 & _).
    { by eapply ai_threads. }
    { intros m' b Hb. eapply inv_no_queue; [exact Hi|exact Hb|]. by rewrite Hp. }
    { intros Ho. eapply inv_unheld; [exact Hi|exact Hm|]. intros t' [E' _]. congruence. }
    { intros Ho. rewrite <- (li_own _ _ _ _ _ _ Hl t); [done|]. split; [done|]. by rewrite Hp. }
    rewrite E1 in E. injection E as <- <-. exists (sp_acquire A t m a tryonly).2.
    destruct (sp_acquire_good plain A _ _ _ t m a tryonly Hg Ht Hmm Hm Hp). by constructor.
  - destruct (ai_phase _ _ _ _ Hi t m Hp) as [Ht Hmm].
    destruct (ai_mutexes _ _ _ _ Hi m Hmm) as [a Hm]. assert (Hl := ai_local _ _ _ _ Hi m a Hm).
    destruct (resume_refines (c_s c) A t m a extra pending ev Hr Hm) as (s1 & E1 & Hr1 & _).
    { by eapply ai_threads. }
    { intros m' b Hne Hb. eapply inv_no_queue; [exact Hi|exact Hb|]. congruence. }
    { intros Ho. eapply inv_unheld; [exact Hi|exact Hm|]. intros t' [E' Hne].
      destruct Ho as [Ho|Ho]; [congruence|]. assert (t' = t) as -> by congruence. done. }
    rewrite E1 in E. injection E as <- <-. exists (sp_resume A t m a (extra && pending)).2.
    destruct (sp_resume_good plain A _ _ _ t m a (extra && pending) Hg Ht Hmm Hm Hp).
    { intros ->. by rewrite Hpl. }
    by constructor.
  - destruct (ai_mutexes _ _ _ _ Hi m Hmm) as [a Hm]. destruct (ai_threads _ _ _ _ Hi t Ht) as [l Hl].
    destruct (release_refines (c_s c) A t m a l Hr Hm Hl) as (s1 & E1 & Hr1 & Hf).
    { intros Ho. apply (li_ring _ _ _ _ _ _ (ai_local _ _ _ _ Hi m a Hm) t l Hl). split; [done|]. by rewrite Hp. }
    rewrite E1 in E. injection E as <- <-. exists (sp_release A t m a).1.2.
    rewrite (new_wakes_eq _ _ _ _ Hf).
    destruct (sp_release_good plain A _ _ _ t m a Hg Ht Hmm Hm Hp (queue_nodup _ _ _ _ Hr Hm)).
    by constructor.
  - subst plain. destruct (ai_phase _ _ _ _ Hi t m Hp) as [Ht Hmm].
    destruct (ai_mutexes _ _ _ _ Hi m Hmm) as [a Hm].
    destruct (cleanup_refines (c_s c) A t m a Hr Hm) as (s1 & E1 & Hr1 & Hf).
    rewrite E1 in E. injection E as <-. exists (sp_cleanup A t m a).1.
    rewrite (new_wakes_eq _ _ _ _ Hf).
    destruct (sp_cleanup_good A _ _ _ t m a Hg Hm Hp (queue_nodup _ _ _ _ Hr Hm)).
    by constructor.
Qed.

Lemma reach_inv plain c0 c A0 : inv plain c0 A0 -> reach plain c0 c -> exists A, inv plain c A.
Proof.
  intros H0. induction 1 as [|c c' Hr IH Hs]; [by eexists|]. destruct IH as [A HA].
  by eapply step_inv.
Qed.
End system.

(** ** Runs *)

(** All mutexes are free and no thread waits. *)
Record starts (threads mutexes : list addr) (c : cfg) (A : ast) : Prop := {
  st_rel : mrel (c_s c) A;
  st_threads : forall t, t ∈ threads -> is_Some (a_held A !! t);
  st_mutexes : forall m, m ∈ mutexes -> is_Some (a_mx A !! m);
  st_free : forall m a, a_mx A !! m = Some a -> a_owner a = NULL /\ a_queue a = [];
  st_held : forall t l, a_held A !! t = Some l -> l = [];
  st_phase : c_phase c = ∅;
  st_hold : c_hold c = ∅;
  st_woken : c_woken c = []
}.

Lemma starts_inv threads mutexes plain c A : starts threads mutexes c A -> inv threads mutexes plain c A.
Proof.
  intros []. constructor; [done| |].
  - rewrite st_phase0, st_hold0. constructor; [done|done|by intros t m E|].
    intros m a Hm. destruct (st_free0 m a Hm) as [Ho Hq].
    assert (Hno : forall t, ~ owns ∅ t m a) by (intros t [E _]; congruence).
    constructor; try done; rewrite ?Hq.
    + by intros t Ht%not_elem_of_nil.
    + intros t Ht. by destruct (Hno t).
    + intros t l Hl. rewrite (st_held0 t l Hl). split; [by intros Hin%not_elem_of_nil|].
      intros Ht. by destruct (Hno t).
  - intros _ m a Hm Ho Hq. destruct (st_free0 m a Hm) as [_ E]. done.
Qed.

(** A thread waits for a mutex. *)
Definition waits (c : cfg) (t m : addr) : Prop := c_phase c !! t = Some m.

(** Mutex 9 (barging) or 8 (fair) and the threads 1, 2 and 3. *)
Definition demo_start : cfg :=
  Cfg (Mxs (Park {[ 1%positive := NULL; 2%positive := NULL; 3%positive := NULL ]}
                 {[ 1%positive := NULL; 2%positive := NULL; 3%positive := NULL ]} [])
           {[ 9%positive := Mutex 1 NULL 0 (Waitq NULL NULL); 8%positive := Mutex 5 NULL 0 (Waitq NULL NULL) ]}
           (Dll {[ 9%positive := NULL; 8%positive := NULL ]} {[ 9%positive := NULL; 8%positive := NULL ]})
           {[ 1%positive := Ring NULL 0; 2%positive := Ring NULL 0; 3%positive := Ring NULL 0 ]})
      ∅ ∅ [].
Definition demo_start_ast : ast :=
  Ast {[ 9%positive := AM false NULL 0 []; 8%positive := AM true NULL 0 [] ]}
      {[ 1%positive := []; 2%positive := []; 3%positive := [] ]}.

Lemma demo_start_mx m a : a_mx demo_start_ast !! m = Some a ->
  (m = 9%positive /\ a = AM false NULL 0 []) \/ (m = 8%positive /\ a = AM true NULL 0 []).
Proof.
  simpl. intros [[<- <-]|[_ H]]%lookup_insert_Some; [by left|]. single H. by right.
Qed.

Lemma demo_start_held t l : a_held demo_start_ast !! t = Some l ->
  l = [] /\ (t = 1%positive \/ t = 2%positive \/ t = 3%positive).
Proof.
  simpl. intros [[<- <-]|[_ H]]%lookup_insert_Some; [by auto|].
  apply lookup_insert_Some in H as [[<- <-]|[_ H]]; [by auto|]. single H. by auto.
Qed.

Lemma demo_starts : starts [1%positive; 2%positive; 3%positive] [9%positive; 8%positive] demo_start demo_start_ast.
Proof.
  constructor; [|repeat setoid_rewrite elem_of_cons..| |by intros t l [-> _]%demo_start_held|done|done|done].
  - constructor.
    + intros m a [[-> ->]|[-> ->]]%demo_start_mx; (eexists; split; [reflexivity|]);
        (constructor; simpl; [done|done|done|by apply wq_empty|done|lia]).
    + intros t [l [_ [->|[->| ->]]]%demo_start_held]; split; by eexists.
    + intros m a t [[-> ->]|[-> ->]]%demo_start_mx Ht; by apply not_elem_of_nil in Ht.
    + intros m m' a a' t [[-> ->]|[-> ->]]%demo_start_mx _ _ Ht; by apply not_elem_of_nil in Ht.
    + constructor.
      * intros t l [-> [->|[->| ->]]]%demo_start_held; (eexists; split; [reflexivity|by apply ring_empty]).
      * intros t t' l l' m [-> _]%demo_start_held _ _ Hm. by apply not_elem_of_nil in Hm.
    + intros m [a [[-> _]|[-> _]]%demo_start_mx]; split; by eexists.
    + by intros t l [-> _]%demo_start_held.
    + vm_compute. done.
  - intros t [->|[->|[->|Ht]]]; [by eexists..|by apply not_elem_of_nil in Ht].
  - intros m [->|[->|Ht]]; [by eexists..|by apply not_elem_of_nil in Ht].
  - by intros m a [[-> ->]|[-> ->]]%demo_start_mx.
Qed.

(** Drivers that execute one step. *)
Definition do_acquire (c : cfg) (t m : addr) : cfg :=
  match pth_mutex_acquire t (Some m) false NULL (c_s c) with
  | Some (r, s') => after_acquire c t m r s' | None => c end.
Definition do_release (c : cfg) (t m : addr) : cfg :=
  match pth_mutex_release t (Some m) (c_s c) with
  | Some (r, s') => Cfg s' (c_phase c) (if r.1 then add_hold (-1) t m (c_hold c) else c_hold c)
                        (c_woken c ++ new_wakes (c_s c) s')
  | None => c end.
Definition do_cancel (c : cfg) (t m : addr) : cfg :=
  match pth_mutex_wait_cleanup t m (c_s c) with
  | Some (_, s') => Cfg s' (delete t (c_phase c)) (c_hold c) (without t (c_woken c) ++ new_wakes (c_s c) s')
  | None => c end.

Lemma do_acquire_reach ths ms plain c0 c t m :
  reach ths ms plain c0 c -> t ∈ ths -> m ∈ ms -> c_phase c !! t = None -> hold c t m + 1 < 2 ^ 64 ->
  reach ths ms plain c0 (do_acquire c t m).
Proof.
  intros Hr Ht Hm Hp Hh. unfold do_acquire.
  destruct (pth_mutex_acquire t (Some m) false NULL (c_s c)) as [[r s']|] eqn:E; [|done].
  eapply reach_step; [done|]. by eapply step_acquire.
Qed.

Lemma do_release_reach ths ms plain c0 c t m :
  reach ths ms plain c0 c -> t ∈ ths -> m ∈ ms -> c_phase c !! t = None ->
  reach ths ms plain c0 (do_release c t m).
Proof.
  intros Hr Ht Hm Hp. unfold do_release.
  destruct (pth_mutex_release t (Some m) (c_s c)) as [[r s']|] eqn:E; [|done].
  eapply reach_step; [done|]. by eapply step_release.
Qed.

Lemma do_cancel_reach ths ms c0 c t m :
  reach ths ms false c0 c -> c_phase c !! t = Some m -> reach ths ms false c0 (do_cancel c t m).
Proof.
  intros Hr Hp. unfold do_cancel.
  destruct (pth_mutex_wait_cleanup t m (c_s c)) as [[[] s']|] eqn:E; [|done].
  eapply reach_step; [done|]. by eapply step_cancel.
Qed.

(** Thread 1 acquires mutex [m], 2 and 3 wait; then 1 releases it. *)
Definition demo_contended (m : addr) : cfg :=
  do_acquire (do_acquire (do_acquire demo_start 1 m) 2 m) 3 m.
Definition demo_released (m : addr) : cfg := do_release (demo_contended m) 1 m.

Lemma demo_contended_reach plain m : m ∈ [9%positive; 8%positive] ->
  reach [1%positive; 2%positive; 3%positive] [9%positive; 8%positive] plain demo_start (demo_contended m).
Proof.
  intros Hm. assert (m = 9%positive \/ m = 8%positive) as Hm'.
  { rewrite !elem_of_cons in Hm. destruct Hm as [|[|Hm]]; [by left|by right|by apply not_elem_of_nil in Hm]. }
  repeat (apply do_acquire_reach; [|by apply (bool_decide_unpack _)|done|by destruct Hm' as [->| ->]; vm_compute..]).
  apply reach_init.
Qed.

Lemma demo_released_reach plain m : m ∈ [9%positive; 8%positive] ->
  reach [1%positive; 2%positive; 3%positive] [9%positive; 8%positive] plain demo_start (demo_released m).
Proof.
  intros Hm. apply do_release_reach; [by apply demo_contended_reach|by apply (bool_decide_unpack _)|done|].
  assert (m = 9%positive \/ m = 8%positive) as [->| ->]; [|by vm_compute..].
  rewrite !elem_of_cons in Hm. destruct Hm as [|[|Hm]]; [by left|by right|by apply not_elem_of_nil in Hm].
Qed.

(** C3: mutual exclusion. In every run of any number of threads on any number
    of mutexes, fair or not, with recursive locking, waits interrupted by
    extra events and threads cancelled while they wait, at most one thread
    has been told that it has a mutex it has not released; that thread is the
    mutex's owner, and the mutex's count is the number of its acquisitions. *)
Theorem mutex_mutual_exclusion threads mutexes c0 A0 c t t' m :
  starts threads mutexes c0 A0 -> reach threads mutexes false c0 c -> m ∈ mutexes ->
  0 < hold c t m ->
  (0 < hold c t' m -> t = t') /\
  exists x, x_mutex (c_s c) !! m = Some x /\ mx_owner x = Some t /\ mx_count x = hold c t m.
Proof.
  intros H0 Hr Hm Ht. destruct (reach_inv _ _ _ _ _ _ (starts_inv _ _ false _ _ H0) Hr) as [A [Hrel Hi _]].
  destruct (ai_mutexes _ _ _ _ _ _ Hi m Hm) as [a Ha].
  assert (Hl := ai_local _ _ _ _ _ _ Hi m a Ha). unfold hold in *.
  assert (Hown : forall u, 0 < default 0 (c_hold c !! (u, m)) -> owns (c_phase c) u m a).
  { intros u Hu. destruct (decide (a_owner a = Some u)) as [Ho|Ho];
      [destruct (decide (c_phase c !! u = Some m)) as [Hp|Hp]|].
    - rewrite (li_other _ _ _ _ _ _ Hl u) in Hu; [lia|]. by intros [_ ?].
    - done.
    - rewrite (li_other _ _ _ _ _ _ Hl u) in Hu; [lia|]. by intros [? _]. }
  assert (Ho := Hown t Ht). split.
  - intros [Ho' _]%Hown. destruct Ho as [Ho _]. congruence.
  - destruct (ml_mx _ _ Hrel m a Ha) as (x & Hx & Hok). exists x. split; [done|].
    rewrite (mo_owner _ _ _ Hok), (mo_count _ _ _ Hok), (li_own _ _ _ _ _ _ Hl t Ho). by destruct Ho.
Qed.

Lemma mutex_mutual_exclusion_witness :
  (0 < hold (demo_contended 9) 2 9 -> 1%positive = 2%positive) /\
  exists x, x_mutex (c_s (demo_contended 9)) !! 9%positive = Some x /\
    mx_owner x = Some 1%positive /\ mx_count x = hold (demo_contended 9) 1 9.
Proof.
  apply (mutex_mutual_exclusion [1%positive; 2%positive; 3%positive] [9%positive; 8%positive]
           demo_start demo_start_ast).
  - apply demo_starts.
  - apply demo_contended_reach. by left.
  - by left.
  - by vm_compute.
Defined.

(** C6: no wakeup is lost as long as no thread is cancelled in its wait and
    no wait has an extra event: whenever a mutex is unlocked while a thread
    waits for it, one of the threads that wait for it has a wakeup on its
    way, so it will run and try again. *)
Theorem mutex_no_lost_wakeup threads mutexes c0 A0 c t m x :
  starts threads mutexes c0 A0 -> reach threads mutexes true c0 c ->
  waits c t m -> x_mutex (c_s c) !! m = Some x -> mx_owner x = NULL ->
  exists w, waits c w m /\ w ∈ c_woken c.
Proof.
  intros H0 Hr Ht Hx Hown. destruct (reach_inv _ _ _ _ _ _ (starts_inv _ _ true _ _ H0) Hr) as [A [Hrel Hi Hw]].
  destruct (ai_phase _ _ _ _ _ _ Hi t m Ht) as [_ Hm]. destruct (ai_mutexes _ _ _ _ _ _ Hi m Hm) as [a Ha].
  destruct (ml_mx _ _ Hrel m a Ha) as (x' & Hx' & Hok). assert (x' = x) as -> by congruence.
  assert (Ho : a_owner a = NULL) by (by rewrite <- (mo_owner _ _ _ Hok)).
  destruct (decide (t ∈ a_queue a)) as [Hq|Hq].
  - destruct (Hw eq_refl m a Ha Ho) as (w & Hp & _ & Hin); [|by exists w].
    intros E. rewrite E in Hq. by apply not_elem_of_nil in Hq.
  - exists t. split; [done|]. by apply (li_woken _ _ _ _ _ _ (ai_local _ _ _ _ _ _ Hi m a Ha)).
Qed.

Lemma mutex_no_lost_wakeup_witness :
  exists w, waits (demo_released 9) w 9 /\ w ∈ c_woken (demo_released 9).
Proof.
  apply (mutex_no_lost_wakeup [1%positive; 2%positive; 3%positive] [9%positive; 8%positive]
           demo_start demo_start_ast (demo_released 9) 3 9
           (Mutex 1 NULL 0 (Waitq (Some 3%positive) (Some 3%positive)))).
  - apply demo_starts.
  - apply demo_released_reach. by left.
  - reflexivity.
  - reflexivity.
  - reflexivity.
Defined.

(** C7: a mutex with the fair policy never loses a wakeup, whatever happens
    to its waiters (cancellation, extra events): when it is unlocked, every
    thread in its wait has a wakeup on its way, and when it is locked its
    owner either knows that it has it or has a wakeup on its way. *)
Theorem mutex_fair_handoff threads mutexes c0 A0 c m x :
  starts threads mutexes c0 A0 -> reach threads mutexes false c0 c -> m ∈ mutexes ->
  x_mutex (c_s c) !! m = Some x -> mx_flag x PTH_MUTEX_FAIR = true ->
  match mx_owner x with
  | None => wq_head (mx_waitq x) = NULL /\ forall t, waits c t m -> t ∈ c_woken c
  | Some o => 0 < hold c o m \/ (waits c o m /\ o ∈ c_woken c)
  end.
Proof.
  intros H0 Hr Hm Hx Hf. destruct (reach_inv _ _ _ _ _ _ (starts_inv _ _ false _ _ H0) Hr) as [A [Hrel Hi _]].
  destruct (ai_mutexes _ _ _ _ _ _ Hi m Hm) as [a Ha].
  assert (Hl := ai_local _ _ _ _ _ _ Hi m a Ha).
  destruct (ml_mx _ _ Hrel m a Ha) as (x' & Hx' & Hok). assert (x' = x) as -> by congruence.
  destruct (ok_flags _ _ _ Hok) as (_ & _ & Hfa & _). rewrite Hf in Hfa.
  rewrite (mo_owner _ _ _ Hok). destruct (a_owner a) as [o|] eqn:Ho.
  - destruct (decide (c_phase c !! o = Some m)) as [Hp|Hp].
    + right. split; [done|]. apply (li_woken _ _ _ _ _ _ Hl o Hp).
      intros Hq. by destruct (li_queue _ _ _ _ _ _ Hl o Hq).
    + left. unfold hold. rewrite (li_own _ _ _ _ _ _ Hl o) by done.
      assert (a_count a <> 0) by (intros E; apply (mo_free _ _ _ Hok) in E; congruence).
      pose proof (mo_range _ _ _ Hok). lia.
  - assert (Hq := li_fair _ _ _ _ _ _ Hl (eq_sym Hfa) Ho). split.
    + rewrite (wr_head _ _ _ (mo_queue _ _ _ Hok)), Hq. done.
    + intros t Ht. apply (li_woken _ _ _ _ _ _ Hl t Ht). rewrite Hq. apply not_elem_of_nil.
Qed.

Lemma mutex_fair_handoff_witness :
  match Some 2%positive with
  | None => Some 3%positive = NULL /\ forall t, waits (demo_released 8) t 8 -> t ∈ c_woken (demo_released 8)
  | Some o => 0 < hold (demo_released 8) o 8 \/ (waits (demo_released 8) o 8 /\ o ∈ c_woken (demo_released 8))
  end.
Proof.
  apply (mutex_fair_handoff [1%positive; 2%positive; 3%positive] [9%positive; 8%positive]
           demo_start demo_start_ast (demo_released 8) 8
           (Mutex 7 (Some 2%positive) 1 (Waitq (Some 3%positive) (Some 3%positive)))).
  - apply demo_starts.
  - apply demo_released_reach. right. by left.
  - right. by left.
  - reflexivity.
  - reflexivity.
Defined.

(** Under the default policy a cancellation can lose a wakeup. Thread 1
    releases the mutex 2 and 3 wait for, which wakes 2; 2 is cancelled before
    it resumes. Then the mutex is unlocked, 3 is in its queue, and no wakeup
    is on its way to anybody. *)
Theorem mutex_cancel_loses_wakeup :
  exists c x, reach [1%positive; 2%positive; 3%positive] [9%positive; 8%positive] false demo_start c /\
    x_mutex (c_s c) !! 9%positive = Some x /\ mx_owner x = NULL /\
    mx_flag x PTH_MUTEX_LOCKED = false /\ wq_head (mx_waitq x) = Some 3%positive /\
    waits c 3 9 /\ c_woken c = [].
Proof.
  exists (do_cancel (demo_released 9) 2 9), (Mutex 1 NULL 0 (Waitq (Some 3%positive) (Some 3%positive))).
  split_and!; try reflexivity. apply do_cancel_reach; [|reflexivity].
  apply demo_released_reach. by left.
Qed.

(** [pth_mutex_releaseall], which a dying thread relies on to give up
    what it has locked, stops after the first mutex: of two mutexes held once
    each the second stays locked by the thread. *)
Theorem mutex_releaseall_stops_early :
  let s := c_s (do_acquire (do_acquire demo_start 1 9) 1 8) in
  (forall m, m = 9%positive \/ m = 8%positive ->
     exists x, x_mutex s !! m = Some x /\ mx_owner x = Some 1%positive /\ mx_count x = 1) /\
  exists s', pth_mutex_releaseall 10 1 (Some 1%positive) s = Some (tt, s') /\
    (exists x, x_mutex s' !! 9%positive = Some x /\ mx_owner x = NULL) /\
    (exists x, x_mutex s' !! 8%positive = Some x /\ mx_owner x = Some 1%positive).
Proof.
  split; [|eexists; split_and!].
  - intros m [->| ->]; (eexists; split_and!; [reflexivity|reflexivity|reflexivity]).
  - vm_compute. reflexivity.
  - eexists. split; reflexivity.
  - eexists. split; reflexivity.
Qed.
