(* ===== verification/Rwlock.v ===== *)
(** * Read-write locks (src/pth_sync.c, lines 326-505)

    As with mutexes, an acquisition is split at its [pth_wait]:
    [rwlock_attempt] is the body of the loop up to the return or the wait and
    [rwlock_resume] what follows the wait, up to the next return or wait. The
    step relation at the end interleaves readers and writers. *)

From stdpp Require Import base numbers gmap list.
From S2P Require Import Prelude Waitq.
Open Scope Z_scope.

Definition PTH_RWLOCK_INITIALIZED : Z := 1.
Inductive rwop := PTH_RWLOCK_RD | PTH_RWLOCK_RW.
#[export] Instance rwop_eq_dec : EqDecision rwop.
Proof. solve_decision. Defined.

(** [struct pth_rwlock_st] *)
Record rwlock := Rwlock {
  rw_state : Z;
  rw_mode : rwop;
  rw_readers : Z;
  rw_owner : ptr;
  rw_waitq_rd : waitq;
  rw_waitq_rw : waitq;
  rw_wrwait : Z
}.

Record rws := Rws { w_park : park; w_lock : gmap addr rwlock }.

Definition on_rwpark {A : Type} (m : st park A) : st rws A :=
  zoom w_park (fun p s => Rws p (w_lock s)) m.
Definition rd_rwlock (l : addr) : st rws rwlock :=
  fun s => match w_lock s !! l with Some x => Some (x, s) | None => None end.
Definition wr_rwlock (l : addr) (x : rwlock) : st rws unit :=
  fun s => Some (tt, Rws (w_park s) (<[l := x]> (w_lock s))).

Definition pth_rwlock_init (rwlock : ptr) : st rws (bool * option errno) :=
  match rwlock with
  | None => mret (pth_error false EINVAL)
  | Some l =>
      wr_rwlock l (Rwlock PTH_RWLOCK_INITIALIZED PTH_RWLOCK_RD 0 NULL pth_waitq_init pth_waitq_init 0);;
      mret (ok true)
  end.

(** Leaving the queue of the parked writers; the counter of waiting writers
    goes down if the thread was there. *)
Definition rw_unqueue_rw (cur l : addr) : st rws unit :=
  x ← rd_rwlock l;
  q ← on_rwpark (on_wq (pth_waitq_remove (rw_waitq_rw x) (Some cur)));
  wr_rwlock l (Rwlock (rw_state x) (rw_mode x) (rw_readers x) (rw_owner x) (rw_waitq_rd x) q.2
                      (if q.1 : bool then u64 (rw_wrwait x - 1) else rw_wrwait x)).
Definition rw_unqueue_rd (cur l : addr) : st rws unit :=
  x ← rd_rwlock l;
  q ← on_rwpark (on_wq (pth_waitq_remove (rw_waitq_rd x) (Some cur)));
  wr_rwlock l (Rwlock (rw_state x) (rw_mode x) (rw_readers x) (rw_owner x) q.2 (rw_waitq_rw x) (rw_wrwait x)).

Definition pth_rwlock_wait_cleanup (cur l : addr) : st rws unit :=
  rw_unqueue_rw cur l;; rw_unqueue_rd cur l.

Inductive outcome :=
| Done (r : bool * option errno)
| Blocked.

(** The body of the loop of [pth_rwlock_acquire] up to the wait. *)
Definition rwlock_attempt (cur l : addr) (op : rwop) (tryonly : bool) (ev : ptr) : st rws outcome :=
  x ← rd_rwlock l;
  match op with
  | PTH_RWLOCK_RW =>
      if bool_decide (rw_owner x = NULL) && (rw_readers x =? 0) then
        wr_rwlock l (Rwlock (rw_state x) PTH_RWLOCK_RW (rw_readers x) (Some cur)
                            (rw_waitq_rd x) (rw_waitq_rw x) (rw_wrwait x));;
        mret (Done (ok true))
      else if tryonly then mret (Done (pth_error false EBUSY))
      else
        on_rwpark (wr_wqevent cur ev);;
        q ← on_rwpark (on_wq (pth_waitq_append (rw_waitq_rw x) (Some cur)));
        wr_rwlock l (Rwlock (rw_state x) (rw_mode x) (rw_readers x) (rw_owner x)
                            (rw_waitq_rd x) q (u64 (rw_wrwait x + 1)));;
        mret Blocked
  | PTH_RWLOCK_RD =>
      if bool_decide (rw_owner x = NULL) && (rw_wrwait x =? 0) then
        wr_rwlock l (Rwlock (rw_state x) PTH_RWLOCK_RD (u64 (rw_readers x + 1)) (rw_owner x)
                            (rw_waitq_rd x) (rw_waitq_rw x) (rw_wrwait x));;
        mret (Done (ok true))
      else if tryonly then mret (Done (pth_error false EBUSY))
      else
        on_rwpark (wr_wqevent cur ev);;
        q ← on_rwpark (on_wq (pth_waitq_append (rw_waitq_rd x) (Some cur)));
        wr_rwlock l (Rwlock (rw_state x) (rw_mode x) (rw_readers x) (rw_owner x)
                            q (rw_waitq_rw x) (rw_wrwait x));;
        mret Blocked
  end.

Definition pth_rwlock_acquire (cur : addr) (rwlock : ptr) (op : rwop) (tryonly : bool) (ev : ptr)
  : st rws outcome :=
  match rwlock with
  | None => mret (Done (pth_error false EINVAL))
  | Some l =>
      x ← rd_rwlock l;
      if Z.land (rw_state x) PTH_RWLOCK_INITIALIZED =? 0 then mret (Done (pth_error false EDEADLK))
      else rwlock_attempt cur l op tryonly ev
  end.

(** From the return of [pth_wait] on; [ev_extra], [pending] as for a mutex. *)
Definition rwlock_resume (cur l : addr) (op : rwop) (ev_extra pending : bool) (ev : ptr) : st rws outcome :=
  (match op with PTH_RWLOCK_RW => rw_unqueue_rw cur l | PTH_RWLOCK_RD => rw_unqueue_rd cur l end);;
  if ev_extra && pending then mret (Done (pth_error false EINTR))
  else rwlock_attempt cur l op false ev.

(** The loop that moves the parked readers to a chain, and the one that wakes
    them, the last parked first. *)
Fixpoint rw_herd (fuel : nat) (q : waitq) (chain : ptr) : st park (waitq * ptr) :=
  w ← on_wq (pth_waitq_shift q);
  match w.1 with
  | None => mret (w.2, chain)
  | Some _ =>
      match fuel with
      | O => undef
      | S fuel' => on_wq (wr_wq w.1 chain);; rw_herd fuel' w.2 w.1
      end
  end.

Fixpoint rw_wake_chain (fuel : nat) (chain : ptr) : st park unit :=
  match chain with
  | None => mret tt
  | Some _ =>
      match fuel with
      | O => undef
      | S fuel' =>
          n ← on_wq (rd_wq chain);
          on_wq (wr_wq chain NULL);;
          pth_gsched_wake_waiter chain;;
          rw_wake_chain fuel' n
      end
  end.

(** The lock became free: one parked writer is woken, else all parked
    readers. *)
Definition rw_handover (l : addr) : st rws unit :=
  x ← rd_rwlock l;
  w ← on_rwpark (on_wq (pth_waitq_shift (rw_waitq_rw x)));
  match w.1 with
  | Some _ =>
      wr_rwlock l (Rwlock (rw_state x) (rw_mode x) (rw_readers x) (rw_owner x) (rw_waitq_rd x) w.2
                          (u64 (rw_wrwait x - 1)));;
      on_rwpark (pth_gsched_wake_waiter w.1)
  | None =>
      s ← get_st;
      c ← on_rwpark (rw_herd (size (k_next (w_park s))) (rw_waitq_rd x) NULL);
      wr_rwlock l (Rwlock (rw_state x) (rw_mode x) (rw_readers x) (rw_owner x) c.1 w.2 (rw_wrwait x));;
      on_rwpark (rw_wake_chain (size (k_next (w_park s))) c.2)
  end.

Definition pth_rwlock_release (cur : addr) (rwlock : ptr) : st rws (bool * option errno) :=
  match rwlock with
  | None => mret (pth_error false EINVAL)
  | Some l =>
      x ← rd_rwlock l;
      if Z.land (rw_state x) PTH_RWLOCK_INITIALIZED =? 0 then mret (pth_error false EDEADLK)
      else if bool_decide (rw_owner x <> NULL) then
        if bool_decide (rw_owner x <> Some cur) then mret (pth_error false EACCES)
        else
          wr_rwlock l (Rwlock (rw_state x) (rw_mode x) (rw_readers x) NULL (rw_waitq_rd x)
                              (rw_waitq_rw x) (rw_wrwait x));;
          rw_handover l;; mret (ok true)
      else if rw_readers x =? 0 then mret (pth_error false EPERM)
      else
        let n := u64 (rw_readers x - 1) in
        wr_rwlock l (Rwlock (rw_state x) (rw_mode x) n (rw_owner x) (rw_waitq_rd x)
                            (rw_waitq_rw x) (rw_wrwait x));;
        if n >? 0 then mret (ok true) else rw_handover l;; mret (ok true)
  end.

(** ** The abstract lock *)

(** Owner, number of readers, the parked readers and writers. *)
Record arw := ARW { a_owner : ptr; a_readers : Z; a_rd : list addr; a_rw : list addr }.

Record rw_ok (h : wheap) (x : rwlock) (a : arw) : Prop := {
  ro_state : rw_state x = PTH_RWLOCK_INITIALIZED;
  ro_owner : rw_owner x = a_owner a;
  ro_readers : rw_readers x = a_readers a;
  ro_rd : wq_rep h (rw_waitq_rd x) (a_rd a);
  ro_rw : wq_rep h (rw_waitq_rw x) (a_rw a);
  ro_wrwait : rw_wrwait x = Z.of_nat (length (a_rw a));
  ro_range : 0 <= a_readers a < 2 ^ 64;
  ro_disj : forall t, t ∈ a_rd a -> t ∉ a_rw a
}.

(** The lock [l] of a state is represented by [a]; [threads] are the threads
    of the process. *)
Section refinement.
Context (threads : list addr) (l : addr).

Record rrel (s : rws) (a : arw) : Prop := {
  rl_lock : exists x, w_lock s !! l = Some x /\ rw_ok (k_next (w_park s)) x a;
  rl_threads : forall t, t ∈ threads -> thread_ok (w_park s) t;
  rl_rd : forall t, t ∈ a_rd a -> t ∈ threads;
  rl_rw : forall t, t ∈ a_rw a -> t ∈ threads
}.

Definition sp_attempt (a : arw) (cur : addr) (op : rwop) (tryonly : bool) : outcome * arw :=
  match op with
  | PTH_RWLOCK_RW =>
      if bool_decide (a_owner a = NULL) && (a_readers a =? 0)
      then (Done (ok true), ARW (Some cur) (a_readers a) (a_rd a) (a_rw a))
      else if tryonly then (Done (pth_error false EBUSY), a)
      else (Blocked, ARW (a_owner a) (a_readers a) (a_rd a) (a_rw a ++ [cur]))
  | PTH_RWLOCK_RD =>
      if bool_decide (a_owner a = NULL) && bool_decide (a_rw a = [])
      then (Done (ok true), ARW (a_owner a) (a_readers a + 1) (a_rd a) (a_rw a))
      else if tryonly then (Done (pth_error false EBUSY), a)
      else (Blocked, ARW (a_owner a) (a_readers a) (a_rd a ++ [cur]) (a_rw a))
  end.

Definition sp_unqueue (a : arw) (cur : addr) (op : rwop) : arw :=
  match op with
  | PTH_RWLOCK_RW => ARW (a_owner a) (a_readers a) (a_rd a) (without cur (a_rw a))
  | PTH_RWLOCK_RD => ARW (a_owner a) (a_readers a) (without cur (a_rd a)) (a_rw a)
  end.

(** The wakeups of a lock that became free: the first writer, or all readers
    in the reverse order of their arrival. *)
Definition sp_handover (a : arw) : arw * list addr :=
  match a_rw a with
  | w :: q => (ARW (a_owner a) (a_readers a) (a_rd a) q, [w])
  | [] => (ARW (a_owner a) (a_readers a) [] [], reverse (a_rd a))
  end.

Definition sp_release (a : arw) (cur : addr) : (bool * option errno) * arw * list addr :=
  if bool_decide (a_owner a <> NULL) then
    if bool_decide (a_owner a <> Some cur) then (pth_error false EACCES, a, [])
    else let r := sp_handover (ARW NULL (a_readers a) (a_rd a) (a_rw a)) in (ok true, r.1, r.2)
  else if a_readers a =? 0 then (pth_error false EPERM, a, [])
  else
    let a1 := ARW (a_owner a) (a_readers a - 1) (a_rd a) (a_rw a) in
    if a_readers a =? 1 then let r := sp_handover a1 in (ok true, r.1, r.2) else (ok true, a1, []).

Lemma x_rwpark {A : Type} (m : st park A) s x p :
  m (w_park s) = Some (x, p) -> on_rwpark m s = Some (x, Rws p (w_lock s)).
Proof. intros H. unfold on_rwpark, zoom. by rewrite H. Qed.
Lemma x_rd_rwlock s x : w_lock s !! l = Some x -> rd_rwlock l s = Some (x, s).
Proof. intros H. unfold rd_rwlock. by rewrite H. Qed.
Lemma x_wr_rwlock s x : wr_rwlock l x s = Some (tt, Rws (w_park s) (<[l := x]> (w_lock s))).
Proof. done. Qed.

Ltac rstep :=
  cbn [fst snd];
  first [ rewrite (st_bind_Some _ _ _ _ _ (st_ret_eq _ _))
        | rewrite (st_bind_Some _ _ _ _ _ (x_wr_rwlock _ _))
        | erewrite st_bind_Some;
          [ | first [ eapply x_rd_rwlock; eassumption | apply x_rwpark; eassumption
                    | apply x_rwpark, on_wq_eq; eassumption | eassumption ] ] ].

(** The lock after its record and the threads' fields were written. *)
Lemma rrel_upd s a a' x' p' S w :
  rrel s a -> pframe S w (w_park s) p' -> rw_ok (k_next p') x' a' ->
  (forall t, t ∈ a_rd a' \/ t ∈ a_rw a' -> t ∈ threads) ->
  rrel (Rws p' (<[l := x']> (w_lock s))) a'.
Proof.
  intros [] Hf Hx Ht. constructor; simpl.
  - exists x'. by rewrite lookup_insert_eq.
  - intros t Hin. eapply thread_frame; [done|auto].
  - intros t Hin. apply Ht. by left.
  - intros t Hin. apply Ht. by right.
Qed.

Lemma wq_dom_frame h h' q k (S : list addr) :
  wframe S h h' -> (forall t, t ∈ k -> t ∉ S) -> wq_rep h q k -> wq_rep h' q k.
Proof. apply wq_frame. Qed.

Lemma attempt_refines s a cur op tryonly ev :
  rrel s a -> cur ∈ threads -> cur ∉ a_rd a -> cur ∉ a_rw a -> a_readers a + 1 < 2 ^ 64 ->
  Z.of_nat (length (a_rw a)) + 1 < 2 ^ 64 ->
  exists s', rwlock_attempt cur l op tryonly ev s = Some ((sp_attempt a cur op tryonly).1, s') /\
    rrel s' (sp_attempt a cur op tryonly).2 /\
    exists S, pframe S [] (w_park s) (w_park s').
Proof.
  intros Hr Ht Hrd Hrw Hc Hl. destruct (rl_lock _ _ Hr) as (x & Hx & Hok).
  destruct (rl_threads _ _ Hr cur Ht) as [Hn [v Hv]].
  unfold rwlock_attempt, sp_attempt. rstep. rewrite (ro_owner _ _ _ Hok), (ro_readers _ _ _ Hok).
  assert (Hin : forall t, t ∈ a_rd a \/ t ∈ a_rw a -> t ∈ threads).
  { intros t [|]; [by eapply rl_rd|by eapply rl_rw]. }
  set (p1 := Park (k_next (w_park s)) (<[cur := ev]> (k_event (w_park s))) (k_wakes (w_park s))).
  assert (E1 : wr_wqevent cur ev (w_park s) = Some (tt, p1)) by (by eapply wr_wqevent_eq).
  assert (Hp1 : pframe (cur :: a_rd a ++ a_rw a) [] (w_park s) p1)
    by (apply pframe_event; [by left|by eexists]).
  destruct op.
  - assert (E0 : (rw_wrwait x =? 0) = bool_decide (a_rw a = [])).
    { rewrite (ro_wrwait _ _ _ Hok). destruct (a_rw a); [done|]. by rewrite bool_decide_eq_false_2. }
    rewrite E0. destruct (bool_decide (a_owner a = NULL) && bool_decide (a_rw a = [])).
    { rstep. eexists. split; [reflexivity|]. split; [|exists []; apply pframe_refl].
      eapply (rrel_upd s a _ _ _ [] []); [done|apply pframe_refl| |done].
      destruct Hok. constructor; simpl; try done; [|lia]. by rewrite u64_small by lia. }
    destruct tryonly.
    { eexists. split; [reflexivity|]. split; [done|exists []; apply pframe_refl]. }
    rstep. destruct (waitq_append_ok (k_next p1) (rw_waitq_rd x) (a_rd a) cur) as (h' & q' & E & Hq' & Hf);
      [apply Hok|done|done|].
    erewrite st_bind_Some by (apply x_rwpark, on_wq_eq; exact E). rstep.
    eexists. split; [reflexivity|].
    assert (Hpf : pframe (cur :: a_rd a ++ a_rw a) [] (w_park s) (Park h' (k_event p1) (k_wakes p1))).
    { apply (pframe_trans _ [] [] _ p1 _ Hp1). apply pframe_wq. eapply wframe_sub; [exact Hf|].
      intros t. rewrite !elem_of_cons, elem_of_app. tauto. }
    split; [|by exists (cur :: a_rd a ++ a_rw a)].
    eapply (rrel_upd s a); [done|exact Hpf| |].
    + destruct Hok. constructor; simpl; try done.
      * eapply wq_frame; [exact Hf| |exact ro_rw0]. intros t Hin1 [->|Hin2]%elem_of_cons; [done|].
        by apply (ro_disj0 t).
      * intros t [Hin1| ->%list_elem_of_singleton]%elem_of_app; [by apply ro_disj0|done].
    + intros t. simpl. rewrite elem_of_app, list_elem_of_singleton. intros [[| ->]|]; auto.
  - destruct (bool_decide (a_owner a = NULL) && (a_readers a =? 0)).
    { rstep. eexists. split; [reflexivity|]. split; [|exists []; apply pframe_refl].
      eapply (rrel_upd s a _ _ _ [] []); [done|apply pframe_refl| |done].
      destruct Hok. by constructor. }
    destruct tryonly.
    { eexists. split; [reflexivity|]. split; [done|exists []; apply pframe_refl]. }
    rstep. destruct (waitq_append_ok (k_next p1) (rw_waitq_rw x) (a_rw a) cur) as (h' & q' & E & Hq' & Hf);
      [apply Hok|done|done|].
    erewrite st_bind_Some by (apply x_rwpark, on_wq_eq; exact E). rstep.
    eexists. split; [reflexivity|].
    assert (Hpf : pframe (cur :: a_rd a ++ a_rw a) [] (w_park s) (Park h' (k_event p1) (k_wakes p1))).
    { apply (pframe_trans _ [] [] _ p1 _ Hp1). apply pframe_wq. eapply wframe_sub; [exact Hf|].
      intros t. rewrite !elem_of_cons, elem_of_app. tauto. }
    split; [|by exists (cur :: a_rd a ++ a_rw a)].
    eapply (rrel_upd s a); [done|exact Hpf| |].
    + destruct Hok. constructor; simpl; try done.
      * eapply wq_frame; [exact Hf| |exact ro_rd0]. intros t Hin1 [->|Hin2]%elem_of_cons; [done|].
        by apply (ro_disj0 t).
      * rewrite ro_wrwait0, u64_small, length_app by lia. simpl. lia.
      * intros t Hin1 [Hin2| ->%list_elem_of_singleton]%elem_of_app; [by apply (ro_disj0 t)|done].
    + intros t. simpl. rewrite elem_of_app, list_elem_of_singleton. intros [|[| ->]]; auto.
Qed.

Lemma without_length t (q : list addr) : NoDup q ->
  Z.of_nat (length (without t q)) = Z.of_nat (length q) - (if bool_decide (t ∈ q) then 1 else 0).
Proof.
  intros Hnd. case_bool_decide as Hin.
  - apply list_elem_of_split in Hin as (q1 & q2 & ->). unfold without.
    rewrite (filter_ne_split _ _ _ Hnd), !length_app. simpl. lia.
  - unfold without. rewrite filter_ne_notin by done. lia.
Qed.

Lemma unqueue_refines s a cur op :
  rrel s a -> Z.of_nat (length (a_rw a)) < 2 ^ 64 ->
  exists s', (match op with PTH_RWLOCK_RW => rw_unqueue_rw cur l | PTH_RWLOCK_RD => rw_unqueue_rd cur l end) s
      = Some (tt, s') /\ rrel s' (sp_unqueue a cur op) /\ pframe (a_rd a ++ a_rw a) [] (w_park s) (w_park s').
Proof.
  intros Hr Hlen. destruct (rl_lock _ _ Hr) as (x & Hx & Hok).
  assert (Hsub : forall t q, t ∈ without cur q -> t ∈ q) by (intros t q [_ ?]%elem_without; done).
  destruct op.
  - unfold rw_unqueue_rd. rstep.
    destruct (waitq_remove_ok _ _ _ cur (ro_rd _ _ _ Hok)) as (h' & q' & E & Hq' & Hf & _). rstep.
    eexists. split; [reflexivity|].
    assert (Hpf : pframe (a_rd a ++ a_rw a) [] (w_park s) (Park h' (k_event (w_park s)) (k_wakes (w_park s)))).
    { apply pframe_wq. eapply wframe_sub; [exact Hf|]. intros t Ht. apply elem_of_app. by left. }
    split; [|exact Hpf]. eapply (rrel_upd s a); [done|exact Hpf| |].
    + destruct Hok. constructor; simpl; try done.
      * eapply wq_frame; [exact Hf| |exact ro_rw0]. intros t H1 H2. by apply (ro_disj0 t).
      * intros t H1%Hsub. by apply ro_disj0.
    + simpl. intros t [Ht%Hsub|Ht]; [by eapply rl_rd|by eapply rl_rw].
  - unfold rw_unqueue_rw. rstep.
    destruct (waitq_remove_ok _ _ _ cur (ro_rw _ _ _ Hok)) as (h' & q' & E & Hq' & Hf & _). rstep.
    eexists. split; [reflexivity|].
    assert (Hpf : pframe (a_rd a ++ a_rw a) [] (w_park s) (Park h' (k_event (w_park s)) (k_wakes (w_park s)))).
    { apply pframe_wq. eapply wframe_sub; [exact Hf|]. intros t Ht. apply elem_of_app. by right. }
    split; [|exact Hpf]. eapply (rrel_upd s a); [done|exact Hpf| |].
    + assert (Hlw := without_length cur _ (wr_nodup _ _ _ (ro_rw _ _ _ Hok))).
      destruct Hok. constructor; simpl; try done.
      * eapply wq_frame; [exact Hf| |exact ro_rd0]. intros t H1 H2. by apply (ro_disj0 t).
      * rewrite ro_wrwait0. cbn [fst]. fold (without cur (a_rw a)). rewrite Hlw.
        case_bool_decide as Hin; [|lia]. destruct (a_rw a); [by apply not_elem_of_nil in Hin|].
        cbn [length] in *. rewrite u64_small; lia.
      * intros t H1 H2%Hsub. by apply (ro_disj0 t).
    + simpl. intros t [Ht|Ht%Hsub]; [by eapply rl_rd|by eapply rl_rw].
Qed.

(** The herd: the parked readers end up, the last first, in a chain. *)
Lemma herd_ok q k c acc p fuel :
  wq_rep (k_next p) q k -> c = head acc -> chained (k_next p) acc -> NoDup (reverse k ++ acc) ->
  (length k <= fuel)%nat ->
  exists h', rw_herd fuel q c p = Some ((Waitq NULL NULL, head (reverse k ++ acc)), Park h' (k_event p) (k_wakes p)) /\
    chained h' (reverse k ++ acc) /\ wframe k (k_next p) h'.
Proof.
  revert q c acc p fuel. induction k as [|t k IH]; intros q c acc p fuel Hq -> Hc Hnd Hf.
  - apply wq_empty in Hq as ->. exists (k_next p). split_and!; [|done|apply wframe_refl].
    destruct fuel; simpl; (erewrite st_bind_Some by (by apply on_wq_eq)); destruct p; done.
  - destruct fuel as [|fuel]; [simpl in Hf; lia|]. cbn [rw_herd].
    destruct (waitq_shift_ok _ _ _ Hq) as (h1 & q1 & E1 & Hq1 & Hf1).
    erewrite st_bind_Some by (apply on_wq_eq; exact E1). cbn [fst snd head tail] in *.
    assert (Hts : is_Some (h1 !! t)).
    { apply (wf_dom _ _ _ Hf1). eapply (wq_in _ _ _ t Hq). by left. }
    destruct Hts as [v Hv]. simpl option_list in *.
    erewrite st_bind_Some by (apply on_wq_eq; by apply (x_wr_wq _ _ _ _ Hv)). cbn [k_next k_event k_wakes].
    rewrite reverse_cons, <- app_assoc in Hnd. simpl in Hnd.
    assert (Hni : t ∉ k /\ t ∉ acc).
    { rewrite <- Permutation_middle in Hnd. apply NoDup_cons in Hnd as [Hn _].
      rewrite elem_of_app, elem_of_reverse in Hn. tauto. }
    destruct (IH q1 (Some t) (t :: acc) (Park (<[t := head acc]> h1) (k_event p) (k_wakes p)) fuel) as (h' & E & Hc' & Hf').
    + cbn [k_next]. eapply (wq_frame [t] h1); [|intros a Ha ->%list_elem_of_singleton; by destruct Hni|exact Hq1].
      apply wframe_upd. intros a. destruct (decide (t = a)) as [<-|]; [|left; by rewrite lookup_insert_ne].
      right. split; [by left|]. rewrite lookup_insert_eq. by eexists.
    + done.
    + cbn [k_next]. destruct acc as [|y acc]; simpl; [by rewrite lookup_insert_eq|].
      rewrite lookup_insert_eq. split; [done|]. simpl in Hc. eapply chain_frame; [|exact Hc].
      intros a Ha. rewrite lookup_insert_ne by (intros ->; by apply Hni).
      apply (wf_eq _ _ _ Hf1). intros ->%list_elem_of_singleton. by apply Hni.
    + done.
    + simpl in Hf. lia.
    + exists h'. rewrite reverse_cons, <- app_assoc. split_and!; [exact E|exact Hc'|].
      constructor.
      * intros a Ha. apply not_elem_of_cons in Ha as [Hat Hak]. rewrite (wf_eq _ _ _ Hf') by done.
        cbn [k_next]. rewrite lookup_insert_ne by done. apply (wf_eq _ _ _ Hf1).
        by intros ->%list_elem_of_singleton.
      * intros a Ha. apply (wf_dom _ _ _ Hf'). cbn [k_next]. destruct (decide (t = a)) as [->|].
        { rewrite lookup_insert_eq. by eexists. }
        rewrite lookup_insert_ne by done. by apply (wf_dom _ _ _ Hf1).
Qed.

Lemma wake_chain_ok c p fuel :
  chained (k_next p) c -> NoDup c -> (forall t, t ∈ c -> is_Some (k_event p !! t)) -> (length c <= fuel)%nat ->
  exists p', rw_wake_chain fuel (head c) p = Some (tt, p') /\ pframe c c p p'.
Proof.
  revert p fuel. induction c as [|t c IH]; intros p fuel Hc Hnd Hev Hf.
  - exists p. split; [by destruct fuel|apply pframe_refl].
  - destruct fuel as [|fuel]; [simpl in Hf; lia|]. cbn [rw_wake_chain head].
    assert (Ht : k_next p !! t = Some (head c)) by (destruct c; simpl in Hc; tauto).
    destruct (Hev t) as [ev Hevt]; [by left|]. apply NoDup_cons in Hnd as [Hni Hnd].
    erewrite st_bind_Some by (apply on_wq_eq; by apply x_rd_wq). cbn [k_next k_event k_wakes].
    erewrite st_bind_Some by (apply on_wq_eq; by apply (x_wr_wq _ _ _ _ Ht)). cbn [k_next k_event k_wakes].
    erewrite st_bind_Some by (by apply wake_eq). cbn [k_next k_event k_wakes].
    set (p1 := Park (<[t := NULL]> (k_next p)) (k_event p) (k_wakes p)).
    set (p2 := Park (k_next p1) (k_event p1) (k_wakes p1 ++ [(t, ev)])).
    destruct (IH p2 fuel) as (p' & E & Hpf); [|done| |simpl in Hf; lia|].
    + destruct c as [|y c]; [done|]. destruct Hc as [_ Hc]. simpl. eapply chain_frame; [|exact Hc].
      intros a Ha. rewrite lookup_insert_ne; [done|]. by intros ->.
    + intros a Ha. apply Hev. by right.
    + exists p'. split; [exact E|].
      assert (Hp1 : pframe (t :: c) [] p p1).
      { apply pframe_wq. apply wframe_upd. intros a.
        destruct (decide (t = a)) as [<-|]; [|left; by rewrite lookup_insert_ne].
        right. split; [by left|]. rewrite lookup_insert_eq. by eexists. }
      apply (pframe_trans _ [] (t :: c) _ p1 _ Hp1).
      apply (pframe_trans _ [t] c _ p2); [apply pframe_wake|].
      eapply pframe_sub; [exact Hpf|]. intros a Ha. by right.
Qed.

Lemma handover_refines s a :
  rrel s a -> Z.of_nat (length (a_rw a)) < 2 ^ 64 ->
  exists s', rw_handover l s = Some (tt, s') /\ rrel s' (sp_handover a).1 /\
    pframe (a_rd a ++ a_rw a) (sp_handover a).2 (w_park s) (w_park s').
Proof.
  intros Hr Hlen. destruct (rl_lock _ _ Hr) as (x & Hx & Hok). unfold rw_handover, sp_handover. rstep.
  destruct (waitq_shift_ok _ _ _ (ro_rw _ _ _ Hok)) as (h1 & q1 & E1 & Hq1 & Hf1). rstep.
  assert (Hp1 : pframe (a_rd a ++ a_rw a) [] (w_park s) (Park h1 (k_event (w_park s)) (k_wakes (w_park s)))).
  { apply pframe_wq. eapply wframe_sub; [exact Hf1|]. intros t Ht. apply elem_of_app. right.
    destruct (a_rw a); simpl in Ht; [done|]. apply list_elem_of_singleton in Ht as ->. by left. }
  assert (Hrd1 : wq_rep h1 (rw_waitq_rd x) (a_rd a)).
  { eapply wq_frame; [exact Hf1| |apply Hok]. intros t Ht Hin. apply (ro_disj _ _ _ Hok t Ht).
    destruct (a_rw a); simpl in Hin; [by apply not_elem_of_nil in Hin|].
    apply list_elem_of_singleton in Hin as ->. by left. }
  destruct (a_rw a) as [|w q] eqn:Erw; cbn [fst snd head tail] in *.
  - erewrite st_bind_Some by reflexivity. cbn [w_park k_next].
    assert (Hfuel : (length (a_rd a) <= size h1)%nat) by (by eapply chain_fuel).
    assert (Hnd : NoDup (reverse (a_rd a) ++ [])) by (rewrite app_nil_r; rewrite reverse_Permutation; apply Hrd1).
    destruct (herd_ok (rw_waitq_rd x) (a_rd a) NULL [] (Park h1 (k_event (w_park s)) (k_wakes (w_park s)))
                (size h1) Hrd1 eq_refl I Hnd Hfuel) as (h2 & E2 & Hc2 & Hf2).
    rewrite app_nil_r in *.
    erewrite st_bind_Some by (apply x_rwpark; exact E2). rstep. cbn [k_event k_wakes].
    set (p2 := Park h2 (k_event (w_park s)) (k_wakes (w_park s))).
    destruct (wake_chain_ok (reverse (a_rd a)) p2 (size h1)) as (p3 & E3 & Hp3); [done|done| | |].
    { intros t Ht. rewrite elem_of_reverse in Ht. destruct (rl_threads _ _ Hr t) as [_ ?]; [by apply (rl_rd _ _ Hr)|done]. }
    { by rewrite length_reverse. }
    assert (Hp2 : pframe (a_rd a) (reverse (a_rd a)) (w_park s) p3).
    { apply (pframe_trans _ [] _ _ _ _ Hp1). apply (pframe_trans _ [] (reverse (a_rd a)) _ p2).
      - apply (pframe_wq _ (Park h1 _ _)). exact Hf2.
      - eapply pframe_sub; [exact Hp3|]. intros t Ht. by rewrite elem_of_reverse in Ht. }
    eexists. split; [by apply x_rwpark|]. split; [|exact Hp2]. cbn [w_park w_lock].
    eapply (rrel_upd s a); [done|exact Hp2| |].
    + apply wq_empty in Hq1 as ->. destruct Hok. constructor; simpl; try done; try (by apply wq_empty).
      * by rewrite ro_wrwait0, Erw.
      * intros t Ht. by apply not_elem_of_nil in Ht.
    + simpl. intros t [Ht|Ht]; by apply not_elem_of_nil in Ht.
  - rstep. assert (Hev : is_Some (k_event (w_park s) !! w)).
    { destruct (rl_threads _ _ Hr w) as [_ ?]; [apply (rl_rw _ _ Hr); rewrite Erw; by left|done]. }
    destruct Hev as [ev Hev].
    eexists. split; [by apply x_rwpark, wake_eq|]. cbn [w_park w_lock k_next k_event k_wakes].
    assert (Hp2 : pframe (a_rd a ++ w :: q) [w] (w_park s)
      (Park h1 (k_event (w_park s)) (k_wakes (w_park s) ++ [(w, ev)]))).
    { apply (pframe_trans _ [] [w] _ _ _ Hp1). apply (pframe_wake _ (Park h1 _ _)). }
    split; [|exact Hp2]. eapply (rrel_upd s a); [done|exact Hp2| |].
    + destruct Hok. constructor; simpl; try done.
      * rewrite ro_wrwait0, Erw. cbn [length] in *. rewrite u64_small; lia.
      * intros t H1 H2. apply (ro_disj0 t H1). rewrite Erw. by right.
    + simpl. intros t [Ht|Ht]; [by eapply rl_rd|]. eapply (rl_rw _ _ Hr). rewrite Erw. by right.
Qed.

Lemma rw_release_refines s a cur :
  rrel s a -> Z.of_nat (length (a_rw a)) < 2 ^ 64 ->
  exists s', pth_rwlock_release cur (Some l) s = Some ((sp_release a cur).1.1, s') /\
    rrel s' (sp_release a cur).1.2 /\
    pframe (a_rd a ++ a_rw a) (sp_release a cur).2 (w_park s) (w_park s').
Proof.
  intros Hr Hlen. destruct (rl_lock _ _ Hr) as (x & Hx & Hok).
  unfold pth_rwlock_release, sp_release. rstep.
  assert (Hini : (Z.land (rw_state x) PTH_RWLOCK_INITIALIZED =? 0) = false)
    by (by rewrite (ro_state _ _ _ Hok)).
  rewrite Hini, (ro_owner _ _ _ Hok), (ro_readers _ _ _ Hok).
  assert (Hset : forall x' a', rw_waitq_rd x' = rw_waitq_rd x -> rw_waitq_rw x' = rw_waitq_rw x ->
     rw_state x' = rw_state x -> rw_wrwait x' = rw_wrwait x -> rw_owner x' = a_owner a' ->
     rw_readers x' = a_readers a' -> a_rd a' = a_rd a -> a_rw a' = a_rw a -> 0 <= a_readers a' < 2 ^ 64 ->
     rrel (Rws (w_park s) (<[l := x']> (w_lock s))) a').
  { intros x' a' H1 H2 H3 H4 H5 H6 H7 H8 H9. eapply (rrel_upd s a _ _ _ [] []); [done|apply pframe_refl| |].
    - destruct Hok. constructor; rewrite ?H1, ?H2, ?H3, ?H4, ?H7, ?H8; done.
    - rewrite H7, H8. intros t [|]; [by eapply rl_rd|by eapply rl_rw]. }
  bcase (a_owner a = NULL) Ho.
  - pose proof (ro_range _ _ _ Hok). destruct (Z.eqb_spec (a_readers a) 0) as [H0|H0].
    { exists s. split_and!; [done|done|apply pframe_refl]. }
    rewrite u64_small by lia. cbv zeta. rstep.
    assert (Hr1 := Hset (Rwlock (rw_state x) (rw_mode x) (a_readers a - 1) (a_owner a) (rw_waitq_rd x)
      (rw_waitq_rw x) (rw_wrwait x)) (ARW (a_owner a) (a_readers a - 1) (a_rd a) (a_rw a)) eq_refl eq_refl
      eq_refl eq_refl eq_refl eq_refl eq_refl eq_refl ltac:(simpl; lia)).
    destruct (Z.eqb_spec (a_readers a) 1) as [H1|H1].
    + replace (a_readers a - 1 >? 0) with false by lia.
      destruct (handover_refines _ _ Hr1 Hlen) as (s' & E & Hr' & Hp). rstep. exists s'. by split_and!.
    + replace (a_readers a - 1 >? 0) with true by lia. eexists. split; [reflexivity|].
      split; [exact Hr1|apply pframe_refl].
  - bcase (a_owner a = Some cur) Ho2.
    2:{ exists s. split_and!; [done|done|apply pframe_refl]. }
    rstep.
    assert (Hr1 := Hset (Rwlock (rw_state x) (rw_mode x) (a_readers a) NULL (rw_waitq_rd x)
      (rw_waitq_rw x) (rw_wrwait x)) (ARW NULL (a_readers a) (a_rd a) (a_rw a)) eq_refl eq_refl
      eq_refl eq_refl eq_refl eq_refl eq_refl eq_refl (ro_range _ _ _ Hok)).
    destruct (handover_refines _ _ Hr1 Hlen) as (s' & E & Hr' & Hp). rstep. exists s'. by split_and!.
Qed.
End refinement.

(** Every call on an initialised lock is memory safe, ends, and does what
    the abstract lock does. An acquisition takes the lock or parks the thread
    at the end of the queue of its kind (or gives [EBUSY]); a reader also
    yields to parked writers; a return from the wait leaves the queue and
    tries again, or gives [EINTR] if the extra event occurred; a release by
    the writer or by the last reader hands over to the first parked writer,
    else to all parked readers; other releases give [EACCES] or [EPERM]. *)
Lemma rwlock_ops_correct threads l s a cur :
  rrel threads l s a -> cur ∈ threads -> a_readers a + 1 < 2 ^ 64 ->
  Z.of_nat (length (a_rw a)) + 1 < 2 ^ 64 ->
  (forall op tryonly ev, cur ∉ a_rd a -> cur ∉ a_rw a ->
     let r := sp_attempt a cur op tryonly in
     exists s', pth_rwlock_acquire cur (Some l) op tryonly ev s = Some (r.1, s') /\ rrel threads l s' r.2) /\
  (forall op extra pending ev,
     match op with PTH_RWLOCK_RD => cur ∉ a_rw a | PTH_RWLOCK_RW => cur ∉ a_rd a end ->
     let a1 := sp_unqueue a cur op in
     let r := if extra && pending then (Done (pth_error false EINTR), a1) else sp_attempt a1 cur op false in
     exists s', rwlock_resume cur l op extra pending ev s = Some (r.1, s') /\ rrel threads l s' r.2) /\
  (let r := sp_release a cur in
   exists s', pth_rwlock_release cur (Some l) s = Some (r.1.1, s') /\ rrel threads l s' r.1.2 /\
     (k_wakes (w_park s')).*1 = (k_wakes (w_park s)).*1 ++ r.2).
Proof.
  intros Hr Ht Hc Hl. split_and!; intros.
  - subst r. destruct (rl_lock _ _ _ _ Hr) as (x & Hx & Hok).
    unfold pth_rwlock_acquire. rewrite (st_bind_Some _ _ _ _ _ (x_rd_rwlock _ _ _ Hx)), (ro_state _ _ _ Hok).
    simpl. destruct (attempt_refines threads l s a cur op tryonly ev) as (s' & E & Hr' & _); try done. eauto.
  - subst r a1. destruct (unqueue_refines threads l s a cur op Hr) as (s1 & E1 & Hr1 & _); [lia|].
    unfold rwlock_resume. rewrite (st_bind_Some _ _ _ _ _ E1).
    destruct (extra && pending); [by exists s1|].
    assert (H1 : cur ∉ without cur (a_rw a)) by (intros [? _]%elem_without; done).
    assert (H2 : cur ∉ without cur (a_rd a)) by (intros [? _]%elem_without; done).
    assert (Hle : (length (without cur (a_rw a)) <= length (a_rw a))%nat) by apply length_filter.
    destruct (attempt_refines threads l s1 (sp_unqueue a cur op) cur op false ev) as (s' & E & Hr' & _);
      [done|done|by destruct op|by destruct op|by destruct op|destruct op; simpl; lia|]. eauto.
  - subst r. destruct (rw_release_refines threads l s a cur Hr) as (s' & E & Hr' & Hf); [lia|].
    exists s'. split_and!; [done|done|apply Hf].
Qed.

(** A lock with a writer [1], a parked reader [2] and a parked writer [3]. *)
Definition rwlock_demo : rws :=
  Rws (Park {[ 1%positive := NULL; 2%positive := NULL; 3%positive := NULL ]}
            {[ 1%positive := NULL; 2%positive := NULL; 3%positive := NULL ]} [])
      {[ 9%positive := Rwlock 1 PTH_RWLOCK_RW 0 (Some 1%positive) (Waitq (Some 2%positive) (Some 2%positive))
                              (Waitq (Some 3%positive) (Some 3%positive)) 1 ]}.
Definition rwlock_demo_abs : arw := ARW (Some 1%positive) 0 [2%positive] [3%positive].

Lemma rwlock_demo_rel : rrel [1%positive; 2%positive; 3%positive] 9 rwlock_demo rwlock_demo_abs.
Proof.
  assert (Hnil : forall t : addr, t ∈ @nil addr -> False) by (intros t; apply not_elem_of_nil).
  assert (Hone : forall (h : wheap) t, h !! t = Some NULL -> wq_rep h (Waitq (Some t) (Some t)) [t]).
  { intros h t Ht. constructor; simpl; [done|done|by apply NoDup_singleton|done]. }
  constructor.
  - eexists. split; [reflexivity|]. constructor; simpl; try done; try (by apply Hone).
    by intros t ->%list_elem_of_singleton ?%list_elem_of_singleton.
  - intros t Ht. rewrite !elem_of_cons in Ht.
    destruct Ht as [->|[->|[->|Ht%Hnil]]]; [split; by eexists..|done].
  - intros t ->%list_elem_of_singleton. by apply (bool_decide_unpack _).
  - intros t ->%list_elem_of_singleton. by apply (bool_decide_unpack _).
Qed.

Lemma rwlock_ops_correct_witness :
  exists s', pth_rwlock_release 1 (Some 9%positive) rwlock_demo = Some (ok true, s') /\
    rrel [1%positive; 2%positive; 3%positive] 9 s' (ARW NULL 0 [2%positive] []) /\
    (k_wakes (w_park s')).*1 = [3%positive].
Proof.
  destruct (rwlock_ops_correct [1%positive; 2%positive; 3%positive] 9 rwlock_demo rwlock_demo_abs 1)
    as (_ & _ & H).
  - apply rwlock_demo_rel.
  - by left.
  - reflexivity.
  - reflexivity.
  - exact H.
Defined.
