(* ===== verification/RwlockSys.v ===== *)
(** * Readers and writers

    The interleavings of any number of threads on one read-write lock, on any
    number of schedulers, in the manner of [MutexSys]. *)

From stdpp Require Import base numbers gmap list.
From S2P Require Import Prelude Waitq Rwlock.
Open Scope Z_scope.

(** [g_phase]: the threads in the wait of the lock and what they wait for;
    [g_rd], [g_wr]: the threads that were told they have the lock for reading
    (once per acquisition) or writing and have not released it; [g_woken]:
    the threads with a wakeup on its way. *)
Record rcfg := Rcfg {
  g_s : rws;
  g_phase : gmap addr rwop;
  g_rd : list addr;
  g_wr : list addr;
  g_woken : list addr
}.

Fixpoint remove1 (t : addr) (k : list addr) : list addr :=
  match k with
  | [] => []
  | x :: k' => if bool_decide (x = t) then k' else x :: remove1 t k'
  end.

Definition rw_phase_after (t : addr) (op : rwop) (r : outcome) (ph : gmap addr rwop) : gmap addr rwop :=
  match r with Blocked => <[t := op]> ph | Done _ => delete t ph end.
Definition rd_after (t : addr) (op : rwop) (r : outcome) (k : list addr) : list addr :=
  match r, op with Done (true, _), PTH_RWLOCK_RD => t :: k | _, _ => k end.
Definition wr_after (t : addr) (op : rwop) (r : outcome) (k : list addr) : list addr :=
  match r, op with Done (true, _), PTH_RWLOCK_RW => t :: k | _, _ => k end.

Definition rw_after (c : rcfg) (t : addr) (op : rwop) (r : outcome) (s' : rws) : rcfg :=
  Rcfg s' (rw_phase_after t op r (g_phase c)) (rd_after t op r (g_rd c)) (wr_after t op r (g_wr c))
       (without t (g_woken c)).

Definition rw_new_wakes (s s' : rws) : list addr :=
  drop (length (k_wakes (w_park s))) (k_wakes (w_park s')).*1.

Section system.
Context (threads : list addr) (l : addr).
Context (few : Z.of_nat (length threads) + 1 < 2 ^ 64).

(** A release is called by a thread that has the lock. *)
Inductive rstep (plain : bool) (c : rcfg) : rcfg -> Prop :=
| rs_acquire t op tryonly ev r s' :
    t ∈ threads -> g_phase c !! t = None -> Z.of_nat (length (g_rd c)) + 1 < 2 ^ 64 ->
    pth_rwlock_acquire t (Some l) op tryonly ev (g_s c) = Some (r, s') ->
    rstep plain c (rw_after c t op r s')
| rs_resume t op extra pending ev r s' :
    g_phase c !! t = Some op -> Z.of_nat (length (g_rd c)) + 1 < 2 ^ 64 ->
    (if plain then extra = false else True) ->
    (if extra && pending then True else t ∈ g_woken c) ->
    rwlock_resume t l op extra pending ev (g_s c) = Some (r, s') ->
    rstep plain c (rw_after c t op r s')
| rs_release t r s' :
    g_phase c !! t = None -> t ∈ g_wr c ++ g_rd c ->
    pth_rwlock_release t (Some l) (g_s c) = Some (r, s') ->
    rstep plain c (Rcfg s' (g_phase c) (if bool_decide (t ∈ g_wr c) then g_rd c else remove1 t (g_rd c))
                        (remove1 t (g_wr c)) (g_woken c ++ rw_new_wakes (g_s c) s'))
| rs_cancel t op s' :
    plain = false -> g_phase c !! t = Some op ->
    pth_rwlock_wait_cleanup t l (g_s c) = Some (tt, s') ->
    rstep plain c (Rcfg s' (delete t (g_phase c)) (g_rd c) (g_wr c) (without t (g_woken c))).

Inductive rreach (plain : bool) (c0 : rcfg) : rcfg -> Prop :=
| rr_init : rreach plain c0 c0
| rr_step c c' : rreach plain c0 c -> rstep plain c c' -> rreach plain c0 c'.

Definition parked (a : arw) (t : addr) : Prop := t ∈ a_rd a \/ t ∈ a_rw a.

Record rinv (a : arw) (ph : gmap addr rwop) (rd wr wk : list addr) : Prop := {
  ri_phase : forall t op, ph !! t = Some op -> t ∈ threads;
  ri_prd : forall t, t ∈ a_rd a -> ph !! t = Some PTH_RWLOCK_RD;
  ri_prw : forall t, t ∈ a_rw a -> ph !! t = Some PTH_RWLOCK_RW;
  ri_wr : wr = option_list (a_owner a);
  ri_rd : Z.of_nat (length rd) = a_readers a;
  ri_excl : a_owner a <> NULL -> a_readers a = 0;
  ri_woken : forall t op, ph !! t = Some op -> ~ parked a t -> t ∈ wk;
  ri_out : forall t, t ∈ wk -> ~ parked a t
}.

Definition rfree (a : arw) : Prop := a_owner a = NULL /\ a_readers a = 0.

(** A free lock: if writers are parked, a woken writer is on its way; if only
    readers are, some woken thread is. *)
Definition rwakeup (a : arw) (ph : gmap addr rwop) (wk : list addr) : Prop :=
  rfree a ->
  (a_rw a <> [] -> exists w, ph !! w = Some PTH_RWLOCK_RW /\ ~ parked a w /\ w ∈ wk) /\
  (a_rd a <> [] -> a_rw a = [] -> exists w op, ph !! w = Some op /\ ~ parked a w /\ w ∈ wk).

Definition rgood (plain : bool) (a : arw) ph rd wr wk : Prop :=
  rinv a ph rd wr wk /\ (plain = true -> rwakeup a ph wk).

Lemma remove1_length t k : t ∈ k -> S (length (remove1 t k)) = length k.
Proof.
  induction k as [|x k IH]; [by intros ?%not_elem_of_nil|]. simpl. case_bool_decide as Hx; [done|].
  intros [->|Hin]%elem_of_cons; [done|]. simpl. by rewrite IH.
Qed.

Lemma new_wakes_park S w s s' : pframe S w (w_park s) (w_park s') -> rw_new_wakes s s' = w.
Proof.
  intros Hf. unfold rw_new_wakes. rewrite (pf_wakes _ _ _ _ Hf).
  rewrite <- (length_fmap fst (k_wakes (w_park s))). apply drop_app_length.
Qed.

Lemma nodup_few (k : list addr) : NoDup k -> (forall t, t ∈ k -> t ∈ threads) ->
  Z.of_nat (length k) + 1 < 2 ^ 64.
Proof.
  intros Hnd Hs. assert (length k <= length threads)%nat; [|lia].
  apply submseteq_length. by apply NoDup_submseteq.
Qed.

Lemma parked_queue (a : arw) t : t ∉ a_rd a -> t ∉ a_rw a -> ~ parked a t.
Proof. by intros H1 H2 [?|?]. Qed.

(** ** The steps preserve the invariant *)

(** The attempt of a thread [t] that is not parked; its phase is arbitrary. *)
Lemma sp_attempt_inv a ph rd wr wk t op tryonly :
  rinv a ph rd wr wk -> t ∈ threads -> t ∉ a_rd a -> t ∉ a_rw a ->
  let r := sp_attempt a t op tryonly in
  rinv r.2 (rw_phase_after t op r.1 ph) (rd_after t op r.1 rd) (wr_after t op r.1 wr) (without t wk).
Proof.
  intros [H1 H2 H3 H4 H5 H6 H7 H8] Ht Hrd Hrw. cbv zeta.
  assert (Hne : forall x, x ∈ a_rd a \/ x ∈ a_rw a -> x <> t) by (intros x [?|?] ->; done).
  assert (Hdel : forall x, x <> t -> delete t ph !! x = ph !! x) by (intros; by rewrite lookup_delete_ne).
  assert (Hins : forall x, x <> t -> <[t := op]> ph !! x = ph !! x) by (intros; by rewrite lookup_insert_ne).
  assert (Hgen : forall a' rd' wr', a_rd a' = a_rd a -> a_rw a' = a_rw a ->
     wr' = option_list (a_owner a') -> Z.of_nat (length rd') = a_readers a' ->
     (a_owner a' <> NULL -> a_readers a' = 0) -> rinv a' (delete t ph) rd' wr' (without t wk)).
  { intros a' rd' wr' E1 E2 E3 E4 E5. constructor; rewrite ?E1, ?E2; try done.
    - intros x o [_ Hx]%lookup_delete_Some. by eapply H1.
    - intros x Hx. rewrite Hdel by auto. by apply H2.
    - intros x Hx. rewrite Hdel by auto. by apply H3.
    - intros x o [Hxt Hx]%lookup_delete_Some Hp. apply elem_without. split; [done|].
      eapply H7; [exact Hx|]. unfold parked in *. by rewrite E1, E2 in Hp.
    - intros x [_ Hx]%elem_without. unfold parked. rewrite E1, E2. by apply H8. }
  assert (Hblk : forall a', a_owner a' = a_owner a -> a_readers a' = a_readers a ->
     (forall x, x ∈ a_rd a' <-> x ∈ a_rd a \/ (x = t /\ op = PTH_RWLOCK_RD)) ->
     (forall x, x ∈ a_rw a' <-> x ∈ a_rw a \/ (x = t /\ op = PTH_RWLOCK_RW)) ->
     rinv a' (<[t := op]> ph) rd wr (without t wk)).
  { intros a' E1 E2 E3 E4. constructor; rewrite ?E1, ?E2; try done.
    - intros x o [[-> _]|[_ Hx]]%lookup_insert_Some; [done|by eapply H1].
    - intros x [Hx|[-> ->]]%E3; [rewrite Hins by auto; by apply H2|by rewrite lookup_insert_eq].
    - intros x [Hx|[-> ->]]%E4; [rewrite Hins by auto; by apply H3|by rewrite lookup_insert_eq].
    - intros x o [[<- <-]|[Hxt Hx]]%lookup_insert_Some Hp.
      + exfalso. apply Hp. destruct op; [left; apply E3|right; apply E4]; auto.
      + apply elem_without. split; [done|]. eapply H7; [exact Hx|].
        intros [Hin|Hin]; apply Hp; [left; apply E3|right; apply E4]; auto.
    - intros x [Hxt Hx]%elem_without Hp. apply (H8 x Hx). destruct Hp as [Hp%E3|Hp%E4];
        [left|right]; (destruct Hp as [?|[? _]]; done). }
  unfold sp_attempt. destruct op.
  - bcase (a_owner a = NULL) Ho; [bcase (a_rw a = []) Hq|];
      [|destruct tryonly..]; cbn [fst snd rw_phase_after rd_after wr_after ok pth_error]; try (by apply Hgen).
    + apply Hgen; simpl; [done|done|done|lia|by intros E; destruct E].
    + apply Hblk; simpl; [done|done| |intros x; split; [auto|intros [?|[_ ?]]; done]].
      intros x. rewrite elem_of_app, list_elem_of_singleton. naive_solver.
    + apply Hblk; simpl; [done|done| |intros x; split; [auto|intros [?|[_ ?]]; done]].
      intros x. rewrite elem_of_app, list_elem_of_singleton. naive_solver.
  - bcase (a_owner a = NULL) Ho; [destruct (Z.eqb_spec (a_readers a) 0) as [Hq|Hq]|];
      [|destruct tryonly..]; cbn [fst snd rw_phase_after rd_after wr_after ok pth_error]; try (by apply Hgen).
    + apply Hgen; simpl; try done. by rewrite H4, Ho.
    + apply Hblk; simpl; [done|done|intros x; split; [auto|intros [?|[_ ?]]; done]|].
      intros x. rewrite elem_of_app, list_elem_of_singleton. naive_solver.
    + apply Hblk; simpl; [done|done|intros x; split; [auto|intros [?|[_ ?]]; done]|].
      intros x. rewrite elem_of_app, list_elem_of_singleton. naive_solver.
Qed.

Lemma sp_attempt_wakeup a ph rd wr wk t op tryonly :
  rinv a ph rd wr wk -> rwakeup a ph wk -> t ∉ a_rd a -> t ∉ a_rw a ->
  ph !! t = None \/ (ph !! t = Some op /\ tryonly = false) ->
  let r := sp_attempt a t op tryonly in
  rwakeup r.2 (rw_phase_after t op r.1 ph) (without t wk).
Proof.
  intros Hi Hw Hrd Hrw Hp. cbv zeta. unfold sp_attempt. destruct op.
  - bcase (a_owner a = NULL) Ho; [bcase (a_rw a = []) Hq|];
      [|destruct tryonly..]; cbn [fst snd rw_phase_after ok pth_error].
    + intros [_ Hr]. simpl in Hr. pose proof (ri_rd _ _ _ _ _ Hi). lia.
    + destruct Hp as [Hp|[_ ?]]; [|done]. rewrite delete_id by done. intros Hfr.
      destruct (Hw Hfr) as [Hw1 _]. split; [|by intros _ ?]. intros _.
      destruct (Hw1 Hq) as (w & Hpw & Hnp & Hin). exists w. split_and!; [done|done|].
      apply elem_without. split; [congruence|done].
    + intros [_ Hr]. simpl in Hr. destruct (Hw (conj Ho Hr)) as [Hw1 _]. simpl. split; [|by intros _ ?].
      intros _. destruct (Hw1 Hq) as (w & Hpw & Hnp & Hin).
      assert (w <> t) as Hwt by (intros ->; destruct Hp as [|[Hp _]]; congruence).
      exists w. split_and!; [by rewrite lookup_insert_ne| |by apply elem_without].
      intros [[Hx| ->%list_elem_of_singleton]%elem_of_app|Hx]; [by apply Hnp; left|done|by apply Hnp; right].
    + destruct Hp as [Hp|[_ ?]]; [|done]. by intros [? _].
    + by intros [? _].
  - bcase (a_owner a = NULL) Ho; [destruct (Z.eqb_spec (a_readers a) 0) as [Hq|Hq]|];
      [|destruct tryonly..]; cbn [fst snd rw_phase_after ok pth_error]; by intros [? ?].
Qed.

(** The handover of a lock that became free. *)
Lemma sp_handover_good plain a ph rd wr wk :
  rinv a ph rd wr wk -> NoDup (a_rw a) -> (forall t, t ∈ a_rd a -> t ∉ a_rw a) ->
  rgood plain (sp_handover a).1 ph rd wr (wk ++ (sp_handover a).2).
Proof.
  intros [H1 H2 H3 H4 H5 H6 H7 H8] Hn1 Hd. unfold sp_handover.
  assert (Hnil : forall t : addr, t ∈ @nil addr -> False) by (intros t; apply not_elem_of_nil).
  destruct (a_rw a) as [|w q] eqn:Eq; cbn [fst snd].
  - split; [|by intros _ _].
    constructor; unfold parked; simpl; try done; try (by intros t Ht%Hnil);
      [|by intros t _ [Ht%Hnil|Ht%Hnil]].
    intros t op Hp _. apply elem_of_app. destruct (decide (t ∈ a_rd a)) as [Hin|Hin].
    + right. by apply elem_of_reverse.
    + left. eapply H7; [exact Hp|]. intros [?|Hx]; [done|]. rewrite Eq in Hx. by apply Hnil in Hx.
  - apply NoDup_cons in Hn1 as [Hwq Hn1].
    assert (Hpw : ph !! w = Some PTH_RWLOCK_RW) by (apply H3; by left).
    assert (Hnw : ~ parked (ARW (a_owner a) (a_readers a) (a_rd a) q) w).
    { intros [Hx|Hx]; [|done]. simpl in Hx. apply (Hd w Hx). by left. }
    assert (Hwin : w ∈ wk ++ [w]) by (apply elem_of_app; right; by left).
    split.
    + constructor; simpl; try done.
      * intros t Ht. apply H3. by right.
      * intros t op Hp Hnp. apply elem_of_app. destruct (decide (t = w)) as [->|Hne]; [right; by left|left].
        eapply H7; [exact Hp|]. intros [Hx|Hx]; apply Hnp; [by left|]. rewrite Eq in Hx.
        apply elem_of_cons in Hx as [?|Hx]; [done|by right].
      * intros t [Ht| ->%list_elem_of_singleton]%elem_of_app; [|done].
        intros [Hx|Hx]; apply (H8 t Ht); [by left|]. right. rewrite Eq. by right.
    + intros _ _. simpl. split; intros; [by exists w|by exists w, PTH_RWLOCK_RW].
Qed.

(** A release by a thread [t] that has the lock. *)
Lemma rw_release_good plain a ph rd wr wk t :
  rgood plain a ph rd wr wk -> NoDup (a_rw a) -> (forall x, x ∈ a_rd a -> x ∉ a_rw a) -> t ∈ wr ++ rd ->
  let r := sp_release a t in
  rgood plain r.1.2 ph (if bool_decide (t ∈ wr) then rd else remove1 t rd) (remove1 t wr) (wk ++ r.2).
Proof.
  intros [Hi Hw] Hn Hd Ht. cbv zeta. unfold sp_release. destruct Hi as [H1 H2 H3 H4 H5 H6 H7 H8].
  bcase (a_owner a = NULL) Ho.
  - rewrite Ho in H4. simpl in H4. subst wr. simpl in Ht. pose proof (remove1_length _ _ Ht) as Hl.
    rewrite bool_decide_eq_false_2 by apply not_elem_of_nil. simpl remove1 at 1.
    destruct (Z.eqb_spec (a_readers a) 0) as [H0|H0]; [lia|].
    destruct (Z.eqb_spec (a_readers a) 1) as [E1|E1]; cbn [fst snd].
    + apply sp_handover_good; simpl; [|done|done]. constructor; simpl; try done; [by rewrite Ho|lia].
    + rewrite app_nil_r. split; [|intros _ [_ Hr]; simpl in Hr; lia].
      constructor; simpl; try done; [by rewrite Ho|lia].
  - destruct (a_owner a) as [o|] eqn:Eo; [|done]. simpl in H4. subst wr.
    assert (H0 : a_readers a = 0) by (by apply H6). destruct rd; [|simpl in H5; lia].
    rewrite app_nil_r in Ht. apply list_elem_of_singleton in Ht as ->.
    rewrite (bool_decide_eq_false_2 (Some o <> Some o)) by auto. cbn [fst snd].
    rewrite bool_decide_eq_true_2 by (by left). simpl remove1. rewrite bool_decide_eq_true_2 by done.
    apply sp_handover_good; simpl; [|done|done]. by constructor.
Qed.

Lemma without_id t (k : list addr) : t ∉ k -> without t k = k.
Proof. intros H. unfold without. by rewrite filter_ne_notin. Qed.

Lemma sp_unqueue_id a t op : ~ parked a t -> sp_unqueue a t op = a.
Proof. intros H. destruct a, op; unfold sp_unqueue; simpl; rewrite without_id; auto; intros ?; apply H; [by left|by right]. Qed.

(** A thread [t] leaves the wait without the lock. *)
Lemma sp_leave_inv a ph rd wr wk t a' :
  rinv a ph rd wr wk -> a_owner a' = a_owner a -> a_readers a' = a_readers a ->
  (forall x, x ∈ a_rd a' <-> x <> t /\ x ∈ a_rd a) ->
  (forall x, x ∈ a_rw a' <-> x <> t /\ x ∈ a_rw a) ->
  rinv a' (delete t ph) rd wr (without t wk).
Proof.
  intros [H1 H2 H3 H4 H5 H6 H7 H8] E1 E2 E3 E4. constructor; rewrite ?E1, ?E2; try done.
  - intros x o [_ Hx]%lookup_delete_Some. by eapply H1.
  - intros x [Hne Hx]%E3. rewrite lookup_delete_ne by done. by apply H2.
  - intros x [Hne Hx]%E4. rewrite lookup_delete_ne by done. by apply H3.
  - intros x o [Hxt Hx]%lookup_delete_Some Hp. apply elem_without. split; [done|].
    eapply H7; [exact Hx|]. intros [Hin|Hin]; apply Hp; [left; by apply E3|right; by apply E4].
  - intros x [_ Hx]%elem_without [[_ Hin]%E3|[_ Hin]%E4]; apply (H8 x Hx); [by left|by right].
Qed.

Lemma parked_op a ph rd wr wk t op :
  rinv a ph rd wr wk -> ph !! t = Some op ->
  (t ∈ a_rd a -> op = PTH_RWLOCK_RD) /\ (t ∈ a_rw a -> op = PTH_RWLOCK_RW).
Proof.
  intros Hi Hp. split; intros H.
  - pose proof (ri_prd _ _ _ _ _ Hi t H). congruence.
  - pose proof (ri_prw _ _ _ _ _ Hi t H). congruence.
Qed.

Lemma sp_unqueue_inv a ph rd wr wk t op :
  rinv a ph rd wr wk -> ph !! t = Some op ->
  rinv (sp_unqueue a t op) (delete t ph) rd wr (without t wk).
Proof.
  intros Hi Hp. destruct (parked_op _ _ _ _ _ _ _ Hi Hp) as [Hrd Hrw].
  destruct op; eapply sp_leave_inv; eauto; simpl; intros x; try (apply elem_without);
    (split; [intros H; split; [intros ->|done]|by intros [_ ?]]).
  - by specialize (Hrw H).
  - by specialize (Hrd H).
Qed.

Definition rsinv (plain : bool) (c : rcfg) (a : arw) : Prop :=
  rrel threads l (g_s c) a /\ rgood plain a (g_phase c) (g_rd c) (g_wr c) (g_woken c).

Lemma rrel_queue s a : rrel threads l s a ->
  NoDup (a_rw a) /\ (forall t, t ∈ a_rd a -> t ∉ a_rw a) /\ Z.of_nat (length (a_rw a)) + 1 < 2 ^ 64.
Proof.
  intros Hr. destruct (rl_lock _ _ _ _ Hr) as (x & _ & Hok).
  assert (Hn := wr_nodup _ _ _ (ro_rw _ _ _ Hok)).
  split_and!; [done|apply Hok|]. apply nodup_few; [done|]. apply (rl_rw _ _ _ _ Hr).
Qed.

Lemma rstep_acquire plain c a t op tryonly ev r s' :
  rsinv plain c a -> t ∈ threads -> t ∉ a_rd a -> t ∉ a_rw a -> Z.of_nat (length (g_rd c)) + 1 < 2 ^ 64 ->
  g_phase c !! t = None \/ (g_phase c !! t = Some op /\ tryonly = false) ->
  rwlock_attempt t l op tryonly ev (g_s c) = Some (r, s') -> exists a', rsinv plain (rw_after c t op r s') a'.
Proof.
  intros [Hr [Hi Hw]] Ht Hrd Hrw Hc Hp E. destruct (rrel_queue _ _ Hr) as (_ & _ & Hl).
  destruct (attempt_refines threads l (g_s c) a t op tryonly ev Hr Ht Hrd Hrw) as (s1 & E1 & Hr1 & _);
    [by rewrite <- (ri_rd _ _ _ _ _ Hi)|done|].
  rewrite E1 in E. injection E as <- <-. exists (sp_attempt a t op tryonly).2.
  split; [done|]. split; [by apply sp_attempt_inv|]. intros Hpl.
  eapply sp_attempt_wakeup; eauto.
Qed.

Lemma rstep_inv plain c c' a : rsinv plain c a -> rstep plain c c' -> exists a', rsinv plain c' a'.
Proof.
  intros HI Hstep. destruct (id HI) as [Hr [Hi Hw]]. destruct (rrel_queue _ _ Hr) as (Hn & Hd & Hl).
  destruct (rl_lock _ _ _ _ Hr) as (x & Hx & Hok).
  destruct Hstep as [t op tryonly ev r s' Ht Hp Hc E|t op extra pending ev r s' Hp Hc Hpl Hwk E
                    |t r s' Hp Hin E|t op s' Hpl Hp E].
  - apply (rstep_acquire plain c a t op tryonly ev r s' HI Ht); [| |done|by left|].
    + intros H. pose proof (ri_prd _ _ _ _ _ Hi t H). congruence.
    + intros H. pose proof (ri_prw _ _ _ _ _ Hi t H). congruence.
    + unfold pth_rwlock_acquire in E. erewrite st_bind_Some in E by (by apply x_rd_rwlock).
      by rewrite (ro_state _ _ _ Hok) in E.
  - destruct (unqueue_refines threads l (g_s c) a t op Hr) as (s1 & E1 & Hr1 & _); [lia|].
    unfold rwlock_resume in E. rewrite (st_bind_Some _ _ _ _ _ E1) in E.
    destruct (extra && pending) eqn:Ei.
    + injection E as <- <-. exists (sp_unqueue a t op). split; [done|]. split; [by apply sp_unqueue_inv|].
      intros ->. by rewrite Hpl in Ei.
    + assert (Hnp := ri_out _ _ _ _ _ Hi t Hwk). rewrite sp_unqueue_id in Hr1 by done.
      apply (rstep_acquire plain (Rcfg s1 (g_phase c) (g_rd c) (g_wr c) (g_woken c)) a t op false ev r s').
      * by split.
      * by eapply ri_phase.
      * intros H. apply Hnp. by left.
      * intros H. apply Hnp. by right.
      * done.
      * by right.
      * done.
  - destruct (rw_release_refines threads l (g_s c) a t Hr) as (s1 & E1 & Hr1 & Hf); [lia|].
    rewrite E1 in E. injection E as <- <-. exists (sp_release a t).1.2. split; [done|].
    simpl. rewrite (new_wakes_park _ _ _ _ Hf). by apply rw_release_good.
  - subst plain. destruct (unqueue_refines threads l (g_s c) a t PTH_RWLOCK_RW Hr) as (s1 & E1 & Hr1 & _); [lia|].
    destruct (unqueue_refines threads l s1 _ t PTH_RWLOCK_RD Hr1) as (s2 & E2 & Hr2 & _).
    { simpl. rewrite without_length by done. case_bool_decide; lia. }
    unfold pth_rwlock_wait_cleanup in E. rewrite (st_bind_Some _ _ _ _ _ E1), E2 in E. injection E as <-.
    eexists. split; [exact Hr2|]. split; [|done].
    eapply sp_leave_inv; eauto; simpl; intros y; apply elem_without.
Qed.

Lemma rreach_inv plain c0 c a0 : rsinv plain c0 a0 -> rreach plain c0 c -> exists a, rsinv plain c a.
Proof.
  intros H0. induction 1 as [|c c' Hr IH Hs]; [by eexists|]. destruct IH as [A HA].
  by eapply rstep_inv.
Qed.
End system.

(** ** Runs *)

(** The lock is free and no thread waits. *)
Record rstarts (threads : list addr) (l : addr) (c : rcfg) : Prop := {
  rs_rel : rrel threads l (g_s c) (ARW NULL 0 [] []);
  rs_few : Z.of_nat (length threads) + 1 < 2 ^ 64;
  rs_phase : g_phase c = ∅;
  rs_rd : g_rd c = [];
  rs_wr : g_wr c = [];
  rs_woken : g_woken c = []
}.

Lemma rstarts_inv threads l plain c : rstarts threads l c -> rsinv threads l plain c (ARW NULL 0 [] []).
Proof.
  intros []. split; [done|]. rewrite rs_phase0, rs_rd0, rs_wr0, rs_woken0.
  assert (Hnil : forall t : addr, t ∈ @nil addr -> False) by (intros t; apply not_elem_of_nil).
  split; [|by intros _ _]. constructor; simpl; try done; intros t Ht%Hnil; done.
Qed.

Definition rwdemo_start : rcfg :=
  Rcfg (Rws (Park {[ 1%positive := NULL; 2%positive := NULL; 3%positive := NULL ]}
                  {[ 1%positive := NULL; 2%positive := NULL; 3%positive := NULL ]} [])
            {[ 9%positive := Rwlock 1 PTH_RWLOCK_RD 0 NULL (Waitq NULL NULL) (Waitq NULL NULL) 0 ]})
       ∅ [] [] [].

Lemma rwdemo_starts : rstarts [1%positive; 2%positive; 3%positive] 9 rwdemo_start.
Proof.
  assert (Hnil : forall t : addr, t ∈ @nil addr -> False) by (intros t; apply not_elem_of_nil).
  constructor; [|done..]. constructor.
  - eexists. split; [reflexivity|]. constructor; simpl; try done; try (by apply wq_empty).
    intros t Ht%Hnil. done.
  - intros t Ht. rewrite !elem_of_cons in Ht.
    destruct Ht as [->|[->|[->|Ht%Hnil]]]; [split; by eexists..|done].
  - intros t Ht%Hnil. done.
  - intros t Ht%Hnil. done.
Qed.

Definition rw_acquire (c : rcfg) (t l : addr) (op : rwop) : rcfg :=
  match pth_rwlock_acquire t (Some l) op false NULL (g_s c) with
  | Some (r, s') => rw_after c t op r s' | None => c end.
Definition rw_release (c : rcfg) (t l : addr) : rcfg :=
  match pth_rwlock_release t (Some l) (g_s c) with
  | Some (_, s') => Rcfg s' (g_phase c) (if bool_decide (t ∈ g_wr c) then g_rd c else remove1 t (g_rd c))
                        (remove1 t (g_wr c)) (g_woken c ++ rw_new_wakes (g_s c) s')
  | None => c end.
Definition rw_cancel (c : rcfg) (t l : addr) : rcfg :=
  match pth_rwlock_wait_cleanup t l (g_s c) with
  | Some (_, s') => Rcfg s' (delete t (g_phase c)) (g_rd c) (g_wr c) (without t (g_woken c))
  | None => c end.

Lemma rw_acquire_reach ths l plain c0 c t op :
  rreach ths l plain c0 c -> t ∈ ths -> g_phase c !! t = None -> Z.of_nat (length (g_rd c)) + 1 < 2 ^ 64 ->
  rreach ths l plain c0 (rw_acquire c t l op).
Proof.
  intros Hr Ht Hp Hh. unfold rw_acquire.
  destruct (pth_rwlock_acquire t (Some l) op false NULL (g_s c)) as [[r s']|] eqn:E; [|done].
  eapply rr_step; [done|]. by eapply rs_acquire.
Qed.

Lemma rw_release_reach ths l plain c0 c t :
  rreach ths l plain c0 c -> g_phase c !! t = None -> t ∈ g_wr c ++ g_rd c ->
  rreach ths l plain c0 (rw_release c t l).
Proof.
  intros Hr Hp Ht. unfold rw_release.
  destruct (pth_rwlock_release t (Some l) (g_s c)) as [[r s']|] eqn:E; [|done].
  eapply rr_step; [done|]. by eapply rs_release.
Qed.

Lemma rw_cancel_reach ths l c0 c t op :
  rreach ths l false c0 c -> g_phase c !! t = Some op -> rreach ths l false c0 (rw_cancel c t l).
Proof.
  intros Hr Hp. unfold rw_cancel.
  destruct (pth_rwlock_wait_cleanup t l (g_s c)) as [[[] s']|] eqn:E; [|done].
  eapply rr_step; [done|]. by eapply rs_cancel.
Qed.

(** Thread 1 writes; 2 wants to read, 3 to write; then 1 releases. *)
Definition rwdemo_contended : rcfg :=
  rw_acquire (rw_acquire (rw_acquire rwdemo_start 1 9 PTH_RWLOCK_RW) 2 9 PTH_RWLOCK_RD) 3 9 PTH_RWLOCK_RW.
Definition rwdemo_released : rcfg := rw_release rwdemo_contended 1 9.

Lemma rwdemo_contended_reach plain :
  rreach [1%positive; 2%positive; 3%positive] 9 plain rwdemo_start rwdemo_contended.
Proof.
  repeat (apply rw_acquire_reach; [|by apply (bool_decide_unpack _)|reflexivity|by vm_compute]).
  apply rr_init.
Qed.

Lemma rwdemo_released_reach plain :
  rreach [1%positive; 2%positive; 3%positive] 9 plain rwdemo_start rwdemo_released.
Proof.
  apply rw_release_reach; [apply rwdemo_contended_reach|reflexivity|]. by apply (bool_decide_unpack _).
Qed.

(** C5: readers exclude writers and writers exclude each other. In every run
    of any number of threads, with waits interrupted by extra events and
    threads cancelled while they wait, if a thread was told that it has the
    lock for writing, then it is the lock's owner, no other thread was, and
    no thread has the lock for reading; otherwise the lock has no owner and
    counts exactly the threads that have it for reading. *)
Theorem rwlock_exclusion threads l c0 c :
  rstarts threads l c0 -> rreach threads l false c0 c ->
  exists x, w_lock (g_s c) !! l = Some x /\ rw_readers x = Z.of_nat (length (g_rd c)) /\
    match g_wr c with
    | [] => rw_owner x = NULL
    | [t] => rw_owner x = Some t /\ g_rd c = []
    | _ => False
    end.
Proof.
  intros H0 Hr. destruct (rreach_inv _ _ (rs_few _ _ _ H0) _ _ _ _ (rstarts_inv _ _ false _ H0) Hr)
    as [a [Hrel [Hi _]]].
  destruct (rl_lock _ _ _ _ Hrel) as (x & Hx & Hok). exists x.
  rewrite (ro_readers _ _ _ Hok), (ro_owner _ _ _ Hok), (ri_rd _ _ _ _ _ _ Hi), (ri_wr _ _ _ _ _ _ Hi).
  split_and!; [done|done|]. destruct (a_owner a) as [t|] eqn:Ho; simpl; [|done]. split; [done|].
  assert (H := ri_rd _ _ _ _ _ _ Hi). rewrite (ri_excl _ _ _ _ _ _ Hi) in H by congruence.
  by destruct (g_rd c).
Qed.

Lemma rwlock_exclusion_witness :
  exists x, w_lock (g_s rwdemo_contended) !! 9%positive = Some x /\
    rw_readers x = 0 /\ rw_owner x = Some 1%positive /\ g_rd rwdemo_contended = [].
Proof.
  destruct (rwlock_exclusion [1%positive; 2%positive; 3%positive] 9 rwdemo_start rwdemo_contended)
    as (x & Hx & Hn & Ho).
  - apply rwdemo_starts.
  - apply rwdemo_contended_reach.
  - exists x. split; [exact Hx|]. split; [exact Hn|exact Ho].
Defined.

(** No wakeup is lost as long as no thread is cancelled in its wait and
    no wait has an extra event: whenever the lock is free while threads wait
    for it, one of them has a wakeup on its way, and it is a writer if a
    writer is still parked. *)
Lemma rwlock_no_lost_wakeup threads l c0 c x t op :
  rstarts threads l c0 -> rreach threads l true c0 c ->
  w_lock (g_s c) !! l = Some x -> rw_owner x = NULL -> rw_readers x = 0 -> g_phase c !! t = Some op ->
  exists w opw, g_phase c !! w = Some opw /\ w ∈ g_woken c /\
    (rw_wrwait x <> 0 -> opw = PTH_RWLOCK_RW).
Proof.
  intros H0 Hr Hx Ho Hn Hp.
  destruct (rreach_inv _ _ (rs_few _ _ _ H0) _ _ _ _ (rstarts_inv _ _ true _ H0) Hr) as [a [Hrel [Hi Hw]]].
  destruct (rl_lock _ _ _ _ Hrel) as (x' & Hx' & Hok). assert (x' = x) as -> by congruence.
  rewrite (ro_owner _ _ _ Hok) in Ho. rewrite (ro_readers _ _ _ Hok) in Hn.
  destruct (Hw eq_refl (conj Ho Hn)) as [Hw1 Hw2]. rewrite (ro_wrwait _ _ _ Hok).
  destruct (decide (a_rw a = [])) as [Erw|Erw].
  - rewrite Erw in *. destruct (decide (t ∈ a_rd a)) as [Hin|Hin].
    + destruct Hw2 as (w & opw & Hpw & _ & Hwin); [|done|].
      * intros E. rewrite E in Hin. by apply not_elem_of_nil in Hin.
      * by exists w, opw.
    + exists t, op. split_and!; [done| |done]. apply (ri_woken _ _ _ _ _ _ Hi t op Hp).
      intros [?|Hx2]; [done|]. rewrite Erw in Hx2. by apply not_elem_of_nil in Hx2.
  - destruct (Hw1 Erw) as (w & Hpw & _ & Hwin). by exists w, PTH_RWLOCK_RW.
Qed.

Lemma rwlock_no_lost_wakeup_witness :
  exists w opw, g_phase rwdemo_released !! w = Some opw /\ w ∈ g_woken rwdemo_released /\
    (0 <> 0 -> opw = PTH_RWLOCK_RW).
Proof.
  apply (rwlock_no_lost_wakeup [1%positive; 2%positive; 3%positive] 9 rwdemo_start rwdemo_released
    (Rwlock 1 PTH_RWLOCK_RW 0 NULL (Waitq (Some 2%positive) (Some 2%positive)) (Waitq NULL NULL) 0)
    2 PTH_RWLOCK_RD).
  - apply rwdemo_starts.
  - apply rwdemo_released_reach.
  - reflexivity.
  - reflexivity.
  - reflexivity.
  - reflexivity.
Defined.

(** The same run with thread 3 cancelled between its wakeup and its return
    from the wait: the lock is free, 2 stays parked and nobody is woken. *)
Lemma rwlock_cancel_loses_wakeup :
  exists c x, rreach [1%positive; 2%positive; 3%positive] 9 false rwdemo_start c /\
    w_lock (g_s c) !! 9%positive = Some x /\ rw_owner x = NULL /\ rw_readers x = 0 /\
    wq_head (rw_waitq_rd x) = Some 2%positive /\ g_woken c = [].
Proof.
  exists (rw_cancel rwdemo_released 3 9),
    (Rwlock 1 PTH_RWLOCK_RW 0 NULL (Waitq (Some 2%positive) (Some 2%positive)) (Waitq NULL NULL) 0).
  split_and!; try reflexivity. eapply rw_cancel_reach; [|reflexivity]. apply rwdemo_released_reach.
Qed.
