(* ===== verification/Cond.v ===== *)
(** * Condition variables (src/pth_sync.c, lines 507-633)

    A wait is split at the points where the thread blocks: [pth_cond_await]
    up to its [pth_wait], [cond_await_resume] from there to the acquisition
    of the mutex, after whose own wait [mutex_resume] takes over. *)

From stdpp Require Import base numbers gmap list.
From S2P Require Import Prelude Links Ring Waitq Mutex.
Open Scope Z_scope.

Definition PTH_COND_INITIALIZED : Z := 1.

(** [struct pth_cond_st] without its spinlock; [cn_waiters] is an
    [unsigned int]. *)
Record cond := Cond { cn_state : Z; cn_waiters : Z; cn_waitq : waitq }.

Record cds := Cds { d_mx : mxs; d_cond : gmap addr cond }.

Definition on_mx {A : Type} (m : st mxs A) : st cds A :=
  zoom d_mx (fun x s => Cds x (d_cond s)) m.
Definition rd_cond (c : addr) : st cds cond :=
  fun s => match d_cond s !! c with Some x => Some (x, s) | None => None end.
Definition wr_cond (c : addr) (x : cond) : st cds unit :=
  fun s => Some (tt, Cds (d_mx s) (<[c := x]> (d_cond s))).

Definition pth_cond_init (cond : ptr) : st cds (bool * option errno) :=
  match cond with
  | None => mret (pth_error false EINVAL)
  | Some c => wr_cond c (Cond PTH_COND_INITIALIZED 0 pth_waitq_init);; mret (ok true)
  end.

(** Leaving the queue, unless a notifier has dequeued the thread already. *)
Definition cond_unpark (cur c : addr) : st cds unit :=
  x ← rd_cond c;
  q ← on_mx (on_park (on_wq (pth_waitq_remove (cn_waitq x) (Some cur))));
  wr_cond c (Cond (cn_state x) (if q.1 : bool then u32 (cn_waiters x - 1) else cn_waiters x) q.2).

(** The handler that runs when the thread is cancelled in the wait. If the
    mutex is not free it blocks in turn, still in the queue of the condition
    variable. *)
Definition pth_cond_cleanup_handler (cur m c : addr) : st cds outcome :=
  r ← on_mx (pth_mutex_acquire cur (Some m) false NULL);
  match r with
  | Blocked => mret Blocked
  | Done x => cond_unpark cur c;; mret (Done x)
  end.

(** [pth_cond_await] returns [FALSE] at once with an [errno], or waits. *)
Inductive await_result :=
| AwFail (e : errno)
| AwWait.

(** Parking: the thread enters the queue before it releases the mutex; what
    the release returns is ignored. *)
Definition cond_park (cur c : addr) (ev : ptr) : st cds unit :=
  x ← rd_cond c;
  on_mx (on_park (wr_wqevent cur ev));;
  q ← on_mx (on_park (on_wq (pth_waitq_append (cn_waitq x) (Some cur))));
  wr_cond c (Cond (cn_state x) (u32 (cn_waiters x + 1)) q).

Definition pth_cond_await (cur : addr) (cond mutex ev : ptr) : st cds await_result :=
  match cond, mutex with
  | Some c, Some m =>
      x ← rd_cond c;
      if Z.land (cn_state x) PTH_COND_INITIALIZED =? 0 then mret (AwFail EDEADLK)
      else
        cond_park cur c ev;;
        on_mx (pth_mutex_release cur mutex);;
        mret AwWait
  | _, _ => mret (AwFail EINVAL)
  end.

(** After the wait. The result of [pth_cond_await] is [TRUE] whatever the
    acquisition of the mutex returns. *)
Definition cond_await_resume (cur c m : addr) : st cds outcome :=
  cond_unpark cur c;;
  r ← on_mx (pth_mutex_acquire cur (Some m) false NULL);
  mret (match r with Done x => Done (true, x.2) | Blocked => Blocked end).

Fixpoint notify_loop (fuel : nat) (c : addr) (broadcast : bool) : st cds unit :=
  match fuel with
  | O => undef
  | S fuel' =>
      x ← rd_cond c;
      w ← on_mx (on_park (on_wq (pth_waitq_shift (cn_waitq x))));
      match w.1 with
      | None => wr_cond c (Cond (cn_state x) (cn_waiters x) w.2)
      | Some _ =>
          wr_cond c (Cond (cn_state x) (u32 (cn_waiters x - 1)) w.2);;
          on_mx (on_park (pth_gsched_wake_waiter w.1));;
          if negb broadcast then mret tt else notify_loop fuel' c broadcast
      end
  end.

Definition pth_cond_notify (cond : ptr) (broadcast : bool) : st cds (bool * option errno) :=
  match cond with
  | None => mret (pth_error false EINVAL)
  | Some c =>
      x ← rd_cond c;
      if Z.land (cn_state x) PTH_COND_INITIALIZED =? 0 then mret (pth_error false EDEADLK)
      else
        s ← get_st;
        notify_loop (S (size (k_next (x_park (d_mx s))))) c broadcast;;
        mret (ok true)
  end.

(** ** The abstract condition variable: the queue of its waiters *)

Record cond_ok (h : wheap) (x : cond) (q : list addr) : Prop := {
  co_state : cn_state x = PTH_COND_INITIALIZED;
  co_waiters : cn_waiters x = Z.of_nat (length q);
  co_queue : wq_rep h (cn_waitq x) q
}.

(** [C] gives the queues of all condition variables, [A] the mutexes and the
    threads. A thread is in one queue at most. *)
Record crel (s : cds) (A : ast) (C : gmap addr (list addr)) : Prop := {
  cr_mx : mrel (d_mx s) A;
  cr_cond : forall c q, C !! c = Some q ->
    exists x, d_cond s !! c = Some x /\ cond_ok (k_next (x_park (d_mx s))) x q;
  cr_thread : forall c q t, C !! c = Some q -> t ∈ q -> is_Some (a_held A !! t) /\
    forall m a, a_mx A !! m = Some a -> t ∉ a_queue a;
  cr_sep : forall c c' q q' t, C !! c = Some q -> C !! c' = Some q' -> c <> c' -> t ∈ q -> t ∉ q';
  cr_few : Z.of_nat (size (a_held A)) < 2 ^ 32
}.

Definition in_no_queue (A : ast) (C : gmap addr (list addr)) (t : addr) : Prop :=
  (forall m a, a_mx A !! m = Some a -> t ∉ a_queue a) /\ (forall c q, C !! c = Some q -> t ∉ q).

Lemma x_mx {A : Type} (m : st mxs A) s a x :
  m (d_mx s) = Some (a, x) -> on_mx m s = Some (a, Cds x (d_cond s)).
Proof. intros H. unfold on_mx, zoom. by rewrite H. Qed.
Lemma x_mx_park {A : Type} (m : st park A) s a p :
  m (x_park (d_mx s)) = Some (a, p) ->
  on_mx (on_park m) s = Some (a, Cds (Mxs p (x_mutex (d_mx s)) (x_nodes (d_mx s)) (x_rings (d_mx s))) (d_cond s)).
Proof. intros H. by apply x_mx, x_park_eq. Qed.
Lemma x_rd_cond s c x : d_cond s !! c = Some x -> rd_cond c s = Some (x, s).
Proof. intros H. unfold rd_cond. by rewrite H. Qed.
Lemma x_wr_cond s c x : wr_cond c x s = Some (tt, Cds (d_mx s) (<[c := x]> (d_cond s))).
Proof. done. Qed.

Ltac cstep :=
  cbn [fst snd];
  first [ rewrite (st_bind_Some _ _ _ _ _ (st_ret_eq _ _))
        | rewrite (st_bind_Some _ _ _ _ _ (x_wr_cond _ _ _))
        | erewrite st_bind_Some;
          [ | first [ eapply x_rd_cond; eassumption | apply x_mx_park; eassumption
                    | apply x_mx_park, on_wq_eq; eassumption | apply x_mx; eassumption | eassumption ] ] ].

(** Changes in threads that are in no mutex's queue. *)
Lemma mrel_park s A p' S w :
  mrel s A -> pframe S w (x_park s) p' -> (forall t m a, t ∈ S -> a_mx A !! m = Some a -> t ∉ a_queue a) ->
  mrel (Mxs p' (x_mutex s) (x_nodes s) (x_rings s)) A.
Proof.
  intros [Hmx Hth Hq Hsep Hri Hno Hsm Hfew] Hf HS. constructor; simpl; try done.
  - intros m a Ha. destruct (Hmx m a Ha) as (y & Hy & [K1 K2 K3 K4 K5 K6]). exists y. split; [done|].
    constructor; try done. eapply wq_pframe; [done| |done]. intros t Ht Hin. by apply (HS t m a).
  - intros t Ht. eapply thread_frame; [done|auto].
Qed.

(** Changes of the mutexes in threads that are in no condition's queue. *)
Lemma crel_mx s A A' C x' S w :
  crel s A C -> pframe S w (x_park (d_mx s)) (x_park x') -> mrel x' A' ->
  (forall t, is_Some (a_held A !! t) -> is_Some (a_held A' !! t)) -> size (a_held A') = size (a_held A) ->
  (forall c q t, C !! c = Some q -> t ∈ q -> t ∉ S /\ forall m a, a_mx A' !! m = Some a -> t ∉ a_queue a) ->
  crel (Cds x' (d_cond s)) A' C.
Proof.
  intros [] Hf Hm Hh Hs HS. constructor; simpl; [done| | |done|by rewrite Hs].
  - intros c q Hq. destruct (cr_cond0 c q Hq) as (x & Hx & []). exists x. split; [done|].
    constructor; [done|done|]. eapply wq_pframe; [done| |done]. intros t Ht. by apply (HS c q t).
  - intros c q t Hq Ht. destruct (cr_thread0 c q t Hq Ht). destruct (HS c q t Hq Ht). auto.
Qed.

(** The condition [c] gets the queue [q']. *)
Lemma crel_upd s A C c q q' x' p' S w :
  crel s A C -> C !! c = Some q -> pframe S w (x_park (d_mx s)) p' -> cond_ok (k_next p') x' q' ->
  (forall t, t ∈ S \/ t ∈ q' -> is_Some (a_held A !! t) /\
     (forall m a, a_mx A !! m = Some a -> t ∉ a_queue a) /\
     forall c' k, c' <> c -> C !! c' = Some k -> t ∉ k) ->
  crel (Cds (Mxs p' (x_mutex (d_mx s)) (x_nodes (d_mx s)) (x_rings (d_mx s))) (<[c := x']> (d_cond s)))
       A (<[c := q']> C).
Proof.
  intros [] Hc Hf Hx HS. constructor; simpl; [| | | |done].
  - eapply mrel_park; [done|done|]. intros t m a Ht Ha. destruct (HS t) as (_ & H & _); [by left|]. by eapply H.
  - intros c' k [[<- <-]|[Hne Hk]]%lookup_insert_Some; [exists x'; by rewrite lookup_insert_eq|].
    destruct (cr_cond0 c' k Hk) as (y & Hy & []). exists y. rewrite lookup_insert_ne by done.
    split; [done|]. constructor; [done|done|]. eapply wq_pframe; [done| |done].
    intros t Ht Hin. destruct (HS t) as (_ & _ & H); [by left|]. by eapply (H c' k).
  - intros c' k t [[<- <-]|[Hne Hk]]%lookup_insert_Some Ht; [|by eauto].
    destruct (HS t) as (? & ? & _); [by right|]. done.
  - intros c1 c2 k1 k2 t [[<- <-]|[Hne1 Hk1]]%lookup_insert_Some
      [[<- <-]|[Hne2 Hk2]]%lookup_insert_Some Hne Ht; [done| | |by eapply (cr_sep0 c1 c2)].
    + destruct (HS t) as (_ & _ & H); [by right|]. by eapply (H c2).
    + intros Hin. destruct (HS t) as (_ & _ & H); [by right|]. by eapply (H c1).
Qed.

(** The number of waiters fits its type. *)
Lemma cond_few s A C (q : list addr) : crel s A C -> NoDup q -> (forall t, t ∈ q -> is_Some (a_held A !! t)) ->
  Z.of_nat (length q) < 2 ^ 32.
Proof.
  intros Hr Hnd Hin. assert (Hf := cr_few _ _ _ Hr).
  assert (length q <= size (a_held A))%nat; [|lia].
  rewrite <- size_dom, <- (size_list_to_set (C:=gset addr) q) by done.
  apply subseteq_size. intros t Ht%elem_of_list_to_set. apply elem_of_dom. by apply Hin.
Qed.

(** ** The operations refine the abstract queue *)

Lemma queue_held s A C c q t : crel s A C -> C !! c = Some q -> t ∈ q ->
  is_Some (a_held A !! t) /\ (forall m a, a_mx A !! m = Some a -> t ∉ a_queue a) /\
  forall c' k, c' <> c -> C !! c' = Some k -> t ∉ k.
Proof.
  intros Hr Hc Ht. destruct (cr_thread _ _ _ Hr c q t Hc Ht). split_and!; [done|done|].
  intros c' k Hne Hk. by eapply (cr_sep _ _ _ Hr c c').
Qed.

Lemma unpark_refines s A C c q cur :
  crel s A C -> C !! c = Some q ->
  exists s', cond_unpark cur c s = Some (tt, s') /\ crel s' A (<[c := without cur q]> C) /\
    pframe q [] (x_park (d_mx s)) (x_park (d_mx s')).
Proof.
  intros Hr Hc. destruct (cr_cond _ _ _ Hr c q Hc) as (x & Hx & Hok). unfold cond_unpark. cstep.
  destruct (waitq_remove_ok _ _ _ cur (co_queue _ _ _ Hok)) as (h' & q' & E & Hq' & Hf & _). cstep.
  eexists. split; [reflexivity|]. cbn [d_mx d_cond].
  assert (Hpf : pframe q [] (x_park (d_mx s)) (Park h' (k_event (x_park (d_mx s))) (k_wakes (x_park (d_mx s)))))
    by (by apply pframe_wq).
  split; [|exact Hpf]. eapply crel_upd; [done|done|exact Hpf| |].
  - assert (Hnd := wr_nodup _ _ _ (co_queue _ _ _ Hok)).
    assert (Hfew := cond_few _ _ _ q Hr Hnd (fun t Ht => proj1 (queue_held _ _ _ _ _ t Hr Hc Ht))).
    constructor; simpl; [apply Hok| |done]. rewrite (co_waiters _ _ _ Hok). case_bool_decide as Hin.
    + apply list_elem_of_split in Hin as (q1 & q2 & ->). unfold without.
      rewrite (filter_ne_split _ _ _ Hnd). rewrite !length_app in *. cbn [length] in *. rewrite u32_small; lia.
    + unfold without. by rewrite filter_ne_notin.
  - intros t Ht. eapply queue_held; [done|done|]. destruct Ht as [?|Ht]; [done|].
    unfold without in Ht. by apply list_elem_of_filter in Ht as [_ ?].
Qed.

Lemma park_refines s A C c q cur ev :
  crel s A C -> C !! c = Some q -> is_Some (a_held A !! cur) -> in_no_queue A C cur ->
  exists s', cond_park cur c ev s = Some (tt, s') /\ crel s' A (<[c := q ++ [cur]]> C) /\
    pframe (cur :: q) [] (x_park (d_mx s)) (x_park (d_mx s')).
Proof.
  intros Hr Hc Hcur [Hn1 Hn2]. destruct (cr_cond _ _ _ Hr c q Hc) as (x & Hx & Hok). unfold cond_park. cstep.
  destruct (ml_threads _ _ (cr_mx _ _ _ Hr) cur Hcur) as [Hn [v Hv]].
  erewrite st_bind_Some by (apply x_mx_park; by apply (wr_wqevent_eq _ _ ev v)).
  set (p1 := Park _ (<[cur := ev]> _) _).
  assert (Hp1 : pframe (cur :: q) [] (x_park (d_mx s)) p1) by (apply pframe_event; [by left|by eexists]).
  destruct (waitq_append_ok (k_next p1) (cn_waitq x) q cur) as (h' & q' & E & Hq' & Hf);
    [apply Hok|done|by eapply Hn2|].
  erewrite st_bind_Some by (apply x_mx_park, on_wq_eq; exact E).
  assert (Hpf : pframe (cur :: q) [] (x_park (d_mx s)) (Park h' (k_event p1) (k_wakes p1))).
  { apply (pframe_trans _ [] [] _ p1 _ Hp1). by apply pframe_wq. }
  eexists. split; [reflexivity|]. split; [|exact Hpf].
  assert (Hin : forall t, t ∈ cur :: q -> is_Some (a_held A !! t) /\
    (forall m a, a_mx A !! m = Some a -> t ∉ a_queue a) /\
    forall c' k, c' <> c -> C !! c' = Some k -> t ∉ k).
  { intros t [->|Ht]%elem_of_cons; [split_and!; [done|done|by eauto]|by eapply queue_held]. }
  apply (crel_upd s A C c q (q ++ [cur]) _ _ (cur :: q) [] Hr Hc Hpf).
  - constructor; simpl; [apply Hok| |done]. rewrite (co_waiters _ _ _ Hok), length_app. simpl.
    assert (Hnd : NoDup (cur :: q)).
    { apply NoDup_cons. split; [by eapply Hn2|apply (co_queue _ _ _ Hok)]. }
    assert (Hfew := cond_few _ _ _ _ Hr Hnd (fun t Ht => proj1 (Hin t Ht))). simpl in Hfew.
    rewrite u32_small; lia.
  - intros t Ht. apply Hin. rewrite elem_of_app, list_elem_of_singleton, elem_of_cons in Ht. apply elem_of_cons. tauto.
Qed.

(** The waiters a notification wakes. *)
Definition notified (broadcast : bool) (q : list addr) : list addr :=
  if broadcast then q else option_list (head q).
Definition remaining (broadcast : bool) (q : list addr) : list addr := if broadcast then [] else tail q.

Lemma notify_loop_refines s A C c q broadcast fuel :
  crel s A C -> C !! c = Some q -> (length q < fuel)%nat ->
  exists s', notify_loop fuel c broadcast s = Some (tt, s') /\
    crel s' A (<[c := remaining broadcast q]> C) /\
    pframe q (notified broadcast q) (x_park (d_mx s)) (x_park (d_mx s')).
Proof.
  revert s C fuel. induction q as [|w q IH]; intros s C [|fuel] Hr Hc Hf; try (simpl in Hf; lia);
    cbn [notify_loop]; destruct (cr_cond _ _ _ Hr c _ Hc) as (x & Hx & Hok); cstep;
    destruct (waitq_shift_ok _ _ _ (co_queue _ _ _ Hok)) as (h' & q' & E & Hq' & Hfr); cstep; cbn [head tail] in *.
  - eexists. split; [reflexivity|].
    assert (Hpf : pframe [] [] (x_park (d_mx s)) (Park h' (k_event (x_park (d_mx s))) (k_wakes (x_park (d_mx s)))))
      by (by apply pframe_wq).
    replace (remaining broadcast []) with (@nil addr) by (by destruct broadcast).
    replace (notified broadcast []) with (@nil addr) by (by destruct broadcast).
    split; [|exact Hpf]. apply (crel_upd s A C c [] [] _ _ [] [] Hr Hc Hpf).
    + constructor; [apply Hok|by rewrite (co_waiters _ _ _ Hok)|done].
    + intros t [Ht|Ht]; by apply not_elem_of_nil in Ht.
  - cstep. cbn [d_mx d_cond].
    destruct (queue_held _ _ _ _ _ w Hr Hc) as (Hw & _); [by left|].
    destruct (ml_threads _ _ (cr_mx _ _ _ Hr) w Hw) as [_ [ev Hev]].
    erewrite st_bind_Some by (apply x_mx_park; apply wake_eq; exact Hev).
    cbn [k_next k_event k_wakes d_mx d_cond x_park x_mutex x_nodes x_rings].
    set (s1 := Cds _ (<[c := _]> _)).
    assert (Hpf : pframe [w] [w] (x_park (d_mx s)) (x_park (d_mx s1))).
    { apply (pframe_trans _ [] [w] _ (Park h' (k_event (x_park (d_mx s))) (k_wakes (x_park (d_mx s))))).
      - by apply pframe_wq.
      - apply (pframe_wake _ (Park h' _ _)). }
    assert (Hr1 : crel s1 A (<[c := q]> C)).
    { apply (crel_upd s A C c (w :: q) q _ _ [w] [w] Hr Hc Hpf).
      - assert (Hnd := wr_nodup _ _ _ (co_queue _ _ _ Hok)).
        assert (Hfew := cond_few _ _ _ _ Hr Hnd (fun t Ht => proj1 (queue_held _ _ _ _ _ t Hr Hc Ht))).
        cbn [length] in Hfew.
        constructor; simpl; [apply Hok| |done]. rewrite (co_waiters _ _ _ Hok). cbn [length].
        rewrite u32_small; lia.
      - intros t Ht. eapply queue_held; [done|done|]. destruct Ht as [->%list_elem_of_singleton|Ht]; [by left|by right]. }
    destruct broadcast; cbn [negb].
    + destruct (IH s1 _ fuel Hr1) as (s' & E' & Hr' & Hp'); [by rewrite lookup_insert_eq|simpl in Hf; lia|].
      exists s'. rewrite insert_insert_eq in Hr'. split_and!; [done|done|].
      apply (pframe_trans _ [w] q _ (x_park (d_mx s1))).
      * eapply pframe_sub; [exact Hpf|]. intros t ->%list_elem_of_singleton. by left.
      * eapply pframe_sub; [exact Hp'|]. intros t Ht. by right.
    + eexists. split; [reflexivity|]. split; [exact Hr1|].
      eapply pframe_sub; [exact Hpf|]. intros t ->%list_elem_of_singleton. by left.
Qed.

Lemma notify_refines s A C c q broadcast :
  crel s A C -> C !! c = Some q ->
  exists s', pth_cond_notify (Some c) broadcast s = Some (ok true, s') /\
    crel s' A (<[c := remaining broadcast q]> C) /\
    pframe q (notified broadcast q) (x_park (d_mx s)) (x_park (d_mx s')).
Proof.
  intros Hr Hc. destruct (cr_cond _ _ _ Hr c q Hc) as (x & Hx & Hok). unfold pth_cond_notify. cstep.
  rewrite (co_state _ _ _ Hok). change (Z.land PTH_COND_INITIALIZED PTH_COND_INITIALIZED =? 0) with false. cbv iota. erewrite st_bind_Some by reflexivity.
  assert (Hlen := chain_fuel _ _ _ (co_queue _ _ _ Hok)).
  destruct (notify_loop_refines s A C c q broadcast (S (size (k_next (x_park (d_mx s))))) Hr Hc)
    as (s' & E & Hr' & Hp); [lia|].
  erewrite st_bind_Some by exact E. by exists s'.
Qed.

Lemma insert_dom {V : Type} (h : gmap addr V) t v k : is_Some (h !! k) -> is_Some (<[t := v]> h !! k).
Proof.
  intros Hk. destruct (decide (t = k)) as [->|]; [rewrite lookup_insert_eq; by eexists|].
  by rewrite lookup_insert_ne.
Qed.

(** Acquiring and releasing keep the threads, and put nobody but the caller
    in a queue. *)
Lemma release_shape A cur m a l :
  a_mx A !! m = Some a -> a_held A !! cur = Some l ->
  let A' := (sp_release A cur m a).1.2 in
  (forall t, is_Some (a_held A !! t) -> is_Some (a_held A' !! t)) /\ size (a_held A') = size (a_held A) /\
  forall m' b' t, a_mx A' !! m' = Some b' -> t ∈ a_queue b' -> exists b, a_mx A !! m' = Some b /\ t ∈ a_queue b.
Proof.
  intros Hm Hl. cbv zeta. unfold sp_release.
  assert (Hq : forall a', (forall t, t ∈ a_queue a' -> t ∈ a_queue a) ->
    forall m' b' t, <[m := a']> (a_mx A) !! m' = Some b' -> t ∈ a_queue b' ->
      exists b, a_mx A !! m' = Some b /\ t ∈ a_queue b).
  { intros a' Hsub m' b' t [[<- <-]|[_ Hb]]%lookup_insert_Some Ht; [|by exists b']. exists a. auto. }
  bcase (a_owner a = NULL) Ho; [split_and!; by eauto|]. bcase (a_owner a = Some cur) Ho2; [|split_and!; by eauto].
  destruct (a_count a =? 1); simpl; split_and!; auto.
  - intros t. by apply insert_dom.
  - by rewrite map_size_insert_Some by (by eexists).
  - apply Hq. unfold handoff. destruct (a_queue a) as [|w k]; [done|].
    destruct (a_fair a); simpl; intros t Ht; by right.
  - by apply Hq.
Qed.

Lemma acquire_shape A cur m a l :
  a_mx A !! m = Some a -> a_held A !! cur = Some l ->
  let A' := (sp_acquire A cur m a false).2 in
  (forall t, is_Some (a_held A !! t) -> is_Some (a_held A' !! t)) /\ size (a_held A') = size (a_held A) /\
  forall m' b' t, a_mx A' !! m' = Some b' -> t ∈ a_queue b' ->
    t = cur \/ exists b, a_mx A !! m' = Some b /\ t ∈ a_queue b.
Proof.
  intros Hm Hl. cbv zeta. unfold sp_acquire.
  assert (Hq : forall a', (forall t, t ∈ a_queue a' -> t = cur \/ t ∈ a_queue a) ->
    forall m' b' t, <[m := a']> (a_mx A) !! m' = Some b' -> t ∈ a_queue b' ->
      t = cur \/ exists b, a_mx A !! m' = Some b /\ t ∈ a_queue b).
  { intros a' Hsub m' b' t [[<- <-]|[_ Hb]]%lookup_insert_Some Ht; [|right; by exists b'].
    destruct (Hsub t Ht); [by left|right; by exists a]. }
  bcase (a_owner a = NULL) Ho; [|bcase (a_owner a = Some cur) Ho2]; simpl; split_and!; auto.
  - intros t. by apply insert_dom.
  - by rewrite map_size_insert_Some by (by eexists).
  - apply Hq. simpl. auto.
  - apply Hq. simpl. auto.
  - apply Hq. simpl. intros t [?|?%list_elem_of_singleton]%elem_of_app; auto.
Qed.

(** The mutexes' operations leave the conditions' queues alone. *)
Lemma release_crel s A C m a l cur :
  crel s A C -> a_mx A !! m = Some a -> a_held A !! cur = Some l -> (a_owner a = Some cur -> m ∈ l) ->
  let r := sp_release A cur m a in
  exists s', on_mx (pth_mutex_release cur (Some m)) s = Some (r.1.1, s') /\ crel s' r.1.2 C /\
    (k_wakes (x_park (d_mx s'))).*1 = (k_wakes (x_park (d_mx s))).*1 ++ r.2 /\ d_cond s' = d_cond s.
Proof.
  intros Hr Hm Hl Hin. cbv zeta.
  destruct (release_refines (d_mx s) A cur m a l) as (x2 & E2 & Hr2 & Hp2); [apply Hr|done|done|done|].
  eexists. split; [apply x_mx; exact E2|]. split_and!; [|apply Hp2|done].
  destruct (release_shape A cur m a l Hm Hl) as (H1 & H2 & H3).
  apply (crel_mx _ _ _ _ _ _ _ Hr Hp2 Hr2 H1 H2).
  intros c' k t Hk Ht. destruct (cr_thread _ _ _ Hr c' k t Hk Ht) as [_ Hno]. split; [by eapply Hno|].
  intros m' b' Hb' Hinb. destruct (H3 m' b' t Hb' Hinb) as (b & Hb & Hinb'). by apply (Hno m' b).
Qed.

(** A wait: the caller is parked, then the mutex is released. *)
Lemma await_refines s A C c q m a l cur ev :
  crel s A C -> C !! c = Some q -> a_mx A !! m = Some a -> a_held A !! cur = Some l ->
  (a_owner a = Some cur -> m ∈ l) -> in_no_queue A C cur ->
  let r := sp_release A cur m a in
  exists s', pth_cond_await cur (Some c) (Some m) ev s = Some (AwWait, s') /\
    crel s' r.1.2 (<[c := q ++ [cur]]> C) /\
    (k_wakes (x_park (d_mx s'))).*1 = (k_wakes (x_park (d_mx s))).*1 ++ r.2.
Proof.
  intros Hr Hc Hm Hl Hin Hnq. cbv zeta. destruct (cr_cond _ _ _ Hr c q Hc) as (x & Hx & Hok).
  unfold pth_cond_await. cstep. rewrite (co_state _ _ _ Hok).
  change (Z.land PTH_COND_INITIALIZED PTH_COND_INITIALIZED =? 0) with false. cbv iota.
  destruct (park_refines s A C c q cur ev Hr Hc) as (s1 & E1 & Hr1 & Hp1); [by eexists|done|].
  rewrite (st_bind_Some _ _ _ _ _ E1).
  destruct (release_crel s1 A _ m a l cur Hr1 Hm Hl Hin) as (s2 & E2 & Hr2 & Hw & _).
  rewrite (st_bind_Some _ _ _ _ _ E2). exists s2. split_and!; [done|done|].
  rewrite Hw, (pf_wakes _ _ _ _ Hp1). by rewrite app_nil_r.
Qed.

(** After the wait: the thread leaves the queue if it is still in it, and
    acquires the mutex or is parked there. *)
Lemma await_resume_refines s A C c q m a l cur :
  crel s A C -> C !! c = Some q -> a_mx A !! m = Some a -> a_held A !! cur = Some l ->
  (forall m' b, a_mx A !! m' = Some b -> cur ∉ a_queue b) -> (forall c' k, c' <> c -> C !! c' = Some k -> cur ∉ k) ->
  (a_owner a = NULL -> unheld A m) -> (a_owner a = Some cur -> a_count a + 1 < 2 ^ 64) ->
  let r := sp_acquire A cur m a false in
  exists s', cond_await_resume cur c m s
      = Some (match r.1 with Done x => Done (true, x.2) | Blocked => Blocked end, s') /\
    crel s' r.2 (<[c := without cur q]> C) /\
    (k_wakes (x_park (d_mx s'))).*1 = (k_wakes (x_park (d_mx s))).*1.
Proof.
  intros Hr Hc Hm Hl Hq1 Hq2 Hun Hov. cbv zeta. unfold cond_await_resume.
  destruct (unpark_refines s A C c q cur Hr Hc) as (s1 & E1 & Hr1 & Hp1). rewrite (st_bind_Some _ _ _ _ _ E1).
  destruct (acquire_refines (d_mx s1) A cur m a false NULL) as (x2 & E2 & Hr2 & Hp2);
    [apply Hr1|done|by eexists|done|done|done|].
  erewrite st_bind_Some by (apply x_mx; exact E2). eexists. split; [reflexivity|]. split.
  - destruct (acquire_shape A cur m a l Hm Hl) as (H1 & H2 & H3).
    apply (crel_mx _ _ _ _ _ _ _ Hr1 Hp2 Hr2 H1 H2).
    intros c' k t Hk Ht. destruct (cr_thread _ _ _ Hr1 c' k t Hk Ht) as [_ Hno].
    assert (Hcur : t <> cur).
    { intros ->. apply lookup_insert_Some in Hk as [[<- <-]|[Hne Hk]].
      - unfold without in Ht. by apply list_elem_of_filter in Ht as [? _].
      - by apply (Hq2 c' k). }
    split.
    + unfold touched. intros [?|?]%elem_of_cons; [done|]. by apply (Hno m a).
    + intros m' b' Hb' Hinb. destruct (H3 m' b' t Hb' Hinb) as [?|(b & Hb & Hinb')]; [done|]. by apply (Hno m' b).
  - cbn [d_mx]. rewrite (pf_wakes _ _ _ _ Hp2), (pf_wakes _ _ _ _ Hp1). by rewrite !app_nil_r.
Qed.

(** ** Properties *)

(** Mutex 9 of [Mutex.demo_mxs], and a condition variable 7 in whose wait is
    thread 4. *)
Definition demo_cds : cds :=
  Cds demo_mxs {[ 7%positive := Cond 1 1 (Waitq (Some 4%positive) (Some 4%positive)) ]}.
Definition demo_conds : gmap addr (list addr) := {[ 7%positive := [4%positive] ]}.

Lemma demo_crel : crel demo_cds demo_ast demo_conds.
Proof.
  unfold demo_conds. constructor.
  - apply demo_mrel.
  - intros c q Hq. single Hq. eexists. split; [reflexivity|]. constructor; [done|done|].
    constructor; [done|done|by apply NoDup_singleton|done].
  - intros c q t Hq Ht. single Hq. apply list_elem_of_singleton in Ht as ->. split; [by eexists|].
    intros m a Ha. single Ha. by apply (bool_decide_unpack _).
  - intros c c' q q' t Hq Hq' Hne. single Hq. single Hq'. done.
  - by vm_compute.
Qed.

(** On an initialised condition variable every operation is memory safe,
    ends and does what the abstract queue does. A wait puts the caller last
    in the queue, then releases the mutex; a notification wakes the waiter
    that waits longest, a broadcast all waiters in the order of their
    arrival; on the way out of a wait the thread leaves the queue and
    acquires the mutex or is parked there. No other queue changes and
    [cn_waiters] is the length of the queue throughout. *)
Lemma cond_ops_correct s A C c q m a l cur :
  crel s A C -> C !! c = Some q -> a_mx A !! m = Some a -> a_held A !! cur = Some l ->
  (forall m' b, a_mx A !! m' = Some b -> cur ∉ a_queue b) ->
  (forall c' k, c' <> c -> C !! c' = Some k -> cur ∉ k) ->
  (a_owner a = Some cur -> m ∈ l) -> (a_owner a = NULL -> unheld A m) ->
  (a_owner a = Some cur -> a_count a + 1 < 2 ^ 64) ->
  (forall ev, cur ∉ q -> let r := sp_release A cur m a in
     exists s', pth_cond_await cur (Some c) (Some m) ev s = Some (AwWait, s') /\
       crel s' r.1.2 (<[c := q ++ [cur]]> C) /\
       (k_wakes (x_park (d_mx s'))).*1 = (k_wakes (x_park (d_mx s))).*1 ++ r.2) /\
  (forall broadcast, exists s', pth_cond_notify (Some c) broadcast s = Some (ok true, s') /\
     crel s' A (<[c := remaining broadcast q]> C) /\
     (k_wakes (x_park (d_mx s'))).*1 = (k_wakes (x_park (d_mx s))).*1 ++ notified broadcast q) /\
  (let r := sp_acquire A cur m a false in
   exists s', cond_await_resume cur c m s
       = Some (match r.1 with Done x => Done (true, x.2) | Blocked => Blocked end, s') /\
     crel s' r.2 (<[c := without cur q]> C)).
Proof.
  intros Hr Hc Hm Hl Hq1 Hq2 Hin Hun Hov. split_and!.
  - intros ev Hni. eapply await_refines; eauto. split; [done|]. intros c' k Hk.
    destruct (decide (c' = c)) as [->|Hne]; [congruence|by eapply Hq2].
  - intros broadcast. destruct (notify_refines s A C c q broadcast Hr Hc) as (s' & E & Hr' & Hf).
    exists s'. split_and!; [done|done|apply Hf].
  - cbv zeta. destruct (await_resume_refines s A C c q m a l cur) as (s' & E & Hr' & _); try done. eauto.
Qed.

Lemma cond_ops_correct_witness :
  exists s', pth_cond_await 1 (Some 7%positive) (Some 9%positive) NULL demo_cds = Some (AwWait, s') /\
    crel s' (sp_release demo_ast 1 9 demo_amutex).1.2 (<[7%positive := [4%positive; 1%positive]]> demo_conds) /\
    (k_wakes (x_park (d_mx s'))).*1 = [2%positive].
Proof.
  destruct (cond_ops_correct demo_cds demo_ast demo_conds 7 [4%positive] 9 demo_amutex [9%positive] 1)
    as (H & _ & _).
  - apply demo_crel.
  - reflexivity.
  - reflexivity.
  - reflexivity.
  - intros m' b Hb. single Hb. by apply (bool_decide_unpack _).
  - unfold demo_conds. intros c' k Hne Hk. single Hk. done.
  - intros _. by left.
  - discriminate.
  - reflexivity.
  - apply (H NULL). by apply (bool_decide_unpack _).
Defined.

(** The handler of a cancelled wait. Thread 1 has the mutex 9, threads 2 and 3
    wait for the condition 7, and 2 is cancelled: its handler is parked on the
    mutex while still in the queue of 7, and both queues run through
    [wq_next]. A broadcast now wakes 2 only; 3 is left waiting, in no queue,
    and [cn_waiters] stays 1. *)
Definition cancelled_cds : cds :=
  Cds (Mxs (Park {[ 1%positive := NULL; 2%positive := Some 3%positive; 3%positive := NULL ]}
              {[ 1%positive := NULL; 2%positive := NULL; 3%positive := NULL ]} [])
        {[ 9%positive := Mutex 3 (Some 1%positive) 1 (Waitq NULL NULL) ]}
        (Dll {[ 9%positive := Some 9%positive ]} {[ 9%positive := Some 9%positive ]})
        {[ 1%positive := Ring (Some 9%positive) 1; 2%positive := Ring NULL 0; 3%positive := Ring NULL 0 ]})
      {[ 7%positive := Cond 1 2 (Waitq (Some 2%positive) (Some 3%positive)) ]}.

Lemma cond_cleanup_loses_waiter :
  exists s1 s2, pth_cond_cleanup_handler 2 9 7 cancelled_cds = Some (Blocked, s1) /\
    pth_cond_notify (Some 7%positive) true s1 = Some (ok true, s2) /\
    (k_wakes (x_park (d_mx s2))).*1 = [2%positive] /\
    (exists x, d_cond s2 !! 7%positive = Some x /\ wq_head (cn_waitq x) = NULL /\ cn_waiters x = 1).
Proof.
  eexists. eexists. split_and!; [vm_compute; reflexivity|vm_compute; reflexivity|vm_compute; reflexivity|].
  eexists. split_and!; vm_compute; reflexivity.
Qed.

(** ** Interleavings

    The steps are what runs under the spinlock of a condition variable:
    parking, leaving the queue, notifying. Everything else the threads do in
    between, the operations on the mutexes included, is a step of the
    environment that leaves the queues of the condition variables alone.
    [n_A] is the abstract state of the mutexes, [n_phase] the condition
    variable in whose wait a thread is, [n_woken] the threads with a wakeup
    on its way. *)
Record ncfg := Ncfg { n_s : cds; n_A : ast; n_phase : gmap addr addr; n_woken : list addr }.

Definition cond_wakes (s s' : cds) : list addr :=
  drop (length (k_wakes (x_park (d_mx s)))) (k_wakes (x_park (d_mx s'))).*1.

Inductive nstep (C : gmap addr (list addr)) (n : ncfg) : ncfg -> Prop :=
| ns_park t c ev s' :
    is_Some (a_held (n_A n) !! t) -> is_Some (C !! c) -> n_phase n !! t = None ->
    (forall m a, a_mx (n_A n) !! m = Some a -> t ∉ a_queue a) ->
    cond_park t c ev (n_s n) = Some (tt, s') ->
    nstep C n (Ncfg s' (n_A n) (<[t := c]> (n_phase n)) (without t (n_woken n)))
| ns_unpark t c s' :
    n_phase n !! t = Some c ->
    cond_unpark t c (n_s n) = Some (tt, s') ->
    nstep C n (Ncfg s' (n_A n) (delete t (n_phase n)) (without t (n_woken n)))
| ns_notify c broadcast r s' :
    is_Some (C !! c) ->
    pth_cond_notify (Some c) broadcast (n_s n) = Some (r, s') ->
    nstep C n (Ncfg s' (n_A n) (n_phase n) (n_woken n ++ cond_wakes (n_s n) s'))
| ns_env s' A' wk :
    (forall C', crel (n_s n) (n_A n) C' -> crel s' A' C') ->
    nstep C n (Ncfg s' A' (n_phase n) (n_woken n ++ wk)).

Inductive nreach (C : gmap addr (list addr)) (n0 : ncfg) : ncfg -> Prop :=
| nr_init : nreach C n0 n0
| nr_step n n' : nreach C n0 n -> nstep C n n' -> nreach C n0 n'.

(** Threads in a queue are in the wait of that condition variable; threads in
    a wait are in the queue or have a wakeup on its way. *)
Record ninv (n : ncfg) (C : gmap addr (list addr)) : Prop := {
  nv_rel : crel (n_s n) (n_A n) C;
  nv_queue : forall c q t, C !! c = Some q -> t ∈ q -> n_phase n !! t = Some c;
  nv_wait : forall t c, n_phase n !! t = Some c ->
    exists q, C !! c = Some q /\ (t ∈ q \/ t ∈ n_woken n)
}.

Lemma cond_wakes_eq S w s s' : pframe S w (x_park (d_mx s)) (x_park (d_mx s')) -> cond_wakes s s' = w.
Proof.
  intros Hf. unfold cond_wakes. rewrite (pf_wakes _ _ _ _ Hf).
  rewrite <- (length_fmap fst (k_wakes (x_park (d_mx s)))). apply drop_app_length.
Qed.

Lemma nstep_inv C n n' : ninv n C -> nstep C n n' ->
  exists C', ninv n' C' /\ (forall c, is_Some (C !! c) <-> is_Some (C' !! c)).
Proof.
  intros [Hr Hq Hw] Hstep.
  assert (Hdom : forall c (k : list addr), is_Some (C !! c) ->
    forall c', is_Some (C !! c') <-> is_Some (<[c := k]> C !! c')).
  { intros c k Hc c'. destruct (decide (c = c')) as [<-|]; [|by rewrite lookup_insert_ne].
    rewrite lookup_insert_eq. split; [by eexists|done]. }
  destruct Hstep as [t c ev s' Ht [q Hc] Hp Hn E|t c s' Hp E|c b r s' [q Hc] E|s' A' wk Hf].
  - assert (Hnq : forall c' k, C !! c' = Some k -> t ∉ k).
    { intros c' k Hk Hin. specialize (Hq c' k t Hk Hin). congruence. }
    destruct (park_refines _ _ _ c q t ev Hr Hc Ht (conj Hn Hnq)) as (s1 & E1 & Hr1 & _).
    rewrite E1 in E. injection E as <-. exists (<[c := q ++ [t]]> C). split; [|by apply Hdom].
    constructor; simpl; [done| |].
    + intros c' k u [[<- <-]|[Hne Hk]]%lookup_insert_Some Hu.
      * apply elem_of_app in Hu as [Hu| ->%list_elem_of_singleton]; [|by rewrite lookup_insert_eq].
        rewrite lookup_insert_ne; [by eapply Hq|]. intros <-. by apply (Hnq c q).
      * rewrite lookup_insert_ne; [by eapply Hq|]. intros <-. by apply (Hnq c' k).
    + intros u c' [[<- <-]|[Hne Hu]]%lookup_insert_Some.
      * exists (q ++ [t]). rewrite lookup_insert_eq. split; [done|]. left. apply elem_of_app. right. by left.
      * destruct (Hw u c' Hu) as (k & Hk & Hin). destruct (decide (c = c')) as [<-|Hc'].
        -- exists (q ++ [t]). rewrite lookup_insert_eq. split; [done|]. assert (k = q) as -> by congruence.
           rewrite elem_of_app, elem_without. destruct Hin; auto.
        -- exists k. rewrite lookup_insert_ne by done. split; [done|]. rewrite elem_without. destruct Hin; auto.
  - destruct (Hw t c Hp) as (q & Hc & _).
    destruct (unpark_refines _ _ _ c q t Hr Hc) as (s1 & E1 & Hr1 & _).
    rewrite E1 in E. injection E as <-. exists (<[c := without t q]> C). split; [|by apply Hdom].
    constructor; simpl; [done| |].
    + intros c' k u [[<- <-]|[Hne Hk]]%lookup_insert_Some Hu.
      * apply elem_without in Hu as [Hut Hu]. rewrite lookup_delete_ne by done. by eapply Hq.
      * rewrite lookup_delete_ne; [by eapply Hq|]. intros ->. specialize (Hq c' k u Hk Hu). congruence.
    + intros u c' [Hne Hu]%lookup_delete_Some. destruct (Hw u c' Hu) as (k & Hk & Hin).
      destruct (decide (c = c')) as [<-|Hc'].
      * exists (without t q). rewrite lookup_insert_eq. assert (k = q) as -> by congruence.
        rewrite !elem_without. destruct Hin; auto.
      * exists k. rewrite lookup_insert_ne by done. split; [done|]. rewrite elem_without. destruct Hin; auto.
  - destruct (notify_refines _ _ _ c q b Hr Hc) as (s1 & E1 & Hr1 & Hf).
    rewrite E1 in E. injection E as <- <-. exists (<[c := remaining b q]> C). split; [|by apply Hdom].
    rewrite (cond_wakes_eq _ _ _ _ Hf).
    assert (Hsplit : forall u, u ∈ q <-> u ∈ notified b q \/ u ∈ remaining b q).
    { intros u. destruct b; simpl; [split; [auto|intros [?|?%not_elem_of_nil]; done]|].
      destruct q as [|w q]; simpl; [split; [by right|intros [Hu|Hu]; done]|].
      rewrite elem_of_cons. split; (intros [Hu|Hu]; [left|by right]); [subst; by left|by apply list_elem_of_singleton in Hu]. }
    constructor; simpl; [done| |].
    + intros c' k u [[<- <-]|[Hne Hk]]%lookup_insert_Some Hu; [|by eapply Hq].
      eapply Hq; [exact Hc|]. apply Hsplit. by right.
    + intros u c' Hu. destruct (Hw u c' Hu) as (k & Hk & Hin). setoid_rewrite elem_of_app.
      destruct (decide (c = c')) as [<-|Hc'].
      * exists (remaining b q). rewrite lookup_insert_eq. assert (k = q) as -> by congruence.
        split; [done|]. destruct Hin as [[Hin|Hin]%Hsplit|Hin]; auto.
      * exists k. rewrite lookup_insert_ne by done. split; [done|]. destruct Hin; auto.
  - exists C. split; [|done]. constructor; simpl; [by apply Hf|done|].
    intros u c' Hu. destruct (Hw u c' Hu) as (k & Hk & Hin). exists k. split; [done|].
    rewrite elem_of_app. destruct Hin; auto.
Qed.

Lemma nreach_inv C0 n0 n : ninv n0 C0 -> nreach C0 n0 n ->
  exists C, ninv n C /\ (forall c, is_Some (C0 !! c) <-> is_Some (C !! c)).
Proof.
  intros H0. induction 1 as [|n n' Hr (C & HC & Hd) Hs]; [by exists C0|].
  assert (Hs' : nstep C n n').
  { destruct Hs; [|by eapply ns_unpark| |by apply ns_env].
    - eapply ns_park; eauto. by apply Hd.
    - eapply ns_notify; eauto. by apply Hd. }
  destruct (nstep_inv C n n' HC Hs') as (C' & HC' & Hd'). exists C'. split; [done|].
  intros c. by rewrite Hd.
Qed.


(** Thread 4 waits for condition 7; thread 2's wait for mutex 9 goes on. *)
Definition demo_ncfg : ncfg := Ncfg demo_cds demo_ast {[ 4%positive := 7%positive ]} [].

Lemma demo_ninv : ninv demo_ncfg demo_conds.
Proof.
  unfold demo_conds, demo_ncfg. constructor.
  - apply demo_crel.
  - intros c q t Hq Ht. single Hq. apply list_elem_of_singleton in Ht as ->. done.
  - intros t c Ht. single Ht. eexists. split; [done|]. left. by left.
Qed.

