(* ===== verification/Barrier.v ===== *)
(** * Barriers (src/pth_sync.c, lines 635-689)

    The member structures [br_mutex] and [br_cond] of the barrier at an
    address are the mutex and the condition variable at that address.
    [pth_barrier_reach] is split where the thread may block: in the
    acquisition of the mutex and in the wait. *)

From stdpp Require Import base numbers gmap list.
From S2P Require Import Prelude Links Ring Waitq Mutex Cond.
Open Scope Z_scope.

Definition PTH_BARRIER_INITIALIZED : Z := 1.
Definition PTH_BARRIER_HEADLIGHT : Z := -1.
Definition PTH_BARRIER_TAILLIGHT : Z := -2.
Definition PTH_CANCEL_DISABLE : Z := 2.

(** [struct pth_barrier_st]; [br_cycle] is an [int] used as a boolean. *)
Record barrier := Barrier { br_state : Z; br_threshold : Z; br_count : Z; br_cycle : bool }.

(** [b_cancel]: the field [cancelstate] of the threads. *)
Record bst := Bst { b_cd : cds; b_bar : gmap addr barrier; b_cancel : gmap addr Z }.

Definition on_cd {A : Type} (m : st cds A) : st bst A :=
  zoom b_cd (fun x s => Bst x (b_bar s) (b_cancel s)) m.
Definition rd_bar (b : addr) : st bst barrier :=
  fun s => match b_bar s !! b with Some x => Some (x, s) | None => None end.
Definition wr_bar (b : addr) (x : barrier) : st bst unit :=
  fun s => Some (tt, Bst (b_cd s) (<[b := x]> (b_bar s)) (b_cancel s)).

(** [pth_cancel_state(newstate, oldstate)]; gives the old state. *)
Definition pth_cancel_state (cur : addr) (newstate : Z) : st bst Z :=
  fun s => match b_cancel s !! cur with
           | Some old =>
               Some (old, if newstate =? 0 then s else Bst (b_cd s) (b_bar s) (<[cur := newstate]> (b_cancel s)))
           | None => None end.

Definition pth_barrier_init (barrier : ptr) (threshold : Z) : st bst (bool * option errno) :=
  match barrier with
  | None => mret (pth_error false EINVAL)
  | Some b =>
      if threshold <=? 0 then mret (pth_error false EINVAL)
      else
        r1 ← on_cd (on_mx (pth_mutex_init (Some b)));
        if negb r1.1 then mret (false, r1.2)
        else
          r2 ← on_cd (pth_cond_init (Some b));
          if negb r2.1 then mret (false, r2.2)
          else wr_bar b (Barrier PTH_BARRIER_INITIALIZED threshold threshold false);; mret (ok true)
  end.

(** A segment of [pth_barrier_reach] returns, or blocks in the mutex, or in
    the wait; [cycle] and [cancel] are the local variables. *)
Inductive bar_result :=
| BDone (rv : Z) (e : option errno)
| BMutex
| BWait (cycle : bool) (cancel : Z).

(** Lines 685 to 688, the first of them only on the waiting branch. *)
Definition barrier_leave (cur b : addr) (rv : Z) (e : option errno) : st bst bar_result :=
  on_cd (on_mx (pth_mutex_release cur (Some b)));; mret (BDone rv e).
Definition barrier_leave_waiter (cur b : addr) (cancel rv : Z) (e : option errno) : st bst bar_result :=
  pth_cancel_state cur cancel;; barrier_leave cur b rv e.

(** The loop of the waiting branch, up to the wait. *)
Definition barrier_loop (cur b : addr) (cycle : bool) (cancel rv : Z) : st bst bar_result :=
  x ← rd_bar b;
  if Bool.eqb cycle (br_cycle x) then
    r ← on_cd (pth_cond_await cur (Some b) (Some b) NULL);
    match r with
    | AwFail e => barrier_leave_waiter cur b cancel 0 (Some e)
    | AwWait => mret (BWait cycle cancel)
    end
  else barrier_leave_waiter cur b cancel rv None.

(** With the mutex acquired, from line 666. *)
Definition barrier_arrive (cur b : addr) : st bst bar_result :=
  x ← rd_bar b;
  let cycle := br_cycle x in
  let n := i32 (br_count x - 1) in
  wr_bar b (Barrier (br_state x) (br_threshold x) n cycle);;
  if n =? 0 then
    wr_bar b (Barrier (br_state x) (br_threshold x) (br_threshold x) (negb cycle));;
    r ← on_cd (pth_cond_notify (Some b) true);
    barrier_leave cur b (if r.1 : bool then PTH_BARRIER_TAILLIGHT else 0) r.2
  else
    cancel ← pth_cancel_state cur PTH_CANCEL_DISABLE;
    let rv := if br_threshold x =? n then PTH_BARRIER_HEADLIGHT else 1 in
    barrier_loop cur b cycle cancel rv.

Definition pth_barrier_reach (cur : addr) (barrier : ptr) : st bst bar_result :=
  match barrier with
  | None => mret (BDone 0 (Some EINVAL))
  | Some b =>
      x ← rd_bar b;
      if Z.land (br_state x) PTH_BARRIER_INITIALIZED =? 0 then mret (BDone 0 (Some EINVAL))
      else
        r ← on_cd (on_mx (pth_mutex_acquire cur (Some b) false NULL));
        match r with
        | Blocked => mret BMutex
        | Done (false, e) => mret (BDone 0 e)
        | Done (true, _) => barrier_arrive cur b
        end
  end.

(** From the return of [pth_wait] on: [pth_cond_await] leaves the queue,
    acquires the mutex and returns [TRUE], and the loop goes on. *)
Definition barrier_resume (cur b : addr) (cycle : bool) (cancel : Z) : st bst bar_result :=
  r ← on_cd (cond_await_resume cur b b);
  match r with
  | Blocked => mret BMutex
  | Done _ => barrier_loop cur b cycle cancel 1
  end.

(** ** What a segment does *)

(** The thread [t] is not parked and owns the barrier's mutex. *)
Record owner_of (A : ast) (t m : addr) : Prop := {
  oo_mutex : exists a l, a_mx A !! m = Some a /\ a_owner a = Some t /\ a_held A !! t = Some l /\ m ∈ l;
  oo_free : forall m' a, a_mx A !! m' = Some a -> t ∉ a_queue a
}.

Lemma x_cd {A : Type} (m : st cds A) s a x :
  m (b_cd s) = Some (a, x) -> on_cd m s = Some (a, Bst x (b_bar s) (b_cancel s)).
Proof. intros H. unfold on_cd, zoom. by rewrite H. Qed.
Lemma x_rd_bar s b x : b_bar s !! b = Some x -> rd_bar b s = Some (x, s).
Proof. intros H. unfold rd_bar. by rewrite H. Qed.
Lemma x_wr_bar s b x : wr_bar b x s = Some (tt, Bst (b_cd s) (<[b := x]> (b_bar s)) (b_cancel s)).
Proof. done. Qed.
Lemma x_cancel s t n v : b_cancel s !! t = Some v ->
  exists k, pth_cancel_state t n s = Some (v, Bst (b_cd s) (b_bar s) k) /\ is_Some (k !! t) /\
    forall u, is_Some (b_cancel s !! u) -> is_Some (k !! u).
Proof.
  intros H. unfold pth_cancel_state. rewrite H. destruct (n =? 0).
  - exists (b_cancel s). destruct s. split_and!; [done|by eexists|done].
  - eexists. split; [reflexivity|]. rewrite lookup_insert_eq. split; [by eexists|].
    intros u. apply insert_dom.
Qed.

(** The mutexes after [t] released [m]. *)
Definition released (A : ast) (t m : addr) : ast :=
  match a_mx A !! m with Some a => (sp_release A t m a).1.2 | None => A end.

Section segments.
Context (b : addr).

(** What the waiting and leaving ends of a segment leave behind. *)
Lemma leave_ok s A C t rv e q :
  crel (b_cd s) A C -> C !! b = Some q -> owner_of A t b ->
  exists s', barrier_leave t b rv e s = Some (BDone rv e, s') /\ crel (b_cd s') (released A t b) C /\
    b_bar s' = b_bar s /\ b_cancel s' = b_cancel s.
Proof.
  intros Hr Hq [(a & l & Hm & Ho & Hl & Hin) Hn]. unfold barrier_leave.
  destruct (release_crel (b_cd s) A C b a l t Hr Hm Hl (fun _ => Hin)) as (s1 & E & Hr1 & _).
  erewrite st_bind_Some by (apply x_cd; exact E). unfold released. rewrite Hm. by eexists.
Qed.

Lemma loop_ok s A C t cyc cancel rv q x :
  crel (b_cd s) A C -> C !! b = Some q -> b_bar s !! b = Some x -> is_Some (b_cancel s !! t) ->
  owner_of A t b -> (forall c k, C !! c = Some k -> t ∉ k) ->
  exists s', barrier_loop t b cyc cancel rv s
      = Some (if Bool.eqb cyc (br_cycle x) then BWait cyc cancel else BDone rv None, s') /\
    crel (b_cd s') (released A t b) (if Bool.eqb cyc (br_cycle x) then <[b := q ++ [t]]> C else C) /\
    b_bar s' = b_bar s /\ (forall u, is_Some (b_cancel s !! u) -> is_Some (b_cancel s' !! u)).
Proof.
  intros Hr Hq Hx [v Hv] Hown Hnq. unfold barrier_loop. rewrite (st_bind_Some _ _ _ _ _ (x_rd_bar _ _ _ Hx)).
  destruct (Bool.eqb cyc (br_cycle x)) eqn:Ec.
  - destruct (oo_mutex _ _ _ Hown) as (a & l & Hm & Ho & Hl & Hin).
    destruct (await_refines (b_cd s) A C b q b a l t NULL Hr Hq Hm Hl (fun _ => Hin)) as (s1 & E & Hr1 & _).
    { split; [apply Hown|done]. }
    erewrite st_bind_Some by (apply x_cd; exact E). unfold released. rewrite Hm. by eexists.
  - unfold barrier_leave_waiter. destruct (x_cancel s t cancel v Hv) as (k & E & Hk & Hd).
    rewrite (st_bind_Some _ _ _ _ _ E).
    destruct (leave_ok (Bst (b_cd s) (b_bar s) k) A C t rv None q Hr Hq Hown) as (s' & E' & Hr' & Hb & Hc).
    exists s'. rewrite Hb, Hc. by split_and!.
Qed.

Lemma arrive_ok s A C t q x :
  crel (b_cd s) A C -> C !! b = Some q -> b_bar s !! b = Some x -> is_Some (b_cancel s !! t) ->
  owner_of A t b -> (forall c k, C !! c = Some k -> t ∉ k) -> in_i32 (br_count x - 1) ->
  exists r s' v, barrier_arrive t b s = Some (r, s') /\
    (if br_count x =? 1
     then r = BDone PTH_BARRIER_TAILLIGHT None /\ crel (b_cd s') (released A t b) (<[b := []]> C) /\
          b_bar s' !! b = Some (Barrier (br_state x) (br_threshold x) (br_threshold x) (negb (br_cycle x)))
     else r = BWait (br_cycle x) v /\ crel (b_cd s') (released A t b) (<[b := q ++ [t]]> C) /\
          b_bar s' !! b = Some (Barrier (br_state x) (br_threshold x) (br_count x - 1) (br_cycle x))) /\
    (forall u, is_Some (b_cancel s !! u) -> is_Some (b_cancel s' !! u)).
Proof.
  intros Hr Hq Hx [v Hv] Hown Hnq Hn. unfold barrier_arrive.
  rewrite (st_bind_Some _ _ _ _ _ (x_rd_bar _ _ _ Hx)), (i32_small _ Hn).
  rewrite (st_bind_Some _ _ _ _ _ (x_wr_bar _ _ _)).
  replace (br_count x - 1 =? 0) with (br_count x =? 1) by (destruct (Z.eqb_spec (br_count x) 1); lia).
  destruct (br_count x =? 1).
  - rewrite (st_bind_Some _ _ _ _ _ (x_wr_bar _ _ _)). cbn [b_cd b_bar b_cancel].
    destruct (notify_refines (b_cd s) A C b q true Hr Hq) as (s1 & E1 & Hr1 & _).
    erewrite st_bind_Some by (apply x_cd; exact E1). cbn [fst snd ok b_bar b_cancel].
    match goal with |- context [Bst s1 ?M _] =>
      destruct (leave_ok (Bst s1 M (b_cancel s)) A (<[b := remaining true q]> C) t PTH_BARRIER_TAILLIGHT None [])
        as (s' & E' & Hr' & Hb & Hc) end; [done|by rewrite lookup_insert_eq|done|].
    exists (BDone PTH_BARRIER_TAILLIGHT None), s', v. split; [exact E'|]. rewrite Hb, Hc. cbn [b_bar b_cancel].
    split; [|done]. split_and!; [done|done|]. by rewrite lookup_insert_eq.
  - destruct (x_cancel (Bst (b_cd s) (<[b:=Barrier (br_state x) (br_threshold x) (br_count x - 1) (br_cycle x)]> (b_bar s))
      (b_cancel s)) t PTH_CANCEL_DISABLE v Hv) as (k & E & Hk & Hd).
    rewrite (st_bind_Some _ _ _ _ _ E). cbv zeta. cbn [b_cd b_bar b_cancel].
    edestruct (loop_ok (Bst (b_cd s) (<[b := Barrier (br_state x) (br_threshold x) (br_count x - 1) (br_cycle x)]>
      (b_bar s)) k) A C t (br_cycle x) v) as (s' & E' & Hr' & Hb & Hc);
      [done|done|cbn [b_bar]; by rewrite lookup_insert_eq|done|done|done|].
    cbn [br_cycle] in *. rewrite Bool.eqb_reflx in *.
    exists (BWait (br_cycle x) v), s', v. split; [exact E'|]. rewrite Hb. cbn [b_bar]. split.
    + split_and!; [done|done|by rewrite lookup_insert_eq].
    + intros u Hu. apply Hc, Hd. done.
Qed.
End segments.

(** ** Rounds

    A barrier and its participants, as many as its threshold. The steps are
    the segments of [pth_barrier_reach] that run with the barrier's mutex
    held, and the thread's leaving the queue of the condition variable; what
    happens in between, the acquisitions of the mutex included, is a step of
    the environment. [z_arr] and [z_ret] count how often a thread has reached
    the barrier and returned from it, [z_vals] are the values returned. *)

Inductive bphase :=
| PWait (cycle : bool) (cancel : Z)
| PBack (cycle : bool) (cancel : Z).
Definition cycle_of (p : bphase) : bool := match p with PWait c _ => c | PBack c _ => c end.

Record bcfg := Bcfg {
  z_s : bst; z_A : ast; z_phase : gmap addr bphase;
  z_arr : addr -> nat; z_ret : addr -> nat; z_vals : list Z
}.

Definition bump (t : addr) (f : addr -> nat) : addr -> nat := fun u => if decide (u = t) then S (f u) else f u.

Definition bar_phase (t : addr) (r : bar_result) (ph : gmap addr bphase) : gmap addr bphase :=
  match r with BDone _ _ => delete t ph | BMutex => ph | BWait c v => <[t := PWait c v]> ph end.
Definition bar_ret (t : addr) (r : bar_result) (f : addr -> nat) : addr -> nat :=
  match r with BDone _ _ => bump t f | _ => f end.
Definition bar_vals (r : bar_result) (k : list Z) : list Z := match r with BDone v _ => v :: k | _ => k end.
Definition tails (k : list Z) : nat := length (filter (fun v => v = PTH_BARRIER_TAILLIGHT) k).

Section rounds.
Context (P : list addr) (b : addr).

Inductive bstep (n : bcfg) : bcfg -> Prop :=
| bs_arrive t r s' :
    t ∈ P -> z_phase n !! t = None -> owner_of (z_A n) t b ->
    barrier_arrive t b (z_s n) = Some (r, s') ->
    bstep n (Bcfg s' (released (z_A n) t b) (bar_phase t r (z_phase n)) (bump t (z_arr n))
                  (bar_ret t r (z_ret n)) (bar_vals r (z_vals n)))
| bs_unpark t c v cd' :
    z_phase n !! t = Some (PWait c v) ->
    cond_unpark t b (b_cd (z_s n)) = Some (tt, cd') ->
    bstep n (Bcfg (Bst cd' (b_bar (z_s n)) (b_cancel (z_s n))) (z_A n) (<[t := PBack c v]> (z_phase n))
                  (z_arr n) (z_ret n) (z_vals n))
| bs_again t c v r s' :
    z_phase n !! t = Some (PBack c v) -> owner_of (z_A n) t b ->
    barrier_loop t b c v 1 (z_s n) = Some (r, s') ->
    bstep n (Bcfg s' (released (z_A n) t b) (bar_phase t r (z_phase n)) (z_arr n)
                  (bar_ret t r (z_ret n)) (bar_vals r (z_vals n)))
| bs_env s' A' :
    (forall q, crel (b_cd (z_s n)) (z_A n) {[b := q]} -> crel (b_cd s') A' {[b := q]}) ->
    b_bar s' !! b = b_bar (z_s n) !! b ->
    (forall t, is_Some (b_cancel (z_s n) !! t) -> is_Some (b_cancel s' !! t)) ->
    bstep n (Bcfg s' A' (z_phase n) (z_arr n) (z_ret n) (z_vals n)).

Inductive breach (n0 : bcfg) : bcfg -> Prop :=
| br_init : breach n0 n0
| br_next n n' : breach n0 n -> bstep n n' -> breach n0 n'.

(** The participants that wait for the current cycle. *)
Definition in_cycle (ph : gmap addr bphase) (cyc : bool) (t : addr) : bool :=
  bool_decide (cycle_of <$> ph !! t = Some cyc).
Definition blocked (ph : gmap addr bphase) (cyc : bool) : list addr := filter (fun t => in_cycle ph cyc t = true) P.

Record binv (n : bcfg) (g : nat) (q : list addr) (cyc : bool) : Prop := {
  bi_rel : crel (b_cd (z_s n)) (z_A n) {[b := q]};
  bi_bar : b_bar (z_s n) !! b = Some (Barrier PTH_BARRIER_INITIALIZED (Z.of_nat (length P))
             (Z.of_nat (length P) - Z.of_nat (length (blocked (z_phase n) cyc))) cyc);
  bi_phase : forall t p, z_phase n !! t = Some p -> t ∈ P;
  bi_cancel : forall t, t ∈ P -> is_Some (b_cancel (z_s n) !! t);
  bi_open : (length (blocked (z_phase n) cyc) < length P)%nat;
  bi_queue : forall t, t ∈ q <-> exists v, z_phase n !! t = Some (PWait cyc v);
  bi_idle : forall t, t ∈ P -> z_phase n !! t = None -> z_arr n t = g /\ z_ret n t = g;
  bi_cur : forall t p, z_phase n !! t = Some p -> cycle_of p = cyc -> z_arr n t = S g /\ z_ret n t = g;
  bi_old : forall t p, z_phase n !! t = Some p -> cycle_of p <> cyc -> z_arr n t = g /\ S (z_ret n t) = g;
  bi_vals : tails (z_vals n) = g;
  bi_rvs : Forall (fun v => v = PTH_BARRIER_TAILLIGHT \/ v = 1) (z_vals n)
}.

Lemma filter_same (f f' : addr -> bool) (k : list addr) : (forall t, t ∈ k -> f t = f' t) ->
  filter (fun t => f t = true) k = filter (fun t => f' t = true) k.
Proof.
  intros H. induction k as [|x k IH]; [done|]. rewrite !filter_cons, (H x) by (by left).
  rewrite IH by (intros; apply H; by right). done.
Qed.

(** One more participant blocks. *)
Lemma count_up (f f' : addr -> bool) (k : list addr) t : NoDup k -> t ∈ k -> f t = false -> f' t = true ->
  (forall u, u <> t -> f' u = f u) ->
  length (filter (fun t => f' t = true) k) = S (length (filter (fun t => f t = true) k)).
Proof.
  intros Hnd Hin Hf Hf' Hs. apply list_elem_of_split in Hin as (k1 & k2 & ->).
  apply NoDup_app in Hnd as (_ & Hd & Hnd). apply NoDup_cons in Hnd as [Hk2 _].
  rewrite !filter_app, !filter_cons, Hf, Hf', !length_app. rewrite decide_True, decide_False by done. simpl.
  rewrite (filter_same f' f k1), (filter_same f' f k2); [lia|intros u Hu; apply Hs; by intros ->|].
  intros u Hu. apply Hs. intros ->. apply (Hd t Hu). by left.
Qed.

Lemma count_open (f : addr -> bool) (k : list addr) :
  (length (filter (fun t => f t = true) k) < length k)%nat -> exists u, u ∈ k /\ f u = false.
Proof.
  induction k as [|x k IH]; [simpl; lia|]. rewrite filter_cons. intros H. destruct (f x) eqn:E.
  - rewrite decide_True in H by done. destruct IH as (u & Hu & Hf); [simpl in H; lia|].
    exists u. split; [by right|done].
  - exists x. split; [by left|done].
Qed.

(** All but one are blocked, and it is [t] that is not. *)
Lemma count_last (f : addr -> bool) (k : list addr) t : NoDup k -> t ∈ k -> f t = false ->
  S (length (filter (fun t => f t = true) k)) = length k -> forall u, u ∈ k -> u <> t -> f u = true.
Proof.
  intros Hnd Hin Hf Hlen u Hu Hne. destruct (f u) eqn:E; [done|]. exfalso.
  apply list_elem_of_split in Hin as (k1 & k2 & ->).
  assert (Hlt : (length (filter (fun t => f t = true) (k1 ++ k2)) < length (k1 ++ k2))%nat).
  { apply (length_filter_lt _ _ u); [|congruence].
    rewrite elem_of_app, elem_of_cons in Hu. rewrite elem_of_app. naive_solver. }
  rewrite filter_app, filter_cons, decide_False in Hlen by congruence. rewrite filter_app in Hlt.
  rewrite !length_app in *. simpl in *. lia.
Qed.

Lemma in_cycle_insert ph cyc t p u : in_cycle (<[t := p]> ph) cyc u =
  if decide (u = t) then bool_decide (cycle_of p = cyc) else in_cycle ph cyc u.
Proof.
  unfold in_cycle. destruct (decide (u = t)) as [->|].
  - rewrite lookup_insert_eq. simpl. apply bool_decide_ext. split; congruence.
  - by rewrite lookup_insert_ne.
Qed.
Lemma in_cycle_delete ph cyc t u : in_cycle (delete t ph) cyc u =
  if decide (u = t) then false else in_cycle ph cyc u.
Proof.
  unfold in_cycle. destruct (decide (u = t)) as [->|].
  - by rewrite lookup_delete_eq.
  - by rewrite lookup_delete_ne.
Qed.
Lemma in_cycle_idle ph cyc t : ph !! t = None -> in_cycle ph cyc t = false.
Proof. intros H. unfold in_cycle. by rewrite H. Qed.
Lemma in_cycle_true ph cyc t : in_cycle ph cyc t = true <-> exists p, ph !! t = Some p /\ cycle_of p = cyc.
Proof.
  unfold in_cycle. rewrite bool_decide_eq_true, fmap_Some. naive_solver.
Qed.

Context (HP : NoDup P) (few : Z.of_nat (length P) < 2 ^ 31).

(** A participant arrives that is not the last: it blocks. *)
Lemma arrive_blocks n g q cyc t v s' A' :
  binv n g q cyc -> t ∈ P -> z_phase n !! t = None ->
  (S (length (blocked (z_phase n) cyc)) <> length P)%nat ->
  crel (b_cd s') A' {[b := q ++ [t]]} ->
  b_bar s' !! b = Some (Barrier PTH_BARRIER_INITIALIZED (Z.of_nat (length P))
    (Z.of_nat (length P) - Z.of_nat (length (blocked (z_phase n) cyc)) - 1) cyc) ->
  (forall u, is_Some (b_cancel (z_s n) !! u) -> is_Some (b_cancel s' !! u)) ->
  binv (Bcfg s' A' (<[t := PWait cyc v]> (z_phase n)) (bump t (z_arr n)) (z_ret n) (z_vals n)) g (q ++ [t]) cyc.
Proof.
  intros [H1 H2 H3 H4 H5 H6 H7 H8 H9 H10 H11] Ht Hp Hlt Hr Hb Hc.
  assert (Hup : length (blocked (<[t := PWait cyc v]> (z_phase n)) cyc) = S (length (blocked (z_phase n) cyc))).
  { apply (count_up _ _ P t); [done|done|by apply in_cycle_idle| |].
    - rewrite in_cycle_insert, decide_True by done. by apply bool_decide_eq_true_2.
    - intros u Hu. by rewrite in_cycle_insert, decide_False. }
  constructor; simpl; try done; unfold bump.
  - rewrite Hup, Hb. do 2 f_equal. lia.
  - intros u p [[<- _]|[_ Hu]]%lookup_insert_Some; [done|by eapply H3].
  - auto.
  - rewrite Hup. lia.
  - intros u. rewrite elem_of_app, list_elem_of_singleton, H6. destruct (decide (u = t)) as [->|Hne].
    + rewrite lookup_insert_eq. split; [intros _; by exists v|by right].
    + rewrite lookup_insert_ne by done. naive_solver.
  - intros u Hu Hpu. apply lookup_insert_None in Hpu as [Hpu Hne]. rewrite decide_False by done. by apply H7.
  - intros u p [[<- <-]|[Hne Hu]]%lookup_insert_Some Hcy.
    + rewrite decide_True by done. destruct (H7 t Ht Hp) as [-> ->]. done.
    + rewrite decide_False by done. by eapply H8.
  - intros u p [[<- <-]|[Hne Hu]]%lookup_insert_Some Hcy; [done|].
    rewrite decide_False by done. by eapply H9.
Qed.

(** The last participant arrives: a new round begins. *)
Lemma arrive_flips n g q cyc t s' A' :
  binv n g q cyc -> t ∈ P -> z_phase n !! t = None ->
  (S (length (blocked (z_phase n) cyc)) = length P)%nat ->
  crel (b_cd s') A' {[b := []]} ->
  b_bar s' !! b = Some (Barrier PTH_BARRIER_INITIALIZED (Z.of_nat (length P)) (Z.of_nat (length P)) (negb cyc)) ->
  (forall u, is_Some (b_cancel (z_s n) !! u) -> is_Some (b_cancel s' !! u)) ->
  binv (Bcfg s' A' (delete t (z_phase n)) (bump t (z_arr n)) (bump t (z_ret n))
    (PTH_BARRIER_TAILLIGHT :: z_vals n)) (S g) [] (negb cyc).
Proof.
  intros [H1 H2 H3 H4 H5 H6 H7 H8 H9 H10 H11] Ht Hp Hlt Hr Hb Hc.
  assert (Hall : forall u, u ∈ P -> u <> t -> exists p, z_phase n !! u = Some p /\ cycle_of p = cyc).
  { intros u Hu Hne. apply in_cycle_true. by apply (count_last _ P t); [|done|apply in_cycle_idle|..]. }
  assert (Hcyc : forall u p, delete t (z_phase n) !! u = Some p -> cycle_of p = cyc).
  { intros u p [Hne Hu]%lookup_delete_Some. destruct (Hall u) as (p' & Hp' & <-); [by eapply H3|done|]. congruence. }
  assert (Hz : blocked (delete t (z_phase n)) (negb cyc) = []).
  { destruct (blocked (delete t (z_phase n)) (negb cyc)) as [|u k] eqn:E; [done|].
    assert (Hu : u ∈ blocked (delete t (z_phase n)) (negb cyc)) by (rewrite E; by left).
    unfold blocked in Hu. apply list_elem_of_filter in Hu as [Hu _]. apply in_cycle_true in Hu as (p & Hu & Hcy).
    apply Hcyc in Hu. rewrite Hu in Hcy. by destruct cyc. }
  constructor; simpl; try done; unfold bump.
  - rewrite Hz, Hb. simpl. do 2 f_equal. lia.
  - intros u p [_ Hu]%lookup_delete_Some. by eapply H3.
  - auto.
  - rewrite Hz. simpl. lia.
  - intros u. split; [by intros Hu%not_elem_of_nil|]. intros [v Hv]. apply Hcyc in Hv. by destruct cyc.
  - intros u Hu Hpu. destruct (decide (u = t)) as [->|Hne].
    + by destruct (H7 t Ht Hp) as [-> ->].
    + rewrite lookup_delete_ne in Hpu by done. destruct (Hall u Hu Hne) as (p & Hpu' & _). congruence.
  - intros u p Hu Hcy. apply Hcyc in Hu. rewrite Hu in Hcy. by destruct cyc.
  - intros u p Hu _. assert (Hcy := Hcyc u p Hu). apply lookup_delete_Some in Hu as [Hne Hu].
    rewrite !decide_False by done. destruct (H8 u p Hu Hcy) as [-> ->]. done.
  - unfold tails in *. rewrite filter_cons, decide_True by done. simpl. by f_equal.
  - constructor; [by left|done].
Qed.

Lemma bstep_inv n n' g q cyc : binv n g q cyc -> bstep n n' -> exists g' q' cyc', binv n' g' q' cyc'.
Proof.
  intros HI Hstep. destruct (id HI) as [H1 H2 H3 H4 H5 H6 H7 H8 H9 H10 H11].
  assert (Hsing : forall (k k' : list addr), <[b := k']> {[b := k]} = ({[b := k']} : gmap addr (list addr)))
    by (intros; by rewrite insert_singleton_eq).
  assert (Hnq : forall t, (forall v, z_phase n !! t <> Some (PWait cyc v)) ->
    forall c (k : list addr), ({[b := q]} : gmap addr (list addr)) !! c = Some k -> t ∉ k).
  { intros t Ht c k Hk Hin. single Hk. apply H6 in Hin as [v Hv]. by apply (Ht v). }
  destruct Hstep as [t r s' Ht Hp Hown E|t c v cd' Hp E|t c v r s' Hp Hown E|s' A' Hf Hb Hc].
  - destruct (arrive_ok b (z_s n) (z_A n) {[b := q]} t q (Barrier PTH_BARRIER_INITIALIZED (Z.of_nat (length P))
      (Z.of_nat (length P) - Z.of_nat (length (blocked (z_phase n) cyc))) cyc) H1) as (r1 & s1 & v & E1 & Hres & Hd);
      [by rewrite lookup_singleton_eq|exact H2|by apply H4|done|apply Hnq; congruence|unfold in_i32; simpl; lia|].
    rewrite E1 in E. injection E as -> ->. rewrite !Hsing in Hres. cbn [br_count br_state br_threshold br_cycle] in Hres.
    destruct (Z.eqb_spec (Z.of_nat (length P) - Z.of_nat (length (blocked (z_phase n) cyc))) 1) as [Hl|Hl].
    + destruct Hres as (-> & Hr & Hb). exists (S g), [], (negb cyc). apply (arrive_flips n g q cyc t); try done; lia.
    + destruct Hres as (-> & Hr & Hb). exists g, (q ++ [t]), cyc. apply (arrive_blocks n g q cyc t v); try done; lia.
  - destruct (unpark_refines (b_cd (z_s n)) (z_A n) _ b q t H1) as (s1 & E1 & Hr & _);
      [by rewrite lookup_singleton_eq|].
    rewrite E1 in E. injection E as <-. rewrite Hsing in Hr. exists g, (without t q), cyc.
    assert (Hbl : blocked (<[t := PBack c v]> (z_phase n)) cyc = blocked (z_phase n) cyc).
    { apply filter_same. intros u _. rewrite in_cycle_insert. destruct (decide (u = t)) as [->|]; [|done].
      unfold in_cycle. rewrite Hp. simpl. apply bool_decide_ext. split; congruence. }
    constructor; simpl; rewrite ?Hbl; try done.
    + intros u p [[<- _]|[_ Hu]]%lookup_insert_Some; by eapply H3.
    + intros u. rewrite elem_without, H6. destruct (decide (u = t)) as [->|Hne].
      * rewrite lookup_insert_eq. split; [by intros [? _]|by intros [? ?]].
      * rewrite lookup_insert_ne by done. naive_solver.
    + intros u Hu [Hpu Hne]%lookup_insert_None. by apply H7.
    + intros u p [[<- <-]|[Hne Hu]]%lookup_insert_Some Hcy; [by eapply (H8 t (PWait c v))|by eapply H8].
    + intros u p [[<- <-]|[Hne Hu]]%lookup_insert_Some Hcy; [by eapply (H9 t (PWait c v))|by eapply H9].
  - destruct (loop_ok b (z_s n) (z_A n) {[b := q]} t c v 1 q (Barrier PTH_BARRIER_INITIALIZED (Z.of_nat (length P))
      (Z.of_nat (length P) - Z.of_nat (length (blocked (z_phase n) cyc))) cyc) H1) as (s1 & E1 & Hr & Hb & Hd);
      [by rewrite lookup_singleton_eq|exact H2|apply H4; by eapply H3|done|apply Hnq; congruence|].
    rewrite E1 in E. injection E as <- <-. cbn [br_cycle] in *. rewrite <- Hb in H2.
    destruct (Bool.eqb c cyc) eqn:Ec.
    + apply Bool.eqb_prop in Ec as ->. rewrite Hsing in Hr. exists g, (q ++ [t]), cyc.
      assert (Hbl : blocked (<[t := PWait cyc v]> (z_phase n)) cyc = blocked (z_phase n) cyc).
      { apply filter_same. intros u _. rewrite in_cycle_insert. destruct (decide (u = t)) as [->|]; [|done].
        unfold in_cycle. rewrite Hp. simpl. apply bool_decide_ext. split; congruence. }
      constructor; simpl; rewrite ?Hbl; try done.
      * intros u p [[<- _]|[_ Hu]]%lookup_insert_Some; by eapply H3.
      * auto.
      * intros u. rewrite elem_of_app, list_elem_of_singleton, H6. destruct (decide (u = t)) as [->|Hne].
        -- rewrite lookup_insert_eq. split; [intros _; by exists v|by right].
        -- rewrite lookup_insert_ne by done. naive_solver.
      * intros u Hu [Hpu Hne]%lookup_insert_None. by apply H7.
      * intros u p [[<- <-]|[Hne Hu]]%lookup_insert_Some Hcy; [by eapply (H8 t (PBack cyc v))|by eapply H8].
      * intros u p [[<- <-]|[Hne Hu]]%lookup_insert_Some Hcy; [by eapply (H9 t (PBack cyc v))|by eapply H9].
    + exists g, q, cyc. assert (Hcne : c <> cyc) by (intros ->; by rewrite Bool.eqb_reflx in Ec).
      assert (Hbl : blocked (delete t (z_phase n)) cyc = blocked (z_phase n) cyc).
      { apply filter_same. intros u _. rewrite in_cycle_delete. destruct (decide (u = t)) as [->|]; [|done].
        unfold in_cycle. rewrite Hp. simpl. symmetry. apply bool_decide_eq_false_2. congruence. }
      destruct (H9 t (PBack c v) Hp Hcne) as [Ha Hrt].
      constructor; simpl; rewrite ?Hbl; try done; unfold bump.
      * intros u p [_ Hu]%lookup_delete_Some. by eapply H3.
      * auto.
      * intros u. rewrite H6. destruct (decide (u = t)) as [->|Hne]; [|by rewrite lookup_delete_ne].
        rewrite lookup_delete_eq. split; intros [? ?]; congruence.
      * intros u Hu Hpu. destruct (decide (u = t)) as [->|Hne]; [done|].
        rewrite lookup_delete_ne in Hpu by done. by apply H7.
      * intros u p [Hne Hu]%lookup_delete_Some Hcy. rewrite decide_False by done. by eapply H8.
      * intros u p [Hne Hu]%lookup_delete_Some Hcy. rewrite decide_False by done. by eapply H9.
      * constructor; [by right|done].
  - exists g, q, cyc. constructor; simpl; try done; [by apply Hf|by rewrite Hb|auto].
Qed.
End rounds.

(** ** Properties *)

(** A fresh barrier with as many participants as its threshold. *)
Record bstarts (P : list addr) (b : addr) (n : bcfg) : Prop := {
  bt_nodup : NoDup P;
  bt_few : 0 < Z.of_nat (length P) < 2 ^ 31;
  bt_rel : crel (b_cd (z_s n)) (z_A n) {[b := []]};
  bt_bar : b_bar (z_s n) !! b
    = Some (Barrier PTH_BARRIER_INITIALIZED (Z.of_nat (length P)) (Z.of_nat (length P)) false);
  bt_cancel : forall t, t ∈ P -> is_Some (b_cancel (z_s n) !! t);
  bt_phase : z_phase n = ∅;
  bt_counts : (forall t, z_arr n t = 0%nat /\ z_ret n t = 0%nat) /\ z_vals n = []
}.

Lemma bstarts_inv P b n : bstarts P b n -> binv P b n 0 [] false.
Proof.
  intros [H1 H2 H3 H4 H5 H6 [H7 H8]].
  assert (Hz : blocked P (z_phase n) false = []).
  { unfold blocked. destruct (filter _ P) as [|u k] eqn:E; [done|].
    assert (Hu : u ∈ u :: k) by (by left). rewrite <- E in Hu. apply list_elem_of_filter in Hu as [Hu _].
    apply in_cycle_true in Hu as (p & Hu & _). by rewrite H6 in Hu. }
  assert (Hnone : forall t p, z_phase n !! t = Some p -> False) by (intros t p; by rewrite H6).
  constructor; try done.
  - rewrite Hz, H4. simpl. do 2 f_equal. lia.
  - by intros t p ?%Hnone.
  - rewrite Hz. simpl. lia.
  - intros t. split; [by intros ?%not_elem_of_nil|by intros [v ?%Hnone]].
  - by intros t p ?%Hnone.
  - by intros t p ?%Hnone.
  - by rewrite H8.
  - by rewrite H8.
Qed.

Lemma breach_inv P b n0 n : bstarts P b n0 -> breach P b n0 n -> exists g q cyc, binv P b n g q cyc.
Proof.
  intros H0. induction 1 as [|n n' Hr (g & q & cyc & IH) Hs]; [by do 3 eexists; apply bstarts_inv|].
  eapply bstep_inv; [apply H0|apply H0|done|done].
Qed.


(** Barrier 9 with the participants 1 and 2; 1 has acquired its mutex. *)
Definition demo_bst : bst :=
  Bst (Cds (Mxs (Park {[ 1%positive := NULL; 2%positive := NULL; 3%positive := NULL ]}
                  {[ 1%positive := NULL; 2%positive := NULL; 3%positive := NULL ]} [])
            {[ 9%positive := Mutex 3 (Some 1%positive) 1 (Waitq NULL NULL) ]}
            (Dll {[ 9%positive := Some 9%positive ]} {[ 9%positive := Some 9%positive ]})
            {[ 1%positive := Ring (Some 9%positive) 1; 2%positive := Ring NULL 0; 3%positive := Ring NULL 0 ]})
          {[ 9%positive := Cond 1 0 (Waitq NULL NULL) ]})
      {[ 9%positive := Barrier 1 2 2 false ]}
      {[ 1%positive := 9; 2%positive := 9; 3%positive := 9 ]}.
Definition demo_bar_ast : ast :=
  Ast {[ 9%positive := AM false (Some 1%positive) 1 [] ]}
      {[ 1%positive := [9%positive]; 2%positive := []; 3%positive := [] ]}.
Definition demo_bcfg : bcfg := Bcfg demo_bst demo_bar_ast ∅ (fun _ => 0%nat) (fun _ => 0%nat) [].

Lemma demo_bar_held t l : a_held demo_bar_ast !! t = Some l ->
  (t = 1%positive /\ l = [9%positive]) \/ (l = [] /\ (t = 2%positive \/ t = 3%positive)).
Proof.
  simpl. intros [[<- <-]|[_ H]]%lookup_insert_Some; [by left|].
  apply lookup_insert_Some in H as [[<- <-]|[_ H]]; [by auto|].
  apply lookup_singleton_Some in H as [<- <-]. auto.
Qed.

Lemma demo_bar_mrel : mrel (d_mx (b_cd demo_bst)) demo_bar_ast.
Proof.
  constructor.
  - intros m a Ha. single Ha. eexists. split; [reflexivity|].
    constructor; simpl; [done|done|done|by apply wq_empty|by split|lia].
  - intros t [l Hl]. apply demo_bar_held in Hl as [[-> _]|[_ [->| ->]]]; split; by eexists.
  - intros m a t Ha. single Ha. by intros ?%not_elem_of_nil.
  - intros m m' a a' t Ha Ha'. single Ha. by single Ha'.
  - constructor.
    + intros t l Hl. apply demo_bar_held in Hl as [[-> ->]|[-> [->| ->]]];
        (eexists; split; [reflexivity|]); [|by apply ring_empty..].
      constructor; [done|done|apply NoDup_singleton|by vm_compute|simpl; lia].
    + intros t t' l l' m Hl Hl' Hne Hm. apply demo_bar_held in Hl as [[-> ->]|[-> _]].
      * apply demo_bar_held in Hl' as [[-> _]|[-> _]]; [done|apply not_elem_of_nil].
      * by apply not_elem_of_nil in Hm.
  - intros m [a Ha]. single Ha. split; by eexists.
  - intros t l Hl. apply demo_bar_held in Hl as [[-> ->]|[-> _]]; [|constructor].
    constructor; [by eexists|constructor].
  - by vm_compute.
Qed.

Lemma demo_bstarts : bstarts [1%positive; 2%positive] 9 demo_bcfg.
Proof.
  constructor; [by apply (bool_decide_unpack _)|done| |done| |done|done].
  - constructor.
    + apply demo_bar_mrel.
    + intros c q Hq. single Hq. eexists. split; [reflexivity|]. constructor; [done|done|by apply wq_empty].
    + intros c q t Hq Ht. single Hq. by apply not_elem_of_nil in Ht.
    + intros c c' q q' t Hq Hq' Hne. single Hq. by single Hq'.
    + by vm_compute.
  - intros t Ht. rewrite !elem_of_cons in Ht. destruct Ht as [->|[->|Ht]]; [by eexists..|by apply not_elem_of_nil in Ht].
Qed.

Definition do_arrive (b : addr) (n : bcfg) (t : addr) : bcfg :=
  match barrier_arrive t b (z_s n) with
  | Some (r, s') => Bcfg s' (released (z_A n) t b) (bar_phase t r (z_phase n)) (bump t (z_arr n))
                         (bar_ret t r (z_ret n)) (bar_vals r (z_vals n))
  | None => n end.

Lemma do_arrive_reach P b n0 n t : breach P b n0 n -> t ∈ P -> z_phase n !! t = None -> owner_of (z_A n) t b ->
  breach P b n0 (do_arrive b n t).
Proof.
  intros Hr Ht Hp Hown. unfold do_arrive. destruct (barrier_arrive t b (z_s n)) as [[r s']|] eqn:E; [|done].
  eapply br_next; [done|]. by apply bs_arrive.
Qed.

(** Thread 1 reaches the barrier and waits. *)
Definition demo_arrived : bcfg := do_arrive 9 demo_bcfg 1.

Lemma demo_arrived_reach : breach [1%positive; 2%positive] 9 demo_bcfg demo_arrived.
Proof.
  apply do_arrive_reach; [apply br_init|by left|done|].
  constructor; [do 2 eexists; split_and!; [reflexivity|reflexivity|reflexivity|by left]|].
  intros m a Ha. single Ha. apply not_elem_of_nil.
Qed.


(** [br_cycle] has only two values. *)
Definition run_bar (m : st bst bar_result) (o : option (bar_result * bst)) : option (bar_result * bst) :=
  match o with Some (_, s) => m s | None => None end.

(** A barrier with more participants than its threshold can leave a thread
    behind: thread 1 reaches a barrier of threshold 2 and waits, thread 2
    completes the round with [PTH_BARRIER_TAILLIGHT] and reaches the barrier
    again before 1 resumes, thread 3 completes the second round; 1 then waits
    for the next round, although its own was completed. *)
Theorem barrier_overtaken :
  let s0 := barrier_arrive 1 9 demo_bst in
  let s1 := run_bar (pth_barrier_reach 2 (Some 9%positive)) s0 in
  let s2 := run_bar (pth_barrier_reach 2 (Some 9%positive)) s1 in
  let s3 := run_bar (pth_barrier_reach 3 (Some 9%positive)) s2 in
  let s4 := run_bar (barrier_resume 1 9 false 9) s3 in
  fst <$> s0 = Some (BWait false 9) /\ fst <$> s1 = Some (BDone PTH_BARRIER_TAILLIGHT None) /\
  fst <$> s2 = Some (BWait true 9) /\ fst <$> s3 = Some (BDone PTH_BARRIER_TAILLIGHT None) /\
  fst <$> s4 = Some (BWait false 9).
Proof. vm_compute. done. Qed.
