(* ===== verification/Util.v ===== *)
(** * Utility functions (src/pth_util.c)

    Strings with a bound, and the sets of file descriptors of select(2) as
    finite sets of integers. *)

From stdpp Require Import base numbers gmap list.
From S2P Require Import Prelude.
Open Scope Z_scope.

Abbreviation fd_set := (gset Z).

(** ** [pth_util_cpystrn]

    [src] is the memory from the source on; the result is what is stored from
    the destination on and the offset of the returned pointer. Undefined when
    the source ends without a null character that is needed. *)
Fixpoint cpystrn_loop (n : nat) (src : list Z) : option (list Z * nat) :=
  match n with
  | O => Some ([0], O)
  | S n' =>
      match src with
      | [] => None
      | c :: src' =>
          if c =? 0 then Some ([c], O)
          else match cpystrn_loop n' src' with
               | Some (d, k) => Some (c :: d, S k)
               | None => None end
      end
  end.

Definition pth_util_cpystrn (src : list Z) (dst_size : nat) : option (list Z * nat) :=
  match dst_size with O => Some ([], O) | S n => cpystrn_loop n src end.

(** ** File descriptors

    [fcntl fd] is the result and the [errno] of [fcntl(fd, F_GETFL)]. *)
Definition pth_util_fd_valid (fcntl : Z -> Z * errno) (fd : Z) : bool :=
  if fd <? 0 then false
  else if ((fcntl fd).1 =? -1) && bool_decide ((fcntl fd).2 = EBADF) then false else true.

(** [FD_ISSET], where a set may be NULL. *)
Definition fd_isset (s : Z) (f : option fd_set) : bool :=
  match f with Some x => bool_decide (s ∈ x) | None => false end.
Definition fd_in (s : Z) (o : fd_set) : bool := bool_decide (s ∈ o).

(** One descriptor of one pair of sets, and the loop, for [pth_util_fds_merge]. *)
Definition fd_merge (s : Z) (i : option fd_set) (o : fd_set) : fd_set :=
  if fd_isset s i then {[ s ]} ∪ o else o.
Fixpoint fds_merge_from (n : nat) (s : Z) (i1 : option fd_set) (o1 : fd_set) (i2 : option fd_set)
    (o2 : fd_set) (i3 : option fd_set) (o3 : fd_set) : fd_set * fd_set * fd_set :=
  match n with
  | O => (o1, o2, o3)
  | S n' => fds_merge_from n' (s + 1) i1 (fd_merge s i1 o1) i2 (fd_merge s i2 o2) i3 (fd_merge s i3 o3)
  end.
Definition pth_util_fds_merge (nfd : Z) (i1 : option fd_set) (o1 : fd_set) (i2 : option fd_set)
    (o2 : fd_set) (i3 : option fd_set) (o3 : fd_set) : fd_set * fd_set * fd_set :=
  fds_merge_from (Z.to_nat nfd) 0 i1 o1 i2 o2 i3 o3.

Definition fd_both (s : Z) (i : option fd_set) (o : fd_set) : bool := fd_isset s i && fd_in s o.
Fixpoint fds_test_from (n : nat) (s : Z) (i1 : option fd_set) (o1 : fd_set) (i2 : option fd_set)
    (o2 : fd_set) (i3 : option fd_set) (o3 : fd_set) : bool :=
  match n with
  | O => false
  | S n' =>
      if fd_both s i1 o1 then true
      else if fd_both s i2 o2 then true
      else if fd_both s i3 o3 then true
      else fds_test_from n' (s + 1) i1 o1 i2 o2 i3 o3
  end.
Definition pth_util_fds_test (nfd : Z) (i1 : option fd_set) (o1 : fd_set) (i2 : option fd_set)
    (o2 : fd_set) (i3 : option fd_set) (o3 : fd_set) : bool :=
  fds_test_from (Z.to_nat nfd) 0 i1 o1 i2 o2 i3 o3.

(** One descriptor of one pair of sets in [pth_util_fds_select]: the new input
    set and counter. *)
Definition fd_select (s : Z) (i : option fd_set) (o : fd_set) (n : Z) : option fd_set * Z :=
  match i with
  | None => (None, n)
  | Some x => if fd_in s x then (if negb (fd_in s o) then (Some (x ∖ {[ s ]}), n) else (i, n + 1)) else (i, n)
  end.
Fixpoint fds_select_from (k : nat) (s n : Z) (i1 : option fd_set) (o1 : fd_set) (i2 : option fd_set)
    (o2 : fd_set) (i3 : option fd_set) (o3 : fd_set) : Z * (option fd_set * option fd_set * option fd_set) :=
  match k with
  | O => (n, (i1, i2, i3))
  | S k' =>
      let r1 := fd_select s i1 o1 n in
      let r2 := fd_select s i2 o2 r1.2 in
      let r3 := fd_select s i3 o3 r2.2 in
      fds_select_from k' (s + 1) r3.2 r1.1 o1 r2.1 o2 r3.1 o3
  end.
Definition pth_util_fds_select (nfd : Z) (i1 : option fd_set) (o1 : fd_set) (i2 : option fd_set)
    (o2 : fd_set) (i3 : option fd_set) (o3 : fd_set) : Z * (option fd_set * option fd_set * option fd_set) :=
  fds_select_from (Z.to_nat nfd) 0 0 i1 o1 i2 o2 i3 o3.

(** ** The specification of the loops over the descriptors *)

(** The descriptors from [s] on, [n] of them. *)
Definition fd_range (s : Z) (n : nat) : fd_set := list_to_set (seqZ s (Z.of_nat n)).

Lemma fd_range_elem s n x : x ∈ fd_range s n <-> s <= x < s + Z.of_nat n.
Proof. unfold fd_range. rewrite elem_of_list_to_set. by rewrite elem_of_seqZ. Qed.

Lemma fd_range_S s n : fd_range s (S n) = {[ s ]} ∪ fd_range (s + 1) n.
Proof. apply set_eq. intros x. rewrite elem_of_union, elem_of_singleton, !fd_range_elem. lia. Qed.

(** The descriptors of [r] that are in the input but not in the output set go
    away; the ones in both remain. *)
Definition sp_keep (r : fd_set) (o i : fd_set) : fd_set := i ∖ (r ∖ o).
Definition sp_hits (r : fd_set) (i : option fd_set) (o : fd_set) : fd_set :=
  match i with Some x => x ∩ o ∩ r | None => ∅ end.

Lemma fd_isset_hits s i o : fd_both s i o = bool_decide (s ∈ sp_hits {[ s ]} i o).
Proof.
  unfold fd_both, fd_isset, fd_in, sp_hits. destruct i as [x|]; simpl;
    [|symmetry; apply bool_decide_eq_false_2; set_solver].
  rewrite <- bool_decide_and. apply bool_decide_ext. set_solver.
Qed.

Lemma hits_cons s n i o :
  sp_hits (fd_range s (S n)) i o = sp_hits {[ s ]} i o ∪ sp_hits (fd_range (s + 1) n) i o.
Proof. rewrite fd_range_S. unfold sp_hits. destruct i; set_solver. Qed.

Lemma hits_size s n i o :
  Z.of_nat (size (sp_hits (fd_range s (S n)) i o)) =
  (if fd_both s i o then 1 else 0) + Z.of_nat (size (sp_hits (fd_range (s + 1) n) i o)).
Proof.
  rewrite hits_cons, size_union, Nat2Z.inj_add.
  - f_equal. rewrite fd_isset_hits. case_bool_decide as H.
    + assert (sp_hits {[s]} i o = {[ s ]}) as -> by (unfold sp_hits in *; destruct i; set_solver).
      by rewrite size_singleton.
    + assert (sp_hits {[s]} i o = ∅) as -> by (unfold sp_hits in *; destruct i; set_solver).
      by rewrite size_empty.
  - intros x Hx1 Hx2. assert (x = s) as -> by (unfold sp_hits in *; destruct i; set_solver).
    assert (Hr : s ∈ fd_range (s + 1) n) by (unfold sp_hits in *; destruct i; set_solver).
    apply fd_range_elem in Hr. lia.
Qed.

Lemma fd_select_eq s i o n :
  fd_select s i o n = (sp_keep {[ s ]} o <$> i, n + (if fd_both s i o then 1 else 0)).
Proof.
  unfold fd_select, fd_both, fd_isset, fd_in, sp_keep. destruct i as [x|]; simpl; [|by rewrite Z.add_0_r].
  case_bool_decide as Hx; simpl; [case_bool_decide as Ho; simpl|].
  - f_equal. f_equal. set_solver.
  - f_equal; [|lia]. f_equal. set_solver.
  - f_equal; [|lia]. f_equal. set_solver.
Qed.

Lemma keep_hits s n (i : option fd_set) o :
  sp_hits (fd_range (s + 1) n) (sp_keep {[ s ]} o <$> i) o = sp_hits (fd_range (s + 1) n) i o.
Proof.
  unfold sp_hits, sp_keep. destruct i as [x|]; simpl; [|done]. apply set_eq. intros y.
  rewrite !elem_of_intersection, fd_range_elem. set_solver.
Qed.

Lemma keep_cons s n (i : option fd_set) o :
  sp_keep (fd_range (s + 1) n) o <$> (sp_keep {[ s ]} o <$> i) = sp_keep (fd_range s (S n)) o <$> i.
Proof. rewrite fd_range_S. unfold sp_keep. destruct i as [x|]; simpl; [f_equal; set_solver|done]. Qed.

Lemma select_from_ok k s n i1 o1 i2 o2 i3 o3 :
  fds_select_from k s n i1 o1 i2 o2 i3 o3 =
  (n + Z.of_nat (size (sp_hits (fd_range s k) i1 o1)) + Z.of_nat (size (sp_hits (fd_range s k) i2 o2))
     + Z.of_nat (size (sp_hits (fd_range s k) i3 o3)),
   (sp_keep (fd_range s k) o1 <$> i1, sp_keep (fd_range s k) o2 <$> i2, sp_keep (fd_range s k) o3 <$> i3)).
Proof.
  revert s n i1 i2 i3. induction k as [|k IH]; intros s n i1 i2 i3; simpl.
  - assert (H : fd_range s 0 = ∅) by done.
    rewrite H. assert (Hh : forall i o, sp_hits ∅ i o = ∅) by (intros [x|] o; unfold sp_hits; set_solver).
    rewrite !Hh, !size_empty. assert (Hk : forall (i : option fd_set) o, sp_keep ∅ o <$> i = i).
    { intros [x|] o; simpl; [f_equal; unfold sp_keep; set_solver|done]. }
    rewrite !Hk. f_equal. lia.
  - rewrite !fd_select_eq. simpl. rewrite IH, !keep_cons, !keep_hits, !hits_size. f_equal. lia.
Qed.

Lemma test_from_ok k s i1 o1 i2 o2 i3 o3 :
  fds_test_from k s i1 o1 i2 o2 i3 o3 = true <->
  exists x, x ∈ sp_hits (fd_range s k) i1 o1 ∪ sp_hits (fd_range s k) i2 o2 ∪ sp_hits (fd_range s k) i3 o3.
Proof.
  revert s. induction k as [|k IH]; intros s; simpl.
  - split; [done|]. intros [x Hx].
    assert (Hr : x ∈ fd_range s 0) by (unfold sp_hits in Hx; destruct i1, i2, i3; set_solver).
    apply fd_range_elem in Hr. lia.
  - rewrite !hits_cons, !fd_isset_hits.
    destruct (bool_decide (s ∈ sp_hits {[s]} i1 o1)) eqn:E1; [apply bool_decide_eq_true in E1|apply bool_decide_eq_false in E1].
    { split; [intros _; exists s; set_solver|done]. }
    destruct (bool_decide (s ∈ sp_hits {[s]} i2 o2)) eqn:E2; [apply bool_decide_eq_true in E2|apply bool_decide_eq_false in E2].
    { split; [intros _; exists s; set_solver|done]. }
    destruct (bool_decide (s ∈ sp_hits {[s]} i3 o3)) eqn:E3; [apply bool_decide_eq_true in E3|apply bool_decide_eq_false in E3].
    { split; [intros _; exists s; set_solver|done]. }
    rewrite IH. assert (Hs : forall i o, s ∉ sp_hits {[s]} i o -> sp_hits {[s]} i o = ∅).
    { intros i o H. unfold sp_hits in *. destruct i; set_solver. }
    rewrite !Hs by done. split; intros [x Hx]; exists x; set_solver.
Qed.

Lemma merge_from_ok k s i1 o1 i2 o2 i3 o3 :
  fds_merge_from k s i1 o1 i2 o2 i3 o3 =
  (o1 ∪ default ∅ i1 ∩ fd_range s k, o2 ∪ default ∅ i2 ∩ fd_range s k, o3 ∪ default ∅ i3 ∩ fd_range s k).
Proof.
  revert s o1 o2 o3. induction k as [|k IH]; intros s o1 o2 o3; simpl.
  - assert (H : fd_range s 0 = ∅) by done.
    rewrite H. f_equal; [f_equal|]; set_solver.
  - rewrite IH. assert (Hm : forall i o, fd_merge s i o ∪ default ∅ i ∩ fd_range (s + 1) k =
      o ∪ default ∅ i ∩ fd_range s (S k)).
    { intros i o. rewrite fd_range_S. unfold fd_merge, fd_isset. destruct i as [x|]; simpl; [|set_solver].
      case_bool_decide; apply set_eq; intros y; set_solver. }
    by rewrite !Hm.
Qed.

(** ** Properties *)

(** For every number of descriptors and every three pairs of sets,
    [pth_util_fds_select] keeps in an input set the descriptors outside the
    range and those that are in the output set, and returns the number of
    hits, a descriptor in two sets counting twice; [pth_util_fds_test] holds
    exactly when that number is not zero; [pth_util_fds_merge] adds the
    descriptors of the range that are in the input sets. *)
Lemma fds_loops_correct nfd i1 o1 i2 o2 i3 o3 :
  let r := fd_range 0 (Z.to_nat nfd) in
  let n := Z.of_nat (size (sp_hits r i1 o1) + size (sp_hits r i2 o2) + size (sp_hits r i3 o3)) in
  pth_util_fds_select nfd i1 o1 i2 o2 i3 o3 =
    (n, (sp_keep r o1 <$> i1, sp_keep r o2 <$> i2, sp_keep r o3 <$> i3)) /\
  pth_util_fds_test nfd i1 o1 i2 o2 i3 o3 = negb (n =? 0) /\
  pth_util_fds_merge nfd i1 o1 i2 o2 i3 o3 =
    (o1 ∪ default ∅ i1 ∩ r, o2 ∪ default ∅ i2 ∩ r, o3 ∪ default ∅ i3 ∩ r).
Proof.
  cbv zeta. split_and!; [|apply eq_true_iff_eq|apply merge_from_ok].
  - unfold pth_util_fds_select. rewrite select_from_ok. f_equal. lia.
  - unfold pth_util_fds_test. rewrite test_from_ok, negb_true_iff, Z.eqb_neq.
    set (h1 := sp_hits _ i1 o1). set (h2 := sp_hits _ i2 o2). set (h3 := sp_hits _ i3 o3).
    assert (He : forall h : fd_set, size h = 0%nat <-> h = ∅)
      by (intros h; rewrite size_empty_iff; split; [apply leibniz_equiv|by intros ->]).
    split.
    + intros [x Hx] Hz. assert (h1 = ∅ /\ h2 = ∅ /\ h3 = ∅) as (E1 & E2 & E3)
        by (rewrite <- !He; lia). rewrite E1, E2, E3 in Hx. set_solver.
    + intros Hn. destruct (set_choose_or_empty (h1 ∪ h2 ∪ h3)) as [[x Hx]|Hx]; [by exists x|].
      exfalso. apply Hn. assert (h1 = ∅ /\ h2 = ∅ /\ h3 = ∅) as (E1 & E2 & E3) by set_solver.
      by rewrite E1, E2, E3, !size_empty.
Qed.

(** [pth_util_cpystrn] of a null-terminated string into a buffer of [size]
    bytes stores the longest prefix that fits, always terminated, never more
    than [size] bytes and never reads behind the terminator; it returns the
    position of the stored terminator, and touches nothing if [size] is 0. *)
Theorem cpystrn_correct s rest size :
  Forall (fun c => c <> 0) s ->
  pth_util_cpystrn (s ++ 0 :: rest) size =
    match size with
    | O => Some ([], O)
    | S n => Some (take n s ++ [0], Nat.min n (length s))
    end /\
  (forall d k, pth_util_cpystrn (s ++ 0 :: rest) size = Some (d, k) -> (length d <= size)%nat).
Proof.
  intros Hs. assert (H : pth_util_cpystrn (s ++ 0 :: rest) size =
    match size with O => Some ([], O) | S n => Some (take n s ++ [0], Nat.min n (length s)) end).
  { destruct size as [|n]; [done|]. simpl. revert s Hs. induction n as [|n IH]; intros s Hs; [done|].
    destruct s as [|c s]; [done|]. apply Forall_cons in Hs as [Hc Hs]. simpl.
    destruct (Z.eqb_spec c 0); [done|]. by rewrite IH. }
  split; [exact H|]. rewrite H. intros d k E. destruct size as [|n]; injection E as <- _; [done|].
  rewrite length_app, length_take. simpl. lia.
Qed.

Lemma cpystrn_correct_witness :
  pth_util_cpystrn [104; 105; 33; 0] 3 = Some ([104; 105; 0], 2%nat).
Proof.
  destruct (cpystrn_correct [104; 105; 33] [] 3) as [H _]; [by repeat constructor|]. exact H.
Defined.
