(* ===== verification/Clean.v ===== *)
(** * Cleanup handlers (src/pth_clean.c)

    The stack of handlers of a thread is a linked list whose nodes only the
    stack points to; it is modelled as the list of the nodes' contents. The
    handlers are user code: [call] is what calling one does to the state,
    which includes the stacks, since a handler may push and pop. *)

From stdpp Require Import base numbers gmap list.
From S2P Require Import Prelude.
Open Scope Z_scope.

(** [struct pth_cleanup_st] without the link. *)
Record cleanup := Cleanup { cl_func : addr; cl_arg : ptr }.

(** [l_stacks]: the field [cleanups] of the threads; [l_user] is what the
    handlers work on. *)
Record clst (U : Type) := Clst { l_stacks : gmap addr (list cleanup); l_current : addr; l_user : U }.
Arguments Clst {U}. Arguments l_stacks {U}. Arguments l_current {U}. Arguments l_user {U}.

Section cleanups.
Context {U : Type} (call : addr -> ptr -> clst U -> clst U).

Definition rd_cleanups (t : addr) : st (clst U) (list cleanup) :=
  fun s => match l_stacks s !! t with Some k => Some (k, s) | None => None end.
Definition wr_cleanups (t : addr) (k : list cleanup) : st (clst U) unit :=
  fun s => Some (tt, Clst (<[t := k]> (l_stacks s)) (l_current s) (l_user s)).
Definition run_cleanup (c : cleanup) : st (clst U) unit :=
  fun s => Some (tt, call (cl_func c) (cl_arg c) s).

(** [malloc_ok]: whether the allocation of the node succeeds. *)
Definition pth_cleanup_push (malloc_ok : bool) (func : ptr) (arg : ptr) : st (clst U) (bool * option errno) :=
  match func with
  | None => mret (pth_error false EINVAL)
  | Some f =>
      if negb malloc_ok then mret (pth_error false ENOMEM)
      else
        s ← get_st;
        k ← rd_cleanups (l_current s);
        wr_cleanups (l_current s) (Cleanup f arg :: k);;
        mret (ok true)
  end.

Definition pth_cleanup_pop (execute : bool) : st (clst U) bool :=
  s ← get_st;
  k ← rd_cleanups (l_current s);
  match k with
  | [] => mret false
  | c :: k' =>
      wr_cleanups (l_current s) k';;
      (if execute then run_cleanup c else mret tt);;
      mret true
  end.

(** The loop ends when the stack is empty; a handler that pushes handlers
    prolongs it. *)
Fixpoint pth_cleanup_popall (fuel : nat) (t : addr) (execute : bool) : st (clst U) unit :=
  k ← rd_cleanups t;
  match k with
  | [] => mret tt
  | c :: k' =>
      match fuel with
      | O => undef
      | S fuel' =>
          wr_cleanups t k';;
          (if execute then run_cleanup c else mret tt);;
          pth_cleanup_popall fuel' t execute
      end
  end.

(** What the handlers of [k], run in order, make of a state. *)
Fixpoint run_all (t : addr) (k : list cleanup) (s : clst U) : clst U :=
  match k with
  | [] => s
  | c :: k' => run_all t k' (call (cl_func c) (cl_arg c) (Clst (<[t := k']> (l_stacks s)) (l_current s) (l_user s)))
  end.

Lemma rd_cleanups_eq s t k : l_stacks s !! t = Some k -> rd_cleanups t s = Some (k, s).
Proof. intros H. unfold rd_cleanups. by rewrite H. Qed.

(** Cleanup handlers are a stack. A handler that is pushed is the one the
    next pop takes, which runs it if asked to, after it is off the stack. If
    the handlers leave the stack of the thread as they find it,
    [pth_cleanup_popall] ends and has run every handler exactly once, the last
    pushed first, each with the ones below it still in place; without
    [execute] it drops them all and runs none. *)
Lemma cleanup_stack_correct s t k f a :
  l_stacks s !! t = Some k ->
  (forall f a s, l_stacks (call f a s) !! t = l_stacks s !! t) ->
  (l_current s = t ->
     (pth_cleanup_push true (Some f) a ≫= fun _ => pth_cleanup_pop true) s
       = Some (true, call f a (Clst (<[t := k]> (<[t := Cleanup f a :: k]> (l_stacks s))) t (l_user s)))) /\
  (exists s', pth_cleanup_popall (length k) t true s = Some (tt, s') /\ l_stacks s' !! t = Some [] /\
     s' = run_all t k s) /\
  (exists s', pth_cleanup_popall (length k) t false s = Some (tt, s') /\ l_stacks s' !! t = Some [] /\
     l_user s' = l_user s).
Proof.
  intros Hk Hcall. split_and!.
  - intros <-. unfold pth_cleanup_push, pth_cleanup_pop. simpl.
    unfold mbind, st_bind, get_st. rewrite (rd_cleanups_eq _ _ _ Hk). simpl.
    rewrite (rd_cleanups_eq _ _ (Cleanup f a :: k)); [done|]. simpl. by rewrite lookup_insert_eq.
  - revert s Hk. induction k as [|c k IH]; intros s Hk; simpl; rewrite (st_bind_Some _ _ _ _ _ (rd_cleanups_eq _ _ _ Hk)).
    + by exists s.
    + destruct (IH (call (cl_func c) (cl_arg c) (Clst (<[t := k]> (l_stacks s)) (l_current s) (l_user s))))
        as (s' & E & H1 & H2); [rewrite Hcall; simpl; by rewrite lookup_insert_eq|].
      exists s'. split_and!; [exact E|done|exact H2].
  - revert s Hk. induction k as [|c k IH]; intros s Hk; simpl; rewrite (st_bind_Some _ _ _ _ _ (rd_cleanups_eq _ _ _ Hk)).
    + by exists s.
    + destruct (IH (Clst (<[t := k]> (l_stacks s)) (l_current s) (l_user s)))
        as (s' & E & H1 & H2); [simpl; by rewrite lookup_insert_eq|].
      exists s'. split_and!; [exact E|done|exact H2].
Qed.
End cleanups.

(** Handlers that record their argument. *)
Definition log_cleanup (f : addr) (a : ptr) (s : clst (list (addr * ptr))) : clst (list (addr * ptr)) :=
  Clst (l_stacks s) (l_current s) (l_user s ++ [(f, a)]).
Definition demo_clst : clst (list (addr * ptr)) :=
  Clst {[ 1%positive := [Cleanup 5 NULL; Cleanup 6 (Some 7%positive)] ]} 1 [].

Lemma cleanup_stack_correct_witness :
  exists s', pth_cleanup_popall log_cleanup 2 1 true demo_clst = Some (tt, s') /\
    l_user s' = [(5%positive, NULL); (6%positive, Some 7%positive)].
Proof.
  destruct (cleanup_stack_correct log_cleanup demo_clst 1 [Cleanup 5 NULL; Cleanup 6 (Some 7%positive)] 9 NULL)
    as (_ & (s' & E & _ & Hs) & _).
  - reflexivity.
  - intros f a s. reflexivity.
  - exists s'. split; [exact E|]. rewrite Hs. reflexivity.
Defined.
