(* ===== verification/Event.v ===== *)
(** * Events (src/pth_event.c)

    An event is a node of an event ring, linked through [ev_next] and
    [ev_prev], with a status, a type, a goal and the arguments of its type.
    The waiting of a thread for a ring is in [Sched]. *)

From stdpp Require Import base numbers gmap list.
From S2P Require Import Prelude Links Timeval Data Util.
Open Scope Z_scope.

Definition bit (n : Z) : Z := Z.shiftl 1 n.
Definition has (spec b : Z) : bool := negb (Z.land spec b =? 0).

Definition PTH_EVENT_FD : Z := bit 1.
Definition PTH_EVENT_SELECT : Z := bit 2.
Definition PTH_EVENT_SIGS : Z := bit 3.
Definition PTH_EVENT_TIME : Z := bit 4.
Definition PTH_EVENT_MSG : Z := bit 5.
Definition PTH_EVENT_MUTEX : Z := bit 6.
Definition PTH_EVENT_COND : Z := bit 7.
Definition PTH_EVENT_TID : Z := bit 8.
Definition PTH_EVENT_FUNC : Z := bit 9.
Definition PTH_EVENT_NOTIFY : Z := bit 10.
Definition PTH_UNTIL_OCCURRED : Z := bit 11.
Definition PTH_UNTIL_FD_READABLE : Z := bit 12.
Definition PTH_UNTIL_FD_WRITEABLE : Z := bit 13.
Definition PTH_UNTIL_FD_EXCEPTION : Z := bit 14.
Definition PTH_UNTIL_TID_NEW : Z := bit 15.
Definition PTH_UNTIL_TID_READY : Z := bit 16.
Definition PTH_UNTIL_TID_WAITING : Z := bit 17.
Definition PTH_UNTIL_TID_DEAD : Z := bit 18.
Definition PTH_MODE_REUSE : Z := bit 20.
Definition PTH_MODE_CHAIN : Z := bit 21.
Definition PTH_MODE_STATIC : Z := bit 22.
Definition PTH_WALK_NEXT : Z := bit 1.
Definition PTH_WALK_PREV : Z := bit 2.

(** The states of a thread. *)
Definition PTH_STATE_SCHEDULER : Z := 0.
Definition PTH_STATE_NEW : Z := 1.
Definition PTH_STATE_READY : Z := 2.
Definition PTH_STATE_WAITING : Z := 3.
Definition PTH_STATE_DEAD : Z := 4.

Definition PTH_KEY_INIT : Z := -1.

Inductive pth_status := PTH_STATUS_PENDING | PTH_STATUS_OCCURRED | PTH_STATUS_FAILED.
#[export] Instance pth_status_eq_dec : EqDecision pth_status.
Proof. solve_decision. Defined.

(** The union [ev_args]; [ANone] is the content of fresh memory. *)
Inductive evargs :=
| AFD (fd : Z)
| ASELECT (n : ptr) (nfd : Z) (rfds wfds efds : ptr)
| ASIGS (sigs sig : ptr)
| ATIME (tv : pth_time_t)
| AMSG (mp : ptr)
| AMUTEX (mutex : ptr)
| ACOND (cond : ptr)
| ANOTIFY (go : ptr)
| ATID (tid : ptr)
| AFUNC (func arg : ptr) (tv : pth_time_t)
| ANone.

(** [struct pth_event_st] without its links. *)
Record event := Event { ev_status : pth_status; ev_type : Z; ev_goal : Z; ev_args : evargs }.

(** [e_keyvar]: the static variables of type [pth_key_t]. *)
Record evst := Evst {
  e_links : dll;
  e_body : gmap addr event;
  e_keys : kstate unit;
  e_keyvar : gmap addr Z
}.

Definition on_evlinks {A : Type} (m : st dll A) : st evst A :=
  zoom e_links (fun d s => Evst d (e_body s) (e_keys s) (e_keyvar s)) m.
Definition on_evkeys {A : Type} (m : st (kstate unit) A) : st evst A :=
  zoom e_keys (fun k s => Evst (e_links s) (e_body s) k (e_keyvar s)) m.
Definition rd_event (p : ptr) : st evst event :=
  fun s => match p with
           | Some a => match e_body s !! a with Some x => Some (x, s) | None => None end
           | None => None end.
Definition wr_event (p : ptr) (x : event) : st evst unit :=
  fun s => match p with
           | Some a => match e_body s !! a with
                       | Some _ => Some (tt, Evst (e_links s) (<[a := x]> (e_body s)) (e_keys s) (e_keyvar s))
                       | None => None end
           | None => None end.
Definition rd_keyvar (v : addr) : st evst Z :=
  fun s => match e_keyvar s !! v with Some k => Some (k, s) | None => None end.
Definition wr_keyvar (v : addr) (k : Z) : st evst unit :=
  fun s => Some (tt, Evst (e_links s) (e_body s) (e_keys s) (<[v := k]> (e_keyvar s))).

(** [malloc(sizeof(struct pth_event_st))] gave [alloc]; and [free]. *)
Definition malloc_event (alloc : ptr) : st evst ptr :=
  fun s => match alloc with
           | Some a => Some (alloc, Evst (Dll (<[a := NULL]> (nxt (e_links s))) (<[a := NULL]> (prv (e_links s))))
                                         (<[a := Event PTH_STATUS_PENDING 0 0 ANone]> (e_body s)) (e_keys s) (e_keyvar s))
           | None => Some (NULL, s) end.
Definition free_event (p : ptr) : st evst unit :=
  fun s => match p with
           | Some a => match e_body s !! a with
                       | Some _ => Some (tt, Evst (Dll (delete a (nxt (e_links s))) (delete a (prv (e_links s))))
                                                  (delete a (e_body s)) (e_keys s) (e_keyvar s))
                       | None => None end
           | None => None end.

Section constructor.
Context (fcntl : Z -> Z * errno) (event_destructor : addr).

(** The event of the running thread behind a static key variable. *)
Definition static_event (key : addr) (alloc : ptr) (calloc_ok : bool) : st evst ptr :=
  v ← rd_keyvar key;
  (if v =? PTH_KEY_INIT then
     r ← on_evkeys (pth_key_create true (Some event_destructor));
     match r.1 with Some k => wr_keyvar key (Z.of_nat k) | None => mret tt end
   else mret tt);;
  k ← rd_keyvar key;
  d ← on_evkeys (pth_key_getdata k);
  match d.1 with
  | Some _ => mret d.1
  | None =>
      ev ← malloc_event alloc;
      on_evkeys (pth_key_setdata calloc_ok k ev);;
      mret ev
  end.

(** The part that depends on the type: type, goal and arguments, or an
    [errno]. [va] are the arguments of the call; undefined if they are not the
    ones of the type. *)
Definition tid_goal (spec : Z) : Z :=
  if has spec PTH_UNTIL_TID_NEW then PTH_STATE_NEW
  else if has spec PTH_UNTIL_TID_READY then PTH_STATE_READY
  else if has spec PTH_UNTIL_TID_WAITING then PTH_STATE_WAITING
  else if has spec PTH_UNTIL_TID_DEAD then PTH_STATE_DEAD
  else PTH_STATE_READY.

Definition event_specific (spec : Z) (va : evargs) : option (errno + Z * Z * evargs) :=
  let occ := i32 (Z.land spec PTH_UNTIL_OCCURRED) in
  if has spec PTH_EVENT_FD then
    match va with
    | AFD fd =>
        if negb (pth_util_fd_valid fcntl fd) then Some (inl EBADF)
        else Some (inr (PTH_EVENT_FD,
               i32 (Z.land spec (Z.lor PTH_UNTIL_FD_READABLE (Z.lor PTH_UNTIL_FD_WRITEABLE PTH_UNTIL_FD_EXCEPTION))), va))
    | _ => None end
  else if has spec PTH_EVENT_SELECT then
    match va with ASELECT _ _ _ _ _ => Some (inr (PTH_EVENT_SELECT, occ, va)) | _ => None end
  else if has spec PTH_EVENT_SIGS then
    match va with ASIGS _ _ => Some (inr (PTH_EVENT_SIGS, occ, va)) | _ => None end
  else if has spec PTH_EVENT_TIME then
    match va with ATIME _ => Some (inr (PTH_EVENT_TIME, occ, va)) | _ => None end
  else if has spec PTH_EVENT_MSG then
    match va with AMSG _ => Some (inr (PTH_EVENT_MSG, occ, va)) | _ => None end
  else if has spec PTH_EVENT_MUTEX then
    match va with AMUTEX _ => Some (inr (PTH_EVENT_MUTEX, occ, va)) | _ => None end
  else if has spec PTH_EVENT_COND then
    match va with ACOND _ => Some (inr (PTH_EVENT_COND, occ, va)) | _ => None end
  else if has spec PTH_EVENT_NOTIFY then
    match va with ANOTIFY _ => Some (inr (PTH_EVENT_NOTIFY, occ, va)) | _ => None end
  else if has spec PTH_EVENT_TID then
    match va with ATID _ => Some (inr (PTH_EVENT_TID, tid_goal spec, va)) | _ => None end
  else if has spec PTH_EVENT_FUNC then
    match va with AFUNC _ _ _ => Some (inr (PTH_EVENT_FUNC, occ, va)) | _ => None end
  else Some (inl EINVAL).

(** The links: a ring of its own, or in front of [chain] in its ring. *)
Definition event_link (spec : Z) (ev chain : ptr) : st dll unit :=
  if has spec PTH_MODE_CHAIN then
    p ← rd_prev chain;
    wr_prev ev p;;
    wr_next ev chain;;
    p' ← rd_prev ev;
    wr_next p' ev;;
    n' ← rd_next ev;
    wr_prev n' ev
  else wr_prev ev ev;; wr_next ev ev.

Definition pth_event (spec : Z) (reuse : ptr) (key : addr) (chain : ptr) (va : evargs)
    (alloc : ptr) (calloc_ok : bool) : st evst (ptr * option errno) :=
  ev ← (if has spec PTH_MODE_REUSE then mret reuse
        else if has spec PTH_MODE_STATIC then static_event key alloc calloc_ok
        else malloc_event alloc);
  if bool_decide (ev = NULL) then mret (pth_error NULL ENOMEM)
  else
    on_evlinks (event_link spec ev chain);;
    x ← rd_event ev;
    wr_event ev (Event PTH_STATUS_PENDING (ev_type x) (ev_goal x) (ev_args x));;
    match event_specific spec va with
    | None => undef
    | Some (inl e) => mret (pth_error NULL e)
    | Some (inr (ty, goal, args)) => wr_event ev (Event PTH_STATUS_PENDING ty goal args);; mret (ok ev)
    end.
End constructor.

Definition pth_event_typeof (ev : ptr) : st evst (Z * option errno) :=
  match ev with
  | None => mret (pth_error 0 EINVAL)
  | Some _ => x ← rd_event ev; mret (ok (Z.lor (ev_type x) (ev_goal x)))
  end.

(** The values stored through the pointers of the call, if any. *)
Definition pth_event_extract (ev : ptr) : st evst (option evargs * (bool * option errno)) :=
  match ev with
  | None => mret (None, pth_error false EINVAL)
  | Some _ =>
      x ← rd_event ev;
      if has (ev_type x) PTH_EVENT_FD || has (ev_type x) PTH_EVENT_SIGS || has (ev_type x) PTH_EVENT_TIME
         || has (ev_type x) PTH_EVENT_MSG || has (ev_type x) PTH_EVENT_MUTEX || has (ev_type x) PTH_EVENT_COND
         || has (ev_type x) PTH_EVENT_TID || has (ev_type x) PTH_EVENT_FUNC
      then mret (Some (ev_args x), ok true)
      else mret (None, pth_error false EINVAL)
  end.

(** The loop of [pth_event_concat]: the last event of the open ring. *)
Fixpoint concat_loop (evc : ptr) (rings : list addr) : st dll ptr :=
  match rings with
  | [] => mret evc
  | evn :: rings' =>
      wr_next evc (Some evn);;
      evt ← rd_prev (Some evn);
      wr_prev (Some evn) evc;;
      concat_loop evt rings'
  end.

Definition pth_event_concat (evf : ptr) (rings : list addr) : st evst (ptr * option errno) :=
  match evf with
  | None => mret (pth_error NULL EINVAL)
  | Some _ =>
      on_evlinks (
        evl ← rd_next evf;
        evc ← concat_loop evf rings;
        wr_next evc evl;;
        wr_prev evl evc);;
      mret (ok evf)
  end.

Definition pth_event_isolate (ev : ptr) : st evst (ptr * option errno) :=
  match ev with
  | None => mret (pth_error NULL EINVAL)
  | Some _ =>
      r ← on_evlinks (
        n ← rd_next ev;
        p ← rd_prev ev;
        if negb (bool_decide (n = ev) && bool_decide (p = ev)) then
          wr_next p n;;
          n' ← rd_next ev;
          p' ← rd_prev ev;
          wr_prev n' p';;
          wr_prev ev ev;;
          wr_next ev ev;;
          mret n
        else mret NULL);
      mret (ok r)
  end.

(** [FALSE], the value of a NULL event, is [PTH_STATUS_PENDING]. *)
Definition pth_event_status (ev : ptr) : st evst (pth_status * option errno) :=
  match ev with
  | None => mret (pth_error PTH_STATUS_PENDING EINVAL)
  | Some _ => x ← rd_event ev; mret (ok (ev_status x))
  end.

Fixpoint pth_event_walk (fuel : nat) (ev : ptr) (direction : Z) : st evst (ptr * option errno) :=
  match ev with
  | None => mret (pth_error NULL EINVAL)
  | Some _ =>
      n ← (if has direction PTH_WALK_NEXT then v ← on_evlinks (rd_next ev); mret (Some v)
           else if has direction PTH_WALK_PREV then v ← on_evlinks (rd_prev ev); mret (Some v)
           else mret None);
      match n with
      | None => mret (pth_error NULL EINVAL)
      | Some n =>
          x ← rd_event n;
          if has direction PTH_UNTIL_OCCURRED && bool_decide (ev_status x <> PTH_STATUS_OCCURRED) then
            match fuel with O => undef | S fuel' => pth_event_walk fuel' n direction end
          else mret (ok n)
      end
  end.

Inductive free_mode := PTH_FREE_THIS | PTH_FREE_ALL | PTH_FREE_OTHER.

(** The loop that frees a ring; it compares the address of a freed event. *)
Fixpoint free_ring (fuel : nat) (evc ev : ptr) : st evst unit :=
  evn ← on_evlinks (rd_next evc);
  free_event evc;;
  if bool_decide (evn = ev) then mret tt
  else match fuel with O => undef | S fuel' => free_ring fuel' evn ev end.

Definition pth_event_free (ev : ptr) (mode : free_mode) : st evst (bool * option errno) :=
  match ev with
  | None => mret (pth_error false EINVAL)
  | Some _ =>
      match mode with
      | PTH_FREE_THIS =>
          on_evlinks (
            p ← rd_prev ev; n ← rd_next ev; wr_next p n;;
            n' ← rd_next ev; p' ← rd_prev ev; wr_prev n' p');;
          free_event ev;;
          mret (ok true)
      | PTH_FREE_ALL =>
          s ← get_st;
          free_ring (size (e_body s)) ev ev;;
          mret (ok true)
      | PTH_FREE_OTHER => mret (ok true)
      end
  end.

(** The loops of [pth_wait] over the ring. *)
Fixpoint mark_pending (fuel : nat) (ev ev_ring : ptr) : st evst unit :=
  x ← rd_event ev;
  wr_event ev (Event PTH_STATUS_PENDING (ev_type x) (ev_goal x) (ev_args x));;
  n ← on_evlinks (rd_next ev);
  if bool_decide (n = ev_ring) then mret tt
  else match fuel with O => undef | S fuel' => mark_pending fuel' n ev_ring end.

Fixpoint count_nonpending (fuel : nat) (ev ev_ring : ptr) (nonpending : Z) : st evst Z :=
  x ← rd_event ev;
  let n := if bool_decide (ev_status x <> PTH_STATUS_PENDING) then i32 (nonpending + 1) else nonpending in
  e ← on_evlinks (rd_next ev);
  if bool_decide (e = ev_ring) then mret n
  else match fuel with O => undef | S fuel' => count_nonpending fuel' e ev_ring n end.

(** ** Rings of events *)

(** The events of [l] are linked into a ring in this order. *)
Record ev_ring (s : evst) (l : list addr) : Prop := {
  er_cyc : cyc (e_links s) l;
  er_nodup : NoDup l;
  er_body : forall a, a ∈ l -> is_Some (e_body s !! a)
}.

Lemma x_evlinks {A : Type} (m : st dll A) s a d :
  m (e_links s) = Some (a, d) -> on_evlinks m s = Some (a, Evst d (e_body s) (e_keys s) (e_keyvar s)).
Proof. intros H. unfold on_evlinks, zoom. by rewrite H. Qed.
Lemma x_rd_event s a x : e_body s !! a = Some x -> rd_event (Some a) s = Some (x, s).
Proof. intros H. unfold rd_event. by rewrite H. Qed.
Lemma x_wr_event s a x y : e_body s !! a = Some y ->
  wr_event (Some a) x s = Some (tt, Evst (e_links s) (<[a := x]> (e_body s)) (e_keys s) (e_keyvar s)).
Proof. intros H. unfold wr_event. by rewrite H. Qed.

Lemma dll_eta d : Dll (nxt d) (prv d) = d.
Proof. by destruct d. Qed.
Lemma evst_eta s : Evst (e_links s) (e_body s) (e_keys s) (e_keyvar s) = s.
Proof. by destruct s. Qed.

(** Linking a new event. *)
Lemma link_alone_ok spec h a chain :
  has spec PTH_MODE_CHAIN = false -> node h a ->
  exists h', event_link spec (Some a) chain h = Some (tt, h') /\ cyc h' [a] /\ lframe [a] h h'.
Proof.
  intros Hs [[n Hn] [p Hp]]. unfold event_link. rewrite Hs.
  erewrite st_bind_Some by (by eapply x_wprev). rewrite (x_wnext _ a n) by done.
  eexists. split; [reflexivity|]. split.
  - unfold cyc. simpl. by rewrite !lookup_insert_eq.
  - destruct h. apply lframe_upd; upd_cases.
Qed.

Lemma link_chain_ok spec h a c l :
  has spec PTH_MODE_CHAIN = true -> node h a -> cyc h (c :: l) -> NoDup (c :: l) -> a ∉ c :: l ->
  exists h', event_link spec (Some a) (Some c) h = Some (tt, h') /\ cyc h' (c :: l ++ [a]) /\
    lframe (a :: c :: l) h h'.
Proof.
  intros Hs [[n Hn] [p Hp]] Hc Hnd Ha. unfold event_link. rewrite Hs.
  destruct (cyc_prev_in h (c :: l) c Hc) as (z & Hz & Hzin); [by left|].
  assert (Hzn : node h z) by (by eapply cyc_node). destruct Hzn as [[zn Hzn] _].
  assert (Haz : a <> z) by (intros ->; done).
  assert (Hac : a <> c) by (intros ->; apply Ha; by left).
  do 6 (first [lstep | idtac]).
  eexists. split.
  { eapply x_wprev. simpl. rewrite lookup_insert_ne by done. exact Hz. }
  split.
  - exact (cyc_link_end h c l a z Hc Hnd Ha Hz).
  - destruct h. apply lframe_upd; upd_cases.
Qed.

(** An open chain of nodes, and its last node. *)
Fixpoint path (h : dll) (x : addr) (l : list addr) : Prop :=
  match l with
  | [] => True
  | z :: l' => nxt h !! x = Some (Some z) /\ prv h !! z = Some (Some x) /\ path h z l'
  end.
Fixpoint end_of (x : addr) (l : list addr) : addr :=
  match l with [] => x | z :: l' => end_of z l' end.

Lemma end_of_in x l : end_of x l ∈ x :: l.
Proof. revert x. induction l as [|z l IH]; intros x; [by left|]. right. apply IH. Qed.

Lemma end_of_app x l1 z l2 : end_of x (l1 ++ z :: l2) = end_of z l2.
Proof. revert x. induction l1 as [|w l1 IH]; intros x; simpl; auto. Qed.

Lemma seg_path h x l y : seg h x l y <-> path h x l /\
  nxt h !! end_of x l = Some (Some y) /\ prv h !! y = Some (Some (end_of x l)).
Proof. revert x. induction l as [|z l IH]; intros x; simpl; [tauto|]. rewrite IH. tauto. Qed.

Lemma path_frame h h' x l :
  (forall a, a ∈ x :: l -> a <> end_of x l -> nxt h' !! a = nxt h !! a) ->
  (forall a, a ∈ l -> prv h' !! a = prv h !! a) -> NoDup (x :: l) -> path h x l -> path h' x l.
Proof.
  revert x. induction l as [|z l IH]; intros x Hn Hp Hnd; [done|]. simpl. intros (H1 & H2 & H3).
  apply NoDup_cons in Hnd as [Hx Hnd]. simpl in Hn. split_and!.
  - rewrite Hn; [done|by left|]. intros E. apply Hx. rewrite E. apply end_of_in.
  - rewrite Hp; [done|by left].
  - apply IH; [|intros a Ha; apply Hp; by right|done|done].
    intros a Ha Hne. apply Hn; [by right|done].
Qed.

Lemma path_app h x l1 z l2 :
  path h x (l1 ++ z :: l2) <-> path h x l1 /\ nxt h !! end_of x l1 = Some (Some z) /\
    prv h !! z = Some (Some (end_of x l1)) /\ path h z l2.
Proof. revert x. induction l1 as [|w l1 IH]; intros x; simpl; [tauto|]. rewrite IH. tauto. Qed.

(** The rings, each given by its first event and the others in order. *)
Definition flat (rings : list (addr * list addr)) : list addr := concat (map (fun r => r.1 :: r.2) rings).

Lemma concat_loop_ok h f dn rings :
  path h f dn -> (forall a, a ∈ f :: dn ++ flat rings -> node h a) -> NoDup (f :: dn ++ flat rings) ->
  Forall (fun r => cyc h (r.1 :: r.2)) rings ->
  exists h', concat_loop (Some (end_of f dn)) rings.*1 h = Some (Some (end_of f (dn ++ flat rings)), h') /\
    path h' f (dn ++ flat rings) /\
    (forall a, a ∉ f :: dn ++ flat rings -> nxt h' !! a = nxt h !! a) /\
    (forall a, a ∉ flat rings -> prv h' !! a = prv h !! a) /\
    (forall a, node h a -> node h' a).
Proof.
  revert h dn. induction rings as [|[n k] rings IH]; intros h dn Hp Hn Hnd Hr.
  - exists h. unfold flat. simpl. rewrite app_nil_r. by split_and!.
  - apply Forall_cons in Hr as [Hc Hr]. simpl in Hc.
    assert (Hflat : dn ++ flat ((n, k) :: rings) = (dn ++ n :: k) ++ flat rings).
    { unfold flat. simpl. by rewrite <- app_assoc. }
    rewrite Hflat in *. set (c := end_of f dn).
    assert (Hcin : c ∈ f :: dn) by apply end_of_in.
    assert (Hseg := proj1 (seg_path h n k n) Hc). destruct Hseg as (Hk & Hk1 & Hk2).
    destruct (Hn c) as [[v Hv] _].
    { apply elem_of_cons in Hcin as [->|?]; [by left|]. right. rewrite !elem_of_app. auto. }
    destruct (Hn n) as [_ [w Hw]]; [right; rewrite !elem_of_app; left; right; by left|].
    assert (Hd : forall a, a ∈ f :: dn -> a ∉ n :: k).
    { intros a Ha Hin. rewrite <- app_assoc, app_comm_cons in Hnd.
      apply NoDup_app in Hnd as (_ & Hd & _). apply (Hd a Ha). apply elem_of_app. by left. }
    assert (Hcn : c <> n) by (intros E; apply (Hd c Hcin); rewrite E; by left).
    simpl fmap. cbn [concat_loop]. fold c.
    rewrite (st_bind_Some _ _ _ _ _ (x_wnext h c v (Some n) Hv)).
    erewrite st_bind_Some by (apply x_rprev; exact Hk2).
    erewrite st_bind_Some by (eapply x_wprev; exact Hw). cbn [nxt prv].
    set (h1 := Dll (<[c := Some n]> (nxt h)) (<[n := Some c]> (prv h))).
    assert (Hck : forall a, a ∈ n :: k -> nxt h1 !! a = nxt h !! a).
    { intros a Ha. simpl. rewrite lookup_insert_ne; [done|]. intros ->. by apply (Hd a). }
    assert (Hndk : NoDup (n :: k)).
    { rewrite <- app_assoc, app_comm_cons in Hnd. apply NoDup_app in Hnd as (_ & _ & Hnd).
      by apply NoDup_app in Hnd as (? & _). }
    assert (Hndd : NoDup (f :: dn)).
    { rewrite <- app_assoc, app_comm_cons in Hnd. by apply NoDup_app in Hnd as (? & _). }
    assert (Hp1 : path h1 f (dn ++ n :: k)).
    { apply (proj2 (path_app h1 f dn n k)). fold c.
      split_and!; [|by simpl; rewrite lookup_insert_eq|by simpl; rewrite lookup_insert_eq|].
      - eapply path_frame; [..|exact Hp]; [| |done].
        + intros a Ha Hne. simpl. rewrite lookup_insert_ne; [done|]. intros E. apply Hne. by rewrite <- E.
        + intros a Ha. simpl. rewrite lookup_insert_ne; [done|]. intros ->. apply (Hd a); [by right|by left].
      - eapply path_frame; [..|exact Hk]; [| |done].
        + intros a Ha _. by apply Hck.
        + intros a Ha. simpl. rewrite lookup_insert_ne; [done|]. intros ->. by apply NoDup_cons in Hndk as [? _]. }
    assert (Hnode : forall a, node h a -> node h1 a).
    { intros a [[x Hx] [y Hy]]. split; simpl; [destruct (decide (c = a)) as [->|]|destruct (decide (n = a)) as [->|]];
        rewrite ?lookup_insert_eq, ?lookup_insert_ne by done; by eexists. }
    rewrite <- (end_of_app f dn n k).
    destruct (IH h1 (dn ++ n :: k)) as (h' & E & Hp' & Hf1 & Hf2 & Hf3); [done|auto|done| |].
    { apply Forall_forall. intros [m j] Hin. rewrite Forall_forall in Hr. specialize (Hr _ Hin). apply list_elem_of_In in Hin. simpl in *.
      assert (Hsub : forall a, a ∈ m :: j -> a ∈ flat rings).
      { intros a Ha. apply list_elem_of_In, in_concat. exists (m :: j). split; [|by apply list_elem_of_In].
        apply in_map_iff. by exists (m, j). }
      eapply cyc_frame; [|exact Hr]. intros a Ha%Hsub. simpl.
      rewrite app_comm_cons in Hnd. apply NoDup_app in Hnd as (_ & Hdd & _).
      rewrite !lookup_insert_ne; [done| |]; intros ->; apply (Hdd a); try done.
      - right. apply elem_of_app. right. by left.
      - apply elem_of_cons in Hcin as [->|?]; [by left|]. right. apply elem_of_app. by left. }
    exists h'. split_and!; [exact E|exact Hp'| | |auto].
    + intros a Ha. rewrite Hf1 by done. simpl. rewrite lookup_insert_ne; [done|]. intros ->. apply Ha.
      apply elem_of_cons in Hcin as [->|?]; [by left|]. right. rewrite !elem_of_app. auto.
    + intros a Ha. assert (Ha2 : a ∉ flat rings /\ a <> n).
      { unfold flat in *. simpl in Ha. split; [|intros ->; apply Ha; by left].
        intros Hin. apply Ha. right. apply elem_of_app. by right. }
      destruct Ha2 as [Ha2 Hne]. rewrite Hf2 by done. simpl. by rewrite lookup_insert_ne.
Qed.

(** The whole concatenation, on the links. *)
Lemma concat_links_ok h f fs rings :
  cyc h (f :: fs) -> Forall (fun r => cyc h (r.1 :: r.2)) rings -> NoDup (f :: flat rings ++ fs) ->
  exists h', (evl ← rd_next (Some f); evc ← concat_loop (Some f) rings.*1; wr_next evc evl;; wr_prev evl evc) h
      = Some (tt, h') /\
    cyc h' (f :: flat rings ++ fs) /\ lframe (f :: flat rings ++ fs) h h'.
Proof.
  intros Hc Hr Hnd. destruct (proj1 (seg_path h f fs f) Hc) as (Hp & Hn & Hv).
  assert (Hnl : NoDup (f :: [] ++ flat rings)).
  { simpl. rewrite app_comm_cons in Hnd. by apply NoDup_app in Hnd as (? & _). }
  assert (Hsep : forall a, a ∈ fs -> a <> f /\ a ∉ flat rings).
  { intros a Ha. apply NoDup_cons in Hnd as [Hf Hnd]. apply NoDup_app in Hnd as (_ & Hd & _).
    split; [intros ->; apply Hf, elem_of_app; by right|]. intros Hin. by apply (Hd a). }
  assert (Hndfs : NoDup fs) by (apply NoDup_cons in Hnd as [_ Hnd]; by apply NoDup_app in Hnd as (_ & _ & ?)).
  assert (Hnf : forall a, a ∈ f :: fs -> node h a) by (intros a Ha; by eapply cyc_node).
  assert (Hnr : forall a, a ∈ flat rings -> node h a).
  { intros a Ha. unfold flat in Ha. apply list_elem_of_In, in_concat in Ha as (k & Hk & Ha).
    apply in_map_iff in Hk as ([m j] & <- & Hk). rewrite Forall_forall in Hr.
    eapply cyc_node; [apply (Hr (m, j)); by apply list_elem_of_In|by apply list_elem_of_In]. }
  destruct (concat_loop_ok h f [] rings) as (h1 & E & Hp1 & Hf1 & Hf2 & Hf3); [done| |done|done|].
  { simpl. intros a [->|Ha]%elem_of_cons; [apply Hnf; by left|by apply Hnr]. }
  simpl in *. set (evl := head (fs ++ [f])).
  assert (Hevl : nxt h !! f = Some evl).
  { unfold evl. destruct fs as [|g gs]; simpl in *; [done|]. by destruct Hp. }
  rewrite (st_bind_Some _ _ _ _ _ (x_rnext h f evl Hevl)), (st_bind_Some _ _ _ _ _ E).
  set (c := end_of f (flat rings)) in *.
  assert (Hcin : c ∈ f :: flat rings) by apply end_of_in.
  destruct (Hf3 c) as [[v Hv1] _].
  { apply elem_of_cons in Hcin as [->|Hin]; [apply Hnf; by left|by apply Hnr]. }
  assert (exists g, evl = Some g /\ g ∈ f :: fs /\ (fs = [] -> g = f) /\ forall g' gs, fs = g' :: gs -> g = g')
    as (g & Hg & Hgin & Hg1 & Hg2).
  { unfold evl. destruct fs as [|g gs]; [exists f|exists g]; split_and!; try done; [by left|by right; left|by intros ? ? [= <- _]]. }
  destruct (Hf3 g (Hnf g Hgin)) as [_ [w Hw]]. rewrite Hg.
  rewrite (st_bind_Some _ _ _ _ _ (x_wnext h1 c v (Some g) Hv1)).
  rewrite (x_wprev _ g w (Some c)) by done. cbn [nxt prv].
  set (h2 := Dll (<[c := Some g]> (nxt h1)) (<[g := Some c]> (prv h1))).
  exists h2. split; [reflexivity|].
  assert (Hgr : g ∉ flat rings).
  { apply elem_of_cons in Hgin as [->|Hin]; [by apply NoDup_cons in Hnl as [? _]|by apply Hsep]. }
  assert (Hpf : path h2 f (flat rings)).
  { eapply path_frame; [..|exact Hp1]; [| |done].
    - intros a Ha Hne. simpl. rewrite lookup_insert_ne; [done|]. intros E'. apply Hne. by rewrite <- E'.
    - intros a Ha. simpl. rewrite lookup_insert_ne; [done|]. by intros ->. }
  assert (Hcfs : forall a, a ∈ fs -> c <> a).
  { intros a Ha ->. destruct (Hsep a Ha) as [H1 H2]. apply elem_of_cons in Hcin as [?|?]; done. }
  split.
  - apply (proj2 (seg_path h2 f (flat rings ++ fs) f)). destruct fs as [|g' gs].
    + rewrite app_nil_r. fold c. specialize (Hg1 eq_refl) as ->. simpl. rewrite !lookup_insert_eq. by split_and!.
    + specialize (Hg2 g' gs eq_refl) as ->. simpl in Hp, Hn, Hv. rewrite end_of_app.
      assert (Hend : end_of g' gs ∈ g' :: gs) by apply end_of_in.
      assert (Hfg : f <> g') by (intros ->; by destruct (Hsep g') as [? _]; [by left|]).
      split_and!.
      * apply (proj2 (path_app h2 f (flat rings) g' gs)). fold c. split_and!; [done|simpl; by rewrite lookup_insert_eq..|].
        destruct Hp as (_ & _ & Hp). eapply path_frame; [..|exact Hp]; [| |done].
        -- intros a Ha _. simpl. rewrite lookup_insert_ne by by apply Hcfs. apply Hf1.
           destruct (Hsep a Ha). by intros [?|?]%elem_of_cons.
        -- intros a Ha. simpl. apply NoDup_cons in Hndfs as [Hgg _].
           rewrite lookup_insert_ne by (by intros ->). apply Hf2. by destruct (Hsep a); [by right|].
      * simpl. rewrite lookup_insert_ne by by apply Hcfs. rewrite Hf1; [done|].
        destruct (Hsep _ Hend). by intros [?|?]%elem_of_cons.
      * simpl. rewrite lookup_insert_ne by done. rewrite Hf2; [done|]. by apply NoDup_cons in Hnl as [? _].
  - constructor.
    + intros a Ha. simpl. rewrite lookup_insert_ne.
      * apply Hf1. intros [->|Hin]%elem_of_cons; apply Ha; [by left|right; apply elem_of_app; by left].
      * intros ->. apply Ha. apply elem_of_cons in Hcin as [->|Hin]; [by left|right; apply elem_of_app; by left].
    + intros a Ha. simpl. rewrite lookup_insert_ne.
      * apply Hf2. intros Hin. apply Ha. right. apply elem_of_app. by left.
      * intros ->. apply Ha. apply elem_of_cons in Hgin as [->|Hin]; [by left|right; apply elem_of_app; by right].
    + intros a Ha%Hf3. destruct Ha as [[x Hx] [y Hy]]. split; simpl;
        [destruct (decide (c = a)) as [->|]|destruct (decide (g = a)) as [->|]];
        rewrite ?lookup_insert_eq, ?lookup_insert_ne by done; by eexists.
Qed.

(** Taking the first event out of its ring. *)
Lemma isolate_links_ok s f g gs :
  cyc (e_links s) (f :: g :: gs) -> NoDup (f :: g :: gs) ->
  exists d, pth_event_isolate (Some f) s = Some (ok (Some g), Evst d (e_body s) (e_keys s) (e_keyvar s)) /\
    cyc d [f] /\ cyc d (g :: gs) /\ lframe (f :: g :: gs) (e_links s) d.
Proof.
  intros Hc Hnd. set (h := e_links s) in *.
  assert (Hne : [] ++ g :: gs <> []) by (by simpl).
  destruct (cyc_other h [] f (g :: gs) Hc Hnd Hne) as (a & b & Hpf & Hnf & Ha & Hb & Hhd).
  simpl in Ha, Hb, Hhd. injection Hhd as <-.
  assert (Hfa : f <> a) by (intros ->; by apply NoDup_cons in Hnd as [? _]).
  assert (Hfg : f <> g) by (intros ->; apply NoDup_cons in Hnd as [Hni _]; apply Hni; by left).
  assert (Hna : node h a) by (eapply cyc_node; [exact Hc|by right]). destruct Hna as [[an Hna] _].
  assert (Hng : node h g) by (eapply cyc_node; [exact Hc|right; by left]). destruct Hng as [_ [gp Hgp]].
  set (d := Dll (<[f := Some f]> (<[a := Some g]> (nxt h))) (<[f := Some f]> (<[g := Some a]> (prv h)))).
  exists d. split; [|split_and!].
  - unfold pth_event_isolate. erewrite st_bind_Some; [reflexivity|]. apply x_evlinks. fold h.
    do 2 lstep. rewrite bool_decide_eq_false_2 by congruence. cbn [negb andb]. do 6 lstep. reflexivity.
  - unfold cyc, d. simpl. by rewrite !lookup_insert_eq.
  - eapply cyc_frame; [|exact (cyc_unlink_head h f g gs a Hc Hnd Hpf)].
    intros x Hx. unfold d, unlink. simpl. apply NoDup_cons in Hnd as [Hni _].
    rewrite !(lookup_insert_ne _ f) by (by intros ->). done.
  - unfold d. apply lframe_upd; simpl; intros x; rewrite !lookup_insert; repeat case_decide; subst;
      first [by left | right; split; [first [by left | by right; left | by right]|by eexists]].
Qed.

(** ** Properties *)

Definition is_occurred (s : evst) (a : addr) : bool :=
  match e_body s !! a with Some x => bool_decide (ev_status x = PTH_STATUS_OCCURRED) | None => false end.

(** [pth_event] in its plain mode, given fresh memory and the arguments of
    one of the event types, yields a pending event with that type, goal and
    arguments. With [PTH_MODE_CHAIN] it becomes the last event of the ring
    that starts with the given event, otherwise a ring of its own; events of
    other rings stay as they are. *)
Lemma event_create_correct fcntl ds spec key c l va a s ty goal args :
  has spec PTH_MODE_REUSE = false -> has spec PTH_MODE_STATIC = false ->
  event_specific fcntl spec va = Some (inr (ty, goal, args)) ->
  ev_ring s (c :: l) -> e_body s !! a = None ->
  exists s', pth_event fcntl ds spec NULL key (Some c) va (Some a) true s = Some (ok (Some a), s') /\
    e_body s' = <[a := Event PTH_STATUS_PENDING ty goal args]> (e_body s) /\
    (if has spec PTH_MODE_CHAIN then ev_ring s' (c :: l ++ [a]) else ev_ring s' [a] /\ ev_ring s' (c :: l)) /\
    (forall k, ev_ring s k -> a ∉ k -> (forall x, x ∈ k -> x ∉ c :: l) -> ev_ring s' k).
Proof.
  intros Hru Hst Hsp [Hc Hnd Hb] Ha. unfold pth_event. rewrite Hru, Hst. erewrite st_bind_Some by reflexivity.
  rewrite bool_decide_eq_false_2 by done.
  set (b0 := <[a := Event PTH_STATUS_PENDING 0 0 ANone]> (e_body s)).
  set (d0 := Dll (<[a := NULL]> (nxt (e_links s))) (<[a := NULL]> (prv (e_links s)))).
  assert (Hal : a ∉ c :: l) by (intros Hin; destruct (Hb a Hin) as [? ?]; congruence).
  assert (Hfr : forall k, cyc (e_links s) k -> a ∉ k -> cyc d0 k).
  { intros k Hk Hn. eapply cyc_frame; [|exact Hk]. intros x Hx. unfold d0. simpl.
    rewrite !lookup_insert_ne by (by intros ->). done. }
  assert (Hna : node d0 a) by (split; simpl; rewrite lookup_insert_eq; by eexists).
  assert (exists d, event_link spec (Some a) (Some c) d0 = Some (tt, d) /\ lframe (a :: c :: l) d0 d /\
    (if has spec PTH_MODE_CHAIN then cyc d (c :: l ++ [a]) else cyc d [a] /\ cyc d (c :: l)))
    as (d & E & Hfd & Hring).
  { destruct (has spec PTH_MODE_CHAIN) eqn:Ech.
    - destruct (link_chain_ok spec d0 a c l) as (d & E & H & Hf); [done|done|by apply Hfr|done|done|].
      exists d. by split_and!.
    - destruct (link_alone_ok spec d0 a (Some c)) as (d & E & H & Hf); [done|done|]. exists d.
      split_and!; [done| |done|].
      + destruct Hf as [F1 F2 F3]. constructor; [| |done]; intros x Hx; [apply F1|apply F2];
          intros ->%list_elem_of_singleton; apply Hx; by left.
      + eapply cyc_lframe; [exact Hf| |by apply Hfr]. by intros x Hx ->%list_elem_of_singleton. }
  erewrite st_bind_Some by (apply x_evlinks; exact E). cbn [e_links e_body e_keys e_keyvar].
  erewrite st_bind_Some by (apply x_rd_event; simpl; apply lookup_insert_eq).
  erewrite st_bind_Some by (eapply x_wr_event; simpl; apply lookup_insert_eq).
  rewrite Hsp. erewrite st_bind_Some by (eapply x_wr_event; simpl; apply lookup_insert_eq).
  eexists. split; [reflexivity|]. cbn [e_links e_body e_keys e_keyvar]. unfold b0. rewrite !insert_insert_eq.
  assert (Hin : forall x, is_Some (e_body s !! x) \/ x = a ->
    is_Some (<[a := Event PTH_STATUS_PENDING ty goal args]> (e_body s) !! x)).
  { intros x Hx. destruct (decide (a = x)) as [->|]; [rewrite lookup_insert_eq; by eexists|].
    rewrite lookup_insert_ne by done. naive_solver. }
  split; [done|]. split.
  - destruct (has spec PTH_MODE_CHAIN); [|destruct Hring as [Hr1 Hr2]; split]; constructor; simpl; try done.
    + rewrite app_comm_cons. apply NoDup_app. split_and!; [done| |apply NoDup_singleton].
      by intros x Hx ->%list_elem_of_singleton.
    + intros x. rewrite app_comm_cons, elem_of_app, list_elem_of_singleton. intros [Hx| ->]; auto.
    + apply NoDup_singleton.
    + intros x ->%list_elem_of_singleton. auto.
    + auto.
  - intros k [Hk1 Hk2 Hk3] Hak Hkc. constructor; simpl; [|done|auto].
    eapply cyc_lframe; [exact Hfd| |by apply Hfr]. intros x Hx [->|Hin']%elem_of_cons; [done|].
    by apply (Hkc x).
Qed.

(** Concatenating event rings gives one ring with the first event, then
    the events of the attached rings in order, then the rest of the first
    ring. Isolating the first event afterwards undoes the usual attachment of
    one ring to a single event: both rings are as before, and the attached
    ring is returned. *)
Lemma event_concat_isolate s f fs rings :
  ev_ring s (f :: fs) -> Forall (fun r => ev_ring s (r.1 :: r.2)) rings -> NoDup (f :: flat rings ++ fs) ->
  exists s1, pth_event_concat (Some f) rings.*1 s = Some (ok (Some f), s1) /\
    ev_ring s1 (f :: flat rings ++ fs) /\ e_body s1 = e_body s /\
    (forall x xs, fs = [] -> rings = [(x, xs)] ->
       exists s2, pth_event_isolate (Some f) s1 = Some (ok (Some x), s2) /\
         ev_ring s2 [f] /\ ev_ring s2 (x :: xs) /\ e_body s2 = e_body s).
Proof.
  intros [Hc _ Hb] Hr Hnd.
  destruct (concat_links_ok (e_links s) f fs rings) as (d & E & Hcyc & _); [done| |done|].
  { eapply Forall_impl; [exact Hr|]. intros [m j] H. apply H. }
  assert (Hall : forall a, a ∈ f :: flat rings ++ fs -> is_Some (e_body s !! a)).
  { intros a [->|[Ha|Ha]%elem_of_app]%elem_of_cons; [apply Hb; by left| |apply Hb; by right].
    unfold flat in Ha. apply list_elem_of_In, in_concat in Ha as (k & Hk & Ha).
    apply in_map_iff in Hk as ([m j] & <- & Hk). rewrite Forall_forall in Hr.
    apply (er_body _ _ (Hr (m, j) (proj2 (list_elem_of_In _ _) Hk))). by apply list_elem_of_In. }
  exists (Evst d (e_body s) (e_keys s) (e_keyvar s)). split_and!; [| |done|].
  - unfold pth_event_concat. by erewrite st_bind_Some by (apply x_evlinks; exact E).
  - by constructor.
  - intros x xs -> ->. unfold flat in *. simpl in *. rewrite !app_nil_r in *.
    destruct (isolate_links_ok (Evst d (e_body s) (e_keys s) (e_keyvar s)) f x xs) as (d2 & E2 & H1 & H2 & _);
      [done|done|]. eexists. split; [exact E2|]. apply NoDup_cons in Hnd as [Hnf Hnd].
    split_and!; [constructor; simpl; [done|apply NoDup_singleton|]|constructor; simpl; [done|done|]|done].
    + intros a ->%list_elem_of_singleton. apply Hall. by left.
    + intros a Ha. apply Hall. by right.
Qed.

(** Walking: the events after the current one, in ring order, up to the first
    that occurred. *)
Lemma walk_step s e l y b fuel dir :
  has dir PTH_WALK_NEXT = true -> cyc (e_links s) (e :: l) -> head (l ++ [e]) = Some y ->
  e_body s !! y = Some b ->
  pth_event_walk fuel (Some e) dir s =
    (if has dir PTH_UNTIL_OCCURRED && bool_decide (ev_status b <> PTH_STATUS_OCCURRED) then
       match fuel with O => None | S fuel' => pth_event_walk fuel' (Some y) dir s end
     else Some (ok (Some y), s)).
Proof.
  intros Hn Hc Hy Hb. assert (Hnx := cyc_next_head _ [] e l Hc). simpl in Hnx. rewrite Hy in Hnx.
  destruct fuel; cbn [pth_event_walk]; rewrite Hn;
    (erewrite st_bind_Some by (erewrite st_bind_Some by (apply x_evlinks, x_rnext; exact Hnx); reflexivity));
    cbn [e_links e_body e_keys e_keyvar]; rewrite evst_eta;
    (erewrite st_bind_Some by (by apply x_rd_event)); by destruct (_ && _).
Qed.

Lemma ring_rotate1 s e y l : ev_ring s (e :: y :: l) -> ev_ring s (y :: l ++ [e]).
Proof.
  intros [Hc Hnd Hb]. constructor.
  - exact (cyc_rotate _ [e] (y :: l) Hc).
  - rewrite app_comm_cons. by rewrite <- Permutation_cons_append.
  - intros a Ha. apply Hb. rewrite app_comm_cons, elem_of_app, list_elem_of_singleton in Ha.
    rewrite elem_of_cons. tauto.
Qed.

Lemma walk_occurred_ok s l3 x l2 e l dir fuel :
  has dir PTH_WALK_NEXT = true -> has dir PTH_UNTIL_OCCURRED = true ->
  ev_ring s (e :: l) -> l ++ [e] = l3 ++ x :: l2 ->
  Forall (fun a => is_occurred s a = false) l3 -> is_occurred s x = true -> (length l3 <= fuel)%nat ->
  pth_event_walk fuel (Some e) dir s = Some (ok (Some x), s).
Proof.
  intros Hn Hu. revert e l l2 fuel. induction l3 as [|y l3 IH]; intros e l l2 fuel Hr Heq Hno Hx Hf.
  - unfold is_occurred in Hx. destruct (e_body s !! x) as [b|] eqn:Eb; [|done].
    apply bool_decide_eq_true in Hx.
    rewrite (walk_step s e l x b fuel dir Hn (er_cyc _ _ Hr)); [|by rewrite Heq|done].
    by rewrite Hu, bool_decide_eq_false_2 by (by intros ?).
  - apply Forall_cons in Hno as [Hy Hno]. destruct fuel as [|fuel]; [simpl in Hf; lia|].
    destruct l as [|y' l]; injection Heq as -> Heq; [by destruct l3|].
    destruct (er_body _ _ Hr y) as [b Eb]; [right; by left|]. unfold is_occurred in Hy. rewrite Eb in Hy.
    apply bool_decide_eq_false in Hy.
    rewrite (walk_step s e (y :: l) y b (S fuel) dir Hn (er_cyc _ _ Hr)) by done.
    rewrite Hu, bool_decide_eq_true_2 by done. simpl andb. cbn iota.
    apply (IH y (l ++ [e]) (l2 ++ [y])); [by apply ring_rotate1| |done|done|simpl in Hf; lia].
    rewrite Heq. by rewrite <- app_assoc.
Qed.

(** No event of the ring occurred: the walk never ends. *)
Lemma walk_none_ok s e l dir fuel :
  has dir PTH_WALK_NEXT = true -> has dir PTH_UNTIL_OCCURRED = true ->
  ev_ring s (e :: l) -> Forall (fun a => is_occurred s a = false) (e :: l) ->
  pth_event_walk fuel (Some e) dir s = None.
Proof.
  intros Hn Hu. revert e l. induction fuel as [|fuel IH]; intros e l Hr Hno.
  all: assert (exists y, head (l ++ [e]) = Some y /\ y ∈ e :: l) as (y & Hy & Hin)
    by (destruct l as [|z l]; [exists e; split; [done|by left]|exists z; split; [done|right; by left]]).
  all: destruct (er_body _ _ Hr y Hin) as [b Eb]; rewrite Forall_forall in Hno;
    assert (Hoc := Hno y Hin); unfold is_occurred in Hoc; rewrite Eb in Hoc; apply bool_decide_eq_false in Hoc.
  all: rewrite (walk_step s e l y b _ dir Hn (er_cyc _ _ Hr) Hy Eb), Hu, bool_decide_eq_true_2 by done; simpl andb; cbn iota.
  { done. }
  destruct l as [|z l]; simpl in Hy; injection Hy as <-.
  - apply (IH e []); [done|by apply Forall_forall].
  - apply (IH z (l ++ [e])); [by apply ring_rotate1|]. apply Forall_forall. intros a Ha. apply Hno.
    rewrite app_comm_cons, elem_of_app, list_elem_of_singleton in Ha. rewrite elem_of_cons. tauto.
Qed.

(** Walking a ring. [pth_event_walk] with [PTH_WALK_NEXT] gives the next
    event of the ring; with [PTH_UNTIL_OCCURRED] the next one that occurred,
    the current one last, and if none has, it does not return. *)
Lemma event_walk_correct s e l :
  ev_ring s (e :: l) ->
  (forall fuel, pth_event_walk fuel (Some e) PTH_WALK_NEXT s = Some (ok (head (l ++ [e])), s)) /\
  (forall l1 x l2, l ++ [e] = l1 ++ x :: l2 -> Forall (fun a => is_occurred s a = false) l1 ->
     is_occurred s x = true ->
     pth_event_walk (length l) (Some e) (Z.lor PTH_WALK_NEXT PTH_UNTIL_OCCURRED) s = Some (ok (Some x), s)) /\
  (Forall (fun a => is_occurred s a = false) (e :: l) ->
     forall fuel, pth_event_walk fuel (Some e) (Z.lor PTH_WALK_NEXT PTH_UNTIL_OCCURRED) s = None).
Proof.
  intros Hr. split_and!.
  - intros fuel. assert (exists y, head (l ++ [e]) = Some y /\ y ∈ e :: l) as (y & Hy & Hin)
      by (destruct l as [|z l]; [exists e; split; [done|by left]|exists z; split; [done|right; by left]]).
    destruct (er_body _ _ Hr y Hin) as [b Eb].
    by rewrite (walk_step s e l y b fuel PTH_WALK_NEXT eq_refl (er_cyc _ _ Hr) Hy Eb), Hy.
  - intros l1 x l2 Heq Hno Hx. eapply walk_occurred_ok; try done.
    assert (Hlen : length (l ++ [e]) = length (l1 ++ x :: l2)) by (by rewrite Heq).
    rewrite !length_app in Hlen. simpl in Hlen. lia.
  - intros Hno fuel. by apply (walk_none_ok s e l).
Qed.

Definition pend (x : event) : event := Event PTH_STATUS_PENDING (ev_type x) (ev_goal x) (ev_args x).
Definition nonpending (s : evst) (a : addr) : bool :=
  match e_body s !! a with Some x => bool_decide (ev_status x <> PTH_STATUS_PENDING) | None => false end.

Lemma mark_pending_ok s x rest e fuel :
  seg (e_links s) x rest e -> e ∉ rest -> NoDup (x :: rest) -> (forall a, a ∈ x :: rest -> is_Some (e_body s !! a)) ->
  (length rest <= fuel)%nat ->
  exists b, mark_pending fuel (Some x) (Some e) s = Some (tt, Evst (e_links s) b (e_keys s) (e_keyvar s)) /\
    forall a, b !! a = if bool_decide (a ∈ x :: rest) then pend <$> e_body s !! a else e_body s !! a.
Proof.
  revert s x fuel. induction rest as [|z rest IH]; intros s x fuel Hs He Hnd Hb Hf;
    destruct (Hb x ltac:(by left)) as [bx Hbx];
    assert (Hupd : forall (r : list addr) a, <[x := pend bx]> (e_body s) !! a =
      if bool_decide (a = x) then pend <$> e_body s !! a else e_body s !! a)
      by (intros r a; case_bool_decide as Ha; [subst a; by rewrite lookup_insert_eq, Hbx|by rewrite lookup_insert_ne]).
  - destruct Hs as [Hn _]. exists (<[x := pend bx]> (e_body s)). split.
    + destruct fuel; cbn [mark_pending]; rewrite (st_bind_Some _ _ _ _ _ (x_rd_event s x bx Hbx)),
        (st_bind_Some _ _ _ _ _ (x_wr_event s x _ bx Hbx));
        (erewrite st_bind_Some by (apply x_evlinks, x_rnext; exact Hn));
        cbn [e_links e_body e_keys e_keyvar]; by rewrite bool_decide_eq_true_2.
    + intros a. rewrite (Hupd []). repeat case_bool_decide; try done.
      * subst. exfalso. by apply H0; left.
      * apply list_elem_of_singleton in H0. done.
  - destruct Hs as (Hn & _ & Hs). destruct fuel as [|fuel]; [simpl in Hf; lia|].
    apply NoDup_cons in Hnd as [Hx Hnd].
    assert (Hze : z <> e) by (intros ->; apply He; by left).
    set (s1 := Evst (e_links s) (<[x := pend bx]> (e_body s)) (e_keys s) (e_keyvar s)).
    destruct (IH s1 z fuel) as (b & E & Hb'); [done|intros Hin; apply He; by right|done| |simpl in Hf; lia|].
    { intros a Ha. simpl. rewrite lookup_insert_ne by (intros ->; done). apply Hb. by right. }
    exists b. split.
    + cbn [mark_pending]. rewrite (st_bind_Some _ _ _ _ _ (x_rd_event s x bx Hbx)),
        (st_bind_Some _ _ _ _ _ (x_wr_event s x _ bx Hbx)).
      erewrite st_bind_Some by (apply x_evlinks, x_rnext; exact Hn). cbn [e_links e_body e_keys e_keyvar].
      rewrite bool_decide_eq_false_2 by congruence. exact E.
    + intros a. rewrite Hb'. unfold s1. cbn [e_body]. rewrite (Hupd []).
      destruct (decide (a = x)) as [->|Hax].
      * rewrite (bool_decide_eq_true_2 (x = x)), (bool_decide_eq_true_2 (x ∈ x :: z :: rest)) by (done || by left).
        by rewrite bool_decide_eq_false_2.
      * rewrite (bool_decide_eq_false_2 (a = x)) by done.
        erewrite (bool_decide_ext (a ∈ x :: z :: rest)); [done|]. rewrite (elem_of_cons (z :: rest)). tauto.
Qed.

Lemma count_nonpending_ok s x rest e fuel n :
  seg (e_links s) x rest e -> e ∉ rest -> (forall a, a ∈ x :: rest -> is_Some (e_body s !! a)) ->
  (length rest <= fuel)%nat -> 0 <= n -> n + Z.of_nat (length (x :: rest)) < 2 ^ 31 ->
  count_nonpending fuel (Some x) (Some e) n s
    = Some (n + Z.of_nat (length (filter (fun a => nonpending s a = true) (x :: rest))), s).
Proof.
  revert x fuel n. induction rest as [|z rest IH]; intros x fuel n Hs He Hb Hf Hn Hlt;
    destruct (Hb x ltac:(by left)) as [bx Hbx];
    assert (Hnp : nonpending s x = bool_decide (ev_status bx <> PTH_STATUS_PENDING))
      by (unfold nonpending; by rewrite Hbx);
    assert (Hcnt : (if bool_decide (ev_status bx <> PTH_STATUS_PENDING) then i32 (n + 1) else n)
      = n + (if nonpending s x then 1 else 0))
      by (rewrite Hnp; destruct (bool_decide _); [rewrite i32_small by (unfold in_i32; simpl in Hlt; lia); done|lia]);
    rewrite filter_cons.
  - destruct Hs as [Hnx _].
    destruct fuel; cbn [count_nonpending]; rewrite (st_bind_Some _ _ _ _ _ (x_rd_event s x bx Hbx)); cbv zeta;
      rewrite Hcnt; (erewrite st_bind_Some by (apply x_evlinks, x_rnext; exact Hnx));
      cbn [e_links e_body e_keys e_keyvar]; rewrite bool_decide_eq_true_2, evst_eta by done;
      (destruct (nonpending s x); [rewrite decide_True by done|rewrite decide_False by done]); done.
  - destruct Hs as (Hnx & _ & Hs). destruct fuel as [|fuel]; [simpl in Hf; lia|].
    assert (Hze : z <> e) by (intros ->; apply He; by left).
    cbn [count_nonpending]. rewrite (st_bind_Some _ _ _ _ _ (x_rd_event s x bx Hbx)). cbv zeta. rewrite Hcnt.
    erewrite st_bind_Some by (apply x_evlinks, x_rnext; exact Hnx). cbn [e_links e_body e_keys e_keyvar].
    rewrite bool_decide_eq_false_2, evst_eta by congruence.
    rewrite IH; [|done|intros Hin; apply He; by right|intros a Ha; apply Hb; by right|simpl in Hf; lia
      |destruct (nonpending s x); lia|simpl in Hlt |- *; destruct (nonpending s x); lia].
    destruct (nonpending s x); [rewrite decide_True by done|rewrite decide_False by done]; cbn [length]; do 2 f_equal; lia.
Qed.

(** The loops of [pth_wait]. Before the wait exactly the events of the
    ring are made pending, their other fields and all other events untouched;
    after it the number of events of the ring that are not pending is
    returned. Both end after one round of the ring. *)
Lemma event_wait_loops s e l :
  ev_ring s (e :: l) -> Z.of_nat (length (e :: l)) < 2 ^ 31 ->
  (exists b, mark_pending (length l) (Some e) (Some e) s = Some (tt, Evst (e_links s) b (e_keys s) (e_keyvar s)) /\
     forall a, b !! a = if bool_decide (a ∈ e :: l) then pend <$> e_body s !! a else e_body s !! a) /\
  count_nonpending (length l) (Some e) (Some e) 0 s
    = Some (Z.of_nat (length (filter (fun a => nonpending s a = true) (e :: l))), s).
Proof.
  intros [Hc Hnd Hb] Hlt. assert (He : e ∉ l) by (by apply NoDup_cons in Hnd as [? _]). split.
  - by apply mark_pending_ok.
  - by rewrite (count_nonpending_ok s e l e (length l) 0).
Qed.

(** Freeing a ring: only the [ev_next] of events that are still there is
    read. *)
Fixpoint nexts (h : gmap addr ptr) (x : addr) (l : list addr) (y : addr) : Prop :=
  match l with
  | [] => h !! x = Some (Some y)
  | z :: l' => h !! x = Some (Some z) /\ nexts h z l' y
  end.

Lemma seg_nexts h x l y : seg h x l y -> nexts (nxt h) x l y.
Proof. revert x. induction l as [|z l IH]; intros x; simpl; [tauto|]. naive_solver. Qed.

Lemma nexts_delete h a x l y : a ∉ x :: l -> nexts h x l y -> nexts (delete a h) x l y.
Proof.
  revert x. induction l as [|z l IH]; intros x Ha; simpl.
  - rewrite lookup_delete_ne; [done|]. intros ->. apply Ha. by left.
  - rewrite lookup_delete_ne by (intros ->; apply Ha; by left). intros [H1 H2]. split; [done|].
    apply IH; [|done]. intros Hin. apply Ha. by right.
Qed.

Lemma free_ring_ok s x rest e fuel :
  nexts (nxt (e_links s)) x rest e -> e ∉ rest -> NoDup (x :: rest) ->
  (forall a, a ∈ x :: rest -> is_Some (e_body s !! a)) -> (length rest <= fuel)%nat ->
  exists s', free_ring fuel (Some x) (Some e) s = Some (tt, s') /\
    forall a, e_body s' !! a = if bool_decide (a ∈ x :: rest) then None else e_body s !! a.
Proof.
  revert s x fuel. induction rest as [|z rest IH]; intros s x fuel Hs He Hnd Hb Hf;
    destruct (Hb x ltac:(by left)) as [bx Hbx].
  - eexists. split.
    + destruct fuel; cbn [free_ring]; (erewrite st_bind_Some by (apply x_evlinks, x_rnext; exact Hs));
        (erewrite st_bind_Some by (unfold free_event; cbn [e_body]; rewrite Hbx; reflexivity));
        by rewrite bool_decide_eq_true_2.
    + intros a. simpl. case_bool_decide as Ha.
      * apply list_elem_of_singleton in Ha as ->. by rewrite lookup_delete_eq.
      * rewrite lookup_delete_ne; [done|]. intros ->. apply Ha. by left.
  - destruct Hs as (Hn & Hs). destruct fuel as [|fuel]; [simpl in Hf; lia|].
    apply NoDup_cons in Hnd as [Hx Hnd]. assert (Hze : z <> e) by (intros ->; apply He; by left).
    cbn [free_ring]. erewrite st_bind_Some by (apply x_evlinks, x_rnext; exact Hn).
    erewrite st_bind_Some by (unfold free_event; cbn [e_body]; rewrite Hbx; reflexivity).
    rewrite bool_decide_eq_false_2 by congruence. cbn [e_links e_body e_keys e_keyvar].
    set (s1 := Evst _ _ _ _). destruct (IH s1 z fuel) as (s' & E & Hb'); [|by (intros Hin; apply He; right)|done| |simpl in Hf; lia|].
    + by apply nexts_delete.
    + intros a Ha. simpl. rewrite lookup_delete_ne by (intros ->; done). apply Hb. by right.
    + exists s'. split; [exact E|]. intros a. rewrite Hb'. simpl. destruct (decide (a = x)) as [->|Hax].
      * rewrite (bool_decide_eq_true_2 (x ∈ x :: z :: rest)), lookup_delete_eq by (by left).
        by destruct (bool_decide _).
      * rewrite lookup_delete_ne by done.
        erewrite (bool_decide_ext (a ∈ x :: z :: rest)); [done|]. rewrite (elem_of_cons (z :: rest)). tauto.
Qed.

(** [pth_event_free] with [PTH_FREE_ALL] frees every event of the ring
    exactly once, no other event, and ends; with [PTH_FREE_THIS] it takes the
    event out of its ring, the others staying linked in order, and frees it. *)
Theorem event_free_correct s e l :
  ev_ring s (e :: l) ->
  (exists s', pth_event_free (Some e) PTH_FREE_ALL s = Some (ok true, s') /\
     forall a, e_body s' !! a = if bool_decide (a ∈ e :: l) then None else e_body s !! a) /\
  (l <> [] -> exists s', pth_event_free (Some e) PTH_FREE_THIS s = Some (ok true, s') /\
     ev_ring s' l /\ e_body s' = delete e (e_body s)).
Proof.
  intros [Hc Hnd Hb]. assert (He : e ∉ l) by (by apply NoDup_cons in Hnd as [? _]). split.
  - destruct (free_ring_ok s e l e (size (e_body s))) as (s' & E & Hs'); try done.
    + by apply seg_nexts.
    + rewrite <- size_dom, <- (size_list_to_set (C := gset addr) l) by (by apply NoDup_cons in Hnd as [_ ?]).
      apply subseteq_size. intros a Ha%elem_of_list_to_set. apply elem_of_dom, Hb. by right.
    + exists s'. split; [|done]. unfold pth_event_free. erewrite st_bind_Some by reflexivity.
      by rewrite (st_bind_Some _ _ _ _ _ E).
  - intros Hne. destruct l as [|g gs]; [done|].
    assert (Hne' : [] ++ g :: gs <> []) by (by simpl).
    destruct (cyc_other _ [] e (g :: gs) Hc Hnd Hne') as (a & b & Hpf & Hnf & Ha & Hbin & Hhd).
    simpl in Ha, Hbin, Hhd. injection Hhd as <-.
    assert (Hea : e <> a) by (by intros ->). assert (Heg : e <> g) by (intros ->; apply He; by left).
    assert (Hna : node (e_links s) a) by (eapply cyc_node; [exact Hc|by right]). destruct Hna as [[an Hna] _].
    assert (Hng : node (e_links s) g) by (eapply cyc_node; [exact Hc|right; by left]). destruct Hng as [_ [gp Hgp]].
    destruct (Hb e ltac:(by left)) as [be Hbe]. unfold pth_event_free. eexists. split.
    + erewrite st_bind_Some by (apply x_evlinks; do 5 lstep; eapply x_wprev; lookup_upd).
      cbn [e_links e_body e_keys e_keyvar].
      erewrite st_bind_Some by (unfold free_event; cbn [e_body]; rewrite Hbe; reflexivity). reflexivity.
    + cbn [e_links e_body e_keys e_keyvar nxt prv]. split; [|done]. constructor; cbn [e_links e_body].
      * eapply cyc_frame; [|exact (cyc_unlink_head _ e g gs a Hc Hnd Hpf)].
        intros x Hx. simpl. rewrite !(lookup_delete_ne _ e) by (by intros ->). done.
      * by apply NoDup_cons in Hnd as [_ ?].
      * intros x Hx. simpl. rewrite lookup_delete_ne by (by intros ->). apply Hb. by right.
Qed.

(** ** Witnesses *)

(** A ring of the events 1 and 2, of which 2 has occurred, and a ring of 3. *)
Definition demo_evst : evst :=
  Evst (Dll {[ 1%positive := Some 2%positive; 2%positive := Some 1%positive; 3%positive := Some 3%positive ]}
            {[ 1%positive := Some 2%positive; 2%positive := Some 1%positive; 3%positive := Some 3%positive ]})
       {[ 1%positive := Event PTH_STATUS_PENDING PTH_EVENT_FD PTH_UNTIL_FD_READABLE (AFD 4);
          2%positive := Event PTH_STATUS_OCCURRED PTH_EVENT_TIME 0 (ATIME pth_time_zero);
          3%positive := Event PTH_STATUS_PENDING PTH_EVENT_NOTIFY 0 (ANOTIFY NULL) ]}
       (Kstate [] ∅ 1 tt) ∅.

Lemma demo_ring12 : ev_ring demo_evst [1%positive; 2%positive].
Proof.
  constructor.
  - unfold cyc. simpl. by split_and!.
  - by apply (bool_decide_unpack _).
  - intros a [->| ->%list_elem_of_singleton]%elem_of_cons; by eexists.
Qed.
Lemma demo_ring3 : ev_ring demo_evst [3%positive].
Proof.
  constructor; [unfold cyc; by simpl|by apply (bool_decide_unpack _)|].
  intros a ->%list_elem_of_singleton. by eexists.
Qed.

Definition fcntl_ok (fd : Z) : Z * errno := (0, EBADF).
Definition fcntl_bad (fd : Z) : Z * errno := (-1, EBADF).

Lemma event_create_correct_witness :
  exists s', pth_event fcntl_ok 9 (Z.lor PTH_EVENT_FD (Z.lor PTH_UNTIL_FD_READABLE PTH_MODE_CHAIN)) NULL 8
      (Some 1%positive) (AFD 5) (Some 4%positive) true demo_evst = Some (ok (Some 4%positive), s') /\
    ev_ring s' [1%positive; 2%positive; 4%positive] /\ ev_ring s' [3%positive].
Proof.
  destruct (event_create_correct fcntl_ok 9 (Z.lor PTH_EVENT_FD (Z.lor PTH_UNTIL_FD_READABLE PTH_MODE_CHAIN)) 8
    1 [2%positive] (AFD 5) 4 demo_evst PTH_EVENT_FD PTH_UNTIL_FD_READABLE (AFD 5))
    as (s' & E & _ & Hr & Hf).
  - reflexivity.
  - reflexivity.
  - reflexivity.
  - apply demo_ring12.
  - reflexivity.
  - exists s'. split; [exact E|]. split; [exact Hr|].
    apply Hf; [apply demo_ring3|by apply (bool_decide_unpack _)|].
    intros x ->%list_elem_of_singleton. by apply (bool_decide_unpack _).
Defined.

Lemma event_concat_isolate_witness :
  exists s1, pth_event_concat (Some 3%positive) [1%positive] demo_evst = Some (ok (Some 3%positive), s1) /\
    ev_ring s1 [3%positive; 1%positive; 2%positive] /\
    exists s2, pth_event_isolate (Some 3%positive) s1 = Some (ok (Some 1%positive), s2) /\
      ev_ring s2 [3%positive] /\ ev_ring s2 [1%positive; 2%positive].
Proof.
  destruct (event_concat_isolate demo_evst 3 [] [(1%positive, [2%positive])]) as (s1 & E & Hr & _ & Hi).
  - apply demo_ring3.
  - constructor; [apply demo_ring12|constructor].
  - by apply (bool_decide_unpack _).
  - exists s1. split; [exact E|]. split; [exact Hr|].
    destruct (Hi 1%positive [2%positive]) as (s2 & E2 & H1 & H2 & _); [reflexivity|reflexivity|].
    exists s2. split; [exact E2|]. split; [exact H1|exact H2].
Defined.

Lemma event_walk_correct_witness :
  pth_event_walk 1 (Some 1%positive) (Z.lor PTH_WALK_NEXT PTH_UNTIL_OCCURRED) demo_evst
    = Some (ok (Some 2%positive), demo_evst).
Proof.
  destruct (event_walk_correct demo_evst 1 [2%positive] demo_ring12) as (_ & H & _).
  apply (H [] 2%positive [1%positive]); [reflexivity|constructor|reflexivity].
Defined.

Lemma event_wait_loops_witness :
  count_nonpending 1 (Some 1%positive) (Some 1%positive) 0 demo_evst = Some (1, demo_evst).
Proof.
  destruct (event_wait_loops demo_evst 1 [2%positive]) as [_ H]; [apply demo_ring12|reflexivity|]. exact H.
Defined.

Lemma event_free_correct_witness :
  exists s', pth_event_free (Some 1%positive) PTH_FREE_ALL demo_evst = Some (ok true, s') /\
    e_body s' !! 1%positive = None /\ e_body s' !! 2%positive = None /\
    is_Some (e_body s' !! 3%positive).
Proof.
  destruct (event_free_correct demo_evst 1 [2%positive] demo_ring12) as [(s' & E & H) _].
  exists s'. split; [exact E|]. rewrite !H. split; [reflexivity|]. split; [reflexivity|by eexists].
Defined.

(** [ev_goal] of a [PTH_EVENT_TID] event is a thread state, not one of the
    [PTH_UNTIL_TID_XX] flags, so [pth_event_typeof] of an event for the state
    [PTH_STATE_READY] has the bit of [PTH_EVENT_FD] and no goal flag. *)
Lemma typeof_tid_confused :
  exists s1 r s2, pth_event fcntl_ok 9 (Z.lor PTH_EVENT_TID PTH_UNTIL_TID_READY) NULL 8 NULL (ATID NULL)
      (Some 4%positive) true demo_evst = Some (ok (Some 4%positive), s1) /\
    pth_event_typeof (Some 4%positive) s1 = Some (r, s2) /\
    has r.1 PTH_EVENT_FD = true /\ has r.1 PTH_UNTIL_TID_READY = false.
Proof. do 3 eexists. split_and!; vm_compute; reflexivity. Qed.

(** A chained event for a bad descriptor: the call fails, but the event stays
    allocated and in the ring, without a type. *)
Lemma bad_fd_stays_chained :
  exists s1, pth_event fcntl_bad 9 (Z.lor PTH_EVENT_FD PTH_MODE_CHAIN) NULL 8 (Some 3%positive) (AFD 77)
      (Some 4%positive) true demo_evst = Some (pth_error NULL EBADF, s1) /\
    nxt (e_links s1) !! 3%positive = Some (Some 4%positive) /\
    e_body s1 !! 4%positive = Some (Event PTH_STATUS_PENDING 0 0 ANone).
Proof. eexists. split_and!; vm_compute; reflexivity. Qed.
