(* ===== verification/Inbox.v ===== *)
(** * The wakeup inbox of a scheduler (src/pth_sched.c, lines 156-180, 284-448)

    The inbox is a stack of messages that any OS thread pushes to with a
    compare-and-swap loop and that its scheduler empties with one exchange.
    The operations are split where another OS thread can come in between; the
    system at the end runs any number of producers against the consumer. *)

From stdpp Require Import base numbers functions gmap list.
From S2P Require Import Prelude.
Open Scope Z_scope.

(** ** Messages *)

Inductive gkind :=
| PTH_GMSG_WAKE | PTH_GMSG_SPAWN | PTH_GMSG_STOP | PTH_GMSG_REAP | PTH_GMSG_CANCEL
| PTH_GMSG_RAISE | PTH_GMSG_SUSPEND | PTH_GMSG_RESUME | PTH_GMSG_FAVOR | PTH_GMSG_ABORT.
#[export] Instance gkind_eq_dec : EqDecision gkind.
Proof. solve_decision. Defined.

(** [struct pth_gmsg_st]: the payload, and a node with its linkage. *)
Record gbody := Gbody { g_kind : gkind; g_thread : ptr; g_event : ptr; g_sig : Z }.
Record gmsg := Gmsg { m_next : ptr; m_body : gbody }.

(** The messages in memory, the inbox of each scheduler and the bytes in its
    signal pipe. *)
Record iheap := IHeap { i_nodes : gmap addr gmsg; i_inbox : gmap addr ptr; i_pipe : gmap addr Z }.

(** A pipe that is full takes no more bytes (the descriptors are
    non-blocking). *)
Definition PIPE_CAP : Z := 65536.

Definition rd_inbox (g : addr) : st iheap ptr :=
  fun h => match i_inbox h !! g with Some x => Some (x, h) | None => None end.
Definition wr_inbox (g : addr) (x : ptr) : st iheap unit :=
  fun h => match i_inbox h !! g with
           | Some _ => Some (tt, IHeap (i_nodes h) (<[g := x]> (i_inbox h)) (i_pipe h))
           | None => None end.
Definition rd_msg (p : ptr) : st iheap gmsg :=
  fun h => match p with
           | Some a => match i_nodes h !! a with Some x => Some (x, h) | None => None end
           | None => None end.
Definition wr_mnext (p : ptr) (v : ptr) : st iheap unit :=
  fun h => match p with
           | Some a => match i_nodes h !! a with
                       | Some x => Some (tt, IHeap (<[a := Gmsg v (m_body x)]> (i_nodes h)) (i_inbox h) (i_pipe h))
                       | None => None end
           | None => None end.
Definition free_msg (p : ptr) : st iheap unit :=
  fun h => match p with
           | Some a => match i_nodes h !! a with
                       | Some _ => Some (tt, IHeap (delete a (i_nodes h)) (i_inbox h) (i_pipe h))
                       | None => None end
           | None => None end.

(** ** Posting *)

(** [malloc] gave [alloc]; the fields are filled in. *)
Definition post_new (alloc : ptr) (b : gbody) : st iheap ptr :=
  fun h => match alloc with
           | Some a => Some (alloc, IHeap (<[a := Gmsg NULL b]> (i_nodes h)) (i_inbox h) (i_pipe h))
           | None => Some (NULL, h) end.
Definition post_load (g : addr) (m : ptr) : st iheap ptr :=
  head ← rd_inbox g; wr_mnext m head;; mret head.
Definition post_cas (g : addr) (head m : ptr) : st iheap bool :=
  x ← rd_inbox g;
  if bool_decide (x = head) then wr_inbox g m;; mret true else mret false.
Definition write_pipe (g : addr) : st iheap unit :=
  fun h => match i_pipe h !! g with
           | Some n => Some (tt, IHeap (i_nodes h) (i_inbox h) (<[g := Z.min PIPE_CAP (n + 1)]> (i_pipe h)))
           | None => None end.
Definition post_kick (active g : addr) : st iheap unit :=
  if bool_decide (g <> active) then write_pipe g else mret tt.

(** The compare-and-swap loop; run without interference it ends in its first
    round. *)
Fixpoint post_loop (fuel : nat) (g : addr) (m : ptr) : st iheap unit :=
  head ← post_load g m;
  c ← post_cas g head m;
  if (c : bool) then mret tt else match fuel with O => undef | S fuel' => post_loop fuel' g m end.

Definition post_body (alloc : ptr) (active g : addr) (b : gbody) : st iheap bool :=
  m ← post_new alloc b;
  match m with
  | None => mret false
  | Some _ => post_loop 0 g m;; post_kick active g;; mret true
  end.
Definition pth_gsched_post (alloc : ptr) (active g : addr) (kind : gkind) (t ev : ptr) : st iheap bool :=
  post_body alloc active g (Gbody kind t ev 0).
Definition pth_gsched_wake (alloc : ptr) (active g : addr) (t ev : ptr) : st iheap bool :=
  pth_gsched_post alloc active g PTH_GMSG_WAKE t ev.
Definition pth_gsched_post_raise (alloc : ptr) (active g : addr) (t : ptr) (sig : Z) : st iheap bool :=
  post_body alloc active g (Gbody PTH_GMSG_RAISE t NULL sig).

(** A byte to every scheduler of the table but the own one. *)
Fixpoint kick_list (self : addr) (tab : list ptr) : st iheap unit :=
  match tab with
  | [] => mret tt
  | o :: tab' =>
      (match o with
       | Some g => if bool_decide (g <> self) then write_pipe g else mret tt
       | None => mret tt
       end : st iheap unit);;
      kick_list self tab'
  end.
(** [tab] is the registry of the schedulers, the primary one [pri] in slot 0
    whatever the table says. *)
Definition pth_gsched_kick_others (self pri : addr) (tab : list ptr) : st iheap unit :=
  match tab with [] => mret tt | _ :: tab' => kick_list self (Some pri :: tab') end.

(** ** Draining *)

Definition drain_xchg (g : addr) : st iheap ptr :=
  m ← rd_inbox g; wr_inbox g NULL;; mret m.

Fixpoint drain_reverse (fuel : nat) (m rev : ptr) : st iheap ptr :=
  match m with
  | None => mret rev
  | Some _ =>
      x ← rd_msg m; wr_mnext m rev;;
      match fuel with O => undef | S fuel' => drain_reverse fuel' (m_next x) m end
  end.

(** The loop that applies the messages, on a state [W] that has the messages
    as a part; [handle] is what it does with one. *)
Section drain.
Context {W : Type} (w_inb : W -> iheap) (w_set : iheap -> W -> W) (handle : gbody -> st W unit).

Definition on_inb {A : Type} (m : st iheap A) : st W A := zoom w_inb w_set m.

Fixpoint drain_apply (fuel : nat) (rev : ptr) (any : bool) : st W bool :=
  match rev with
  | None => mret any
  | Some _ =>
      x ← on_inb (rd_msg rev);
      handle (m_body x);;
      on_inb (free_msg rev);;
      match fuel with O => undef | S fuel' => drain_apply fuel' (m_next x) true end
  end.

(** [fuel]: the number of messages in memory. *)
Definition pth_gsched_drain (g : addr) : st W bool :=
  m ← on_inb (drain_xchg g);
  w ← get_st;
  rev ← on_inb (drain_reverse (size (i_nodes (w_inb w))) m NULL);
  drain_apply (size (i_nodes (w_inb w))) rev false.
End drain.

Definition read_pipe (g : addr) : st iheap unit :=
  fun h => match i_pipe h !! g with
           | Some _ => Some (tt, IHeap (i_nodes h) (i_inbox h) (<[g := 0]> (i_pipe h)))
           | None => None end.

(** ** The stack in memory *)

Lemma fmap_rev {A B : Type} (f : A -> B) (l : list A) : f <$> rev l = rev (f <$> l).
Proof. induction l as [|x l IH]; [done|]. cbn [rev]. by rewrite fmap_app, IH. Qed.

Fixpoint istack (n : gmap addr gmsg) (x : ptr) (l : list (addr * gbody)) : Prop :=
  match l with
  | [] => x = NULL
  | (a, b) :: l' => x = Some a /\ exists y, n !! a = Some (Gmsg y b) /\ istack n y l'
  end.

Lemma istack_frame n n' x l :
  (forall a, a ∈ l.*1 -> n' !! a = n !! a) -> istack n x l -> istack n' x l.
Proof.
  revert x. induction l as [|[a b] l IH]; intros x H; cbn [istack]; [done|].
  intros (-> & y & Hy & Hl). split; [done|]. exists y. rewrite H by (cbn; by left).
  split; [done|]. apply IH; [|done]. intros a' Ha. apply H. cbn. by right.
Qed.
Lemma istack_insert n x l a v : a ∉ l.*1 -> istack n x l -> istack (<[a := v]> n) x l.
Proof. intros Ha. apply istack_frame. intros a' Ha'. rewrite lookup_insert_ne; [done|by intros ->]. Qed.
Lemma istack_delete n x l a : a ∉ l.*1 -> istack n x l -> istack (delete a n) x l.
Proof. intros Ha. apply istack_frame. intros a' Ha'. rewrite lookup_delete_ne; [done|by intros ->]. Qed.
Lemma istack_in n x l a : istack n x l -> a ∈ l.*1 -> is_Some (n !! a).
Proof.
  revert x. induction l as [|[a' b] l IH]; intros x; [intros _ H; by apply not_elem_of_nil in H|].
  intros (-> & y & Hy & Hl) [->|Ha]%elem_of_cons; [by eexists|by eapply IH].
Qed.
Lemma istack_size n x l : NoDup l.*1 -> istack n x l -> (length l <= size n)%nat.
Proof.
  intros Hnd Hl. rewrite <- (length_fmap fst), <- (size_list_to_set (C := gset addr)) by done.
  rewrite <- (size_dom n). apply subseteq_size. intros a Ha%elem_of_list_to_set.
  apply elem_of_dom. by eapply istack_in.
Qed.

(** ** The operations on a represented stack *)

Lemma x_rd_inbox h g x : i_inbox h !! g = Some x -> rd_inbox g h = Some (x, h).
Proof. intros H. unfold rd_inbox. by rewrite H. Qed.
Lemma x_wr_inbox h g x y : i_inbox h !! g = Some x ->
  wr_inbox g y h = Some (tt, IHeap (i_nodes h) (<[g := y]> (i_inbox h)) (i_pipe h)).
Proof. intros H. unfold wr_inbox. by rewrite H. Qed.
Lemma x_rd_msg h a x : i_nodes h !! a = Some x -> rd_msg (Some a) h = Some (x, h).
Proof. intros H. unfold rd_msg. by rewrite H. Qed.
Lemma x_wr_mnext h a x v : i_nodes h !! a = Some x ->
  wr_mnext (Some a) v h = Some (tt, IHeap (<[a := Gmsg v (m_body x)]> (i_nodes h)) (i_inbox h) (i_pipe h)).
Proof. intros H. unfold wr_mnext. by rewrite H. Qed.
Lemma x_free_msg h a x : i_nodes h !! a = Some x ->
  free_msg (Some a) h = Some (tt, IHeap (delete a (i_nodes h)) (i_inbox h) (i_pipe h)).
Proof. intros H. unfold free_msg. by rewrite H. Qed.

Lemma post_load_ok h g m x v : i_inbox h !! g = Some x -> i_nodes h !! m = Some v ->
  post_load g (Some m) h = Some (x, IHeap (<[m := Gmsg x (m_body v)]> (i_nodes h)) (i_inbox h) (i_pipe h)).
Proof.
  intros Hx Hm. unfold post_load. rewrite (st_bind_Some _ _ _ _ _ (x_rd_inbox h g x Hx)).
  by rewrite (st_bind_Some _ _ _ _ _ (x_wr_mnext h m v x Hm)).
Qed.
Lemma post_cas_ok h g m x head : i_inbox h !! g = Some x ->
  post_cas g head (Some m) h =
    Some (bool_decide (x = head),
          if bool_decide (x = head) then IHeap (i_nodes h) (<[g := Some m]> (i_inbox h)) (i_pipe h) else h).
Proof.
  intros Hx. unfold post_cas. rewrite (st_bind_Some _ _ _ _ _ (x_rd_inbox h g x Hx)).
  case_bool_decide; [|done]. by rewrite (st_bind_Some _ _ _ _ _ (x_wr_inbox h g x _ Hx)).
Qed.
Lemma drain_xchg_ok h g x : i_inbox h !! g = Some x ->
  drain_xchg g h = Some (x, IHeap (i_nodes h) (<[g := NULL]> (i_inbox h)) (i_pipe h)).
Proof.
  intros Hx. unfold drain_xchg. rewrite (st_bind_Some _ _ _ _ _ (x_rd_inbox h g x Hx)).
  by rewrite (st_bind_Some _ _ _ _ _ (x_wr_inbox h g x NULL Hx)).
Qed.

(** Reversing: the messages of [m] end up in front of those of [r], the other
    way round; only their linkage changes. *)
Lemma drain_reverse_ok h m r lm lr fuel :
  istack (i_nodes h) m lm -> istack (i_nodes h) r lr -> NoDup (lm ++ lr).*1 -> (length lm <= fuel)%nat ->
  exists n' x, drain_reverse fuel m r h = Some (x, IHeap n' (i_inbox h) (i_pipe h)) /\
    istack n' x (rev lm ++ lr) /\
    (forall a, a ∉ lm.*1 -> n' !! a = i_nodes h !! a) /\ dom n' = dom (i_nodes h).
Proof.
  revert h m r lr fuel. induction lm as [|[a b] lm IH]; intros h m r lr fuel Hm Hr Hnd Hf.
  - cbn in Hm. subst m. exists (i_nodes h), r. destruct fuel, h; done.
  - destruct Hm as (-> & y & Hy & Hm). destruct fuel as [|fuel]; [cbn in Hf; lia|].
    cbn [app] in Hnd. rewrite fmap_cons in Hnd. apply NoDup_cons in Hnd as [Ha Hnd].
    cbn [fst] in Ha. rewrite fmap_app in Ha. apply not_elem_of_app in Ha as [Ha1 Ha2].
    set (h1 := IHeap (<[a := Gmsg r b]> (i_nodes h)) (i_inbox h) (i_pipe h)).
    destruct (IH h1 y (Some a) ((a, b) :: lr) fuel) as (n' & x & E & Hx & Hfr & Hdom).
    + by apply istack_insert.
    + split; [done|]. exists r. unfold h1; cbn. rewrite lookup_insert_eq. split; [done|]. by apply istack_insert.
    + rewrite fmap_app, fmap_cons. cbn [fst]. rewrite <- Permutation_middle, <- fmap_app. apply NoDup_cons.
      split; [|done]. rewrite fmap_app. by apply not_elem_of_app.
    + cbn in Hf. lia.
    + exists n', x. split_and!.
      * cbn [drain_reverse]. rewrite (st_bind_Some _ _ _ _ _ (x_rd_msg h a _ Hy)).
        rewrite (st_bind_Some _ _ _ _ _ (x_wr_mnext h a _ r Hy)). exact E.
      * cbn [rev]. by rewrite <- app_assoc.
      * intros a' Ha'. rewrite fmap_cons, not_elem_of_cons in Ha'. destruct Ha' as [Hne Hni].
        rewrite Hfr by done. unfold h1; cbn. by rewrite lookup_insert_ne.
      * rewrite Hdom. unfold h1; cbn. apply dom_insert_lookup_L. by eexists.
Qed.

(** Posting without interference: the message is on top, the others are
    untouched. *)
Lemma post_loop_ok h g m v x l fuel :
  i_inbox h !! g = Some x -> i_nodes h !! m = Some v -> istack (i_nodes h) x l -> m ∉ l.*1 ->
  exists h', post_loop fuel g (Some m) h = Some (tt, h') /\
    i_inbox h' = <[g := Some m]> (i_inbox h) /\ i_pipe h' = i_pipe h /\
    i_nodes h' = <[m := Gmsg x (m_body v)]> (i_nodes h) /\
    istack (i_nodes h') (Some m) ((m, m_body v) :: l).
Proof.
  intros Hx Hm Hl Hni.
  set (h1 := IHeap (<[m := Gmsg x (m_body v)]> (i_nodes h)) (i_inbox h) (i_pipe h)).
  exists (IHeap (i_nodes h1) (<[g := Some m]> (i_inbox h1)) (i_pipe h1)). split_and!; try done.
  - destruct fuel; cbn [post_loop]; rewrite (st_bind_Some _ _ _ _ _ (post_load_ok h g m x v Hx Hm));
      rewrite (st_bind_Some _ _ _ _ _ (post_cas_ok h1 g m x x Hx)); by rewrite bool_decide_eq_true_2.
  - cbn. split; [done|]. exists x. rewrite lookup_insert_eq. split; [done|]. by apply istack_insert.
Qed.

(** The own inbox holds [l]; the schedulers of [G] have an inbox and a
    pipe. *)
Record inbox_ok (G : gset addr) (g : addr) (h : iheap) (l : list (addr * gbody)) : Prop := {
  io_stack : exists x, i_inbox h !! g = Some x /\ istack (i_nodes h) x l;
  io_nodup : NoDup l.*1;
  io_all : forall o, o ∈ G -> is_Some (i_inbox h !! o) /\ is_Some (i_pipe h !! o);
  io_self : g ∈ G
}.

Lemma inbox_ok_frame G g h n' l :
  (forall a, a ∈ l.*1 -> n' !! a = i_nodes h !! a) -> inbox_ok G g h l -> inbox_ok G g (IHeap n' (i_inbox h) (i_pipe h)) l.
Proof.
  intros H [(x & Hx & Hst) Hnd Hall Hself]. constructor; try done. exists x. split; [done|]. by eapply istack_frame.
Qed.

(** Posting with what [malloc] gave. *)
Lemma post_body_ok G g h l alloc o b :
  inbox_ok G g h l -> o ∈ G -> (forall a, alloc = Some a -> i_nodes h !! a = None) ->
  exists h' new, post_body alloc g o b h = Some (bool_decide (alloc <> None), h') /\
    inbox_ok G g h' (new ++ l) /\ (forall a, is_Some (i_nodes h !! a) -> i_nodes h' !! a = i_nodes h !! a) /\
    (forall a, a ∈ new.*1 -> i_nodes h !! a = None) /\
    new = match alloc with Some a => if bool_decide (o = g) then [(a, b)] else [] | None => [] end.
Proof.
  intros [(x & Hx & Hst) Hnd Hall Hself] Ho Hal. destruct alloc as [a|]; cbn [post_new].
  2: { exists h, []. split_and!; try done; [|by intros ? ?%not_elem_of_nil]. constructor; try done. by exists x. }
  specialize (Hal a eq_refl). destruct (Hall o Ho) as [[xo Hxo] [n Hn]].
  assert (Hani : a ∉ l.*1) by (intros Hin; destruct (istack_in _ _ _ _ Hst Hin) as [? E]; by rewrite E in Hal).
  set (h1 := IHeap (<[a := Gmsg NULL b]> (i_nodes h)) (i_inbox h) (i_pipe h)).
  set (h2 := IHeap (<[a := Gmsg xo b]> (i_nodes h1)) (<[o := Some a]> (i_inbox h)) (i_pipe h)).
  assert (E2 : post_loop 0 o (Some a) h1 = Some (tt, h2)).
  { cbn [post_loop]. rewrite (st_bind_Some _ _ _ _ _ (post_load_ok h1 o a xo _ Hxo (lookup_insert_eq _ _ _))).
    rewrite (st_bind_Some _ _ _ _ _ (post_cas_ok (IHeap (i_nodes h2) (i_inbox h) (i_pipe h)) o a xo xo Hxo)).
    by rewrite bool_decide_eq_true_2. }
  set (p3 := if bool_decide (o <> g) then <[o := Z.min PIPE_CAP (n + 1)]> (i_pipe h) else i_pipe h).
  exists (IHeap (i_nodes h2) (i_inbox h2) p3), (if bool_decide (o = g) then [(a, b)] else []). split_and!.
  - unfold post_body. rewrite (st_bind_Some (post_new (Some a) b) _ h (Some a) h1 eq_refl).
    rewrite (st_bind_Some _ _ _ _ _ E2). unfold post_kick, p3. case_bool_decide.
    + unfold mbind, st_bind, write_pipe, h2. cbn. by rewrite Hn.
    + done.
  - assert (Hni2 : forall a', a' ∈ l.*1 -> i_nodes h2 !! a' = i_nodes h !! a').
    { intros a' Ha'. unfold h2, h1. cbn. rewrite !lookup_insert_ne by congruence. done. }
    assert (Hall2 : forall o', o' ∈ G -> is_Some (i_inbox h2 !! o') /\ is_Some (p3 !! o')).
    { intros o' Ho'. destruct (Hall o' Ho') as [H1 H2]. unfold h2, p3. cbn. split.
      - destruct (decide (o' = o)) as [->|?]; [rewrite lookup_insert_eq; by eexists|by rewrite lookup_insert_ne].
      - case_bool_decide; [|done]. destruct (decide (o' = o)) as [->|?]; [rewrite lookup_insert_eq; by eexists|by rewrite lookup_insert_ne]. }
    case_bool_decide as Hog.
    + subst o. simplify_eq. constructor; cbn [app]; [|by apply NoDup_cons|done|done].
      exists (Some a). cbn. rewrite lookup_insert_eq. split; [done|]. split; [done|]. exists x.
      rewrite lookup_insert_eq. split; [done|]. eapply istack_frame; [|exact Hst]. exact Hni2.
    + constructor; [|done|done|done]. exists x. cbn. rewrite lookup_insert_ne by done. split; [done|].
      eapply istack_frame; [|exact Hst]. exact Hni2.
  - intros a' Ha'. cbn. rewrite !lookup_insert_ne; [done|intros ->; by rewrite Hal in Ha'..].
  - intros a'. case_bool_decide; [|by intros ?%not_elem_of_nil]. cbn. by intros ->%list_elem_of_singleton.
  - done.
Qed.

(** The drain as a whole. [P rest] is kept by the handler of each message,
    where [rest] are the messages still to come; it says nothing about the
    inbox. A handler may post to the own inbox, unless they are all
    [silent]. *)
Section drain_spec.
Context {W : Type} (w_inb : W -> iheap) (w_set : iheap -> W -> W) (handle : gbody -> st W unit).
Context (w_get_set : forall h w, w_inb (w_set h w) = h).
Context (G : gset addr) (g : addr) (P : list gbody -> W -> Prop).
Context (P_set : forall l h w, P l w -> P l (w_set h w)).
Context (silent : Prop).
Context (handle_ok : forall b rest w l, P (b :: rest) w -> inbox_ok G g (w_inb w) l ->
  exists w' new, handle b w = Some (tt, w') /\ P rest w' /\ inbox_ok G g (w_inb w') (new ++ l) /\
    (forall a, is_Some (i_nodes (w_inb w) !! a) -> i_nodes (w_inb w') !! a = i_nodes (w_inb w) !! a) /\
    (forall a, a ∈ new.*1 -> i_nodes (w_inb w) !! a = None) /\ (silent -> new = [])).

Lemma x_on_inb {A : Type} (m : st iheap A) w a h : m (w_inb w) = Some (a, h) ->
  on_inb w_inb w_set m w = Some (a, w_set h w).
Proof. intros E. unfold on_inb, zoom. by rewrite E. Qed.

Lemma drain_apply_ok w rv l own any fuel :
  P l.*2 w -> inbox_ok G g (w_inb w) own -> NoDup l.*1 -> (forall a, a ∈ l.*1 -> a ∉ own.*1) ->
  istack (i_nodes (w_inb w)) rv l -> (length l <= fuel)%nat ->
  exists w' own', drain_apply w_inb w_set handle fuel rv any w
      = Some (bool_decide (l <> []) || any, w') /\ P [] w' /\ inbox_ok G g (w_inb w') own' /\ (silent -> own' = own).
Proof.
  revert w rv own any fuel. induction l as [|[a b] l IH]; intros w rv own any fuel HP Ho Hnd Hdis Hl Hf.
  - cbn in Hl. subst rv. exists w, own. by destruct fuel.
  - destruct Hl as (-> & y & Hy & Hl). rewrite fmap_cons in Hnd. apply NoDup_cons in Hnd as [Ha Hnd]. cbn [fst] in Ha.
    destruct fuel as [|fuel]; [cbn in Hf; lia|]. cbn [drain_apply].
    rewrite (st_bind_Some _ _ _ _ _ (x_on_inb _ _ _ _ (x_rd_msg (w_inb w) a _ Hy))). cbn [m_body m_next].
    set (w0 := w_set (w_inb w) w).
    assert (Hw0 : w_inb w0 = w_inb w) by apply w_get_set.
    destruct (handle_ok b l.*2 w0 own) as (w1 & new & E1 & HP1 & Ho1 & Hfr & Hnew & Hsil).
    { by apply P_set. } { by rewrite Hw0. }
    rewrite Hw0 in Hfr, Hnew. rewrite (st_bind_Some _ _ _ _ _ E1).
    assert (Hya : i_nodes (w_inb w1) !! a = Some (Gmsg y b)) by (rewrite Hfr; [done|by eexists]).
    rewrite (st_bind_Some _ _ _ _ _ (x_on_inb _ _ _ _ (x_free_msg (w_inb w1) a _ Hya))).
    assert (Hdis1 : forall a', is_Some (i_nodes (w_inb w) !! a') -> a' ∉ own.*1 -> a' ∉ (new ++ own).*1).
    { intros a' Hs Hn. rewrite fmap_app, not_elem_of_app. split; [|done]. intros Hin%Hnew. rewrite Hin in Hs. by destruct Hs. }
    destruct (IH (w_set (IHeap (delete a (i_nodes (w_inb w1))) (i_inbox (w_inb w1)) (i_pipe (w_inb w1))) w1)
                y (new ++ own) true fuel) as (w' & own' & E & HP' & Ho' & Hs').
    + by apply P_set.
    + rewrite w_get_set. apply inbox_ok_frame; [|done]. intros a' Ha'. rewrite lookup_delete_ne; [done|]. intros <-.
      revert Ha'. apply Hdis1; [by eexists|]. apply Hdis. cbn. by left.
    + done.
    + intros a' Ha'. apply Hdis1; [by eapply istack_in|]. apply Hdis. cbn. by right.
    + rewrite w_get_set. cbn. apply istack_delete; [done|]. eapply istack_frame; [|exact Hl].
      intros a' Ha'. apply Hfr. by eapply istack_in.
    + cbn in Hf. lia.
    + exists w', own'. split; [rewrite E, orb_true_r; by rewrite bool_decide_eq_true_2|]. split_and!; [done|done|].
      intros Hs. by rewrite (Hs' Hs), (Hsil Hs).
Qed.

Lemma drain_ok w l :
  P (rev l.*2) w -> inbox_ok G g (w_inb w) l ->
  exists w' own', pth_gsched_drain w_inb w_set handle g w = Some (bool_decide (l <> []), w') /\
    P [] w' /\ inbox_ok G g (w_inb w') own' /\ (silent -> own' = []).
Proof.
  intros HP [(x & Hx & Hst) Hnd Hall Hself]. unfold pth_gsched_drain.
  rewrite (st_bind_Some _ _ _ _ _ (x_on_inb _ _ _ _ (drain_xchg_ok (w_inb w) g x Hx))).
  set (w1 := w_set _ w).
  rewrite (st_bind_Some get_st _ w1 w1 w1 eq_refl).
  assert (Hw1 : w_inb w1 = IHeap (i_nodes (w_inb w)) (<[g := NULL]> (i_inbox (w_inb w))) (i_pipe (w_inb w)))
    by apply w_get_set.
  assert (Hnd0 : NoDup (l ++ []).*1) by (by rewrite app_nil_r).
  destruct (drain_reverse_ok (w_inb w1) x NULL l [] (size (i_nodes (w_inb w1)))) as (n' & y & E & Hy & _ & Hdom).
  { by rewrite Hw1. } { done. } { done. } { rewrite Hw1. by eapply istack_size. }
  rewrite (st_bind_Some _ _ _ _ _ (x_on_inb _ _ _ _ E)). rewrite app_nil_r in Hy.
  set (w2 := w_set _ w1).
  assert (Hw2 : w_inb w2 = IHeap n' (i_inbox (w_inb w1)) (i_pipe (w_inb w1))) by apply w_get_set.
  assert (Hpm : (rev l).*1 ≡ₚ l.*1) by (by rewrite <- Permutation_rev).
  destruct (drain_apply_ok w2 y (rev l) [] false (size (i_nodes (w_inb w1)))) as (w' & own' & E' & Ho').
  - rewrite fmap_rev. by apply P_set, P_set.
  - rewrite Hw2, Hw1. constructor; [|constructor| |done].
    + exists NULL. cbn. by rewrite lookup_insert_eq.
    + intros o Ho. destruct (Hall o Ho) as [H1 H2]. split; [|done]. cbn.
      destruct (decide (o = g)) as [->|?]; [rewrite lookup_insert_eq; by eexists|by rewrite lookup_insert_ne].
  - by rewrite Hpm.
  - intros a _ Hin. by apply not_elem_of_nil in Hin.
  - by rewrite Hw2.
  - rewrite length_rev, Hw1. by eapply istack_size.
  - exists w', own'. split; [|done]. rewrite E', orb_false_r. f_equal. f_equal.
    apply bool_decide_ext. split; intros Hn He; apply Hn; [by rewrite He|].
    apply (f_equal (@length _)) in He. rewrite length_rev in He. by destruct l.
Qed.
End drain_spec.

(** ** Producers against the consumer

    Producer 0 is the running thread (or a handler) of the consuming scheduler
    itself, the other producers are other OS threads. A message is in the
    ghost list [y_pushed] once its compare-and-swap succeeded and in [y_done]
    once it was applied. *)

Inductive ppc :=
| PIdle
| PLoop (m : addr) (b : gbody)
| PLoaded (m : addr) (b : gbody) (head : ptr)
| PPushed.

(** The consumer: its threads run; in the event manager before the pipe is
    cleared; before an exchange (the [first] one or the one after the sleep);
    reversing; applying; sleeping in poll(2), [d] if without blocking. *)
Inductive cpc :=
| CRun
| CTop (d : bool)
| CXchg (first d : bool)
| CRev (first d : bool) (m : ptr)
| CApply (first d any : bool) (rev : ptr)
| CSleep (d : bool).

Record isys := ISys {
  y_heap : iheap; y_prod : nat -> ppc; y_cons : cpc;
  y_pushed : list gbody; y_done : list gbody
}.

Definition may_post (p : nat) (c : cpc) : Prop :=
  p = O -> match c with CRun => True | CApply _ _ _ r => r <> NULL | _ => False end.

Section system.
Context (g other : addr).

Definition who (p : nat) : addr := match p with O => g | S _ => other end.

Inductive istep : isys -> isys -> Prop :=
| IS_new h h' pr c pu dn p a b :
    pr p = PIdle -> may_post p c -> i_nodes h !! a = None ->
    post_new (Some a) b h = Some (Some a, h') ->
    istep (ISys h pr c pu dn) (ISys h' (<[p := PLoop a b]> pr) c pu dn)
| IS_load h h' pr c pu dn p a b x :
    pr p = PLoop a b -> post_load g (Some a) h = Some (x, h') ->
    istep (ISys h pr c pu dn) (ISys h' (<[p := PLoaded a b x]> pr) c pu dn)
| IS_cas_ok h h' pr c pu dn p a b x :
    pr p = PLoaded a b x -> post_cas g x (Some a) h = Some (true, h') ->
    istep (ISys h pr c pu dn) (ISys h' (<[p := PPushed]> pr) c (pu ++ [b]) dn)
| IS_cas_fail h h' pr c pu dn p a b x :
    pr p = PLoaded a b x -> post_cas g x (Some a) h = Some (false, h') ->
    istep (ISys h pr c pu dn) (ISys h' (<[p := PLoop a b]> pr) c pu dn)
| IS_kick h h' pr c pu dn p :
    pr p = PPushed -> post_kick (who p) g h = Some (tt, h') ->
    istep (ISys h pr c pu dn) (ISys h' (<[p := PIdle]> pr) c pu dn)
| IS_enter h pr pu dn d :
    pr O = PIdle -> istep (ISys h pr CRun pu dn) (ISys h pr (CTop d) pu dn)
| IS_clear h h' pr pu dn d :
    read_pipe g h = Some (tt, h') ->
    istep (ISys h pr (CTop d) pu dn) (ISys h' pr (CXchg true d) pu dn)
| IS_xchg h h' pr pu dn f d m :
    drain_xchg g h = Some (m, h') ->
    istep (ISys h pr (CXchg f d) pu dn) (ISys h' pr (CRev f d m) pu dn)
| IS_rev h h' pr pu dn f d m r :
    drain_reverse (size (i_nodes h)) m NULL h = Some (r, h') ->
    istep (ISys h pr (CRev f d m) pu dn) (ISys h' pr (CApply f d false r) pu dn)
| IS_apply h h1 h' pr pu dn f d any a x :
    pr O = PIdle -> rd_msg (Some a) h = Some (x, h1) -> free_msg (Some a) h1 = Some (tt, h') ->
    istep (ISys h pr (CApply f d any (Some a)) pu dn)
          (ISys h' pr (CApply f d true (m_next x)) pu (dn ++ [m_body x]))
| IS_sleep h pr pu dn d any :
    istep (ISys h pr (CApply true d any NULL) pu dn) (ISys h pr (CSleep (d || any)) pu dn)
| IS_poll h pr pu dn d :
    istep (ISys h pr (CSleep d) pu dn) (ISys h pr (CXchg false d) pu dn)
| IS_leave h pr pu dn d any :
    istep (ISys h pr (CApply false d any NULL) pu dn) (ISys h pr CRun pu dn)
| IS_repeat h pr pu dn d any :
    istep (ISys h pr (CApply false d any NULL) pu dn) (ISys h pr (CTop d) pu dn).

Inductive ireach (s0 : isys) : isys -> Prop :=
| ireach_refl : ireach s0 s0
| ireach_step s s' : ireach s0 s -> istep s s' -> ireach s0 s'.

(** The start: nothing posted. *)
Record istart (s : isys) : Prop := {
  is_inbox : i_inbox (y_heap s) !! g = Some NULL;
  is_pipe : exists n, i_pipe (y_heap s) !! g = Some n /\ 0 <= n;
  is_prod : forall p, y_prod s p = PIdle;
  is_cons : y_cons s = CRun;
  is_hist : y_pushed s = [] /\ y_done s = []
}.

(** The message a producer still owns. *)
Definition owned (c : ppc) : option (addr * gbody * option ptr) :=
  match c with
  | PLoop m b => Some (m, b, None)
  | PLoaded m b x => Some (m, b, Some x)
  | _ => None
  end.
Definition in_hand (c : cpc) (lc : list (addr * gbody)) : list gbody :=
  match c with CRev _ _ _ => rev lc.*2 | _ => lc.*2 end.
Definition cons_rep (n : gmap addr gmsg) (c : cpc) (lc : list (addr * gbody)) : Prop :=
  match c with
  | CRev _ _ m => istack n m lc
  | CApply _ _ _ r => istack n r lc
  | _ => lc = []
  end.
(** Between the clearing of the pipe and a blocking sleep nothing was
    found. *)
Definition drowsy (c : cpc) : bool :=
  match c with
  | CRev true d m => negb d && bool_decide (m = NULL)
  | CApply true d any r => negb d && negb any && bool_decide (r = NULL)
  | CSleep d => negb d
  | _ => false
  end.

Record iinv (s : isys) (ls lc : list (addr * gbody)) : Prop := {
  ii_stack : exists x, i_inbox (y_heap s) !! g = Some x /\ istack (i_nodes (y_heap s)) x ls;
  ii_pipe : exists n, i_pipe (y_heap s) !! g = Some n /\ 0 <= n;
  ii_cons : cons_rep (i_nodes (y_heap s)) (y_cons s) lc;
  ii_hist : y_pushed s = y_done s ++ in_hand (y_cons s) lc ++ rev ls.*2;
  ii_nodup : NoDup (ls ++ lc).*1;
  ii_own : forall p m b x, owned (y_prod s p) = Some (m, b, x) ->
    m ∉ (ls ++ lc).*1 /\ exists n, i_nodes (y_heap s) !! m = Some (Gmsg n b) /\ forall y, x = Some y -> n = y;
  ii_inj : forall p q m b x b' x', owned (y_prod s p) = Some (m, b, x) -> owned (y_prod s q) = Some (m, b', x') -> p = q;
  ii_self : y_prod s O <> PIdle -> match y_cons s with CRun => True | CApply _ _ _ r => True | _ => False end;
  ii_selfr : forall f d any r, y_prod s O <> PIdle -> y_cons s = CApply f d any r -> r <> NULL;
  ii_wake : drowsy (y_cons s) = true -> ls <> [] ->
    (exists n, i_pipe (y_heap s) !! g = Some n /\ 0 < n) \/ exists p, p <> O /\ y_prod s p = PPushed
}.

Lemma start_inv s : istart s -> iinv s [] [].
Proof.
  intros [Hi Hp Hpr Hc [Hu Hd]].
  assert (Ho : forall p, owned (y_prod s p) = None) by (intros p; by rewrite Hpr).
  constructor; try (intros p; intros; by rewrite Ho in * ).
  - exists NULL. by split.
  - exact Hp.
  - by rewrite Hc.
  - by rewrite Hc, Hu, Hd.
  - constructor.
  - by rewrite Hpr.
  - intros f d any r H. by rewrite Hpr in H.
  - intros _ H. done.
Qed.

(** What changes when a producer only moves. *)
Lemma prod_at pr (p q : nat) (x : ppc) : (<[p := x]> pr : nat -> ppc) q = if decide (p = q) then x else pr q.
Proof. case_decide; [subst; apply fn_lookup_insert|by apply fn_lookup_insert_ne]. Qed.

Lemma cons_rep_frame n n' c lc :
  (forall a, a ∈ lc.*1 -> n' !! a = n !! a) -> cons_rep n c lc -> cons_rep n' c lc.
Proof. intros H. destruct c; cbn [cons_rep]; try done; by apply istack_frame. Qed.

(** The obligations of [iinv] that are the same for every move of a busy
    producer [p]: the last three. *)
Lemma wake_keep pr p x (A : Prop) : pr p <> PPushed ->
  A \/ (exists q, q <> O /\ pr q = PPushed) -> A \/ (exists q, q <> O /\ (<[p := x]> pr : nat -> ppc) q = PPushed).
Proof.
  intros Hp [?|(q & Hq & Hpu)]; [by left|right]. exists q. split; [done|].
  rewrite prod_at. case_decide; [congruence|done].
Qed.
Lemma self_keep pr (p : nat) x (A : Prop) : pr p <> PIdle ->
  (pr O <> PIdle -> A) -> (<[p := x]> pr : nat -> ppc) O <> PIdle -> A.
Proof. intros Hp H. rewrite prod_at. case_decide as Hq; [subst p; intros _; by apply H|exact H]. Qed.
Lemma inj_keep pr p c a b y :
  (forall p q m b x b' x', owned (pr p) = Some (m, b, x) -> owned (pr q) = Some (m, b', x') -> p = q) ->
  owned (pr p) = Some (a, b, y) -> (forall m b' x', owned c = Some (m, b', x') -> m = a) ->
  forall p' q m b x b' x', owned ((<[p := c]> pr : nat -> ppc) p') = Some (m, b, x) ->
    owned ((<[p := c]> pr : nat -> ppc) q) = Some (m, b', x') -> p' = q.
Proof.
  intros Hinj Hp Hc q1 q2 m b1 x1 b2 x2. rewrite !prod_at. repeat case_decide; subst; try done.
  - intros Hm Ho. apply Hc in Hm. subst m. by eapply Hinj.
  - intros Ho Hm. apply Hc in Hm. subst m. by eapply Hinj.
  - apply Hinj.
Qed.

Lemma new_inv h h' pr c pu dn p a b ls lc :
  pr p = PIdle -> may_post p c -> i_nodes h !! a = None -> post_new (Some a) b h = Some (Some a, h') ->
  iinv (ISys h pr c pu dn) ls lc -> iinv (ISys h' (<[p := PLoop a b]> pr) c pu dn) ls lc.
Proof.
  intros Hp Hmay Ha [= <-] [(x & Hx & Hst) Hpipe Hcons Hhist Hnd Hown Hinj Hself Hselfr Hwake]. cbn in *.
  assert (Hals : a ∉ ls.*1) by (intros Hin; destruct (istack_in _ _ _ _ Hst Hin) as [? E]; by rewrite E in Ha).
  assert (Halc : a ∉ lc.*1).
  { intros Hin. destruct c; cbn in Hcons; subst; try (by apply not_elem_of_nil in Hin);
      destruct (istack_in _ _ _ _ Hcons Hin) as [? E]; by rewrite E in Ha. }
  assert (Hno : forall q m b' x', owned (pr q) = Some (m, b', x') -> m <> a).
  { intros q m b' x' Hq ->. destruct (Hown q a b' x' Hq) as (_ & n & Hn & _). by rewrite Hn in Ha. }
  constructor; cbn; try done.
  - exists x. split; [done|]. by apply istack_insert.
  - eapply cons_rep_frame; [|done]. intros a' Ha'. rewrite lookup_insert_ne; [done|by intros ->].
  - intros q m b' x'. rewrite prod_at. case_decide as Hq; cbn.
    + intros [= <- <- <-]. split; [rewrite fmap_app, not_elem_of_app; done|]. exists NULL.
      by rewrite lookup_insert_eq.
    + intros Ho. destruct (Hown q m b' x' Ho) as (H1 & n & H2 & H3). split; [done|]. exists n.
      rewrite lookup_insert_ne by (intros ->; by apply (Hno q m b' x')). done.
  - intros q1 q2 m b1 x1 b2 x2. rewrite !prod_at. repeat case_decide; cbn; subst; try done.
    + intros [= <- <- <-] Ho. by apply Hno in Ho.
    + intros Ho [= <- <- <-]. by apply Hno in Ho.
    + apply Hinj.
  - rewrite prod_at. case_decide as Hq; [|done]. intros _. subst p. specialize (Hmay eq_refl). by destruct c.
  - intros f d any r. rewrite prod_at. case_decide as Hq; [|apply Hselfr].
    intros _ ->. subst p. by apply (Hmay eq_refl).
  - intros Hd Hl. apply wake_keep; [by rewrite Hp|by apply Hwake].
Qed.

Lemma load_inv h h' pr c pu dn p a b x ls lc :
  pr p = PLoop a b -> post_load g (Some a) h = Some (x, h') ->
  iinv (ISys h pr c pu dn) ls lc -> iinv (ISys h' (<[p := PLoaded a b x]> pr) c pu dn) ls lc.
Proof.
  intros Hp E [(x0 & Hx & Hst) Hpipe Hcons Hhist Hnd Hown Hinj Hself Hselfr Hwake]. cbn in *.
  destruct (Hown p a b None) as (Hni & n & Hn & _); [by rewrite Hp|].
  rewrite (post_load_ok h g a x0 _ Hx Hn) in E. injection E as <- <-. cbn [m_body] in *.
  rewrite fmap_app, not_elem_of_app in Hni. destruct Hni as [Hals Halc].
  constructor; cbn; try done.
  - exists x0. split; [done|]. by apply istack_insert.
  - eapply cons_rep_frame; [|done]. intros a' Ha'. rewrite lookup_insert_ne; [done|by intros ->].
  - intros q m b' x'. rewrite prod_at. case_decide as Hq; cbn.
    + intros [= <- <- <-]. split; [rewrite fmap_app, not_elem_of_app; done|]. exists x0.
      rewrite lookup_insert_eq. split; [done|]. by intros y [= ->].
    + intros Ho. destruct (Hown q m b' x' Ho) as (H1 & n' & H2 & H3). split; [done|]. exists n'.
      rewrite lookup_insert_ne; [done|]. intros ->. apply Hq. eapply (Hinj p q); [by rewrite Hp|exact Ho].
  - eapply inj_keep; [exact Hinj|by rewrite Hp|]. cbn. by intros ? ? ? [= <- _ _].
  - apply self_keep; [by rewrite Hp|done].
  - intros f d any r Hb Hc. revert Hb. apply self_keep; [by rewrite Hp|]. intros Hb. by eapply Hselfr.
  - intros Hd Hl. apply wake_keep; [by rewrite Hp|by apply Hwake].
Qed.

Lemma fail_inv h h' pr c pu dn p a b x ls lc :
  pr p = PLoaded a b x -> post_cas g x (Some a) h = Some (false, h') ->
  iinv (ISys h pr c pu dn) ls lc -> iinv (ISys h' (<[p := PLoop a b]> pr) c pu dn) ls lc.
Proof.
  intros Hp E [(x0 & Hx & Hst) Hpipe Hcons Hhist Hnd Hown Hinj Hself Hselfr Hwake]. cbn in *.
  rewrite (post_cas_ok h g a x0 x Hx) in E. case_bool_decide as Heq; [done|]. injection E as <-.
  constructor; cbn; try done.
  - by exists x0.
  - intros q m b' x'. rewrite prod_at. case_decide as Hq; cbn; [|apply Hown].
    intros [= <- <- <-]. destruct (Hown p a b (Some x)) as (H1 & n & H2 & _); [by rewrite Hp|]. split; [done|]. by exists n.
  - eapply inj_keep; [exact Hinj|by rewrite Hp|]. cbn. by intros ? ? ? [= <- _ _].
  - apply self_keep; [by rewrite Hp|done].
  - intros f d any r Hb Hc. revert Hb. apply self_keep; [by rewrite Hp|]. intros Hb. by eapply Hselfr.
  - intros Hd Hl. apply wake_keep; [by rewrite Hp|by apply Hwake].
Qed.

Lemma cas_inv h h' pr c pu dn p a b x ls lc :
  pr p = PLoaded a b x -> post_cas g x (Some a) h = Some (true, h') ->
  iinv (ISys h pr c pu dn) ls lc ->
  iinv (ISys h' (<[p := PPushed]> pr) c (pu ++ [b]) dn) ((a, b) :: ls) lc.
Proof.
  intros Hp E [(x0 & Hx & Hst) Hpipe Hcons Hhist Hnd Hown Hinj Hself Hselfr Hwake]. cbn in *.
  rewrite (post_cas_ok h g a x0 x Hx) in E. case_bool_decide as Heq; [|done]. injection E as <-. subst x0.
  destruct (Hown p a b (Some x)) as (Hni & n & Hn & Hnx); [by rewrite Hp|].
  rewrite (Hnx x eq_refl) in Hn. clear Hnx n.
  constructor; cbn; try done.
  - exists (Some a). rewrite lookup_insert_eq. split; [done|]. split; [done|]. by exists x.
  - rewrite Hhist, <- !app_assoc. done.
  - apply NoDup_cons. by split.
  - intros q m b' x'. rewrite prod_at. case_decide as Hq; cbn; [done|]. intros Ho.
    destruct (Hown q m b' x' Ho) as (H1 & H2). split; [|done]. apply not_elem_of_cons. split; [|done].
    intros ->. apply Hq. eapply (Hinj p q); [by rewrite Hp|exact Ho].
  - eapply inj_keep; [exact Hinj|by rewrite Hp|done].
  - apply self_keep; [by rewrite Hp|done].
  - intros f d any r Hb Hc. revert Hb. apply self_keep; [by rewrite Hp|]. intros Hb. by eapply Hselfr.
  - intros Hd _. right. exists p. rewrite prod_at, decide_True by done. split; [|done].
    intros ->. assert (Hb : pr O <> PIdle) by (by rewrite Hp). specialize (Hself Hb).
    destruct c as [| | | |f d any r|]; try done. cbn in Hd. destruct f; [|done].
    apply andb_true_iff in Hd as [_ Hr%bool_decide_eq_true]. by apply (Hselfr _ _ _ _ Hb eq_refl).
Qed.

Lemma kick_inv h h' pr c pu dn p ls lc : g <> other ->
  pr p = PPushed -> post_kick (who p) g h = Some (tt, h') ->
  iinv (ISys h pr c pu dn) ls lc -> iinv (ISys h' (<[p := PIdle]> pr) c pu dn) ls lc.
Proof.
  intros Hgo Hp E [(x0 & Hx & Hst) (n & Hn & Hn0) Hcons Hhist Hnd Hown Hinj Hself Hselfr Hwake]. cbn in *.
  assert (Hh : i_nodes h' = i_nodes h /\ i_inbox h' = i_inbox h /\
    exists n', i_pipe h' !! g = Some n' /\ 0 <= n' /\ (p <> O -> 0 < n') /\ (p = O -> n' = n)).
  { unfold post_kick in E. destruct p as [|p]; cbn [who] in E.
    - rewrite bool_decide_eq_false_2 in E by tauto. injection E as <-. split_and!; try done. by exists n.
    - rewrite bool_decide_eq_true_2 in E by congruence. unfold write_pipe in E. rewrite Hn in E. injection E as <-. cbn.
      split_and!; try done. exists (Z.min PIPE_CAP (n + 1)). rewrite lookup_insert_eq.
      unfold PIPE_CAP. split_and!; try done; lia. }
  destruct Hh as (Hnn & Hii & n' & Hn' & Hn0' & Hk & Hk0).
  constructor; cbn; rewrite ?Hnn, ?Hii; try done.
  - by exists x0.
  - by exists n'.
  - intros q m b x. rewrite prod_at. case_decide; [done|apply Hown].
  - intros q1 q2 m b1 x1 b2 x2. rewrite !prod_at. repeat case_decide; try done. apply Hinj.
  - rewrite prod_at. case_decide; [done|exact Hself].
  - intros f d any r. rewrite prod_at. case_decide; [done|apply Hselfr].
  - intros Hd Hl. destruct (decide (p = O)) as [->|Hp0].
    + rewrite (Hk0 eq_refl) in Hn'. destruct (Hwake Hd Hl) as [(n2 & Hn2 & Hpos)|(q & Hq & Hpu)].
      * left. exists n. simplify_eq. done.
      * right. exists q. rewrite prod_at. case_decide; [congruence|done].
    + left. exists n'. split; [done|]. by apply Hk.
Qed.

(** *** The consumer's moves *)

Lemma clear_inv h h' pr pu dn d ls lc :
  read_pipe g h = Some (tt, h') ->
  iinv (ISys h pr (CTop d) pu dn) ls lc -> iinv (ISys h' pr (CXchg true d) pu dn) ls lc.
Proof.
  unfold read_pipe. intros E [Hst (n & Hn & Hn0) Hcons Hhist Hnd Hown Hinj Hself Hselfr Hwake]. cbn in *.
  rewrite Hn in E. injection E as <-. constructor; cbn; try done.
  exists 0. by rewrite lookup_insert_eq.
Qed.

Lemma xchg_inv h h' pr pu dn f d m ls lc :
  drain_xchg g h = Some (m, h') ->
  iinv (ISys h pr (CXchg f d) pu dn) ls lc -> iinv (ISys h' pr (CRev f d m) pu dn) [] ls.
Proof.
  intros E [(x & Hx & Hst) Hpipe Hcons Hhist Hnd Hown Hinj Hself Hselfr Hwake]. cbn in *. subst lc.
  rewrite (drain_xchg_ok h g x Hx) in E. injection E as <- <-. rewrite app_nil_r in *. cbn [fmap list_fmap app] in Hhist.
  constructor; cbn; try done.
  - exists NULL. by rewrite lookup_insert_eq.
  - by rewrite app_nil_r.
Qed.

Lemma rev_inv h h' pr pu dn f d m r ls lc :
  drain_reverse (size (i_nodes h)) m NULL h = Some (r, h') ->
  iinv (ISys h pr (CRev f d m) pu dn) ls lc -> iinv (ISys h' pr (CApply f d false r) pu dn) ls (rev lc).
Proof.
  intros E [(x & Hx & Hst) Hpipe Hcons Hhist Hnd Hown Hinj Hself Hselfr Hwake]. cbn in *.
  rewrite fmap_app in Hnd. apply NoDup_app in Hnd as (Hnd1 & Hdis & Hnd2).
  destruct (drain_reverse_ok h m NULL lc [] (size (i_nodes h))) as (n' & y & E' & Hy & Hfr & Hdom); try done.
  { by rewrite app_nil_r. } { by eapply istack_size. }
  rewrite E in E'. injection E' as -> ->. rewrite app_nil_r in Hy.
  assert (Hdn : m = NULL <-> y = NULL).
  { destruct lc as [|[a b] lc]; cbn in Hcons; [subst m; cbn in Hy; by subst y|].
    destruct Hcons as (-> & _). split; [done|]. intros ->.
    destruct (rev ((a, b) :: lc)) as [|[a' b'] l'] eqn:Er; [|by destruct Hy].
    cbn in Er. by apply app_eq_nil in Er as [_ Er]. }
  assert (Hpm : (rev lc).*1 ≡ₚ lc.*1) by (by rewrite <- Permutation_rev).
  constructor; cbn; try done.
  - exists x. split; [done|]. eapply istack_frame; [|exact Hst]. intros a Ha. apply Hfr. by apply Hdis.
  - rewrite Hhist. by rewrite fmap_rev.
  - rewrite fmap_app, Hpm. apply NoDup_app. done.
  - intros p m' b x' Ho. destruct (Hown p m' b x' Ho) as (H1 & H2). rewrite fmap_app, not_elem_of_app in H1 |- *.
    rewrite Hpm. split; [done|]. rewrite Hfr by tauto. done.
  - intros Hd Hl. apply Hwake; [|done]. destruct f; [|done].
    apply andb_true_iff in Hd as [Hd Hr%bool_decide_eq_true]. rewrite andb_true_r in Hd. rewrite Hd. cbn.
    apply bool_decide_eq_true. by apply Hdn.
Qed.

Lemma apply_inv h h1 h' pr pu dn f d any a x ls lc :
  pr O = PIdle -> rd_msg (Some a) h = Some (x, h1) -> free_msg (Some a) h1 = Some (tt, h') ->
  iinv (ISys h pr (CApply f d any (Some a)) pu dn) ls lc ->
  iinv (ISys h' pr (CApply f d true (m_next x)) pu (dn ++ [m_body x])) ls (tail lc).
Proof.
  intros H0 E1 E2 [(y & Hy & Hst) Hpipe Hcons Hhist Hnd Hown Hinj Hself Hselfr Hwake]. cbn in *.
  destruct lc as [|[a' b] lc]; [done|]. destruct Hcons as ([= <-] & z & Hz & Hlc).
  rewrite Hz in E1. injection E1 as <- <-. rewrite Hz in E2. injection E2 as <-. cbn [tail m_next m_body].
  rewrite fmap_app, fmap_cons in Hnd. cbn [fst] in Hnd.
  assert (Ha : a ∉ ls.*1 /\ a ∉ lc.*1).
  { apply NoDup_app in Hnd as (_ & Hdis & [Hn _]%NoDup_cons). split; [|done]. intros Hin. apply (Hdis a Hin). by left. }
  destruct Ha as [Hals Halc].
  constructor; cbn; try done.
  - exists y. split; [done|]. by apply istack_delete.
  - by apply istack_delete.
  - rewrite Hhist. cbn. by rewrite <- app_assoc.
  - rewrite fmap_app. apply NoDup_app in Hnd as (Hn1 & Hdis & [_ Hn2]%NoDup_cons). apply NoDup_app. split_and!; [done| |done].
    intros a' Ha' Hin. apply (Hdis a' Ha'). by right.
  - intros p m' b' x' Ho. destruct (Hown p m' b' x' Ho) as (H1 & n & H2 & H3).
    rewrite fmap_app, fmap_cons, not_elem_of_app, not_elem_of_cons in H1. cbn [fst] in H1. destruct H1 as (H1 & Hne & H1').
    split; [rewrite fmap_app; by apply not_elem_of_app|]. exists n. by rewrite lookup_delete_ne.
  - destruct f; [|done]. rewrite andb_false_r. done.
Qed.

(** The moves that touch nothing but the consumer's place, when it holds no
    message. *)
Lemma move_inv h pr c c' pu dn ls lc :
  (forall n, cons_rep n c lc -> lc = []) -> (forall n, cons_rep n c' []) ->
  (drowsy c' = true -> drowsy c = true) -> (pr O = PIdle \/ c' = CRun) ->
  iinv (ISys h pr c pu dn) ls lc -> iinv (ISys h pr c' pu dn) ls [].
Proof.
  intros Hc Hc' Hd Hp [Hst Hpipe Hcons Hhist Hnd Hown Hinj Hself Hselfr Hwake]. cbn in *.
  apply Hc in Hcons. subst lc. constructor; cbn; try done.
  - rewrite Hhist. by destruct c, c'.
  - destruct Hp as [->| ->]; done.
  - intros f d any r Hb ->. by destruct Hp.
  - auto.
Qed.

Lemma istep_inv s s' ls lc : g <> other -> iinv s ls lc -> istep s s' -> exists ls' lc', iinv s' ls' lc'.
Proof.
  intros Hgo Hi Hs. destruct Hs.
  - eauto using new_inv.
  - eauto using load_inv.
  - eauto using cas_inv.
  - eauto using fail_inv.
  - eauto using kick_inv.
  - exists ls, []. eapply move_inv; [..|exact Hi]; cbn; auto; done.
  - eauto using clear_inv.
  - eauto using xchg_inv.
  - eauto using rev_inv.
  - eauto using apply_inv.
  - exists ls, []. eapply move_inv; [..|exact Hi]; cbn; auto.
    + intros n Hn. by destruct lc as [|[? ?] ?]; [|destruct Hn].
    + intros [H1 H2]%negb_true_iff%orb_false_iff. by subst.
    + left. destruct (pr O) eqn:E; [done|..]; exfalso; apply (ii_selfr _ _ _ Hi true d any NULL); cbn; by rewrite ?E.
  - exists ls, []. eapply move_inv; [..|exact Hi]; cbn; auto; try done.
    left. destruct (pr O) eqn:E; [done|..]; exfalso; apply (ii_self _ _ _ Hi); cbn; by rewrite ?E.
  - exists ls, []. eapply move_inv; [..|exact Hi]; cbn; auto; try done.
    intros n Hn. by destruct lc as [|[? ?] ?]; [|destruct Hn].
  - exists ls, []. eapply move_inv; [..|exact Hi]; cbn; auto; try done.
    + intros n Hn. by destruct lc as [|[? ?] ?]; [|destruct Hn].
    + left. destruct (pr O) eqn:E; [done|..]; exfalso; apply (ii_selfr _ _ _ Hi false d any NULL); cbn; by rewrite ?E.
Qed.

Lemma ireach_inv s0 s : g <> other -> istart s0 -> ireach s0 s -> exists ls lc, iinv s ls lc.
Proof.
  intros Hgo H0 Hr. induction Hr as [|s s' Hr (ls & lc & Hi) Hs].
  - exists [], []. by apply start_inv.
  - by eapply istep_inv.
Qed.

(** C26: in every interleaving of any number of posting OS threads with the
    scheduler that drains the inbox, messages are applied in the order in which
    their compare-and-swap succeeded, each once: those applied are an initial
    segment of those pushed, and while the scheduler's threads run all others
    are in the inbox. The next operation of every producer and of the drain is
    memory safe, also when a freed message's address is allocated again. *)
Theorem inbox_fifo s0 s :
  g <> other -> istart s0 -> ireach s0 s ->
  y_done s `prefix_of` y_pushed s /\
  (exists x l, i_inbox (y_heap s) !! g = Some x /\ istack (i_nodes (y_heap s)) x l /\ NoDup l.*1 /\
     (y_cons s = CRun -> y_pushed s = y_done s ++ rev l.*2)) /\
  (forall p a b, y_prod s p = PLoop a b -> is_Some (post_load g (Some a) (y_heap s))) /\
  (forall p a b x, y_prod s p = PLoaded a b x -> is_Some (post_cas g x (Some a) (y_heap s))) /\
  (forall f d m, y_cons s = CRev f d m -> is_Some (drain_reverse (size (i_nodes (y_heap s))) m NULL (y_heap s))) /\
  (forall f d any a, y_cons s = CApply f d any (Some a) -> is_Some (rd_msg (Some a) (y_heap s))).
Proof.
  intros Hgo H0 Hr. destruct (ireach_inv s0 s Hgo H0 Hr) as (ls & lc & [(x & Hx & Hst) _ Hc Hh Hnd Hown _ _ _ _]).
  assert (Hnd' := Hnd). rewrite fmap_app in Hnd'. apply NoDup_app in Hnd' as (Hn1 & _ & Hn2). split_and!.
  - rewrite Hh. by exists (in_hand (y_cons s) lc ++ rev ls.*2).
  - exists x, ls. split_and!; try done. intros Hrun. rewrite Hrun in Hc, Hh. cbn in Hc. by subst lc.
  - intros p a b Hp. destruct (Hown p a b None) as (_ & n & Hn & _); [by rewrite Hp|].
    rewrite (post_load_ok _ g a x _ Hx Hn). by eexists.
  - intros p a b y Hp. rewrite (post_cas_ok _ g a x y Hx). by eexists.
  - intros f d m Hm. rewrite Hm in Hc. cbn in Hc.
    assert (Hsz := istack_size _ _ _ Hn2 Hc).
    assert (Hnd2 : NoDup (lc ++ []).*1) by (by rewrite app_nil_r).
    destruct (drain_reverse_ok (y_heap s) m NULL lc [] (size (i_nodes (y_heap s))) Hc eq_refl Hnd2 Hsz)
      as (n' & r & E & _). rewrite E. by eexists.
  - intros f d any a Ha. rewrite Ha in Hc. cbn in Hc. destruct lc as [|[a' b] lc]; [done|].
    destruct Hc as ([= <-] & y & Hy & _). rewrite (x_rd_msg _ a _ Hy). by eexists.
Qed.

(** C10: no wakeup is lost between the clearing of the signal pipe and the
    sleep: when the scheduler sleeps in poll(2) without a timeout of zero and
    there is a message in its inbox, there is a byte in its signal pipe, or
    the thread that pushed a message is about to write it. *)
Theorem inbox_no_lost_wakeup s0 s a :
  g <> other -> istart s0 -> ireach s0 s ->
  y_cons s = CSleep false -> i_inbox (y_heap s) !! g = Some (Some a) ->
  (exists n, i_pipe (y_heap s) !! g = Some n /\ 0 < n) \/
  (exists p h', y_prod s p = PPushed /\ post_kick (who p) g (y_heap s) = Some (tt, h') /\
     exists n, i_pipe h' !! g = Some n /\ 0 < n).
Proof.
  intros Hgo H0 Hr Hc Ha. destruct (ireach_inv s0 s Hgo H0 Hr) as (ls & lc & [(x & Hx & Hst) (n & Hn & Hn0) _ _ _ _ _ _ _ Hw]).
  assert (Hls : ls <> []) by (intros ->; cbn in Hst; by simplify_eq).
  destruct Hw as [?|(p & Hp & Hpu)]; [by rewrite Hc|done|by left|].
  right. destruct p as [|p]; [done|]. eexists (S p), _. split; [done|]. unfold post_kick, write_pipe. cbn [who].
  rewrite bool_decide_eq_true_2, Hn by congruence. split; [done|]. cbn. eexists. rewrite lookup_insert_eq.
  split; [done|]. unfold PIPE_CAP. lia.
Qed.

End system.

(** ** A run *)

Definition demo_ib : iheap := IHeap ∅ {[1%positive := NULL; 2%positive := NULL]} {[1%positive := 0; 2%positive := 0]}.
Definition demo_msg : gbody := Gbody PTH_GMSG_WAKE (Some 7%positive) (Some 8%positive) 0.
Definition demo_isys : isys := ISys demo_ib (fun _ => PIdle) CRun [] [].

Lemma demo_start : istart 1 demo_isys.
Proof. split; try done. by exists 0. Qed.

(** The scheduler goes to sleep, then a message is pushed. *)
Lemma demo_asleep : exists s, ireach 1 2 demo_isys s /\ y_cons s = CSleep false /\
  i_inbox (y_heap s) !! 1%positive = Some (Some 3%positive) /\ y_pushed s = [demo_msg] /\ y_prod s 1%nat = PPushed.
Proof.
  eexists. split.
  - eapply ireach_step; [eapply ireach_step; [eapply ireach_step; [eapply ireach_step; [eapply ireach_step;
      [eapply ireach_step; [eapply ireach_step; [eapply ireach_step; [apply ireach_refl|]|]|]|]|]|]|]|].
    + by apply IS_enter with (d := false).
    + apply IS_clear. vm_compute. reflexivity.
    + apply IS_xchg. vm_compute. reflexivity.
    + apply IS_rev. vm_compute. reflexivity.
    + apply IS_sleep.
    + apply IS_new with (p := 1%nat) (a := 3%positive) (b := demo_msg); [done|done|vm_compute; reflexivity|vm_compute; reflexivity].
    + eapply IS_load with (p := 1%nat) (a := 3%positive) (b := demo_msg); [reflexivity|vm_compute; reflexivity].
    + eapply IS_cas_ok with (p := 1%nat) (a := 3%positive) (b := demo_msg); [reflexivity|vm_compute; reflexivity].
  - split_and!; reflexivity.
Qed.

Lemma inbox_fifo_witness : exists s, y_pushed s = [demo_msg] /\ y_done s `prefix_of` y_pushed s.
Proof.
  destruct demo_asleep as (s & Hr & _ & _ & Hp & _). exists s. split; [exact Hp|].
  apply (inbox_fifo 1 2 demo_isys s); [done|apply demo_start|exact Hr].
Defined.

Lemma inbox_no_lost_wakeup_witness : exists s, y_cons s = CSleep false /\
  ((exists n, i_pipe (y_heap s) !! 1%positive = Some n /\ 0 < n) \/
   (exists p h', y_prod s p = PPushed /\ post_kick (who 1 2 p) 1 (y_heap s) = Some (tt, h') /\
      exists n, i_pipe h' !! 1%positive = Some n /\ 0 < n)).
Proof.
  destruct demo_asleep as (s & Hr & Hc & Hi & _). exists s. split; [exact Hc|].
  apply (inbox_no_lost_wakeup 1 2 demo_isys s 3); [done|apply demo_start|exact Hr|exact Hc|exact Hi].
Defined.
