(* ===== verification/Queues.v ===== *)
(** * The five thread queues of a scheduler (src/pth_sched.c, lines 89-93)

    [NQ], [RQ], [WQ], [SQ] and [DQ] share the link fields of the thread
    control blocks, so a thread is in one of them at most. The class
    [QueueLaws] states what the scheduler and the library functions rely on;
    they are verified against it, and the instance at the end discharges it
    with the circular delta-encoded queues of [Pqueue]. *)

From stdpp Require Import base numbers gmap list.
From S2P Require Import Prelude Links Pqueue.
Open Scope Z_scope.

Inductive qname := NQ | RQ | WQ | SQ | DQ.
#[export] Instance qname_eq_dec : EqDecision qname.
Proof. solve_decision. Defined.

(** What the queues hold: the threads from the head on, with their
    priorities. *)
Abbreviation qlists := (qname -> list (addr * Z)).

Definition qupd (n : qname) (l : list (addr * Z)) (Q : qlists) : qlists :=
  fun m => if decide (m = n) then l else Q m.
Definition in_q (Q : qlists) (n : qname) (t : addr) : Prop := t ∈ (Q n).*1.
Definition in_no_q (Q : qlists) (t : addr) : Prop := forall n, t ∉ (Q n).*1.

#[export] Instance in_q_dec Q n t : Decision (in_q Q n t).
Proof. unfold in_q. apply _. Defined.

Lemma qupd_eq n l Q : qupd n l Q n = l.
Proof. unfold qupd. by rewrite decide_True. Qed.
Lemma qupd_ne n m l Q : m <> n -> qupd n l Q m = Q m.
Proof. intros H. unfold qupd. by rewrite decide_False. Qed.

(** ** The interface *)

Class QueueOps (H : Type) := {
  qo_alloc : addr -> H -> H;
  qo_free : addr -> H -> H;
  qo_init : qname -> H -> H;
  qo_insert : qname -> Z -> ptr -> st H unit;
  qo_delmax : qname -> st H ptr;
  qo_delete : qname -> ptr -> st H unit;
  qo_elements : qname -> H -> Z;
  qo_head : qname -> H -> ptr;
  qo_tail : qname -> st H ptr;
  qo_walk : qname -> ptr -> walk_dir -> st H ptr;
  qo_favorite_prio : qname -> st H Z;
  qo_favorite : qname -> ptr -> st H bool;
  qo_increase : qname -> st H unit;
  qo_contains : qname -> ptr -> st H bool
}.

Definition fav_prio (l : list (addr * Z)) : Z :=
  match l with [] => PTH_PRIO_MAX | (_, p) :: _ => p + 1 end.

(** [q_rep h A Q]: the control blocks [A] are allocated and the queues hold
    [Q]. *)
Class QueueLaws (H : Type) `{QueueOps H} := {
  q_rep : H -> gset addr -> qlists -> Prop;
  q_one : forall h A Q n m t, q_rep h A Q -> in_q Q n t -> in_q Q m t -> n = m;
  q_alloced : forall h A Q n t, q_rep h A Q -> in_q Q n t -> t ∈ A;
  q_sorted : forall h A Q n, q_rep h A Q -> pq_sorted (Q n);
  q_functional : forall h A Q A' Q' n, q_rep h A Q -> q_rep h A' Q' -> Q n = Q' n;
  q_nodup : forall h A Q n, q_rep h A Q -> NoDup (Q n).*1;
  q_ext : forall h A Q Q', (forall n, Q n = Q' n) -> q_rep h A Q -> q_rep h A Q';
  q_alloc_ok : forall h A Q t, q_rep h A Q -> t ∉ A -> q_rep (qo_alloc t h) ({[t]} ∪ A) Q;
  q_free_ok : forall h A Q t, q_rep h A Q -> in_no_q Q t -> q_rep (qo_free t h) (A ∖ {[t]}) Q;
  q_init_ok : forall h A Q n, q_rep h A Q -> q_rep (qo_init n h) A (qupd n [] Q);
  q_insert_ok : forall h A Q n p t, q_rep h A Q -> t ∈ A -> in_no_q Q t ->
    exists h', qo_insert n p (Some t) h = Some (tt, h') /\ q_rep h' A (qupd n (pq_ins p t (Q n)) Q);
  q_delmax_ok : forall h A Q n t p l, q_rep h A Q -> Q n = (t, p) :: l ->
    exists h', qo_delmax n h = Some (Some t, h') /\ q_rep h' A (qupd n l Q);
  q_delmax_empty : forall h A Q n, q_rep h A Q -> Q n = [] -> qo_delmax n h = Some (NULL, h);
  q_delete_ok : forall h A Q n t, q_rep h A Q -> in_q Q n t ->
    exists h', qo_delete n (Some t) h = Some (tt, h') /\ q_rep h' A (qupd n (pq_del t (Q n)) Q);
  q_elements_ok : forall h A Q n, q_rep h A Q -> qo_elements n h = Z.of_nat (length (Q n));
  q_head_ok : forall h A Q n, q_rep h A Q -> qo_head n h = head (Q n).*1;
  q_tail_ok : forall h A Q n, q_rep h A Q -> qo_tail n h = Some (last (Q n).*1, h);
  q_walk_ok : forall h A Q n l1 c p l2, q_rep h A Q -> Q n = l1 ++ (c, p) :: l2 ->
    qo_walk n (Some c) WALK_NEXT h = Some (head l2.*1, h);
  q_favorite_prio_ok : forall h A Q n, q_rep h A Q -> qo_favorite_prio n h = Some (fav_prio (Q n), h);
  q_favorite_ok : forall h A Q n t, q_rep h A Q -> in_q Q n t ->
    exists h', qo_favorite n (Some t) h = Some (true, h') /\ q_rep h' A (qupd n (pq_fav t (Q n)) Q);
  q_increase_ok : forall h A Q n, q_rep h A Q ->
    exists h', qo_increase n h = Some (tt, h') /\ q_rep h' A (qupd n (pq_incr (Q n)) Q);
  q_contains_ok : forall h A Q n t, q_rep h A Q -> qo_contains n (Some t) h = Some (bool_decide (in_q Q n t), h)
}.

(** Membership after the list operations. *)
Lemma in_ins p t l x : x ∈ (pq_ins p t l).*1 <-> x = t \/ x ∈ l.*1.
Proof. rewrite pq_ins_perm, fmap_cons, elem_of_cons. done. Qed.
Lemma in_del t l x : x ∈ (pq_del t l).*1 <-> x <> t /\ x ∈ l.*1.
Proof.
  unfold pq_del. rewrite !list_elem_of_fmap. split.
  - intros (y & -> & [Hy Hin]%list_elem_of_filter). split; [done|]. by exists y.
  - intros (Hne & y & -> & Hin). exists y. split; [done|]. by apply list_elem_of_filter.
Qed.
Lemma in_incr l x : x ∈ (pq_incr l).*1 <-> x ∈ l.*1.
Proof. unfold pq_incr. by rewrite <- list_fmap_compose. Qed.
Lemma in_fav t l x : t ∈ l.*1 -> x ∈ (pq_fav t l).*1 <-> x ∈ l.*1.
Proof.
  intros Ht. unfold pq_fav. destruct l as [|y [|z l]]; [done|done|].
  destruct (pq_del t (y :: z :: l)) as [|[w pw] l'] eqn:E; [done|].
  assert (Hd := in_del t (y :: z :: l) x). rewrite E in Hd. rewrite fmap_cons. cbn [fst] in *.
  rewrite elem_of_cons. rewrite Hd. destruct (decide (x = t)); naive_solver.
Qed.

(** ** The implementation *)

Record queues := Queues { qs_heap : qheap; qs_NQ : pqueue; qs_RQ : pqueue; qs_WQ : pqueue; qs_SQ : pqueue; qs_DQ : pqueue }.

Definition qs_get (n : qname) (s : queues) : pqueue :=
  match n with NQ => qs_NQ s | RQ => qs_RQ s | WQ => qs_WQ s | SQ => qs_SQ s | DQ => qs_DQ s end.
Definition qs_set (n : qname) (q : pqueue) (h : qheap) (s : queues) : queues :=
  match n with
  | NQ => Queues h q (qs_RQ s) (qs_WQ s) (qs_SQ s) (qs_DQ s)
  | RQ => Queues h (qs_NQ s) q (qs_WQ s) (qs_SQ s) (qs_DQ s)
  | WQ => Queues h (qs_NQ s) (qs_RQ s) q (qs_SQ s) (qs_DQ s)
  | SQ => Queues h (qs_NQ s) (qs_RQ s) (qs_WQ s) q (qs_DQ s)
  | DQ => Queues h (qs_NQ s) (qs_RQ s) (qs_WQ s) (qs_SQ s) q
  end.

(** A queue operation that updates the queue itself. *)
Definition upd_queue {A : Type} (n : qname) (m : option pqueue -> st qheap (A * option pqueue)) : st queues A :=
  fun s => match m (Some (qs_get n s)) (qs_heap s) with
           | Some ((a, Some q), h) => Some (a, qs_set n q h s)
           | _ => None end.
Definition upd_queue_ (n : qname) (m : option pqueue -> st qheap (option pqueue)) : st queues unit :=
  upd_queue n (fun q => q' ← m q; mret (tt, q')).
(** One that only reads it. *)
Definition read_queue {A : Type} (n : qname) (m : pqueue -> st qheap A) : st queues A :=
  fun s => match m (qs_get n s) (qs_heap s) with
           | Some (a, h) => Some (a, qs_set n (qs_get n s) h s)
           | None => None end.

#[export] Instance queues_ops : QueueOps queues := {|
  qo_alloc t s := Queues (QHeap (Dll (<[t := NULL]> (nxt (q_links (qs_heap s)))) (<[t := NULL]> (prv (q_links (qs_heap s)))))
      (<[t := 0]> (q_prios (qs_heap s)))) (qs_NQ s) (qs_RQ s) (qs_WQ s) (qs_SQ s) (qs_DQ s);
  qo_free t s := Queues (QHeap (Dll (delete t (nxt (q_links (qs_heap s)))) (delete t (prv (q_links (qs_heap s)))))
      (delete t (q_prios (qs_heap s)))) (qs_NQ s) (qs_RQ s) (qs_WQ s) (qs_SQ s) (qs_DQ s);
  qo_init n s := match pth_pqueue_init (Some (qs_get n s)) with Some q => qs_set n q (qs_heap s) s | None => s end;
  qo_insert n p t := upd_queue_ n (fun q => pth_pqueue_insert q p t);
  qo_delmax n := upd_queue n pth_pqueue_delmax;
  qo_delete n t := upd_queue_ n (fun q => pth_pqueue_delete q t);
  qo_elements n s := pth_pqueue_elements (Some (qs_get n s));
  qo_head n s := pth_pqueue_head (Some (qs_get n s));
  qo_tail n := read_queue n (fun q => pth_pqueue_tail (Some q));
  qo_walk n t d := read_queue n (fun q => pth_pqueue_walk (Some q) t d);
  qo_favorite_prio n := read_queue n pth_pqueue_favorite_prio;
  qo_favorite n t := upd_queue n (fun q => pth_pqueue_favorite q t);
  qo_increase n := upd_queue_ n pth_pqueue_increase;
  qo_contains n t := read_queue n (fun q => pth_pqueue_contains (Some q) t)
|}.

Record queues_rep (s : queues) (A : gset addr) (Q : qlists) : Prop := {
  qr_rep : forall n, pq_rep (qs_heap s) (qs_get n s) (Q n);
  qr_one : forall n m t, in_q Q n t -> in_q Q m t -> n = m;
  qr_node : forall t, t ∈ A -> qnode (qs_heap s) t;
  qr_in : forall n t, in_q Q n t -> t ∈ A;
  qr_sorted : forall n, pq_sorted (Q n)
}.

Lemma qs_get_set n m q h s : qs_get m (qs_set n q h s) = if decide (m = n) then q else qs_get m s.
Proof. destruct n, m; reflexivity. Qed.
Lemma qs_heap_set n q h s : qs_heap (qs_set n q h s) = h.
Proof. by destruct n. Qed.
Lemma qs_set_id n s : qs_set n (qs_get n s) (qs_heap s) s = s.
Proof. destruct s; by destruct n. Qed.

(** A change of one queue: the new list [l] has only threads that were in the
    queue or in none. *)
Lemma rep_change s A Q n h' q' l S :
  queues_rep s A Q -> pq_rep h' q' l -> pq_sorted l -> qframe S (qs_heap s) h' ->
  (forall x, x ∈ l.*1 -> x ∈ A /\ (in_q Q n x \/ in_no_q Q x)) ->
  (forall x, x ∈ S -> in_q Q n x \/ in_no_q Q x) ->
  queues_rep (qs_set n q' h' s) A (qupd n l Q).
Proof.
  intros [Hr H1 Hn Hi Hs] Hl Hsl Hf Hin HS. constructor.
  - intros m. rewrite qs_get_set, qs_heap_set. unfold qupd. case_decide as Hm; [done|].
    eapply rep_frame; [exact Hf| |apply Hr]. intros a Ha Hb. destruct (HS a Hb) as [Hq|Hq].
    + by apply Hm, (H1 m n a).
    + by apply (Hq m).
  - assert (Hhelp : forall m t, t ∈ l.*1 -> in_q Q m t -> m = n).
    { intros m t Ht Hm. destruct (Hin t Ht) as [_ [Hq|Hq]]; [by apply (H1 m n t)|by apply Hq in Hm]. }
    intros m1 m2 t. unfold in_q, qupd. repeat case_decide; subst; try done.
    + intros Ha Hb. symmetry. by apply (Hhelp m2 t).
    + intros Ha Hb. by apply (Hhelp m1 t).
    + apply H1.
  - intros t Ht. rewrite qs_heap_set. eapply qnode_frame; [exact Hf|]. by apply Hn.
  - intros m t. unfold in_q, qupd. case_decide; [by intros [? _]%Hin|apply Hi].
  - intros m. unfold qupd. case_decide; [done|apply Hs].
Qed.

Lemma upd_queue_ok {A : Type} n (m : option pqueue -> st qheap (A * option pqueue)) s a q' h' :
  m (Some (qs_get n s)) (qs_heap s) = Some ((a, Some q'), h') -> upd_queue n m s = Some (a, qs_set n q' h' s).
Proof. intros E. unfold upd_queue. by rewrite E. Qed.
Lemma upd_queue_ok_ n (m : option pqueue -> st qheap (option pqueue)) s q' h' :
  m (Some (qs_get n s)) (qs_heap s) = Some (Some q', h') -> upd_queue_ n m s = Some (tt, qs_set n q' h' s).
Proof. intros E. apply upd_queue_ok. by rewrite (st_bind_Some _ _ _ _ _ E). Qed.
Lemma read_queue_ok {A : Type} n (m : pqueue -> st qheap A) s a :
  m (qs_get n s) (qs_heap s) = Some (a, qs_heap s) -> read_queue n m s = Some (a, s).
Proof. intros E. unfold read_queue. by rewrite E, qs_set_id. Qed.

Lemma qframe_alloc t h v :
  qframe [t] h (QHeap (Dll (<[t := NULL]> (nxt (q_links h))) (<[t := NULL]> (prv (q_links h)))) (<[t := v]> (q_prios h))).
Proof.
  constructor; cbn.
  1-3: intros a Ha; rewrite lookup_insert_ne; [done|intros ->; apply Ha; by left].
  intros a [[Ha1 Ha2] Ha3]. destruct (decide (a = t)) as [->|Hne].
  - split; [split|]; cbn; rewrite lookup_insert_eq; by eexists.
  - split; [split|]; cbn; by rewrite lookup_insert_ne.
Qed.

#[export] Instance queues_laws : QueueLaws queues.
Proof.
  refine {| q_rep := queues_rep |}.
  - intros h A Q n m t H. apply (qr_one _ _ _ H).
  - intros h A Q n t H. apply (qr_in _ _ _ H).
  - intros h A Q n H. apply (qr_sorted _ _ _ H).
  - intros h A Q A' Q' n H H'. eapply rep_inj; [apply (qr_rep _ _ _ H)|apply (qr_rep _ _ _ H')].
  - intros h A Q n H. apply (pr_nodup _ _ _ (qr_rep _ _ _ H n)).
  - intros h A Q Q' He [Hr H1 Hn Hi Hs]. constructor.
    + intros n. rewrite <- He. apply Hr.
    + intros n m t. unfold in_q. rewrite <- !He. apply H1.
    + done.
    + intros n t. unfold in_q. rewrite <- He. apply Hi.
    + intros n. rewrite <- He. apply Hs.
  - intros h A Q t [Hr H1 Hn Hi Hs] Ht. assert (Hf := qframe_alloc t (qs_heap h) 0). constructor; cbn [qs_heap]; try done.
    + intros n. assert (Hn' : pq_rep (qs_heap (qo_alloc t h)) (qs_get n h) (Q n)); [|by destruct n].
      eapply rep_frame; [exact Hf| |apply Hr]. intros a Ha ->%list_elem_of_singleton. by apply Ht, (Hi n).
    + intros a [->%elem_of_singleton|Ha]%elem_of_union.
      * split; [split|]; cbn; rewrite lookup_insert_eq; by eexists.
      * eapply qnode_frame; [exact Hf|]. by apply Hn.
    + intros n a Ha. apply elem_of_union_r. by eapply Hi.
  - intros h A Q t [Hr H1 Hn Hi Hs] Ht. constructor; cbn [qs_heap]; try done.
    + intros n. assert (Hn' : pq_rep (qs_heap (qo_free t h)) (qs_get n h) (Q n)); [|by destruct n].
      eapply rep_eq; [|apply Hr]. intros a Ha. assert (t <> a) by (intros ->; by apply (Ht n)).
      cbn. by rewrite !lookup_delete_ne.
    + intros a [Ha Hne%not_elem_of_singleton]%elem_of_difference. destruct (Hn a Ha) as [[? ?] ?].
      split; [split|]; cbn; by rewrite lookup_delete_ne.
    + intros n a Ha. apply elem_of_difference. split; [by eapply Hi|].
      intros ->%elem_of_singleton. by apply (Ht n).
  - intros h A Q n H. cbn. eapply (rep_change h A Q n _ _ [] []);
      [exact H|by apply rep_empty|done|apply qframe_refl|by intros x Hx%not_elem_of_nil..].
  - intros h A Q n p t H HA Ht. destruct (insert_ok _ _ (Q n) p t (qr_rep _ _ _ H n)) as (h' & q' & E & Hr & Hf).
    { by apply (qr_node _ _ _ H). } { apply Ht. }
    eexists. split; [by eapply upd_queue_ok_|]. eapply rep_change; [exact H|exact Hr| |exact Hf|..].
    + apply pq_ins_sorted, (qr_sorted _ _ _ H).
    + intros x [->|Hx]%in_ins; [split; [done|by right]|split; [by apply (qr_in _ _ _ H n)|by left]].
    + intros x [->|Hx]%elem_of_cons; [by right|by left].
  - intros h A Q n t p l H HQ. assert (Hr := qr_rep _ _ _ H n). assert (Hs := qr_sorted _ _ _ H n). rewrite HQ in Hr, Hs.
    destruct (delmax_ok _ _ t p l Hr) as (h' & q' & E & Hr' & Hf).
    eexists. split; [by eapply upd_queue_ok|]. eapply rep_change; [exact H|exact Hr'|apply Hs|exact Hf|..].
    + intros x Hx. assert (in_q Q n x) by (unfold in_q; rewrite HQ; by right). split; [by apply (qr_in _ _ _ H n)|by left].
    + intros x Hx. left. unfold in_q. by rewrite HQ.
  - intros h A Q n H HQ. assert (Hr := qr_rep _ _ _ H n). rewrite HQ in Hr. cbn.
    rewrite (upd_queue_ok n pth_pqueue_delmax h _ _ _ (delmax_empty _ _ Hr)). by rewrite qs_set_id.
  - intros h A Q n t H Ht. destruct (delete_ok _ _ _ t (qr_rep _ _ _ H n) Ht) as (h' & q' & E & Hr & Hf).
    eexists. split; [by eapply upd_queue_ok_|]. eapply rep_change; [exact H|exact Hr| |exact Hf|..].
    + apply pq_del_sorted, (qr_sorted _ _ _ H).
    + intros x [_ Hx]%in_del. split; [by apply (qr_in _ _ _ H n)|by left].
    + intros x Hx. by left.
  - intros h A Q n H. cbn. apply (pr_num _ _ _ (qr_rep _ _ _ H n)).
  - intros h A Q n H. cbn. apply (pr_head _ _ _ (qr_rep _ _ _ H n)).
  - intros h A Q n H. cbn. apply read_queue_ok, tail_ok, (qr_rep _ _ _ H n).
  - intros h A Q n l1 c p l2 H HQ. assert (Hr := qr_rep _ _ _ H n). rewrite HQ in Hr. cbn.
    apply read_queue_ok. by eapply walk_next_ok.
  - intros h A Q n H. cbn. apply read_queue_ok. assert (Hr := qr_rep _ _ _ H n).
    unfold pth_pqueue_favorite_prio. rewrite (pr_head _ _ _ Hr). destruct (Q n) as [|[x p] l]; [done|].
    cbn [fmap list_fmap fst head]. rewrite bool_decide_eq_false_2 by done.
    rewrite (st_bind_Some _ _ _ _ _ (x_rd_prio _ x p (proj1 (pr_prios _ _ _ Hr)))). done.
  - intros h A Q n t H Ht. destruct (favorite_ok _ _ _ t (qr_rep _ _ _ H n) Ht) as (h' & q' & E & Hr & Hf).
    eexists. split; [by eapply upd_queue_ok|]. eapply rep_change; [exact H|exact Hr| |exact Hf|..].
    + apply pq_fav_head; [apply (qr_sorted _ _ _ H)|done].
    + intros x Hx%in_fav; [|done]. split; [by apply (qr_in _ _ _ H n)|by left].
    + intros x Hx. by left.
  - intros h A Q n H. destruct (increase_ok _ _ _ (qr_rep _ _ _ H n)) as (h' & E & Hr & Hf).
    eexists. split; [by eapply upd_queue_ok_|]. eapply rep_change; [exact H|exact Hr| |exact Hf|..].
    + apply pq_incr_sorted, (qr_sorted _ _ _ H).
    + intros x Hx%(proj1 (in_incr _ _)). split; [by apply (qr_in _ _ _ H n)|by left].
    + intros x Hx. by left.
  - intros h A Q n t H. cbn. apply read_queue_ok. by apply contains_ok, (qr_rep _ _ _ H n).
Defined.
