(* ===== verification/World.v ===== *)
(** * Threads and the state of one scheduler

    The thread control block (src/pth_tcb.c), the scheduler object
    (src/pth_sched.c, lines 82-127) and everything a scheduler works on, as
    one state [world]; the well-formedness invariant of that state. The queues
    are used through the interface of [Queues], the wakeup inboxes are those
    of [Inbox], the events those of [Event]. *)

From stdpp Require Import base numbers gmap list.
From S2P Require Import Prelude Links Pqueue Timeval Waitq Event Inbox Queues.
Open Scope Z_scope.

Definition PTH_CANCEL_ENABLE : Z := bit 0.
Definition PTH_CANCEL_DISABLE : Z := bit 1.
Definition PTH_CANCEL_ASYNCHRONOUS : Z := bit 2.
Definition PTH_CANCEL_DEFERRED : Z := bit 3.
Definition PTH_CANCEL_DEFAULT : Z := Z.lor PTH_CANCEL_ENABLE PTH_CANCEL_DEFERRED.
Definition PTH_CANCELED : Z := -1.

(** [struct pth_st] without the queue links ([Queues]), the wait-queue link
    ([w_wq]), the machine context and the fields of the components that hang
    resources on a thread ([w_user]). [t_guard] is the word at the stack
    guard, if the thread has one; [t_sigs] the signals blocked by its context. *)
Record tcb := Tcb {
  t_home : addr;
  t_wq_event : ptr;
  t_prio : Z;
  t_dispatches : Z;
  t_state : Z;
  t_spawned : pth_time_t;
  t_lastran : pth_time_t;
  t_running : pth_time_t;
  t_events : ptr;
  t_sigpending : gset Z;
  t_sigpendcnt : Z;
  t_sigs : gset Z;
  t_stacksize : Z;
  t_guard : option Z;
  t_start : ptr;
  t_arg : ptr;
  t_joinable : bool;
  t_join_arg : Z;
  t_join_waitq : waitq;
  t_join_done : bool;
  t_cancelreq : bool;
  t_cancelstate : Z
}.

(** The assignments to its fields. *)
Definition set_home (v : addr) (x : tcb) : tcb :=
  Tcb v (t_wq_event x) (t_prio x) (t_dispatches x) (t_state x) (t_spawned x) (t_lastran x)
    (t_running x) (t_events x) (t_sigpending x) (t_sigpendcnt x) (t_sigs x) (t_stacksize x) (t_guard
    x) (t_start x) (t_arg x) (t_joinable x) (t_join_arg x) (t_join_waitq x) (t_join_done x)
    (t_cancelreq x) (t_cancelstate x).
Definition set_wq_event (v : ptr) (x : tcb) : tcb :=
  Tcb (t_home x) v (t_prio x) (t_dispatches x) (t_state x) (t_spawned x) (t_lastran x) (t_running x)
    (t_events x) (t_sigpending x) (t_sigpendcnt x) (t_sigs x) (t_stacksize x) (t_guard x) (t_start
    x) (t_arg x) (t_joinable x) (t_join_arg x) (t_join_waitq x) (t_join_done x) (t_cancelreq x)
    (t_cancelstate x).
Definition set_prio (v : Z) (x : tcb) : tcb :=
  Tcb (t_home x) (t_wq_event x) v (t_dispatches x) (t_state x) (t_spawned x) (t_lastran x)
    (t_running x) (t_events x) (t_sigpending x) (t_sigpendcnt x) (t_sigs x) (t_stacksize x) (t_guard
    x) (t_start x) (t_arg x) (t_joinable x) (t_join_arg x) (t_join_waitq x) (t_join_done x)
    (t_cancelreq x) (t_cancelstate x).
Definition set_dispatches (v : Z) (x : tcb) : tcb :=
  Tcb (t_home x) (t_wq_event x) (t_prio x) v (t_state x) (t_spawned x) (t_lastran x) (t_running x)
    (t_events x) (t_sigpending x) (t_sigpendcnt x) (t_sigs x) (t_stacksize x) (t_guard x) (t_start
    x) (t_arg x) (t_joinable x) (t_join_arg x) (t_join_waitq x) (t_join_done x) (t_cancelreq x)
    (t_cancelstate x).
Definition set_state (v : Z) (x : tcb) : tcb :=
  Tcb (t_home x) (t_wq_event x) (t_prio x) (t_dispatches x) v (t_spawned x) (t_lastran x) (t_running
    x) (t_events x) (t_sigpending x) (t_sigpendcnt x) (t_sigs x) (t_stacksize x) (t_guard x)
    (t_start x) (t_arg x) (t_joinable x) (t_join_arg x) (t_join_waitq x) (t_join_done x)
    (t_cancelreq x) (t_cancelstate x).
Definition set_lastran (v : pth_time_t) (x : tcb) : tcb :=
  Tcb (t_home x) (t_wq_event x) (t_prio x) (t_dispatches x) (t_state x) (t_spawned x) v (t_running
    x) (t_events x) (t_sigpending x) (t_sigpendcnt x) (t_sigs x) (t_stacksize x) (t_guard x)
    (t_start x) (t_arg x) (t_joinable x) (t_join_arg x) (t_join_waitq x) (t_join_done x)
    (t_cancelreq x) (t_cancelstate x).
Definition set_running (v : pth_time_t) (x : tcb) : tcb :=
  Tcb (t_home x) (t_wq_event x) (t_prio x) (t_dispatches x) (t_state x) (t_spawned x) (t_lastran x)
    v (t_events x) (t_sigpending x) (t_sigpendcnt x) (t_sigs x) (t_stacksize x) (t_guard x) (t_start
    x) (t_arg x) (t_joinable x) (t_join_arg x) (t_join_waitq x) (t_join_done x) (t_cancelreq x)
    (t_cancelstate x).
Definition set_events (v : ptr) (x : tcb) : tcb :=
  Tcb (t_home x) (t_wq_event x) (t_prio x) (t_dispatches x) (t_state x) (t_spawned x) (t_lastran x)
    (t_running x) v (t_sigpending x) (t_sigpendcnt x) (t_sigs x) (t_stacksize x) (t_guard x)
    (t_start x) (t_arg x) (t_joinable x) (t_join_arg x) (t_join_waitq x) (t_join_done x)
    (t_cancelreq x) (t_cancelstate x).
Definition set_joinable (v : bool) (x : tcb) : tcb :=
  Tcb (t_home x) (t_wq_event x) (t_prio x) (t_dispatches x) (t_state x) (t_spawned x) (t_lastran x)
    (t_running x) (t_events x) (t_sigpending x) (t_sigpendcnt x) (t_sigs x) (t_stacksize x) (t_guard
    x) (t_start x) (t_arg x) v (t_join_arg x) (t_join_waitq x) (t_join_done x) (t_cancelreq x)
    (t_cancelstate x).
Definition set_join_arg (v : Z) (x : tcb) : tcb :=
  Tcb (t_home x) (t_wq_event x) (t_prio x) (t_dispatches x) (t_state x) (t_spawned x) (t_lastran x)
    (t_running x) (t_events x) (t_sigpending x) (t_sigpendcnt x) (t_sigs x) (t_stacksize x) (t_guard
    x) (t_start x) (t_arg x) (t_joinable x) v (t_join_waitq x) (t_join_done x) (t_cancelreq x)
    (t_cancelstate x).
Definition set_join_waitq (v : waitq) (x : tcb) : tcb :=
  Tcb (t_home x) (t_wq_event x) (t_prio x) (t_dispatches x) (t_state x) (t_spawned x) (t_lastran x)
    (t_running x) (t_events x) (t_sigpending x) (t_sigpendcnt x) (t_sigs x) (t_stacksize x) (t_guard
    x) (t_start x) (t_arg x) (t_joinable x) (t_join_arg x) v (t_join_done x) (t_cancelreq x)
    (t_cancelstate x).
Definition set_join_done (v : bool) (x : tcb) : tcb :=
  Tcb (t_home x) (t_wq_event x) (t_prio x) (t_dispatches x) (t_state x) (t_spawned x) (t_lastran x)
    (t_running x) (t_events x) (t_sigpending x) (t_sigpendcnt x) (t_sigs x) (t_stacksize x) (t_guard
    x) (t_start x) (t_arg x) (t_joinable x) (t_join_arg x) (t_join_waitq x) v (t_cancelreq x)
    (t_cancelstate x).
Definition set_cancelreq (v : bool) (x : tcb) : tcb :=
  Tcb (t_home x) (t_wq_event x) (t_prio x) (t_dispatches x) (t_state x) (t_spawned x) (t_lastran x)
    (t_running x) (t_events x) (t_sigpending x) (t_sigpendcnt x) (t_sigs x) (t_stacksize x) (t_guard
    x) (t_start x) (t_arg x) (t_joinable x) (t_join_arg x) (t_join_waitq x) (t_join_done x) v
    (t_cancelstate x).
Definition set_cancelstate (v : Z) (x : tcb) : tcb :=
  Tcb (t_home x) (t_wq_event x) (t_prio x) (t_dispatches x) (t_state x) (t_spawned x) (t_lastran x)
    (t_running x) (t_events x) (t_sigpending x) (t_sigpendcnt x) (t_sigs x) (t_stacksize x) (t_guard
    x) (t_start x) (t_arg x) (t_joinable x) (t_join_arg x) (t_join_waitq x) (t_join_done x)
    (t_cancelreq x) v.
Definition set_sigpend (s : gset Z) (n : Z) (x : tcb) : tcb :=
  Tcb (t_home x) (t_wq_event x) (t_prio x) (t_dispatches x) (t_state x) (t_spawned x) (t_lastran x)
    (t_running x) (t_events x) s n (t_sigs x) (t_stacksize x) (t_guard x) (t_start x) (t_arg x)
    (t_joinable x) (t_join_arg x) (t_join_waitq x) (t_join_done x) (t_cancelreq x) (t_cancelstate x).

(** [struct pth_gsched_st] without the queues and the inbox. [g_os]: the
    signals pending in the process. *)
Record gsched := Gsched {
  g_id : Z;
  g_main : ptr;
  g_scheduler : ptr;
  g_current : ptr;
  g_favournew : bool;
  g_stop : bool;
  g_sigpending : gset Z;
  g_sigblock : gset Z;
  g_sigcatch : gset Z;
  g_sigraised : gset Z
}.
Definition set_current (v : ptr) (g : gsched) : gsched :=
  Gsched (g_id g) (g_main g) (g_scheduler g) v (g_favournew g) (g_stop g) (g_sigpending g) (g_sigblock g)
    (g_sigcatch g) (g_sigraised g).
Definition set_stop (v : bool) (g : gsched) : gsched :=
  Gsched (g_id g) (g_main g) (g_scheduler g) (g_current g) (g_favournew g) v (g_sigpending g) (g_sigblock g)
    (g_sigcatch g) (g_sigraised g).
Definition set_favournew (v : bool) (g : gsched) : gsched :=
  Gsched (g_id g) (g_main g) (g_scheduler g) (g_current g) v (g_stop g) (g_sigpending g) (g_sigblock g)
    (g_sigcatch g) (g_sigraised g).
Definition set_sigs (p b c r : gset Z) (g : gsched) : gsched :=
  Gsched (g_id g) (g_main g) (g_scheduler g) (g_current g) (g_favournew g) (g_stop g) p b c r.

(** The state: the queues, the control blocks of all threads (of all
    schedulers), their [wq_next] fields, the events, the inboxes, the
    scheduler object, the signals pending in the process, and the state [U]
    of the components that keep resources per thread. *)
Record world (H U : Type) := World {
  w_q : H; w_tcb : gmap addr tcb; w_wq : wheap; w_ev : evst; w_inb : iheap;
  w_g : gsched; w_os : gset Z; w_user : U
}.
Arguments World {H U}. Arguments w_q {H U}. Arguments w_tcb {H U}. Arguments w_wq {H U}. Arguments w_ev {H U}.
Arguments w_inb {H U}. Arguments w_g {H U}. Arguments w_os {H U}. Arguments w_user {H U}.

Section world.
Context {H U : Type}.
Abbreviation wd := (world H U).

Definition set_q (q : H) (w : wd) : wd := World q (w_tcb w) (w_wq w) (w_ev w) (w_inb w) (w_g w) (w_os w) (w_user w).
Definition set_tcb (m : gmap addr tcb) (w : wd) : wd := World (w_q w) m (w_wq w) (w_ev w) (w_inb w) (w_g w) (w_os w) (w_user w).
Definition set_wq (m : wheap) (w : wd) : wd := World (w_q w) (w_tcb w) m (w_ev w) (w_inb w) (w_g w) (w_os w) (w_user w).
Definition set_ev (e : evst) (w : wd) : wd := World (w_q w) (w_tcb w) (w_wq w) e (w_inb w) (w_g w) (w_os w) (w_user w).
Definition set_inb (i : iheap) (w : wd) : wd := World (w_q w) (w_tcb w) (w_wq w) (w_ev w) i (w_g w) (w_os w) (w_user w).
Definition set_g (g : gsched) (w : wd) : wd := World (w_q w) (w_tcb w) (w_wq w) (w_ev w) (w_inb w) g (w_os w) (w_user w).
Definition set_os (o : gset Z) (w : wd) : wd := World (w_q w) (w_tcb w) (w_wq w) (w_ev w) (w_inb w) (w_g w) o (w_user w).
Definition set_user (u : U) (w : wd) : wd := World (w_q w) (w_tcb w) (w_wq w) (w_ev w) (w_inb w) (w_g w) (w_os w) u.

Definition on_q {A : Type} (m : st H A) : st wd A := zoom w_q set_q m.
Definition on_wq {A : Type} (m : st wheap A) : st wd A := zoom w_wq set_wq m.
Definition on_ev {A : Type} (m : st evst A) : st wd A := zoom w_ev set_ev m.
Definition on_inbox {A : Type} (m : st iheap A) : st wd A := zoom w_inb set_inb m.
Definition getg {A : Type} (f : gsched -> A) : st wd A := fun w => Some (f (w_g w), w).
Definition updg (f : gsched -> gsched) : st wd unit := fun w => Some (tt, set_g (f (w_g w)) w).

Definition updw (f : wd -> wd) : st wd unit := fun w => Some (tt, f w).

Definition rd_tcb (p : ptr) : st wd tcb :=
  fun w => match p with
           | Some a => match w_tcb w !! a with Some x => Some (x, w) | None => None end
           | None => None end.
Definition upd_tcb (p : ptr) (f : tcb -> tcb) : st wd unit :=
  fun w => match p with
           | Some a => match w_tcb w !! a with
                       | Some x => Some (tt, set_tcb (<[a := f x]> (w_tcb w)) w)
                       | None => None end
           | None => None end.
End world.

Section invariant.
Context {H U : Type} `{QueueLaws H}.
Abbreviation wd := (world H U).
(** This scheduler; all schedulers; the events that no cleanup frees. *)
Context (self : addr) (G E : gset addr).

(** The states of the threads in a queue; a suspended thread keeps the state
    it had. *)
Definition state_ok (n : qname) (s : Z) : Prop :=
  match n with
  | NQ => s = PTH_STATE_NEW
  | RQ => s = PTH_STATE_READY
  | WQ => s = PTH_STATE_WAITING
  | SQ => s = PTH_STATE_NEW \/ s = PTH_STATE_READY \/ s = PTH_STATE_WAITING
  | DQ => s = PTH_STATE_DEAD
  end.

(** The join queues of the own threads hold threads of other schedulers,
    each in one queue. *)
Record joins_rep (m : gmap addr tcb) (h : wheap) (J : addr -> list addr) : Prop := {
  jo_rep : forall t x, m !! t = Some x -> t_home x = self -> wq_rep h (t_join_waitq x) (J t);
  jo_in : forall t x j, m !! t = Some x -> t_home x = self -> j ∈ J t ->
    exists y, m !! j = Some y /\ t_home y <> self;
  jo_disj : forall t t' x x' j, m !! t = Some x -> m !! t' = Some x' ->
    t_home x = self -> t_home x' = self -> j ∈ J t -> j ∈ J t' -> t = t'
}.
Definition joins_ok (m : gmap addr tcb) (h : wheap) : Prop := exists J, joins_rep m h J.

(** The invariant of threads and queues: every thread of this scheduler is in
    exactly one queue, the one of its state, but for the threads of [L] that
    are in none: the running one, the scheduler itself, those whose message to
    this scheduler was not applied yet, and one that is being moved. *)
Record tinv (w : wd) (Q : qlists) (L : gset addr) : Prop := {
  ti_q : q_rep (w_q w) (dom (w_tcb w)) Q;
  ti_state : forall n t, in_q Q n t ->
    exists x, w_tcb w !! t = Some x /\ t_home x = self /\ state_ok n (t_state x);
  ti_loose : forall t, t ∈ L -> in_no_q Q t /\ exists x, w_tcb w !! t = Some x /\ t_home x = self;
  ti_all : forall t x, w_tcb w !! t = Some x -> t_home x = self -> t ∈ L \/ exists n, in_q Q n t;
  ti_home : forall t x, w_tcb w !! t = Some x -> t_home x ∈ G;
  ti_join : joins_ok (w_tcb w) (w_wq w)
}.

Definition opt_set (p : ptr) : gset addr := match p with Some a => {[a]} | None => ∅ end.
(** [T]: the threads in transit. *)
Definition loose (w : wd) (T : gset addr) : gset addr :=
  T ∪ opt_set (g_current (w_g w)) ∪ opt_set (g_scheduler (w_g w)).

(** The own inbox only grows, by messages in fresh memory. *)
Definition inb_ext (h h' : iheap) : Prop :=
  forall l, inbox_ok G self h l -> exists new, inbox_ok G self h' (new ++ l) /\
    (forall a, is_Some (i_nodes h !! a) -> i_nodes h' !! a = i_nodes h !! a) /\
    (forall a, a ∈ new.*1 -> i_nodes h !! a = None).
(** The events of [E] stay allocated, and occurred. *)
Definition ev_keeps (e e' : evst) : Prop :=
  forall a b, a ∈ E -> e_body e !! a = Some b ->
    exists b', e_body e' !! a = Some b' /\ (ev_status b = PTH_STATUS_OCCURRED -> ev_status b' = PTH_STATUS_OCCURRED).

(** What every local operation leaves alone. *)
Record wstep (w w' : wd) : Prop := {
  ws_cur : g_current (w_g w') = g_current (w_g w);
  ws_sched : g_scheduler (w_g w') = g_scheduler (w_g w);
  ws_stop : g_stop (w_g w') = g_stop (w_g w);
  ws_fav : g_favournew (w_g w') = g_favournew (w_g w);
  ws_ev : ev_keeps (w_ev w) (w_ev w');
  ws_inb : inb_ext (w_inb w) (w_inb w')
}.

Lemma inb_ext_refl h : inb_ext h h.
Proof. intros l Hl. exists []. split_and!; [done|done|by intros a ?%not_elem_of_nil]. Qed.
Lemma inb_ext_trans h1 h2 h3 : inb_ext h1 h2 -> inb_ext h2 h3 -> inb_ext h1 h3.
Proof.
  intros HA HB l Hl. destruct (HA l Hl) as (n1 & Ho1 & Hs1 & Hf1). destruct (HB _ Ho1) as (n2 & Ho2 & Hs2 & Hf2).
  exists (n2 ++ n1). rewrite <- app_assoc. split_and!; [done| |].
  - intros a Ha. rewrite Hs2; [by apply Hs1|by rewrite Hs1].
  - intros a. rewrite fmap_app, elem_of_app. intros [Ha|Ha]; [|by apply Hf1].
    apply Hf2 in Ha. destruct (i_nodes h1 !! a) eqn:Ea; [|done]. rewrite Hs1 in Ha; [by rewrite Ea in Ha|by rewrite Ea].
Qed.
Lemma ev_keeps_refl e : ev_keeps e e.
Proof. intros a b _ Hb. by exists b. Qed.
Lemma ev_keeps_trans e1 e2 e3 : ev_keeps e1 e2 -> ev_keeps e2 e3 -> ev_keeps e1 e3.
Proof.
  intros HA HB a b Ha Hb. destruct (HA a b Ha Hb) as (b1 & Hb1 & Hs1). destruct (HB a b1 Ha Hb1) as (b2 & Hb2 & Hs2).
  exists b2. auto.
Qed.
Lemma wstep_refl w : wstep w w.
Proof. constructor; auto using ev_keeps_refl, inb_ext_refl. Qed.
Lemma wstep_trans w1 w2 w3 : wstep w1 w2 -> wstep w2 w3 -> wstep w1 w3.
Proof.
  intros [Hc Hs Ht Hf He Hi] [Hc' Hs' Ht' Hf' He' Hi']. constructor; [congruence..| |].
  - by eapply ev_keeps_trans.
  - by eapply inb_ext_trans.
Qed.
(** A change of queues, control blocks, wait queues or pending signals. *)
Lemma wstep_same w w' :
  w_g w' = w_g w -> w_ev w' = w_ev w -> w_inb w' = w_inb w -> wstep w w'.
Proof. intros Hg He Hi. constructor; rewrite ?Hg, ?He, ?Hi; auto using ev_keeps_refl, inb_ext_refl. Qed.

(** *** How the invariant moves *)

Lemma tinv_ext w Q Q' L : (forall n, Q n = Q' n) -> tinv w Q L -> tinv w Q' L.
Proof.
  intros He [Hq Hs Hl Ha Hh Hj]. assert (Hin : forall n t, in_q Q n t <-> in_q Q' n t) by (intros; unfold in_q; by rewrite He).
  constructor; try done.
  - by eapply q_ext.
  - intros n t Ht. apply (Hs n). by apply Hin.
  - intros t Ht. destruct (Hl t Ht) as [Hn Hx]. split; [|done]. intros n Hin'. apply (Hn n). by apply Hin.
  - intros t x Hx Hxh. destruct (Ha t x Hx Hxh) as [?|[n Hn]]; [by left|right]. exists n. by apply Hin.
Qed.
Lemma tinv_set w Q L L' : L = L' -> tinv w Q L -> tinv w Q L'.
Proof. by intros ->. Qed.

Lemma tinv_nq w Q L t : tinv w Q L -> t ∈ L -> in_no_q Q t.
Proof. intros Hi Ht. by apply (ti_loose _ _ _ Hi). Qed.
Lemma tinv_dom w Q L t : tinv w Q L -> t ∈ L -> t ∈ dom (w_tcb w).
Proof. intros Hi Ht. destruct (ti_loose _ _ _ Hi t Ht) as (_ & x & Hx & _). by apply elem_of_dom. Qed.

(** Nothing of the invariant is in these parts of the state. *)
Lemma tinv_other w w' Q L :
  w_q w' = w_q w -> w_tcb w' = w_tcb w -> w_wq w' = w_wq w -> tinv w Q L -> tinv w' Q L.
Proof. intros Hq Ht Hw [H1' H2' H3' H4' H5' H6']. constructor; by rewrite ?Hq, ?Ht, ?Hw. Qed.

Lemma x_on_q {A : Type} (m : st H A) (w : wd) a q : m (w_q w) = Some (a, q) -> on_q m w = Some (a, set_q q w).
Proof. intros Hm. unfold on_q, zoom. by rewrite Hm. Qed.

Lemma tinv_delete w Q L n t : tinv w Q L -> in_q Q n t ->
  exists q, on_q (qo_delete n (Some t)) w = Some (tt, set_q q w) /\
    tinv (set_q q w) (qupd n (pq_del t (Q n)) Q) ({[t]} ∪ L).
Proof.
  intros [Hq Hs Hl Ha Hh Hj] Ht. destruct (q_delete_ok _ _ _ _ _ Hq Ht) as (q & Eq & Hq'). exists q.
  split; [by apply x_on_q|].
  assert (Hnot : in_no_q (qupd n (pq_del t (Q n)) Q) t).
  { intros m Hm. unfold qupd in Hm. case_decide as Hmn; [by apply in_del in Hm as [? _]|].
    apply Hmn. by apply (q_one _ _ _ _ _ _ Hq Hm Ht). }
  assert (Hsub : forall m t', in_q (qupd n (pq_del t (Q n)) Q) m t' -> in_q Q m t').
  { intros m t'. unfold in_q, qupd. case_decide; [subst m; by intros [_ ?]%in_del|done]. }
  constructor; cbn; try done.
  - intros m t' Hm. by apply Hs, Hsub.
  - intros t' [->%elem_of_singleton|Ht']%elem_of_union.
    + split; [done|]. destruct (Hs n t Ht) as (x & Hx & Hxh & _). by exists x.
    + destruct (Hl t' Ht') as [Hn Hx]. split; [|done]. intros m Hm. by apply (Hn m), Hsub.
  - intros t' x Hx Hxh. destruct (decide (t' = t)) as [->|Hne]; [left; by apply elem_of_union_l, elem_of_singleton|].
    destruct (Ha t' x Hx Hxh) as [?|[m Hm]]; [left; by apply elem_of_union_r|right]. exists m.
    unfold in_q, qupd. case_decide; [subst m; by apply in_del|done].
Qed.

Lemma tinv_insert w Q L n p t x : tinv w Q L -> t ∈ L -> w_tcb w !! t = Some x -> state_ok n (t_state x) ->
  exists q, on_q (qo_insert n p (Some t)) w = Some (tt, set_q q w) /\
    tinv (set_q q w) (qupd n (pq_ins p t (Q n)) Q) (L ∖ {[t]}).
Proof.
  intros Hi Ht Hx Hst. assert (Hnq := tinv_nq _ _ _ _ Hi Ht). assert (Hd := tinv_dom _ _ _ _ Hi Ht).
  destruct Hi as [Hq Hs Hl Ha Hh Hj]. destruct (q_insert_ok _ _ _ n p _ Hq Hd Hnq) as (q & Eq & Hq'). exists q.
  split; [by apply x_on_q|].
  assert (Hin : forall m t', in_q (qupd n (pq_ins p t (Q n)) Q) m t' <-> in_q Q m t' \/ (m = n /\ t' = t)).
  { intros m t'. unfold in_q, qupd. case_decide; [subst m; rewrite in_ins; naive_solver|naive_solver]. }
  constructor; cbn; try done.
  - intros m t' [Hm|[-> ->]]%Hin; [by apply Hs|]. destruct (Hl t Ht) as (_ & y & Hy & Hyh). rewrite Hx in Hy. injection Hy as <-. by exists x.
  - intros t' [Ht' Hne%not_elem_of_singleton]%elem_of_difference. destruct (Hl t' Ht') as [Hn Hy]. split; [|done].
    intros m [Hm|[-> ->]]%Hin; [by apply (Hn m)|done].
  - intros t' y Hy Hyh. destruct (decide (t' = t)) as [->|Hne]; [right; exists n; apply Hin; by right|].
    destruct (Ha t' y Hy Hyh) as [?|[m Hm]]; [left; by apply elem_of_difference; rewrite elem_of_singleton|].
    right. exists m. apply Hin. by left.
Qed.

(** Updates of one control block. *)
Lemma x_rd_tcb (w : wd) t x : w_tcb w !! t = Some x -> rd_tcb (Some t) w = Some (x, w).
Proof. intros Hx. unfold rd_tcb. by rewrite Hx. Qed.
Lemma x_upd_tcb (w : wd) t x f : w_tcb w !! t = Some x ->
  upd_tcb (Some t) f w = Some (tt, set_tcb (<[t := f x]> (w_tcb w)) w).
Proof. intros Hx. unfold upd_tcb. by rewrite Hx. Qed.

Lemma joins_rep_upd m h J t x y : joins_rep m h J -> m !! t = Some x ->
  t_home y = t_home x -> t_join_waitq y = t_join_waitq x -> joins_rep (<[t := y]> m) h J.
Proof.
  intros [Hr Hi Hd] Hx Hh Hw. assert (Hlk : forall t' z, <[t := y]> m !! t' = Some z -> exists z', m !! t' = Some z' /\
    t_home z = t_home z' /\ t_join_waitq z = t_join_waitq z').
  { intros t' z. destruct (decide (t' = t)) as [->|Hne];
      [rewrite lookup_insert_eq; intros [= <-]; by exists x|rewrite lookup_insert_ne by done; by exists z]. }
  constructor.
  - intros t' z (z' & Hz' & Hh' & Hw')%Hlk Hs. rewrite Hw'. apply Hr; [done|congruence].
  - intros t' z j (z' & Hz' & Hh' & Hw')%Hlk Hs Hj. destruct (Hi t' z' j Hz') as (v & Hv & Hv'); [congruence|done|].
    destruct (decide (j = t)) as [->|Hne].
    + exists y. rewrite lookup_insert_eq. split; [done|]. rewrite Hh. congruence.
    + exists v. by rewrite lookup_insert_ne.
  - intros t1 t2 z1 z2 j (z1' & Hz1 & Hh1 & Hw1)%Hlk (z2' & Hz2 & Hh2 & Hw2)%Hlk Hs1 Hs2.
    apply (Hd t1 t2 z1' z2'); try done; congruence.
Qed.

(** The first joiner of [t] is taken out. *)
Lemma joins_shift m h h' J t x q' : joins_rep m h J -> m !! t = Some x -> t_home x = self ->
  wq_rep h' q' (tail (J t)) -> wframe (option_list (head (J t))) h h' ->
  joins_rep (<[t := set_join_waitq q' x]> m) h' (fun u => if decide (u = t) then tail (J t) else J u).
Proof.
  intros HJ Hx Hxh Hq Hf. assert (HJ' := HJ). destruct HJ' as [Hr Hi Hd].
  assert (Hsub : forall u j, j ∈ (if decide (u = t) then tail (J t) else J u) -> j ∈ J u).
  { intros u j. case_decide; [subst u|done]. destruct (J t); [done|]. by right. }
  assert (Hlk : forall t' z, <[t := set_join_waitq q' x]> m !! t' = Some z -> exists z', m !! t' = Some z' /\ t_home z' = t_home z).
  { intros t' z. destruct (decide (t' = t)) as [->|Hne];
      [rewrite lookup_insert_eq; intros [= <-]; by exists x|rewrite lookup_insert_ne by done; by exists z]. }
  constructor.
  - intros t' z. destruct (decide (t' = t)) as [->|Hne].
    + rewrite lookup_insert_eq. by intros [= <-] _.
    + rewrite lookup_insert_ne by done. intros Hz Hzh. eapply wq_frame; [exact Hf| |by apply Hr].
      intros a Ha Hin. destruct (J t) as [|j l] eqn:Ej; [by apply not_elem_of_nil in Hin|].
      cbn in Hin. apply list_elem_of_singleton in Hin as ->. apply Hne. apply (Hd t' t z x j); try done.
      rewrite Ej. by left.
  - intros t' z j (z' & Hz' & Hh')%Hlk Hs Hj%Hsub. destruct (Hi t' z' j Hz') as (v & Hv & Hv'); [congruence|done|].
    destruct (decide (j = t)) as [->|Hne]; [|exists v; by rewrite lookup_insert_ne]. congruence.
  - intros t1 t2 z1 z2 j (z1' & Hz1 & Hh1)%Hlk (z2' & Hz2 & Hh2)%Hlk Hs1 Hs2 Hj1%Hsub Hj2%Hsub.
    apply (Hd t1 t2 z1' z2' j); try done; congruence.
Qed.

Lemma tinv_upd_join w Q L t x y h' : tinv w Q L -> w_tcb w !! t = Some x ->
  t_home y = t_home x -> (t ∈ L \/ t_home x <> self \/ t_state y = t_state x) ->
  joins_ok (<[t := y]> (w_tcb w)) h' ->
  tinv (set_tcb (<[t := y]> (w_tcb w)) (set_wq h' w)) Q L.
Proof.
  intros [Hq Hs Hl Ha Hh Hj] Hx Hyh Hst Hj'. constructor; cbn.
  - rewrite dom_insert_lookup_L; [done|by eexists].
  - intros n t' Ht'. destruct (Hs n t' Ht') as (z & Hz & Hzh & Hzs). destruct (decide (t' = t)) as [->|Hne].
    + exists y. rewrite lookup_insert_eq. simplify_eq. split_and!; [done|congruence|].
      destruct Hst as [HL|[Hf|Heq]]; [by destruct (Hl t HL) as [Hn _]; apply Hn in Ht'|congruence|by rewrite Heq].
    + exists z. by rewrite lookup_insert_ne.
  - intros t' Ht'. destruct (Hl t' Ht') as (Hn & z & Hz & Hzh). split; [done|].
    destruct (decide (t' = t)) as [->|Hne]; [|exists z; by rewrite lookup_insert_ne].
    exists y. rewrite lookup_insert_eq. simplify_eq. split; [done|congruence].
  - intros t' z. destruct (decide (t' = t)) as [->|Hne]; [|rewrite lookup_insert_ne by done; apply Ha].
    rewrite lookup_insert_eq. intros [= <-] Hz. apply (Ha t x Hx). congruence.
  - intros t' z. destruct (decide (t' = t)) as [->|Hne]; [|rewrite lookup_insert_ne by done; apply Hh].
    rewrite lookup_insert_eq. intros [= <-]. rewrite Hyh. by apply (Hh t).
  - done.
Qed.
Lemma tinv_upd w Q L t x y : tinv w Q L -> w_tcb w !! t = Some x ->
  t_home y = t_home x -> t_join_waitq y = t_join_waitq x -> (t ∈ L \/ t_home x <> self \/ t_state y = t_state x) ->
  tinv (set_tcb (<[t := y]> (w_tcb w)) w) Q L.
Proof.
  intros Hi Hx Hh Hw Hst. assert (Hj := ti_join _ _ _ Hi). destruct Hj as [J HJ].
  destruct w. eapply (tinv_upd_join _ Q L t x y _ Hi Hx Hh Hst). exists J. by eapply joins_rep_upd.
Qed.

(** Freeing a thread that is in no queue. *)
Lemma tinv_free w Q L t x : tinv w Q L -> t ∈ L -> w_tcb w !! t = Some x ->
  tinv (set_q (qo_free t (w_q w)) (set_tcb (delete t (w_tcb w)) w)) Q (L ∖ {[t]}).
Proof.
  intros Hi Ht Hx. assert (Hnq := tinv_nq _ _ _ _ Hi Ht). destruct Hi as [Hq Hs Hl Ha Hh [J [Hjr Hji Hjd]]].
  destruct (Hl t Ht) as (_ & x' & Hx' & Hxh). simplify_eq. constructor; cbn.
  - rewrite dom_delete_L. by apply q_free_ok.
  - intros n t' Ht'. destruct (Hs n t' Ht') as (z & Hz & Hz'). exists z.
    rewrite lookup_delete_ne; [done|]. intros ->. by apply (Hnq n).
  - intros t' [Ht' Hne%not_elem_of_singleton]%elem_of_difference. destruct (Hl t' Ht') as (Hn & z & Hz).
    split; [done|]. exists z. by rewrite lookup_delete_ne.
  - intros t' z [Hne Hz]%lookup_delete_Some Hzh. destruct (Ha t' z Hz Hzh) as [?|?]; [left|by right].
    apply elem_of_difference. split; [done|]. by apply not_elem_of_singleton.
  - intros t' z [Hne Hz]%lookup_delete_Some. by apply (Hh t').
  - exists J. constructor.
    + intros t' z [_ Hz]%lookup_delete_Some. by apply Hjr.
    + intros t' z j [_ Hz]%lookup_delete_Some Hzh Hj. destruct (Hji t' z j Hz Hzh Hj) as (v & Hv & Hvh). exists v.
      rewrite lookup_delete_ne; [done|]. intros ->. congruence.
    + intros t1 t2 z1 z2 j [_ Hz1]%lookup_delete_Some [_ Hz2]%lookup_delete_Some. by apply Hjd.
Qed.
End invariant.

#[export] Hint Resolve inb_ext_refl ev_keeps_refl wstep_refl wstep_same : pth.
