(* ===== verification/Thread.v ===== *)
(** * Operations on threads (src/pth_lib.c, src/pth_cancel.c, src/pth_tcb.c)

    What a scheduler does to the threads it owns: existence, suspending,
    resuming, favouring, raising signals, cancelling and aborting, freeing;
    and the calls that do it for the caller's own scheduler directly and for
    another one by a message to its inbox. *)

From stdpp Require Import base numbers gmap list.
From S2P Require Import Prelude Links Pqueue Timeval Waitq Event Inbox Queues World.
Open Scope Z_scope.

(** ** What hangs on a thread

    The cleanup handlers ([Clean]), the thread-specific data ([Data]) and the
    acquired mutexes ([Mutex]) of a thread, as the operations that a dying
    thread needs. They run with the thread as the current one. *)
Class CleanupOps (H U : Type) := {
  co_has_cleanups : addr -> U -> bool;
  co_has_data : addr -> U -> bool;
  co_popall : addr -> bool -> st (world H U) unit;
  co_destroydata : addr -> st (world H U) unit;
  co_releaseall : addr -> st (world H U) unit;
  co_free_data : addr -> st (world H U) unit
}.

(** [PTH_NSIG] and the largest value of [cancelstate] do not matter here;
    [sigign sig]: the disposition of the signal is [SIG_IGN], [sigok]: the
    call [sigaction(sig, NULL, &sa)] succeeds. *)
Section ops.
Context {H U : Type} `{!QueueOps H, !CleanupOps H U}.
Abbreviation wd := (world H U).
Context (self : addr) (malloc : gset addr -> ptr).

(** [pth_tcb_free]; the stack is not in the model. *)
Definition pth_tcb_free (t : ptr) : st wd unit :=
  match t with
  | None => mret tt
  | Some a =>
      rd_tcb t;;
      w ← get_st;
      (if co_has_data a (w_user w) then co_free_data a else mret tt);;
      w ← get_st;
      (if co_has_cleanups a (w_user w) then co_popall a false else mret tt);;
      w ← get_st;
      put_st (set_q (qo_free a (w_q w)) (set_tcb (delete a (w_tcb w)) w))
  end.

Definition pth_thread_exists (t : ptr) : st wd (bool * option errno) :=
  c ← on_q (qo_contains NQ t);
  if negb c then
    c ← on_q (qo_contains RQ t);
    if negb c then
      c ← on_q (qo_contains WQ t);
      if negb c then
        c ← on_q (qo_contains SQ t);
        if negb c then
          c ← on_q (qo_contains DQ t);
          if negb c then mret (pth_error false ESRCH) else mret (ok true)
        else mret (ok true)
      else mret (ok true)
    else mret (ok true)
  else mret (ok true).

(** [pth_thread_cleanup]: as if the thread were the current one. *)
Definition pth_thread_cleanup (thread : addr) : st wd unit :=
  current_saved ← getg g_current;
  updg (set_current (Some thread));;
  w ← get_st;
  (if co_has_cleanups thread (w_user w) then co_popall thread true else mret tt);;
  w ← get_st;
  (if co_has_data thread (w_user w) then co_destroydata thread else mret tt);;
  co_releaseall thread;;
  updg (set_current current_saved).

(** [pth_gsched_wake] and the like, with fresh memory for the message. *)
Definition post (g : addr) (kind : gkind) (t ev : ptr) : st wd bool :=
  w ← get_st;
  on_inbox (pth_gsched_post (malloc (dom (i_nodes (w_inb w)))) self g kind t ev).
Definition post_raise (g : addr) (t : ptr) (sig : Z) : st wd bool :=
  w ← get_st;
  on_inbox (pth_gsched_post_raise (malloc (dom (i_nodes (w_inb w)))) self g t sig).

(** The loop that wakes the joiners of a dead thread: the result of
    [pth_gsched_wake] is ignored. *)
Fixpoint wake_joiners (fuel : nat) (t : ptr) : st wd unit :=
  x ← rd_tcb t;
  r ← on_wq (pth_waitq_shift (t_join_waitq x));
  upd_tcb t (set_join_waitq r.2);;
  match r.1 with
  | None => mret tt
  | Some _ =>
      y ← rd_tcb r.1;
      post (t_home y) PTH_GMSG_WAKE r.1 (t_wq_event y);;
      match fuel with O => undef | S fuel' => wake_joiners fuel' t end
  end.

(** Publishing a death: [join_done], then the joiners. *)
Definition publish_death (t : ptr) : st wd unit :=
  upd_tcb t (set_join_done true);;
  w ← get_st;
  wake_joiners (size (w_wq w)) t.

(** A joinable dead thread goes to the dead queue; then its death is
    published. *)
Definition bury (t : ptr) : st wd unit :=
  on_q (qo_insert DQ PTH_PRIO_STD t);;
  publish_death t.

(** The queue of a live thread's state. *)
Definition live_q (s : Z) : option qname :=
  if s =? PTH_STATE_NEW then Some NQ
  else if s =? PTH_STATE_READY then Some RQ
  else if s =? PTH_STATE_WAITING then Some WQ
  else None.
(** The same for [pth_yield] and [pth_favor_local]. *)
Definition run_q (s : Z) : option qname :=
  if s =? PTH_STATE_NEW then Some NQ
  else if s =? PTH_STATE_READY then Some RQ
  else None.

Definition pth_raise_local (t : ptr) (sig : Z) : st wd unit :=
  e ← pth_thread_exists t;
  if negb e.1 then mret tt else
  x ← rd_tcb t;
  if t_state x =? PTH_STATE_DEAD then mret tt
  else if negb (bool_decide (sig ∈ t_sigpending x))
  then upd_tcb t (set_sigpend ({[sig]} ∪ t_sigpending x) (t_sigpendcnt x + 1))
  else mret tt.

Definition pth_suspend_local (t : ptr) : st wd (bool * option errno) :=
  s ← getg g_scheduler;
  if bool_decide (t = s) then mret (pth_error false EPERM) else
  e ← pth_thread_exists t;
  if negb e.1 then mret (pth_error false ESRCH) else
  x ← rd_tcb t;
  match live_q (t_state x) with
  | None => mret (pth_error false EPERM)
  | Some q =>
      c ← on_q (qo_contains q t);
      if negb c then mret (pth_error false ESRCH) else
      on_q (qo_delete q t);;
      on_q (qo_insert SQ PTH_PRIO_STD t);;
      mret (ok true)
  end.

(** A NULL queue makes [pth_pqueue_insert] a no-op. *)
Definition pth_resume_local (t : ptr) : st wd (bool * option errno) :=
  s ← getg g_scheduler;
  if bool_decide (t = s) then mret (pth_error false EPERM) else
  c ← on_q (qo_contains SQ t);
  if negb c then mret (pth_error false EPERM) else
  on_q (qo_delete SQ t);;
  x ← rd_tcb t;
  (match live_q (t_state x) with
   | None => mret tt
   | Some q => on_q (qo_insert q PTH_PRIO_STD t)
   end : st wd unit);;
  mret (ok true).

Definition pth_favor_local (t : ptr) : st wd unit :=
  e ← pth_thread_exists t;
  if negb e.1 then mret tt else
  x ← rd_tcb t;
  match run_q (t_state x) with
  | None => mret tt
  | Some q =>
      c ← on_q (qo_contains q t);
      if (c : bool) then on_q (qo_favorite q t);; mret tt else mret tt
  end.

Definition has_flag (s f : Z) : bool := negb (Z.land s f =? 0).

(** The part of [pth_cancel_local] that kills the thread at once. *)
Definition cancel_now (thread : addr) : st wd (bool * option errno) :=
  x ← rd_tcb (Some thread);
  match live_q (t_state x) with
  | None => mret (pth_error false ESRCH)
  | Some q =>
      c ← on_q (qo_contains q (Some thread));
      if negb c then mret (pth_error false ESRCH) else
      on_q (qo_delete q (Some thread));;
      pth_thread_cleanup thread;;
      x ← rd_tcb (Some thread);
      (if negb (t_joinable x) then pth_tcb_free (Some thread)
       else
         upd_tcb (Some thread) (set_join_arg PTH_CANCELED);;
         upd_tcb (Some thread) (set_state PTH_STATE_DEAD);;
         bury (Some thread) : st wd unit);;
      mret (ok true)
  end.

Definition pth_cancel_local (thread : addr) : st wd (bool * option errno) :=
  e ← pth_thread_exists (Some thread);
  if negb e.1 then mret (pth_error false ESRCH) else
  x ← rd_tcb (Some thread);
  if t_state x =? PTH_STATE_DEAD then mret (pth_error false EPERM) else
  upd_tcb (Some thread) (set_cancelreq true);;
  if has_flag (t_cancelstate x) PTH_CANCEL_ENABLE && has_flag (t_cancelstate x) PTH_CANCEL_ASYNCHRONOUS
  then cancel_now thread
  else mret (ok true).

Definition PTH_CANCEL_KILL : Z := Z.lor PTH_CANCEL_ENABLE PTH_CANCEL_ASYNCHRONOUS.

Definition pth_abort_local (thread : addr) : st wd unit :=
  e ← pth_thread_exists (Some thread);
  if negb e.1 then mret tt else
  x ← rd_tcb (Some thread);
  if t_state x =? PTH_STATE_DEAD then
    if t_joinable x then on_q (qo_delete DQ (Some thread));; pth_tcb_free (Some thread) else mret tt
  else
    upd_tcb (Some thread) (set_joinable false);;
    upd_tcb (Some thread) (set_cancelstate PTH_CANCEL_KILL);;
    pth_cancel_local thread;;
    mret tt.
End ops.

(** ** What is relied on *)

Section quiet.
Context {H U : Type} `{!QueueOps H, !QueueLaws H, !CleanupOps H U}.
Abbreviation wd := (world H U).
Context (self : addr) (G E : gset addr).

(** What a cleanup may do: it does not move threads, and what it does to
    other threads of this scheduler is not their state. *)
Record quiet (w w' : wd) : Prop := {
  qu_q : w_q w' = w_q w;
  qu_g : w_g w' = w_g w;
  qu_dom : dom (w_tcb w') = dom (w_tcb w);
  qu_tcb : forall t x, w_tcb w !! t = Some x -> exists x', w_tcb w' !! t = Some x' /\ t_home x' = t_home x /\
    (t_home x = self -> t_state x' = t_state x /\ t_joinable x' = t_joinable x);
  qu_join : joins_ok self (w_tcb w) (w_wq w) -> joins_ok self (w_tcb w') (w_wq w');
  qu_ev : ev_keeps E (w_ev w) (w_ev w');
  qu_inb : inb_ext self G (w_inb w) (w_inb w')
}.

Lemma quiet_refl w : quiet w w.
Proof. constructor; auto using ev_keeps_refl, inb_ext_refl. intros t x Hx. by exists x. Qed.
Lemma quiet_trans w1 w2 w3 : quiet w1 w2 -> quiet w2 w3 -> quiet w1 w3.
Proof.
  intros [A1 A2 A3 A4 A5 A6 A7] [B1 B2 B3 B4 B5 B6 B7]. constructor; [congruence..| | | |].
  - intros t x Hx. destruct (A4 t x Hx) as (y & Hy & Hh & Hs). destruct (B4 t y Hy) as (z & Hz & Hh' & Hs').
    exists z. split_and!; [done|congruence|]. intros Hself. destruct (Hs Hself), (Hs' ltac:(congruence)). split; congruence.
  - auto.
  - by eapply ev_keeps_trans.
  - by eapply inb_ext_trans.
Qed.
Lemma quiet_wstep w w' : quiet w w' -> wstep self G E w w'.
Proof. intros [A1 A2 A3 A4 A5 A6 A7]. constructor; try done; by rewrite A2. Qed.

Lemma quiet_tinv w w' Q L : quiet w w' -> tinv self G w Q L -> tinv self G w' Q L.
Proof.
  intros [A1 A2 A3 A4 A5 A6 A7] [B1 B2 B3 B4 B5 B6].
  assert (Hback : forall t y, w_tcb w' !! t = Some y -> exists x, w_tcb w !! t = Some x /\ t_home x = t_home y).
  { intros t y Hy. assert (Ht : t ∈ dom (w_tcb w)) by (rewrite <- A3; by apply elem_of_dom).
    apply elem_of_dom in Ht as [x Hx]. exists x. split; [done|]. destruct (A4 t x Hx) as (y' & Hy' & Hh & _). congruence. }
  constructor.
  - by rewrite A1, A3.
  - intros n t Ht. destruct (B2 n t Ht) as (x & Hx & Hh & Hs). destruct (A4 t x Hx) as (y & Hy & Hyh & Hys).
    destruct (Hys Hh) as [Hys1 _]. exists y. split_and!; [done|congruence|by rewrite Hys1].
  - intros t Ht. destruct (B3 t Ht) as (Hn & x & Hx & Hh). destruct (A4 t x Hx) as (y & Hy & Hyh & _).
    split; [done|]. exists y. split; [done|congruence].
  - intros t y Hy Hh. destruct (Hback t y Hy) as (x & Hx & Hxh). apply (B4 t x); congruence.
  - intros t y Hy. destruct (Hback t y Hy) as (x & Hx & Hxh). rewrite <- Hxh. by apply (B5 t).
  - by apply A5.
Qed.
End quiet.

(** The resources of threads keep their own invariant; with it and a sound
    heap every cleanup operation on an allocated thread is defined and
    quiet. *)
Class CleanupLaws (H U : Type) `{!QueueOps H, !QueueLaws H, !CleanupOps H U} (self : addr) (G E : gset addr) := {
  co_ok : U -> Prop;
  co_run : forall (m : addr -> st (world H U) unit) t w x,
    m = (fun t => co_popall t true) \/ m = (fun t => co_popall t false) \/ m = co_destroydata \/ m = co_releaseall \/
      m = co_free_data ->
    w_tcb w !! t = Some x -> t_home x = self -> joins_ok self (w_tcb w) (w_wq w) ->
    (exists l, inbox_ok G self (w_inb w) l) -> co_ok (w_user w) ->
    exists w', m t w = Some (tt, w') /\ quiet self G E w w' /\ co_ok (w_user w')
}.

(** Freeing the data of a thread and dropping its cleanup handlers concerns
    the user's memory only; [fr_keep]: what is kept of it. *)
Class FreeLaws (H U : Type) `{!QueueOps H, !CleanupOps H U} := {
  fr_keep : U -> U -> Prop;
  fr_refl : forall u, fr_keep u u;
  fr_trans : forall u1 u2 u3, fr_keep u1 u2 -> fr_keep u2 u3 -> fr_keep u1 u3;
  fr_run : forall (m : addr -> st (world H U) unit) t w w',
    m = (fun t => co_popall t false) \/ m = co_free_data -> m t w = Some (tt, w') ->
    exists u, w' = set_user u w /\ fr_keep (w_user w) u
}.

Section specs.
Context {H U : Type} `{!QueueOps H, !QueueLaws H, !CleanupOps H U}.
Context (self : addr) (G E : gset addr) `{!CleanupLaws H U self G E}.
Context (malloc : gset addr -> ptr) (malloc_fresh : forall A a, malloc A = Some a -> a ∉ A).
Abbreviation wd := (world H U).
Abbreviation tinv := (tinv self G).
Abbreviation wstep := (wstep self G E).

(** The invariant with the parts that the operations need besides. *)
Record winv (w : wd) (Q : qlists) (L : gset addr) : Prop := {
  wi_t : tinv w Q L;
  wi_inb : exists l, inbox_ok G self (w_inb w) l;
  wi_user : co_ok (w_user w)
}.

Lemma exists_ok (w : wd) Q L t : tinv w Q L ->
  exists e : bool, pth_thread_exists (Some t) w = Some ((e, if e then None else Some ESRCH), w) /\
    (e = true <-> exists n, in_q Q n t).
Proof.
  intros [Hq _ _ _ _ _].
  assert (Hc : forall n, on_q (qo_contains n (Some t)) w = Some (bool_decide (in_q Q n t), w)).
  { intros n. rewrite (x_on_q _ w _ _ (q_contains_ok _ _ _ n t Hq)). by destruct w. }
  unfold pth_thread_exists. exists (bool_decide (in_q Q NQ t) || bool_decide (in_q Q RQ t) || bool_decide (in_q Q WQ t)
    || bool_decide (in_q Q SQ t) || bool_decide (in_q Q DQ t)). split.
  - repeat (rewrite (st_bind_Some _ _ _ _ _ (Hc _)); case_bool_decide; cbn [negb orb]; [done|]). done.
  - rewrite !orb_true_iff, !bool_decide_eq_true. split; [naive_solver|]. intros [[] Hn]; tauto.
Qed.

Lemma x_on_wq {A : Type} (m : st wheap A) (w : wd) a h : m (w_wq w) = Some (a, h) -> on_wq m w = Some (a, set_wq h w).
Proof. intros Hm. unfold on_wq, zoom. by rewrite Hm. Qed.

(** The own inbox holds the same messages. *)
Definition inb_same (h h' : iheap) : Prop := forall l, inbox_ok G self h l -> inbox_ok G self h' l.

(** Posting to a scheduler that exists. *)
Lemma post_ok (w : wd) l o kind t ev : inbox_ok G self (w_inb w) l -> o ∈ G ->
  exists r h, post self malloc o kind t ev w = Some (r, set_inb h w) /\ inb_ext self G (w_inb w) h /\
    (exists l', inbox_ok G self h l') /\ (o <> self -> inb_same (w_inb w) h).
Proof.
  intros Hl Ho. unfold post. rewrite (st_bind_Some get_st _ w w w eq_refl).
  assert (Hfr : forall a, malloc (dom (i_nodes (w_inb w))) = Some a -> i_nodes (w_inb w) !! a = None).
  { intros a Ha. apply not_elem_of_dom. by apply malloc_fresh. }
  destruct (post_body_ok G self (w_inb w) l _ o (Gbody kind t ev 0) Hl Ho Hfr) as (h & new & Eh & Hh & _).
  exists (bool_decide (malloc (dom (i_nodes (w_inb w))) <> NULL)), h. split_and!.
  - unfold on_inbox, zoom, pth_gsched_post. by rewrite Eh.
  - intros l2 Hl2. destruct (post_body_ok G self (w_inb w) l2 _ o (Gbody kind t ev 0) Hl2 Ho Hfr) as (h2 & new2 & Eh2 & Hh2 & Hs & Hf & _).
    rewrite Eh in Eh2. injection Eh2 as <-. by exists new2.
  - by exists (new ++ l).
  - intros Hne l2 Hl2. destruct (post_body_ok G self (w_inb w) l2 _ o (Gbody kind t ev 0) Hl2 Ho Hfr) as (h2 & new2 & Eh2 & Hh2 & _ & _ & Hn).
    rewrite Eh in Eh2. injection Eh2 as <-. rewrite bool_decide_eq_false_2 in Hn by done. subst new2.
    by destruct (malloc (dom (i_nodes (w_inb w)))).
Qed.

(** The joiners of a thread are all taken out of its queue. *)
Lemma wake_joiners_ok (w : wd) Q L t x l fuel J :
  tinv w Q L -> (exists li, inbox_ok G self (w_inb w) li) -> w_tcb w !! t = Some x -> t_home x = self ->
  joins_rep self (w_tcb w) (w_wq w) J -> J t = l -> (length l <= fuel)%nat ->
  exists w', wake_joiners self malloc fuel (Some t) w = Some (tt, w') /\
    tinv w' Q L /\ wstep w w' /\ (exists li, inbox_ok G self (w_inb w') li) /\ w_user w' = w_user w /\ w_q w' = w_q w /\
    w_tcb w' = <[t := set_join_waitq (Waitq NULL NULL) x]> (w_tcb w) /\ w_g w' = w_g w /\ w_ev w' = w_ev w /\
    inb_same (w_inb w) (w_inb w').
Proof.
  revert w x fuel J. induction l as [|j l IH]; intros w x fuel J Ht [li Hli] Hx Hxh HJ HJt Hf;
    assert (Hrep := jo_rep _ _ _ _ HJ t x Hx Hxh);
    destruct (waitq_shift_ok _ _ _ Hrep) as (h' & q' & Es & Hrep' & Hfr);
    assert (HJ1 := joins_shift _ _ _ _ _ _ _ _ HJ Hx Hxh Hrep' Hfr);
    assert (Ht1 := tinv_upd_join self G w Q L t x (set_join_waitq q' x) h' Ht Hx eq_refl ltac:(by right; right) (ex_intro _ _ HJ1));
    assert (Es' := x_on_wq _ _ _ _ Es); assert (Eu := x_upd_tcb (set_wq h' w) t x (set_join_waitq q') Hx);
    rewrite HJt in *; cbn [head tail] in *.
  - apply wq_empty in Hrep'. subst q'. eexists. split.
    + destruct fuel; cbn [wake_joiners]; rewrite (st_bind_Some _ _ _ _ _ (x_rd_tcb w t x Hx)), (st_bind_Some _ _ _ _ _ Es');
        cbn [fst snd]; rewrite (st_bind_Some _ _ _ _ _ Eu); reflexivity.
    + split_and!; try done; [by apply wstep_same|by exists li|by intros ?].
  - destruct (jo_in _ _ _ _ HJ t x j Hx Hxh) as (y & Hy & Hyh); [rewrite HJt; by left|].
    assert (Hjt : j <> t) by (intros ->; congruence).
    set (x1 := set_join_waitq q' x) in *. set (w1 := set_tcb (<[t := x1]> (w_tcb w)) (set_wq h' w)) in *.
    assert (Hy1 : w_tcb w1 !! j = Some y) by (unfold w1; cbn; by rewrite lookup_insert_ne).
    destruct (post_ok w1 li (t_home y) PTH_GMSG_WAKE (Some j) (t_wq_event y) Hli (ti_home _ _ _ _ _ Ht j y Hy))
      as (r & hi & Ep & Hext & Hli' & Hsame).
    destruct fuel as [|fuel]; [cbn in Hf; lia|].
    destruct (IH (set_inb hi w1) x1 fuel (fun u => if decide (u = t) then l else J u) (tinv_other self G w1 (set_inb hi w1) Q L eq_refl eq_refl eq_refl Ht1) Hli')
      as (w' & E' & Ht' & Hst' & Hli2 & Hu & Hq & Htc & Hg & He & Hib).
    { cbn. by rewrite lookup_insert_eq. } { done. } { exact HJ1. } { by rewrite decide_True. } { cbn in Hf; lia. }
    exists w'. split.
    + cbn [wake_joiners]. rewrite (st_bind_Some _ _ _ _ _ (x_rd_tcb w t x Hx)), (st_bind_Some _ _ _ _ _ Es').
      cbn [fst snd]. rewrite (st_bind_Some _ _ _ _ _ Eu), (st_bind_Some _ _ _ _ _ (x_rd_tcb w1 j y Hy1)),
        (st_bind_Some _ _ _ _ _ Ep). exact E'.
    + split_and!; try done.
      * eapply wstep_trans; [|exact Hst']. constructor; try done; apply ev_keeps_refl.
      * rewrite Htc. cbn. by rewrite insert_insert_eq.
      * intros l2 Hl2. by apply Hib, (Hsame Hyh).
Qed.

(** Moving a thread from one queue to another. *)
Definition qmove (n m : qname) (p : Z) (t : addr) (Q : qlists) : qlists :=
  let Q1 := qupd n (pq_del t (Q n)) Q in qupd m (pq_ins p t (Q1 m)) Q1.

Lemma move_ok (w : wd) Q L n m p t x : tinv w Q L -> in_q Q n t -> t ∉ L -> w_tcb w !! t = Some x ->
  state_ok m (t_state x) ->
  exists q1 q, on_q (qo_delete n (Some t)) w = Some (tt, set_q q1 w) /\
    on_q (qo_insert m p (Some t)) (set_q q1 w) = Some (tt, set_q q w) /\ tinv (set_q q w) (qmove n m p t Q) L.
Proof.
  intros Hi Ht HL Hx Hs. destruct (tinv_delete self G w Q L n t Hi Ht) as (q1 & E1 & Hi1). exists q1.
  destruct (tinv_insert self G (set_q q1 w) _ _ m p t x Hi1 ltac:(by apply elem_of_union_l, elem_of_singleton) Hx Hs)
    as (q & E2 & Hi2). exists q. split_and!; [done|done|].
  eapply tinv_set; [|exact Hi2]. apply set_eq. intros a. rewrite elem_of_difference, elem_of_union, elem_of_singleton.
  split; [tauto|]. intros Ha. split; [by right|]. by intros ->.
Qed.

Lemma winv_same (w w' : wd) Q Q' L L' : winv w Q L -> tinv w' Q' L' -> w_inb w' = w_inb w -> w_user w' = w_user w -> winv w' Q' L'.
Proof. intros [_ Hi Hu] Ht Ei Eu. constructor; by rewrite ?Ei, ?Eu. Qed.

Lemma contains_q (w : wd) Q L n t : tinv w Q L ->
  on_q (qo_contains n (Some t)) w = Some (bool_decide (in_q Q n t), w).
Proof. intros [Hq _ _ _ _ _]. rewrite (x_on_q _ w _ _ (q_contains_ok _ _ _ n t Hq)). by destruct w. Qed.

Lemma live_q_ok n s : state_ok n s -> n = NQ \/ n = RQ \/ n = WQ -> live_q s = Some n.
Proof. intros Hs Hn. destruct Hn as [->|[->| ->]]; cbn in Hs; by subst. Qed.
Lemma live_q_susp s : state_ok SQ s -> exists n, live_q s = Some n /\ (n = NQ \/ n = RQ \/ n = WQ) /\ state_ok n s.
Proof. intros [->|[->| ->]]; eexists; (split; [reflexivity|]); cbn; auto. Qed.
Lemma live_q_dead s : state_ok DQ s -> live_q s = None.
Proof. by intros ->. Qed.

(** [pth_suspend_local] on every thread: it moves a new, ready or waiting
    thread to the suspend queue, and fails for all others. *)
Lemma suspend_ok (w : wd) Q L t :
  winv w Q L -> (g_scheduler (w_g w) <> Some t) -> (forall n, in_q Q n t -> t ∉ L) ->
  exists r w' Q', pth_suspend_local (Some t) w = Some (r, w') /\ winv w' Q' L /\ wstep w w' /\ w_tcb w' = w_tcb w /\
    ((exists n, (n = NQ \/ n = RQ \/ n = WQ) /\ in_q Q n t /\ r = ok true /\ Q' = qmove n SQ PTH_PRIO_STD t Q) \/
     (in_q Q SQ t /\ r = pth_error false ESRCH /\ Q' = Q) \/
     (in_q Q DQ t /\ r = pth_error false EPERM /\ Q' = Q) \/
     (in_no_q Q t /\ r = pth_error false ESRCH /\ Q' = Q)).
Proof.
  intros Hw Hs HL. assert (Hi := wi_t _ _ _ Hw). unfold pth_suspend_local.
  rewrite (st_bind_Some (getg g_scheduler) _ w (g_scheduler (w_g w)) w eq_refl).
  rewrite bool_decide_eq_false_2 by congruence.
  destruct (exists_ok w Q L t Hi) as (e & Ee & He). rewrite (st_bind_Some _ _ _ _ _ Ee). cbn [fst].
  destruct e; cbn [negb].
  2: { exists (pth_error false ESRCH), w, Q. split_and!; [done|done|apply wstep_refl|done|]. right; right; right. split_and!; try done.
       intros n Hn. by assert (false = true) by (apply He; by exists n). }
  destruct (proj1 He eq_refl) as [n Hn]. destruct (ti_state _ _ _ _ _ Hi n t Hn) as (x & Hx & Hxh & Hxs).
  rewrite (st_bind_Some _ _ _ _ _ (x_rd_tcb w t x Hx)).
  destruct (decide (n = NQ \/ n = RQ \/ n = WQ)) as [Hl|Hl].
  - rewrite (live_q_ok n _ Hxs Hl). rewrite (st_bind_Some _ _ _ _ _ (contains_q w Q L n t Hi)).
    rewrite bool_decide_eq_true_2 by done. cbn [negb].
    destruct (move_ok w Q L n SQ PTH_PRIO_STD t x Hi Hn (HL n Hn) Hx) as (q1 & q & E1 & E2 & Hi2).
    { destruct Hl as [->|[->| ->]]; cbn in *; auto. }
    rewrite (st_bind_Some _ _ _ _ _ E1), (st_bind_Some _ _ _ _ _ E2).
    eexists (ok true), _, _. split_and!; [done|by eapply winv_same|by apply wstep_same|done|]. left. by exists n.
  - destruct n; try tauto.
    + destruct (live_q_susp _ Hxs) as (m & Em & Hm & _). rewrite Em.
      rewrite (st_bind_Some _ _ _ _ _ (contains_q w Q L m t Hi)).
      rewrite bool_decide_eq_false_2; [|intros Hm'; by assert (Hq := q_one _ _ _ _ _ _ (ti_q _ _ _ _ _ Hi) Hm' Hn); naive_solver].
      exists (pth_error false ESRCH), w, Q. split_and!; [done|done|apply wstep_refl|done|tauto].
    + rewrite (live_q_dead _ Hxs). exists (pth_error false EPERM), w, Q. split_and!; [done|done|apply wstep_refl|done|tauto].
Qed.

(** [pth_resume_local] moves a suspended thread to the queue of its state. *)
Lemma resume_ok (w : wd) Q L t :
  winv w Q L -> (g_scheduler (w_g w) <> Some t) -> (forall n, in_q Q n t -> t ∉ L) ->
  exists r w' Q', pth_resume_local (Some t) w = Some (r, w') /\ winv w' Q' L /\ wstep w w' /\ w_tcb w' = w_tcb w /\
    ((exists n, in_q Q SQ t /\ (n = NQ \/ n = RQ \/ n = WQ) /\ (forall x, w_tcb w !! t = Some x -> state_ok n (t_state x)) /\
        r = ok true /\ Q' = qmove SQ n PTH_PRIO_STD t Q) \/
     (~ in_q Q SQ t /\ r = pth_error false EPERM /\ Q' = Q)).
Proof.
  intros Hw Hs HL. assert (Hi := wi_t _ _ _ Hw). unfold pth_resume_local.
  rewrite (st_bind_Some (getg g_scheduler) _ w (g_scheduler (w_g w)) w eq_refl).
  rewrite bool_decide_eq_false_2 by congruence.
  rewrite (st_bind_Some _ _ _ _ _ (contains_q w Q L SQ t Hi)).
  case_bool_decide as Hn; cbn [negb].
  2: { exists (pth_error false EPERM), w, Q. split_and!; [done|done|apply wstep_refl|done|tauto]. }
  destruct (ti_state _ _ _ _ _ Hi SQ t Hn) as (x & Hx & Hxh & Hxs).
  destruct (live_q_susp _ Hxs) as (m & Em & Hm & Hms).
  destruct (move_ok w Q L SQ m PTH_PRIO_STD t x Hi Hn (HL SQ Hn) Hx Hms) as (q1 & q & E1 & E2 & Hi2).
  rewrite (st_bind_Some _ _ _ _ _ E1), (st_bind_Some _ _ _ _ _ (x_rd_tcb (set_q q1 w) t x Hx)). rewrite Em.
  rewrite (st_bind_Some _ _ _ _ _ E2).
  eexists (ok true), _, _. split_and!; [done|by eapply winv_same|by apply wstep_same|done|]. left. exists m.
  split_and!; try done. intros y Hy. congruence.
Qed.

Lemma favor_ok (w : wd) Q L t :
  winv w Q L -> (forall n, in_q Q n t -> t ∉ L) ->
  exists w' Q', pth_favor_local (Some t) w = Some (tt, w') /\ winv w' Q' L /\ wstep w w' /\ w_tcb w' = w_tcb w /\
    ((exists n, (n = NQ \/ n = RQ) /\ in_q Q n t /\ Q' = qupd n (pq_fav t (Q n)) Q) \/
     (~ in_q Q NQ t /\ ~ in_q Q RQ t /\ Q' = Q)).
Proof.
  intros Hw HL. assert (Hi := wi_t _ _ _ Hw). unfold pth_favor_local.
  destruct (exists_ok w Q L t Hi) as (e & Ee & He). rewrite (st_bind_Some _ _ _ _ _ Ee). cbn [fst].
  assert (Hsame : ~ in_q Q NQ t -> ~ in_q Q RQ t -> exists w' Q', Some (tt, w) = Some (tt, w') /\ winv w' Q' L /\ wstep w w' /\
    w_tcb w' = w_tcb w /\ ((exists n, (n = NQ \/ n = RQ) /\ in_q Q n t /\ Q' = qupd n (pq_fav t (Q n)) Q) \/
     (~ in_q Q NQ t /\ ~ in_q Q RQ t /\ Q' = Q))).
  { intros Hn1 Hn2. exists w, Q. split_and!; [done|done|apply wstep_refl|done|by right]. }
  destruct e; cbn [negb].
  2: { apply Hsame; intros Hn; by assert (false = true) by (apply He; by eexists). }
  destruct (proj1 He eq_refl) as [n Hn]. destruct (ti_state _ _ _ _ _ Hi n t Hn) as (x & Hx & Hxh & Hxs).
  rewrite (st_bind_Some _ _ _ _ _ (x_rd_tcb w t x Hx)).
  assert (Hone := fun m Hm => q_one _ _ _ m n t (ti_q _ _ _ _ _ Hi) Hm Hn).
  destruct (decide (n = NQ \/ n = RQ)) as [Hl|Hl].
  - assert (Er : run_q (t_state x) = Some n) by (destruct Hl as [->| ->]; cbn in Hxs; by rewrite Hxs).
    rewrite Er. rewrite (st_bind_Some _ _ _ _ _ (contains_q w Q L n t Hi)). rewrite bool_decide_eq_true_2 by done.
    destruct Hi as [Hq Hs Hlo Ha Hh Hj]. destruct (q_favorite_ok _ _ _ n t Hq Hn) as (q & Eq & Hq').
    rewrite (st_bind_Some _ _ _ _ _ (x_on_q _ w _ _ Eq)).
    assert (Hin : forall m t', in_q (qupd n (pq_fav t (Q n)) Q) m t' <-> in_q Q m t').
    { intros m t'. unfold in_q, qupd. case_decide; [subst m; by apply in_fav|done]. }
    eexists _, (qupd n (pq_fav t (Q n)) Q). split_and!; [done| |by apply wstep_same|done|left; by exists n].
    eapply winv_same; [exact Hw| |done|done]. constructor; cbn; try done.
    + intros m t' Hm%Hin. by apply (Hs m).
    + intros t' Ht'. destruct (Hlo t' Ht') as [Hno Hxx]. split; [|done]. intros m Hm. apply (Hno m). by apply Hin.
    + intros t' y Hy Hyh. destruct (Ha t' y Hy Hyh) as [?|[m Hm]]; [by left|right; exists m; by apply Hin].
  - destruct n; try tauto.
    + assert (Hno : ~ in_q Q NQ t /\ ~ in_q Q RQ t) by (split; intros Hm; by apply Hone in Hm); destruct Hno as [Hno1 Hno2].
      cbn in Hxs. replace (run_q (t_state x)) with (@None qname) by (by rewrite Hxs). by apply Hsame.
    + assert (Hno : ~ in_q Q NQ t /\ ~ in_q Q RQ t) by (split; intros Hm; by apply Hone in Hm); destruct Hno as [Hno1 Hno2].
      destruct (live_q_susp _ Hxs) as (m & Em & Hm & Hms). destruct Hm as [->|[->| ->]]; cbn in Hms; rewrite Hms; cbn.
      * rewrite (st_bind_Some _ _ _ _ _ (contains_q w Q L NQ t Hi)). rewrite bool_decide_eq_false_2 by tauto. by apply Hsame.
      * rewrite (st_bind_Some _ _ _ _ _ (contains_q w Q L RQ t Hi)). rewrite bool_decide_eq_false_2 by tauto. by apply Hsame.
      * by apply Hsame.
    + assert (Hno : ~ in_q Q NQ t /\ ~ in_q Q RQ t) by (split; intros Hm; by apply Hone in Hm); destruct Hno as [Hno1 Hno2].
      cbn in Hxs. replace (run_q (t_state x)) with (@None qname) by (by rewrite Hxs). by apply Hsame.
Qed.

(** A signal becomes pending at most once. *)
Lemma raise_ok (w : wd) Q L t sig :
  winv w Q L -> exists w', pth_raise_local (Some t) sig w = Some (tt, w') /\ winv w' Q L /\ wstep w w' /\
    (in_no_q Q t \/ in_q Q DQ t -> w' = w) /\
    (forall n x, in_q Q n t -> n <> DQ -> w_tcb w !! t = Some x ->
       w' = if bool_decide (sig ∈ t_sigpending x) then w
            else set_tcb (<[t := set_sigpend ({[sig]} ∪ t_sigpending x) (t_sigpendcnt x + 1) x]> (w_tcb w)) w).
Proof.
  intros Hw. assert (Hi := wi_t _ _ _ Hw). unfold pth_raise_local.
  destruct (exists_ok w Q L t Hi) as (e & Ee & He). rewrite (st_bind_Some _ _ _ _ _ Ee). cbn [fst].
  destruct e; cbn [negb].
  2: { exists w. split_and!; [done|done|apply wstep_refl|done|]. intros n x Hn.
       by assert (false = true) by (apply He; by eexists). }
  destruct (proj1 He eq_refl) as [n Hn]. destruct (ti_state _ _ _ _ _ Hi n t Hn) as (x & Hx & Hxh & Hxs).
  assert (Hone := fun m Hm => q_one _ _ _ m n t (ti_q _ _ _ _ _ Hi) Hm Hn).
  rewrite (st_bind_Some _ _ _ _ _ (x_rd_tcb w t x Hx)).
  destruct (decide (n = DQ)) as [->|Hnd].
  - cbn in Hxs. rewrite Hxs. change (PTH_STATE_DEAD =? PTH_STATE_DEAD) with true. cbv iota.
    exists w. split_and!; [done|done|apply wstep_refl|done|]. intros m y Hm Hmd. by apply Hone in Hm.
  - assert (Hlv : (t_state x =? PTH_STATE_DEAD) = false).
    { destruct n; cbn in Hxs; try done; try (by rewrite Hxs). destruct Hxs as [->|[->| ->]]; done. }
    rewrite Hlv. assert (Hno : ~ (in_no_q Q t \/ in_q Q DQ t)) by (intros [Hno|Hd]; [by apply (Hno n)|by apply Hone in Hd]).
    case_bool_decide as Hsig; cbn [negb].
    + exists w. split_and!; [done|done|apply wstep_refl|done|]. intros m y Hm _ Hy. simplify_eq.
      by rewrite bool_decide_eq_true_2.
    + rewrite (x_upd_tcb w t x _ Hx). eexists. split_and!; [done| |by apply wstep_same|done|].
      * eapply winv_same; [exact Hw| |done|done]. eapply tinv_upd; try done. by right; right.
      * intros m y Hm _ Hy. simplify_eq. by rewrite bool_decide_eq_false_2.
Qed.

(** One cleanup operation, or none. *)
Lemma maybe_run_ok (w0 w1 : wd) Q L t x (m : addr -> st wd unit) (b : U -> bool) :
  w_tcb w0 !! t = Some x -> t_home x = self ->
  m = (fun t => co_popall t true) \/ m = (fun t => co_popall t false) \/ m = co_destroydata \/ m = co_releaseall \/
    m = co_free_data ->
  quiet self G E w0 w1 -> winv w1 Q L ->
  exists w2, (if b (w_user w1) then m t else mret tt) w1 = Some (tt, w2) /\ quiet self G E w0 w2 /\ winv w2 Q L.
Proof.
  intros Hx Hxh Hm Hq1 [Ht1 Hi1 Hu1]. destruct (b (w_user w1)); [|by exists w1].
  destruct (qu_tcb _ _ _ _ _ Hq1 t x Hx) as (x1 & Hx1 & Hh1 & _).
  assert (Hs1 : t_home x1 = self) by congruence.
  destruct (co_run m t w1 x1 Hm Hx1 Hs1 (ti_join _ _ _ _ _ Ht1) Hi1 Hu1) as (w2 & E2 & Hq2 & Hu2).
  exists w2. split_and!; [done|by eapply quiet_trans|]. constructor; [by eapply quiet_tinv| |done].
  destruct Hi1 as [l Hl]. destruct (qu_inb _ _ _ _ _ Hq2 l Hl) as (new & Hnew & _). by exists (new ++ l).
Qed.

(** Cleaning up a thread leaves everybody where they are. *)
Lemma cleanup_ok (w : wd) Q L t x :
  winv w Q L -> w_tcb w !! t = Some x -> t_home x = self ->
  exists w', pth_thread_cleanup t w = Some (tt, w') /\ quiet self G E w w' /\ winv w' Q L.
Proof.
  intros Hw Hx Hxh. unfold pth_thread_cleanup.
  rewrite (st_bind_Some (getg g_current) _ w (g_current (w_g w)) w eq_refl).
  set (w0 := set_g (set_current (Some t) (w_g w)) w).
  rewrite (st_bind_Some (updg (set_current (Some t))) _ w tt w0 eq_refl).
  assert (Hw0 : winv w0 Q L) by (eapply winv_same; [exact Hw|eapply tinv_other; [..|apply Hw]; done|done|done]).
  rewrite (st_bind_Some get_st _ w0 w0 w0 eq_refl).
  destruct (maybe_run_ok w0 w0 Q L t x (fun t => co_popall t true) (co_has_cleanups t) Hx Hxh ltac:(tauto) (quiet_refl _ _ _ _) Hw0) as (w1 & E1 & Hq1 & Hw1).
  rewrite (st_bind_Some _ _ _ _ _ E1), (st_bind_Some get_st _ w1 w1 w1 eq_refl).
  destruct (maybe_run_ok w0 w1 Q L t x co_destroydata (co_has_data t) Hx Hxh ltac:(tauto) Hq1 Hw1) as (w2 & E2 & Hq2 & Hw2).
  rewrite (st_bind_Some _ _ _ _ _ E2).
  destruct (maybe_run_ok w0 w2 Q L t x co_releaseall (fun _ => true) Hx Hxh ltac:(tauto) Hq2 Hw2) as (w3 & E3 & Hq3 & Hw3).
  rewrite (st_bind_Some _ _ _ _ _ E3).
  eexists. split; [reflexivity|].
  assert (Hg : set_current (g_current (w_g w)) (w_g w3) = w_g w).
  { rewrite (qu_g _ _ _ _ _ Hq3). unfold w0. cbn. by destruct (w_g w). }
  split.
  - destruct Hq3 as [A1 A2 A3 A4 A5 A6 A7]. constructor; cbn; try done.
  - eapply winv_same; [exact Hw3|eapply tinv_other; [..|apply Hw3]; done|done|done].
Qed.

(** Freeing a thread that is in no queue. *)
Lemma tcb_free_ok (w : wd) Q L t x :
  winv w Q L -> t ∈ L -> w_tcb w !! t = Some x ->
  exists w1 w', pth_tcb_free (Some t) w = Some (tt, w') /\ winv w' Q (L ∖ {[t]}) /\ quiet self G E w w1 /\
    w_tcb w' = delete t (w_tcb w1) /\ w_g w' = w_g w1 /\ w_ev w' = w_ev w1 /\ w_inb w' = w_inb w1.
Proof.
  intros Hw Ht Hx. destruct (ti_loose _ _ _ _ _ (wi_t _ _ _ Hw) t Ht) as (_ & x' & Hx' & Hxh). simplify_eq.
  unfold pth_tcb_free. rewrite (st_bind_Some _ _ _ _ _ (x_rd_tcb w t x Hx)), (st_bind_Some get_st _ w w w eq_refl).
  destruct (maybe_run_ok w w Q L t x co_free_data (co_has_data t) Hx Hxh ltac:(tauto) (quiet_refl _ _ _ _) Hw)
    as (w1 & E1 & Hq1 & Hw1).
  rewrite (st_bind_Some _ _ _ _ _ E1), (st_bind_Some get_st _ w1 w1 w1 eq_refl).
  destruct (maybe_run_ok w w1 Q L t x (fun t => co_popall t false) (co_has_cleanups t) Hx Hxh ltac:(tauto) Hq1 Hw1)
    as (w2 & E2 & Hq2 & Hw2).
  rewrite (st_bind_Some _ _ _ _ _ E2), (st_bind_Some get_st _ w2 w2 w2 eq_refl).
  destruct (qu_tcb _ _ _ _ _ Hq2 t x Hx) as (x2 & Hx2 & _).
  exists w2. eexists. split_and!; [reflexivity| |done|done|done|done|done].
  eapply winv_same; [exact Hw2|by eapply tinv_free, Hx2; [apply Hw2|]|done|done].
Qed.

(** What is freed with a thread are its own resources. *)
Lemma tcb_free_keeps `{!FreeLaws H U} (w w' : wd) t x : w_tcb w !! t = Some x -> pth_tcb_free (Some t) w = Some (tt, w') ->
  exists u, fr_keep (w_user w) u /\ w' = set_q (qo_free t (w_q w)) (set_tcb (delete t (w_tcb w)) (set_user u w)).
Proof.
  intros Hx. unfold pth_tcb_free. rewrite (st_bind_Some _ _ _ _ _ (x_rd_tcb w t x Hx)), (st_bind_Some get_st _ w w w eq_refl).
  assert (Hone : forall (m : addr -> st wd unit) (b : bool) (w1 : wd) (k : unit -> st wd unit),
      m = (fun t => co_popall t false) \/ m = co_free_data -> ((if b then m t else mret tt) ≫= k) w1 = Some (tt, w') ->
      exists u, fr_keep (w_user w1) u /\ k tt (set_user u w1) = Some (tt, w')).
  { intros m b w1 k Hm Hb. destruct b.
    - unfold mbind, st_bind in Hb. destruct (m t w1) as [[[] w2]|] eqn:Em; [|done].
      destruct (fr_run m t w1 w2 Hm Em) as (u & -> & Hu). by exists u.
    - exists (w_user w1). split; [apply fr_refl|]. by destruct w1. }
  intros H1. destruct (Hone co_free_data _ w _ ltac:(tauto) H1) as (u1 & Hu1 & H2).
  rewrite (st_bind_Some get_st _ _ _ _ eq_refl) in H2.
  destruct (Hone (fun t => co_popall t false) _ _ _ ltac:(tauto) H2) as (u2 & Hu2 & H3).
  rewrite (st_bind_Some get_st _ _ _ _ eq_refl) in H3. injection H3 as <-. exists u2. split; [by eapply fr_trans|done].
Qed.

(** The own threads other than [t] stay as they are, in what the queues
    depend on. *)
Definition others (t : addr) (w w' : wd) : Prop :=
  forall t' x, t' <> t -> w_tcb w !! t' = Some x -> exists x', w_tcb w' !! t' = Some x' /\ t_home x' = t_home x /\
    (t_home x = self -> t_state x' = t_state x /\ t_joinable x' = t_joinable x).
Lemma others_quiet t w w' : quiet self G E w w' -> others t w w'.
Proof. intros Hq t' x _. apply (qu_tcb _ _ _ _ _ Hq). Qed.
Lemma others_trans t w1 w2 w3 : others t w1 w2 -> others t w2 w3 -> others t w1 w3.
Proof.
  intros A B t' x Hne Hx. destruct (A t' x Hne Hx) as (y & Hy & Hh & Hs). destruct (B t' y Hne Hy) as (z & Hz & Hh' & Hs').
  exists z. split_and!; [done|congruence|]. intros Hself. destruct (Hs Hself), (Hs' ltac:(congruence)). split; congruence.
Qed.
Lemma others_upd t y (w w' : wd) : w_tcb w' = <[t := y]> (w_tcb w) -> others t w w'.
Proof. intros Hw t' x Hne Hx. exists x. rewrite Hw, lookup_insert_ne by done. done. Qed.
Lemma others_same t (w w' : wd) : w_tcb w' = w_tcb w -> others t w w'.
Proof. intros Hw t' x Hne Hx. exists x. by rewrite Hw. Qed.

(** Publishing a death empties the join queue. *)
Lemma publish_ok (w : wd) Q L t x :
  winv w Q L -> w_tcb w !! t = Some x -> t_home x = self ->
  exists w', publish_death self malloc (Some t) w = Some (tt, w') /\ winv w' Q L /\ wstep w w' /\
    w_tcb w' = <[t := set_join_waitq pth_waitq_init (set_join_done true x)]> (w_tcb w) /\
    w_q w' = w_q w /\ w_g w' = w_g w /\ w_ev w' = w_ev w /\ w_user w' = w_user w /\ inb_same (w_inb w) (w_inb w').
Proof.
  intros [Ht Hi Hu] Hx Hxh. unfold publish_death. rewrite (st_bind_Some _ _ _ _ _ (x_upd_tcb w t x _ Hx)).
  set (w1 := set_tcb (<[t := set_join_done true x]> (w_tcb w)) w).
  rewrite (st_bind_Some get_st _ w1 w1 w1 eq_refl).
  assert (Ht1 : tinv w1 Q L) by (eapply tinv_upd; [exact Ht|exact Hx|done|done|by right; right]).
  destruct (ti_join _ _ _ _ _ Ht1) as [J HJ].
  assert (Hx1 : w_tcb w1 !! t = Some (set_join_done true x)) by (cbn; by rewrite lookup_insert_eq).
  destruct (wake_joiners_ok w1 Q L t _ (J t) (size (w_wq w1)) J Ht1 Hi Hx1 Hxh HJ eq_refl)
    as (w' & E' & Ht' & Hst & Hib & Hus & Hq & Htc & Hg & He & Hsame).
  { eapply chain_fuel. by eapply (jo_rep _ _ _ _ HJ). }
  exists w'. split_and!; try done.
  - constructor; [done|done|by rewrite Hus].
  - eapply wstep_trans; [|exact Hst]. by apply wstep_same.
  - rewrite Htc. cbn. by rewrite insert_insert_eq.
Qed.

Lemma bury_ok (w : wd) Q L t x :
  winv w Q ({[t]} ∪ L) -> t ∉ L -> w_tcb w !! t = Some x -> t_state x = PTH_STATE_DEAD ->
  exists w', bury self malloc (Some t) w = Some (tt, w') /\ winv w' (qupd DQ (pq_ins PTH_PRIO_STD t (Q DQ)) Q) L /\
    wstep w w' /\ w_tcb w' = <[t := set_join_waitq pth_waitq_init (set_join_done true x)]> (w_tcb w) /\
    w_g w' = w_g w /\ w_ev w' = w_ev w /\ w_user w' = w_user w /\ inb_same (w_inb w) (w_inb w').
Proof.
  intros Hw HL Hx Hs. assert (Hi := wi_t _ _ _ Hw).
  assert (Ht : t ∈ ({[t]} ∪ L : gset addr)) by set_solver.
  destruct (ti_loose _ _ _ _ _ Hi t Ht) as (_ & x' & Hx' & Hxh). rewrite Hx in Hx'. injection Hx' as <-.
  unfold bury. destruct (tinv_insert self G w Q _ DQ PTH_PRIO_STD t x Hi Ht Hx Hs) as (q & Eq & Hi1).
  rewrite (st_bind_Some _ _ _ _ _ Eq).
  assert (Hset : ({[t]} ∪ L) ∖ {[t]} = L) by set_solver. rewrite Hset in Hi1.
  assert (Hw1 : winv (set_q q w) (qupd DQ (pq_ins PTH_PRIO_STD t (Q DQ)) Q) L) by (by eapply winv_same).
  destruct (publish_ok (set_q q w) _ L t x Hw1 Hx Hxh) as (w' & E' & Hw' & Hst & Htc & _ & Hg & He & Hus & Hsame).
  exists w'. split_and!; try done. eapply wstep_trans; [|exact Hst]. by apply wstep_same.
Qed.

(** What becomes of a thread that is killed: it leaves its queue, and the
    dead queue keeps it if it is joinable. *)
Definition killed (t : addr) (joinable : bool) (Q Q' : qlists) (w' : wd) : Prop :=
  exists n, (n = NQ \/ n = RQ \/ n = WQ) /\ in_q Q n t /\
    if joinable
    then Q' = qmove n DQ PTH_PRIO_STD t Q /\
         exists x', w_tcb w' !! t = Some x' /\ t_state x' = PTH_STATE_DEAD /\ t_join_arg x' = PTH_CANCELED /\
           t_join_done x' = true /\ t_join_waitq x' = pth_waitq_init
    else Q' = qupd n (pq_del t (Q n)) Q /\ w_tcb w' !! t = None.

(** Killing a thread on the spot. *)
Lemma cancel_now_ok (w : wd) Q L t x :
  winv w Q L -> w_tcb w !! t = Some x -> (exists n, in_q Q n t /\ n <> DQ) -> t ∉ L ->
  exists r w' Q', cancel_now self malloc t w = Some (r, w') /\ winv w' Q' L /\ wstep w w' /\ others t w w' /\
    ((in_q Q SQ t /\ r = pth_error false ESRCH /\ w' = w /\ Q' = Q) \/
     (r = ok true /\ killed t (t_joinable x) Q Q' w')).
Proof.
  intros Hw Hx (n & Hn & Hnd) HL. assert (Hi := wi_t _ _ _ Hw). unfold cancel_now.
  destruct (ti_state _ _ _ _ _ Hi n t Hn) as (x' & Hx' & Hxh & Hxs). simplify_eq.
  rewrite (st_bind_Some _ _ _ _ _ (x_rd_tcb w t x Hx)).
  destruct (decide (n = SQ)) as [->|Hns].
  { destruct (live_q_susp _ Hxs) as (m & Em & Hm & _). rewrite Em.
    rewrite (st_bind_Some _ _ _ _ _ (contains_q w Q L m t Hi)).
    rewrite bool_decide_eq_false_2; [|intros Hm'; by assert (Hq := q_one _ _ _ _ _ _ (ti_q _ _ _ _ _ Hi) Hm' Hn); naive_solver].
    exists (pth_error false ESRCH), w, Q. split_and!; [done|done|apply wstep_refl|by apply others_same|by left]. }
  assert (Hl : n = NQ \/ n = RQ \/ n = WQ) by (destruct n; tauto).
  rewrite (live_q_ok n _ Hxs Hl). rewrite (st_bind_Some _ _ _ _ _ (contains_q w Q L n t Hi)).
  rewrite bool_decide_eq_true_2 by done. cbn [negb].
  destruct (tinv_delete self G w Q L n t Hi Hn) as (q1 & E1 & Hi1). rewrite (st_bind_Some _ _ _ _ _ E1).
  assert (Hw1 : winv (set_q q1 w) (qupd n (pq_del t (Q n)) Q) ({[t]} ∪ L)) by (by eapply winv_same).
  destruct (cleanup_ok _ _ _ t x Hw1 Hx Hxh) as (w2 & E2 & Hq2 & Hw2). rewrite (st_bind_Some _ _ _ _ _ E2).
  destruct (qu_tcb _ _ _ _ _ Hq2 t x Hx) as (x2 & Hx2 & Hxh2 & Hs2). destruct (Hs2 Hxh) as [_ Hj2].
  rewrite (st_bind_Some _ _ _ _ _ (x_rd_tcb w2 t x2 Hx2)). rewrite Hj2.
  assert (Hset : ({[t]} ∪ L) ∖ {[t]} = L) by set_solver.
  assert (Hws : wstep w w2).
  { eapply wstep_trans; [|by eapply quiet_wstep]. by apply wstep_same. }
  assert (Ho2 : others t w w2) by (eapply others_trans; [by apply (others_same t w (set_q q1 w))|by apply others_quiet]).
  destruct (t_joinable x); cbn [negb].
  - set (xa := set_join_arg PTH_CANCELED x2) in *. set (xd := set_state PTH_STATE_DEAD xa).
    set (wd := set_tcb (<[t := xd]> (w_tcb w2)) w2).
    set (wa := set_tcb (<[t := xa]> (w_tcb w2)) w2).
    assert (Ea := x_upd_tcb w2 t x2 (set_join_arg PTH_CANCELED) Hx2).
    assert (Ed : upd_tcb (Some t) (set_state PTH_STATE_DEAD) wa = Some (tt, wd)).
    { erewrite x_upd_tcb by (cbn; apply lookup_insert_eq). unfold wd, wa. cbn. by rewrite insert_insert_eq. }
    assert (Hwd : winv wd (qupd n (pq_del t (Q n)) Q) ({[t]} ∪ L)).
    { eapply winv_same; [exact Hw2| |done|done]. eapply tinv_upd; [apply Hw2|exact Hx2|done|done|left]. apply elem_of_union_l, elem_of_singleton; done. }
    assert (Hxd : w_tcb wd !! t = Some xd) by (cbn; by rewrite lookup_insert_eq).
    destruct (bury_ok wd _ L t xd Hwd HL Hxd eq_refl) as (w3 & E3 & Hw3 & Hst3 & Htc3 & _).
    exists (ok true), w3, (qmove n DQ PTH_PRIO_STD t Q). split_and!; [| |  | |].
    + rewrite st_bind_assoc, (st_bind_Some _ _ _ _ _ Ea), st_bind_assoc, (st_bind_Some _ _ _ _ _ Ed),
        (st_bind_Some _ _ _ _ _ E3). done.
    + done.
    + eapply wstep_trans; [exact Hws|]. eapply wstep_trans; [|exact Hst3]. by apply wstep_same.
    + eapply others_trans; [exact Ho2|].
      apply (others_trans t w2 wd w3); [by apply (others_upd t xd)|by eapply others_upd, Htc3].
    + right. split; [done|]. exists n. split_and!; try done. eexists. rewrite Htc3, lookup_insert_eq. by split_and!.
  - destruct (tcb_free_ok w2 _ _ t x2 Hw2 ltac:(set_solver) Hx2) as (w3 & w4 & E4 & Hw4 & Hq4 & Htc & Hg & He & Hib).
    rewrite Hset in Hw4. rewrite (st_bind_Some _ _ _ _ _ E4). exists (ok true), w4, (qupd n (pq_del t (Q n)) Q).
    split_and!; [done|done| | |].
    + eapply wstep_trans; [exact Hws|]. destruct (quiet_wstep _ _ _ _ _ Hq4) as [C1 C2 C3 C4 C5 C6]. constructor; by rewrite ?Hg, ?He, ?Hib.
    + eapply others_trans; [exact Ho2|]. eapply others_trans; [by apply others_quiet|].
      intros t' y Hne Hy. exists y. rewrite Htc, lookup_delete_ne by done. done.
    + right. split; [done|]. exists n. split_and!; try done. by rewrite Htc, lookup_delete_eq.
Qed.

Lemma in_q_loose (w : wd) Q L n t : tinv w Q L -> in_q Q n t -> t ∉ L.
Proof. intros Hi Hn HL. by apply (proj1 (ti_loose _ _ _ _ _ Hi t HL) n). Qed.
Lemma live_not_dead n s : state_ok n s -> n <> DQ -> (s =? PTH_STATE_DEAD) = false.
Proof. intros Hs Hn. destruct n; cbn in Hs; try done; try (by rewrite Hs). destruct Hs as [->|[->| ->]]; done. Qed.

Definition async (x : tcb) : bool :=
  has_flag (t_cancelstate x) PTH_CANCEL_ENABLE && has_flag (t_cancelstate x) PTH_CANCEL_ASYNCHRONOUS.

Lemma cancel_local_ok (w : wd) Q L t :
  winv w Q L ->
  exists r w' Q', pth_cancel_local self malloc t w = Some (r, w') /\ winv w' Q' L /\ wstep w w' /\ others t w w' /\
    ((in_no_q Q t /\ r = pth_error false ESRCH /\ w' = w /\ Q' = Q) \/
     (in_q Q DQ t /\ r = pth_error false EPERM /\ w' = w /\ Q' = Q) \/
     (exists n x, in_q Q n t /\ n <> DQ /\ w_tcb w !! t = Some x /\
        ((async x = true /\ n <> SQ /\ r = ok true /\ killed t (t_joinable x) Q Q' w') \/
         ((async x = false \/ n = SQ) /\ r = (if async x then pth_error false ESRCH else ok true) /\ Q' = Q /\
          w' = set_tcb (<[t := set_cancelreq true x]> (w_tcb w)) w)))).
Proof.
  intros Hw. assert (Hi := wi_t _ _ _ Hw). unfold pth_cancel_local.
  destruct (exists_ok w Q L t Hi) as (e & Ee & He). rewrite (st_bind_Some _ _ _ _ _ Ee). cbn [fst].
  destruct e; cbn [negb].
  2: { exists (pth_error false ESRCH), w, Q. split_and!; [done|done|apply wstep_refl|by apply others_same|left].
       split_and!; try done. intros n Hn. by assert (false = true) by (apply He; by exists n). }
  destruct (proj1 He eq_refl) as [n Hn]. destruct (ti_state _ _ _ _ _ Hi n t Hn) as (x & Hx & Hxh & Hxs).
  rewrite (st_bind_Some _ _ _ _ _ (x_rd_tcb w t x Hx)).
  destruct (decide (n = DQ)) as [->|Hnd].
  { cbn in Hxs. rewrite Hxs. change (PTH_STATE_DEAD =? PTH_STATE_DEAD) with true. cbv iota.
    exists (pth_error false EPERM), w, Q. split_and!; [done|done|apply wstep_refl|by apply others_same|right; by left]. }
  rewrite (live_not_dead _ _ Hxs Hnd), (st_bind_Some _ _ _ _ _ (x_upd_tcb w t x _ Hx)).
  set (w1 := set_tcb (<[t := set_cancelreq true x]> (w_tcb w)) w).
  assert (Hw1 : winv w1 Q L).
  { eapply winv_same; [exact Hw| |done|done]. eapply tinv_upd; [exact Hi|exact Hx|done|done|by right; right]. }
  assert (Hx1 : w_tcb w1 !! t = Some (set_cancelreq true x)) by (cbn; by rewrite lookup_insert_eq).
  fold (async x). destruct (async x) eqn:Ea.
  - destruct (cancel_now_ok w1 Q L t _ Hw1 Hx1 (ex_intro _ n (conj Hn Hnd)) (in_q_loose _ _ _ _ _ Hi Hn))
      as (r & w' & Q' & Ec & Hw' & Hst & Ho & Hout).
    exists r, w', Q'. split_and!; [done|done| | |].
    + eapply wstep_trans; [|exact Hst]. by apply wstep_same.
    + eapply others_trans; [|exact Ho]. by eapply others_upd.
    + right. right. exists n, x. split_and!; try done. destruct Hout as [(Hs & -> & -> & ->)|(-> & Hk)].
      * right. rewrite Ea. split_and!; try done. right. by apply (q_one _ _ _ _ _ _ (ti_q _ _ _ _ _ Hi) Hn Hs).
      * left. split_and!; try done. intros ->. destruct Hk as (m & Hm & Hmq & _).
        assert (m = SQ) by (by apply (q_one _ _ _ _ _ _ (ti_q _ _ _ _ _ Hi) Hmq Hn)). naive_solver.
  - exists (ok true), w1, Q. split_and!; [done|done|by apply wstep_same|by eapply others_upd|].
    right. right. exists n, x. split_and!; try done. right. rewrite Ea. split_and!; try done. by left.
Qed.

Lemma abort_local_ok (w : wd) Q L t :
  winv w Q L ->
  exists w' Q', pth_abort_local self malloc t w = Some (tt, w') /\ winv w' Q' L /\ wstep w w' /\ others t w w' /\
    ((in_no_q Q t /\ w' = w /\ Q' = Q) \/
     (exists x, in_q Q DQ t /\ w_tcb w !! t = Some x /\ t_joinable x = false /\ w' = w /\ Q' = Q) \/
     (in_q Q DQ t /\ w_tcb w' !! t = None /\ Q' = qupd DQ (pq_del t (Q DQ)) Q) \/
     (in_q Q SQ t /\ Q' = Q /\ exists x', w_tcb w' !! t = Some x' /\ t_cancelreq x' = true /\ t_joinable x' = false /\
        async x' = true) \/
     killed t false Q Q' w').
Proof.
  intros Hw. assert (Hi := wi_t _ _ _ Hw). unfold pth_abort_local.
  destruct (exists_ok w Q L t Hi) as (e & Ee & He). rewrite (st_bind_Some _ _ _ _ _ Ee). cbn [fst].
  destruct e; cbn [negb].
  2: { exists w, Q. split_and!; [done|done|apply wstep_refl|by apply others_same|left].
       split_and!; try done. intros n Hn. by assert (false = true) by (apply He; by exists n). }
  destruct (proj1 He eq_refl) as [n Hn]. destruct (ti_state _ _ _ _ _ Hi n t Hn) as (x & Hx & Hxh & Hxs).
  rewrite (st_bind_Some _ _ _ _ _ (x_rd_tcb w t x Hx)). assert (HL := in_q_loose _ _ _ _ _ Hi Hn).
  destruct (decide (n = DQ)) as [->|Hnd].
  { cbn in Hxs. rewrite Hxs. change (PTH_STATE_DEAD =? PTH_STATE_DEAD) with true. cbv iota.
    destruct (t_joinable x) eqn:Ej.
    2: { exists w, Q. split_and!; [done|done|apply wstep_refl|by apply others_same|right; left; by exists x]. }
    destruct (tinv_delete self G w Q L DQ t Hi Hn) as (q1 & E1 & Hi1). rewrite (st_bind_Some _ _ _ _ _ E1).
    assert (Hw1 : winv (set_q q1 w) (qupd DQ (pq_del t (Q DQ)) Q) ({[t]} ∪ L)) by (by eapply winv_same).
    destruct (tcb_free_ok (set_q q1 w) _ _ t x Hw1 ltac:(set_solver) Hx) as (w3 & w4 & E4 & Hw4 & Hq4 & Htc & Hg & He4 & Hib).
    assert (Hset : ({[t]} ∪ L) ∖ {[t]} = L) by set_solver. rewrite Hset in Hw4.
    exists w4, (qupd DQ (pq_del t (Q DQ)) Q). split_and!; [done|done| | |].
    - apply (wstep_trans self G E w (set_q q1 w)); [by apply wstep_same|].
      destruct (quiet_wstep _ _ _ _ _ Hq4) as [C1 C2 C3 C4 C5 C6]. constructor; by rewrite ?Hg, ?He4, ?Hib.
    - apply (others_trans t w (set_q q1 w)); [by apply others_same|]. eapply others_trans; [by apply others_quiet|].
      intros t' y Hne Hy. exists y. rewrite Htc, lookup_delete_ne by done. done.
    - right. right. left. by rewrite Htc, lookup_delete_eq. }
  rewrite (live_not_dead _ _ Hxs Hnd), (st_bind_Some _ _ _ _ _ (x_upd_tcb w t x _ Hx)).
  set (w1 := set_tcb (<[t := set_joinable false x]> (w_tcb w)) w).
  assert (Hx1 : w_tcb w1 !! t = Some (set_joinable false x)) by (cbn; by rewrite lookup_insert_eq).
  rewrite (st_bind_Some _ _ _ _ _ (x_upd_tcb w1 t _ _ Hx1)).
  set (x2 := set_cancelstate PTH_CANCEL_KILL (set_joinable false x)). set (w2 := set_tcb (<[t := x2]> (w_tcb w1)) w1).
  assert (Hx2 : w_tcb w2 !! t = Some x2) by (cbn; by rewrite lookup_insert_eq).
  assert (Hw2 : winv w2 Q L).
  { eapply winv_same; [exact Hw| |done|done]. eapply tinv_upd; [|exact Hx1|done|done|by right; right].
    eapply tinv_upd; [exact Hi|exact Hx|done|done|by right; right]. }
  destruct (cancel_local_ok w2 Q L t Hw2) as (r & w' & Q' & E2 & Hw' & Hst & Ho & Hout).
  rewrite (st_bind_Some _ _ _ _ _ E2). exists w', Q'. split_and!; [done|done| | |].
  - eapply wstep_trans; [|exact Hst]. by apply wstep_same.
  - eapply others_trans; [|exact Ho]. apply (others_trans t w w1 w2); [by apply (others_upd t (set_joinable false x))|by apply (others_upd t x2)].
  - destruct Hout as [(Hno & _)|[(Hd & _)|(m & y & Hm & Hmd & Hy & Hout)]].
    + by apply Hno in Hn.
    + by assert (Hq := q_one _ _ _ _ _ _ (ti_q _ _ _ _ _ Hi) Hd Hn).
    + rewrite Hx2 in Hy. injection Hy as <-. assert (Has : async x2 = true) by reflexivity.
      destruct Hout as [(_ & _ & _ & Hk)|([Has'|Hms] & _ & -> & ->)].
      * right; right; right; right. exact Hk.
      * by rewrite Has in Has'.
      * right; right; right; left. subst m. split_and!; [done|done|]. eexists. cbn. rewrite lookup_insert_eq. by split_and!.
Qed.
End specs.
