(* ===== verification/Demo.v ===== *)
(** * A small scheduler with threads

    A concrete instance of everything the theorems about the scheduler are
    stated over: the queues of [Queues], threads whose cleanup handlers are
    those of [Clean] (they have neither thread-specific data nor mutexes), an
    allocator, and a world with a few threads. *)

From stdpp Require Import base numbers gmap list.
From S2P Require Import Prelude Links Pqueue Timeval Data Waitq Clean Event Inbox Queues World Thread.
Open Scope Z_scope.

(** [malloc]: the smallest address that is free. *)
Definition demo_malloc (A : gset addr) : ptr := Some (fresh A).
Lemma demo_malloc_fresh A a : demo_malloc A = Some a -> a ∉ A.
Proof. intros [= <-]. apply is_fresh. Qed.

Abbreviation dstate := (clst (list (addr * ptr))).
Abbreviation dworld := (world queues dstate).

(** A thread without an entry has no handlers. *)
Definition run_handlers (t : addr) (execute : bool) : st dstate unit :=
  fun s => match l_stacks s !! t with
           | Some k => Clean.pth_cleanup_popall log_cleanup (length k) t execute s
           | None => Some (tt, s) end.

#[export] Instance demo_cleanup : CleanupOps queues dstate := {|
  co_has_cleanups t s := match l_stacks s !! t with Some (_ :: _) => true | _ => false end;
  co_has_data _ _ := false;
  co_popall t e := zoom w_user set_user (run_handlers t e);
  co_destroydata _ := mret tt;
  co_releaseall _ := mret tt;
  co_free_data _ := mret tt
|}.

Lemma popall_total (k : list cleanup) t e (s : dstate) : l_stacks s !! t = Some k ->
  exists s', Clean.pth_cleanup_popall log_cleanup (length k) t e s = Some (tt, s').
Proof.
  revert s. induction k as [|c k IH]; intros s Hk; cbn [Clean.pth_cleanup_popall length];
    rewrite (st_bind_Some _ _ _ _ _ (rd_cleanups_eq _ _ _ Hk)); [by exists s|].
  rewrite (st_bind_Some _ _ _ _ _ (eq_refl : wr_cleanups t k s = Some (tt, _))).
  destruct e; eapply IH; cbn; by rewrite lookup_insert_eq.
Qed.

Lemma user_quiet self G E (w : dworld) u : quiet self G E w (set_user u w).
Proof.
  constructor; try done; [|apply ev_keeps_refl|apply inb_ext_refl].
  intros t x Hx. by exists x.
Qed.

#[export] Instance demo_laws self G E : CleanupLaws queues dstate self G E.
Proof.
  refine {| co_ok := fun _ => True |}.
  intros m t w x Hm _ _ _ _ _.
  assert (Hp : forall e, exists u, co_popall t e w = Some (tt, set_user u w)).
  { intros e. cbn. unfold zoom, run_handlers. destruct (l_stacks (w_user w) !! t) as [k|] eqn:Ek.
    - destruct (popall_total k t e (w_user w) Ek) as [u Eu]. exists u. by rewrite Eu.
    - by exists (w_user w). }
  destruct Hm as [->|[->|Hm]].
  - destruct (Hp true) as [u Eu]. exists (set_user u w). split_and!; [exact Eu|apply user_quiet|done].
  - destruct (Hp false) as [u Eu]. exists (set_user u w). split_and!; [exact Eu|apply user_quiet|done].
  - exists w. split_and!; [by destruct Hm as [->|[->| ->]]|apply quiet_refl|done].
Defined.

(** ** A world: scheduler 1 with its own thread 10, and threads 11 to 14;
    scheduler 2 exists. *)

Definition demo_tcb (prio state cancelstate : Z) (joinable : bool) : tcb :=
  Tcb 1 NULL prio 0 state (Tv 0 0) (Tv 0 0) (Tv 0 0) NULL ∅ 0 ∅ 65536 (Some 57005) NULL NULL joinable 0
    pth_waitq_init false false cancelstate.

Definition demo_tcbs : gmap addr tcb :=
  <[10%positive := demo_tcb 5 PTH_STATE_SCHEDULER PTH_CANCEL_DISABLE false]>
  (<[11%positive := demo_tcb 0 PTH_STATE_NEW PTH_CANCEL_DEFAULT true]>
  (<[12%positive := demo_tcb 2 PTH_STATE_READY PTH_CANCEL_DEFAULT true]>
  (<[13%positive := demo_tcb 0 PTH_STATE_WAITING PTH_CANCEL_KILL true]>
  (<[14%positive := demo_tcb 0 PTH_STATE_DEAD PTH_CANCEL_DEFAULT true]> ∅)))).

Definition no_queues : queues :=
  Queues (QHeap (Dll ∅ ∅) ∅) (Pqueue NULL 0) (Pqueue NULL 0) (Pqueue NULL 0) (Pqueue NULL 0) (Pqueue NULL 0).
Lemma no_queues_rep : q_rep no_queues ∅ (fun _ => []).
Proof.
  constructor.
  - intros n. apply rep_empty. by destruct n.
  - intros n m t H. by apply not_elem_of_nil in H.
  - intros t H. by apply not_elem_of_empty in H.
  - intros n t H. by apply not_elem_of_nil in H.
  - done.
Qed.

Definition demo_q0 : queues := qo_alloc 10 (qo_alloc 11 (qo_alloc 12 (qo_alloc 13 (qo_alloc 14 no_queues)))).
Definition demo_g : gsched := Gsched 0 (Some 11%positive) (Some 10%positive) NULL true false ∅ ∅ ∅ ∅.
Definition demo_events : evst :=
  Evst (Dll {[20%positive := Some 20%positive]} {[20%positive := Some 20%positive]})
    {[20%positive := Event PTH_STATUS_PENDING PTH_EVENT_NOTIFY 0 (ANOTIFY NULL)]} (Kstate [] ∅ 11 tt) ∅.
Definition demo_clst0 : dstate := Clst {[13%positive := [Cleanup 5 NULL]]} 11 [].
Definition demo_w0 : dworld :=
  World demo_q0 demo_tcbs ∅ demo_events demo_ib demo_g ∅ demo_clst0.
Definition demo_G : gset addr := {[1%positive; 2%positive]}.
Definition demo_E : gset addr := {[20%positive]}.

Lemma demo_home t x : demo_tcbs !! t = Some x -> t_home x = 1%positive /\ t_join_waitq x = pth_waitq_init /\
  t ∈ ({[10; 11; 12; 13; 14]}%positive : gset addr).
Proof.
  unfold demo_tcbs. intros H. repeat (apply lookup_insert_Some in H as [[<- <-]|[_ H]]; [split_and!; [done|done|set_solver]|]).
  done.
Qed.

Lemma demo_inv0 : winv 1 demo_G demo_E demo_w0 (fun _ => []) {[10; 11; 12; 13; 14]}%positive.
Proof.
  constructor; [|exists []; constructor|done].
  - constructor.
    + assert (Hd : dom demo_tcbs = {[10%positive]} ∪ ({[11%positive]} ∪ ({[12%positive]} ∪ ({[13%positive]} ∪ ({[14%positive]} ∪ ∅)))))
        by (vm_compute; reflexivity).
      cbn [w_tcb w_q demo_w0]. rewrite Hd. unfold demo_q0.
      repeat (apply q_alloc_ok; [|by set_solver]). apply no_queues_rep.
    + intros n t H. by apply not_elem_of_nil in H.
    + intros t Ht. split; [intros n H; by apply not_elem_of_nil in H|].
      assert (Hs : is_Some (demo_tcbs !! t)).
      { set_unfold in Ht. destruct Ht as [[[[->| ->]| ->]| ->]| ->]; by eexists. }
      destruct Hs as [x Hx]. exists x. split; [exact Hx|]. by apply (demo_home t x).
    + intros t x Hx _. left. by apply (demo_home t x).
    + intros t x Hx. apply demo_home in Hx as [-> _]. unfold demo_G. set_solver.
    + exists (fun _ => []). constructor.
      * intros t x Hx _. apply demo_home in Hx as (_ & -> & _). by apply wq_empty.
      * intros t x j _ _ H. by apply not_elem_of_nil in H.
      * intros t t' x x' j _ _ _ _ H. by apply not_elem_of_nil in H.
  - by exists NULL.
  - constructor.
  - unfold demo_G. intros o Ho. set_unfold in Ho. destruct Ho as [-> | ->]; split; by eexists.
  - unfold demo_G. set_solver.
Qed.

(** Thread 11 is new, 12 ready, 13 waiting, 14 dead. *)
Definition demo_Q : qlists := fun n =>
  match n with NQ => [(11%positive, 0)] | RQ => [(12%positive, 2)] | WQ => [(13%positive, 0)] | SQ => [] | DQ => [(14%positive, 0)] end.

Lemma demo_inv : exists q, winv 1 demo_G demo_E (set_q q demo_w0) demo_Q ({[10%positive]} : gset addr).
Proof.
  assert (H0 := demo_inv0). assert (Hi := wi_t _ _ _ _ _ _ H0).
  destruct (tinv_insert 1 demo_G _ _ _ NQ 0 11%positive _ Hi ltac:(set_solver) eq_refl eq_refl) as (q1 & _ & H1).
  destruct (tinv_insert 1 demo_G _ _ _ RQ 2 12%positive _ H1 ltac:(set_solver) eq_refl eq_refl) as (q2 & _ & H2).
  destruct (tinv_insert 1 demo_G _ _ _ WQ 0 13%positive _ H2 ltac:(set_solver) eq_refl eq_refl) as (q3 & _ & H3).
  destruct (tinv_insert 1 demo_G _ _ _ DQ 0 14%positive _ H3 ltac:(set_solver) eq_refl eq_refl) as (q4 & _ & H4).
  exists q4. eapply winv_same; [exact H0| |done|done].
  eapply tinv_set; [|eapply tinv_ext; [|exact H4]].
  - vm_compute. reflexivity.
  - intros n. by destruct n.
Qed.
