(* ===== verification/Sched.v ===== *)
(** * The scheduler (src/pth_sched.c, lines 192-760)

    The drain of the wakeup inbox, and the scheduler loop cut at the context
    switch: choosing the next thread, and what happens to the thread that came
    back. The event manager is in [Evman]. *)

From stdpp Require Import base numbers gmap list.
From S2P Require Import Prelude Links Pqueue Timeval Waitq Clean Event Inbox Queues World Thread Demo.
Open Scope Z_scope.

Section ops.
Context {H U : Type} `{!QueueOps H, !CleanupOps H U}.
Abbreviation wd := (world H U).
Context (self : addr) (malloc : gset addr -> ptr).

(** ** Applying a message *)

Definition set_status (v : pth_status) (x : event) : event := Event v (ev_type x) (ev_goal x) (ev_args x).
Definition mark_occurred (ev : ptr) : st wd unit :=
  x ← on_ev (rd_event ev); on_ev (wr_event ev (set_status PTH_STATUS_OCCURRED x)).

(** The thread of a message is NULL only in [PTH_GMSG_STOP]; with NULL the
    others find no such thread. *)
Definition drain_msg (m : gbody) : st wd unit :=
  match g_kind m with
  | PTH_GMSG_WAKE => if bool_decide (g_event m <> NULL) then mark_occurred (g_event m) else mret tt
  | PTH_GMSG_SPAWN =>
      upd_tcb (g_thread m) (set_state PTH_STATE_NEW);;
      x ← rd_tcb (g_thread m);
      on_q (qo_insert NQ (t_prio x) (g_thread m))
  | PTH_GMSG_STOP => updg (set_stop true)
  | PTH_GMSG_REAP => on_q (qo_delete DQ (g_thread m));; pth_tcb_free (g_thread m)
  | PTH_GMSG_CANCEL => match g_thread m with Some t => pth_cancel_local self malloc t;; mret tt | None => mret tt end
  | PTH_GMSG_RAISE => pth_raise_local (g_thread m) (g_sig m)
  | PTH_GMSG_SUSPEND => pth_suspend_local (g_thread m);; mret tt
  | PTH_GMSG_RESUME => pth_resume_local (g_thread m);; mret tt
  | PTH_GMSG_FAVOR => pth_favor_local (g_thread m)
  | PTH_GMSG_ABORT => match g_thread m with Some t => pth_abort_local self malloc t | None => mret tt end
  end.

Definition sched_drain : st wd bool := pth_gsched_drain w_inb set_inb drain_msg self.
End ops.

Section drain.
Context {H U : Type} `{!QueueOps H, !QueueLaws H, !CleanupOps H U}.
Context (self : addr) (G E : gset addr) `{!CleanupLaws H U self G E}.
Context (malloc : gset addr -> ptr) (malloc_fresh : forall A a, malloc A = Some a -> a ∉ A).
Abbreviation wd := (world H U).
Abbreviation tinv := (tinv self G).
Abbreviation winv := (winv self G E).

(** The messages that a scheduler is sent: a wakeup names an event that is
    not freed with a thread; a spawned thread is announced once; a thread is
    reaped or aborted once, and reaped when it is dead. *)
Definition msg_ok (Q : qlists) (T : gset addr) (m : gbody) : Prop :=
  match g_kind m with
  | PTH_GMSG_WAKE => forall a, g_event m = Some a -> a ∈ E
  | PTH_GMSG_SPAWN => exists t, g_thread m = Some t /\ t ∈ T
  | PTH_GMSG_STOP => True
  | PTH_GMSG_REAP => exists t, g_thread m = Some t /\ in_q Q DQ t
  | _ => is_Some (g_thread m)
  end.
Definition spawned (ms : list gbody) : list ptr :=
  g_thread <$> filter (fun m => g_kind m = PTH_GMSG_SPAWN) ms.
Definition destroyed (ms : list gbody) : list ptr :=
  g_thread <$> filter (fun m => g_kind m = PTH_GMSG_REAP \/ g_kind m = PTH_GMSG_ABORT) ms.
Record msgs_ok (Q : qlists) (T : gset addr) (ms : list gbody) : Prop := {
  mo_each : Forall (msg_ok Q T) ms;
  mo_spawn : NoDup (spawned ms);
  mo_destroy : NoDup (destroyed ms)
}.
(** The events of [E] are allocated. *)
Definition events_ok (e : evst) : Prop := forall a, a ∈ E -> is_Some (e_body e !! a).
Definition occurred (e : evst) (a : addr) : Prop :=
  exists x, e_body e !! a = Some x /\ ev_status x = PTH_STATUS_OCCURRED.

Lemma events_keep e e' : ev_keeps E e e' -> events_ok e -> events_ok e'.
Proof. intros Hk He a Ha. destruct (He a Ha) as [x Hx]. destruct (Hk a x Ha Hx) as (y & Hy & _). by exists y. Qed.
Lemma occurred_keep e e' a : ev_keeps E e e' -> a ∈ E -> occurred e a -> occurred e' a.
Proof. intros Hk Ha (x & Hx & Hs). destruct (Hk a x Ha Hx) as (y & Hy & Hys). exists y. auto. Qed.

(** One message: the dead threads that it does not name stay dead. *)
Record mstep (m : gbody) (w w' : wd) (Q Q' : qlists) (T T' : gset addr) : Prop := {
  ms_dead : forall t, in_q Q DQ t -> g_thread m <> Some t \/ (g_kind m <> PTH_GMSG_REAP /\ g_kind m <> PTH_GMSG_ABORT) ->
    in_q Q' DQ t;
  ms_T : T' = match g_kind m, g_thread m with PTH_GMSG_SPAWN, Some t => T ∖ {[t]} | _, _ => T end;
  ms_stop : g_stop (w_g w') = bool_decide (g_kind m = PTH_GMSG_STOP) || g_stop (w_g w);
  ms_sched : g_scheduler (w_g w') = g_scheduler (w_g w);
  ms_ev : ev_keeps E (w_ev w) (w_ev w');
  ms_wake : g_kind m = PTH_GMSG_WAKE -> forall a, g_event m = Some a -> occurred (w_ev w') a;
  ms_inb : inb_ext self G (w_inb w) (w_inb w')
}.

Lemma in_move n m p t Q k u : u <> t -> in_q (qmove n m p t Q) k u <-> in_q Q k u.
Proof.
  intros Hu. unfold qmove, in_q, qupd. cbv zeta.
  repeat (case_decide; subst; rewrite ?in_ins, ?in_del); naive_solver.
Qed.
Lemma in_upd_del n t Q k u : u <> t -> in_q (qupd n (pq_del t (Q n)) Q) k u <-> in_q Q k u.
Proof. intros Hu. unfold in_q, qupd. case_decide; subst; rewrite ?in_del; naive_solver. Qed.
Lemma in_upd_fav n t Q k u : in_q Q n t -> in_q (qupd n (pq_fav t (Q n)) Q) k u <-> in_q Q k u.
Proof. intros Ht. unfold in_q, qupd. case_decide; subst; [by apply in_fav|done]. Qed.
Lemma killed_dead (w : wd) Q Q' L t b (w' : wd) u : tinv w Q L -> killed t b Q Q' w' -> in_q Q DQ u -> in_q Q' DQ u.
Proof.
  intros Hi (n & Hn & Htn & Hb) Hu.
  assert (Hut : u <> t) by (intros ->; assert (Hq := q_one _ _ _ _ _ _ (ti_q _ _ _ _ _ Hi) Hu Htn); naive_solver).
  destruct b; destruct Hb as [-> _]; [by apply in_move|by apply in_upd_del].
Qed.

Lemma mstep_local m (w w' : wd) Q Q' T :
  g_kind m <> PTH_GMSG_WAKE -> g_kind m <> PTH_GMSG_STOP -> g_kind m <> PTH_GMSG_SPAWN ->
  wstep self G E w w' ->
  (forall u, in_q Q DQ u -> g_thread m <> Some u \/ (g_kind m <> PTH_GMSG_REAP /\ g_kind m <> PTH_GMSG_ABORT) -> in_q Q' DQ u) ->
  mstep m w w' Q Q' T T.
Proof.
  intros Hk1 Hk2 Hk3 [Hc Hs Hst Hf He Hi] Hd. constructor; try done.
  - by destruct (g_kind m).
  - by rewrite bool_decide_eq_false_2.
Qed.

(** Every message is applied without undefined behaviour and keeps the
    invariant. *)
Lemma drain_msg_ok (w : wd) Q S T m :
  winv w Q (T ∪ S) -> T ## S -> (forall t, g_scheduler (w_g w) = Some t -> t ∈ S) ->
  events_ok (w_ev w) -> msg_ok Q T m ->
  exists w' Q' T', drain_msg self malloc m w = Some (tt, w') /\ winv w' Q' (T' ∪ S) /\ mstep m w w' Q Q' T T'.
Proof.
  intros Hw Hd Hsch Hev Hm. assert (Hi := wi_t _ _ _ _ _ _ Hw). unfold msg_ok in Hm. unfold drain_msg.
  destruct m as [kd th ev sg]. cbn [g_kind g_thread g_event g_sig] in *.
  assert (Hns : forall t n, in_q Q n t -> g_scheduler (w_g w) <> Some t).
  { intros t n Hn Hs. by apply (in_q_loose _ _ _ _ _ _ _ Hi Hn), elem_of_union_r, Hsch. }
  assert (Hdl : forall t n, in_q Q n t -> (n = NQ \/ n = RQ \/ n = WQ \/ n = SQ) -> forall u, in_q Q DQ u -> u <> t).
  { intros t n Hn Hnn u Hu ->. assert (Hq := q_one _ _ _ _ _ _ (ti_q _ _ _ _ _ Hi) Hu Hn). naive_solver. }
  destruct kd; cbn in Hm; try (destruct th as [t|]; [|exfalso; by destruct Hm as (? & ? & _) || by destruct Hm]).
  - (* wake *)
    destruct ev as [a|].
    + rewrite bool_decide_eq_true_2 by done. assert (HaE := Hm a eq_refl). destruct (Hev a HaE) as [x Hx].
      unfold mark_occurred, on_ev, zoom, mbind, st_bind. rewrite (x_rd_event _ a x Hx). cbn [set_ev w_ev].
      rewrite (x_wr_event _ a _ x Hx). eexists _, Q, T. split_and!; [reflexivity| |].
      * eapply winv_same; [exact Hw|by eapply tinv_other; [..|exact Hi]|done|done].
      * constructor; cbn; try done.
        { intros b y Hb Hy. cbn [e_body]. destruct (decide (b = a)) as [->|Hne].
          - exists (set_status PTH_STATUS_OCCURRED x). rewrite lookup_insert_eq. done.
          - exists y. rewrite lookup_insert_ne by done. done. }
        { intros _ b [= <-]. eexists. cbn. rewrite lookup_insert_eq. done. }
        { apply inb_ext_refl. }
    + rewrite bool_decide_eq_false_2 by tauto. exists w, Q, T. split_and!; [done|done|].
      constructor; [done|done|done|done|apply ev_keeps_refl|done|apply inb_ext_refl].
  - (* spawn *)
    destruct Hm as (t' & [= <-] & HtT).
    assert (HtL : t ∈ T ∪ S) by set_solver.
    destruct (ti_loose _ _ _ _ _ Hi t HtL) as (_ & x & Hx & Hxh).
    rewrite (st_bind_Some _ _ _ _ _ (x_upd_tcb w t x _ Hx)).
    set (w1 := set_tcb (<[t := set_state PTH_STATE_NEW x]> (w_tcb w)) w).
    assert (Hx1 : w_tcb w1 !! t = Some (set_state PTH_STATE_NEW x)) by (cbn; by rewrite lookup_insert_eq).
    rewrite (st_bind_Some _ _ _ _ _ (x_rd_tcb w1 t _ Hx1)).
    assert (Hi1 : tinv w1 Q (T ∪ S)) by (eapply tinv_upd; [exact Hi|exact Hx|done|done|by left]).
    destruct (tinv_insert self G w1 Q _ NQ (t_prio (set_state PTH_STATE_NEW x)) t _ Hi1 HtL Hx1 eq_refl) as (q & Eq & Hi2).
    eexists _, _, (T ∖ {[t]}). split_and!; [exact Eq| |].
    + eapply winv_same; [exact Hw| |done|done]. eapply tinv_set; [|exact Hi2]. set_solver.
    + constructor; [|done|done|done|apply ev_keeps_refl|done|apply inb_ext_refl].
      intros u Hu _. unfold in_q, qupd. by rewrite decide_False.
  - (* stop *)
    eexists _, Q, T. split_and!; [reflexivity| |].
    + eapply winv_same; [exact Hw|by eapply tinv_other; [..|exact Hi]|done|done].
    + constructor; [done|by destruct th|done|done|apply ev_keeps_refl|done|apply inb_ext_refl].
  - (* reap *)
    destruct Hm as (t' & [= <-] & HtD).
    destruct (tinv_delete self G w Q _ DQ t Hi HtD) as (q1 & E1 & Hi1). rewrite (st_bind_Some _ _ _ _ _ E1).
    destruct (ti_state _ _ _ _ _ Hi DQ t HtD) as (x & Hx & Hxh & _).
    assert (HtL := in_q_loose _ _ _ _ _ _ _ Hi HtD).
    assert (Hw1 : winv (set_q q1 w) (qupd DQ (pq_del t (Q DQ)) Q) ({[t]} ∪ (T ∪ S))) by (by eapply winv_same).
    destruct (tcb_free_ok self G E (set_q q1 w) _ _ t x Hw1 ltac:(set_solver) Hx) as (w3 & w4 & E4 & Hw4 & Hq4 & Htc & Hg & He4 & Hib).
    exists w4, (qupd DQ (pq_del t (Q DQ)) Q), T. split_and!; [done| |].
    + assert (Hset : ({[t]} ∪ (T ∪ S)) ∖ {[t]} = T ∪ S) by set_solver. by rewrite Hset in Hw4.
    + apply mstep_local; try done.
      * destruct (quiet_wstep _ _ _ _ _ Hq4) as [C1 C2 C3 C4 C5 C6]. constructor; by rewrite ?Hg, ?He4, ?Hib.
      * intros u Hu [Hne|[]]; [|done]. apply in_upd_del; [|done]. cbn in Hne. congruence.
  - (* cancel *)
    destruct (cancel_local_ok self G E malloc malloc_fresh w Q _ t Hw) as (r & w' & Q' & E1 & Hw' & Hst & _ & Hout).
    rewrite (st_bind_Some _ _ _ _ _ E1). exists w', Q', T. split_and!; [done|done|]. apply mstep_local; try done.
    intros u Hu _. destruct Hout as [(_ & _ & _ & ->)|[(_ & _ & _ & ->)|(n & x & _ & _ & _ & [(_ & _ & _ & Hk)|(_ & _ & -> & _)])]]; try done.
    by eapply killed_dead.
  - (* raise *)
    destruct (raise_ok self G E w Q _ t sg Hw) as (w' & E1 & Hw' & Hst & _). exists w', Q, T. split_and!; [done|done|].
    by apply mstep_local.
  - (* suspend *)
    destruct (decide (g_scheduler (w_g w) = Some t)) as [Hs|Hs].
    { exists w, Q, T. split_and!; [|done|apply mstep_local; try done; apply wstep_refl].
      unfold pth_suspend_local, mbind, st_bind, getg. cbn. by rewrite bool_decide_eq_true_2. }
    destruct (suspend_ok self G E w Q _ t Hw Hs (fun n Hn => in_q_loose _ _ _ _ _ _ _ Hi Hn)) as (r & w' & Q' & E1 & Hw' & Hst & _ & Hout).
    rewrite (st_bind_Some _ _ _ _ _ E1). exists w', Q', T. split_and!; [done|done|]. apply mstep_local; try done.
    intros u Hu _. destruct Hout as [(n & Hn & Htn & _ & ->)|[(_ & _ & ->)|[(_ & _ & ->)|(_ & _ & ->)]]]; try done.
    apply in_move; [|done]. eapply (Hdl t n); [done|tauto|done].
  - (* resume *)
    destruct (decide (g_scheduler (w_g w) = Some t)) as [Hs|Hs].
    { exists w, Q, T. split_and!; [|done|apply mstep_local; try done; apply wstep_refl].
      unfold pth_resume_local, mbind, st_bind, getg. cbn. by rewrite bool_decide_eq_true_2. }
    destruct (resume_ok self G E w Q _ t Hw Hs (fun n Hn => in_q_loose _ _ _ _ _ _ _ Hi Hn)) as (r & w' & Q' & E1 & Hw' & Hst & _ & Hout).
    rewrite (st_bind_Some _ _ _ _ _ E1). exists w', Q', T. split_and!; [done|done|]. apply mstep_local; try done.
    intros u Hu _. destruct Hout as [(n & Htn & _ & _ & _ & ->)|(_ & _ & ->)]; [|done].
    apply in_move; [|done]. eapply (Hdl t SQ); [done|tauto|done].
  - (* favor *)
    destruct (favor_ok self G E w Q _ t Hw (fun n Hn => in_q_loose _ _ _ _ _ _ _ Hi Hn)) as (w' & Q' & E1 & Hw' & Hst & _ & Hout).
    exists w', Q', T. split_and!; [done|done|]. apply mstep_local; try done.
    intros u Hu _. destruct Hout as [(n & Hn & Htn & ->)|(_ & _ & ->)]; [|done]. by apply in_upd_fav.
  - (* abort *)
    destruct (abort_local_ok self G E malloc malloc_fresh w Q _ t Hw) as (w' & Q' & E1 & Hw' & Hst & _ & Hout).
    exists w', Q', T. split_and!; [done|done|]. apply mstep_local; try done.
    intros u Hu [Hne|[_ []]]; [|done]. cbn in Hne.
    destruct Hout as [(_ & _ & ->)|[(x & _ & _ & _ & _ & ->)|[(_ & _ & ->)|[(_ & -> & _)|Hk]]]]; try done.
    + apply in_upd_del; [congruence|done].
    + by eapply killed_dead.
Qed.

(** Adopted threads leave the set of those in transit. *)
Fixpoint transit (T : gset addr) (ms : list gbody) : gset addr :=
  match ms with
  | [] => T
  | m :: ms' => transit (match g_kind m, g_thread m with PTH_GMSG_SPAWN, Some t => T ∖ {[t]} | _, _ => T end) ms'
  end.

(** What the remaining messages need is not destroyed by one message. *)
Lemma msgs_ok_step m ms w w' Q Q' T T' :
  msgs_ok Q T (m :: ms) -> mstep m w w' Q Q' T T' -> msgs_ok Q' T' ms.
Proof.
  intros [He Hs Hd] [Hdead HT _ _ _ _ _]. apply Forall_cons in He as [Hm He]. unfold spawned in Hs. unfold destroyed in Hd.
  rewrite filter_cons in Hs, Hd. constructor.
  - rewrite Forall_forall in He |- *. intros m' Hin. specialize (He m' Hin). unfold msg_ok in *.
    destruct (g_kind m') eqn:Ek; try done.
    + destruct He as (t & Ht & HtT). exists t. split; [done|]. subst T'.
      destruct (g_kind m) eqn:Ekm; try done. destruct (g_thread m) as [t'|] eqn:Et; [|done].
      apply elem_of_difference. split; [done|]. intros ->%elem_of_singleton.
      rewrite decide_True in Hs by done. rewrite fmap_cons in Hs. apply NoDup_cons in Hs as [Hni _]. apply Hni.
      apply list_elem_of_fmap. exists m'. split; [congruence|]. by apply list_elem_of_filter.
    + destruct He as (t & Ht & HtD). exists t. split; [done|]. apply Hdead; [done|].
      destruct (decide (g_kind m = PTH_GMSG_REAP \/ g_kind m = PTH_GMSG_ABORT)) as [Hk|Hk]; [left|right; tauto].
      rewrite fmap_cons in Hd. apply NoDup_cons in Hd as [Hni _]. intros Hmt. apply Hni.
      apply list_elem_of_fmap. exists m'. split; [congruence|]. apply list_elem_of_filter. auto.
  - destruct (decide (g_kind m = PTH_GMSG_SPAWN)); [rewrite fmap_cons in Hs; by apply NoDup_cons in Hs as [_ ?]|done].
  - destruct (decide (g_kind m = PTH_GMSG_REAP \/ g_kind m = PTH_GMSG_ABORT)); [rewrite fmap_cons in Hd; by apply NoDup_cons in Hd as [_ ?]|done].
Qed.

(** What holds while the messages [ms] are applied, of which [rest] are still
    to come. *)
Definition draining (S : gset addr) (T : gset addr) (stop0 : bool) (ms rest : list gbody) (w : wd) : Prop :=
  exists done Q T', ms = done ++ rest /\ tinv w Q (T' ∪ S) /\ co_ok (w_user w) /\ T' ## S /\
    (forall t, g_scheduler (w_g w) = Some t -> t ∈ S) /\ events_ok (w_ev w) /\ msgs_ok Q T' rest /\
    transit T ms = transit T' rest /\
    (forall m a, m ∈ done -> g_kind m = PTH_GMSG_WAKE -> g_event m = Some a -> a ∈ E /\ occurred (w_ev w) a) /\
    g_stop (w_g w) = existsb (fun m => bool_decide (g_kind m = PTH_GMSG_STOP)) done || stop0.

Lemma draining_step S T s0 ms m rest (w : wd) l :
  draining S T s0 ms (m :: rest) w -> inbox_ok G self (w_inb w) l ->
  exists w' new, drain_msg self malloc m w = Some (tt, w') /\ draining S T s0 ms rest w' /\
    inbox_ok G self (w_inb w') (new ++ l) /\
    (forall a, is_Some (i_nodes (w_inb w) !! a) -> i_nodes (w_inb w') !! a = i_nodes (w_inb w) !! a) /\
    (forall a, a ∈ new.*1 -> i_nodes (w_inb w) !! a = None).
Proof.
  intros (dn & Q & T' & Hms & Hi & Hu & Hd & Hsch & Hev & Hok & Htr & Hwk & Hst) Hl.
  destruct (drain_msg_ok w Q S T' m) as (w' & Q' & T'' & Em & [Hi' Hl' Hu'] & Hstep); try done.
  { constructor; [done|by exists l|done]. } { by apply (mo_each _ _ _ Hok), list_elem_of_here || apply (Forall_inv (mo_each _ _ _ Hok)). }
  assert (Hok' := msgs_ok_step _ _ _ _ _ _ _ _ Hok Hstep). destruct Hstep as [_ HT Hs1 Hs2 Hev2 Hwk2 Hinb].
  destruct (Hinb l Hl) as (new & Hn1 & Hn2 & Hn3). exists w', new. split_and!; try done.
  exists (dn ++ [m]), Q', T''. rewrite <- app_assoc. split_and!; try done.
  - rewrite HT. destruct (g_kind m), (g_thread m); set_solver.
  - by rewrite Hs2.
  - by eapply events_keep.
  - rewrite Htr, HT. done.
  - intros m' a [Hin| ->%list_elem_of_singleton]%elem_of_app Hk Ha.
    + destruct (Hwk m' a Hin Hk Ha) as [HaE Ho]. split; [done|]. by eapply occurred_keep.
    + split; [|by apply Hwk2]. assert (Hm := Forall_inv (mo_each _ _ _ Hok)). unfold msg_ok in Hm. rewrite Hk in Hm. auto.
  - rewrite Hs1, Hst, existsb_app. cbn. rewrite orb_false_r, orb_assoc. f_equal. apply orb_comm.
Qed.

End drain.

(** Three messages for scheduler 1: a wakeup, a cancellation, a stop. *)
Definition demo_ib3 : iheap :=
  IHeap {[3%positive := Gmsg (Some 4%positive) (Gbody PTH_GMSG_STOP NULL NULL 0);
          4%positive := Gmsg (Some 5%positive) (Gbody PTH_GMSG_CANCEL (Some 13%positive) NULL 0);
          5%positive := Gmsg NULL (Gbody PTH_GMSG_WAKE (Some 13%positive) (Some 20%positive) 0)]}
    {[1%positive := Some 3%positive; 2%positive := NULL]} {[1%positive := 3; 2%positive := 0]}.
Definition demo_msgs : list (addr * gbody) :=
  [(3%positive, Gbody PTH_GMSG_STOP NULL NULL 0); (4%positive, Gbody PTH_GMSG_CANCEL (Some 13%positive) NULL 0);
   (5%positive, Gbody PTH_GMSG_WAKE (Some 13%positive) (Some 20%positive) 0)].

Lemma demo_inbox3 : inbox_ok demo_G 1 demo_ib3 demo_msgs.
Proof.
  constructor.
  - exists (Some 3%positive). split; [done|]. cbn. split; [done|]. eexists. split; [done|]. split; [done|].
    eexists. split; [done|]. split; [done|]. by eexists.
  - cbn. apply (bool_decide_unpack (NoDup _)). vm_compute. exact I.
  - unfold demo_G. intros o Ho. set_unfold in Ho. destruct Ho as [-> | ->]; split; by eexists.
  - unfold demo_G. set_solver.
Qed.

