(* ===== verification/Dispatch.v ===== *)
(** * Dispatching (src/pth_sched.c, lines 482-760)

    The scheduler loop, cut at the context switch: [sched_select] and
    [sched_dispatch] choose the next thread and get it ready, [sched_back] and
    [sched_settle] put away the thread that came back. *)

From stdpp Require Import base numbers gmap list.
From S2P Require Import Prelude Links Pqueue Timeval Waitq Clean Event Inbox Queues World Thread Demo.
Open Scope Z_scope.

Section ops.
Context {H U : Type} `{!QueueOps H, !CleanupOps H U}.
Abbreviation wd := (world H U).
Context (self : addr) (malloc : gset addr -> ptr).
(** [PTH_NSIG], one more than the largest signal number. *)
Context (PTH_NSIG SIGSEGV : Z).

(** The loop that moves the new threads to the ready queue. *)
Fixpoint sched_new (fuel : nat) : st wd unit :=
  t ← on_q (qo_tail NQ);
  match t with
  | None => mret tt
  | Some _ =>
      on_q (qo_delete NQ t);;
      upd_tcb t (set_state PTH_STATE_READY);;
      f ← getg g_favournew;
      (if (f : bool) then p ← on_q (qo_favorite_prio RQ); on_q (qo_insert RQ p t)
       else on_q (qo_insert RQ PTH_PRIO_STD t));;
      match fuel with O => undef | S fuel' => sched_new fuel' end
  end.

(** Moving the new threads and choosing the next one. *)
Definition sched_select : st wd ptr :=
  w ← get_st;
  sched_new (Z.to_nat (qo_elements NQ (w_q w)));;
  t ← on_q (qo_delmax RQ);
  updg (set_current t);;
  mret t.

(** What the loop does when no thread is ready: wait in the event manager,
    leave the OS thread of an auxiliary scheduler, or give up. *)
Inductive idle := IWait | ILeave | IAbort.
Definition elements (w : wd) (n : qname) : Z := qo_elements n (w_q w).
Definition sched_idle (w : wd) : idle :=
  if negb (g_id (w_g w) =? 0) then
    if g_stop (w_g w) && (elements w NQ =? 0) && (elements w WQ =? 0) && (elements w SQ =? 0) then ILeave else IWait
  else if (elements w WQ >? 0) || (elements w NQ >? 0) || (elements w SQ >? 0) then IWait
  else IAbort.

(** [pth_util_sigdelete]: the pending signal is consumed by a dummy
    handler. *)
Definition pth_util_sigdelete (sig : Z) (pending : gset Z) : gset Z :=
  if bool_decide (sig ∈ pending) then pending ∖ {[sig]} else pending.

(** Raising the signals of the thread that is about to run. *)
Definition raise_sigs (cur pending : gset Z) : gset Z :=
  foldl (fun os sig => if bool_decide (sig ∈ cur) && negb (bool_decide (sig ∈ pending)) then {[sig]} ∪ os else os)
    pending (seqZ 1 (PTH_NSIG - 1)).

(** Accounting the signals of the thread that ran: [old] was pending before,
    [still] is now. *)
Definition drop_sigs (old still : gset Z) (s : gset Z * Z * gset Z) : gset Z * Z * gset Z :=
  foldl (fun '(cur, cnt, os) sig =>
      if bool_decide (sig ∈ cur) then
        if negb (bool_decide (sig ∈ still)) then (cur ∖ {[sig]}, cnt - 1, os)
        else if negb (bool_decide (sig ∈ old)) then (cur, cnt, pth_util_sigdelete sig os)
        else (cur, cnt, os)
      else (cur, cnt, os)) s (seqZ 1 (PTH_NSIG - 1)).

(** From the choice to the switch; [now] is the clock. *)
Definition sched_dispatch (cur : ptr) (snapshot now : pth_time_t) : st wd unit :=
  x ← rd_tcb cur;
  (if t_sigpendcnt x >? 0 then
     updw (fun w => set_os (raise_sigs (t_sigpending x) (w_os w))
       (set_g (set_sigs (w_os w) (g_sigblock (w_g w)) (g_sigcatch (w_g w)) (g_sigraised (w_g w)) (w_g w)) w))
   else mret tt);;
  upd_tcb cur (set_lastran (pth_time_set now None));;
  s ← getg g_scheduler;
  upd_tcb s (fun y => set_running (pth_time_add (t_running y) (pth_time_sub now snapshot)) y);;
  upd_tcb cur (fun y => set_dispatches (t_dispatches y + 1) y).

(** From the switch to the check for stack overflow; [snapshot] is the clock.
    [sigsegv_dfl]: [SIGSEGV] has its default disposition, so that an overflow
    ends the process ([false]). *)
Definition sched_back (cur : ptr) (snapshot : pth_time_t) (sigaction_ok sigsegv_dfl : bool) : st wd bool :=
  upd_tcb cur (fun y => set_running (pth_time_add (t_running y) (pth_time_sub snapshot (t_lastran y))) y);;
  x ← rd_tcb cur;
  (if t_sigpendcnt x >? 0 then
     w ← get_st;
     let '(s, n, os) := drop_sigs (g_sigpending (w_g w)) (w_os w) (t_sigpending x, t_sigpendcnt x, w_os w) in
     upd_tcb cur (set_sigpend s n);; updw (set_os os)
   else mret tt);;
  x ← rd_tcb cur;
  match t_guard x with
  | Some v =>
      if negb (v =? 57005) then
        if sigaction_ok && sigsegv_dfl then mret false
        else
          upd_tcb cur (set_join_arg 57005);;
          upd_tcb cur (set_state PTH_STATE_DEAD);;
          updw (fun w => set_os ({[SIGSEGV]} ∪ w_os w) w);;
          mret true
      else mret true
  | None => mret true
  end.

(** The end of [sched_settle]: the ready threads age, and the thread that ran
    goes back to them if it is still the current one. *)
Definition settle_end : st wd unit :=
  on_q (qo_increase RQ);;
  cur ← getg g_current;
  match cur with
  | Some _ => x ← rd_tcb cur; on_q (qo_insert RQ (t_prio x) cur)
  | None => mret tt
  end.

(** Putting the thread away that ran. *)
Definition sched_settle : st wd unit :=
  cur ← getg g_current;
  x ← rd_tcb cur;
  (if t_state x =? PTH_STATE_DEAD then
     (if negb (t_joinable x) then pth_tcb_free cur else bury self malloc cur);;
     updg (set_current NULL)
   else mret tt : st wd unit);;
  cur ← getg g_current;
  (match cur with
   | Some _ =>
       x ← rd_tcb cur;
       if t_state x =? PTH_STATE_WAITING then
         on_q (qo_insert WQ (t_prio x) cur);; updg (set_current NULL)
       else mret tt
   | None => mret tt
   end : st wd unit);;
  settle_end.

(** How the event manager is called then: polling or waiting; or the
    auxiliary scheduler leaves. *)
Inductive after := APoll | AWait | ALeave.
Definition sched_after (w : wd) : after :=
  if (elements w RQ =? 0) && (elements w NQ =? 0) then
    if negb (g_id (w_g w) =? 0) && g_stop (w_g w) && (elements w WQ =? 0) && (elements w SQ =? 0) then ALeave
    else AWait
  else APoll.
End ops.

Section select.
Context {H U : Type} `{!QueueOps H, !QueueLaws H, !CleanupOps H U}.
Context (self : addr) (G E : gset addr) `{!CleanupLaws H U self G E}.
Abbreviation wd := (world H U).
Abbreviation tinv := (tinv self G).
Abbreviation winv := (winv self G E).

(** The ready queue after the new threads [nq] were adopted, the last one
    first. *)
Definition adopt1 (favour : bool) (t : addr) (rq : list (addr * Z)) : list (addr * Z) :=
  pq_ins (if favour then fav_prio rq else PTH_PRIO_STD) t rq.
Definition adopt (favour : bool) (nq rq : list (addr * Z)) : list (addr * Z) :=
  foldr (fun x rq => adopt1 favour x.1 rq) rq nq.

Lemma pq_del_last l t p : NoDup (l ++ [(t, p)]).*1 -> pq_del t (l ++ [(t, p)]) = l.
Proof. intros Hnd. rewrite pq_del_split by done. by rewrite app_nil_r. Qed.

Lemma sched_new_ok (w : wd) Q L nq fuel :
  winv w Q L -> Q NQ = nq -> (length nq <= fuel)%nat ->
  exists w', sched_new fuel w = Some (tt, w') /\
    winv w' (qupd RQ (adopt (g_favournew (w_g w)) nq (Q RQ)) (qupd NQ [] Q)) L /\ w_g w' = w_g w /\
    w_inb w' = w_inb w /\ w_ev w' = w_ev w /\ (nq = [] -> w_tcb w' = w_tcb w).
Proof.
  revert w Q fuel. induction nq as [|[t p] nq IH] using rev_ind; intros w Q fuel Hw HQ Hf; assert (Hi := wi_t _ _ _ _ _ _ Hw);
    assert (Et : on_q (qo_tail NQ) w = Some (last (Q NQ).*1, w)) by
      (rewrite (x_on_q _ w _ _ (q_tail_ok _ _ _ NQ (ti_q _ _ _ _ _ Hi))); by destruct w);
    rewrite HQ in Et.
  - exists w. split_and!; try done; [by destruct fuel; cbn [sched_new]; rewrite (st_bind_Some _ _ _ _ _ Et)|].
    eapply winv_same; [exact Hw|eapply tinv_ext; [|exact Hi]|done|done].
    intros n. cbn. unfold qupd. by repeat case_decide; subst.
  - rewrite fmap_app in Et. cbn in Et. rewrite last_snoc in Et.
    assert (Hn : in_q Q NQ t) by (unfold in_q; rewrite HQ, fmap_app; apply elem_of_app; right; by left).
    assert (HL := in_q_loose _ _ _ _ _ _ _ Hi Hn).
    destruct (ti_state _ _ _ _ _ Hi NQ t Hn) as (x & Hx & Hxh & Hxs).
    destruct (tinv_delete self G w Q L NQ t Hi Hn) as (q1 & E1 & Hi1).
    assert (Hnd := q_nodup _ _ _ NQ (ti_q _ _ _ _ _ Hi)). rewrite HQ in Hi1, Hnd. rewrite pq_del_last in Hi1 by done.
    set (w1 := set_q q1 w). set (x1 := set_state PTH_STATE_READY x). set (w2 := set_tcb (<[t := x1]> (w_tcb w1)) w1).
    assert (E2 : upd_tcb (Some t) (set_state PTH_STATE_READY) w1 = Some (tt, w2)) by (by apply x_upd_tcb).
    assert (HtL : t ∈ {[t]} ∪ L) by set_solver.
    assert (Hi2 : tinv w2 (qupd NQ nq Q) ({[t]} ∪ L)) by (eapply tinv_upd; [exact Hi1|exact Hx|done|done|by left]).
    assert (Hx2 : w_tcb w2 !! t = Some x1) by (cbn; by rewrite lookup_insert_eq).
    set (f := g_favournew (w_g w)).
    set (p2 := if f then fav_prio (Q RQ) else PTH_PRIO_STD).
    destruct (tinv_insert self G w2 _ _ RQ p2 t x1 Hi2 HtL Hx2 eq_refl) as (q3 & E3 & Hi3).
    assert (Efav : on_q (qo_favorite_prio RQ) w2 = Some (fav_prio (Q RQ), w2)).
    { rewrite (x_on_q _ w2 _ _ (q_favorite_prio_ok _ _ _ RQ (ti_q _ _ _ _ _ Hi2))). by destruct w2. }
    assert (E4 : (if f then p ← on_q (qo_favorite_prio RQ); on_q (qo_insert RQ p (Some t))
                  else on_q (qo_insert RQ PTH_PRIO_STD (Some t))) w2 = Some (tt, set_q q3 w2)).
    { unfold p2 in E3. destruct f; [|exact E3]. rewrite (st_bind_Some _ _ _ _ _ Efav). exact E3. }
    destruct fuel as [|fuel]; [rewrite length_app in Hf; cbn in Hf; lia|].
    assert (Hset : ({[t]} ∪ L) ∖ {[t]} = L) by set_solver. rewrite Hset in Hi3.
    destruct (IH (set_q q3 w2) _ fuel (winv_same _ _ _ _ _ _ _ _ _ Hw Hi3 eq_refl eq_refl)) as (w' & E' & Hw' & Hg' & Hb' & Hv' & _).
    { unfold qupd. by rewrite decide_False, decide_True. } { rewrite length_app in Hf; cbn in Hf; lia. }
    exists w'. split.
    + cbn [sched_new]. rewrite (st_bind_Some _ _ _ _ _ Et), (st_bind_Some _ _ _ _ _ E1). fold w1.
      rewrite (st_bind_Some _ _ _ _ _ E2), (st_bind_Some (getg g_favournew) _ w2 f w2 eq_refl), (st_bind_Some _ _ _ _ _ E4).
      exact E'.
    + split_and!; [|done..|by intros [_ ?]%app_nil]. eapply winv_same; [exact Hw'|eapply tinv_ext; [|apply Hw']|done|done].
      intros n. unfold adopt. rewrite foldr_app. cbn [foldr fst]. fold f. unfold adopt1 at 2. fold p2.
      unfold qupd. by repeat case_decide; subst.
Qed.

Lemma in_adopt f nq rq u : u ∈ (adopt f nq rq).*1 <-> u ∈ nq.*1 \/ u ∈ rq.*1.
Proof.
  induction nq as [|[t p] nq IH]; [cbn; rewrite elem_of_nil; tauto|].
  cbn [adopt foldr]. unfold adopt1. rewrite in_ins. cbn [fst]. fold (adopt f nq rq). rewrite IH, fmap_cons, elem_of_cons.
  cbn [fst]. tauto.
Qed.

(** With [favournew] the new threads run first, the one of highest priority
    at the front. *)
Lemma adopt_favour t p nq rq : exists q l, adopt true ((t, p) :: nq) rq = (t, q) :: l.
Proof.
  cbn [adopt foldr]. unfold adopt1. cbn [fst]. destruct (foldr _ _ _) as [|[u pu] l]; cbn [fav_prio pq_ins].
  - by eexists _, [].
  - assert (Hlt : (pu <? pu + 1) = true) by (apply Z.ltb_lt; lia). rewrite Hlt. by eexists _, _.
Qed.

Definition opt_list (p : ptr) : list addr := match p with Some a => [a] | None => [] end.

Lemma select_ok (w : wd) Q L :
  winv w Q L ->
  exists w' Q' t, sched_select w = Some (t, w') /\ winv w' Q' (opt_set t ∪ L) /\
    g_current (w_g w') = t /\ g_scheduler (w_g w') = g_scheduler (w_g w) /\
    (let rq := adopt (g_favournew (w_g w)) (Q NQ) (Q RQ) in
     t = head rq.*1 /\ Q' NQ = [] /\ Q' RQ = tail rq /\ (forall n, n <> NQ -> n <> RQ -> Q' n = Q n) /\ pq_sorted rq) /\
    (forall a, t = Some a -> exists x, w_tcb w' !! a = Some x /\ t_state x = PTH_STATE_READY) /\
    w_inb w' = w_inb w /\ w_ev w' = w_ev w /\ (Q NQ = [] -> w_tcb w' = w_tcb w).
Proof.
  intros Hw. assert (Hi := wi_t _ _ _ _ _ _ Hw). unfold sched_select. rewrite (st_bind_Some get_st _ w w w eq_refl).
  rewrite (q_elements_ok _ _ _ NQ (ti_q _ _ _ _ _ Hi)), Nat2Z.id.
  destruct (sched_new_ok w Q L (Q NQ) (length (Q NQ)) Hw eq_refl ltac:(lia)) as (w1 & E1 & Hw1 & Hg1 & Hb1 & Hv1 & Ht1).
  rewrite (st_bind_Some _ _ _ _ _ E1). set (rq := adopt (g_favournew (w_g w)) (Q NQ) (Q RQ)) in *.
  set (Q1 := qupd RQ rq (qupd NQ [] Q)) in *. assert (Hi1 := wi_t _ _ _ _ _ _ Hw1).
  assert (HR : Q1 RQ = rq) by (unfold Q1, qupd; by rewrite decide_True).
  assert (HN : Q1 NQ = []) by (unfold Q1, qupd; by rewrite decide_False, decide_True).
  assert (Hsrt := q_sorted _ _ _ RQ (ti_q _ _ _ _ _ Hi1)). rewrite HR in Hsrt.
  destruct rq as [|[t p] l] eqn:Erq.
  - rewrite (st_bind_Some _ _ _ _ _ (x_on_q _ w1 _ _ (q_delmax_empty _ _ _ _ (ti_q _ _ _ _ _ Hi1) HR))).
    eexists _, Q1, NULL. split; [reflexivity|]. split; [|split_and!; try done].
    + eapply winv_same; [exact Hw1|eapply tinv_set; [|eapply tinv_other; [..|exact Hi1]; done]; set_solver|done|done].
    + cbn. by rewrite Hg1.
    + intros n Hn1 Hn2. unfold Q1, qupd. by rewrite !decide_False.
  - destruct (q_delmax_ok _ _ _ RQ t p l (ti_q _ _ _ _ _ Hi1) HR) as (q & Eq & Hq).
    rewrite (st_bind_Some _ _ _ _ _ (x_on_q _ w1 _ _ Eq)).
    assert (Hin : in_q Q1 RQ t) by (unfold in_q; rewrite HR; by left).
    assert (Hnd := q_nodup _ _ _ RQ (ti_q _ _ _ _ _ Hi1)). rewrite HR, fmap_cons in Hnd. apply NoDup_cons in Hnd as [Hnt Hnd].
    destruct (ti_state _ _ _ _ _ Hi1 RQ t Hin) as (x & Hx & Hxh & Hxs).
    assert (Hsub : forall n u, in_q (qupd RQ l Q1) n u <-> in_q Q1 n u /\ u <> t).
    { intros n u. unfold in_q at 1. unfold qupd. case_decide as Hn.
      - subst n. unfold in_q. rewrite HR, fmap_cons, elem_of_cons. cbn [fst] in *.
        split; [intros Hu; split; [by right|by intros ->]|tauto].
      - split; [intros Hu; split; [done|]|by intros [? _]]. intros ->. apply Hn.
        by apply (q_one _ _ _ _ _ _ (ti_q _ _ _ _ _ Hi1) Hu Hin). }
    eexists _, (qupd RQ l Q1), (Some t). split; [reflexivity|]. split; [|split_and!; try done].
    + eapply winv_same; [exact Hw1| |done|done]. destruct Hi1 as [A1 A2 A3 A4 A5 A6]. constructor; cbn; try done.
      * intros n u [Hu _]%Hsub. by apply A2.
      * intros u [->%elem_of_singleton|Hu]%elem_of_union.
        { split; [intros n [_ Hne]%Hsub; done|by exists x]. }
        { destruct (A3 u Hu) as [Hn Hxx]. split; [|done]. intros n [Hq' _]%Hsub. by apply (Hn n). }
      * intros u y Hy Hyh. destruct (decide (u = t)) as [->|Hne]; [left; set_solver|].
        destruct (A4 u y Hy Hyh) as [?|[n Hn]]; [left; set_solver|right]. exists n. by apply Hsub.
    + cbn. by rewrite Hg1.
    + intros n Hn1 Hn2. unfold Q1, qupd. by rewrite !decide_False.
    + intros a [= <-]. exists x. cbn. done.
Qed.

(** Choosing the next thread. The scheduler first makes every new thread
    ready; then it takes the ready thread of highest priority, the first among
    equals, as the current one, or finds none exactly when there is neither a
    new nor a ready thread. With [favournew] a new thread runs before all ready
    ones, the one of highest priority first. All other threads stay in their
    queues, in order. *)
Lemma dispatch_best (w : wd) Q L :
  winv w Q L ->
  exists w' Q' t, sched_select w = Some (t, w') /\ winv w' Q' (opt_set t ∪ L) /\ g_current (w_g w') = t /\
    (t = NULL <-> Q NQ = [] /\ Q RQ = []) /\
    (forall a, t = Some a -> (exists x, w_tcb w' !! a = Some x /\ t_state x = PTH_STATE_READY) /\
       (exists p, adopt (g_favournew (w_g w)) (Q NQ) (Q RQ) = (a, p) :: Q' RQ /\ Forall (fun y => y.2 <= p) (Q' RQ))) /\
    (g_favournew (w_g w) = true -> forall a p l, Q NQ = (a, p) :: l -> t = Some a) /\
    Q' NQ = [] /\ (forall n, n <> NQ -> n <> RQ -> Q' n = Q n).
Proof.
  intros Hw. destruct (select_ok w Q L Hw) as (w' & Q' & t & E1 & Hw' & Hc & _ & (Ht & HN & HR & Hn & Hs) & Hst & _).
  exists w', Q', t. set (rq := adopt (g_favournew (w_g w)) (Q NQ) (Q RQ)) in *. split_and!; try done.
  - rewrite Ht. assert (Hin : forall u, u ∈ rq.*1 <-> u ∈ (Q NQ).*1 \/ u ∈ (Q RQ).*1) by apply in_adopt. split.
    + intros Hrq. destruct rq as [|y rq']; [|done]. split.
      * destruct (Q NQ) as [|y l]; [done|]. exfalso. apply (not_elem_of_nil y.1), Hin. left. by left.
      * destruct (Q RQ) as [|y l]; [done|]. exfalso. apply (not_elem_of_nil y.1), Hin. right. by left.
    + intros [HNQ HRQ]. unfold rq, adopt. by rewrite HNQ, HRQ.
  - intros a Ha. split; [by apply Hst|]. rewrite HR. clear HR HN. clearbody rq. destruct rq as [|[b p] rq]; [cbn in Ht; congruence|].
    rewrite Ha in Ht. cbn in Ht. injection Ht as <-. exists p. split; [done|]. apply Hs.
  - intros Hf a p l HNQ. rewrite Ht. unfold rq. rewrite Hf, HNQ. destruct (adopt_favour a p l (Q RQ)) as (q & l' & ->). done.
Qed.

(** [malloc] gives fresh memory. *)
Context (malloc : gset addr -> ptr) (malloc_fresh : forall A a, malloc A = Some a -> a ∉ A).

Lemma tinv_increase (w : wd) Q L n : tinv w Q L ->
  exists q, on_q (qo_increase n) w = Some (tt, set_q q w) /\ tinv (set_q q w) (qupd n (pq_incr (Q n)) Q) L.
Proof.
  intros [Hq Hs Hl Ha Hh Hj]. destruct (q_increase_ok _ _ _ n Hq) as (q & Eq & Hq'). exists q.
  split; [by apply x_on_q|].
  assert (Hin : forall m u, in_q (qupd n (pq_incr (Q n)) Q) m u <-> in_q Q m u).
  { intros m u. unfold in_q, qupd. case_decide; [subst m; apply in_incr|done]. }
  constructor; cbn; try done.
  - intros m u Hu%Hin. by apply Hs.
  - intros u Hu. destruct (Hl u Hu) as [Hn Hx]. split; [|done]. intros m Hm%Hin. by apply (Hn m).
  - intros u y Hy Hyh. destruct (Ha u y Hy Hyh) as [?|[m Hm]]; [by left|right; exists m; by apply Hin].
Qed.

Lemma settle_end_none (w : wd) Q L : winv w Q L -> g_current (w_g w) = NULL ->
  exists q, settle_end w = Some (tt, set_q q w) /\ winv (set_q q w) (qupd RQ (pq_incr (Q RQ)) Q) L.
Proof.
  intros Hw Hc. destruct (tinv_increase w Q L RQ (wi_t _ _ _ _ _ _ Hw)) as (q & E1 & Hi). exists q.
  unfold settle_end. rewrite (st_bind_Some _ _ _ _ _ E1).
  rewrite (st_bind_Some (getg g_current) _ (set_q q w) NULL (set_q q w)) by (unfold getg; cbn; by rewrite Hc).
  split; [done|]. by eapply winv_same.
Qed.

Lemma settle_end_some (w : wd) Q L c x : winv w Q ({[c]} ∪ L) -> c ∉ L -> g_current (w_g w) = Some c ->
  w_tcb w !! c = Some x -> t_state x = PTH_STATE_READY ->
  exists q, settle_end w = Some (tt, set_q q w) /\
    winv (set_q q w) (qupd RQ (pq_ins (t_prio x) c (pq_incr (Q RQ))) (qupd RQ (pq_incr (Q RQ)) Q)) L.
Proof.
  intros Hw HcL Hc Hx Hs. destruct (tinv_increase w Q _ RQ (wi_t _ _ _ _ _ _ Hw)) as (q1 & E1 & Hi1).
  destruct (tinv_insert self G (set_q q1 w) _ _ RQ (t_prio x) c x Hi1 ltac:(set_solver) Hx Hs) as (q & E2 & Hi2).
  exists q. unfold settle_end. rewrite (st_bind_Some _ _ _ _ _ E1).
  rewrite (st_bind_Some (getg g_current) _ (set_q q1 w) (Some c) (set_q q1 w)) by (unfold getg; cbn; by rewrite Hc).
  rewrite (st_bind_Some _ _ _ _ _ (x_rd_tcb (set_q q1 w) c x Hx)). split; [exact E2|].
  eapply winv_same; [exact Hw| |done|done]. rewrite qupd_eq in Hi2. eapply tinv_set; [|exact Hi2]. set_solver.
Qed.

(** The settled thread is in the queue of its state, or gone. *)
Definition settled (c : addr) (x : tcb) (w w' : wd) (Q Q' : qlists) : Prop :=
  if t_state x =? PTH_STATE_DEAD then
    if t_joinable x then
      Q' = qupd RQ (pq_incr (Q RQ)) (qupd DQ (pq_ins PTH_PRIO_STD c (Q DQ)) Q) /\ g_current (w_g w') = NULL /\
      w_tcb w' = <[c := set_join_waitq pth_waitq_init (set_join_done true x)]> (w_tcb w)
    else Q' = qupd RQ (pq_incr (Q RQ)) Q /\ g_current (w_g w') = NULL /\ w_tcb w' !! c = None
  else if t_state x =? PTH_STATE_WAITING then
    Q' = qupd RQ (pq_incr (Q RQ)) (qupd WQ (pq_ins (t_prio x) c (Q WQ)) Q) /\ g_current (w_g w') = NULL /\ w_tcb w' = w_tcb w
  else Q' = qupd RQ (pq_ins (t_prio x) c (pq_incr (Q RQ))) (qupd RQ (pq_incr (Q RQ)) Q) /\ w_tcb w' = w_tcb w.

(** Nothing but the settled thread is touched. *)
Record settles_only `{!FreeLaws H U} (c : addr) (w w' : wd) : Prop := {
  so_user : fr_keep (w_user w) (w_user w');
  so_ev : w_ev w' = w_ev w;
  so_inb : inb_same self G (w_inb w) (w_inb w');
  so_tcb : forall u, u <> c -> w_tcb w' !! u = w_tcb w !! u
}.

Lemma settle_ok (w : wd) Q L c x :
  winv w Q ({[c]} ∪ L) -> c ∉ L -> g_current (w_g w) = Some c -> w_tcb w !! c = Some x ->
  t_state x = PTH_STATE_DEAD \/ t_state x = PTH_STATE_WAITING \/ t_state x = PTH_STATE_READY ->
  exists w' Q', sched_settle self malloc w = Some (tt, w') /\ winv w' Q' L /\ settled c x w w' Q Q' /\
    g_scheduler (w_g w') = g_scheduler (w_g w) /\ g_stop (w_g w') = g_stop (w_g w) /\
    ev_keeps E (w_ev w) (w_ev w') /\ inb_ext self G (w_inb w) (w_inb w') /\ (forall F : FreeLaws H U, settles_only c w w').
Proof.
  intros Hw HcL Hc Hx Hst. unfold sched_settle, settled.
  rewrite (st_bind_Some (getg g_current) _ w (Some c) w) by (unfold getg; by rewrite Hc).
  rewrite (st_bind_Some _ _ _ _ _ (x_rd_tcb w c x Hx)).
  destruct Hst as [Hs|[Hs|Hs]]; rewrite Hs; cbn [Z.eqb PTH_STATE_DEAD PTH_STATE_WAITING PTH_STATE_READY Pos.eqb].
  - (* dead *)
    assert (Hdead : exists w1 Q1, (if negb (t_joinable x) then pth_tcb_free (Some c) else bury self malloc (Some c)) w = Some (tt, w1) /\
        winv w1 Q1 L /\ wstep self G E w w1 /\
        (if t_joinable x then Q1 = qupd DQ (pq_ins PTH_PRIO_STD c (Q DQ)) Q /\
          w_tcb w1 = <[c := set_join_waitq pth_waitq_init (set_join_done true x)]> (w_tcb w)
        else Q1 = Q /\ w_tcb w1 !! c = None) /\ (forall F : FreeLaws H U, settles_only c w w1)).
    { destruct (t_joinable x) eqn:Hj; cbn [negb].
      - destruct (bury_ok self G E malloc malloc_fresh w Q L c x Hw HcL Hx Hs) as (w1 & E1 & Hw1 & Hs1 & Ht1 & Hg1 & He1 & Hu1 & Hb1).
        eexists w1, _. split_and!; try done. intros F. constructor; [rewrite Hu1; apply fr_refl|done|done|].
        intros u Hu. rewrite Ht1. by apply lookup_insert_ne.
      - destruct (tcb_free_ok self G E w Q _ c x Hw ltac:(set_solver) Hx) as (w0 & w1 & E1 & Hw1 & Hq1 & Ht1 & Hg1 & He1 & Hb1).
        assert (Hset : ({[c]} ∪ L) ∖ {[c]} = L) by set_solver. rewrite Hset in Hw1. eexists w1, Q. split_and!; try done.
        + destruct (quiet_wstep _ _ _ _ _ Hq1) as [C1 C2 C3 C4 C5 C6]. constructor; by rewrite ?Hg1, ?He1, ?Hb1.
        + by rewrite Ht1, lookup_delete_eq.
        + intros F. destruct (tcb_free_keeps w w1 c x Hx E1) as (u & Hu & ->). constructor; [done|done|by intros ?|].
          intros v Hv. cbn. by apply lookup_delete_ne. }
    destruct Hdead as (w1 & Q1 & E1 & Hw1 & Hs1 & Hout & Honly). rewrite st_bind_assoc, (st_bind_Some _ _ _ _ _ E1).
    set (w2 := set_g (set_current NULL (w_g w1)) w1).
    rewrite (st_bind_Some (updg (set_current NULL)) _ w1 tt w2 eq_refl).
    assert (Hw2 : winv w2 Q1 L) by (eapply winv_same; [exact Hw1|eapply tinv_other; [..|apply Hw1]; done|done|done]).
    destruct (settle_end_none w2 Q1 L Hw2 eq_refl) as (q & E2 & Hw3). exists (set_q q w2), (qupd RQ (pq_incr (Q1 RQ)) Q1).
    split; [exact E2|]. split; [done|].
    assert (HR : Q1 RQ = Q RQ) by (destruct (t_joinable x); destruct Hout as [-> _]; [by rewrite qupd_ne|done]).
    destruct Hs1 as [C1 C2 C3 C4 C5 C6]. split_and!; try done; [|intros F; by destruct (Honly F) as [B1 B2 B3 B4]; constructor]. rewrite HR. cbn.
    destruct (t_joinable x); destruct Hout as [-> ?]; done.
  - (* waiting *)
    rewrite (st_bind_Some (mret tt) _ w tt w eq_refl).
    rewrite (st_bind_Some (getg g_current) _ w (Some c) w) by (unfold getg; by rewrite Hc).
    rewrite st_bind_assoc, (st_bind_Some _ _ _ _ _ (x_rd_tcb w c x Hx)). rewrite Hs.
    change (PTH_STATE_WAITING =? PTH_STATE_WAITING) with true. cbv iota.
    destruct (tinv_insert self G w Q _ WQ (t_prio x) c x (wi_t _ _ _ _ _ _ Hw) ltac:(set_solver) Hx Hs) as (q & E1 & Hi1).
    rewrite st_bind_assoc, (st_bind_Some _ _ _ _ _ E1).
    set (w2 := set_g (set_current NULL (w_g w)) (set_q q w)).
    rewrite (st_bind_Some (updg (set_current NULL)) _ (set_q q w) tt w2 eq_refl).
    assert (Hset : ({[c]} ∪ L) ∖ {[c]} = L) by set_solver. rewrite Hset in Hi1.
    assert (Hw2 : winv w2 (qupd WQ (pq_ins (t_prio x) c (Q WQ)) Q) L).
    { eapply winv_same; [exact Hw|eapply tinv_other; [..|exact Hi1]; done|done|done]. }
    destruct (settle_end_none w2 _ L Hw2 eq_refl) as (q2 & E2 & Hw3). eexists (set_q q2 w2), _.
    split; [exact E2|]. split; [exact Hw3|]. split_and!; try done; [apply ev_keeps_refl|apply inb_ext_refl|intros F; constructor; [apply fr_refl|done|by intros ?|done]].
  - (* ready *)
    rewrite (st_bind_Some (mret tt) _ w tt w eq_refl).
    rewrite (st_bind_Some (getg g_current) _ w (Some c) w) by (unfold getg; by rewrite Hc).
    rewrite st_bind_assoc, (st_bind_Some _ _ _ _ _ (x_rd_tcb w c x Hx)). rewrite Hs.
    change (PTH_STATE_READY =? PTH_STATE_WAITING) with false. cbv iota. rewrite (st_bind_Some (mret tt) _ w tt w eq_refl).
    destruct (settle_end_some w Q L c x Hw HcL Hc Hx Hs) as (q & E1 & Hw1). eexists (set_q q w), _.
    split; [exact E1|]. split; [exact Hw1|]. split_and!; try done; [apply ev_keeps_refl|apply inb_ext_refl|intros F; constructor; [apply fr_refl|done|by intros ?|done]].
Qed.

(** C12: settling the thread that ran. A dead thread is freed if it is
    detached; otherwise it goes to the dead queue, its death is published and
    its joiners are taken out of its queue. A waiting thread goes to the
    waiting queue, any other back to the ready queue with its own priority,
    behind the ready threads, which have all aged by one. The invariant is
    kept and the current thread is in no doubt. *)
Theorem settle_correct (w : wd) Q L c x :
  winv w Q ({[c]} ∪ L) -> c ∉ L -> g_current (w_g w) = Some c -> w_tcb w !! c = Some x ->
  t_state x = PTH_STATE_DEAD \/ t_state x = PTH_STATE_WAITING \/ t_state x = PTH_STATE_READY ->
  exists w' Q', sched_settle self malloc w = Some (tt, w') /\ winv w' Q' L /\ settled c x w w' Q Q' /\
    (forall u, u <> c -> forall n, n <> RQ -> in_q Q' n u <-> in_q Q n u).
Proof.
  intros Hw HcL Hc Hx Hst. destruct (settle_ok w Q L c x Hw HcL Hc Hx Hst) as (w' & Q' & E1 & Hw' & Hs & _).
  exists w', Q'. split_and!; try done. intros u Huc n Hn. unfold settled in Hs.
  assert (Hins : forall p l, u ∈ (pq_ins p c l).*1 <-> u ∈ l.*1) by (intros p l; rewrite in_ins; naive_solver).
  unfold in_q. destruct (t_state x =? PTH_STATE_DEAD); [destruct (t_joinable x)|destruct (t_state x =? PTH_STATE_WAITING)];
    destruct Hs as [-> _]; rewrite ?qupd_ne by done; try done.
  - destruct (decide (n = DQ)) as [->|Hd]; [rewrite qupd_eq; apply Hins|by rewrite qupd_ne by congruence].
  - destruct (decide (n = WQ)) as [->|Hd]; [rewrite qupd_eq; apply Hins|by rewrite qupd_ne by congruence].
Qed.

(** ** No starvation *)

(** What happens to the ready queue besides: threads of priority at most [M]
    are inserted, and threads other than [t] leave. *)
Inductive rq_act (M : Z) (t : addr) : list (addr * Z) -> list (addr * Z) -> Prop :=
| ra_refl l : rq_act M t l l
| ra_ins l l' u p : u ∉ l'.*1 -> p <= M -> rq_act M t l l' -> rq_act M t l (pq_ins p u l')
| ra_del l l' u : u <> t -> rq_act M t l l' -> rq_act M t l (pq_del u l').

(** [n] threads of priority at least that of [t], which is [p], are ahead of
    [t]. *)
Definition ahead (n : nat) (t : addr) (p : Z) (l : list (addr * Z)) : Prop :=
  exists l1 l2, l = l1 ++ (t, p) :: l2 /\ length l1 = n /\ t ∉ l1.*1 /\ Forall (fun y => p <= y.2) l1.

Lemma ins_behind p' u p l1 l2 t : p' <= p -> Forall (fun y => p <= y.2) l1 ->
  pq_ins p' u (l1 ++ (t, p) :: l2) = l1 ++ (t, p) :: pq_ins p' u l2.
Proof.
  intros Hp. induction l1 as [|[v pv] l1 IH]; cbn [app pq_ins].
  - intros _. by rewrite (proj2 (Z.ltb_ge _ _) Hp).
  - intros [Hv Hl]%Forall_cons. cbn in Hv. rewrite (proj2 (Z.ltb_ge pv p')) by lia. by rewrite IH.
Qed.

Lemma act_ahead M t p n l l' : M <= p -> ahead n t p l -> rq_act M t l l' -> exists n', (n' <= n)%nat /\ ahead n' t p l'.
Proof.
  intros HM Ha Hr. induction Hr as [l|l l' u p' Hu Hp' Hr IH|l l' u Hu Hr IH]; [by exists n| |];
    destruct (IH Ha) as (n' & Hn & l1 & l2 & -> & Hl & Hni & Hf).
  - exists n'. split; [done|]. exists l1, (pq_ins p' u l2). rewrite ins_behind by (done || lia). done.
  - exists (length (pq_del u l1)). split.
    + etrans; [apply length_filter|]. lia.
    + exists (pq_del u l1), (pq_del u l2). split_and!; try done.
      * unfold pq_del. rewrite filter_app, filter_cons. cbn. by rewrite decide_True by congruence.
      * intros [_ Hin]%in_del. done.
      * apply Forall_forall. intros y [_ Hy]%list_elem_of_filter. by apply (proj1 (Forall_forall _ _) Hf).
Qed.
Lemma act_prio M t p l l' : rq_act M t l l' -> (t, p) ∈ l -> (t, p) ∈ l'.
Proof.
  intros Hr Hin. induction Hr as [|l l' u p' _ _ _ IH|l l' u Hu _ IH]; [done| |].
  - rewrite pq_ins_perm. right. by apply IH.
  - apply list_elem_of_filter. split; [done|by apply IH].
Qed.
Lemma incr_ahead n t p l : ahead n t p l -> ahead n t (p + 1) (pq_incr l).
Proof.
  intros (l1 & l2 & -> & Hl & Hni & Hf). exists (pq_incr l1), (pq_incr l2). split_and!.
  - unfold pq_incr. by rewrite fmap_app.
  - unfold pq_incr. by rewrite length_fmap.
  - by rewrite in_incr.
  - unfold pq_incr. rewrite Forall_fmap. eapply Forall_impl; [exact Hf|]. cbn. intros; lia.
Qed.
Lemma incr_in t p l : (t, p) ∈ l -> (t, p + 1) ∈ pq_incr l.
Proof. intros Hin. apply list_elem_of_fmap. by exists (t, p). Qed.

(** One turn of the scheduler: it chooses [a], which runs; [a] is put away;
    the event manager works. Meanwhile the ready queue is only changed as
    above, there are no favoured new threads, and [a] has a base priority of
    at most [M]. *)
Inductive turn (M : Z) (t : addr) : wd -> qlists -> addr -> wd -> qlists -> Prop :=
| turn_intro w Q L a w1 Q1 w2 Q2 L2 x w3 Q3 w4 Q4 L4 :
    winv w Q L -> (g_favournew (w_g w) = false \/ Q NQ = []) -> PTH_PRIO_STD <= M ->
    sched_select w = Some (Some a, w1) -> winv w1 Q1 ({[a]} ∪ L) ->
    winv w2 Q2 ({[a]} ∪ L2) -> a ∉ L2 -> rq_act M t (Q1 RQ) (Q2 RQ) ->
    g_current (w_g w2) = Some a -> w_tcb w2 !! a = Some x -> t_prio x <= M ->
    t_state x = PTH_STATE_DEAD \/ t_state x = PTH_STATE_WAITING \/ t_state x = PTH_STATE_READY ->
    sched_settle self malloc w2 = Some (tt, w3) -> winv w3 Q3 L2 ->
    rq_act M t (Q3 RQ) (Q4 RQ) -> winv w4 Q4 L4 ->
    turn M t w Q a w4 Q4.

(** The threads chosen in a sequence of turns. *)
Inductive turns (M : Z) (t : addr) : wd -> qlists -> list addr -> wd -> qlists -> Prop :=
| turns_nil w Q : turns M t w Q [] w Q
| turns_cons w Q a w1 Q1 l w2 Q2 :
    turn M t w Q a w1 Q1 -> turns M t w1 Q1 l w2 Q2 -> turns M t w Q (a :: l) w2 Q2.

(** The ready queue of the turn, stage by stage. *)
Lemma turn_rq M t w Q a w' Q' : turn M t w Q a w' Q' ->
  exists r1 p r2 r3, rq_act M t (Q RQ) r1 /\ r1 = (a, p) :: r2 /\ rq_act M t r2 r3 /\ rq_act M t (pq_incr r3) (Q' RQ).
Proof.
  intros Ht. destruct Ht as [w Q L a w1 Q1 w2 Q2 L2 x w3 Q3 w4 Q4 L4 Hw Hf HM E1 Hw1 Hw2 HaL HA Hc Hx Hp Hs E2 Hw3 HB Hw4].
  destruct (select_ok w Q L Hw) as (w1' & Q1' & t' & E1' & Hw1' & _ & _ & (Ht & HN & HR & _) & _).
  rewrite E1 in E1'. injection E1' as <- <-.
  assert (HQ1 := q_functional _ _ _ _ _ RQ (ti_q _ _ _ _ _ (wi_t _ _ _ _ _ _ Hw1)) (ti_q _ _ _ _ _ (wi_t _ _ _ _ _ _ Hw1'))).
  destruct (settle_ok w2 Q2 L2 a x Hw2 HaL Hc Hx Hs) as (w3' & Q3' & E2' & Hw3' & Hset & _).
  rewrite E2 in E2'. injection E2' as <-.
  assert (HQ3 := q_functional _ _ _ _ _ RQ (ti_q _ _ _ _ _ (wi_t _ _ _ _ _ _ Hw3)) (ti_q _ _ _ _ _ (wi_t _ _ _ _ _ _ Hw3'))).
  set (rq := adopt (g_favournew (w_g w)) (Q NQ) (Q RQ)) in *.
  destruct rq as [|[b p] r2] eqn:Erq; [done|]. cbn in Ht. injection Ht as <-. cbn [tail] in HR.
  exists ((a, p) :: r2), p, r2, (Q2 RQ). split_and!.
  - rewrite <- Erq. unfold rq. destruct Hf as [Hf|Hf].
    + rewrite Hf. assert (Hni : forall u, u ∈ (Q NQ).*1 -> u ∉ (Q RQ).*1).
      { intros u Hu1 Hu2. assert (Hq := q_one _ _ _ NQ RQ u (ti_q _ _ _ _ _ (wi_t _ _ _ _ _ _ Hw)) Hu1 Hu2). done. }
      assert (Hnd := q_nodup _ _ _ NQ (ti_q _ _ _ _ _ (wi_t _ _ _ _ _ _ Hw))). clear -Hni Hnd HM.
      induction (Q NQ) as [|[u pu] nq IH]; [constructor|]. cbn [adopt foldr]. unfold adopt1 at 1. cbn [fst].
      rewrite fmap_cons in Hnd. apply NoDup_cons in Hnd as [Hu Hnd]. cbn [fst] in Hu.
      apply ra_ins; [|exact HM|].
      * fold (adopt false nq (Q RQ)). rewrite in_adopt. intros [?|Hr]; [done|]. apply (Hni u); [cbn; by left|done].
      * apply IH; [|done]. intros v Hv. apply Hni. cbn. by right.
    + rewrite Hf. constructor.
  - done.
  - rewrite <- HR, <- HQ1. exact HA.
  - rewrite HQ3 in HB. unfold settled in Hset.
    assert (Hincr : Q3' RQ = pq_incr (Q2 RQ) -> rq_act M t (pq_incr (Q2 RQ)) (Q4 RQ)) by (by intros <-).
    destruct (t_state x =? PTH_STATE_DEAD); [destruct (t_joinable x)|destruct (t_state x =? PTH_STATE_WAITING)];
      destruct Hset as [-> _]; try (by apply Hincr; rewrite qupd_eq).
    rewrite qupd_eq in HB.
    assert (Hni : a ∉ (pq_incr (Q2 RQ)).*1).
    { rewrite in_incr. apply (proj1 (ti_loose _ _ _ _ _ (wi_t _ _ _ _ _ _ Hw2) a ltac:(set_solver)) RQ). }
    clear -HB Hni Hp. remember (pq_ins (t_prio x) a (pq_incr (Q2 RQ))) as l0 eqn:E0.
    induction HB as [l|l l' u p' Hu Hp' Hr IH|l l' u Hu Hr IH]; subst.
    + apply ra_ins; [done|done|constructor].
    + apply ra_ins; [done|done|by apply IH].
    + apply ra_del; [done|by apply IH].
Qed.

(** In every turn a thread is chosen or ages by one. *)
Lemma turn_ages M t p w Q a w' Q' : turn M t w Q a w' Q' -> (t, p) ∈ Q RQ -> a <> t -> (t, p + 1) ∈ Q' RQ.
Proof.
  intros Ht Hin Hat. destruct (turn_rq _ _ _ _ _ _ _ Ht) as (r1 & pa & r2 & r3 & HA & -> & HB & HC).
  apply (act_prio M t _ _ _ HA) in Hin. apply elem_of_cons in Hin as [[= <- <-]|Hin]; [done|].
  eapply act_prio; [exact HC|]. apply incr_in. by eapply act_prio.
Qed.
(** Once nobody can get ahead of it, one thread less is ahead of it. *)
Lemma turn_ahead M t p n w Q a w' Q' : turn M t w Q a w' Q' -> M <= p -> ahead n t p (Q RQ) -> a <> t ->
  exists n', (n' < n)%nat /\ ahead n' t (p + 1) (Q' RQ).
Proof.
  intros Ht HM Ha Hat. destruct (turn_rq _ _ _ _ _ _ _ Ht) as (r1 & pa & r2 & r3 & HA & -> & HB & HC).
  destruct (act_ahead _ _ _ _ _ _ HM Ha HA) as (n1 & Hn1 & l1 & l2 & Heq & Hl & Hni & Hf).
  destruct l1 as [|[b pb] l1]; cbn in Heq; [by injection Heq as ->|]. injection Heq as <- <- ->.
  assert (H2 : ahead (length l1) t p (l1 ++ (t, p) :: l2)).
  { exists l1, l2. split_and!; try done; [intros Hin; apply Hni; cbn; by right|by apply Forall_cons in Hf as [_ ?]]. }
  destruct (act_ahead _ _ _ _ _ _ HM H2 HB) as (n3 & Hn3 & H3). apply incr_ahead in H3.
  destruct (act_ahead M t (p + 1) _ _ _ ltac:(lia) H3 HC) as (n4 & Hn4 & H4).
  exists n4. split; [cbn in Hl; lia|done].
Qed.

(** C23: no ready thread starves. Let [M] bound the priorities with which
    threads become ready. In every turn of the scheduler a ready thread [t] is
    chosen or ages by one, so after at most [M - p] turns it has the priority
    [M] or has run; and from then on it is chosen after at most as many
    further turns as there are threads ahead of it, whatever becomes ready
    meanwhile. *)
Theorem no_starvation M t w Q p l w' Q' :
  turns M t w Q l w' Q' -> t ∉ l ->
  ((t, p) ∈ Q RQ -> (t, p + Z.of_nat (length l)) ∈ Q' RQ) /\
  (forall n, M <= p -> ahead n t p (Q RQ) -> (length l <= n)%nat).
Proof.
  intros Hts. revert p. induction Hts as [w Q|w Q a w1 Q1 l w2 Q2 Ht Hts IH]; intros p Hl.
  - split; [|intros; cbn; lia]. intros Hin. cbn. by rewrite Z.add_0_r.
  - apply not_elem_of_cons in Hl as [Hat Hl]. destruct (IH (p + 1) Hl) as [IH1 IH2]. split.
    + intros Hin. cbn [length]. replace (p + Z.of_nat (S (length l))) with (p + 1 + Z.of_nat (length l)) by lia.
      apply IH1. by eapply turn_ages.
    + intros n HM Ha. destruct (turn_ahead _ _ _ _ _ _ _ _ _ Ht HM Ha) as (n' & Hn & Ha'); [done|].
      cbn [length]. specialize (IH2 n' ltac:(lia) Ha'). lia.
Qed.
End select.

(** Thread 12, of priority 2, is ready and 11 is new: 12 is chosen. *)
Lemma demo_select : exists (w w1 : dworld) Q1 x,
  winv 1 demo_G demo_E w demo_Q ({[10%positive]} : gset addr) /\ g_favournew (w_g w) = false /\
  sched_select w = Some (Some 12%positive, w1) /\ winv 1 demo_G demo_E w1 Q1 ({[12%positive]} ∪ {[10%positive]}) /\
  g_current (w_g w1) = Some 12%positive /\ w_tcb w1 !! 12%positive = Some x /\ t_state x = PTH_STATE_READY.
Proof.
  destruct demo_inv as [q Hq]. set (w := set_g (set_favournew false (w_g (set_q q demo_w0))) (set_q q demo_w0)).
  assert (Hw : winv 1 demo_G demo_E w demo_Q ({[10%positive]} : gset addr)).
  { eapply winv_same; [exact Hq|eapply tinv_other; [..|apply Hq]; done|done|done]. }
  destruct (select_ok 1 demo_G demo_E w _ _ Hw) as (w1 & Q1 & t & E1 & Hw1 & Hc & _ & (Ht & _) & Hx & _).
  assert (Et : t = Some 12%positive) by exact Ht. clear Ht. rewrite Et in *. destruct (Hx 12%positive eq_refl) as (x & Hx1 & Hxs).
  exists w, w1, Q1, x. split_and!; [exact Hw|reflexivity|exact E1|exact Hw1|exact Hc|exact Hx1|exact Hxs].
Qed.

Lemma dispatch_best_witness : exists (w w' : dworld), sched_select w = Some (Some 12%positive, w') /\
  g_current (w_g w') = Some 12%positive.
Proof.
  destruct demo_select as (w & w1 & Q1 & x & Hw & _ & E1 & _).
  destruct (dispatch_best 1 demo_G demo_E w _ _ Hw) as (w' & Q' & t & E & _ & Hc & _).
  rewrite E1 in E. injection E as <- <-. exists w, w1. split; [exact E1|exact Hc].
Defined.

Lemma settle_correct_witness : exists (w w' : dworld) Q', g_current (w_g w) = Some 12%positive /\
  sched_settle 1 demo_malloc w = Some (tt, w') /\ winv 1 demo_G demo_E w' Q' {[10%positive]}.
Proof.
  destruct demo_select as (w & w1 & Q1 & x & Hw & _ & _ & Hw1 & Hc & Hx & Hs).
  destruct (settle_correct 1 demo_G demo_E demo_malloc demo_malloc_fresh w1 Q1 _ 12%positive x Hw1 ltac:(set_solver) Hc Hx
    (or_intror (or_intror Hs))) as (w' & Q' & E & Hw' & _).
  exists w1, w', Q'. split_and!; [exact Hc|exact E|exact Hw'].
Defined.

(** Threads 12 and 11 are ready, with aged priorities 7 and 6. *)
Definition demo_tcbs2 : gmap addr tcb := <[11%positive := demo_tcb 0 PTH_STATE_READY PTH_CANCEL_DEFAULT true]> demo_tcbs.
Definition demo_w2 : dworld := set_tcb demo_tcbs2 demo_w0.
Definition demo_Q2 : qlists := qupd RQ [(12%positive, 7); (11%positive, 6)] (fun _ => []).
Lemma demo_inv2 : exists q, winv 1 demo_G demo_E (set_q q demo_w2) demo_Q2 ({[10; 13; 14]}%positive : gset addr).
Proof.
  assert (H0 := demo_inv0). assert (Hi := wi_t _ _ _ _ _ _ H0).
  assert (H1 := tinv_upd 1 demo_G _ _ _ 11%positive _ (demo_tcb 0 PTH_STATE_READY PTH_CANCEL_DEFAULT true) Hi eq_refl eq_refl eq_refl
    ltac:(left; set_solver)).
  destruct (tinv_insert 1 demo_G _ _ _ RQ 7 12%positive _ H1 ltac:(set_solver) eq_refl eq_refl) as (q2 & _ & H2).
  destruct (tinv_insert 1 demo_G _ _ _ RQ 6 11%positive _ H2 ltac:(set_solver) eq_refl eq_refl) as (q3 & _ & H3).
  exists q3. eapply winv_same; [exact H0| |done|done].
  eapply tinv_set; [|eapply tinv_ext; [|exact H3]].
  - vm_compute. reflexivity.
  - intros n. by destruct n.
Qed.

(** Thread 11 ages while 12 has its turn; it is then the next one. *)
Lemma no_starvation_witness : exists (w w' : dworld) Q',
  turns 1 demo_G demo_E demo_malloc 2 11 w demo_Q2 [12%positive] w' Q' /\ (11%positive, 7) ∈ Q' RQ.
Proof.
  destruct demo_inv2 as [q Hw]. set (w := set_q q demo_w2) in *.
  destruct (select_ok 1 demo_G demo_E w _ _ Hw) as (w1 & Q1 & t & E1 & Hw1 & Hc & _ & (Ht & _) & Hx & _ & _ & Htc).
  assert (Et : t = Some 12%positive) by exact Ht. clear Ht. rewrite Et in *. clear Et t. specialize (Htc eq_refl).
  destruct (Hx 12%positive eq_refl) as (x & Hx1 & Hxs).
  assert (Hp : t_prio x = 2) by (rewrite Htc in Hx1; by injection Hx1 as <-).
  assert (Hni : 12%positive ∉ ({[10; 13; 14]}%positive : gset addr)) by set_solver.
  destruct (settle_ok 1 demo_G demo_E demo_malloc demo_malloc_fresh w1 Q1 _ 12%positive x Hw1 Hni Hc Hx1
    (or_intror (or_intror Hxs))) as (w' & Q' & E & Hw' & _).
  assert (Ht : turns 1 demo_G demo_E demo_malloc 2 11 w demo_Q2 [12%positive] w' Q').
  { eapply turns_cons; [|apply turns_nil].
    eapply turn_intro; [exact Hw|by right|done|exact E1|exact Hw1|exact Hw1|exact Hni|
      constructor|exact Hc|exact Hx1|lia|by right; right|exact E|exact Hw'|constructor|exact Hw']. }
  exists w, w', Q'. split; [exact Ht|].
  apply (no_starvation 1 demo_G demo_E demo_malloc demo_malloc_fresh 2 11%positive w demo_Q2 6 [12%positive] w' Q' Ht).
  - intros [=]%list_elem_of_singleton.
  - cbn. right. left.
Defined.
