(* ===== verification/Evman.v ===== *)
(** * The event manager (src/pth_sched.c, lines 758-2593)

    The three event managers - for poll(2), for epoll(7) and for select(2) -
    differ in how they watch file descriptors and are otherwise the same code.
    Here is that code, over the interface [FdBackend] of what differs; the
    backends are in [Pollset], [Epoll] and [Selectset]. A pass of the event
    manager looks at the events of all waiting threads, waits for descriptors
    and timers, and moves the threads with an event that occurred to the ready
    queue. *)

From stdpp Require Import base numbers gmap list.
From S2P Require Import Prelude Links Pqueue Ring Timeval Msg Waitq Util Event Inbox Queues World Thread Sched Dispatch.
Open Scope Z_scope.

(** The memory of the program that events point to. *)
Record umem := Umem { um_int : gmap addr Z; um_sigs : gmap addr (gset Z); um_fds : gmap addr fd_set }.

(** The user's memory holds the message ports. *)
Class PortOps (U : Type) := { po_ports : U -> mstate }.

(** ** What differs between the event managers

    [fb_want_fd goal fd] and [fb_want_sets] collect a descriptor and sets of
    descriptors, [fb_commit now pipe] adds the signal pipe and hands all to
    the system, [fb_wait] waits with no, a zero or the given delay, and
    [fb_adjust] takes the signal pipe out of the result. [fb_late_fd] and
    [fb_late_sets] decide the status of an event afterwards; the latter gives
    the new sets and their number for an event that occurred. *)
Class FdBackend (B : Type) := {
  fb_begin : st B unit;
  fb_want_fd : Z -> Z -> st B unit;
  fb_want_sets : Z -> option fd_set -> option fd_set -> option fd_set -> st B unit;
  fb_commit : pth_time_t -> Z -> st B unit;
  fb_wait : bool -> option pth_time_t -> st B Z;
  fb_adjust : bool -> Z -> Z -> st B Z;
  fb_late_fd : Z -> Z -> Z -> st B pth_status;
  fb_late_sets : Z -> Z -> option fd_set -> option fd_set -> option fd_set ->
    st B (pth_status * Z * (option fd_set * option fd_set * option fd_set))
}.

(** The timeout of poll(2) and epoll_wait(2) in milliseconds, [-1] for none. *)
Definition poll_timeout (dopoll : bool) (delay : option pth_time_t) : Z :=
  if dopoll then 0
  else match delay with
       | Some d =>
           let t := i32 (i64 (i64 (tv_sec d * 1000) + Z.quot (i64 (tv_usec d + 999)) 1000)) in
           if t <? 0 then 0 else t
       | None => -1
       end.

(** What one pass gets from outside: the results of the user's event
    functions, the signals that arrive and the messages that are posted while
    it waits, and the clock afterwards. *)
Record pass := Pass {
  pa_func : ptr -> ptr -> bool;
  pa_signals : list Z;
  pa_arrive : iheap -> iheap;
  pa_now : pth_time_t
}.

(** The state of a pass: the world, the user's memory, the backend, and the
    variables [nexttimer_thread], [nexttimer_ev], [nexttimer_value] and
    [any_occurred]. *)
Record emst (H U B : Type) := Emst {
  em_w : world H U; em_mem : umem; em_b : B;
  em_tth : ptr; em_tev : ptr; em_tval : pth_time_t; em_any : bool
}.
Arguments Emst {H U B}. Arguments em_w {H U B}. Arguments em_mem {H U B}. Arguments em_b {H U B}.
Arguments em_tth {H U B}. Arguments em_tev {H U B}. Arguments em_tval {H U B}. Arguments em_any {H U B}.

Section ops.
Context {H U B : Type} `{!QueueOps H, !CleanupOps H U, !PortOps U, !FdBackend B}.
Abbreviation wd := (world H U).
Abbreviation em := (emst H U B).
Context (self : addr) (malloc : gset addr -> ptr).
(** [PTH_NSIG], and the read end of the signal pipe. *)
Context (PTH_NSIG : Z) (sigpipe : Z).

Definition set_w (w : wd) (s : em) : em := Emst w (em_mem s) (em_b s) (em_tth s) (em_tev s) (em_tval s) (em_any s).
Definition set_mem (m : umem) (s : em) : em := Emst (em_w s) m (em_b s) (em_tth s) (em_tev s) (em_tval s) (em_any s).
Definition set_b (b : B) (s : em) : em := Emst (em_w s) (em_mem s) b (em_tth s) (em_tev s) (em_tval s) (em_any s).
Definition set_timer (t ev : ptr) (v : pth_time_t) (s : em) : em := Emst (em_w s) (em_mem s) (em_b s) t ev v (em_any s).
Definition set_any (a : bool) (s : em) : em := Emst (em_w s) (em_mem s) (em_b s) (em_tth s) (em_tev s) (em_tval s) a.
Definition upd_em (f : em -> em) : st em unit := fun s => Some (tt, f s).
Definition on_w {A : Type} (m : st wd A) : st em A := zoom em_w set_w m.
Definition on_b {A : Type} (m : st B A) : st em A := zoom em_b set_b m.

Definition wr_int (p : ptr) (v : Z) : st em unit :=
  fun s => match p with
           | Some a => match um_int (em_mem s) !! a with
                       | Some _ => Some (tt, set_mem (Umem (<[a := v]> (um_int (em_mem s))) (um_sigs (em_mem s)) (um_fds (em_mem s))) s)
                       | None => None end
           | None => None end.
Definition rd_sigs (p : ptr) : st em (gset Z) :=
  fun s => match p with
           | Some a => match um_sigs (em_mem s) !! a with Some x => Some (x, s) | None => None end
           | None => None end.
(** A set of descriptors that may be NULL. *)
Definition rd_fds (p : ptr) : st em (option fd_set) :=
  fun s => match p with
           | Some a => match um_fds (em_mem s) !! a with Some x => Some (Some x, s) | None => None end
           | None => Some (None, s) end.
Definition wr_fds (p : ptr) (v : option fd_set) : st em unit :=
  fun s => match p, v with
           | Some a, Some x => match um_fds (em_mem s) !! a with
                       | Some _ => Some (tt, set_mem (Umem (um_int (em_mem s)) (um_sigs (em_mem s)) (<[a := x]> (um_fds (em_mem s)))) s)
                       | None => None end
           | None, None => Some (tt, s)
           | _, _ => None end.
Definition em_event (ev : ptr) : st em event := on_w (on_ev (rd_event ev)).
Definition em_status (ev : ptr) (v : pth_status) : st em unit :=
  x ← em_event ev; on_w (on_ev (wr_event ev (set_status v x))).

(** ** Looking at the events *)

(** [sigfillset]. *)
Definition all_sigs : list Z := seqZ 1 (PTH_NSIG - 1).

(** The signals that a waiting thread does not block are not blocked. *)
Definition unblock (sigs : gset Z) (b : gset Z) : gset Z :=
  foldl (fun b sig => if negb (bool_decide (sig ∈ sigs)) then b ∖ {[sig]} else b) b all_sigs.

(** One signal of a [PTH_EVENT_SIGS] event. *)
Definition asm_sig (t : addr) (sigs : gset Z) (sigp : ptr) (occ : bool) (sig : Z) : st em bool :=
  if negb (bool_decide (sig ∈ sigs)) then mret occ else
  x ← on_w (rd_tcb (Some t));
  occ ← (if bool_decide (sig ∈ t_sigpending x) then
           wr_int sigp sig;;
           on_w (upd_tcb (Some t) (set_sigpend (t_sigpending x ∖ {[sig]}) (t_sigpendcnt x - 1)));;
           mret true
         else mret occ);
  g ← on_w (getg id);
  if bool_decide (sig ∈ g_sigpending g) then
    (if bool_decide (sigp <> NULL) then wr_int sigp sig else mret tt);;
    on_w (updw (fun w => set_os (pth_util_sigdelete sig (w_os w))
      (set_g (set_sigs (g_sigpending g ∖ {[sig]}) (g_sigblock g) (g_sigcatch g) (g_sigraised g) g) w)));;
    mret true
  else
    on_w (updg (set_sigs (g_sigpending g) (g_sigblock g ∖ {[sig]}) ({[sig]} ∪ g_sigcatch g) (g_sigraised g)));;
    mret occ.
Fixpoint asm_sigs (l : list Z) (t : addr) (sigs : gset Z) (sigp : ptr) (occ : bool) : st em bool :=
  match l with
  | [] => mret occ
  | sig :: l' => occ ← asm_sig t sigs sigp occ sig; asm_sigs l' t sigs sigp occ
  end.

(** Remember the timer that will elapse next. *)
Definition asm_timer (t : addr) (ev : ptr) (tv : pth_time_t) : st em unit :=
  s ← get_st;
  if (bool_decide (em_tth s = NULL) && bool_decide (em_tev s = NULL)) || (pth_time_cmp tv (em_tval s) <? 0)
  then upd_em (set_timer (Some t) ev tv) else mret tt.

(** Has the event of this type occurred? *)
Definition asm_check (now : pth_time_t) (func : ptr -> ptr -> bool) (t : addr) (ev : ptr) (x : event) : st em bool :=
  if ev_type x =? PTH_EVENT_FD then
    match ev_args x with
    | AFD fd => on_b (fb_want_fd (ev_goal x) fd);; mret false
    | _ => undef end
  else if ev_type x =? PTH_EVENT_SELECT then
    match ev_args x with
    | ASELECT _ nfd r wr e =>
        r ← rd_fds r; wr ← rd_fds wr; e ← rd_fds e;
        on_b (fb_want_sets nfd r wr e);; mret false
    | _ => undef end
  else if ev_type x =? PTH_EVENT_SIGS then
    match ev_args x with
    | ASIGS sigs sigp => sg ← rd_sigs sigs; asm_sigs all_sigs t sg sigp false
    | _ => undef end
  else if ev_type x =? PTH_EVENT_TIME then
    match ev_args x with
    | ATIME tv => if pth_time_cmp tv now <? 0 then mret true else asm_timer t ev tv;; mret false
    | _ => undef end
  else if ev_type x =? PTH_EVENT_MSG then
    match ev_args x with
    | AMSG (Some mp) =>
        s ← get_st;
        match m_ports (po_ports (w_user (em_w s))) !! mp with
        | Some pt => mret (0 <? pth_ring_elements (Some (mp_queue pt)))
        | None => undef end
    | _ => undef end
  else if ev_type x =? PTH_EVENT_TID then
    match ev_args x with
    | ATID None => s ← get_st; mret (0 <? qo_elements DQ (w_q (em_w s)))
    | ATID tid => y ← on_w (rd_tcb tid); mret (t_state y =? ev_goal x)
    | _ => undef end
  else if ev_type x =? PTH_EVENT_FUNC then
    match ev_args x with
    | AFUNC f arg tv =>
        if func f arg then mret true else asm_timer t ev (pth_time_add now tv);; mret false
    | _ => undef end
  else mret false.

Definition asm_event (now : pth_time_t) (func : ptr -> ptr -> bool) (t : addr) (ev : ptr) : st em unit :=
  x ← em_event ev;
  if bool_decide (ev_status x = PTH_STATUS_PENDING) then
    occ ← asm_check now func t ev x;
    if (occ : bool) then em_status ev PTH_STATUS_OCCURRED;; upd_em (set_any true) else mret tt
  else mret tt.

(** [do ... while ((ev = ev->ev_next) != evh)] *)
Fixpoint ring_loop (fuel : nat) (body : ptr -> st em unit) (ev evh : ptr) : st em unit :=
  body ev;;
  n ← on_w (on_ev (on_evlinks (rd_next ev)));
  if bool_decide (n = evh) then mret tt
  else match fuel with O => undef | S fuel' => ring_loop fuel' body n evh end.
Definition ring_fuel (s : em) : nat := size (e_body (w_ev (em_w s))).

Definition asm_thread (now : pth_time_t) (func : ptr -> ptr -> bool) (t : addr) : st em unit :=
  x ← on_w (rd_tcb (Some t));
  on_w (updg (fun g => set_sigs (g_sigpending g) (unblock (t_sigs x) (g_sigblock g)) (g_sigcatch g) (g_sigraised g) g));;
  (if t_cancelreq x then upd_em (set_any true) else mret tt);;
  if bool_decide (t_events x = NULL) then mret tt
  else s ← get_st; ring_loop (ring_fuel s) (asm_event now func t) (t_events x) (t_events x).

(** The loops over the waiting queue. *)
Fixpoint asm_loop (fuel : nat) (now : pth_time_t) (func : ptr -> ptr -> bool) (t : ptr) : st em unit :=
  match t with
  | None => mret tt
  | Some a =>
      asm_thread now func a;;
      n ← on_w (on_q (qo_walk WQ t WALK_NEXT));
      match fuel with O => undef | S fuel' => asm_loop fuel' now func n end
  end.

(** All waiting threads. *)
Definition assemble (now : pth_time_t) (func : ptr -> ptr -> bool) : st em unit :=
  on_w (updw (fun w => set_g (set_sigs (w_os w) (list_to_set all_sigs) ∅ ∅ (w_g w)) w));;
  upd_em (set_timer NULL NULL pth_time_zero);;
  upd_em (set_any false);;
  s ← get_st;
  asm_loop (Z.to_nat (qo_elements WQ (w_q (em_w s)))) now func (qo_head WQ (w_q (em_w s))).

(** ** After the wait *)

(** One signal of a pending [PTH_EVENT_SIGS] event. *)
Definition late_sig (ev : ptr) (sigs : gset Z) (sigp : ptr) (sig : Z) : st em unit :=
  g ← on_w (getg id);
  if bool_decide (sig ∈ sigs) && bool_decide (sig ∈ g_sigraised g) then
    (if bool_decide (sigp <> NULL) then wr_int sigp sig else mret tt);;
    on_w (updg (set_sigs (g_sigpending g) (g_sigblock g) (g_sigcatch g) (g_sigraised g ∖ {[sig]})));;
    em_status ev PTH_STATUS_OCCURRED
  else mret tt.
Fixpoint late_sigs (l : list Z) (ev : ptr) (sigs : gset Z) (sigp : ptr) : st em unit :=
  match l with
  | [] => mret tt
  | sig :: l' => late_sig ev sigs sigp sig;; late_sigs l' ev sigs sigp
  end.

Definition late_check (rc : Z) (ev : ptr) (x : event) : st em unit :=
  if ev_type x =? PTH_EVENT_FD then
    match ev_args x with
    | AFD fd =>
        v ← on_b (fb_late_fd rc (ev_goal x) fd);
        if bool_decide (v <> PTH_STATUS_PENDING) then em_status ev v else mret tt
    | _ => undef end
  else if ev_type x =? PTH_EVENT_SELECT then
    match ev_args x with
    | ASELECT n nfd r wr e =>
        r0 ← rd_fds r; w0 ← rd_fds wr; e0 ← rd_fds e;
        v ← on_b (fb_late_sets rc nfd r0 w0 e0);
        match v with
        | (PTH_STATUS_OCCURRED, k, (r1, w1, e1)) =>
            wr_fds r r1;; wr_fds wr w1;; wr_fds e e1;;
            (if bool_decide (n <> NULL) then wr_int n k else mret tt);;
            em_status ev PTH_STATUS_OCCURRED
        | (PTH_STATUS_FAILED, _, _) => em_status ev PTH_STATUS_FAILED
        | (PTH_STATUS_PENDING, _, _) => mret tt
        end
    | _ => undef end
  else if ev_type x =? PTH_EVENT_SIGS then
    match ev_args x with
    | ASIGS sigs sigp => sg ← rd_sigs sigs; late_sigs all_sigs ev sg sigp
    | _ => undef end
  else mret tt.

Definition late_event (rc : Z) (ev : ptr) : st em unit :=
  x ← em_event ev;
  (if bool_decide (ev_status x = PTH_STATUS_PENDING) then late_check rc ev x else mret tt);;
  x ← em_event ev;
  if bool_decide (ev_status x <> PTH_STATUS_PENDING) then upd_em (set_any true) else mret tt.

Definition late_thread (rc : Z) (t : addr) : st em unit :=
  upd_em (set_any false);;
  x ← on_w (rd_tcb (Some t));
  (if bool_decide (t_events x = NULL) then mret tt
   else s ← get_st; ring_loop (ring_fuel s) (late_event rc) (t_events x) (t_events x));;
  if t_cancelreq x then upd_em (set_any true) else mret tt.

(** The cleanup loop: the next thread is looked up before this one moves. *)
Fixpoint cleanup_loop (fuel : nat) (rc : Z) (t : ptr) : st em unit :=
  match t with
  | None => mret tt
  | Some a =>
      late_thread rc a;;
      n ← on_w (on_q (qo_walk WQ t WALK_NEXT));
      s ← get_st;
      (if em_any s then
         on_w (on_q (qo_delete WQ t));;
         on_w (upd_tcb t (set_state PTH_STATE_READY));;
         x ← on_w (rd_tcb t);
         on_w (on_q (qo_insert RQ (t_prio x + 1) t))
       else mret tt);;
      match fuel with O => undef | S fuel' => cleanup_loop fuel' rc n end
  end.
Definition cleanup (rc : Z) : st em unit :=
  s ← get_st;
  cleanup_loop (Z.to_nat (qo_elements WQ (w_q (em_w s)))) rc (qo_head WQ (w_q (em_w s))).

(** ** The event manager *)

(** The handler of a signal that an event waits for. *)
Definition pth_sched_eventmanager_sighandler (sig : Z) : st wd unit :=
  updg (fun g => set_sigs (g_sigpending g) (g_sigblock g) (g_sigcatch g) ({[sig]} ∪ g_sigraised g) g);;
  on_inbox (write_pipe self).
(** Only scheduler 0 catches signals. *)
Fixpoint deliver (l : list Z) : st wd unit :=
  match l with
  | [] => mret tt
  | sig :: l' =>
      g ← getg id;
      (if (g_id g =? 0) && bool_decide (sig ∈ g_sigcatch g) then pth_sched_eventmanager_sighandler sig else mret tt);;
      deliver l'
  end.

(** When the timer elapsed: [true] to repeat. *)
Definition timer_elapsed (dopoll : bool) (rc : Z) : st em bool :=
  s ← get_st;
  if negb dopoll && (rc =? 0) && bool_decide (em_tev s <> NULL) then
    x ← em_event (em_tev s);
    if ev_type x =? PTH_EVENT_FUNC then mret true
    else em_status (em_tev s) PTH_STATUS_OCCURRED;; mret false
  else mret false.

(** One pass from [loop_entry] on; the results are [dopoll] and whether to
    repeat. *)
Definition em_pass (now : pth_time_t) (dopoll : bool) (p : pass) : st em (bool * bool) :=
  on_b fb_begin;;
  on_w (on_inbox (read_pipe self));;
  any ← on_w (sched_drain self malloc);
  let dopoll := dopoll || any in
  assemble now (pa_func p);;
  s ← get_st;
  let dopoll := dopoll || em_any s in
  let delay := if bool_decide (em_tev s <> NULL) then Some (pth_time_sub (em_tval s) now) else None in
  on_b (fb_commit now sigpipe);;
  rc ← on_b (fb_wait dopoll delay);
  on_w (deliver (pa_signals p));;
  on_w (updw (fun w => set_inb (pa_arrive p (w_inb w)) w));;
  on_w (sched_drain self malloc);;
  again ← timer_elapsed dopoll rc;
  rc ← on_b (fb_adjust dopoll sigpipe rc);
  cleanup rc;;
  mret (dopoll, again).

(** [goto loop_entry]: one pass after the other until one need not be
    repeated; the result is the time [*now] that the caller gets, or [None]
    when all the passes of [ps] are over and the last one asked for another. *)
Fixpoint eventmanager (now : pth_time_t) (dopoll : bool) (ps : list pass) : st em (option pth_time_t) :=
  match ps with
  | [] => mret None
  | p :: ps' =>
      r ← em_pass now dopoll p;
      if (r.2 : bool) then eventmanager (pa_now p) r.1 ps' else mret (Some now)
  end.
End ops.
