(* ===== verification/Evstep.v ===== *)
(** * What the event manager relies on and what it leaves alone

    The laws of a backend; the well-formed events; the relation [estep]
    between the states before and after the event manager worked on events,
    and the rule for its loop over a ring of events. *)

From stdpp Require Import base numbers gmap list.
From S2P Require Import Prelude Links Pqueue Ring Timeval Msg Waitq Util Event Inbox Queues World Thread Sched Evman.
Open Scope Z_scope.

(** [fb_ok n b]: the system answers [n] more waits, and memory suffices.
    [fb_watch b fd goal]: the descriptor is watched for what [goal] asks. The
    results of the other operations matter to the events only. *)
Class FdBackendLaws (B : Type) `{!FdBackend B} := {
  fb_ok : nat -> B -> Prop;
  fb_fd : Z -> Prop;
  fb_watch : B -> Z -> Z -> Prop;
  fb_begin_ok : forall n b, fb_ok n b -> exists b', fb_begin b = Some (tt, b') /\ fb_ok n b';
  fb_want_fd_ok : forall n b goal fd, fb_ok n b -> fb_fd fd ->
    exists b', fb_want_fd goal fd b = Some (tt, b') /\ fb_ok n b' /\ fb_watch b' fd goal /\
      (forall f g, fb_watch b f g -> fb_watch b' f g);
  fb_want_sets_ok : forall n b nfd r w e, fb_ok n b -> (forall f, 0 <= f < nfd -> fb_fd f) ->
    exists b', fb_want_sets nfd r w e b = Some (tt, b') /\ fb_ok n b' /\
      (forall f, 0 <= f < nfd ->
         (fd_isset f r = true -> fb_watch b' f PTH_UNTIL_FD_READABLE) /\
         (fd_isset f w = true -> fb_watch b' f PTH_UNTIL_FD_WRITEABLE) /\
         (fd_isset f e = true -> fb_watch b' f PTH_UNTIL_FD_EXCEPTION)) /\
      (forall f g, fb_watch b f g -> fb_watch b' f g);
  fb_commit_ok : forall n b now pipe, fb_ok n b -> fb_fd pipe ->
    exists b', fb_commit now pipe b = Some (tt, b') /\ fb_ok n b';
  fb_wait_ok : forall n b dopoll delay, fb_ok (S n) b ->
    exists rc b', fb_wait dopoll delay b = Some (rc, b') /\ fb_ok n b';
  fb_adjust_ok : forall n b dopoll pipe rc, fb_ok n b -> fb_fd pipe ->
    exists rc' b', fb_adjust dopoll pipe rc b = Some (rc', b') /\ fb_ok n b';
  fb_late_fd_ok : forall n b rc goal fd, fb_ok n b -> fb_fd fd ->
    exists v b', fb_late_fd rc goal fd b = Some (v, b') /\ fb_ok n b';
  fb_late_sets_ok : forall n b rc nfd r w e, fb_ok n b -> (forall f, 0 <= f < nfd -> fb_fd f) ->
    exists v k r' w' e' b', fb_late_sets rc nfd r w e b = Some ((v, k, (r', w', e')), b') /\ fb_ok n b' /\
      (is_Some r' <-> is_Some r) /\ (is_Some w' <-> is_Some w) /\ (is_Some e' <-> is_Some e)
}.

(** Events whose arguments are those of their type, with valid pointers: into
    the memory [m], to the threads [T] and to the message ports [P]. A thread
    that waits for signals gives a place for the signal. *)
Definition in_mem {A : Type} (m : gmap addr A) (p : ptr) : Prop := match p with Some a => is_Some (m !! a) | None => True end.

Inductive ev_wf (fd_ok : Z -> Prop) (m : umem) (T P : gset addr) : event -> Prop :=
| wf_fd v goal fd : fd_ok fd -> ev_wf fd_ok m T P (Event v PTH_EVENT_FD goal (AFD fd))
| wf_select v goal n nfd r w e :
    in_mem (um_int m) n -> in_mem (um_fds m) r -> in_mem (um_fds m) w -> in_mem (um_fds m) e ->
    (forall f, 0 <= f < nfd -> fd_ok f) -> ev_wf fd_ok m T P (Event v PTH_EVENT_SELECT goal (ASELECT n nfd r w e))
| wf_sigs v goal s p : is_Some (um_sigs m !! s) -> is_Some (um_int m !! p) ->
    ev_wf fd_ok m T P (Event v PTH_EVENT_SIGS goal (ASIGS (Some s) (Some p)))
| wf_time v goal tv : ev_wf fd_ok m T P (Event v PTH_EVENT_TIME goal (ATIME tv))
| wf_msg v goal mp : mp ∈ P -> ev_wf fd_ok m T P (Event v PTH_EVENT_MSG goal (AMSG (Some mp)))
| wf_tid v goal tid : (forall t, tid = Some t -> t ∈ T) -> ev_wf fd_ok m T P (Event v PTH_EVENT_TID goal (ATID tid))
| wf_func v goal f a tv : ev_wf fd_ok m T P (Event v PTH_EVENT_FUNC goal (AFUNC f a tv))
| wf_other v ty goal args : ty ∈ [PTH_EVENT_MUTEX; PTH_EVENT_COND; PTH_EVENT_NOTIFY] -> ev_wf fd_ok m T P (Event v ty goal args).

Section step.
Context {H U B : Type} `{!QueueOps H, !QueueLaws H, !CleanupOps H U, !PortOps U, !FdBackend B, !FdBackendLaws B}.
Context (self : addr) (G E : gset addr) `{!CleanupLaws H U self G E}.
Abbreviation wd := (world H U).
Abbreviation em := (emst H U B).
Abbreviation winv := (winv self G E).

(** Work on the events of [D]: pending ones may get another status; signals of
    threads and of the scheduler change, the user's memory keeps its extent. *)
Record estep (D : addr -> Prop) (s s' : em) : Prop := {
  es_q : w_q (em_w s') = w_q (em_w s);
  es_wq : w_wq (em_w s') = w_wq (em_w s);
  es_inb : w_inb (em_w s') = w_inb (em_w s);
  es_user : w_user (em_w s') = w_user (em_w s);
  es_g : exists p b c r, w_g (em_w s') = set_sigs p b c r (w_g (em_w s));
  es_tcb : forall t x, w_tcb (em_w s) !! t = Some x -> exists S n, w_tcb (em_w s') !! t = Some (set_sigpend S n x);
  es_dom : dom (w_tcb (em_w s')) = dom (w_tcb (em_w s));
  es_links : e_links (w_ev (em_w s')) = e_links (w_ev (em_w s));
  es_ev : forall a x, e_body (w_ev (em_w s)) !! a = Some x -> exists v,
    e_body (w_ev (em_w s')) !! a = Some (set_status v x) /\ (v = ev_status x \/ (D a /\ ev_status x = PTH_STATUS_PENDING));
  es_evdom : dom (e_body (w_ev (em_w s'))) = dom (e_body (w_ev (em_w s)));
  es_int : dom (um_int (em_mem s')) = dom (um_int (em_mem s));
  es_sigs : um_sigs (em_mem s') = um_sigs (em_mem s);
  es_fds : dom (um_fds (em_mem s')) = dom (um_fds (em_mem s))
}.

Lemma set_status_id x : set_status (ev_status x) x = x.
Proof. by destruct x. Qed.
Lemma set_sigs_id g : set_sigs (g_sigpending g) (g_sigblock g) (g_sigcatch g) (g_sigraised g) g = g.
Proof. by destruct g. Qed.
Lemma set_sigpend_id x : set_sigpend (t_sigpending x) (t_sigpendcnt x) x = x.
Proof. by destruct x. Qed.

(** A state with the same world and memory. *)
Lemma estep_same D (s s' : em) : em_w s' = em_w s -> em_mem s' = em_mem s -> estep D s s'.
Proof.
  intros Hw Hm. constructor; rewrite ?Hw, ?Hm; try done.
  - do 4 eexists. symmetry. apply set_sigs_id.
  - intros t x Hx. eexists _, _. rewrite set_sigpend_id. exact Hx.
  - intros a x Hx. exists (ev_status x). rewrite set_status_id. auto.
Qed.
Lemma estep_refl D s : estep D s s.
Proof. by apply estep_same. Qed.
Lemma estep_trans D s1 s2 s3 : estep D s1 s2 -> estep D s2 s3 -> estep D s1 s3.
Proof.
  intros [A1 A2 A3 A4 (p & b & c & r & A5) A6 A7 A8 A9 A10 A11 A12 A13]
    [B1 B2 B3 B4 (p' & b' & c' & r' & B5) B6 B7 B8 B9 B10 B11 B12 B13].
  constructor; try congruence.
  - exists p', b', c', r'. by rewrite B5, A5.
  - intros t x Hx. destruct (A6 t x Hx) as (S & n & Hy). destruct (B6 t _ Hy) as (S' & n' & Hz). by exists S', n'.
  - intros a x Hx. destruct (A9 a x Hx) as (v & Hy & Hv). destruct (B9 a _ Hy) as (v' & Hz & Hv').
    exists v'. split; [exact Hz|]. cbn in Hv'. destruct Hv' as [->|[HD Hp]]; [done|]. right. split; [done|].
    destruct Hv as [->|[_ ?]]; done.
Qed.
Lemma estep_mono D D' s s' : (forall a, D a -> D' a) -> estep D s s' -> estep D' s s'.
Proof.
  intros HD [A1 A2 A3 A4 A5 A6 A7 A8 A9 A10 A11 A12 A13]. constructor; try done.
  intros a x Hx. destruct (A9 a x Hx) as (v & Hy & Hv). exists v. split; [done|]. destruct Hv as [?|[? ?]]; [by left|right; auto].
Qed.

Lemma estep_tcb_back D s s' t y : estep D s s' -> w_tcb (em_w s') !! t = Some y ->
  exists x S n, w_tcb (em_w s) !! t = Some x /\ y = set_sigpend S n x.
Proof.
  intros Hs Hy. assert (Ht : t ∈ dom (w_tcb (em_w s))) by (rewrite <- (es_dom _ _ _ Hs); by apply elem_of_dom).
  apply elem_of_dom in Ht as [x Hx]. destruct (es_tcb _ _ _ Hs t x Hx) as (S & n & Hy'). exists x, S, n. split; [done|congruence].
Qed.

(** The invariant is about nothing that changes. *)
Lemma estep_winv D s s' Q L : estep D s s' -> winv (em_w s) Q L -> winv (em_w s') Q L.
Proof.
  intros Hs Hw. assert (Hi := wi_t _ _ _ _ _ _ Hw). assert (Hb := fun t y => estep_tcb_back D s s' t y Hs).
  eapply winv_same; [exact Hw| |apply (es_inb _ _ _ Hs)|apply (es_user _ _ _ Hs)].
  destruct Hi as [C1 C2 C3 C4 C5 [J [J1 J2 J3]]]. constructor.
  - by rewrite (es_q _ _ _ Hs), (es_dom _ _ _ Hs).
  - intros n t Ht. destruct (C2 n t Ht) as (x & Hx & Hh & Hst). destruct (es_tcb _ _ _ Hs t x Hx) as (S & k & Hy). by eexists.
  - intros t Ht. destruct (C3 t Ht) as (Hn & x & Hx & Hh). split; [done|].
    destruct (es_tcb _ _ _ Hs t x Hx) as (S & k & Hy). by eexists.
  - intros t y Hy Hh. destruct (Hb t y Hy) as (x & S & k & Hx & ->). by apply (C4 t x).
  - intros t y Hy. destruct (Hb t y Hy) as (x & S & k & Hx & ->). by apply (C5 t x).
  - exists J. rewrite (es_wq _ _ _ Hs). constructor.
    + intros t y Hy Hh. destruct (Hb t y Hy) as (x & S & k & Hx & ->). exact (J1 t x Hx Hh).
    + intros t y j Hy Hh Hj. destruct (Hb t y Hy) as (x & S & k & Hx & ->). destruct (J2 t x j Hx Hh Hj) as (z & Hz & Hzh).
      destruct (es_tcb _ _ _ Hs j z Hz) as (S' & k' & Hz'). by eexists.
    + intros t t' y y' j Hy Hy' Hh Hh'. destruct (Hb t y Hy) as (x & S & k & Hx & ->).
      destruct (Hb t' y' Hy') as (x' & S' & k' & Hx' & ->). by apply (J3 t t' x x').
Qed.

Abbreviation wf s := (ev_wf fb_fd (em_mem s) (dom (w_tcb (em_w s))) (dom (m_ports (po_ports (w_user (em_w s)))))).

Lemma in_mem_dom {A : Type} (m m' : gmap addr A) p : dom m' = dom m -> in_mem m p -> in_mem m' p.
Proof. intros Hd. destruct p as [a|]; cbn; [|done]. rewrite <- !elem_of_dom. by rewrite Hd. Qed.
Lemma estep_wf D s s' x v : estep D s s' -> wf s x -> wf s' (set_status v x).
Proof.
  intros Hs Hx. assert (Hi := es_int _ _ _ Hs). assert (Hf := es_fds _ _ _ Hs).
  destruct Hx; cbn; constructor; rewrite ?(es_sigs _ _ _ Hs), ?(es_dom _ _ _ Hs), ?(es_user _ _ _ Hs); try done;
    try (by eapply in_mem_dom). rewrite <- elem_of_dom, Hi. by apply elem_of_dom.
Qed.

(** The events of a waiting thread: a ring of well-formed events, or none. *)
Record waiter (s : em) (a : addr) (l : list addr) : Prop := {
  wt_tcb : exists x, w_tcb (em_w s) !! a = Some x /\ t_events x = head l;
  wt_ring : l <> [] -> ev_ring (w_ev (em_w s)) l;
  wt_wf : forall e x, e ∈ l -> e_body (w_ev (em_w s)) !! e = Some x -> wf s x
}.

Lemma estep_waiter D s s' a l : estep D s s' -> waiter s a l -> waiter s' a l.
Proof.
  intros Hs [(x & Hx & He) Hr Hwf]. constructor.
  - destruct (es_tcb _ _ _ Hs a x Hx) as (S & n & Hy). by eexists.
  - intros Hl. destruct (Hr Hl) as [Hc Hn Hb]. constructor; [by rewrite (es_links _ _ _ Hs)|done|].
    intros e He'. rewrite <- elem_of_dom, (es_evdom _ _ _ Hs). by apply elem_of_dom, Hb.
  - intros e y He' Hy. assert (Hd : e ∈ dom (e_body (w_ev (em_w s)))) by (rewrite <- (es_evdom _ _ _ Hs); by apply elem_of_dom).
    apply elem_of_dom in Hd as [z Hz]. destruct (es_ev _ _ _ Hs e z Hz) as (v & Hy' & _). rewrite Hy in Hy'. injection Hy' as ->.
    eapply estep_wf; [exact Hs|by eapply Hwf].
Qed.

(** ** Running on the parts of the state *)

Lemma x_on_w {A : Type} (m : st wd A) (s : em) a w : m (em_w s) = Some (a, w) -> on_w m s = Some (a, set_w w s).
Proof. intros Hm. unfold on_w, zoom. by rewrite Hm. Qed.
Lemma x_on_w_rd {A : Type} (m : st wd A) (s : em) a : m (em_w s) = Some (a, em_w s) -> on_w m s = Some (a, s).
Proof. intros Hm. rewrite (x_on_w _ _ _ _ Hm). by destruct s. Qed.
Lemma x_on_b {A : Type} (m : st B A) (s : em) a b : m (em_b s) = Some (a, b) -> on_b m s = Some (a, set_b b s).
Proof. intros Hm. unfold on_b, zoom. by rewrite Hm. Qed.
Lemma x_em_event (s : em) e x : e_body (w_ev (em_w s)) !! e = Some x -> em_event (Some e) s = Some (x, s).
Proof.
  intros Hx. unfold em_event. apply x_on_w_rd. unfold on_ev, zoom. rewrite (x_rd_event _ _ _ Hx). by destruct (em_w s).
Qed.
Lemma x_next (s : em) e n : nxt (e_links (w_ev (em_w s))) !! e = Some n ->
  on_w (on_ev (on_evlinks (rd_next (Some e)))) s = Some (n, s).
Proof.
  intros Hx. apply x_on_w_rd. unfold on_ev, zoom. rewrite (x_evlinks _ _ _ _ (x_rnext _ _ _ Hx)), evst_eta. by destruct (em_w s).
Qed.
Definition stat (v : pth_status) (e : addr) (s : em) : em :=
  match e_body (w_ev (em_w s)) !! e with
  | Some x => set_w (set_ev (Evst (e_links (w_ev (em_w s))) (<[e := set_status v x]> (e_body (w_ev (em_w s))))
      (e_keys (w_ev (em_w s))) (e_keyvar (w_ev (em_w s)))) (em_w s)) s
  | None => s end.
Lemma x_em_status (s : em) e v x : e_body (w_ev (em_w s)) !! e = Some x -> em_status (Some e) v s = Some (tt, stat v e s).
Proof.
  intros Hx. unfold em_status, stat. rewrite (st_bind_Some _ _ _ _ _ (x_em_event s e x Hx)), Hx. apply x_on_w.
  unfold on_ev, zoom. by rewrite (x_wr_event _ _ _ _ Hx).
Qed.
Lemma stat_estep (D : addr -> Prop) s e v x : e_body (w_ev (em_w s)) !! e = Some x -> D e ->
  v = ev_status x \/ ev_status x = PTH_STATUS_PENDING -> estep D s (stat v e s).
Proof.
  intros Hx HD Hv. unfold stat. rewrite Hx. constructor; cbn; try done.
  - do 4 eexists. symmetry. apply set_sigs_id.
  - intros t y Hy. eexists _, _. rewrite set_sigpend_id. exact Hy.
  - intros a y Hy. destruct (decide (a = e)) as [->|Hne].
    + rewrite lookup_insert_eq. exists v. simplify_eq. split; [done|]. destruct Hv; auto.
    + rewrite lookup_insert_ne by done. exists (ev_status y). rewrite set_status_id. auto.
  - by rewrite dom_insert_lookup_L.
Qed.
Lemma stat_lookup s e v x : e_body (w_ev (em_w s)) !! e = Some x ->
  e_body (w_ev (em_w (stat v e s))) !! e = Some (set_status v x).
Proof. intros Hx. unfold stat. rewrite Hx. cbn. by rewrite lookup_insert_eq. Qed.
Lemma x_rd_fds (s : em) p : in_mem (um_fds (em_mem s)) p -> exists v, rd_fds p s = Some (v, s) /\ (is_Some v <-> is_Some p).
Proof.
  destruct p as [a|]; cbn; [intros [x ->]; exists (Some x)|intros _; exists None]; (split; [done|]); [by split|done].
Qed.

(** ** The loop over a ring

    [I pre]: what holds when the events [pre] of the ring were visited. *)
Lemma ring_loop_ok (body : ptr -> st em unit) (I : list addr -> em -> Prop) d l :
  cyc d l ->
  (forall pre s, I pre s -> e_links (w_ev (em_w s)) = d) ->
  (forall pre a post s, l = pre ++ a :: post -> I pre s -> exists s', body (Some a) s = Some (tt, s') /\ I (pre ++ [a]) s') ->
  forall post pre a s fuel, l = pre ++ a :: post -> NoDup l -> I pre s -> (length post <= fuel)%nat ->
  exists s', ring_loop fuel body (Some a) (head l) s = Some (tt, s') /\ I l s'.
Proof.
  intros Hc Hd Hb post. induction post as [|b post IH]; intros pre a s fuel Heq Hnd HI Hf;
    destruct (Hb pre a _ s Heq HI) as (s' & Eb & HI'); assert (Hl := Hd _ _ HI').
  - exists s'. split; [|by rewrite Heq]. assert (Hn : nxt (e_links (w_ev (em_w s'))) !! a = Some (head l)).
    { rewrite Hl. rewrite Heq in Hc. rewrite (cyc_next_head _ _ _ _ Hc), Heq. done. }
    destruct fuel; cbn [ring_loop]; rewrite (st_bind_Some _ _ _ _ _ Eb), (st_bind_Some _ _ _ _ _ (x_next s' a _ Hn));
      by rewrite bool_decide_eq_true_2.
  - destruct fuel as [|fuel]; [cbn in Hf; lia|].
    assert (Hn : nxt (e_links (w_ev (em_w s'))) !! a = Some (Some b)) by (rewrite Hl; rewrite Heq in Hc; apply (cyc_next _ _ _ _ _ Hc)).
    destruct (IH (pre ++ [a]) b s' fuel) as (s2 & E2 & HI2); [by rewrite <- app_assoc|done|done|cbn in Hf; lia|].
    exists s2. split; [|done]. cbn [ring_loop].
    rewrite (st_bind_Some _ _ _ _ _ Eb), (st_bind_Some _ _ _ _ _ (x_next s' a _ Hn)).
    rewrite bool_decide_eq_false_2; [exact E2|]. intros Heq2. rewrite Heq in Heq2, Hnd. destruct pre as [|c pre]; cbn in Heq2.
    + injection Heq2 as ->. apply NoDup_cons in Hnd as [Hni _]. apply Hni. by left.
    + injection Heq2 as ->. apply NoDup_cons in Hnd as [Hni _]. apply Hni. apply elem_of_app. right. right. by left.
Qed.
Lemma ring_fuel_enough (s : em) l : ev_ring (w_ev (em_w s)) l -> (length l <= ring_fuel s)%nat.
Proof.
  intros [_ Hnd Hb]. unfold ring_fuel. rewrite <- size_dom. rewrite <- (size_list_to_set (C := gset addr) l Hnd).
  apply subseteq_size. intros a Ha%elem_of_list_to_set. by apply elem_of_dom, Hb.
Qed.
End step.
