(* ===== verification/Pollset.v ===== *)
(** * The poll(2) backend of the event manager (src/pth_sched.c, lines 766-803
    and the descriptor parts of [pth_sched_eventmanager_poll])

    The vector of [struct pollfd], in which the entries of one descriptor are
    merged. *)

From stdpp Require Import base numbers gmap list.
From S2P Require Import Prelude Timeval Util Event Queues World Thread Evman Evstep.
Open Scope Z_scope.

Definition POLLIN : Z := 1.
Definition POLLPRI : Z := 2.
Definition POLLOUT : Z := 4.
Definition POLLERR : Z := 8.
Definition POLLHUP : Z := 16.
Definition POLLNVAL : Z := 32.

Record pollfd := Pollfd { p_fd : Z; p_events : Z; p_revents : Z }.

(** One return of poll(2): its value, [errno], and the [revents] it stores. *)
Record answer := Answer { an_rc : Z; an_errno : errno; an_revents : list Z }.

(** The vector with its capacity; [ps_realloc n] is whether the allocation of
    [n] entries succeeds, [ps_answers] are the returns of poll(2) to come. *)
Record pollset := Pollset { ps_pv : list pollfd; ps_max : Z; ps_realloc : Z -> bool; ps_answers : list answer }.

Definition set_pv (pv : list pollfd) (s : pollset) : pollset := Pollset pv (ps_max s) (ps_realloc s) (ps_answers s).
Definition set_max (m : Z) (s : pollset) : pollset := Pollset (ps_pv s) m (ps_realloc s) (ps_answers s).

(** The loop of [pth_pollset_add] over the entries. *)
Fixpoint pollset_merge (pv : list pollfd) (fd ev : Z) : option (nat * list pollfd) :=
  match pv with
  | [] => None
  | p :: pv' =>
      if p_fd p =? fd then Some (O, Pollfd (p_fd p) (Z.lor (p_events p) ev) (p_revents p) :: pv')
      else match pollset_merge pv' fd ev with Some (i, l) => Some (S i, p :: l) | None => None end
  end.

Definition pth_pollset_add (fd ev : Z) (s : pollset) : Z * pollset :=
  match pollset_merge (ps_pv s) fd ev with
  | Some (i, pv) => (Z.of_nat i, set_pv pv s)
  | None =>
      let n := Z.of_nat (length (ps_pv s)) in
      if n >=? ps_max s then
        let nm := if ps_max s =? 0 then 16 else ps_max s * 2 in
        if negb (ps_realloc s nm) then (-1, s)
        else (n, set_max nm (set_pv (ps_pv s ++ [Pollfd fd ev 0]) s))
      else (n, set_pv (ps_pv s ++ [Pollfd fd ev 0]) s)
  end.

Fixpoint pth_pollset_revents (pv : list pollfd) (fd : Z) : Z :=
  match pv with
  | [] => 0
  | p :: pv' => if p_fd p =? fd then p_revents p else pth_pollset_revents pv' fd
  end.

(** ** The backend *)

Definition poll_add (fd ev : Z) : st pollset unit := fun s => Some (tt, (pth_pollset_add fd ev s).2).

Definition poll_mask (goal : Z) : Z :=
  let pe := if has goal PTH_UNTIL_FD_READABLE then POLLIN else 0 in
  let pe := if has goal PTH_UNTIL_FD_WRITEABLE then Z.lor pe POLLOUT else pe in
  if has goal PTH_UNTIL_FD_EXCEPTION then Z.lor pe POLLPRI else pe.

(** The wanted events of a descriptor of a [PTH_EVENT_SELECT] event. *)
Definition sets_mask (r w e : option fd_set) (sfd : Z) : Z :=
  let pe := if fd_isset sfd r then POLLIN else 0 in
  let pe := if fd_isset sfd w then Z.lor pe POLLOUT else pe in
  if fd_isset sfd e then Z.lor pe POLLPRI else pe.
Fixpoint poll_want_sets (n : nat) (sfd : Z) (r w e : option fd_set) : st pollset unit :=
  match n with
  | O => mret tt
  | S n' =>
      let pe := sets_mask r w e sfd in
      (if negb (pe =? 0) then poll_add sfd pe else mret tt);;
      poll_want_sets n' (sfd + 1) r w e
  end.

(** [poll] stores [revents]. *)
Fixpoint set_revents (pv : list pollfd) (l : list Z) : list pollfd :=
  match pv, l with
  | p :: pv', r :: l' => Pollfd (p_fd p) (p_events p) r :: set_revents pv' l'
  | _, _ => pv
  end.
(** The call is repeated when it is interrupted; undefined when it does not
    return. *)
Fixpoint poll_call (l : list answer) (pv : list pollfd) : option (Z * list answer * list pollfd) :=
  match l with
  | [] => None
  | a :: l' =>
      if (an_rc a <? 0) && bool_decide (an_errno a = EINTR) then poll_call l' pv
      else Some (an_rc a, l', set_revents pv (an_revents a))
  end.
(** The timeout matters to the system only. *)
Definition poll_wait (dopoll : bool) (delay : option pth_time_t) : st pollset Z :=
  fun s =>
    let ptimeout := poll_timeout dopoll delay in
    if negb (dopoll && bool_decide (ps_pv s = [])) then
      match poll_call (ps_answers s) (ps_pv s) with
      | Some (rc, l, pv) => Some (rc, Pollset pv (ps_max s) (ps_realloc s) l)
      | None => None end
    else Some (-1, s).

Definition poll_adjust (dopoll : bool) (sigpipe rc : Z) : st pollset Z :=
  fun s =>
    let rc := if negb dopoll && (rc >? 0) && has (pth_pollset_revents (ps_pv s) sigpipe) POLLIN then i32 (rc - 1) else rc in
    Some (rc, if rc =? 0 then set_pv ((fun p => Pollfd (p_fd p) (p_events p) 0) <$> ps_pv s) s else s).

Definition RD : Z := Z.lor POLLIN (Z.lor POLLHUP POLLERR).
Definition WR : Z := Z.lor POLLOUT (Z.lor POLLERR POLLHUP).

Definition poll_late_fd (rc goal fd : Z) : st pollset pth_status :=
  fun s =>
    let re := pth_pollset_revents (ps_pv s) fd in
    Some (if (has goal PTH_UNTIL_FD_READABLE && has re RD) || (has goal PTH_UNTIL_FD_WRITEABLE && has re WR)
             || (has goal PTH_UNTIL_FD_EXCEPTION && has re POLLPRI) then PTH_STATUS_OCCURRED
          else if has re POLLNVAL then PTH_STATUS_FAILED else PTH_STATUS_PENDING, s).

(** The loop over the descriptors of a set: the ready ones, and whether one is
    bad; [rd], [wr], [ex] and [bad_mask] are the results that count as such. *)
Fixpoint late_sets (rd wr ex bad_mask : Z) (n : nat) (sfd : Z) (r w e : option fd_set) (revents : Z -> Z) (acc : fd_set * fd_set * fd_set * bool)
    : fd_set * fd_set * fd_set * bool :=
  match n with
  | O => acc
  | S n' =>
      let re := revents sfd in
      late_sets rd wr ex bad_mask n' (sfd + 1) r w e revents
        (if re =? 0 then acc else
         let '(tr, tw, te, bad) := acc in
         (if has re rd && fd_isset sfd r then {[sfd]} ∪ tr else tr,
          if has re wr && fd_isset sfd w then {[sfd]} ∪ tw else tw,
          if has re ex && fd_isset sfd e then {[sfd]} ∪ te else te,
          if has re bad_mask then true else bad))
  end.
(** The decision about the event from the ready descriptors. *)
Definition sets_verdict (nfd : Z) (r w e : option fd_set) (t : fd_set * fd_set * fd_set * bool)
    : pth_status * Z * (option fd_set * option fd_set * option fd_set) :=
  let '(tr, tw, te, bad) := t in
  if pth_util_fds_test nfd r tr w tw e te then
    let x := pth_util_fds_select nfd r tr w tw e te in (PTH_STATUS_OCCURRED, x.1, x.2)
  else (if bad then PTH_STATUS_FAILED else PTH_STATUS_PENDING, 0, (r, w, e)).
Definition poll_late_sets (rc nfd : Z) (r w e : option fd_set)
    : st pollset (pth_status * Z * (option fd_set * option fd_set * option fd_set)) :=
  fun s => Some (sets_verdict nfd r w e
    (late_sets RD WR POLLPRI POLLNVAL (Z.to_nat nfd) 0 r w e (pth_pollset_revents (ps_pv s)) (∅, ∅, ∅, false)), s).

#[export] Instance poll_backend : FdBackend pollset := {|
  fb_begin := fun s => Some (tt, set_pv [] s);
  fb_want_fd goal fd := poll_add fd (poll_mask goal);
  fb_want_sets nfd r w e := poll_want_sets (Z.to_nat nfd) 0 r w e;
  fb_commit _ sigpipe := poll_add sigpipe POLLIN;
  fb_wait := poll_wait;
  fb_adjust := poll_adjust;
  fb_late_fd := poll_late_fd;
  fb_late_sets := poll_late_sets
|}.

(** ** The vector as a map from descriptors to wanted events *)

Definition pv_map (pv : list pollfd) : gmap Z Z := list_to_map ((fun p => (p_fd p, p_events p)) <$> pv).

Lemma merge_None pv fd ev : pollset_merge pv fd ev = None <-> fd ∉ p_fd <$> pv.
Proof.
  induction pv as [|p pv IH]; cbn [pollset_merge]; [split; [by intros _ ?%not_elem_of_nil|done]|].
  rewrite fmap_cons, elem_of_cons. destruct (Z.eqb_spec (p_fd p) fd) as [->|Hne]; [split; [done|tauto]|].
  destruct (pollset_merge pv fd ev) as [[i l]|]; split; try done.
  - intros Hni. exfalso. by assert (Some (i, l) = None) by (apply IH; tauto).
  - intros _ [?|Hin]; [done|]. by apply IH in Hin.
Qed.
Lemma merge_Some pv fd ev i l : pollset_merge pv fd ev = Some (i, l) -> exists l1 p l2,
  pv = l1 ++ p :: l2 /\ p_fd p = fd /\ i = length l1 /\ fd ∉ p_fd <$> l1 /\ l = l1 ++ Pollfd fd (Z.lor (p_events p) ev) (p_revents p) :: l2.
Proof.
  revert i l. induction pv as [|p pv IH]; intros i l; cbn [pollset_merge]; [done|].
  destruct (Z.eqb_spec (p_fd p) fd) as [<-|Hne].
  - intros [= <- <-]. exists [], p, pv. split_and!; try done. by intros ?%not_elem_of_nil.
  - destruct (pollset_merge pv fd ev) as [[j l']|] eqn:Em; [|done]. intros [= <- <-].
    destruct (IH j l' eq_refl) as (l1 & q & l2 & -> & Hq & -> & Hni & ->). exists (p :: l1), q, l2. split_and!; try done.
    rewrite fmap_cons. intros [?|?]%elem_of_cons; [congruence|done].
Qed.
Lemma pv_map_notin pv fd : fd ∉ p_fd <$> pv -> pv_map pv !! fd = None.
Proof.
  intros Hni. apply not_elem_of_list_to_map_1. by rewrite <- list_fmap_compose.
Qed.
Lemma pv_map_app l1 l2 : pv_map (l1 ++ l2) = pv_map l1 ∪ pv_map l2.
Proof. unfold pv_map. by rewrite fmap_app, list_to_map_app. Qed.
Lemma pv_map_cons p l : pv_map (p :: l) = <[p_fd p := p_events p]> (pv_map l).
Proof. done. Qed.
Lemma revents_app l1 l2 fd : pth_pollset_revents (l1 ++ l2) fd =
  if bool_decide (fd ∈ p_fd <$> l1) then pth_pollset_revents l1 fd else pth_pollset_revents l2 fd.
Proof.
  induction l1 as [|p l1 IH]; [done|]. cbn [app pth_pollset_revents]. destruct (Z.eqb_spec (p_fd p) fd) as [E|Hne].
  - rewrite bool_decide_eq_true_2; [done|]. rewrite fmap_cons, E. by left.
  - rewrite IH. erewrite bool_decide_ext; [done|]. rewrite fmap_cons, elem_of_cons. naive_solver.
Qed.

Lemma add_ok fd ev s : let r := pth_pollset_add fd ev s in
  (r = (-1, s) /\ fd ∉ p_fd <$> ps_pv s /\ exists nm, ps_realloc s nm = false) \/
  (ps_realloc r.2 = ps_realloc s /\ ps_answers r.2 = ps_answers s /\ 0 <= r.1 /\
   (exists p, ps_pv r.2 !! Z.to_nat r.1 = Some p /\ p_fd p = fd) /\
   (NoDup (p_fd <$> ps_pv s) -> NoDup (p_fd <$> ps_pv r.2)) /\
   pv_map (ps_pv r.2) = <[fd := Z.lor (default 0 (pv_map (ps_pv s) !! fd)) ev]> (pv_map (ps_pv s)) /\
   (forall f, pth_pollset_revents (ps_pv r.2) f = pth_pollset_revents (ps_pv s) f)).
Proof.
  cbv zeta. unfold pth_pollset_add. destruct (pollset_merge (ps_pv s) fd ev) as [[i l]|] eqn:Em.
  - right. destruct (merge_Some _ _ _ _ _ Em) as (l1 & p & l2 & Hpv & Hp & -> & Hni & ->). rewrite Hpv. split_and!; try done; [cbn; lia|..].
    + eexists. cbn. rewrite Nat2Z.id, list_lookup_middle by done. done.
    + cbn. rewrite !fmap_app, !fmap_cons. cbn. by rewrite Hp.
    + cbn [snd ps_pv set_pv]. rewrite !pv_map_app, !pv_map_cons. cbn [p_fd p_events]. rewrite Hp.
      rewrite lookup_union_r by (by apply pv_map_notin). rewrite lookup_insert_eq. cbn [default].
      rewrite <- !insert_union_r by (by apply pv_map_notin). by rewrite insert_insert_eq.
    + intros f. cbn [snd ps_pv set_pv]. rewrite !revents_app. case_bool_decide; [done|]. cbn. by rewrite Hp.
  - apply merge_None in Em.
    assert (Hnew : forall m, 
      ps_realloc (set_max m (set_pv (ps_pv s ++ [Pollfd fd ev 0]) s)) = ps_realloc s /\
      (exists p, (ps_pv s ++ [Pollfd fd ev 0]) !! Z.to_nat (Z.of_nat (length (ps_pv s))) = Some p /\ p_fd p = fd) /\
      (NoDup (p_fd <$> ps_pv s) -> NoDup (p_fd <$> (ps_pv s ++ [Pollfd fd ev 0]))) /\
      pv_map (ps_pv s ++ [Pollfd fd ev 0]) = <[fd := Z.lor (default 0 (pv_map (ps_pv s) !! fd)) ev]> (pv_map (ps_pv s)) /\
      (forall f, pth_pollset_revents (ps_pv s ++ [Pollfd fd ev 0]) f = pth_pollset_revents (ps_pv s) f)).
    { intros m. split_and!; [done|..].
      - eexists. rewrite Nat2Z.id, list_lookup_middle by done. done.
      - intros Hnd. rewrite fmap_app. apply NoDup_app. split_and!; [done| |by apply NoDup_singleton].
        intros x Hx ->%list_elem_of_singleton. done.
      - rewrite pv_map_app, pv_map_notin by done. cbn [default]. rewrite Z.lor_0_l.
        change (pv_map [Pollfd fd ev 0]) with (<[fd := ev]> (∅ : gmap Z Z)). rewrite <- insert_union_r by (by apply pv_map_notin).
        by rewrite (right_id_L ∅ (∪)).
      - intros f. rewrite revents_app. case_bool_decide as Hf; [done|]. cbn. case_match; [|].
        + assert (Hz : forall l, f ∉ p_fd <$> l -> pth_pollset_revents l f = 0).
          { induction l as [|q l IH]; [done|]. rewrite fmap_cons, not_elem_of_cons. intros [Hq Hl]. cbn.
            destruct (Z.eqb_spec (p_fd q) f); [congruence|by apply IH]. }
          by rewrite Hz.
        + assert (Hz : forall l, f ∉ p_fd <$> l -> pth_pollset_revents l f = 0).
          { induction l as [|q l IH]; [done|]. rewrite fmap_cons, not_elem_of_cons. intros [Hq Hl]. cbn.
            destruct (Z.eqb_spec (p_fd q) f); [congruence|by apply IH]. }
          by rewrite Hz. }
    destruct (_ >=? _).
    + destruct (ps_realloc s _) eqn:Er; cbn [negb]; [|left; split_and!; [done|done|by eexists]].
      right. destruct (Hnew (if ps_max s =? 0 then 16 else ps_max s * 2)) as (H1 & H2 & H3 & H4 & H5). split_and!; try done; cbn; lia.
    + right. destruct (Hnew 0) as (H1 & H2 & H3 & H4 & H5). split_and!; try done; cbn; lia.
Qed.

(** The vector of [struct pollfd] is a map. Adding events for a descriptor
    makes them wanted besides those that were, for this descriptor only; there
    is one entry per descriptor, at the index that is returned; the results of
    poll(2) for all descriptors are what they were. It fails only when the
    vector cannot grow, and then nothing changes. *)
Lemma pollset_add_correct fd ev s : NoDup (p_fd <$> ps_pv s) -> let r := pth_pollset_add fd ev s in
  (r = (-1, s) /\ fd ∉ p_fd <$> ps_pv s /\ exists nm, ps_realloc s nm = false) \/
  (0 <= r.1 /\ (exists p, ps_pv r.2 !! Z.to_nat r.1 = Some p /\ p_fd p = fd) /\ NoDup (p_fd <$> ps_pv r.2) /\
   pv_map (ps_pv r.2) = <[fd := Z.lor (default 0 (pv_map (ps_pv s) !! fd)) ev]> (pv_map (ps_pv s)) /\
   (forall f, pth_pollset_revents (ps_pv r.2) f = pth_pollset_revents (ps_pv s) f)).
Proof.
  intros Hnd r. destruct (add_ok fd ev s) as [?|(_ & _ & ? & ? & ? & ? & ?)]; [by left|]. right. split_and!; auto.
Qed.

Definition demo_pollset : pollset := Pollset [Pollfd 4 POLLIN 0; Pollfd 7 POLLOUT 0] 16 (fun _ => true) [].
Lemma pollset_add_correct_witness : exists s', pth_pollset_add 4 POLLOUT demo_pollset = (0, s') /\
  pv_map (ps_pv s') = <[4 := 5]> (pv_map (ps_pv demo_pollset)).
Proof.
  destruct (pollset_add_correct 4 POLLOUT demo_pollset) as [(? & Hni & _)|(_ & _ & _ & Hm & _)].
  - apply (bool_decide_unpack (NoDup _)). vm_compute. exact I.
  - exfalso. apply Hni. cbn. by left.
  - eexists. split; [reflexivity|]. exact Hm.
Defined.

(** ** The laws of the backend *)

Definition returns (l : list answer) : list answer :=
  filter (fun a => (an_rc a <? 0) && bool_decide (an_errno a = EINTR) = false) l.
Lemma poll_call_ok n l pv : (S n <= length (returns l))%nat ->
  exists rc l' pv', poll_call l pv = Some (rc, l', pv') /\ (n <= length (returns l'))%nat.
Proof.
  induction l as [|a l IH]; cbn [poll_call]; [cbn; lia|]. unfold returns. rewrite filter_cons.
  destruct ((an_rc a <? 0) && bool_decide (an_errno a = EINTR)).
  - rewrite decide_False by done. apply IH.
  - rewrite decide_True by done. intros Hn. eexists _, _, _. split; [done|]. cbn in Hn. unfold returns. lia.
Qed.
Lemma land_lor_absorb m e : Z.land m (Z.lor e m) = m.
Proof. apply Z.bits_inj'. intros n _. rewrite Z.land_spec, Z.lor_spec. by destruct (Z.testbit m n), (Z.testbit e n). Qed.
Lemma land_lor_mono m e x : Z.land m e = m -> Z.land m (Z.lor e x) = m.
Proof.
  intros Hm. apply Z.bits_inj'. intros n _. rewrite Z.land_spec, Z.lor_spec.
  assert (Hn : Z.testbit (Z.land m e) n = Z.testbit m n) by (by rewrite Hm). rewrite Z.land_spec in Hn.
  by destruct (Z.testbit m n), (Z.testbit e n).
Qed.

Definition poll_ok (n : nat) (s : pollset) : Prop := (forall m, ps_realloc s m = true) /\ (n <= length (returns (ps_answers s)))%nat.
Definition poll_watch (s : pollset) (fd goal : Z) : Prop :=
  exists e, pv_map (ps_pv s) !! fd = Some e /\ Z.land (poll_mask goal) e = poll_mask goal.

Lemma poll_add_ok n s fd ev : poll_ok n s -> exists s', poll_add fd ev s = Some (tt, s') /\ poll_ok n s' /\
  (exists e, pv_map (ps_pv s') !! fd = Some e /\ Z.land ev e = ev) /\ (forall f g, poll_watch s f g -> poll_watch s' f g).
Proof.
  intros [Hr Hn]. destruct (add_ok fd ev s) as [(_ & _ & nm & Hf)|(HR & HA & _ & _ & _ & Hm & _)]; [by rewrite Hr in Hf|].
  eexists. split; [reflexivity|]. split; [split; [by rewrite HR|by rewrite HA]|]. rewrite Hm. split.
  - eexists. rewrite lookup_insert_eq. split; [done|]. apply land_lor_absorb.
  - intros f g (e & He & Hmask). unfold poll_watch. rewrite Hm. destruct (decide (f = fd)) as [->|Hne].
    + rewrite He. cbn. eexists. rewrite lookup_insert_eq. split; [done|]. by apply land_lor_mono.
    + exists e. by rewrite lookup_insert_ne.
Qed.

Lemma sets_mask_bits r w e f :
  (fd_isset f r = true -> Z.land POLLIN (sets_mask r w e f) = POLLIN) /\
  (fd_isset f w = true -> Z.land POLLOUT (sets_mask r w e f) = POLLOUT) /\
  (fd_isset f e = true -> Z.land POLLPRI (sets_mask r w e f) = POLLPRI).
Proof. unfold sets_mask. destruct (fd_isset f r), (fd_isset f w), (fd_isset f e); done. Qed.
Lemma land_trans m e x : Z.land m e = m -> Z.land e x = e -> Z.land m x = m.
Proof. intros H1 H2. rewrite <- H1 at 1. rewrite <- Z.land_assoc, H2. exact H1. Qed.

Lemma poll_want_sets_ok k n s sfd r w e : poll_ok n s ->
  exists s', poll_want_sets k sfd r w e s = Some (tt, s') /\ poll_ok n s' /\
    (forall f, sfd <= f < sfd + Z.of_nat k ->
       (fd_isset f r = true -> poll_watch s' f PTH_UNTIL_FD_READABLE) /\
       (fd_isset f w = true -> poll_watch s' f PTH_UNTIL_FD_WRITEABLE) /\
       (fd_isset f e = true -> poll_watch s' f PTH_UNTIL_FD_EXCEPTION)) /\
    (forall f g, poll_watch s f g -> poll_watch s' f g).
Proof.
  revert s sfd. induction k as [|k IH]; intros s sfd Hs; cbn [poll_want_sets].
  - exists s. split_and!; try done. intros f Hf. lia.
  - assert (H1 : exists s1, (if negb (sets_mask r w e sfd =? 0) then poll_add sfd (sets_mask r w e sfd) else mret tt) s = Some (tt, s1) /\
      poll_ok n s1 /\ ((fd_isset sfd r = true -> poll_watch s1 sfd PTH_UNTIL_FD_READABLE) /\
       (fd_isset sfd w = true -> poll_watch s1 sfd PTH_UNTIL_FD_WRITEABLE) /\
       (fd_isset sfd e = true -> poll_watch s1 sfd PTH_UNTIL_FD_EXCEPTION)) /\ (forall f g, poll_watch s f g -> poll_watch s1 f g)).
    { destruct (sets_mask_bits r w e sfd) as (B1 & B2 & B3). destruct (Z.eqb_spec (sets_mask r w e sfd) 0) as [Hz|Hz]; cbn [negb].
      - rewrite Hz in B1, B2, B3. exists s. split_and!; try done; intros Hb; [by specialize (B1 Hb)|by specialize (B2 Hb)|by specialize (B3 Hb)].
      - destruct (poll_add_ok n s sfd (sets_mask r w e sfd) Hs) as (s1 & E1 & Hs1 & (x & Hx & Hm) & Hmo). exists s1.
        split_and!; try done; intros Hb; exists x; (split; [done|]); (eapply land_trans; [|exact Hm]); auto. }
    destruct H1 as (s1 & E1 & Hs1 & Hw1 & Hmo1). rewrite (st_bind_Some _ _ _ _ _ E1).
    destruct (IH s1 (sfd + 1) Hs1) as (s2 & E2 & Hs2 & Hw2 & Hmo2). exists s2. split_and!; [done|done| |auto].
    intros f Hf. destruct (decide (f = sfd)) as [->|Hne]; [|apply Hw2; lia].
    destruct Hw1 as (C1 & C2 & C3). split_and!; auto.
Qed.

Lemma verdict_ok nfd r w e t : exists v k r' w' e', sets_verdict nfd r w e t = (v, k, (r', w', e')) /\
  (is_Some r' <-> is_Some r) /\ (is_Some w' <-> is_Some w) /\ (is_Some e' <-> is_Some e).
Proof.
  destruct t as [[[tr tw] te] bad]. unfold sets_verdict. destruct (pth_util_fds_test _ _ _ _ _ _ _).
  - unfold pth_util_fds_select. rewrite select_from_ok. cbn [fst snd]. eexists _, _, _, _, _. split; [reflexivity|].
    by destruct r, w, e; cbn; split_and!; split; intros H; try (by destruct H); eexists.
  - by eexists _, _, _, _, _.
Qed.

#[export] Instance poll_laws : FdBackendLaws pollset.
Proof.
  refine {| fb_ok := poll_ok; fb_fd := fun _ => True; fb_watch := poll_watch |}.
  - intros n b [Hr Hn]. eexists. split; [reflexivity|]. by split.
  - intros n b goal fd Hb _. destruct (poll_add_ok n b fd (poll_mask goal) Hb) as (s1 & E1 & Hs1 & Hw & Hmo). by exists s1.
  - intros n b nfd r w e Hb _. destruct (poll_want_sets_ok (Z.to_nat nfd) n b 0 r w e Hb) as (s1 & E1 & Hs1 & Hw & Hmo).
    exists s1. split_and!; [done|done| |done]. intros f Hf. apply Hw. lia.
  - intros n b now pipe Hb _. destruct (poll_add_ok n b pipe POLLIN Hb) as (s1 & E1 & Hs1 & _). by exists s1.
  - intros n b dopoll delay [Hr Hn]. cbn [fb_wait poll_backend]. unfold poll_wait. destruct (negb _).
    + destruct (poll_call_ok n (ps_answers b) (ps_pv b) Hn) as (rc & l' & pv' & -> & Hl). eexists _, _. split; [done|]. by split.
    + eexists _, _. split; [done|]. split; [done|lia].
  - intros n b dopoll pipe rc [Hr Hn] _. eexists _, _. split; [reflexivity|]. by case_match.
  - intros n b rc goal fd Hb _. eexists _, _. split; [reflexivity|done].
  - intros n b rc nfd r w e Hb _. destruct (verdict_ok nfd r w e
      (late_sets RD WR POLLPRI POLLNVAL (Z.to_nat nfd) 0 r w e (pth_pollset_revents (ps_pv b)) (∅, ∅, ∅, false)))
      as (v & k & r' & w' & e' & Ev & H1 & H2 & H3).
    exists v, k, r', w', e', b. cbn [fb_late_sets poll_backend]. unfold poll_late_sets. by rewrite Ev.
Defined.

(** The event manager that waits with poll(2). *)
Definition pth_sched_eventmanager_poll {H U : Type} `{!QueueOps H, !CleanupOps H U, !PortOps U} (self : addr)
    (malloc : gset addr -> ptr) (PTH_NSIG sigpipe : Z) (now : pth_time_t) (dopoll : bool) (ps : list pass)
    : st (emst H U pollset) (option pth_time_t) :=
  eventmanager self malloc PTH_NSIG sigpipe now dopoll ps.
