(* ===== verification/Evdemo.v ===== *)
(** * A waiting thread for the event manager

    The world of [Demo], in which thread 13 waits for a ring of two events:
    a wakeup that has occurred, and a timer. The descriptors are watched with
    poll(2). *)

From stdpp Require Import base numbers gmap list.
From S2P Require Import Prelude Links Pqueue Ring Timeval Data Msg Waitq Clean Event Inbox Queues World Thread Demo Sched Evman Evstep Pollset.
Open Scope Z_scope.

(** There are no message ports. *)
#[export] Instance demo_ports : PortOps dstate := {| po_ports _ := Mstate (Dll ∅ ∅) ∅ (Ring NULL 0) ∅ NULL 0 |}.

Definition wait_events : evst :=
  Evst (Dll {[20%positive := Some 21%positive; 21%positive := Some 20%positive]}
            {[20%positive := Some 21%positive; 21%positive := Some 20%positive]})
    {[20%positive := Event PTH_STATUS_OCCURRED PTH_EVENT_NOTIFY 0 (ANOTIFY NULL);
      21%positive := Event PTH_STATUS_PENDING PTH_EVENT_TIME 0 (ATIME (Tv 100 0))]} (Kstate [] ∅ 11 tt) ∅.
Definition wait_tcb : tcb := set_events (Some 20%positive) (demo_tcb 0 PTH_STATE_WAITING PTH_CANCEL_KILL true).
Definition wait_world (q : queues) : dworld :=
  set_ev wait_events (set_tcb (<[13%positive := wait_tcb]> demo_tcbs) (set_q q demo_w0)).
Definition wait_em (q : queues) : emst queues dstate pollset :=
  Emst (wait_world q) (Umem ∅ ∅ ∅) (Pollset [] 0 (fun _ => true) [Answer 0 EINVAL []]) NULL NULL (Tv 0 0) false.
Definition wait_ring (a : addr) : list addr := [20%positive; 21%positive].

Lemma wait_inv : exists q, winv 1 demo_G demo_E (wait_world q) demo_Q ({[10%positive]} : gset addr).
Proof.
  destruct demo_inv as [q Hq]. exists q. assert (Hi := wi_t _ _ _ _ _ _ Hq).
  eapply winv_same; [exact Hq| |done|done]. eapply tinv_other; [..|eapply (tinv_upd 1 demo_G _ _ _ 13%positive _ wait_tcb Hi)]; try done.
  right; right; reflexivity.
Qed.
Lemma wait_waiter q a : in_q demo_Q WQ a -> waiter (wait_em q) a (wait_ring a).
Proof.
  intros Ha. unfold in_q in Ha. cbn in Ha. apply list_elem_of_singleton in Ha as ->. constructor.
  - exists wait_tcb. done.
  - intros _. constructor; [done| |].
    + apply (bool_decide_unpack (NoDup _)). vm_compute. exact I.
    + intros e He. set_unfold in He. destruct He as [->|[->|[]]]; by eexists.
  - intros e x He Hx. set_unfold in He. destruct He as [->|[->|[]]]; cbn in Hx; injection Hx as <-.
    + apply wf_other. set_solver.
    + apply wf_time.
Qed.
