(* ===== verification/Evcleanup.v ===== *)
(** * The cleanup loop of the event manager

    After the wait every waiting thread with an event that occurred or failed,
    or with a cancellation request, is made ready; all others go on waiting. *)

From stdpp Require Import base numbers gmap list.
From S2P Require Import Prelude Links Pqueue Timeval Msg Waitq Clean Util Event Inbox Queues World Thread Demo Sched Evman Evstep Pollset Evdemo.
Open Scope Z_scope.

Section late.
Context {H U B : Type} `{!QueueOps H, !QueueLaws H, !CleanupOps H U, !PortOps U, !FdBackend B, !FdBackendLaws B}.
Context (self : addr) (G E : gset addr) `{!CleanupLaws H U self G E}.
Context (PTH_NSIG : Z).
Abbreviation wd := (world H U).
Abbreviation em := (emst H U B).
Abbreviation winv := (winv self G E).
Abbreviation body s := (e_body (w_ev (em_w s))).
Abbreviation wf s := (ev_wf fb_fd (em_mem s) (dom (w_tcb (em_w s))) (dom (m_ports (po_ports (w_user (em_w s)))))).

(** A step that leaves the backend and [any_occurred] alone. *)
Definition qstep (D : addr -> Prop) (s s' : em) : Prop := estep D s s' /\ em_b s' = em_b s /\ em_any s' = em_any s.
Lemma qstep_refl D s : qstep D s s.
Proof. split; [apply estep_refl|done]. Qed.
Lemma qstep_trans D s1 s2 s3 : qstep D s1 s2 -> qstep D s2 s3 -> qstep D s1 s3.
Proof. intros (A & B1 & C) (A' & B1' & C'). split; [by eapply estep_trans|split; congruence]. Qed.

Lemma wr_int_ok D (s : em) p v : is_Some (um_int (em_mem s) !! p) ->
  exists s', wr_int (Some p) v s = Some (tt, s') /\ qstep D s s' /\ em_w s' = em_w s.
Proof.
  intros [y Hy]. unfold wr_int. rewrite Hy. eexists. split; [reflexivity|]. split; [|done]. split; [|done].
  constructor; cbn; try done.
  - do 4 eexists. symmetry. apply set_sigs_id.
  - intros t z Hz. eexists _, _. rewrite set_sigpend_id. exact Hz.
  - intros a z Hz. exists (ev_status z). rewrite set_status_id. auto.
  - by rewrite dom_insert_lookup_L.
Qed.
Lemma wr_int_null_ok D (s : em) p v : in_mem (um_int (em_mem s)) p ->
  exists s', (if bool_decide (p <> NULL) then wr_int p v else mret tt) s = Some (tt, s') /\ qstep D s s' /\ em_w s' = em_w s.
Proof.
  destruct p as [a|]; intros Hp.
  - rewrite bool_decide_eq_true_2 by done. by apply wr_int_ok.
  - rewrite bool_decide_eq_false_2 by tauto. exists s. split_and!; [done|apply qstep_refl|done].
Qed.
Lemma wr_fds_ok D (s : em) p v : in_mem (um_fds (em_mem s)) p -> (is_Some v <-> is_Some p) ->
  exists s', wr_fds p v s = Some (tt, s') /\ qstep D s s' /\ em_w s' = em_w s.
Proof.
  destruct p as [a|], v as [x|]; cbn; intros Hp Hv; try (exfalso; destruct Hv as [Hv1 Hv2];
    (destruct (Hv1 ltac:(done)) || destruct (Hv2 ltac:(done))); done).
  - destruct Hp as [y Hy]. rewrite Hy. eexists. split; [reflexivity|]. split; [|done]. split; [|done].
    constructor; cbn; try done.
    + do 4 eexists. symmetry. apply set_sigs_id.
    + intros t z Hz. eexists _, _. rewrite set_sigpend_id. exact Hz.
    + intros b z Hz. exists (ev_status z). rewrite set_status_id. auto.
    + by rewrite dom_insert_lookup_L.
  - exists s. split_and!; [done|apply qstep_refl|done].
Qed.
Lemma set_sigs_ok D (s : em) p b c r :
  qstep D s (set_w (set_g (set_sigs p b c r (w_g (em_w s))) (em_w s)) s).
Proof.
  split; [|done]. constructor; cbn; try done.
  - by do 4 eexists.
  - intros t z Hz. eexists _, _. rewrite set_sigpend_id. exact Hz.
  - intros a z Hz. exists (ev_status z). rewrite set_status_id. auto.
Qed.
Lemma stat_ok (D : addr -> Prop) s e v x : body s !! e = Some x -> D e ->
  v = ev_status x \/ ev_status x = PTH_STATUS_PENDING -> qstep D s (stat v e s).
Proof. intros Hx HD Hv. split; [by eapply stat_estep|]. unfold stat. by rewrite Hx. Qed.
Lemma set_b_ok D (s : em) b : estep D s (set_b b s).
Proof. by apply estep_same. Qed.

Definition late (x : event) : Prop := ev_status x = PTH_STATUS_PENDING \/ ev_status x = PTH_STATUS_OCCURRED.

Lemma late_sigs_ok e sigs p l : forall (s : em) x, body s !! e = Some x -> late x -> is_Some (um_int (em_mem s) !! p) ->
  exists s', late_sigs l (Some e) sigs (Some p) s = Some (tt, s') /\ qstep (eq e) s s'.
Proof.
  induction l as [|sig l IH]; intros s x Hx Hlx Hp; cbn [late_sigs]; [exists s; split; [done|apply qstep_refl]|].
  assert (H1 : exists s1, late_sig (Some e) sigs (Some p) sig s = Some (tt, s1) /\ qstep (eq e) s s1 /\
    exists x1, body s1 !! e = Some x1 /\ late x1).
  { unfold late_sig. rewrite (st_bind_Some _ _ s (w_g (em_w s)) s) by (apply x_on_w_rd; done).
    destruct (bool_decide (sig ∈ sigs) && bool_decide (sig ∈ g_sigraised (w_g (em_w s)))); [|exists s; eauto using qstep_refl].
    destruct (wr_int_null_ok (eq e) s (Some p) sig) as (s1 & E1 & Hs1 & Hw1); [exact Hp|].
    rewrite (st_bind_Some _ _ _ _ _ E1).
    rewrite (st_bind_Some _ _ s1 tt (set_w (set_g (set_sigs (g_sigpending (w_g (em_w s))) (g_sigblock (w_g (em_w s)))
      (g_sigcatch (w_g (em_w s))) (g_sigraised (w_g (em_w s)) ∖ {[sig]}) (w_g (em_w s1))) (em_w s1)) s1)) by done.
    set (s2 := set_w _ s1). assert (Hx2 : body s2 !! e = Some x) by (unfold s2; cbn; by rewrite Hw1).
    eexists. split; [exact (x_em_status s2 e _ x Hx2)|]. split.
    - eapply qstep_trans; [exact Hs1|]. eapply qstep_trans; [apply set_sigs_ok|]. eapply stat_ok; [exact Hx2|done|].
      destruct Hlx as [?|Hl]; [by right|left; by rewrite Hl].
    - eexists. split; [by apply stat_lookup|by right]. }
  destruct H1 as (s1 & E1 & Hs1 & x1 & Hx1 & Hl1). rewrite (st_bind_Some _ _ _ _ _ E1).
  destruct (IH s1 x1 Hx1 Hl1) as (s2 & E2 & Hs2).
  { rewrite <- elem_of_dom, (es_int _ _ _ (proj1 Hs1)). by apply elem_of_dom. }
  exists s2. split; [done|by eapply qstep_trans].
Qed.

(** Is the event not pending (any more)? *)
Definition np (s : em) (e : addr) : bool := nonpending (w_ev (em_w s)) e.
Lemma np_lookup s e x : body s !! e = Some x -> np s e = bool_decide (ev_status x <> PTH_STATUS_PENDING).
Proof. intros Hx. unfold np, nonpending. by rewrite Hx. Qed.

(** The late handling of a pending event. *)
Lemma late_check_ok n (s : em) rc e x : fb_ok n (em_b s) -> body s !! e = Some x -> ev_status x = PTH_STATUS_PENDING -> wf s x ->
  exists s', late_check PTH_NSIG rc (Some e) x s = Some (tt, s') /\ estep (eq e) s s' /\ fb_ok n (em_b s') /\ em_any s' = em_any s.
Proof.
  intros Hb Hx Hp Hwf. assert (Hbr : forall s', qstep (eq e) s s' -> estep (eq e) s s' /\ fb_ok n (em_b s') /\ em_any s' = em_any s).
  { intros s' (A & EB & EA). rewrite EB. done. }
  destruct Hwf as [v goal fd Hfd|v goal k nfd r w e0 Hk Hr Hw He Hfd|v goal sg p Hsg Hpp|v goal tv|v goal mp Hmp|v goal tid Ht
    |v goal f a tv|v ty goal args Hty]; unfold late_check; cbn [ev_type ev_args ev_goal];
    try (exists s; split; [done|apply Hbr, qstep_refl]).
  - change (PTH_EVENT_FD =? PTH_EVENT_FD) with true. cbv iota.
    destruct (fb_late_fd_ok n (em_b s) rc goal fd Hb Hfd) as (v' & b' & Eb & Hb').
    rewrite (st_bind_Some _ _ _ _ _ (x_on_b _ s _ _ Eb)). bcase (v' = PTH_STATUS_PENDING) Hv.
    + exists (set_b b' s). split_and!; [done|apply set_b_ok|done|done].
    + assert (Hx' : body (set_b b' s) !! e = Some (Event v PTH_EVENT_FD goal (AFD fd))) by done.
      eexists. split; [exact (x_em_status _ e v' _ Hx')|].
      destruct (stat_ok (eq e) (set_b b' s) e v' _ Hx' eq_refl (or_intror Hp)) as (A & EB & EA).
      split_and!; [eapply estep_trans; [apply set_b_ok|exact A]|by rewrite EB|by rewrite EA].
  - change (PTH_EVENT_SELECT =? PTH_EVENT_FD) with false. change (PTH_EVENT_SELECT =? PTH_EVENT_SELECT) with true. cbv iota.
    destruct (x_rd_fds s r Hr) as (r0 & Er & Hr0). rewrite (st_bind_Some _ _ _ _ _ Er).
    destruct (x_rd_fds s w Hw) as (w0 & Ew & Hw0). rewrite (st_bind_Some _ _ _ _ _ Ew).
    destruct (x_rd_fds s e0 He) as (e1 & Ee & He0). rewrite (st_bind_Some _ _ _ _ _ Ee).
    destruct (fb_late_sets_ok n (em_b s) rc nfd r0 w0 e1 Hb Hfd) as (v' & k' & r' & w' & e' & b' & Eb & Hb' & Hr' & Hw' & He').
    rewrite (st_bind_Some _ _ _ _ _ (x_on_b _ s _ _ Eb)).
    set (s0 := set_b b' s). assert (Hx0 : body s0 !! e = Some (Event v PTH_EVENT_SELECT goal (ASELECT k nfd r w e0))) by done.
    assert (Hs0 : estep (eq e) s s0) by apply set_b_ok.
    destruct v'.
    + exists s0. done.
    + destruct (wr_fds_ok (eq e) s0 r r') as (s1 & E1 & Hs1 & Hw1); [exact Hr|tauto|]. rewrite (st_bind_Some _ _ _ _ _ E1).
      destruct (wr_fds_ok (eq e) s1 w w') as (s2 & E2 & Hs2 & Hw2);
        [eapply in_mem_dom; [apply (es_fds _ _ _ (proj1 Hs1))|exact Hw]|tauto|]. rewrite (st_bind_Some _ _ _ _ _ E2).
      assert (Hs02 := qstep_trans _ _ _ _ Hs1 Hs2).
      destruct (wr_fds_ok (eq e) s2 e0 e') as (s3 & E3 & Hs3 & Hw3);
        [eapply in_mem_dom; [apply (es_fds _ _ _ (proj1 Hs02))|exact He]|tauto|]. rewrite (st_bind_Some _ _ _ _ _ E3).
      assert (Hs03 := qstep_trans _ _ _ _ Hs02 Hs3).
      destruct (wr_int_null_ok (eq e) s3 k k') as (s4 & E4 & Hs4 & Hw4);
        [eapply in_mem_dom; [apply (es_int _ _ _ (proj1 Hs03))|exact Hk]|]. rewrite (st_bind_Some _ _ _ _ _ E4).
      assert (Hs04 := qstep_trans _ _ _ _ Hs03 Hs4).
      assert (Hx4 : body s4 !! e = Some (Event v PTH_EVENT_SELECT goal (ASELECT k nfd r w e0)))
        by (rewrite Hw4, Hw3, Hw2, Hw1; exact Hx0).
      eexists. split; [exact (x_em_status s4 e PTH_STATUS_OCCURRED _ Hx4)|].
      destruct (qstep_trans _ _ _ _ Hs04 (stat_ok (eq e) s4 e PTH_STATUS_OCCURRED _ Hx4 eq_refl (or_intror Hp))) as (A & EB & EA).
      split_and!; [by eapply estep_trans|by rewrite EB|by rewrite EA].
    + eexists. split; [exact (x_em_status s0 e PTH_STATUS_FAILED _ Hx0)|].
      destruct (stat_ok (eq e) s0 e PTH_STATUS_FAILED _ Hx0 eq_refl (or_intror Hp)) as (A & EB & EA).
      split_and!; [by eapply estep_trans|by rewrite EB|by rewrite EA].
  - change (PTH_EVENT_SIGS =? PTH_EVENT_FD) with false. change (PTH_EVENT_SIGS =? PTH_EVENT_SELECT) with false.
    change (PTH_EVENT_SIGS =? PTH_EVENT_SIGS) with true. cbv iota. destruct Hsg as [sgs Hsg].
    rewrite (st_bind_Some (rd_sigs (Some sg)) _ s sgs s) by (unfold rd_sigs; by rewrite Hsg).
    destruct (late_sigs_ok e sgs p (all_sigs PTH_NSIG) s _ Hx (or_introl Hp) Hpp) as (s' & E1 & Hs'). exists s'.
    split; [done|by apply Hbr].
  - exists s. split; [|apply Hbr, qstep_refl]. set_unfold in Hty. by destruct Hty as [->|[->|[->|[]]]].
Qed.

Lemma late_event_ok n (s : em) rc e x : fb_ok n (em_b s) -> body s !! e = Some x -> wf s x ->
  exists s', late_event PTH_NSIG rc (Some e) s = Some (tt, s') /\ estep (eq e) s s' /\ fb_ok n (em_b s') /\
    em_any s' = np s' e || em_any s.
Proof.
  intros Hb Hx Hwf. unfold late_event. rewrite (st_bind_Some _ _ _ _ _ (x_em_event s e x Hx)).
  assert (H1 : exists s1, (if bool_decide (ev_status x = PTH_STATUS_PENDING) then late_check PTH_NSIG rc (Some e) x else mret tt) s
      = Some (tt, s1) /\ estep (eq e) s s1 /\ fb_ok n (em_b s1) /\ em_any s1 = em_any s).
  { case_bool_decide; [by apply late_check_ok|exists s; split_and!; [done|apply estep_refl|done|done]]. }
  destruct H1 as (s1 & E1 & Hs1 & Hb1 & Ha1). rewrite (st_bind_Some _ _ _ _ _ E1).
  destruct (es_ev _ _ _ Hs1 e x Hx) as (v & Hx1 & _). rewrite (st_bind_Some _ _ _ _ _ (x_em_event s1 e _ Hx1)).
  clear E1. case_bool_decide as Hv.
  - exists (set_any true s1). split_and!; [done| |done|].
    + eapply estep_trans; [exact Hs1|by apply estep_same].
    + rewrite (np_lookup (set_any true s1) e _ Hx1), bool_decide_eq_true_2 by done. done.
  - exists s1. split_and!; [done|done|done|]. rewrite (np_lookup s1 e _ Hx1), bool_decide_eq_false_2 by (by rewrite Hv; intros []). exact Ha1.
Qed.

(** Other events keep their status. *)
Lemma np_other (D : addr -> Prop) (s s' : em) e : estep D s s' -> is_Some (body s !! e) -> ~ D e -> np s' e = np s e.
Proof.
  intros Hs [x Hx] HD. destruct (es_ev _ _ _ Hs e x Hx) as (v & Hy & [->|[? _]]); [|done].
  by rewrite (np_lookup s e x Hx), (np_lookup s' e _ Hy).
Qed.

(** A waiting thread is to be made ready. *)
Definition woken (s : em) (a : addr) (l : list addr) : bool :=
  match w_tcb (em_w s) !! a with Some x => t_cancelreq x | None => false end || existsb (np s) l.

Lemma late_thread_ok n (s : em) rc a l : fb_ok n (em_b s) -> waiter s a l ->
  exists s', late_thread PTH_NSIG rc a s = Some (tt, s') /\ estep (fun e => e ∈ l) s s' /\ fb_ok n (em_b s') /\
    em_any s' = woken s' a l.
Proof.
  intros Hb [(x & Hx & He) Hr Hwf]. unfold late_thread.
  set (s0 := set_any false s). rewrite (st_bind_Some (upd_em (set_any false)) _ s tt s0 eq_refl).
  rewrite (st_bind_Some _ _ s0 x s0) by (apply x_on_w_rd; by apply x_rd_tcb).
  assert (Hs0 : estep (fun e => e ∈ l) s s0) by (by apply estep_same).
  assert (H1 : exists s1, (if bool_decide (t_events x = NULL) then mret tt
      else s ← get_st; ring_loop (ring_fuel s) (late_event PTH_NSIG rc) (t_events x) (t_events x)) s0 = Some (tt, s1) /\
      estep (fun e => e ∈ l) s s1 /\ fb_ok n (em_b s1) /\ em_any s1 = existsb (np s1) l).
  { destruct l as [|e l]; cbn [head] in He.
    - rewrite bool_decide_eq_true_2 by done. exists s0. done.
    - rewrite bool_decide_eq_false_2 by (by rewrite He). rewrite (st_bind_Some get_st _ s0 s0 s0 eq_refl). rewrite He.
      specialize (Hr ltac:(done)).
      destruct (ring_loop_ok (late_event PTH_NSIG rc) (fun pre s1 => estep (fun e0 => e0 ∈ e :: l) s s1 /\ fb_ok n (em_b s1) /\
          em_any s1 = existsb (np s1) pre) (e_links (w_ev (em_w s))) (e :: l) (er_cyc _ _ Hr)) with (post := l) (pre := @nil addr) (a := e)
          (s := s0) (fuel := ring_fuel s0) as (s1 & E1 & Hs1); try done.
      + intros pre s1 (A & _). apply (es_links _ _ _ A).
      + intros pre e1 post s1 Heq (A1 & A2 & A3). assert (Hin : e1 ∈ e :: l) by (rewrite Heq; apply elem_of_app; right; by left).
        destruct (er_body _ _ Hr e1 Hin) as [y Hy]. destruct (es_ev _ _ _ A1 e1 y Hy) as (v & Hy1 & _).
        destruct (late_event_ok n s1 rc e1 _ A2 Hy1) as (s2 & E2 & Hs2 & Hb2 & Ha2); [by eapply estep_wf; [exact A1|eapply Hwf]|].
        exists s2. split; [done|]. split_and!; [|done|].
        * eapply estep_trans; [exact A1|]. eapply estep_mono; [|exact Hs2]. by intros ? <-.
        * rewrite Ha2, A3, existsb_app. cbn [existsb]. rewrite orb_false_r, orb_comm. f_equal.
          assert (Hni : e1 ∉ pre).
          { assert (Hnd := er_nodup _ _ Hr). rewrite Heq in Hnd. apply NoDup_app in Hnd as (_ & Hd & _).
            intros Hin1. by apply (Hd e1 Hin1); left. }
          assert (Hsub : forall e2, e2 ∈ pre -> is_Some (body s1 !! e2) /\ e1 <> e2).
          { intros e2 He2. split; [|by intros ->]. rewrite <- elem_of_dom, (es_evdom _ _ _ A1). apply elem_of_dom, (er_body _ _ Hr).
            rewrite Heq. apply elem_of_app. by left. }
          clear -Hsub Hs2. induction pre as [|e2 pre IH]; [done|]. cbn [existsb].
          destruct (Hsub e2 ltac:(by left)) as [Hb2 Hne]. rewrite (np_other _ _ _ _ Hs2 Hb2 Hne). f_equal. apply IH.
          intros e3 He3. apply Hsub. by right.
      + exact (er_nodup _ _ Hr).
      + assert (Hlen := ring_fuel_enough s (e :: l) Hr). cbn in Hlen. change (ring_fuel s0) with (ring_fuel s). lia.
      + exists s1. done. }
  destruct H1 as (s1 & E1 & Hs1 & Hb1 & Ha1). rewrite (st_bind_Some _ _ _ _ _ E1).
  destruct (es_tcb _ _ _ Hs1 a x Hx) as (S & k & Hx1). unfold woken.
  destruct (t_cancelreq x) eqn:Ec.
  - exists (set_any true s1). split_and!; [done| |done|].
    + eapply estep_trans; [exact Hs1|by apply estep_same].
    + cbn [set_any em_w em_any]. rewrite Hx1. cbn. by rewrite Ec.
  - exists s1. split_and!; [done|done|done|]. rewrite Hx1. cbn. rewrite Ec. exact Ha1.
Qed.

(** ** The loop *)

(** The events of [D] may get a status; threads may become ready. *)
Definition tcb_rel (s s' : em) : Prop := forall t x, w_tcb (em_w s) !! t = Some x ->
  exists S k (r : bool), w_tcb (em_w s') !! t = Some (set_sigpend S k (if r then set_state PTH_STATE_READY x else x)).
Definition ev_rel (D : addr -> Prop) (s s' : em) : Prop := forall e x, body s !! e = Some x ->
  exists v, body s' !! e = Some (set_status v x) /\ (v = ev_status x \/ (D e /\ ev_status x = PTH_STATUS_PENDING)).

Lemma tcb_rel_trans s1 s2 s3 : tcb_rel s1 s2 -> tcb_rel s2 s3 -> tcb_rel s1 s3.
Proof.
  intros HA HB t x Hx. destruct (HA t x Hx) as (S & k & r & Hy). destruct (HB t _ Hy) as (S' & k' & r' & Hz).
  exists S', k', (r || r'). rewrite Hz. by destruct r, r'.
Qed.
Lemma ev_rel_trans (D1 D2 D : addr -> Prop) s1 s2 s3 : ev_rel D1 s1 s2 -> ev_rel D2 s2 s3 ->
  (forall e, D1 e -> D e) -> (forall e, D2 e -> D e) -> ev_rel D s1 s3.
Proof.
  intros HA HB H1 H2 e x Hx. destruct (HA e x Hx) as (v & Hy & Hv). destruct (HB e _ Hy) as (v' & Hz & Hv').
  exists v'. split; [done|]. cbn in Hv'. destruct Hv' as [->|[? Hp]].
  - destruct Hv as [?|[? ?]]; [by left|right; auto].
  - right. split; [auto|]. destruct Hv as [->|[? ?]]; done.
Qed.
Lemma estep_tcb_rel D s s' : estep D s s' -> tcb_rel s s'.
Proof. intros Hs t x Hx. destruct (es_tcb _ _ _ Hs t x Hx) as (S & k & Hy). by exists S, k, false. Qed.

Definition prio_of (s : em) (a : addr) : Z := match w_tcb (em_w s) !! a with Some x => t_prio x | None => 0 end.

Lemma rel_woken (D : addr -> Prop) s s' a l : tcb_rel s s' -> ev_rel D s s' -> is_Some (w_tcb (em_w s) !! a) ->
  (forall e, e ∈ l -> is_Some (body s !! e) /\ ~ D e) -> woken s' a l = woken s a l.
Proof.
  intros Ht He [x Hx] Hl. destruct (Ht a x Hx) as (S & k & r & Hy). unfold woken. rewrite Hx, Hy.
  f_equal; [by destruct r|]. induction l as [|e l IH]; [done|]. cbn [existsb].
  destruct (Hl e ltac:(by left)) as [[y Hey] HD]. destruct (He e y Hey) as (v & Hey' & [->|[? _]]); [|done].
  rewrite (np_lookup s e y Hey), (np_lookup s' e _ Hey'). f_equal. apply IH. intros e' He'. apply Hl. by right.
Qed.
Lemma rel_prio s s' a : tcb_rel s s' -> is_Some (w_tcb (em_w s) !! a) -> prio_of s' a = prio_of s a.
Proof. intros Ht [x Hx]. destruct (Ht a x Hx) as (S & k & r & Hy). unfold prio_of. rewrite Hx, Hy. by destruct r. Qed.
Lemma waiter_events (s : em) a l : waiter s a l -> forall e, e ∈ l -> is_Some (body s !! e).
Proof. intros [_ Hr _] e He. apply (er_body _ _ (Hr ltac:(by destruct l; [apply not_elem_of_nil in He|]))). done. Qed.

(** What the loop leaves alone. *)
Record calm (s s' : em) : Prop := {
  cm_inb : w_inb (em_w s') = w_inb (em_w s);
  cm_sched : g_scheduler (w_g (em_w s')) = g_scheduler (w_g (em_w s));
  cm_wait : forall b l, waiter s b l -> waiter s' b l
}.
Lemma calm_refl s : calm s s.
Proof. by constructor. Qed.
Lemma calm_trans s1 s2 s3 : calm s1 s2 -> calm s2 s3 -> calm s1 s3.
Proof. intros [A1 A2 A3] [B1 B2 B3]. constructor; try congruence. auto. Qed.
Lemma estep_calm D s s' : estep D s s' -> calm s s'.
Proof.
  intros Hs. constructor; [apply (es_inb _ _ _ Hs)| |intros b l; by apply (estep_waiter _ _ _ _ _ Hs)].
  by destruct (es_g _ _ _ Hs) as (? & ? & ? & ? & ->).
Qed.

(** Making a waiting thread ready. *)
Lemma make_ready_ok (s : em) Q L a x : winv (em_w s) Q L -> in_q Q WQ a -> w_tcb (em_w s) !! a = Some x ->
  exists (w' : wd), (on_w (on_q (qo_delete WQ (Some a)));; on_w (upd_tcb (Some a) (set_state PTH_STATE_READY));;
      x ← on_w (rd_tcb (Some a)); on_w (on_q (qo_insert RQ (t_prio x + 1) (Some a)))) s = Some (tt, set_w w' s) /\
    winv w' (qmove WQ RQ (t_prio x + 1) a Q) L /\ w_ev w' = w_ev (em_w s) /\ w_user w' = w_user (em_w s) /\
    w_tcb w' = <[a := set_state PTH_STATE_READY x]> (w_tcb (em_w s)) /\ w_inb w' = w_inb (em_w s) /\ w_g w' = w_g (em_w s).
Proof.
  intros Hw Ha Hx. assert (Hi := wi_t _ _ _ _ _ _ Hw). assert (HaL := in_q_loose _ _ _ _ _ _ _ Hi Ha).
  destruct (tinv_delete self G _ Q L WQ a Hi Ha) as (q1 & E1 & Hi1). set (w1 := set_q q1 (em_w s)).
  rewrite (st_bind_Some _ _ _ _ _ (x_on_w _ s _ _ E1)). fold w1.
  set (y := set_state PTH_STATE_READY x). set (w2 := set_tcb (<[a := y]> (w_tcb w1)) w1).
  rewrite (st_bind_Some _ _ (set_w w1 s) tt (set_w w2 (set_w w1 s))) by (apply x_on_w; by apply x_upd_tcb).
  assert (Hy : w_tcb w2 !! a = Some y) by (cbn; by rewrite lookup_insert_eq).
  rewrite (st_bind_Some _ _ (set_w w2 (set_w w1 s)) y (set_w w2 (set_w w1 s))) by (apply x_on_w_rd; by apply x_rd_tcb).
  assert (HaL' : a ∈ {[a]} ∪ L) by set_solver.
  assert (Hi2 : tinv self G w2 (qupd WQ (pq_del a (Q WQ)) Q) ({[a]} ∪ L)) by (eapply tinv_upd; [exact Hi1|exact Hx|done|done|by left]).
  destruct (tinv_insert self G w2 _ _ RQ (t_prio y + 1) a y Hi2 HaL' Hy eq_refl) as (q3 & E3 & Hi3).
  exists (set_q q3 w2). split; [|split_and!; try done].
  - rewrite (x_on_w _ (set_w w2 (set_w w1 s)) _ _ E3). done.
  - eapply winv_same; [exact Hw| |done|done]. eapply tinv_set; [|exact Hi3]. set_solver.
Qed.

Lemma waiter_tcb (s : em) (w' : wd) a x : w_tcb (em_w s) !! a = Some x -> w_ev w' = w_ev (em_w s) -> w_user w' = w_user (em_w s) ->
  w_tcb w' = <[a := set_state PTH_STATE_READY x]> (w_tcb (em_w s)) ->
  tcb_rel s (set_w w' s) /\ (forall D, ev_rel D s (set_w w' s)) /\
  (forall b l, waiter s b l -> waiter (set_w w' s) b l).
Proof.
  intros Hx He Hu Ht.
  assert (Hrel : tcb_rel s (set_w w' s)).
  { intros t y Hy. cbn. rewrite Ht. destruct (decide (t = a)) as [->|Hne].
    - simplify_eq. eexists _, _, true. rewrite lookup_insert_eq. by destruct x.
    - eexists _, _, false. rewrite lookup_insert_ne by done. by rewrite set_sigpend_id. }
  split; [done|]. split.
  - intros D e y Hy. exists (ev_status y). cbn. rewrite He, set_status_id. auto.
  - intros b l [(y & Hy & Hey) Hr Hwf]. constructor; cbn; rewrite ?He; try done.
    + destruct (Hrel b y Hy) as (S & k & r & Hz). eexists. split; [exact Hz|]. by destruct r.
    + intros e z Hin Hz. specialize (Hwf e z Hin Hz). rewrite Hu, Ht, dom_insert_lookup_L by (by eexists). done.
Qed.

Lemma cleanup_loop_ok n rc (R : addr -> list addr) rest : forall kept (s : em) Q L fuel,
  winv (em_w s) Q L -> Q WQ = kept ++ rest -> fb_ok n (em_b s) ->
  (forall a, a ∈ rest.*1 -> waiter s a (R a)) ->
  (forall a b e, a ∈ rest.*1 -> b ∈ rest.*1 -> e ∈ R a -> e ∈ R b -> a = b) ->
  (length rest <= fuel)%nat ->
  exists s' Q', cleanup_loop PTH_NSIG fuel rc (head rest.*1) s = Some (tt, s') /\ winv (em_w s') Q' L /\ fb_ok n (em_b s') /\
    Q' WQ = kept ++ filter (fun y => woken s' y.1 (R y.1) = false) rest /\
    Q' RQ = foldl (fun l y => pq_ins (prio_of s y.1 + 1) y.1 l) (Q RQ) (filter (fun y => woken s' y.1 (R y.1) = true) rest) /\
    (forall m, m <> WQ -> m <> RQ -> Q' m = Q m) /\
    tcb_rel s s' /\ ev_rel (fun e => exists a, a ∈ rest.*1 /\ e ∈ R a) s s' /\ calm s s'.
Proof.
  induction rest as [|[a p] rest IH]; intros kept s Q L fuel Hw HQ Hb HR Hdis Hf.
  - exists s, Q. assert (E0 : cleanup_loop PTH_NSIG fuel rc (head ([] : list (addr * Z)).*1) s = Some (tt, s)) by (by destruct fuel).
    split_and!; try done.
    + intros t x Hx. exists (t_sigpending x), (t_sigpendcnt x), false. by rewrite set_sigpend_id.
    + intros e x Hx. exists (ev_status x). rewrite set_status_id. auto.
  - assert (Hwa : waiter s a (R a)) by (apply HR; cbn; by left).
    destruct (late_thread_ok n s rc a (R a) Hb Hwa) as (s1 & E1 & Hs1 & Hb1 & Ha1).
    assert (Hw1 := estep_winv self G E _ _ _ Q L Hs1 Hw).
    destruct fuel as [|fuel]; [cbn in Hf; lia|].
    assert (En : on_w (on_q (qo_walk WQ (Some a) WALK_NEXT)) s1 = Some (head rest.*1, s1)).
    { apply x_on_w_rd. rewrite (x_on_q _ (em_w s1) _ _ (q_walk_ok _ _ _ WQ kept a p rest (ti_q _ _ _ _ _ (wi_t _ _ _ _ _ _ Hw1)) HQ)).
      by destruct (em_w s1). }
    destruct (wt_tcb _ _ _ Hwa) as (x & Hx & _). destruct (es_tcb _ _ _ Hs1 a x Hx) as (S & k & Hx1).
    assert (Hnd := q_nodup _ _ _ WQ (ti_q _ _ _ _ _ (wi_t _ _ _ _ _ _ Hw))). assert (Hnd0 := Hnd). rewrite HQ in Hnd0. rewrite HQ, fmap_app, fmap_cons in Hnd.
    apply NoDup_app in Hnd as (_ & Hak & [Har _]%NoDup_cons). cbn [fst] in Hak, Har.
    set (kept' := if em_any s1 then kept else kept ++ [(a, p)]).
    assert (H2 : exists s2 Q2, (if em_any s1 then
        on_w (on_q (qo_delete WQ (Some a)));; on_w (upd_tcb (Some a) (set_state PTH_STATE_READY));;
        x ← on_w (rd_tcb (Some a)); on_w (on_q (qo_insert RQ (t_prio x + 1) (Some a))) else mret tt) s1 = Some (tt, s2) /\
      winv (em_w s2) Q2 L /\ em_b s2 = em_b s1 /\ Q2 WQ = kept' ++ rest /\
      Q2 RQ = (if em_any s1 then pq_ins (t_prio x + 1) a (Q RQ) else Q RQ) /\ (forall m, m <> WQ -> m <> RQ -> Q2 m = Q m) /\
      tcb_rel s1 s2 /\ (forall D, ev_rel D s1 s2) /\ calm s1 s2).
    { unfold kept'. destruct (em_any s1).
      - assert (Haq : in_q Q WQ a) by (unfold in_q; rewrite HQ, fmap_app; apply elem_of_app; right; by left).
        destruct (make_ready_ok s1 Q L a _ Hw1 Haq Hx1) as (w' & E2 & Hw2 & He2 & Hu2 & Ht2 & Hi2 & Hg2).
        destruct (waiter_tcb s1 w' a _ Hx1 He2 Hu2 Ht2) as (A1 & A2 & A3).
        exists (set_w w' s1), (qmove WQ RQ (t_prio x + 1) a Q). split_and!; try done.
        + unfold qmove. cbv zeta. rewrite qupd_ne, qupd_eq by done. rewrite HQ.
          by apply pq_del_split.
        + intros m Hm1 Hm2. unfold qmove. cbv zeta. by rewrite !qupd_ne.
        + constructor; cbn; [done|by rewrite Hg2|done].
      - exists s1, Q. split_and!; try done.
        + by rewrite <- app_assoc.
        + intros t y Hy. exists (t_sigpending y), (t_sigpendcnt y), false. by rewrite set_sigpend_id.
        + intros D e y Hy. exists (ev_status y). rewrite set_status_id. auto. }
    destruct H2 as (s2 & Q2 & E2 & Hw2 & Hb2 & HQ2 & HR2 & Ho2 & Ht2 & He2 & Hwt2).
    destruct (IH kept' s2 Q2 L fuel Hw2 HQ2) as (s' & Q' & E' & Hw' & Hb' & HW' & HRQ' & Ho' & Ht' & He' & Hc'); [by rewrite Hb2| | |cbn in Hf; lia|].
    { intros b Hbr. apply (cm_wait _ _ Hwt2). eapply estep_waiter; [exact Hs1|]. apply HR. cbn. by right. }
    { intros b c e Hbr Hc. apply Hdis; cbn; by right. }
    assert (Hwok : woken s' a (R a) = em_any s1).
    { rewrite Ha1. assert (Hx2 : is_Some (w_tcb (em_w s2) !! a)) by (destruct (Ht2 a _ Hx1) as (? & ? & ? & ->); by eexists).
      etrans; [eapply (rel_woken _ s2 s' a (R a) Ht' He' Hx2)|].
      - intros e Her. split.
        + destruct (waiter_events s a (R a) Hwa e Her) as [y Hy]. destruct (es_ev _ _ _ Hs1 e y Hy) as (v & Hy1 & _).
          destruct (He2 (fun _ => False) e _ Hy1) as (v' & Hy2 & _). by eexists.
        + intros (b & Hbr & Heb). apply Har. by rewrite (Hdis a b e ltac:(cbn; by left) ltac:(cbn; by right) Her Heb).
      - eapply (rel_woken (fun _ => False) s1 s2 a (R a) Ht2 (He2 _)); [by eexists|]. intros e Her. split; [|tauto].
        destruct (waiter_events s a (R a) Hwa e Her) as [y Hy]. destruct (es_ev _ _ _ Hs1 e y Hy) as (v & Hy1 & _). by eexists. }
    exists s', Q'. split_and!; try done.
    + cbn [head fmap list_fmap fst cleanup_loop]. rewrite (st_bind_Some _ _ _ _ _ E1), (st_bind_Some _ _ _ _ _ En).
      rewrite (st_bind_Some get_st _ s1 s1 s1 eq_refl), (st_bind_Some _ _ _ _ _ E2). exact E'.
    + rewrite HW'. unfold kept'. rewrite filter_cons. cbn [fst]. rewrite Hwok. destruct (em_any s1); [by rewrite decide_False|].
      rewrite decide_True by done. by rewrite <- app_assoc.
    + rewrite HRQ', HR2. rewrite filter_cons. cbn [fst]. rewrite Hwok.
      assert (Hfold : forall l0 l1, (forall y, y ∈ l1 -> y ∈ rest) -> foldl (fun l y => pq_ins (prio_of s2 y.1 + 1) y.1 l) l0 l1 =
        foldl (fun l y => pq_ins (prio_of s y.1 + 1) y.1 l) l0 l1).
      { intros l0 l1. revert l0. induction l1 as [|y l1 IHl]; intros l0 Hy; [done|]. cbn [foldl].
        rewrite IHl by (intros z Hz; apply Hy; by right). do 2 f_equal.
        assert (Hyr : y.1 ∈ rest.*1) by (apply list_elem_of_fmap; exists y; split; [done|apply Hy; by left]).
        destruct (wt_tcb _ _ _ (HR y.1 ltac:(cbn; by right))) as (z & Hz & _).
        rewrite (rel_prio s1 s2); [|done|destruct (es_tcb _ _ _ Hs1 _ z Hz) as (? & ? & ->); by eexists].
        rewrite (rel_prio s s1); [done|by eapply estep_tcb_rel|by eexists]. }
      rewrite Hfold by (intros y [_ Hy]%list_elem_of_filter; done).
      destruct (em_any s1); [|by rewrite decide_False]. rewrite decide_True by done. cbn [foldl fst].
      unfold prio_of at 3. by rewrite Hx.
    + intros m Hm1 Hm2. rewrite Ho' by done. by apply Ho2.
    + eapply tcb_rel_trans; [by eapply estep_tcb_rel|]. by eapply tcb_rel_trans.
    + assert (He2' : ev_rel (fun e => exists a, a ∈ rest.*1 /\ e ∈ R a) s1 s').
      { eapply (ev_rel_trans (fun _ => False)); [apply He2|exact He'|done|done]. }
      eapply (ev_rel_trans (fun e => e ∈ R a)); [exact (es_ev _ _ _ Hs1)|exact He2'| |].
      * intros e He. exists a. split; [cbn; by left|done].
      * intros e (b & Hbr & Heb). exists b. split; [cbn; by right|done].
    + eapply calm_trans; [by eapply estep_calm|]. by eapply calm_trans.
Qed.

Lemma fold_ins_keep (f : addr -> Z) l r b : b ∈ r.*1 -> b ∈ (foldl (fun (l : list (addr * Z)) (y : addr * Z) => pq_ins (f y.1) y.1 l) r l).*1.
Proof. revert r. induction l as [|y l IH]; intros r Hb; [done|]. cbn [foldl]. apply IH, in_ins. by right. Qed.
Lemma fold_ins_in (f : addr -> Z) l r b : b ∈ l.*1 -> b ∈ (foldl (fun (l : list (addr * Z)) (y : addr * Z) => pq_ins (f y.1) y.1 l) r l).*1.
Proof.
  revert r. induction l as [|y l IH]; intros r Hb; [by apply not_elem_of_nil in Hb|]. cbn [foldl]. rewrite fmap_cons in Hb.
  apply elem_of_cons in Hb as [->|Hb]; [apply fold_ins_keep, in_ins; by left|by apply IH].
Qed.

Lemma cleanup_pass_ok n rc (R : addr -> list addr) (s : em) Q L :
  winv (em_w s) Q L -> fb_ok n (em_b s) ->
  (forall a, in_q Q WQ a -> waiter s a (R a)) ->
  (forall a b e, in_q Q WQ a -> in_q Q WQ b -> e ∈ R a -> e ∈ R b -> a = b) ->
  exists s' Q', cleanup PTH_NSIG rc s = Some (tt, s') /\ winv (em_w s') Q' L /\ fb_ok n (em_b s') /\
    Q' WQ = filter (fun y => woken s' y.1 (R y.1) = false) (Q WQ) /\
    Q' RQ = foldl (fun l y => pq_ins (prio_of s y.1 + 1) y.1 l) (Q RQ)
              (filter (fun y => woken s' y.1 (R y.1) = true) (Q WQ)) /\
    (forall m, m <> WQ -> m <> RQ -> Q' m = Q m) /\
    (forall a e, in_q Q WQ a -> e ∈ R a -> np s e = true -> np s' e = true /\ in_q Q' RQ a) /\
    (forall a e, in_q Q' WQ a -> e ∈ R a -> np s' e = false) /\ tcb_rel s s' /\
    (forall e x, body s !! e = Some x -> exists v, body s' !! e = Some (set_status v x)) /\ calm s s'.
Proof.
  intros Hw Hb HR Hdis. assert (Hi := ti_q _ _ _ _ _ (wi_t _ _ _ _ _ _ Hw)). unfold cleanup.
  rewrite (st_bind_Some get_st _ s s s eq_refl), (q_elements_ok _ _ _ WQ Hi), (q_head_ok _ _ _ WQ Hi), Nat2Z.id.
  destruct (cleanup_loop_ok n rc R (Q WQ) [] s Q L (length (Q WQ)) Hw eq_refl Hb HR Hdis ltac:(lia))
    as (s' & Q' & E1 & Hw' & Hb' & HW & HRQ & Ho & Ht & He & Hc). cbn [app] in HW.
  exists s', Q'. split_and!; try done.
  - intros a e Ha Her Hnp.
    assert (Hnp' : np s' e = true).
    { destruct (waiter_events s a (R a) (HR a Ha) e Her) as [y Hy]. destruct (He e y Hy) as (v & Hy' & Hv).
      rewrite (np_lookup s e y Hy), bool_decide_eq_true in Hnp. rewrite (np_lookup s' e _ Hy'), bool_decide_eq_true.
      destruct Hv as [->|[_ ?]]; done. }
    split; [done|]. assert (Hwk : woken s' a (R a) = true).
    { unfold woken. apply orb_true_iff. right. apply existsb_exists. exists e. split; [by apply list_elem_of_In|done]. }
    unfold in_q. rewrite HRQ. assert (Hin : a ∈ (filter (fun y => woken s' y.1 (R y.1) = true) (Q WQ)).*1).
    { unfold in_q in Ha. apply list_elem_of_fmap in Ha as (y & -> & Hy). apply list_elem_of_fmap. exists y. split; [done|].
      by apply list_elem_of_filter. }
    by apply (fold_ins_in (fun b => prio_of s b + 1)).
  - intros a e Ha Her. unfold in_q in Ha. rewrite HW in Ha.
    apply list_elem_of_fmap in Ha as (y & -> & [Hy _]%list_elem_of_filter). unfold woken in Hy.
    apply orb_false_iff in Hy as [_ Hy]. destruct (np s' e) eqn:E1'; [|done]. rewrite <- Hy. symmetry.
    apply existsb_exists. exists e. split; [by apply list_elem_of_In|done].
  - intros e x Hx. destruct (He e x Hx) as (v & Hy & _). by exists v.
Qed.

(** C13: the cleanup loop of the event manager wakes exactly the threads it
    must. Every waiting thread with a cancellation request or with an event
    that is not pending after the late handling leaves the waiting queue for
    the ready queue, with a priority one above its own and in the order of the
    waiting queue; the others stay, in their order, with all their events
    pending. No occurred event is forgotten or reset, the threads in other
    queues do not move, and the invariant of threads and queues is kept. *)
Theorem cleanup_correct n rc (R : addr -> list addr) (s : em) Q L :
  winv (em_w s) Q L -> fb_ok n (em_b s) ->
  (forall a, in_q Q WQ a -> waiter s a (R a)) ->
  (forall a b e, in_q Q WQ a -> in_q Q WQ b -> e ∈ R a -> e ∈ R b -> a = b) ->
  exists s' Q', cleanup PTH_NSIG rc s = Some (tt, s') /\ winv (em_w s') Q' L /\ fb_ok n (em_b s') /\
    Q' WQ = filter (fun y => woken s' y.1 (R y.1) = false) (Q WQ) /\
    Q' RQ = foldl (fun l y => pq_ins (prio_of s y.1 + 1) y.1 l) (Q RQ)
              (filter (fun y => woken s' y.1 (R y.1) = true) (Q WQ)) /\
    (forall m, m <> WQ -> m <> RQ -> Q' m = Q m) /\
    (forall a e, in_q Q WQ a -> e ∈ R a -> np s e = true -> np s' e = true /\ in_q Q' RQ a) /\
    (forall a e, in_q Q' WQ a -> e ∈ R a -> np s' e = false).
Proof.
  intros Hw Hb HR Hdis. destruct (cleanup_pass_ok n rc R s Q L Hw Hb HR Hdis) as (s' & Q' & ? & ? & ? & ? & ? & ? & ? & ? & _). by exists s', Q'.
Qed.
End late.

(** Thread 13 is woken: its first event has occurred. *)
Lemma cleanup_correct_witness : exists (s s' : emst queues dstate pollset) Q',
  in_q demo_Q WQ 13 /\ cleanup 32 0 s = Some (tt, s') /\ in_q Q' RQ 13.
Proof.
  destruct wait_inv as [q Hq].
  destruct (cleanup_correct 1 demo_G demo_E 32 1%nat 0 wait_ring (wait_em q) demo_Q _ Hq) as (s' & Q' & E1 & _ & _ & _ & _ & _ & Hw & _).
  - split; [done|]. vm_compute. lia.
  - apply wait_waiter.
  - intros a b e Ha Hb _ _. unfold in_q in *. cbn in Ha, Hb. apply list_elem_of_singleton in Ha as ->.
    by apply list_elem_of_singleton in Hb as ->.
  - exists (wait_em q), s', Q'. split_and!; [unfold in_q; cbn; by left|exact E1|].
    apply (Hw 13%positive 20%positive); [unfold in_q; cbn; by left|unfold wait_ring; by left|reflexivity].
Defined.
