(* ===== verification/Evassemble.v ===== *)
(** * Looking at the events before the wait

    When all events of the waiting threads were looked at, every one that is
    still pending has a reason to be: its descriptors and signals are watched,
    its timer does not elapse before the next timer, its condition does not
    hold. So the wait that follows cannot be too long. *)

From stdpp Require Import base numbers gmap list.
From S2P Require Import Prelude Links Pqueue Ring Timeval Msg Waitq Clean Util Event Inbox Queues World Thread.
From S2P Require Import Demo Sched Dispatch Evman Evstep Pollset Evdemo Evcleanup.
Open Scope Z_scope.

(** Times of which the sign of the comparison is right: within 2^30 seconds
    of [now], canonical but for a full second of microseconds. *)
Definition near (now v : pth_time_t) : Prop := 0 <= tv_usec v <= 1000000 /\ - 2 ^ 30 < tv_sec v - tv_sec now < 2 ^ 30.
Lemma near_cmp now a b : near now a -> near now b ->
  (pth_time_cmp a b < 0 -> usecs a <= usecs b) /\ (0 <= pth_time_cmp a b -> usecs b <= usecs a).
Proof.
  unfold near, pth_time_cmp, usecs. intros Ha Hb. cbv zeta. fits.
  destruct (Z.eqb_spec (tv_sec a - tv_sec b) 0); lia.
Qed.

(** The time of an event. *)
Definition timed_ok (now : pth_time_t) (x : event) : Prop :=
  match ev_args x with
  | ATIME tv => near now tv
  | AFUNC _ _ tv => near now (pth_time_add now tv)
  | _ => True end.

Section asm.
Context {H U B : Type} `{!QueueOps H, !QueueLaws H, !CleanupOps H U, !PortOps U, !FdBackend B, !FdBackendLaws B}.
Context (self : addr) (G E : gset addr) `{!CleanupLaws H U self G E}.
Context (PTH_NSIG : Z).
Abbreviation wd := (world H U).
Abbreviation em := (emst H U B).
Abbreviation winv := (winv self G E).
Abbreviation body s := (e_body (w_ev (em_w s))).
Abbreviation wf s := (ev_wf fb_fd (em_mem s) (dom (w_tcb (em_w s))) (dom (m_ports (po_ports (w_user (em_w s)))))).
Context (now : pth_time_t) (func : ptr -> ptr -> bool) (now_near : near now now).

(** The next timer is not later than [v]; a signal is caught and not blocked. *)
Definition timer_by (s : em) (v : Z) : Prop := em_tev s <> NULL /\ usecs (em_tval s) <= v.
Definition sig_watched (s : em) (sig : Z) : Prop :=
  sig ∈ g_sigcatch (w_g (em_w s)) /\ sig ∉ g_sigblock (w_g (em_w s)).
Definition in_set (s : em) (p : ptr) (f : Z) : Prop := exists a x, p = Some a /\ um_fds (em_mem s) !! a = Some x /\ f ∈ x.

(** Why a pending event is pending. *)
Definition justified (s : em) (x : event) : Prop := ev_status x = PTH_STATUS_PENDING ->
  match ev_args x with
  | AFD fd => ev_type x = PTH_EVENT_FD -> fb_watch (em_b s) fd (ev_goal x)
  | ASELECT _ nfd r w e => ev_type x = PTH_EVENT_SELECT -> forall f, 0 <= f < nfd ->
      (in_set s r f -> fb_watch (em_b s) f PTH_UNTIL_FD_READABLE) /\
      (in_set s w f -> fb_watch (em_b s) f PTH_UNTIL_FD_WRITEABLE) /\
      (in_set s e f -> fb_watch (em_b s) f PTH_UNTIL_FD_EXCEPTION)
  | ASIGS (Some a) _ => ev_type x = PTH_EVENT_SIGS -> forall sigs sig, um_sigs (em_mem s) !! a = Some sigs ->
      1 <= sig < PTH_NSIG -> sig ∈ sigs -> sig_watched s sig
  | ATIME tv => ev_type x = PTH_EVENT_TIME -> usecs now <= usecs tv /\ timer_by s (usecs tv)
  | AMSG (Some mp) => ev_type x = PTH_EVENT_MSG -> forall pt, m_ports (po_ports (w_user (em_w s))) !! mp = Some pt ->
      pth_ring_elements (Some (mp_queue pt)) <= 0
  | ATID None => ev_type x = PTH_EVENT_TID -> qo_elements DQ (w_q (em_w s)) <= 0
  | ATID (Some t) => ev_type x = PTH_EVENT_TID -> forall y, w_tcb (em_w s) !! t = Some y -> t_state y <> ev_goal x
  | AFUNC f a tv => ev_type x = PTH_EVENT_FUNC -> func f a = false /\ timer_by s (usecs (pth_time_add now tv))
  | _ => True
  end.

(** Looking at the events of [D]. *)
Record astep (D : addr -> Prop) (s s' : em) : Prop := {
  as_e : estep D s s';
  as_fds : um_fds (em_mem s') = um_fds (em_mem s);
  as_timer : forall v, timer_by s v -> timer_by s' v;
  as_watch : forall f g, fb_watch (em_b s) f g -> fb_watch (em_b s') f g;
  as_sig : forall sig, sig_watched s sig -> sig_watched s' sig;
  as_tev : em_tev s' = em_tev s \/ exists e, em_tev s' = Some e /\ D e
}.
Lemma astep_refl D s : astep D s s.
Proof. constructor; auto using estep_refl. Qed.
Lemma astep_trans D s1 s2 s3 : astep D s1 s2 -> astep D s2 s3 -> astep D s1 s3.
Proof.
  intros [A1 A2 A3 A4 A5 A6] [B1 B2 B3 B4 B5 B6]. constructor; [by eapply estep_trans|congruence|auto..]. destruct B6 as [->|?]; auto.
Qed.
Lemma astep_mono D D' s s' : (forall a, D a -> D' a) -> astep D s s' -> astep D' s s'.
Proof. intros HD [A1 A2 A3 A4 A5 A6]. constructor; try done; [by eapply estep_mono|]. destruct A6 as [?|(e & ? & ?)]; [by left|right; exists e; auto]. Qed.

Lemma other_justified s v ty goal args : ty ∈ [PTH_EVENT_MUTEX; PTH_EVENT_COND; PTH_EVENT_NOTIFY] -> justified s (Event v ty goal args).
Proof.
  intros Hty Hp. destruct args as [fd|n nfd r w e0|[a|] q|tv|[mp|]|mu|co|go|[t|]|f a tv|]; try done; cbn;
    intros ->; exfalso; repeat (apply elem_of_cons in Hty as [Hty|Hty]; [by vm_compute in Hty|]); by apply not_elem_of_nil in Hty.
Qed.
Lemma justified_step D s s' x : astep D s s' -> wf s x -> justified s x -> justified s' x.
Proof.
  intros [A1 A2 A3 A4 A5] Hwf Hj Hp. specialize (Hj Hp).
  destruct Hwf as [v goal fd Hfd|v goal k nfd r w e0 Hk Hr Hw He Hfd|v goal sg p Hsg Hpp|v goal tv|v goal mp Hmp|v goal tid Ht
    |v goal f a tv|v ty goal args Hty]; cbn [ev_args ev_type ev_goal] in *.
  - auto.
  - intros Ety f Hf. destruct (Hj Ety f Hf) as (C1 & C2 & C3). unfold in_set in *. rewrite A2. split_and!; auto.
  - intros Ety sigs sig. rewrite (es_sigs _ _ _ A1). intros Hs Hr Hin. apply A5. by eapply Hj.
  - intros Ety. destruct (Hj Ety). auto.
  - intros Ety pt. rewrite (es_user _ _ _ A1). by apply Hj.
  - destruct tid as [t|]; [|intros Ety; rewrite (es_q _ _ _ A1); by apply Hj].
    intros Ety y Hy. destruct (estep_tcb_back D s s' t y A1 Hy) as (x & S & k & Hx & ->). exact (Hj Ety x Hx).
  - intros Ety. destruct (Hj Ety). auto.
  - exact (other_justified s' v ty goal args Hty Hp).
Qed.

(** A step on signals, threads' signals and integers of the user. *)
Lemma estep_quiet D (s s' : em) : w_ev (em_w s') = w_ev (em_w s) -> w_q (em_w s') = w_q (em_w s) ->
  w_wq (em_w s') = w_wq (em_w s) -> w_inb (em_w s') = w_inb (em_w s) -> w_user (em_w s') = w_user (em_w s) ->
  (exists p b c r, w_g (em_w s') = set_sigs p b c r (w_g (em_w s))) ->
  (w_tcb (em_w s') = w_tcb (em_w s) \/ exists t x S k, w_tcb (em_w s) !! t = Some x /\ w_tcb (em_w s') = <[t := set_sigpend S k x]> (w_tcb (em_w s))) ->
  dom (um_int (em_mem s')) = dom (um_int (em_mem s)) -> um_sigs (em_mem s') = um_sigs (em_mem s) ->
  um_fds (em_mem s') = um_fds (em_mem s) -> estep D s s'.
Proof.
  intros Hev Hq Hwq Hinb Hu Hg Ht Hi Hsg Hf. constructor; rewrite ?Hev; try done; [..|by rewrite Hf].
  - intros t x Hx. destruct Ht as [->|(t' & y & S & k & Hy & ->)].
    + eexists _, _. rewrite set_sigpend_id. exact Hx.
    + destruct (decide (t = t')) as [->|Hne].
      * simplify_eq. eexists _, _. by rewrite lookup_insert_eq.
      * eexists _, _. rewrite lookup_insert_ne, set_sigpend_id by done. exact Hx.
  - destruct Ht as [->|(t' & y & S & k & Hy & ->)]; [done|]. by rewrite dom_insert_lookup_L.
  - intros a x Hx. exists (ev_status x). rewrite set_status_id. auto.
Qed.

(** Nothing but the world and the user's memory changes. *)
Definition same_vars (s s' : em) : Prop :=
  em_b s' = em_b s /\ em_tth s' = em_tth s /\ em_tev s' = em_tev s /\ em_tval s' = em_tval s /\ em_any s' = em_any s.
Lemma same_vars_trans s1 s2 s3 : same_vars s1 s2 -> same_vars s2 s3 -> same_vars s1 s3.
Proof. unfold same_vars. intros (?&?&?&?&?) (?&?&?&?&?). split_and!; congruence. Qed.
Lemma same_vars_timer s s' v : same_vars s s' -> timer_by s v -> timer_by s' v.
Proof. intros (_ & _ & E1 & E2 & _). unfold timer_by. by rewrite E1, E2. Qed.

Lemma asm_sig_ok t sigs p occ sig (s : em) : is_Some (w_tcb (em_w s) !! t) -> is_Some (um_int (em_mem s) !! p) ->
  exists occ' s', asm_sig t sigs (Some p) occ sig s = Some (occ', s') /\ (forall D, astep D s s') /\ same_vars s s' /\
    w_ev (em_w s') = w_ev (em_w s) /\ (occ' = false -> occ = false /\ (sig ∈ sigs -> sig_watched s' sig)).
Proof.
  intros [x Hx] [v Hv]. unfold asm_sig. destruct (decide (sig ∈ sigs)) as [Hs|Hs].
  2: { rewrite bool_decide_eq_false_2 by done. exists occ, s. split_and!; try done. intros D; apply astep_refl. }
  rewrite bool_decide_eq_true_2 by done. cbn [negb].
  rewrite (st_bind_Some _ _ s x s) by (apply x_on_w_rd; by apply x_rd_tcb).
  set (m1 := Umem (<[p := sig]> (um_int (em_mem s))) (um_sigs (em_mem s)) (um_fds (em_mem s))).
  assert (Hd1 : dom (um_int m1) = dom (um_int (em_mem s))) by (unfold m1; cbn; by rewrite dom_insert_lookup_L).
  assert (H1 : exists occ1 s1, (if bool_decide (sig ∈ t_sigpending x) then
      wr_int (Some p) sig;; on_w (upd_tcb (Some t) (set_sigpend (t_sigpending x ∖ {[sig]}) (t_sigpendcnt x - 1)));; mret true
      else mret occ) s = Some (occ1, s1) /\ (forall D, estep D s s1) /\ same_vars s s1 /\ w_ev (em_w s1) = w_ev (em_w s) /\
      w_g (em_w s1) = w_g (em_w s) /\ um_fds (em_mem s1) = um_fds (em_mem s) /\ (occ1 = false -> occ = false)).
  { destruct (bool_decide (sig ∈ t_sigpending x)).
    - rewrite (st_bind_Some (wr_int (Some p) sig) _ s tt (set_mem m1 s)) by (unfold wr_int; by rewrite Hv).
      rewrite (st_bind_Some _ _ (set_mem m1 s) tt (set_w (set_tcb (<[t := set_sigpend (t_sigpending x ∖ {[sig]}) (t_sigpendcnt x - 1) x]>
        (w_tcb (em_w s))) (em_w s)) (set_mem m1 s))) by (apply x_on_w; by apply x_upd_tcb).
      eexists true, _. split; [reflexivity|]. split_and!; try done.
      intros D. apply estep_quiet; try done; [do 4 eexists; symmetry; apply set_sigs_id|]. right. by do 4 eexists.
    - exists occ, s. split_and!; try done. intros D. apply estep_refl. }
  destruct H1 as (occ1 & s1 & E1 & Hs1 & Hv1 & He1 & Hg1 & Hf1 & Ho1). rewrite (st_bind_Some _ _ _ _ _ E1).
  rewrite (st_bind_Some _ _ s1 (w_g (em_w s1)) s1) by (by apply x_on_w_rd). rewrite Hg1.
  assert (Hp1 : is_Some (um_int (em_mem s1) !! p)).
  { rewrite <- elem_of_dom, (es_int _ _ _ (Hs1 (fun _ => False))). apply elem_of_dom. by eexists. }
  destruct (bool_decide (sig ∈ g_sigpending (w_g (em_w s)))).
  - destruct Hp1 as [v1 Hv1']. rewrite bool_decide_eq_true_2 by done.
    rewrite (st_bind_Some (wr_int (Some p) sig) _ s1 tt _) by (unfold wr_int; rewrite Hv1'; reflexivity).
    eexists true, _. split; [reflexivity|]. split_and!; try done.
    intros D. constructor; cbn; try done.
    + eapply estep_trans; [apply Hs1|]. apply estep_quiet; cbn; try done; [by do 4 eexists; rewrite Hg1|by left|by rewrite dom_insert_lookup_L].
    + intros w. by apply same_vars_timer.
    + intros f g. by rewrite (proj1 Hv1).
    + left. by apply Hv1.
  - eexists occ1, _. split; [reflexivity|]. split_and!; try done.
    + intros D. constructor; cbn; try done.
      * eapply estep_trans; [apply Hs1|]. apply estep_quiet; cbn; try done; [by do 4 eexists|by left].
      * intros w. by apply same_vars_timer.
      * intros f g. by rewrite (proj1 Hv1).
      * unfold sig_watched. cbn. set_solver.
      * left. by apply Hv1.
    + intros Hocc. split; [auto|]. intros _. unfold sig_watched. cbn. set_solver.
Qed.

Lemma asm_sigs_ok l : forall t sigs p occ (s : em), is_Some (w_tcb (em_w s) !! t) -> is_Some (um_int (em_mem s) !! p) ->
  exists occ' s', asm_sigs l t sigs (Some p) occ s = Some (occ', s') /\ (forall D, astep D s s') /\ same_vars s s' /\
    w_ev (em_w s') = w_ev (em_w s) /\ (occ' = false -> occ = false /\ forall sig, sig ∈ l -> sig ∈ sigs -> sig_watched s' sig).
Proof.
  induction l as [|sig l IH]; intros t sigs p occ s Ht Hp; cbn [asm_sigs].
  - exists occ, s. split_and!; try done; [intros D; apply astep_refl|]. intros ->. split; [done|]. by intros sig ?%not_elem_of_nil.
  - destruct (asm_sig_ok t sigs p occ sig s Ht Hp) as (o1 & s1 & E1 & Hs1 & Hv1 & He1 & Ho1). rewrite (st_bind_Some _ _ _ _ _ E1).
    assert (Hs1' := as_e _ _ _ (Hs1 (fun _ => False))).
    destruct (IH t sigs p o1 s1) as (o2 & s2 & E2 & Hs2 & Hv2 & He2 & Ho2).
    + destruct Ht as [x Hx]. destruct (es_tcb _ _ _ Hs1' t x Hx) as (S & k & Hy). by eexists.
    + rewrite <- elem_of_dom, (es_int _ _ _ Hs1'). by apply elem_of_dom.
    + exists o2, s2. split_and!; [done|intros D; by eapply astep_trans|by eapply same_vars_trans|congruence|].
      intros ->. destruct (Ho2 eq_refl) as [-> Hw2]. destruct (Ho1 eq_refl) as [-> Hw1]. split; [done|].
      intros sg [->|Hin]%elem_of_cons Hsg; [|by apply Hw2]. apply (as_sig _ _ _ (Hs2 (fun _ => False))). by apply Hw1.
Qed.

(** The timer variables are set together, to a time near [now]. *)
Definition timer_ok (s : em) : Prop :=
  (em_tth s = NULL <-> em_tev s = NULL) /\ (em_tev s <> NULL -> near now (em_tval s)).

Lemma asm_timer_ok (s : em) t e tv : timer_ok s -> near now tv ->
  exists s', asm_timer t (Some e) tv s = Some (tt, s') /\ (forall D : addr -> Prop, D e -> astep D s s') /\ em_w s' = em_w s /\ em_b s' = em_b s /\
    em_any s' = em_any s /\ timer_ok s' /\ timer_by s' (usecs tv).
Proof.
  intros Ht Htv. unfold asm_timer. rewrite (st_bind_Some get_st _ s s s eq_refl).
  destruct ((bool_decide (em_tth s = NULL) && bool_decide (em_tev s = NULL)) || (pth_time_cmp tv (em_tval s) <? 0)) eqn:Ec.
  - exists (set_timer (Some t) (Some e) tv s). split_and!; try done.
    intros D HD. constructor; try done; [by apply estep_same| |right; by exists e]. intros v [Hn Hv]. split; [done|]. cbn.
    apply orb_true_iff in Ec as [[_ Hx%bool_decide_eq_true]%andb_true_iff|Hc]; [done|]. apply Z.ltb_lt in Hc.
    destruct (near_cmp now tv (em_tval s) Htv (proj2 Ht Hn)) as [Hle _]. specialize (Hle Hc). lia.
  - apply orb_false_iff in Ec as [E1 E2]. apply Z.ltb_ge in E2. destruct Ht as [Hnn Hnear].
    assert (Hn : em_tev s <> NULL).
    { intros Hn. rewrite (bool_decide_eq_true_2 (em_tth s = NULL)), (bool_decide_eq_true_2 (em_tev s = NULL)) in E1 by tauto. done. }
    exists s. split_and!; try done; [intros D _; apply astep_refl|].
    split; [done|]. by apply (near_cmp now tv (em_tval s) Htv (Hnear Hn)).
Qed.

(** What a step needs and keeps of the state besides. *)
Record acond (n : nat) (t : addr) (s : em) : Prop := {
  ac_ok : fb_ok n (em_b s);
  ac_tcb : is_Some (w_tcb (em_w s) !! t);
  ac_timer : timer_ok s
}.

Lemma astep_timer_same D (s s' : em) : estep D s s' -> um_fds (em_mem s') = um_fds (em_mem s) -> same_vars s s' ->
  w_g (em_w s') = w_g (em_w s) -> astep D s s'.
Proof.
  intros He Hf Hv Hg. constructor; try done.
  - intros v. by apply same_vars_timer.
  - intros f g. by rewrite (proj1 Hv).
  - intros sig. unfold sig_watched. by rewrite Hg.
  - left. apply Hv.
Qed.
Lemma astep_any D b (s : em) : astep D s (set_any b s).
Proof. constructor; try done; [by apply estep_same|by left]. Qed.
Lemma timer_ok_same s s' : same_vars s s' -> timer_ok s -> timer_ok s'.
Proof. intros (_ & E1 & E2 & E3 & _). unfold timer_ok. by rewrite E1, E2, E3. Qed.
Lemma fb_astep D (s : em) b : (forall f g, fb_watch (em_b s) f g -> fb_watch b f g) -> astep D s (set_b b s).
Proof. intros Hm. constructor; try done; [by apply estep_same|by left]. Qed.

(** The check of a pending event: it has occurred, or it is justified. *)
Lemma asm_check_ok n t (s : em) e x : acond n t s -> body s !! e = Some x -> wf s x -> timed_ok now x ->
  exists occ s', asm_check PTH_NSIG now func t (Some e) x s = Some (occ, s') /\ (forall D : addr -> Prop, D e -> astep D s s') /\
    fb_ok n (em_b s') /\ timer_ok s' /\ em_any s' = em_any s /\ w_ev (em_w s') = w_ev (em_w s) /\ (occ = false -> justified s' x).
Proof.
  intros [Hb Ht Htm] Hx Hwf Htd.
  assert (Hstay : forall occ : bool, (occ = false -> justified s x) -> exists occ' s', (mret occ : st em bool) s = Some (occ', s') /\
    (forall D : addr -> Prop, D e -> astep D s s') /\ fb_ok n (em_b s') /\ timer_ok s' /\ em_any s' = em_any s /\ w_ev (em_w s') = w_ev (em_w s) /\
    (occ' = false -> justified s' x)).
  { intros occ Ho. exists occ, s. split_and!; try done. intros D _. apply astep_refl. }
  destruct Hwf as [v goal fd Hfd|v goal k nfd r w e0 Hk Hr Hw He Hfd|v goal sg p Hsg Hpp|v goal tv|v goal mp Hmp|v goal tid Htid
    |v goal f a tv|v ty goal args Hty]; unfold asm_check; cbn [ev_type ev_args ev_goal];
    repeat match goal with |- context [?c =? ?d] =>
      match c with PTH_EVENT_FD => idtac | PTH_EVENT_SELECT => idtac | PTH_EVENT_SIGS => idtac | PTH_EVENT_TIME => idtac
        | PTH_EVENT_MSG => idtac | PTH_EVENT_TID => idtac | PTH_EVENT_FUNC => idtac end;
      let b := eval vm_compute in (c =? d) in change (c =? d) with b end; cbv iota.
  - destruct (fb_want_fd_ok n (em_b s) goal fd Hb Hfd) as (b' & Eb & Hb' & Hwt & Hmo).
    rewrite (st_bind_Some _ _ _ _ _ (x_on_b _ s _ _ Eb)). exists false, (set_b b' s).
    split_and!; try done; [intros D _; by apply fb_astep|]. intros _ _ _. exact Hwt.
  - destruct (x_rd_fds s r Hr) as (r0 & Er & Hr0). rewrite (st_bind_Some _ _ _ _ _ Er).
    destruct (x_rd_fds s w Hw) as (w0 & Ew & Hw0). rewrite (st_bind_Some _ _ _ _ _ Ew).
    destruct (x_rd_fds s e0 He) as (e1 & Ee & He0). rewrite (st_bind_Some _ _ _ _ _ Ee).
    destruct (fb_want_sets_ok n (em_b s) nfd r0 w0 e1 Hb Hfd) as (b' & Eb & Hb' & Hwt & Hmo).
    rewrite (st_bind_Some _ _ _ _ _ (x_on_b _ s _ _ Eb)). exists false, (set_b b' s).
    split_and!; try done; [intros D _; by apply fb_astep|]. intros _ _ _ f Hf. destruct (Hwt f Hf) as (C1 & C2 & C3).
    assert (Hset : forall p v0, rd_fds p s = Some (v0, s) -> in_set (set_b b' s) p f -> fd_isset f v0 = true).
    { intros p v0 Erd (a & y & -> & Hy & Hin). cbn in Erd, Hy. rewrite Hy in Erd. injection Erd as <-. cbn. by apply bool_decide_eq_true. }
    split_and!; intros Hin; [apply C1|apply C2|apply C3]; by eapply Hset.
  - destruct Hsg as [sgs Hsg]. rewrite (st_bind_Some (rd_sigs (Some sg)) _ s sgs s) by (unfold rd_sigs; by rewrite Hsg).
    destruct (asm_sigs_ok (all_sigs PTH_NSIG) t sgs p false s Ht Hpp) as (o & s' & E1 & Hs' & Hv & He' & Ho).
    exists o, s'. split_and!; try done.
    + by rewrite (proj1 Hv).
    + by eapply timer_ok_same.
    + apply Hv.
    + intros ->. destruct (Ho eq_refl) as [_ Hwt]. intros _ _ sigs sig. rewrite (es_sigs _ _ _ (as_e _ _ _ (Hs' (fun _ => False)))), Hsg.
      intros [= <-] Hr Hin. apply Hwt; [|done]. unfold all_sigs. apply elem_of_seqZ. lia.
  - destruct (Z.ltb_spec (pth_time_cmp tv now) 0) as [Hc|Hc]; [by apply Hstay|].
    destruct (asm_timer_ok s t e tv Htm Htd) as (s' & E1 & Hs' & Hw' & Hb' & Ha' & Htm' & Hby).
    rewrite (st_bind_Some _ _ _ _ _ E1). exists false, s'. split_and!; try done; [by rewrite Hb'|by rewrite Hw'|].
    intros _ _ _. split; [|done]. by apply (near_cmp now tv now Htd now_near).
  - apply elem_of_dom in Hmp as [pt Hpt]. rewrite (st_bind_Some get_st _ s s s eq_refl), Hpt. apply Hstay.
    intros Hl _ _ pt' Hpt'. rewrite Hpt in Hpt'. injection Hpt' as <-. by apply Z.ltb_ge in Hl.
  - destruct tid as [u|].
    + assert (Hu : u ∈ dom (w_tcb (em_w s))) by (by apply Htid). apply elem_of_dom in Hu as [y Hy].
      rewrite (st_bind_Some _ _ s y s) by (apply x_on_w_rd; by apply x_rd_tcb). apply Hstay.
      intros Hl _ _ y' Hy'. rewrite Hy in Hy'. injection Hy' as <-. by apply Z.eqb_neq in Hl.
    + rewrite (st_bind_Some get_st _ s s s eq_refl). apply Hstay. intros Hl _ _. by apply Z.ltb_ge in Hl.
  - destruct (func f a) eqn:Ef; [by apply Hstay|].
    destruct (asm_timer_ok s t e (pth_time_add now tv) Htm Htd) as (s' & E1 & Hs' & Hw' & Hb' & Ha' & Htm' & Hby).
    rewrite (st_bind_Some _ _ _ _ _ E1). exists false, s'. split_and!; try done; by rewrite ?Hb', ?Hw'.
  - repeat (apply elem_of_cons in Hty as [->|Hty]; [apply Hstay; intros _; apply other_justified; set_solver|]).
    by apply not_elem_of_nil in Hty.
Qed.

Lemma np_mono D (s s' : em) e : estep D s s' -> np s e = true -> np s' e = true.
Proof.
  intros Hs Hn. unfold np, nonpending in *. destruct (body s !! e) as [x|] eqn:Hx; [|done].
  destruct (es_ev _ _ _ Hs e x Hx) as (v & -> & Hv). rewrite bool_decide_eq_true in Hn |- *. cbn. destruct Hv as [->|[_ ?]]; done.
Qed.

Lemma asm_event_ok n t (s : em) e x : acond n t s -> body s !! e = Some x -> wf s x -> timed_ok now x ->
  exists s', asm_event PTH_NSIG now func t (Some e) s = Some (tt, s') /\ astep (eq e) s s' /\ fb_ok n (em_b s') /\ timer_ok s' /\
    (em_any s' = true <-> em_any s = true \/ (np s e = false /\ np s' e = true)) /\
    (forall x', body s' !! e = Some x' -> justified s' x').
Proof.
  intros Hc Hx Hwf Htd. unfold asm_event. rewrite (st_bind_Some _ _ _ _ _ (x_em_event s e x Hx)).
  bcase (ev_status x = PTH_STATUS_PENDING) Hp.
  - destruct (asm_check_ok n t s e x Hc Hx Hwf Htd) as (occ & s1 & E1 & Hs1 & Hb1 & Ht1 & Ha1 & He1 & Ho1).
    rewrite (st_bind_Some _ _ _ _ _ E1). assert (Hx1 : body s1 !! e = Some x) by (by rewrite He1).
    assert (Hn : np s e = false) by (rewrite (np_lookup s e x Hx); by apply bool_decide_eq_false_2; intros []).
    destruct occ.
    + rewrite (st_bind_Some _ _ _ _ _ (x_em_status s1 e PTH_STATUS_OCCURRED x Hx1)).
      assert (Hv2 : same_vars s1 (stat PTH_STATUS_OCCURRED e s1) /\ em_mem (stat PTH_STATUS_OCCURRED e s1) = em_mem s1 /\
        w_g (em_w (stat PTH_STATUS_OCCURRED e s1)) = w_g (em_w s1)) by (unfold stat; rewrite Hx1; done).
      destruct Hv2 as (Hv2 & Hm2 & Hg2). assert (Hl2 := stat_lookup s1 e PTH_STATUS_OCCURRED x Hx1).
      assert (Hs2 := stat_estep (eq e) s1 e PTH_STATUS_OCCURRED x Hx1 eq_refl (or_intror Hp)).
      set (s2 := stat PTH_STATUS_OCCURRED e s1) in *.
      assert (Has : astep (eq e) s s2).
      { eapply astep_trans; [by apply Hs1|]. apply astep_timer_same; try done. by rewrite Hm2. }
      exists (set_any true s2). split_and!; try done.
      * eapply astep_trans; [exact Has|]. apply astep_any.
      * change (fb_ok n (em_b s2)). by rewrite (proj1 Hv2).
      * change (timer_ok s2). by eapply timer_ok_same.
      * rewrite (np_lookup (set_any true s2) e _ Hl2), bool_decide_eq_true_2 by done. cbn. tauto.
      * intros x'. change (body (set_any true s2)) with (body s2). rewrite Hl2. intros [= <-] Hpp. done.
    + exists s1. split_and!; try done; [by apply Hs1| |].
      * rewrite Ha1. rewrite (np_lookup s1 e x Hx1), bool_decide_eq_false_2 by (intros []; done). split; [by left|by intros [?|[_ ?]]].
      * intros x'. rewrite Hx1. intros [= <-]. by apply Ho1.
  - exists s. destruct Hc as [C1 C2 C3]. split_and!; try done; [apply astep_refl| |].
    + split; [by left|]. intros [?|[H1 H2]]; congruence.
    + intros x'. rewrite Hx. by intros [= <-] ?.
Qed.

(** A waiting thread whose events have sensible times. *)
Definition timed (s : em) (l : list addr) : Prop := forall e x, e ∈ l -> body s !! e = Some x -> timed_ok now x.
Lemma timed_step D (s s' : em) l : estep D s s' -> timed s l -> timed s' l.
Proof.
  intros Hs Ht e y He Hy. assert (Hd : e ∈ dom (body s)) by (rewrite <- (es_evdom _ _ _ Hs); by apply elem_of_dom).
  apply elem_of_dom in Hd as [x Hx]. destruct (es_ev _ _ _ Hs e x Hx) as (v & Hy' & _). rewrite Hy in Hy'. injection Hy' as ->.
  exact (Ht e x He Hx).
Qed.
Definition all_justified (s : em) (l : list addr) : Prop := forall e x, e ∈ l -> body s !! e = Some x -> justified s x.

Lemma just_step D (s s' : em) a l : astep D s s' -> waiter s a l -> all_justified s l -> all_justified s' l.
Proof.
  intros Hs Hwt Hj e y He Hy. assert (Hd : e ∈ dom (body s)) by (rewrite <- (es_evdom _ _ _ (as_e _ _ _ Hs)); by apply elem_of_dom).
  apply elem_of_dom in Hd as [x Hx]. destruct (es_ev _ _ _ (as_e _ _ _ Hs) e x Hx) as (v & Hy' & Hv). rewrite Hy in Hy'. injection Hy' as ->.
  intros Hp. cbn in Hp. subst v. assert (Hpx : ev_status x = PTH_STATUS_PENDING) by (destruct Hv as [<-|[_ ?]]; done).
  assert (Hex : set_status PTH_STATUS_PENDING x = x) by (rewrite <- Hpx; apply set_status_id). rewrite Hex in *.
  eapply justified_step; [exact Hs|by eapply (wt_wf _ _ _ Hwt)|by eapply Hj|done].
Qed.

(** A status that differs was changed by the step. *)
Lemma np_changed (D : addr -> Prop) (s s' : em) e : estep D s s' -> is_Some (body s !! e) -> np s e = false -> np s' e = true -> D e.
Proof.
  intros Hs [x Hx] H1 H2. destruct (es_ev _ _ _ Hs e x Hx) as (v & Hy & [->|[? _]]); [|done].
  rewrite (np_lookup s e x Hx) in H1. rewrite (np_lookup s' e _ Hy) in H2. cbn in H2. congruence.
Qed.
(** What looking at the events [l] found. *)
Definition found (s s' : em) (l : list addr) : Prop := exists e, e ∈ l /\ np s e = false /\ np s' e = true.

Lemma found_trans (D1 D2 : addr -> Prop) (s s1 s2 : em) l1 l2 : estep D1 s s1 -> estep D2 s1 s2 ->
  (forall e, D1 e -> e ∈ l1) -> (forall e, D2 e -> e ∈ l2) -> (forall e, e ∈ l1 ++ l2 -> is_Some (body s !! e)) ->
  found s s2 (l1 ++ l2) <-> found s s1 l1 \/ found s1 s2 l2.
Proof.
  intros H1 H2 HD1 HD2 Hb. split.
  - intros (e & He & Hn & Hn2). destruct (np s1 e) eqn:E1.
    + left. exists e. split; [|done]. apply HD1. eapply np_changed; [exact H1|by apply Hb|done|done].
    + right. exists e. split; [|done]. apply HD2. eapply (np_changed D2 s1 s2); [exact H2| |done|done].
      rewrite <- elem_of_dom, (es_evdom _ _ _ H1). by apply elem_of_dom, Hb.
  - intros [(e & He & Hn & Hn1)|(e & He & Hn & Hn1)]; exists e; (split; [apply elem_of_app; auto|]); split; try done.
    + by eapply np_mono.
    + destruct (np s e) eqn:E1; [|done]. assert (np s1 e = true) by (by eapply np_mono). congruence.
Qed.

Lemma asm_thread_ok n a (s : em) l x : acond n a s -> waiter s a l -> timed s l -> w_tcb (em_w s) !! a = Some x ->
  exists s', asm_thread PTH_NSIG now func a s = Some (tt, s') /\ astep (fun e => e ∈ l) s s' /\ fb_ok n (em_b s') /\ timer_ok s' /\
    (em_any s' = true <-> em_any s = true \/ t_cancelreq x = true \/ found s s' l) /\ all_justified s' l.
Proof.
  intros [Hb Ht Htm] Hwt Htd Hx. destruct (wt_tcb _ _ _ Hwt) as (x' & Hx' & He). rewrite Hx in Hx'. injection Hx' as <-.
  unfold asm_thread. rewrite (st_bind_Some _ _ s x s) by (apply x_on_w_rd; by apply x_rd_tcb).
  set (g1 := set_sigs (g_sigpending (w_g (em_w s))) (unblock PTH_NSIG (t_sigs x) (g_sigblock (w_g (em_w s))))
    (g_sigcatch (w_g (em_w s))) (g_sigraised (w_g (em_w s))) (w_g (em_w s))).
  set (s0 := set_w (set_g g1 (em_w s)) s).
  rewrite (st_bind_Some _ _ s tt s0) by done.
  assert (Hs0 : astep (fun e => e ∈ l) s s0).
  { constructor; try done; [apply estep_quiet; try done; [by do 4 eexists|by left]| |by left].
    intros sig [H1 H2]. split; [done|]. cbn. unfold unblock. revert H2. generalize (g_sigblock (w_g (em_w s))).
    generalize (all_sigs PTH_NSIG). induction l0 as [|sg l0 IH]; intros b Hni; [done|]. cbn [foldl]. apply IH.
    destruct (negb _); [set_solver|done]. }
  set (s1 := if t_cancelreq x then set_any true s0 else s0).
  rewrite (st_bind_Some _ _ s0 tt s1) by (unfold s1; by destruct (t_cancelreq x)).
  assert (Hs1 : astep (fun e => e ∈ l) s s1).
  { unfold s1. destruct (t_cancelreq x); [|done]. eapply astep_trans; [exact Hs0|]. apply astep_any. }
  assert (Ha1 : em_any s1 = true <-> em_any s = true \/ t_cancelreq x = true).
  { unfold s1. destruct (t_cancelreq x); cbn; intuition congruence. }
  assert (Hb1 : fb_ok n (em_b s1) /\ timer_ok s1) by (unfold s1; by destruct (t_cancelreq x)). destruct Hb1 as [Hb1 Ht1].
  assert (Hnp1 : forall e, np s1 e = np s e) by (intros e; unfold s1; by destruct (t_cancelreq x)).
  destruct l as [|e l]; cbn [head] in He.
  - rewrite bool_decide_eq_true_2 by done. exists s1. split_and!; try done.
    + rewrite Ha1. split; [tauto|]. intros [?|[?|(e & He' & _)]]; [tauto|tauto|by apply not_elem_of_nil in He'].
    + by intros e x0 ?%not_elem_of_nil.
  - rewrite bool_decide_eq_false_2 by (by rewrite He). rewrite (st_bind_Some get_st _ s1 s1 s1 eq_refl), He.
    assert (Hr := wt_ring _ _ _ Hwt ltac:(done)). assert (Hr1 : e_links (w_ev (em_w s1)) = e_links (w_ev (em_w s)))
      by (unfold s1; by destruct (t_cancelreq x)).
    destruct (ring_loop_ok (asm_event PTH_NSIG now func a) (fun pre s2 => astep (fun e0 => e0 ∈ pre) s1 s2 /\ fb_ok n (em_b s2) /\ timer_ok s2 /\
        (em_any s2 = true <-> em_any s1 = true \/ found s1 s2 pre) /\ all_justified s2 pre)
        (e_links (w_ev (em_w s))) (e :: l) (er_cyc _ _ Hr)) with (post := l) (pre := @nil addr) (a := e)
        (s := s1) (fuel := ring_fuel s1) as (s2 & E2 & Hs2 & Hb2 & Ht2 & Ha2 & Hj2); try done.
    + intros pre s2 (A & _). rewrite (es_links _ _ _ (as_e _ _ _ A)). exact Hr1.
    + intros pre e1 post s2 Heq (A1 & A2 & A3 & A4 & A5).
      assert (Hin : e1 ∈ e :: l) by (rewrite Heq; apply elem_of_app; right; by left).
      assert (Hss2 : astep (fun e0 => e0 ∈ e :: l) s s2).
      { eapply astep_trans; [exact Hs1|]. eapply astep_mono; [|exact A1]. intros e0 H0. rewrite Heq. apply elem_of_app. by left. }
      assert (Hwt2 := estep_waiter _ _ _ _ _ (as_e _ _ _ Hss2) Hwt).
      destruct (er_body _ _ (wt_ring _ _ _ Hwt2 ltac:(done)) e1 Hin) as [y Hy].
      assert (Hc2 : acond n a s2) by (constructor; try done; destruct (wt_tcb _ _ _ Hwt2) as (z & Hz & _); by eexists).
      destruct (asm_event_ok n a s2 e1 y Hc2 Hy) as (s3 & E3 & Hs3 & Hb3 & Ht3 & Ha3 & Hj3).
      { by eapply (wt_wf _ _ _ Hwt2). } { by eapply (timed_step _ _ _ _ (as_e _ _ _ Hss2) Htd). }
      exists s3. split; [done|]. split_and!; try done.
      * eapply astep_trans; [eapply astep_mono; [|exact A1]|eapply astep_mono; [|exact Hs3]].
        { intros e0 H0. apply elem_of_app. by left. } { intros e0 <-. apply elem_of_app. right. by left. }
      * rewrite Ha3, A4. rewrite (found_trans (fun e0 => e0 ∈ pre) (eq e1) s1 s2 s3 pre [e1] (as_e _ _ _ A1) (as_e _ _ _ Hs3)); [|done| |].
        { assert (Hf : found s2 s3 [e1] <-> np s2 e1 = false /\ np s3 e1 = true).
          { split; [intros (e0 & ->%list_elem_of_singleton & ?); done|intros ?; exists e1; split; [by left|done]]. }
          rewrite Hf. tauto. }
        { intros e0 <-. by left. }
        { intros e0 H0. assert (He0 : e0 ∈ e :: l) by (rewrite Heq; set_solver).
          destruct (er_body _ _ Hr e0 He0) as [z Hz]. destruct (es_ev _ _ _ (as_e _ _ _ Hs1) e0 z Hz) as (v & Hv & _). by eexists. }
      * intros e0 x0 [H0|H0%list_elem_of_singleton]%elem_of_app Hx0; [|subst e0; by apply Hj3].
        assert (Hwt3 : forall e2 y2, e2 ∈ pre -> body s2 !! e2 = Some y2 -> wf s2 y2).
        { intros e2 y2 H2. apply (wt_wf _ _ _ Hwt2). rewrite Heq. apply elem_of_app. by left. }
        assert (Hd : e0 ∈ dom (body s2)) by (rewrite <- (es_evdom _ _ _ (as_e _ _ _ Hs3)); by apply elem_of_dom).
        apply elem_of_dom in Hd as [z Hz]. destruct (es_ev _ _ _ (as_e _ _ _ Hs3) e0 z Hz) as (v & Hv & Hvv).
        rewrite Hx0 in Hv. injection Hv as ->. intros Hp. cbn in Hp. subst v.
        assert (Hpz : ev_status z = PTH_STATUS_PENDING) by (destruct Hvv as [<-|[_ ?]]; done).
        assert (Hex : set_status PTH_STATUS_PENDING z = z) by (rewrite <- Hpz; apply set_status_id). rewrite Hex.
        eapply justified_step; [exact Hs3|by eapply Hwt3|by eapply A5|done].
    + apply (er_nodup _ _ Hr).
    + split_and!; try done; [apply astep_refl| |].
      * split; [by left|]. intros [?|(e0 & H0 & _)]; [done|by apply not_elem_of_nil in H0].
      * by intros e0 x0 ?%not_elem_of_nil.
    + assert (Hlen := ring_fuel_enough s (e :: l) Hr). cbn in Hlen. assert (Hrf : ring_fuel s1 = ring_fuel s) by (unfold s1; by destruct (t_cancelreq x)).
      lia.
    + exists s2. split_and!; try done.
      * eapply astep_trans; [exact Hs1|exact Hs2].
      * rewrite Ha2, Ha1. assert (Hf : found s1 s2 (e :: l) <-> found s s2 (e :: l)).
        { unfold found. split; intros (e0 & H0 & H1 & H2); exists e0; by rewrite Hnp1 in *. }
        rewrite Hf. tauto.
Qed.

Definition cancel_of (s : em) (a : addr) : bool := match w_tcb (em_w s) !! a with Some x => t_cancelreq x | None => false end.
Lemma cancel_step D (s s' : em) a : estep D s s' -> is_Some (w_tcb (em_w s) !! a) -> cancel_of s' a = cancel_of s a.
Proof. intros Hs [x Hx]. destruct (es_tcb _ _ _ Hs a x Hx) as (S & k & Hy). unfold cancel_of. by rewrite Hx, Hy. Qed.

(** The events of all threads of a queue. *)
Definition events_of (R : addr -> list addr) (l : list (addr * Z)) : list addr := (l.*1 ≫= R).
Lemma events_of_in R l e : e ∈ events_of R l <-> exists a, a ∈ l.*1 /\ e ∈ R a.
Proof.
  unfold events_of. rewrite list_elem_of_bind. split; intros (a & ? & ?); by exists a.
Qed.

Lemma asm_loop_ok n (R : addr -> list addr) rest : forall kept (s : em) Q L fuel,
  winv (em_w s) Q L -> Q WQ = kept ++ rest -> fb_ok n (em_b s) -> timer_ok s ->
  (forall a, a ∈ rest.*1 -> waiter s a (R a) /\ timed s (R a)) -> (length rest <= fuel)%nat ->
  exists s', asm_loop PTH_NSIG fuel now func (head rest.*1) s = Some (tt, s') /\
    astep (fun e => e ∈ events_of R rest) s s' /\ fb_ok n (em_b s') /\ timer_ok s' /\
    (em_any s' = true <-> em_any s = true \/ (exists a, a ∈ rest.*1 /\ cancel_of s a = true) \/ found s s' (events_of R rest)) /\
    (forall a, a ∈ rest.*1 -> all_justified s' (R a)).
Proof.
  induction rest as [|[a p] rest IH]; intros kept s Q L fuel Hw HQ Hb Htm HR Hf.
  - exists s. assert (E0 : asm_loop PTH_NSIG fuel now func (head ([] : list (addr * Z)).*1) s = Some (tt, s)) by (by destruct fuel).
    split; [exact E0|]. split; [apply astep_refl|]. split; [done|]. split; [done|]. split.
    + split; [by left|]. intros [?|[(a & Ha & _)|(e & He & _)]]; [done|by apply not_elem_of_nil in Ha|by apply not_elem_of_nil in He].
    + by intros a ?%not_elem_of_nil.
  - destruct (HR a ltac:(cbn; by left)) as [Hwa Hta]. destruct (wt_tcb _ _ _ Hwa) as (x & Hx & _).
    destruct (asm_thread_ok n a s (R a) x) as (s1 & E1 & Hs1 & Hb1 & Ht1 & Ha1 & Hj1); try done.
    assert (Hw1 := estep_winv self G E _ _ _ Q L (as_e _ _ _ Hs1) Hw).
    destruct fuel as [|fuel]; [cbn in Hf; lia|].
    assert (En : on_w (on_q (qo_walk WQ (Some a) WALK_NEXT)) s1 = Some (head rest.*1, s1)).
    { apply x_on_w_rd. rewrite (x_on_q _ (em_w s1) _ _ (q_walk_ok _ _ _ WQ kept a p rest (ti_q _ _ _ _ _ (wi_t _ _ _ _ _ _ Hw1)) HQ)).
      by destruct (em_w s1). }
    destruct (IH (kept ++ [(a, p)]) s1 Q L fuel Hw1) as (s2 & E2 & Hs2 & Hb2 & Ht2 & Ha2 & Hj2); try done.
    { by rewrite <- app_assoc. }
    { intros b Hbr. destruct (HR b ltac:(cbn; by right)) as [? ?]. split; [by eapply estep_waiter; [apply (as_e _ _ _ Hs1)|]|].
      by eapply timed_step; [apply (as_e _ _ _ Hs1)|]. }
    { cbn in Hf. lia. }
    exists s2. split; [|split; [|split; [done|split; [done|split]]]].
    + cbn [head fmap list_fmap fst asm_loop]. by rewrite (st_bind_Some _ _ _ _ _ E1), (st_bind_Some _ _ _ _ _ En).
    + eapply astep_trans; (eapply astep_mono; [|exact Hs1 || exact Hs2]); intros e He; unfold events_of in *; cbn;
        apply elem_of_app; [by left|by right].
    + rewrite Ha2, Ha1. change (events_of R ((a, p) :: rest)) with (R a ++ events_of R rest).
      rewrite (found_trans (fun e => e ∈ R a) (fun e => e ∈ events_of R rest) s s1 s2 _ _ (as_e _ _ _ Hs1) (as_e _ _ _ Hs2)); [|done|done|].
      * assert (Hcan : (exists b, b ∈ ((a, p) :: rest).*1 /\ cancel_of s b = true) <-> t_cancelreq x = true \/ exists b, b ∈ rest.*1 /\ cancel_of s1 b = true).
        { assert (Hca : cancel_of s a = t_cancelreq x) by (unfold cancel_of; by rewrite Hx).
          assert (Hcb : forall b, b ∈ rest.*1 -> cancel_of s1 b = cancel_of s b).
          { intros b Hbr. destruct (wt_tcb _ _ _ (proj1 (HR b ltac:(cbn; by right)))) as (y & Hy & _).
            eapply cancel_step; [apply (as_e _ _ _ Hs1)|by eexists]. }
          split.
          - intros (b & Hbr & Hc). cbn in Hbr. apply elem_of_cons in Hbr as [->|Hbr]; [left; congruence|right; exists b]. by rewrite Hcb.
          - intros [Hc|(b & Hbr & Hc)]; [exists a; split; [cbn; by left|congruence]|exists b; split; [cbn; by right|]]. by rewrite <- Hcb. }
        rewrite Hcan. tauto.
      * intros e [He|He]%elem_of_app; [by apply (waiter_events s a (R a) Hwa)|]. apply events_of_in in He as (b & Hbr & He).
        apply (waiter_events s b (R b)); [|done]. apply HR. cbn. by right.
    + intros b Hbr. cbn in Hbr. apply elem_of_cons in Hbr as [->|Hbr]; [|by apply Hj2].
      eapply just_step; [exact Hs2|eapply estep_waiter; [apply (as_e _ _ _ Hs1)|exact Hwa]|exact Hj1].
Qed.

Lemma assemble_ok n (R : addr -> list addr) (s : em) Q L :
  winv (em_w s) Q L -> fb_ok n (em_b s) ->
  (forall a, in_q Q WQ a -> waiter s a (R a) /\ timed s (R a)) ->
  exists s', assemble PTH_NSIG now func s = Some (tt, s') /\ estep (fun e => e ∈ events_of R (Q WQ)) s s' /\ fb_ok n (em_b s') /\ timer_ok s' /\
    (em_any s' = true <-> (exists a, in_q Q WQ a /\ cancel_of s a = true) \/ found s s' (events_of R (Q WQ))) /\
    (forall a, in_q Q WQ a -> all_justified s' (R a)) /\ (forall e, em_tev s' = Some e -> e ∈ events_of R (Q WQ)).
Proof.
  intros Hw Hb HR. assert (Hi := ti_q _ _ _ _ _ (wi_t _ _ _ _ _ _ Hw)). unfold assemble.
  set (s1 := set_w (set_g (set_sigs (w_os (em_w s)) (list_to_set (all_sigs PTH_NSIG)) ∅ ∅ (w_g (em_w s))) (em_w s)) s).
  rewrite (st_bind_Some _ _ s tt s1) by done.
  set (s2 := set_timer NULL NULL pth_time_zero s1). rewrite (st_bind_Some _ _ s1 tt s2) by done.
  set (s3 := set_any false s2). rewrite (st_bind_Some _ _ s2 tt s3) by done.
  rewrite (st_bind_Some get_st _ s3 s3 s3 eq_refl).
  assert (Hs3 : forall D, estep D s s3).
  { intros D. apply estep_quiet; try done; [by do 4 eexists|by left]. }
  assert (Hw3 := estep_winv self G E _ _ _ Q L (Hs3 (fun _ => False)) Hw).
  change (w_q (em_w s3)) with (w_q (em_w s)).
  rewrite (q_elements_ok _ _ _ WQ Hi), (q_head_ok _ _ _ WQ Hi), Nat2Z.id.
  destruct (asm_loop_ok n R (Q WQ) [] s3 Q L (length (Q WQ)) Hw3 eq_refl Hb) as (s' & E1 & Hs' & Hb' & Ht' & Ha' & Hj'); [|..].
  - split; [done|]. by intros [].
  - intros a Ha. destruct (HR a Ha) as [? ?]. specialize (Hs3 (fun _ => False)). split; [by eapply estep_waiter|by eapply timed_step].
  - lia.
  - exists s'. split_and!; try done.
    + eapply estep_trans; [apply Hs3|apply (as_e _ _ _ Hs')].
    + rewrite Ha'. change (em_any s3) with false. split; [intros [?|?]; done|by right].
    + intros e He. destruct (as_tev _ _ _ Hs') as [Ht|(e' & Ht & HD)]; [by rewrite Ht in He|]. congruence.
Qed.

(** C14: before it waits, the event manager has looked at every event of every
    waiting thread. Each one that is still pending is justified: its
    descriptors are watched, its signals are caught and not blocked, its time
    has not come and is not before the next timer, its port is empty, its
    thread is in another state, its function failed and is rechecked by the
    next timer. The flag that makes the wait a poll is set exactly when a
    thread has a cancellation request or an event was found to have occurred.
    Threads and queues are left alone. *)
Theorem assemble_correct n (R : addr -> list addr) (s : em) Q L :
  winv (em_w s) Q L -> fb_ok n (em_b s) ->
  (forall a, in_q Q WQ a -> waiter s a (R a) /\ timed s (R a)) ->
  exists s', assemble PTH_NSIG now func s = Some (tt, s') /\ winv (em_w s') Q L /\ fb_ok n (em_b s') /\
    (forall a e x, in_q Q WQ a -> e ∈ R a -> body s' !! e = Some x -> justified s' x) /\
    (em_any s' = true <-> (exists a, in_q Q WQ a /\ cancel_of s a = true) \/
       (exists a e, in_q Q WQ a /\ e ∈ R a /\ np s e = false /\ np s' e = true)) /\
    (forall e x, body s !! e = Some x -> exists v, body s' !! e = Some (set_status v x) /\
       (v = ev_status x \/ (ev_status x = PTH_STATUS_PENDING /\ exists a, in_q Q WQ a /\ e ∈ R a))) /\
    (em_tev s' <> NULL -> near now (em_tval s')).
Proof.
  intros Hw Hb HR. destruct (assemble_ok n R s Q L Hw Hb HR) as (s' & E1 & Hs' & Hb' & Ht' & Ha' & Hj' & _).
  exists s'. split; [exact E1|]. split; [by eapply estep_winv|]. split; [done|]. split; [|split; [|split]].
  - intros a e x Ha. by apply Hj'.
  - rewrite Ha'. unfold found. split; (intros [?|Hx]; [by left|right]).
    + destruct Hx as (e & (a & ? & ?)%events_of_in & ? & ?). by exists a, e.
    + destruct Hx as (a & e & ? & ? & ? & ?). exists e. split; [apply events_of_in; by exists a|done].
  - intros e x Hx. destruct (es_ev _ _ _ Hs' e x Hx) as (v & Hy & Hv). exists v. split; [done|].
    destruct Hv as [?|[(a & Ha & He)%events_of_in Hp]]; [by left|right]. split; [done|]. by exists a.
  - apply Ht'.
Qed.
End asm.

(** Thread 13 waits for a time that has not come. *)
Lemma assemble_correct_witness : exists (s s' : emst queues dstate pollset) x,
  assemble 32 (Tv 50 0) (fun _ _ => false) s = Some (tt, s') /\
  e_body (w_ev (em_w s')) !! 21%positive = Some x /\ ev_type x = PTH_EVENT_TIME /\ justified 32 (Tv 50 0) (fun _ _ => false) s' x.
Proof.
  destruct wait_inv as [q Hq].
  assert (Hnow : near (Tv 50 0) (Tv 50 0)) by (split; cbn; lia).
  destruct (assemble_correct 1 demo_G demo_E 32 (Tv 50 0) (fun _ _ => false) Hnow 1%nat wait_ring (wait_em q) demo_Q _ Hq)
    as (s' & E1 & _ & _ & Hj & _ & Hev & _).
  - split; [done|]. vm_compute. lia.
  - intros a Hin. split; [by apply wait_waiter|]. intros e x He Hx. unfold in_q in Hin. cbn in Hin.
    apply list_elem_of_singleton in Hin as ->. unfold wait_ring in He.
    apply elem_of_cons in He as [->|He%list_elem_of_singleton]; [|subst e]; cbn in Hx; injection Hx as <-; [done|].
    split; cbn; lia.
  - destruct (Hev 21%positive _ eq_refl) as (v & Hx & _). eexists (wait_em q), s', _.
    split; [exact E1|]. split; [exact Hx|]. split; [reflexivity|].
    apply (Hj 13%positive 21%positive); [unfold in_q; cbn; by left|unfold wait_ring; right; by left|exact Hx].
Defined.

(** ** The timeout *)

(** C40: the timeout of the wait is right. A poll has timeout zero, a wait
    without timer has none; for a timer in less than 2147483 seconds it is the
    time until the timer in milliseconds, rounded up: the wait ends neither
    before the timer nor a millisecond after it. *)
Theorem poll_timeout_correct now v :
  normal now -> sane now -> near now v -> 0 <= usecs v - usecs now < 2147483 * 1000000 ->
  (forall d, poll_timeout true d = 0) /\ poll_timeout false None = -1 /\
  let t := poll_timeout false (Some (pth_time_sub v now)) in
  0 <= t /\ 1000 * (t - 1) < usecs v - usecs now <= 1000 * t.
Proof.
  unfold normal, sane, near, usecs. intros Hn Hs Hv Hd. split; [done|]. split; [done|]. cbv zeta.
  assert (Hd' : exists ds du, pth_time_sub v now = Tv ds du /\ 0 <= du <= 1000000 /\
    ds * 1000000 + du = tv_sec v * 1000000 + tv_usec v - (tv_sec now * 1000000 + tv_usec now)).
  { unfold pth_time_sub. cbv zeta. fits.
    destruct (Z.ltb_spec (tv_usec v - tv_usec now) 0); fits; eexists _, _; (split; [reflexivity|lia]). }
  destruct Hd' as (ds & du & -> & Hdu & Hds). unfold poll_timeout. cbn [tv_sec tv_usec].
  assert (Hq : Z.quot (du + 999) 1000 = (du + 999) / 1000) by (apply Z.quot_div_nonneg; lia).
  assert (Hdiv := Z.div_mod (du + 999) 1000 ltac:(lia)). assert (Hmod := Z.mod_pos_bound (du + 999) 1000 ltac:(lia)).
  fits. rewrite Hq. set (k := (du + 999) / 1000) in *. fits.
  destruct (Z.ltb_spec (ds * 1000 + k) 0); lia.
Qed.
Lemma poll_timeout_correct_witness : let t := poll_timeout false (Some (pth_time_sub (Tv 100 1) (Tv 50 999999))) in
  0 <= t /\ 1000 * (t - 1) < usecs (Tv 100 1) - usecs (Tv 50 999999) <= 1000 * t.
Proof. apply poll_timeout_correct; unfold normal, sane, near, usecs; cbn; lia. Defined.

(** A timer in 25 days is not waited for: the conversion to [int] makes the
    timeout negative, and it becomes zero. *)
Lemma poll_timeout_wraps : poll_timeout false (Some (Tv 2147484 0)) = 0.
Proof. reflexivity. Qed.
