(* ===== verification/Evpass.v ===== *)
(** * A whole pass of the event manager

    The parts of a pass together: the first drain of the inbox, looking at the
    events, the wait, during which signals and messages arrive, the second
    drain, the timer, and waking the threads. The messages of a pass here are
    wakeups, spawned threads and stop requests. *)

From stdpp Require Import base numbers gmap list.
From S2P Require Import Prelude Links Pqueue Timeval Msg Waitq Clean Util Event Inbox Queues World Thread Demo.
From S2P Require Import Sched Evman Evstep Pollset Evdemo Evcleanup Evassemble.
Open Scope Z_scope.

Definition mild (m : gbody) : Prop :=
  match g_kind m with PTH_GMSG_WAKE | PTH_GMSG_SPAWN | PTH_GMSG_STOP => True | _ => False end.

Section pass.
Context {H U B : Type} `{!QueueOps H, !QueueLaws H, !CleanupOps H U, !PortOps U, !FdBackend B, !FdBackendLaws B}.
Context (self : addr) (G E : gset addr) `{!CleanupLaws H U self G E}.
Context (malloc : gset addr -> ptr).
Abbreviation wd := (world H U).
Abbreviation em := (emst H U B).
Abbreviation tinv := (tinv self G).
Abbreviation winv := (winv self G E).
Abbreviation body s := (e_body (w_ev (em_w s))).

(** ** What the other steps of a pass do to waiting threads

    Threads may get another state, events may occur; the rings, the user's
    state and the threads remain. *)
Record wmild (w w' : wd) : Prop := {
  wm_user : w_user w' = w_user w;
  wm_sched : g_scheduler (w_g w') = g_scheduler (w_g w);
  wm_links : e_links (w_ev w') = e_links (w_ev w);
  wm_evdom : dom (e_body (w_ev w')) = dom (e_body (w_ev w));
  wm_ev : forall a x, e_body (w_ev w) !! a = Some x -> exists v,
    e_body (w_ev w') !! a = Some (set_status v x) /\ (v = ev_status x \/ v = PTH_STATUS_OCCURRED);
  wm_dom : dom (w_tcb w') = dom (w_tcb w);
  wm_tcb : forall t x, w_tcb w !! t = Some x -> exists v, w_tcb w' !! t = Some (set_state v x)
}.

Lemma set_state_id x : set_state (t_state x) x = x.
Proof. by destruct x. Qed.
(** A step that is not about threads and events. *)
Lemma wmild_same (w w' : wd) : w_user w' = w_user w -> g_scheduler (w_g w') = g_scheduler (w_g w) -> w_ev w' = w_ev w -> w_tcb w' = w_tcb w -> wmild w w'.
Proof.
  intros Hu Hs He Ht. constructor; rewrite ?He, ?Ht; try done.
  - intros a x Hx. exists (ev_status x). rewrite set_status_id. auto.
  - intros t x Hx. exists (t_state x). by rewrite set_state_id.
Qed.
Lemma wmild_refl w : wmild w w.
Proof. by apply wmild_same. Qed.
Lemma wmild_trans w1 w2 w3 : wmild w1 w2 -> wmild w2 w3 -> wmild w1 w3.
Proof.
  intros [A1 A2 A3 A4 A5 A6 A7] [B1 B2 B3 B4 B5 B6 B7]. constructor; try congruence.
  - intros a x Hx. destruct (A5 a x Hx) as (v & Hy & Hv). destruct (B5 a _ Hy) as (v' & Hz & Hv').
    exists v'. split; [exact Hz|]. destruct Hv' as [->|?]; [done|by right].
  - intros t x Hx. destruct (A7 t x Hx) as (v & Hy). destruct (B7 t _ Hy) as (v' & Hz). by exists v'.
Qed.
(** One event occurs. *)
Lemma wmild_occur (w : wd) a x : e_body (w_ev w) !! a = Some x -> wmild w (set_ev (Evst (e_links (w_ev w))
  (<[a := set_status PTH_STATUS_OCCURRED x]> (e_body (w_ev w))) (e_keys (w_ev w)) (e_keyvar (w_ev w))) w).
Proof.
  intros Hx. constructor; cbn; try done.
  - by rewrite dom_insert_lookup_L.
  - intros b y Hy. destruct (decide (b = a)) as [->|Hne].
    + simplify_eq. eexists. rewrite lookup_insert_eq. auto.
    + exists (ev_status y). rewrite lookup_insert_ne by done. rewrite set_status_id. auto.
  - intros t y Hy. exists (t_state y). by rewrite set_state_id.
Qed.

Lemma wmild_waiter (s : em) (w' : wd) a l : wmild (em_w s) w' -> waiter s a l -> waiter (set_w w' s) a l.
Proof.
  intros Hm [(x & Hx & He) Hr Hwf]. constructor; cbn [set_w em_w em_mem].
  - destruct (wm_tcb _ _ Hm a x Hx) as (v & Hy). by eexists.
  - intros Hl. destruct (Hr Hl) as [Hc Hn Hb]. constructor; [by rewrite (wm_links _ _ Hm)|done|].
    intros e Hel. rewrite <- elem_of_dom, (wm_evdom _ _ Hm). by apply elem_of_dom, Hb.
  - intros e y Hel Hy. assert (Hd : e ∈ dom (body s)) by (rewrite <- (wm_evdom _ _ Hm); by apply elem_of_dom).
    apply elem_of_dom in Hd as [z Hz]. destruct (wm_ev _ _ Hm e z Hz) as (v & Hy' & _). rewrite Hy in Hy'. injection Hy' as ->.
    assert (Hwz := Hwf e z Hel Hz). rewrite (wm_dom _ _ Hm), (wm_user _ _ Hm). destruct Hwz; cbn; by constructor.
Qed.
Lemma wmild_np (s : em) (w' : wd) e : wmild (em_w s) w' -> np s e = true -> np (set_w w' s) e = true.
Proof.
  intros Hm Hn. unfold np, nonpending in *. cbn [set_w em_w]. destruct (body s !! e) as [x|] eqn:Hx; [|done].
  destruct (wm_ev _ _ Hm e x Hx) as (v & -> & Hv). rewrite bool_decide_eq_true in Hn |- *. cbn. by destruct Hv as [->| ->].
Qed.
Lemma wmild_timed now (s : em) (w' : wd) l : wmild (em_w s) w' -> timed now s l -> timed now (set_w w' s) l.
Proof.
  intros Hm Ht e y Hel Hy. cbn [set_w em_w] in Hy. assert (Hd : e ∈ dom (body s)) by (rewrite <- (wm_evdom _ _ Hm); by apply elem_of_dom).
  apply elem_of_dom in Hd as [z Hz]. destruct (wm_ev _ _ Hm e z Hz) as (v & Hy' & _). rewrite Hy in Hy'. injection Hy' as ->.
  exact (Ht e z Hel Hz).
Qed.

(** ** A drain of such messages *)

(** The queues of ready and of waiting threads stay. *)
Definition same_run (Q Q' : qlists) : Prop := Q' RQ = Q RQ /\ Q' WQ = Q WQ.

Lemma mild_step (w : wd) Q S T m :
  winv w Q (T ∪ S) -> T ## S -> events_ok E (w_ev w) -> msg_ok E Q T m -> mild m ->
  exists w' Q' T', drain_msg self malloc m w = Some (tt, w') /\ winv w' Q' (T' ∪ S) /\ mstep self G E m w w' Q Q' T T' /\
    wmild w w' /\ w_inb w' = w_inb w /\ same_run Q Q'.
Proof.
  intros Hw Hd Hev Hm Hmild. assert (Hi := wi_t _ _ _ _ _ _ Hw). unfold msg_ok in Hm. unfold drain_msg.
  destruct m as [kd th ev sg]. cbn [g_kind g_thread g_event g_sig] in *. destruct kd; try done.
  - destruct ev as [a|].
    + rewrite bool_decide_eq_true_2 by done. destruct (Hev a (Hm a eq_refl)) as [x Hx].
      unfold mark_occurred, on_ev, zoom, mbind, st_bind. rewrite (x_rd_event _ a x Hx). cbn [set_ev w_ev].
      rewrite (x_wr_event _ a _ x Hx). eexists _, Q, T. split; [reflexivity|]. split_and!; [| |exact (wmild_occur w a x Hx)|done|done].
      * eapply winv_same; [exact Hw|by eapply tinv_other; [..|exact Hi]|done|done].
      * constructor; cbn; try done.
        { intros b y Hb Hy. cbn [e_body]. destruct (decide (b = a)) as [->|Hne].
          - exists (set_status PTH_STATUS_OCCURRED x). rewrite lookup_insert_eq. by simplify_eq.
          - exists y. by rewrite lookup_insert_ne. }
        { intros _ b [= <-]. eexists. cbn. by rewrite lookup_insert_eq. }
        { apply inb_ext_refl. }
    + rewrite bool_decide_eq_false_2 by tauto. exists w, Q, T. split_and!; [done|done| |apply wmild_refl|done|done].
      constructor; [done|done|done|done|apply ev_keeps_refl|done|apply inb_ext_refl].
  - destruct Hm as (t & -> & HtT). assert (HtL : t ∈ T ∪ S) by set_solver.
    destruct (ti_loose _ _ _ _ _ Hi t HtL) as (_ & x & Hx & Hxh).
    rewrite (st_bind_Some _ _ _ _ _ (x_upd_tcb w t x _ Hx)).
    set (w1 := set_tcb (<[t := set_state PTH_STATE_NEW x]> (w_tcb w)) w).
    assert (Hx1 : w_tcb w1 !! t = Some (set_state PTH_STATE_NEW x)) by (cbn; by rewrite lookup_insert_eq).
    rewrite (st_bind_Some _ _ _ _ _ (x_rd_tcb w1 t _ Hx1)).
    assert (Hi1 : tinv w1 Q (T ∪ S)) by (eapply tinv_upd; [exact Hi|exact Hx|done|done|by left]).
    destruct (tinv_insert self G w1 Q _ NQ (t_prio (set_state PTH_STATE_NEW x)) t _ Hi1 HtL Hx1 eq_refl) as (q & Eq & Hi2).
    eexists _, (qupd NQ (pq_ins (t_prio x) t (Q NQ)) Q), (T ∖ {[t]}). split; [exact Eq|]. split_and!; [| | |done|done].
    + eapply winv_same; [exact Hw| |done|done]. eapply tinv_set; [|exact Hi2]. set_solver.
    + constructor; [|done|done|done|apply ev_keeps_refl|done|apply inb_ext_refl].
      intros u Hu _. unfold in_q, qupd. by rewrite decide_False.
    + constructor; cbn; try done.
      * intros a y Hy. exists (ev_status y). rewrite set_status_id. auto.
      * by rewrite dom_insert_lookup_L.
      * intros u y Hy. destruct (decide (u = t)) as [->|Hne].
        { simplify_eq. exists PTH_STATE_NEW. by rewrite lookup_insert_eq. }
        { exists (t_state y). rewrite lookup_insert_ne by done. by rewrite set_state_id. }
  - eexists _, Q, T. split_and!; [reflexivity| | |by apply wmild_same|done|done].
    + eapply winv_same; [exact Hw|by eapply tinv_other; [..|exact Hi]|done|done].
    + constructor; [done|by destruct th|done|done|apply ev_keeps_refl|done|apply inb_ext_refl].
Qed.

(** What holds while the messages [ms] are applied. *)
Definition mild_draining (S T : gset addr) (w0 : wd) (Q0 : qlists) (ms rest : list gbody) (w : wd) : Prop :=
  exists dn Q T', ms = dn ++ rest /\ tinv w Q (T' ∪ S) /\ co_ok (w_user w) /\ T' ## S /\ events_ok E (w_ev w) /\
    msgs_ok E Q T' rest /\ Forall mild rest /\ transit T ms = transit T' rest /\ wmild w0 w /\ same_run Q0 Q /\
    (forall m a, m ∈ dn -> g_kind m = PTH_GMSG_WAKE -> g_event m = Some a -> a ∈ E /\ occurred (w_ev w) a).

Lemma mild_draining_step S T w0 Q0 ms m rest (w : wd) l :
  mild_draining S T w0 Q0 ms (m :: rest) w -> inbox_ok G self (w_inb w) l ->
  exists w', drain_msg self malloc m w = Some (tt, w') /\ mild_draining S T w0 Q0 ms rest w' /\ w_inb w' = w_inb w.
Proof.
  intros (dn & Q & T' & Hms & Hi & Hu & Hd & Hev & Hok & Hmi & Htr & Hw0 & [Hr1 Hr2] & Hwk) Hl.
  apply Forall_cons in Hmi as [Hm Hmi].
  destruct (mild_step w Q S T' m) as (w' & Q' & T'' & Em & [Hi' _ Hu'] & Hstep & Hw' & Hinb & [Hr3 Hr4]); try done.
  { constructor; [done|by exists l|done]. } { apply (Forall_inv (mo_each _ _ _ _ Hok)). }
  assert (Hok' := msgs_ok_step self G E _ _ _ _ _ _ _ _ Hok Hstep). destruct Hstep as [_ HT _ _ Hev2 Hwk2 _].
  exists w'. split_and!; try done. exists (dn ++ [m]), Q', T''. rewrite <- app_assoc. split_and!; try done.
  - rewrite HT. destruct (g_kind m), (g_thread m); set_solver.
  - by eapply events_keep.
  - by rewrite Htr, HT.
  - by eapply wmild_trans.
  - split; congruence.
  - intros m' a [Hin| ->%list_elem_of_singleton]%elem_of_app Hk Ha.
    + destruct (Hwk m' a Hin Hk Ha) as [HaE Ho]. split; [done|]. by eapply occurred_keep.
    + split; [|by apply Hwk2]. assert (Hm' := Forall_inv (mo_each _ _ _ _ Hok)). unfold msg_ok in Hm'. rewrite Hk in Hm'. auto.
Qed.

Lemma mild_drain (w : wd) Q T S l :
  winv w Q (T ∪ S) -> T ## S -> events_ok E (w_ev w) -> inbox_ok G self (w_inb w) l ->
  msgs_ok E Q T (rev l.*2) -> Forall mild l.*2 ->
  exists w' Q' T', sched_drain self malloc w = Some (bool_decide (l <> []), w') /\ winv w' Q' (T' ∪ S) /\ T' = transit T (rev l.*2) /\ T' ## S /\
    events_ok E (w_ev w') /\ inbox_ok G self (w_inb w') [] /\ wmild w w' /\ same_run Q Q' /\
    (forall m a, m ∈ l.*2 -> g_kind m = PTH_GMSG_WAKE -> g_event m = Some a -> occurred (w_ev w') a).
Proof.
  intros [Hi _ Hu] Hd Hev Hl Hok Hmi.
  destruct (drain_ok w_inb set_inb (drain_msg self malloc) ltac:(done) G self
    (mild_draining S T w Q (rev l.*2))) with (silent := True) (w := w) (l := l)
    as (w' & own & E' & (dn & Q' & T' & Hms & Hi' & Hu' & Hd' & Hev' & _ & _ & Htr & Hw' & Hr & Hwk) & Hown & Hsil).
  - intros rest h w1 (dn & Q1 & T1 & Hm1 & Hi1 & Hu1 & Hd1 & He1 & Ho1 & Hmi1 & Ht1 & Hw1 & Hrest). exists dn, Q1, T1.
    split_and!; try done; try apply Hrest; [by eapply tinv_other; [..|exact Hi1]|]. eapply wmild_trans; [exact Hw1|by apply wmild_same].
  - intros b rest w1 l1 Hdr Hin. destruct (mild_draining_step _ _ _ _ _ _ _ _ _ Hdr Hin) as (w2 & E2 & Hdr2 & Hinb).
    exists w2, []. rewrite Hinb. split_and!; try done. by intros a ?%not_elem_of_nil.
  - exists [], Q, T. split_and!; try done; [|apply wmild_refl|]; [|by intros m a ?%not_elem_of_nil].
    apply Forall_forall. intros m Hm. rewrite Forall_forall in Hmi. apply Hmi. by rewrite <- Permutation_rev in Hm.
  - done.
  - rewrite app_nil_r in Hms. subst dn. rewrite (Hsil I) in Hown. exists w', Q', T'. split_and!; try done.
    + constructor; [done|by exists []|done].
    + intros m a Hin Hk Ha. apply (Hwk m a); [|done|done]. by rewrite <- Permutation_rev.
Qed.

(** ** Signals and the pipe *)

(** A step that concerns only signals, the pipe and the clock. *)
Record env (w w' : wd) : Prop := {
  en_q : w_q w' = w_q w;
  en_tcb : w_tcb w' = w_tcb w;
  en_wq : w_wq w' = w_wq w;
  en_ev : w_ev w' = w_ev w;
  en_user : w_user w' = w_user w;
  en_sched : g_scheduler (w_g w') = g_scheduler (w_g w);
  en_inb : forall l, inbox_ok G self (w_inb w) l -> inbox_ok G self (w_inb w') l
}.
Lemma env_refl w : env w w.
Proof. by constructor. Qed.
Lemma env_trans w1 w2 w3 : env w1 w2 -> env w2 w3 -> env w1 w3.
Proof. intros [A1 A2 A3 A4 A5 A6 A7] [B1 B2 B3 B4 B5 B6 B7]. constructor; try congruence. auto. Qed.
Lemma env_mild w w' : env w w' -> wmild w w'.
Proof. intros []. by apply wmild_same. Qed.
Lemma env_winv w w' Q L : env w w' -> winv w Q L -> winv w' Q L.
Proof.
  intros [A1 A2 A3 A4 A5 A6 A7] [Hi [l Hl] Hu]. constructor; [by eapply tinv_other|exists l; auto|by rewrite A5].
Qed.

Lemma inbox_pipe h n l : inbox_ok G self h l -> inbox_ok G self (IHeap (i_nodes h) (i_inbox h) (<[self := n]> (i_pipe h))) l.
Proof.
  intros [H1 H2 H3 H4]. constructor; try done. intros o Ho. destruct (H3 o Ho) as [Ha Hb]. split; [done|]. cbn.
  destruct (decide (o = self)) as [->|Hne]; [rewrite lookup_insert_eq; by eexists|by rewrite lookup_insert_ne].
Qed.
Lemma pipe_there h l : inbox_ok G self h l -> is_Some (i_pipe h !! self).
Proof. intros [_ _ H3 H4]. by apply H3. Qed.
Lemma read_pipe_env (w : wd) l : inbox_ok G self (w_inb w) l ->
  exists w', on_inbox (read_pipe self) w = Some (tt, w') /\ env w w'.
Proof.
  intros Hl. destruct (pipe_there _ _ Hl) as [n Hn]. unfold on_inbox, zoom, read_pipe. rewrite Hn. eexists. split; [reflexivity|].
  constructor; try done. intros l'. apply inbox_pipe.
Qed.
Lemma deliver_env l : forall (w : wd) k, inbox_ok G self (w_inb w) k -> exists w', deliver self l w = Some (tt, w') /\ env w w'.
Proof.
  induction l as [|sig l IH]; intros w k Hk; [exists w; split; [done|apply env_refl]|]. cbn [deliver].
  rewrite (st_bind_Some (getg id) _ w (w_g w) w eq_refl).
  assert (H1 : exists w1, (if (g_id (w_g w) =? 0) && bool_decide (sig ∈ g_sigcatch (w_g w))
      then pth_sched_eventmanager_sighandler self sig else mret tt) w = Some (tt, w1) /\ env w w1).
  { destruct ((g_id (w_g w) =? 0) && _); [|exists w; split; [done|apply env_refl]]. unfold pth_sched_eventmanager_sighandler.
    destruct (pipe_there _ _ Hk) as [n Hn]. set (w0 := set_g (set_sigs (g_sigpending (w_g w)) (g_sigblock (w_g w)) (g_sigcatch (w_g w))
      ({[sig]} ∪ g_sigraised (w_g w)) (w_g w)) w).
    rewrite (st_bind_Some _ _ w tt w0) by done. unfold on_inbox, zoom, write_pipe. cbn [w0 set_g w_inb]. rewrite Hn.
    eexists. split; [reflexivity|]. constructor; try done. intros l'. apply inbox_pipe. }
  destruct H1 as (w1 & E1 & Hw1). rewrite (st_bind_Some _ _ _ _ _ E1).
  destruct (IH w1 k (en_inb _ _ Hw1 k Hk)) as (w2 & E2 & Hw2). exists w2. split; [done|by eapply env_trans].
Qed.
(** What arrives: messages that are pushed to the empty inbox. *)
Lemma arrive_mild (w : wd) (f : iheap -> iheap) new Q L : inbox_ok G self (f (w_inb w)) new -> winv w Q L ->
  winv (set_inb (f (w_inb w)) w) Q L /\ wmild w (set_inb (f (w_inb w)) w).
Proof.
  intros Hn [Hi _ Hu]. split; [|by apply wmild_same]. constructor; [by eapply tinv_other; [..|exact Hi]|by exists new|done].
Qed.

(** The timer. *)
Lemma timer_ok_occ (s : em) dopoll rc : (forall e, em_tev s = Some e -> is_Some (body s !! e)) ->
  exists again w', timer_elapsed dopoll rc s = Some (again, set_w w' s) /\ wmild (em_w s) w' /\ w_q w' = w_q (em_w s) /\
    w_inb w' = w_inb (em_w s) /\ (forall Q L, winv (em_w s) Q L -> winv w' Q L) /\ (again = true -> dopoll = false).
Proof.
  intros Hev. unfold timer_elapsed. rewrite (st_bind_Some get_st _ s s s eq_refl).
  assert (Hid : forall b : bool, (b = true -> dopoll = false) -> exists again w', (mret b : st em bool) s = Some (again, set_w w' s) /\
    wmild (em_w s) w' /\ w_q w' = w_q (em_w s) /\ w_inb w' = w_inb (em_w s) /\ (forall Q L, winv (em_w s) Q L -> winv w' Q L) /\
    (again = true -> dopoll = false)).
  { intros b Hb. exists b, (em_w s). split_and!; try done; [by destruct s|apply wmild_refl]. }
  destruct (negb dopoll && (rc =? 0) && _) eqn:Ec; [|by apply Hid].
  apply andb_true_iff in Ec as [[Hd _]%andb_true_iff Hn%bool_decide_eq_true]. apply negb_true_iff in Hd.
  destruct (em_tev s) as [e|] eqn:Et; [|done]. destruct (Hev e eq_refl) as [x Hx].
  rewrite (st_bind_Some _ _ _ _ _ (x_em_event s e x Hx)). destruct (ev_type x =? PTH_EVENT_FUNC); [by apply Hid|].
  rewrite (st_bind_Some _ _ _ _ _ (x_em_status s e PTH_STATUS_OCCURRED x Hx)). unfold stat. rewrite Hx.
  eexists false, _. split; [reflexivity|]. split_and!; try done; [exact (wmild_occur _ e x Hx)|].
  intros Q L Hw. eapply winv_same; [exact Hw|by eapply tinv_other; [..|apply (wi_t _ _ _ _ _ _ Hw)]|done|done].
Qed.

(** The threads stay, those of this scheduler too, joinable or not. *)
Definition same_join (m m' : gmap addr tcb) : Prop :=
  forall t x, m !! t = Some x -> exists y, m' !! t = Some y /\ t_joinable y = t_joinable x /\ t_home y = t_home x.
Lemma same_join_trans m1 m2 m3 : same_join m1 m2 -> same_join m2 m3 -> same_join m1 m3.
Proof.
  intros HA HB t x Hx. destruct (HA t x Hx) as (y & Hy & ? & ?). destruct (HB t y Hy) as (z & Hz & ? & ?). exists z. split_and!; [done|congruence..].
Qed.
Lemma wmild_join w w' : wmild w w' -> same_join (w_tcb w) (w_tcb w').
Proof. intros Hm t x Hx. destruct (wm_tcb _ _ Hm t x Hx) as (v & Hy). by eexists. Qed.
Lemma tcb_rel_join (s s' : em) : tcb_rel s s' -> same_join (w_tcb (em_w s)) (w_tcb (em_w s')).
Proof. intros Hr t x Hx. destruct (Hr t x Hx) as (S & k & r & Hy). eexists. split; [exact Hy|]. by destruct r. Qed.

(** ** The pass

    What holds of the state [s] in the course of a pass that began with [s0]:
    the queues are [Q], the waiting threads wait for the events [R]; no event
    was forgotten and no request for cancellation. *)
Context (R : addr -> list addr).
Record pinv (n : nat) (Q : qlists) (L : gset addr) (s0 s : em) : Prop := {
  pv_w : winv (em_w s) Q L;
  pv_b : fb_ok n (em_b s);
  pv_ev : events_ok E (w_ev (em_w s));
  pv_wait : forall a, in_q Q WQ a -> waiter s a (R a);
  pv_np : forall e, np s0 e = true -> np s e = true;
  pv_cancel : forall a, cancel_of s0 a = true -> cancel_of s a = true;
  pv_sched : g_scheduler (w_g (em_w s)) = g_scheduler (w_g (em_w s0));
  pv_body : forall e x, body s0 !! e = Some x -> exists v, body s !! e = Some (set_status v x);
  pv_tcb : same_join (w_tcb (em_w s0)) (w_tcb (em_w s))
}.

Lemma events_dom (e e' : evst) : dom (e_body e') = dom (e_body e) -> events_ok E e -> events_ok E e'.
Proof. intros Hd He a Ha. rewrite <- elem_of_dom, Hd. apply elem_of_dom. by apply He. Qed.
Lemma pinv_mild n Q L Q' L' s0 (s : em) (w' : wd) : pinv n Q L s0 s -> wmild (em_w s) w' -> winv w' Q' L' -> same_run Q Q' ->
  pinv n Q' L' s0 (set_w w' s).
Proof.
  intros [P1 P2 P3 P4 P5 P6 P7 P8 P9] Hm Hw' [_ HW]. constructor; try done.
  - eapply events_dom; [apply (wm_evdom _ _ Hm)|done].
  - intros a Ha. apply wmild_waiter; [done|]. apply P4. unfold in_q in *. by rewrite <- HW.
  - intros e He. apply wmild_np; auto.
  - intros a Ha. specialize (P6 a Ha). unfold cancel_of in *. cbn [set_w em_w]. destruct (w_tcb (em_w s) !! a) as [x|] eqn:Hx; [|done].
    destruct (wm_tcb _ _ Hm a x Hx) as (v & ->). done.
  - cbn. by rewrite (wm_sched _ _ Hm).
  - intros e x Hx. destruct (P8 e x Hx) as (v & Hy). destruct (wm_ev _ _ Hm e _ Hy) as (v' & Hz & _). by exists v'.
  - eapply same_join_trans; [exact P9|by apply wmild_join].
Qed.
Lemma pinv_env n Q L s0 (s : em) (w' : wd) : pinv n Q L s0 s -> env (em_w s) w' -> pinv n Q L s0 (set_w w' s).
Proof. intros Hp He. eapply pinv_mild; [exact Hp|by apply env_mild|by eapply env_winv; [|apply (pv_w _ _ _ _ _ Hp)]|done]. Qed.
Lemma pinv_b n m Q L s0 (s : em) b : pinv n Q L s0 s -> fb_ok m b -> pinv m Q L s0 (set_b b s).
Proof.
  intros [P1 P2 P3 P4 P5 P6 P7 P8 P9] Hb. constructor; try done. intros a Ha. eapply estep_waiter; [by apply (estep_same (fun _ => False) s)|auto].
Qed.
Lemma pinv_estep n D Q L s0 (s s' : em) : pinv n Q L s0 s -> estep D s s' -> fb_ok n (em_b s') -> pinv n Q L s0 s'.
Proof.
  intros [P1 P2 P3 P4 P5 P6 P7 P8 P9] Hs Hb. constructor; try done.
  - by eapply estep_winv.
  - eapply events_dom; [apply (es_evdom _ _ _ Hs)|done].
  - intros a Ha. eapply estep_waiter; [exact Hs|auto].
  - intros e He. eapply np_mono; [exact Hs|auto].
  - intros a Ha. specialize (P6 a Ha). unfold cancel_of in *. destruct (w_tcb (em_w s) !! a) as [x|] eqn:Hx; [|done].
    destruct (es_tcb _ _ _ Hs a x Hx) as (S & k & ->). done.
  - by rewrite (cm_sched _ _ (estep_calm _ _ _ Hs)).
  - intros e x Hx. destruct (P8 e x Hx) as (v & Hy). destruct (es_ev _ _ _ Hs e _ Hy) as (v' & Hz & _). by exists v'.
  - eapply same_join_trans; [exact P9|by eapply tcb_rel_join, estep_tcb_rel].
Qed.
Lemma pinv_start n Q L s : winv (em_w s) Q L -> fb_ok n (em_b s) -> events_ok E (w_ev (em_w s)) ->
  (forall a, in_q Q WQ a -> waiter s a (R a)) -> pinv n Q L s s.
Proof.
  constructor; try done; [|by intros t x Hx; exists x]. intros e x Hx. exists (ev_status x). by rewrite set_status_id.
Qed.
Lemma occurred_np (s : em) a : occurred (w_ev (em_w s)) a -> np s a = true.
Proof. intros (x & Hx & Hs). rewrite (np_lookup s a x Hx). apply bool_decide_eq_true. by rewrite Hs. Qed.

(** Messages of these kinds are sensible whatever is in the queues. *)
Lemma mild_msgs_ok Q Q' T ms : Forall mild ms -> msgs_ok E Q T ms -> msgs_ok E Q' T ms.
Proof.
  intros Hm [He Hs Hd]. constructor; try done. rewrite Forall_forall in Hm, He |- *. intros m Hin. specialize (He m Hin). specialize (Hm m Hin).
  unfold msg_ok, mild in *. by destruct (g_kind m).
Qed.

Context (PTH_NSIG sigpipe : Z) (pipe_ok : fb_fd sigpipe).

(** The first half, up to the wait. *)
Lemma pass_top n now p Q T S l (s : em) :
  near now now -> pinv n Q (T ∪ S) s s -> T ## S -> inbox_ok G self (w_inb (em_w s)) l -> msgs_ok E Q T (rev l.*2) -> Forall mild l.*2 ->
  (forall a, in_q Q WQ a -> timed now s (R a)) ->
  exists b1 w1 w2 s' Q' T', fb_begin (em_b s) = Some (tt, b1) /\ on_inbox (read_pipe self) (em_w s) = Some (tt, w1) /\
    sched_drain self malloc w1 = Some (bool_decide (l <> []), w2) /\ assemble PTH_NSIG now (pa_func p) (set_w w2 (set_b b1 s)) = Some (tt, s') /\
    pinv n Q' (T' ∪ S) s s' /\ T' = transit T (rev l.*2) /\ T' ## S /\ same_run Q Q' /\ inbox_ok G self (w_inb (em_w s')) [] /\
    (forall m a, m ∈ l.*2 -> g_kind m = PTH_GMSG_WAKE -> g_event m = Some a -> np s' a = true) /\
    (forall e, em_tev s' = Some e -> exists a, in_q Q WQ a /\ e ∈ R a).
Proof.
  intros Hnow Hp Hd Hl Hok Hmi Htm. destruct (fb_begin_ok n (em_b s) (pv_b _ _ _ _ _ Hp)) as (b1 & E1 & Hb1).
  destruct (read_pipe_env (em_w s) l Hl) as (w1 & E2 & He1).
  assert (Hp1 := pinv_env _ _ _ _ _ w1 (pinv_b _ n _ _ _ _ b1 Hp Hb1) He1).
  destruct (mild_drain w1 Q T S l) as (w2 & Q' & T' & E3 & Hw2 & HT & Hd' & Hev2 & Hl2 & Hm2 & Hr & Hwk); try done;
    [apply (pv_w _ _ _ _ _ Hp1)|apply (pv_ev _ _ _ _ _ Hp1)|by apply (en_inb _ _ He1)|].
  assert (Hp2 := pinv_mild _ _ _ _ _ _ _ w2 Hp1 Hm2 Hw2 Hr). change (set_w w2 (set_w w1 (set_b b1 s))) with (set_w w2 (set_b b1 s)) in Hp2.
  assert (Htm2 : forall a, in_q Q' WQ a -> timed now (set_w w2 (set_b b1 s)) (R a)).
  { intros a Ha. apply (wmild_timed now (set_b b1 s) w2); [eapply wmild_trans; [by apply env_mild|done]|].
    assert (HaQ : in_q Q WQ a) by (unfold in_q in *; by rewrite <- (proj2 Hr)). exact (Htm a HaQ). }
  destruct (assemble_ok self G E PTH_NSIG now (pa_func p) Hnow n R (set_w w2 (set_b b1 s)) Q' (T' ∪ S) (pv_w _ _ _ _ _ Hp2) (pv_b _ _ _ _ _ Hp2))
    as (s' & E4 & Hs' & Hb' & Ht' & Ha' & Hj' & Htev).
  { intros a Ha. split; [by apply (pv_wait _ _ _ _ _ Hp2)|by apply Htm2]. }
  exists b1, w1, w2, s', Q', T'. split_and!; try done.
  - by eapply pinv_estep.
  - by rewrite (es_inb _ _ _ Hs').
  - intros m a Hin Hk Ha. eapply np_mono; [exact Hs'|]. apply occurred_np. by eapply Hwk.
  - intros e He. apply Htev, events_of_in in He as (a & Ha & He). exists a. split; [|done]. unfold in_q. by rewrite <- (proj2 Hr).
Qed.

(** The wait and the second drain. *)
Lemma pass_wait n now dopoll delay p Q T S new s0 (s : em) :
  pinv (Datatypes.S n) Q (T ∪ S) s0 s -> T ## S -> inbox_ok G self (w_inb (em_w s)) [] ->
  (forall h, inbox_ok G self h [] -> inbox_ok G self (pa_arrive p h) new) -> msgs_ok E Q T (rev new.*2) -> Forall mild new.*2 ->
  exists b1 rc b2 w1 w3 Q' T', fb_commit now sigpipe (em_b s) = Some (tt, b1) /\ fb_wait dopoll delay b1 = Some (rc, b2) /\
    deliver self (pa_signals p) (em_w s) = Some (tt, w1) /\
    sched_drain self malloc (set_inb (pa_arrive p (w_inb w1)) w1) = Some (bool_decide (new <> []), w3) /\
    pinv n Q' (T' ∪ S) s0 (set_w w3 (set_b b2 s)) /\ T' = transit T (rev new.*2) /\ same_run Q Q' /\
    (forall e, np s e = true -> np (set_w w3 (set_b b2 s)) e = true) /\
    (forall m a, m ∈ new.*2 -> g_kind m = PTH_GMSG_WAKE -> g_event m = Some a -> np (set_w w3 (set_b b2 s)) a = true) /\
    inbox_ok G self (w_inb w3) [].
Proof.
  intros Hp Hd Hl Harr Hok Hmi. destruct (fb_commit_ok _ (em_b s) now sigpipe (pv_b _ _ _ _ _ Hp) pipe_ok) as (b1 & E1 & Hb1).
  destruct (fb_wait_ok n b1 dopoll delay Hb1) as (rc & b2 & E2 & Hb2). assert (Hp1 := pinv_b _ n _ _ _ _ b2 Hp Hb2).
  destruct (deliver_env (pa_signals p) (em_w s) [] Hl) as (w1 & E3 & He1). assert (Hp2 := pinv_env _ _ _ _ _ w1 Hp1 He1).
  assert (Hin := Harr (w_inb w1) (en_inb _ _ He1 _ Hl)).
  destruct (arrive_mild w1 (pa_arrive p) new Q (T ∪ S) Hin (pv_w _ _ _ _ _ Hp2)) as [Hw2 Hm2].
  destruct (mild_drain _ Q T S new Hw2 Hd) as (w3 & Q' & T' & E4 & Hw3 & HT & _ & _ & Hl3 & Hm3 & Hr & Hwk); try done.
  { apply (pv_ev _ _ _ _ _ Hp2). }
  assert (Hm : wmild (em_w s) w3).
  { eapply wmild_trans; [by apply env_mild|]. eapply wmild_trans; [exact Hm2|exact Hm3]. }
  exists b1, rc, b2, w1, w3, Q', T'. split_and!; try done; try apply Hr.
  - by eapply (pinv_mild _ _ _ _ _ _ (set_b b2 s)).
  - intros e. by apply (wmild_np (set_b b2 s)).
  - intros m a Hm' Hk Ha. apply occurred_np. by eapply Hwk.
Qed.

Lemma in_foldl_ins (f : addr -> Z) l r b : b ∈ r.*1 \/ b ∈ l.*1 -> b ∈ (foldl (fun (l : list (addr * Z)) (y : addr * Z) => pq_ins (f y.1) y.1 l) r l).*1.
Proof. intros [Hb|Hb]; [by apply fold_ins_keep|by apply fold_ins_in]. Qed.

(** Waking the threads. *)
Lemma pass_end n rc Q L s0 (s : em) : pinv n Q L s0 s ->
  (forall a b e, in_q Q WQ a -> in_q Q WQ b -> e ∈ R a -> e ∈ R b -> a = b) ->
  exists s' Q', cleanup PTH_NSIG rc s = Some (tt, s') /\ winv (em_w s') Q' L /\ fb_ok n (em_b s') /\
    (forall a e, in_q Q WQ a -> e ∈ R a -> np s e = true -> in_q Q' RQ a) /\
    (forall a, in_q Q WQ a -> cancel_of s0 a = true -> in_q Q' RQ a) /\
    (forall a, in_q Q WQ a -> in_q Q' RQ a \/ (in_q Q' WQ a /\ forall e, e ∈ R a -> np s' e = false)) /\
    (forall a, in_q Q RQ a -> in_q Q' RQ a) /\
    (forall a, in_q Q' WQ a -> in_q Q WQ a) /\ calm s s' /\
    (forall e x, body s !! e = Some x -> exists v, body s' !! e = Some (set_status v x)) /\ tcb_rel s s'.
Proof.
  intros Hp Hdis. destruct (cleanup_pass_ok self G E PTH_NSIG n rc R s Q L (pv_w _ _ _ _ _ Hp) (pv_b _ _ _ _ _ Hp) (pv_wait _ _ _ _ _ Hp) Hdis)
    as (s' & Q' & E1 & Hw' & Hb' & HW & HR & _ & Hnp & Hpend & Ht & Hbody & Hcalm).
  assert (Hready : forall a, in_q Q WQ a -> woken s' a (R a) = true -> in_q Q' RQ a).
  { intros a Ha Hwk. unfold in_q. rewrite HR. apply (in_foldl_ins (fun b => prio_of s b + 1)). right. unfold in_q in Ha.
    apply list_elem_of_fmap in Ha as (y & -> & Hy). apply list_elem_of_fmap. exists y. split; [done|]. by apply list_elem_of_filter. }
  exists s', Q'. split_and!; try done.
  - intros a e Ha He Hs. by apply (Hnp a e).
  - intros a Ha Hc. apply Hready; [done|]. assert (Hc' := pv_cancel _ _ _ _ _ Hp a Hc). unfold cancel_of, woken in *.
    destruct (w_tcb (em_w s) !! a) as [x|] eqn:Hx; [|done]. destruct (Ht a x Hx) as (S' & k & r & ->). destruct r; cbn; by rewrite Hc'.
  - intros a Ha. destruct (woken s' a (R a)) eqn:Hwk; [left; by apply Hready|right].
    assert (Ha3 : in_q Q' WQ a).
    { unfold in_q in Ha |- *. rewrite HW. apply list_elem_of_fmap in Ha as (y & -> & Hy). apply list_elem_of_fmap. exists y.
      split; [done|]. by apply list_elem_of_filter. }
    split; [done|]. intros e. by apply Hpend.
  - intros a Ha. unfold in_q. rewrite HR. apply (in_foldl_ins (fun b => prio_of s b + 1)). by left.
  - intros a Ha. unfold in_q in *. rewrite HW in Ha. apply list_elem_of_fmap in Ha as (y & -> & [_ Hy]%list_elem_of_filter).
    apply list_elem_of_fmap. by exists y.
Qed.

(** ** The pass as a whole, with what the next one needs *)
Lemma pass_ok n now dopoll p Q T S l new (s : em) :
  near now now -> winv (em_w s) Q (T ∪ S) -> fb_ok (Datatypes.S n) (em_b s) -> events_ok E (w_ev (em_w s)) -> T ## S ->
  (forall a, in_q Q WQ a -> waiter s a (R a) /\ timed now s (R a)) ->
  (forall a b e, in_q Q WQ a -> in_q Q WQ b -> e ∈ R a -> e ∈ R b -> a = b) ->
  inbox_ok G self (w_inb (em_w s)) l -> (forall h, inbox_ok G self h [] -> inbox_ok G self (pa_arrive p h) new) ->
  Forall mild (l ++ new).*2 -> msgs_ok E Q T (rev l.*2) -> msgs_ok E Q (transit T (rev l.*2)) (rev new.*2) ->
  exists dopoll' again s' Q', em_pass self malloc PTH_NSIG sigpipe now dopoll p s = Some ((dopoll', again), s') /\
    winv (em_w s') Q' (transit (transit T (rev l.*2)) (rev new.*2) ∪ S) /\ fb_ok n (em_b s') /\
    (forall a e, in_q Q WQ a -> e ∈ R a ->
       np s e = true \/ (exists m, m ∈ (l ++ new).*2 /\ g_kind m = PTH_GMSG_WAKE /\ g_event m = Some e) -> in_q Q' RQ a) /\
    (forall a, in_q Q WQ a -> cancel_of s a = true -> in_q Q' RQ a) /\
    (forall a, in_q Q WQ a -> in_q Q' RQ a \/ (in_q Q' WQ a /\ forall e, e ∈ R a -> np s' e = false)) /\
    (forall a, in_q Q RQ a -> in_q Q' RQ a) /\ (l <> [] -> dopoll' = true) /\ (again = true -> dopoll' = false) /\
    inbox_ok G self (w_inb (em_w s')) [] /\ g_scheduler (w_g (em_w s')) = g_scheduler (w_g (em_w s)) /\
    (forall a, in_q Q' WQ a -> in_q Q WQ a /\ waiter s' a (R a)) /\
    (forall e x, body s !! e = Some x -> exists v, body s' !! e = Some (set_status v x)) /\
    same_join (w_tcb (em_w s)) (w_tcb (em_w s')).
Proof.
  intros Hnow Hw Hb Hev Hd Hwait Hdis Hl Harr Hmi Hok1 Hok2. rewrite fmap_app, Forall_app in Hmi. destruct Hmi as [Hmi1 Hmi2].
  assert (Hp := pinv_start (Datatypes.S n) Q (T ∪ S) s Hw Hb Hev (fun a Ha => proj1 (Hwait a Ha))).
  destruct (pass_top (Datatypes.S n) now p Q T S l s Hnow Hp Hd Hl Hok1 Hmi1 (fun a Ha => proj2 (Hwait a Ha)))
    as (b1 & w1 & w2 & s4 & Q1 & T1 & E1 & E2 & E3 & E4 & Hp4 & HT1 & Hd1 & Hr1 & Hl4 & Hwk1 & Htev).
  unfold em_pass. rewrite (st_bind_Some _ _ _ _ _ (x_on_b _ s _ _ E1)).
  rewrite (st_bind_Some _ _ _ _ _ (x_on_w _ (set_b b1 s) _ _ E2)), (st_bind_Some _ _ _ _ _ (x_on_w _ (set_w w1 (set_b b1 s)) _ _ E3)).
  change (set_w w2 (set_w w1 (set_b b1 s))) with (set_w w2 (set_b b1 s)). rewrite (st_bind_Some _ _ _ _ _ E4), (st_bind_Some get_st _ s4 s4 s4 eq_refl).
  set (d := (dopoll || bool_decide (l <> [])) || em_any s4).
  set (delay := if bool_decide (em_tev s4 <> NULL) then _ else None).
  destruct (pass_wait n now d delay p Q1 T1 S new s s4 Hp4 Hd1 Hl4 Harr) as
    (b5 & rc & b6 & w7 & w9 & Q2 & T2 & E5 & E6 & E7 & E8 & Hp9 & HT2 & Hr2 & Hn9 & Hwk2 & Hl9); [|done|].
  { rewrite HT1. eapply mild_msgs_ok; [|exact Hok2]. by apply Forall_rev. }
  rewrite (st_bind_Some _ _ _ _ _ (x_on_b _ s4 _ _ E5)), (st_bind_Some _ _ _ _ _ (x_on_b _ (set_b b5 s4) _ _ E6)).
  change (set_b b6 (set_b b5 s4)) with (set_b b6 s4). rewrite (st_bind_Some _ _ _ _ _ (x_on_w _ (set_b b6 s4) _ _ E7)).
  rewrite (st_bind_Some (on_w (updw (fun w => set_inb (pa_arrive p (w_inb w)) w))) _ (set_w w7 (set_b b6 s4)) tt
    (set_w (set_inb (pa_arrive p (w_inb w7)) w7) (set_b b6 s4)) eq_refl).
  rewrite (st_bind_Some _ _ _ _ _ (x_on_w _ (set_w _ (set_b b6 s4)) _ _ E8)).
  change (set_w w9 (set_w _ (set_b b6 s4))) with (set_w w9 (set_b b6 s4)). set (s9 := set_w w9 (set_b b6 s4)) in *.
  destruct (timer_ok_occ s9 d rc) as (again & w10 & E9 & Hm10 & Hq10 & Hi10 & Hw10 & Hag).
  { intros e He. destruct (Htev e He) as (a & Ha & Hea). apply (waiter_events s9 a (R a)); [|done].
    apply (pv_wait _ _ _ _ _ Hp9). unfold in_q. by rewrite (proj2 Hr2), (proj2 Hr1). }
  rewrite (st_bind_Some _ _ _ _ _ E9).
  assert (Hp10 := pinv_mild _ _ _ _ _ _ s9 w10 Hp9 Hm10 (Hw10 _ _ (pv_w _ _ _ _ _ Hp9)) ltac:(by split)).
  destruct (fb_adjust_ok n (em_b (set_w w10 s9)) d sigpipe rc (pv_b _ _ _ _ _ Hp10) pipe_ok) as (rc' & b11 & E10 & Hb11).
  rewrite (st_bind_Some _ _ _ _ _ (x_on_b _ (set_w w10 s9) _ _ E10)). assert (Hp11 := pinv_b _ n _ _ _ _ b11 Hp10 Hb11).
  set (s11 := set_b b11 (set_w w10 s9)) in *.
  assert (HW : Q2 WQ = Q WQ) by (by rewrite (proj2 Hr2), (proj2 Hr1)).
  destruct (pass_end n rc' Q2 (T2 ∪ S) s s11 Hp11) as (s12 & Q3 & E11 & Hw12 & Hb12 & Hnp & Hcan & Hall & Hrq & Hsub & Hcalm & Hbody & Hrel).
  { intros a b e Ha Hbq. unfold in_q in Ha, Hbq. rewrite HW in Ha, Hbq. by apply Hdis. }
  rewrite (st_bind_Some _ _ _ _ _ E11). exists d, again, s12, Q3. split; [reflexivity|].
  assert (HQ : forall a, in_q Q WQ a -> in_q Q2 WQ a) by (intros a; unfold in_q; by rewrite HW). split_and!; try done.
  - by rewrite <- HT1, <- HT2.
  - intros a e Ha He Hwhy. apply (Hnp a e (HQ a Ha) He). destruct Hwhy as [Hs|(m & Hin & Hk & Hme)]; [by apply (pv_np _ _ _ _ _ Hp11)|].
    apply (wmild_np s9 w10 e Hm10). rewrite fmap_app in Hin. apply elem_of_app in Hin as [Hin|Hin]; [apply Hn9; by eapply Hwk1|by eapply Hwk2].
  - intros a Ha. by apply Hcan, HQ.
  - intros a Ha. by apply Hall, HQ.
  - intros a Ha. apply Hrq. unfold in_q in *. by rewrite (proj1 Hr2), (proj1 Hr1).
  - intros Hn. unfold d. rewrite (bool_decide_eq_true_2 (l <> [])) by done. by rewrite orb_true_r.
  - rewrite (cm_inb _ _ Hcalm). cbn. by rewrite Hi10.
  - rewrite (cm_sched _ _ Hcalm). apply (pv_sched _ _ _ _ _ Hp11).
  - intros a Ha. assert (Ha2 := Hsub a Ha). split; [unfold in_q in *; by rewrite <- HW|].
    apply (cm_wait _ _ Hcalm), (pv_wait _ _ _ _ _ Hp11). done.
  - intros e x Hx. destruct (pv_body _ _ _ _ _ Hp11 e x Hx) as (v & Hy). destruct (Hbody e _ Hy) as (v' & Hz). by exists v'.
  - eapply same_join_trans; [apply (pv_tcb _ _ _ _ _ Hp11)|by apply tcb_rel_join].
Qed.

End pass.

(** ** A concrete pass

    Thread 13 waits for a wakeup and for a time that has not come; another
    scheduler posts the wakeup while scheduler 1 sleeps. *)
Definition pend_events : evst :=
  Evst (e_links wait_events) (<[20%positive := Event PTH_STATUS_PENDING PTH_EVENT_NOTIFY 0 (ANOTIFY NULL)]> (e_body wait_events))
    (e_keys wait_events) (e_keyvar wait_events).
Definition pend_em (q : queues) : emst queues dstate pollset := set_w (set_ev pend_events (wait_world q)) (wait_em q).
Definition wake_msg : list (addr * gbody) := [(3%positive, Gbody PTH_GMSG_WAKE (Some 13%positive) (Some 20%positive) 0)].
Definition wake_pass : pass :=
  Pass (fun _ _ => false) [] (fun h => IHeap {[3%positive := Gmsg NULL (Gbody PTH_GMSG_WAKE (Some 13%positive) (Some 20%positive) 0)]}
    (<[1%positive := Some 3%positive]> (i_inbox h)) (i_pipe h)) (Tv 51 0).
Lemma wake_arrives h : inbox_ok demo_G 1 h [] -> inbox_ok demo_G 1 (pa_arrive wake_pass h) wake_msg.
Proof.
  intros [_ _ H3 H4]. constructor; [| |intros o Ho; destruct (H3 o Ho) as [Ha Hb]; split; [|done]|done]; cbn.
  - exists (Some 3%positive). rewrite lookup_insert_eq. split; [done|]. split; [done|]. by eexists.
  - apply NoDup_singleton.
  - destruct (decide (o = 1%positive)) as [->|Hne]; [rewrite lookup_insert_eq; by eexists|by rewrite lookup_insert_ne].
Qed.
Lemma pend_waiter q a : in_q demo_Q WQ a -> waiter (pend_em q) a (wait_ring a) /\ timed (Tv 50 0) (pend_em q) (wait_ring a).
Proof.
  intros Ha. unfold in_q in Ha. cbn in Ha. apply list_elem_of_singleton in Ha as ->. split.
  - constructor; [by exists wait_tcb|intros _; constructor; [done| |]|].
    + apply (bool_decide_unpack (NoDup _)). vm_compute. exact I.
    + intros e He. set_unfold in He. destruct He as [->|[->|[]]]; by eexists.
    + intros e x He Hx. set_unfold in He. destruct He as [->|[->|[]]]; vm_compute in Hx; injection Hx as <-.
      * apply wf_other. set_solver.
      * apply wf_time.
  - intros e x He Hx. set_unfold in He. destruct He as [->|[->|[]]]; vm_compute in Hx; injection Hx as <-; [done|]. split; cbn; lia.
Qed.
Lemma pend_inv : exists q, winv 1 demo_G demo_E (em_w (pend_em q)) demo_Q (∅ ∪ {[10%positive]} : gset addr).
Proof.
  destruct wait_inv as [q Hq]. exists q. rewrite (left_id_L ∅ (∪)).
  eapply winv_same; [exact Hq|by eapply tinv_other; [..|apply (wi_t _ _ _ _ _ _ Hq)]|done|done].
Qed.
Lemma pend_inbox q : inbox_ok demo_G 1 (w_inb (em_w (pend_em q))) [].
Proof.
  constructor; [by exists NULL|constructor|unfold demo_G; intros o Ho; set_unfold in Ho; destruct Ho as [-> | ->]; split; by eexists|].
  unfold demo_G. set_solver.
Qed.
