(* ===== verification/Epoll.v ===== *)
(** * The epoll(7) backend of the event manager (src/pth_sched.c, lines
    1241-1489, 1656-1692 and the descriptor parts of
    [pth_sched_eventmanager_evport])

    The kernel keeps the set of watched descriptors between the passes. The
    registration cache says for every descriptor what is wanted in this pass
    and what the kernel has; a commit hands over the differences. The kernel
    is a parameter. *)

From stdpp Require Import base numbers gmap list.
From S2P Require Import Prelude Timeval Util Event Queues World Thread Evman Evstep Pollset.
Open Scope Z_scope.

Definition PTH_EVP_R : Z := 1.
Definition PTH_EVP_W : Z := 2.
Definition PTH_EVP_E : Z := 4.
Definition PTH_EVP_FAIL : Z := 8.

Definition EPOLLIN : Z := 1.
Definition EPOLLPRI : Z := 2.
Definition EPOLLOUT : Z := 4.
Definition EPOLLERR : Z := 8.
Definition EPOLLHUP : Z := 16.
(** [EEXIST] has no name of its own in [errno]. *)
Definition EEXIST : errno := EOTHER 17.

(** ** The kernel

    [sys_ctl op fd events] and [sys_wait maxevents timeout] give the value,
    [errno], and for the latter the descriptors with their events;
    [sys_patience] bounds how often a wait is interrupted in a row. *)
Inductive ctl_op := EPOLL_CTL_ADD | EPOLL_CTL_MOD | EPOLL_CTL_DEL.
Class EpollSys (K : Type) := {
  sys_ctl : ctl_op -> Z -> Z -> K -> Z * errno * K;
  sys_wait : Z -> Z -> K -> Z * errno * list (Z * Z) * K;
  sys_patience : K -> nat
}.

Record evreg := Evreg { r_gen : Z; r_rdygen : Z; r_want : Z; r_regmask : Z; r_ready : Z; r_registered : bool }.
Definition evreg0 : evreg := Evreg 0 0 0 0 0 false.

(** The [evp_] fields of the scheduler; [ep_alloc n]: the allocation of [n]
    elements succeeds. *)
Record evp (K : Type) := Evp {
  ep_reg : list evreg; ep_gen : Z; ep_touched : list Z; ep_touchedcap : Z; ep_reglist : list Z; ep_reglistcap : Z;
  ep_evcap : Z; ep_force : bool; ep_reval_ms : Z; ep_nextreval : pth_time_t; ep_kernel : K; ep_alloc : Z -> bool
}.
Arguments Evp {K}. Arguments ep_reg {K}. Arguments ep_gen {K}. Arguments ep_touched {K}. Arguments ep_touchedcap {K}.
Arguments ep_reglist {K}. Arguments ep_reglistcap {K}. Arguments ep_evcap {K}. Arguments ep_force {K}.
Arguments ep_reval_ms {K}. Arguments ep_nextreval {K}. Arguments ep_kernel {K}. Arguments ep_alloc {K}.

Section ops.
Context {K : Type} `{!EpollSys K}.
Abbreviation evs := (evp K).

Definition set_reg (v : list evreg) (g : evs) : evs := Evp v (ep_gen g) (ep_touched g) (ep_touchedcap g) (ep_reglist g)
  (ep_reglistcap g) (ep_evcap g) (ep_force g) (ep_reval_ms g) (ep_nextreval g) (ep_kernel g) (ep_alloc g).
Definition set_gen (v : Z) (g : evs) : evs := Evp (ep_reg g) v (ep_touched g) (ep_touchedcap g) (ep_reglist g)
  (ep_reglistcap g) (ep_evcap g) (ep_force g) (ep_reval_ms g) (ep_nextreval g) (ep_kernel g) (ep_alloc g).
Definition set_touched (v : list Z) (c : Z) (g : evs) : evs := Evp (ep_reg g) (ep_gen g) v c (ep_reglist g)
  (ep_reglistcap g) (ep_evcap g) (ep_force g) (ep_reval_ms g) (ep_nextreval g) (ep_kernel g) (ep_alloc g).
Definition set_reglist (v : list Z) (c : Z) (g : evs) : evs := Evp (ep_reg g) (ep_gen g) (ep_touched g) (ep_touchedcap g) v c
  (ep_evcap g) (ep_force g) (ep_reval_ms g) (ep_nextreval g) (ep_kernel g) (ep_alloc g).
Definition set_evcap (v : Z) (g : evs) : evs := Evp (ep_reg g) (ep_gen g) (ep_touched g) (ep_touchedcap g) (ep_reglist g)
  (ep_reglistcap g) v (ep_force g) (ep_reval_ms g) (ep_nextreval g) (ep_kernel g) (ep_alloc g).
Definition set_force (v : bool) (t : pth_time_t) (g : evs) : evs := Evp (ep_reg g) (ep_gen g) (ep_touched g) (ep_touchedcap g)
  (ep_reglist g) (ep_reglistcap g) (ep_evcap g) v (ep_reval_ms g) t (ep_kernel g) (ep_alloc g).
Definition set_kernel (v : K) (g : evs) : evs := Evp (ep_reg g) (ep_gen g) (ep_touched g) (ep_touchedcap g) (ep_reglist g)
  (ep_reglistcap g) (ep_evcap g) (ep_force g) (ep_reval_ms g) (ep_nextreval g) v (ep_alloc g).

(** ** The registration cache *)

(** [while (nc <= fd) nc *= 2], in the range of [int]. *)
Fixpoint grow_cap (fuel : nat) (nc fd : Z) : option Z :=
  if nc <=? fd then
    if nc * 2 >=? 2 ^ 31 then None
    else match fuel with O => None | S fuel' => grow_cap fuel' (nc * 2) fd end
  else Some nc.

Definition pth_evp_grow_reg (fd : Z) : st evs bool :=
  fun g =>
    let cap := Z.of_nat (length (ep_reg g)) in
    if fd <? cap then Some (true, g)
    else match grow_cap 32 (if cap =? 0 then 64 else cap) fd with
         | None => None
         | Some nc =>
             if negb (ep_alloc g nc) then Some (false, g)
             else Some (true, set_reg (ep_reg g ++ replicate (Z.to_nat (nc - cap)) evreg0) g)
         end.

(** The new capacity of a vector of [n] elements that gets one more, unless it
    cannot grow. *)
Definition pth_evp_push (alloc : Z -> bool) (n cap : Z) : option Z :=
  if n >=? cap then
    let nc := if cap =? 0 then 32 else cap * 2 in
    if negb (alloc nc) then None else Some nc
  else Some cap.
Definition push_touched (fd : Z) : st evs bool :=
  fun g => match pth_evp_push (ep_alloc g) (Z.of_nat (length (ep_touched g))) (ep_touchedcap g) with
           | Some c => Some (true, set_touched (ep_touched g ++ [fd]) c g)
           | None => Some (false, g) end.
Definition push_reglist (fd : Z) : st evs bool :=
  fun g => match pth_evp_push (ep_alloc g) (Z.of_nat (length (ep_reglist g))) (ep_reglistcap g) with
           | Some c => Some (true, set_reglist (ep_reglist g ++ [fd]) c g)
           | None => Some (false, g) end.

Definition pth_evp_begin : st evs unit :=
  fun g =>
    let g := set_force false (ep_nextreval g) (set_touched [] (ep_touchedcap g) (set_gen (u32 (ep_gen g + 1)) g)) in
    Some (tt,
      if ep_gen g =? 0 then
        set_gen 1 (set_reg ((fun r => Evreg 0 0 (r_want r) (r_regmask r) (r_ready r) (r_registered r)) <$> ep_reg g) g)
      else g).

Definition rd_reg (fd : Z) : st evs evreg :=
  fun g => if fd <? 0 then None else match ep_reg g !! Z.to_nat fd with Some r => Some (r, g) | None => None end.
Definition wr_reg (fd : Z) (r : evreg) : st evs unit :=
  fun g => if fd <? 0 then None else match ep_reg g !! Z.to_nat fd with
                                     | Some _ => Some (tt, set_reg (<[Z.to_nat fd := r]> (ep_reg g)) g) | None => None end.

Definition pth_evp_want (fd mask : Z) : st evs bool :=
  if fd <? 0 then mret false else
  b ← pth_evp_grow_reg fd;
  if negb b then mret false else
  r ← rd_reg fd;
  g ← get_st;
  if negb (r_gen r =? ep_gen g) then
    wr_reg fd (Evreg (ep_gen g) (r_rdygen r) mask (r_regmask r) (r_ready r) (r_registered r));;
    push_touched fd
  else
    wr_reg fd (Evreg (r_gen r) (r_rdygen r) (Z.lor (r_want r) mask) (r_regmask r) (r_ready r) (r_registered r));;
    mret true.

Definition pth_evp_ready (fd : Z) (g : evs) : Z :=
  if 0 <=? fd then
    match ep_reg g !! Z.to_nat fd with
    | Some r => if r_rdygen r =? ep_gen g then r_ready r else 0
    | None => 0 end
  else 0.

Definition pth_evp_to_epoll (m : Z) : Z :=
  let e := if has m PTH_EVP_R then EPOLLIN else 0 in
  let e := if has m PTH_EVP_W then Z.lor e EPOLLOUT else e in
  if has m PTH_EVP_E then Z.lor e EPOLLPRI else e.
Definition pth_evp_from_epoll (e : Z) : Z :=
  let m := if has e (Z.lor EPOLLIN (Z.lor EPOLLHUP EPOLLERR)) then PTH_EVP_R else 0 in
  let m := if has e (Z.lor EPOLLOUT (Z.lor EPOLLHUP EPOLLERR)) then Z.lor m PTH_EVP_W else m in
  if has e EPOLLPRI then Z.lor m PTH_EVP_E else m.

(** ** Commit *)

Definition epoll_ctl (op : ctl_op) (fd events : Z) : st evs (Z * errno) :=
  fun g => let '(rc, err, k) := sys_ctl op fd events (ep_kernel g) in Some ((rc, err), set_kernel k g).

Definition reg_ok (r : evreg) : evreg := Evreg (r_gen r) (r_rdygen r) (r_want r) (r_want r) (r_ready r) true.
Definition reg_mod (r : evreg) : evreg := Evreg (r_gen r) (r_rdygen r) (r_want r) (r_want r) (r_ready r) (r_registered r).
Definition reg_failed (gen : Z) (r : evreg) : evreg := Evreg (r_gen r) gen (r_want r) (r_regmask r) PTH_EVP_FAIL (r_registered r).
Definition reg_lost (gen : Z) (r : evreg) : evreg := Evreg (r_gen r) gen (r_want r) 0 PTH_EVP_FAIL false.
Definition reg_off (r : evreg) : evreg := Evreg (r_gen r) (r_rdygen r) (r_want r) 0 (r_ready r) false.

Definition pth_evp_ctl (fd : Z) : st evs unit :=
  r ← rd_reg fd;
  g ← get_st;
  let events := pth_evp_to_epoll (r_want r) in
  if negb (r_registered r) then
    x ← epoll_ctl EPOLL_CTL_ADD fd events;
    if x.1 =? 0 then wr_reg fd (reg_ok r);; push_reglist fd;; mret tt
    else if bool_decide (x.2 = EEXIST) then
      y ← epoll_ctl EPOLL_CTL_MOD fd events;
      if y.1 =? 0 then wr_reg fd (reg_ok r);; push_reglist fd;; mret tt
      else mret tt
    else wr_reg fd (reg_failed (ep_gen g) r)
  else if negb (r_regmask r =? r_want r) || ep_force g then
    x ← epoll_ctl EPOLL_CTL_MOD fd events;
    if x.1 =? 0 then wr_reg fd (reg_mod r)
    else if bool_decide (x.2 = ENOENT) then
      y ← epoll_ctl EPOLL_CTL_ADD fd events;
      if y.1 =? 0 then wr_reg fd (reg_mod r) else wr_reg fd (reg_lost (ep_gen g) r)
    else wr_reg fd (reg_lost (ep_gen g) r)
  else mret tt.
Fixpoint ctl_all (fds : list Z) : st evs unit :=
  match fds with [] => mret tt | fd :: fds' => pth_evp_ctl fd;; ctl_all fds' end.

(** The second loop: [i] is the index; an entry is overwritten by the last
    one. *)
Fixpoint evp_sweep (fuel : nat) (i : nat) : st evs unit :=
  g ← get_st;
  match ep_reglist g !! i with
  | None => mret tt
  | Some fd =>
      match fuel with
      | O => undef
      | S fuel' =>
          r ← rd_reg fd;
          if negb (r_gen r =? ep_gen g) || negb (r_registered r) then
            (if r_registered r then epoll_ctl EPOLL_CTL_DEL fd 0;; mret tt else mret tt);;
            wr_reg fd (reg_off r);;
            g ← get_st;
            let n := length (ep_reglist g) in
            match last (ep_reglist g) with
            | Some z => put_st (set_reglist (take (n - 1) (<[i := z]> (ep_reglist g))) (ep_reglistcap g) g);; evp_sweep fuel' i
            | None => undef end
          else evp_sweep fuel' (S i)
      end
  end.

Definition pth_evp_commit : st evs unit :=
  g ← get_st;
  ctl_all (ep_touched g);;
  g ← get_st;
  evp_sweep (length (ep_reglist g)) 0.

(** ** Wait *)

Fixpoint wait_call (fuel : nat) (maxev timeout : Z) : st evs (Z * list (Z * Z)) :=
  fun g =>
    let '(n, err, l, k) := sys_wait maxev timeout (ep_kernel g) in
    if (n <? 0) && bool_decide (err = EINTR) then
      match fuel with O => None | S fuel' => wait_call fuel' maxev timeout (set_kernel k g) end
    else Some ((n, l), set_kernel k g).
Definition set_ready (x : Z * Z) (g : evs) : evs :=
  if 0 <=? x.1 then
    match ep_reg g !! Z.to_nat x.1 with
    | Some r => set_reg (<[Z.to_nat x.1 := Evreg (r_gen r) (ep_gen g) (r_want r) (r_regmask r) (pth_evp_from_epoll x.2) (r_registered r)]> (ep_reg g)) g
    | None => g end
  else g.
Definition pth_evp_wait (timeout_ms : Z) : st evs Z :=
  fun g =>
    let need := Z.of_nat (length (ep_reglist g)) + 1 in
    match (if need >? ep_evcap g then
             match grow_cap 32 (if ep_evcap g =? 0 then 64 else ep_evcap g) (need - 1) with
             | Some nc => Some (if ep_alloc g nc then set_evcap nc g else g)
             | None => None end
           else Some g) with
    | None => None
    | Some g =>
        if ep_evcap g =? 0 then Some (0, g)
        else match wait_call (sys_patience (ep_kernel g)) (ep_evcap g) timeout_ms g with
             | Some ((n, l), g) => Some (n, if n >? 0 then foldl (fun g x => set_ready x g) g (take (Z.to_nat n) l) else g)
             | None => None end
    end.

(** ** The instance *)

(** [osfd]: the descriptor of the new epoll instance, [kernel]: its state;
    [reval]: the value of [PTH_SCHED_REVAL_MS], if it is set. *)
Definition pth_evp_init (osfd : Z) (kernel : K) (alloc : Z -> bool) (reval : option Z) : option evs :=
  if osfd <? 0 then None
  else Some (Evp [] 0 [] 0 [] 0 0 false (match reval with Some v => v | None => 1000 end) pth_time_zero kernel alloc).
Definition pth_evp_kill (g : evs) : evs :=
  Evp [] (ep_gen g) [] 0 [] 0 0 (ep_force g) (ep_reval_ms g) (ep_nextreval g) (ep_kernel g) (ep_alloc g).

(** ** The backend *)

Definition evp_add (fd mask : Z) : st evs unit := pth_evp_want fd mask;; mret tt.
Definition evp_mask (goal : Z) : Z :=
  let pe := if has goal PTH_UNTIL_FD_READABLE then PTH_EVP_R else 0 in
  let pe := if has goal PTH_UNTIL_FD_WRITEABLE then Z.lor pe PTH_EVP_W else pe in
  if has goal PTH_UNTIL_FD_EXCEPTION then Z.lor pe PTH_EVP_E else pe.
Definition evp_sets_mask (r w e : option fd_set) (sfd : Z) : Z :=
  let pe := if fd_isset sfd r then PTH_EVP_R else 0 in
  let pe := if fd_isset sfd w then Z.lor pe PTH_EVP_W else pe in
  if fd_isset sfd e then Z.lor pe PTH_EVP_E else pe.
Fixpoint evp_want_sets (n : nat) (sfd : Z) (r w e : option fd_set) : st evs unit :=
  match n with
  | O => mret tt
  | S n' =>
      let pe := evp_sets_mask r w e sfd in
      (if negb (pe =? 0) then evp_add sfd pe else mret tt);;
      evp_want_sets n' (sfd + 1) r w e
  end.

(** The signal pipe, the heartbeat that re-asserts all registrations, and the
    backend's commit. *)
Definition evp_commit (commit : st evs unit) (now : pth_time_t) (sigpipe : Z) : st evs unit :=
  evp_add sigpipe PTH_EVP_R;;
  g ← get_st;
  (if (ep_reval_ms g >? 0) && (pth_time_cmp now (ep_nextreval g) >=? 0) then
     put_st (set_force true (pth_time_add now
       (pth_time (Z.quot (ep_reval_ms g) 1000) (Z.rem (ep_reval_ms g) 1000 * 1000))) g)
   else mret tt);;
  commit.

(** No longer than the heartbeat. *)
Definition evp_timeout (reval_ms : Z) (dopoll : bool) (delay : option pth_time_t) : Z :=
  let ptimeout := poll_timeout dopoll delay in
  if (reval_ms >? 0) && ((ptimeout <? 0) || (ptimeout >? reval_ms)) then reval_ms else ptimeout.

Definition evp_adjust (dopoll : bool) (sigpipe rc : Z) : st evs Z :=
  fun g => Some (if negb dopoll && (rc >? 0) && has (pth_evp_ready sigpipe g) PTH_EVP_R then i32 (rc - 1) else rc, g).

Definition evp_late_fd (rc goal fd : Z) : st evs pth_status :=
  fun g =>
    let re := pth_evp_ready fd g in
    Some (if (has goal PTH_UNTIL_FD_READABLE && has re PTH_EVP_R) || (has goal PTH_UNTIL_FD_WRITEABLE && has re PTH_EVP_W)
             || (has goal PTH_UNTIL_FD_EXCEPTION && has re PTH_EVP_E) then PTH_STATUS_OCCURRED
          else if has re PTH_EVP_FAIL then PTH_STATUS_FAILED else PTH_STATUS_PENDING, g).
Definition evp_late_sets (rc nfd : Z) (r w e : option fd_set)
    : st evs (pth_status * Z * (option fd_set * option fd_set * option fd_set)) :=
  fun g => Some (sets_verdict nfd r w e
    (late_sets PTH_EVP_R PTH_EVP_W PTH_EVP_E PTH_EVP_FAIL (Z.to_nat nfd) 0 r w e (fun f => pth_evp_ready f g) (∅, ∅, ∅, false)), g).

#[export] Instance evp_backend : FdBackend evs := {|
  fb_begin := pth_evp_begin;
  fb_want_fd goal fd := evp_add fd (evp_mask goal);
  fb_want_sets nfd r w e := evp_want_sets (Z.to_nat nfd) 0 r w e;
  fb_commit := evp_commit pth_evp_commit;
  fb_wait dopoll delay := fun g => pth_evp_wait (evp_timeout (ep_reval_ms g) dopoll delay) g;
  fb_adjust := evp_adjust;
  fb_late_fd := evp_late_fd;
  fb_late_sets := evp_late_sets
|}.

(** The event manager that waits with epoll(7). *)
Definition pth_sched_eventmanager_evport {H U : Type} `{!QueueOps H, !CleanupOps H U, !PortOps U} (self : addr)
    (malloc : gset addr -> ptr) (PTH_NSIG sigpipe : Z) (now : pth_time_t) (dopoll : bool) (ps : list pass)
    : st (emst H U evs) (option pth_time_t) :=
  eventmanager self malloc PTH_NSIG sigpipe now dopoll ps.
End ops.
