(* ===== verification/Evreg.v ===== *)
(** * The registration cache that the epoll(7) and kqueue(2) backends share

    The well-formedness of the cache and how a pass collects what is wanted:
    this part is the same for both backends, whatever their commit does. *)

From stdpp Require Import base numbers gmap list.
From S2P Require Import Prelude Timeval Util Event Queues World Thread Evman Evstep Pollset Epoll.
Open Scope Z_scope.

Section cache.
Context {K : Type}.
Abbreviation evs := (evp K).

(** The entry of a descriptor; those behind the end are blank. *)
Definition regof (g : evs) (fd : Z) : evreg := if fd <? 0 then evreg0 else default evreg0 (ep_reg g !! Z.to_nat fd).
(** Descriptors for which no capacity overflows. *)
Definition fd_ok (fd : Z) : Prop := 0 <= fd < 2 ^ 29.

(** Generations, the descriptors of this pass and the capacities. *)
Record evp_base (g : evs) : Prop := {
  vi_alloc : forall n, ep_alloc g n = true;
  vi_gen : 0 <= ep_gen g < 2 ^ 32;
  vi_gens : forall fd, 0 <= r_gen (regof g fd) <= ep_gen g /\ 0 <= r_rdygen (regof g fd) <= ep_gen g;
  vi_nd : NoDup (ep_touched g);
  vi_touched : forall fd, fd ∈ ep_touched g <-> 1 <= ep_gen g /\ r_gen (regof g fd) = ep_gen g;
  vi_len : Z.of_nat (length (ep_reg g)) < 2 ^ 30;
  vi_cap : 0 <= ep_evcap g
}.

(** ** Entries *)

Definition upd_reg (fd : Z) (r : evreg) (g : evs) : evs := set_reg (<[Z.to_nat fd := r]> (ep_reg g)) g.
Definition cached (fd : Z) (g : evs) : Prop := 0 <= fd < Z.of_nat (length (ep_reg g)).

Lemma cached_lookup fd g : cached fd g -> ep_reg g !! Z.to_nat fd = Some (regof g fd).
Proof.
  intros [H1 H2]. unfold regof. destruct (Z.ltb_spec fd 0); [lia|].
  destruct (lookup_lt_is_Some_2 (ep_reg g) (Z.to_nat fd)) as [r ->]; [lia|done].
Qed.
Lemma regof_blank fd g : ~ cached fd g -> regof g fd = evreg0.
Proof.
  intros Hn. unfold regof. destruct (Z.ltb_spec fd 0); [done|]. rewrite lookup_ge_None_2; [done|]. unfold cached in Hn. lia.
Qed.
Lemma x_rd_reg fd g : cached fd g -> rd_reg fd g = Some (regof g fd, g).
Proof.
  intros Hc. unfold rd_reg. rewrite (cached_lookup fd g Hc). destruct Hc. destruct (Z.ltb_spec fd 0); [lia|done].
Qed.
Lemma x_wr_reg fd r g : cached fd g -> wr_reg fd r g = Some (tt, upd_reg fd r g).
Proof.
  intros Hc. unfold wr_reg. rewrite (cached_lookup fd g Hc). destruct Hc. destruct (Z.ltb_spec fd 0); [lia|done].
Qed.
Lemma regof_upd fd r g f : cached fd g -> regof (upd_reg fd r g) f = if decide (f = fd) then r else regof g f.
Proof.
  intros [H1 H2]. unfold regof. cbn. destruct (Z.ltb_spec f 0); destruct (decide (f = fd)) as [->|Hne]; try done; try lia.
  - by rewrite list_lookup_insert_eq by lia.
  - rewrite list_lookup_insert_ne by lia. done.
Qed.
Lemma cached_upd fd r g f : cached f (upd_reg fd r g) <-> cached f g.
Proof. unfold cached. cbn. by rewrite length_insert. Qed.
Lemma touched_cached fd g : evp_base g -> fd ∈ ep_touched g -> cached fd g.
Proof.
  intros Hi Ht. destruct (decide (0 <= fd /\ fd < Z.of_nat (length (ep_reg g)))) as [[? ?]|Hn]; [by split|].
  apply (vi_touched _ Hi) in Ht as [Hg Ht]. rewrite (regof_blank fd g) in Ht by (intros [? ?]; tauto). change (r_gen evreg0) with 0 in Ht. lia.
Qed.
Lemma registered_cached fd g : r_registered (regof g fd) = true -> cached fd g.
Proof.
  intros Hr. destruct (decide (0 <= fd /\ fd < Z.of_nat (length (ep_reg g)))) as [[? ?]|Hn]; [by split|].
  rewrite regof_blank in Hr; [done|]. intros [? ?]. tauto.
Qed.

(** ** The list of registered descriptors *)

Lemma x_push_reglist fd (g : evs) : (forall n, ep_alloc g n = true) ->
  exists c, push_reglist fd g = Some (true, set_reglist (ep_reglist g ++ [fd]) c g).
Proof.
  intros Ha. unfold push_reglist, pth_evp_push. setoid_rewrite Ha. case_match; [|by repeat case_match]. eexists.
  repeat case_match; simplify_eq; done.
Qed.
(** An entry is taken out by overwriting it with the last one. *)
Lemma swap_out (A B : list Z) x z : last (A ++ x :: B) = Some z -> exists B',
  take (length (A ++ x :: B) - 1) (<[length A := z]> (A ++ x :: B)) = A ++ B' /\ B' ≡ₚ B.
Proof.
  intros Hl. rewrite insert_app_r_alt by done. rewrite Nat.sub_diag. cbn [insert list_insert].
  destruct (nil_or_snoc B) as [->|(B0 & y & ->)].
  - exists []. rewrite last_snoc in Hl. simplify_eq. rewrite length_app. cbn. split; [|done].
    rewrite Nat.add_sub, take_app_length, app_nil_r. done.
  - rewrite app_comm_cons, app_assoc, last_snoc in Hl. simplify_eq. exists (z :: B0). split.
    + replace (A ++ z :: B0 ++ [z]) with ((A ++ z :: B0) ++ [z]) by (by rewrite <- app_assoc). apply take_app_length'. rewrite !length_app. cbn. rewrite length_app. cbn. lia.
    + apply Permutation_cons_append.
Qed.

(** ** Growing *)

Lemma grow_cap_ok fuel nc fd : 0 < nc -> fd < 2 ^ 30 -> fd < nc * 2 ^ Z.of_nat fuel ->
  exists nc', grow_cap fuel nc fd = Some nc' /\ fd < nc' /\ nc <= nc' /\ (nc' = nc \/ nc' <= 2 * fd).
Proof.
  revert nc. induction fuel as [|fuel IH]; intros nc Hp Hfd Hf; cbn [grow_cap].
  - change (2 ^ Z.of_nat 0) with 1 in Hf. destruct (Z.leb_spec nc fd); [lia|]. exists nc. split_and!; [done|lia..].
  - destruct (Z.leb_spec nc fd); [|exists nc; split_and!; [done|lia..]]. destruct (Z.geb_spec (nc * 2) (2 ^ 31)); [lia|].
    destruct (IH (nc * 2)) as (nc' & E & H1 & H2 & H3); [lia|done| |exists nc'; split_and!; [done|lia|lia|lia]].
    rewrite Nat2Z.inj_succ, Z.pow_succ_r in Hf by lia. lia.
Qed.

Lemma grow_ok g fd : evp_base g -> fd_ok fd -> exists n,
  let g' := set_reg (ep_reg g ++ replicate n evreg0) g in
  pth_evp_grow_reg fd g = Some (true, g') /\ cached fd g' /\ evp_base g' /\ (forall f, regof g' f = regof g f).
Proof.
  intros Hi [Hf1 Hf2].
  assert (Hreg : forall n f, regof (set_reg (ep_reg g ++ replicate n evreg0) g) f = regof g f).
  { intros n f. unfold regof. destruct (f <? 0); [done|]. cbn. destruct (decide (Z.to_nat f < length (ep_reg g))%nat).
    - by rewrite lookup_app_l.
    - rewrite lookup_app_r by lia. rewrite (lookup_ge_None_2 (ep_reg g)) by lia. cbn.
      destruct (replicate n evreg0 !! _) eqn:Er; [|done]. by apply lookup_replicate in Er as [-> _]. }
  assert (Hinv : forall n, Z.of_nat (length (ep_reg g) + n) < 2 ^ 30 -> evp_base (set_reg (ep_reg g ++ replicate n evreg0) g)).
  { intros n Hn. destruct Hi as [H1 H2 H3 H4 H5 H8 H9]. constructor; try done; try (setoid_rewrite Hreg; done).
    cbn. rewrite length_app, length_replicate. lia. }
  unfold pth_evp_grow_reg. destruct (Z.ltb_spec fd (Z.of_nat (length (ep_reg g)))) as [Hlt|Hge].
  - exists 0%nat. cbn. rewrite app_nil_r. split_and!; [by destruct g|by split|by destruct g|done].
  - assert (Hl := vi_len _ Hi). destruct (grow_cap_ok 32 (if Z.of_nat (length (ep_reg g)) =? 0 then 64 else Z.of_nat (length (ep_reg g))) fd)
      as (nc & -> & H1 & H2 & H3); [destruct (Z.eqb_spec (Z.of_nat (length (ep_reg g))) 0); lia|lia| |].
    { destruct (Z.eqb_spec (Z.of_nat (length (ep_reg g))) 0); change (2 ^ Z.of_nat 32) with (2 ^ 32); lia. }
    rewrite (vi_alloc _ Hi). cbn [negb]. exists (Z.to_nat (nc - Z.of_nat (length (ep_reg g)))). split_and!; [done| | |apply Hreg].
    + split; [done|]. cbn. rewrite length_app, length_replicate. lia.
    + apply Hinv. destruct (Z.eqb_spec (Z.of_nat (length (ep_reg g))) 0); lia.
Qed.

(** ** Collecting *)

Definition wanted (g : evs) (fd : Z) : option Z :=
  if r_gen (regof g fd) =? ep_gen g then Some (r_want (regof g fd)) else None.
(** What a pass so far left alone. *)
Record collecting (g g' : evs) : Prop := {
  co_gen : ep_gen g' = ep_gen g;
  co_kernel : ep_kernel g' = ep_kernel g;
  co_force : ep_force g' = ep_force g;
  co_reval : ep_reval_ms g' = ep_reval_ms g;
  co_next : ep_nextreval g' = ep_nextreval g;
  co_reglist : ep_reglist g' = ep_reglist g;
  co_len : (length (ep_reg g) <= length (ep_reg g'))%nat;
  co_reg : forall fd, r_registered (regof g' fd) = r_registered (regof g fd) /\ r_regmask (regof g' fd) = r_regmask (regof g fd)
}.
Lemma collecting_refl g : collecting g g.
Proof. by constructor. Qed.
Lemma collecting_trans g1 g2 g3 : collecting g1 g2 -> collecting g2 g3 -> collecting g1 g3.
Proof.
  intros [A1 A2 A3 A4 A5 A6 AL A7] [B1 B2 B3 B4 B5 B6 BL B7]. constructor; try congruence; [lia|].
  intros fd. destruct (A7 fd), (B7 fd). split; congruence.
Qed.

Lemma want_ok g fd mask : evp_base g -> fd_ok fd -> exists g',
  pth_evp_want fd mask g = Some (true, g') /\ evp_base g' /\ collecting g g' /\
  wanted g' fd = Some (Z.lor (default 0 (wanted g fd)) mask) /\ (forall f, f <> fd -> wanted g' f = wanted g f).
Proof.
  intros Hi Hfd. unfold pth_evp_want. destruct (Z.ltb_spec fd 0) as [Hlt|_]; [destruct Hfd; lia|].
  destruct (grow_ok g fd Hi Hfd) as (n & E & Hc & Hi' & Hreg). rewrite (st_bind_Some _ _ _ _ _ E). cbn [negb].
  set (g1 := set_reg _ g) in *. rewrite (st_bind_Some _ _ _ _ _ (x_rd_reg fd g1 Hc)).
  rewrite (st_bind_Some get_st _ g1 g1 g1 eq_refl).
  assert (Hco : collecting g g1) by (constructor; try done; [cbn; rewrite length_app; lia|intros f; by rewrite Hreg]).
  assert (Hw1 : forall f, wanted g1 f = wanted g f) by (intros f; unfold wanted; by rewrite Hreg).
  clearbody g1. setoid_rewrite <- Hw1. destruct Hi' as [V1 V2 V3 V4 V5 V8 V9]. unfold wanted at 2.
  destruct (Z.eqb_spec (r_gen (regof g1 fd)) (ep_gen g1)) as [Hg|Hg]; cbn [negb];
    rewrite (st_bind_Some _ _ _ _ _ (x_wr_reg fd _ g1 Hc)).
  - eexists. split; [reflexivity|]. split; [|split; [|split]].
    + constructor; try done; cbn; try (intros f; rewrite regof_upd by done; case_decide; subst; cbn; auto); try apply V3.
      by rewrite length_insert.
    + eapply collecting_trans; [exact Hco|]. constructor; try done; [cbn; rewrite length_insert; lia|]. intros f. rewrite regof_upd by done. by case_decide; subst.
    + unfold wanted. rewrite regof_upd, decide_True by done. cbn. rewrite Hg, Z.eqb_refl. done.
    + intros f Hf. unfold wanted. rewrite regof_upd, decide_False by done. done.
  - unfold push_touched, pth_evp_push. cbn [ep_touched upd_reg set_reg ep_alloc ep_touchedcap]. setoid_rewrite V1.
    assert (Hnt : fd ∉ ep_touched g1) by (rewrite V5; tauto).
    assert (Hgen : 1 <= ep_gen g1) by (destruct (V3 fd); lia).
    match goal with |- context [match ?m with Some _ => _ | None => _ end] => assert (exists c, m = Some c) as [c ->] by (by repeat case_match; first [done|by eexists]) end.
    eexists. split; [reflexivity|].
    assert (HR : forall f, regof (set_touched (ep_touched g1 ++ [fd]) c (upd_reg fd (Evreg (ep_gen g1) (r_rdygen (regof g1 fd)) mask
      (r_regmask (regof g1 fd)) (r_ready (regof g1 fd)) (r_registered (regof g1 fd))) g1)) f =
      if decide (f = fd) then Evreg (ep_gen g1) (r_rdygen (regof g1 fd)) mask
      (r_regmask (regof g1 fd)) (r_ready (regof g1 fd)) (r_registered (regof g1 fd)) else regof g1 f).
    { intros f. rewrite <- (regof_upd fd _ g1 f Hc). done. }
    split; [|split; [|split]].
    + constructor; try done; cbn [ep_gen ep_touched ep_reglist set_touched upd_reg set_reg ep_reg].
      * intros f. rewrite HR. case_decide; [subst; cbn|apply V3]. split; [lia|apply V3].
      * apply NoDup_app. split_and!; [done| |apply NoDup_singleton]. by intros x Hx ->%list_elem_of_singleton.
      * intros f. rewrite elem_of_app, list_elem_of_singleton, HR. case_decide; subst; cbn; [tauto|]. rewrite V5. tauto.
      * by rewrite length_insert.
    + eapply collecting_trans; [exact Hco|]. constructor; try done; [cbn; rewrite length_insert; lia|]. intros f. rewrite HR. by case_decide; subst.
    + unfold wanted. rewrite HR, decide_True by done. cbn. by rewrite Z.eqb_refl.
    + intros f Hf. unfold wanted. rewrite HR, decide_False by done. done.
Qed.

(** A new pass: nothing is wanted and nothing ready, also when the generation
    wraps around. *)
Lemma begin_ok g : evp_base g -> exists g', pth_evp_begin g = Some (tt, g') /\ evp_base g' /\
  1 <= ep_gen g' /\ ep_kernel g' = ep_kernel g /\ ep_force g' = false /\ ep_reval_ms g' = ep_reval_ms g /\
  ep_nextreval g' = ep_nextreval g /\ ep_reglist g' = ep_reglist g /\ (length (ep_reg g) <= length (ep_reg g'))%nat /\
  (forall fd, r_registered (regof g' fd) = r_registered (regof g fd) /\ r_regmask (regof g' fd) = r_regmask (regof g fd)) /\
  (forall fd, wanted g' fd = None /\ pth_evp_ready fd g' = 0).
Proof.
  intros Hi. destruct Hi as [V1 V2 V3 V4 V5 V8 V9]. unfold pth_evp_begin.
  assert (Hready : forall g1 : evs, (forall fd, r_rdygen (regof g1 fd) < ep_gen g1) -> forall fd, pth_evp_ready fd g1 = 0).
  { intros g1 H1 fd. specialize (H1 fd). unfold pth_evp_ready, regof in *. destruct (Z.leb_spec 0 fd); [|done].
    destruct (Z.ltb_spec fd 0); [lia|]. destruct (ep_reg g1 !! Z.to_nat fd) as [r|]; [|done]. cbn in H1.
    destruct (Z.eqb_spec (r_rdygen r) (ep_gen g1)); [lia|done]. }
  set (g1 := set_force false _ _). assert (Hr1 : forall fd, regof g1 fd = regof g fd) by done.
  assert (Hgen1 : ep_gen g1 = u32 (ep_gen g + 1)) by done. destruct (Z.eqb_spec (ep_gen g1) 0) as [Hz|Hnz].
  - set (wipe := fun r => Evreg 0 0 (r_want r) (r_regmask r) (r_ready r) (r_registered r)).
    set (g2 := set_gen 1 _). assert (Hr2 : forall fd, regof g2 fd = wipe (regof g fd)).
    { intros fd. rewrite <- Hr1. unfold regof. destruct (fd <? 0); [done|]. cbn. rewrite list_lookup_fmap.
      by destruct (ep_reg g !! Z.to_nat fd). }
    exists g2. split; [done|]. split; [|split_and!; try done; try (intros fd; rewrite Hr2; done); try (cbn; rewrite length_fmap; lia)].
    + constructor; try done; try (intros fd; rewrite Hr2; cbn; try apply V7; lia); try (apply NoDup_nil_2).
      * intros fd. rewrite Hr2. cbn. split; [by intros ?%not_elem_of_nil|lia].
      * cbn. by rewrite length_fmap.
    + intros fd. split; [unfold wanted; by rewrite Hr2|]. apply Hready. intros f. rewrite Hr2. cbn. lia.
  - assert (Hg : ep_gen g1 = ep_gen g + 1).
    { rewrite Hgen1 in *. unfold u32, wrap in *. destruct (decide (ep_gen g + 1 = 2 ^ 32)) as [He|Hne].
      - rewrite He, Z.mod_same in Hnz; lia.
      - apply Z.mod_small. lia. }
    assert (Hlt : 0 <= ep_gen g1 < 2 ^ 32) by (rewrite Hgen1; apply Z.mod_pos_bound; lia).
    exists g1. split; [done|]. split; [|split_and!; try done; try lia].
    + constructor; try done; try (apply NoDup_nil_2); try (intros fd; rewrite Hr1; specialize (V3 fd); lia).
      intros fd. rewrite Hr1. specialize (V3 fd). split; [by intros ?%not_elem_of_nil|lia].
    + intros fd. split; [|apply Hready; intros f; rewrite Hr1; specialize (V3 f); lia].
      unfold wanted. rewrite Hr1. specialize (V3 fd). destruct (Z.eqb_spec (r_gen (regof g fd)) (ep_gen g1)); [lia|done].
Qed.

Lemma wanted_touched g fd m : evp_base g -> 1 <= ep_gen g -> wanted g fd = Some m <-> fd ∈ ep_touched g /\ r_want (regof g fd) = m.
Proof.
  intros Hi Hg. unfold wanted. rewrite (vi_touched _ Hi). destruct (Z.eqb_spec (r_gen (regof g fd)) (ep_gen g)); [|by split; [|intros [[_ ?] _]]].
  split; [by intros [= <-]|by intros [_ <-]].
Qed.
Lemma ready_eq fd g : evp_base g -> 1 <= ep_gen g -> r_rdygen (regof g fd) = ep_gen g -> pth_evp_ready fd g = r_ready (regof g fd).
Proof.
  intros Hi Hg Hr. unfold pth_evp_ready, regof in *. destruct (Z.leb_spec 0 fd), (Z.ltb_spec fd 0); try lia; cbn in *; try lia.
  destruct (ep_reg g !! Z.to_nat fd) as [r|]; cbn in *; [|lia]. by rewrite Hr, Z.eqb_refl.
Qed.

Fixpoint want_all (l : list (Z * Z)) : st evs unit :=
  match l with [] => mret tt | x :: l' => pth_evp_want x.1 x.2;; want_all l' end.
(** What is wanted: for every descriptor the union. *)
Definition want_map (l : list (Z * Z)) (M : gmap Z Z) : gmap Z Z :=
  foldl (fun M x => <[x.1 := Z.lor (default 0 (M !! x.1)) x.2]> M) M l.

Lemma want_all_ok l g M : evp_base g -> Forall fd_ok l.*1 -> (forall fd, wanted g fd = M !! fd) ->
  exists g', want_all l g = Some (tt, g') /\ evp_base g' /\ collecting g g' /\ (forall fd, wanted g' fd = want_map l M !! fd).
Proof.
  revert g M. induction l as [|[fd m] l IH]; intros g M Hi Hl HM; cbn [want_all].
  - by exists g.
  - rewrite fmap_cons in Hl. apply Forall_cons in Hl as [Hfd Hl]. cbn [fst snd] in *.
    destruct (want_ok g fd m Hi Hfd) as (g1 & E1 & Hi1 & Hc1 & Hw1 & Ho1). rewrite (st_bind_Some _ _ _ _ _ E1).
    destruct (IH g1 (<[fd := Z.lor (default 0 (M !! fd)) m]> M) Hi1 Hl) as (g2 & E2 & Hi2 & Hc2 & Hw2).
    { intros f. destruct (decide (f = fd)) as [->|Hf]; [by rewrite Hw1, HM, lookup_insert_eq|by rewrite Ho1, HM, lookup_insert_ne]. }
    exists g2. split_and!; try done. by eapply collecting_trans.
Qed.

Definition heartbeat (now : pth_time_t) (g : evs) : bool :=
  (ep_reval_ms g >? 0) && (pth_time_cmp now (ep_nextreval g) >=? 0).

(** The commit of a backend runs after the signal pipe and the heartbeat. *)
Lemma evp_commit_run commit now pipe g : evp_base g -> fd_ok pipe -> exists g1,
  evp_commit commit now pipe g = commit g1 /\ evp_base g1 /\
  ep_gen g1 = ep_gen g /\ ep_force g1 = (if heartbeat now g then true else ep_force g) /\ ep_kernel g1 = ep_kernel g /\
  ep_reglist g1 = ep_reglist g /\ (length (ep_reg g) <= length (ep_reg g1))%nat /\
  (forall fd, r_registered (regof g1 fd) = r_registered (regof g fd) /\ r_regmask (regof g1 fd) = r_regmask (regof g fd)) /\
  (forall fd, wanted g1 fd = if decide (fd = pipe) then Some (Z.lor (default 0 (wanted g pipe)) PTH_EVP_R) else wanted g fd).
Proof.
  intros Hi Hp. unfold evp_commit, evp_add.
  destruct (want_ok g pipe PTH_EVP_R Hi Hp) as (g1 & E1 & Hi1 & [D1 D2 D3 D4 D5 D6 DL D7] & Hw & Ho).
  rewrite st_bind_assoc, (st_bind_Some _ _ _ _ _ E1). unfold mret at 1, st_ret. cbn beta iota.
  rewrite (st_bind_Some (fun s => Some (tt, s)) _ g1 tt g1 eq_refl), (st_bind_Some get_st _ g1 g1 g1 eq_refl).
  assert (Hwant : forall fd, wanted g1 fd = if decide (fd = pipe) then Some (Z.lor (default 0 (wanted g pipe)) PTH_EVP_R) else wanted g fd).
  { intros fd. case_decide; [subst|]; auto. }
  change ((ep_reval_ms g1 >? 0) && (pth_time_cmp now (ep_nextreval g1) >=? 0)) with (heartbeat now g1).
  assert (Hh : heartbeat now g1 = heartbeat now g) by (unfold heartbeat; by rewrite D4, D5). rewrite Hh. destruct (heartbeat now g).
  - set (g2 := set_force true _ g1). assert (Hi2 : evp_base g2) by (by destruct Hi1). by exists g2.
  - by exists g1.
Qed.

(** A pass up to its commit: what is wanted, and the rest as before. *)
Lemma collect_run commit now pipe (l : list (Z * Z)) g : evp_base g -> Forall fd_ok l.*1 -> fd_ok pipe -> exists g',
  (pth_evp_begin;; want_all l;; evp_commit commit now pipe) g = commit g' /\ evp_base g' /\ 1 <= ep_gen g' /\
  ep_force g' = heartbeat now g /\ ep_kernel g' = ep_kernel g /\ ep_reglist g' = ep_reglist g /\ (length (ep_reg g) <= length (ep_reg g'))%nat /\
  (forall fd, r_registered (regof g' fd) = r_registered (regof g fd) /\ r_regmask (regof g' fd) = r_regmask (regof g fd)) /\
  (forall fd, wanted g' fd = want_map (l ++ [(pipe, PTH_EVP_R)]) ∅ !! fd).
Proof.
  intros Hi Hl Hp. destruct (begin_ok g Hi) as (g1 & E1 & Hi1 & Hgen & Hk1 & Hf1 & Hr1 & Hn1 & HL1 & HN1 & Hreg1 & Hw1).
  destruct (want_all_ok l g1 ∅ Hi1 Hl) as (g2 & E2 & Hi2 & [D1 D2 D3 D4 D5 D6 DL D7] & Hw2).
  { intros fd. rewrite lookup_empty. apply Hw1. }
  destruct (evp_commit_run commit now pipe g2 Hi2 Hp) as (g3 & E3 & Hi3 & G1 & G2 & G3 & G4 & GL & G5 & G6).
  exists g3. rewrite (st_bind_Some _ _ _ _ _ E1), (st_bind_Some _ _ _ _ _ E2). split_and!; [done|done|lia| |congruence|congruence|lia| |].
  - assert (Hh : heartbeat now g2 = heartbeat now g) by (unfold heartbeat; congruence). rewrite G2, Hh, D3, Hf1. by destruct (heartbeat now g).
  - intros fd. destruct (G5 fd) as [-> ->], (D7 fd) as [-> ->]. apply Hreg1.
  - intros fd. rewrite G6. unfold want_map. rewrite foldl_app. cbn [foldl fst snd]. fold (want_map l ∅). case_decide as Hd.
    + subst. by rewrite Hw2, lookup_insert_eq.
    + by rewrite Hw2, lookup_insert_ne.
Qed.
End cache.
