(* ===== verification/Epollspec.v ===== *)
(** * The registration cache of the epoll(7) backend is right

    The kernel's documented behaviour as laws over its interest set; the
    invariant of the cache and its coherence with the interest set; what a pass
    hands over: the kernel watches what is wanted and nothing else. *)

From stdpp Require Import base numbers gmap list.
From S2P Require Import Prelude Timeval Util Event Queues World Thread Evman Evstep Pollset Epoll Evreg.
Open Scope Z_scope.

(** epoll_ctl(2): adding fails with [EEXIST] exactly for a descriptor in the
    interest set, other failures leave the set alone; a descriptor in the set
    can be changed and removed. epoll_wait(2): the set only shrinks by
    descriptors that are closed, and not all waits are interrupted. *)
Class EpollLaws (K : Type) `{!EpollSys K} := {
  es_int : K -> gmap Z Z;
  es_add_in : forall fd e k, is_Some (es_int k !! fd) ->
    exists k', sys_ctl EPOLL_CTL_ADD fd e k = (-1, EEXIST, k') /\ es_int k' = es_int k;
  es_add : forall fd e k, es_int k !! fd = None -> exists rc err k', sys_ctl EPOLL_CTL_ADD fd e k = (rc, err, k') /\
    (rc = 0 /\ es_int k' = <[fd := e]> (es_int k) \/ rc <> 0 /\ err <> EEXIST /\ es_int k' = es_int k);
  es_mod_in : forall fd e k, is_Some (es_int k !! fd) ->
    exists err k', sys_ctl EPOLL_CTL_MOD fd e k = (0, err, k') /\ es_int k' = <[fd := e]> (es_int k);
  es_mod : forall fd e k, es_int k !! fd = None ->
    exists rc err k', sys_ctl EPOLL_CTL_MOD fd e k = (rc, err, k') /\ rc <> 0 /\ es_int k' = es_int k;
  es_del : forall fd e k, exists rc err k', sys_ctl EPOLL_CTL_DEL fd e k = (rc, err, k') /\ es_int k' = delete fd (es_int k);
  es_wait : forall m t k, exists n err l k', sys_wait m t k = (n, err, l, k') /\ es_int k' ⊆ es_int k /\
    (n < 0 -> err = EINTR -> (sys_patience k' < sys_patience k)%nat)
}.

Section spec.
Context {K : Type} `{!EpollSys K, !EpollLaws K}.
Abbreviation evs := (evp K).

Abbreviation kint g := (es_int (ep_kernel g)).

(** Every registered descriptor is listed once. *)
Record evp_inv (g : evs) : Prop := {
  vi_base :> evp_base g;
  vi_rnd : NoDup (ep_reglist g);
  vi_reg : forall fd, fd ∈ ep_reglist g <-> r_registered (regof g fd) = true
}.

(** What the kernel has is what the cache says, where it says something. *)
Definition coherent (g : evs) : Prop := forall fd e, kint g !! fd = Some e ->
  r_registered (regof g fd) = true -> e = pth_evp_to_epoll (r_regmask (regof g fd)).

(** ** Handing over *)

(** The outcome for one descriptor: the kernel has what is wanted, or refused
    it, or was not asked since the cache has it. *)
Inductive handed (fd : Z) (g g' : evs) : Prop :=
| handed_ok : r_registered (regof g' fd) = true -> r_regmask (regof g' fd) = r_want (regof g fd) ->
    kint g' !! fd = Some (pth_evp_to_epoll (r_want (regof g fd))) -> handed fd g g'
| handed_fail : r_registered (regof g' fd) = false -> r_ready (regof g' fd) = PTH_EVP_FAIL ->
    r_rdygen (regof g' fd) = ep_gen g -> kint g' !! fd = None -> handed fd g g'
| handed_lost : r_registered (regof g fd) = true -> r_regmask (regof g fd) = r_want (regof g fd) ->
    regof g' fd = regof g fd -> ep_force g = false -> kint g !! fd = None -> kint g' !! fd = None -> handed fd g g'.

(** The state after one descriptor. *)
Definition after (fd : Z) (r : evreg) (k : K) (R : list Z) (c : Z) (g : evs) : evs :=
  set_reglist R c (upd_reg fd r (set_kernel k g)).
Lemma regof_after fd r k R c g f : cached fd g -> regof (after fd r k R c g) f = if decide (f = fd) then r else regof g f.
Proof. intros Hc. by rewrite <- (regof_upd fd r g f Hc). Qed.
Lemma after_id fd g : cached fd g -> after fd (regof g fd) (ep_kernel g) (ep_reglist g) (ep_reglistcap g) g = g.
Proof.
  intros Hc. unfold after, upd_reg. rewrite list_insert_id by (cbn; by apply cached_lookup). by destruct g.
Qed.
Lemma x_ctl op fd e (g : evs) rc err k : sys_ctl op fd e (ep_kernel g) = (rc, err, k) ->
  epoll_ctl op fd e g = Some ((rc, err), set_kernel k g).
Proof. intros Hs. unfold epoll_ctl. by rewrite Hs. Qed.

Record ctl_post (fd : Z) (g : evs) (r : evreg) (k : K) (R : list Z) (c : Z) : Prop := {
  cp_gen : r_gen r = r_gen (regof g fd);
  cp_want : r_want r = r_want (regof g fd);
  cp_rdygen : r_rdygen r = r_rdygen (regof g fd) \/ r_rdygen r = ep_gen g;
  cp_kernel : forall f, f <> fd -> es_int k !! f = kint g !! f;
  cp_reglist : R = ep_reglist g /\ (r_registered r = true -> r_registered (regof g fd) = true) \/
    R = ep_reglist g ++ [fd] /\ r_registered (regof g fd) = false;
  cp_handed : handed fd g (after fd r k R c g)
}.
Definition ctl_result (fd : Z) (g : evs) (res : option (unit * evs)) : Prop :=
  exists r k R c, res = Some (tt, after fd r k R c g) /\ ctl_post fd g r k R c.

Lemma res_push fd g k : (forall n, ep_alloc g n = true) -> cached fd g -> (forall f, f <> fd -> es_int k !! f = kint g !! f) ->
  es_int k !! fd = Some (pth_evp_to_epoll (r_want (regof g fd))) -> r_registered (regof g fd) = false ->
  ctl_result fd g ((wr_reg fd (reg_ok (regof g fd));; push_reglist fd;; mret tt) (set_kernel k g)).
Proof.
  intros Ha Hc H1 H2 H3. destruct (x_push_reglist fd (upd_reg fd (reg_ok (regof g fd)) (set_kernel k g)) Ha) as [c Ep].
  exists (reg_ok (regof g fd)), k, (ep_reglist g ++ [fd]), c. split.
  - by rewrite (st_bind_Some _ _ _ _ _ (x_wr_reg fd _ (set_kernel k g) Hc)), (st_bind_Some _ _ _ _ _ Ep).
  - constructor; try done; auto. apply handed_ok; rewrite ?regof_after, ?decide_True by done; done.
Qed.
Lemma res_wr fd g k r : cached fd g -> (forall f, f <> fd -> es_int k !! f = kint g !! f) ->
  r_gen r = r_gen (regof g fd) -> r_want r = r_want (regof g fd) ->
  (r_rdygen r = r_rdygen (regof g fd) \/ r_rdygen r = ep_gen g) ->
  (r_registered r = true -> r_registered (regof g fd) = true) ->
  (r_registered r = true /\ r_regmask r = r_want (regof g fd) /\ es_int k !! fd = Some (pth_evp_to_epoll (r_want (regof g fd))) \/
   r_registered r = false /\ r_ready r = PTH_EVP_FAIL /\ r_rdygen r = ep_gen g /\ es_int k !! fd = None) ->
  ctl_result fd g (wr_reg fd r (set_kernel k g)).
Proof.
  intros Hc H1 H2 H3 H4 H5 H6. exists r, k, (ep_reglist g), (ep_reglistcap g). split.
  - by rewrite (x_wr_reg fd r (set_kernel k g) Hc).
  - constructor; try done; auto. destruct H6 as [(?&?&?)|(?&?&?&?)];
      [apply handed_ok|apply handed_fail]; rewrite ?regof_after, ?decide_True by done; done.
Qed.

Lemma ctl_ok fd g : (forall n, ep_alloc g n = true) -> cached fd g ->
  (forall e, kint g !! fd = Some e -> r_registered (regof g fd) = true -> e = pth_evp_to_epoll (r_regmask (regof g fd))) ->
  ctl_result fd g (pth_evp_ctl fd g).
Proof.
  intros Ha Hc Hco. unfold pth_evp_ctl. rewrite (st_bind_Some _ _ _ _ _ (x_rd_reg fd g Hc)).
  rewrite (st_bind_Some get_st _ g g g eq_refl). set (ev := pth_evp_to_epoll (r_want (regof g fd))).
  destruct (r_registered (regof g fd)) eqn:Er; cbn [negb].
  - destruct (kint g !! fd) as [e|] eqn:Ek.
    + destruct (es_mod_in fd ev (ep_kernel g)) as (err & k & Es & Hk); [by rewrite Ek|].
      destruct (negb _ || _) eqn:Et.
      * rewrite (st_bind_Some _ _ _ _ _ (x_ctl _ _ _ _ _ _ _ Es)). cbn [fst snd]. rewrite Z.eqb_refl.
        apply res_wr; try done; auto; try (intros f Hf; by rewrite Hk, lookup_insert_ne). left. by rewrite Hk, lookup_insert_eq.
      * apply orb_false_iff in Et as [Et _]. apply negb_false_iff, Z.eqb_eq in Et.
        exists (regof g fd), (ep_kernel g), (ep_reglist g), (ep_reglistcap g). rewrite after_id by done. split; [done|].
        constructor; try done; auto. apply handed_ok; rewrite ?after_id; try done. rewrite Ek. f_equal. rewrite (Hco e) by done. by rewrite Et.
    + destruct (es_mod fd ev (ep_kernel g) Ek) as (rc & err & k & Es & Hrc & Hk).
      destruct (negb _ || _) eqn:Et.
      * rewrite (st_bind_Some _ _ _ _ _ (x_ctl _ _ _ _ _ _ _ Es)). cbn [fst snd]. destruct (Z.eqb_spec rc 0); [done|].
        assert (Hlost : forall k', es_int k' = kint g -> ctl_result fd g (wr_reg fd (reg_lost (ep_gen g) (regof g fd)) (set_kernel k' g))).
        { intros k' Hk'. apply res_wr; try done; auto; [by rewrite Hk'|]. right. by rewrite Hk'. }
        case_bool_decide; [|by apply Hlost].
        rewrite <- Hk in Ek. destruct (es_add fd ev k Ek) as (rc2 & err2 & k2 & Es2 & H2).
        rewrite (st_bind_Some _ _ (set_kernel k g) _ _ (x_ctl _ _ _ (set_kernel k g) _ _ _ Es2)). cbn [fst snd].
        destruct H2 as [[-> Hk2]|(Hrc2 & _ & Hk2)].
        -- rewrite Z.eqb_refl. apply (res_wr fd g k2); try done; auto; [intros f Hf; by rewrite Hk2, lookup_insert_ne, Hk|].
           left. by rewrite Hk2, lookup_insert_eq.
        -- destruct (Z.eqb_spec rc2 0); [done|]. apply (Hlost k2). by rewrite Hk2.
      * apply orb_false_iff in Et as [Et Ef]. apply negb_false_iff, Z.eqb_eq in Et.
        exists (regof g fd), (ep_kernel g), (ep_reglist g), (ep_reglistcap g). rewrite after_id by done. split; [done|].
        constructor; try done; auto. apply handed_lost; rewrite ?after_id; done.
  - destruct (kint g !! fd) as [e|] eqn:Ek.
    + destruct (es_add_in fd ev (ep_kernel g)) as (k & Es & Hk); [by rewrite Ek|].
      rewrite (st_bind_Some _ _ _ _ _ (x_ctl _ _ _ _ _ _ _ Es)). cbn [fst snd]. rewrite bool_decide_eq_true_2 by done.
      destruct (es_mod_in fd ev k) as (err2 & k2 & Es2 & Hk2); [by rewrite Hk, Ek|].
      change (-1 =? 0) with false. cbv iota.
      rewrite (st_bind_Some _ _ (set_kernel k g) _ _ (x_ctl _ _ _ (set_kernel k g) _ _ _ Es2)). cbn [fst snd]. rewrite Z.eqb_refl.
      apply (res_push fd g k2); try done; [intros f Hf; by rewrite Hk2, lookup_insert_ne, Hk|by rewrite Hk2, lookup_insert_eq].
    + destruct (es_add fd ev (ep_kernel g) Ek) as (rc & err & k & Es & H2).
      rewrite (st_bind_Some _ _ _ _ _ (x_ctl _ _ _ _ _ _ _ Es)). cbn [fst snd]. destruct H2 as [[-> Hk]|(Hrc & He & Hk)].
      * rewrite Z.eqb_refl. apply res_push; try done; [intros f Hf; by rewrite Hk, lookup_insert_ne|by rewrite Hk, lookup_insert_eq].
      * destruct (Z.eqb_spec rc 0); [done|]. rewrite bool_decide_eq_false_2 by done.
        apply res_wr; try done; auto; [by rewrite Hk|]. right. cbn. by rewrite Hk, Er.
Qed.

(** All wanted descriptors, from [g]; those of [todo] are still to come. *)
Record committing (todo : list Z) (g g' : evs) : Prop := {
  cm_alloc : forall n, ep_alloc g' n = true;
  cm_gen : ep_gen g' = ep_gen g;
  cm_touched : ep_touched g' = ep_touched g;
  cm_cap : ep_evcap g' = ep_evcap g;
  cm_len : length (ep_reg g') = length (ep_reg g);
  cm_force : ep_force g' = ep_force g;
  cm_nd : NoDup (ep_reglist g');
  cm_in : forall f, r_registered (regof g' f) = true -> f ∈ ep_reglist g';
  cm_list : forall f, f ∈ ep_reglist g' -> cached f g';
  cm_entry : forall f, r_gen (regof g' f) = r_gen (regof g f) /\ r_want (regof g' f) = r_want (regof g f) /\
    (r_rdygen (regof g' f) = r_rdygen (regof g f) \/ r_rdygen (regof g' f) = ep_gen g);
  cm_new : forall f, f ∈ todo -> f ∈ ep_reglist g' -> r_registered (regof g' f) = true;
  cm_other : forall f, f ∉ ep_touched g \/ f ∈ todo -> regof g' f = regof g f /\ kint g' !! f = kint g !! f;
  cm_done : forall f, f ∈ ep_touched g -> f ∉ todo -> handed f g g'
}.

Lemma handed_ext f g g1 g2 : regof g2 f = regof g1 f -> kint g2 !! f = kint g1 !! f -> handed f g g1 -> handed f g g2.
Proof.
  intros Hr Hk [? ? ?|? ? ? ?|? ? ? ? ? ?]; [apply handed_ok|apply handed_fail|apply handed_lost]; rewrite ?Hr, ?Hk; done.
Qed.
Lemma handed_base f g g1 g' : regof g1 f = regof g f -> kint g1 !! f = kint g !! f -> ep_gen g1 = ep_gen g ->
  ep_force g1 = ep_force g -> handed f g1 g' -> handed f g g'.
Proof.
  intros Hr Hk Hg Hf [? ? ?|? ? ? ?|? ? ? ? ? ?]; rewrite <- ?Hr in *; [apply handed_ok|apply handed_fail|apply handed_lost];
    rewrite <- ?Hr, <- ?Hk, <- ?Hg, <- ?Hf; done.
Qed.

Lemma ctl_all_ok g todo g1 : evp_inv g -> coherent g -> todo ⊆ ep_touched g -> NoDup todo -> committing todo g g1 ->
  exists g2, ctl_all todo g1 = Some (tt, g2) /\ committing [] g g2.
Proof.
  intros Hi Hco. revert g1. induction todo as [|fd todo IH]; intros g1 Hsub Hnd Hc; cbn [ctl_all]; [by exists g1|].
  apply NoDup_cons in Hnd as [Hni Hnd].
  assert (Ht : fd ∈ ep_touched g) by (apply Hsub; by left).
  assert (Hcached : cached fd g1) by (unfold cached; rewrite (cm_len _ _ _ Hc); apply touched_cached; [apply Hi|done]).
  destruct (cm_other _ _ _ Hc fd) as [Hr Hk]; [right; by left|].
  destruct (ctl_ok fd g1 (cm_alloc _ _ _ Hc) Hcached) as (r & k & R & c & E & [P1 P2 P3 P4 P5 P6]).
  { rewrite Hr, Hk. apply Hco. }
  rewrite (st_bind_Some _ _ _ _ _ E). set (g2 := after fd r k R c g1) in *.
  assert (Hr2 : forall f, regof g2 f = if decide (f = fd) then r else regof g1 f) by (intros f; by apply regof_after).
  assert (HR : forall f, f ∈ R <-> f ∈ ep_reglist g1 \/ f = fd /\ R <> ep_reglist g1).
  { intros f. destruct P5 as [[-> _]|[-> _]]; [intuition|]. rewrite elem_of_app, list_elem_of_singleton. split; [|tauto].
    intros [?| ->]; [by left|]. right. split; [done|]. intros He. apply (f_equal length) in He. rewrite length_app in He. cbn in He. lia. }
  destruct Hc as [C1 C2 C3 C4 C5 C6 C7 C8 C9 C10 C11 C12 C13].
  apply IH; [by intros f Hf; apply Hsub; right|done|]. constructor; try done; change (ep_reglist g2) with R.
  - cbn. by rewrite length_insert.
  - destruct P5 as [[-> _]|[-> Hnr]]; [done|]. apply NoDup_app. split_and!; [done| |apply NoDup_singleton].
    intros f Hf ->%list_elem_of_singleton. specialize (C11 fd). rewrite C11 in Hnr; [done|by left|done].
  - intros f. rewrite Hr2, HR. case_decide as Hf; [subst f|intros Hrf; left; by apply C8].
    intros Hrr. destruct P5 as [[-> Hreg]|[-> _]]; [left; by apply C8, Hreg|].
    destruct (decide (fd ∈ ep_reglist g1)); [by left|]. right. split; [done|]. intros He. apply (f_equal length) in He.
    rewrite length_app in He. cbn in He. lia.
  - intros f Hf. change (cached f (upd_reg fd r g1)). rewrite cached_upd. apply HR in Hf as [Hf|[-> _]]; [by apply C9|done].
  - intros f. rewrite Hr2. case_decide; [subst f|apply C10]. rewrite P1, P2. destruct (C10 fd) as (Q1 & Q2 & Q3). split_and!; try done.
    destruct P3 as [->| ->]; [done|by right].
  - intros f Hf. rewrite HR, Hr2. assert (f <> fd) by (by intros ->). rewrite decide_False by done.
    intros [Hin|[? _]]; [|done]. apply C11; [by right|done].
  - intros f Hf. assert (f <> fd) by (intros ->; tauto). rewrite Hr2, decide_False by done.
    change (kint g2) with (es_int k). rewrite P4 by done. apply C12. destruct Hf; [by left|right; by right].
  - intros f Hf Hnf. destruct (decide (f = fd)) as [->|Hne].
    + eapply handed_base; [..|exact P6]; done.
    + eapply handed_ext; [..|apply (C13 f Hf)]; [by rewrite Hr2, decide_False|by apply P4|by intros [?|?]%elem_of_cons].
Qed.

(** ** Sweeping *)

(** Not wanted in this pass, or refused. *)
Definition stale (g : evs) (f : Z) : Prop := r_gen (regof g f) <> ep_gen g \/ r_registered (regof g f) = false.
#[local] Instance stale_dec g f : Decision (stale g f).
Proof. unfold stale. apply _. Defined.

Record swept (B : list Z) (g g' : evs) : Prop := {
  sw_same : (forall n, ep_alloc g' n = ep_alloc g n) /\ ep_gen g' = ep_gen g /\ ep_touched g' = ep_touched g /\
    ep_evcap g' = ep_evcap g /\ ep_force g' = ep_force g /\ length (ep_reg g') = length (ep_reg g);
  sw_nd : NoDup (ep_reglist g');
  sw_list : forall f, f ∈ ep_reglist g' <-> f ∈ ep_reglist g /\ ~ (f ∈ B /\ stale g f);
  sw_reg : forall f, regof g' f = if decide (f ∈ B /\ stale g f) then reg_off (regof g f) else regof g f;
  sw_kint : forall f, kint g' !! f =
    if decide (f ∈ B /\ stale g f /\ r_registered (regof g f) = true) then None else kint g !! f
}.

Lemma swept_cons x B B' g g1 g2 : B' ≡ₚ B -> NoDup (x :: B) -> stale g x ->
  (forall f, regof g1 f = if decide (f = x) then reg_off (regof g x) else regof g f) ->
  (forall f, kint g1 !! f = if decide (f = x /\ r_registered (regof g x) = true) then None else kint g !! f) ->
  (forall f, f ∈ ep_reglist g1 <-> f ∈ ep_reglist g /\ f <> x) ->
  (forall n, ep_alloc g1 n = ep_alloc g n) -> ep_gen g1 = ep_gen g -> ep_touched g1 = ep_touched g ->
  ep_evcap g1 = ep_evcap g -> ep_force g1 = ep_force g -> length (ep_reg g1) = length (ep_reg g) ->
  swept B' g1 g2 -> swept (x :: B) g g2.
Proof.
  intros HB Hnd Hst Hr Hk HR F1 F2 F3 F4 F5 F6 [(S1 & S2 & S3 & S4 & S5 & S6) S7 S8 S9 S10].
  apply NoDup_cons in Hnd as [Hx Hnd].
  assert (Hs1 : forall f, f <> x -> (stale g1 f <-> stale g f)).
  { intros f Hf. unfold stale. by rewrite Hr, decide_False, F2. }
  assert (Hin : forall f, f ∈ B' <-> f ∈ B) by (intros f; by rewrite HB).
  constructor; [split_and!; congruence || (intros n; by rewrite S1)|done|..]; intros f.
  - rewrite S8, HR, Hin, elem_of_cons. destruct (decide (f = x)) as [->|Hf]; [tauto|]. rewrite Hs1 by done. tauto.
  - rewrite S9, Hr. destruct (decide (f = x)) as [->|Hf].
    + rewrite decide_False by (rewrite Hin; tauto). rewrite decide_True; [done|]. split; [by left|done].
    + erewrite decide_ext; [done|]. rewrite Hin, elem_of_cons, Hs1 by done. tauto.
  - rewrite S10, Hk. destruct (decide (f = x)) as [->|Hf].
    + rewrite decide_False by (rewrite Hin; tauto). apply decide_ext. rewrite elem_of_cons. tauto.
    + rewrite (decide_False (P := f = x /\ _)) by tauto. apply decide_ext. rewrite Hin, elem_of_cons, Hs1 by done.
      rewrite Hr, decide_False by done. tauto.
Qed.

Lemma swept_nil g : NoDup (ep_reglist g) -> swept [] g g.
Proof.
  intros Hnd. constructor; try done; intros f; [|by rewrite decide_False by (intros [?%not_elem_of_nil _]; done)..].
  split; [|tauto]. intros ?. split; [done|]. by intros [?%not_elem_of_nil _].
Qed.
Lemma swept_keep x B g g2 : ~ stale g x -> swept B g g2 -> swept (x :: B) g g2.
Proof.
  intros Hs [S1 S2 S3 S4 S5]. constructor; try done; intros f.
  - rewrite S3, elem_of_cons. destruct (decide (f = x)) as [->|]; tauto.
  - rewrite S4. apply decide_ext. rewrite elem_of_cons. destruct (decide (f = x)) as [->|]; tauto.
  - rewrite S5. apply decide_ext. rewrite elem_of_cons. destruct (decide (f = x)) as [->|]; tauto.
Qed.

(** The iteration at a stale entry. *)
Lemma sweep_drop x g : cached x g -> exists k, 
  ((if r_registered (regof g x) then epoll_ctl EPOLL_CTL_DEL x 0;; mret tt else mret tt);;
    wr_reg x (reg_off (regof g x))) g = Some (tt, upd_reg x (reg_off (regof g x)) (set_kernel k g)) /\
  (forall f, es_int k !! f = if decide (f = x /\ r_registered (regof g x) = true) then None else kint g !! f).
Proof.
  intros Hc. destruct (r_registered (regof g x)).
  - destruct (es_del x 0 (ep_kernel g)) as (rc & err & k & Es & Hk). exists k. split.
    + rewrite (st_bind_Some _ _ g tt (set_kernel k g)).
      * by rewrite (x_wr_reg x _ (set_kernel k g) Hc).
      * by rewrite (st_bind_Some _ _ _ _ _ (x_ctl _ _ _ _ _ _ _ Es)).
    + intros f. rewrite Hk. destruct (decide (f = x)) as [->|Hf]; [rewrite lookup_delete_eq, decide_True by done; done|].
      rewrite lookup_delete_ne, decide_False by (try done; tauto). done.
  - exists (ep_kernel g). split.
    + rewrite (st_bind_Some (mret tt) _ g tt g eq_refl), (x_wr_reg x _ g Hc). by destruct g.
    + intros f. by rewrite decide_False by (intros [_ ?]; done).
Qed.

Lemma sweep_ok fuel A B g : ep_reglist g = A ++ B -> NoDup (A ++ B) -> (forall f, f ∈ B -> cached f g) -> (length B <= fuel)%nat ->
  exists g', evp_sweep fuel (length A) g = Some (tt, g') /\ swept B g g'.
Proof.
  revert A B g. induction fuel as [|fuel IH]; intros A B g HL Hnd Hc Hf.
  - destruct B; [|cbn in Hf; lia]. rewrite app_nil_r in *. cbn [evp_sweep]. rewrite (st_bind_Some get_st _ g g g eq_refl).
    rewrite HL, lookup_ge_None_2 by lia. exists g. split; [done|]. apply swept_nil. by rewrite HL.
  - cbn [evp_sweep]. rewrite (st_bind_Some get_st _ g g g eq_refl). destruct B as [|x B].
    + rewrite app_nil_r in *. rewrite HL, lookup_ge_None_2 by lia. exists g. split; [done|]. apply swept_nil. by rewrite HL.
    + rewrite HL, list_lookup_middle by done. assert (Hcx : cached x g) by (apply Hc; by left).
      rewrite (st_bind_Some _ _ _ _ _ (x_rd_reg x g Hcx)). destruct (negb _ || _) eqn:Et.
      * assert (Hst : stale g x).
        { unfold stale. apply orb_true_iff in Et as [Et|Et]; [left; by apply negb_true_iff, Z.eqb_neq in Et|right; by apply negb_true_iff in Et]. }
        destruct (sweep_drop x g Hcx) as (k & E & Hk). rewrite <- st_bind_assoc, (st_bind_Some _ _ _ _ _ E).
        set (g1 := upd_reg x _ _) in *. rewrite (st_bind_Some get_st _ g1 g1 g1 eq_refl). change (ep_reglist g1) with (ep_reglist g).
        rewrite HL. destruct (last (A ++ x :: B)) as [z|] eqn:El; [|by apply last_None in El; destruct A].
        destruct (swap_out A B x z El) as (B' & -> & HB). unfold put_st. cbn beta iota.
        set (g2 := set_reglist (A ++ B') _ g1). rewrite (st_bind_Some _ _ g1 tt g2 eq_refl).
        assert (HAB : A ++ x :: B ≡ₚ x :: A ++ B') by (by rewrite <- Permutation_middle, HB).
        assert (Hnd2 : NoDup (x :: A ++ B')) by (by rewrite <- HAB). apply NoDup_cons in Hnd2 as [Hx2 Hnd2].
        assert (HrB : forall f, regof g2 f = if decide (f = x) then reg_off (regof g x) else regof g f) by (intros f; by apply (regof_upd x _ (set_kernel k g))).
        destruct (IH A B' g2) as (g3 & E3 & H3); [done|done| |rewrite HB; cbn in Hf; lia|].
        { intros f Hfb. change (cached f (upd_reg x (reg_off (regof g x)) (set_kernel k g))). rewrite cached_upd. apply Hc. right. by rewrite <- HB. }
        exists g3. split; [done|]. apply NoDup_app in Hnd as (_ & _ & Hnd).
        eapply (swept_cons x B B' g g2); try done.
        -- intros f. change (ep_reglist g2) with (A ++ B'). rewrite HL, HAB, elem_of_cons. split; [|tauto].
           intros Hi. split; [by right|]. by intros ->.
        -- cbn. by rewrite length_insert.
      * apply orb_false_iff in Et as [Eg Er]. apply negb_false_iff, Z.eqb_eq in Eg. apply negb_false_iff in Er.
        destruct (IH (A ++ [x]) B g) as (g2 & E2 & H2); [by rewrite <- app_assoc|by rewrite <- app_assoc|intros f Hfb; apply Hc; by right|cbn in Hf; lia|].
        rewrite length_app, Nat.add_1_r in E2. exists g2. split; [done|]. apply swept_keep; [|done].
        intros [?|?]; congruence.
Qed.

(** ** A commit *)

Record committed (g g' : evs) : Prop := {
  cd_inv : evp_inv g';
  cd_coherent : coherent g';
  cd_gen : ep_gen g' = ep_gen g;
  cd_wanted : 1 <= ep_gen g -> forall fd m, wanted g fd = Some m ->
    kint g' !! fd = Some (pth_evp_to_epoll m) \/
    pth_evp_ready fd g' = PTH_EVP_FAIL \/
    (ep_force g = false /\ r_registered (regof g fd) = true /\ r_regmask (regof g fd) = m /\ kint g !! fd = None);
  cd_unwanted : forall fd, wanted g fd = None -> kint g' !! fd = if r_registered (regof g fd) then None else kint g !! fd
}.

Lemma commit_ok g : evp_inv g -> coherent g -> exists g', pth_evp_commit g = Some (tt, g') /\ committed g g'.
Proof.
  intros Hi Hco. unfold pth_evp_commit. rewrite (st_bind_Some get_st _ g g g eq_refl).
  destruct (ctl_all_ok g (ep_touched g) g Hi Hco) as (g1 & E1 & [C1 C2 C3 C4 C5 C6 C7 C8 C9 C10 _ C12 C13]);
    [done|apply Hi| |].
  { destruct Hi as [[V1 V2 V3 V4 V5 V8 V9] V6 V7]. constructor; try done; intros f.
    - by rewrite V7.
    - intros Hf. apply registered_cached. by apply V7.
    - split_and!; auto.
    - intros _ Hf. by apply V7. }
  rewrite (st_bind_Some _ _ _ _ _ E1), (st_bind_Some get_st _ g1 g1 g1 eq_refl).
  destruct (sweep_ok (length (ep_reglist g1)) [] (ep_reglist g1) g1) as (g2 & E2 & [(S1 & S2 & S3 & S4 & S5 & S6) S7 S8 S9 S10]); try done.
  exists g2. split; [exact E2|].
  assert (Hkeep : forall f, r_registered (regof g2 f) = true -> ~ stale g1 f /\ regof g2 f = regof g1 f /\ kint g2 !! f = kint g1 !! f).
  { intros f Hf. assert (Hns : ~ stale g1 f).
    { intros Hst. rewrite S9 in Hf. case_decide as Hd; [done|]. apply Hd. split; [by apply C8|done]. }
    split; [done|]. rewrite S9, S10, !decide_False by tauto. done. }
  assert (Hinv : evp_inv g2).
  { destruct Hi as [[V1 V2 V3 V4 V5 V8 V9] V6 V7]. split; [constructor|..]; try done; rewrite ?S2, ?C2, ?S3, ?C3, ?S4, ?C4, ?S6, ?C5; try done.
    - intros n. by rewrite S1.
    - intros f. specialize (V3 f). destruct (C10 f) as (Q1 & Q2 & Q3). rewrite S9. case_decide; cbn; destruct Q3 as [->| ->]; rewrite Q1; lia.
    - intros f. rewrite V5, S9. destruct (C10 f) as (Q1 & Q2 & Q3). case_decide; cbn; by rewrite Q1.
    - intros f. rewrite S8. split.
      + intros [Hf Hns]. rewrite S9, decide_False by done. destruct (r_registered (regof g1 f)) eqn:Er; [done|].
        exfalso. apply Hns. split; [done|by right].
      + intros Hf. destruct (Hkeep f Hf) as (Hns & Hr & _). rewrite Hr in Hf. split; [by apply C8|tauto]. }
  constructor; [done|..].
  - intros f e He Hf. destruct (Hkeep f Hf) as (Hns & Hr & Hk). rewrite Hr in *. rewrite Hk in He.
    destruct (decide (f ∈ ep_touched g)) as [Ht|Ht].
    + destruct (C13 f Ht) as [H1 H2 H3|? ? ? ?|? ? ? ? ? ?]; [by intros ?%not_elem_of_nil| |congruence|congruence]. congruence.
    + destruct (C12 f) as [H1 H2]; [by left|]. rewrite H1 in *. apply (Hco f); [by rewrite <- H2|done].
  - by rewrite S2.
  - intros Hg fd m Hm. apply (wanted_touched g fd m Hi Hg) in Hm as [Ht <-].
    assert (Hgf : r_gen (regof g1 fd) = ep_gen g1) by (rewrite C2; destruct (C10 fd) as (-> & _); by apply (vi_touched _ Hi)).
    destruct (C13 fd Ht) as [H1 H2 H3|H1 H2 H3 H4|H1 H2 H3 H4 H5 H6]; [by intros ?%not_elem_of_nil|..].
    + left. rewrite S10, decide_False; [done|]. intros (_ & [?|?] & _); congruence.
    + right. left. rewrite ready_eq; [|apply Hinv|by rewrite S2, C2|]; rewrite S9; case_decide; cbn; try done; by rewrite S2, C2.
    + right. right. done.
  - intros fd Hn. assert (Hnt : fd ∉ ep_touched g).
    { rewrite (vi_touched _ Hi). intros [_ He]. unfold wanted in Hn. by rewrite He, Z.eqb_refl in Hn. }
    destruct (C12 fd) as [H1 H2]; [by left|]. rewrite S10, H2. destruct (r_registered (regof g fd)) eqn:Er.
    + rewrite decide_True; [done|]. rewrite H1, Er. split_and!; [apply C8; by rewrite H1| |done]. left. rewrite H1, C2.
      unfold wanted in Hn. by destruct (Z.eqb_spec (r_gen (regof g fd)) (ep_gen g)).
    + rewrite decide_False; [done|]. rewrite H1, Er. by intros (_ & _ & ?).
Qed.

(** ** A whole pass *)

(** An instance that collected what is wanted is well-formed and coherent. *)
Lemma inv_collected g g' : evp_inv g -> evp_base g' -> ep_reglist g' = ep_reglist g ->
  (forall fd, r_registered (regof g' fd) = r_registered (regof g fd) /\ r_regmask (regof g' fd) = r_regmask (regof g fd)) -> evp_inv g'.
Proof.
  intros [_ V1 V2] Hb HL HR. split; [done|by rewrite HL|]. intros fd. destruct (HR fd) as [-> _]. by rewrite HL.
Qed.
Lemma coherent_collected g g' : coherent g -> ep_kernel g' = ep_kernel g ->
  (forall fd, r_registered (regof g' fd) = r_registered (regof g fd) /\ r_regmask (regof g' fd) = r_regmask (regof g fd)) -> coherent g'.
Proof. intros Hco Hk HR f e. destruct (HR f) as [-> ->]. rewrite Hk. apply Hco. Qed.

(** C21: after a pass collected any descriptors and committed, the kernel
    watches exactly what is wanted: every wanted descriptor for the union of
    what is wanted of it, unless the kernel refused it - then its waiters are
    told so in this very pass - or it was closed behind the library's back, is
    wanted as before, and no heartbeat is due; the descriptors that were
    registered and are not wanted any more are watched no more, and others are
    left alone. The cache stays well-formed and coherent with the kernel, also
    when the generation counter wraps around, and no allocation, index or
    capacity goes wrong. *)
Theorem epoll_pass_correct now pipe (l : list (Z * Z)) (g : evs) :
  evp_inv g -> coherent g -> Forall fd_ok l.*1 -> fd_ok pipe ->
  let W := want_map (l ++ [(pipe, PTH_EVP_R)]) ∅ in exists g',
  (pth_evp_begin;; want_all l;; evp_commit pth_evp_commit now pipe) g = Some (tt, g') /\ evp_inv g' /\ coherent g' /\
  (forall fd m, W !! fd = Some m ->
     kint g' !! fd = Some (pth_evp_to_epoll m) \/ pth_evp_ready fd g' = PTH_EVP_FAIL \/
     heartbeat now g = false /\ r_registered (regof g fd) = true /\ r_regmask (regof g fd) = m /\ kint g !! fd = None) /\
  (forall fd, W !! fd = None -> kint g' !! fd = if r_registered (regof g fd) then None else kint g !! fd).
Proof.
  intros Hi Hco Hl Hp W.
  destruct (collect_run pth_evp_commit now pipe l g Hi Hl Hp) as (g3 & E3 & Hi3 & Hgen & Hf & Hk & HL & _ & Hreg & HW).
  assert (Hco3 := coherent_collected g g3 Hco Hk Hreg).
  destruct (commit_ok g3 (inv_collected g g3 Hi Hi3 HL Hreg) Hco3) as (g4 & E4 & [K1 K2 K3 K4 K5]).
  exists g4. rewrite E3. split_and!; try done.
  - intros fd m Hm. unfold W in Hm. rewrite <- HW in Hm. destruct (Hreg fd) as [R1 R2].
    destruct (K4 Hgen fd m Hm) as [?|[?|(Hf' & Hr & Hm2 & Hk')]]; [by left|by right; left|]. right. right. split_and!; congruence.
  - intros fd Hn. unfold W in Hn. rewrite <- HW in Hn. rewrite (K5 fd Hn). destruct (Hreg fd) as [-> _]. by rewrite Hk.
Qed.

(** ** The laws of the backend *)

Lemma reglist_short g : evp_inv g -> Z.of_nat (length (ep_reglist g)) < 2 ^ 30.
Proof.
  intros Hi. assert (Hs : ep_reglist g ⊆+ seqZ 0 (Z.of_nat (length (ep_reg g)))).
  { apply NoDup_submseteq; [apply Hi|]. intros f Hf. apply elem_of_seqZ. apply (vi_reg _ Hi), registered_cached in Hf as [? ?]. lia. }
  apply submseteq_length in Hs. rewrite length_seqZ in Hs. assert (Hl := vi_len _ Hi). lia.
Qed.

Lemma set_ready_ok x g : evp_inv g -> coherent g -> evp_inv (set_ready x g) /\ coherent (set_ready x g).
Proof.
  intros Hi Hco. unfold set_ready. destruct (Z.leb_spec 0 x.1); [|done]. destruct (ep_reg g !! Z.to_nat x.1) as [r|] eqn:Er; [|done].
  assert (Hc : cached x.1 g) by (split; [done|]; apply lookup_lt_Some in Er; lia).
  rewrite (cached_lookup _ _ Hc) in Er. injection Er as <-. fold (upd_reg x.1 (Evreg (r_gen (regof g x.1)) (ep_gen g) (r_want (regof g x.1))
    (r_regmask (regof g x.1)) (pth_evp_from_epoll x.2) (r_registered (regof g x.1))) g).
  destruct Hi as [[V1 V2 V3 V4 V5 V8 V9] V6 V7]. split.
  - split; [constructor|..]; try done; try (intros f; rewrite regof_upd by done; case_decide; subst; cbn; auto).
    + split; [apply V3|lia].
    + cbn. by rewrite length_insert.
  - intros f e. rewrite regof_upd by done. case_decide; subst; cbn; apply Hco.
Qed.

Lemma wait_call_ok fuel m t g : (sys_patience (ep_kernel g) <= fuel)%nat -> exists n l k,
  wait_call fuel m t g = Some ((n, l), set_kernel k g) /\ es_int k ⊆ kint g.
Proof.
  revert g. induction fuel as [|fuel IH]; intros g Hf; cbn [wait_call];
    destruct (es_wait m t (ep_kernel g)) as (n & err & l & k & -> & Hk & Hp); destruct (_ && _) eqn:Et; try by eexists _, _, _.
  - apply andb_true_iff in Et as [E1 E2]. apply Z.ltb_lt in E1. apply bool_decide_eq_true in E2. specialize (Hp E1 E2). lia.
  - apply andb_true_iff in Et as [E1 E2]. apply Z.ltb_lt in E1. apply bool_decide_eq_true in E2. specialize (Hp E1 E2).
    destruct (IH (set_kernel k g)) as (n2 & l2 & k2 & E & Hk2); [cbn; lia|]. exists n2, l2, k2. split; [exact E|]. by etrans.
Qed.

Definition evp_ok (g : evs) : Prop := evp_inv g /\ coherent g.
Lemma evp_wait_ok t g : evp_ok g -> exists n g', pth_evp_wait t g = Some (n, g') /\ evp_ok g'.
Proof.
  intros [Hi Hco]. unfold pth_evp_wait. assert (Hs := reglist_short _ Hi). assert (Hcap := vi_cap _ Hi).
  match goal with |- context [match ?m with Some _ => _ | None => None end] => assert (exists g1, m = Some g1 /\ evp_ok g1) as (g1 & -> & [Hi1 Hco1]) end.
  { destruct (_ >? _); [|by exists g]. 
    destruct (grow_cap_ok 32 (if ep_evcap g =? 0 then 64 else ep_evcap g) (Z.of_nat (length (ep_reglist g)) + 1 - 1)) as (nc & -> & H1 & H2 & _).
    - destruct (Z.eqb_spec (ep_evcap g) 0); lia.
    - lia.
    - change (2 ^ Z.of_nat 32) with (2 ^ 32). destruct (Z.eqb_spec (ep_evcap g) 0); lia.
    - rewrite (vi_alloc _ Hi). eexists. split; [done|]. split; [|exact Hco]. destruct Hi as [[V1 V2 V3 V4 V5 V8 V9] V6 V7].
      split; [constructor|..]; try done. cbn. destruct (Z.eqb_spec (ep_evcap g) 0); lia. }
  destruct (_ =? 0); [by eexists _, _|].
  destruct (wait_call_ok (sys_patience (ep_kernel g1)) (ep_evcap g1) t g1) as (n & l & k & -> & Hk); [done|].
  eexists _, _. split; [done|]. assert (H2 : evp_ok (set_kernel k g1)).
  { split; [by destruct Hi1 as [[] ? ?]|]. intros f e He. apply Hco1. by eapply lookup_weaken. }
  destruct (n >? 0); [|done]. generalize dependent (set_kernel k g1). generalize (take (Z.to_nat n) l).
  intros l'. induction l' as [|x l' IH]; intros g2 H2; [done|]. cbn [foldl]. apply IH. destruct H2. by apply set_ready_ok.
Qed.

Definition evp_watch (g : evs) (fd goal : Z) : Prop := exists m, wanted g fd = Some m /\ Z.land (evp_mask goal) m = evp_mask goal.

Lemma evp_add_ok fd mask g : evp_ok g -> fd_ok fd -> exists g', evp_add fd mask g = Some (tt, g') /\ evp_ok g' /\
  (exists m, wanted g' fd = Some m /\ Z.land mask m = mask) /\ (forall f goal, evp_watch g f goal -> evp_watch g' f goal).
Proof.
  intros [Hi Hco] Hfd. destruct (want_ok g fd mask Hi Hfd) as (g1 & E1 & Hi1 & [D1 D2 D3 D4 D5 D6 _ D7] & Hw & Ho).
  exists g1. unfold evp_add. rewrite (st_bind_Some _ _ _ _ _ E1). split_and!; [done| |..].
  - split; [by eapply inv_collected|by eapply coherent_collected].
  - eexists. split; [done|]. apply land_lor_absorb.
  - intros f goal (m & Hm & Hl). unfold evp_watch. destruct (decide (f = fd)) as [->|Hf].
    + rewrite Hw, Hm. eexists. split; [done|]. by apply land_lor_mono.
    + rewrite Ho by done. by exists m.
Qed.

Lemma evp_sets_bits r w e f :
  (fd_isset f r = true -> Z.land PTH_EVP_R (evp_sets_mask r w e f) = PTH_EVP_R) /\
  (fd_isset f w = true -> Z.land PTH_EVP_W (evp_sets_mask r w e f) = PTH_EVP_W) /\
  (fd_isset f e = true -> Z.land PTH_EVP_E (evp_sets_mask r w e f) = PTH_EVP_E).
Proof. unfold evp_sets_mask. destruct (fd_isset f r), (fd_isset f w), (fd_isset f e); done. Qed.

Lemma evp_want_sets_ok k sfd r w e g : evp_ok g -> (forall f, sfd <= f < sfd + Z.of_nat k -> fd_ok f) ->
  exists g', evp_want_sets k sfd r w e g = Some (tt, g') /\ evp_ok g' /\
    (forall f, sfd <= f < sfd + Z.of_nat k ->
       (fd_isset f r = true -> evp_watch g' f PTH_UNTIL_FD_READABLE) /\
       (fd_isset f w = true -> evp_watch g' f PTH_UNTIL_FD_WRITEABLE) /\
       (fd_isset f e = true -> evp_watch g' f PTH_UNTIL_FD_EXCEPTION)) /\
    (forall f goal, evp_watch g f goal -> evp_watch g' f goal).
Proof.
  revert g sfd. induction k as [|k IH]; intros g sfd Hg Hfd; cbn [evp_want_sets].
  - exists g. split_and!; try done. intros f Hf. lia.
  - destruct (evp_sets_bits r w e sfd) as (B1 & B2 & B3).
    assert (H1 : exists g1, (if negb (evp_sets_mask r w e sfd =? 0) then evp_add sfd (evp_sets_mask r w e sfd) else mret tt) g = Some (tt, g1) /\
      evp_ok g1 /\ ((fd_isset sfd r = true -> evp_watch g1 sfd PTH_UNTIL_FD_READABLE) /\
       (fd_isset sfd w = true -> evp_watch g1 sfd PTH_UNTIL_FD_WRITEABLE) /\
       (fd_isset sfd e = true -> evp_watch g1 sfd PTH_UNTIL_FD_EXCEPTION)) /\ (forall f goal, evp_watch g f goal -> evp_watch g1 f goal)).
    { destruct (Z.eqb_spec (evp_sets_mask r w e sfd) 0) as [Hz|Hz]; cbn [negb].
      - rewrite Hz in B1, B2, B3. exists g. split_and!; try done; intros Hb; [by specialize (B1 Hb)|by specialize (B2 Hb)|by specialize (B3 Hb)].
      - destruct (evp_add_ok sfd (evp_sets_mask r w e sfd) g Hg) as (g1 & E1 & Hg1 & (x & Hx & Hm) & Hmo); [apply Hfd; lia|].
        exists g1. split_and!; try done; intros Hb; exists x; (split; [done|]); (eapply land_trans; [|exact Hm]); auto. }
    destruct H1 as (g1 & E1 & Hg1 & (C1 & C2 & C3) & Hmo1). rewrite (st_bind_Some _ _ _ _ _ E1).
    destruct (IH g1 (sfd + 1) Hg1) as (g2 & E2 & Hg2 & Hw2 & Hmo2); [intros f Hf; apply Hfd; lia|]. exists g2. split_and!; [done|done| |auto].
    intros f Hf. destruct (decide (f = sfd)) as [->|Hne]; [|apply Hw2; lia]. split_and!; auto.
Qed.

#[export] Instance evp_laws : FdBackendLaws evs.
Proof.
  refine {| fb_ok := fun _ g => evp_ok g; fb_fd := fd_ok; fb_watch := evp_watch |}.
  - intros _ g [Hi Hco]. destruct (begin_ok g Hi) as (g1 & E1 & Hi1 & _ & Hk & _ & _ & _ & HL & _ & Hreg & _).
    exists g1. split; [exact E1|]. split; [by eapply inv_collected|by eapply coherent_collected].
  - intros _ g goal fd Hg Hfd. destruct (evp_add_ok fd (evp_mask goal) g Hg Hfd) as (g1 & E1 & Hg1 & Hw & Hmo). by exists g1.
  - intros _ g nfd r w e Hg Hfd. destruct (evp_want_sets_ok (Z.to_nat nfd) 0 r w e g Hg) as (g1 & E1 & Hg1 & Hw & Hmo);
      [intros f Hf; apply Hfd; lia|]. exists g1. split_and!; [done|done| |done]. intros f Hf. apply Hw. lia.
  - intros _ g now pipe [Hi Hco] Hp. destruct (evp_commit_run pth_evp_commit now pipe g Hi Hp) as (g1 & E1 & Hi1 & _ & _ & Hk & HL & _ & Hreg & _).
    destruct (commit_ok g1) as (g2 & E2 & Hc); [by eapply inv_collected|by eapply coherent_collected|].
    exists g2. cbn [fb_commit evp_backend]. rewrite E1. split; [exact E2|]. split; apply Hc.
  - intros _ g dopoll delay Hg. by apply evp_wait_ok.
  - intros _ g dopoll pipe rc Hg _. by eexists _, _.
  - intros _ g rc goal fd Hg _. by eexists _, _.
  - intros _ g rc nfd r w e Hg _. destruct (verdict_ok nfd r w e
      (late_sets PTH_EVP_R PTH_EVP_W PTH_EVP_E PTH_EVP_FAIL (Z.to_nat nfd) 0 r w e (fun f => pth_evp_ready f g) (∅, ∅, ∅, false)))
      as (v & k & r' & w' & e' & Ev & H1 & H2 & H3).
    exists v, k, r', w', e', g. cbn [fb_late_sets evp_backend]. unfold evp_late_sets. by rewrite Ev.
Defined.

(** A new instance is well-formed and coherent. *)
Lemma evp_init_ok osfd kernel reval g : pth_evp_init osfd kernel (fun _ => true) reval = Some g -> evp_ok g.
Proof.
  unfold pth_evp_init. destruct (osfd <? 0); [done|]. intros [= <-].
  assert (Hr : forall fd, regof (Evp [] 0 [] 0 [] 0 0 false (match reval with Some v => v | None => 1000 end) pth_time_zero kernel (fun _ => true)) fd = evreg0).
  { intros fd. apply regof_blank. intros [? ?]. cbn in *. lia. }
  split.
  - split; [constructor|..]; try done; try apply NoDup_nil_2; intros f; rewrite ?Hr; cbn; try lia; split; try done; try lia; by intros ?%not_elem_of_nil.
  - intros f e. by rewrite Hr.
Qed.
End spec.

(** A kernel: its interest set, and the descriptors that are open. *)
Definition toy : Type := gmap Z Z * gset Z.
#[export] Instance toy_sys : EpollSys toy := {|
  sys_ctl op fd e k :=
    match op, k.1 !! fd with
    | EPOLL_CTL_ADD, Some _ => (-1, EEXIST, k)
    | EPOLL_CTL_ADD, None => if bool_decide (fd ∈ k.2) then (0, EINVAL, (<[fd := e]> k.1, k.2)) else (-1, EBADF, k)
    | EPOLL_CTL_MOD, Some _ => (0, EINVAL, (<[fd := e]> k.1, k.2))
    | EPOLL_CTL_MOD, None => (-1, ENOENT, k)
    | EPOLL_CTL_DEL, Some _ => (0, EINVAL, (delete fd k.1, k.2))
    | EPOLL_CTL_DEL, None => (-1, ENOENT, k)
    end;
  sys_wait _ _ k := (0, EINVAL, [], k);
  sys_patience _ := O
|}.
#[export] Instance toy_laws : EpollLaws toy.
Proof.
  refine {| es_int := fst |}; cbn; intros fd e k.
  - intros [x ->]. by exists k.
  - intros ->. case_bool_decide; [by eexists _, _, _; split; [|left]|by eexists _, _, _; split; [|right]].
  - intros [x ->]. by eexists _, _.
  - intros ->. by eexists _, _, _.
  - destruct (k.1 !! fd) eqn:Ek; [by eexists _, _, _|]. eexists _, _, _. split; [done|]. by rewrite delete_id.
  - by eexists _, _, _, _.
Defined.

(** Descriptors 3, the pipe, and 4 are open, 9 is not: 4 is watched for both,
    9 fails. *)
Definition toy_evp : evp toy := Evp [] 0 [] 0 [] 0 0 false 1000 pth_time_zero (∅, {[3; 4]}) (fun _ => true).
Definition toy_l : list (Z * Z) := [(4, PTH_EVP_R); (9, PTH_EVP_R); (4, PTH_EVP_W)].
Definition toy_run : st (evp toy) unit := pth_evp_begin;; want_all toy_l;; evp_commit pth_evp_commit (Tv 5 0) 3.
Lemma epoll_pass_correct_witness : exists g', toy_run toy_evp = Some (tt, g') /\ evp_inv g' /\
  pth_evp_ready 9 g' = PTH_EVP_FAIL /\ (ep_kernel g').1 !! 4 = Some (Z.lor EPOLLIN EPOLLOUT) /\ (ep_kernel g').1 !! 5 = None.
Proof.
  destruct (evp_init_ok 7 (∅, {[3; 4]}) None toy_evp eq_refl) as [Hi Hco].
  destruct (epoll_pass_correct (Tv 5 0) 3 toy_l toy_evp Hi Hco) as (g' & E & Hi' & _ & Hw & Hu).
  - repeat constructor; cbn; unfold fd_ok; lia.
  - unfold fd_ok; lia.
  - assert (E2 : toy_run toy_evp = Some (tt, g')) by exact E. clear E.
    exists g'. split; [exact E2|]. split; [exact Hi'|]. split_and!.
    + assert (H9 : want_map (toy_l ++ [(3, PTH_EVP_R)]) ∅ !! 9 = Some PTH_EVP_R) by (vm_compute; reflexivity).
      destruct (Hw 9 PTH_EVP_R H9) as [Hk|[Hf|(Hh & _)]]; [|exact Hf|by vm_compute in Hh].
      exfalso. assert (Hr : option_map (fun x => (ep_kernel x.2).1 !! 9) (toy_run toy_evp) = Some None) by (vm_compute; reflexivity).
      rewrite E2 in Hr. cbn [option_map snd] in Hr. injection Hr as Hr. pose proof (eq_trans (eq_sym Hk) Hr) as Hx. discriminate Hx.
    + assert (Hr : option_map (fun x => (ep_kernel x.2).1 !! 4) (toy_run toy_evp) = Some (Some 5)) by (vm_compute; reflexivity).
      rewrite E2 in Hr. by injection Hr.
    + assert (H5 : want_map (toy_l ++ [(3, PTH_EVP_R)]) ∅ !! 5 = None) by (vm_compute; reflexivity).
      specialize (Hu 5 H5). change (r_registered (regof toy_evp 5)) with false in Hu. cbv iota in Hu. refine (eq_trans Hu _). reflexivity.
Defined.
