(* ===== verification/Kqueue.v ===== *)
(** * The kqueue(2) backend of the event manager (src/pth_sched.c, lines
    1491-1653)

    The registration cache is that of [Epoll]. The kernel watches filters of
    descriptors one by one, and a commit hands over its changes in batches;
    what the kernel says of a batch goes to the cache at once, in the middle of
    the commit. The kernel is a parameter. *)

From stdpp Require Import base numbers gmap list.
From S2P Require Import Prelude Timeval Util Event Queues World Thread Evman Evstep Pollset Epoll Evreg.
Open Scope Z_scope.

Inductive filter := EVFILT_READ | EVFILT_WRITE | EVFILT_EXCEPT.
#[export] Instance filter_eq_dec : EqDecision filter.
Proof. solve_decision. Defined.
(** A change: descriptor, filter, and [EV_ADD] or [EV_DELETE]. *)
Definition change : Type := Z * filter * bool.
(** What the kernel answers; [v_error], [v_eof]: [EV_ERROR] and [EV_EOF]. *)
Record kevent := Kevent { v_ident : Z; v_filter : filter; v_error : bool; v_eof : bool; v_data : Z }.
(** The value of [errno] in [v_data] for what is not there. *)
Definition ENOENT_data : Z := 2.

(** [kq_change ch]: kevent(2) with changes, room for 128 answers and no
    waiting; [kq_wait maxevents timeout]: without changes. *)
Class KqueueSys (K : Type) := {
  kq_change : list change -> K -> Z * list kevent * K;
  kq_wait : Z -> Z -> K -> Z * errno * list kevent * K;
  kq_patience : K -> nat
}.

Section ops.
Context {K : Type} `{!KqueueSys K}.
(** [EVFILT_EXCEPT] is defined. *)
Context (HAVE_EXCEPT : bool).
Abbreviation evs := (evp K).

Definition filter_bit (f : filter) : Z :=
  match f with EVFILT_READ => PTH_EVP_R | EVFILT_WRITE => PTH_EVP_W | EVFILT_EXCEPT => PTH_EVP_E end.
Definition filters : list filter := [EVFILT_READ; EVFILT_WRITE] ++ (if HAVE_EXCEPT then [EVFILT_EXCEPT] else []).
Definition event_bit (v : kevent) : Z :=
  let bit := if bool_decide (v_filter v ∈ filters) then filter_bit (v_filter v) else 0 in
  if v_eof v then Z.lor bit (Z.lor PTH_EVP_R PTH_EVP_W) else bit.

(** ** Applying changes *)

(** [ready |= bit] for this pass. *)
Definition reg_stamp (gen bit : Z) (r : evreg) : evreg :=
  let ready := if r_rdygen r =? gen then r_ready r else 0 in
  Evreg (r_gen r) gen (r_want r) (r_regmask r) (Z.lor ready bit) (r_registered r).
Definition kq_upd (fd : Z) (h : evreg -> evreg) (g : evs) : evs :=
  if fd <? 0 then g
  else match ep_reg g !! Z.to_nat fd with
       | Some r => set_reg (<[Z.to_nat fd := h r]> (ep_reg g)) g
       | None => g end.
(** An answer to a change. *)
Definition kq_answer (v : kevent) (g : evs) : evs :=
  if v_error v then
    if (v_data v =? 0) || (v_data v =? ENOENT_data) then g
    else kq_upd (v_ident v) (fun r =>
      reg_stamp (ep_gen g) PTH_EVP_FAIL (Evreg (r_gen r) (r_rdygen r) (r_want r) 0 (r_ready r) false)) g
  else kq_upd (v_ident v) (reg_stamp (ep_gen g) (event_bit v)) g.
Definition pth_evp_kq_apply (ch : list change) : st evs unit := fun g =>
  if (length ch <=? 0)%nat then Some (tt, g)
  else
    let '(n, res, k) := kq_change ch (ep_kernel g) in
    let g := set_kernel k g in
    if n <=? 0 then Some (tt, g) else Some (tt, foldl (fun g v => kq_answer v g) g (take (Z.to_nat n) res)).

(** A commit has a buffer of 64 changes next to the instance. *)
Definition kqst : Type := list change * evs.
Definition on_g {A} (m : st evs A) : st kqst A := fun s =>
  match m s.2 with Some (x, g) => Some (x, (s.1, g)) | None => None end.
Definition pth_evp_kq_push (c : change) : st kqst unit := fun s =>
  match (if (64 <=? length s.1)%nat then match pth_evp_kq_apply s.1 s.2 with Some (_, g) => Some ([], g) | None => None end
         else Some s) with
  | Some (ch, g) => Some (tt, (ch ++ [c], g))
  | None => None end.

(** ** Commit *)

Definition push_filter (fd want have : Z) (force : bool) (f : filter) : st kqst unit :=
  (if has want (filter_bit f) && (negb (has have (filter_bit f)) || force) then pth_evp_kq_push (fd, f, true) else mret tt);;
  (if negb (has want (filter_bit f)) && has have (filter_bit f) then pth_evp_kq_push (fd, f, false) else mret tt).
Fixpoint push_diff (fs : list filter) (fd want have : Z) (force : bool) : st kqst unit :=
  match fs with [] => mret tt | f :: fs' => push_filter fd want have force f;; push_diff fs' fd want have force end.
Definition set_regmask (v : Z) (r : evreg) : evreg := Evreg (r_gen r) (r_rdygen r) (r_want r) v (r_ready r) (r_registered r).
Definition set_registered (v : bool) (r : evreg) : evreg := Evreg (r_gen r) (r_rdygen r) (r_want r) (r_regmask r) (r_ready r) v.
Definition commit_fd (fd : Z) : st kqst unit :=
  r ← on_g (rd_reg fd);
  g ← on_g get_st;
  let want := r_want r in
  let have := if r_registered r then r_regmask r else 0 in
  push_diff filters fd want have (ep_force g);;
  r ← on_g (rd_reg fd);
  (if negb (r_registered r) then on_g (wr_reg fd (set_registered true r);; push_reglist fd;; mret tt) else mret tt);;
  r ← on_g (rd_reg fd);
  on_g (wr_reg fd (set_regmask want r)).
Fixpoint commit_fds (fds : list Z) : st kqst unit :=
  match fds with [] => mret tt | fd :: fds' => commit_fd fd;; commit_fds fds' end.

Fixpoint push_deletes (fs : list filter) (fd : Z) : st kqst unit :=
  match fs with
  | [] => mret tt
  | f :: fs' =>
      r ← on_g (rd_reg fd);
      (if has (r_regmask r) (filter_bit f) then pth_evp_kq_push (fd, f, false) else mret tt);;
      push_deletes fs' fd
  end.
(** The second loop: [i] is the index; an entry is overwritten by the last
    one. *)
Fixpoint kq_sweep (fuel : nat) (i : nat) : st kqst unit :=
  g ← on_g get_st;
  match ep_reglist g !! i with
  | None => mret tt
  | Some fd =>
      match fuel with
      | O => undef
      | S fuel' =>
          r ← on_g (rd_reg fd);
          if negb (r_gen r =? ep_gen g) || negb (r_registered r) then
            push_deletes filters fd;;
            r ← on_g (rd_reg fd);
            on_g (wr_reg fd (set_regmask 0 (set_registered false r)));;
            g ← on_g get_st;
            let n := length (ep_reglist g) in
            match last (ep_reglist g) with
            | Some z =>
                on_g (put_st (set_reglist (take (n - 1) (<[i := z]> (ep_reglist g))) (ep_reglistcap g) g));;
                kq_sweep fuel' i
            | None => undef end
          else kq_sweep fuel' (S i)
      end
  end.

Definition kq_loops : st kqst unit :=
  g ← on_g get_st;
  commit_fds (ep_touched g);;
  g ← on_g get_st;
  kq_sweep (length (ep_reglist g)) 0.
Definition pth_evp_commit : st evs unit := fun g =>
  match kq_loops ([], g) with Some (_, s) => pth_evp_kq_apply s.1 s.2 | None => None end.

(** ** Wait *)

Fixpoint wait_call (fuel : nat) (maxev timeout : Z) : st evs (Z * list kevent) :=
  fun g =>
    let '(n, err, l, k) := kq_wait maxev timeout (ep_kernel g) in
    if (n <? 0) && bool_decide (err = EINTR) then
      match fuel with O => None | S fuel' => wait_call fuel' maxev timeout (set_kernel k g) end
    else Some ((n, l), set_kernel k g).
Definition kq_ready (v : kevent) (g : evs) : evs := kq_upd (v_ident v) (reg_stamp (ep_gen g) (event_bit v)) g.
Definition pth_evp_wait (timeout_ms : Z) : st evs Z :=
  fun g =>
    let need := Z.of_nat (length (ep_reglist g)) * 3 + 1 in
    if need >=? 2 ^ 31 then None
    else
    match (if need >? ep_evcap g then
             match grow_cap 32 (if ep_evcap g =? 0 then 64 else ep_evcap g) (need - 1) with
             | Some nc => Some (if ep_alloc g nc then set_evcap nc g else g)
             | None => None end
           else Some g) with
    | None => None
    | Some g =>
        if ep_evcap g =? 0 then Some (0, g)
        else match wait_call (kq_patience (ep_kernel g)) (ep_evcap g) timeout_ms g with
             | Some ((n, l), g) => Some (n, if n >? 0 then foldl (fun g v => kq_ready v g) g (take (Z.to_nat n) l) else g)
             | None => None end
    end.

(** ** The backend *)

#[local] Instance kq_backend : FdBackend evs := {|
  fb_begin := pth_evp_begin;
  fb_want_fd goal fd := evp_add fd (evp_mask goal);
  fb_want_sets nfd r w e := evp_want_sets (Z.to_nat nfd) 0 r w e;
  fb_commit := evp_commit pth_evp_commit;
  fb_wait dopoll delay := fun g => pth_evp_wait (evp_timeout (ep_reval_ms g) dopoll delay) g;
  fb_adjust := evp_adjust;
  fb_late_fd := evp_late_fd;
  fb_late_sets := evp_late_sets
|}.
End ops.
