(* ===== verification/Kqueuespec.v ===== *)
(** * The commit of the kqueue(2) backend is right

    The kernel's documented behaviour as laws over the filters it watches, and
    what a pass hands over, filter by filter, across the batches in which the
    changes reach the kernel. *)

From stdpp Require Import base numbers gmap list.
From S2P Require Import Prelude Timeval Util Event Queues World Thread Evman Evstep Pollset Epoll Evreg Kqueue.
Open Scope Z_scope.

(** An answer that says that a change was refused. *)
Definition bad (v : kevent) : Prop := v_error v = true /\ v_data v <> 0 /\ v_data v <> ENOENT_data.

(** kevent(2): the changes of a list to different filters are made or refused
    one by one; there is room for the errors, so each refusal is answered. A
    filter that cannot be deleted is not there; any error but [ENOENT] then
    means that the descriptor is not open, and has no filters at all. Waiting
    changes nothing, but descriptors may be closed meanwhile; not all waits are
    interrupted. *)
Class KqueueLaws (K : Type) `{!KqueueSys K} := {
  kn : K -> Z -> filter -> bool;
  kl_change : forall ch k, (length ch <= 64)%nat -> NoDup ch.*1 -> exists res k',
    kq_change ch k = (Z.of_nat (length res), res, k') /\
    (forall fd f, (fd, f) ∉ ch.*1 -> kn k' fd f = kn k fd f) /\
    (forall fd f, (fd, f, true) ∈ ch -> kn k' fd f = true \/ exists v, v ∈ res /\ v_ident v = fd /\ bad v) /\
    (forall fd f, (fd, f, false) ∈ ch -> kn k' fd f = false) /\
    (forall v, v ∈ res -> bad v -> exists b, (v_ident v, v_filter v, b) ∈ ch /\
      (b = false -> forall f, kn k (v_ident v) f = false));
  kl_wait : forall m t k, exists n err l k', kq_wait m t k = (n, err, l, k') /\
    (forall fd f, kn k' fd f = true -> kn k fd f = true) /\
    (n < 0 -> err = EINTR -> (kq_patience k' < kq_patience k)%nat)
}.

Section spec.
Context {K : Type} `{!KqueueSys K}.
Abbreviation evs := (evp K).

(** ** Answers *)

(** The descriptor was reported as bad in this pass. *)
Definition failed (g : evs) (fd : Z) : Prop :=
  r_rdygen (regof g fd) = ep_gen g /\ has (r_ready (regof g fd)) PTH_EVP_FAIL = true.
(** What an entry is about. *)
Definition kept (r r' : evreg) : Prop := r_registered r' = r_registered r /\ r_regmask r' = r_regmask r.

(** Answers only change entries, and drop the registration only of [bads]. *)
Record stamped (bads : Z -> Prop) (g g' : evs) : Prop := {
  sd_rest : g' = set_reg (ep_reg g') g;
  sd_len : length (ep_reg g') = length (ep_reg g);
  sd_entry : forall fd, r_gen (regof g' fd) = r_gen (regof g fd) /\ r_want (regof g' fd) = r_want (regof g fd) /\
    (r_rdygen (regof g' fd) = r_rdygen (regof g fd) \/ r_rdygen (regof g' fd) = ep_gen g);
  sd_failed : forall fd, failed g fd -> failed g' fd;
  sd_kept : forall fd, kept (regof g fd) (regof g' fd) \/
    bads fd /\ r_registered (regof g' fd) = false /\ r_regmask (regof g' fd) = 0 /\ failed g' fd
}.
Lemma stamped_refl bads g : stamped bads g g.
Proof. constructor; try done; [by destruct g|intros fd; by split_and!; [..|left]|by left]. Qed.
Lemma stamped_trans bads g1 g2 g3 : stamped bads g1 g2 -> stamped bads g2 g3 -> stamped bads g1 g3.
Proof.
  intros [A1 A2 A3 A4 A5] [B1 B2 B3 B4 B5]. assert (Hg : ep_gen g2 = ep_gen g1) by (by rewrite A1). constructor.
  - rewrite B1, A1. by destruct g1.
  - congruence.
  - intros fd. destruct (A3 fd) as (P1 & P2 & P3), (B3 fd) as (Q1 & Q2 & Q3). rewrite Hg in Q3. split_and!; [congruence..|].
    destruct Q3 as [->|]; auto.
  - auto.
  - intros fd. destruct (B5 fd) as [[E1 E2]|?]; [|by right]. destruct (A5 fd) as [[F1 F2]|(F1 & F2 & F3 & F4)]; [left; split; congruence|].
    right. split_and!; [done|congruence|congruence|auto].
Qed.
Lemma stamped_weaken (P Q : Z -> Prop) g g' : (forall fd, P fd -> Q fd) -> stamped P g g' -> stamped Q g g'.
Proof. intros H [? ? ? ? Hk]. constructor; try done. intros fd. destruct (Hk fd) as [?|(?&?&?&?)]; auto. Qed.

Lemma kq_upd_eq fd h (g : evs) : kq_upd fd h g = if decide (cached fd g) then upd_reg fd (h (regof g fd)) g else g.
Proof.
  unfold kq_upd. case_decide as Hc.
  - rewrite (cached_lookup fd g Hc). destruct Hc. by destruct (Z.ltb_spec fd 0); [lia|].
  - destruct (Z.ltb_spec fd 0); [done|]. rewrite lookup_ge_None_2; [done|]. unfold cached in Hc. lia.
Qed.
Lemma has_fail_lor x : has (Z.lor x PTH_EVP_FAIL) PTH_EVP_FAIL = true.
Proof.
  unfold has. apply negb_true_iff, Z.eqb_neq. intros Hz. apply (f_equal (fun z => Z.testbit z 3)) in Hz.
  rewrite Z.land_spec, Z.lor_spec, orb_true_r in Hz. done.
Qed.
Lemma has_lor_l x y m : has x m = true -> has (Z.lor x y) m = true.
Proof.
  unfold has. rewrite !negb_true_iff, !Z.eqb_neq. intros H Hz. apply H. rewrite Z.land_lor_distr_l in Hz. by apply Z.lor_eq_0_iff in Hz as [? _].
Qed.
Lemma stamp_step fd h (g : evs) (P : Z -> Prop) : cached fd g ->
  (forall r, r_gen (h r) = r_gen r /\ r_want (h r) = r_want r /\ r_rdygen (h r) = ep_gen g) ->
  (r_rdygen (regof g fd) = ep_gen g -> has (r_ready (regof g fd)) PTH_EVP_FAIL = true -> has (r_ready (h (regof g fd))) PTH_EVP_FAIL = true) ->
  (kept (regof g fd) (h (regof g fd)) \/ P fd /\ r_registered (h (regof g fd)) = false /\ r_regmask (h (regof g fd)) = 0 /\
     has (r_ready (h (regof g fd))) PTH_EVP_FAIL = true) ->
  stamped P g (upd_reg fd (h (regof g fd)) g).
Proof.
  intros Hc Hh Hf Hk. constructor.
  - by destruct g.
  - cbn. by rewrite length_insert.
  - intros f. rewrite regof_upd by done. case_decide; [subst; destruct (Hh (regof g fd)) as (->&->&->); auto|auto].
  - intros f [H1 H2]. unfold failed. rewrite regof_upd by done. case_decide; [|done]. subst. split; [apply Hh|auto].
  - intros f. unfold failed. rewrite regof_upd by done. case_decide; [|by left]. subst.
    destruct Hk as [?|(?&?&?&?)]; [by left|]. right. split_and!; try done. apply Hh.
Qed.

Context (HAVE_EXCEPT : bool).

Lemma answer_ok v (g : evs) : stamped (fun fd => bad v /\ v_ident v = fd) g (kq_answer HAVE_EXCEPT v g) /\
  (bad v -> cached (v_ident v) g -> failed (kq_answer HAVE_EXCEPT v g) (v_ident v)).
Proof.
  unfold kq_answer, bad. destruct (v_error v) eqn:Ev.
  - destruct (_ || _) eqn:Eb.
    + split; [apply stamped_refl|]. intros (_ & H1 & H2) _. apply orb_true_iff in Eb as [?%Z.eqb_eq|?%Z.eqb_eq]; done.
    + apply orb_false_iff in Eb as [?%Z.eqb_neq ?%Z.eqb_neq]. rewrite kq_upd_eq. case_decide as Hc; [|split; [apply stamped_refl|done]]. split.
      * apply (stamp_step (v_ident v) (fun r => reg_stamp (ep_gen g) PTH_EVP_FAIL
          (Evreg (r_gen r) (r_rdygen r) (r_want r) 0 (r_ready r) false))); try done; [intros _ _; apply has_fail_lor|]. right. split_and!; try done. apply has_fail_lor.
      * intros _ _. unfold failed. rewrite regof_upd, decide_True by done. split; [done|apply has_fail_lor].
  - split; [|by intros [? _]]. rewrite kq_upd_eq. case_decide as Hc; [|apply stamped_refl].
    apply (stamp_step (v_ident v) (reg_stamp (ep_gen g) (event_bit HAVE_EXCEPT v))); try done; [|by left].
    intros Hr Hf. cbn. rewrite Hr, Z.eqb_refl. by apply has_lor_l.
Qed.
Lemma answers_ok res (g : evs) : stamped (fun fd => exists v, v ∈ res /\ bad v /\ v_ident v = fd) g (foldl (fun g v => kq_answer HAVE_EXCEPT v g) g res) /\
  (forall v, v ∈ res -> bad v -> cached (v_ident v) g -> failed (foldl (fun g v => kq_answer HAVE_EXCEPT v g) g res) (v_ident v)).
Proof.
  revert g. induction res as [|v res IH]; intros g; cbn [foldl]; [split; [apply stamped_refl|by intros ? ?%not_elem_of_nil]|].
  destruct (answer_ok v g) as [H1 H2]. destruct (IH (kq_answer HAVE_EXCEPT v g)) as [H3 H4]. split.
  - eapply stamped_trans; [eapply stamped_weaken; [|exact H1]|eapply stamped_weaken; [|exact H3]].
    + intros fd [? ?]. exists v. split_and!; try done. by left.
    + intros fd (x & ? & ?). exists x. split; [by right|done].
  - intros x [->|Hx]%elem_of_cons Hb Hc; [|apply H4; try done; unfold cached; by rewrite (sd_len _ _ _ H1)].
    by apply (sd_failed _ _ _ H3), H2.
Qed.

(** ** Batches *)

Context `{!KqueueLaws K}.
Abbreviation knows g := (kn (ep_kernel g)).

(** A commit that started at [g0]; [P]: the change of a filter that has been
    pushed so far; each is in the buffer or has been settled. *)
Record mid (g0 : evs) (P : Z -> filter -> option bool) (s : kqst) : Prop := {
  md_alloc : forall n, ep_alloc s.2 n = true;
  md_gen : ep_gen s.2 = ep_gen g0;
  md_touched : ep_touched s.2 = ep_touched g0;
  md_cap : ep_evcap s.2 = ep_evcap g0;
  md_force : ep_force s.2 = ep_force g0;
  md_len : length (ep_reg s.2) = length (ep_reg g0);
  md_short : (length s.1 <= 64)%nat;
  md_nd : NoDup s.1.*1;
  md_buf : forall fd f x, (fd, f, x) ∈ s.1 -> P fd f = Some x /\ knows s.2 fd f = knows g0 fd f;
  md_none : forall fd f, P fd f = None -> knows s.2 fd f = knows g0 fd f;
  md_add : forall fd f, P fd f = Some true -> (fd, f, true) ∈ s.1 \/ knows s.2 fd f = true \/ failed s.2 fd;
  md_del : forall fd f, P fd f = Some false -> (fd, f, false) ∈ s.1 \/ knows s.2 fd f = false;
  md_cached : forall fd f x, P fd f = Some x -> cached fd g0;
  md_entry : forall fd, r_gen (regof s.2 fd) = r_gen (regof g0 fd) /\ r_want (regof s.2 fd) = r_want (regof g0 fd) /\
    (r_rdygen (regof s.2 fd) = r_rdygen (regof g0 fd) \/ r_rdygen (regof s.2 fd) = ep_gen g0)
}.
(** A registration is kept, or dropped since a change was refused: an addition,
    or a deletion because the descriptor is closed. *)
Definition dropped (P : Z -> filter -> option bool) (g0 g g' : evs) (fd : Z) : Prop :=
  kept (regof g fd) (regof g' fd) \/
  r_registered (regof g' fd) = false /\ r_regmask (regof g' fd) = 0 /\
  ((exists f, P fd f = Some true) \/ (exists f, P fd f = Some false) /\ forall f, P fd f = None -> knows g0 fd f = false).

Lemma dropped_trans P P' g0 g1 g2 g3 fd :
  (forall f, P' fd f = P fd f \/ P fd f = None) ->
  dropped P g0 g1 g2 fd -> dropped P' g0 g2 g3 fd -> dropped P' g0 g1 g3 fd.
Proof.
  intros HP [[A1 A2]|(A1 & A2 & A3)] [[B1 B2]|(B1 & B2 & B3)]; [left; split; congruence|by right| |by right].
  right. split_and!; [congruence..|]. destruct A3 as [[f Hf]|[[f Hf] Hn]].
  - left. exists f. destruct (HP f); congruence.
  - right. split; [exists f; destruct (HP f); congruence|]. intros f' Hf'. apply Hn. destruct (HP f'); congruence.
Qed.

Lemma apply_ok g0 P s : mid g0 P s -> exists g', pth_evp_kq_apply HAVE_EXCEPT s.1 s.2 = Some (tt, g') /\ mid g0 P ([], g') /\
  ep_reglist g' = ep_reglist s.2 /\ (forall fd, dropped P g0 s.2 g' fd) /\ (forall fd, failed s.2 fd -> failed g' fd).
Proof.
  destruct s as [ch g]. intros [M1 M2 M3 M4 M5 M6 M7 M8 M9 M10 M11 M12 M13 M14]. cbn [fst snd] in *. unfold pth_evp_kq_apply.
  destruct (Nat.leb_spec (length ch) 0) as [Hz|Hnz].
  { destruct ch; [|cbn in Hz; lia]. exists g. split_and!; try done. by left. }
  destruct (kl_change ch (ep_kernel g) M7 M8) as (res & k' & -> & L1 & L2 & L3 & L4).
  destruct (answers_ok res (set_kernel k' g)) as [S F]. set (g' := foldl _ _ res) in *.
  exists g'. split. { destruct (Z.leb_spec (Z.of_nat (length res)) 0) as [Hr|Hr].
    - unfold g'. destruct res; [done|cbn in Hr; lia].
    - by rewrite Nat2Z.id, take_ge by lia. }
  assert (Hk : ep_kernel g' = k') by (by rewrite (sd_rest _ _ _ S)).
  assert (Hgen : ep_gen g' = ep_gen g) by (by rewrite (sd_rest _ _ _ S)).
  assert (Hnot : forall fd f, P fd f = None -> (fd, f) ∉ ch.*1).
  { intros fd f Hn ([[fd' f'] x] & [= -> ->] & Hi)%list_elem_of_fmap. apply M9 in Hi as [? _]. congruence. }
  assert (Hin : forall fd f x, P fd f = Some x -> (fd, f) ∈ ch.*1 -> (fd, f, x) ∈ ch).
  { intros fd f x HP ([[fd' f'] x'] & [= -> ->] & Hi)%list_elem_of_fmap. assert (Hi' := Hi). apply M9 in Hi as [? _]. by simplify_eq. }
  assert (Hf : forall fd, failed g fd -> failed g' fd) by (intros fd; apply (sd_failed _ _ _ S)).
  split_and!; [constructor; cbn [fst snd]| | |done].
  - intros n. rewrite (sd_rest _ _ _ S). apply M1.
  - congruence.
  - by rewrite (sd_rest _ _ _ S).
  - by rewrite (sd_rest _ _ _ S).
  - by rewrite (sd_rest _ _ _ S).
  - rewrite (sd_len _ _ _ S). done.
  - cbn. lia.
  - apply NoDup_nil_2.
  - by intros ? ? ? ?%not_elem_of_nil.
  - intros fd f Hn. rewrite Hk, L1; auto.
  - intros fd f HP. right. rewrite Hk. destruct (decide ((fd, f) ∈ ch.*1)) as [Hi|Hi].
    + destruct (L2 fd f) as [?|(v & Hv & <- & Hb)]; [by apply Hin|by left|]. right.
      apply F; [done..|]. destruct (M13 _ _ _ HP). split; cbn; lia.
    + rewrite L1 by done. destruct (M11 fd f HP) as [Hc|[?|?]]; [|by left|right; auto].
      exfalso. apply Hi, list_elem_of_fmap. by exists (fd, f, true).
  - intros fd f HP. right. rewrite Hk. destruct (decide ((fd, f) ∈ ch.*1)) as [Hi|Hi]; [by apply L3, Hin|].
    rewrite L1 by done. destruct (M12 fd f HP) as [Hc|?]; [|done].
    exfalso. apply Hi, list_elem_of_fmap. by exists (fd, f, false).
  - done.
  - intros fd. destruct (M14 fd) as (Q1 & Q2 & Q3), (sd_entry _ _ _ S fd) as (R1 & R2 & R3). cbn [ep_gen set_kernel] in R3.
    change (regof (set_kernel k' g)) with (regof g) in *. split_and!; [congruence..|]. destruct R3 as [->|]; [done|right; congruence].
  - by rewrite (sd_rest _ _ _ S).
  - intros fd. destruct (sd_kept _ _ _ S fd) as [?|((v & Hv & Hb & <-) & R1 & R2 & R3)]; [by left|]. right. split_and!; [done..|].
    destruct (L4 v Hv Hb) as ([] & Hi & Hcl); destruct (M9 _ _ _ Hi) as [HP _]; [left; by eexists|right].
    split; [by eexists|]. intros f Hn. rewrite <- (M10 _ f Hn). by apply Hcl.
Qed.

(** ** Pushing *)

Definition pushed (fd : Z) (f : filter) (x : bool) (P : Z -> filter -> option bool) : Z -> filter -> option bool :=
  fun fd' f' => if decide (fd' = fd /\ f' = f) then Some x else P fd' f'.
(** What a step of a commit does to the instance: the list of descriptors
    stays, registrations may be dropped, failures are remembered. *)
Record pushes (P P' : Z -> filter -> option bool) (g0 : evs) (s s' : kqst) : Prop := {
  ps_mid : mid g0 P' s';
  ps_grow : forall fd f, P' fd f = P fd f \/ P fd f = None;
  ps_list : ep_reglist s'.2 = ep_reglist s.2;
  ps_drop : forall fd, dropped P' g0 s.2 s'.2 fd;
  ps_failed : forall fd, failed s.2 fd -> failed s'.2 fd
}.
Lemma pushes_refl P g0 s : mid g0 P s -> pushes P P g0 s s.
Proof. intros H. constructor; try done; by left. Qed.
Lemma pushes_trans P1 P2 P3 g0 s1 s2 s3 : pushes P1 P2 g0 s1 s2 -> pushes P2 P3 g0 s2 s3 -> pushes P1 P3 g0 s1 s3.
Proof.
  intros [A1 A2 A3 A4 A5] [B1 B2 B3 B4 B5]. constructor; [done| |congruence| |auto].
  - intros fd f. destruct (A2 fd f), (B2 fd f); [left; congruence|right; congruence|by right..].
  - intros fd. eapply dropped_trans; [|apply A4|apply B4]. intros f. apply B2.
Qed.

Lemma push_room g0 P ch g fd f x : mid g0 P (ch, g) -> (length ch < 64)%nat -> P fd f = None -> cached fd g0 ->
  mid g0 (pushed fd f x P) (ch ++ [(fd, f, x)], g).
Proof.
  intros [M1 M2 M3 M4 M5 M6 M7 M8 M9 M10 M11 M12 M13 M14] Hl Hn Hc. cbn [fst snd] in *.
  constructor; cbn [fst snd]; try done; unfold pushed.
  - rewrite length_app. cbn. lia.
  - rewrite fmap_app. apply NoDup_app. split_and!; [done| |apply NoDup_singleton].
    intros [fd' f'] Hi [= -> ->]%list_elem_of_singleton. apply list_elem_of_fmap in Hi as ([[fd' f'] y] & [= -> ->] & Hi).
    apply M9 in Hi as [? _]. congruence.
  - intros fd' f' y [Hi|[= -> -> ->]%list_elem_of_singleton]%elem_of_app.
    + destruct (M9 _ _ _ Hi). case_decide as Hd; [destruct Hd as [-> ->]; congruence|done].
    + rewrite decide_True by done. auto.
  - intros fd' f'. case_decide; [done|apply M10].
  - intros fd' f'. rewrite elem_of_app, list_elem_of_singleton. case_decide as Hd; [destruct Hd as [-> ->]; intros [= ->]; tauto|].
    intros HP. destruct (M11 _ _ HP); tauto.
  - intros fd' f'. rewrite elem_of_app, list_elem_of_singleton. case_decide as Hd; [destruct Hd as [-> ->]; intros [= ->]; tauto|].
    intros HP. destruct (M12 _ _ HP); tauto.
  - intros fd' f' y. case_decide as Hd; [destruct Hd as [-> ->]; by intros|apply M13].
Qed.
Lemma pushed_grow fd f x P : P fd f = None -> forall fd' f', pushed fd f x P fd' f' = P fd' f' \/ P fd' f' = None.
Proof. intros Hn fd' f'. unfold pushed. case_decide as Hd; [destruct Hd as [-> ->]; by right|by left]. Qed.
Lemma push_ok g0 P s fd f x : mid g0 P s -> P fd f = None -> cached fd g0 ->
  exists s', pth_evp_kq_push HAVE_EXCEPT (fd, f, x) s = Some (tt, s') /\ pushes P (pushed fd f x P) g0 s s'.
Proof.
  intros Hm Hn Hc. assert (HG := pushed_grow fd f x P Hn). unfold pth_evp_kq_push. destruct (Nat.leb_spec 64 (length s.1)) as [Hl|Hl].
  - destruct (apply_ok g0 P s Hm) as (g' & -> & Hm' & HL & HD & HF). eexists. split; [done|].
    constructor; cbn [snd]; try done; [apply push_room; try done; cbn; lia|].
    intros fd'. eapply dropped_trans; [exact (HG fd')|apply HD|by left].
  - destruct s as [ch g]. cbn [fst] in Hl. eexists. split; [done|]. constructor; cbn [snd]; try done; [by apply push_room|by left].
Qed.

(** The change that a wanted descriptor needs for a filter. *)
Definition diff (want have : Z) (force : bool) (f : filter) : option bool :=
  if has want (filter_bit f) && (negb (has have (filter_bit f)) || force) then Some true
  else if negb (has want (filter_bit f)) && has have (filter_bit f) then Some false else None.
Lemma push_filter_ok g0 P s fd want have force f : mid g0 P s -> P fd f = None -> cached fd g0 ->
  exists P' s', push_filter HAVE_EXCEPT fd want have force f s = Some (tt, s') /\ pushes P P' g0 s s' /\
    P' fd f = diff want have force f /\ (forall fd' f', fd' <> fd \/ f' <> f -> P' fd' f' = P fd' f').
Proof.
  intros Hm Hn Hc. assert (Hp : forall x fd' f', fd' <> fd \/ f' <> f -> pushed fd f x P fd' f' = P fd' f').
  { intros x fd' f' Ho. unfold pushed. rewrite decide_False by tauto. done. }
  assert (Hx : forall x, pushed fd f x P fd f = Some x) by (intros x; unfold pushed; by rewrite decide_True).
  unfold push_filter, diff. destruct (has want (filter_bit f)) eqn:Ew; cbn [negb andb].
  - destruct (_ || _).
    + destruct (push_ok g0 P s fd f true Hm Hn Hc) as (s1 & E1 & H1). exists (pushed fd f true P), s1.
      rewrite (st_bind_Some _ _ _ _ _ E1). split_and!; auto.
    + exists P, s. split_and!; [done|by apply pushes_refl|done|done].
  - rewrite (st_bind_Some (mret tt) _ s tt s eq_refl). destruct (has have (filter_bit f)).
    + destruct (push_ok g0 P s fd f false Hm Hn Hc) as (s1 & E1 & H1). exists (pushed fd f false P), s1. split_and!; auto.
    + exists P, s. split_and!; [done|by apply pushes_refl|done|done].
Qed.
Lemma push_diff_ok g0 fs fd want have force P s : mid g0 P s -> NoDup fs -> cached fd g0 -> (forall f, f ∈ fs -> P fd f = None) ->
  exists P' s', push_diff HAVE_EXCEPT fs fd want have force s = Some (tt, s') /\ pushes P P' g0 s s' /\
    (forall f, f ∈ fs -> P' fd f = diff want have force f) /\ (forall fd' f', fd' <> fd \/ f' ∉ fs -> P' fd' f' = P fd' f').
Proof.
  revert P s. induction fs as [|f fs IH]; intros P s Hm Hnd Hc Hn; cbn [push_diff].
  { exists P, s. split_and!; [done|by apply pushes_refl|by intros ? ?%not_elem_of_nil|done]. }
  apply NoDup_cons in Hnd as [Hf Hnd].
  destruct (push_filter_ok g0 P s fd want have force f Hm) as (P1 & s1 & E1 & H1 & D1 & O1); [apply Hn; by left|done|].
  rewrite (st_bind_Some _ _ _ _ _ E1).
  destruct (IH P1 s1 (ps_mid _ _ _ _ _ H1) Hnd Hc) as (P2 & s2 & E2 & H2 & D2 & O2).
  { intros f' Hi. rewrite O1 by (right; by intros ->). apply Hn. by right. }
  exists P2, s2. split_and!; [done|by eapply pushes_trans| |].
  - intros f' [->|Hi]%elem_of_cons; [|by apply D2]. rewrite O2 by (by right). done.
  - intros fd' f' Ho. rewrite not_elem_of_cons in Ho. rewrite O2, O1; [done|tauto..].
Qed.

(** ** The wanted descriptors *)

Definition have (g : evs) (fd : Z) : Z := if r_registered (regof g fd) then r_regmask (regof g fd) else 0.
(** The entries and the list of registered descriptors. *)
Record kq_inv (g : evs) : Prop := {
  kv_base :> evp_base g;
  kv_in : forall fd, r_registered (regof g fd) = true -> fd ∈ ep_reglist g;
  kv_list : forall fd, fd ∈ ep_reglist g -> cached fd g;
  kv_off : forall fd, r_registered (regof g fd) = false -> r_regmask (regof g fd) = 0
}.
(** After the wanted descriptors but [todo]. *)
Record asking (g0 : evs) (todo : list Z) (P : Z -> filter -> option bool) (s : kqst) : Prop := {
  as_mid : mid g0 P s;
  as_none : forall fd f, fd ∈ todo \/ fd ∉ ep_touched g0 \/ f ∉ filters HAVE_EXCEPT -> P fd f = None;
  as_todo : forall fd, fd ∈ todo \/ fd ∉ ep_touched g0 -> kept (regof g0 fd) (regof s.2 fd);
  as_done : forall fd f, fd ∈ ep_touched g0 -> fd ∉ todo -> f ∈ filters HAVE_EXCEPT ->
    P fd f = diff (r_want (regof g0 fd)) (have g0 fd) (ep_force g0) f;
  as_in : forall fd, r_registered (regof s.2 fd) = true -> fd ∈ ep_reglist s.2;
  as_list : forall fd, fd ∈ ep_reglist s.2 -> cached fd g0;
  as_off : forall fd, r_registered (regof s.2 fd) = false -> r_regmask (regof s.2 fd) = 0
}.
Lemma filters_nd : NoDup (filters HAVE_EXCEPT).
Proof. by destruct HAVE_EXCEPT; repeat constructor; rewrite ?not_elem_of_cons; split_and?; try done; apply not_elem_of_nil. Qed.

Lemma kept_off r r' : kept r r' -> (r_registered r = false -> r_regmask r = 0) -> r_registered r' = false -> r_regmask r' = 0.
Proof. intros [-> ->]. done. Qed.
Lemma dropped_off P g0 g g' fd : dropped P g0 g g' fd -> (r_registered (regof g fd) = false -> r_regmask (regof g fd) = 0) ->
  r_registered (regof g' fd) = false -> r_regmask (regof g' fd) = 0.
Proof. intros [Hk|(_ & -> & _)]; [by apply kept_off|done]. Qed.
Lemma dropped_in P g0 g g' fd : dropped P g0 g g' fd -> r_registered (regof g' fd) = true -> r_registered (regof g fd) = true.
Proof. intros [[-> _]|(-> & _)]; done. Qed.
Lemma dropped_none P g0 g g' fd : dropped P g0 g g' fd -> (forall f, P fd f = None) -> kept (regof g fd) (regof g' fd).
Proof. intros [?|(_ & _ & [[f Hf]|[[f Hf] _]])] Hn; [done|by rewrite Hn in Hf..]. Qed.

Lemma x_on_g {A} (m : st evs A) ch (g : evs) x g' : m g = Some (x, g') -> on_g m (ch, g) = Some (x, (ch, g')).
Proof. intros E. unfold on_g. cbn. by rewrite E. Qed.
Lemma mid_entry g0 P ch g fd r : mid g0 P (ch, g) -> cached fd g -> r_gen r = r_gen (regof g fd) -> r_want r = r_want (regof g fd) ->
  r_rdygen r = r_rdygen (regof g fd) -> r_ready r = r_ready (regof g fd) -> mid g0 P (ch, upd_reg fd r g).
Proof.
  intros [M1 M2 M3 M4 M5 M6 M7 M8 M9 M10 M11 M12 M13 M14] Hc H1 H2 H3 H4. cbn [fst snd] in *. constructor; try done; cbn [fst snd].
  - cbn. by rewrite length_insert.
  - intros fd' f HP. destruct (M11 fd' f HP) as [?|[?|Hf]]; auto. right. right. unfold failed in *. rewrite regof_upd by done.
    case_decide; [|done]. subst. by rewrite H3, H4.
  - intros fd'. rewrite regof_upd by done. case_decide; [|apply M14]. subst. rewrite H1, H2, H3. apply M14.
Qed.
Lemma mid_reglist g0 P ch g R c : mid g0 P (ch, g) -> mid g0 P (ch, set_reglist R c g).
Proof. by intros []. Qed.
Lemma mid_cached g0 P ch g fd : mid g0 P (ch, g) -> cached fd g0 -> cached fd g.
Proof. intros Hm. unfold cached. by rewrite <- (md_len _ _ _ Hm). Qed.

(** The end of the body of the first loop: the descriptor is registered. *)
Lemma register_ok g0 P ch g fd want : mid g0 P (ch, g) -> cached fd g -> exists g',
  (r ← on_g (rd_reg fd);
   (if negb (r_registered r) then on_g (wr_reg fd (set_registered true r);; push_reglist fd;; mret tt) else mret tt);;
   r ← on_g (rd_reg fd);
   on_g (wr_reg fd (set_regmask want r))) (ch, g) = Some (tt, (ch, g')) /\ mid g0 P (ch, g') /\
  (forall f, regof g' f = if decide (f = fd) then set_regmask want (set_registered true (regof g fd)) else regof g f) /\
  ep_reglist g' = ep_reglist g ++ (if r_registered (regof g fd) then [] else [fd]).
Proof.
  intros Hm Hc. rewrite (st_bind_Some _ _ _ _ _ (x_on_g _ ch g _ _ (x_rd_reg fd g Hc))).
  assert (H1 : exists g1, (if negb (r_registered (regof g fd)) then on_g (wr_reg fd (set_registered true (regof g fd));; push_reglist fd;; mret tt)
      else mret tt) (ch, g) = Some (tt, (ch, g1)) /\ mid g0 P (ch, g1) /\ cached fd g1 /\
    (forall f, regof g1 f = if decide (f = fd) then set_registered true (regof g fd) else regof g f) /\
    ep_reglist g1 = ep_reglist g ++ (if r_registered (regof g fd) then [] else [fd])).
  { destruct (r_registered (regof g fd)) eqn:Er; cbn [negb].
    - exists g. rewrite app_nil_r. split_and!; try done. intros f. case_decide; [|done]. subst. rewrite <- Er at 1. by destruct (regof g fd).
    - assert (Hm1 := mid_entry g0 P ch g fd (set_registered true (regof g fd)) Hm Hc eq_refl eq_refl eq_refl eq_refl).
      set (g1 := upd_reg fd _ g) in *. destruct (x_push_reglist fd g1 (md_alloc _ _ _ Hm1)) as [c Ep].
      exists (set_reglist (ep_reglist g ++ [fd]) c g1). split; [|split; [by apply mid_reglist|]].
      + apply x_on_g. rewrite (st_bind_Some _ _ _ _ _ (x_wr_reg fd _ g Hc)). by rewrite (st_bind_Some _ _ _ _ _ Ep).
      + split; [by apply cached_upd|]. split; [|done]. intros f. by apply (regof_upd fd (set_registered true (regof g fd)) g f). }
  destruct H1 as (g1 & E1 & Hm1 & Hc1 & HR1 & HL1). rewrite (st_bind_Some _ _ _ _ _ E1).
  rewrite (st_bind_Some _ _ _ _ _ (x_on_g _ ch g1 _ _ (x_rd_reg fd g1 Hc1))). eexists. split; [apply x_on_g, x_wr_reg; done|].
  split; [by apply mid_entry|]. split; [|done]. intros f. rewrite regof_upd by done. rewrite !HR1.
  destruct (decide (f = fd)) as [->|]; [by rewrite decide_True|done].
Qed.

Lemma commit_fd_ok g0 fd todo P s : asking g0 (fd :: todo) P s -> fd ∈ ep_touched g0 -> fd ∉ todo -> cached fd g0 ->
  exists P' s', commit_fd HAVE_EXCEPT fd s = Some (tt, s') /\ asking g0 todo P' s'.
Proof.
  intros [A1 A2 A3 A4 A5 A6 A7] Ht Hni Hc0. destruct s as [ch g]. cbn [snd] in *.
  assert (Hc : cached fd g) by (by eapply mid_cached). unfold commit_fd.
  rewrite (st_bind_Some _ _ _ _ _ (x_on_g _ ch g _ _ (x_rd_reg fd g Hc))).
  rewrite (st_bind_Some _ _ _ _ _ (x_on_g _ ch g g g eq_refl)).
  destruct (A3 fd) as [K1 K2]; [left; by left|]. rewrite K1, K2. fold (have g0 fd).
  destruct (md_entry _ _ _ A1 fd) as (_ & Hw & _). cbn [snd] in Hw. rewrite Hw, (md_force _ _ _ A1 : ep_force g = _).
  destruct (push_diff_ok g0 (filters HAVE_EXCEPT) fd (r_want (regof g0 fd)) (have g0 fd) (ep_force g0) P (ch, g) A1 filters_nd Hc0)
    as (P1 & [ch1 g1] & E1 & H1 & D1 & O1); [intros f _; apply A2; left; by left|].
  rewrite (st_bind_Some _ _ _ _ _ E1). destruct H1 as [B1 B2 B3 B4 _]. cbn [snd] in *.
  destruct (register_ok g0 P1 ch1 g1 fd (r_want (regof g0 fd)) B1) as (g2 & E2 & Hm2 & HR & HL); [by eapply mid_cached|].
  exists P1, (ch1, g2). split; [exact E2|].
  assert (Hin2 : forall f, f ∈ ep_reglist g2 <-> f ∈ ep_reglist g \/ f = fd /\ r_registered (regof g1 fd) = false).
  { intros f. rewrite HL, B3, elem_of_app. destruct (r_registered (regof g1 fd)); [|rewrite list_elem_of_singleton; tauto].
    split; [|intros [?|[_ ?]]; [by left|done]]. intros [?|?%not_elem_of_nil]; [by left|done]. }
  constructor; cbn [snd]; [done|..].
  - intros fd' f Hf. rewrite O1; [apply A2|]; (destruct (decide (f ∈ filters HAVE_EXCEPT)); [|tauto]);
      destruct Hf as [?|[?|?]]; try tauto; try (left; by intros ->); left; by right.
  - intros fd' Hf. assert (fd' <> fd) by (intros ->; tauto). rewrite HR, decide_False by done.
    assert (Hk : kept (regof g0 fd') (regof g fd')) by (apply A3; destruct Hf; [left; by right|by right]).
    destruct Hk as [Q1 Q2]. destruct (dropped_none _ _ _ _ fd' (B4 fd')) as [R1 R2]; [|split; congruence].
    intros f. rewrite O1 by (by left). apply A2. destruct Hf; [left; by right|by right; left].
  - intros fd' f Hf1 Hf2 Hf. destruct (decide (fd' = fd)) as [->|Hne]; [by apply D1|]. rewrite O1 by (by left). apply A4; try done.
    by intros [?|?]%elem_of_cons.
  - intros fd'. rewrite HR, Hin2. case_decide as Hd; [subst; intros _|].
    + destruct (r_registered (regof g1 fd)) eqn:Er; [left; by eapply A5, dropped_in|by right].
    + intros Hr. left. by eapply A5, dropped_in.
  - intros fd' [?|[-> _]]%Hin2; [by apply A6|done].
  - intros fd'. rewrite HR. case_decide; [done|]. eapply dropped_off; [apply B4|apply A7].
Qed.
Lemma commit_fds_ok g0 todo P s : asking g0 todo P s -> todo ⊆ ep_touched g0 -> NoDup todo -> evp_base g0 ->
  exists P' s', commit_fds HAVE_EXCEPT todo s = Some (tt, s') /\ asking g0 [] P' s'.
Proof.
  revert P s. induction todo as [|fd todo IH]; intros P s Ha Hsub Hnd Hb; cbn [commit_fds]; [by exists P, s|].
  apply NoDup_cons in Hnd as [Hni Hnd]. assert (Ht : fd ∈ ep_touched g0) by (apply Hsub; by left).
  destruct (commit_fd_ok g0 fd todo P s Ha Ht Hni) as (P1 & s1 & E1 & H1); [by apply touched_cached|].
  rewrite (st_bind_Some _ _ _ _ _ E1). apply (IH P1 s1 H1); [|done|done]. intros f Hf. apply Hsub. by right.
Qed.

(** ** The others *)

(** The filters of a descriptor that is not wanted any more: each one that the
    cache has is deleted, or it is not there. *)
Definition gone (g0 : evs) (P : Z -> filter -> option bool) (fd : Z) (f : filter) : Prop :=
  if has (have g0 fd) (filter_bit f) then P fd f = Some false \/ P fd f = None /\ knows g0 fd f = false else P fd f = None.
Lemma push_deletes_nop fs fd ch g : cached fd g -> r_regmask (regof g fd) = 0 -> push_deletes HAVE_EXCEPT fs fd (ch, g) = Some (tt, (ch, g)).
Proof.
  intros Hc Hz. induction fs as [|f fs IH]; cbn [push_deletes]; [done|].
  rewrite (st_bind_Some _ _ _ _ _ (x_on_g _ ch g _ _ (x_rd_reg fd g Hc))), Hz. exact IH.
Qed.
Lemma push_deletes_ok g0 fs fd P s : mid g0 P s -> NoDup fs -> cached fd g0 ->
  (forall f, f ∈ fs -> P fd f = None) -> (forall f, P fd f <> Some true) ->
  r_regmask (regof s.2 fd) = have g0 fd \/
    r_regmask (regof s.2 fd) = 0 /\ (forall f, P fd f = None -> knows g0 fd f = false) ->
  exists P' s', push_deletes HAVE_EXCEPT fs fd s = Some (tt, s') /\ pushes P P' g0 s s' /\
    (forall f, f ∈ fs -> gone g0 P' fd f) /\ (forall fd' f', fd' <> fd \/ f' ∉ fs -> P' fd' f' = P fd' f').
Proof.
  revert P s. induction fs as [|f fs IH]; intros P [ch g] Hm Hnd Hc0 Hn Ht Hs; cbn [push_deletes snd] in *.
  { exists P, (ch, g). split_and!; [done|by apply pushes_refl|by intros ? ?%not_elem_of_nil|done]. }
  apply NoDup_cons in Hnd as [Hf Hnd]. assert (Hc : cached fd g) by (by eapply mid_cached).
  assert (Hfn : P fd f = None) by (apply Hn; by left).
  rewrite (st_bind_Some _ _ _ _ _ (x_on_g _ ch g _ _ (x_rd_reg fd g Hc))).
  destruct (has (r_regmask (regof g fd)) (filter_bit f)) eqn:Eh.
  - assert (Hhave : r_regmask (regof g fd) = have g0 fd) by (by destruct Hs as [?|[Hz _]]; [|rewrite Hz in Eh]).
    destruct (push_ok g0 P (ch, g) fd f false Hm Hfn Hc0) as (s1 & E1 & H1). rewrite (st_bind_Some _ _ _ _ _ E1).
    assert (Hx : pushed fd f false P fd f = Some false) by (unfold pushed; by rewrite decide_True).
    assert (Hp : forall fd' f', fd' <> fd \/ f' <> f -> pushed fd f false P fd' f' = P fd' f').
    { intros fd' f' Ho. unfold pushed. rewrite decide_False by tauto. done. }
    assert (Ht1 : forall f', pushed fd f false P fd f' <> Some true).
    { intros f'. destruct (decide (f' = f)) as [->|]; [by rewrite Hx|]. rewrite Hp by (by right). apply Ht. }
    destruct (IH (pushed fd f false P) s1 (ps_mid _ _ _ _ _ H1) Hnd Hc0) as (P2 & s2 & E2 & H2 & D2 & O2); [|done| |].
    + intros f' Hi. rewrite Hp by (right; by intros ->). apply Hn. by right.
    + destruct (ps_drop _ _ _ _ _ H1 fd) as [[_ Hk]|(_ & Hz & [[f' Hf']|[_ Hno]])]; [left; by rewrite Hk|by destruct (Ht1 f')|by right].
    + exists P2, s2. split_and!; [done|by eapply pushes_trans| |].
      * intros f' [->|Hi]%elem_of_cons; [|by apply D2]. unfold gone. rewrite <- Hhave, Eh. left. by rewrite O2 by (by right).
      * intros fd' f' Ho. rewrite not_elem_of_cons in Ho. rewrite O2, Hp; [done|tauto..].
  - rewrite (st_bind_Some (mret tt) _ (ch, g) tt (ch, g) eq_refl).
    destruct (IH P (ch, g) Hm Hnd Hc0) as (P2 & s2 & E2 & H2 & D2 & O2); [intros f' Hi; apply Hn; by right|done|done|].
    exists P2, s2. split_and!; [done|done| |].
    + intros f' [->|Hi]%elem_of_cons; [|by apply D2]. unfold gone. rewrite !O2 by (by right).
      destruct Hs as [Hs|[_ Hs]]; [rewrite <- Hs, Eh; done|].
      destruct (has (have g0 fd) _); [right; auto|done].
    + intros fd' f' Ho. rewrite not_elem_of_cons in Ho. apply O2. tauto.
Qed.

(** The sweep has been at the entries of [A]; those of [B] are to come. *)
Record sweeping (g0 : evs) (A B : list Z) (P : Z -> filter -> option bool) (s : kqst) : Prop := {
  sw_mid : mid g0 P s;
  sw_list : ep_reglist s.2 = A ++ B;
  sw_cached : forall fd, fd ∈ A ++ B -> cached fd g0;
  sw_in : forall fd, r_registered (regof s.2 fd) = true -> fd ∈ A ++ B;
  sw_off : forall fd, r_registered (regof s.2 fd) = false -> r_regmask (regof s.2 fd) = 0;
  sw_A : forall fd, fd ∈ A -> fd ∈ ep_touched g0;
  sw_none : forall fd f, f ∉ filters HAVE_EXCEPT -> P fd f = None;
  sw_t : forall fd f, fd ∈ ep_touched g0 -> f ∈ filters HAVE_EXCEPT ->
    P fd f = diff (r_want (regof g0 fd)) (have g0 fd) (ep_force g0) f;
  sw_u : forall fd, fd ∉ ep_touched g0 ->
    (forall f, P fd f = None) /\ kept (regof g0 fd) (regof s.2 fd) \/
    r_registered (regof s.2 fd) = false /\ forall f, f ∈ filters HAVE_EXCEPT -> gone g0 P fd f
}.

(** The iteration at an entry that goes. *)
Lemma sweep_deletes g0 A x B P ch g : sweeping g0 A (x :: B) P (ch, g) -> evp_base g0 -> 1 <= ep_gen g0 ->
  (forall fd, r_registered (regof g0 fd) = false -> r_regmask (regof g0 fd) = 0) ->
  r_gen (regof g x) <> ep_gen g \/ r_registered (regof g x) = false ->
  exists P' s', push_deletes HAVE_EXCEPT (filters HAVE_EXCEPT) x (ch, g) = Some (tt, s') /\ pushes P P' g0 (ch, g) s' /\
    (forall fd f, fd <> x \/ f ∉ filters HAVE_EXCEPT \/ x ∈ ep_touched g0 -> P' fd f = P fd f) /\
    (x ∉ ep_touched g0 -> forall f, f ∈ filters HAVE_EXCEPT -> gone g0 P' x f).
Proof.
  intros [S1 S2 S3 S4 S5 S6 S7 S8 S9] Hb Hg Hoff0 Hst. cbn [snd] in *.
  assert (Hc0 : cached x g0) by (apply S3, elem_of_app; right; by left).
  assert (Hc : cached x g) by (by eapply mid_cached).
  assert (Hmask0 : r_registered (regof g x) = false -> exists P' s', push_deletes HAVE_EXCEPT (filters HAVE_EXCEPT) x (ch, g) = Some (tt, s') /\
    s' = (ch, g) /\ P' = P).
  { intros Hr. exists P, (ch, g). split_and!; [|done..]. apply push_deletes_nop; auto. }
  destruct (decide (x ∈ ep_touched g0)) as [Ht|Ht].
  - destruct Hst as [Hst|Hr].
    { exfalso. apply Hst. destruct (md_entry _ _ _ S1 x) as (Hge & _). cbn [snd] in Hge. rewrite Hge, (md_gen _ _ _ S1 : ep_gen g = _).
      by apply (vi_touched _ Hb). }
    destruct (Hmask0 Hr) as (P' & s' & E & -> & ->). exists P, (ch, g). split_and!; [done|by apply pushes_refl|done|done].
  - destruct (S9 x Ht) as [[Hn [Hk1 Hk2]]|[Hr Hgo]].
    + destruct (push_deletes_ok g0 (filters HAVE_EXCEPT) x P (ch, g) S1 filters_nd Hc0) as (P' & s' & E & H & D & O).
      * auto.
      * intros f. by rewrite Hn.
      * left. cbn [snd]. rewrite Hk2. unfold have. destruct (r_registered (regof g0 x)) eqn:Er; [done|]. auto.
      * exists P', s'. split_and!; [done|done| |done]. intros fd f Ho. apply O. tauto.
    + destruct (Hmask0 Hr) as (P' & s' & E & -> & ->). exists P, (ch, g). split_and!; [done|by apply pushes_refl|done|done].
Qed.

(** An entry is switched off and taken out of the list. *)
Lemma sweep_out g0 A x B B' P P' ch g ch1 g1 c : sweeping g0 A (x :: B) P (ch, g) -> pushes P P' g0 (ch, g) (ch1, g1) ->
  (forall fd f, fd <> x \/ f ∉ filters HAVE_EXCEPT \/ x ∈ ep_touched g0 -> P' fd f = P fd f) ->
  (x ∉ ep_touched g0 -> forall f, f ∈ filters HAVE_EXCEPT -> gone g0 P' x f) -> B' ≡ₚ B ->
  sweeping g0 A B' P' (ch1, set_reglist (A ++ B') c (upd_reg x (set_regmask 0 (set_registered false (regof g1 x))) g1)).
Proof.
  intros [S1 S2 S3 S4 S5 S6 S7 S8 S9] [Q1 Q2 Q3 Q4 Q5] HP Hgo HB. cbn [snd] in *.
  assert (Hc0 : cached x g0) by (apply S3, elem_of_app; right; by left).
  assert (Hc1 : cached x g1) by (by eapply mid_cached).
  set (g2 := set_reglist _ c _). assert (HR : forall f, regof g2 f = if decide (f = x)
    then set_regmask 0 (set_registered false (regof g1 x)) else regof g1 f) by (intros f; by apply (regof_upd x _ g1)).
  assert (Hperm : forall f, f ∈ A ++ x :: B <-> f = x \/ f ∈ A ++ B').
  { intros f. rewrite <- Permutation_middle, elem_of_cons, HB. done. }
  constructor; cbn [snd]; try done.
  - by apply mid_reglist, mid_entry.
  - intros fd Hf. apply S3, Hperm. by right.
  - intros fd. rewrite HR. case_decide; [done|]. intros Hr.
    assert (Hr0 : r_registered (regof g fd) = true) by (eapply dropped_in; [apply Q4|exact Hr]).
    apply S4, Hperm in Hr0 as [?|?]; [done|]. done.
  - intros fd. rewrite HR. case_decide; [done|]. eapply dropped_off; [apply Q4|apply S5].
  - intros fd f Hf. rewrite HP by tauto. by apply S7.
  - intros fd f Ht Hf. rewrite HP; [by apply S8|]. destruct (decide (fd = x)) as [->|]; tauto.
  - intros fd Ht. rewrite HR. destruct (decide (fd = x)) as [->|Hne]; [right; split; [done|by apply Hgo]|].
    destruct (S9 fd Ht) as [[Hn [K1 K2]]|[Hr Hg]].
    + left. assert (Hn' : forall f, P' fd f = None) by (intros f; rewrite HP by tauto; apply Hn). split; [done|].
      destruct (dropped_none _ _ _ _ _ (Q4 fd) Hn') as [L1 L2]. split; congruence.
    + right. split.
      * destruct (r_registered (regof g1 fd)) eqn:Er; [|done]. eapply dropped_in in Er; [|apply Q4]. cbn [snd] in Er. congruence.
      * intros f Hf. unfold gone. rewrite !HP by tauto. by apply Hg.
Qed.
Lemma kq_sweep_ok fuel g0 A B P s : sweeping g0 A B P s -> evp_base g0 -> 1 <= ep_gen g0 ->
  (forall fd, r_registered (regof g0 fd) = false -> r_regmask (regof g0 fd) = 0) -> (length B <= fuel)%nat ->
  exists A' P' s', kq_sweep HAVE_EXCEPT fuel (length A) s = Some (tt, s') /\ sweeping g0 A' [] P' s'.
Proof.
  intros Hs Hb Hg Hoff0. revert A B P s Hs. induction fuel as [|fuel IH]; intros A B P [ch g] Hs Hf; cbn [kq_sweep];
    rewrite (st_bind_Some _ _ _ _ _ (x_on_g _ ch g g g eq_refl)); assert (HL := sw_list _ _ _ _ _ Hs); cbn [snd] in HL.
  - destruct B; [|cbn in Hf; lia]. rewrite HL, app_nil_r, lookup_ge_None_2 by lia. by exists A, P, (ch, g).
  - destruct B as [|x B]; [rewrite HL, app_nil_r, lookup_ge_None_2 by lia; by exists A, P, (ch, g)|].
    rewrite HL, list_lookup_middle by done.
    assert (Hc : cached x g) by (eapply mid_cached; [apply Hs|]; apply (sw_cached _ _ _ _ _ Hs), elem_of_app; right; by left).
    rewrite (st_bind_Some _ _ _ _ _ (x_on_g _ ch g _ _ (x_rd_reg x g Hc))). destruct (negb _ || _) eqn:Et.
    + assert (Hst : r_gen (regof g x) <> ep_gen g \/ r_registered (regof g x) = false).
      { apply orb_true_iff in Et as [Et|Et]; [left; by apply negb_true_iff, Z.eqb_neq in Et|right; by apply negb_true_iff in Et]. }
      destruct (sweep_deletes g0 A x B P ch g Hs Hb Hg Hoff0 Hst) as (P1 & [ch1 g1] & E1 & H1 & O1 & D1).
      rewrite (st_bind_Some _ _ _ _ _ E1).
      assert (Hc1 : cached x g1) by (eapply mid_cached; [apply H1|]; apply (sw_cached _ _ _ _ _ Hs), elem_of_app; right; by left).
      rewrite (st_bind_Some _ _ _ _ _ (x_on_g _ ch1 g1 _ _ (x_rd_reg x g1 Hc1))).
      rewrite (st_bind_Some _ _ _ _ _ (x_on_g _ ch1 g1 _ _ (x_wr_reg x _ g1 Hc1))). set (g2 := upd_reg x _ g1).
      rewrite (st_bind_Some _ _ _ _ _ (x_on_g _ ch1 g2 g2 g2 eq_refl)). change (ep_reglist g2) with (ep_reglist g1).
      rewrite (ps_list _ _ _ _ _ H1 : ep_reglist g1 = _). cbn [snd]. rewrite HL.
      destruct (last (A ++ x :: B)) as [z|] eqn:El; [|by apply last_None in El; destruct A].
      destruct (swap_out A B x z El) as (B' & -> & HB).
      rewrite (st_bind_Some _ _ (ch1, g2) tt (ch1, set_reglist (A ++ B') (ep_reglistcap g2) g2)) by done.
      apply (IH A B' P1); [by eapply sweep_out|rewrite HB; cbn in Hf; lia].
    + apply orb_false_iff in Et as [Eg Er]. apply negb_false_iff, Z.eqb_eq in Eg. apply negb_false_iff in Er.
      assert (Hx : x ∈ ep_touched g0).
      { apply (vi_touched _ Hb). split; [done|]. destruct (md_entry _ _ _ (sw_mid _ _ _ _ _ Hs) x) as (Hge & _). cbn [snd] in Hge.
        rewrite <- Hge, Eg. apply (md_gen _ _ _ (sw_mid _ _ _ _ _ Hs)). }
      replace (S (length A)) with (length (A ++ [x])) by (rewrite length_app; cbn; lia).
      apply (IH (A ++ [x]) B P); [|cbn in Hf; lia]. destruct Hs as [S1 S2 S3 S4 S5 S6 S7 S8 S9].
      constructor; rewrite <- ?app_assoc; try done. intros f [?| ->%list_elem_of_singleton]%elem_of_app; auto.
Qed.

(** ** A commit *)

(** What a filter is wanted for. *)
Definition wants (w : option Z) (f : filter) : bool := match w with Some m => has m (filter_bit f) | None => false end.
Record handed_over (w : Z -> option Z) (force : bool) (g g' : evs) (fd : Z) (f : filter) : Prop := {
  ho_ask : wants (w fd) f = true -> has (have g fd) (filter_bit f) = false \/ force = true ->
    knows g' fd f = true \/ has (pth_evp_ready fd g') PTH_EVP_FAIL = true;
  ho_same : wants (w fd) f = true -> has (have g fd) (filter_bit f) = true -> force = false -> knows g' fd f = knows g fd f;
  ho_drop : wants (w fd) f = false -> has (have g fd) (filter_bit f) = true -> knows g' fd f = false;
  ho_other : wants (w fd) f = false -> has (have g fd) (filter_bit f) = false -> knows g' fd f = knows g fd f
}.

Lemma mid_base g0 P ch g : evp_base g0 -> mid g0 P (ch, g) -> evp_base g.
Proof.
  intros [V1 V2 V3 V4 V5 V8 V9] [M1 M2 M3 M4 M5 M6 M7 M8 M9 M10 M11 M12 M13 M14]. cbn [snd] in *.
  constructor; rewrite ?M2, ?M3, ?M4, ?M6; try done.
  - intros fd. destruct (M14 fd) as (-> & _ & [-> | ->]); [apply V3|]. split; [apply V3|lia].
  - intros fd. destruct (M14 fd) as (-> & _ & _). apply V5.
Qed.
Lemma failed_ready g fd : evp_base g -> 1 <= ep_gen g -> failed g fd -> has (pth_evp_ready fd g) PTH_EVP_FAIL = true.
Proof. intros Hb Hg [H1 H2]. by rewrite ready_eq. Qed.

Lemma kq_commit_ok g : kq_inv g -> 1 <= ep_gen g -> exists g', pth_evp_commit HAVE_EXCEPT g = Some (tt, g') /\ kq_inv g' /\
  forall fd f, f ∈ filters HAVE_EXCEPT -> handed_over (wanted g) (ep_force g) g g' fd f.
Proof.
  intros [Hb Hin Hlist Hoff] Hg. unfold pth_evp_commit, kq_loops.
  rewrite (st_bind_Some _ _ _ _ _ (x_on_g _ [] g g g eq_refl)).
  assert (H0 : asking g (ep_touched g) (fun _ _ => None) ([], g)).
  { constructor; cbn [snd]; try done.
    constructor; cbn [fst snd]; try done; [apply Hb|cbn; lia|apply NoDup_nil_2|by intros ? ? ? ?%not_elem_of_nil|auto]. }
  destruct (commit_fds_ok g (ep_touched g) _ _ H0) as (P1 & [ch1 g1] & E1 & [A1 A2 A3 A4 A5 A6 A7]); [done|apply Hb|done|].
  rewrite (st_bind_Some _ _ _ _ _ E1).
  rewrite (st_bind_Some _ _ _ _ _ (x_on_g _ ch1 g1 g1 g1 eq_refl)). cbn [snd] in *.
  assert (H1 : sweeping g [] (ep_reglist g1) P1 (ch1, g1)).
  { constructor; cbn [snd app]; try done.
    - by intros ? ?%not_elem_of_nil.
    - intros fd f Hf. apply A2. by right; right.
    - intros fd f Ht Hf. apply A4; [done|apply not_elem_of_nil|done].
    - intros fd Ht. left. split; [intros f; apply A2; by right; left|apply A3; by right]. }
  destruct (kq_sweep_ok (length (ep_reglist g1)) g [] (ep_reglist g1) P1 (ch1, g1) H1 Hb Hg Hoff) as (A & P2 & [ch2 g2] & E2 & [S1 S2 S3 S4 S5 S6 S7 S8 S9]); [done|].
  cbn [length] in E2. rewrite E2. clear E1 E2.
  cbn [fst snd] in *. rewrite app_nil_r in *.
  destruct (apply_ok g P2 (ch2, g2) S1) as (g3 & E3 & M & HL & HD & _). cbn [fst snd] in *. rewrite E3. exists g3. split; [done|].
  assert (Hb3 : evp_base g3) by (by eapply mid_base). assert (Hg3 : 1 <= ep_gen g3) by (by rewrite (md_gen _ _ _ M : ep_gen g3 = _)).
  split.
  - constructor; [done|..].
    + intros fd Hr. rewrite HL, S2. eapply S4, dropped_in; [apply HD|exact Hr].
    + intros fd Hf. eapply mid_cached; [exact M|]. apply S3. by rewrite <- S2, <- HL.
    + intros fd. eapply dropped_off; [apply HD|apply S5].
  - intros fd f Hf. assert (Hn : P2 fd f = None -> knows g3 fd f = knows g fd f) by (apply (md_none _ _ _ M)).
    assert (Hadd : P2 fd f = Some true -> knows g3 fd f = true \/ has (pth_evp_ready fd g3) PTH_EVP_FAIL = true).
    { intros HP. destruct (md_add _ _ _ M fd f HP) as [?%not_elem_of_nil|[?|?]]; [done|by left|right; by apply failed_ready]. }
    assert (Hdel : P2 fd f = Some false -> knows g3 fd f = false).
    { intros HP. by destruct (md_del _ _ _ M fd f HP) as [?%not_elem_of_nil|?]. }
    destruct (decide (fd ∈ ep_touched g)) as [Ht|Ht].
    + assert (Hw : wanted g fd = Some (r_want (regof g fd))) by (by apply wanted_touched).
      specialize (S8 fd f Ht Hf). unfold diff in S8.
      constructor; rewrite Hw; cbn [wants]; intros E1; rewrite E1 in S8; cbn [negb andb] in S8.
      * intros [E2|E2]; rewrite E2, ?orb_true_r in S8; auto.
      * intros E2 E4. rewrite E2, E4 in S8. auto.
      * intros E2. rewrite E2 in S8. auto.
      * intros E2. rewrite E2 in S8. auto.
    + assert (Hw : wanted g fd = None).
      { destruct (wanted g fd) as [m|] eqn:Ew; [|done]. apply wanted_touched in Ew as [? _]; done. }
      assert (Hgone : gone g P2 fd f).
      { destruct (S9 fd Ht) as [[HPn [K1 K2]]|[_ Hgo]]; [|by apply Hgo]. unfold gone.
        destruct (r_registered (regof g fd)) eqn:Er; [exfalso; apply Ht, S6, S4; by rewrite K1|]. unfold have. rewrite Er. by rewrite HPn. }
      unfold gone in Hgone. constructor; rewrite Hw; cbn [wants]; try done; intros _ E2; rewrite E2 in Hgone; [|auto].
      destruct Hgone as [?|[? Hk]]; [auto|]. rewrite Hn; done.
Qed.

(** ** A whole pass *)

Lemma kq_inv_collected g g' : kq_inv g -> evp_base g' -> ep_reglist g' = ep_reglist g -> (length (ep_reg g) <= length (ep_reg g'))%nat ->
  (forall fd, r_registered (regof g' fd) = r_registered (regof g fd) /\ r_regmask (regof g' fd) = r_regmask (regof g fd)) -> kq_inv g'.
Proof.
  intros [_ V1 V2 V3] Hb HL Hle HR. constructor; [done|..]; intros fd; [..|destruct (HR fd) as [-> ->]; apply V3].
  - destruct (HR fd) as [-> _]. rewrite HL. apply V1.
  - rewrite HL. intros [? ?]%V2. split; lia.
Qed.


(** ** Waiting *)

Lemma ready_stamped l (g : evs) : stamped (fun _ => False) g (foldl (fun g v => kq_ready HAVE_EXCEPT v g) g l).
Proof.
  revert g. induction l as [|v l IH]; intros g; [apply stamped_refl|]. eapply stamped_trans; [|apply IH].
  unfold kq_ready. rewrite kq_upd_eq. case_decide as Hc; [|apply stamped_refl].
  apply (stamp_step (v_ident v) (reg_stamp (ep_gen g) (event_bit HAVE_EXCEPT v))); try done; [|by left].
  intros Hr Hf. cbn. rewrite Hr, Z.eqb_refl. by apply has_lor_l.
Qed.
Lemma stamped_inv g g' : stamped (fun _ => False) g g' -> kq_inv g -> kq_inv g'.
Proof.
  intros [T1 T2 T3 _ T5] [[V1 V2 V3 V4 V5 V8 V9] V6 V7 V10].
  assert (Hk : forall fd, kept (regof g fd) (regof g' fd)) by (intros fd; by destruct (T5 fd) as [?|[? _]]).
  assert (Hr : ep_gen g' = ep_gen g /\ ep_touched g' = ep_touched g /\ ep_reglist g' = ep_reglist g /\ ep_evcap g' = ep_evcap g /\
    forall n, ep_alloc g' n = ep_alloc g n) by (by rewrite T1). destruct Hr as (R1 & R2 & R3 & R4 & R5).
  constructor; [constructor|..]; rewrite ?R1, ?R2, ?R3, ?R4, ?T2; try done.
  - intros n. by rewrite R5.
  - intros fd. destruct (T3 fd) as (-> & _ & [-> | ->]); [apply V3|]. split; [apply V3|lia].
  - intros fd. destruct (T3 fd) as (-> & _ & _). apply V5.
  - intros fd. destruct (Hk fd) as [-> _]. apply V6.
  - intros fd Hf. unfold cached. rewrite T2. by apply V7.
  - intros fd. eapply kept_off; [apply Hk|apply V10].
Qed.
Lemma kq_wait_call_ok fuel m t g : (kq_patience (ep_kernel g) <= fuel)%nat -> exists n l k,
  wait_call fuel m t g = Some ((n, l), set_kernel k g) /\ forall fd f, kn k fd f = true -> knows g fd f = true.
Proof.
  revert g. induction fuel as [|fuel IH]; intros g Hf; cbn [wait_call];
    destruct (kl_wait m t (ep_kernel g)) as (n & err & l & k & -> & Hk & Hp); destruct (_ && _) eqn:Et; try by eexists _, _, _.
  - apply andb_true_iff in Et as [E1 E2]. apply Z.ltb_lt in E1. apply bool_decide_eq_true in E2. specialize (Hp E1 E2). lia.
  - apply andb_true_iff in Et as [E1 E2]. apply Z.ltb_lt in E1. apply bool_decide_eq_true in E2. specialize (Hp E1 E2).
    destruct (IH (set_kernel k g)) as (n2 & l2 & k2 & E & Hk2); [cbn; lia|]. exists n2, l2, k2. split; [exact E|]. auto.
Qed.
(** Waiting returns and keeps the cache well-formed, as long as the list of
    registered descriptors has fewer than 2^28 entries. *)
Lemma kq_wait_ok t g : kq_inv g -> Z.of_nat (length (ep_reglist g)) < 2 ^ 28 ->
  exists n g', pth_evp_wait HAVE_EXCEPT t g = Some (n, g') /\ kq_inv g'.
Proof.
  intros Hi Hs. assert (Hcap := vi_cap _ Hi). unfold pth_evp_wait. destruct (Z.geb_spec (Z.of_nat (length (ep_reglist g)) * 3 + 1) (2 ^ 31)); [lia|].
  match goal with |- context [match ?m with Some _ => _ | None => None end] => assert (exists g1, m = Some g1 /\ kq_inv g1) as (g1 & -> & Hi1) end.
  { destruct (_ >? _); [|by exists g].
    destruct (grow_cap_ok 32 (if ep_evcap g =? 0 then 64 else ep_evcap g) (Z.of_nat (length (ep_reglist g)) * 3 + 1 - 1)) as (nc & -> & H1 & H2 & _).
    - destruct (Z.eqb_spec (ep_evcap g) 0); lia.
    - lia.
    - change (2 ^ Z.of_nat 32) with (2 ^ 32). destruct (Z.eqb_spec (ep_evcap g) 0); lia.
    - rewrite (vi_alloc _ Hi). eexists. split; [done|]. destruct Hi as [[V1 V2 V3 V4 V5 V8 V9] V6 V7 V10].
      constructor; [constructor|..]; try done. cbn. destruct (Z.eqb_spec (ep_evcap g) 0); lia. }
  destruct (_ =? 0); [by eexists _, _|].
  destruct (kq_wait_call_ok (kq_patience (ep_kernel g1)) (ep_evcap g1) t g1) as (n & l & k & -> & Hk); [done|].
  eexists _, _. split; [done|]. assert (H2 : kq_inv (set_kernel k g1)) by (by destruct Hi1 as [[] ? ? ?]).
  destruct (n >? 0); [|done]. eapply stamped_inv; [apply ready_stamped|done].
Qed.

(** A new instance is well-formed. *)
Lemma kq_init_ok osfd kernel reval (g : evs) : pth_evp_init osfd kernel (fun _ => true) reval = Some g -> kq_inv g.
Proof.
  unfold pth_evp_init. destruct (osfd <? 0); [done|]. intros [= <-].
  assert (Hr : forall fd, regof (Evp [] 0 [] 0 [] 0 0 false (match reval with Some v => v | None => 1000 end) pth_time_zero kernel (fun _ => true)) fd = evreg0).
  { intros fd. apply regof_blank. intros [? ?]. cbn in *. lia. }
  constructor; [constructor|..]; try done; try apply NoDup_nil_2; intros f; rewrite ?Hr; cbn; try lia; try done; try by intros ?%not_elem_of_nil.
  split; [by intros ?%not_elem_of_nil|lia].
Qed.
End spec.

(** ** A kernel to compute with *)

(** The filters that are watched, the descriptors that are open, and those of
    them that cannot be watched for writing. *)
Record toykq := Toykq { tk_on : Z -> filter -> bool; tk_open : gset Z; tk_nowrite : gset Z }.
Definition toy_kn (k : toykq) (fd : Z) (f : filter) : bool := tk_on k fd f && bool_decide (fd ∈ tk_open k).
Definition toy_put (fd : Z) (f : filter) (x : bool) (k : toykq) : toykq :=
  Toykq (fun fd' f' => if decide (fd' = fd /\ f' = f) then x else tk_on k fd' f') (tk_open k) (tk_nowrite k).
Definition toy_change (c : change) (k : toykq) : list kevent * toykq :=
  let '(fd, f, add) := c in
  if bool_decide (fd ∉ tk_open k) then ([Kevent fd f true false 9], k)
  else if add then
    if bool_decide (f = EVFILT_WRITE /\ fd ∈ tk_nowrite k) then ([Kevent fd f true false 22], k) else ([], toy_put fd f true k)
  else if tk_on k fd f then ([], toy_put fd f false k) else ([Kevent fd f true false 2], k).
Fixpoint toy_changes (ch : list change) (k : toykq) : list kevent * toykq :=
  match ch with
  | [] => ([], k)
  | c :: ch' => let '(r1, k) := toy_change c k in let '(r2, k) := toy_changes ch' k in (r1 ++ r2, k)
  end.
#[export] Instance toykq_sys : KqueueSys toykq := {|
  kq_change ch k := let '(res, k) := toy_changes ch k in (Z.of_nat (length res), res, k);
  kq_wait _ _ k := (0, EINVAL, [], k);
  kq_patience _ := O
|}.

Lemma toy_put_kn fd f x k fd' f' : fd ∈ tk_open k ->
  toy_kn (toy_put fd f x k) fd' f' = if decide (fd' = fd /\ f' = f) then x else toy_kn k fd' f'.
Proof. intros Ho. unfold toy_kn. cbn. case_decide as Hd; [destruct Hd as [-> ->]; rewrite bool_decide_eq_true_2 by done; apply andb_true_r|done]. Qed.
Lemma toy_change_ok fd f add k r k' : toy_change (fd, f, add) k = (r, k') ->
  tk_open k' = tk_open k /\ (forall fd' f', (fd', f') <> (fd, f) -> toy_kn k' fd' f' = toy_kn k fd' f') /\
  (if add then toy_kn k' fd f = true \/ exists v, v ∈ r /\ v_ident v = fd /\ bad v else toy_kn k' fd f = false) /\
  (forall v, v ∈ r -> bad v -> v_ident v = fd /\ v_filter v = f /\ (add = false -> fd ∉ tk_open k)).
Proof.
  unfold toy_change. case_bool_decide as Ho.
  { intros [= <- <-]. assert (Hb : bad (Kevent fd f true false 9)) by done. split_and!; [done..| |].
    - destruct add; [right; eexists; split; [by left|done]|]. unfold toy_kn. rewrite bool_decide_eq_false_2 by done. apply andb_false_r.
    - intros v ->%list_elem_of_singleton _. done. }
  assert (Ho' : fd ∈ tk_open k) by (destruct (decide (fd ∈ tk_open k)); [done|tauto]).
  assert (Hput : forall x, (forall fd' f', (fd', f') <> (fd, f) -> toy_kn (toy_put fd f x k) fd' f' = toy_kn k fd' f') /\ toy_kn (toy_put fd f x k) fd f = x).
  { intros x. split; [intros fd' f' Hn; rewrite toy_put_kn, decide_False by (try done; intros [-> ->]; done); done|].
    by rewrite toy_put_kn, decide_True. }
  destruct add.
  - case_bool_decide; intros [= <- <-].
    + split_and!; [done..| |]; [right; eexists; split; [by left|done]|]. intros v ->%list_elem_of_singleton _. done.
    + destruct (Hput true). split_and!; [done..|by left|by intros ? ?%not_elem_of_nil].
  - destruct (tk_on k fd f) eqn:Eon; intros [= <- <-].
    + destruct (Hput false). split_and!; [done..|by intros ? ?%not_elem_of_nil].
    + split_and!; [done..| |]; [unfold toy_kn; by rewrite Eon|]. by intros v ->%list_elem_of_singleton (_ & _ & []).
Qed.
Lemma toy_changes_ok ch k : NoDup ch.*1 -> exists r k', toy_changes ch k = (r, k') /\ tk_open k' = tk_open k /\
  (forall fd f, (fd, f) ∉ ch.*1 -> toy_kn k' fd f = toy_kn k fd f) /\
  (forall fd f, (fd, f, true) ∈ ch -> toy_kn k' fd f = true \/ exists v, v ∈ r /\ v_ident v = fd /\ bad v) /\
  (forall fd f, (fd, f, false) ∈ ch -> toy_kn k' fd f = false) /\
  (forall v, v ∈ r -> bad v -> exists b, (v_ident v, v_filter v, b) ∈ ch /\ (b = false -> v_ident v ∉ tk_open k)).
Proof.
  revert k. induction ch as [|[[fd f] add] ch IH]; intros k Hnd; cbn [toy_changes].
  { exists [], k. split_and!; try done; by intros ? ?%not_elem_of_nil || intros ? ? ?%not_elem_of_nil. }
  rewrite fmap_cons in Hnd. apply NoDup_cons in Hnd as [Hni Hnd]. cbn [fst] in Hni.
  destruct (toy_change (fd, f, add) k) as [r1 k1] eqn:E1. destruct (toy_change_ok _ _ _ _ _ _ E1) as (O1 & U1 & C1 & B1).
  destruct (IH k1 Hnd) as (r2 & k2 & -> & O2 & U2 & A2 & D2 & B2). exists (r1 ++ r2), k2.
  assert (Hself : forall b, (fd, f, b) ∈ (fd, f, add) :: ch -> b = add).
  { intros b [[= ->]|Hi]%elem_of_cons; [done|]. exfalso. apply Hni, list_elem_of_fmap. by exists (fd, f, b). }
  split_and!; [done|congruence|..].
  - intros fd' f'. rewrite fmap_cons, not_elem_of_cons. intros [? ?]. rewrite U2, U1; done.
  - intros fd' f' Hi. destruct (decide ((fd', f') = (fd, f))) as [[= -> ->]|Hne].
    + apply Hself in Hi as <-. rewrite U2 by done. destruct C1 as [?|(v & ? & ?)]; [by left|right]. exists v. rewrite elem_of_app. tauto.
    + apply elem_of_cons in Hi as [[= -> -> _]|Hi]; [done|]. destruct (A2 fd' f' Hi) as [?|(v & ? & ?)]; [by left|right]. exists v. rewrite elem_of_app. tauto.
  - intros fd' f' Hi. destruct (decide ((fd', f') = (fd, f))) as [[= -> ->]|Hne].
    + apply Hself in Hi as <-. by rewrite U2.
    + apply elem_of_cons in Hi as [[= -> -> _]|Hi]; [done|]. by apply D2.
  - intros v [Hv|Hv]%elem_of_app Hb.
    + destruct (B1 v Hv Hb) as (-> & -> & Hcl). exists add. split; [by left|done].
    + destruct (B2 v Hv Hb) as (b & Hi & Hcl). exists b. split; [by right|]. by rewrite <- O1.
Qed.
#[export] Instance toykq_laws : KqueueLaws toykq.
Proof.
  refine {| kn := toy_kn |}.
  - intros ch k _ Hnd. destruct (toy_changes_ok ch k Hnd) as (r & k' & E & _ & H1 & H2 & H3 & H4). exists r, k'. cbn [kq_change toykq_sys].
    rewrite E. split_and!; try done. intros v Hv Hb. destruct (H4 v Hv Hb) as (b & Hi & Hcl). exists b. split; [done|].
    intros -> f. unfold toy_kn. rewrite bool_decide_eq_false_2 by auto. apply andb_false_r.
  - intros m t k. by eexists _, _, _, _.
Defined.

(** Descriptors 3, the pipe, and 4 are open; 4 cannot be watched for writing. *)
Definition toy_kq : evp toykq := Evp [] 0 [] 0 [] 0 0 false 1000 pth_time_zero (Toykq (fun _ _ => false) {[3; 4]} {[4]}) (fun _ => true).
Definition kq_pass (l : list (Z * Z)) : st (evp toykq) unit := pth_evp_begin;; want_all l;; evp_commit (pth_evp_commit true) (Tv 5 0) 3.
(** What is to be seen after a run: the list, a failure, and the filters. *)
Definition toy_view (fd : Z) (r : option (unit * evp toykq)) : option (list Z * bool * bool * bool) :=
  match r with
  | Some (_, g) => Some (ep_reglist g, has (pth_evp_ready fd g) PTH_EVP_FAIL, toy_kn (ep_kernel g) fd EVFILT_READ, toy_kn (ep_kernel g) fd EVFILT_WRITE)
  | None => None
  end.

(** A filter that was accepted next to one that was refused is forgotten: it
    stays with the kernel when the descriptor is not wanted any more. *)
Lemma kqueue_filter_forgotten :
  toy_view 4 (kq_pass [(4, Z.lor PTH_EVP_R PTH_EVP_W)] toy_kq) = Some ([4; 3], true, true, false) /\
  toy_view 4 ((kq_pass [(4, Z.lor PTH_EVP_R PTH_EVP_W)];; kq_pass []) toy_kq) = Some ([3], false, true, false).
Proof. split; vm_compute; reflexivity. Qed.
(** A descriptor that is refused in one pass after the other is listed once
    more in each. *)
Lemma kqueue_bad_listed_again :
  let p := kq_pass [(9, PTH_EVP_R)] in
  toy_view 9 (p toy_kq) = Some ([9; 3], true, false, false) /\
  toy_view 9 ((p;; p) toy_kq) = Some ([9; 3; 9], true, false, false) /\
  toy_view 9 ((p;; p;; p) toy_kq) = Some ([9; 3; 9; 9], true, false, false).
Proof. split_and!; vm_compute; reflexivity. Qed.
