(* ===== verification/Attr.v ===== *)
(** * Thread attributes (src/pth_attr.c) and control blocks (src/pth_tcb.c)

    An attribute object holds the attributes of a thread to be spawned, or is
    bound to a thread and gives access to the attributes that this thread has.
    Also here: the allocation of thread control blocks. *)

From stdpp Require Import base numbers gmap list.
From S2P Require Import Prelude Pqueue Timeval Waitq Util World.
Open Scope Z_scope.

Definition PTH_TCB_NAMELEN : nat := 40.

Inductive attr_op :=
| PTH_ATTR_PRIO | PTH_ATTR_NAME | PTH_ATTR_JOINABLE | PTH_ATTR_CANCEL_STATE | PTH_ATTR_STACK_SIZE | PTH_ATTR_STACK_ADDR
| PTH_ATTR_DISPATCHES | PTH_ATTR_TIME_SPAWN | PTH_ATTR_TIME_LAST | PTH_ATTR_TIME_RAN | PTH_ATTR_START_FUNC
| PTH_ATTR_START_ARG | PTH_ATTR_STATE | PTH_ATTR_EVENTS | PTH_ATTR_BOUND | PTH_ATTR_OTHER.
#[export] Instance attr_op_dec : EqDecision attr_op.
Proof. solve_decision. Defined.
Inductive attr_cmd := PTH_ATTR_GET | PTH_ATTR_SET.

(** What is passed or stored: integers, the memory from a string on, a
    pointer, a time. *)
Inductive attr_val := VInt (z : Z) | VStr (s : list Z) | VPtr (p : ptr) | VTime (t : pth_time_t).

Record pth_attr := Attr {
  a_tid : ptr; a_prio : Z; a_dispatches : Z; a_name : list Z; a_joinable : Z; a_cancelstate : Z; a_stacksize : Z; a_stackaddr : ptr
}.
(** The fields of a thread that are attributes. *)
Record tfields := Tfields {
  f_prio : Z; f_name : list Z; f_dispatches : Z; f_joinable : Z; f_cancelstate : Z; f_stacksize : Z; f_stack : ptr;
  f_spawned : pth_time_t; f_lastran : pth_time_t; f_running : pth_time_t; f_start_func : ptr; f_start_arg : ptr;
  f_state : Z; f_events : ptr
}.
Record attrs := Attrs { at_attr : gmap addr pth_attr; at_thread : gmap addr tfields }.

Definition rd_attr (a : addr) : st attrs pth_attr :=
  fun s => match at_attr s !! a with Some x => Some (x, s) | None => None end.
Definition wr_attr (a : addr) (x : pth_attr) : st attrs unit :=
  fun s => match at_attr s !! a with Some _ => Some (tt, Attrs (<[a := x]> (at_attr s)) (at_thread s)) | None => None end.
Definition rd_thread (t : addr) : st attrs tfields :=
  fun s => match at_thread s !! t with Some x => Some (x, s) | None => None end.
Definition wr_thread (t : addr) (x : tfields) : st attrs unit :=
  fun s => match at_thread s !! t with Some _ => Some (tt, Attrs (at_attr s) (<[t := x]> (at_thread s))) | None => None end.

(** ** Creation

    [alloc] is the result of [malloc] and [junk] what is in that memory. *)
Definition new_attr (alloc : ptr) (junk : pth_attr) : st attrs ptr :=
  fun s => match alloc with
           | Some a => Some (alloc, Attrs (<[a := junk]> (at_attr s)) (at_thread s))
           | None => Some (NULL, s) end.

(** ["unknown"]. *)
Definition unknown : list Z := [117; 110; 107; 110; 111; 119; 110; 0].
(** A string copied to the beginning of a buffer. *)
Definition copy_name (src buf : list Z) : option (list Z) :=
  match pth_util_cpystrn src PTH_TCB_NAMELEN with
  | Some (d, _) => Some (d ++ drop (length d) buf)
  | None => None end.

Definition pth_attr_init (a : ptr) : st attrs (bool * option errno) :=
  match a with
  | None => mret (pth_error false EINVAL)
  | Some p =>
      x ← rd_attr p;
      if bool_decide (a_tid x <> NULL) then mret (pth_error false EPERM) else
      match copy_name unknown (a_name x) with
      | Some n => wr_attr p (Attr (a_tid x) PTH_PRIO_STD 0 n 1 PTH_CANCEL_DEFAULT (64 * 1024) NULL);; mret (ok true)
      | None => undef end
  end.
Definition pth_attr_of (alloc : ptr) (junk : pth_attr) (t : ptr) : st attrs (ptr * option errno) :=
  if bool_decide (t = NULL) then mret (pth_error NULL EINVAL) else
  a ← new_attr alloc junk;
  match a with
  | None => mret (pth_error NULL ENOMEM)
  | Some p =>
      x ← rd_attr p;
      wr_attr p (Attr t (a_prio x) (a_dispatches x) (a_name x) (a_joinable x) (a_cancelstate x) (a_stacksize x) (a_stackaddr x));;
      mret (ok a)
  end.
Definition pth_attr_new (alloc : ptr) (junk : pth_attr) : st attrs (ptr * option errno) :=
  a ← new_attr alloc junk;
  match a with
  | None => mret (pth_error NULL ENOMEM)
  | Some p =>
      x ← rd_attr p;
      wr_attr p (Attr NULL (a_prio x) (a_dispatches x) (a_name x) (a_joinable x) (a_cancelstate x) (a_stacksize x) (a_stackaddr x));;
      pth_attr_init a;;
      mret (ok a)
  end.
Definition pth_attr_destroy (a : ptr) : st attrs (bool * option errno) :=
  match a with
  | None => mret (pth_error false EINVAL)
  | Some p => rd_attr p;; s ← get_st; put_st (Attrs (delete p (at_attr s)) (at_thread s));; mret (ok true)
  end.

(** ** Access

    A result is the value with [errno], and for [PTH_ATTR_GET] what is
    stored. *)
Definition ares : Type := bool * option errno * option attr_val.
Definition adone (v : option attr_val) : ares := (true, None, v).
Definition afail (e : errno) : ares := (false, Some e, None).

(** The attributes that can be changed: the field of the thread if the object
    is bound, else that of the object. *)
Definition get_t (op : attr_op) (x : tfields) : option attr_val :=
  match op with
  | PTH_ATTR_PRIO => Some (VInt (f_prio x)) | PTH_ATTR_NAME => Some (VStr (f_name x))
  | PTH_ATTR_DISPATCHES => Some (VInt (f_dispatches x)) | PTH_ATTR_JOINABLE => Some (VInt (f_joinable x))
  | PTH_ATTR_CANCEL_STATE => Some (VInt (f_cancelstate x)) | PTH_ATTR_STACK_SIZE => Some (VInt (f_stacksize x))
  | PTH_ATTR_STACK_ADDR => Some (VPtr (f_stack x)) | _ => None
  end.
Definition get_a (op : attr_op) (x : pth_attr) : option attr_val :=
  match op with
  | PTH_ATTR_PRIO => Some (VInt (a_prio x)) | PTH_ATTR_NAME => Some (VStr (a_name x))
  | PTH_ATTR_DISPATCHES => Some (VInt (a_dispatches x)) | PTH_ATTR_JOINABLE => Some (VInt (a_joinable x))
  | PTH_ATTR_CANCEL_STATE => Some (VInt (a_cancelstate x)) | PTH_ATTR_STACK_SIZE => Some (VInt (a_stacksize x))
  | PTH_ATTR_STACK_ADDR => Some (VPtr (a_stackaddr x)) | _ => None
  end.
(** The stack of a thread is fixed; a value of another type is undefined. *)
Definition put_t (op : attr_op) (v : attr_val) (x : tfields) : option tfields :=
  match op, v with
  | PTH_ATTR_PRIO, VInt z => Some (Tfields (i32 z) (f_name x) (f_dispatches x) (f_joinable x) (f_cancelstate x) (f_stacksize x)
      (f_stack x) (f_spawned x) (f_lastran x) (f_running x) (f_start_func x) (f_start_arg x) (f_state x) (f_events x))
  | PTH_ATTR_NAME, VStr s => match copy_name s (f_name x) with
      | Some n => Some (Tfields (f_prio x) n (f_dispatches x) (f_joinable x) (f_cancelstate x) (f_stacksize x)
      (f_stack x) (f_spawned x) (f_lastran x) (f_running x) (f_start_func x) (f_start_arg x) (f_state x) (f_events x))
      | None => None end
  | PTH_ATTR_DISPATCHES, VInt z => Some (Tfields (f_prio x) (f_name x) (i32 z) (f_joinable x) (f_cancelstate x) (f_stacksize x)
      (f_stack x) (f_spawned x) (f_lastran x) (f_running x) (f_start_func x) (f_start_arg x) (f_state x) (f_events x))
  | PTH_ATTR_JOINABLE, VInt z => Some (Tfields (f_prio x) (f_name x) (f_dispatches x) (i32 z) (f_cancelstate x) (f_stacksize x)
      (f_stack x) (f_spawned x) (f_lastran x) (f_running x) (f_start_func x) (f_start_arg x) (f_state x) (f_events x))
  | PTH_ATTR_CANCEL_STATE, VInt z => Some (Tfields (f_prio x) (f_name x) (f_dispatches x) (f_joinable x) (u32 z) (f_stacksize x)
      (f_stack x) (f_spawned x) (f_lastran x) (f_running x) (f_start_func x) (f_start_arg x) (f_state x) (f_events x))
  | _, _ => None
  end.
Definition put_a (op : attr_op) (v : attr_val) (x : pth_attr) : option pth_attr :=
  match op, v with
  | PTH_ATTR_PRIO, VInt z =>
      Some (Attr (a_tid x) (i32 z) (a_dispatches x) (a_name x) (a_joinable x) (a_cancelstate x) (a_stacksize x) (a_stackaddr x))
  | PTH_ATTR_NAME, VStr s => match copy_name s (a_name x) with
      | Some n => Some (Attr (a_tid x) (a_prio x) (a_dispatches x) n (a_joinable x) (a_cancelstate x) (a_stacksize x) (a_stackaddr x))
      | None => None end
  | PTH_ATTR_DISPATCHES, VInt z =>
      Some (Attr (a_tid x) (a_prio x) (i32 z) (a_name x) (a_joinable x) (a_cancelstate x) (a_stacksize x) (a_stackaddr x))
  | PTH_ATTR_JOINABLE, VInt z =>
      Some (Attr (a_tid x) (a_prio x) (a_dispatches x) (a_name x) (i32 z) (a_cancelstate x) (a_stacksize x) (a_stackaddr x))
  | PTH_ATTR_CANCEL_STATE, VInt z =>
      Some (Attr (a_tid x) (a_prio x) (a_dispatches x) (a_name x) (a_joinable x) (u32 z) (a_stacksize x) (a_stackaddr x))
  | PTH_ATTR_STACK_SIZE, VInt z =>
      Some (Attr (a_tid x) (a_prio x) (a_dispatches x) (a_name x) (a_joinable x) (a_cancelstate x) (u32 z) (a_stackaddr x))
  | PTH_ATTR_STACK_ADDR, VPtr p =>
      Some (Attr (a_tid x) (a_prio x) (a_dispatches x) (a_name x) (a_joinable x) (a_cancelstate x) (a_stacksize x) p)
  | _, _ => None
  end.

Definition attr_put (p : addr) (x : pth_attr) (op : attr_op) (v : attr_val) : st attrs ares :=
  match a_tid x with
  | Some t => y ← rd_thread t; match put_t op v y with Some y' => wr_thread t y';; mret (adone None) | None => undef end
  | None => match put_a op v x with Some x' => wr_attr p x';; mret (adone None) | None => undef end
  end.
Definition attr_get (x : pth_attr) (op : attr_op) : st attrs ares :=
  match a_tid x with
  | Some t => y ← rd_thread t; mret (adone (get_t op y))
  | None => mret (adone (get_a op x))
  end.
(** An attribute that only a thread has, and a time, zero without thread. *)
Definition of_thread (x : pth_attr) (f : tfields -> attr_val) : st attrs ares :=
  match a_tid x with
  | None => mret (afail EACCES)
  | Some t => y ← rd_thread t; mret (adone (Some (f y)))
  end.
Definition of_time (x : pth_attr) (f : tfields -> pth_time_t) : st attrs ares :=
  match a_tid x with
  | None => mret (adone (Some (VTime pth_time_zero)))
  | Some t => y ← rd_thread t; mret (adone (Some (VTime (f y))))
  end.

Definition pth_attr_ctrl (cmd : attr_cmd) (a : ptr) (op : attr_op) (v : attr_val) : st attrs ares :=
  match a with
  | None => mret (afail EINVAL)
  | Some p =>
      x ← rd_attr p;
      match op with
      | PTH_ATTR_PRIO | PTH_ATTR_NAME | PTH_ATTR_DISPATCHES | PTH_ATTR_JOINABLE | PTH_ATTR_CANCEL_STATE =>
          match cmd with PTH_ATTR_SET => attr_put p x op v | PTH_ATTR_GET => attr_get x op end
      | PTH_ATTR_STACK_SIZE | PTH_ATTR_STACK_ADDR =>
          match cmd with
          | PTH_ATTR_SET => if bool_decide (a_tid x <> NULL) then mret (afail EPERM) else attr_put p x op v
          | PTH_ATTR_GET => attr_get x op
          end
      | PTH_ATTR_OTHER => mret (afail EINVAL)
      | _ =>
          match cmd with
          | PTH_ATTR_SET => mret (afail EPERM)
          | PTH_ATTR_GET =>
              match op with
              | PTH_ATTR_TIME_SPAWN => of_time x f_spawned
              | PTH_ATTR_TIME_LAST => of_time x f_lastran
              | PTH_ATTR_TIME_RAN => of_time x f_running
              | PTH_ATTR_START_FUNC => of_thread x (fun y => VPtr (f_start_func y))
              | PTH_ATTR_START_ARG => of_thread x (fun y => VPtr (f_start_arg y))
              | PTH_ATTR_STATE => of_thread x (fun y => VInt (f_state y))
              | PTH_ATTR_EVENTS => of_thread x (fun y => VPtr (f_events y))
              | _ => mret (adone (Some (VInt (if bool_decide (a_tid x <> NULL) then 1 else 0))))
              end
          end
      end
  end.
Definition pth_attr_get (a : ptr) (op : attr_op) : st attrs ares := pth_attr_ctrl PTH_ATTR_GET a op (VInt 0).
Definition pth_attr_set (a : ptr) (op : attr_op) (v : attr_val) : st attrs ares := pth_attr_ctrl PTH_ATTR_SET a op v.

(** ** What is got is what was set *)

(** All that is got from an object, with the thread it is bound to. *)
Definition view (x : pth_attr) (y : option tfields) (op : attr_op) : ares :=
  let time f := adone (Some (VTime (match y with Some y => f y | None => pth_time_zero end))) in
  let thread f := match y with Some y => adone (Some (f y)) | None => afail EACCES end in
  match op with
  | PTH_ATTR_TIME_SPAWN => time f_spawned
  | PTH_ATTR_TIME_LAST => time f_lastran
  | PTH_ATTR_TIME_RAN => time f_running
  | PTH_ATTR_START_FUNC => thread (fun y => VPtr (f_start_func y))
  | PTH_ATTR_START_ARG => thread (fun y => VPtr (f_start_arg y))
  | PTH_ATTR_STATE => thread (fun y => VInt (f_state y))
  | PTH_ATTR_EVENTS => thread (fun y => VPtr (f_events y))
  | PTH_ATTR_BOUND => adone (Some (VInt (if bool_decide (a_tid x <> NULL) then 1 else 0)))
  | PTH_ATTR_OTHER => afail EINVAL
  | _ => adone (match y with Some y => get_t op y | None => get_a op x end)
  end.
Definition bound_thread (s : attrs) (x : pth_attr) : option tfields :=
  match a_tid x with Some t => at_thread s !! t | None => None end.

(** Objects are bound to threads that exist; names have their buffer. *)
Record attrs_ok (s : attrs) : Prop := {
  ao_bound : forall a x t, at_attr s !! a = Some x -> a_tid x = Some t -> is_Some (at_thread s !! t);
  ao_name : forall a x, at_attr s !! a = Some x -> length (a_name x) = PTH_TCB_NAMELEN;
  ao_tname : forall t y, at_thread s !! t = Some y -> length (f_name y) = PTH_TCB_NAMELEN
}.

Lemma attr_got_ok s a x op : attrs_ok s -> at_attr s !! a = Some x ->
  pth_attr_get (Some a) op s = Some (view x (bound_thread s x) op, s).
Proof.
  intros Hs Hx. unfold pth_attr_get, pth_attr_ctrl, bound_thread. 
  assert (Er : rd_attr a s = Some (x, s)) by (unfold rd_attr; by rewrite Hx). rewrite (st_bind_Some _ _ _ _ _ Er).
  unfold attr_get, of_time, of_thread, view. destruct (a_tid x) as [t|] eqn:Et; [|by destruct op].
  destruct (ao_bound s Hs a x t Hx Et) as [y Hy]. rewrite Hy.
  assert (Ey : rd_thread t s = Some (y, s)) by (unfold rd_thread; by rewrite Hy).
  destruct op; rewrite ?(st_bind_Some _ _ _ _ _ Ey); done.
Qed.

(** A value of the right type, and what is stored for it. *)
Inductive stored : attr_op -> attr_val -> attr_val -> Prop :=
| st_int op z : op = PTH_ATTR_PRIO \/ op = PTH_ATTR_DISPATCHES \/ op = PTH_ATTR_JOINABLE -> stored op (VInt z) (VInt (i32 z))
| st_uint op z : op = PTH_ATTR_CANCEL_STATE \/ op = PTH_ATTR_STACK_SIZE -> stored op (VInt z) (VInt (u32 z))
| st_name str rest tail : Forall (fun c => c <> 0) str -> length (take 39 str ++ 0 :: tail) = PTH_TCB_NAMELEN ->
    stored PTH_ATTR_NAME (VStr (str ++ 0 :: rest)) (VStr (take 39 str ++ 0 :: tail))
| st_ptr p : stored PTH_ATTR_STACK_ADDR (VPtr p) (VPtr p).
Inductive typed : attr_op -> attr_val -> Prop :=
| ty_int op z : op ∈ [PTH_ATTR_PRIO; PTH_ATTR_DISPATCHES; PTH_ATTR_JOINABLE; PTH_ATTR_CANCEL_STATE; PTH_ATTR_STACK_SIZE] -> typed op (VInt z)
| ty_name str rest : Forall (fun c => c <> 0) str -> typed PTH_ATTR_NAME (VStr (str ++ 0 :: rest))
| ty_ptr p : typed PTH_ATTR_STACK_ADDR (VPtr p).
(** The size and place of the stack of a thread are fixed. *)
Definition changeable (x : pth_attr) (op : attr_op) : Prop :=
  a_tid x = NULL \/ (op <> PTH_ATTR_STACK_SIZE /\ op <> PTH_ATTR_STACK_ADDR).

Lemma copy_name_ok str rest buf : Forall (fun c => c <> 0) str -> length buf = PTH_TCB_NAMELEN ->
  exists tail, copy_name (str ++ 0 :: rest) buf = Some (take 39 str ++ 0 :: tail) /\ length (take 39 str ++ 0 :: tail) = PTH_TCB_NAMELEN.
Proof.
  intros Hs Hb. unfold copy_name. destruct (cpystrn_correct str rest PTH_TCB_NAMELEN Hs) as [-> _].
  change PTH_TCB_NAMELEN with 40%nat in *. cbn iota. exists (drop (length (take 39 str ++ [0])) buf).
  rewrite <- app_assoc. cbn [app]. split; [done|]. rewrite length_app. cbn [length]. rewrite length_drop, length_app, length_take, Hb. cbn [length]. lia.
Qed.

Definition other_than (op : attr_op) (x x' : pth_attr) : Prop :=
  a_tid x' = a_tid x /\ length (a_name x') = PTH_TCB_NAMELEN /\ forall op', op' <> op -> get_a op' x' = get_a op' x.
Lemma put_a_ok op v x : typed op v -> length (a_name x) = PTH_TCB_NAMELEN -> exists x' w,
  put_a op v x = Some x' /\ stored op v w /\ get_a op x' = Some w /\ other_than op x x'.
Proof.
  intros Ht Hn. destruct Ht as [op z Hop|str rest Hs|p].
  - repeat (apply elem_of_cons in Hop as [->|Hop]; [eexists _, _; split; [reflexivity|]; split; [constructor; tauto|];
      split; [reflexivity|]; split; [done|]; split; [done|]; intros op' Hop'; by destruct op'|]). by apply not_elem_of_nil in Hop.
  - destruct (copy_name_ok str rest (a_name x) Hs Hn) as (tail & Ec & Hl). cbn. rewrite Ec.
    eexists _, _. split; [reflexivity|]. split; [by apply st_name|]. split; [reflexivity|]. split; [done|]. split; [done|].
    intros op' Hop'. by destruct op'.
  - eexists _, _. split; [reflexivity|]. split; [apply st_ptr|]. split; [reflexivity|]. split; [done|]. split; [done|].
    intros op' Hop'. by destruct op'.
Qed.
Definition tother_than (op : attr_op) (y y' : tfields) : Prop :=
  length (f_name y') = PTH_TCB_NAMELEN /\ forall x op', op' <> op -> view x (Some y') op' = view x (Some y) op'.
Lemma put_t_ok op v y : typed op v -> op <> PTH_ATTR_STACK_SIZE -> op <> PTH_ATTR_STACK_ADDR -> length (f_name y) = PTH_TCB_NAMELEN -> exists y' w,
  put_t op v y = Some y' /\ stored op v w /\ get_t op y' = Some w /\ tother_than op y y'.
Proof.
  intros Ht H1 H2 Hn. destruct Ht as [op z Hop|str rest Hs|p]; [| |done].
  - repeat (apply elem_of_cons in Hop as [->|Hop]; [first [congruence|eexists _, _; split; [reflexivity|]; split; [constructor; tauto|];
      split; [reflexivity|]; split; [done|]; intros x op' Hop'; by destruct op']|]). by apply not_elem_of_nil in Hop.
  - destruct (copy_name_ok str rest (f_name y) Hs Hn) as (tail & Ec & Hl). cbn. rewrite Ec.
    eexists _, _. split; [reflexivity|]. split; [by apply st_name|]. split; [reflexivity|]. split; [done|].
    intros x op' Hop'. by destruct op'.
Qed.

(** The same object: itself, or bound to the same thread. *)
Definition same_object (a : addr) (x : pth_attr) (a' : addr) (x' : pth_attr) : Prop :=
  match a_tid x with Some t => a_tid x' = Some t | None => a' = a end.
#[local] Instance same_object_dec a x a' x' : Decision (same_object a x a' x').
Proof. unfold same_object. destruct (a_tid x); apply _. Defined.

Lemma view_typed op v x y : typed op v -> view x y op = adone (match y with Some y => get_t op y | None => get_a op x end).
Proof.
  intros [op' z Hop|str rest Hs|p]; [|done..].
  repeat (apply elem_of_cons in Hop as [->|Hop]; [done|]). by apply not_elem_of_nil in Hop.
Qed.
Lemma set_attr_eq s a x op v : at_attr s !! a = Some x -> typed op v -> changeable x op ->
  pth_attr_set (Some a) op v s = attr_put a x op v s.
Proof.
  intros Hx Ht Hc. unfold pth_attr_set, pth_attr_ctrl. assert (Er : rd_attr a s = Some (x, s)) by (unfold rd_attr; by rewrite Hx).
  rewrite (st_bind_Some _ _ _ _ _ Er). destruct Ht as [op z Hop|str rest Hs|p]; [|done|].
  - repeat (apply elem_of_cons in Hop as [->|Hop]; [first [done|destruct Hc as [->|[? ?]]; done]|]). by apply not_elem_of_nil in Hop.
  - destruct Hc as [->|[? ?]]; done.
Qed.

(** Attributes are what they were set to. Setting an attribute that can be
    changed succeeds; every object that shows the same attribute of the same
    thread or object then gives the stored value - an integer in its width, a
    name cut to fit its buffer and terminated - and every other attribute of
    every object gives what it gave. Getting changes nothing. *)
Lemma attr_set_get s a x op v : attrs_ok s -> at_attr s !! a = Some x -> typed op v -> changeable x op ->
  exists s' w, pth_attr_set (Some a) op v s = Some (adone None, s') /\ attrs_ok s' /\ stored op v w /\
    forall a' x' op', at_attr s !! a' = Some x' ->
      exists r, pth_attr_get (Some a') op' s = Some (r, s) /\
        pth_attr_get (Some a') op' s' = Some (if decide (op' = op /\ same_object a x a' x') then adone (Some w) else r, s').
Proof.
  intros Hs Hx Ht Hc. rewrite (set_attr_eq s a x op v Hx Ht Hc). unfold attr_put. destruct (a_tid x) as [t|] eqn:Et.
  - assert (Hso : forall a' x', same_object a x a' x' <-> a_tid x' = Some t) by (intros; unfold same_object; by rewrite Et).
    destruct (ao_bound s Hs a x t Hx Et) as [y Hy]. assert (Ey : rd_thread t s = Some (y, s)) by (unfold rd_thread; by rewrite Hy).
    rewrite (st_bind_Some _ _ _ _ _ Ey). destruct Hc as [Hc|[Hc1 Hc2]]; [congruence|].
    destruct (put_t_ok op v y Ht Hc1 Hc2 (ao_tname s Hs t y Hy)) as (y' & w & -> & Hst & Hg & Hl & Ho).
    set (s' := Attrs (at_attr s) (<[t := y']> (at_thread s))).
    assert (Ew : wr_thread t y' s = Some (tt, s')) by (unfold wr_thread; by rewrite Hy). rewrite (st_bind_Some _ _ _ _ _ Ew).
    assert (Hs' : attrs_ok s').
    { destruct Hs as [A1 A2 A3]. constructor; [|done|]; cbn.
      - intros b z u Hz Hu. rewrite lookup_insert_is_Some'. right. by apply (A1 b z).
      - intros u z [[<- <-]|[_ Hz]]%lookup_insert_Some; [done|by apply (A3 u)]. }
    exists s', w. split_and!; try done. intros a' x' op' Hx'. eexists. split; [by apply attr_got_ok|].
    rewrite (attr_got_ok s' a' x' op') by done. do 2 f_equal. unfold bound_thread.
    destruct (a_tid x') as [u|] eqn:Eu; [|rewrite decide_False by (intros [_ ?%Hso]; congruence); done]. cbn.
    destruct (decide (u = t)) as [->|Hut]; [|rewrite lookup_insert_ne, decide_False by (try done; intros [_ ?%Hso]; congruence); done].
    rewrite lookup_insert_eq, Hy. destruct (decide (op' = op)) as [->|Hop]; [|rewrite decide_False by tauto; by apply Ho].
    rewrite decide_True by (split; [done|by apply Hso]). rewrite (view_typed op v) by done. by rewrite Hg.
  - assert (Hso : forall a' x', same_object a x a' x' <-> a' = a) by (intros; unfold same_object; by rewrite Et).
    destruct (put_a_ok op v x Ht (ao_name s Hs a x Hx)) as (x1 & w & -> & Hst & Hg & Htid & Hl & Ho).
    set (s' := Attrs (<[a := x1]> (at_attr s)) (at_thread s)).
    assert (Ew : wr_attr a x1 s = Some (tt, s')) by (unfold wr_attr; by rewrite Hx). rewrite (st_bind_Some _ _ _ _ _ Ew).
    assert (Hs' : attrs_ok s').
    { destruct Hs as [A1 A2 A3]. constructor; [| |done]; cbn.
      - intros b z u [[<- <-]|[_ Hz]]%lookup_insert_Some; [congruence|by apply (A1 b z)].
      - intros b z [[<- <-]|[_ Hz]]%lookup_insert_Some; [done|by apply (A2 b)]. }
    exists s', w. split_and!; try done. intros a' x' op' Hx'. eexists. split; [by apply attr_got_ok|].
    destruct (decide (a' = a)) as [->|Hne].
    + simplify_eq. rewrite (attr_got_ok s' a x1 op') by (try done; cbn; by rewrite lookup_insert_eq). do 2 f_equal.
      unfold bound_thread. rewrite Htid, Et. destruct (decide (op' = op)) as [->|Hop].
      * rewrite decide_True by (split; [done|by apply Hso]). rewrite (view_typed op v) by done. by rewrite Hg.
      * rewrite decide_False by tauto. destruct op'; cbn; rewrite ?Htid; try done; f_equal; exact (Ho _ Hop).
    + rewrite (attr_got_ok s' a' x' op') by (try done; cbn; by rewrite lookup_insert_ne). rewrite decide_False by (rewrite Hso; tauto). done.
Qed.

Definition demo_tf : tfields := Tfields 0 (replicate 40 0) 7 1 9 65536 (Some 50%positive) (Tv 1 0) (Tv 1 0) (Tv 0 0) NULL NULL 2 NULL.
Definition demo_attr (t : ptr) : pth_attr := Attr t 0 0 (replicate 40 0) 1 9 65536 NULL.
(** Objects 1 and 2 are bound to thread 20, object 3 to none. *)
Definition demo_attrs : attrs :=
  Attrs (<[1%positive := demo_attr (Some 20%positive)]> (<[2%positive := demo_attr (Some 20%positive)]> {[3%positive := demo_attr NULL]}))
    {[20%positive := demo_tf]}.
Lemma attr_set_get_witness : exists s', pth_attr_set (Some 1%positive) PTH_ATTR_PRIO (VInt 4) demo_attrs = Some (adone None, s') /\
  pth_attr_get (Some 2%positive) PTH_ATTR_PRIO s' = Some (adone (Some (VInt 4)), s').
Proof.
  assert (Hok : attrs_ok demo_attrs).
  { constructor; unfold demo_attrs; cbn.
    - intros a x t Hx Ht. assert (t = 20%positive) as ->; [|by eexists].
      repeat (apply lookup_insert_Some in Hx as [[<- <-]|[_ Hx]]; [by injection Ht|]). by apply lookup_singleton_Some in Hx as [<- <-].
    - intros a x Hx. repeat (apply lookup_insert_Some in Hx as [[<- <-]|[_ Hx]]; [done|]). by apply lookup_singleton_Some in Hx as [<- <-].
    - intros t y Hy. by apply lookup_singleton_Some in Hy as [<- <-]. }
  destruct (attr_set_get demo_attrs 1%positive (demo_attr (Some 20%positive)) PTH_ATTR_PRIO (VInt 4) Hok eq_refl) as (s' & w & E & _ & Hst & Hg).
  - constructor. by left.
  - right. done.
  - exists s'. split; [exact E|]. 
    destruct (Hg 2%positive (demo_attr (Some 20%positive)) PTH_ATTR_PRIO eq_refl) as (r & _ & Hr).
    rewrite decide_True in Hr by done. rewrite Hr. inversion Hst; [done|naive_solver].
Defined.

(** ** Thread control blocks *)

Definition SIGSTKSZ : Z := 8192.
(** What [pth_tcb_alloc] sets: the size of the stack, whether it is lent by
    the caller, and the guard word at its end. *)
Record tcb_new := TcbNew { n_stacksize : Z; n_stack : ptr; n_stackloan : bool; n_guard : option Z }.
(** [mem] and [stackmem]: the results of [malloc] for the block and the
    stack. *)
Definition pth_tcb_alloc (mem stackmem : ptr) (stacksize : Z) (stackaddr : ptr) : option tcb_new :=
  let stacksize := if (stacksize >? 0) && (stacksize <? SIGSTKSZ) then SIGSTKSZ else stacksize in
  match mem with
  | None => None
  | Some _ =>
      let loan := bool_decide (stackaddr <> NULL) in
      if stacksize >? 0 then
        match (if loan then stackaddr else stackmem) with
        | Some s => Some (TcbNew stacksize (Some s) loan (Some 57005))
        | None => None
        end
      else Some (TcbNew stacksize NULL loan None)
  end.
