(* ===== verification/Lib.v ===== *)
(** * The library functions (src/pth_lib.c, src/pth_cancel.c, and pth_wait of
    src/pth_event.c)

    What the threads call: spawning, waiting, yielding, joining, exiting,
    signals, suspending and cancelling. A call that gives up the processor is
    cut where it switches to the scheduler: one definition up to the switch,
    one from the return of control on. A thread of another scheduler is only
    touched by a message to its scheduler. *)

From stdpp Require Import base numbers gmap list.
From S2P Require Import Prelude Links Pqueue Timeval Waitq Util Event Inbox Queues World Thread Attr.
Open Scope Z_scope.

(** The fields of the other components in a new control block, and the
    cleanup handler of a thread that waits for another one. *)
Class SpawnOps (U : Type) := {
  so_init : addr -> U -> U;
  so_push_join : addr -> addr -> U -> U;
  so_pop : addr -> U -> U
}.

(** The start function of a thread: NULL, the special value [-1] of the main
    thread, the scheduler, or another function. *)
Inductive start := SNull | SMain | SScheduler | SFunc (f : addr).
Definition start_func (f : start) : ptr := match f with SFunc a => Some a | _ => NULL end.

(** What the system gives to a call of [pth_spawn]: the memory for the stack,
    whether the machine context is set up ([Some e]: no, with [errno]), the
    signals that are blocked, the clock, and what is in fresh memory. *)
Record sysenv := Sysenv { se_stack : ptr; se_mctx : option errno; se_sigs : gset Z; se_now : pth_time_t; se_junk : Z }.

(** How a call ends: with a value, in a switch to the scheduler, or not at
    all. *)
Inductive call (A : Type) :=
| Ret (a : A) (e : option errno)
| Switch
| Exits.
Arguments Ret {A}. Arguments Switch {A}. Arguments Exits {A}.

Section ops.
Context {H U : Type} `{!QueueOps H, !CleanupOps H U, !SpawnOps U}.
Abbreviation wd := (world H U).
Context (self : addr) (malloc : gset addr -> ptr).
(** For events: [fcntl], the destructor of static ones. *)
Context (fcntl : Z -> Z * errno) (event_destructor : addr).

(** ** Spawning *)

(** The attributes of a new thread: those given, those of the parent, or the
    defaults. *)
Definition spawn_attrs (attr : option pth_attr) (parent : option tcb) : Z * bool * Z * Z :=
  match attr, parent with
  | Some a, _ => (a_prio a, negb (a_joinable a =? 0), a_cancelstate a, a_dispatches a)
  | None, Some p => (t_prio p, t_joinable p, t_cancelstate p, 0)
  | None, None => (PTH_PRIO_STD, true, PTH_CANCEL_DEFAULT, 0)
  end.

(** The home scheduler is set by the callers right afterwards; here it is
    set at once. *)
Definition new_tcb (home : addr) (env : sysenv) (n : tcb_new) (at_ : Z * bool * Z * Z) (func arg : ptr) : tcb :=
  let '(prio, joinable, cancelstate, dispatches) := at_ in
  let ts := se_now env in
  Tcb home NULL prio dispatches (se_junk env) ts ts pth_time_zero NULL ∅ 0 (se_sigs env) (n_stacksize n) (n_guard n) func arg
    joinable 0 pth_waitq_init false false cancelstate.
Definition add_tcb (t : addr) (x : tcb) (w : wd) : wd :=
  World (qo_alloc t (w_q w)) (<[t := x]> (w_tcb w)) (<[t := NULL]> (w_wq w)) (w_ev w) (w_inb w) (w_g w) (w_os w)
    (so_init t (w_user w)).

Definition rd_parent : st wd (option tcb) :=
  cur ← getg g_current;
  match cur with None => mret None | Some _ => x ← rd_tcb cur; mret (Some x) end.

(** From the allocation on. *)
Definition spawn_tcb (home : addr) (env : sysenv) (attr : option pth_attr) (func : start) (arg : ptr)
    : st wd (ptr * option errno) :=
  w ← get_st;
  let stacksize := match attr with None => 64 * 1024 | Some a => a_stacksize a end in
  let stackaddr := match attr with None => NULL | Some a => a_stackaddr a end in
  let mem := malloc (dom (w_tcb w)) in
  match mem, pth_tcb_alloc mem (se_stack env) stacksize stackaddr with
  | Some t, Some n =>
      parent ← rd_parent;
      updw (add_tcb t (new_tcb home env n (spawn_attrs attr parent) (start_func func) arg));;
      match se_mctx env with
      | Some e => if n_stacksize n >? 0 then pth_tcb_free mem;; mret (pth_error NULL e) else mret (ok mem)
      | None => mret (ok mem)
      end
  | _, _ => mret (pth_error NULL ENOMEM)
  end.
Definition pth_spawn_common (home : addr) (env : sysenv) (attr : option pth_attr) (func : start) (arg : ptr)
    : st wd (ptr * option errno) :=
  match func with
  | SNull => mret (pth_error NULL EINVAL)
  | _ => spawn_tcb home env attr func arg
  end.

Definition pth_spawn (env : sysenv) (attr : option pth_attr) (func : start) (arg : ptr) : st wd (ptr * option errno) :=
  r ← pth_spawn_common self env attr func arg;
  if bool_decide (r.1 = NULL) then mret r else
  match func with
  | SScheduler => mret (ok r.1)
  | _ =>
      upd_tcb r.1 (set_state PTH_STATE_NEW);;
      x ← rd_tcb r.1;
      on_q (qo_insert NQ (t_prio x) r.1);;
      mret (ok r.1)
  end.

(** [tab]: the schedulers by number. *)
Definition pth_spawn_on (tab : list addr) (sid : Z) (env : sysenv) (attr : option pth_attr) (func : start) (arg : ptr)
    : st wd (ptr * option errno) :=
  if (sid <? 0) || (sid >=? Z.of_nat (length tab)) then mret (pth_error NULL EINVAL) else
  match tab !! Z.to_nat sid with
  | None => undef
  | Some g =>
      if bool_decide (g = self) then pth_spawn env attr func arg
      else match func with
      | SNull => mret (pth_error NULL EINVAL)
      | _ =>
          r ← pth_spawn_common g env attr func arg;
          if bool_decide (r.1 = NULL) then mret r else
          upd_tcb r.1 (set_state PTH_STATE_NEW);;
          b ← post self malloc g PTH_GMSG_SPAWN r.1 NULL;
          if (b : bool) then mret (ok r.1) else pth_tcb_free r.1;; mret (pth_error NULL ENOMEM)
      end
  end.

(** ** Yielding and waiting *)

Definition home_of (t : addr) : st wd addr := x ← rd_tcb (Some t); mret (t_home x).

(** The request of a call: to the own scheduler directly, to another one by
    message. *)
Definition pth_yield (to : ptr) : st wd (call bool) :=
  match to with
  | None => mret Switch
  | Some t =>
      h ← home_of t;
      if bool_decide (h <> self) then post self malloc h PTH_GMSG_FAVOR to NULL;; mret Switch
      else
        x ← rd_tcb to;
        match run_q (t_state x) with
        | None => mret (Ret false (Some EINVAL))
        | Some q =>
            c ← on_q (qo_contains q to);
            if negb c then mret (Ret false (Some EINVAL)) else on_q (qo_favorite q to);; mret Switch
        end
  end.

Definition cur_tcb : st wd tcb := c ← getg g_current; rd_tcb c.
Definition upd_cur (f : tcb -> tcb) : st wd unit := c ← getg g_current; upd_tcb c f.

(** Up to the switch; the ring is then the scheduler's business. *)
Definition pth_wait (ev_ring : ptr) : st wd (call Z) :=
  match ev_ring with
  | None => mret (Ret (-1) (Some EINVAL))
  | Some _ =>
      w ← get_st;
      on_ev (mark_pending (size (e_body (w_ev w))) ev_ring ev_ring);;
      upd_cur (set_events ev_ring);;
      upd_cur (set_state PTH_STATE_WAITING);;
      mret Switch
  end.

(** ** Exiting *)

Definition pth_exit_cb : st wd bool :=
  w ← get_st;
  let n q := qo_elements q (w_q w) in
  mret (n NQ + n RQ + n WQ + n SQ =? 1).

(** A thread that is not the main one, from the cleanup on. *)
Definition exit_thread (value : Z) : st wd unit :=
  c ← getg g_current;
  match c with
  | None => undef
  | Some t =>
      pth_thread_cleanup t;;
      upd_cur (set_join_arg value);;
      upd_cur (set_state PTH_STATE_DEAD)
  end.

(** A cancellation point of a thread other than the main one: [true] if the
    thread exits there. *)
Definition pth_cancel_point : st wd bool :=
  x ← cur_tcb;
  if t_cancelreq x && has_flag (t_cancelstate x) PTH_CANCEL_ENABLE then
    upd_cur (set_cancelreq false);; exit_thread PTH_CANCELED;; mret true
  else mret false.

(** From the return of control on. *)
Definition pth_wait_resume (ev_ring : ptr) : st wd (call Z) :=
  b ← pth_cancel_point;
  if (b : bool) then mret Exits else
  upd_cur (set_events NULL);;
  w ← get_st;
  n ← on_ev (count_nonpending (size (e_body (w_ev w))) ev_ring ev_ring 0);
  mret (Ret n None).

(** ** Joining *)

(** A static event of the running thread. *)
Definition static_ev (spec : Z) (key : addr) (calloc_ok : bool) (va : evargs) : st wd ptr :=
  w ← get_st;
  r ← on_ev (pth_event fcntl event_destructor spec NULL key NULL va (malloc (dom (e_body (w_ev w)))) calloc_ok);
  mret r.1.

Definition num_threads : st wd Z :=
  w ← get_st;
  let n q := qo_elements q (w_q w) in
  mret (n NQ + n RQ + 1 + n WQ + n SQ + n DQ).

(** The end of a join with a thread of this scheduler. *)
Definition join_finish (tid : ptr) : st wd (call (option Z)) :=
  w ← get_st;
  let tid := match tid with None => qo_head DQ (w_q w) | _ => tid end in
  match tid with
  | None => mret (Ret None (Some EIO))
  | Some _ =>
      x ← rd_tcb tid;
      if negb (t_state x =? PTH_STATE_DEAD) then mret (Ret None (Some EIO)) else
      on_q (qo_delete DQ tid);;
      pth_tcb_free tid;;
      mret (Ret (Some (t_join_arg x)) None)
  end.
(** The end of a join with a thread of another one. *)
Definition join_reap (t : addr) : st wd (call (option Z)) :=
  x ← rd_tcb (Some t);
  post self malloc (t_home x) PTH_GMSG_REAP (Some t) NULL;;
  mret (Ret (Some (t_join_arg x)) None).
(** The handler is popped, and the thread leaves the queue if it is still in
    it. *)
Definition join_leave (t : addr) : st wd (call (option Z)) :=
  cur ← getg g_current;
  match cur with
  | None => undef
  | Some c =>
      updw (fun w => set_user (so_pop c (w_user w)) w);;
      x ← rd_tcb (Some t);
      q ← on_wq (pth_waitq_remove (t_join_waitq x) cur);
      upd_tcb (Some t) (set_join_waitq q.2);;
      join_reap t
  end.
(** From the return of control on. *)
Definition join_remote_resume (t : addr) (ev : ptr) : st wd (call (option Z)) :=
  r ← pth_wait_resume ev;
  match r with Exits => mret Exits | _ => join_leave t end.
Definition join_local_resume (tid ev : ptr) : st wd (call (option Z)) :=
  r ← pth_wait_resume ev;
  match r with Exits => mret Exits | _ => join_finish tid end.
(** The cleanup handler. *)
Definition pth_join_cleanup (t : addr) : st wd unit :=
  cur ← getg g_current;
  x ← rd_tcb (Some t);
  q ← on_wq (pth_waitq_remove (t_join_waitq x) cur);
  upd_tcb (Some t) (set_join_waitq q.2).

(** The result is the value of the thread, the boolean of the code whether
    there is one. *)
Definition pth_join (ev_key : addr) (calloc_ok : bool) (tid : ptr) : st wd (call (option Z)) :=
  cur ← getg g_current;
  if bool_decide (tid = cur) then mret (Ret None (Some EDEADLK)) else
  x ← (match tid with None => mret None | Some _ => x ← rd_tcb tid; mret (Some x) end : st wd (option tcb));
  if match x with Some x => negb (t_joinable x) | None => false end then mret (Ret None (Some EINVAL)) else
  match tid, x with
  | Some t, Some x =>
      if bool_decide (t_home x <> self) then
        if negb (t_join_done x) then
          ev ← static_ev (Z.lor PTH_EVENT_NOTIFY PTH_MODE_STATIC) ev_key calloc_ok (ANOTIFY tid);
          upd_cur (set_wq_event ev);;
          x ← rd_tcb tid;
          q ← on_wq (pth_waitq_append (t_join_waitq x) cur);
          upd_tcb tid (set_join_waitq q);;
          (match cur with Some c => updw (fun w => set_user (so_push_join c t (w_user w)) w) | None => undef end : st wd unit);;
          r ← pth_wait ev;
          match r with Switch => mret Switch | _ => join_leave t end
        else join_reap t
      else
        n ← num_threads;
        if n =? 1 then mret (Ret None (Some EDEADLK)) else
        if t_state x =? PTH_STATE_DEAD then join_finish tid
        else
          ev ← static_ev (Z.lor PTH_EVENT_TID (Z.lor PTH_UNTIL_TID_DEAD PTH_MODE_STATIC)) ev_key calloc_ok (ATID tid);
          r ← pth_wait ev;
          match r with Switch => mret Switch | _ => join_finish tid end
  | _, _ =>
      n ← num_threads;
      if n =? 1 then mret (Ret None (Some EDEADLK)) else
      w ← get_st;
      match qo_head DQ (w_q w) with
      | Some d => join_finish (Some d)
      | None =>
          ev ← static_ev (Z.lor PTH_EVENT_TID (Z.lor PTH_UNTIL_TID_DEAD PTH_MODE_STATIC)) ev_key calloc_ok (ATID NULL);
          r ← pth_wait ev;
          match r with Switch => mret Switch | _ => join_finish NULL end
      end
  end.

(** ** Signals *)

(** [sigact sig]: [sigaction(sig, NULL, &sa)] succeeds, and then whether the
    signal is ignored. *)
Definition pth_raise (PTH_NSIG : Z) (sigact : Z -> option bool) (t : ptr) (sig : Z) : st wd (call bool) :=
  cur ← getg g_current;
  if bool_decide (t = NULL) || bool_decide (t = cur) || (sig <? 0) || (sig >? PTH_NSIG) then mret (Ret false (Some EINVAL)) else
  x ← rd_tcb t;
  if bool_decide (t_home x <> self) then
    if sig =? 0 then mret (Ret true None)
    else if bool_decide (sigact sig = Some true) then mret (Ret true None)
    else b ← post_raise self malloc (t_home x) t sig;
         mret (if (b : bool) then Ret true None else Ret false (Some EAGAIN))
  else if sig =? 0 then e ← pth_thread_exists t; mret (Ret e.1 e.2)
  else match sigact sig with
       | None => mret (Ret false None)
       | Some true => mret (Ret true None)
       | Some false =>
           (if negb (bool_decide (sig ∈ t_sigpending x))
            then upd_tcb t (set_sigpend ({[sig]} ∪ t_sigpending x) (t_sigpendcnt x + 1)) else mret tt);;
           r ← pth_yield t;
           mret (match r with Switch => Switch | _ => Ret true None end)
       end.

(** ** Suspending *)

Definition pth_suspend (t : ptr) : st wd (bool * option errno) :=
  match t with
  | None => mret (pth_error false EINVAL)
  | Some a =>
      g ← getg id;
      if bool_decide (t = g_scheduler g) || bool_decide (t = g_current g) then mret (pth_error false EPERM) else
      h ← home_of a;
      if bool_decide (h <> self) then
        b ← post self malloc h PTH_GMSG_SUSPEND t NULL;
        mret (if (b : bool) then ok true else pth_error false EAGAIN)
      else pth_suspend_local t
  end.
Definition pth_resume (t : ptr) : st wd (bool * option errno) :=
  match t with
  | None => mret (pth_error false EINVAL)
  | Some a =>
      g ← getg id;
      if bool_decide (t = g_scheduler g) || bool_decide (t = g_current g) then mret (pth_error false EPERM) else
      h ← home_of a;
      if bool_decide (h <> self) then
        b ← post self malloc h PTH_GMSG_RESUME t NULL;
        mret (if (b : bool) then ok true else pth_error false EAGAIN)
      else pth_resume_local t
  end.

(** ** Cancelling *)

(** Zero only asks; the result is the old state. *)
Definition pth_cancel_state (newstate : Z) : st wd Z :=
  x ← cur_tcb;
  (if newstate =? 0 then mret tt else upd_cur (set_cancelstate (u32 newstate)));;
  mret (t_cancelstate x).

Definition pth_cancel (thread : ptr) : st wd (bool * option errno) :=
  match thread with
  | None => mret (pth_error false EINVAL)
  | Some a =>
      cur ← getg g_current;
      if bool_decide (thread = cur) then mret (pth_error false EINVAL) else
      x ← rd_tcb thread;
      if bool_decide (t_home x <> self) then
        b ← post self malloc (t_home x) PTH_GMSG_CANCEL thread NULL;
        mret (if (b : bool) then ok true else pth_error false EAGAIN)
      else if t_state x =? PTH_STATE_DEAD then mret (pth_error false EPERM)
      else pth_cancel_local self malloc a
  end.
Definition pth_abort (ev_key : addr) (calloc_ok : bool) (thread : ptr) : st wd (call bool) :=
  match thread with
  | None => mret (Ret false (Some EINVAL))
  | Some a =>
      cur ← getg g_current;
      if bool_decide (thread = cur) then mret (Ret false (Some EINVAL)) else
      x ← rd_tcb thread;
      if bool_decide (t_home x <> self) then
        b ← post self malloc (t_home x) PTH_GMSG_ABORT thread NULL;
        mret (if (b : bool) then Ret true None else Ret false (Some EAGAIN))
      else if (t_state x =? PTH_STATE_DEAD) && t_joinable x then
        r ← pth_join ev_key calloc_ok thread;
        mret (match r with Ret v e => Ret (bool_decide (is_Some v)) e | Switch => Switch | Exits => Exits end)
      else
        upd_tcb thread (set_joinable false);;
        upd_tcb thread (set_cancelstate PTH_CANCEL_KILL);;
        r ← pth_cancel thread;
        mret (Ret r.1 r.2)
  end.

(** ** Napping *)

Definition pth_nap (ev_key : addr) (calloc_ok : bool) (now naptime : pth_time_t) : st wd (call bool) :=
  if pth_time_cmp naptime pth_time_zero =? 0 then mret (Ret false (Some EINVAL)) else
  ev ← static_ev (Z.lor PTH_EVENT_TIME PTH_MODE_STATIC) ev_key calloc_ok (ATIME (pth_time_add now naptime));
  r ← pth_wait ev;
  mret (match r with Switch => Switch | _ => Ret true None end).

(** ** The ingredients of a scheduler *)

(** [pipe_err]: the error of creating the signal pipe and what comes with it,
    if any. *)
Definition pth_scheduler_init (pipe_err : option errno) : st wd (bool * option errno) :=
  match pipe_err with
  | Some e => mret (pth_error false e)
  | None =>
      updg (fun g => Gsched (g_id g) (g_main g) NULL NULL true false (g_sigpending g) (g_sigblock g) (g_sigcatch g) (g_sigraised g));;
      updw (fun w => set_q (qo_init DQ (qo_init SQ (qo_init WQ (qo_init RQ (qo_init NQ (w_q w)))))) w);;
      on_inbox (wr_inbox self NULL);;
      mret (ok true)
  end.

(** The loop over one queue. *)
Fixpoint drop_q (fuel : nat) (n : qname) : st wd unit :=
  t ← on_q (qo_delmax n);
  match t with
  | None => updw (fun w => set_q (qo_init n (w_q w)) w)
  | Some _ =>
      pth_tcb_free t;;
      match fuel with O => undef | S fuel' => drop_q fuel' n end
  end.
Definition drop_all (n : qname) : st wd unit := w ← get_st; drop_q (Z.to_nat (qo_elements n (w_q w))) n.
Definition pth_scheduler_drop : st wd unit :=
  drop_all NQ;; drop_all RQ;; drop_all WQ;; drop_all SQ;; drop_all DQ.

(** [pth_kill]; [initialized] is the value of [pth_initialized]. The closing
    of descriptors is not in the model. *)
Definition pth_kill (initialized : bool) : st wd (bool * option errno * bool) :=
  if negb initialized then mret (pth_error false EINVAL, initialized) else
  g ← getg id;
  if bool_decide (g_current g <> g_main g) then mret (pth_error false EPERM, initialized) else
  match g_main g with
  | None => undef
  | Some m =>
      pth_thread_cleanup m;;
      pth_scheduler_drop;;
      pth_tcb_free (g_scheduler g);;
      pth_tcb_free (g_main g);;
      mret (ok true, false)
  end.

(** The main thread waits until it is the last one, then the process ends.
    The call of [pth_event] lacks two arguments: [junk_arg] and [junk_tv] are
    what is found in their place. *)
Inductive exiting := ExitThread | ExitWait | ExitProcess.
Definition exit_process (value : Z) : st wd exiting :=
  c ← getg g_current;
  match c with
  | None => undef
  | Some t => pth_thread_cleanup t;; pth_kill true;; mret ExitProcess
  end.
Definition pth_exit (cb : addr) (junk_arg : ptr) (junk_tv : pth_time_t) (value : Z) : st wd exiting :=
  g ← getg id;
  if bool_decide (g_current g = g_main g) then
    last ← pth_exit_cb;
    if negb last then
      w ← get_st;
      ev ← on_ev (pth_event fcntl event_destructor PTH_EVENT_FUNC NULL 1%positive NULL (AFUNC (Some cb) junk_arg junk_tv)
        (malloc (dom (e_body (w_ev w)))) true);
      r ← pth_wait ev.1;
      match r with
      | Switch => mret ExitWait
      | _ => on_ev (pth_event_free ev.1 PTH_FREE_THIS);; exit_process value
      end
    else exit_process value
  else exit_thread value;; mret ExitThread.
Definition pth_exit_resume (ev : ptr) (value : Z) : st wd exiting :=
  r ← pth_wait_resume ev;
  match r with
  | Exits => mret ExitThread
  | _ => on_ev (pth_event_free ev PTH_FREE_THIS);; exit_process value
  end.

(** ** Queries *)

Definition PTH_CTRL_GETPRIO : Z := bit 2.
Definition PTH_CTRL_GETTHREADS_NEW : Z := bit 4.
Definition PTH_CTRL_GETTHREADS_READY : Z := bit 5.
Definition PTH_CTRL_GETTHREADS_RUNNING : Z := bit 6.
Definition PTH_CTRL_GETTHREADS_WAITING : Z := bit 7.
Definition PTH_CTRL_GETTHREADS_SUSPENDED : Z := bit 8.
Definition PTH_CTRL_GETTHREADS_DEAD : Z := bit 9.
Definition PTH_CTRL_GETTHREADS : Z := 1008.
(** The numbers of threads that a query asks for. *)
Definition pth_ctrl_threads (query : Z) : st wd Z :=
  w ← get_st;
  let n f q := if has query f then qo_elements q (w_q w) else 0 in
  mret (n PTH_CTRL_GETTHREADS_NEW NQ + n PTH_CTRL_GETTHREADS_READY RQ
    + (if has query PTH_CTRL_GETTHREADS_RUNNING then 1 else 0) + n PTH_CTRL_GETTHREADS_WAITING WQ
    + n PTH_CTRL_GETTHREADS_SUSPENDED SQ + n PTH_CTRL_GETTHREADS_DEAD DQ).
End ops.

(** ** The mode of a descriptor

    [getfl]: the result of [fcntl(fd, F_GETFL)], [-1] for an error; the second
    component of the result is the argument of [fcntl(fd, F_SETFL)] if it is
    called. *)
Definition PTH_FDMODE_ERROR : Z := -1.
Definition PTH_FDMODE_POLL : Z := 0.
Definition PTH_FDMODE_BLOCK : Z := 1.
Definition PTH_FDMODE_NONBLOCK : Z := 2.
Definition pth_fdmode (O_NONBLOCKING getfl newmode : Z) : Z * option Z :=
  let oldmode := if getfl =? -1 then PTH_FDMODE_ERROR
                 else if negb (Z.land getfl O_NONBLOCKING =? 0) then PTH_FDMODE_NONBLOCK else PTH_FDMODE_BLOCK in
  (oldmode,
   if (oldmode =? PTH_FDMODE_BLOCK) && (newmode =? PTH_FDMODE_NONBLOCK) then Some (Z.lor getfl O_NONBLOCKING)
   else if (oldmode =? PTH_FDMODE_NONBLOCK) && (newmode =? PTH_FDMODE_BLOCK) then Some (Z.land getfl (Z.lnot O_NONBLOCKING))
   else None).
