(* ===== verification/Libspec.v ===== *)
(** * What the library functions promise

    Spawning, suspending and resuming, joining and dropping threads, over the
    invariant of threads and queues. *)

From stdpp Require Import base numbers gmap list.
From S2P Require Import Prelude Links Pqueue Timeval Waitq Util Clean Event Inbox Queues World Thread Demo Attr Lib.
Open Scope Z_scope.

(** A new control block keeps the invariant of what hangs on threads. *)
Class SpawnLaws (H U : Type) (self : addr) (G E : gset addr) `{CleanupLaws H U self G E, !SpawnOps U} := {
  so_init_ok : forall t u, co_ok u -> co_ok (so_init t u)
}.

Section specs.
Context {H U : Type} `{!QueueOps H, !QueueLaws H, !CleanupOps H U, !SpawnOps U}.
Context (self : addr) (G E : gset addr) `{!CleanupLaws H U self G E, !SpawnLaws H U self G E}.
Context (malloc : gset addr -> ptr) (malloc_fresh : forall A a, malloc A = Some a -> a ∉ A).
Abbreviation wd := (world H U).
Abbreviation tinv := (tinv self G).
Abbreviation winv := (winv self G E).

Lemma self_in (w : wd) Q L : winv w Q L -> self ∈ G.
Proof. intros Hw. destruct (wi_inb _ _ _ _ _ _ Hw) as [l Hl]. apply Hl. Qed.

(** ** A new control block *)

Lemma tinv_add (w : wd) Q L t x : tinv w Q L -> t ∉ dom (w_tcb w) -> t_home x = self -> self ∈ G -> t_join_waitq x = pth_waitq_init ->
  tinv (add_tcb t x w) Q ({[t]} ∪ L).
Proof.
  intros [Hq Hs Hl Ha Hh [J [Hjr Hji Hjd]]] Ht Hx HG Hj.
  assert (Hne : forall u y, w_tcb w !! u = Some y -> u <> t) by (intros u y Hu ->; apply Ht; by apply elem_of_dom).
  assert (Hlk : forall u y, w_tcb w !! u = Some y -> <[t := x]> (w_tcb w) !! u = Some y).
  { intros u y Hu. rewrite lookup_insert_ne; [done|]. symmetry. by eapply Hne. }
  constructor; cbn.
  - rewrite dom_insert_L. by apply q_alloc_ok.
  - intros n u Hu. destruct (Hs n u Hu) as (y & Hy & Hyh). exists y. by rewrite (Hlk u y Hy).
  - intros u [->%elem_of_singleton|Hu]%elem_of_union.
    + split; [|exists x; by rewrite lookup_insert_eq]. intros n Hn. apply Ht. by apply (q_alloced _ _ _ _ _ Hq Hn).
    + destruct (Hl u Hu) as (Hn & y & Hy & Hyh). split; [done|]. exists y. by rewrite (Hlk u y Hy).
  - intros u y [[<- <-]|[_ Hu]]%lookup_insert_Some Huh; [left; set_solver|]. destruct (Ha u y Hu Huh) as [?|?]; [left; set_solver|by right].
  - intros u y [[<- <-]|[_ Hu]]%lookup_insert_Some; [by rewrite Hx|by apply (Hh u)].
  - exists (fun u => if decide (u = t) then [] else J u). constructor.
    + intros u y [[<- <-]|[Hut Hu]]%lookup_insert_Some Huh.
      * rewrite decide_True by done. rewrite Hj. by apply wq_empty.
      * rewrite decide_False by done. apply (wq_frame [t] (w_wq w)); [constructor| |by apply Hjr].
        -- intros a Ha'. rewrite lookup_insert_ne; [done|]. intros ->. apply Ha'. by left.
        -- intros a Ha'. rewrite lookup_insert_is_Some'. by right.
        -- intros a Ha' ->%list_elem_of_singleton. destruct (Hji u y t Hu Huh Ha') as (z & Hz & _). by apply (Hne t z).
    + intros u y j [[<- <-]|[Hut Hu]]%lookup_insert_Some Huh; [rewrite decide_True by done; by intros ?%not_elem_of_nil|].
      rewrite decide_False by done. intros Hjj. destruct (Hji u y j Hu Huh Hjj) as (z & Hz & Hzh). exists z. by rewrite (Hlk j z Hz).
    + intros u1 u2 y1 y2 j Hy1 Hy2 Hh1 Hh2. destruct (decide (u1 = t)); [by intros ?%not_elem_of_nil|].
      destruct (decide (u2 = t)); [by intros _ ?%not_elem_of_nil|]. rewrite lookup_insert_ne in Hy1, Hy2 by done.
      by apply (Hjd u1 u2 y1 y2 j).
Qed.
Lemma winv_add (w : wd) Q L t x : winv w Q L -> t ∉ dom (w_tcb w) -> t_home x = self -> t_join_waitq x = pth_waitq_init ->
  winv (add_tcb t x w) Q ({[t]} ∪ L).
Proof.
  intros Hw Ht Hx Hj. assert (HG := self_in _ _ _ Hw). destruct Hw as [Hi Hin Hu]. constructor; [by apply tinv_add|done|by apply so_init_ok].
Qed.

(** The thread that a new one takes after. *)
Definition parent_of (w : wd) : option tcb :=
  match g_current (w_g w) with Some c => w_tcb w !! c | None => None end.
Definition current_ok (w : wd) : Prop := forall c, g_current (w_g w) = Some c -> is_Some (w_tcb w !! c).

(** The size of its stack: at least the minimal one, unless it is zero. *)
Definition stack_for (attr : option pth_attr) : Z :=
  let size := match attr with None => 64 * 1024 | Some a => a_stacksize a end in
  if (size >? 0) && (size <? SIGSTKSZ) then SIGSTKSZ else size.

Definition unspawned (w w' : wd) Q L env : Prop :=
  winv w' Q L /\ (malloc (dom (w_tcb w)) = NULL \/ se_stack env = NULL \/ is_Some (se_mctx env)) /\
  dom (w_tcb w') = dom (w_tcb w) /\
  (forall u x, w_tcb w !! u = Some x -> exists x', w_tcb w' !! u = Some x' /\ t_home x' = t_home x /\
     (t_home x = self -> t_state x' = t_state x /\ t_joinable x' = t_joinable x)).
Definition spawned (w : wd) Q L env attr func arg (r : ptr * option errno) (w' : wd) : Prop :=
  (exists t n, r = ok (Some t) /\ t ∉ dom (w_tcb w) /\ n_stacksize n = stack_for attr /\
     w' = add_tcb t (new_tcb self env n (spawn_attrs attr (parent_of w)) (start_func func) arg) w) \/
  (exists e, r = (NULL, Some e)) /\ unspawned w w' Q L env.

Lemma tcb_alloc_ok mem stk attr addr n :
  pth_tcb_alloc mem stk (match attr with None => 64 * 1024 | Some a => a_stacksize a end) addr = Some n -> 0 <= stack_for attr ->
  n_stacksize n = stack_for attr.
Proof.
  unfold pth_tcb_alloc, stack_for. intros Hn Hs. set (sz := if _ && _ then _ else _) in *. clearbody sz. repeat case_match; simplify_eq; done.
Qed.
Lemma tcb_alloc_none mem stk size addr : pth_tcb_alloc mem stk size addr = None -> mem = NULL \/ stk = NULL.
Proof.
  unfold pth_tcb_alloc. destruct mem; [|by left]. destruct addr as [s|]; [by case_match|].
  rewrite bool_decide_eq_false_2 by auto. destruct stk; [by case_match|by right].
Qed.

Lemma rd_parent_ok (w : wd) : current_ok w -> rd_parent w = Some (parent_of w, w).
Proof.
  intros Hc. unfold rd_parent, parent_of. rewrite (st_bind_Some (getg g_current) _ w (g_current (w_g w)) w eq_refl).
  destruct (g_current (w_g w)) as [c|] eqn:Ec; [|done]. destruct (Hc c Ec) as [x Hx].
  by rewrite (st_bind_Some _ _ _ _ _ (x_rd_tcb w c x Hx)), Hx.
Qed.

Lemma new_tcb_fields home env n p j c d func arg : let x := new_tcb home env n (p, j, c, d) func arg in
  t_home x = home /\ t_join_waitq x = pth_waitq_init.
Proof. done. Qed.

Lemma spawn_tcb_ok (w : wd) Q L env attr func arg :
  winv w Q L -> current_ok w -> (forall a, attr = Some a -> 0 <= a_stacksize a) ->
  exists r w', spawn_tcb malloc self env attr func arg w = Some (r, w') /\ spawned w Q L env attr func arg r w'.
Proof.
  intros Hw Hcur Hsz. unfold spawn_tcb. rewrite (st_bind_Some get_st _ w w w eq_refl).
  set (size := match attr with None => 64 * 1024 | Some a => a_stacksize a end).
  assert (Hsize : 0 <= size) by (unfold size; destruct attr as [a|]; [by apply Hsz|lia]).
  assert (Hnone : malloc (dom (w_tcb w)) = NULL \/ se_stack env = NULL -> exists r w', Some (pth_error NULL ENOMEM, w) = Some (r, w') /\
    spawned w Q L env attr func arg r w').
  { intros He. eexists _, _. split; [reflexivity|]. right. split; [by exists ENOMEM|]. split_and!; [done|tauto|done|].
    intros u x Hx. by exists x. }
  destruct (malloc (dom (w_tcb w))) as [t|] eqn:Em; [|apply Hnone; by left].
  destruct (pth_tcb_alloc (Some t) (se_stack env) size _) as [n|] eqn:Ea;
    [|apply tcb_alloc_none in Ea as [?|?]; [done|apply Hnone; by right]].
  rewrite (st_bind_Some _ _ _ _ _ (rd_parent_ok w Hcur)).
  set (x := new_tcb _ _ _ _ _ _). set (w1 := add_tcb t x w). rewrite (st_bind_Some (updw (add_tcb t x)) _ w tt w1 eq_refl).
  assert (Ht := malloc_fresh _ _ Em).
  assert (Hx : t_home x = self /\ t_join_waitq x = pth_waitq_init) by (unfold x; destruct (spawn_attrs _ _) as [[[? ?] ?] ?]; done).
  assert (Hw1 : winv w1 Q ({[t]} ∪ L)) by (destruct Hx; by apply winv_add).
  assert (Hgood : exists r w', Some (ok (Some t), w1) = Some (r, w') /\ spawned w Q L env attr func arg r w').
  { eexists _, _. split; [reflexivity|]. left. exists t, n. split_and!; [done|done| |done]. eapply tcb_alloc_ok; [exact Ea|].
    unfold stack_for. fold size. unfold SIGSTKSZ. destruct (_ && _); lia. }
  destruct (se_mctx env) as [e|] eqn:Es; [|exact Hgood]. destruct (n_stacksize n >? 0); [|exact Hgood].
  assert (Hlk : w_tcb w1 !! t = Some x) by (cbn; by rewrite lookup_insert_eq).
  destruct (tcb_free_ok self G E w1 Q ({[t]} ∪ L) t x Hw1 ltac:(set_solver) Hlk) as (w2 & w3 & E3 & Hw3 & Hq & Htc & _).
  rewrite (st_bind_Some _ _ _ _ _ E3). eexists _, _. split; [reflexivity|]. right. split; [by exists e|].
  assert (HtL : t ∉ L).
  { intros HL. apply Ht. by eapply tinv_dom; [apply (wi_t _ _ _ _ _ _ Hw)|]. }
  assert (HL : ({[t]} ∪ L) ∖ {[t]} = L) by set_solver. rewrite HL in Hw3. split_and!; [done|by right; right; rewrite Es|..].
  - rewrite Htc, dom_delete_L, (qu_dom _ _ _ _ _ Hq). cbn. rewrite dom_insert_L. set_solver.
  - intros u y Hy. assert (u <> t) by (intros ->; apply Ht; by apply elem_of_dom).
    destruct (qu_tcb _ _ _ _ _ Hq u y) as (y' & Hy' & Hyh); [cbn; by rewrite lookup_insert_ne|].
    exists y'. by rewrite Htc, lookup_delete_ne.
Qed.

Lemma spawn_ok (w : wd) Q L env attr func arg :
  winv w Q L -> current_ok w -> func <> SScheduler -> (forall a, attr = Some a -> 0 <= a_stacksize a) ->
  exists r e w', pth_spawn self malloc env attr func arg w = Some ((r, e), w') /\
  match r with
  | Some t => exists x, e = None /\ t ∉ dom (w_tcb w) /\ w_tcb w' = <[t := x]> (w_tcb w) /\
      winv w' (qupd NQ (pq_ins (t_prio x) t (Q NQ)) Q) L /\
      (t_prio x, t_joinable x, t_cancelstate x, t_dispatches x) = spawn_attrs attr (parent_of w) /\
      t_home x = self /\ t_state x = PTH_STATE_NEW /\ t_start x = start_func func /\ t_arg x = arg /\ t_events x = NULL /\
      t_cancelreq x = false /\ t_sigpending x = ∅ /\ t_join_done x = false /\ t_join_waitq x = pth_waitq_init /\
      t_stacksize x = stack_for attr /\
      w_ev w' = w_ev w /\ w_inb w' = w_inb w /\ w_g w' = w_g w
  | None => is_Some e /\ winv w' Q L /\
      (func = SNull \/ malloc (dom (w_tcb w)) = NULL \/ se_stack env = NULL \/ is_Some (se_mctx env)) /\
      dom (w_tcb w') = dom (w_tcb w) /\
      (forall u x, w_tcb w !! u = Some x -> exists x', w_tcb w' !! u = Some x' /\ t_home x' = t_home x /\
         (t_home x = self -> t_state x' = t_state x /\ t_joinable x' = t_joinable x))
  end.
Proof.
  intros Hw Hcur Hf Hsz.
  assert (Hfail : forall (e : errno) (w' : wd), unspawned w w' Q L env -> is_Some (Some e) /\ winv w' Q L /\
      (func = SNull \/ malloc (dom (w_tcb w)) = NULL \/ se_stack env = NULL \/ is_Some (se_mctx env)) /\
      dom (w_tcb w') = dom (w_tcb w) /\
      (forall u x, w_tcb w !! u = Some x -> exists x', w_tcb w' !! u = Some x' /\ t_home x' = t_home x /\
         (t_home x = self -> t_state x' = t_state x /\ t_joinable x' = t_joinable x))).
  { intros e w' (H1 & H2 & H3 & H4). split_and!; try done; tauto. }
  destruct (spawn_tcb_ok w Q L env attr func arg Hw Hcur Hsz) as (r & w1 & E1 & Hs).
  assert (Hn : func = SNull \/ pth_spawn self malloc env attr func arg w =
    (r ← spawn_tcb malloc self env attr func arg; if bool_decide (r.1 = NULL) then mret r else
      upd_tcb r.1 (set_state PTH_STATE_NEW);; x ← rd_tcb r.1; on_q (qo_insert NQ (t_prio x) r.1);; mret (ok r.1)) w)
    by (destruct func; [by left|by right|done|by right]).
  destruct Hn as [->|En].
  { exists NULL, (Some EINVAL), w. split; [done|]. split_and!; try done; [by left|]. intros u x Hx. by exists x. }
  rewrite En, (st_bind_Some _ _ _ _ _ E1). destruct Hs as [(t & n & -> & Ht & Hsn & ->)|[[e ->] Hun]].
  2: { exists NULL, (Some e), w1. split; [done|]. by apply Hfail. }
  cbn [fst]. rewrite bool_decide_eq_false_2 by done. set (x := new_tcb _ _ _ _ _ _) in *.
  assert (Hx : t_home x = self /\ t_join_waitq x = pth_waitq_init) by (unfold x; destruct (spawn_attrs _ _) as [[[? ?] ?] ?]; done).
  assert (Hw1 : winv (add_tcb t x w) Q ({[t]} ∪ L)) by (destruct Hx; by apply winv_add).
  assert (Hlk : w_tcb (add_tcb t x w) !! t = Some x) by (cbn; by rewrite lookup_insert_eq).
  rewrite (st_bind_Some _ _ _ _ _ (x_upd_tcb _ t x _ Hlk)). set (x1 := set_state PTH_STATE_NEW x). set (w2 := set_tcb _ _).
  assert (Hlk2 : w_tcb w2 !! t = Some x1) by (cbn; by rewrite lookup_insert_eq).
  assert (Hw2 : winv w2 Q ({[t]} ∪ L)).
  { eapply winv_same; [exact Hw1| |done|done]. eapply tinv_upd; [apply Hw1|exact Hlk|done|done|left; set_solver]. }
  rewrite (st_bind_Some _ _ _ _ _ (x_rd_tcb w2 t x1 Hlk2)).
  destruct (tinv_insert self G w2 Q ({[t]} ∪ L) NQ (t_prio x1) t x1 (wi_t _ _ _ _ _ _ Hw2) ltac:(set_solver) Hlk2 eq_refl) as (q & Eq & Hi3).
  rewrite (st_bind_Some _ _ _ _ _ Eq). eexists (Some t), None, _. split; [reflexivity|].
  assert (HtL : t ∉ L).
  { intros HL. apply Ht. by eapply tinv_dom; [apply (wi_t _ _ _ _ _ _ Hw)|]. }
  assert (HL : ({[t]} ∪ L) ∖ {[t]} = L) by set_solver. rewrite HL in Hi3.
  exists x1. split_and!; try done; try (unfold x1, x, new_tcb; by destruct (spawn_attrs _ _) as [[[? ?] ?] ?]).
  - cbn. by rewrite insert_insert_eq.
  - by eapply winv_same.
Qed.

(** C24: [pth_spawn] makes exactly one new thread, or none. On success the
    thread is in fresh memory and new, with the given attributes or those
    inherited from its parent, its start function and argument, a stack of the
    size asked for but at least the minimal one (none for zero), nothing pending,
    cancelled or owed to anybody; it enters the new queue behind its equals,
    and nothing else changes. On failure - a NULL function, no memory, no
    machine context - NULL and an error are returned, all other threads are as
    they were. The invariant of threads and queues is kept in all cases. *)
Theorem spawn_correct (w : wd) Q L env attr func arg :
  winv w Q L -> current_ok w -> func <> SScheduler -> (forall a, attr = Some a -> 0 <= a_stacksize a) ->
  exists r e w', pth_spawn self malloc env attr func arg w = Some ((r, e), w') /\
  match r with
  | Some t => exists x, e = None /\ t ∉ dom (w_tcb w) /\ w_tcb w' = <[t := x]> (w_tcb w) /\
      winv w' (qupd NQ (pq_ins (t_prio x) t (Q NQ)) Q) L /\
      (t_prio x, t_joinable x, t_cancelstate x, t_dispatches x) = spawn_attrs attr (parent_of w) /\
      t_home x = self /\ t_state x = PTH_STATE_NEW /\ t_start x = start_func func /\ t_arg x = arg /\ t_events x = NULL /\
      t_cancelreq x = false /\ t_sigpending x = ∅ /\ t_join_done x = false /\ t_join_waitq x = pth_waitq_init /\
      t_stacksize x = stack_for attr /\
      w_ev w' = w_ev w /\ w_inb w' = w_inb w /\ w_g w' = w_g w
  | None => is_Some e /\ winv w' Q L /\
      (func = SNull \/ malloc (dom (w_tcb w)) = NULL \/ se_stack env = NULL \/ is_Some (se_mctx env)) /\
      dom (w_tcb w') = dom (w_tcb w) /\
      (forall u x, w_tcb w !! u = Some x -> exists x', w_tcb w' !! u = Some x' /\ t_home x' = t_home x /\
         (t_home x = self -> t_state x' = t_state x /\ t_joinable x' = t_joinable x))
  end.
Proof. apply spawn_ok. Qed.

(** ** Suspending and resuming *)

Lemma del_ins p t l : pq_del t (pq_ins p t l) = pq_del t l.
Proof.
  unfold pq_del. induction l as [|[u k] l IH]; cbn [pq_ins].
  - rewrite filter_cons, decide_False; [done|]. intros Hn. by apply Hn.
  - destruct (k <? p); [rewrite (filter_cons _ (t, p)), decide_False; [done|intros Hn; by apply Hn]|].
    rewrite !filter_cons, IH. done.
Qed.
Lemma del_notin t l : t ∉ l.*1 -> pq_del t l = l.
Proof.
  unfold pq_del. induction l as [|y l IH]; [done|]. rewrite fmap_cons, not_elem_of_cons. intros [Hy Hl].
  rewrite filter_cons, decide_True by congruence. by rewrite IH.
Qed.
Lemma pq_del_idem t l : pq_del t (pq_del t l) = pq_del t l.
Proof. apply del_notin. intros Hn. by apply in_del in Hn as [? _]. Qed.
Lemma prio_ins p t l : t ∉ l.*1 -> forall k, (t, k) ∈ pq_ins p t l <-> k = p.
Proof.
  intros Hn k. rewrite pq_ins_perm, elem_of_cons. split; [|intros ->; by left]. intros [[= ->]|Hk]; [done|].
  exfalso. apply Hn. apply list_elem_of_fmap. by exists (t, k).
Qed.

Lemma home_ok (w : wd) t x : w_tcb w !! t = Some x -> home_of t w = Some (t_home x, w).
Proof. intros Hx. unfold home_of. by rewrite (st_bind_Some _ _ _ _ _ (x_rd_tcb w t x Hx)). Qed.

(** Suspending takes a thread away from the scheduler and resuming brings
    it back. A new, ready or waiting thread of this scheduler other than the
    caller is moved to the suspend queue by [pth_suspend], and is in none of
    the queues that the scheduler runs threads from or wakes them in; a second
    [pth_suspend] fails. [pth_resume] puts it back into the queue it was in,
    with standard priority, and a second [pth_resume] fails. All other threads
    keep their place and order throughout, no control block changes, and the
    invariant of threads and queues is kept. *)
Lemma suspend_resume_correct (w : wd) Q L t n :
  winv w Q L -> in_q Q n t -> n = NQ \/ n = RQ \/ n = WQ ->
  g_current (w_g w) <> Some t -> g_scheduler (w_g w) <> Some t ->
  exists w1 w2 Q1 Q2,
    pth_suspend self malloc (Some t) w = Some (ok true, w1) /\ winv w1 Q1 L /\ in_q Q1 SQ t /\
    ~ in_q Q1 NQ t /\ ~ in_q Q1 RQ t /\ ~ in_q Q1 WQ t /\
    (exists w', pth_suspend self malloc (Some t) w1 = Some (pth_error false ESRCH, w') /\ winv w' Q1 L) /\
    pth_resume self malloc (Some t) w1 = Some (ok true, w2) /\ winv w2 Q2 L /\
    (forall k, (t, k) ∈ Q2 n <-> k = PTH_PRIO_STD) /\ (forall m, pq_del t (Q2 m) = pq_del t (Q m)) /\
    (exists w', pth_resume self malloc (Some t) w2 = Some (pth_error false EPERM, w') /\ winv w' Q2 L) /\
    w_tcb w1 = w_tcb w /\ w_tcb w2 = w_tcb w.
Proof.
  intros Hw Ht Hn Hc Hs. assert (Hi := wi_t _ _ _ _ _ _ Hw). destruct (ti_state _ _ _ _ _ Hi n t Ht) as (x & Hx & Hxh & Hxs).
  assert (Hloose : forall (w0 : wd) Q0, tinv w0 Q0 L -> forall m, in_q Q0 m t -> t ∉ L) by (intros w0 Q0 H0 m; by eapply in_q_loose).
  assert (Hstart : forall (w0 : wd) (A : Type) (f : st wd A), w_tcb w0 = w_tcb w -> g_current (w_g w0) = g_current (w_g w) ->
    g_scheduler (w_g w0) = g_scheduler (w_g w) ->
    pth_suspend self malloc (Some t) w0 = pth_suspend_local (Some t) w0 /\
    pth_resume self malloc (Some t) w0 = pth_resume_local (Some t) w0).
  { intros w0 A f E1 E2 E3. unfold pth_suspend, pth_resume. rewrite !(st_bind_Some (getg id) _ w0 (w_g w0) w0 eq_refl).
    rewrite E2, E3, !bool_decide_eq_false_2 by congruence. cbn [orb].
    rewrite !(st_bind_Some _ _ _ _ _ (home_ok w0 t x ltac:(by rewrite E1))). rewrite Hxh.
    rewrite bool_decide_eq_false_2 by (intros Hf; by apply Hf). done. }
  destruct (Hstart w unit (mret tt) eq_refl eq_refl eq_refl) as [E0 _].
  destruct (suspend_ok self G E w Q L t Hw Hs (Hloose w Q Hi)) as (r & w1 & Q1 & E1 & Hw1 & Hst1 & Htc1 & Hout).
  assert (Hone : forall m, in_q Q m t -> m = n) by (intros m Hm; by apply (q_one _ _ _ _ _ _ (ti_q _ _ _ _ _ Hi) Hm Ht)).
  destruct Hout as [(n' & Hn' & Ht' & -> & ->)|[(Hf & _)|[(Hf & _)|(Hf & _)]]];
    [|apply Hone in Hf; naive_solver|apply Hone in Hf; naive_solver|by apply Hf in Ht].
  apply Hone in Ht' as ->.
  assert (HnS : n <> SQ) by naive_solver.
  set (Q1 := qmove n SQ PTH_PRIO_STD t Q) in *.
  assert (HS1 : in_q Q1 SQ t).
  { unfold in_q, Q1, qmove. rewrite qupd_eq, qupd_ne by done. apply in_ins. by left. }
  assert (Hi1 := wi_t _ _ _ _ _ _ Hw1).
  assert (Hone1 : forall m, in_q Q1 m t -> m = SQ) by (intros m Hm; by apply (q_one _ _ _ _ _ _ (ti_q _ _ _ _ _ Hi1) Hm HS1)).
  assert (Hs1 : g_scheduler (w_g w1) <> Some t) by (by rewrite (ws_sched _ _ _ _ _ Hst1)).
  destruct (Hstart w1 unit (mret tt) Htc1 (ws_cur _ _ _ _ _ Hst1) (ws_sched _ _ _ _ _ Hst1)) as [E2 E3].
  destruct (suspend_ok self G E w1 Q1 L t Hw1 Hs1 (Hloose w1 Q1 Hi1)) as (r2 & w1' & Q1' & E4 & Hw1' & _ & _ & Hout2).
  destruct (resume_ok self G E w1 Q1 L t Hw1 Hs1 (Hloose w1 Q1 Hi1)) as (r3 & w2 & Q2 & E5 & Hw2 & Hst2 & Htc2 & Hout3).
  destruct Hout2 as [(m & Hm & Hmt & _)|[(_ & -> & ->)|[(Hf & _)|(Hf & _)]]];
    [apply Hone1 in Hmt; naive_solver| |by apply Hone1 in Hf|by apply Hf in HS1].
  destruct Hout3 as [(m & _ & Hm & Hms & -> & ->)|(Hf & _)]; [|done].
  assert (m = n) as ->.
  { assert (Hxm := Hms x ltac:(by rewrite Htc1)). destruct Hn as [->|[->| ->]], Hm as [->|[->| ->]]; try done; cbn in Hxs, Hxm; rewrite Hxs in Hxm; discriminate Hxm. }
  assert (Hi2 := wi_t _ _ _ _ _ _ Hw2).
  assert (Hn2 : in_q (qmove SQ n PTH_PRIO_STD t Q1) n t).
  { unfold in_q, qmove. rewrite qupd_eq. apply in_ins. by left. }
  assert (Hs2 : g_scheduler (w_g w2) <> Some t) by (by rewrite (ws_sched _ _ _ _ _ Hst2)).
  destruct (resume_ok self G E w2 _ L t Hw2 Hs2 (Hloose w2 _ Hi2)) as (r4 & w3 & Q3 & E6 & Hw3 & _ & _ & Hout4).
  destruct Hout4 as [(m & Hmt & _)|(_ & -> & ->)].
  { assert (SQ = n) by (by apply (q_one _ _ _ _ _ _ (ti_q _ _ _ _ _ Hi2) Hmt Hn2)). congruence. }
  destruct (Hstart w2 unit (mret tt)) as [_ E7]; [congruence|..].
  { by rewrite (ws_cur _ _ _ _ _ Hst2), (ws_cur _ _ _ _ _ Hst1). }
  { by rewrite (ws_sched _ _ _ _ _ Hst2), (ws_sched _ _ _ _ _ Hst1). }
  assert (Hno : t ∉ (pq_del t (Q n)).*1) by (intros Hd; by apply in_del in Hd as [? _]).
  exists w1, w2, Q1, (qmove SQ n PTH_PRIO_STD t Q1). split_and!; try done.
  - by rewrite E0.
  - intros Hf; apply Hone1 in Hf; done.
  - intros Hf; apply Hone1 in Hf; done.
  - intros Hf; apply Hone1 in Hf; done.
  - exists w1'. rewrite E2. split; [exact E4|done].
  - by rewrite E3.
  - unfold qmove at 1. rewrite qupd_eq, (qupd_ne SQ n) by done. unfold Q1, qmove. rewrite (qupd_ne SQ n) by done. rewrite qupd_eq.
    by apply prio_ins.
  - intros m. unfold qmove at 1. unfold qupd at 1. case_decide as Hm2; [subst m|].
    + rewrite del_ins, (qupd_ne SQ n) by done. unfold Q1, qmove. rewrite (qupd_ne SQ n), qupd_eq by done. apply pq_del_idem.
    + unfold qupd at 1. case_decide as Hm3; [subst m|].
      * unfold Q1, qmove. rewrite qupd_eq, pq_del_idem, del_ins, qupd_ne by done. done.
      * unfold Q1, qmove. rewrite !qupd_ne by done. done.
  - exists w3. rewrite E7. split; [exact E6|done].
  - congruence.
Qed.

(** ** Joining *)

Lemma num_threads_ok (w : wd) Q L : tinv w Q L ->
  num_threads w = Some (Z.of_nat (length (Q NQ) + length (Q RQ) + 1 + length (Q WQ) + length (Q SQ) + length (Q DQ)), w).
Proof.
  intros Hi. assert (Hq := ti_q _ _ _ _ _ Hi). unfold num_threads. rewrite (st_bind_Some get_st _ w w w eq_refl).
  rewrite !(q_elements_ok _ _ _ _ Hq). unfold mret, st_ret. do 2 f_equal. lia.
Qed.
Lemma join_finish_ok (w : wd) Q L t x tid : winv w Q L -> in_q Q DQ t -> w_tcb w !! t = Some x ->
  tid = Some t \/ tid = NULL /\ head (Q DQ).*1 = Some t ->
  exists w', join_finish tid w = Some (Ret (Some (t_join_arg x)) None, w') /\
    winv w' (qupd DQ (pq_del t (Q DQ)) Q) L /\ w_tcb w' !! t = None /\ others self t w w'.
Proof.
  intros Hw Ht Hx Htid. assert (Hi := wi_t _ _ _ _ _ _ Hw). unfold join_finish. rewrite (st_bind_Some get_st _ w w w eq_refl).
  assert (Hsel : match tid with None => qo_head DQ (w_q w) | _ => tid end = Some t).
  { destruct Htid as [->|[-> Hh]]; [done|]. by rewrite (q_head_ok _ _ _ DQ (ti_q _ _ _ _ _ Hi)). }
  rewrite Hsel. rewrite (st_bind_Some _ _ _ _ _ (x_rd_tcb w t x Hx)).
  destruct (ti_state _ _ _ _ _ Hi DQ t Ht) as (x' & Hx' & _ & Hst). simplify_eq. cbn in Hst. rewrite Hst. cbn [negb].
  change (negb (PTH_STATE_DEAD =? PTH_STATE_DEAD)) with false. cbv iota.
  destruct (tinv_delete self G w Q L DQ t Hi Ht) as (q1 & E1 & Hi1). rewrite (st_bind_Some _ _ _ _ _ E1).
  assert (Hw1 : winv (set_q q1 w) (qupd DQ (pq_del t (Q DQ)) Q) ({[t]} ∪ L)) by (by eapply winv_same).
  destruct (tcb_free_ok self G E (set_q q1 w) _ _ t x Hw1 ltac:(set_solver) Hx) as (w3 & w4 & E4 & Hw4 & Hq4 & Htc & _).
  assert (HtL : t ∉ L) by (by eapply in_q_loose).
  assert (Hset : ({[t]} ∪ L) ∖ {[t]} = L) by set_solver. rewrite Hset in Hw4.
  rewrite (st_bind_Some _ _ _ _ _ E4). exists w4. split_and!; [done|done|by rewrite Htc, lookup_delete_eq|].
  apply (others_trans self t w (set_q q1 w)); [by apply others_same|]. eapply others_trans; [by eapply others_quiet|].
  intros t' y Hne Hy. exists y. rewrite Htc, lookup_delete_ne by done. done.
Qed.

(** C25: [pth_join] with a terminated thread of the own scheduler - or, with
    NULL, with any, which is the one at the head of the dead queue - returns
    the value that the thread left, takes exactly this thread out of the dead
    queue, and frees it; all other threads stay as they are and the invariant
    of threads and queues is kept. Joining oneself is a deadlock, a thread
    that is not joinable is refused, and waiting for any thread when there is
    no other is a deadlock; then nothing changes. *)
Theorem join_correct fcntl ds (w : wd) Q L c key co :
  winv w Q L -> g_current (w_g w) = Some c ->
  let join := pth_join self malloc fcntl ds key co in
  (forall t x tid, in_q Q DQ t -> w_tcb w !! t = Some x -> t <> c ->
     tid = Some t /\ t_joinable x = true \/ tid = NULL /\ head (Q DQ).*1 = Some t ->
     exists w', join tid w = Some (Ret (Some (t_join_arg x)) None, w') /\
       winv w' (qupd DQ (pq_del t (Q DQ)) Q) L /\ w_tcb w' !! t = None /\ others self t w w') /\
  join (Some c) w = Some (Ret None (Some EDEADLK), w) /\
  (forall t x, w_tcb w !! t = Some x -> t <> c -> t_joinable x = false ->
     join (Some t) w = Some (Ret None (Some EINVAL), w)) /\
  ((forall n, Q n = []) -> join NULL w = Some (Ret None (Some EDEADLK), w)).
Proof.
  intros Hw Hc join. assert (Hi := wi_t _ _ _ _ _ _ Hw). unfold join, pth_join.
  split_and!.
  - intros t x tid Ht Hx Htc Htid. assert (Hn := num_threads_ok w Q L Hi).
    assert (Hlen : (0 < length (Q DQ))%nat).
    { unfold in_q in Ht. destruct (Q DQ); [by apply not_elem_of_nil in Ht|cbn; lia]. }
    destruct (ti_state _ _ _ _ _ Hi DQ t Ht) as (x' & Hx' & Hxh & Hst). rewrite Hx in Hx'. injection Hx' as <-. cbn in Hst.
    destruct Htid as [[-> Hj]|[-> Hh]].
    + rewrite (st_bind_Some (getg g_current) _ w (Some c) w) by (unfold getg; by rewrite Hc).
      rewrite bool_decide_eq_false_2 by congruence. rewrite (st_bind_Some (x ← rd_tcb _; mret _) _ w (Some x) w)
        by (by rewrite (st_bind_Some _ _ _ _ _ (x_rd_tcb w t x Hx))). rewrite Hj, Hxh. cbn [negb].
      rewrite bool_decide_eq_false_2 by (intros Hf; by apply Hf). rewrite (st_bind_Some _ _ _ _ _ Hn).
      destruct (Z.eqb_spec (Z.of_nat (length (Q NQ) + length (Q RQ) + 1 + length (Q WQ) + length (Q SQ) + length (Q DQ))) 1); [lia|].
      rewrite Hst, Z.eqb_refl. eapply join_finish_ok; try done. by left.
    + rewrite (st_bind_Some (getg g_current) _ w (Some c) w) by (unfold getg; by rewrite Hc).
      rewrite bool_decide_eq_false_2 by done. rewrite (st_bind_Some (mret None) _ w None w eq_refl).
      rewrite (st_bind_Some _ _ _ _ _ Hn).
      destruct (Z.eqb_spec (Z.of_nat (length (Q NQ) + length (Q RQ) + 1 + length (Q WQ) + length (Q SQ) + length (Q DQ))) 1); [lia|].
      rewrite (st_bind_Some get_st _ w w w eq_refl), (q_head_ok _ _ _ DQ (ti_q _ _ _ _ _ Hi)), Hh.
      eapply join_finish_ok; try done. by left.
  - rewrite (st_bind_Some (getg g_current) _ w (Some c) w) by (unfold getg; by rewrite Hc). by rewrite bool_decide_eq_true_2.
  - intros t x Hx Htc Hj. rewrite (st_bind_Some (getg g_current) _ w (Some c) w) by (unfold getg; by rewrite Hc).
    rewrite bool_decide_eq_false_2 by congruence. rewrite (st_bind_Some (x ← rd_tcb _; mret _) _ w (Some x) w)
      by (by rewrite (st_bind_Some _ _ _ _ _ (x_rd_tcb w t x Hx))). by rewrite Hj.
  - intros He. rewrite (st_bind_Some (getg g_current) _ w (Some c) w) by (unfold getg; by rewrite Hc).
    rewrite bool_decide_eq_false_2 by done. rewrite (st_bind_Some (mret None) _ w None w eq_refl).
    rewrite (st_bind_Some _ _ _ _ _ (num_threads_ok w Q L Hi)), !He. done.
Qed.

(** ** Dropping all threads *)

(** The threads outside [S] stay as they are. *)
Definition kept (S : gset addr) (w w' : wd) : Prop :=
  dom (w_tcb w') = dom (w_tcb w) ∖ S /\
  forall t x, t ∉ S -> w_tcb w !! t = Some x -> exists x', w_tcb w' !! t = Some x' /\ t_home x' = t_home x /\
    (t_home x = self -> t_state x' = t_state x /\ t_joinable x' = t_joinable x).
Lemma kept_trans S1 S2 w1 w2 w3 : kept S1 w1 w2 -> kept S2 w2 w3 -> kept (S1 ∪ S2) w1 w3.
Proof.
  intros [D1 K1] [D2 K2]. split; [rewrite D2, D1; set_solver|]. intros t x Ht Hx.
  destruct (K1 t x ltac:(set_solver) Hx) as (y & Hy & Hh & Hs). destruct (K2 t y ltac:(set_solver) Hy) as (z & Hz & Hh' & Hs').
  exists z. split_and!; [done|congruence|]. intros Hself. destruct (Hs Hself), (Hs' ltac:(congruence)). split; congruence.
Qed.

(** The thread taken from the head of a queue is freed. *)
Lemma drop_one_ok (w : wd) Q L n t p l : winv w Q L -> Q n = (t, p) :: l -> exists q w',
  on_q (qo_delmax n) w = Some (Some t, set_q q w) /\ pth_tcb_free (Some t) (set_q q w) = Some (tt, w') /\
  winv w' (qupd n l Q) L /\ kept {[t]} w w'.
Proof.
  intros Hw HQ. assert (Hi := wi_t _ _ _ _ _ _ Hw). assert (Ht : in_q Q n t) by (unfold in_q; rewrite HQ; by left).
  destruct (ti_state _ _ _ _ _ Hi n t Ht) as (x & Hx & Hxh & Hst). assert (HtL : t ∉ L) by (by eapply in_q_loose).
  destruct (q_delmax_ok _ _ _ n t p l (ti_q _ _ _ _ _ Hi) HQ) as (q & Eq & Hq).
  destruct (tinv_delete self G w Q L n t Hi Ht) as (q0 & _ & [B1 B2 B3 B4 B5 B6]).
  assert (Hl : pq_del t (Q n) = l).
  { assert (Hnd := q_nodup _ _ _ n (ti_q _ _ _ _ _ Hi)). rewrite HQ, fmap_cons in Hnd. apply NoDup_cons in Hnd as [Hnd _].
    rewrite HQ. unfold pq_del. rewrite filter_cons, decide_False by (intros Hf; by apply Hf). by apply del_notin. }
  rewrite Hl in *. assert (Hi1 : tinv (set_q q w) (qupd n l Q) ({[t]} ∪ L)) by (by constructor).
  assert (Hw1 : winv (set_q q w) (qupd n l Q) ({[t]} ∪ L)) by (by eapply winv_same).
  destruct (tcb_free_ok self G E (set_q q w) _ _ t x Hw1 ltac:(set_solver) Hx) as (w3 & w4 & E4 & Hw4 & Hq4 & Htc & _).
  assert (Hset : ({[t]} ∪ L) ∖ {[t]} = L) by set_solver. rewrite Hset in Hw4.
  exists q, w4. split_and!; [by apply x_on_q|done|done|]. split.
  - rewrite Htc, dom_delete_L. by rewrite (qu_dom _ _ _ _ _ Hq4).
  - intros u y Hu Hy. destruct (qu_tcb _ _ _ _ _ Hq4 u y Hy) as (y' & Hy' & Hr). exists y'.
    rewrite Htc, lookup_delete_ne by set_solver. done.
Qed.

Lemma drop_q_ok n l : forall (w : wd) Q L, winv w Q L -> Q n = l -> exists w',
  drop_q (length l) n w = Some (tt, w') /\ winv w' (qupd n [] Q) L /\ kept (list_to_set l.*1) w w'.
Proof.
  induction l as [|[t p] l IH]; intros w Q L Hw HQ; cbn [drop_q length].
  - assert (Hi := wi_t _ _ _ _ _ _ Hw). rewrite (st_bind_Some (on_q _) _ w NULL w)
      by (rewrite (x_on_q _ w _ _ (q_delmax_empty _ _ _ n (ti_q _ _ _ _ _ Hi) HQ)); by destruct w).
    eexists. split; [reflexivity|]. split.
    + eapply winv_same; [exact Hw| |done|done]. destruct Hi as [B1 B2 B3 B4 B5 B6].
      assert (He : forall m, qupd n [] Q m = Q m) by (intros m; unfold qupd; case_decide; by subst).
      assert (Hin : forall m u, in_q (qupd n [] Q) m u <-> in_q Q m u) by (intros; unfold in_q; by rewrite He).
      constructor; cbn; try done.
      * by apply q_init_ok.
      * intros m u Hu%Hin. by apply (B2 m).
      * intros u Hu. destruct (B3 u Hu) as [Hn Hy]. split; [|done]. intros m Hm%Hin. by apply (Hn m).
      * intros u y Hy Hyh. destruct (B4 u y Hy Hyh) as [?|[m Hm]]; [by left|right]. exists m. by apply Hin.
    + split; [cbn; set_solver|]. intros t x _ Hx. by exists x.
  - destruct (drop_one_ok w Q L n t p l Hw HQ) as (q & w1 & E1 & E2 & Hw1 & Hk1).
    rewrite (st_bind_Some _ _ _ _ _ E1), (st_bind_Some _ _ _ _ _ E2).
    destruct (IH w1 (qupd n l Q) L Hw1 ltac:(by rewrite qupd_eq)) as (w2 & E3 & Hw2 & Hk2). exists w2. split_and!; [done| |].
    + destruct Hw2 as [Hi2 ? ?]. constructor; [|done|done]. eapply tinv_ext; [|exact Hi2].
      intros m. unfold qupd. by case_decide.
    + rewrite fmap_cons. cbn [list_to_set]. by eapply kept_trans.
Qed.
Lemma drop_all_ok n (w : wd) Q L : winv w Q L -> exists w', drop_all n w = Some (tt, w') /\ winv w' (qupd n [] Q) L /\
  kept (list_to_set (Q n).*1) w w'.
Proof.
  intros Hw. unfold drop_all. rewrite (st_bind_Some get_st _ w w w eq_refl), (q_elements_ok _ _ _ n (ti_q _ _ _ _ _ (wi_t _ _ _ _ _ _ Hw))), Nat2Z.id.
  by apply drop_q_ok.
Qed.

(** The threads in queues. *)
Definition queued (Q : qlists) : gset addr :=
  list_to_set (Q NQ).*1 ∪ list_to_set (Q RQ).*1 ∪ list_to_set (Q WQ).*1 ∪ list_to_set (Q SQ).*1 ∪ list_to_set (Q DQ).*1.

(** [pth_scheduler_drop] ends and frees exactly the threads that are in a
    queue - new, ready, waiting, suspended and dead ones alike - each once:
    all queues are empty afterwards, the running thread, the scheduler and the
    threads of other schedulers stay as they are, and the invariant of threads
    and queues is kept. *)
Lemma drop_correct (w : wd) Q L : winv w Q L ->
  exists w', pth_scheduler_drop w = Some (tt, w') /\ winv w' (fun _ => []) L /\ kept (queued Q) w w'.
Proof.
  intros Hw. unfold pth_scheduler_drop.
  destruct (drop_all_ok NQ w Q L Hw) as (w1 & E1 & Hw1 & K1). rewrite (st_bind_Some _ _ _ _ _ E1).
  destruct (drop_all_ok RQ w1 _ L Hw1) as (w2 & E2 & Hw2 & K2). rewrite (st_bind_Some _ _ _ _ _ E2).
  destruct (drop_all_ok WQ w2 _ L Hw2) as (w3 & E3 & Hw3 & K3). rewrite (st_bind_Some _ _ _ _ _ E3).
  destruct (drop_all_ok SQ w3 _ L Hw3) as (w4 & E4 & Hw4 & K4). rewrite (st_bind_Some _ _ _ _ _ E4).
  destruct (drop_all_ok DQ w4 _ L Hw4) as (w5 & E5 & Hw5 & K5). exists w5. split; [done|]. split.
  - destruct Hw5 as [Hi5 ? ?]. constructor; [|done|done]. eapply tinv_ext; [|exact Hi5]. intros m. by destruct m.
  - unfold queued. repeat (eapply kept_trans; [|eassumption]). done.
Qed.

(** The main thread calls [pth_exit] while exactly one other thread of its
    scheduler is alive: it takes itself for the last one, and the process
    ends. *)
Lemma exit_main_early (w : wd) Q L : winv w Q L -> (length (Q NQ) + length (Q RQ) + length (Q WQ) + length (Q SQ) = 1)%nat ->
  pth_exit_cb w = Some (true, w).
Proof.
  intros Hw Hn. assert (Hq := ti_q _ _ _ _ _ (wi_t _ _ _ _ _ _ Hw)). unfold pth_exit_cb.
  rewrite (st_bind_Some get_st _ w w w eq_refl), !(q_elements_ok _ _ _ _ Hq). unfold mret, st_ret. do 2 f_equal. lia.
Qed.
End specs.

(** ** Concrete calls *)

(** A new thread has no cleanup handlers; function 99 stands for the handler
    of a join. *)
#[export] Instance demo_spawn : SpawnOps dstate := {|
  so_init t s := Clst (<[t := []]> (l_stacks s)) (l_current s) (l_user s);
  so_push_join c t s := Clst (alter (cons (Cleanup 99 (Some t))) c (l_stacks s)) (l_current s) (l_user s);
  so_pop c s := Clst (alter tail c (l_stacks s)) (l_current s) (l_user s)
|}.
#[export] Instance demo_spawn_laws self G E : SpawnLaws queues dstate self G E.
Proof. by constructor. Qed.

Definition demo_env : sysenv := Sysenv (Some 700%positive) None ∅ (Tv 1 0) 0.

Lemma spawn_correct_witness : exists (w w' : dworld) t, winv 1 demo_G demo_E w demo_Q {[10%positive]} /\
  t ∉ dom (w_tcb w) /\ winv 1 demo_G demo_E w' (qupd NQ (pq_ins 0 t (demo_Q NQ)) demo_Q) {[10%positive]} /\
  pth_spawn 1 demo_malloc demo_env None (SFunc 77) NULL w = Some (ok (Some t), w').
Proof.
  destruct demo_inv as [q Hw].
  destruct (spawn_correct 1 demo_G demo_E demo_malloc demo_malloc_fresh (set_q q demo_w0) demo_Q _ demo_env None (SFunc 77) NULL Hw
    ltac:(by intros c [=]) ltac:(done) ltac:(by intros a [=])) as (r & e & w' & Eq & Hr).
  destruct r as [t|].
  - destruct Hr as (x & -> & Ht & Htc & Hw' & Ha & _). injection Ha as Hp _ _ _. rewrite Hp in Hw'.
    exists (set_q q demo_w0), w', t. split_and!; [exact Hw|exact Ht|exact Hw'|exact Eq].
  - exfalso. destruct Hr as (_ & _ & [H|[H|[H|[y H]]]] & _); discriminate H.
Defined.

Lemma suspend_resume_correct_witness : exists (w w1 w2 : dworld) Q1 Q2, winv 1 demo_G demo_E w demo_Q {[10%positive]} /\
  pth_suspend 1 demo_malloc (Some 13%positive) w = Some (ok true, w1) /\ in_q Q1 SQ 13%positive /\
  pth_resume 1 demo_malloc (Some 13%positive) w1 = Some (ok true, w2) /\ winv 1 demo_G demo_E w2 Q2 {[10%positive]}.
Proof.
  destruct demo_inv as [q Hw].
  destruct (suspend_resume_correct 1 demo_G demo_E demo_malloc (set_q q demo_w0) demo_Q _ 13 WQ Hw ltac:(by left)
    ltac:(tauto) ltac:(done) ltac:(done)) as (w1 & w2 & Q1 & Q2 & E1 & _ & H1 & _ & _ & _ & _ & E2 & H2 & _).
  exists (set_q q demo_w0), w1, w2, Q1, Q2. split_and!; [exact Hw|exact E1|exact H1|exact E2|exact H2].
Defined.

(** Thread 12 runs. *)
Definition demo_run : gsched := set_current (Some 12%positive) demo_g.
Definition demo_Qrun : qlists := qupd RQ [] demo_Q.
Lemma demo_inv_run : exists q, winv 1 demo_G demo_E (set_g demo_run (set_q q demo_w0)) demo_Qrun ({[12; 10]}%positive : gset addr).
Proof.
  destruct demo_inv as [q Hw]. assert (Hi := wi_t _ _ _ _ _ _ Hw).
  destruct (tinv_delete 1 demo_G _ _ _ RQ 12 Hi ltac:(by left)) as (q1 & _ & H1). exists q1.
  eapply winv_same; [exact Hw| |done|done]. eapply tinv_other; [..|exact H1]; done.
Qed.
Lemma join_correct_witness : exists (w w' : dworld), g_current (w_g w) = Some 12%positive /\
  pth_join 1 demo_malloc (fun _ => (0, EIO)) 98 97 true (Some 14%positive) w = Some (Ret (Some 0) None, w') /\
  w_tcb w' !! 14%positive = None.
Proof.
  destruct demo_inv_run as [q Hw].
  destruct (join_correct 1 demo_G demo_E demo_malloc demo_malloc_fresh (fun _ => (0, EIO)) 98 _ _ _ 12 97 true Hw eq_refl) as (H & _).
  destruct (H 14%positive _ (Some 14%positive) ltac:(by left) eq_refl ltac:(done) ltac:(by left)) as (w' & E & _ & Hn & _).
  exists (set_g demo_run (set_q q demo_w0)), w'. split_and!; [reflexivity|exact E|exact Hn].
Defined.

Lemma drop_correct_witness : exists (w w' : dworld), pth_scheduler_drop w = Some (tt, w') /\
  dom (w_tcb w') = {[12; 10]}%positive.
Proof.
  destruct demo_inv_run as [q Hw].
  destruct (drop_correct 1 demo_G demo_E demo_malloc demo_malloc_fresh _ _ _ Hw) as (w' & E & _ & Hd & _).
  exists (set_g demo_run (set_q q demo_w0)), w'. split; [exact E|].
  refine (eq_trans Hd _). by vm_compute.
Defined.
