(* ===== verification/Boot.v ===== *)
(** * Starting and ending the library (src/pth_lib.c, lines 58-163)

    [pth_init] brings up a scheduler: its ingredients, the thread of the
    scheduler itself and the one of the main program, with the attributes the
    code gives them. It ends in the first switch to the scheduler. [pth_kill]
    (in [Lib]) takes everything away again. *)

From stdpp Require Import base numbers gmap list.
From S2P Require Import Prelude Links Pqueue Timeval Waitq Util Clean Event Inbox Queues World Thread Demo Attr Lib Libspec.
Open Scope Z_scope.

Definition set_id (i : Z) (g : gsched) : gsched :=
  Gsched i (g_main g) (g_scheduler g) (g_current g) (g_favournew g) (g_stop g) (g_sigpending g) (g_sigblock g) (g_sigcatch g) (g_sigraised g).
Definition set_main (p : ptr) (g : gsched) : gsched :=
  Gsched (g_id g) p (g_scheduler g) (g_current g) (g_favournew g) (g_stop g) (g_sigpending g) (g_sigblock g) (g_sigcatch g) (g_sigraised g).
Definition set_scheduler (p : ptr) (g : gsched) : gsched :=
  Gsched (g_id g) (g_main g) p (g_current g) (g_favournew g) (g_stop g) (g_sigpending g) (g_sigblock g) (g_sigcatch g) (g_sigraised g).

(** [bs_init]: the variable [pth_initialized]. *)
Record bst (H U : Type) := Bst { bs_w : world H U; bs_at : attrs; bs_init : bool }.
Arguments Bst {H U}. Arguments bs_w {H U}. Arguments bs_at {H U}. Arguments bs_init {H U}.

(** ["**SCHEDULER**"] and ["main"]. *)
Definition scheduler_name : list Z := [42; 42; 83; 67; 72; 69; 68; 85; 76; 69; 82; 42; 42; 0].
Definition main_name : list Z := [109; 97; 105; 110; 0].

Definition sched_attrs (a : ptr) : st attrs unit :=
  pth_attr_set a PTH_ATTR_PRIO (VInt PTH_PRIO_MAX);;
  pth_attr_set a PTH_ATTR_NAME (VStr scheduler_name);;
  pth_attr_set a PTH_ATTR_JOINABLE (VInt 0);;
  pth_attr_set a PTH_ATTR_CANCEL_STATE (VInt PTH_CANCEL_DISABLE);;
  pth_attr_set a PTH_ATTR_STACK_SIZE (VInt (64 * 1024));;
  pth_attr_set a PTH_ATTR_STACK_ADDR (VPtr NULL);;
  mret tt.
Definition main_attrs (a : ptr) : st attrs unit :=
  pth_attr_set a PTH_ATTR_PRIO (VInt PTH_PRIO_STD);;
  pth_attr_set a PTH_ATTR_NAME (VStr main_name);;
  pth_attr_set a PTH_ATTR_JOINABLE (VInt 1);;
  pth_attr_set a PTH_ATTR_CANCEL_STATE (VInt (Z.lor PTH_CANCEL_ENABLE PTH_CANCEL_DEFERRED));;
  pth_attr_set a PTH_ATTR_STACK_SIZE (VInt 0);;
  pth_attr_set a PTH_ATTR_STACK_ADDR (VPtr NULL);;
  mret tt.
(** What [pth_spawn] reads through the pointer; NULL is
    [PTH_ATTR_DEFAULT]. *)
Definition attr_at (a : ptr) : st attrs (option pth_attr) :=
  match a with None => mret None | Some p => x ← rd_attr p; mret (Some x) end.

Section init.
Context {H U : Type} `{!QueueOps H, !CleanupOps H U, !SpawnOps U}.
Context (self : addr) (malloc : gset addr -> ptr).
Abbreviation bst := (bst H U).
Definition on_w {A : Type} (m : st (world H U) A) : st bst A := zoom bs_w (fun w b => Bst w (bs_at b) (bs_init b)) m.
Definition on_a {A : Type} (m : st attrs A) : st bst A := zoom bs_at (fun a b => Bst (bs_w b) a (bs_init b)) m.
Definition put_init (v : bool) : st bst unit := fun b => Some (tt, Bst (bs_w b) (bs_at b) v).

(** A failure after the ingredients are there; [errno] is kept. *)
Definition init_undo (t_attr : ptr) (e : option errno) : st bst (bool * option errno) :=
  on_a (pth_attr_destroy t_attr);;
  on_w pth_scheduler_drop;;
  mret (false, e).

(** From the attributes of the main thread on. *)
Definition init_main (t_attr s : ptr) (env : sysenv) : st bst (bool * option errno) :=
  on_a (main_attrs t_attr);;
  a ← on_a (attr_at t_attr);
  m ← on_w (pth_spawn self malloc env a SMain NULL);
  on_w (updg (set_main m.1));;
  if bool_decide (m.1 = NULL) then init_undo t_attr m.2 else
  on_a (pth_attr_destroy t_attr);;
  on_w (updg (set_current s));;
  mret (ok true).

(** [pipe_err]: the error of creating the signal pipe, if any; [alloc] and
    [junk]: the memory for the attributes; [env_s] and [env_m]: what the system
    gives to the two threads. *)
Definition pth_init (pipe_err : option errno) (alloc : ptr) (junk : pth_attr) (env_s env_m : sysenv) : st bst (bool * option errno) :=
  b ← get_st;
  if bs_init b then mret (pth_error false EPERM) else
  put_init true;;
  r ← on_w (pth_scheduler_init self pipe_err);
  if negb r.1 then mret (pth_error false EAGAIN) else
  on_w (updg (set_id 0));;
  t_attr ← on_a (pth_attr_new alloc junk);
  on_a (sched_attrs t_attr.1);;
  a ← on_a (attr_at t_attr.1);
  s ← on_w (pth_spawn self malloc env_s a SScheduler NULL);
  on_w (updg (set_scheduler s.1));;
  if bool_decide (s.1 = NULL) then init_undo t_attr.1 s.2 else
  init_main t_attr.1 s.1 env_m.
End init.

(** ** The attributes *)

Definition settable (op : attr_op) : bool :=
  match op with
  | PTH_ATTR_PRIO | PTH_ATTR_NAME | PTH_ATTR_DISPATCHES | PTH_ATTR_JOINABLE | PTH_ATTR_CANCEL_STATE
  | PTH_ATTR_STACK_SIZE | PTH_ATTR_STACK_ADDR => true
  | _ => false end.
Definition put_attr (p : addr) (x : pth_attr) (s : attrs) : attrs := Attrs (<[p := x]> (at_attr s)) (at_thread s).

Lemma attr_set_ok p x x' op v s : at_attr s !! p = Some x -> a_tid x = NULL -> settable op = true -> put_a op v x = Some x' ->
  pth_attr_set (Some p) op v s = Some (adone None, put_attr p x' s).
Proof.
  intros Hx Ht Hop Hp. unfold pth_attr_set, pth_attr_ctrl.
  assert (Er : rd_attr p s = Some (x, s)) by (unfold rd_attr; by rewrite Hx). rewrite (st_bind_Some _ _ _ _ _ Er).
  assert (Ew : attr_put p x op v s = Some (adone None, put_attr p x' s)).
  { unfold attr_put. rewrite Ht, Hp. erewrite st_bind_Some by (unfold wr_attr; rewrite Hx; reflexivity). done. }
  destruct op; try done; by rewrite bool_decide_eq_false_2 by (rewrite Ht; auto).
Qed.
Lemma attr_set_NULL op v s : pth_attr_set NULL op v s = Some (afail EINVAL, s).
Proof. done. Qed.
Lemma put_attr_put p x y s : put_attr p x (put_attr p y s) = put_attr p x s.
Proof. unfold put_attr. cbn. by rewrite insert_insert_eq. Qed.
Lemma put_attr_get p x s : at_attr (put_attr p x s) !! p = Some x.
Proof. cbn. by rewrite lookup_insert_eq. Qed.
Lemma name_fits src buf d k : pth_util_cpystrn src PTH_TCB_NAMELEN = Some (d, k) -> exists n, copy_name src buf = Some n.
Proof. unfold copy_name. intros ->. by eexists. Qed.

(** One assignment of the chain. *)
Ltac set_attr := erewrite st_bind_Some by (eapply attr_set_ok; [apply put_attr_get || eassumption|reflexivity || eassumption|reflexivity|first [eassumption|reflexivity]]);
  rewrite ?put_attr_put.

Lemma sched_attrs_ok p x s : at_attr s !! p = Some x -> a_tid x = NULL ->
  exists n, sched_attrs (Some p) s = Some (tt, put_attr p (Attr NULL PTH_PRIO_MAX (a_dispatches x) n 0 PTH_CANCEL_DISABLE 65536 NULL) s).
Proof.
  intros Hx Ht. destruct (name_fits scheduler_name (a_name x) _ _ ltac:(vm_compute; reflexivity)) as [n Hn]. exists n. unfold sched_attrs.
  set_attr. erewrite st_bind_Some by (eapply attr_set_ok; [apply put_attr_get|exact Ht|reflexivity|cbn [put_a a_name]; rewrite Hn; reflexivity]).
  rewrite put_attr_put. do 4 set_attr. cbn. by rewrite Ht.
Qed.
Lemma main_attrs_ok p x s : at_attr s !! p = Some x -> a_tid x = NULL ->
  exists n, main_attrs (Some p) s = Some (tt, put_attr p (Attr NULL PTH_PRIO_STD (a_dispatches x) n 1 PTH_CANCEL_DEFAULT 0 NULL) s).
Proof.
  intros Hx Ht. destruct (name_fits main_name (a_name x) _ _ ltac:(vm_compute; reflexivity)) as [n Hn]. exists n. unfold main_attrs.
  set_attr. erewrite st_bind_Some by (eapply attr_set_ok; [apply put_attr_get|exact Ht|reflexivity|cbn [put_a a_name]; rewrite Hn; reflexivity]).
  rewrite put_attr_put. do 4 set_attr. cbn. by rewrite Ht.
Qed.
Lemma attr_new_ok p junk s : exists n,
  pth_attr_new (Some p) junk s = Some (ok (Some p), put_attr p (Attr NULL PTH_PRIO_STD 0 n 1 PTH_CANCEL_DEFAULT (64 * 1024) NULL) s).
Proof.
  destruct (name_fits unknown (a_name junk) _ _ ltac:(vm_compute; reflexivity)) as [n Hn]. exists n. unfold pth_attr_new.
  erewrite st_bind_Some by reflexivity. cbv beta iota. erewrite st_bind_Some by (unfold rd_attr; cbn; rewrite lookup_insert_eq; reflexivity).
  erewrite st_bind_Some by (unfold wr_attr; cbn; rewrite lookup_insert_eq; reflexivity).
  erewrite st_bind_Some; [reflexivity|]. unfold pth_attr_init.
  erewrite st_bind_Some by (unfold rd_attr; cbn; rewrite lookup_insert_eq; reflexivity). cbn [a_tid a_name].
  rewrite bool_decide_eq_false_2 by auto. rewrite Hn. erewrite st_bind_Some by (unfold wr_attr; cbn; rewrite lookup_insert_eq; reflexivity).
  unfold put_attr, mret, st_ret. cbn. by rewrite !insert_insert_eq.
Qed.

(** The attributes when there is memory for them, and what the threads then
    get. *)
Definition sched_at (a : ptr) (x : option pth_attr) : Prop :=
  match a with None => x = None | Some _ => exists n, x = Some (Attr NULL PTH_PRIO_MAX 0 n 0 PTH_CANCEL_DISABLE 65536 NULL) end.
Definition main_at (a : ptr) (x : option pth_attr) : Prop :=
  match a with None => x = None | Some _ => exists n, x = Some (Attr NULL PTH_PRIO_STD 0 n 1 PTH_CANCEL_DEFAULT 0 NULL) end.
Definition with_attr (a : ptr) (x : option pth_attr) (s : attrs) : attrs :=
  match a, x with Some p, Some y => put_attr p y s | _, _ => s end.

Section chains.
Context {H U : Type}.
Abbreviation bst := (bst H U).
Lemma b_on_w {A : Type} (m : st (world H U) A) (b : bst) a w : m (bs_w b) = Some (a, w) -> on_w m b = Some (a, Bst w (bs_at b) (bs_init b)).
Proof. intros Hm. unfold on_w, zoom. by rewrite Hm. Qed.
Lemma b_on_a {A : Type} (m : st attrs A) (b : bst) a s : m (bs_at b) = Some (a, s) -> on_a m b = Some (a, Bst (bs_w b) s (bs_init b)).
Proof. intros Hm. unfold on_a, zoom. by rewrite Hm. Qed.

Lemma attr_at_ok a x s : (a = NULL <-> x = None) -> attr_at a (with_attr a x s) = Some (x, with_attr a x s).
Proof.
  intros Hx. destruct a as [p|], x as [y|]; [|by destruct Hx as [_ Hx]; specialize (Hx eq_refl)|by destruct Hx as [Hx _]; specialize (Hx eq_refl)|done].
  cbn. erewrite st_bind_Some by (unfold rd_attr, put_attr; cbn; rewrite lookup_insert_eq; reflexivity). done.
Qed.
Lemma attr_free_ok a x s : (forall p, a = Some p -> at_attr s !! p = None) -> (a = NULL <-> x = None) ->
  exists r, pth_attr_destroy a (with_attr a x s) = Some (r, s).
Proof.
  intros Hf Hx. destruct a as [p|], x as [y|]; [|by destruct Hx as [_ Hx]; specialize (Hx eq_refl)|by destruct Hx as [Hx _]; specialize (Hx eq_refl)|by eexists].
  eexists. unfold pth_attr_destroy. erewrite st_bind_Some by (unfold rd_attr, put_attr; cbn; rewrite lookup_insert_eq; reflexivity).
  erewrite st_bind_Some by reflexivity. erewrite st_bind_Some by reflexivity. cbn. rewrite delete_insert_eq, delete_id by (by apply Hf). by destruct s.
Qed.
(** From the allocation to the attributes of the scheduler's thread, and from
    these to those of the main thread. *)
Lemma sched_chain (alloc : ptr) junk (s : attrs) : exists r s1 x,
  pth_attr_new alloc junk s = Some ((alloc, r), s1) /\ sched_at alloc x /\ sched_attrs alloc s1 = Some (tt, with_attr alloc x s).
Proof.
  destruct alloc as [p|]; [|by exists (Some ENOMEM), s, None]. destruct (attr_new_ok p junk s) as [n En].
  destruct (sched_attrs_ok p _ (put_attr p (Attr NULL PTH_PRIO_STD 0 n 1 PTH_CANCEL_DEFAULT (64 * 1024) NULL) s) (put_attr_get _ _ _) eq_refl) as [n' Es].
  rewrite put_attr_put in Es. eexists _, _, (Some _). split; [exact En|]. split; [by exists n'|exact Es].
Qed.
Lemma main_chain (alloc : ptr) x (s : attrs) : sched_at alloc x -> exists y, main_at alloc y /\
  main_attrs alloc (with_attr alloc x s) = Some (tt, with_attr alloc y s).
Proof.
  destruct alloc as [p|]; [|intros ->; by exists None]. intros [n ->].
  destruct (main_attrs_ok p _ (with_attr (Some p) (Some (Attr NULL PTH_PRIO_MAX 0 n 0 PTH_CANCEL_DISABLE 65536 NULL)) s) (put_attr_get _ _ _) eq_refl) as [n' Es].
  cbn in Es. rewrite put_attr_put in Es. exists (Some (Attr NULL PTH_PRIO_STD 0 n' 1 PTH_CANCEL_DEFAULT 0 NULL)). split; [by exists n'|exact Es].
Qed.
End chains.

(** ** The ingredients *)

Section specs.
Context {H U : Type} `{!QueueOps H, !QueueLaws H, !CleanupOps H U, !SpawnOps U}.
Context (self : addr) (G E : gset addr) `{!CleanupLaws H U self G E, !SpawnLaws H U self G E}.
Context (malloc : gset addr -> ptr) (malloc_fresh : forall A a, malloc A = Some a -> a ∉ A).
Abbreviation wd := (world H U).
Abbreviation bst := (bst H U).
Abbreviation winv := (winv self G E).

Lemma winv_put_g (w : wd) Q L g : winv w Q L -> winv (set_g g w) Q L.
Proof. intros Hw. eapply winv_same; [exact Hw|eapply tinv_other; [..|apply Hw]; done|done|done]. Qed.

(** From any queues with no thread in them. *)
Lemma scheduler_init_ok (w : wd) : winv w (fun _ => []) ∅ -> exists w',
  pth_scheduler_init self None w = Some (ok true, w') /\ winv w' (fun _ => []) ∅ /\ w_tcb w' = w_tcb w /\
  w_g w' = Gsched (g_id (w_g w)) (g_main (w_g w)) NULL NULL true false (g_sigpending (w_g w)) (g_sigblock (w_g w)) (g_sigcatch (w_g w)) (g_sigraised (w_g w)) /\
  inbox_ok G self (w_inb w') [].
Proof.
  intros [[Hq _ _ Ha Hh Hj] [l Hl] Hu]. destruct (io_stack _ _ _ _ Hl) as (x & Hx & _). unfold pth_scheduler_init.
  erewrite st_bind_Some by reflexivity. erewrite st_bind_Some by reflexivity.
  erewrite st_bind_Some by (unfold on_inbox, zoom; cbn; rewrite (x_wr_inbox _ self x NULL Hx); reflexivity).
  eexists. split; [reflexivity|]. assert (Hib : inbox_ok G self (IHeap (i_nodes (w_inb w)) (<[self := NULL]> (i_inbox (w_inb w))) (i_pipe (w_inb w))) []).
  { constructor; cbn; [exists NULL; by rewrite lookup_insert_eq|constructor| |apply Hl].
    intros o Ho. destruct (io_all _ _ _ _ Hl o Ho). split; [|done]. apply lookup_insert_is_Some'. by right. }
  split; [|done]. constructor; [|by exists []|done]. constructor; cbn; try done.
  - eapply q_ext; [|by do 5 apply q_init_ok]. intros n. by destruct n.
  - intros n t Ht. by apply not_elem_of_nil in Ht.
Qed.

(** The thread of the scheduler is in no queue. *)
Lemma spawn_scheduler_ok (w : wd) Q L env attr : winv w Q L -> current_ok w -> (forall a, attr = Some a -> 0 <= a_stacksize a) ->
  exists r e w', pth_spawn self malloc env attr SScheduler NULL w = Some ((r, e), w') /\
  match r with
  | Some t => exists x, t ∉ dom (w_tcb w) /\ w_tcb w' = <[t := x]> (w_tcb w) /\ winv w' Q ({[t]} ∪ L) /\ t_home x = self /\
      (t_prio x, t_joinable x, t_cancelstate x, t_dispatches x) = spawn_attrs attr (parent_of w) /\ t_stacksize x = stack_for attr /\
      w_g w' = w_g w /\ w_inb w' = w_inb w
  | None => is_Some e /\ winv w' Q L
  end.
Proof.
  intros Hw Hcur Hsz. destruct (spawn_tcb_ok self G E malloc malloc_fresh w Q L env attr SScheduler NULL Hw Hcur Hsz) as (r & w1 & E1 & Hs).
  unfold pth_spawn, pth_spawn_common. rewrite (st_bind_Some _ _ _ _ _ E1).
  destruct Hs as [(t & n & -> & Ht & Hsn & ->)|[[e ->] Hun]]; [|exists NULL, (Some e), w1; split; [done|]; by destruct Hun].
  cbn [fst]. rewrite bool_decide_eq_false_2 by done. eexists (Some t), None, _. split; [reflexivity|].
  set (x := new_tcb _ _ _ _ _ _). exists x. assert (Hx : t_home x = self /\ t_join_waitq x = pth_waitq_init /\ t_stacksize x = n_stacksize n /\
    (t_prio x, t_joinable x, t_cancelstate x, t_dispatches x) = spawn_attrs attr (parent_of w))
    by (unfold x, new_tcb; by destruct (spawn_attrs _ _) as [[[? ?] ?] ?]).
  destruct Hx as (Hx1 & Hx2 & Hx3 & Hx4). split_and!; try done; [by eapply winv_add|congruence].
Qed.

Lemma undo_ok (b : bst) (alloc : ptr) x s e L : winv (bs_w b) (fun _ => []) L -> bs_at b = with_attr alloc x s ->
  (forall p, alloc = Some p -> at_attr s !! p = None) -> (alloc = NULL <-> x = None) ->
  exists w', init_undo alloc e b = Some ((false, e), Bst w' s (bs_init b)) /\ winv w' (fun _ => []) L.
Proof.
  intros Hw Hb Hf Hx. destruct (attr_free_ok alloc x s Hf Hx) as [r Er]. unfold init_undo.
  rewrite (st_bind_Some _ _ _ _ _ (b_on_a _ b r s ltac:(by rewrite Hb))).
  destruct (drop_correct self G E malloc malloc_fresh (bs_w b) _ L Hw) as (w' & Ed & Hw' & _). exists w'.
  rewrite (st_bind_Some _ _ _ _ _ (b_on_w _ (Bst (bs_w b) s (bs_init b)) tt w' Ed)). done.
Qed.
Lemma sched_at_none a x : sched_at a x -> (a = NULL <-> x = None).
Proof. destruct a; cbn; [intros [n ->]; by split|by intros ->]. Qed.
Lemma main_at_none a x : main_at a x -> (a = NULL <-> x = None).
Proof. destruct a; cbn; [intros [n ->]; by split|by intros ->]. Qed.

Lemma no_threads_parent (w : wd) : g_current (w_g w) = NULL -> parent_of w = None /\ current_ok w.
Proof. intros Hc. unfold parent_of, current_ok. by rewrite Hc. Qed.

(** The second half. *)
Lemma init_main_ok (b : bst) (alloc : ptr) x s xs at0 env : winv (bs_w b) (fun _ => []) {[s]} -> g_current (w_g (bs_w b)) = NULL ->
  bs_at b = with_attr alloc x at0 -> sched_at alloc x -> (forall p, alloc = Some p -> at_attr at0 !! p = None) ->
  w_tcb (bs_w b) !! s = Some xs ->
  exists (r : bool) e w', init_main self malloc alloc (Some s) env b = Some ((r, e), Bst w' at0 (bs_init b)) /\
  if r then e = None /\ exists m xm, m ∉ dom (w_tcb (bs_w b)) /\ w_tcb w' = <[m := xm]> (w_tcb (bs_w b)) /\
    winv w' (qupd NQ [(m, PTH_PRIO_STD)] (fun _ => [])) {[s]} /\ w_g w' = set_current (Some s) (set_main (Some m) (w_g (bs_w b))) /\
    w_inb w' = w_inb (bs_w b) /\ t_state xm = PTH_STATE_NEW /\ t_start xm = NULL /\
    (t_prio xm, t_joinable xm, t_cancelstate xm) = (PTH_PRIO_STD, true, PTH_CANCEL_DEFAULT) /\ (alloc <> NULL -> t_stacksize xm = 0)
  else is_Some e /\ winv w' (fun _ => []) {[s]}.
Proof.
  intros Hw Hc Hat Hx Hf Hxs. destruct (main_chain alloc x at0 Hx) as (y & Hy & Em). unfold init_main. destruct b as [w at1 i]. cbn [bs_w bs_at bs_init] in *. subst at1.
  rewrite (st_bind_Some _ _ _ _ _ (b_on_a _ (Bst w _ i) _ _ Em)). cbn [bs_w bs_at bs_init].
  rewrite (st_bind_Some _ _ _ _ _ (b_on_a _ (Bst w _ i) _ _ (attr_at_ok alloc y at0 (main_at_none alloc y Hy)))). cbn [bs_w bs_at bs_init].
  destruct (no_threads_parent w Hc) as [Hpar Hcur].
  destruct (spawn_ok self G E malloc malloc_fresh w _ _ env y SMain NULL Hw Hcur ltac:(done)) as (r & e & w1 & E1 & Hr).
  { intros a ->. destruct alloc; cbn in Hy; [|done]. destruct Hy as [n [= ->]]. done. }
  rewrite (st_bind_Some _ _ _ _ _ (b_on_w _ (Bst w _ i) _ _ E1)). cbn [fst snd bs_w bs_at bs_init].
  rewrite (st_bind_Some _ _ _ _ _ (b_on_w _ (Bst w1 _ i) tt _ eq_refl)). cbn [bs_w bs_at bs_init].
  destruct r as [m|].
  - destruct Hr as (xm & -> & Hm & Htc & Hw1 & Hattr & _ & Hst & Hsf & _ & _ & _ & _ & _ & _ & Hsz & _ & Hib & Hg).
    rewrite bool_decide_eq_false_2 by done. destruct (attr_free_ok alloc y at0 Hf (main_at_none alloc y Hy)) as [r Er].
    rewrite (st_bind_Some _ _ _ _ _ (b_on_a _ (Bst _ _ i) _ _ Er)). cbn [bs_w bs_at bs_init].
    rewrite (st_bind_Some _ _ _ _ _ (b_on_w _ (Bst _ _ i) tt _ eq_refl)). cbn [bs_w bs_at bs_init].
    eexists true, None, _. split; [reflexivity|]. split; [done|]. exists m, xm. rewrite Hpar in Hattr.
    assert (Hp : t_prio xm = PTH_PRIO_STD /\ (t_prio xm, t_joinable xm, t_cancelstate xm) = (PTH_PRIO_STD, true, PTH_CANCEL_DEFAULT) /\
      (alloc <> NULL -> t_stacksize xm = 0)).
    { destruct alloc as [p|]; cbn in Hy; [destruct Hy as [n ->]|subst y]; cbn in Hattr; injection Hattr as -> -> -> _; by split_and!. }
    destruct Hp as (Hp1 & Hp2 & Hp3). rewrite Hp1 in Hw1. split_and!; try done.
    + apply winv_put_g, winv_put_g. exact Hw1.
    + cbn. by rewrite Hg.
  - destruct Hr as (He & Hw1 & _). rewrite bool_decide_eq_true_2 by done.
    destruct (undo_ok (Bst (set_g (set_main NULL (w_g w1)) w1) (with_attr alloc y at0) i) alloc y at0 e {[s]} (winv_put_g _ _ _ _ Hw1) eq_refl Hf (main_at_none alloc y Hy))
      as (w2 & E2 & Hw2). exists false, e, w2. by split.
Qed.

(** C19: [pth_init] brings up a scheduler that has nothing but its own thread,
    in no queue, and the main thread, new and in the new queue: the first
    unjoinable, not to be cancelled and of the highest priority, the second
    without a stack of its own, joinable and with the usual priority and
    cancelability. Its inbox is empty, the attributes used on the way are given
    back, and the invariant of threads and queues holds. If it fails - no
    pipe, no memory or machine context for one of the two threads - the error
    is returned, and no thread is in a queue. Either way the library counts as
    initialized. *)
Theorem init_correct pipe_err alloc junk env_s env_m (b : bst) :
  bs_init b = false -> winv (bs_w b) (fun _ => []) ∅ -> (forall p, alloc = Some p -> at_attr (bs_at b) !! p = None) ->
  exists (r : bool) e b', pth_init self malloc pipe_err alloc junk env_s env_m b = Some ((r, e), b') /\ bs_init b' = true /\ bs_at b' = bs_at b /\
  if r then e = None /\ pipe_err = None /\ exists s m xs xm,
    w_tcb (bs_w b') = <[m := xm]> (<[s := xs]> (w_tcb (bs_w b))) /\ s <> m /\ winv (bs_w b') (qupd NQ [(m, PTH_PRIO_STD)] (fun _ => [])) {[s]} /\
    (let g := w_g (bs_w b') in (g_id g, g_main g, g_scheduler g, g_current g, g_favournew g, g_stop g) = (0, Some m, Some s, Some s, true, false)) /\
    inbox_ok G self (w_inb (bs_w b')) [] /\ t_state xm = PTH_STATE_NEW /\ t_start xm = NULL /\
    (t_prio xm, t_joinable xm, t_cancelstate xm) = (PTH_PRIO_STD, true, PTH_CANCEL_DEFAULT) /\
    (alloc <> NULL -> t_stacksize xm = 0 /\ t_stacksize xs = 65536 /\
      (t_prio xs, t_joinable xs, t_cancelstate xs) = (PTH_PRIO_MAX, false, PTH_CANCEL_DISABLE))
  else is_Some e /\ exists L, winv (bs_w b') (fun _ => []) L.
Proof.
  intros Hb Hw Hf. unfold pth_init. rewrite (st_bind_Some get_st _ b b b eq_refl), Hb.
  rewrite (st_bind_Some (put_init true) _ b tt (Bst (bs_w b) (bs_at b) true) eq_refl).
  destruct pipe_err as [pe|].
  { exists false, (Some EAGAIN), (Bst (bs_w b) (bs_at b) true). rewrite (st_bind_Some _ _ _ _ _ (b_on_w _ (Bst (bs_w b) (bs_at b) true) _ (bs_w b) eq_refl)).
    split; [done|]. split; [done|]. split; [done|]. split; [by eexists|]. by exists ∅. }
  destruct (scheduler_init_ok (bs_w b) Hw) as (w1 & E1 & Hw1 & Ht1 & Hg1 & Hi1).
  rewrite (st_bind_Some _ _ _ _ _ (b_on_w _ (Bst (bs_w b) (bs_at b) true) _ w1 E1)). cbn [fst ok negb bs_w bs_at bs_init].
  set (w2 := set_g (set_id 0 (w_g w1)) w1).
  rewrite (st_bind_Some _ _ _ _ _ (b_on_w _ (Bst w1 (bs_at b) true) tt w2 eq_refl)).
  assert (Hw2 : winv w2 (fun _ => []) ∅) by (by apply winv_put_g).
  destruct (sched_chain alloc junk (bs_at b)) as (r0 & s1 & x & En & Hx & Es).
  rewrite (st_bind_Some _ _ _ _ _ (b_on_a _ (Bst w2 (bs_at b) true) _ s1 En)). cbn [fst].
  rewrite (st_bind_Some _ _ _ _ _ (b_on_a _ (Bst w2 s1 true) _ _ Es)). cbn [bs_w bs_at bs_init].
  rewrite (st_bind_Some _ _ _ _ _ (b_on_a _ (Bst w2 _ true) _ _ (attr_at_ok alloc x (bs_at b) (sched_at_none alloc x Hx)))). cbn [bs_w bs_at bs_init].
  destruct (no_threads_parent w2 ltac:(unfold w2; cbn; by rewrite Hg1)) as [Hpar Hcur].
  destruct (spawn_scheduler_ok w2 _ _ env_s x Hw2 Hcur) as (r & e & w3 & E3 & Hr).
  { intros a ->. destruct alloc; cbn in Hx; [|done]. destruct Hx as [n [= ->]]. done. }
  rewrite (st_bind_Some _ _ _ _ _ (b_on_w _ (Bst w2 _ true) _ _ E3)). cbn [fst snd bs_w bs_at bs_init].
  rewrite (st_bind_Some _ _ _ _ _ (b_on_w _ (Bst w3 _ true) tt _ eq_refl)). cbn [bs_w bs_at bs_init].
  set (w4 := set_g _ w3). destruct r as [s|].
  - destruct Hr as (xs & Hs & Htc & Hw3 & Hsh & Hattr & Hsz & Hg & Hib). rewrite bool_decide_eq_false_2 by done. rewrite right_id_L in Hw3 by apply _.
    destruct (init_main_ok (Bst w4 (with_attr alloc x (bs_at b)) true) alloc x s xs (bs_at b) env_m) as (r & e' & w5 & E5 & Hr); try done.
    { by apply winv_put_g. }
    { unfold w4. cbn. rewrite Hg. unfold w2. cbn. by rewrite Hg1. }
    { cbn. by rewrite Htc, lookup_insert_eq. }
    exists r, e', (Bst w5 (bs_at b) true). split; [exact E5|]. split; [done|]. split; [done|]. destruct r.
    + destruct Hr as (-> & m & xm & Hm & Htm & Hwm & Hgm & Hibm & H1 & H2 & H3 & H4). split; [done|]. split; [done|]. exists s, m, xs, xm.
      assert (Ht : w_tcb w4 = <[s := xs]> (w_tcb (bs_w b))) by (unfold w4; cbn [set_g w_tcb]; rewrite Htc; unfold w2; cbn [set_g w_tcb]; by rewrite Ht1).
      cbn [bs_w] in *. rewrite Ht in Hm, Htm. split_and!; try done.
      * intros ->. apply Hm. rewrite dom_insert_L. set_solver.
      * rewrite Hgm. unfold w4. cbn. rewrite Hg. unfold w2. cbn. by rewrite Hg1.
      * rewrite Hibm. unfold w4. cbn. by rewrite Hib.
      * intros Ha. split; [by apply H4|]. destruct alloc as [p|]; [|done]. cbn in Hx. destruct Hx as [n ->].
        split; [by rewrite Hsz|]. rewrite Hpar in Hattr. by injection Hattr as -> -> -> _.
    + destruct Hr as [He' Hw5]. split; [done|by exists {[s]}].
  - rewrite bool_decide_eq_true_2 by done. destruct Hr as [He Hw3].
    destruct (undo_ok (Bst w4 (with_attr alloc x (bs_at b)) true) alloc x (bs_at b) e ∅ (winv_put_g _ _ _ _ Hw3) eq_refl Hf (sched_at_none alloc x Hx)) as (w5 & E5 & Hw5).
    exists false, e, (Bst w5 (bs_at b) true). split; [exact E5|]. split; [done|]. split; [done|]. split; [done|by exists ∅].
Qed.

(** The threads of other schedulers stay. *)
Definition foreign (w w' : wd) : Prop :=
  forall t x, w_tcb w !! t = Some x -> t_home x <> self -> exists x', w_tcb w' !! t = Some x' /\ t_home x' = t_home x.
Lemma foreign_trans w1 w2 w3 : foreign w1 w2 -> foreign w2 w3 -> foreign w1 w3.
Proof.
  intros H1 H2 t x Hx Hh. destruct (H1 t x Hx Hh) as (y & Hy & Hyh). destruct (H2 t y Hy ltac:(congruence)) as (z & Hz & Hzh).
  exists z. split; [done|congruence].
Qed.
Lemma free_loose (w : wd) L t : winv w (fun _ => []) L -> t ∈ L -> exists w', pth_tcb_free (Some t) w = Some (tt, w') /\
  winv w' (fun _ => []) (L ∖ {[t]}) /\ foreign w w'.
Proof.
  intros Hw Ht. destruct (ti_loose _ _ _ _ _ (wi_t _ _ _ _ _ _ Hw) t Ht) as (_ & x & Hx & Hxh).
  destruct (tcb_free_ok self G E w _ L t x Hw Ht Hx) as (w1 & w' & E' & Hw' & Hq & Htc & _). exists w'. split; [done|]. split; [done|].
  intros u y Hy Hyh. destruct (qu_tcb _ _ _ _ _ Hq u y Hy) as (y' & Hy' & Hh & _). exists y'. rewrite Htc, lookup_delete_ne; [done|]. congruence.
Qed.

End specs.

(** ** A start and an end *)

Definition boot_w0 : dworld := World no_queues ∅ ∅ (w_ev demo_w0) demo_ib
  (Gsched 7 NULL NULL (Some 5%positive) false true ∅ ∅ ∅ ∅) ∅ (Clst ∅ 11 []).
Definition boot_b0 : bst queues dstate := Bst boot_w0 (Attrs ∅ ∅) false.
Definition boot_junk : pth_attr := Attr (Some 3%positive) 9 9 (replicate 40 0) 9 9 9 NULL.

Lemma boot_w0_inv : winv 1 demo_G demo_E boot_w0 (fun _ => []) ∅.
Proof.
  assert (Hi := wi_inb _ _ _ _ _ _ demo_inv0). constructor; [|exact Hi|done]. constructor; cbn; try done.
  - apply no_queues_rep.
  - intros n t H. by apply not_elem_of_nil in H.
  - exists (fun _ => []). by constructor.
Qed.

Lemma init_correct_witness : exists w' s m, pth_init 1 demo_malloc None (Some 60%positive) boot_junk demo_env demo_env boot_b0
    = Some (ok true, Bst w' (Attrs ∅ ∅) true) /\
  g_main (w_g w') = Some m /\ g_scheduler (w_g w') = Some s /\ winv 1 demo_G demo_E w' (qupd NQ [(m, PTH_PRIO_STD)] (fun _ => [])) {[s]}.
Proof.
  destruct (init_correct 1 demo_G demo_E demo_malloc demo_malloc_fresh None (Some 60%positive) boot_junk demo_env demo_env boot_b0 eq_refl boot_w0_inv
    ltac:(done)) as (r & e & b' & E' & Hi & Ha & Hr).
  assert (He : exists w', pth_init 1 demo_malloc None (Some 60%positive) boot_junk demo_env demo_env boot_b0 = Some (ok true, Bst w' (Attrs ∅ ∅) true))
    by (eexists; vm_compute; reflexivity).
  destruct He as [w' He]. rewrite He in E'. injection E' as <- <- <-. destruct Hr as (_ & _ & s & m & xs & xm & _ & _ & Hw & Hg & _).
  exists w', s, m. split; [exact He|]. cbn in Hg. injection Hg as _ Hg1 Hg2 _ _ _. split; [exact Hg1|]. split; [exact Hg2|exact Hw].
Defined.


(** A failure is for good: the library counts as initialized, and the next call
    is refused. *)
Lemma init_fails_for_good e alloc junk env_s env_m (b : bst queues dstate) : bs_init b = false -> exists b',
  pth_init 1 demo_malloc (Some e) alloc junk env_s env_m b = Some (pth_error false EAGAIN, b') /\
  pth_init 1 demo_malloc None alloc junk env_s env_m b' = Some (pth_error false EPERM, b').
Proof. intros Hb. destruct b as [w a i]. cbn in Hb. subst i. eexists. by split. Qed.

(** Without memory for the main thread the control block of the scheduler's
    thread is left behind. *)
Definition malloc_once (A : gset addr) : ptr := if decide (A = ∅) then Some 50%positive else NULL.
Lemma init_leaks_scheduler : exists b', pth_init 1 malloc_once None (Some 60%positive) boot_junk demo_env demo_env boot_b0
    = Some (pth_error false ENOMEM, b') /\ dom (w_tcb (bs_w b')) = {[50%positive]} /\ g_scheduler (w_g (bs_w b')) = Some 50%positive.
Proof. eexists. split; [vm_compute; reflexivity|]. split; vm_compute; reflexivity. Qed.
