(* ===== verification/Mctx.v ===== *)
(** * Machine contexts (src/pth_mctx.c, the variant on Boost.Context)

    The assembler behind [jump_fcontext] knows nothing but suspended stacks: a
    jump takes the stack it goes to out of suspension, once, and puts the own
    one in. What makes contexts of them - who is resumed by what, with which
    [errno] and which signal mask - is the code here. It is shown to refine
    contexts that simply have their own [errno] and mask. *)

From stdpp Require Import base numbers gmap list.
From S2P Require Import Prelude.
Open Scope Z_scope.

(** A suspended stack: a fresh one, at [pth_bctx_entry]; one in
    [pth_mctx_switch_bctx] with its argument [old], and what it does when that
    returns; one that was left for good. *)
Inductive cont (F : Type) := CEntry | CSwitch (old : addr) (f : F) | CLeft.
Arguments CEntry {F}. Arguments CSwitch {F}. Arguments CLeft {F}.

Record mctx := MCtx { mc_fc : ptr; mc_func : addr; mc_sysmask : gset Z; mc_error : errno }.
Definition set_fc (v : ptr) (c : mctx) : mctx := MCtx v (mc_func c) (mc_sysmask c) (mc_error c).
Definition set_error (v : errno) (c : mctx) : mctx := MCtx (mc_fc c) (mc_func c) (mc_sysmask c) v.
Definition set_sysmask (v : gset Z) (c : mctx) : mctx := MCtx (mc_fc c) (mc_func c) v (mc_error c).

(** [m_self]: the variable [pth_bctx_self]; [m_mask], [m_errno]: of the OS
    thread. *)
Record mach (F : Type) := Mach {
  m_ctx : gmap addr mctx; m_conts : gmap addr (cont F); m_self : ptr; m_mask : gset Z; m_errno : errno
}.
Arguments Mach {F}. Arguments m_ctx {F}. Arguments m_conts {F}. Arguments m_self {F}. Arguments m_mask {F}. Arguments m_errno {F}.

(** What runs after a switch: an entry function, or what follows a switch that
    returned. *)
Inductive run (F : Type) := RFunc (func : addr) | RFrame (f : F).
Arguments RFunc {F}. Arguments RFrame {F}.

Section mctx.
Context {F : Type}.
(** Where the next suspended stack is; [pth_bctx_trash]. *)
Context (stack : gset addr -> addr) (trash : addr).
Abbreviation mach := (mach F).

Definition rd_ctx (a : addr) : st mach mctx :=
  fun s => match m_ctx s !! a with Some c => Some (c, s) | None => None end.
Definition upd_ctx (a : addr) (f : mctx -> mctx) : st mach unit :=
  fun s => match m_ctx s !! a with
           | Some c => Some (tt, Mach (<[a := f c]> (m_ctx s)) (m_conts s) (m_self s) (m_mask s) (m_errno s))
           | None => None end.
Definition put_self (v : ptr) : st mach unit := fun s => Some (tt, Mach (m_ctx s) (m_conts s) v (m_mask s) (m_errno s)).
Definition put_mask (v : gset Z) : st mach unit := fun s => Some (tt, Mach (m_ctx s) (m_conts s) (m_self s) v (m_errno s)).
Definition put_errno (v : errno) : st mach unit := fun s => Some (tt, Mach (m_ctx s) (m_conts s) (m_self s) (m_mask s) v).

(** ** The assembler

    [me]: the own stack. The result is the stack that goes on, with the token
    of the one that was left. *)
Definition jump_fcontext (to : ptr) (me : cont F) : st mach (cont F * addr) :=
  fun s => match to with
           | None => None
           | Some x =>
               match m_conts s !! x with
               | None => None
               | Some k =>
                   let rest := delete x (m_conts s) in
                   let t := stack (dom (m_conts s)) in
                   Some ((k, t), Mach (m_ctx s) (<[t := me]> rest) (m_self s) (m_mask s) (m_errno s))
               end
           end.
Definition make_fcontext : st mach ptr :=
  fun s => let t := stack (dom (m_conts s)) in
           Some (Some t, Mach (m_ctx s) (<[t := CEntry]> (m_conts s)) (m_self s) (m_mask s) (m_errno s)).

(** ** The code *)

(** The stack [k] goes on, from a jump that passed [data]. *)
Definition pth_bctx_entry (data t : addr) : st mach (run F) :=
  upd_ctx data (set_fc (Some t));;
  s ← get_st;
  match m_self s with
  | None => undef
  | Some self => c ← rd_ctx self; put_errno (mc_error c);; mret (RFunc (mc_func c))
  end.
Definition switch_resumed (old : addr) (f : F) (data t : addr) : st mach (run F) :=
  upd_ctx data (set_fc (Some t));;
  c ← rd_ctx old;
  put_errno (mc_error c);;
  mret (RFrame f).
Definition goes_on (k : cont F) (data t : addr) : st mach (run F) :=
  match k with
  | CEntry => pth_bctx_entry data t
  | CSwitch old f => switch_resumed old f data t
  | CLeft => undef
  end.

(** [f]: what follows in the caller. The mask is read before it is written, as
    the system call does it. *)
Definition pth_mctx_switch_bctx (old new : addr) (f : F) : st mach (run F) :=
  s ← get_st;
  upd_ctx old (set_error (m_errno s));;
  c ← rd_ctx new;
  put_mask (mc_sysmask c);;
  upd_ctx old (set_sysmask (m_mask s));;
  put_self (Some new);;
  c ← rd_ctx new;
  x ← jump_fcontext (mc_fc c) (CSwitch old f);
  goes_on x.1 old x.2.
Definition pth_mctx_restore_bctx (a : addr) : st mach (run F) :=
  c ← rd_ctx a;
  put_mask (mc_sysmask c);;
  put_errno (mc_error c);;
  put_self (Some a);;
  x ← jump_fcontext (mc_fc c) CLeft;
  goes_on x.1 trash x.2.

(** [made]: whether [make_fcontext] succeeds. *)
Definition pth_mctx_set (made : bool) (a func : addr) : st mach bool :=
  fc ← (if made then make_fcontext else mret NULL);
  upd_ctx a (set_fc fc);;
  if bool_decide (fc = NULL) then mret false else
  s ← get_st;
  upd_ctx a (fun c => MCtx (mc_fc c) func (m_mask s) (m_errno s));;
  mret true.
End mctx.

(** ** Contexts with an [errno] and a mask of their own *)

Inductive place (F : Type) := PStart (func : addr) | PFrame (f : F).
Arguments PStart {F}. Arguments PFrame {F}.
Record priv (F : Type) := Priv { p_errno : errno; p_mask : gset Z; p_at : place F }.
Arguments Priv {F}. Arguments p_errno {F}. Arguments p_mask {F}. Arguments p_at {F}.
(** The contexts that can be switched to, and the [errno] and mask of the one
    that runs. *)
Record amach (F : Type) := AMach { a_ready : gmap addr (priv F); a_mask : gset Z; a_errno : errno }.
Arguments AMach {F}. Arguments a_ready {F}. Arguments a_mask {F}. Arguments a_errno {F}.

Definition run_of {F : Type} (p : place F) : run F := match p with PStart func => RFunc func | PFrame f => RFrame f end.
Definition a_enter {F : Type} (x : addr) (p : priv F) (a : amach F) : amach F := AMach (delete x (a_ready a)) (p_mask p) (p_errno p).
Definition a_suspend {F : Type} (x : addr) (pl : place F) (a : amach F) : amach F :=
  AMach (<[x := Priv (a_errno a) (a_mask a) pl]> (a_ready a)) (a_mask a) (a_errno a).
(** Suspend the one, enter the other. *)
Definition a_switch {F : Type} (old new : addr) (f : F) (a : amach F) : option (place F * amach F) :=
  p ← a_ready a !! new; Some (p_at p, a_enter new p (a_suspend old (PFrame f) a)).
Definition a_restore {F : Type} (x : addr) (a : amach F) : option (place F * amach F) :=
  p ← a_ready a !! x; Some (p_at p, a_enter x p a).

Section refine.
Context {F : Type} (stack : gset addr -> addr) (trash : addr) (stack_fresh : forall A, stack A ∉ A).
Abbreviation mach := (mach F).
Abbreviation amach := (amach F).

(** The continuation of a context that is ready is its own. *)
Definition held (s : mach) (x t : addr) (c : mctx) (p : priv F) : Prop :=
  m_ctx s !! x = Some c /\ mc_fc c = Some t /\ mc_error c = p_errno p /\ mc_sysmask c = p_mask p /\
  match p_at p with
  | PStart func => m_conts s !! t = Some CEntry /\ mc_func c = func
  | PFrame f => m_conts s !! t = Some (CSwitch x f)
  end.
Record mrel (s : mach) (a : amach) : Prop := {
  mr_errno : m_errno s = a_errno a;
  mr_mask : m_mask s = a_mask a;
  mr_ready : forall x p, a_ready a !! x = Some p -> exists c t, held s x t c p;
  mr_apart : forall x y c d t, is_Some (a_ready a !! x) -> is_Some (a_ready a !! y) ->
    m_ctx s !! x = Some c -> m_ctx s !! y = Some d -> mc_fc c = Some t -> mc_fc d = Some t -> x = y;
  mr_trash : is_Some (m_ctx s !! trash) /\ a_ready a !! trash = None
}.

Lemma held_live s x t c p : held s x t c p -> exists k, m_conts s !! t = Some k.
Proof. intros (_ & _ & _ & _ & H). destruct (p_at p); [destruct H|]; by eexists. Qed.
Lemma x_rd_ctx (s : mach) x c : m_ctx s !! x = Some c -> rd_ctx x s = Some (c, s).
Proof. intros H. unfold rd_ctx. by rewrite H. Qed.
Lemma x_upd_ctx (s : mach) x f c : m_ctx s !! x = Some c ->
  upd_ctx x f s = Some (tt, Mach (<[x := f c]> (m_ctx s)) (m_conts s) (m_self s) (m_mask s) (m_errno s)).
Proof. intros H. unfold upd_ctx. by rewrite H. Qed.

(** The stack of [x] goes on: what it finds, and what becomes of the stack that
    was left with [data]. *)
Lemma goes_on_ok (s : mach) x t c p data d u : held s x t c p -> m_self s = Some x -> m_errno s = m_errno s ->
  m_ctx s !! data = Some d -> data <> x -> exists k, m_conts s !! t = Some k /\
  forall conts', goes_on k data u (Mach (m_ctx s) conts' (m_self s) (m_mask s) (m_errno s))
    = Some (run_of (p_at p), Mach (<[data := set_fc (Some u) d]> (m_ctx s)) conts' (m_self s) (m_mask s) (p_errno p)).
Proof.
  intros (Hc & Hfc & He & Hm & Hk) Hs _ Hd Hne. destruct (p_at p) as [func|f]; [destruct Hk as [Hk Hf]|]; eexists; (split; [exact Hk|]); intros conts'; cbn [goes_on].
  - unfold pth_bctx_entry. erewrite st_bind_Some by (apply x_upd_ctx; exact Hd). erewrite st_bind_Some by reflexivity. cbn [m_self m_ctx]. rewrite Hs.
    erewrite st_bind_Some by (apply x_rd_ctx; cbn; rewrite lookup_insert_ne by done; exact Hc). erewrite st_bind_Some by reflexivity.
    cbn. by rewrite He, Hf.
  - unfold switch_resumed. erewrite st_bind_Some by (apply x_upd_ctx; exact Hd).
    erewrite st_bind_Some by (apply x_rd_ctx; cbn; rewrite lookup_insert_ne by done; exact Hc). erewrite st_bind_Some by reflexivity.
    cbn. by rewrite He.
Qed.
Lemma jump_ok (s : mach) x t me k : m_conts s !! t = Some k -> mc_fc x = Some t ->
  jump_fcontext stack (mc_fc x) me s = Some ((k, stack (dom (m_conts s))),
    Mach (m_ctx s) (<[stack (dom (m_conts s)) := me]> (delete t (m_conts s))) (m_self s) (m_mask s) (m_errno s)).
Proof. intros Hk ->. unfold jump_fcontext. by rewrite Hk. Qed.

(** Other contexts do not notice. *)
Lemma held_same (s s' : mach) x t c p : held s x t c p -> m_ctx s' !! x = Some c -> m_conts s' !! t = m_conts s !! t -> held s' x t c p.
Proof. intros (H1 & H2 & H3 & H4 & H5) Hx Ht. split_and!; try done. by destruct (p_at p); rewrite Ht. Qed.

(** What stays ready is not touched. *)
Lemma mrel_frame (s s' : mach) (a : amach) R : mrel s a -> R ⊆ a_ready a ->
  (forall y t c p, R !! y = Some p -> held s y t c p -> m_ctx s' !! y = Some c /\ m_conts s' !! t = m_conts s !! t) ->
  is_Some (m_ctx s' !! trash) -> mrel s' (AMach R (m_mask s') (m_errno s')).
Proof.
  intros [He Hm Hr Ha [Ht1 Ht2]] HR Hs Ht. constructor; cbn; try done.
  - intros x p Hx. destruct (Hr x p) as (c & t & Hh); [by eapply lookup_weaken|]. exists c, t. destruct (Hs x t c p Hx Hh).
    by apply (held_same s).
  - assert (Hc : forall x c, is_Some (R !! x) -> m_ctx s' !! x = Some c -> is_Some (a_ready a !! x) /\ m_ctx s !! x = Some c).
    { intros x c [p Hx] Hc. assert (Hx' : a_ready a !! x = Some p) by (by eapply lookup_weaken). split; [by eexists|].
      destruct (Hr x p Hx') as (d & t & Hh). destruct (Hs x t d p Hx Hh) as [Hd _]. destruct Hh as [Hd' _]. congruence. }
    intros x y c d t Hx Hy Hcx Hdy. destruct (Hc x c Hx Hcx), (Hc y d Hy Hdy). by apply Ha.
  - split; [done|]. destruct (R !! trash) as [p|] eqn:E; [|done]. eapply lookup_weaken in E; [|exact HR]. congruence.
Qed.
(** Another context becomes ready. *)
Lemma mrel_add (s : mach) R k e x u c p : mrel s (AMach R k e) -> R !! x = None -> x <> trash -> held s x u c p ->
  (forall y q d v, R !! y = Some q -> held s y v d q -> v <> u) -> mrel s (AMach (<[x := p]> R) k e).
Proof.
  intros [He Hm Hr Ha [Ht1 Ht2]] Hx Hxt Hh Hu. cbn in *. constructor; cbn; try done.
  - intros y q [[<- <-]|[_ Hy]]%lookup_insert_Some; [by exists c, u|by apply Hr].
  - assert (Hne : forall y d v, y <> x -> is_Some (<[x := p]> R !! y) -> m_ctx s !! y = Some d -> mc_fc d = Some v -> is_Some (R !! y) /\ v <> u).
    { intros y d v Hyx [q Hq] Hd Hv. rewrite lookup_insert_ne in Hq by done. split; [by eexists|].
      destruct (Hr y q Hq) as (d' & v' & Hh'). assert (Hv' := Hu y q d' v' Hq Hh'). destruct Hh' as (Hd' & Hfc & _). congruence. }
    intros y z d g v Hy Hz Hd Hez Hv Hw. destruct Hh as (Hc & Hfc & _). destruct (decide (y = x)) as [->|Hyx], (decide (z = x)) as [->|Hzx]; [done|..].
    + destruct (Hne z g v Hzx Hz Hez Hw). congruence.
    + destruct (Hne y d v Hyx Hy Hd Hv). congruence.
    + destruct (Hne y d v Hyx Hy Hd Hv), (Hne z g v Hzx Hz Hez Hw). by apply (Ha y z d g v).
  - split; [done|]. by rewrite lookup_insert_ne.
Qed.

Lemma ready_apart (s : mach) (a : amach) x y c d t v p q : mrel s a -> a_ready a !! x = Some p -> a_ready a !! y = Some q -> x <> y ->
  held s x t c p -> held s y v d q -> v <> t.
Proof. intros Hm Hx Hy Hne (Hc & Hfc & _) (Hd & Hfd & _) ->. apply Hne. by apply (mr_apart _ _ Hm x y c d t); [eexists|eexists|..]. Qed.
Lemma ready_old (s : mach) (a : amach) y d v q : held s y v d q -> v <> stack (dom (m_conts s)).
Proof. intros Hh ->. destruct (held_live _ _ _ _ _ Hh) as [k Hk]. by apply (stack_fresh (dom (m_conts s))), elem_of_dom. Qed.

(** Entering [new], with the stack that is left at [data]. *)
Lemma mrel_enter (s : mach) (a : amach) new t c p data d me R self : mrel s a -> a_ready a !! new = Some p -> held s new t c p ->
  R ⊆ a_ready a -> R !! new = None -> R !! data = None -> is_Some (m_ctx s !! data) ->
  mrel (Mach (<[data := d]> (m_ctx s)) (<[stack (dom (m_conts s)) := me]> (delete t (m_conts s))) self (p_mask p) (p_errno p)) (AMach R (p_mask p) (p_errno p)).
Proof.
  intros Hm Hp Hh HR Hn Hd Hda. apply (mrel_frame s (Mach (<[data := d]> (m_ctx s)) (<[stack (dom (m_conts s)) := me]> (delete t (m_conts s))) self (p_mask p) (p_errno p)) a R Hm HR); cbn.
  - intros y v e q Hy He. assert (Hy' : a_ready a !! y = Some q) by (by eapply lookup_weaken). split.
    + rewrite lookup_insert_ne by congruence. apply He.
    + assert (v <> t) by (apply (ready_apart s a new y c e t v p q Hm Hp Hy'); [congruence|done|done]). pose proof (ready_old s a y e v q He).
      by rewrite lookup_insert_ne, lookup_delete_ne by done.
  - apply lookup_insert_is_Some'. right. by apply (mr_trash _ _ Hm).
Qed.

Lemma switch_refines (s : mach) (a : amach) old new f : mrel s a -> old <> new -> old <> trash -> is_Some (m_ctx s !! old) -> is_Some (a_ready a !! new) ->
  exists p a' s', a_switch old new f a = Some (p, a') /\ pth_mctx_switch_bctx stack old new f s = Some (run_of p, s') /\ mrel s' a' /\
    dom (m_ctx s') = dom (m_ctx s).
Proof.
  intros Hm Hon Hot [co Hco] [p Hp]. destruct (mr_ready _ _ Hm new p Hp) as (c & t & Hh). assert (Hh0 := Hh). destruct Hh0 as (Hc & Hfc & _ & Hsm & _).
  unfold a_switch. rewrite Hp. cbn [mbind option_bind]. eexists (p_at p), _, _. split; [reflexivity|].
  pose (co' := set_sysmask (m_mask s) (set_error (m_errno s) co)).
  pose (s1 := Mach (<[old := co']> (m_ctx s)) (m_conts s) (Some new) (p_mask p) (m_errno s)).
  assert (Hh1 : held s1 new t c p) by (apply (held_same s); [done|cbn; by rewrite lookup_insert_ne|done]).
  destruct (goes_on_ok s1 new t c p old co' (stack (dom (m_conts s))) Hh1 eq_refl eq_refl ltac:(cbn; by rewrite lookup_insert_eq) Hon) as (k & Hk & Hg).
  unfold pth_mctx_switch_bctx. erewrite st_bind_Some by reflexivity. erewrite st_bind_Some by (apply x_upd_ctx; exact Hco).
  erewrite st_bind_Some by (apply x_rd_ctx; cbn; rewrite lookup_insert_ne by done; exact Hc). erewrite st_bind_Some by reflexivity.
  erewrite st_bind_Some by (apply x_upd_ctx; cbn; rewrite lookup_insert_eq; reflexivity). cbn [m_ctx m_conts m_self m_mask m_errno].
  rewrite insert_insert_eq, Hsm. erewrite st_bind_Some by reflexivity. cbn [m_ctx m_conts m_self m_mask m_errno].
  fold co'. fold s1. rewrite (st_bind_Some _ _ _ _ _ (x_rd_ctx s1 new c (proj1 Hh1))), (st_bind_Some _ _ _ _ _ (jump_ok s1 c t _ k Hk Hfc)). cbn [fst snd].
  split; [apply Hg|]. cbn [m_ctx s1]. rewrite insert_insert_eq. split; [|apply dom_insert_lookup_L; by eexists].
  assert (HR : delete old (delete new (a_ready a)) ⊆ a_ready a) by (etrans; apply delete_subseteq).
  assert (Hold : delete old (delete new (a_ready a)) !! new = None) by (by rewrite lookup_delete_ne, lookup_delete_eq).
  assert (H1 := mrel_enter s a new t c p old (set_fc (Some (stack (dom (m_conts s)))) co') (CSwitch old f) _ (Some new) Hm Hp Hh HR
    Hold (lookup_delete_eq _ _) ltac:(by eexists)).
  assert (Hmap : a_ready (a_enter new p (a_suspend old (PFrame f) a)) = <[old := Priv (a_errno a) (a_mask a) (PFrame f)]> (delete old (delete new (a_ready a)))).
  { cbn. by rewrite insert_delete_eq, delete_insert_ne. }
  unfold a_enter at 1. change (delete new (a_ready (a_suspend old (PFrame f) a))) with (a_ready (a_enter new p (a_suspend old (PFrame f) a))). rewrite Hmap.
  eapply (mrel_add _ (delete old (delete new (a_ready a))) (p_mask p) (p_errno p) old (stack (dom (m_conts s)))); try done.
  - by rewrite lookup_delete_eq.
  - split; [by cbn; rewrite lookup_insert_eq|]. cbn. split_and!; try done; [apply Hm|apply Hm|by rewrite lookup_insert_eq].
  - intros y q e v Hy (He & Hv & _). cbn in Hy, He. apply lookup_delete_Some in Hy as [Hyo [Hyn Hy]%lookup_delete_Some]. rewrite lookup_insert_ne in He by done.
    destruct (mr_ready _ _ Hm y q Hy) as (e' & v' & Hh'). assert (v' = v) as -> by (destruct Hh' as (? & ? & _); congruence). by eapply ready_old.
Qed.
Lemma restore_refines (s : mach) (a : amach) x : mrel s a -> is_Some (a_ready a !! x) ->
  exists p a' s', a_restore x a = Some (p, a') /\ pth_mctx_restore_bctx stack trash x s = Some (run_of p, s') /\ mrel s' a' /\
    dom (m_ctx s') = dom (m_ctx s).
Proof.
  intros Hm [p Hp]. destruct (mr_ready _ _ Hm x p Hp) as (c & t & Hh). assert (Hh0 := Hh). destruct Hh0 as (Hc & Hfc & Her & Hsm & _).
  destruct (mr_trash _ _ Hm) as [[d Hd] Htr]. assert (Hne : trash <> x) by congruence. unfold a_restore. rewrite Hp. cbn [mbind option_bind].
  eexists (p_at p), _, _. split; [reflexivity|]. pose (s1 := Mach (m_ctx s) (m_conts s) (Some x) (p_mask p) (p_errno p)).
  assert (Hh1 : held s1 x t c p) by (by apply (held_same s)).
  destruct (goes_on_ok s1 x t c p trash d (stack (dom (m_conts s))) Hh1 eq_refl eq_refl Hd Hne) as (k & Hk & Hg).
  unfold pth_mctx_restore_bctx. erewrite st_bind_Some by (apply x_rd_ctx; exact Hc). rewrite Hsm, Her.
  do 3 erewrite st_bind_Some by reflexivity. cbn [m_ctx m_conts m_self m_mask m_errno]. fold s1.
  rewrite (st_bind_Some _ _ _ _ _ (jump_ok s1 c t _ k Hk Hfc)). cbn [fst snd]. split; [apply Hg|].
  split; [|apply dom_insert_lookup_L; by eexists].
  eapply (mrel_enter s a x t c p trash); [exact Hm|exact Hp|exact Hh|apply delete_subseteq|apply lookup_delete_eq|by rewrite lookup_delete_ne|by eexists].
Qed.
Lemma set_refines (s : mach) (a : amach) made x func : mrel s a -> x <> trash -> is_Some (m_ctx s !! x) ->
  exists s', pth_mctx_set stack made x func s = Some (made, s') /\ dom (m_ctx s') = dom (m_ctx s) /\
    mrel s' (if made then a_suspend x (PStart func) a else AMach (delete x (a_ready a)) (a_mask a) (a_errno a)).
Proof.
  intros Hm Hxt [c Hc]. assert (Hxt' : is_Some (m_ctx s !! trash)) by (apply Hm). unfold pth_mctx_set.
  assert (Hframe : forall c' conts', (forall t k, m_conts s !! t = Some k -> conts' !! t = Some k) ->
    mrel (Mach (<[x := c']> (m_ctx s)) conts' (m_self s) (m_mask s) (m_errno s)) (AMach (delete x (a_ready a)) (m_mask s) (m_errno s))).
  { intros c' conts' Hco. apply (mrel_frame s (Mach (<[x := c']> (m_ctx s)) conts' (m_self s) (m_mask s) (m_errno s)) a); [done|apply delete_subseteq| |cbn; apply lookup_insert_is_Some'; by right].
    intros y t d q [Hyx Hy]%lookup_delete_Some Hh. cbn. split; [rewrite lookup_insert_ne by done; apply Hh|].
    destruct (held_live _ _ _ _ _ Hh) as [k Hk]. by rewrite Hk, (Hco t k). }
  destruct made.
  - set (u := stack (dom (m_conts s))). erewrite st_bind_Some by reflexivity. erewrite st_bind_Some by (apply x_upd_ctx; exact Hc).
    rewrite bool_decide_eq_false_2 by done. erewrite st_bind_Some by reflexivity. erewrite st_bind_Some by (apply x_upd_ctx; cbn; rewrite lookup_insert_eq; reflexivity).
    eexists. split; [reflexivity|]. cbn [m_ctx m_conts m_self m_mask m_errno]. rewrite insert_insert_eq. split; [apply dom_insert_lookup_L; by eexists|].
    unfold a_suspend. rewrite <- (insert_delete_eq (a_ready a) x), <- (mr_mask _ _ Hm), <- (mr_errno _ _ Hm).
    assert (Hu : m_conts s !! u = None) by (apply not_elem_of_dom; apply stack_fresh).
    eapply (mrel_add _ (delete x (a_ready a)) (m_mask s) (m_errno s) x u); try done.
    + apply Hframe. intros t k Hk. rewrite lookup_insert_ne; [done|]. intros <-. fold u in Hk. by rewrite Hu in Hk.
    + by rewrite lookup_delete_eq.
    + split; [by cbn; rewrite lookup_insert_eq|]. cbn. split_and!; try done. by rewrite lookup_insert_eq.
    + intros y q e v Hy (He & Hv & _). cbn in Hy, He. apply lookup_delete_Some in Hy as [Hyx Hy]. rewrite lookup_insert_ne in He by done.
      destruct (mr_ready _ _ Hm y q Hy) as (e' & v' & Hh'). assert (v' = v) as -> by (destruct Hh' as (? & ? & _); congruence). by eapply ready_old.
  - erewrite st_bind_Some by reflexivity. erewrite st_bind_Some by (apply x_upd_ctx; exact Hc). rewrite bool_decide_eq_true_2 by done.
    eexists. split; [reflexivity|]. split; [cbn; apply dom_insert_lookup_L; by eexists|]. cbn [m_ctx m_conts m_self m_mask m_errno].
    rewrite <- (mr_mask _ _ Hm), <- (mr_errno _ _ Hm). by apply Hframe.
Qed.
End refine.

(** C33: Over any state in which the contexts that can be switched to hold their
    own suspended stack, switching, leaving for good and setting up refine
    contexts with a private [errno], a private signal mask and a private place:
    the code is defined, resumes exactly what the other context left - its
    entry function or the return of its last switch -, with the [errno] and
    mask that it had, keeps those of the context it leaves, and no stack is
    ever resumed twice. *)
Theorem mctx_correct {F : Type} (stack : gset addr -> addr) (trash : addr) (s : mach F) (a : amach F) :
  (forall A, stack A ∉ A) -> mrel trash s a ->
  (forall old new f, old <> new -> old <> trash -> is_Some (m_ctx s !! old) -> is_Some (a_ready a !! new) ->
     exists p a' s', a_switch old new f a = Some (p, a') /\ pth_mctx_switch_bctx stack old new f s = Some (run_of p, s') /\ mrel trash s' a') /\
  (forall x, is_Some (a_ready a !! x) ->
     exists p a' s', a_restore x a = Some (p, a') /\ pth_mctx_restore_bctx stack trash x s = Some (run_of p, s') /\ mrel trash s' a') /\
  (forall x func, x <> trash -> is_Some (m_ctx s !! x) ->
     (exists s', pth_mctx_set stack true x func s = Some (true, s') /\ mrel trash s' (a_suspend x (PStart func) a)) /\
     (exists s', pth_mctx_set stack false x func s = Some (false, s') /\ mrel trash s' (AMach (delete x (a_ready a)) (a_mask a) (a_errno a)))).
Proof.
  intros Hf Hm. split_and!.
  - intros old new f H1 H2 H3 H4. destruct (switch_refines stack trash Hf s a old new f Hm H1 H2 H3 H4) as (p & a' & s' & ? & ? & ? & _). by exists p, a', s'.
  - intros x Hx. destruct (restore_refines stack trash Hf s a x Hm Hx) as (p & a' & s' & ? & ? & ? & _). by exists p, a', s'.
  - intros x func Hx Hc. split; [destruct (set_refines stack trash Hf s a true x func Hm Hx Hc) as (s' & ? & _ & ?)|
      destruct (set_refines stack trash Hf s a false x func Hm Hx Hc) as (s' & ? & _ & ?)]; by exists s'.
Qed.

(** ** Two contexts

    Context 2 is made with entry function 70 while signal 3 is blocked; context
    1 switches to it with [errno] EIO. *)
Definition demo_stack (A : gset addr) : addr := fresh A.
Definition blank_ctx : mctx := MCtx NULL 1 ∅ EINVAL.
Definition demo_mach : mach addr := Mach (<[1%positive := blank_ctx]> (<[2%positive := blank_ctx]> {[9%positive := blank_ctx]})) ∅ NULL {[3]} EIO.
Definition demo_amach : amach addr := AMach ∅ {[3]} EIO.
Lemma demo_ctx_rel : mrel 9 demo_mach demo_amach.
Proof.
  constructor; [done|done|done| |by split; [by eexists|]].
  intros x y c d t [? H]. done.
Qed.
Lemma mctx_correct_witness : exists s1 s2 a2, pth_mctx_set demo_stack true 2 70 demo_mach = Some (true, s1) /\
  pth_mctx_switch_bctx demo_stack 1 2 55%positive s1 = Some (RFunc 70, s2) /\ mrel 9 s2 a2 /\
  p_at <$> a_ready a2 !! 1%positive = Some (PFrame 55%positive).
Proof.
  assert (Hf : forall A, demo_stack A ∉ A) by (intros A; apply is_fresh).
  destruct (mctx_correct demo_stack 9 demo_mach demo_amach Hf demo_ctx_rel) as (_ & _ & H). destruct (H 2%positive 70%positive ltac:(done) ltac:(by eexists)) as [(s1 & E1 & H1) _].
  destruct (mctx_correct demo_stack 9 s1 _ Hf H1) as (H2 & _).
  assert (Hctx : m_ctx s1 !! 1%positive = Some blank_ctx).
  { assert (Ex : option_map (fun x => m_ctx x.2 !! 1%positive) (pth_mctx_set demo_stack true 2 70 demo_mach) = Some (Some blank_ctx)) by (vm_compute; reflexivity).
    rewrite E1 in Ex. by injection Ex. }
  destruct (H2 1%positive 2%positive 55%positive ltac:(done) ltac:(done) ltac:(by eexists) ltac:(by eexists)) as (p & a2 & s2 & Ea & E2 & H3).
  vm_compute in Ea. injection Ea as <- <-. exists s1, s2. eexists. split; [exact E1|]. split; [exact E2|]. split; [exact H3|reflexivity].
Defined.
