(* ===== verification/Mcsc.v ===== *)
(** * Machine contexts on ucontext(3) (src/pth_mctx.c)

    The variant that is built where ucontext(3) works. The functions of the C
    library save and restore the signal mask and the place of a context; what
    is added here is the flag that tells a saved context from a restored one,
    and [errno] where it is handled: when a context is saved and when one is
    restored for good, but not when two are switched. *)

From stdpp Require Import base numbers gmap list.
From S2P Require Import Prelude Mctx.
Open Scope Z_scope.

(** Where a user context goes on: nowhere, it was never set; at the start of a
    function; behind [swapcontext]; behind the [getcontext] in
    [pth_mctx_save], whose value is the flag of that moment. *)
Inductive uplace (F : Type) := UNone | UFunc (func : addr) | UFrame (f : F) | USaved (a : addr) (f : bool -> F).
Arguments UNone {F}. Arguments UFunc {F}. Arguments UFrame {F}. Arguments USaved {F}.
Record ucontext (F : Type) := UContext { uc_sigmask : gset Z; uc_at : uplace F }.
Arguments UContext {F}. Arguments uc_sigmask {F}. Arguments uc_at {F}.

(** [pth_mctx_t] of this variant. *)
Record umctx (F : Type) := UMctx { um_uc : ucontext F; um_restored : bool; um_error : errno }.
Arguments UMctx {F}. Arguments um_uc {F}. Arguments um_restored {F}. Arguments um_error {F}.
(** The contexts; mask and [errno] of the OS thread. *)
Record umach (F : Type) := UMach { u_ctx : gmap addr (umctx F); u_mask : gset Z; u_errno : errno }.
Arguments UMach {F}. Arguments u_ctx {F}. Arguments u_mask {F}. Arguments u_errno {F}.

Section mcsc.
Context {F : Type}.
Abbreviation umach := (umach F).

Definition rd_uctx (a : addr) : st umach (umctx F) :=
  fun s => match u_ctx s !! a with Some c => Some (c, s) | None => None end.
Definition upd_uctx (a : addr) (h : umctx F -> umctx F) : st umach unit :=
  fun s => match u_ctx s !! a with
           | Some c => Some (tt, UMach (<[a := h c]> (u_ctx s)) (u_mask s) (u_errno s))
           | None => None end.
Definition put_uerrno (v : errno) : st umach unit := fun s => Some (tt, UMach (u_ctx s) (u_mask s) v).

(** *** ucontext(3) *)

Definition getcontext (a : addr) (pl : uplace F) : st umach unit :=
  s ← get_st; upd_uctx a (fun c => UMctx (UContext (u_mask s) pl) (um_restored c) (um_error c)).
Definition setcontext (a : addr) : st umach (run F) :=
  c ← rd_uctx a;
  (fun s => Some (tt, UMach (u_ctx s) (uc_sigmask (um_uc c)) (u_errno s)));;
  match uc_at (um_uc c) with
  | UNone => undef
  | UFunc func => mret (RFunc func)
  | UFrame f => mret (RFrame f)
  | USaved b f => d ← rd_uctx b; mret (RFrame (f (um_restored d)))
  end.
Definition swapcontext (old new : addr) (f : F) : st umach (run F) := getcontext old (UFrame f);; setcontext new.

(** *** The code *)

(** [f]: what follows, for the value of the macro. *)
Definition pth_mctx_save (a : addr) (f : bool -> F) : st umach bool :=
  s ← get_st;
  upd_uctx a (fun c => UMctx (um_uc c) (um_restored c) (u_errno s));;
  upd_uctx a (fun c => UMctx (um_uc c) false (um_error c));;
  getcontext a (USaved a f);;
  c ← rd_uctx a; mret (um_restored c).
Definition pth_mctx_restore (a : addr) : st umach (run F) :=
  c ← rd_uctx a;
  put_uerrno (um_error c);;
  upd_uctx a (fun c => UMctx (um_uc c) true (um_error c));;
  setcontext a.
Definition pth_mctx_switch (old new : addr) (f : F) : st umach (run F) := swapcontext old new f.
(** [got]: whether [getcontext] succeeds. *)
Definition pth_mctx_set (got : bool) (a func : addr) : st umach bool :=
  if negb got then mret false else
  getcontext a UNone;;
  upd_uctx a (fun c => UMctx (UContext (uc_sigmask (um_uc c)) (UFunc func)) (um_restored c) (um_error c));;
  mret true.

(** ** Contexts with a mask and a place of their own *)

(** A context that can be switched to, and where it goes on. *)
Definition stands (s : umach) (a : addr) (mask : gset Z) (r : run F) : Prop :=
  exists c, u_ctx s !! a = Some c /\ uc_sigmask (um_uc c) = mask /\
    match uc_at (um_uc c) with
    | UFunc func => r = RFunc func
    | UFrame f => r = RFrame f
    | _ => False
    end.

Lemma x_rd_uctx s a c : u_ctx s !! a = Some c -> rd_uctx a s = Some (c, s).
Proof. intros H. unfold rd_uctx. by rewrite H. Qed.
Lemma x_getcontext s a c pl : u_ctx s !! a = Some c -> getcontext a pl s =
  Some (tt, UMach (<[a := UMctx (UContext (u_mask s) pl) (um_restored c) (um_error c)]> (u_ctx s)) (u_mask s) (u_errno s)).
Proof. intros H. unfold getcontext, upd_uctx. rewrite (st_bind_Some get_st _ s s s eq_refl). by rewrite H. Qed.
Lemma setcontext_ok s a mask r : stands s a mask r -> setcontext a s = Some (r, UMach (u_ctx s) mask (u_errno s)).
Proof.
  intros (c & Hc & <- & Hr). unfold setcontext. rewrite (st_bind_Some _ _ _ _ _ (x_rd_uctx s a c Hc)).
  rewrite (st_bind_Some _ _ s tt _ eq_refl). by destruct (uc_at (um_uc c)); subst.
Qed.

(** A switch resumes the other context where it stands, with its mask; the own
    one stands behind the switch with the mask of now; the others are as they
    were, and [errno] is not touched. *)
Lemma mcsc_switch_ok s old new f mask r : stands s new mask r -> is_Some (u_ctx s !! old) -> old <> new -> exists s',
  pth_mctx_switch old new f s = Some (r, s') /\ u_mask s' = mask /\ u_errno s' = u_errno s /\
  stands s' old (u_mask s) (RFrame f) /\ (forall a m x, a <> old -> stands s a m x -> stands s' a m x).
Proof.
  intros Hs [c Hc] Hne. unfold pth_mctx_switch, swapcontext. rewrite (st_bind_Some _ _ _ _ _ (x_getcontext s old c (UFrame f) Hc)).
  set (s1 := UMach _ _ _).
  assert (Hk : forall a m x, a <> old -> stands s a m x -> stands s1 a m x).
  { intros a m x Ha (d & Hd & H). exists d. cbn. by rewrite lookup_insert_ne. }
  rewrite (setcontext_ok s1 new mask r (Hk new mask r (not_eq_sym Hne) Hs)). eexists. split_and!; try done.
  eexists. split; [apply lookup_insert_eq|done].
Qed.

(** What another context leaves in [errno] is what the first one finds when it
    is resumed: [errno] is not switched. *)
Lemma mcsc_errno_leaks s old new f g mask r e : stands s new mask r -> is_Some (u_ctx s !! old) -> old <> new -> exists s1 s2,
  pth_mctx_switch old new f s = Some (r, s1) /\
  (put_uerrno e;; pth_mctx_switch new old g) s1 = Some (RFrame f, s2) /\ u_mask s2 = u_mask s /\ u_errno s2 = e.
Proof.
  intros Hs Ho Hne. destruct (mcsc_switch_ok s old new f mask r Hs Ho Hne) as (s1 & E1 & _ & _ & Hold & Hk).
  exists s1. set (s1' := UMach (u_ctx s1) (u_mask s1) e).
  assert (Hnew : is_Some (u_ctx s1' !! new)).
  { destruct Hs as (c & Hc & Hm & Hr). destruct (Hk new mask r (not_eq_sym Hne)) as (d & Hd & _); [by exists c|by exists d]. }
  destruct (mcsc_switch_ok s1' new old g (u_mask s) (RFrame f) Hold Hnew (not_eq_sym Hne)) as (s2 & E2 & M2 & X2 & _).
  exists s2. by split_and!.
Qed.
(** Restoring installs the [errno] of the last save; for a context that was
    suspended by a switch this is whatever was there before. *)
Lemma mcsc_restore_errno s a c mask r : stands s a mask r -> u_ctx s !! a = Some c -> exists s',
  pth_mctx_restore a s = Some (r, s') /\ u_errno s' = um_error c /\ u_mask s' = mask.
Proof.
  intros (d & Hd & Hm & Hr) Hc. assert (d = c) as -> by congruence. clear Hc. subst mask. unfold pth_mctx_restore. rewrite (st_bind_Some _ _ _ _ _ (x_rd_uctx s a c Hd)).
  set (s1 := UMach (u_ctx s) (u_mask s) (um_error c)). rewrite (st_bind_Some (put_uerrno _) _ s tt s1 eq_refl).
  set (c2 := UMctx (um_uc c) true (um_error c)). set (s2 := UMach (<[a := c2]> (u_ctx s)) (u_mask s) (um_error c)).
  rewrite (st_bind_Some _ _ s1 tt s2) by (unfold upd_uctx; cbn; by rewrite Hd).
  rewrite (setcontext_ok s2 a (uc_sigmask (um_uc c)) r); [by eexists|]. exists c2. split; [apply lookup_insert_eq|done].
Qed.
(** A context that was set starts its function with the mask of now. *)
Lemma mcsc_set_ok s a func : is_Some (u_ctx s !! a) -> exists s',
  pth_mctx_set true a func s = Some (true, s') /\ stands s' a (u_mask s) (RFunc func) /\ u_mask s' = u_mask s /\ u_errno s' = u_errno s /\
  (forall b m x, b <> a -> stands s b m x -> stands s' b m x).
Proof.
  intros [c Hc]. unfold pth_mctx_set. cbn [negb]. rewrite (st_bind_Some _ _ _ _ _ (x_getcontext s a c UNone Hc)).
  set (s1 := UMach _ _ _). erewrite st_bind_Some by (unfold upd_uctx; cbn; by rewrite lookup_insert_eq).
  eexists. split; [done|]. split_and!; try done.
  - eexists. split; [apply lookup_insert_eq|done].
  - intros b m x Hb (d & Hd & H). exists d. cbn. by rewrite !lookup_insert_ne.
Qed.
(** A context that was saved returns from the save a second time, with the flag
    and its [errno]. *)
Lemma mcsc_save_restore s a f : is_Some (u_ctx s !! a) -> exists s1,
  pth_mctx_save a f s = Some (false, s1) /\
  forall e m, exists s2, pth_mctx_restore a (UMach (u_ctx s1) m e) = Some (RFrame (f true), s2) /\ u_errno s2 = u_errno s /\ u_mask s2 = u_mask s.
Proof.
  intros [c Hc]. unfold pth_mctx_save. rewrite (st_bind_Some get_st _ s s s eq_refl).
  erewrite st_bind_Some by (unfold upd_uctx; by rewrite Hc). erewrite st_bind_Some by (unfold upd_uctx; cbn; by rewrite lookup_insert_eq).
  erewrite st_bind_Some by (apply x_getcontext; apply lookup_insert_eq). erewrite st_bind_Some by (apply x_rd_uctx; apply lookup_insert_eq).
  eexists. split; [done|]. intros e m. unfold pth_mctx_restore. erewrite st_bind_Some by (apply x_rd_uctx; apply lookup_insert_eq).
  erewrite st_bind_Some by reflexivity. erewrite st_bind_Some by (unfold upd_uctx; cbn; by rewrite lookup_insert_eq).
  unfold setcontext. erewrite st_bind_Some by (apply x_rd_uctx; apply lookup_insert_eq). erewrite st_bind_Some by reflexivity. cbn.
  erewrite st_bind_Some by (apply x_rd_uctx; apply lookup_insert_eq). by eexists.
Qed.
End mcsc.
