(* ===== verification/Uctx.v ===== *)
(** * User-space contexts (src/pth_uctx.c)

    Contexts that a program switches between by itself, over the machine
    contexts of [Mctx]. Setting one up is a small dance: the new stack is
    entered, takes its instructions from a global variable, and switches back;
    only the next switch calls the start function. *)

From stdpp Require Import base numbers gmap list.
From S2P Require Import Prelude Mctx.
Open Scope Z_scope.

(** The machine context inside a user-space context goes by the same
    address. *)
Record uctx := UCtx { uc_stack_own : bool; uc_stack_ptr : ptr; uc_stack_len : Z; uc_mctx_set : bool }.
Definition set_mctx_set (v : bool) (u : uctx) : uctx := UCtx (uc_stack_own u) (uc_stack_ptr u) (uc_stack_len u) v.

(** What follows a switch: in [pth_uctx_make], with its locals; in
    [pth_uctx_trampoline], with its locals; in [pth_uctx_switch], called with
    [from]. *)
Inductive uframe :=
| FMake (uctx : addr) (sigmask : option (gset Z)) (ss : gset Z)
| FTramp (mctx_parent uctx_this : addr) (uctx_after : ptr) (start_func start_arg : addr)
| FUser (from : addr).

(** [pth_uctx_trampoline_ctx]. *)
Record tramp := Tramp { tr_parent : addr; tr_this : addr; tr_after : ptr; tr_func : addr; tr_arg : addr }.

(** [u_blocks]: the memory that was allocated for stacks. *)
Record ust := Ust { u_ctx : gmap addr uctx; u_blocks : gset addr; u_tramp : option tramp; u_m : mach uframe }.

(** What runs in the end: a call that returned; the start function of a
    context; a [pth_uctx_switch] of a context, which returned TRUE; nothing,
    since the process ended. *)
Inductive uruns :=
| UReturn (r : bool * option errno)
| UEnter (this : addr) (after : ptr) (func arg : addr)
| UBack (from : addr)
| UExit.

(** The address of [pth_uctx_trampoline]. *)
Definition TRAMPOLINE : addr := 1%positive.
Definition zero_ctx : mctx := MCtx NULL 1 ∅ (EOTHER 0).

Section ops.
Context (stack : gset addr -> addr) (trash : addr).

Definition on_m {A : Type} (m : st (mach uframe) A) : st ust A := zoom u_m (fun x s => Ust (u_ctx s) (u_blocks s) (u_tramp s) x) m.
Definition rd_uctx (a : addr) : st ust uctx := fun s => match u_ctx s !! a with Some u => Some (u, s) | None => None end.
Definition upd_uctx (a : addr) (f : uctx -> uctx) : st ust unit :=
  fun s => match u_ctx s !! a with Some u => Some (tt, Ust (<[a := f u]> (u_ctx s)) (u_blocks s) (u_tramp s) (u_m s)) | None => None end.
Definition put_tramp (t : tramp) : st ust unit := fun s => Some (tt, Ust (u_ctx s) (u_blocks s) (Some t) (u_m s)).
(** A machine context appears, or goes. *)
Definition new_mctx (a : addr) : st ust unit :=
  on_m (fun s => Some (tt, Mach (<[a := zero_ctx]> (m_ctx s)) (m_conts s) (m_self s) (m_mask s) (m_errno s))).
Definition drop_mctx (a : addr) : st ust unit :=
  on_m (fun s => Some (tt, Mach (delete a (m_ctx s)) (m_conts s) (m_self s) (m_mask s) (m_errno s))).

(** [malloc] gave [mem]. *)
Definition pth_uctx_create (puctx mem : ptr) : st ust (bool * option errno * ptr) :=
  if bool_decide (puctx = NULL) then mret (pth_error false EINVAL, NULL) else
  match mem with
  | None => mret (pth_error false ENOMEM, NULL)
  | Some a =>
      (fun s => Some (tt, Ust (<[a := UCtx false NULL 0 false]> (u_ctx s)) (u_blocks s) (u_tramp s) (u_m s)));;
      new_mctx a;;
      mret (ok true, Some a)
  end.

(** The trampoline up to its switch. *)
Definition pth_uctx_trampoline : st ust (run uframe) :=
  s ← get_st;
  match u_tramp s with
  | None => undef
  | Some t => on_m (pth_mctx_switch_bctx stack (tr_this t) (tr_parent t) (FTramp (tr_parent t) (tr_this t) (tr_after t) (tr_func t) (tr_arg t)))
  end.

(** [mem]: what [malloc] gives for the stack; [made]: whether the machine
    context is set up; [loc]: the address of the local [mctx_parent]. *)
Definition make_stack (sk_addr mem : ptr) : st ust (option (addr * bool)) :=
  match sk_addr, mem with
  | Some p, _ => mret (Some (p, false))
  | None, Some p => (fun s => Some (tt, Ust (u_ctx s) ({[p]} ∪ u_blocks s) (u_tramp s) (u_m s)));; mret (Some (p, true))
  | None, None => mret None
  end.
(** From the global variable on. *)
Definition make_dance (loc u : addr) (sigmask : option (gset Z)) (func arg : addr) (after : ptr) : st ust uruns :=
  put_tramp (Tramp loc u after func arg);;
  s ← get_st;
  let ss := m_mask (u_m s) in
  (match sigmask with Some m => on_m (put_mask m) | None => mret tt end : st ust unit);;
  r ← on_m (pth_mctx_switch_bctx stack loc u (FMake u sigmask ss));
  match r with
  | RFunc f =>
      if negb (bool_decide (f = TRAMPOLINE)) then undef else
      r ← pth_uctx_trampoline;
      match r with
      | RFrame (FMake u' sigmask' ss') =>
          (match sigmask' with Some _ => on_m (put_mask ss') | None => mret tt end : st ust unit);;
          upd_uctx u' (set_mctx_set true);;
          drop_mctx loc;;
          mret (UReturn (ok true))
      | _ => undef
      end
  | _ => undef
  end.
Definition pth_uctx_make (loc : addr) (made : bool) (uctx sk_addr mem : ptr) (sk_size : Z) (sigmask : option (gset Z))
    (start_func : ptr) (start_arg : addr) (uctx_after : ptr) : st ust uruns :=
  match uctx, start_func with
  | Some u, Some func =>
      if sk_size <? 16 * 1024 then mret (UReturn (pth_error false EINVAL)) else
      sk ← make_stack sk_addr mem;
      match sk with
      | None => mret (UReturn (pth_error false ENOMEM))
      | Some (p, own) =>
          upd_uctx u (fun c => UCtx own (Some p) sk_size (uc_mctx_set c));;
          new_mctx loc;;
          b ← on_m (pth_mctx_set stack made u TRAMPOLINE);
          if negb (b : bool) then
            drop_mctx loc;;
            s ← get_st;
            mret (UReturn (pth_error false (m_errno (u_m s))))
          else make_dance loc u sigmask func start_arg uctx_after
      end
  | _, _ => mret (UReturn (pth_error false EINVAL))
  end.

(** What a resumed frame does up to the program's own code. *)
Definition user_run (r : run uframe) : st ust uruns :=
  match r with
  | RFrame (FTramp _ this after func arg) => mret (UEnter this after func arg)
  | RFrame (FUser from) => mret (UBack from)
  | _ => undef
  end.
Definition pth_uctx_switch (from to : ptr) : st ust uruns :=
  match from, to with
  | Some f, Some t =>
      c ← rd_uctx t;
      if negb (uc_mctx_set c) then mret (UReturn (pth_error false EPERM)) else
      upd_uctx f (set_mctx_set true);;
      r ← on_m (pth_mctx_switch_bctx stack f t (FUser f));
      user_run r
  | _, _ => mret (UReturn (pth_error false EINVAL))
  end.
(** The start function returned. *)
Definition trampoline_end (after : ptr) : st ust uruns :=
  match after with
  | None => mret UExit
  | Some a => r ← on_m (pth_mctx_restore_bctx stack trash a); user_run r
  end.

Definition pth_uctx_destroy (uctx : ptr) : st ust (bool * option errno) :=
  match uctx with
  | None => mret (pth_error false EINVAL)
  | Some a =>
      u ← rd_uctx a;
      (match uc_stack_ptr u with
       | Some p => if uc_stack_own u then
           (fun s => if bool_decide (p ∈ u_blocks s) then Some (tt, Ust (u_ctx s) (u_blocks s ∖ {[p]}) (u_tramp s) (u_m s)) else None)
           else mret tt
       | None => mret tt end : st ust unit);;
      (fun s => Some (tt, Ust (delete a (u_ctx s)) (u_blocks s) (u_tramp s) (u_m s)));;
      drop_mctx a;;
      mret (ok true)
  end.
End ops.

(** ** What the contexts promise *)

(** What runs when a context is entered. *)
Definition entered (p : place uframe) : uruns :=
  match p with
  | PFrame (FTramp _ this after func arg) => UEnter this after func arg
  | PFrame (FUser from) => UBack from
  | _ => UExit
  end.
(** A context that can be switched to waits in its own trampoline or its own
    switch. *)
Definition own_place (x : addr) (p : place uframe) : Prop :=
  match p with PFrame (FTramp _ this _ _ _) => this = x | PFrame (FUser from) => from = x | _ => False end.

Section spec.
Context (stack : gset addr -> addr) (trash : addr) (stack_fresh : forall A, stack A ∉ A).
Abbreviation amach := (amach uframe).

Record uinv (s : ust) (a : amach) : Prop := {
  ui_m : mrel trash (u_m s) a;
  ui_ready : forall x p, a_ready a !! x = Some p -> own_place x (p_at p) /\ exists c, u_ctx s !! x = Some c /\ uc_mctx_set c = true;
  ui_ctx : forall x, is_Some (u_ctx s !! x) -> is_Some (m_ctx (u_m s) !! x) /\ x <> trash
}.

Lemma x_on_m {A : Type} (m : st (mach uframe) A) (s : ust) r x : m (u_m s) = Some (r, x) -> on_m m s = Some (r, Ust (u_ctx s) (u_blocks s) (u_tramp s) x).
Proof. intros Hm. unfold on_m, zoom. by rewrite Hm. Qed.
Lemma x_upd_uctx (s : ust) a f c : u_ctx s !! a = Some c -> upd_uctx a f s = Some (tt, Ust (<[a := f c]> (u_ctx s)) (u_blocks s) (u_tramp s) (u_m s)).
Proof. intros H. unfold upd_uctx. by rewrite H. Qed.

(** Masks and memory of nobody in particular. *)
Lemma mrel_put_mask (s : mach uframe) (a : amach) m : mrel trash s a ->
  mrel trash (Mach (m_ctx s) (m_conts s) (m_self s) m (m_errno s)) (AMach (a_ready a) m (a_errno a)).
Proof. intros [H1 H2 H3 H4 H5]. by constructor. Qed.
Lemma mrel_new (s : mach uframe) (a : amach) x : mrel trash s a -> m_ctx s !! x = None ->
  mrel trash (Mach (<[x := zero_ctx]> (m_ctx s)) (m_conts s) (m_self s) (m_mask s) (m_errno s)) a.
Proof.
  intros Hm Hx. destruct a as [R k e]. assert (Hk := mr_mask _ _ _ Hm). assert (He := mr_errno _ _ _ Hm). cbn in Hk, He. subst k e.
  apply (mrel_frame trash s (Mach (<[x := zero_ctx]> (m_ctx s)) (m_conts s) (m_self s) (m_mask s) (m_errno s)) _ R Hm); cbn; [done| |].
  - intros y t c p _ (Hc & _). split; [|done]. rewrite lookup_insert_ne; [done|]. congruence.
  - apply lookup_insert_is_Some'. right. apply Hm.
Qed.
Lemma mrel_drop (s : mach uframe) (a : amach) x : mrel trash s a -> a_ready a !! x = None -> x <> trash ->
  mrel trash (Mach (delete x (m_ctx s)) (m_conts s) (m_self s) (m_mask s) (m_errno s)) a.
Proof.
  intros Hm Hx Hxt. destruct a as [R k e]. assert (Hk := mr_mask _ _ _ Hm). assert (He := mr_errno _ _ _ Hm). cbn in Hk, He, Hx. subst k e.
  apply (mrel_frame trash s (Mach (delete x (m_ctx s)) (m_conts s) (m_self s) (m_mask s) (m_errno s)) _ R Hm); cbn; [done| |].
  - intros y t c p Hy (Hc & _). split; [|done]. rewrite lookup_delete_ne; [done|]. congruence.
  - rewrite lookup_delete_ne by done. apply Hm.
Qed.

(** The dance: the new context ends up in its trampoline, with the mask that
    was in force before it. *)
Lemma dance_ok (s : ust) R k e loc u sigmask func arg after c : mrel trash (u_m s) (AMach R k e) ->
  R !! u = Some (Priv e k (PStart TRAMPOLINE)) -> R !! loc = None -> is_Some (m_ctx (u_m s) !! loc) -> is_Some (m_ctx (u_m s) !! u) ->
  loc <> u -> loc <> trash -> u <> trash -> u_ctx s !! u = Some c ->
  exists s', make_dance stack loc u sigmask func arg after s = Some (UReturn (ok true), s') /\
    mrel trash (u_m s') (AMach (<[u := Priv e k (PFrame (FTramp loc u after func arg))]> R) k e) /\
    u_ctx s' = <[u := set_mctx_set true c]> (u_ctx s) /\ u_blocks s' = u_blocks s /\ dom (m_ctx (u_m s')) = dom (m_ctx (u_m s)) ∖ {[loc]}.
Proof.
  intros Hm Hu Hl Hlc Huc Hlu Hlt Hut Hc. destruct s as [ctx blk tr m]. cbn [u_ctx u_blocks u_tramp u_m] in *. unfold make_dance.
  erewrite st_bind_Some by reflexivity. erewrite st_bind_Some by reflexivity. cbn [u_ctx u_blocks u_tramp u_m].
  assert (Hk : m_mask m = k) by apply Hm. assert (H1 : exists m1 k1, (match sigmask with Some x => on_m (put_mask x) | None => mret tt end : st ust unit)
      (Ust ctx blk (Some (Tramp loc u after func arg)) m) = Some (tt, Ust ctx blk (Some (Tramp loc u after func arg)) m1) /\ mrel trash m1 (AMach R k1 e) /\
      dom (m_ctx m1) = dom (m_ctx m) /\ (sigmask = None -> k1 = k)).
  { destruct sigmask as [x|]; [|by exists m, k]. eexists _, x. split; [reflexivity|]. split; [|done]. by apply (mrel_put_mask m (AMach R k e)). }
  destruct H1 as (m1 & k1 & E1 & Hm1 & Hd1 & Hk1). rewrite (st_bind_Some _ _ _ _ _ E1).
  destruct (switch_refines stack trash stack_fresh m1 _ loc u (FMake u sigmask (m_mask m)) Hm1 Hlu Hlt) as (p & a2 & m2 & Ea2 & E2 & Hm2 & Hd2);
    [apply elem_of_dom; rewrite Hd1; by apply elem_of_dom|cbn; rewrite Hu; by eexists|].
  unfold a_switch in Ea2. cbn [a_ready] in Ea2. rewrite Hu in Ea2. cbn [mbind option_bind p_at] in Ea2. injection Ea2 as <- <-.
  rewrite (st_bind_Some _ _ _ _ _ (x_on_m _ (Ust ctx blk _ m1) _ m2 E2)). cbn [run_of u_ctx u_blocks u_tramp]. rewrite bool_decide_eq_true_2 by done. cbn [negb].
  destruct (switch_refines stack trash stack_fresh m2 _ u loc (FTramp loc u after func arg) Hm2 ltac:(done) Hut) as (p & a3 & m3 & Ea3 & E3 & Hm3 & Hd3).
  { apply elem_of_dom. rewrite Hd2, Hd1. by apply elem_of_dom. }
  { cbn. rewrite lookup_delete_ne, lookup_insert_eq by done. by eexists. }
  unfold a_switch in Ea3. cbn [a_ready a_enter a_suspend a_mask a_errno] in Ea3. rewrite lookup_delete_ne, lookup_insert_eq in Ea3 by done.
  cbn [mbind option_bind p_at p_mask p_errno] in Ea3. injection Ea3 as <- <-.
  assert (Et : pth_uctx_trampoline stack (Ust ctx blk (Some (Tramp loc u after func arg)) m2)
    = Some (RFrame (FMake u sigmask (m_mask m)), Ust ctx blk (Some (Tramp loc u after func arg)) m3)).
  { unfold pth_uctx_trampoline. erewrite st_bind_Some by reflexivity. cbn [u_tramp tr_this tr_parent tr_after tr_func tr_arg]. by apply x_on_m. }
  rewrite (st_bind_Some _ _ _ _ _ Et).
  assert (Hmap : delete loc (<[u := Priv e k (PFrame (FTramp loc u after func arg))]> (delete u (<[loc := Priv e k1 (PFrame (FMake u sigmask (m_mask m)))]> R)))
    = <[u := Priv e k (PFrame (FTramp loc u after func arg))]> R).
  { apply map_eq. intros y. destruct (decide (y = loc)) as [->|?]; [by rewrite lookup_delete_eq, lookup_insert_ne, Hl|rewrite lookup_delete_ne by done].
    destruct (decide (y = u)) as [->|?]; [by rewrite !lookup_insert_eq|]. by rewrite !lookup_insert_ne, lookup_delete_ne, lookup_insert_ne. }
  unfold a_enter, a_suspend in Hm3. cbn [a_ready a_mask a_errno p_mask p_errno] in Hm3. rewrite Hmap in Hm3.
  assert (H4 : exists m4, (match sigmask with Some _ => on_m (put_mask (m_mask m)) | None => mret tt end : st ust unit)
      (Ust ctx blk (Some (Tramp loc u after func arg)) m3) = Some (tt, Ust ctx blk (Some (Tramp loc u after func arg)) m4) /\
      mrel trash m4 (AMach (<[u := Priv e k (PFrame (FTramp loc u after func arg))]> R) k e) /\ dom (m_ctx m4) = dom (m_ctx m3)).
  { destruct sigmask as [x|]; [|exists m3; by rewrite <- (Hk1 eq_refl) at 2]. eexists. split; [reflexivity|]. split; [|done]. rewrite Hk. exact (mrel_put_mask m3 _ k Hm3). }
  destruct H4 as (m4 & E4 & Hm4 & Hd4). rewrite (st_bind_Some _ _ _ _ _ E4).
  rewrite (st_bind_Some _ _ _ _ _ (x_upd_uctx (Ust ctx blk _ m4) u _ c Hc)). erewrite st_bind_Some by reflexivity.
  eexists. split; [reflexivity|]. cbn [u_m u_ctx u_blocks m_ctx]. split; [|split_and!; try done].
  - apply mrel_drop; [done|cbn; by rewrite lookup_insert_ne|done].
  - rewrite dom_delete_L. by rewrite Hd4, Hd3, Hd2, Hd1.
Qed.

Lemma make_ok (s : ust) (a : amach) loc u c func arg sk mem size sigmask after p own :
  uinv s a -> u_ctx s !! u = Some c -> m_ctx (u_m s) !! loc = None -> 16384 <= size ->
  (sk = Some p /\ own = false \/ sk = NULL /\ mem = Some p /\ own = true) ->
  exists s', pth_uctx_make stack loc true (Some u) sk mem size sigmask (Some func) arg after s = Some (UReturn (ok true), s') /\
    uinv s' (AMach (<[u := Priv (a_errno a) (a_mask a) (PFrame (FTramp loc u after func arg))]> (a_ready a)) (a_mask a) (a_errno a)) /\
    u_ctx s' = <[u := UCtx own (Some p) size true]> (u_ctx s) /\ u_blocks s' = (if own then {[p]} else ∅) ∪ u_blocks s.
Proof.
  intros [Hm Hr Hx] Hc Hl Hsz Hsk. destruct (Hx u ltac:(by eexists)) as [Hum Hut]. assert (Hlu : loc <> u) by (intros ->; destruct Hum; congruence).
  assert (Hlt : loc <> trash) by (intros ->; destruct (mr_trash _ _ _ Hm) as [[? ?] _]; congruence).
  unfold pth_uctx_make. destruct (Z.ltb_spec size (16 * 1024)); [lia|].
  assert (E1 : make_stack sk mem s = Some (Some (p, own), Ust (u_ctx s) ((if own then {[p]} else ∅) ∪ u_blocks s) (u_tramp s) (u_m s))).
  { destruct Hsk as [[-> ->]|(-> & -> & ->)]; [|done]. cbn. rewrite left_id_L by apply _. by destruct s. }
  rewrite (st_bind_Some _ _ _ _ _ E1). rewrite (st_bind_Some _ _ _ _ _ (x_upd_uctx (Ust (u_ctx s) _ _ _) u _ c Hc)).
  erewrite st_bind_Some by reflexivity. cbn [u_ctx u_blocks u_tramp u_m].
  assert (Hm1 := mrel_new (u_m s) a loc Hm Hl). set (m1 := Mach _ _ _ _ _) in *.
  destruct (set_refines stack trash stack_fresh m1 a true u TRAMPOLINE Hm1 Hut) as (m2 & E2 & Hd2 & Hm2); [cbn; by rewrite lookup_insert_ne|].
  rewrite (st_bind_Some _ _ _ _ _ (x_on_m _ (Ust _ _ _ m1) _ m2 E2)). cbn [negb].
  assert (Hnr : a_ready a !! loc = None).
  { destruct (a_ready a !! loc) as [q|] eqn:Eq; [|done]. destruct (mr_ready _ _ _ Hm loc q Eq) as (d & t & Hd & _). congruence. }
  destruct (dance_ok (Ust (<[u := UCtx own (Some p) size (uc_mctx_set c)]> (u_ctx s)) ((if own then {[p]} else ∅) ∪ u_blocks s) (u_tramp s) m2)
    _ _ _ loc u sigmask func arg after (UCtx own (Some p) size (uc_mctx_set c)) Hm2) as (s' & E3 & Hm3 & Hc3 & Hb3 & Hd3); try done.
  { by rewrite lookup_insert_eq. }
  { by rewrite lookup_insert_ne. }
  { apply elem_of_dom. cbn. rewrite Hd2. cbn. rewrite dom_insert_L. set_solver. }
  { apply elem_of_dom. cbn. rewrite Hd2. cbn. apply elem_of_dom. by rewrite lookup_insert_ne. }
  { cbn. by rewrite lookup_insert_eq. }
  exists s'. split; [exact E3|]. rewrite insert_insert_eq in Hm3. cbn [u_ctx u_blocks] in Hc3, Hb3. rewrite insert_insert_eq in Hc3. split; [|done].
  constructor; [exact Hm3| |].
  - intros x q Hq. rewrite Hc3. cbn [a_ready] in Hq. apply lookup_insert_Some in Hq as [[<- <-]|[Hne Hq]].
    + split; [done|]. rewrite lookup_insert_eq. by eexists.
    + rewrite lookup_insert_ne by done. by apply Hr.
  - intros x Hxc. rewrite Hc3 in Hxc. assert (Hxs : is_Some (u_ctx s !! x)) by (apply lookup_insert_is_Some' in Hxc as [<-|?]; [by eexists|done]).
    destruct (Hx x Hxs) as [[d Hxm] Hxt]. split; [|done]. apply elem_of_dom. rewrite Hd3. cbn. rewrite Hd2. cbn. rewrite dom_insert_L.
    assert (x <> loc) by congruence. apply elem_of_dom_2 in Hxm. set_solver.
Qed.

Lemma entered_ok x p s : own_place x p -> user_run (run_of p) s = Some (entered p, s).
Proof. destruct p as [|[]]; done. Qed.

End spec.

(** ** A context and its end

    Context 1 is the program's own; 2 is made with a stack of its own and
    signal 5 to be blocked, entered, and left by its end. *)
Definition demo_um : mach uframe :=
  Mach (<[1%positive := zero_ctx]> (<[2%positive := zero_ctx]> {[9%positive := zero_ctx]})) ∅ NULL {[3]} EIO.
Definition demo_ust : ust := Ust (<[1%positive := UCtx false NULL 0 false]> {[2%positive := UCtx false NULL 0 false]}) ∅ None demo_um.
Definition demo_ua : amach uframe := AMach ∅ {[3]} EIO.
Lemma demo_uinv : uinv 9 demo_ust demo_ua.
Proof.
  constructor; [|done|].
  - constructor; [done|done|done| |by split; [by eexists|]]. intros x y c d t [? H]. done.
  - cbn. intros x Hx. apply lookup_insert_is_Some in Hx as [<-|[_ Hx]]; [by split; [by eexists|]|].
    apply lookup_singleton_is_Some in Hx as <-. by split; [by eexists|].
Qed.
Definition demo_make (sigmask : option (gset Z)) : st ust uruns := pth_uctx_make demo_stack 8 true (Some 2%positive) NULL (Some 30%positive) 16384 sigmask
  (Some 70%positive) 71 (Some 1%positive).

(** The mask that [pth_uctx_make] is given has no effect: that of the maker is
    in force when the start function is called. *)
Lemma uctx_make_no_sigmask :
  option_map (fun x => (x.1, m_mask (u_m x.2))) ((demo_make (Some {[5]});; pth_uctx_switch demo_stack (Some 1%positive) (Some 2%positive)) demo_ust)
  = Some (UEnter 2 (Some 1%positive) 70 71, {[3]}).
Proof. vm_compute. reflexivity. Qed.

(** Making a context again forgets the stack that was allocated before: it is
    never given back. *)
Lemma uctx_remake_leaks :
  option_map (fun x => u_blocks x.2) ((demo_make None;;
    pth_uctx_make demo_stack 8 true (Some 2%positive) NULL (Some 31%positive) 16384 None (Some 70%positive) 71 NULL;;
    pth_uctx_destroy (Some 2%positive)) demo_ust) = Some {[30%positive]}.
Proof. vm_compute. reflexivity. Qed.

(** A context that runs passes the test of [pth_uctx_switch]: a switch to itself
    resumes a stack that is not suspended. *)
Lemma uctx_switch_self : exists s, (demo_make None;; pth_uctx_switch demo_stack (Some 1%positive) (Some 2%positive);;
    trampoline_end demo_stack 9 (Some 1%positive)) demo_ust = Some (UBack 1, s) /\
  uc_mctx_set <$> u_ctx s !! 1%positive = Some true /\ pth_uctx_switch demo_stack (Some 1%positive) (Some 1%positive) s = None.
Proof. eexists. split; [vm_compute; reflexivity|]. split; vm_compute; reflexivity. Qed.
