(* ===== verification/Format.v ===== *)
(** * Formatted output (src/pth_string.c)

    The formatter of [pth_snprintf] is a state machine that reads the format
    one character at a time and writes characters with a bound. Characters are
    integers from 0 to 255; a string in memory is the list of the characters
    from its first one on. Reading past the end of the memory of the format,
    a write outside of the buffer and an argument of the wrong type are
    undefined. Arithmetic of [long double] is a parameter; overflow of [int]
    wraps around. *)

From stdpp Require Import base numbers list.
From S2P Require Import Prelude.
Open Scope Z_scope.

(** The operations on [LDOUBLE] that the formatter uses; [ld_trunc] is the
    conversion to [long]. *)
Class LDouble (F : Type) := {
  ld_of_Z : Z -> F;
  ld_lt : F -> F -> bool;
  ld_ge : F -> F -> bool;
  ld_opp : F -> F;
  ld_mul : F -> F -> F;
  ld_sub : F -> F -> F;
  ld_half : F;
  ld_trunc : F -> Z
}.

(** A variable argument; [ANum] is the address of an integer. *)
Inductive farg (F : Type) :=
| AInt (z : Z) | ALong (z : Z) | ALLong (z : Z) | AStr (s : option (list Z)) | APtr (z : Z) | ADouble (f : F) | ALDouble (f : F)
| ANum (p : addr).
Arguments AInt {F}. Arguments ALong {F}. Arguments ALLong {F}. Arguments AStr {F}. Arguments APtr {F}. Arguments ADouble {F}.
Arguments ALDouble {F}. Arguments ANum {F}.

(** The buffer, NULL if there is none, the number of characters so far, and
    the integers stored for [%n]. *)
Record out := Out { o_buf : option (list Z); o_len : Z; o_nums : list (addr * Z) }.

Definition DP_F_MINUS : Z := 1.
Definition DP_F_PLUS : Z := 2.
Definition DP_F_SPACE : Z := 4.
Definition DP_F_NUM : Z := 8.
Definition DP_F_ZERO : Z := 16.
Definition DP_F_UP : Z := 32.
Definition DP_F_UNSIGNED : Z := 64.
Definition flag (flags f : Z) : bool := negb (Z.land flags f =? 0).

Inductive dp_c := DP_C_NONE | DP_C_SHORT | DP_C_LONG | DP_C_LDOUBLE | DP_C_LLONG.
Inductive dp_s := DP_S_DEFAULT | DP_S_FLAGS | DP_S_MIN | DP_S_DOT | DP_S_MAX | DP_S_MOD | DP_S_CONV | DP_S_DONE.
#[export] Instance dp_s_dec : EqDecision dp_s.
Proof. solve_decision. Defined.

Definition MAX (p q : Z) : Z := if p >=? q then p else q.
Definition isdigit (c : Z) : bool := (48 <=? c) && (c <=? 57).
Definition char_to_int (c : Z) : Z := c - 48.
Definition i16 (z : Z) : Z := swrap 16 z.

Section format.
Context {F : Type} `{!LDouble F} (maxlen : Z).

(** ** Output *)

Definition dopr_outch (c : Z) : st out unit := fun s =>
  if o_len s <? maxlen then
    match o_buf s with
    | None => Some (tt, Out None (o_len s + 1) (o_nums s))
    | Some b => if o_len s <? Z.of_nat (length b)
                then Some (tt, Out (Some (<[Z.to_nat (o_len s) := wrap 8 c]> b)) (o_len s + 1) (o_nums s)) else None
    end
  else Some (tt, s).

(** [while (n > 0) { dopr_outch(c); --n; }]. *)
Fixpoint out_times (n : nat) (c : Z) : st out unit :=
  match n with O => mret tt | S n' => dopr_outch c;; out_times n' c end.
Fixpoint outs (l : list Z) : st out unit :=
  match l with [] => mret tt | c :: l' => dopr_outch c;; outs l' end.

(** ** Strings *)

Fixpoint strlen (value : list Z) : option Z :=
  match value with [] => None | c :: v => if c =? 0 then Some 0 else option_map (Z.add 1) (strlen v) end.
(** [n]: a bound for the number of iterations. *)
Fixpoint pad_while (n : nat) (padlen cnt max : Z) : st out Z :=
  if (padlen >? 0) && (cnt <? max) then
    match n with O => undef | S n' => dopr_outch 32;; pad_while n' (padlen - 1) (cnt + 1) max end
  else mret cnt.
Fixpoint str_while (value : list Z) (cnt max : Z) : st out Z :=
  match value with
  | [] => undef
  | c :: v => if negb (c =? 0) && (cnt <? max) then dopr_outch c;; str_while v (cnt + 1) max else mret cnt
  end.
Fixpoint pad_after (n : nat) (padlen cnt max : Z) : st out unit :=
  if (padlen <? 0) && (cnt <? max) then
    match n with O => undef | S n' => dopr_outch 32;; pad_after n' (padlen + 1) (cnt + 1) max end
  else mret tt.

(** ["<NULL>"]. *)
Definition null_text : list Z := [60; 78; 85; 76; 76; 62; 0].
Definition fmtstr (value : option (list Z)) (flags min max : Z) : st out unit :=
  let value := match value with None => null_text | Some v => v end in
  match strlen value with
  | None => undef
  | Some strln =>
      let padlen := i32 (min - strln) in
      let padlen := if padlen <? 0 then 0 else padlen in
      let left := flag flags DP_F_MINUS in
      cnt ← pad_while (Z.to_nat padlen) (if left then - padlen else padlen) 0 max;
      cnt ← str_while value cnt max;
      pad_after (Z.to_nat padlen) (if left then - padlen else 0) cnt max
  end.

(** ** Integers *)

Definition digit (caps : bool) (d : Z) : Z := if d <? 10 then 48 + d else (if caps then 55 else 87) + d.
(** The digits from the lowest on, [n] at most. *)
Fixpoint conv_digits (n : nat) (caps : bool) (base u : Z) : list Z :=
  match n with
  | O => []
  | S n' => digit caps (u mod base) :: if u / base =? 0 then [] else conv_digits n' caps base (u / base)
  end.
Definition convert (caps : bool) (base u : Z) : list Z :=
  let c := conv_digits 20 caps base u in if (length c =? 20)%nat then take 19 c else c.

Definition fmtint (value base min max flags : Z) : st out unit :=
  let max := if max <? 0 then 0 else max in
  let '(signvalue, uvalue) :=
    if negb (flag flags DP_F_UNSIGNED) then
      if value <? 0 then (45, u64 (- value))
      else (if flag flags DP_F_PLUS then 43 else if flag flags DP_F_SPACE then 32 else 0, u64 value)
    else (0, u64 value) in
  let digits := convert (flag flags DP_F_UP) base uvalue in
  let place := Z.of_nat (length digits) in
  let zpadlen := max - place in
  let spadlen := i32 (min - MAX max place - (if signvalue =? 0 then 0 else 1)) in
  let zpadlen := if zpadlen <? 0 then 0 else zpadlen in
  let spadlen := if spadlen <? 0 then 0 else spadlen in
  let '(zpadlen, spadlen) := if flag flags DP_F_ZERO then (MAX zpadlen spadlen, 0) else (zpadlen, spadlen) in
  let left := flag flags DP_F_MINUS in
  (if left then mret tt else out_times (Z.to_nat spadlen) 32);;
  (if signvalue =? 0 then mret tt else dopr_outch signvalue);;
  out_times (Z.to_nat zpadlen) 48;;
  outs (rev digits);;
  (if left then out_times (Z.to_nat spadlen) 32 else mret tt).

(** ** Floating point *)

Definition math_abs (value : F) : F := if ld_lt value (ld_of_Z 0) then ld_opp value else value.
Fixpoint math_pow10 (exponent : nat) : F :=
  match exponent with O => ld_of_Z 1 | S n => ld_mul (math_pow10 n) (ld_of_Z 10) end.
Definition math_round (value : F) : Z :=
  let intpart := ld_trunc value in
  if ld_ge (ld_sub value (ld_of_Z intpart)) ld_half then i64 (intpart + 1) else intpart.

(** The integral and the fractional part, as [max] digits. *)
Definition fp_parts (ufvalue : F) (max : Z) : Z * Z :=
  let intpart := ld_trunc ufvalue in
  let p := math_pow10 (Z.to_nat max) in
  let fracpart := math_round (ld_mul p (ld_sub ufvalue (ld_of_Z intpart))) in
  if ld_ge (ld_of_Z fracpart) p then (i64 (intpart + 1), ld_trunc (ld_sub (ld_of_Z fracpart) p)) else (intpart, fracpart).

(** An index into the digits that is negative is undefined. *)
Definition fmtfp (fvalue : F) (min max flags : Z) : st out unit :=
  let max := if max <? 0 then 6 else max in
  let ufvalue := math_abs fvalue in
  let signvalue := if ld_lt fvalue (ld_of_Z 0) then 45 else if flag flags DP_F_PLUS then 43 else if flag flags DP_F_SPACE then 32 else 0 in
  let max := if max >? 9 then 9 else max in
  let '(intpart, fracpart) := fp_parts ufvalue max in
  if (intpart <? 0) || (fracpart <? 0) then undef else
  let iconvert := convert false 10 intpart in
  let fconvert := convert false 10 fracpart in
  let iplace := Z.of_nat (length iconvert) in
  let fplace := Z.of_nat (length fconvert) in
  let padlen := i32 (min - iplace - max - 1 - (if signvalue =? 0 then 0 else 1)) in
  let zpadlen := max - fplace in
  let zpadlen := if zpadlen <? 0 then 0 else zpadlen in
  let padlen := if padlen <? 0 then 0 else padlen in
  let left := flag flags DP_F_MINUS in
  let zero := flag flags DP_F_ZERO && negb left && (padlen >? 0) in
  (if zero then
     (if signvalue =? 0 then out_times (Z.to_nat padlen) 48
      else dopr_outch signvalue;; out_times (Z.to_nat (padlen - 1)) 48)
   else
     (if left then mret tt else out_times (Z.to_nat padlen) 32);;
     (if signvalue =? 0 then mret tt else dopr_outch signvalue));;
  outs (rev iconvert);;
  (if max >? 0 then dopr_outch 46;; outs (rev fconvert) else mret tt);;
  out_times (Z.to_nat zpadlen) 48;;
  (if left then out_times (Z.to_nat padlen) 32 else mret tt).

(** ** The state machine

    [d_in]: the character in [ch] and the memory from [format] on. *)
Record dloc := Dloc {
  d_state : dp_s; d_in : list Z; d_flags : Z; d_cflags : dp_c; d_min : Z; d_max : Z; d_args : list (farg F)
}.

(** [ch = *format++]. *)
Definition next (l : list Z) : st out (list Z) :=
  match l with _ :: (_ :: _) as l' => mret l' | _ => undef end.

(** A computation that only fails. *)
Definition opt {A : Type} (o : option A) : st out A := match o with Some a => mret a | None => undef end.

(** The next argument as an [int], [long] and so on. *)
Definition va_int (args : list (farg F)) : option (Z * list (farg F)) :=
  match args with AInt z :: r => Some (i32 z, r) | _ => None end.
Definition va_dbl (cflags : dp_c) (args : list (farg F)) : option (F * list (farg F)) :=
  match cflags, args with
  | DP_C_LDOUBLE, ALDouble f :: r => Some (f, r)
  | DP_C_LDOUBLE, _ => None
  | _, ADouble f :: r => Some (f, r)
  | _, _ => None
  end.
(** The value of a signed and an unsigned conversion. *)
Definition va_signed (cflags : dp_c) (args : list (farg F)) : option (Z * list (farg F)) :=
  match cflags, args with
  | DP_C_SHORT, AInt z :: r => Some (i16 (i32 z), r)
  | DP_C_LONG, ALong z :: r => Some (i64 z, r)
  | DP_C_LLONG, ALLong z :: r => Some (i64 z, r)
  | (DP_C_NONE | DP_C_LDOUBLE), AInt z :: r => Some (i32 z, r)
  | _, _ => None
  end.
Definition va_unsigned (cflags : dp_c) (args : list (farg F)) : option (Z * list (farg F)) :=
  match cflags, args with
  | DP_C_SHORT, AInt z :: r => Some (wrap 16 z, r)
  | DP_C_LONG, ALong z :: r => Some (i64 (u64 z), r)
  | DP_C_LLONG, ALLong z :: r => Some (i64 (u64 z), r)
  | (DP_C_NONE | DP_C_LDOUBLE), AInt z :: r => Some (u32 z, r)
  | _, _ => None
  end.
Definition narrow (cflags : dp_c) (z : Z) : Z :=
  match cflags with DP_C_SHORT => i16 z | DP_C_LONG | DP_C_LLONG => i64 z | _ => i32 z end.
Definition store_num (cflags : dp_c) (p : addr) : st out unit :=
  fun s => Some (tt, Out (o_buf s) (o_len s) ((p, narrow cflags (o_len s)) :: o_nums s)).

(** One conversion with the character [ch]; the remaining arguments. *)
Definition dopr_conv (ch flags : Z) (cflags : dp_c) (min max : Z) (args : list (farg F)) : st out (list (farg F)) :=
  if (ch =? 100) || (ch =? 105) then            (* d, i *)
    v ← opt (va_signed cflags args); fmtint v.1 10 min max flags;; mret v.2
  else if (ch =? 88) || (ch =? 120) || (ch =? 111) || (ch =? 117) then  (* X, x, o, u *)
    v ← opt (va_unsigned cflags args);
    fmtint v.1 (if ch =? 111 then 8 else if ch =? 117 then 10 else 16) min max
      (Z.lor (if ch =? 88 then Z.lor flags DP_F_UP else flags) DP_F_UNSIGNED);;
    mret v.2
  else if ch =? 102 then                        (* f *)
    v ← opt (va_dbl cflags args); fmtfp v.1 min max flags;; mret v.2
  else if (ch =? 69) || (ch =? 101) || (ch =? 71) || (ch =? 103) then   (* E, e, G, g *)
    v ← opt (va_dbl cflags args); mret v.2
  else if ch =? 99 then                         (* c *)
    v ← opt (va_int args); dopr_outch v.1;; mret v.2
  else if ch =? 115 then                        (* s *)
    match args with
    | AStr s :: r => fmtstr s flags min (if max <? 0 then i32 maxlen else max);; mret r
    | _ => undef
    end
  else if ch =? 112 then                        (* p *)
    match args with APtr z :: r => fmtint (i64 z) 16 min max flags;; mret r | _ => undef end
  else if ch =? 110 then                        (* n *)
    match args with ANum p :: r => store_num cflags p;; mret r | _ => undef end
  else if ch =? 37 then dopr_outch ch;; mret args
  else mret args.

(** One round of the loop. *)
Definition dopr_step (d : dloc) : st out dloc :=
  match d_in d with
  | [] => undef
  | ch :: fmt =>
      o ← get_st;
      let d := if (ch =? 0) || (o_len o >=? maxlen)
               then Dloc DP_S_DONE (d_in d) (d_flags d) (d_cflags d) (d_min d) (d_max d) (d_args d) else d in
      let goto s l := Dloc s l (d_flags d) (d_cflags d) (d_min d) (d_max d) (d_args d) in
      match d_state d with
      | DP_S_DEFAULT =>
          if ch =? 37 then l ← next (d_in d); mret (goto DP_S_FLAGS l)
          else dopr_outch ch;; l ← next (d_in d); mret (goto DP_S_DEFAULT l)
      | DP_S_FLAGS =>
          let more f := l ← next (d_in d);
            mret (Dloc DP_S_FLAGS l (Z.lor (d_flags d) f) (d_cflags d) (d_min d) (d_max d) (d_args d)) in
          if ch =? 45 then more DP_F_MINUS
          else if ch =? 43 then more DP_F_PLUS
          else if ch =? 32 then more DP_F_SPACE
          else if ch =? 35 then more DP_F_NUM
          else if ch =? 48 then more DP_F_ZERO
          else mret (goto DP_S_MIN (d_in d))
      | DP_S_MIN =>
          if isdigit ch then
            l ← next (d_in d);
            mret (Dloc DP_S_MIN l (d_flags d) (d_cflags d) (i32 (10 * d_min d + char_to_int ch)) (d_max d) (d_args d))
          else if ch =? 42 then
            v ← opt (va_int (d_args d));
            l ← next (d_in d);
            mret (Dloc DP_S_DOT l (d_flags d) (d_cflags d) v.1 (d_max d) v.2)
          else mret (goto DP_S_DOT (d_in d))
      | DP_S_DOT =>
          if ch =? 46 then l ← next (d_in d); mret (goto DP_S_MAX l) else mret (goto DP_S_MOD (d_in d))
      | DP_S_MAX =>
          if isdigit ch then
            let max := if d_max d <? 0 then 0 else d_max d in
            l ← next (d_in d);
            mret (Dloc DP_S_MAX l (d_flags d) (d_cflags d) (d_min d) (i32 (10 * max + char_to_int ch)) (d_args d))
          else if ch =? 42 then
            v ← opt (va_int (d_args d));
            l ← next (d_in d);
            mret (Dloc DP_S_MOD l (d_flags d) (d_cflags d) (d_min d) v.1 v.2)
          else mret (goto DP_S_MOD (d_in d))
      | DP_S_MOD =>
          let conv c l := mret (Dloc DP_S_CONV l (d_flags d) c (d_min d) (d_max d) (d_args d)) in
          if ch =? 104 then l ← next (d_in d); conv DP_C_SHORT l
          else if ch =? 108 then
            match fmt with
            | [] => undef
            | c :: _ => if c =? 108 then l ← next fmt; conv DP_C_LLONG l else l ← next (d_in d); conv DP_C_LONG l
            end
          else if ch =? 113 then l ← next (d_in d); conv DP_C_LLONG l
          else if ch =? 76 then l ← next (d_in d); conv DP_C_LDOUBLE l
          else conv (d_cflags d) (d_in d)
      | DP_S_CONV =>
          args ← dopr_conv ch (d_flags d) (d_cflags d) (d_min d) (d_max d) (d_args d);
          l ← (if ch =? 119 then next (d_in d) else mret (d_in d));      (* w *)
          l ← next l;
          mret (Dloc DP_S_DEFAULT l 0 DP_C_NONE 0 (-1) args)
      | DP_S_DONE => mret d
      end
  end.

(** [fuel]: a bound for the number of rounds. *)
Fixpoint dopr_loop (fuel : nat) (d : dloc) : st out unit :=
  match d_state d with
  | DP_S_DONE => mret tt
  | _ => match fuel with O => undef | S n => d' ← dopr_step d; dopr_loop n d' end
  end.

(** Behind the loop: the end of the string. *)
Definition dopr_end : st out Z := fun s =>
  let currlen := if o_len s >=? u64 (maxlen - 1) then u64 (maxlen - 1) else o_len s in
  match o_buf s with
  | None => Some (currlen, Out None currlen (o_nums s))
  | Some b => if currlen <? Z.of_nat (length b)
              then Some (currlen, Out (Some (<[Z.to_nat currlen := 0]> b)) currlen (o_nums s)) else None
  end.
End format.

Section entry.
Context {F : Type} `{!LDouble F}.

Definition dopr_fuel (format : list Z) : nat := 8 * S (length format).
(** [maxlen == -1] stands for the largest size. *)
Definition dopr (maxlen : Z) (format : list Z) (args : list (farg F)) : st out Z :=
  let maxlen := if maxlen =? 2 ^ 64 - 1 then 2 ^ 63 - 1 else maxlen in
  dopr_loop maxlen (dopr_fuel format) (Dloc DP_S_DEFAULT format 0 DP_C_NONE 0 (-1) args);;
  dopr_end maxlen.

(** The result, the buffer and the stored integers. *)
Definition pth_vsnprintf (str : option (list Z)) (count : Z) (fmt : list Z) (args : list (farg F))
    : option (Z * option (list Z) * list (addr * Z)) :=
  match (match str with None => Some None | Some [] => None | Some (_ :: b) => Some (Some (0 :: b)) end : option (option (list Z))) with
  | None => None
  | Some b =>
      match dopr count fmt args (Out b 0 []) with
      | Some (retlen, s) => Some (i32 retlen, o_buf s, o_nums s)
      | None => None
      end
  end.
Definition pth_snprintf := pth_vsnprintf.

(** [malloc n]: the memory that is allocated, if any. The arguments of the
    second pass are what [ap] gives after the first one. *)
Definition pth_vasprintf (malloc : Z -> option (list Z)) (fmt : list Z) (ap ap' : list (farg F)) : option (option (list Z)) :=
  match pth_vsnprintf None (2 ^ 64 - 1) fmt ap with
  | None => None
  | Some (n, _, _) =>
      match malloc (n + 1) with
      | None => Some None
      | Some rv => match pth_vsnprintf (Some rv) (u64 (n + 1)) fmt ap' with
                   | Some (_, b, _) => Some b
                   | None => None end
      end
  end.
End entry.
