(* ===== verification/Formatspec.v ===== *)
(** * What the formatter writes

    [render] says what text a format stands for, by parsing the directives and
    converting the arguments; the state machine writes this text, cut to fit
    the buffer. *)

From Stdlib Require Strings.String Strings.Ascii.
From Stdlib Require Import QArith_base.
From stdpp Require Import base numbers list.
From S2P Require Import Prelude Format.
Open Scope Z_scope.

(** ** The text of a directive *)

Section text.
Context {F : Type} `{!LDouble F}.

Definition blanks (n : Z) : list Z := replicate (Z.to_nat n) 32.
Definition zeros (n : Z) : list Z := replicate (Z.to_nat n) 48.
Definition sign_text (c : Z) : list Z := if c =? 0 then [] else [c].

(** [max]: the number of characters at most, if it is limited. *)
Definition str_text (value : option (list Z)) (flags min : Z) (max : option Z) : option (list Z) :=
  let value := default null_text value in
  n ← strlen value;
  let s := take (Z.to_nat n) value in
  let pad := blanks (Z.max 0 (i32 (min - n))) in
  let text := if flag flags DP_F_MINUS then s ++ pad else pad ++ s in
  Some (match max with Some m => take (Z.to_nat m) text | None => text end).

Definition sign_of (neg : bool) (flags : Z) : Z :=
  if neg then 45 else if flag flags DP_F_PLUS then 43 else if flag flags DP_F_SPACE then 32 else 0.
Definition int_text (value base min max flags : Z) : list Z :=
  let uns := flag flags DP_F_UNSIGNED in
  let sign := if uns then 0 else sign_of (value <? 0) flags in
  let u := if negb uns && (value <? 0) then u64 (- value) else u64 value in
  let digits := rev (convert (flag flags DP_F_UP) base u) in
  let place := Z.of_nat (length digits) in
  let fill := Z.max 0 (i32 (min - Z.max (Z.max 0 max) place - (if sign =? 0 then 0 else 1))) in
  let zs := Z.max 0 (Z.max 0 max - place) in
  let zero := flag flags DP_F_ZERO in
  let body := sign_text sign ++ zeros (if zero then Z.max zs fill else zs) ++ digits in
  let pad := blanks (if zero then 0 else fill) in
  if flag flags DP_F_MINUS then body ++ pad else pad ++ body.

Definition fp_text (fvalue : F) (min max flags : Z) : option (list Z) :=
  let max := Z.min 9 (if max <? 0 then 6 else max) in
  let sign := sign_of (ld_lt fvalue (ld_of_Z 0)) flags in
  let '(intpart, fracpart) := fp_parts (math_abs fvalue) max in
  if (intpart <? 0) || (fracpart <? 0) then None else
  let ip := rev (convert false 10 intpart) in
  let fp := rev (convert false 10 fracpart) in
  let fill := Z.max 0 (i32 (min - Z.of_nat (length ip) - max - 1 - (if sign =? 0 then 0 else 1))) in
  let num := ip ++ (if max >? 0 then 46 :: fp else []) ++ zeros (Z.max 0 (max - Z.of_nat (length fp))) in
  Some (if flag flags DP_F_MINUS then sign_text sign ++ num ++ blanks fill
        else if flag flags DP_F_ZERO && (fill >? 0) then
          sign_text sign ++ zeros (fill - (if sign =? 0 then 0 else 1)) ++ num
        else blanks fill ++ sign_text sign ++ num).

(** A conversion: the text and the arguments that are left. *)
Definition conv_text (ch flags : Z) (cflags : dp_c) (min max : Z) (args : list (farg F)) : option (list Z * list (farg F)) :=
  if (ch =? 100) || (ch =? 105) then v ← va_signed cflags args; Some (int_text v.1 10 min max flags, v.2)
  else if (ch =? 88) || (ch =? 120) || (ch =? 111) || (ch =? 117) then
    v ← va_unsigned cflags args;
    Some (int_text v.1 (if ch =? 111 then 8 else if ch =? 117 then 10 else 16) min max
      (Z.lor (if ch =? 88 then Z.lor flags DP_F_UP else flags) DP_F_UNSIGNED), v.2)
  else if ch =? 102 then v ← va_dbl cflags args; t ← fp_text v.1 min max flags; Some (t, v.2)
  else if (ch =? 69) || (ch =? 101) || (ch =? 71) || (ch =? 103) then v ← va_dbl cflags args; Some ([], v.2)
  else if ch =? 99 then v ← va_int args; Some ([v.1], v.2)
  else if ch =? 115 then
    match args with
    | AStr s :: r => t ← str_text s flags min (if max <? 0 then None else Some max); Some (t, r)
    | _ => None end
  else if ch =? 112 then match args with APtr z :: r => Some (int_text (i64 z) 16 min max flags, r) | _ => None end
  else if ch =? 110 then match args with ANum p :: r => Some ([], r) | _ => None end
  else if ch =? 37 then Some ([37], args)
  else Some ([], args).

(** ** Parsing a directive *)

Definition flag_of (c : Z) : option Z :=
  if c =? 45 then Some DP_F_MINUS else if c =? 43 then Some DP_F_PLUS else if c =? 32 then Some DP_F_SPACE
  else if c =? 35 then Some DP_F_NUM else if c =? 48 then Some DP_F_ZERO else None.
Fixpoint p_flags (acc : Z) (l : list Z) : Z * list Z :=
  match l with
  | [] => (acc, [])
  | c :: l' => match flag_of c with Some f => p_flags (Z.lor acc f) l' | None => (acc, l) end
  end.
Fixpoint p_number (pre : Z -> Z) (acc : Z) (l : list Z) : Z * list Z :=
  match l with
  | [] => (acc, [])
  | c :: l' => if isdigit c then p_number pre (i32 (10 * pre acc + char_to_int c)) l' else (acc, l)
  end.
(** A number, or a star for the next argument. *)
Definition p_star (pre : Z -> Z) (acc : Z) (l : list Z) (args : list (farg F)) : option (Z * list Z * list (farg F)) :=
  match p_number pre acc l with
  | (n, c :: l') => if c =? 42 then v ← va_int args; Some (v.1, l', v.2) else Some (n, c :: l', args)
  | (n, []) => Some (n, [], args)
  end.
Definition p_prec (l : list Z) (args : list (farg F)) : option (Z * list Z * list (farg F)) :=
  match l with
  | c :: l' => if c =? 46 then p_star (fun m => if m <? 0 then 0 else m) (-1) l' args else Some (-1, l, args)
  | [] => Some (-1, [], args)
  end.
Definition p_mod (l : list Z) : dp_c * list Z :=
  match l with
  | c :: l' =>
      if c =? 104 then (DP_C_SHORT, l')
      else if c =? 108 then
        match l' with
        | c' :: l'' => if c' =? 108 then (DP_C_LLONG, l'') else (DP_C_LONG, l')
        | [] => (DP_C_LONG, l') end
      else if c =? 113 then (DP_C_LLONG, l')
      else if c =? 76 then (DP_C_LDOUBLE, l') else (DP_C_NONE, l)
  | [] => (DP_C_NONE, [])
  end.

(** The text of a format from [l] on; [n] bounds the number of directives and
    characters. *)
Fixpoint render (n : nat) (l : list Z) (args : list (farg F)) : option (list Z) :=
  match n, l with
  | S n', c :: l' =>
      if c =? 0 then Some []
      else if c =? 37 then
        let '(flags, l1) := p_flags 0 l' in
        w ← p_star id 0 l1 args;
        let '(min, l2, args2) := w in
        p ← p_prec l2 args2;
        let '(max, l3, args3) := p in
        match p_mod l3 with
        | (_, []) => None
        | (cflags, ch :: l4) =>
            if ch =? 0 then Some [] else
            t ← conv_text ch flags cflags min max args3;
            r ← render n' (if ch =? 119 then tail l4 else l4) t.2;
            Some (map (wrap 8) t.1 ++ r)
        end
      else r ← render n' l' args; Some (wrap 8 c :: r)
  | _, _ => None
  end.
Definition format_text (fmt : list Z) (args : list (farg F)) : option (list Z) := render (length fmt) fmt args.
End text.

(** ** The conversions write their text *)

Section outs.
Context {F : Type} `{!LDouble F} (maxlen : Z).
Implicit Types o : out.

Lemma outs_app l1 l2 o : outs maxlen (l1 ++ l2) o = (outs maxlen l1;; outs maxlen l2) o.
Proof.
  revert o. induction l1 as [|c l1 IH]; intros o; [done|]. cbn [app outs]. rewrite st_bind_assoc.
  unfold mbind, st_bind. destruct (dopr_outch maxlen c o) as [[[] o']|]; [|done]. by rewrite IH.
Qed.
Lemma out_times_outs n c o : out_times maxlen n c o = outs maxlen (replicate n c) o.
Proof.
  revert o. induction n as [|n IH]; intros o; [done|]. cbn [replicate outs out_times]. unfold mbind, st_bind.
  destruct (dopr_outch maxlen c o) as [[[] o']|]; [|done]. by rewrite IH.
Qed.
Lemma outs_one c o : dopr_outch maxlen c o = outs maxlen [c] o.
Proof. cbn. unfold mbind, st_bind. by destruct (dopr_outch maxlen c o) as [[[] o']|]. Qed.
(** A computation that does nothing but write a text. *)
Definition writes (m : st out unit) (l : list Z) : Prop := forall o, m o = outs maxlen l o.
Lemma writes_seq m1 m2 l1 l2 : writes m1 l1 -> writes m2 l2 -> writes (m1;; m2) (l1 ++ l2).
Proof.
  intros H1 H2 o. rewrite outs_app. unfold mbind, st_bind. rewrite H1. destruct (outs maxlen l1 o) as [[[] o']|]; [|done]. apply H2.
Qed.
Lemma writes_if (b : bool) m1 m2 l1 l2 : writes m1 l1 -> writes m2 l2 -> writes (if b then m1 else m2) (if b then l1 else l2).
Proof. by destruct b. Qed.
Lemma writes_eq m l l' : writes m l -> l = l' -> writes m l'.
Proof. by intros H <-. Qed.
Lemma writes_ret : writes (mret tt) [].
Proof. done. Qed.
Lemma writes_times n c : writes (out_times maxlen n c) (replicate n c).
Proof. intros o. apply out_times_outs. Qed.
Lemma writes_outs l : writes (outs maxlen l) l.
Proof. done. Qed.
Lemma writes_one c : writes (dopr_outch maxlen c) [c].
Proof. intros o. apply outs_one. Qed.
Ltac writes := first [apply writes_ret|apply writes_times|apply writes_outs|apply writes_one
  |apply writes_seq; [writes|writes]|apply writes_if; [writes|writes]].

Lemma MAX_max p q : MAX p q = Z.max p q.
Proof. unfold MAX. destruct (Z.geb_spec p q); lia. Qed.
Lemma clip0 n : (if n <? 0 then 0 else n) = Z.max 0 n.
Proof. destruct (Z.ltb_spec n 0); lia. Qed.
Lemma clip9 n : (if n >? 9 then 9 else n) = Z.min 9 n.
Proof. destruct (Z.gtb_spec n 9); lia. Qed.
Lemma if_fun {A B : Type} (f : A -> B) (b : bool) x y : f (if b then x else y) = if b then f x else f y.
Proof. by destruct b. Qed.

Lemma fmtint_text value base min max flags :
  writes (fmtint maxlen value base min max flags) (int_text value base min max flags).
Proof.
  unfold fmtint, int_text. rewrite length_rev. set (uns := flag flags DP_F_UNSIGNED). fold (sign_of false flags).
  assert (Hs : (if negb uns then if value <? 0 then (45, u64 (- value)) else (sign_of false flags, u64 value) else (0, u64 value)) =
    (if uns then 0 else sign_of (value <? 0) flags, if negb uns && (value <? 0) then u64 (- value) else u64 value))
    by (destruct uns; cbn [negb andb]; [done|by destruct (value <? 0)]).
  rewrite Hs. set (sign := if uns then 0 else _). set (u := if negb uns && _ then _ else _).
  clearbody sign u. clear Hs uns. cbv zeta. set (ds := convert _ base u). rewrite !clip0, !MAX_max.
  set (fill := Z.max 0 (i32 _)). set (zs := Z.max 0 (_ - _)).
  destruct (flag flags DP_F_ZERO); cbv zeta; destruct (flag flags DP_F_MINUS); (eapply writes_eq; [writes|]);
    by rewrite ?app_nil_l, ?app_nil_r, <- ?app_assoc.
Qed.

Lemma fmtfp_text fvalue min max flags t : fp_text fvalue min max flags = Some t ->
  writes (fmtfp maxlen fvalue min max flags) t.
Proof.
  unfold fmtfp, fp_text. set (mx := if max <? 0 then 6 else max). rewrite clip9. fold (sign_of (ld_lt fvalue (ld_of_Z 0)) flags).
  set (sign := sign_of _ flags). set (mx' := Z.min 9 mx). destruct (fp_parts (math_abs fvalue) mx') as [ip fp].
  destruct ((ip <? 0) || (fp <? 0)); [done|]. intros [= <-]. rewrite !length_rev, !clip0.
  set (fill := Z.max 0 (i32 _)). set (a := convert false 10 ip). set (b := convert false 10 fp).
  destruct (flag flags DP_F_MINUS); cbn [negb]; [rewrite andb_false_r|rewrite andb_true_r]; cbn [andb];
    [|destruct (flag flags DP_F_ZERO && (fill >? 0))]; (eapply writes_eq; [writes|]);
    unfold sign_text; destruct (sign =? 0), (mx' >? 0); rewrite ?Z.sub_0_r, ?app_nil_l, ?app_nil_r, <- ?app_assoc; done.
Qed.

Lemma bind_outch {A : Type} c (k : st out A) o :
  (dopr_outch maxlen c;; k) o = match dopr_outch maxlen c o with Some (_, o') => k o' | None => None end.
Proof. unfold mbind, st_bind. by destruct (dopr_outch maxlen c o) as [[[] o']|]. Qed.
Lemma bind_outs_cons {A : Type} c l (k : st out A) o :
  (outs maxlen (c :: l);; k) o = match dopr_outch maxlen c o with Some (_, o') => (outs maxlen l;; k) o' | None => None end.
Proof. cbn [outs]. rewrite st_bind_assoc. apply bind_outch. Qed.

Lemma pad_while_text n : forall padlen cnt max o, padlen <= Z.of_nat n ->
  pad_while maxlen n padlen cnt max o =
  (outs maxlen (blanks (Z.min padlen (max - cnt)));; mret (cnt + Z.max 0 (Z.min padlen (max - cnt)))) o.
Proof.
  unfold blanks. induction n as [|n IH]; intros padlen cnt max o Hp; cbn [pad_while];
    (destruct (Z.gtb_spec padlen 0); [destruct (Z.ltb_spec cnt max)|]; cbn [andb];
     [|replace (Z.to_nat _) with O by lia; cbn [replicate outs]; unfold mbind, st_bind, mret, st_ret; do 2 f_equal; lia..]); [lia|].
  replace (Z.to_nat (Z.min padlen (max - cnt))) with (S (Z.to_nat (Z.min (padlen - 1) (max - (cnt + 1))))) by lia.
  cbn [replicate]. rewrite bind_outs_cons, bind_outch.
  destruct (dopr_outch maxlen 32 o) as [[[] o']|]; [|done]. rewrite IH by lia.
  unfold mbind, st_bind. destruct (outs _ _ o') as [[[] o2]|]; [|done]. unfold mret, st_ret. do 2 f_equal. lia.
Qed.
Lemma pad_after_text n : forall padlen cnt max o, - padlen <= Z.of_nat n ->
  pad_after maxlen n padlen cnt max o = outs maxlen (blanks (Z.min (- padlen) (max - cnt))) o.
Proof.
  unfold blanks. induction n as [|n IH]; intros padlen cnt max o Hp; cbn [pad_after];
    (destruct (Z.ltb_spec padlen 0); [destruct (Z.ltb_spec cnt max)|]; cbn [andb];
     [|replace (Z.to_nat _) with O by lia; done..]); [lia|].
  replace (Z.to_nat (Z.min (- padlen) (max - cnt))) with (S (Z.to_nat (Z.min (- (padlen + 1)) (max - (cnt + 1))))) by lia.
  cbn [replicate outs]. rewrite !bind_outch. destruct (dopr_outch maxlen 32 o) as [[[] o']|]; [|done]. by rewrite IH by lia.
Qed.
Lemma str_while_text v : forall n cnt max o, strlen v = Some n ->
  str_while maxlen v cnt max o =
  (outs maxlen (take (Z.to_nat (max - cnt)) (take (Z.to_nat n) v));; mret (cnt + Z.max 0 (Z.min n (max - cnt)))) o.
Proof.
  induction v as [|c v IH]; intros n cnt max o; [done|]. cbn [strlen str_while]. destruct (c =? 0); cbn [negb andb].
  - intros [= <-]. rewrite take_0, take_nil. cbn [outs]. unfold mbind, st_bind, mret, st_ret. do 2 f_equal. lia.
  - destruct (strlen v) as [m|] eqn:Em; [|done]. intros [= <-].
    assert (Hm : 0 <= m).
    { clear -Em. revert m Em. induction v as [|c v IH]; intros m; [done|]. cbn. destruct (c =? 0); [by intros [= <-]|].
      destruct (strlen v) as [k|]; [|done]. intros [= <-]. specialize (IH k eq_refl). lia. }
    destruct (Z.ltb_spec cnt max).
    + replace (Z.to_nat (1 + m)) with (S (Z.to_nat m)) by lia.
      replace (Z.to_nat (max - cnt)) with (S (Z.to_nat (max - (cnt + 1)))) by lia. cbn [take]. rewrite bind_outs_cons, bind_outch.
      destruct (dopr_outch maxlen c o) as [[[] o']|]; [|done]. rewrite (IH m) by done.
      unfold mbind, st_bind. destruct (outs _ _ o') as [[[] o2]|]; [|done]. unfold mret, st_ret. do 2 f_equal. lia.
    + replace (Z.to_nat (max - cnt)) with O by lia. cbn [take outs]. unfold mbind, st_bind, mret, st_ret. do 2 f_equal. lia.
Qed.

Lemma strlen_lt v : forall n, strlen v = Some n -> 0 <= n < Z.of_nat (length v).
Proof.
  induction v as [|c v IH]; intros n; [done|]. cbn. destruct (c =? 0); [intros [= <-]; lia|].
  destruct (strlen v) as [m|]; [|done]. intros [= <-]. specialize (IH m eq_refl). lia.
Qed.
Lemma bind_ext {A B : Type} (m m' : st out A) (k : A -> st out B) o : m o = m' o -> (m ≫= k) o = (m' ≫= k) o.
Proof. unfold mbind, st_bind. by intros ->. Qed.
Lemma fmtstr_text v flags min max t : str_text v flags min (Some max) = Some t -> writes (fmtstr maxlen v flags min max) t.
Proof.
  unfold fmtstr, str_text. change (match v with None => null_text | Some v => v end) with (default null_text v).
  set (s := default null_text v). destruct (strlen s) as [n|] eqn:En; [|done]. intros [= <-] o. cbv zeta.
  rewrite clip0. set (p := Z.max 0 (i32 (min - n))). assert (Hn := strlen_lt _ _ En). assert (Hp : 0 <= p) by lia.
  rewrite (bind_ext _ _ _ _ (pad_while_text (Z.to_nat p) (if flag flags DP_F_MINUS then - p else p) 0 max o ltac:(destruct (flag _ _); lia))), st_bind_assoc.
  rewrite !Z.sub_0_r, !Z.add_0_l. set (b := flag flags DP_F_MINUS). clearbody b p.
  set (l1 := blanks (Z.min _ _)). set (c1 := Z.max 0 _).
  set (l2 := take (Z.to_nat (max - c1)) (take (Z.to_nat n) s)). set (c2 := c1 + Z.max 0 (Z.min n (max - c1))).
  set (l3 := blanks (Z.min (- (if b then - p else 0)) (max - c2))).
  assert (H : writes (outs maxlen l1;; (outs maxlen l2;; outs maxlen l3)) (l1 ++ l2 ++ l3)) by (repeat apply writes_seq; done).
  replace (take (Z.to_nat max) _) with (l1 ++ l2 ++ l3).
  - rewrite <- H. unfold mbind, st_bind. destruct (outs maxlen l1 o) as [[[] o1]|]; [|done]. cbn.
    rewrite (str_while_text s n c1 max o1 En). fold l2. fold c2. unfold mbind, st_bind.
    destruct (outs maxlen l2 o1) as [[[] o2]|]; [|done]. cbn. apply pad_after_text. destruct b; lia.
  - unfold l3, l2, l1, blanks, c2, c1. clear H l3 c2 l2 c1 l1. clearbody s. destruct b.
    + replace (Z.to_nat (Z.min (- p) max)) with O by lia. replace (Z.max 0 (Z.min (- p) max)) with 0 by lia. cbn [replicate app].
      rewrite take_app, length_take, take_replicate, Z.sub_0_r.
      match goal with |- _ ++ replicate ?a _ = _ ++ replicate ?b _ => replace a with b by lia end. done.
    + replace (Z.to_nat (Z.min (- 0) _)) with O by lia. cbn [replicate]. rewrite app_nil_r.
      rewrite take_app, length_replicate, take_replicate.
      match goal with |- replicate ?a _ ++ take ?c _ = replicate ?b _ ++ take ?d _ => replace a with b by lia; replace c with d by lia end.
      done.
Qed.
End outs.

(** ** The buffer

    The state when [txt] has been written to the buffer [b0]. *)
Definition st_of (b0 : option (list Z)) (txt : list Z) (nums : list (addr * Z)) : out :=
  Out (option_map (fun b => txt ++ drop (length txt) b) b0) (Z.of_nat (length txt)) nums.
Lemma take_take_app {A : Type} n (l k : list A) : take n (take n l ++ k) = take n (l ++ k).
Proof.
  rewrite !take_app, take_take, Nat.min_id, length_take. f_equal.
  replace (n - n `min` length l)%nat with (n - length l)%nat by lia. done.
Qed.
Lemma take_app_take {A : Type} n (l k : list A) : take n (l ++ take n k) = take n (l ++ k).
Proof.
  rewrite !take_app, take_take. f_equal. replace ((n - length l) `min` n)%nat with (n - length l)%nat by lia. done.
Qed.
Definition fits (b0 : option (list Z)) (N : nat) : Prop := forall b, b0 = Some b -> (N <= length b)%nat.

Section machine.
Context {F : Type} `{!LDouble F} (N : nat) (b0 : option (list Z)) (Hb : fits b0 N).
Abbreviation maxlen := (Z.of_nat N).
Implicit Types txt l : list Z.

Lemma outch_of txt nums c : (length txt <= N)%nat ->
  dopr_outch maxlen c (st_of b0 txt nums) = Some (tt, st_of b0 (take N (txt ++ [wrap 8 c])) nums).
Proof.
  intros Hl. unfold dopr_outch, st_of. cbn [o_len o_buf o_nums]. destruct (Z.ltb_spec (Z.of_nat (length txt)) maxlen) as [Hlt|Hge].
  - rewrite take_ge by (rewrite length_app; cbn; lia). rewrite length_app. cbn [length].
    replace (Z.of_nat (length txt + 1)) with (Z.of_nat (length txt) + 1) by lia.
    destruct b0 as [b|]; cbn [option_map]; [|done]. assert (Hb' := Hb b eq_refl).
    rewrite length_app, length_drop, (proj2 (Z.ltb_lt _ _)) by lia. rewrite Nat2Z.id. do 3 f_equal. f_equal.
    rewrite <- app_assoc. rewrite insert_app_r_alt by lia. f_equal. rewrite Nat.sub_diag.
    destruct (lookup_lt_is_Some_2 b (length txt)) as [y Hy]; [lia|]. rewrite (drop_S _ _ _ Hy).
    cbn. f_equal. f_equal. lia.
  - assert (length txt = N) by lia. rewrite take_app_le, take_ge by lia. done.
Qed.
Lemma outs_of l : forall txt nums, (length txt <= N)%nat ->
  outs maxlen l (st_of b0 txt nums) = Some (tt, st_of b0 (take N (txt ++ map (wrap 8) l)) nums).
Proof.
  induction l as [|c l IH]; intros txt nums Hl; cbn [outs map].
  - rewrite app_nil_r, take_ge by lia. done.
  - rewrite (st_bind_Some _ _ _ _ _ (outch_of txt nums c Hl)), IH by (rewrite length_take; lia). do 3 f_equal.
    by rewrite take_take_app, <- app_assoc.
Qed.

Lemma writes_of m l txt nums : writes maxlen m l -> (length txt <= N)%nat ->
  m (st_of b0 txt nums) = Some (tt, st_of b0 (take N (txt ++ map (wrap 8) l)) nums).
Proof. intros Hm Hl. rewrite Hm. by apply outs_of. Qed.

(** A string without precision is only limited by the buffer. *)
Lemma str_text_cut v flags min t : str_text v flags min None = Some t ->
  str_text v flags min (Some maxlen) = Some (take N t).
Proof. unfold str_text. destruct (strlen _); [|done]. intros [= <-]. cbn. by rewrite Nat2Z.id. Qed.

Hypothesis HN : maxlen < 2 ^ 31.

Lemma conv_ok ch flags cflags min max args t args' txt nums :
  conv_text ch flags cflags min max args = Some (t, args') -> (length txt <= N)%nat ->
  exists nums', dopr_conv maxlen ch flags cflags min max args (st_of b0 txt nums) =
    Some (args', st_of b0 (take N (txt ++ map (wrap 8) t)) nums').
Proof.
  intros Ht Hl.
  assert (Hw : forall m t', writes maxlen m t' -> take N (txt ++ map (wrap 8) t') = take N (txt ++ map (wrap 8) t) ->
    (m;; mret args') (st_of b0 txt nums) = Some (args', st_of b0 (take N (txt ++ map (wrap 8) t)) nums)).
  { intros m t' Hm He. by rewrite (st_bind_Some _ _ _ _ _ (writes_of m t' txt nums Hm Hl)), He. }
  assert (H0 : forall nums', t = [] -> st_of b0 txt nums' = st_of b0 (take N (txt ++ map (wrap 8) t)) nums').
  { intros nums' ->. cbn [map]. by rewrite app_nil_r, take_ge. }
  assert (Hret : t = [] -> exists nums', (mret args' : st out _) (st_of b0 txt nums) =
    Some (args', st_of b0 (take N (txt ++ map (wrap 8) t)) nums')).
  { intros ->. exists nums. by rewrite <- H0. }
  unfold conv_text in Ht. unfold dopr_conv. repeat case_match; simplify_option_eq; cbn [opt];
    try (exists nums; eapply Hw; [first [apply fmtint_text|apply fmtfp_text; eassumption|apply writes_one]|reflexivity]);
    try (by apply Hret).
  - exists nums. rewrite i32_small by (unfold in_i32; lia). eapply Hw; [apply fmtstr_text, str_text_cut; eassumption|].
    rewrite <- firstn_map. apply take_app_take.
  - exists nums. eapply Hw; [by apply fmtstr_text|done].
  - eexists. rewrite (st_bind_Some _ _ _ _ _ (eq_refl : store_num cflags p _ = Some (tt, _))). unfold mret, st_ret. do 2 f_equal.
    by apply (H0 _ eq_refl).
  - exists nums. assert (ch = 37) as -> by lia. eapply Hw; [apply writes_one|done].
Qed.

(** ** Reading a directive *)

Abbreviation loop := (dopr_loop maxlen).
Abbreviation at_ S l fl cf mi ma args := (Dloc S l fl cf mi ma args).
(** From [d] the machine comes to [d'] in [k] rounds, or ends. *)
Definition goes (o : out) (k : nat) (d d' : dloc (F:=F)) : Prop := forall m, loop (k + m) d o = loop m d' o.
Definition ends (o : out) (k : nat) (d : dloc (F:=F)) : Prop := forall m, loop (k + m) d o = Some (tt, o).
(** ... depending on whether the format ends at [c], in [n] rounds at most. *)
Definition comes (o : out) (n : nat) (d d' : dloc) (c : Z) : Prop :=
  (c = 0 -> exists k, (k <= n)%nat /\ ends o k d) /\ (c <> 0 -> exists k, (k <= n)%nat /\ goes o k d d').

Lemma goes_trans o k1 k2 d1 d2 d3 : goes o k1 d1 d2 -> goes o k2 d2 d3 -> goes o (k1 + k2) d1 d3.
Proof. intros H1 H2 m. by rewrite <- Nat.add_assoc, H1, H2. Qed.
Lemma comes_trans o k n n' d1 d2 d3 c : goes o k d1 d2 -> comes o n d2 d3 c -> (k + n <= n')%nat -> comes o n' d1 d3 c.
Proof.
  intros H1 [H2 H3] Hn. split; intros Hc.
  - destruct (H2 Hc) as (k' & Hk & He). exists (k + k')%nat. split; [lia|]. intros m. by rewrite <- Nat.add_assoc, H1.
  - destruct (H3 Hc) as (k' & Hk & He). exists (k + k')%nat. split; [lia|]. by eapply goes_trans.
Qed.
Lemma goes_0 o d : goes o 0 d d.
Proof. by intros m. Qed.
Lemma loop_done m d o : d_state d = DP_S_DONE -> loop m d o = Some (tt, o).
Proof. destruct m; cbn; by intros ->. Qed.
Lemma loop_step m d o : d_state d <> DP_S_DONE -> loop (S m) d o = (d' ← dopr_step maxlen d; loop m d') o.
Proof. cbn. by destruct (d_state d). Qed.
Lemma goes_1 o d d' : d_state d <> DP_S_DONE -> dopr_step maxlen d o = Some (d', o) -> goes o 1 d d'.
Proof. intros Hd Hs m. cbn [plus]. by rewrite loop_step, (st_bind_Some _ _ _ _ _ Hs). Qed.
Lemma ends_stop o d c r : d_in d = c :: r -> c = 0 \/ maxlen <= o_len o -> ends o 1 d.
Proof.
  intros Hd Hc m. cbn [plus]. destruct (decide (d_state d = DP_S_DONE)) as [Hs|Hs]; [by apply loop_done|].
  rewrite loop_step by done.
  assert (E : exists d', dopr_step maxlen d o = Some (d', o) /\ d_state d' = DP_S_DONE).
  { unfold dopr_step. rewrite Hd, (st_bind_Some get_st _ o o o eq_refl).
    assert (((c =? 0) || (o_len o >=? maxlen)) = true) as -> by lia. cbn. by eexists. }
  destruct E as (d' & E & Hd'). rewrite (st_bind_Some _ _ _ _ _ E). by apply loop_done.
Qed.
Lemma comes_stop o n d d' c c' r : d_in d = c' :: r -> c' = 0 -> c = 0 -> (1 <= n)%nat -> comes o n d d' c.
Proof. intros Hd Hc' Hc Hn. split; [|done]. intros _. exists 1%nat. split; [done|]. eapply ends_stop; [done|by left]. Qed.
Lemma comes_here o n d c r : d_in d = c :: r -> (1 <= n)%nat -> comes o n d d c.
Proof.
  intros Hd Hn. split; intros Hc; [exists 1%nat|exists O]; (split; [lia|]); [|apply goes_0]. eapply ends_stop; [done|by left].
Qed.

Lemma next_char_ok c l o : l <> [] -> next (c :: l) o = Some (l, o).
Proof. by destruct l. Qed.

Section open.
Context (o : out) (Ho : o_len o < maxlen).

(** One round in which the character is looked at. *)
Lemma step_open ch : ch <> 0 -> ((ch =? 0) || (o_len o >=? maxlen)) = false.
Proof. lia. Qed.
Ltac look := unfold dopr_step; cbn [d_in];
  rewrite (st_bind_Some get_st _ _ _ _ eq_refl), (step_open _) by first [assumption|done];
  cbn [d_state d_in d_flags d_cflags d_min d_max d_args].

Lemma flags_ok l : forall acc fl l1 cf mi ma args, p_flags acc l = (fl, l1) -> l1 <> [] -> exists k, (k + length l1 = length l)%nat /\
  goes o k (at_ DP_S_FLAGS l acc cf mi ma args) (at_ DP_S_FLAGS l1 fl cf mi ma args) /\ forall c r, l1 = c :: r -> flag_of c = None.
Proof.
  induction l as [|c l IH]; intros acc fl l1 cf mi ma args; cbn [p_flags]; [by intros [= <- <-]|].
  destruct (flag_of c) as [f|] eqn:Ef; [|intros [= <- <-] _; exists O; split_and!; [done|apply goes_0|by intros ? ? [= <- <-]]].
  intros Hp Hl1. destruct (IH _ _ _ cf mi ma args Hp Hl1) as (k & Hk & Hg & Hn). exists (S k). split_and!; [cbn; lia| |done].
  assert (Hl : l <> []) by (intros ->; cbn in Hp; by injection Hp as _ <-).
  assert (Hc : c <> 0) by (intros ->; discriminate Ef).
  change (S k) with (1 + k)%nat. eapply goes_trans; [|exact Hg]. apply goes_1; [done|]. look. unfold flag_of in Ef.
  repeat case_match; simplify_eq; by rewrite (st_bind_Some _ _ _ _ _ (next_char_ok c l o Hl)).
Qed.

(** A number, in the state for the width or the precision. *)
Lemma number_ok (S : dp_s) pre (mk : Z -> list Z -> dloc) :
  (forall c l n, isdigit c = true -> l <> [] -> goes o 1 (mk n (c :: l)) (mk (i32 (10 * pre n + char_to_int c)) l)) ->
  forall l acc n l1, p_number pre acc l = (n, l1) -> l1 <> [] -> exists k, (k + length l1 = length l)%nat /\
    goes o k (mk acc l) (mk n l1) /\ forall c r, l1 = c :: r -> isdigit c = false.
Proof.
  intros Hmk l. induction l as [|c l IH]; intros acc n l1; cbn [p_number]; [by intros [= <- <-]|].
  destruct (isdigit c) eqn:Ef; [|intros [= <- <-] _; exists O; split_and!; [done|apply goes_0|by intros ? ? [= <- <-]]].
  intros Hp Hl1. destruct (IH _ _ _ Hp Hl1) as (k & Hk & Hg & Hn). exists (1 + k)%nat. split_and!; [cbn; lia| |done].
  assert (Hl : l <> []) by (intros ->; cbn in Hp; by injection Hp as _ <-).
  eapply goes_trans; [|exact Hg]. by apply Hmk.
Qed.
Lemma digit_nz c : isdigit c = true -> c <> 0.
Proof. unfold isdigit. lia. Qed.

Lemma mod_ok l fl mi ma args cf c r : p_mod l = (cf, c :: r) -> (length r < length l)%nat /\
  comes o 2 (at_ DP_S_MOD l fl DP_C_NONE mi ma args) (at_ DP_S_CONV (c :: r) fl cf mi ma args) c.
Proof.
  destruct l as [|x l]; [done|]. unfold p_mod. intros Hp. destruct (decide (x = 0)) as [->|Hx].
  { injection Hp as <- <- <-. split; [cbn; lia|]. eapply comes_stop; [done..|lia]. }
  assert (G : goes o 1 (at_ DP_S_MOD (x :: l) fl DP_C_NONE mi ma args) (at_ DP_S_CONV (c :: r) fl cf mi ma args) /\
    (length r < length (x :: l))%nat).
  { destruct (decide (x = 108)) as [->|Hn].
    - cbn in Hp. destruct l as [|y l]; [done|]. destruct (y =? 108) eqn:Ey; simplify_eq; (split; [|cbn; lia]);
        (apply goes_1; [done|]); look; cbn [Z.eqb Pos.eqb]; rewrite Ey; (erewrite st_bind_Some; [|by apply next_char_ok]); done.
    - assert (Hxl : (x =? 108) = false) by lia. rewrite Hxl in Hp.
      split; [apply goes_1; [done|]; look; rewrite Hxl|]; repeat case_match; simplify_eq; cbn; try lia;
        try (by (erewrite st_bind_Some; [|by apply next_char_ok])); done. }
  destruct G as [G Hlen]. split; [done|]. eapply comes_trans; [exact G|by eapply comes_here|done].
Qed.

(** A width or a precision. *)
Lemma star_ok pre (mk mk' : Z -> list Z -> list (farg F) -> dloc) n d' c :
  (forall c l x a, isdigit c = true -> l <> [] -> goes o 1 (mk x (c :: l) a) (mk (i32 (10 * pre x + char_to_int c)) l a)) ->
  (forall l x a v a', va_int a = Some (v, a') -> l <> [] -> goes o 1 (mk x (42 :: l) a) (mk' v l a')) ->
  (forall c l x a, isdigit c = false -> c <> 42 -> c <> 0 -> goes o 1 (mk x (c :: l) a) (mk' x (c :: l) a)) ->
  (forall x l a, d_in (mk x l a) = l) ->
  forall l acc args x l3 a3, p_star pre acc l args = Some (x, l3, a3) -> l3 <> [] ->
  comes o n (mk' x l3 a3) d' c -> (forall r, l3 = 0 :: r -> c = 0) ->
  (length l3 <= length l)%nat /\ comes o (length l - length l3 + 1 + n) (mk acc l args) d' c.
Proof.
  intros H1 H2 H3 Hin l acc args x l3 a3 Hp Hl3 Hc Hz. unfold p_star in Hp.
  destruct (p_number pre acc l) as [m l1] eqn:En.
  assert (Hl1 : l1 <> []) by (destruct l1; [by injection Hp as _ <- _|done]).
  destruct (number_ok DP_S_MIN pre (fun y k => mk y k args) ltac:(intros; by apply H1) l acc m l1 En Hl1) as (k & Hk & Hg & Hd).
  destruct l1 as [|y l1]; [done|]. specialize (Hd y l1 eq_refl). cbn [length] in *. destruct (y =? 42) eqn:Ey.
  - assert (y = 42) as -> by lia. destruct (va_int args) as [[v a']|] eqn:Ev; [|done]. injection Hp as <- <- <-.
    split; [lia|]. eapply comes_trans; [exact Hg| |]; [eapply (comes_trans o 1 n (S n)); [by apply H2|exact Hc|done]|]. lia.
  - injection Hp as <- <- <-. cbn [length] in *. split; [lia|]. destruct (decide (y = 0)) as [->|Hy].
    + eapply comes_trans; [exact Hg|eapply (comes_stop o 1); [apply Hin|done|by eapply Hz|done]|lia].
    + eapply comes_trans; [exact Hg| |]; [eapply (comes_trans o 1 n (S n)); [apply H3; [done|lia|done]|exact Hc|done]|]. lia.
Qed.

Lemma mod_zero l cf c r : p_mod l = (cf, c :: r) -> forall q, l = 0 :: q -> c = 0.
Proof. intros Hp q ->. by injection Hp. Qed.

Lemma prec_ok l fl mi args ma l3 a3 cf c r : p_prec l args = Some (ma, l3, a3) -> p_mod l3 = (cf, c :: r) ->
  (length r < length l)%nat /\
  comes o (length l - length r + 4) (at_ DP_S_DOT l fl DP_C_NONE mi (-1) args) (at_ DP_S_CONV (c :: r) fl cf mi ma a3) c.
Proof.
  intros Hp Hm. destruct (mod_ok l3 fl mi ma a3 cf c r Hm) as [Hlen Hc].
  assert (Hl3 : l3 <> []) by (by intros ->). destruct l as [|x l]; [by injection Hp as _ <- _|]. unfold p_prec in Hp.
  destruct (decide (x = 0)) as [->|Hx].
  { injection Hp as <- <- <-. split; [done|]. eapply comes_stop; [done|done| |lia]. by eapply mod_zero. }
  destruct (x =? 46) eqn:E46.
  - destruct (star_ok _ (fun y k a => at_ DP_S_MAX k fl DP_C_NONE mi y a) (fun y k a => at_ DP_S_MOD k fl DP_C_NONE mi y a)
      2 _ c ltac:(intros z k y a Hz Hk; pose proof (digit_nz z Hz); apply goes_1; [done|]; look; rewrite Hz;
        (erewrite st_bind_Some; [|by apply next_char_ok]); done)
      ltac:(intros k y a v a' Hv Hk; apply goes_1; [done|]; look; change (isdigit 42) with false; change (42 =? 42) with true; cbv iota; rewrite Hv; (erewrite st_bind_Some; [|reflexivity]);
        (erewrite st_bind_Some; [|by apply next_char_ok]); done)
      ltac:(intros z k y a Hz Hz2 Hz0; apply goes_1; [done|]; look; rewrite Hz, (proj2 (Z.eqb_neq z 42) Hz2); done)
      ltac:(done) l (-1) args ma l3 a3 Hp Hl3 Hc (mod_zero _ _ _ _ Hm)) as [Hll Hcc].
    cbn [length]. split; [lia|]. assert (Hl : l <> []) by (intros ->; by injection Hp as _ <- _).
    eapply (comes_trans o 1); [|exact Hcc|lia]. apply goes_1; [done|]. look. rewrite E46.
    (erewrite st_bind_Some; [|by apply next_char_ok]). done.
  - injection Hp as <- <- <-. split; [done|]. eapply (comes_trans o 1); [|exact Hc|lia]. apply goes_1; [done|]. look. by rewrite E46.
Qed.

Lemma prec_zero l (args : list (farg F)) ma l3 a3 : p_prec l args = Some (ma, l3, a3) -> forall q, l = 0 :: q -> l3 = l.
Proof. intros Hp q ->. by injection Hp as _ <- _. Qed.

Lemma dir_ok l args fl l1 mi l2 a2 ma l3 a3 cf c r :
  p_flags 0 l = (fl, l1) -> p_star id 0 l1 args = Some (mi, l2, a2) -> p_prec l2 a2 = Some (ma, l3, a3) -> p_mod l3 = (cf, c :: r) ->
  (length r < length l)%nat /\
  comes o (length l - length r + 7) (at_ DP_S_FLAGS l 0 DP_C_NONE 0 (-1) args) (at_ DP_S_CONV (c :: r) fl cf mi ma a3) c.
Proof.
  intros Hf Hs Hp Hm. destruct (prec_ok l2 fl mi a2 ma l3 a3 cf c r Hp Hm) as [Hlen Hc].
  assert (Hl2 : l2 <> []) by (intros ->; cbn in Hlen; lia).
  assert (Hz2 : forall q, l2 = 0 :: q -> c = 0).
  { intros q Hq. eapply (mod_zero _ _ _ _ Hm). by rewrite (prec_zero _ _ _ _ _ Hp q Hq). }
  destruct (star_ok id (fun y k a => at_ DP_S_MIN k fl DP_C_NONE y (-1) a) (fun y k a => at_ DP_S_DOT k fl DP_C_NONE y (-1) a)
      (length l2 - length r + 4) _ c ltac:(intros z k y a Hz Hk; pose proof (digit_nz z Hz); apply goes_1; [done|]; look; rewrite Hz;
        (erewrite st_bind_Some; [|by apply next_char_ok]); done)
      ltac:(intros k y a v a' Hv Hk; apply goes_1; [done|]; look; change (isdigit 42) with false; change (42 =? 42) with true; cbv iota; rewrite Hv; (erewrite st_bind_Some; [|reflexivity]);
        (erewrite st_bind_Some; [|by apply next_char_ok]); done)
      ltac:(intros z k y a Hz Hz2' Hz0; apply goes_1; [done|]; look; rewrite Hz, (proj2 (Z.eqb_neq z 42) Hz2'); done)
      ltac:(done) l1 0 args mi l2 a2 Hs Hl2 Hc Hz2) as [Hll Hcc].
  assert (Hl1 : l1 <> []) by (intros ->; by injection Hs as _ <- _).
  destruct (flags_ok l 0 fl l1 DP_C_NONE 0 (-1) args Hf Hl1) as (k & Hk & Hg & Hn).
  destruct l1 as [|y l1]; [done|]. specialize (Hn y l1 eq_refl). cbn [length] in *. split; [lia|].
  destruct (decide (y = 0)) as [->|Hy].
  - eapply comes_trans; [exact Hg|eapply (comes_stop o 1); [done|done| |done]|lia].
    cbn in Hs. injection Hs as _ <- _. by eapply Hz2.
  - eapply comes_trans; [exact Hg| |]; [eapply (comes_trans o 1); [|exact Hcc|reflexivity]|lia].
    apply goes_1; [done|]. look. unfold flag_of in Hn. repeat case_match; done.
Qed.
End open.

(** The machine writes the text of the format. *)
Lemma machine_ok n : forall l args t txt nums, render n l args = Some t -> (length txt <= N)%nat ->
  exists k nums', (k <= 8 * length l)%nat /\ forall m,
    loop (k + m) (at_ DP_S_DEFAULT l 0 DP_C_NONE 0 (-1) args) (st_of b0 txt nums) = Some (tt, st_of b0 (take N (txt ++ t)) nums').
Proof.
  induction n as [|n IH]; intros l args t txt nums Hr Hl; [done|]. destruct l as [|c l]; [done|]. cbn [render] in Hr.
  destruct (decide (length txt = N)) as [Hfull|Hopen].
  { exists 1%nat, nums. split; [cbn; lia|]. intros m. rewrite take_app_le, take_ge by lia.
    eapply (ends_stop (st_of b0 txt nums)); [done|]. right. cbn. lia. }
  destruct (c =? 0) eqn:Ec0.
  { injection Hr as <-. exists 1%nat, nums. split; [cbn; lia|]. intros m. rewrite app_nil_r, take_ge by lia.
    eapply (ends_stop (st_of b0 txt nums)); [done|]. left. lia. }
  assert (Ho : o_len (st_of b0 txt nums) < maxlen) by (cbn; lia). set (o := st_of b0 txt nums) in *.
  destruct (c =? 37) eqn:Ec.
  - assert (c = 37) as -> by lia. destruct (p_flags 0 l) as [fl l1] eqn:Ef.
    destruct (p_star id 0 l1 args) as [[[mi l2] a2]|] eqn:Es; [|done]. cbn in Hr.
    destruct (p_prec l2 a2) as [[[ma l3] a3]|] eqn:Ep; [|done]. cbn in Hr.
    destruct (p_mod l3) as [cf l4] eqn:Em. destruct l4 as [|ch r]; [done|].
    destruct (dir_ok o Ho l args fl l1 mi l2 a2 ma l3 a3 cf ch r Ef Es Ep Em) as [Hlen [Hend Hgo]].
    assert (Hpct : goes o 1 (at_ DP_S_DEFAULT (37 :: l) 0 DP_C_NONE 0 (-1) args) (at_ DP_S_FLAGS l 0 DP_C_NONE 0 (-1) args)).
    { apply goes_1; [done|]. unfold dopr_step. cbn [d_in]. rewrite (st_bind_Some get_st _ _ _ _ eq_refl), (step_open o Ho _) by done.
      cbn [d_state d_in d_flags d_cflags d_min d_max d_args]. change (37 =? 37) with true. cbv iota. assert (Hne : l <> []) by (intros ->; cbn in Hlen; lia).
      by rewrite (st_bind_Some _ _ _ _ _ (next_char_ok 37 l o Hne)). }
    destruct (ch =? 0) eqn:Ech.
    + injection Hr as <-. destruct (Hend ltac:(lia)) as (k & Hk & He). exists (1 + k)%nat, nums. cbn [length]. split; [lia|].
      intros m. rewrite <- Nat.add_assoc, Hpct, He. by rewrite app_nil_r, take_ge.
    + destruct (conv_text ch fl cf mi ma a3) as [[t1 a4]|] eqn:Et; [|done]. cbn in Hr.
      destruct (render n _ a4) as [t2|] eqn:Er; [|done]. injection Hr as <-.
      destruct (Hgo ltac:(lia)) as (k & Hk & Hg).
      destruct (conv_ok ch fl cf mi ma a3 t1 a4 txt nums Et Hl) as (nums1 & Econv). fold o in Econv.
      set (l' := if ch =? 119 then tail r else r) in *.
      assert (Hl' : l' <> [] /\ (length l' <= length r)%nat /\ (ch =? 119 = true -> r <> [])).
      { unfold l' in *. destruct n; [done|]. destruct (ch =? 119); [|by destruct r]. destruct r as [|? [|? ?]]; cbn in *; split_and!; try done; lia. }
      destruct Hl' as (Hl' & Hll & Hr').
      destruct (IH l' a4 t2 (take N (txt ++ map (wrap 8) t1)) nums1 Er ltac:(rewrite length_take; lia)) as (k2 & nums2 & Hk2 & Hloop).
      exists (1 + (k + (1 + k2)))%nat, nums2. split; [cbn [length]; lia|]. intros m.
      rewrite <- !Nat.add_assoc, Hpct, Hg. cbn [plus]. rewrite loop_step by done.
      assert (Estep : dopr_step maxlen (at_ DP_S_CONV (ch :: r) fl cf mi ma a3) o =
        Some (at_ DP_S_DEFAULT l' 0 DP_C_NONE 0 (-1) a4, st_of b0 (take N (txt ++ map (wrap 8) t1)) nums1)).
      { unfold dopr_step. cbn [d_in]. rewrite (st_bind_Some get_st _ _ _ _ eq_refl), (step_open o Ho _) by lia.
        cbn [d_state d_in d_flags d_cflags d_min d_max d_args].
        rewrite (st_bind_Some _ _ _ _ _ Econv). unfold l' in *. destruct (ch =? 119) eqn:Ew.
        - specialize (Hr' eq_refl). rewrite (st_bind_Some _ _ _ _ _ (next_char_ok ch r _ Hr')). destruct r as [|z r]; [done|].
          by rewrite (st_bind_Some _ _ _ _ _ (next_char_ok z r _ Hl')).
        - rewrite (st_bind_Some (mret _) _ _ _ _ eq_refl). by rewrite (st_bind_Some _ _ _ _ _ (next_char_ok ch r _ Hl')). }
      rewrite (st_bind_Some _ _ _ _ _ Estep), Hloop. rewrite take_take_app, <- app_assoc. done.
  - destruct (render n l args) as [t'|] eqn:Er; [|done]. injection Hr as <-.
    assert (Hne : l <> []) by (intros ->; by destruct n).
    destruct (IH l args t' (take N (txt ++ [wrap 8 c])) nums Er ltac:(rewrite length_take; lia)) as (k & nums' & Hk & Hloop).
    exists (1 + k)%nat, nums'. split; [cbn [length]; lia|]. intros m. cbn [plus]. rewrite loop_step by done.
    assert (Estep : dopr_step maxlen (at_ DP_S_DEFAULT (c :: l) 0 DP_C_NONE 0 (-1) args) o =
      Some (at_ DP_S_DEFAULT l 0 DP_C_NONE 0 (-1) args, st_of b0 (take N (txt ++ [wrap 8 c])) nums)).
    { unfold dopr_step. cbn [d_in]. rewrite (st_bind_Some get_st _ _ _ _ eq_refl), (step_open o Ho _) by lia.
      cbn [d_state d_in d_flags d_cflags d_min d_max d_args]. rewrite Ec.
      rewrite (st_bind_Some _ _ _ _ _ (outch_of txt nums c Hl)), (st_bind_Some _ _ _ _ _ (next_char_ok c l _ Hne)). done. }
    rewrite (st_bind_Some _ _ _ _ _ Estep), Hloop. rewrite take_take_app, <- app_assoc. done.
Qed.
End machine.

(** ** The result *)

Section result.
Context {F : Type} `{!LDouble F}.

(** The end of the string is put behind the text, at the last place of the
    buffer at most. *)
Lemma end_ok N b t nums : fits (Some b) N -> (1 <= N)%nat -> Z.of_nat N < 2 ^ 64 ->
  dopr_end (Z.of_nat N) (st_of (Some b) (take N t) nums) =
  Some (Z.of_nat (length (take (N - 1) t)),
        Out (Some (take (N - 1) t ++ 0 :: drop (S (length (take (N - 1) t))) b)) (Z.of_nat (length (take (N - 1) t))) nums).
Proof.
  intros Hb HN Hlt. assert (Hlb := Hb b eq_refl). unfold dopr_end, st_of. cbn [o_len o_buf o_nums option_map].
  rewrite u64_small by lia. set (x := take (N - 1) t). set (y := take N t).
  assert (Hx : length x = ((N - 1) `min` length t)%nat) by apply length_take.
  assert (Hy : length y = (N `min` length t)%nat) by apply length_take.
  replace (if Z.of_nat (length y) >=? Z.of_nat N - 1 then Z.of_nat N - 1 else Z.of_nat (length y)) with (Z.of_nat (length x))
    by (destruct (Z.geb_spec (Z.of_nat (length y)) (Z.of_nat N - 1)); lia).
  rewrite length_app, length_drop, (proj2 (Z.ltb_lt _ _)), Nat2Z.id by lia. do 4 f_equal.
  assert (Hxy : y = x \/ exists z, y = x ++ [z] /\ length x = (N - 1)%nat).
  { destruct (decide (length t < N)%nat) as [Ht|Ht]; [left; unfold x, y; by rewrite !take_ge by lia|right].
    destruct (lookup_lt_is_Some_2 t (N - 1)) as [z Hz]; [lia|]. exists z. split; [|lia].
    unfold x, y. replace N with (S (N - 1)) at 1 by lia. by apply take_S_r. }
  destruct Hxy as [->|(z & -> & Hxl)].
  - rewrite insert_app_r_alt, Nat.sub_diag by lia. f_equal.
    destruct (lookup_lt_is_Some_2 b (length x)) as [w Hw]; [lia|]. by rewrite (drop_S _ _ _ Hw).
  - rewrite <- app_assoc, insert_app_r_alt, Nat.sub_diag by lia. cbn. do 2 f_equal. rewrite length_app. cbn. f_equal. lia.
Qed.

Lemma dopr_loop_fuel N b0 n fmt args t txt nums : fits b0 N -> Z.of_nat N < 2 ^ 31 -> render n fmt args = Some t ->
  (length txt <= N)%nat -> exists nums',
  dopr_loop (Z.of_nat N) (dopr_fuel fmt) (Dloc DP_S_DEFAULT fmt 0 DP_C_NONE 0 (-1) args) (st_of b0 txt nums) =
  Some (tt, st_of b0 (take N (txt ++ t)) nums').
Proof.
  intros Hb HN Hr Hl. destruct (machine_ok N b0 Hb HN n fmt args t txt nums Hr Hl) as (k & nums' & Hk & Hloop). exists nums'.
  unfold dopr_fuel. replace (8 * S (length fmt))%nat with (k + (8 * S (length fmt) - k))%nat by lia. apply Hloop.
Qed.

End result.

(** ** Numbers are printed as what they are

    [strtol] reads a number: blanks, a sign, and digits. *)

Definition undigit (c : Z) : Z :=
  if (48 <=? c) && (c <=? 57) then c - 48
  else if (97 <=? c) && (c <=? 102) then c - 87
  else if (65 <=? c) && (c <=? 70) then c - 55 else 99.
Fixpoint strtoul (base acc : Z) (l : list Z) : Z :=
  match l with
  | c :: l' => if undigit c <? base then strtoul base (base * acc + undigit c) l' else acc
  | [] => acc
  end.
Fixpoint skip_blanks (l : list Z) : list Z :=
  match l with c :: l' => if c =? 32 then skip_blanks l' else l | [] => [] end.
Definition strtol (base : Z) (l : list Z) : Z :=
  match skip_blanks l with
  | c :: l' => if c =? 45 then - strtoul base 0 l' else if c =? 43 then strtoul base 0 l' else strtoul base 0 (c :: l')
  | [] => 0
  end.

Section numbers.
Context (caps : bool) (base : Z) (Hbase : 2 <= base <= 16).

Lemma undigit_digit d : 0 <= d < base -> undigit (digit caps d) = d.
Proof. intros Hd. unfold undigit, digit. destruct (Z.ltb_spec d 10), caps; repeat case_match; lia. Qed.
Lemma digit_range d : 0 <= d < base -> digit caps d <> 32 /\ digit caps d <> 43 /\ digit caps d <> 45.
Proof. intros Hd. unfold digit. destruct (Z.ltb_spec d 10), caps; lia. Qed.

Definition dvalue (l : list Z) : Z := foldr (fun c acc => undigit c + base * acc) 0 l.
Definition is_digit (c : Z) : Prop := exists d, 0 <= d < base /\ c = digit caps d.

Lemma conv_digits_ok n : forall u, 0 <= u < base ^ Z.of_nat n -> Forall is_digit (conv_digits n caps base u) /\
  dvalue (conv_digits n caps base u) = u.
Proof.
  induction n as [|n IH]; intros u Hu; cbn [conv_digits].
  - split; [constructor|]. cbn in *. lia.
  - assert (Hm := Z.mod_pos_bound u base ltac:(lia)). assert (Hd := Z.div_mod u base ltac:(lia)).
    assert (Hq : 0 <= u / base < base ^ Z.of_nat n).
    { rewrite Nat2Z.inj_succ, Z.pow_succ_r in Hu by lia. split; [apply Z.div_pos; lia|apply Z.div_lt_upper_bound; lia]. }
    destruct (IH _ Hq) as [Hf Hv]. cbn [dvalue foldr]. rewrite undigit_digit by lia.
    destruct (Z.eqb_spec (u / base) 0) as [He|He].
    + split; [constructor; [by eexists|constructor]|]. cbn. lia.
    + split; [constructor; [by eexists|done]|]. fold (dvalue (conv_digits n caps base (u / base))). rewrite Hv. lia.
Qed.
Lemma conv_digits_length n : forall m u, 0 <= u < base ^ Z.of_nat (S m) -> (length (conv_digits n caps base u) <= S m)%nat.
Proof.
  induction n as [|n IH]; intros m u Hu; cbn [conv_digits length]; [lia|]. destruct (Z.eqb_spec (u / base) 0) as [He|He]; [cbn; lia|].
  assert (H0 := Z.div_pos u base ltac:(lia) ltac:(lia)).
  destruct m as [|m]; [change (Z.of_nat 1) with 1 in Hu; rewrite Z.div_small in He by lia; done|].
  apply le_n_S, IH. rewrite (Nat2Z.inj_succ (S m)), Z.pow_succ_r in Hu by lia. split; [done|]. apply Z.div_lt_upper_bound; lia.
Qed.
Lemma convert_ok u : 0 <= u < base ^ 19 -> Forall is_digit (convert caps base u) /\ dvalue (convert caps base u) = u /\
  convert caps base u <> [].
Proof.
  intros Hu. unfold convert. assert (Hl := conv_digits_length 20 18 u Hu).
  destruct (Nat.eqb_spec (length (conv_digits 20 caps base u)) 20); [lia|].
  destruct (conv_digits_ok 20 u) as [Hf Hv].
  { split; [lia|]. eapply Z.lt_le_trans; [apply Hu|]. apply Z.pow_le_mono_r; lia. }
  split_and!; [done..|]. cbn [conv_digits]. done.
Qed.

Lemma strtoul_digits l : Forall is_digit l -> forall acc r,
  strtoul base acc (rev l ++ r) = strtoul base (acc * base ^ Z.of_nat (length l) + dvalue l) r.
Proof.
  induction 1 as [|c l (d & Hd & ->) _ IH]; intros acc r; [cbn; f_equal; lia|]. cbn [rev length dvalue foldr]. rewrite <- app_assoc, IH.
  cbn [app strtoul]. rewrite undigit_digit, (proj2 (Z.ltb_lt d base)) by lia. fold (dvalue l). f_equal.
  rewrite Nat2Z.inj_succ, Z.pow_succ_r by lia. lia.
Qed.
Lemma strtoul_zeros n r : strtoul base 0 (replicate n 48 ++ r) = strtoul base 0 r.
Proof. induction n as [|n IH]; [done|]. cbn [replicate app strtoul]. change (undigit 48) with 0. rewrite (proj2 (Z.ltb_lt 0 base)) by lia. by rewrite Z.mul_0_r. Qed.
Lemma strtoul_blanks acc n : strtoul base acc (replicate n 32) = acc.
Proof. destruct n; [done|]. cbn. change (undigit 32) with 99. by rewrite (proj2 (Z.ltb_ge 99 base)) by lia. Qed.
Lemma skip_blanks_app n r : skip_blanks (replicate n 32 ++ r) = skip_blanks r.
Proof. by induction n. Qed.

(** Zeros, digits and blanks behind. *)
Lemma strtoul_number u z b : 0 <= u < base ^ 19 -> strtoul base 0 (replicate z 48 ++ rev (convert caps base u) ++ replicate b 32) = u.
Proof. intros Hu. destruct (convert_ok u Hu) as (Hf & Hv & _). rewrite strtoul_zeros, strtoul_digits by done. by rewrite strtoul_blanks, Hv. Qed.
Lemma number_head u z r : 0 <= u < base ^ 19 -> exists c l, replicate z 48 ++ rev (convert caps base u) ++ r = c :: l /\
  c <> 32 /\ c <> 43 /\ c <> 45.
Proof.
  intros Hu. destruct (convert_ok u Hu) as (Hf & _ & Hn). destruct z as [|z]; [|by eexists _, _]. cbn [replicate app].
  destruct (convert caps base u) as [|y l] using rev_ind; [done|]. rewrite rev_app_distr. cbn. eexists _, _. split; [done|].
  apply Forall_app in Hf as [_ Hf]. apply Forall_inv in Hf as (d & Hd & ->). by apply digit_range.
Qed.
Lemma strtol_number s u z a b : 0 <= u < base ^ 19 -> s = 0 \/ s = 32 \/ s = 43 \/ s = 45 ->
  strtol base (replicate a 32 ++ sign_text s ++ replicate z 48 ++ rev (convert caps base u) ++ replicate b 32) =
  if s =? 45 then - u else u.
Proof.
  intros Hu Hs. unfold strtol. rewrite skip_blanks_app.
  destruct (number_head u z (replicate b 32) Hu) as (c & l & E & H1 & H2 & H3).
  assert (Hn := strtoul_number u z b Hu). rewrite E in *.
  destruct Hs as [->|[->|[->| ->]]]; cbn [sign_text Z.eqb app skip_blanks]; change (32 =? 32) with true; cbv iota; cbn [skip_blanks Pos.eqb];
    rewrite ?Hn; try done; rewrite (proj2 (Z.eqb_neq c 32)), (proj2 (Z.eqb_neq c 45)), (proj2 (Z.eqb_neq c 43)) by done; done.
Qed.
End numbers.

(** C29: what is printed for an integer reads back as this integer. Whatever
    the width, precision and flags - signs, blanks, padding with zeros, left
    adjustment, capital letters - [strtol] in the base of the conversion gives
    the number whose digits [fmtint] wrote, for all [long long]s in decimal and
    in general for numbers of at most 19 digits. *)
Theorem int_roundtrip value base min max flags :
  base = 8 \/ base = 10 \/ base = 16 -> - 2 ^ 63 <= value < 2 ^ 64 -> Z.abs value < base ^ 19 ->
  (flag flags DP_F_UNSIGNED = true -> 0 <= value) ->
  exists t, (forall maxlen, writes maxlen (fmtint maxlen value base min max flags) t) /\ strtol base t = value.
Proof.
  intros Hb Hv Hd Hu. exists (int_text value base min max flags). split; [intros maxlen; apply fmtint_text|]. unfold int_text, blanks, zeros. set (uns := flag flags DP_F_UNSIGNED) in *.
  set (s := if uns then 0 else sign_of (value <? 0) flags). set (u := if negb uns && (value <? 0) then u64 (- value) else u64 value).
  assert (Hs : s = 0 \/ s = 32 \/ s = 43 \/ s = 45).
  { unfold s, sign_of. repeat case_match; tauto. }
  assert (Hval : 0 <= u < base ^ 19 /\ (if s =? 45 then - u else u) = value).
  { unfold s, u, sign_of. destruct uns; cbn [negb andb].
    - specialize (Hu eq_refl). rewrite u64_small by lia. split; [lia|done].
    - destruct (Z.ltb_spec value 0); [rewrite u64_small by lia; split; [lia|]; cbn; lia|].
      rewrite u64_small by lia. split; [lia|]. repeat case_match; lia. }
  clearbody s u. clear Hv Hd Hu uns. destruct Hval as [Hu' <-].
  set (fill := Z.max 0 (i32 _)). set (zs := Z.max 0 (_ - _)). clearbody fill zs.
  destruct (flag flags DP_F_MINUS); rewrite <- ?app_assoc.
  - apply (strtol_number _ base ltac:(lia) s u _ 0); done.
  - assert (H := strtol_number (flag flags DP_F_UP) base ltac:(lia) s u
      (Z.to_nat (if flag flags DP_F_ZERO then Z.max zs fill else zs)) (Z.to_nat (if flag flags DP_F_ZERO then 0 else fill)) 0 Hu' Hs).
    cbn [replicate] in H. by rewrite app_nil_r in H.
Qed.

(** ** Concrete formats

    Rational numbers for [long double], and C strings. *)

#[export] Instance q_ldouble : LDouble Q := {|
  ld_of_Z := inject_Z;
  ld_lt a b := negb (Qle_bool b a);
  ld_ge a b := Qle_bool b a;
  ld_opp := Qopp;
  ld_mul := Qmult;
  ld_sub := Qminus;
  ld_half := Qmake 1 2;
  ld_trunc q := Z.quot (Qnum q) (Zpos (Qden q))
|}.
Import String.StringSyntax.
Definition chars (s : String.string) : list Z := map (fun a => Z.of_N (Ascii.N_of_ascii a)) (String.list_ascii_of_string s).
Definition cstr (s : String.string) : list Z := chars s ++ [0].
#[local] Open Scope string_scope.


Lemma int_roundtrip_witness :
  exists t, (forall maxlen, writes maxlen (fmtint maxlen (- 2 ^ 63) 10 25 21 DP_F_MINUS) t) /\ strtol 10 t = - 2 ^ 63.
Proof. apply int_roundtrip; [by right; left|lia|lia|done]. Defined.

(** ** What the formatter does not get right *)

Definition formatted (fmt : String.string) (args : list (farg Q)) : option (list Z) := format_text (cstr fmt) args.

(** The zeros of a fraction are written behind its digits. *)
Lemma fp_fraction_zeros : formatted "%.2f" [ADouble (Qmake 105 100)] = Some (chars "1.50").
Proof. vm_compute. reflexivity. Qed.
(** The padding of a string counts as characters of the string. *)
Lemma str_precision_padding : formatted "%5.2s" [AStr (Some (cstr "abc"))] = Some (chars "  ").
Proof. vm_compute. reflexivity. Qed.
(** The first one of twenty digits is lost. *)
Lemma int_twenty_digits : formatted "%llu" [ALLong (2 ^ 64 - 1)] = Some (chars "8446744073709551615").
Proof. vm_compute. reflexivity. Qed.
(** Scientific notation writes nothing. *)
Lemma fp_scientific : formatted "%e %g" [ADouble (Qmake 1 2); ADouble (Qmake 1 2)] = Some (chars " ").
Proof. vm_compute. reflexivity. Qed.
(** Directive [w] at the end of a format: what is behind the format is read. *)
Lemma format_w_overrun : pth_vsnprintf (F:=Q) (Some (replicate 8 7)) 8 (cstr "%w") [] = None.
Proof. vm_compute. reflexivity. Qed.
(** A buffer of size 0 is written to. *)
Lemma snprintf_size_0 : pth_vsnprintf (F:=Q) (Some [7]) 0 (cstr "a") [] = Some (0, Some [0], []).
Proof. vm_compute. reflexivity. Qed.
(** Without a buffer, strings count as empty; the memory is too small. *)
Lemma vasprintf_drops_strings : let ap := [AStr (Some (cstr "xyz"))] : list (farg Q) in
  pth_vasprintf (fun n => Some (replicate (Z.to_nat n) 7)) (cstr "a%sb") ap ap = Some (Some [97; 120; 0]).
Proof. vm_compute. reflexivity. Qed.
(** On the targets where [va_list] is an array the second pass begins where
    the first one ended. *)
Lemma vasprintf_reads_on : pth_vasprintf (F:=Q) (fun n => Some (replicate (Z.to_nat n) 7)) (cstr "%d") [AInt 1; AInt 2] [AInt 2] =
  Some (Some [50; 0]).
Proof. vm_compute. reflexivity. Qed.
