(* ===== verification/Io.v ===== *)
(** * Threaded input and output (src/pth_high.c, lines 593-1554)

    The replacements for read(2), write(2) and their relatives. A call is cut
    where the thread waits for its descriptor: a definition for the part up to
    the first wait, one for what follows a wait, up to the next wait or the
    return. The kernel is a parameter; the descriptors are polled with
    poll(2). *)

From stdpp Require Import base numbers gmap list.
From S2P Require Import Prelude Util Event Lib.
Open Scope Z_scope.

(** The system calls: a result and [errno], with the data that is read, and
    the new state of the kernel. [fs_patience] bounds how often calls are
    interrupted in a row. *)
Class FileSys (K : Type) := {
  fs_getfl : Z -> K -> Z * errno;
  fs_setfl : Z -> Z -> K -> K;
  fs_poll : Z -> Z -> K -> Z * errno * K;
  fs_read : Z -> Z -> K -> Z * errno * list Z * K;
  fs_readv : Z -> list Z -> K -> Z * errno * list Z * K;
  fs_recvfrom : Z -> Z -> Z -> K -> Z * errno * list Z * K;
  fs_write : Z -> list Z -> K -> Z * errno * K;
  fs_writev : Z -> list (list Z) -> K -> Z * errno * K;
  fs_sendto : Z -> list Z -> Z -> ptr -> K -> Z * errno * K;
  fs_connect : Z -> ptr -> K -> Z * errno * K;
  fs_soerror : Z -> K -> option Z;
  fs_accept : Z -> K -> Z * errno * K;
  fs_lseek : Z -> Z -> bool -> K -> Z * errno * K;
  fs_patience : K -> nat
}.

(** How a part ends: with a return, or in a wait of [pth_wait] for the
    descriptor, with the local variables. *)
Inductive io (L : Type) :=
| IoRet (rv : Z) (e : option errno)
| IoWait (goal : Z) (l : L).
Arguments IoRet {L}. Arguments IoWait {L}.

Definition O_NONBLOCK : Z := 2048.
Definition EINPROGRESS : errno := EOTHER 115.
Definition UIO_MAXIOV : Z := 1024.
Definition POLL_IN : Z := 1.
Definition POLL_OUT : Z := 4.

Section calls.
Context {K : Type} `{!FileSys K}.

Definition sys {A : Type} (f : K -> A * K) : st K A := fun k => Some (f k).
Definition fd_valid (fd : Z) : st K bool := fun k => Some (pth_util_fd_valid (fun x => fs_getfl x k) fd, k).
Definition fdmode (fd newmode : Z) : st K Z := fun k =>
  let '(old, set) := pth_fdmode O_NONBLOCK (fs_getfl fd k).1 newmode in
  Some (old, match set with Some fl => fs_setfl fd fl k | None => k end).

(** [while ((n = call) < 0 && errno == EINTR) ;]. *)
Fixpoint eintr_loop {A : Type} (fuel : nat) (call : K -> Z * errno * A * K) : st K (Z * errno * A) := fun k =>
  let '(n, e, a, k') := call k in
  if (n <? 0) && bool_decide (e = EINTR) then match fuel with O => None | S f => eintr_loop f call k' end
  else Some (n, e, a, k').
Definition eintr {A : Type} (call : K -> Z * errno * A * K) : st K (Z * errno * A) :=
  fun k => eintr_loop (fs_patience k) call k.
Definition unit_call (call : K -> Z * errno * K) : K -> Z * errno * unit * K :=
  fun k => let '(n, e, k') := call k in (n, e, tt, k').
Definition poll1 (fd events : Z) : st K (Z * errno) :=
  r ← eintr (unit_call (fs_poll fd events)); mret r.1.

(** The value of a system call with [errno] if it failed. *)
Definition sysret {L : Type} (n : Z) (e : errno) : io L := IoRet n (if n <? 0 then Some e else None).
Definition poll_bad (r : Z * errno) : bool := (r.1 <? 0) && (bool_decide (r.2 = EINVAL) || bool_decide (r.2 = EBADF)).

(** A wait is over: with extra events, whether the descriptor is ready is the
    status of its own event. Without memory for the event there is no wait and
    the status is that of [NULL], which is not [PTH_STATUS_OCCURRED]. *)
Definition interrupted (extra : bool) (status : pth_status) : bool := extra && negb (bool_decide (status = PTH_STATUS_OCCURRED)).

(** ** Reading *)

Record rd := Rd { rd_fd : Z; rd_n : Z; rd_flags : Z }.
Inductive rd_kind := RdRead | RdRecv.

(** The call itself, with the data. *)
Definition read_do (kind : rd_kind) (l : rd) : st K (io rd * list Z) :=
  r ← eintr (match kind with RdRead => fs_read (rd_fd l) (rd_n l) | RdRecv => fs_recvfrom (rd_fd l) (rd_n l) (rd_flags l) end);
  mret (sysret r.1.1 r.1.2, r.2).
Definition read_resume (kind : rd_kind) (extra : bool) (status : pth_status) (l : rd) : st K (io rd * list Z) :=
  if interrupted extra status then mret (IoRet (-1) (Some EINTR), []) else read_do kind l.
(** Up to the first wait; [recheck]: the validity of the descriptor is
    checked again before the poll. *)
Definition read_start (kind : rd_kind) (recheck : bool) (l : rd) : st K (io rd * list Z) :=
  let bad := mret (IoRet (-1) (Some EBADF), []) : st K (io rd * list Z) in
  if rd_n l =? 0 then mret (IoRet 0 None, []) else
  v ← fd_valid (rd_fd l);
  if negb v then bad else
  m ← fdmode (rd_fd l) PTH_FDMODE_POLL;
  if m =? PTH_FDMODE_ERROR then bad else
  if m =? PTH_FDMODE_BLOCK then
    v ← (if recheck then fd_valid (rd_fd l) else mret true);
    if negb v then bad else
    r ← poll1 (rd_fd l) POLL_IN;
    if poll_bad r then mret (IoRet (-1) (Some r.2), [])
    else if r.1 =? 0 then mret (IoWait PTH_UNTIL_FD_READABLE l, []) else read_do kind l
  else read_do kind l.

Definition pth_read_ev (fd nbytes : Z) : st K (io rd * list Z) := read_start RdRead false (Rd fd nbytes 0).
Definition pth_recvfrom_ev (fd nbytes flags : Z) : st K (io rd * list Z) := read_start RdRecv true (Rd fd nbytes flags).
Definition pth_recv_ev := pth_recvfrom_ev.

(** [iov]: the lengths of the buffers. *)
Definition pth_readv_do (fd : Z) (iov : list Z) : st K (io (Z * list Z) * list Z) :=
  r ← eintr (fs_readv fd iov); mret (sysret r.1.1 r.1.2, r.2).
Definition pth_readv_resume (extra : bool) (status : pth_status) (l : Z * list Z) : st K (io (Z * list Z) * list Z) :=
  if interrupted extra status then mret (IoRet (-1) (Some EINTR), []) else pth_readv_do l.1 l.2.
Definition pth_readv_ev (fd : Z) (iov : list Z) : st K (io (Z * list Z) * list Z) :=
  let iovcnt := Z.of_nat (length iov) in
  if (iovcnt <=? 0) || (iovcnt >? UIO_MAXIOV) then mret (IoRet (-1) (Some EINVAL), []) else
  v ← fd_valid fd;
  if negb v then mret (IoRet (-1) (Some EBADF), []) else
  m ← fdmode fd PTH_FDMODE_POLL;
  if m =? PTH_FDMODE_ERROR then mret (IoRet (-1) (Some EBADF), []) else
  if m =? PTH_FDMODE_BLOCK then
    r ← poll1 fd POLL_IN;
    if r.1 <? 1 then mret (IoWait PTH_UNTIL_FD_READABLE (fd, iov), []) else pth_readv_do fd iov
  else pth_readv_do fd iov.

(** ** Writing *)

(** The data that is left, the mode to restore, the number of bytes so far. *)
Record wr (D : Type) := Wr { wr_fd : Z; wr_mode : Z; wr_left : D; wr_rv : Z }.
Arguments Wr {D}. Arguments wr_fd {D}. Arguments wr_mode {D}. Arguments wr_left {D}. Arguments wr_rv {D}.

(** What the calls that write differ in: the system call, the number of bytes
    that are left, and how the data advances. *)
Record wr_ops (D : Type) := WrOps {
  wo_call : Z -> D -> K -> Z * errno * K;
  wo_len : D -> Z;
  wo_advance : D -> Z -> option D
}.
Arguments WrOps {D}. Arguments wo_call {D}. Arguments wo_len {D}. Arguments wo_advance {D}.

(** The end of a call: the mode is restored. *)
Definition write_return {L : Type} (fd mode rv : Z) (e : errno) : st K (io L) :=
  fdmode fd mode;; mret (sysret rv e).

(** The write and what follows it in the loop, up to the next wait. *)
Definition write_do {D : Type} (o : wr_ops D) (l : wr D) : st K (io (wr D)) :=
  r ← eintr (unit_call (wo_call o (wr_fd l) (wr_left l)));
  let s := r.1.1 in
  let rv := if s >? 0 then wr_rv l + s else wr_rv l in
  if (s >? 0) && (s <? wo_len o (wr_left l)) then
    match wo_advance o (wr_left l) s with
    | None => undef
    | Some d => mret (IoWait PTH_UNTIL_FD_WRITEABLE (Wr (wr_fd l) (wr_mode l) d rv))
    end
  else write_return (wr_fd l) (wr_mode l) (if (s <? 0) && (rv =? 0) then -1 else rv) r.1.2.
(** After a wait. *)
Definition write_resume {D : Type} (o : wr_ops D) (extra : bool) (status : pth_status) (l : wr D) : st K (io (wr D)) :=
  if interrupted extra status then fdmode (wr_fd l) (wr_mode l);; mret (IoRet (-1) (Some EINTR)) else write_do o l.
(** Without the loop, for a descriptor that does not block. *)
Definition write_once {D : Type} (o : wr_ops D) (fd m : Z) (d : D) : st K (io (wr D)) :=
  r ← eintr (unit_call (wo_call o fd d)); write_return fd m r.1.1 r.1.2.

(** [pth_sendto_ev] checks the descriptor once more than [pth_write_ev], and
    does not wait if the poll failed. *)
Definition write_start (o : wr_ops (list Z)) (send : bool) (fd : Z) (data : list Z) : st K (io (wr (list Z))) :=
  if Z.of_nat (length data) =? 0 then mret (IoRet 0 None) else
  v ← fd_valid fd;
  if negb v then mret (IoRet (-1) (Some EBADF)) else
  m ← fdmode fd PTH_FDMODE_NONBLOCK;
  if m =? PTH_FDMODE_ERROR then mret (IoRet (-1) (Some EBADF)) else
  if negb (m =? PTH_FDMODE_NONBLOCK) then
    v ← (if send then fd_valid fd else mret true);
    if negb v then fdmode fd m;; mret (IoRet (-1) (Some EBADF)) else
    r ← poll1 fd POLL_OUT;
    if poll_bad r then mret (IoRet (-1) (Some r.2)) else
    let l := Wr fd m data 0 in
    if (if send then r.1 =? 0 else r.1 <? 1) then mret (IoWait PTH_UNTIL_FD_WRITEABLE l) else write_do o l
  else write_once o fd m data.

Definition data_ops (call : Z -> list Z -> K -> Z * errno * K) : wr_ops (list Z) :=
  WrOps call (fun d => Z.of_nat (length d)) (fun d s => Some (drop (Z.to_nat s) d)).
Definition write_ops := data_ops fs_write.
Definition send_ops (flags : Z) (to : ptr) := data_ops (fun fd d => fs_sendto fd d flags to).
Definition pth_write_ev (fd : Z) (data : list Z) := write_start write_ops false fd data.
Definition pth_sendto_ev (fd : Z) (data : list Z) (flags : Z) (to : ptr) := write_start (send_ops flags to) true fd data.
Definition pth_send_ev (fd : Z) (data : list Z) (flags : Z) := pth_sendto_ev fd data flags NULL.

(** ** Writing from several buffers

    A vector is the list of the contents of its buffers. *)

Definition pth_writev_iov_bytes (iov : list (list Z)) : Z := foldr (fun b n => Z.of_nat (length b) + n) 0 iov.

(** The loop that advances. *)
Fixpoint iov_skip (liov : list (list Z)) (advance : nat) : list (list Z) :=
  match liov with
  | [] => []
  | b :: r => match advance with
              | O => liov
              | _ => if (advance <? length b)%nat then drop advance b :: r else iov_skip r (advance - length b)
              end
  end.
(** [liov]: [None] before the first step; the boolean: whether it is a copy,
    for which there is room for [room] entries. *)
Definition pth_writev_iov_advance (riov : list (list Z)) (advance : nat) (liov : option (bool * list (list Z))) (room : Z)
    : option (bool * list (list Z)) :=
  let '(copy, l) := default (false, riov) liov in
  if (0 <? advance)%nat then
    if negb copy && (Z.of_nat (length riov) >? room) then None else Some (true, iov_skip l advance)
  else Some (copy, l).

(** [sizeof(tiov_stack)] is the size of 32 entries of 16 bytes. *)
Definition tiov_room (iovcnt : Z) : Z := if iovcnt >? 512 then UIO_MAXIOV else 32.

(** The vector of the caller, the local one, the number of bytes left. *)
Record wrv := Wrv { v_iov : list (list Z); v_liov : bool * list (list Z); v_nbytes : Z }.
Definition wrv_advance (v : wrv) (s : Z) : option wrv :=
  liov ← pth_writev_iov_advance (v_iov v) (Z.to_nat s) (Some (v_liov v)) (tiov_room (Z.of_nat (length (v_iov v))));
  Some (Wrv (v_iov v) liov (v_nbytes v - s)).
Definition writev_ops : wr_ops wrv := WrOps (fun fd v => fs_writev fd (v_liov v).2) v_nbytes wrv_advance.
Definition pth_writev_resume := write_resume writev_ops.
(** [malloc_ok]: for the copy of a long vector. *)
Definition pth_writev_ev (malloc_ok : bool) (fd : Z) (iov : list (list Z)) : st K (io (wr wrv)) :=
  let iovcnt := Z.of_nat (length iov) in
  if (iovcnt <=? 0) || (iovcnt >? UIO_MAXIOV) then mret (IoRet (-1) (Some EINVAL)) else
  v ← fd_valid fd;
  if negb v then mret (IoRet (-1) (Some EBADF)) else
  m ← fdmode fd PTH_FDMODE_NONBLOCK;
  if m =? PTH_FDMODE_ERROR then mret (IoRet (-1) (Some EBADF)) else
  if negb (m =? PTH_FDMODE_NONBLOCK) then
    if (iovcnt >? 512) && negb malloc_ok then mret (IoRet (-1) (Some ENOMEM)) else
    match pth_writev_iov_advance iov 0 None (tiov_room iovcnt) with
    | None => undef
    | Some liov =>
        r ← poll1 fd POLL_OUT;
        let l := Wr fd m (Wrv iov liov (pth_writev_iov_bytes iov)) 0 in
        if r.1 <? 1 then mret (IoWait PTH_UNTIL_FD_WRITEABLE l) else write_do writev_ops l
    end
  else write_once writev_ops fd m (Wrv iov (false, iov) (pth_writev_iov_bytes iov)).

(** ** The faked vector calls

    [buffer]: what [malloc] gives, [None] if it fails. *)

Definition iov_faked_bytes (iov : list Z) : option Z :=
  if forallb (fun n => 0 <? n) iov && negb (bool_decide (iov = [])) then Some (foldr Z.add 0 iov) else None.

(** Every buffer is copied to the same place. *)
Fixpoint writev_copy (iov : list (list Z)) (to_copy : nat) (cp : list Z) : list Z :=
  match iov with
  | [] => cp
  | b :: r =>
      let copy := Nat.min (length b) to_copy in
      let cp := take copy b ++ drop copy cp in
      if (to_copy - copy =? 0)%nat then cp else writev_copy r (to_copy - copy) cp
  end.
Definition pth_writev_faked (buffer : option (list Z)) (fd : Z) (iov : list (list Z)) : st K (Z * errno) :=
  match iov_faked_bytes (map (fun b => Z.of_nat (length b)) iov) with
  | None => mret (-1, EINVAL)
  | Some bytes =>
      match buffer with
      | None => mret (-1, ENOMEM)
      | Some cp => r ← sys (fun k => let '(n, e, k') := fs_write fd (writev_copy iov (Z.to_nat bytes) cp) k in ((n, e), k')); mret r
      end
  end.

(** The data is distributed over the buffers; the result of read(2) is kept as
    a [size_t], and [buffer] is advanced before it is freed. *)
Fixpoint readv_scatter (iov : list Z) (bytes : Z) : Z :=
  match iov with
  | [] => 0
  | n :: r => let copy := Z.min n bytes in if bytes - copy =? 0 then copy else copy + readv_scatter r (bytes - copy)
  end.
Definition pth_readv_faked (malloc_ok : bool) (fd : Z) (iov : list Z) : st K (Z * errno) :=
  match iov_faked_bytes iov with
  | None => mret (-1, EINVAL)
  | Some bytes =>
      if negb malloc_ok then mret (-1, ENOMEM) else
      r ← sys (fs_read fd bytes);
      let rv := u64 r.1.1 in
      if (rv >? 0) && negb (readv_scatter iov rv =? 0) then undef      (* free() of another address *)
      else mret (i64 rv, r.1.2)
  end.

(** ** Connections *)

(** The error of the socket after the wait. *)
Definition connect_result (s rv : Z) : st K (io Z) := fun k =>
  Some (match fs_soerror s k with
        | None => IoRet (-1) None
        | Some err => if err =? 0 then IoRet 0 None else IoRet rv (Some (EOTHER err)) end, k).
Definition pth_connect_resume (extra : bool) (status : pth_status) (s : Z) : st K (io Z) :=
  if interrupted extra status then mret (IoRet (-1) (Some EINTR)) else connect_result s (-1).
(** [ev_ok]: the event can be created. *)
Definition pth_connect_ev (ev_ok : bool) (s : Z) (addr : ptr) : st K (io Z) :=
  v ← fd_valid s;
  if negb v then mret (IoRet (-1) (Some EBADF)) else
  m ← fdmode s PTH_FDMODE_NONBLOCK;
  if m =? PTH_FDMODE_ERROR then mret (IoRet (-1) (Some EBADF)) else
  r ← eintr (unit_call (fs_connect s addr));
  fdmode s m;;
  if (r.1.1 =? -1) && bool_decide (r.1.2 = EINPROGRESS) && negb (m =? PTH_FDMODE_NONBLOCK)
  then mret (if ev_ok then IoWait PTH_UNTIL_FD_WRITEABLE s else IoRet (-1) (Some ENOMEM)) else mret (sysret r.1.1 r.1.2).

(** [ac_joined]: whether the extra events are in the ring of the event. *)
Record ac := Ac { ac_s : Z; ac_mode : Z; ac_joined : bool }.
Definition accept_try (ev_ok : bool) (l : ac) (again : ac) : st K (io ac) :=
  r ← sys (fun k => let '(n, e, k') := fs_accept (ac_s l) k in ((n, e), k'));
  if (r.1 =? -1) && bool_decide (r.2 = EAGAIN) && negb (ac_mode l =? PTH_FDMODE_NONBLOCK)
  then mret (if ev_ok then IoWait PTH_UNTIL_FD_READABLE again else IoRet (-1) (Some ENOMEM))
  else
    fdmode (ac_s l) (ac_mode l);;
    (if r.1 =? -1 then mret tt else fdmode r.1 (ac_mode l);; mret tt);;
    mret (sysret r.1 r.2).
Definition pth_accept_ev (ev_ok extra : bool) (s : Z) : st K (io ac) :=
  v ← fd_valid s;
  if negb v then mret (IoRet (-1) (Some EBADF)) else
  m ← fdmode s PTH_FDMODE_NONBLOCK;
  if m =? PTH_FDMODE_ERROR then mret (IoRet (-1) (Some EBADF)) else
  accept_try ev_ok (Ac s m false) (Ac s m extra).
(** The first wait isolates the event, and it is not concatenated again. *)
Definition pth_accept_resume (extra : bool) (status : pth_status) (l : ac) : st K (io ac) :=
  if interrupted extra status then fdmode (ac_s l) (ac_mode l);; mret (IoRet (-1) (Some EINTR))
  else accept_try true l (Ac (ac_s l) (ac_mode l) false).

(** ** At an offset

    The boolean in the state: whether the mutex of the calls is held. *)
Abbreviation lk := (K * bool)%type.
Definition on_k {A : Type} (m : st K A) : st lk A := zoom fst (fun k s => (k, s.2)) m.
Definition unlock : st lk unit := fun s => Some (tt, (s.1, false)).
Definition lseek (fd off : Z) (set : bool) : st lk (Z * errno) :=
  on_k (sys (fun k => let '(n, e, k') := fs_lseek fd off set k in ((n, e), k'))).

(** What follows the inner call: nothing but a wait leaves the mutex held. *)
Definition at_offset_end {L : Type} (fd old : Z) (r : io L) : st lk (io (L * Z)) :=
  match r with
  | IoWait g l => mret (IoWait g (l, old))
  | IoRet rv e => lseek fd old true;; unlock;; mret (IoRet rv e)
  end.
Definition at_offset {L A : Type} (fd offset : Z) (none : A) (start : st K (io L * A)) : st lk (io (L * Z) * A) :=
  o ← lseek fd 0 false;
  if o.1 =? -1 then unlock;; mret (IoRet (-1) (Some o.2), none) else
  p ← lseek fd offset true;
  if p.1 =? -1 then unlock;; mret (IoRet (-1) (Some p.2), none) else
  r ← on_k start;
  e ← at_offset_end fd o.1 r.1;
  mret (e, r.2).
Definition pth_pread (fd nbytes offset : Z) : st lk (io (rd * Z) * list Z) := at_offset fd offset [] (pth_read_ev fd nbytes).
Definition pth_pread_resume (status : pth_status) (l : rd * Z) : st lk (io (rd * Z) * list Z) :=
  r ← on_k (read_resume RdRead false status l.1); e ← at_offset_end (rd_fd l.1) l.2 r.1; mret (e, r.2).
Definition pth_pwrite (fd offset : Z) (data : list Z) : st lk (io (wr (list Z) * Z) * unit) :=
  at_offset fd offset tt (r ← pth_write_ev fd data; mret (r, tt)).
Definition pth_pwrite_resume (status : pth_status) (l : wr (list Z) * Z) : st lk (io (wr (list Z) * Z) * unit) :=
  r ← on_k (write_resume write_ops false status l.1); e ← at_offset_end (wr_fd l.1) l.2 r; mret (e, tt).
End calls.
Arguments Wr {D}. Arguments wr_fd {D}. Arguments wr_mode {D}. Arguments wr_left {D}. Arguments wr_rv {D}.
Arguments WrOps {K D}. Arguments wo_call {K D}. Arguments wo_len {K D}. Arguments wo_advance {K D}.
