(* ===== verification/Iospec.v ===== *)
(** * What threaded output promises

    A write to a blocking descriptor behaves as write(2) does: the bytes go
    out in order and once each, and as many as the result says. *)

From stdpp Require Import base numbers gmap list.
From S2P Require Import Prelude Util Event Lib Io.
Open Scope Z_scope.

(** A call that takes a part of the bytes [d]. *)
Definition takes {K : Type} `{!FileSys K} (stream : Z -> K -> list Z) (fd : Z) (d : list Z) (call : K -> Z * errno * K) : Prop :=
  forall k n e k', call k = (n, e, k') ->
    n <= Z.of_nat (length d) /\ (fs_getfl fd k').1 = (fs_getfl fd k).1 /\
    stream fd k' = stream fd k ++ take (Z.to_nat n) d /\
    (n < 0 -> e = EINTR -> (fs_patience k' < fs_patience k)%nat).

(** What is relied on about the kernel. [fs_stream fd k]: the bytes that were
    written to the descriptor so far. *)
Class FileLaws (K : Type) `{!FileSys K} := {
  fs_stream : Z -> K -> list Z;
  fl_getfl : forall fd k, fd < 0 -> (fs_getfl fd k).1 = -1;
  fl_setfl : forall fd v k, (fs_getfl fd k).1 <> -1 ->
    (fs_getfl fd (fs_setfl fd v k)).1 = v /\ fs_stream fd (fs_setfl fd v k) = fs_stream fd k;
  fl_poll : forall fd ev k n e k', fs_poll fd ev k = (n, e, k') ->
    (fs_getfl fd k').1 = (fs_getfl fd k).1 /\ fs_stream fd k' = fs_stream fd k /\
    (n < 0 -> e = EINTR -> (fs_patience k' < fs_patience k)%nat);
  fl_write : forall fd d, takes fs_stream fd d (fs_write fd d);
  fl_sendto : forall fd d flags to, takes fs_stream fd d (fs_sendto fd d flags to);
  fl_writev : forall fd v, takes fs_stream fd (concat v) (fs_writev fd v)
}.

Section spec.
Context {K : Type} `{!FileSys K, !FileLaws K}.

(** An open descriptor in blocking mode. *)
Definition blocking (fd : Z) (k : K) : Prop := 0 <= fd /\ 0 <= (fs_getfl fd k).1 /\ Z.land (fs_getfl fd k).1 O_NONBLOCK = 0.

(** The two modes. *)
Lemma flag_set fl : 0 <= fl -> Z.land (Z.lor fl O_NONBLOCK) O_NONBLOCK <> 0 /\ 0 <= Z.lor fl O_NONBLOCK.
Proof.
  intros Hfl. split; [|by apply Z.lor_nonneg]. intros H.
  assert (Hb : Z.testbit (Z.land (Z.lor fl O_NONBLOCK) O_NONBLOCK) 11 = true) by (by rewrite Z.land_spec, Z.lor_spec, orb_true_r).
  rewrite H in Hb. done.
Qed.
Lemma flag_restore fl : Z.land fl O_NONBLOCK = 0 -> Z.land (Z.lor fl O_NONBLOCK) (Z.lnot O_NONBLOCK) = fl.
Proof.
  intros H. apply Z.bits_inj. intros n. assert (Hn := f_equal (fun z => Z.testbit z n) H). cbn in Hn.
  rewrite Z.land_spec, Z.bits_0 in Hn. destruct (Z.neg_nonneg_cases n) as [Hneg|Hpos].
  - by rewrite !Z.testbit_neg_r.
  - rewrite Z.land_spec, Z.lor_spec, Z.lnot_spec by done. destruct (Z.testbit fl n), (Z.testbit O_NONBLOCK n); done.
Qed.

Definition same (fd : Z) (k k' : K) : Prop := (fs_getfl fd k').1 = (fs_getfl fd k).1 /\ fs_stream fd k' = fs_stream fd k.
Lemma same_refl fd k : same fd k k.
Proof. done. Qed.
Lemma same_trans fd k1 k2 k3 : same fd k1 k2 -> same fd k2 k3 -> same fd k1 k3.
Proof. intros [? ?] [? ?]. split; congruence. Qed.

Lemma fdmode_eq fd m k : fdmode fd m k =
  Some ((pth_fdmode O_NONBLOCK (fs_getfl fd k).1 m).1,
        match (pth_fdmode O_NONBLOCK (fs_getfl fd k).1 m).2 with Some fl => fs_setfl fd fl k | None => k end).
Proof. unfold fdmode. by destruct (pth_fdmode _ _ _). Qed.
Lemma to_nonblock fd k : blocking fd k -> exists k', fdmode fd PTH_FDMODE_NONBLOCK k = Some (PTH_FDMODE_BLOCK, k') /\
  (fs_getfl fd k').1 = Z.lor (fs_getfl fd k).1 O_NONBLOCK /\ fs_stream fd k' = fs_stream fd k.
Proof.
  intros (Hfd & Hfl & Hnb). rewrite fdmode_eq. unfold pth_fdmode. cbn. rewrite (proj2 (Z.eqb_neq _ (-1))), Hnb by lia. cbn.
  eexists. split; [reflexivity|]. by apply fl_setfl; lia.
Qed.
Lemma to_block fd fl k : 0 <= fl -> Z.land fl O_NONBLOCK = 0 -> (fs_getfl fd k).1 = Z.lor fl O_NONBLOCK ->
  exists m k', fdmode fd PTH_FDMODE_BLOCK k = Some (m, k') /\ (fs_getfl fd k').1 = fl /\ fs_stream fd k' = fs_stream fd k.
Proof.
  intros Hfl Hnb Hk. destruct (flag_set fl Hfl) as [Hset Hpos]. rewrite fdmode_eq. unfold pth_fdmode. rewrite Hk.
  rewrite (proj2 (Z.eqb_neq _ (-1))), (proj2 (Z.eqb_neq _ 0)) by lia. cbn. eexists _, _. split; [reflexivity|].
  rewrite (flag_restore fl Hnb). apply fl_setfl. lia.
Qed.
Lemma valid_ok fd k : blocking fd k -> fd_valid fd k = Some (true, k).
Proof.
  intros (Hfd & Hfl & _). unfold fd_valid, pth_util_fd_valid. rewrite (proj2 (Z.ltb_ge fd 0)) by done.
  by rewrite (proj2 (Z.eqb_neq _ (-1))) by lia.
Qed.

(** A call that is repeated while it is interrupted. *)
Lemma eintr_ok {A : Type} fd (call : K -> Z * errno * A * K) :
  (forall k n e a k', call k = (n, e, a, k') -> n < 0 -> same fd k k' /\ (e = EINTR -> (fs_patience k' < fs_patience k)%nat)) ->
  forall k, exists k1 n e a k', eintr call k = Some ((n, e, a), k') /\ same fd k k1 /\ call k1 = (n, e, a, k').
Proof.
  intros Hcall k. unfold eintr. remember (fs_patience k) as f eqn:Hf. assert (Hle : (fs_patience k <= f)%nat) by lia. clear Hf.
  revert k Hle. induction f as [|f IH]; intros k Hle; cbn [eintr_loop]; destruct (call k) as [[[n e] a] k'] eqn:Ec;
    (destruct (Z.ltb_spec n 0) as [Hn|Hn]; [destruct (decide (e = EINTR)) as [He|He]|]; cbn [andb];
     [rewrite bool_decide_eq_true_2 by done|rewrite bool_decide_eq_false_2 by done; by exists k, n, e, a, k'|by exists k, n, e, a, k']);
    destruct (Hcall k n e a k' Ec Hn) as [Hs Hp]; specialize (Hp He); [lia|].
  destruct (IH k' ltac:(lia)) as (k1 & n1 & e1 & a1 & k2 & E & H1 & H2). exists k1, n1, e1, a1, k2. split_and!; [done| |done].
  by eapply same_trans.
Qed.

Lemma poll1_ok fd ev k : exists r k', poll1 fd ev k = Some (r, k') /\ same fd k k'.
Proof.
  destruct (eintr_ok fd (unit_call (fs_poll fd ev))) with (k := k) as (k1 & n & e & a & k' & E & Hs & Hc).
  { intros k0 n e a k' Hc Hn. unfold unit_call in Hc. destruct (fs_poll fd ev k0) as [[n0 e0] k0'] eqn:Ep. simplify_eq.
    destruct (fl_poll _ _ _ _ _ _ Ep) as (H1 & H2 & H3). split; [done|]. intros ->. by apply H3. }
  unfold poll1. rewrite (st_bind_Some _ _ _ _ _ E). exists (n, e), k'. split; [done|].
  unfold unit_call in Hc. destruct (fs_poll fd ev k1) as [[n0 e0] k0'] eqn:Ep. simplify_eq.
  destruct (fl_poll _ _ _ _ _ _ Ep) as (H1 & H2 & _). by eapply same_trans.
Qed.

(** What the loop needs to know about the data: the bytes that are left, and
    that the call takes a part of them and advances by it. *)
Record wr_laws {D : Type} (o : wr_ops D) (fd : Z) (bytes : D -> list Z) (good : D -> Prop) : Prop := {
  wl_call : forall d, good d -> takes fs_stream fd (bytes d) (wo_call o fd d);
  wl_len : forall d, good d -> wo_len o d = Z.of_nat (length (bytes d));
  wl_advance : forall d s, good d -> 0 < s < Z.of_nat (length (bytes d)) ->
    exists d', wo_advance o d s = Some d' /\ good d' /\ bytes d' = drop (Z.to_nat s) (bytes d)
}.

Section write.
Context {D : Type} (o : wr_ops D) (fd : Z) (bytes : D -> list Z) (good : D -> Prop) (Hl : wr_laws o fd bytes good).
Context (d : list Z) (fl : Z) (S0 : list Z).
Context (Hfl : 0 <= fl) (Hnb : Z.land fl O_NONBLOCK = 0).

(** In the loop: [n] bytes are written. *)
Definition midway (l : wr D) (k : K) (n : nat) : Prop :=
  (exists x, l = Wr fd PTH_FDMODE_BLOCK x (Z.of_nat n) /\ good x /\ bytes x = drop n d) /\ (n < length d)%nat /\
  fs_stream fd k = S0 ++ take n d /\ (fs_getfl fd k).1 = Z.lor fl O_NONBLOCK.
(** The kernel takes no more. *)
Definition refused (n : nat) : Prop := exists x k s e k', bytes x = drop n d /\ wo_call o fd x k = (s, e, k') /\ s <= 0.
(** The result of a write. *)
Definition written (extra : bool) (rv : Z) (e : option errno) (k : K) : Prop :=
  exists n, (n <= length d)%nat /\ fs_stream fd k = S0 ++ take n d /\ (fs_getfl fd k).1 = fl /\
  (rv = Z.of_nat n /\ e = None /\ (n < length d -> refused n)%nat \/
   rv = -1 /\ n = 0%nat /\ is_Some e \/
   extra = true /\ rv = -1 /\ e = Some EINTR).
Definition goes_on (extra : bool) (n : nat) (r : io (wr D)) (k : K) : Prop :=
  (exists g l m, r = IoWait g l /\ (n <= m)%nat /\ midway l k m) \/ (exists rv e, r = IoRet rv e /\ written extra rv e k).

Lemma write_do_ok extra l k n : midway l k n -> exists r k', write_do o l k = Some (r, k') /\ goes_on extra (S n) r k'.
Proof.
  intros ((x & -> & Hx & Hbx) & Hn & Hs & Hg). assert (Htk := wl_call _ _ _ _ Hl x Hx). rewrite Hbx in Htk.
  destruct (eintr_ok fd (unit_call (wo_call o fd x))) with (k := k) as (k1 & s & e & a & k2 & E & [Hg1 Hs1] & Hc).
  { intros k0 s e a k' Hc Hneg. unfold unit_call in Hc. destruct (wo_call o fd x k0) as [[s0 e0] k0'] eqn:Ew. simplify_eq.
    destruct (Htk _ _ _ _ Ew) as (_ & H1 & H2 & H3). split; [|by intros ->; apply H3]. split; [done|].
    rewrite H2. replace (Z.to_nat s) with O by lia. by rewrite take_0, app_nil_r. }
  unfold unit_call in Hc. destruct (wo_call o fd x k1) as [[s0 e0] k0'] eqn:Ew. simplify_eq.
  destruct (Htk _ _ _ _ Ew) as (Hle & Hg2 & Hs2 & _). rewrite length_drop in Hle.
  unfold write_do. cbn [wr_fd wr_left wr_rv wr_mode]. rewrite (st_bind_Some _ _ _ _ _ E). cbn [fst snd].
  assert (Hst : fs_stream fd k2 = S0 ++ take (n + Z.to_nat s) d) by (rewrite Hs2, Hs1, Hs, <- app_assoc; f_equal; apply take_take_drop).
  rewrite (wl_len _ _ _ _ Hl x Hx), Hbx, length_drop. destruct (Z.gtb_spec s 0) as [Hpos|Hpos]; cbn [andb].
  - destruct (Z.ltb_spec s (Z.of_nat (length d - n))) as [Hlt|Hge].
    + destruct (wl_advance _ _ _ _ Hl x s Hx) as (x' & -> & Hx' & Hbx'); [rewrite Hbx, length_drop; lia|].
      eexists _, k2. split; [reflexivity|]. left. eexists _, _, (n + Z.to_nat s)%nat. split; [reflexivity|]. split; [lia|]. split_and!.
      * exists x'. split_and!; [f_equal; lia|done|]. rewrite Hbx', Hbx, drop_drop. done.
      * lia.
      * done.
      * congruence.
    + destruct (to_block fd fl k2 Hfl Hnb ltac:(congruence)) as (m & k3 & E3 & Hg3 & Hs3).
      unfold write_return. rewrite (proj2 (Z.ltb_ge s 0)) by lia. cbn [andb]. rewrite (st_bind_Some _ _ _ _ _ E3).
      eexists _, k3. split; [reflexivity|]. right. eexists _, _. split; [unfold sysret; by rewrite (proj2 (Z.ltb_ge _ 0)) by lia|].
      exists (length d). split_and!; [lia|rewrite Hs3, Hst; by rewrite !take_ge by lia|done|]. left. split_and!; [lia|done|lia].
  - replace (Z.to_nat s) with O in Hst by lia. rewrite Nat.add_0_r in Hst.
    destruct (to_block fd fl k2 Hfl Hnb ltac:(congruence)) as (m & k3 & E3 & Hg3 & Hs3).
    unfold write_return. rewrite (st_bind_Some _ _ _ _ _ E3). eexists _, k3. split; [reflexivity|]. right. unfold sysret.
    destruct ((s <? 0) && (Z.of_nat n =? 0)) eqn:Ez.
    + eexists _, _. split; [reflexivity|]. exists n. split_and!; [lia|congruence|done|]. right. left. split_and!; [done|lia|done].
    + rewrite (proj2 (Z.ltb_ge _ 0)) by lia. eexists _, _. split; [reflexivity|]. exists n. split_and!; [lia|congruence|done|].
      left. split_and!; [done|done|]. intros _. by exists x, k1, s, e, k2.
Qed.

(** ** The run of a call

    Between the rounds other threads and processes run: a function on the
    kernel, and the status of the event at the end of the wait. *)

Fixpoint drive (extra : bool) (env : list ((K -> K) * pth_status)) (r : io (wr D)) : st K (io (wr D)) :=
  match r, env with
  | IoWait _ l, (f, status) :: env' => fun k => (write_resume o extra status l ≫= drive extra env') (f k)
  | _, _ => mret r
  end.
(** Nobody else writes to the descriptor or changes its mode. *)
Definition quiet_env (env : list ((K -> K) * pth_status)) : Prop := Forall (fun x => forall k, same fd k (x.1 k)) env.

Lemma midway_same l k k' n : midway l k n -> same fd k k' -> midway l k' n.
Proof. intros (Hx & Hn & Hs & Hg) [H1 H2]. split_and!; [done|done|congruence|congruence]. Qed.

Lemma drive_ok extra env : quiet_env env -> forall n r k, goes_on extra n r k -> exists r' k' m, drive extra env r k = Some (r', k') /\
  goes_on extra m r' k' /\ ((length d <= n + length env)%nat -> exists rv e, r' = IoRet rv e).
Proof.
  induction 1 as [|[f status] env Hf _ IH]; intros n r k Hr.
  - exists r, k, n. split_and!; [by destruct r|done|]. intros Hn. destruct Hr as [(g & l & m & -> & Hm & _ & Hlt & _)|(rv & e & -> & _)];
      [cbn in Hn; lia|by eexists _, _].
  - destruct Hr as [(g & l & m & -> & Hm & Hmid)|(rv & e & -> & Hw)].
    2: { exists (IoRet rv e), k, n. split_and!; [done|by right; eauto|by eexists _, _]. }
    cbn [drive]. cbn in Hf. assert (Hmid' := midway_same _ _ _ _ Hmid (Hf k)). unfold write_resume.
    destruct (interrupted extra status) eqn:Ei.
    + destruct Hmid' as ((x & -> & Hx & Hbx) & Hlt & Hs & Hg). cbn [wr_fd wr_mode].
      destruct (to_block fd fl (f k) Hfl Hnb Hg) as (z & k2 & E2 & Hg2 & Hs2).
      rewrite st_bind_assoc, (st_bind_Some _ _ _ _ _ E2), (st_bind_Some (mret _) _ _ _ _ eq_refl).
      exists (IoRet (-1) (Some EINTR)), k2, m. split_and!; [by destruct env as [|[? ?] ?]| |by eexists _, _]. right. eexists _, _. split; [done|].
      exists m. split_and!; [lia|congruence|done|]. right. right. unfold interrupted in Ei. apply andb_true_iff in Ei as [-> _]. done.
    + destruct (write_do_ok extra l (f k) m Hmid') as (r' & k' & E & Hr'). rewrite (st_bind_Some _ _ _ _ _ E).
      destruct (IH (S m) r' k' Hr') as (r2 & k2 & m2 & E2 & H2 & H3). exists r2, k2, m2. split_and!; [done|done|].
      intros Hlen. apply H3. cbn in Hlen. lia.
Qed.
End write.

(** The bytes in one piece. *)
Lemma data_laws fd call : (forall d, takes fs_stream fd d (call fd d)) -> wr_laws (data_ops call) fd id (fun _ => True).
Proof.
  intros Hc. constructor; [intros d _; apply Hc|done|]. intros d s _ Hs. by exists (drop (Z.to_nat s) d).
Qed.

(** The result of a call that writes [d], when other threads ran in its waits. *)
Definition outcome {D : Type} (o : wr_ops D) fd (bytes : D -> list Z) (good : D -> Prop) (d : list Z) (extra : bool) (k : K)
    (r : io (wr D)) (k' : K) : Prop :=
  match r with
  | IoWait _ _ => exists n, (n < length d)%nat /\ fs_stream fd k' = fs_stream fd k ++ take n d
  | IoRet rv e => written o fd bytes d (fs_getfl fd k).1 (fs_stream fd k) extra rv e k' \/
      (rv = -1 /\ (e = Some EINVAL \/ e = Some EBADF) /\ fs_stream fd k' = fs_stream fd k)
  end.

Lemma after_start {D : Type} (o : wr_ops D) fd bytes good d extra env (start : st K (io (wr D))) k k1 k2 r :
  wr_laws o fd bytes good -> blocking fd k -> quiet_env fd env ->
  start k1 = Some (r, k2) -> goes_on o fd bytes good d (fs_getfl fd k).1 (fs_stream fd k) extra 0 r k2 ->
  exists r' k', (r ← start; drive o extra env r) k1 = Some (r', k') /\
    ((length d <= length env)%nat -> exists rv e, r' = IoRet rv e) /\ outcome o fd bytes good d extra k r' k'.
Proof.
  intros Hl (Hfd & Hfl & Hnb) Henv E Hg. rewrite (st_bind_Some _ _ _ _ _ E).
  destruct (drive_ok o fd bytes good Hl d _ _ Hfl Hnb extra env Henv 0 r k2 Hg) as (r' & k' & m & E' & Hg' & Hret).
  exists r', k'. split_and!; [done|done|]. destruct Hg' as [(g & l & n & -> & _ & (_ & Hn & Hs & _))|(rv & e & -> & Hw)]; [by exists n|by left].
Qed.
(** Before the first write: a wait, or the write itself. *)
Lemma first_ok {D : Type} (o : wr_ops D) fd bytes good d fl S0 extra (b : bool) x k :
  wr_laws o fd bytes good -> 0 <= fl -> Z.land fl O_NONBLOCK = 0 -> good x -> bytes x = d -> d <> [] ->
  fs_stream fd k = S0 -> (fs_getfl fd k).1 = Z.lor fl O_NONBLOCK -> let l := Wr fd PTH_FDMODE_BLOCK x 0 in
  exists r k', (if b then mret (IoWait PTH_UNTIL_FD_WRITEABLE l) else write_do o l) k = Some (r, k') /\
    goes_on o fd bytes good d fl S0 extra 0 r k'.
Proof.
  intros Hl Hfl Hnb Hx Hbx Hd Hs Hg l. assert (Hm : midway fd bytes good d fl S0 l k 0).
  { split_and!; [by exists x|destruct d; [done|cbn; lia]|by rewrite take_0, app_nil_r|done]. }
  destruct b.
  - eexists _, k. split; [reflexivity|]. left. by eexists _, _, O.
  - destruct (write_do_ok o fd bytes good Hl d fl S0 Hfl Hnb extra l k 0 Hm) as (r & k' & E & Hgo). exists r, k'. split; [done|].
    destruct Hgo as [(g & l' & m & -> & Hle & Hmid)|Hw]; [left; exists g, l', m; split_and!; [done|lia|done]|by right].
Qed.

Lemma start_ok call (send : bool) fd d extra k : (forall x, takes fs_stream fd x (call fd x)) -> blocking fd k -> d <> [] ->
  exists r k', write_start (data_ops call) send fd d k = Some (r, k') /\
    (goes_on (data_ops call) fd id (fun _ => True) d (fs_getfl fd k).1 (fs_stream fd k) extra 0 r k' \/
     exists e, r = IoRet (-1) (Some e) /\ (e = EINVAL \/ e = EBADF) /\ fs_stream fd k' = fs_stream fd k).
Proof.
  intros Hc Hb Hd. assert (Hl := data_laws fd call Hc). assert (Hb' := Hb). destruct Hb' as (Hfd & Hfl & Hnb). unfold write_start.
  rewrite (proj2 (Z.eqb_neq _ 0)) by (destruct d; [done|cbn; lia]).
  rewrite (st_bind_Some _ _ _ _ _ (valid_ok fd k Hb)). cbn [negb].
  destruct (to_nonblock fd k Hb) as (k1 & E1 & Hg1 & Hs1). rewrite (st_bind_Some _ _ _ _ _ E1).
  change (PTH_FDMODE_BLOCK =? PTH_FDMODE_ERROR) with false. change (negb (PTH_FDMODE_BLOCK =? PTH_FDMODE_NONBLOCK)) with true. cbv iota.
  assert (Ev : (if send then fd_valid fd else mret true) k1 = Some (true, k1)).
  { destruct send; [|done]. unfold fd_valid, pth_util_fd_valid. rewrite (proj2 (Z.ltb_ge fd 0)), Hg1 by done.
    destruct (flag_set _ Hfl) as [_ Hpos]. by rewrite (proj2 (Z.eqb_neq _ (-1))) by lia. }
  rewrite (st_bind_Some _ _ _ _ _ Ev). cbn [negb].
  destruct (poll1_ok fd POLL_OUT k1) as (r & k2 & E2 & Hg2 & Hs2). rewrite (st_bind_Some _ _ _ _ _ E2).
  destruct (poll_bad r) eqn:Ebad.
  - eexists _, k2. split; [reflexivity|]. right. exists r.2. split_and!; [done| |congruence]. unfold poll_bad in Ebad.
    apply andb_true_iff in Ebad as [_ [H|H]%orb_true_iff]; apply bool_decide_eq_true in H; tauto.
  - destruct (first_ok (data_ops call) fd id (fun _ => True) d (fs_getfl fd k).1 (fs_stream fd k) extra (if send then r.1 =? 0 else r.1 <? 1) d k2
      Hl Hfl Hnb I eq_refl Hd (eq_trans Hs2 Hs1) (eq_trans Hg2 Hg1)) as (r' & k' & E' & Hgo). exists r', k'. split; [done|by left].
Qed.

(** C27: [pth_write] and [pth_send] to a blocking descriptor do what write(2)
    does. Whatever other threads do in the waits, short of writing to this
    descriptor or changing its mode, and however the kernel cuts the data into
    pieces: the bytes are written in order, each once and with no gap; the call
    returns at the latest after as many waits as there are bytes; a result
    [rv >= 0] is the number of bytes written, all of them unless the kernel
    took none in the last round; [-1] means that none was written, or that the
    extra event came first; and the descriptor is back in its mode. The one
    exception is a poll that fails at the start. *)
Theorem write_correct (send : option (Z * ptr)) fd d extra env (k : K) :
  blocking fd k -> d <> [] -> quiet_env fd env ->
  let o := match send with None => write_ops | Some (flags, to) => send_ops flags to end in
  let start := match send with None => pth_write_ev fd d | Some (flags, to) => pth_sendto_ev fd d flags to end in
  exists r k', (r ← start; drive o extra env r) k = Some (r, k') /\
    ((length d <= length env)%nat -> exists rv e, r = IoRet rv e) /\ outcome o fd id (fun _ => True) d extra k r k'.
Proof.
  intros Hb Hd Henv.
  assert (Hmain : forall call snd, (forall x, takes fs_stream fd x (call fd x)) -> exists r k',
    (r ← write_start (data_ops call) snd fd d; drive (data_ops call) extra env r) k = Some (r, k') /\
    ((length d <= length env)%nat -> exists rv e, r = IoRet rv e) /\ outcome (data_ops call) fd id (fun _ => True) d extra k r k').
  { intros call snd Hc. destruct (start_ok call snd fd d extra k Hc Hb Hd) as (r & k1 & E & [Hgo|(e & -> & He & Hs)]).
    - eapply after_start; [by apply data_laws|done|done|exact E|exact Hgo].
    - rewrite (st_bind_Some _ _ _ _ _ E). exists (IoRet (-1) (Some e)), k1. split_and!; [by destruct env as [|[? ?] ?]|by eexists _, _|].
      right. split_and!; [done|destruct He as [->| ->]; tauto|done]. }
  destruct send as [[flags to]|]; cbv zeta; apply Hmain; intros x; [apply fl_sendto|apply fl_write].
Qed.

(** ** Several buffers *)

Lemma iov_skip_concat l : forall a, concat (iov_skip l a) = drop a (concat l).
Proof.
  induction l as [|b l IH]; intros a; cbn [iov_skip]; [cbn; by rewrite drop_nil|]. destruct a as [|a]; [done|].
  destruct (Nat.ltb_spec (S a) (length b)); cbn [concat].
  - by rewrite drop_app_le by lia.
  - rewrite IH, drop_app, (drop_ge b) by lia. done.
Qed.
Lemma iov_bytes_concat iov : pth_writev_iov_bytes iov = Z.of_nat (length (concat iov)).
Proof. induction iov as [|b l IH]; [done|]. cbn. fold (pth_writev_iov_bytes l). rewrite length_app, IH. lia. Qed.

Definition wrv_bytes (v : wrv) : list Z := concat (v_liov v).2.
(** The copy of the vector has its room. *)
Definition wrv_good (v : wrv) : Prop :=
  v_nbytes v = Z.of_nat (length (wrv_bytes v)) /\ Z.of_nat (length (v_iov v)) <= tiov_room (Z.of_nat (length (v_iov v))).
Lemma writev_laws fd : wr_laws writev_ops fd wrv_bytes wrv_good.
Proof.
  constructor; [intros v _; apply fl_writev|by intros v [Hn _]|].
  intros [iov [copy l] n] s [Hn Hr] Hs. unfold wrv_bytes in *. cbn in Hn, Hr, Hs. cbn [wo_advance writev_ops]. unfold wrv_advance, pth_writev_iov_advance. cbn [v_iov v_liov v_nbytes default from_option id].
  rewrite (proj2 (Nat.ltb_lt 0 (Z.to_nat s))) by lia.
  assert (Hc : negb copy && (Z.of_nat (length iov) >? tiov_room (Z.of_nat (length iov))) = false).
  { destruct (Z.gtb_spec (Z.of_nat (length iov)) (tiov_room (Z.of_nat (length iov)))); [lia|apply andb_false_r]. }
  rewrite Hc. eexists. split; [reflexivity|]. unfold wrv_good, wrv_bytes. cbn. rewrite iov_skip_concat, length_drop. split; [split; [lia|done]|done].
Qed.

(** [pth_writev] writes the contents of its buffers as [pth_write] writes
    the concatenation: in order, once each, across all partial writes, with the
    local vector advanced by exactly what was taken. This holds for the vectors
    that have room on the stack or are copied to the heap: of at most 32
    entries, or of more than 512. *)
Lemma writev_correct fd iov extra env (k : K) :
  blocking fd k -> concat iov <> [] -> Z.of_nat (length iov) <= 32 \/ 512 < Z.of_nat (length iov) <= UIO_MAXIOV -> quiet_env fd env ->
  exists r k', (r ← pth_writev_ev true fd iov; drive writev_ops extra env r) k = Some (r, k') /\
    ((length (concat iov) <= length env)%nat -> exists rv e, r = IoRet rv e) /\
    outcome writev_ops fd wrv_bytes wrv_good (concat iov) extra k r k'.
Proof.
  intros Hb Hd Hlen Henv. assert (Hb' := Hb). destruct Hb' as (Hfd & Hfl & Hnb).
  assert (Hiov : (0 < length iov)%nat) by (destruct iov; [done|cbn; lia]).
  destruct (to_nonblock fd k Hb) as (k1 & E1 & Hg1 & Hs1). destruct (poll1_ok fd POLL_OUT k1) as (p & k2 & E2 & Hg2 & Hs2).
  set (x := Wrv iov (false, iov) (pth_writev_iov_bytes iov)).
  assert (Hx : wrv_good x).
  { split; [apply iov_bytes_concat|]. cbn. unfold tiov_room, UIO_MAXIOV in *.
    destruct (Z.gtb_spec (Z.of_nat (length iov)) 512); lia. }
  destruct (first_ok writev_ops fd wrv_bytes wrv_good (concat iov) (fs_getfl fd k).1 (fs_stream fd k) extra (p.1 <? 1) x k2
    (writev_laws fd) Hfl Hnb Hx eq_refl Hd (eq_trans Hs2 Hs1) (eq_trans Hg2 Hg1)) as (r & k3 & E3 & Hgo).
  eapply after_start; [apply writev_laws|done|done| |exact Hgo]. unfold pth_writev_ev.
  assert (Hcnt : ((Z.of_nat (length iov) <=? 0) || (Z.of_nat (length iov) >? UIO_MAXIOV)) = false)
    by (unfold UIO_MAXIOV in *; lia). rewrite Hcnt.
  rewrite (st_bind_Some _ _ _ _ _ (valid_ok fd k Hb)). cbn [negb]. rewrite (st_bind_Some _ _ _ _ _ E1).
  change (PTH_FDMODE_BLOCK =? PTH_FDMODE_ERROR) with false. change (negb (PTH_FDMODE_BLOCK =? PTH_FDMODE_NONBLOCK)) with true. cbv iota.
  cbn [negb]. rewrite andb_false_r. cbv iota. change (pth_writev_iov_advance iov 0 None _) with (Some (false, iov)). cbv iota. rewrite (st_bind_Some _ _ _ _ _ E2). exact E3.
Qed.
End spec.

(** ** A concrete kernel

    Descriptor 3 is open; the next writes take the given numbers of bytes,
    where zero stands for an error. *)

Record dkern := Dkern { dk_fl : Z; dk_out : list Z; dk_cuts : list Z }.
Definition dk_write (fd : Z) (d : list Z) (k : dkern) : Z * errno * dkern :=
  match dk_cuts k with
  | c :: r => if (fd =? 3) && (0 <? c)
              then (Z.min c (Z.of_nat (length d)), EIO, Dkern (dk_fl k) (dk_out k ++ take (Z.to_nat (Z.min c (Z.of_nat (length d)))) d) r)
              else (-1, EIO, Dkern (dk_fl k) (dk_out k) r)
  | [] => (-1, EIO, k)
  end.
#[export] Instance dk_sys : FileSys dkern := {|
  fs_getfl fd k := (if fd =? 3 then dk_fl k else -1, EBADF);
  fs_setfl fd v k := if fd =? 3 then Dkern v (dk_out k) (dk_cuts k) else k;
  fs_poll fd ev k := (1, EIO, k);
  fs_read fd n k := (-1, EIO, [], k);
  fs_readv fd v k := (-1, EIO, [], k);
  fs_recvfrom fd n fl k := (-1, EIO, [], k);
  fs_write := dk_write;
  fs_writev fd v := dk_write fd (concat v);
  fs_sendto fd d _ _ := dk_write fd d;
  fs_connect fd _ k := (-1, EIO, k);
  fs_soerror fd k := None;
  fs_accept fd k := (-1, EIO, k);
  fs_lseek fd off b k := (0, EIO, k);
  fs_patience _ := O
|}.
Lemma dk_takes fd d : takes (fun fd k => if fd =? 3 then dk_out k else []) fd d (dk_write fd d).
Proof.
  intros [fl out [|c r]] n e k'; unfold dk_write; cbn [dk_cuts dk_fl dk_out].
  - intros [= <- <- <-]. split_and!; [lia|done| |done]. destruct (fd =? 3); by rewrite take_0, ?app_nil_r.
  - destruct (Z.eqb_spec fd 3) as [->|Hfd], (Z.ltb_spec 0 c) as [Hc|Hc]; cbn [andb]; intros [= <- <- <-]; cbn;
      (split_and!; [lia|try done| |done]); rewrite ?app_nil_r; try done.
    all: by rewrite (proj2 (Z.eqb_neq fd 3)) by done.
Qed.
#[export] Instance dk_laws : FileLaws dkern.
Proof.
  refine {| fs_stream fd k := if fd =? 3 then dk_out k else [] |}.
  - intros fd k Hfd. cbn. by rewrite (proj2 (Z.eqb_neq fd 3)) by lia.
  - intros fd v k. cbn. by destruct (Z.eqb_spec fd 3) as [->|Hfd].
  - intros fd ev k n e k' [= <- <- <-]. done.
  - apply dk_takes.
  - intros fd d flags to. apply dk_takes.
  - intros fd v. apply dk_takes.
Defined.
Definition dk0 (cuts : list Z) : dkern := Dkern 2 [] cuts.
Lemma dk0_blocking cuts : blocking 3 (dk0 cuts).
Proof. by split_and!. Qed.
Definition no_env (n : nat) : list ((dkern -> dkern) * pth_status) := replicate n (id, PTH_STATUS_OCCURRED).
Lemma no_env_quiet n : quiet_env 3 (no_env n).
Proof. apply Forall_replicate. by intros k. Qed.

(** Five bytes in pieces of 2, 1 and 2. *)
Lemma write_correct_witness : exists k', (r ← pth_write_ev 3 [1; 2; 3; 4; 5]; drive write_ops false (no_env 5) r) (dk0 [2; 1; 9]) =
    Some (IoRet 5 None, k') /\
  outcome write_ops 3 id (fun _ => True) [1; 2; 3; 4; 5] false (dk0 [2; 1; 9]) (IoRet 5 None) k'.
Proof.
  destruct (write_correct None 3 [1; 2; 3; 4; 5] false (no_env 5) (dk0 [2; 1; 9]) (dk0_blocking _) ltac:(done) (no_env_quiet 5))
    as (r & k' & E & _ & H).
  assert (E' : (r ← pth_write_ev 3 [1; 2; 3; 4; 5]; drive write_ops false (no_env 5) r) (dk0 [2; 1; 9]) =
    Some (IoRet 5 None, Dkern 2 [1; 2; 3; 4; 5] [])) by (vm_compute; reflexivity).
  assert (Hr := eq_trans (eq_sym E) E'). injection Hr as -> ->. by eexists.
Defined.
Lemma writev_correct_witness : exists k', (r ← pth_writev_ev true 3 [[1; 2]; []; [3; 4; 5]]; drive writev_ops false (no_env 5) r) (dk0 [1; 2; 9]) =
    Some (IoRet 5 None, k') /\
  outcome writev_ops 3 wrv_bytes wrv_good [1; 2; 3; 4; 5] false (dk0 [1; 2; 9]) (IoRet 5 None) k'.
Proof.
  destruct (writev_correct 3 [[1; 2]; []; [3; 4; 5]] false (no_env 5) (dk0 [1; 2; 9]) (dk0_blocking _) ltac:(discriminate) ltac:(left; cbn; lia)
    (no_env_quiet 5)) as (r & k' & E & _ & H).
  assert (E' : (r ← pth_writev_ev true 3 [[1; 2]; []; [3; 4; 5]]; drive writev_ops false (no_env 5) r) (dk0 [1; 2; 9]) =
    Some (IoRet 5 None, Dkern 2 [1; 2; 3; 4; 5] [])) by (vm_compute; reflexivity).
  assert (Hr := eq_trans (eq_sym E) E'). injection Hr as -> ->. by eexists.
Defined.

(** ** What goes wrong *)

(** A vector of 33 entries that is written in two pieces is copied to a stack
    buffer with room for 32. *)
Lemma writev_overruns : (r ← pth_writev_ev true 3 (replicate 33 [7]); drive writev_ops false (no_env 33) r) (dk0 [5; 28]) = None.
Proof. vm_compute. reflexivity. Qed.
(** The faked vector write puts all buffers to the same place. *)
Lemma writev_faked_overwrites : exists k', pth_writev_faked (Some [0; 0; 0; 0]) 3 [[1; 2]; [3; 4]] (dk0 [9]) = Some ((4, EIO), k') /\
  dk_out k' = [3; 4; 0; 0].
Proof. eexists. split; [vm_compute; reflexivity|done]. Qed.
(** The faked vector read frees another address than it allocated, whenever
    anything is read. *)
Lemma readv_faked_frees_wrong {K : Type} `{!FileSys K} fd n (k : K) : 0 < n -> u64 (fs_read fd n k).1.1.1 > 0 ->
  pth_readv_faked true fd [n] k = None.
Proof.
  intros Hn Hr. unfold pth_readv_faked, iov_faked_bytes. cbn [forallb]. rewrite (proj2 (Z.ltb_lt 0 n)) by done. cbn [negb andb].
  rewrite bool_decide_eq_false_2 by done. cbn [negb andb foldr]. rewrite Z.add_0_r.
  rewrite (st_bind_Some (sys (fs_read fd n)) _ k (fs_read fd n k).1 (fs_read fd n k).2) by (unfold sys; by destruct (fs_read fd n k)).
  rewrite (proj2 (Z.gtb_lt _ 0)) by lia. cbn [andb readv_scatter].
  set (rv := u64 _) in *. assert (H : negb ((if rv - Z.min n rv =? 0 then Z.min n rv else Z.min n rv + 0) =? 0) = true)
    by (destruct (rv - Z.min n rv =? 0); lia). by rewrite H.
Qed.
