(* ===== verification/Highsel.v ===== *)
(** * Sleeping, signals, child processes and descriptor sets
      (src/pth_high.c, lines 41-591)

    The replacements for nanosleep(2), sigwait(3), waitpid(2), select(2) and
    poll(2). As in [Io], a call is cut where the thread waits: a definition
    for the part up to [pth_wait], one for what follows it. The events are
    those of [Event]; what the user passes by address is in [h_mem] and
    [h_tv]. *)

From stdpp Require Import base numbers gmap list.
From S2P Require Import Prelude Links Timeval Data Util Event Queues World Thread Sched Dispatch Evman Pollset Lib Io.
Open Scope Z_scope.

(** The clock and the system calls that [FileSys] does not have. Interrupted
    calls are bounded by [fs_patience]. [hs_select] gives the new sets and the
    time that is left, [hs_waitpid] the status of the child, [hs_peek] is
    recv(2) with MSG_PEEK. *)
Class HighSys (K : Type) := {
  hs_now : K -> pth_time_t;
  hs_select : Z -> option fd_set -> option fd_set -> option fd_set -> pth_time_t -> K ->
    Z * errno * (option fd_set * option fd_set * option fd_set * pth_time_t) * K;
  hs_waitpid : Z -> Z -> K -> Z * errno * Z * K;
  hs_peek : Z -> K -> Z * errno * unit * K
}.

(** The kernel, the events, the memory of the user; the signals that are
    pending, that are blocked, and the mask in the machine context of the
    running thread. *)
Record hst (K : Type) := Hst {
  h_k : K; h_ev : evst; h_mem : umem; h_tv : gmap addr pth_time_t; h_pend : gset Z; h_mask : gset Z; h_sigs : gset Z }.
Arguments Hst {K}. Arguments h_k {K}. Arguments h_ev {K}. Arguments h_mem {K}. Arguments h_tv {K}.
Arguments h_pend {K}. Arguments h_mask {K}. Arguments h_sigs {K}.

(** How a part ends: with a return, or in [pth_wait (ev)], which returns at
    once if [ev] is NULL. *)
Inductive high (L : Type) :=
| HRet (rv : Z) (e : option errno)
| HWait (ev : ptr) (l : L).
Arguments HRet {L}. Arguments HWait {L}.

Section calls.
Context {K : Type} `{!FileSys K, !HighSys K}.
Abbreviation hs := (hst K).

Definition on_hk {A : Type} (m : st K A) : st hs A :=
  zoom h_k (fun k s => Hst k (h_ev s) (h_mem s) (h_tv s) (h_pend s) (h_mask s) (h_sigs s)) m.
Definition on_hev {A : Type} (m : st evst A) : st hs A :=
  zoom h_ev (fun v s => Hst (h_k s) v (h_mem s) (h_tv s) (h_pend s) (h_mask s) (h_sigs s)) m.
Definition set_hmem (m : umem) (s : hs) : hs := Hst (h_k s) (h_ev s) m (h_tv s) (h_pend s) (h_mask s) (h_sigs s).
Definition set_htv (m : gmap addr pth_time_t) (s : hs) : hs := Hst (h_k s) (h_ev s) (h_mem s) m (h_pend s) (h_mask s) (h_sigs s).
Definition set_pend (p : gset Z) (s : hs) : hs := Hst (h_k s) (h_ev s) (h_mem s) (h_tv s) p (h_mask s) (h_sigs s).
Definition set_mask (b : gset Z) (s : hs) : hs := Hst (h_k s) (h_ev s) (h_mem s) (h_tv s) (h_pend s) b (h_sigs s).

(** The user's memory. *)
Definition h_rd_sigs (p : ptr) : st hs (gset Z) := fun s =>
  match p with Some a => match um_sigs (h_mem s) !! a with Some x => Some (x, s) | None => None end | None => None end.
Definition h_wr_int (p : ptr) (v : Z) : st hs unit := fun s =>
  match p with
  | Some a => match um_int (h_mem s) !! a with
              | Some _ => Some (tt, set_hmem (Umem (<[a := v]> (um_int (h_mem s))) (um_sigs (h_mem s)) (um_fds (h_mem s))) s)
              | None => None end
  | None => None end.
Definition h_rd_int (p : ptr) : st hs Z := fun s =>
  match p with Some a => match um_int (h_mem s) !! a with Some x => Some (x, s) | None => None end | None => None end.
Definition h_rd_fds (p : ptr) : st hs (option fd_set) := fun s =>
  match p with
  | Some a => match um_fds (h_mem s) !! a with Some x => Some (Some x, s) | None => None end
  | None => Some (None, s) end.
(** A set that is there is overwritten; a NULL pointer is left alone. *)
Definition h_wr_fds (p : ptr) (v : fd_set) : st hs unit := fun s =>
  match p with
  | Some a => match um_fds (h_mem s) !! a with
              | Some _ => Some (tt, set_hmem (Umem (um_int (h_mem s)) (um_sigs (h_mem s)) (<[a := v]> (um_fds (h_mem s)))) s)
              | None => None end
  | None => Some (tt, s) end.
Definition h_rd_tv (p : ptr) : st hs pth_time_t := fun s =>
  match p with Some a => match h_tv s !! a with Some x => Some (x, s) | None => None end | None => None end.
Definition h_wr_tv (p : ptr) (v : pth_time_t) : st hs unit := fun s =>
  match p with
  | Some a => match h_tv s !! a with Some _ => Some (tt, set_htv (<[a := v]> (h_tv s)) s) | None => None end
  | None => None end.

Definition h_now : st hs pth_time_t := fun s => Some (hs_now (h_k s), s).

(** ** Events *)

(** [PTH_NSIG] is one more than the largest signal number. *)
Context (malloc : gset addr -> ptr) (event_destructor : addr) (calloc_ok : bool) (PTH_NSIG : Z).

(** [pth_event (spec | PTH_MODE_STATIC, &key, ...)]. *)
Definition h_event (spec : Z) (key : addr) (va : evargs) : st hs ptr := fun s =>
  (r ← on_hev (pth_event (fun fd => fs_getfl fd (h_k s)) event_destructor (Z.lor spec PTH_MODE_STATIC) NULL key NULL va
        (malloc (dom (e_body (h_ev s)))) calloc_ok); mret r.1) s.
Definition h_concat (ev other : ptr) : st hs unit :=
  match other with Some o => on_hev (pth_event_concat ev [o]);; mret tt | None => mret tt end.
Definition h_isolate (ev : ptr) : st hs unit := on_hev (pth_event_isolate ev);; mret tt.
Definition h_status (ev : ptr) : st hs pth_status := r ← on_hev (pth_event_status ev); mret r.1.
Definition has_occurred (ev : ptr) : st hs bool := v ← h_status ev; mret (bool_decide (v = PTH_STATUS_OCCURRED)).

(** The end of a wait for the static event [ev] with the events of the user:
    whether the wait was interrupted by one of these. *)
Definition h_interrupted (ev extra : ptr) : st hs bool :=
  match extra with
  | None => mret false
  | Some _ => h_isolate ev;; b ← has_occurred ev; mret (negb b)
  end.

(** ** Sleeping *)

Record timespec := Ts { ts_sec : Z; ts_nsec : Z }.

(** The absolute time after [offset]. *)
Definition h_until (offset : pth_time_t) : st hs pth_time_t :=
  now ← h_now; mret (pth_time_add (pth_time_set now None) offset).
Definition sleep_event (key : addr) (offset : pth_time_t) : st hs (ptr * pth_time_t) :=
  until ← h_until offset; ev ← h_event PTH_EVENT_TIME key (ATIME until); mret (ev, until).

Definition pth_nanosleep (key : addr) (rqtp : option timespec) : st hs (high pth_time_t) :=
  match rqtp with
  | None => mret (HRet (-1) (Some EFAULT))
  | Some rq =>
      if (ts_nsec rq <? 0) || (ts_nsec rq >? 1000 * 1000000) then mret (HRet (-1) (Some EINVAL)) else
      if (ts_sec rq =? 0) && (ts_nsec rq =? 0) then mret (HRet 0 None) else
      r ← sleep_event key (pth_time (ts_sec rq) (Z.quot (ts_nsec rq) 1000));
      if bool_decide (r.1 = NULL) then mret (HRet (-1) (Some ENOMEM)) else mret (HWait r.1 r.2)
  end.
(** [want]: [rmtp] is not NULL; the value that is stored there. *)
Definition pth_nanosleep_resume (want : bool) (until : pth_time_t) : st hs (high pth_time_t * option timespec) :=
  if want then
    now ← h_now;
    let left_ := pth_time_sub until (pth_time_set now None) in
    mret (HRet 0 None, Some (Ts (tv_sec left_) (i64 (tv_usec left_ * 1000))))
  else mret (HRet 0 None, None).

(** The argument is an [unsigned int]; nothing but the return follows the
    wait. *)
Definition pth_usleep (key : addr) (usec : Z) : st hs (high unit) :=
  if usec =? 0 then mret (HRet 0 None) else
  r ← sleep_event key (pth_time (Z.quot usec 1000000) (Z.rem usec 1000000));
  if bool_decide (r.1 = NULL) then mret (HRet (-1) (Some ENOMEM)) else mret (HWait r.1 tt).
Definition pth_sleep (key : addr) (sec : Z) : st hs (high unit) :=
  if sec =? 0 then mret (HRet 0 None) else
  r ← sleep_event key (pth_time sec 0);
  if bool_decide (r.1 = NULL) then mret (HRet sec None) else mret (HWait r.1 tt).

(** ** Signals *)

Inductive sighow := SIG_BLOCK | SIG_UNBLOCK | SIG_SETMASK | SIG_OTHER.

(** sigprocmask(2): the value, [errno] and the old mask. *)
Definition sigprocmask (how : sighow) (set : option (gset Z)) : st hs (Z * option errno * gset Z) := fun s =>
  let old := h_mask s in
  match set with
  | None => Some ((0, None, old), s)
  | Some x =>
      match how with
      | SIG_BLOCK => Some ((0, None, old), set_mask (old ∪ x) s)
      | SIG_UNBLOCK => Some ((0, None, old), set_mask (old ∖ x) s)
      | SIG_SETMASK => Some ((0, None, old), set_mask x s)
      | SIG_OTHER => Some ((-1, Some EINVAL, old), s)
      end
  end.
Definition pth_sigmask (how : sighow) (set : option (gset Z)) : st hs (Z * option errno * gset Z) :=
  s ← get_st;
  (match set with Some _ => sigprocmask how (Some (h_sigs s));; mret tt | None => mret tt end);;
  sigprocmask how set.

(** The first signal of the loop that is in the set and pending. *)
Definition sigwait_first (set pending : gset Z) : option Z :=
  head (filter (fun sig => sig ∈ set /\ sig ∈ pending) (seqZ 1 (PTH_NSIG - 1))).
(** The result is an error number: 22 is EINVAL, 12 ENOMEM, 4 EINTR. *)
Definition pth_sigwait_ev (key : addr) (set sigp extra : ptr) : st hs (high ptr) :=
  if bool_decide (set = NULL) || bool_decide (sigp = NULL) then mret (HRet 22 (Some EINVAL)) else
  x ← h_rd_sigs set;
  s ← get_st;
  match sigwait_first x (h_pend s) with
  | Some sig =>
      (fun s => Some (tt, set_pend (pth_util_sigdelete sig (h_pend s)) s));;
      h_wr_int sigp sig;;
      mret (HRet 0 None)
  | None =>
      ev ← h_event PTH_EVENT_SIGS key (ASIGS set sigp);
      if bool_decide (ev = NULL) then mret (HRet 12 (Some ENOMEM)) else
      h_concat ev extra;; mret (HWait ev ev)
  end.
Definition pth_sigwait_resume (extra ev : ptr) : st hs (high ptr) :=
  b ← h_interrupted ev extra;
  if (b : bool) then mret (HRet 4 (Some EINTR)) else mret (HRet 0 None).
Definition pth_sigwait (key : addr) (set sigp : ptr) : st hs (high ptr) := pth_sigwait_ev key set sigp NULL.

(** ** Child processes *)

Definition WNOHANG : Z := 1.
(** One round of the loop; it goes on with another one after the wait. *)
Definition pth_waitpid (key : addr) (wpid : Z) (status : ptr) (options : Z) : st hs (high unit) :=
  r ← on_hk (eintr (hs_waitpid wpid (Z.lor options WNOHANG)));
  (if (r.1.1 >? 0) && negb (bool_decide (status = NULL)) then h_wr_int status r.2 else mret tt);;
  if (r.1.1 =? -1) || (r.1.1 >? 0) || ((r.1.1 =? 0) && has options WNOHANG)
  then mret (HRet r.1.1 (if r.1.1 <? 0 then Some r.1.2 else None))
  else
    now ← h_now;
    ev ← h_event PTH_EVENT_TIME key (ATIME (pth_timeout now 0 250000));
    mret (HWait ev tt).

(** ** select(2) *)

Definition FD_SETSIZE : Z := 1024.
Definition h_fds (rfds wfds efds : ptr) : st hs (option fd_set * option fd_set * option fd_set) :=
  r ← h_rd_fds rfds; w ← h_rd_fds wfds; e ← h_rd_fds efds; mret (r, w, e).
Definition h_set_fds (rfds wfds efds : ptr) (v : option fd_set * option fd_set * option fd_set) : st hs unit :=
  h_wr_fds rfds (default ∅ v.1.1);; h_wr_fds wfds (default ∅ v.1.2);; h_wr_fds efds (default ∅ v.2).
Definition fd_zero_all (rfds wfds efds : ptr) : st hs unit := h_set_fds rfds wfds efds (None, None, None).

(** The variables that live across the wait: the address of [rc], the sets,
    [timeout], the events. *)
Record sel := Sel { sl_rc : ptr; sl_r : ptr; sl_w : ptr; sl_e : ptr; sl_timeout : ptr; sl_extra : ptr;
  sl_select : ptr; sl_time : ptr }.
Inductive sel_wait := SelDelay (ev extra : ptr) | SelWait (l : sel).

(** The timeout is checked, and cut to 31 days. *)
Definition select_timeout (timeout : ptr) : st hs bool :=
  match timeout with
  | None => mret true
  | Some _ =>
      t ← h_rd_tv timeout;
      if (tv_sec t <? 0) || (tv_usec t <? 0) || (tv_usec t >=? 1000000) then mret false else
      (if tv_sec t >? 31 * 24 * 60 * 60 then h_wr_tv timeout (Tv (31 * 24 * 60 * 60) (tv_usec t)) else mret tt);;
      mret true
  end.

(** The call is repeated while it is interrupted, with what is left of its
    arguments. *)
Abbreviation fds3 := (option fd_set * option fd_set * option fd_set)%type.
Fixpoint select_loop (fuel : nat) (nfd : Z) (v : fds3 * pth_time_t) : st K (Z * errno * (fds3 * pth_time_t)) := fun k =>
  let '(n, e, v', k') := hs_select nfd v.1.1.1 v.1.1.2 v.1.2 v.2 k in
  if (n <? 0) && bool_decide (e = EINTR) then match fuel with O => None | S f => select_loop f nfd v' k' end
  else Some (n, e, v', k').
Definition select_call (nfd : Z) (v : fds3 * pth_time_t) : st hs (Z * errno * (fds3 * pth_time_t)) :=
  on_hk (fun k => select_loop (fs_patience k) nfd v k).

(** A plain delay: no sets. *)
Definition select_delay (key : addr) (timeout extra : ptr) : st hs (high sel_wait) :=
  t ← h_rd_tv timeout;
  if (tv_sec t =? 0) && (tv_usec t <=? 10000) then
    r ← select_call 0 (None, None, None, t);
    h_wr_tv timeout r.2.2;;
    mret (HRet 0 None)
  else
    now ← h_now;
    ev ← h_event PTH_EVENT_TIME key (ATIME (pth_timeout now (tv_sec t) (tv_usec t)));
    h_concat ev extra;;
    mret (HWait ev (SelDelay ev extra)).

(** The events of the wait. *)
Definition select_events (key_select key_timeout : addr) (rc : ptr) (nfd : Z) (rfds wfds efds timeout extra : ptr)
    : st hs (high sel_wait) :=
  h_wr_int rc (-1);;
  ev ← h_event PTH_EVENT_SELECT key_select (ASELECT rc nfd rfds wfds efds);
  evt ← (match timeout with
         | None => mret NULL
         | Some _ =>
             t ← h_rd_tv timeout;
             now ← h_now;
             evt ← h_event PTH_EVENT_TIME key_timeout (ATIME (pth_timeout now (tv_sec t) (tv_usec t)));
             h_concat ev evt;;
             mret evt
         end);
  h_concat ev extra;;
  mret (HWait ev (SelWait (Sel rc rfds wfds efds timeout extra ev evt))).

Definition pth_select_ev (key_select key_timeout : addr) (rc : ptr) (nfd : Z) (rfds wfds efds timeout extra : ptr)
    : st hs (high sel_wait) :=
  if (nfd <? 0) || (nfd >? FD_SETSIZE) then mret (HRet (-1) (Some EINVAL)) else
  ok_ ← select_timeout timeout;
  if negb ok_ then mret (HRet (-1) (Some EINVAL)) else
  if (nfd =? 0) && bool_decide (rfds = NULL) && bool_decide (wfds = NULL) && bool_decide (efds = NULL)
     && negb (bool_decide (timeout = NULL))
  then select_delay key_timeout timeout extra
  else
    sets ← h_fds rfds wfds efds;
    r ← select_call nfd (sets, pth_time_zero);
    if r.1.1 <? 0 then mret (HRet (-1) (Some r.1.2)) else
    zero ← (match timeout with None => mret false | Some _ => t ← h_rd_tv timeout; mret (pth_time_cmp t pth_time_zero =? 0) end);
    if (r.1.1 >? 0) || (zero : bool) then
      h_set_fds rfds wfds efds r.2.1;; mret (HRet r.1.1 None)
    else select_events key_select key_timeout rc nfd rfds wfds efds timeout extra.

Definition select_resume (l : sel) : st hs (high sel_wait) :=
  (match sl_extra l with Some _ => h_isolate (sl_extra l) | None => mret tt end);;
  (match sl_timeout l with Some _ => h_isolate (sl_time l) | None => mret tt end);;
  v ← h_status (sl_select l);
  if bool_decide (v = PTH_STATUS_FAILED) then mret (HRet (-1) (Some EBADF)) else
  let selected := bool_decide (v = PTH_STATUS_OCCURRED) in
  late ← (match sl_timeout l with Some _ => has_occurred (sl_time l) | None => mret false end);
  (if (late : bool) then fd_zero_all (sl_r l) (sl_w l) (sl_e l);; h_wr_int (sl_rc l) 0 else mret tt);;
  if negb (bool_decide (sl_extra l = NULL)) && negb (selected || late) then mret (HRet (-1) (Some EINTR)) else
  rc ← h_rd_int (sl_rc l); mret (HRet rc None).
Definition pth_select_resume (l : sel_wait) : st hs (high sel_wait) :=
  match l with
  | SelDelay ev extra => b ← h_interrupted ev extra; if (b : bool) then mret (HRet (-1) (Some EINTR)) else mret (HRet 0 None)
  | SelWait l => select_resume l
  end.

Definition pth_select (key_select key_timeout : addr) (rc : ptr) (nfd : Z) (rfds wfds efds timeout : ptr) :=
  pth_select_ev key_select key_timeout rc nfd rfds wfds efds timeout NULL.

(** [tv]: the address of the local [struct timeval]; the old mask lives across
    the wait. *)
Definition pselect_end (omask : option (gset Z)) (r : high sel_wait) : st hs (high (sel_wait * option (gset Z))) :=
  match r with
  | HWait ev l => mret (HWait ev (l, omask))
  | HRet rv e =>
      (match omask with Some m => sigprocmask SIG_SETMASK (Some m);; mret tt | None => mret tt end);;
      mret (HRet rv e)
  end.
Definition pth_pselect (key_select key_timeout : addr) (rc : ptr) (tv : addr) (nfds : Z) (rfds wfds efds : ptr)
    (ts : option timespec) (mask : option (gset Z)) : st hs (high (sel_wait * option (gset Z))) :=
  (fun s => Some (tt, match ts with
    | Some t => set_htv (<[tv := Tv (ts_sec t) (Z.quot (ts_nsec t) 1000)]> (h_tv s)) s | None => s end));;
  omask ← (match mask with Some _ => r ← sigprocmask SIG_SETMASK mask; mret (Some r.2) | None => mret None end);
  r ← pth_select key_select key_timeout rc nfds rfds wfds efds (match ts with Some _ => Some tv | None => NULL end);
  pselect_end omask r.
Definition pth_pselect_resume (l : sel_wait * option (gset Z)) : st hs (high (sel_wait * option (gset Z))) :=
  r ← pth_select_resume l.1; pselect_end l.2 r.

(** ** poll(2) *)

Definition POLLRDNORM : Z := 64.
Definition POLLRDBAND : Z := 128.
Definition POLLWRNORM : Z := 256.
Definition POLLWRBAND : Z := 512.
Definition want_r : Z := Z.lor POLLIN POLLRDNORM.
Definition want_w : Z := Z.lor POLLOUT (Z.lor POLLWRNORM POLLWRBAND).
Definition want_e : Z := Z.lor POLLPRI POLLRDBAND.
Definition want_any : Z := Z.lor want_r (Z.lor want_w want_e).

(** [FD_SET], with the bounds of a [fd_set]. *)
Definition FD_SET (fd : Z) (x : fd_set) : option fd_set := if (0 <=? fd) && (fd <? FD_SETSIZE) then Some ({[fd]} ∪ x) else None.
Definition FD_ISSET (fd : Z) (x : fd_set) : option bool := if (0 <=? fd) && (fd <? FD_SETSIZE) then Some (fd_in fd x) else None.
Definition fd_set_if (b : bool) (fd : Z) (x : fd_set) : option fd_set := if b then FD_SET fd x else Some x.

(** The sets of the descriptors to read, to write, with exceptions, that are
    invalid; the greatest descriptor. *)
Record psets := Psets { ps_r : fd_set; ps_w : fd_set; ps_e : fd_set; ps_x : fd_set; ps_maxfd : Z }.
Definition poll_collect1 (valid : Z -> bool) (s : psets) (p : pollfd) : option psets :=
  let fd := p_fd p in let ev := p_events p in
  if negb (valid fd) then x ← FD_SET fd (ps_x s); Some (Psets (ps_r s) (ps_w s) (ps_e s) x (ps_maxfd s)) else
  r ← fd_set_if (has ev want_r) fd (ps_r s);
  w ← fd_set_if (has ev want_w) fd (ps_w s);
  e ← fd_set_if (has ev want_e) fd (ps_e s);
  Some (Psets r w e (ps_x s) (if (fd >=? ps_maxfd s) && has ev want_any then fd else ps_maxfd s)).
Definition poll_collect (valid : Z -> bool) (pfd : list pollfd) : option psets :=
  foldl (fun o p => s ← o; poll_collect1 valid s p) (Some (Psets ∅ ∅ ∅ ∅ (-1))) pfd.

(** The bits of [mask] that are wanted. *)
Definition wanted (ev mask : Z) : Z := Z.land ev mask.
Definition ESHUTDOWN : errno := EOTHER 108.
Definition ECONNRESET : errno := EOTHER 104.
Definition ECONNABORTED : errno := EOTHER 103.
Definition ENETRESET : errno := EOTHER 102.
Definition hung_up (r : Z * errno) : bool :=
  (r.1 =? -1) && bool_decide (r.2 ∈ [ESHUTDOWN; ECONNRESET; ECONNABORTED; ENETRESET]).

(** The [revents] of one entry and whether it is counted. *)
Definition lift_o {A : Type} (o : option A) : st K A := fun k => match o with Some a => Some (a, k) | None => None end.
Definition poll_result1 (s : psets) (p : pollfd) : st K (Z * bool) :=
  let fd := p_fd p in let ev := p_events p in
  x ← lift_o (FD_ISSET fd (ps_x s));
  if (x : bool) then mret (if fd >=? 0 then (POLLNVAL, true) else (0, false)) else
  if ps_maxfd s =? -1 then mret (0, false) else
  if fd_in fd (ps_r s) then
    r ← sys (fun k => let '(n, e, _, k') := hs_peek fd k in ((n, e), k'));
    mret (if hung_up r then POLLHUP else wanted ev want_r, true)
  else if fd_in fd (ps_w s) then mret (wanted ev want_w, true)
  else if fd_in fd (ps_e s) then mret (wanted ev want_e, true)
  else mret (0, false).
Fixpoint poll_results (s : psets) (pfd : list pollfd) : st K (list pollfd * Z) :=
  match pfd with
  | [] => mret ([], 0)
  | p :: rest =>
      v ← poll_result1 s p;
      t ← poll_results s rest;
      mret (Pollfd (p_fd p) (p_events p) v.1 :: t.1, (if (v.2 : bool) then 1 else 0) + t.2)
  end.

(** The timeout in milliseconds as a [struct timeval], [None] for a value that
    is not allowed. *)
Definition poll_timeval (timeout : Z) : option (option pth_time_t) :=
  if timeout =? 0 then Some (Some (Tv 0 0))
  else if timeout =? -1 then Some None
  else if timeout >? 0 then Some (Some (Tv (Z.quot timeout 1000) (Z.rem timeout 1000 * 1000)))
  else None.

(** The addresses of the local sets and the local [struct timeval]. *)
Record ploc := Ploc { pl_r : addr; pl_w : addr; pl_e : addr; pl_tv : addr; pl_rc : addr }.
Record pwait := Pwait { pw_pfd : list pollfd; pw_sets : psets; pw_loc : ploc; pw_sel : sel_wait }.
Definition poll_locals (o : ploc) (s : psets) (tv : option pth_time_t) : st hs unit := fun h =>
  let m := h_mem h in
  let h := set_hmem (Umem (<[pl_rc o := -1]> (um_int m)) (um_sigs m)
     (<[pl_r o := ps_r s]> (<[pl_w o := ps_w s]> (<[pl_e o := ps_e s]> (um_fds m))))) h in
  Some (tt, match tv with Some t => set_htv (<[pl_tv o := t]> (h_tv h)) h | None => h end).

(** What follows [pth_select_ev]. *)
Definition poll_end (pfd : list pollfd) (s : psets) (o : ploc) (r : high sel_wait) : st hs (high pwait * list pollfd) :=
  match r with
  | HWait ev l => mret (HWait ev (Pwait pfd s o l), pfd)
  | HRet rc e =>
      if rc <? 0 then mret (HRet (-1) e, pfd)
      else if rc =? 0 then mret (HRet 0 None, pfd)
      else
        v ← h_fds (Some (pl_r o)) (Some (pl_w o)) (Some (pl_e o));
        t ← on_hk (poll_results (Psets (default ∅ v.1.1) (default ∅ v.1.2) (default ∅ v.2) (ps_x s) (ps_maxfd s)) pfd);
        mret (HRet t.2 None, t.1)
  end.
Definition pth_poll_ev (key_select key_timeout : addr) (o : ploc) (pfd : option (list pollfd)) (timeout : Z) (extra : ptr)
    : st hs (high pwait * list pollfd) :=
  match pfd with
  | None => mret (HRet (-1) (Some EFAULT), [])
  | Some pfd =>
      if Z.of_nat (length pfd) >? FD_SETSIZE then mret (HRet (-1) (Some EINVAL), pfd) else
      match poll_timeval timeout with
      | None => mret (HRet (-1) (Some EINVAL), pfd)
      | Some tv =>
          h ← (get_st : st hs hs);
          match poll_collect (pth_util_fd_valid (fun fd => fs_getfl fd (h_k h))) pfd with
          | None => undef
          | Some s =>
              if negb (ps_maxfd s =? -1) then
                poll_locals o s tv;;
                r ← pth_select_ev key_select key_timeout (Some (pl_rc o)) (ps_maxfd s + 1)
                      (Some (pl_r o)) (Some (pl_w o)) (Some (pl_e o))
                      (match tv with Some _ => Some (pl_tv o) | None => NULL end) extra;
                poll_end pfd s o r
              else
                t ← on_hk (poll_results s pfd);
                mret (HRet t.2 None, t.1)
          end
      end
  end.
Definition pth_poll_resume (l : pwait) : st hs (high pwait * list pollfd) :=
  r ← pth_select_resume (pw_sel l); poll_end (pw_pfd l) (pw_sets l) (pw_loc l) r.
Definition pth_poll (key_select key_timeout : addr) (o : ploc) (pfd : option (list pollfd)) (timeout : Z) :=
  pth_poll_ev key_select key_timeout o pfd timeout NULL.
End calls.
