(* ===== verification/Highspec.v ===== *)
(** * What sleeping, select and poll promise *)

From stdpp Require Import base numbers gmap list.
From S2P Require Import Prelude Links Timeval Data Util Event Queues World Thread Sched Dispatch Evman Pollset Lib Io Highsel.
Open Scope Z_scope.

Lemma has_spec ev m : has ev m = true <-> Z.land ev m <> 0.
Proof. unfold has. by rewrite negb_true_iff, Z.eqb_neq. Qed.

Section poll.
Context {K : Type} `{!FileSys K, !HighSys K}.

(** ** The sets that are collected *)

Definition in_range (p : pollfd) : Prop := 0 <= p_fd p < FD_SETSIZE.
Definition wants (valid : Z -> bool) (m : Z) (p : pollfd) (fd : Z) : Prop :=
  p_fd p = fd /\ valid fd = true /\ has (p_events p) m = true.
(** [s] is what the entries [l] ask for. *)
Record collected (valid : Z -> bool) (l : list pollfd) (s : psets) : Prop := {
  co_r : forall fd, fd ∈ ps_r s <-> exists p, p ∈ l /\ wants valid want_r p fd;
  co_w : forall fd, fd ∈ ps_w s <-> exists p, p ∈ l /\ wants valid want_w p fd;
  co_e : forall fd, fd ∈ ps_e s <-> exists p, p ∈ l /\ wants valid want_e p fd;
  co_x : forall fd, fd ∈ ps_x s <-> exists p, p ∈ l /\ p_fd p = fd /\ valid fd = false;
  co_max : forall p, p ∈ l -> wants valid want_any p (p_fd p) -> p_fd p <= ps_maxfd s;
  co_some : ps_maxfd s = -1 \/ exists p, p ∈ l /\ wants valid want_any p (ps_maxfd s)
}.

Lemma FD_SET_ok fd x : 0 <= fd < FD_SETSIZE -> FD_SET fd x = Some ({[fd]} ∪ x).
Proof. intros H. unfold FD_SET. rewrite (proj2 (Z.leb_le _ _)), (proj2 (Z.ltb_lt _ _)) by lia. done. Qed.
Lemma FD_ISSET_ok fd x : 0 <= fd < FD_SETSIZE -> FD_ISSET fd x = Some (fd_in fd x).
Proof. intros H. unfold FD_ISSET. rewrite (proj2 (Z.leb_le _ _)), (proj2 (Z.ltb_lt _ _)) by lia. done. Qed.
Lemma fd_set_if_ok b fd x : 0 <= fd < FD_SETSIZE -> fd_set_if b fd x = Some (if b then {[fd]} ∪ x else x).
Proof. intros H. destruct b; [by apply FD_SET_ok|done]. Qed.

(** A set after one more entry. *)
Lemma grow (valid : Z -> bool) m l p (x : fd_set) :
  (forall fd, fd ∈ x <-> exists q, q ∈ l /\ wants valid m q fd) -> valid (p_fd p) = true ->
  forall fd, fd ∈ (if has (p_events p) m then {[p_fd p]} ∪ x else x) <-> exists q, q ∈ l ++ [p] /\ wants valid m q fd.
Proof.
  intros Hx Hv fd. setoid_rewrite elem_of_app. setoid_rewrite list_elem_of_singleton. unfold wants in *.
  destruct (has (p_events p) m) eqn:Eh; [rewrite elem_of_union, elem_of_singleton|]; rewrite Hx.
  - split.
    + intros [->|(q & Hq & H)]; [exists p; auto|exists q; auto].
    + intros (q & [Hq| ->] & H); [right; eauto|left; by destruct H].
  - split.
    + intros (q & Hq & H). exists q; auto.
    + intros (q & [Hq| ->] & H); [eauto|]. destruct H as (_ & _ & ?). congruence.
Qed.
Lemma keep_invalid (valid : Z -> bool) m l p (x : fd_set) :
  (forall fd, fd ∈ x <-> exists q, q ∈ l /\ wants valid m q fd) -> valid (p_fd p) = false ->
  forall fd, fd ∈ x <-> exists q, q ∈ l ++ [p] /\ wants valid m q fd.
Proof.
  intros Hx Hv fd. rewrite Hx. setoid_rewrite elem_of_app. setoid_rewrite list_elem_of_singleton. split.
  - intros (q & Hq & H). exists q; auto.
  - intros (q & [Hq| ->] & H); [eauto|]. destruct H as (<- & ? & _). congruence.
Qed.

Lemma collect1_ok valid l s p : collected valid l s -> in_range p ->
  exists s', poll_collect1 valid s p = Some s' /\ collected valid (l ++ [p]) s'.
Proof.
  intros [Hr Hw He Hx Hm Hs] Hp. unfold poll_collect1. destruct (valid (p_fd p)) eqn:Ev; cbn [negb].
  - rewrite !fd_set_if_ok by exact Hp. cbn. eexists. split; [reflexivity|]. constructor; cbn [ps_r ps_w ps_e ps_x ps_maxfd].
    + by apply grow.
    + by apply grow.
    + by apply grow.
    + intros fd. rewrite Hx. setoid_rewrite elem_of_app. setoid_rewrite list_elem_of_singleton. split.
      * intros (q & Hq & H). exists q; auto.
      * intros (q & [Hq| ->] & Hq1 & Hq2); [eauto|]. congruence.
    + intros q [Hq| ->%list_elem_of_singleton]%elem_of_app Hwa.
      * specialize (Hm q Hq Hwa). destruct (Z.geb_spec (p_fd p) (ps_maxfd s)); cbn [andb]; [|done].
        destruct (has _ _); lia.
      * destruct Hwa as (_ & _ & ->). destruct (Z.geb_spec (p_fd p) (ps_maxfd s)); cbn [andb]; lia.
    + setoid_rewrite elem_of_app. setoid_rewrite list_elem_of_singleton.
      destruct ((p_fd p >=? ps_maxfd s) && has (p_events p) want_any) eqn:Eb.
      * apply andb_true_iff in Eb as [_ Eb]. right. exists p. unfold wants. auto.
      * destruct Hs as [Hs|(q & Hq & H)]; [by left|right; exists q; auto].
  - rewrite FD_SET_ok by exact Hp. cbn. eexists. split; [reflexivity|]. constructor; cbn [ps_r ps_w ps_e ps_x ps_maxfd].
    + by apply keep_invalid.
    + by apply keep_invalid.
    + by apply keep_invalid.
    + intros fd. rewrite elem_of_union, elem_of_singleton, Hx. setoid_rewrite elem_of_app. setoid_rewrite list_elem_of_singleton. split.
      * intros [->|(q & Hq & H)]; [exists p; auto|exists q; auto].
      * intros (q & [Hq| ->] & H); [right; eauto|left; by destruct H].
    + intros q [Hq| ->%list_elem_of_singleton]%elem_of_app Hwa; [by apply Hm|].
      destruct Hwa as (_ & ? & _). congruence.
    + setoid_rewrite elem_of_app. destruct Hs as [Hs|(q & Hq & H)]; [by left|right; exists q; auto].
Qed.

Lemma collect_ok valid l : Forall in_range l -> exists s, poll_collect valid l = Some s /\ collected valid l s.
Proof.
  unfold poll_collect. induction l as [|p l IH] using rev_ind; intros Hl.
  - eexists. split; [reflexivity|]. constructor; cbn [ps_r ps_w ps_e ps_x ps_maxfd]; try (intros fd; set_solver). by left.
  - apply Forall_app in Hl as [Hl Hp]. apply Forall_cons in Hp as [Hp _]. destruct (IH Hl) as (s & E & Hs).
    destruct (collect1_ok valid l s p Hs Hp) as (s' & E' & Hs'). exists s'. split; [|done].
    rewrite foldl_app, E. cbn. exact E'.
Qed.

(** ** The results *)

(** What one entry may get: bits that it asked for, POLLHUP, or POLLNVAL for an
    invalid descriptor. *)
Definition result_of (valid : Z -> bool) (p p' : pollfd) : Prop :=
  p_fd p' = p_fd p /\ p_events p' = p_events p /\
  (valid (p_fd p) = false /\ p_revents p' = POLLNVAL \/
   valid (p_fd p) = true /\ (p_revents p' = POLLHUP \/ Z.land (p_revents p') (p_events p) = p_revents p')).
Definition nonzero (l : list pollfd) : Z := Z.of_nat (length (filter (fun p => p_revents p <> 0) l)).

Lemma wanted_sub ev m : Z.land (wanted ev m) ev = wanted ev m.
Proof. unfold wanted. rewrite (Z.land_comm ev m), <- Z.land_assoc, Z.land_diag. done. Qed.
Lemma nonzero_cons p l : nonzero (p :: l) = (if bool_decide (p_revents p = 0) then 0 else 1) + nonzero l.
Proof.
  unfold nonzero. destruct (decide (p_revents p = 0)) as [H|H].
  - by rewrite filter_cons_False, bool_decide_eq_true_2 by auto.
  - rewrite filter_cons_True, bool_decide_eq_false_2 by auto. cbn [length]. lia.
Qed.

(** The sets after select(2): parts of those before. *)
Record ready (valid : Z -> bool) (l : list pollfd) (s : psets) : Prop := {
  re_r : forall fd p, fd ∈ ps_r s -> p ∈ l -> p_fd p = fd -> wants valid want_r p fd;
  re_w : forall fd p, fd ∈ ps_w s -> p ∈ l -> p_fd p = fd -> wants valid want_w p fd;
  re_e : forall fd p, fd ∈ ps_e s -> p ∈ l -> p_fd p = fd -> wants valid want_e p fd;
  re_x : forall fd p, p ∈ l -> p_fd p = fd -> fd ∈ ps_x s <-> valid fd = false
}.

Lemma result1_ok valid l s p k : ready valid l s -> p ∈ l -> in_range p ->
  exists v k', poll_result1 s p k = Some (v, k') /\ v.2 = negb (bool_decide (v.1 = 0)) /\
    result_of valid p (Pollfd (p_fd p) (p_events p) v.1).
Proof.
  intros [Hr Hw He Hx] Hp Hin. unfold poll_result1. rewrite (FD_ISSET_ok (p_fd p)) by exact Hin.
  rewrite (st_bind_Some _ _ k (fd_in (p_fd p) (ps_x s)) k) by reflexivity.
  unfold fd_in. specialize (Hx _ p Hp eq_refl). unfold result_of. cbn [p_fd p_events p_revents].
  bcase (p_fd p ∈ ps_x s) Hpx.
  { unfold in_range in Hin. destruct (Z.geb_spec (p_fd p) 0); [|lia]. eexists _, k. split; [reflexivity|]. split; [done|].
    split_and!; [done|done|]. left. split; [by apply Hx|done]. }
  assert (Hv : valid (p_fd p) = true) by (destruct (valid (p_fd p)); [done|by destruct Hpx; apply Hx]).
  destruct (ps_maxfd s =? -1).
  { eexists _, k. split; [reflexivity|]. split; [done|]. split_and!; [done|done|]. right. split; [done|by right]. }
  bcase (p_fd p ∈ ps_r s) H1.
  { destruct (Hr _ p H1 Hp eq_refl) as (_ & _ & Hb%has_spec). unfold sys, mbind, st_bind. destruct (hs_peek (p_fd p) k) as [[[n e] u] k'].
    eexists _, k'. split; [reflexivity|]. cbn [fst snd]. destruct (hung_up (n, e)).
    - split; [done|]. split_and!; [done|done|]. right. split; [done|by left].
    - unfold wanted. rewrite bool_decide_eq_false_2 by done. split; [done|]. split_and!; [done|done|]. right.
      split; [done|right; apply wanted_sub]. }
  bcase (p_fd p ∈ ps_w s) H2.
  { destruct (Hw _ p H2 Hp eq_refl) as (_ & _ & Hb%has_spec). eexists _, k. split; [reflexivity|]. cbn [fst snd]. unfold wanted.
    rewrite bool_decide_eq_false_2 by done. split; [done|]. split_and!; [done|done|]. right. split; [done|right; apply wanted_sub]. }
  bcase (p_fd p ∈ ps_e s) H3.
  { destruct (He _ p H3 Hp eq_refl) as (_ & _ & Hb%has_spec). eexists _, k. split; [reflexivity|]. cbn [fst snd]. unfold wanted.
    rewrite bool_decide_eq_false_2 by done. split; [done|]. split_and!; [done|done|]. right. split; [done|right; apply wanted_sub]. }
  eexists _, k. split; [reflexivity|]. split; [done|]. split_and!; [done|done|]. right. split; [done|by right].
Qed.

Lemma results_ok valid l s l0 k : ready valid l0 s -> (forall p, p ∈ l -> p ∈ l0) -> Forall in_range l ->
  exists l' n k', poll_results s l k = Some ((l', n), k') /\ Forall2 (result_of valid) l l' /\ n = nonzero l'.
Proof.
  intros Hs. revert k. induction l as [|p l IH]; intros k Hsub Hl; cbn [poll_results].
  { eexists [], 0, k. split; [reflexivity|]. split; [constructor|done]. }
  apply Forall_cons in Hl as [Hp Hl].
  destruct (result1_ok valid l0 s p k Hs (Hsub p (list_elem_of_here _ _)) Hp) as (v & k1 & E & Hv & Hres).
  destruct (IH k1) as (l' & n & k2 & E2 & Hf & Hn); [intros q Hq; apply Hsub; by right|done|].
  rewrite (st_bind_Some _ _ _ _ _ E), (st_bind_Some _ _ _ _ _ E2). cbn [fst snd]. eexists _, _, k2. split; [reflexivity|]. split; [by constructor|].
  rewrite nonzero_cons. cbn [p_revents]. rewrite Hv, Hn. by case_bool_decide.
Qed.
End poll.

(** What is relied on: select(2) takes descriptors out of the sets, and is not
    interrupted forever. *)
Definition part (o' o : option fd_set) : Prop :=
  match o', o with Some x', Some x => x' ⊆ x | None, None => True | _, _ => False end.
Definition part3 (v' v : option fd_set * option fd_set * option fd_set) : Prop :=
  part v'.1.1 v.1.1 /\ part v'.1.2 v.1.2 /\ part v'.2 v.2.
Class HighLaws (K : Type) `{!FileSys K, !HighSys K} := {
  hl_select : forall nfd r w e t k n er v' k', hs_select nfd r w e t k = (n, er, v', k') ->
    part3 v'.1 (r, w, e) /\ (n < 0 -> er = EINTR -> (fs_patience k' < fs_patience k)%nat);
  hl_waitpid : forall p o k n er v k', hs_waitpid p o k = (n, er, v, k') -> n < 0 -> er = EINTR -> (fs_patience k' < fs_patience k)%nat
}.

Lemma part_trans a b c : part a b -> part b c -> part a c.
Proof. unfold part. destruct a, b, c; set_solver. Qed.
Lemma part3_trans a b c : part3 a b -> part3 b c -> part3 a c.
Proof. unfold part3. intros (? & ? & ?) (? & ? & ?). split_and!; by eapply part_trans. Qed.

Section select.
Context {K : Type} `{!FileSys K, !HighSys K, !HighLaws K}.
Context (malloc : gset addr -> ptr) (event_destructor : addr) (calloc_ok : bool).

Lemma select_loop_ok nfd v k f : (fs_patience k <= f)%nat ->
  exists n e v' k', select_loop f nfd v k = Some ((n, e, v'), k') /\ part3 v'.1 v.1.
Proof.
  revert v k. induction f as [|f IH]; intros v k Hf; cbn [select_loop]; destruct (hs_select _ _ _ _ _ k) as [[[n e] v'] k'] eqn:E;
    destruct (hl_select _ _ _ _ _ _ _ _ _ _ E) as [Hp Hi]; rewrite <- !surjective_pairing in Hp;
    (destruct (Z.ltb_spec n 0) as [Hn|Hn]; cbn [andb]; [|by exists n, e, v', k']); bcase (e = EINTR) He;
    try (by exists n, e, v', k'); specialize (Hi Hn He); [lia|].
  destruct (IH v' k') as (n2 & e2 & v2 & k2 & E2 & Hp2); [lia|]. exists n2, e2, v2, k2. split; [exact E2|]. by eapply part3_trans.
Qed.
Lemma select_call_ok nfd v s : exists n e v' k', select_loop (fs_patience (h_k s)) nfd v (h_k s) = Some ((n, e, v'), k') /\
  select_call nfd v s = Some ((n, e, v'), Hst k' (h_ev s) (h_mem s) (h_tv s) (h_pend s) (h_mask s) (h_sigs s)) /\ part3 v'.1 v.1.
Proof.
  destruct (select_loop_ok nfd v (h_k s) (fs_patience (h_k s))) as (n & e & v' & k' & E & Hp); [lia|].
  exists n, e, v', k'. split_and!; [done| |done]. unfold select_call, on_hk, zoom. by rewrite E.
Qed.

(** Three sets in memory. *)
Definition sets_at (a b c : addr) (r w e : fd_set) (s : hst K) : Prop :=
  um_fds (h_mem s) !! a = Some r /\ um_fds (h_mem s) !! b = Some w /\ um_fds (h_mem s) !! c = Some e.

Lemma h_fds_ok a b c r w e s : sets_at a b c r w e s -> h_fds (Some a) (Some b) (Some c) s = Some ((Some r, Some w, Some e), s).
Proof. intros (Ha & Hb & Hc). unfold h_fds, h_rd_fds, mbind, st_bind. by rewrite Ha, Hb, Hc. Qed.
Lemma h_set_fds_ok a b c r w e v s : NoDup [a; b; c] -> sets_at a b c r w e s ->
  exists s', h_set_fds (Some a) (Some b) (Some c) v s = Some (tt, s') /\ sets_at a b c (default ∅ v.1.1) (default ∅ v.1.2) (default ∅ v.2) s' /\
    h_k s' = h_k s /\ h_ev s' = h_ev s /\ h_tv s' = h_tv s /\ um_int (h_mem s') = um_int (h_mem s).
Proof.
  intros Hnd (Ha & Hb & Hc). apply NoDup_cons in Hnd as [Hna Hnd]. apply NoDup_cons in Hnd as [Hnb _].
  assert (a <> b) by set_solver. assert (a <> c) by set_solver. assert (b <> c) by set_solver.
  unfold h_set_fds, h_wr_fds, mbind, st_bind. rewrite Ha. cbn [h_mem set_hmem um_fds]. rewrite !lookup_insert_ne, Hb by done.
  cbn [h_mem set_hmem um_fds]. rewrite !lookup_insert_ne, Hc by done. eexists. split; [reflexivity|]. split; [|done].
  unfold sets_at. cbn [h_mem set_hmem um_fds]. split_and!.
  - by rewrite !lookup_insert_ne, lookup_insert_eq by done.
  - by rewrite lookup_insert_ne, lookup_insert_eq by done.
  - by rewrite lookup_insert_eq.
Qed.

(** A timeout that select(2) accepts. *)
Definition timeout_ok (p : ptr) (s : hst K) : Prop :=
  match p with Some a => exists t, h_tv s !! a = Some t /\ 0 <= tv_sec t /\ 0 <= tv_usec t < 1000000 | None => True end.
Lemma select_timeout_ok p s : timeout_ok p s ->
  exists m, select_timeout p s = Some (true, set_htv m s) /\ timeout_ok p (set_htv m s) /\
    ((forall a t, p = Some a -> h_tv s !! a = Some t -> tv_sec t <= 31 * 24 * 60 * 60) -> m = h_tv s).
Proof.
  destruct p as [a|]; cbn [timeout_ok]; [|intros _; exists (h_tv s); split_and!; [by destruct s|done|done]].
  intros (t & Ht & Hs & Hu). unfold select_timeout. erewrite st_bind_Some by (unfold h_rd_tv; by rewrite Ht).
  rewrite (proj2 (Z.ltb_ge _ 0)), (proj2 (Z.ltb_ge _ 0)) by lia. destruct (Z.geb_spec (tv_usec t) 1000000); [lia|]. cbn [orb].
  destruct (Z.gtb_spec (tv_sec t) (31 * 24 * 60 * 60)).
  - eexists. split; [unfold h_wr_tv, mbind, st_bind; rewrite Ht; reflexivity|].
    split; [|intros H'; specialize (H' a t eq_refl Ht); lia].
    eexists. cbn [set_htv h_tv]. split; [apply lookup_insert_eq|]. cbn [tv_sec tv_usec]. lia.
  - exists (h_tv s). split_and!; [by destruct s| |done]. exists t. by destruct s.
Qed.

(** The result of the poll before the wait decides. *)
Lemma select_now k1 k2 rc nfd a b c r w e p extra s :
  0 < nfd <= FD_SETSIZE -> NoDup [a; b; c] -> sets_at a b c r w e s -> timeout_ok p s ->
  exists n er v t k', select_loop (fs_patience (h_k s)) nfd (Some r, Some w, Some e, pth_time_zero) (h_k s) = Some ((n, er, (v, t)), k') /\
    part3 v (Some r, Some w, Some e) /\
    (n < 0 -> exists s', pth_select_ev malloc event_destructor calloc_ok k1 k2 rc nfd (Some a) (Some b) (Some c) p extra s = Some (HRet (-1) (Some er), s')) /\
    (0 < n -> exists s', pth_select_ev malloc event_destructor calloc_ok k1 k2 rc nfd (Some a) (Some b) (Some c) p extra s = Some (HRet n None, s') /\
       sets_at a b c (default ∅ v.1.1) (default ∅ v.1.2) (default ∅ v.2) s') /\
    (n = 0 -> forall a', p = Some a' -> h_tv s !! a' = Some pth_time_zero ->
       exists s', pth_select_ev malloc event_destructor calloc_ok k1 k2 rc nfd (Some a) (Some b) (Some c) p extra s = Some (HRet 0 None, s')) /\
    (n = 0 -> (forall x y, p = Some x -> h_tv s !! x = Some y -> tv_sec y <= 31 * 24 * 60 * 60 /\ (pth_time_cmp y pth_time_zero =? 0) = false) ->
       pth_select_ev malloc event_destructor calloc_ok k1 k2 rc nfd (Some a) (Some b) (Some c) p extra s =
       select_events malloc event_destructor calloc_ok k1 k2 rc nfd (Some a) (Some b) (Some c) p extra
         (Hst k' (h_ev s) (h_mem s) (h_tv s) (h_pend s) (h_mask s) (h_sigs s))).
Proof.
  intros Hnfd Hnd Hsets Hto. destruct (select_timeout_ok p s Hto) as (m & Eto & Hto' & Hz).
  destruct (select_call_ok nfd (Some r, Some w, Some e, pth_time_zero) (set_htv m s)) as (n & er & [v t] & k' & El & Ec & Hp).
  exists n, er, v, t, k'. split; [exact El|]. split; [exact Hp|].
  unfold pth_select_ev. rewrite (proj2 (Z.ltb_ge nfd 0)) by lia. destruct (Z.gtb_spec nfd FD_SETSIZE); [lia|]. cbn [orb].
  rewrite (st_bind_Some _ _ _ _ _ Eto). cbn [negb]. rewrite (proj2 (Z.eqb_neq nfd 0)) by lia. cbn [andb].
  rewrite (st_bind_Some _ _ _ _ _ (h_fds_ok a b c r w e (set_htv m s) Hsets)), (st_bind_Some _ _ _ _ _ Ec). cbn [fst snd].
  split_and!.
  - intros Hn. rewrite (proj2 (Z.ltb_lt _ _)) by lia. by eexists.
  - intros Hn. rewrite (proj2 (Z.ltb_ge _ _)) by lia. destruct (Z.gtb_spec n 0); [|lia].
    set (s1 := Hst _ _ _ _ _ _ _). assert (exists z, match p with Some _ => t0 ← h_rd_tv p; mret (pth_time_cmp t0 pth_time_zero =? 0)
      | None => mret false end s1 = Some (z, s1)) as [z Ez].
    { destruct p as [a'|]; [|by eexists]. destruct Hto' as (t1 & Ht1 & _). eexists. unfold h_rd_tv, mbind, st_bind. subst s1. cbn [h_tv].
      rewrite Ht1. reflexivity. }
    rewrite (st_bind_Some _ _ _ _ _ Ez). cbn [orb].
    destruct (h_set_fds_ok a b c r w e v s1) as (s' & Es & Hs' & _); [done|exact Hsets|].
    rewrite (st_bind_Some _ _ _ _ _ Es). by exists s'.
  - intros -> a' -> Ha'. cbn [Z.ltb Z.gtb Z.compare orb]. set (s1 := Hst _ _ _ _ _ _ _).
    assert ((t0 ← h_rd_tv (Some a'); mret (pth_time_cmp t0 pth_time_zero =? 0)) s1 = Some (true, s1)) as Ez.
    { unfold h_rd_tv, mbind, st_bind. subst s1. cbn [h_tv set_htv]. rewrite Hz; [by rewrite Ha'|].
      intros x y [= <-] Hy. rewrite Ha' in Hy. by injection Hy as <-. }
    rewrite (st_bind_Some _ _ _ _ _ Ez). cbn [orb].
    destruct (h_set_fds_ok a b c r w e v s1) as (s' & Es & _); [done|exact Hsets|].
    rewrite (st_bind_Some _ _ _ _ _ Es). by exists s'.
  - intros -> Hnz. cbn [Z.ltb Z.gtb Z.compare orb]. rewrite Hz by (intros x y Hx Hy; by apply (Hnz x y)).
    cbn [h_ev h_mem h_tv h_pend h_mask h_sigs set_htv]. set (s1 := Hst k' _ _ _ _ _ _).
    assert (match p with Some _ => t0 ← h_rd_tv p; mret (pth_time_cmp t0 pth_time_zero =? 0) | None => mret false end s1 = Some (false, s1)) as Ez.
    { destruct p as [x|]; [|done]. destruct Hto as (y & Hy & _). unfold h_rd_tv, mbind, st_bind. subst s1. cbn [h_tv].
      rewrite Hy. by rewrite (proj2 (Hnz x y eq_refl Hy)). }
    by rewrite (st_bind_Some _ _ _ _ _ Ez).
Qed.

(** ** poll(2) *)

(** The result of a call: an error, nothing within the time, or the number of
    the entries that have a result, each of which was asked for. *)
Definition poll_answer (valid : Z -> bool) (pfd pfd' : list pollfd) (rv : Z) (e : option errno) : Prop :=
  rv = -1 /\ is_Some e /\ pfd' = pfd \/ rv = 0 /\ e = None /\ pfd' = pfd \/
  rv = nonzero pfd' /\ e = None /\ Forall2 (result_of valid) pfd pfd'.

Lemma collected_ready valid l s r w e : NoDup (p_fd <$> l) -> collected valid l s -> r ⊆ ps_r s -> w ⊆ ps_w s -> e ⊆ ps_e s ->
  ready valid l (Psets r w e (ps_x s) (ps_maxfd s)).
Proof.
  intros Hnd [Hr Hw He Hx _ _] Sr Sw Se.
  assert (Hu : forall p q, p ∈ l -> q ∈ l -> p_fd p = p_fd q -> p = q).
  { intros p q [i Hi]%list_elem_of_lookup [j Hj]%list_elem_of_lookup Hpq.
    assert (i = j) as ->; [|congruence]. eapply (NoDup_lookup _ _ _ (p_fd p)); [exact Hnd| |].
    - by rewrite list_lookup_fmap, Hi.
    - by rewrite list_lookup_fmap, Hj, Hpq. }
  constructor; cbn [ps_r ps_w ps_e ps_x].
  - intros fd p H Hp Hf. apply Sr, Hr in H as (q & Hq & Hw'). assert (p = q) as ->; [|done].
    apply Hu; [done..|]. destruct Hw' as (? & _). congruence.
  - intros fd p H Hp Hf. apply Sw, Hw in H as (q & Hq & Hw'). assert (p = q) as ->; [|done].
    apply Hu; [done..|]. destruct Hw' as (? & _). congruence.
  - intros fd p H Hp Hf. apply Se, He in H as (q & Hq & Hw'). assert (p = q) as ->; [|done].
    apply Hu; [done..|]. destruct Hw' as (? & _). congruence.
  - intros fd p Hp Hf. rewrite Hx. split; [by intros (q & _ & _ & ?)|intros Hv; by exists p].
Qed.

Section poll_call.
Context (k1 k2 : addr) (o : ploc) (pfd : list pollfd) (valid : Z -> bool) (s0 : psets).
Context (Hnd : NoDup [pl_r o; pl_w o; pl_e o]) (Hfds : NoDup (p_fd <$> pfd)) (Hin : Forall in_range pfd).
Context (Hco : collected valid pfd s0).

Lemma poll_end_ok rc e r w x (h : hst K) : sets_at (pl_r o) (pl_w o) (pl_e o) r w x h -> r ⊆ ps_r s0 -> w ⊆ ps_w s0 -> x ⊆ ps_e s0 ->
  (rc < 0 -> is_Some e) ->
  exists rv e' pfd' h', poll_end pfd s0 o (HRet rc e) h = Some ((HRet rv e', pfd'), h') /\ poll_answer valid pfd pfd' rv e'.
Proof.
  intros Hs Sr Sw Sx He. unfold poll_end. destruct (Z.ltb_spec rc 0) as [Hlt|Hge].
  { eexists _, _, _, h. split; [reflexivity|]. left. auto. }
  destruct (Z.eqb_spec rc 0) as [Hz|Hz].
  { eexists _, _, _, h. split; [reflexivity|]. right; by left. }
  rewrite (st_bind_Some _ _ _ _ _ (h_fds_ok _ _ _ _ _ _ _ Hs)). cbn [fst snd default].
  destruct (results_ok valid pfd (Psets r w x (ps_x s0) (ps_maxfd s0)) pfd (h_k h)) as (l' & n & k' & E & Hf & ->);
    [by apply collected_ready|done|done|].
  rewrite (st_bind_Some _ _ _ (l', nonzero l') (Hst k' (h_ev h) (h_mem h) (h_tv h) (h_pend h) (h_mask h) (h_sigs h)))
    by (unfold on_hk, zoom, id; cbn [default from_option]; unfold id; by rewrite E).
  eexists _, _, _, _. split; [reflexivity|]. right; right. auto.
Qed.
End poll_call.

(** The timeout of a call as it is kept across the call of [pth_select_ev]. *)
Lemma poll_timeval_ok timeout : -1 <= timeout < 2 ^ 31 ->
  exists tv, poll_timeval timeout = Some tv /\ (timeout = 0 -> tv = Some pth_time_zero) /\
    (forall t, tv = Some t -> 0 <= tv_sec t /\ 0 <= tv_usec t < 1000000).
Proof.
  intros Ht. unfold poll_timeval. destruct (Z.eqb_spec timeout 0) as [->|H0].
  { eexists. split; [reflexivity|]. split; [done|]. intros t [= <-]. cbn. lia. }
  destruct (Z.eqb_spec timeout (-1)) as [->|H1]; [by eexists|]. destruct (Z.gtb_spec timeout 0); [|lia].
  eexists. split; [reflexivity|]. split; [done|]. intros t [= <-]. cbn [tv_sec tv_usec].
  rewrite Z.quot_div_nonneg, Z.rem_mod_nonneg by lia. pose proof (Z.mod_pos_bound timeout 1000). pose proof (Z.div_pos timeout 1000). lia.
Qed.

(** The memory when [pth_select_ev] is called. *)
Lemma poll_locals_ok o s0 tv (s : hst K) : NoDup [pl_r o; pl_w o; pl_e o] ->
  exists s1, poll_locals o s0 tv s = Some (tt, s1) /\ h_k s1 = h_k s /\
    sets_at (pl_r o) (pl_w o) (pl_e o) (ps_r s0) (ps_w s0) (ps_e s0) s1 /\ (forall t, tv = Some t -> h_tv s1 !! pl_tv o = Some t).
Proof.
  intros Hnd. apply NoDup_cons in Hnd as [Hna Hnd]. apply NoDup_cons in Hnd as [Hnb _].
  unfold poll_locals. eexists. split; [reflexivity|]. split; [by destruct tv|]. split.
  - unfold sets_at. destruct tv; cbn [set_htv set_hmem h_mem um_fds];
      (split_and!; [by rewrite lookup_insert_eq|rewrite lookup_insert_ne by set_solver; by rewrite lookup_insert_eq|
        rewrite !lookup_insert_ne by set_solver; by rewrite lookup_insert_eq]).
  - intros t ->. cbn [set_htv h_tv]. apply lookup_insert_eq.
Qed.

End select.

(** ** A concrete kernel

    The descriptors that are open, readable, writable, hung up; the clock; the
    results of waitpid(2) to come. *)

Record hkern := Hkern { hk_open : gset Z; hk_r : gset Z; hk_w : gset Z; hk_hup : gset Z; hk_now : pth_time_t; hk_child : list Z }.
#[export] Instance hk_sys : FileSys hkern := {|
  fs_getfl fd k := (if fd_in fd (hk_open k) then 2 else -1, EBADF);
  fs_setfl fd v k := k;
  fs_poll fd ev k := (1, EIO, k);
  fs_read fd n k := (-1, EIO, [], k);
  fs_readv fd v k := (-1, EIO, [], k);
  fs_recvfrom fd n fl k := (-1, EIO, [], k);
  fs_write fd d k := (-1, EIO, k);
  fs_writev fd v k := (-1, EIO, k);
  fs_sendto fd d _ _ k := (-1, EIO, k);
  fs_connect fd _ k := (-1, EIO, k);
  fs_soerror fd k := None;
  fs_accept fd k := (-1, EIO, k);
  fs_lseek fd off b k := (0, EIO, k);
  fs_patience _ := O
|}.
Definition cut (o : option fd_set) (x : gset Z) : option fd_set := match o with Some y => Some (y ∩ x) | None => None end.
Definition osize (o : option fd_set) : Z := match o with Some y => Z.of_nat (size y) | None => 0 end.
#[export] Instance hk_high : HighSys hkern := {|
  hs_now := hk_now;
  hs_select nfd r w e t k :=
    (osize (cut r (hk_r k)) + osize (cut w (hk_w k)), EIO, ((cut r (hk_r k), cut w (hk_w k), cut e ∅), t), k);
  hs_waitpid p o k := match hk_child k with
    | n :: l => (n, EIO, 256, Hkern (hk_open k) (hk_r k) (hk_w k) (hk_hup k) (hk_now k) l) | [] => (-1, EIO, 0, k) end;
  hs_peek fd k := (if fd_in fd (hk_hup k) then -1 else 1, ECONNRESET, tt, k)
|}.
#[export] Instance hk_laws : HighLaws hkern.
Proof.
  constructor; [intros nfd r w e t k n er v' k' [= <- <- <- <-]; split; [|done]|
    intros p o k n er v k'; cbn; destruct (hk_child k); intros [= <- <- <- <-]; done].
  unfold part3. cbn [fst snd]. split_and!; [destruct r|destruct w|destruct e]; cbn [cut part]; set_solver.
Qed.

(** Two key variables; the running thread has no data; the events 1 and 2 of
    the user form a ring. *)
Definition hk_events : evst :=
  Evst (Dll {[1%positive := Some 2%positive; 2%positive := Some 1%positive]} {[1%positive := Some 2%positive; 2%positive := Some 1%positive]})
    {[1%positive := Event PTH_STATUS_PENDING PTH_EVENT_NOTIFY 0 (ANOTIFY NULL);
      2%positive := Event PTH_STATUS_PENDING PTH_EVENT_NOTIFY 0 (ANOTIFY NULL)]}
    (Kstate (replicate 256 (Keyent false NULL)) {[1%positive := Kthread None 0]} 1 tt)
    {[20%positive := PTH_KEY_INIT; 21%positive := PTH_KEY_INIT]}.
Definition hk_malloc (used : gset addr) : ptr := Some (if bool_decide (10%positive ∈ used) then 11 else 10)%positive.
Definition hk0 (r w hup : gset Z) : hkern := Hkern {[3; 5]} r w hup (Tv 100 0) [].
Definition hst0 (k : hkern) : hst hkern :=
  Hst k hk_events (Umem {[50%positive := 0]} ∅ {[40%positive := {[3]}]}) {[60%positive := Tv 5 0]} ∅ ∅ {[2]}.
Definition ploc0 : ploc := Ploc 41 42 43 61 51.
Definition poll0 (pfd : list pollfd) (timeout : Z) (k : hkern) : option (high pwait * list pollfd) :=
  fst <$> pth_poll hk_malloc 9 true 20 21 ploc0 (Some pfd) timeout (hst0 k).

(** Descriptor 3 is readable, descriptor 4 is not open, 5 is neither. *)
Definition pfd0 : list pollfd := [Pollfd 3 POLLIN 0; Pollfd 4 POLLIN 0; Pollfd 5 POLLOUT 0].

(** ** What the calls do in some cases *)

(** The result of that call. *)
Lemma poll_ready_demo : poll0 pfd0 0 (hk0 {[3]} ∅ ∅) =
  Some (HRet 2 None, [Pollfd 3 POLLIN POLLIN; Pollfd 4 POLLIN POLLNVAL; Pollfd 5 POLLOUT 0]).
Proof. vm_compute. reflexivity. Qed.
(** A descriptor that is readable and writable is only reported as
    readable. *)
Lemma poll_one_of_two : poll0 [Pollfd 3 (Z.lor POLLIN POLLOUT) 0] 0 (hk0 {[3]} {[3]} ∅) = Some (HRet 1 None, [Pollfd 3 (Z.lor POLLIN POLLOUT) POLLIN]).
Proof. vm_compute. reflexivity. Qed.
(** Nothing is ready within the time: old results stay, and an invalid
    descriptor is not reported. *)
Lemma poll_stale_revents : poll0 [Pollfd 3 POLLIN POLLIN; Pollfd 4 POLLIN 0] 0 (hk0 ∅ ∅ ∅) =
  Some (HRet 0 None, [Pollfd 3 POLLIN POLLIN; Pollfd 4 POLLIN 0]).
Proof. vm_compute. reflexivity. Qed.
(** Without a descriptor to look at there is no wait, whatever the timeout. *)
Lemma poll_no_wait : poll0 [] 5000 (hk0 ∅ ∅ ∅) = Some (HRet 0 None, []) /\
  poll0 [Pollfd 3 0 0] (-1) (hk0 ∅ ∅ ∅) = Some (HRet 0 None, [Pollfd 3 0 0]).
Proof. split; vm_compute; reflexivity. Qed.
(** Two entries for one descriptor: the one that asked for something else is
    counted, with no result. *)
Lemma poll_counts_nothing : poll0 [Pollfd 3 POLLIN 0; Pollfd 3 POLLOUT 0] 0 (hk0 {[3]} ∅ ∅) =
  Some (HRet 2 None, [Pollfd 3 POLLIN POLLIN; Pollfd 3 POLLOUT 0]).
Proof. vm_compute. reflexivity. Qed.
(** A negative descriptor, which poll(2) ignores, is written into a set. *)
Lemma poll_negative_fd : poll0 [Pollfd (-1) POLLIN 0] 0 (hk0 ∅ ∅ ∅) = None.
Proof. vm_compute. reflexivity. Qed.
