(* ===== verification/Selspec.v ===== *)
(** * What pth_select and the sleeping calls promise

    The static events of the running thread exist after their first use; the
    theorems are about these. *)

From stdpp Require Import base numbers gmap list.
From S2P Require Import Prelude Links Timeval Data Util Event Queues World Thread Sched Dispatch Evman Pollset Lib Io Highsel Highspec.
Open Scope Z_scope.

(** [a] is the running thread's event behind the static variable [key]. *)
Record static_at (key a : addr) (e : evst) : Prop := {
  sa_node : node (e_links e) a;
  sa_body : is_Some (e_body e !! a);
  sa_key : exists k, e_keyvar e !! key = Some k /\ k <> PTH_KEY_INIT /\ exists r, pth_key_getdata k (e_keys e) = Some ((Some a, r), e_keys e)
}.

Section events.
Context {K : Type} `{!FileSys K, !HighSys K}.
Context (malloc : gset addr -> ptr) (event_destructor : addr) (calloc_ok : bool).

Definition set_hev (e : evst) (s : hst K) : hst K := Hst (h_k s) e (h_mem s) (h_tv s) (h_pend s) (h_mask s) (h_sigs s).

Lemma static_event_warm ds key a alloc c e : static_at key a e -> static_event ds key alloc c e = Some (Some a, e).
Proof.
  intros [_ _ (k & Hk & Hne & r & Hg)]. unfold static_event, rd_keyvar. erewrite st_bind_Some by (by rewrite Hk).
  rewrite (proj2 (Z.eqb_neq _ _)) by done. rewrite (st_bind_Some _ _ _ tt e) by done.
  erewrite st_bind_Some by (by rewrite Hk).
  rewrite (st_bind_Some _ _ _ (Some a, r) e); [done|]. unfold on_evkeys, zoom. rewrite Hg. by rewrite evst_eta.
Qed.

(** What happens to the events: only the links and the body of [a] change. *)
Record fresh_event (a : addr) (x : event) (e e' : evst) : Prop := {
  fe_ring : ev_ring e' [a];
  fe_body : e_body e' = <[a := x]> (e_body e);
  fe_frame : lframe [a] (e_links e) (e_links e');
  fe_keys : e_keys e' = e_keys e;
  fe_keyvar : e_keyvar e' = e_keyvar e
}.
Lemma fresh_static key b a x e e' : fresh_event a x e e' -> static_at key b e -> static_at key b e'.
Proof.
  intros [_ Hb Hf Hk Hv] [Hn [y Hy] Hs]. constructor; [by apply (lf_node _ _ _ Hf)| |by rewrite Hk, Hv].
  rewrite Hb. destruct (decide (b = a)) as [->|]; [rewrite lookup_insert_eq|rewrite lookup_insert_ne by done]; by eexists.
Qed.
Lemma fresh_ring a b x e e' : fresh_event a x e e' -> a <> b -> ev_ring e [b] -> ev_ring e' [b].
Proof.
  intros [_ Hb Hf _ _] Hne [Hc Hnd Hbd]. constructor; [|done|].
  - eapply cyc_lframe; [exact Hf| |exact Hc]. intros y ->%list_elem_of_singleton. by rewrite list_elem_of_singleton.
  - intros y ->%list_elem_of_singleton. rewrite Hb, lookup_insert_ne by done. apply Hbd. by left.
Qed.

(** The static event is made anew. *)
Lemma h_event_warm spec key a va s ty goal args :
  static_at key a (h_ev s) -> has (Z.lor spec PTH_MODE_STATIC) PTH_MODE_REUSE = false ->
  has (Z.lor spec PTH_MODE_STATIC) PTH_MODE_STATIC = true -> has (Z.lor spec PTH_MODE_STATIC) PTH_MODE_CHAIN = false ->
  event_specific (fun fd => fs_getfl fd (h_k s)) (Z.lor spec PTH_MODE_STATIC) va = Some (inr (ty, goal, args)) ->
  exists e, h_event malloc event_destructor calloc_ok spec key va s = Some (Some a, set_hev e s) /\
    fresh_event a (Event PTH_STATUS_PENDING ty goal args) (h_ev s) e.
Proof.
  intros Hsa Hr Hs Hc Hsp. assert (Hsa2 := Hsa). destruct Hsa2 as [Hn [x Hx] _].
  destruct (link_alone_ok (Z.lor spec PTH_MODE_STATIC) (e_links (h_ev s)) a NULL Hc Hn) as (d & E & Hcyc & Hf).
  set (e1 := Evst d (<[a := Event PTH_STATUS_PENDING ty goal args]> (e_body (h_ev s))) (e_keys (h_ev s)) (e_keyvar (h_ev s))).
  exists e1. split.
  - unfold h_event. rewrite (st_bind_Some _ _ _ (ok (Some a)) (set_hev e1 s)); [done|].
    unfold on_hev, zoom. enough (pth_event (fun fd => fs_getfl fd (h_k s)) event_destructor (Z.lor spec PTH_MODE_STATIC) NULL key NULL va
        (malloc (dom (e_body (h_ev s)))) calloc_ok (h_ev s) = Some (ok (Some a), e1)) as -> by done.
    unfold pth_event. rewrite Hr, Hs. rewrite (st_bind_Some _ _ _ _ _ (static_event_warm _ _ _ _ _ _ Hsa)).
    rewrite bool_decide_eq_false_2 by done. erewrite st_bind_Some by (apply x_evlinks; exact E).
    erewrite st_bind_Some by (apply x_rd_event; exact Hx). erewrite st_bind_Some by (eapply x_wr_event; exact Hx).
    rewrite Hsp. erewrite st_bind_Some by (eapply x_wr_event; apply lookup_insert_eq). unfold e1.
    cbn [e_links e_body e_keys e_keyvar]. by rewrite insert_insert_eq.
  - constructor; try done. constructor; cbn [e1 e_links e_body]; [exact Hcyc|apply NoDup_singleton|].
    intros y ->%list_elem_of_singleton. rewrite lookup_insert_eq. by eexists.
Qed.
End events.

Section sleep.
Context {K : Type} `{!FileSys K, !HighSys K}.
Context (malloc : gset addr -> ptr) (event_destructor : addr) (calloc_ok : bool).

(** The state [s'] differs from [s] by the event [a], alone in its ring, which
    occurs at [u]. *)
Definition waits_until (a : addr) (u : pth_time_t) (s s' : hst K) : Prop :=
  exists e, s' = set_hev e s /\ fresh_event a (Event PTH_STATUS_PENDING PTH_EVENT_TIME 0 (ATIME u)) (h_ev s) e.

Lemma time_event_ok key a u s : static_at key a (h_ev s) ->
  exists s', h_event malloc event_destructor calloc_ok PTH_EVENT_TIME key (ATIME u) s = Some (Some a, s') /\ waits_until a u s s'.
Proof.
  intros Hsa. destruct (h_event_warm malloc event_destructor calloc_ok PTH_EVENT_TIME key a (ATIME u) s PTH_EVENT_TIME 0 (ATIME u))
    as (e & E & Hf); [done|done|done|done|done|]. exists (set_hev e s). split; [exact E|]. by exists e.
Qed.

(** The offset is added to the clock. *)
Lemma sleep_event_ok key a off s : static_at key a (h_ev s) ->
  sane (hs_now (h_k s)) -> normal (hs_now (h_k s)) -> sane off -> normal off ->
  exists u s', sleep_event malloc event_destructor calloc_ok key off s = Some ((Some a, u), s') /\ waits_until a u s s' /\
    usecs u = usecs (hs_now (h_k s)) + usecs off.
Proof.
  intros Hsa Hns Hnn Hos Hon. set (u := pth_time_add (hs_now (h_k s)) off). exists u.
  destruct (time_event_ok key a u s Hsa) as (s' & E & Hw). exists s'. split; [|split; [done|by apply add_usecs]].
  unfold sleep_event. rewrite (st_bind_Some _ _ _ u s) by done. by rewrite (st_bind_Some _ _ _ _ _ E).
Qed.

(** Nanosleep, usleep and sleep wait for one event, at the time of the
    clock plus the argument, in microseconds; after the wait nanosleep
    stores the exact difference between that time and the clock. *)
Lemma sleep_correct key a (s : hst K) sec nsec n :
  static_at key a (h_ev s) -> sane (hs_now (h_k s)) -> normal (hs_now (h_k s)) ->
  0 <= sec <= 2 ^ 40 -> 0 <= nsec < 1000000000 -> 0 < n < 2 ^ 32 ->
  let now := usecs (hs_now (h_k s)) in
  let time r t := exists u s', r = Some (HWait (Some a) u, s') /\ waits_until a u s s' /\ usecs u = t in
  let time' r t := exists u s', r = Some (HWait (Some a) tt, s') /\ waits_until a u s s' /\ usecs u = t in
  (sec <> 0 \/ nsec <> 0 -> time (pth_nanosleep malloc event_destructor calloc_ok key (Some (Ts sec nsec)) s) (now + sec * 1000000 + nsec / 1000)) /\
  time' (pth_usleep malloc event_destructor calloc_ok key n s) (now + n) /\
  time' (pth_sleep malloc event_destructor calloc_ok key n s) (now + n * 1000000) /\
  (forall u h, sane u -> normal u -> sane (hs_now (h_k h)) -> normal (hs_now (h_k h)) ->
     exists r, pth_nanosleep_resume true u h = Some ((HRet 0 None, Some r), h) /\
       ts_sec r * 1000000000 + ts_nsec r = 1000 * (usecs u - usecs (hs_now (h_k h)))).
Proof.
  intros Hsa Hns Hnn Hsec Hnsec Hn now time time'.
  assert (Hd := Z.div_mod n 1000000). pose proof (Z.mod_pos_bound n 1000000 ltac:(lia)).
  assert (0 <= n / 1000000 <= 2 ^ 32) by (split; [apply Z.div_pos; lia|apply Z.div_le_upper_bound; lia]).
  assert (0 <= nsec / 1000 < 1000000) by (split; [apply Z.div_pos; lia|apply Z.div_lt_upper_bound; lia]).
  split_and!.
  - intros Hnz. unfold pth_nanosleep. cbn [ts_sec ts_nsec].
    rewrite (proj2 (Z.ltb_ge nsec 0)) by lia. destruct (Z.gtb_spec nsec (1000 * 1000000)); [lia|]. cbn [orb].
    assert (((sec =? 0) && (nsec =? 0)) = false) as -> by (apply andb_false_iff; rewrite !Z.eqb_neq; lia).
    rewrite Z.quot_div_nonneg by lia.
    destruct (sleep_event_ok key a (pth_time sec (nsec / 1000)) s) as (u & s' & E & Hw & Hu); try done;
      [unfold sane, pth_time; cbn [tv_sec tv_usec]; lia|].
    rewrite (st_bind_Some _ _ _ _ _ E). cbn [fst snd]. rewrite bool_decide_eq_false_2 by done. exists u, s'. split_and!; [done..|].
    rewrite Hu. unfold now, usecs, pth_time. cbn [tv_sec tv_usec]. lia.
  - unfold pth_usleep. rewrite (proj2 (Z.eqb_neq n 0)) by lia. rewrite Z.quot_div_nonneg, Z.rem_mod_nonneg by lia.
    destruct (sleep_event_ok key a (pth_time (n / 1000000) (n mod 1000000)) s) as (u & s' & E & Hw & Hu); try done;
      [unfold sane, pth_time; cbn [tv_sec tv_usec]; lia|].
    rewrite (st_bind_Some _ _ _ _ _ E). cbn [fst snd]. rewrite bool_decide_eq_false_2 by done. exists u, s'. split_and!; [done..|].
    rewrite Hu. unfold now, usecs, pth_time. cbn [tv_sec tv_usec]. lia.
  - unfold pth_sleep. rewrite (proj2 (Z.eqb_neq n 0)) by lia.
    destruct (sleep_event_ok key a (pth_time n 0) s) as (u & s' & E & Hw & Hu); try done;
      [unfold sane, pth_time; cbn [tv_sec tv_usec]; lia|].
    rewrite (st_bind_Some _ _ _ _ _ E). cbn [fst snd]. rewrite bool_decide_eq_false_2 by done. exists u, s'. split_and!; [done..|].
    rewrite Hu. unfold now, usecs, pth_time. cbn [tv_sec tv_usec]. lia.
  - intros u h Hus Hun Hhs Hhn. destruct (sub_usecs u (hs_now (h_k h)) Hus Hhs Hun Hhn) as [Hd' Hnorm].
    unfold pth_nanosleep_resume. rewrite (st_bind_Some _ _ _ (hs_now (h_k h)) h) by done. cbv zeta. cbn [pth_time_set].
    eexists. split; [reflexivity|]. cbn [ts_sec ts_nsec]. unfold normal in Hnorm. fits. unfold usecs in *. lia.
Qed.
End sleep.

(** ** select(2) *)

Section select.
Context {K : Type} `{!FileSys K, !HighSys K, !HighLaws K}.
Context (malloc : gset addr -> ptr) (event_destructor : addr) (calloc_ok : bool).

Lemma concat_pair a b (s : hst K) : a <> b -> ev_ring (h_ev s) [a] -> ev_ring (h_ev s) [b] ->
  exists e, h_concat (Some a) (Some b) s = Some (tt, set_hev e s) /\ ev_ring e [a; b] /\ e_body e = e_body (h_ev s).
Proof.
  intros Hne Ha Hb. destruct (event_concat_isolate (h_ev s) a [] [(b, [])]) as (e & E & Hr & Hbd & _); [done|constructor; [exact Hb|constructor]| |].
  { cbn. apply NoDup_cons. split; [by rewrite list_elem_of_singleton|apply NoDup_singleton]. }
  exists e. split_and!; [|exact Hr|exact Hbd]. unfold h_concat.
  cbn [fmap list_fmap fst] in E. rewrite (st_bind_Some _ _ _ (ok (Some a)) (set_hev e s)); [done|].
  unfold on_hev, zoom. by rewrite E.
Qed.
Lemma isolate_pair a b (s : hst K) : ev_ring (h_ev s) [a; b] ->
  exists e, h_isolate (Some b) s = Some (tt, set_hev e s) /\ e_body e = e_body (h_ev s).
Proof.
  intros Hr. apply ring_rotate1 in Hr. cbn [app] in Hr. destruct Hr as [Hc Hnd Hb].
  destruct (isolate_links_ok (h_ev s) b a []) as (d & E & _); [done|done|]. eexists. split; [|].
  - unfold h_isolate. rewrite (st_bind_Some _ _ _ (ok (Some a)) (set_hev (Evst d (e_body (h_ev s)) (e_keys (h_ev s)) (e_keyvar (h_ev s))) s)); [reflexivity|].
    unfold on_hev, zoom. by rewrite E.
  - done.
Qed.

(** The wait: where the result goes, the events [a] for the sets and [b] for
    the timeout, if there is one. *)
Definition sel_of (rc A B C : addr) (p : ptr) (a b : addr) : sel :=
  Sel (Some rc) (Some A) (Some B) (Some C) p NULL (Some a) (match p with Some _ => Some b | None => NULL end).
Definition body_is (x : addr) (ty : Z) (args : evargs) (s : hst K) : Prop :=
  e_body (h_ev s) !! x = Some (Event PTH_STATUS_PENDING ty 0 args).
Definition waiting (rc A B C : addr) (nfd : Z) (t : option pth_time_t) (a b : addr) (s : hst K) : Prop :=
  um_int (h_mem s) !! rc = Some (-1) /\ body_is a PTH_EVENT_SELECT (ASELECT (Some rc) nfd (Some A) (Some B) (Some C)) s /\
  match t with
  | None => ev_ring (h_ev s) [a]
  | Some t => ev_ring (h_ev s) [a; b] /\ body_is b PTH_EVENT_TIME (ATIME (pth_timeout (hs_now (h_k s)) (tv_sec t) (tv_usec t))) s
  end.

Lemma select_events_ok k1 k2 a b rc A B C nfd p t r w e (s : hst K) :
  static_at k1 a (h_ev s) -> static_at k2 b (h_ev s) -> a <> b -> is_Some (um_int (h_mem s) !! rc) ->
  sets_at A B C r w e s -> match p with Some x => exists y, t = Some y /\ h_tv s !! x = Some y | None => t = None end ->
  exists s', select_events malloc event_destructor calloc_ok k1 k2 (Some rc) nfd (Some A) (Some B) (Some C) p NULL s =
      Some (HWait (Some a) (SelWait (sel_of rc A B C p a b)), s') /\
    waiting rc A B C nfd t a b s' /\ sets_at A B C r w e s'.
Proof.
  intros Ha Hb Hne [v0 Hrc] Hs Hp. unfold select_events.
  set (s1 := set_hmem (Umem (<[rc := -1]> (um_int (h_mem s))) (um_sigs (h_mem s)) (um_fds (h_mem s))) s).
  rewrite (st_bind_Some _ _ _ tt s1) by (unfold h_wr_int; by rewrite Hrc).
  destruct (h_event_warm malloc event_destructor calloc_ok PTH_EVENT_SELECT k1 a (ASELECT (Some rc) nfd (Some A) (Some B) (Some C)) s1
    PTH_EVENT_SELECT 0 (ASELECT (Some rc) nfd (Some A) (Some B) (Some C))) as (e1 & E1 & F1); [done..|].
  rewrite (st_bind_Some _ _ _ _ _ E1). destruct p as [x|].
  - destruct Hp as (y & -> & Hy).
    destruct (time_event_ok malloc event_destructor calloc_ok k2 b (pth_timeout (hs_now (h_k s)) (tv_sec y) (tv_usec y)) (set_hev e1 s1))
      as (s2 & E2 & e2 & -> & F2); [by eapply fresh_static|].
    destruct (concat_pair a b (set_hev e2 (set_hev e1 s1)) Hne) as (e3 & E3 & Hring & Hbody);
      [cbn; eapply fresh_ring; [exact F2|done|apply F1]|apply F2|].
    set (s3 := set_hev e3 (set_hev e2 (set_hev e1 s1))).
    rewrite (st_bind_Some _ _ _ (Some b) s3).
    2:{ rewrite (st_bind_Some _ _ _ y (set_hev e1 s1)) by (unfold h_rd_tv; cbn; by rewrite Hy).
        rewrite (st_bind_Some _ _ _ (hs_now (h_k s)) (set_hev e1 s1)) by done.
        rewrite (st_bind_Some _ _ _ _ _ E2), (st_bind_Some _ _ _ _ _ E3). done. }
    eexists. split; [reflexivity|]. split; [|exact Hs]. split; [apply lookup_insert_eq|]. unfold body_is. cbn [s3 set_hev h_ev] in *.
    rewrite Hbody, (fe_body _ _ _ _ F2), lookup_insert_ne, (fe_body _ _ _ _ F1), lookup_insert_eq by done.
    split_and!; [done|exact Hring|]. by rewrite lookup_insert_eq.
  - subst t. rewrite (st_bind_Some _ _ _ NULL (set_hev e1 s1)) by done. eexists. split; [reflexivity|]. split; [|exact Hs].
    split; [apply lookup_insert_eq|]. unfold body_is. cbn [set_hev h_ev]. rewrite (fe_body _ _ _ _ F1), lookup_insert_eq.
    split; [done|apply F1].
Qed.

(** After the wait: the statuses of the two events decide. *)
Definition status_is (x : addr) (v : pth_status) (s : hst K) : Prop := exists y, e_body (h_ev s) !! x = Some y /\ ev_status y = v.
Lemma h_status_ok x v (s : hst K) : status_is x v s -> h_status (Some x) s = Some (v, s).
Proof.
  intros (y & Hy & <-). unfold h_status. rewrite (st_bind_Some _ _ _ (ok (ev_status y)) s); [done|].
  unfold on_hev, zoom, pth_event_status. erewrite st_bind_Some by (by apply x_rd_event). cbn. by destruct s.
Qed.

Lemma select_resume_ok rc A B C p a b va vb n r w e (s : hst K) :
  NoDup [A; B; C] -> sets_at A B C r w e s -> um_int (h_mem s) !! rc = Some n ->
  match p with Some _ => ev_ring (h_ev s) [a; b] /\ status_is b vb s | None => True end -> status_is a va s ->
  exists s', pth_select_resume (SelWait (sel_of rc A B C p a b)) s = Some (
    (if decide (va = PTH_STATUS_FAILED) then HRet (-1) (Some EBADF)
     else if decide (p <> NULL /\ vb = PTH_STATUS_OCCURRED) then HRet 0 None else HRet n None), s') /\
    (va <> PTH_STATUS_FAILED -> p <> NULL -> vb = PTH_STATUS_OCCURRED -> sets_at A B C ∅ ∅ ∅ s') /\
    (p = NULL \/ vb <> PTH_STATUS_OCCURRED -> sets_at A B C r w e s').
Proof.
  intros Hnd Hs Hrc Hp Ha. cbn [pth_select_resume]. unfold select_resume. cbn [sel_of sl_extra sl_timeout sl_time sl_select sl_r sl_w sl_e sl_rc].
  rewrite (st_bind_Some _ _ _ tt s) by done.
  assert (exists s1, match p with Some _ => h_isolate (match p with Some _ => Some b | None => NULL end) | None => mret tt end s = Some (tt, s1) /\
    e_body (h_ev s1) = e_body (h_ev s) /\ h_mem s1 = h_mem s) as (s1 & E1 & Hb1 & Hm1).
  { destruct p as [x|]; [|by exists s]. destruct Hp as [Hr _]. destruct (isolate_pair a b s Hr) as (e1 & E & Hb).
    exists (set_hev e1 s). done. }
  rewrite (st_bind_Some _ _ _ _ _ E1).
  assert (Ha1 : status_is a va s1) by (unfold status_is; by rewrite Hb1).
  assert (Hs1 : sets_at A B C r w e s1) by (unfold sets_at; by rewrite Hm1).
  rewrite (st_bind_Some _ _ _ _ _ (h_status_ok _ _ _ Ha1)). bcase (va = PTH_STATUS_FAILED) Hf.
  { by exists s1. }
  set (late := bool_decide (p <> NULL /\ vb = PTH_STATUS_OCCURRED)).
  assert (match p with Some _ => has_occurred (match p with Some _ => Some b | None => NULL end) | None => mret false end s1 = Some (late, s1)) as El.
  { unfold late. destruct p as [x|]; [|done]. destruct Hp as [_ Hb]. unfold has_occurred.
    rewrite (st_bind_Some _ _ _ vb s1) by (apply h_status_ok; unfold status_is; by rewrite Hb1).
    rewrite st_ret_eq. do 2 f_equal.
    apply bool_decide_ext. naive_solver. }
  rewrite (st_bind_Some _ _ _ _ _ El), (bool_decide_eq_true_2 (NULL = NULL)) by done. cbn [negb andb]. unfold late. bcase (p <> NULL /\ vb = PTH_STATUS_OCCURRED) Hl.
  - destruct (h_set_fds_ok A B C r w e (None, None, None) s1 Hnd Hs1) as (s2 & E2 & Hs2 & _ & _ & _ & Hi2).
    assert (um_int (h_mem s2) !! rc = Some n) as Hm by (by rewrite Hi2, Hm1).
    set (s3 := set_hmem (Umem (<[rc := 0]> (um_int (h_mem s2))) (um_sigs (h_mem s2)) (um_fds (h_mem s2))) s2).
    rewrite (st_bind_Some _ _ _ tt s3) by (unfold fd_zero_all; rewrite (st_bind_Some _ _ _ _ _ E2); unfold h_wr_int; by rewrite Hm).
    rewrite (st_bind_Some _ _ _ 0 s3) by (unfold h_rd_int; cbn; by rewrite lookup_insert_eq).
    exists s3. split_and!; [done| |naive_solver]. intros _ _ _. exact Hs2.
  - rewrite (st_bind_Some _ _ _ tt s1) by done.
    rewrite (st_bind_Some _ _ _ n s1) by (unfold h_rd_int; cbn; by rewrite Hm1, Hrc).
    exists s1. split_and!; [done|naive_solver|done].
Qed.

(** [select_now], with the wait if nothing is ready. *)
Lemma time_zero_cmp t : 0 <= tv_sec t <= 31 * 24 * 60 * 60 -> 0 <= tv_usec t < 1000000 -> t <> pth_time_zero ->
  (pth_time_cmp t pth_time_zero =? 0) = false.
Proof.
  intros Hs Hu Hne. destruct t as [sec usec]. cbn [tv_sec tv_usec] in *. unfold pth_time_cmp. cbn [tv_sec tv_usec pth_time_zero]. cbv zeta.
  rewrite !Z.sub_0_r. fits. destruct (Z.eqb_spec sec 0) as [->|]; apply Z.eqb_neq; [|done]. intros ->. by apply Hne.
Qed.

End select.

(** ** Concrete runs *)

(** The running thread has its two static events 10 and 11. *)
Definition se_events : evst :=
  Evst (Dll {[1%positive := Some 2%positive; 2%positive := Some 1%positive; 10%positive := Some 10%positive; 11%positive := Some 11%positive]}
            {[1%positive := Some 2%positive; 2%positive := Some 1%positive; 10%positive := Some 10%positive; 11%positive := Some 11%positive]})
    {[1%positive := Event PTH_STATUS_PENDING PTH_EVENT_NOTIFY 0 (ANOTIFY NULL);
      2%positive := Event PTH_STATUS_PENDING PTH_EVENT_NOTIFY 0 (ANOTIFY NULL);
      10%positive := Event PTH_STATUS_OCCURRED PTH_EVENT_TIME 0 (ATIME (Tv 1 0));
      11%positive := Event PTH_STATUS_OCCURRED PTH_EVENT_TIME 0 (ATIME (Tv 1 0))]}
    (Kstate [Keyent true (Some 9%positive); Keyent true (Some 9%positive)]
       {[1%positive := Kthread (Some [Some 10%positive; Some 11%positive]) 2]} 1 tt)
    {[20%positive := 0; 21%positive := 1]}.
Definition se0 (k : hkern) : hst hkern :=
  Hst k se_events (Umem {[50%positive := 0]} {[70%positive := {[5; 7]}]} {[40%positive := {[3]}; 41%positive := ∅; 42%positive := ∅]})
    {[60%positive := Tv 5 0; 61%positive := pth_time_zero]} {[7]} {[2; 5]} {[2]}.
Lemma se_static k : static_at 20 10 (h_ev (se0 k)) /\ static_at 21 11 (h_ev (se0 k)).
Proof.
  split; constructor; try (split; eexists; reflexivity); try (eexists; reflexivity).
  - exists 0. split_and!; [done|done|]. by eexists.
  - exists 1. split_and!; [done|done|]. by eexists.
Qed.

Lemma sleep_correct_witness :
  exists u s', pth_nanosleep hk_malloc 9 true 20 (Some (Ts 2 500)) (se0 (hk0 ∅ ∅ ∅)) = Some (HWait (Some 10%positive) u, s') /\
    usecs u = 102000000.
Proof.
  destruct (sleep_correct hk_malloc 9 true 20 10 (se0 (hk0 ∅ ∅ ∅)) 2 500 1) as (H & _).
  - apply se_static.
  - split; discriminate.
  - split; [discriminate|reflexivity].
  - split; discriminate.
  - split; [discriminate|reflexivity].
  - split; reflexivity.
  - destruct H as (u & s' & E & _ & Hu); [by left|]. exists u, s'. split; [exact E|exact Hu].
Defined.


(** The events of the user: only the one that is passed leaves the ring; the
    others stay linked with the static event. *)
Lemma select_extra_ring :
  exists l s s' ev, pth_select_ev hk_malloc 9 true 20 21 (Some 50%positive) 4 (Some 40%positive) NULL NULL NULL (Some 1%positive)
      (se0 (hk0 ∅ ∅ ∅)) = Some (HWait ev l, s) /\
    pth_select_resume l s = Some (HRet (-1) (Some EINTR), s') /\
    nxt (e_links (h_ev s')) !! 1%positive = Some (Some 1%positive) /\ nxt (e_links (h_ev s')) !! 2%positive = Some (Some 10%positive).
Proof. eexists _, _, _, _. split_and!; [vm_compute; reflexivity..]. Qed.

(** Unblocking signal 5 unblocks what the thread's context remembers, too, and
    the old mask that is returned lacks these signals. *)
Lemma sigmask_unblocks_more :
  exists s, pth_sigmask SIG_UNBLOCK (Some {[5]}) (se0 (hk0 ∅ ∅ ∅)) = Some ((0, None, {[5]}), s) /\ h_mask s = ∅ /\ h_sigs s = {[2]}.
Proof. eexists. split_and!; [vm_compute; reflexivity..]. Qed.

(** A whole second of nanoseconds is accepted, a negative time too. *)
Lemma nanosleep_accepts :
  (exists u s, pth_nanosleep hk_malloc 9 true 20 (Some (Ts 0 1000000000)) (se0 (hk0 ∅ ∅ ∅)) = Some (HWait (Some 10%positive) u, s)) /\
  (exists u s, pth_nanosleep hk_malloc 9 true 20 (Some (Ts (-5) 0)) (se0 (hk0 ∅ ∅ ∅)) = Some (HWait (Some 10%positive) u, s)).
Proof. split; eexists _, _; vm_compute; reflexivity. Qed.

(** Without memory for the event a delay of select is no delay, and a round of
    waitpid does not wait. *)
Definition no_memory (k : hkern) : hst hkern :=
  Hst k (Evst (Dll ∅ ∅) ∅ (Kstate [Keyent true (Some 9%positive)] {[1%positive := Kthread None 0]} 1 tt) {[20%positive := 0; 21%positive := 0]})
    (Umem {[50%positive := 0]} ∅ ∅) {[60%positive := Tv 5 0]} ∅ ∅ ∅.
Lemma select_delay_no_memory :
  exists l s s', pth_select (fun _ => NULL) 9 true 20 21 (Some 50%positive) 0 NULL NULL NULL (Some 60%positive) (no_memory (hk0 ∅ ∅ ∅)) = Some (HWait NULL l, s) /\
    pth_select_resume l s = Some (HRet 0 None, s').
Proof. eexists _, _, _. split; vm_compute; reflexivity. Qed.
Lemma waitpid_no_memory :
  exists s, pth_waitpid (fun _ => NULL) 9 true 20 7 NULL 0 (no_memory (Hkern ∅ ∅ ∅ ∅ (Tv 1 0) [0])) = Some (HWait NULL tt, s).
Proof. eexists. vm_compute. reflexivity. Qed.
