(* ===== verification/Fork.v ===== *)
(** * Forking and commands (src/pth_fork.c; [pth_system] of src/pth_high.c;
      [pth_scheduler_kill] of src/pth_sched.c)

    The handlers that run around fork(2), and the call that runs a command in
    a child process while the thread waits for it. *)

From stdpp Require Import base numbers gmap list.
From S2P Require Import Prelude Timeval Util Event Queues World Thread Lib Io Highsel.
Open Scope Z_scope.

(** A handler function of the user runs on the user's state. *)
Class ForkOps (U : Type) := { fo_call : addr -> ptr -> U -> U }.

(** [struct pth_atfork_st]; the list up to [pth_atfork_idx], the latest one at
    the end. *)
Record atfork := Atfork { af_prepare : ptr; af_parent : ptr; af_child : ptr; af_arg : ptr }.
Definition PTH_ATFORK_MAX : Z := 128.

Definition pth_atfork_push (h : atfork) (l : list atfork) : bool * option errno * list atfork :=
  if Z.of_nat (length l) >? PTH_ATFORK_MAX - 1 then (pth_error false ENOMEM, l) else (ok true, l ++ [h]).
Definition pth_atfork_pop (l : list atfork) : bool * list atfork :=
  if Z.of_nat (length l) <=? 0 then (false, l) else (true, removelast l).

Section fork.
Context {H U K : Type} `{!QueueOps H, !CleanupOps H U, !ForkOps U, !FileSys K, !HighSys K}.
Abbreviation wd := (world H U).

Definition af_run (f : atfork -> ptr) (h : atfork) (u : U) : U :=
  match f h with Some a => fo_call a (af_arg h) u | None => u end.
Definition run_all (f : atfork -> ptr) (l : list atfork) : st wd unit :=
  updw (fun w => set_user (foldl (fun u h => af_run f h u) (w_user w) l) w).

(** [pid]: the result of fork(2). *)
Definition pth_fork (l : list atfork) (pid : Z) : st wd Z :=
  run_all af_prepare (rev l);;
  if pid =? -1 then mret 0
  else if negb (pid =? 0) then run_all af_parent l;; mret pid
  else pth_scheduler_drop;; run_all af_child l;; mret pid.

(** The closing of descriptors is not in the model. *)
Definition pth_scheduler_kill : st wd unit := pth_scheduler_drop.

(** ** Commands *)

Definition SIGINT : Z := 2.
Definition SIGQUIT : Z := 3.
Definition SIGCHLD : Z := 17.
Definition SIG_IGN : Z := 1.

(** [s_act]: what is done at a signal. *)
Record sst := Sst { s_h : hst K; s_w : wd; s_act : Z -> Z }.
Definition on_s {A : Type} (m : st (hst K) A) : st sst A := zoom s_h (fun h s => Sst h (s_w s) (s_act s)) m.
Definition on_sw {A : Type} (m : st wd A) : st sst A := zoom s_w (fun w s => Sst (s_h s) w (s_act s)) m.
Definition sigaction (sig act : Z) : st sst Z := fun s =>
  Some (s_act s sig, Sst (s_h s) (s_w s) (fun n => if n =? sig then act else s_act s n)).

(** How a part of the call ends: with its value, in the child, which becomes
    the shell or exits, or in the wait of [pth_waitpid]. *)
Record sysl := Sysl { y_int : Z; y_quit : Z; y_mask : gset Z; y_pid : Z }.
Inductive sysout := SysRet (v : Z) | SysExec | SysWait (ev : ptr) (l : sysl).

Context (malloc : gset addr -> ptr) (event_destructor : addr) (calloc_ok : bool) (key : addr) (pstat : addr).

Definition system_restore (l : sysl) : st sst unit :=
  sigaction SIGINT (y_int l);; sigaction SIGQUIT (y_quit l);;
  on_s (sigprocmask SIG_SETMASK (Some (y_mask l)));; mret tt.
(** The end of the parent. *)
Definition system_return (l : sysl) (pid : Z) : st sst sysout :=
  system_restore l;;
  if pid =? -1 then mret (SysRet (-1)) else v ← on_s (h_rd_int (Some pstat)); mret (SysRet v).
(** A round of waiting, from the start or after a wait. *)
Definition system_wait (l : sysl) : st sst sysout :=
  r ← on_s (pth_waitpid malloc event_destructor calloc_ok key (y_pid l) (Some pstat) 0);
  match r with
  | HRet pid _ => system_return l pid
  | HWait ev _ => mret (SysWait ev l)
  end.
(** [sh]: the shell exists; [l]: the handlers of [pth_fork], [pid]: the result
    of fork(2). *)
Definition pth_system (sh : bool) (l : list atfork) (cmd : ptr) (pid : Z) : st sst sysout :=
  match cmd with
  | None => mret (SysRet (if sh then 1 else 0))
  | Some _ =>
      i ← sigaction SIGINT SIG_IGN;
      q ← sigaction SIGQUIT SIG_IGN;
      m ← on_s (sigprocmask SIG_BLOCK (Some {[SIGCHLD]}));
      on_s (h_wr_int (Some pstat) (-1));;
      p ← on_sw (pth_fork l pid);
      let y := Sysl i q m.2 p in
      if p =? -1 then system_return y (-1)
      else if p =? 0 then system_restore y;; on_sw pth_scheduler_kill;; mret SysExec
      else system_wait y
  end.
End fork.
