(* ===== verification/Forkspec.v ===== *)
(** * What forking and running commands promise *)

From stdpp Require Import base numbers gmap list.
From S2P Require Import Prelude Links Timeval Data Util Event Queues World Thread Demo Sched Dispatch Evman Lib Io Highsel Highspec Selspec Fork.
Open Scope Z_scope.

(** ** The handlers of fork *)

Lemma atfork_push_pop h l : Z.of_nat (length l) <= PTH_ATFORK_MAX ->
  match pth_atfork_push h l with
  | (true, e, l') => e = None /\ Z.of_nat (length l') <= PTH_ATFORK_MAX /\ pth_atfork_pop l' = (true, l)
  | (false, e, l') => e = Some ENOMEM /\ l' = l /\ Z.of_nat (length l) = PTH_ATFORK_MAX
  end.
Proof.
  intros Hl. unfold pth_atfork_push, PTH_ATFORK_MAX in *. destruct (Z.gtb_spec (Z.of_nat (length l)) (128 - 1)); cbn.
  - split_and!; [done|done|lia].
  - unfold pth_atfork_pop. rewrite length_app. cbn. split_and!; [done|lia|]. destruct (Z.leb_spec (Z.of_nat (length l + 1)) 0); [lia|].
    by rewrite removelast_last.
Qed.

Section spec.
Context {H U K : Type} `{!QueueOps H, !CleanupOps H U, !ForkOps U, !FileSys K, !HighSys K, !HighLaws K}.
Abbreviation wd := (world H U).

(** In the parent nothing but the user's state changes. *)
Lemma fork_parent l pid (w : wd) : 0 < pid -> exists u, pth_fork l pid w = Some (pid, set_user u w).
Proof.
  intros Hp. unfold pth_fork, run_all, updw. rewrite (st_bind_Some _ _ _ tt (set_user (foldl (fun u h => af_run af_prepare h u) (w_user w) (rev l)) w)) by done.
  rewrite (proj2 (Z.eqb_neq pid (-1))), (proj2 (Z.eqb_neq pid 0)) by lia. by eexists.
Qed.
(** A fork that failed looks like the child, but the threads are still
    there. *)
Lemma fork_failed l (w : wd) : exists u, pth_fork l (-1) w = Some (0, set_user u w).
Proof. by eexists. Qed.

(** ** Commands *)

Context (malloc : gset addr -> ptr) (event_destructor : addr) (calloc_ok : bool) (key : addr) (pstat a : addr).

Lemma eintr_waitpid p o k : exists n e v k', eintr (hs_waitpid p o) k = Some ((n, e, v), k').
Proof.
  unfold eintr. assert (Hf : (fs_patience k <= fs_patience k)%nat) by lia. revert Hf. generalize (fs_patience k) at 2 3. intros f. revert k.
  induction f as [|f IH]; intros k Hf; cbn [eintr_loop]; destruct (hs_waitpid p o k) as [[[n e] v] k'] eqn:E;
    (destruct (Z.ltb_spec n 0) as [Hn|Hn]; cbn [andb]; [|by exists n, e, v, k']); bcase (e = EINTR) He;
    try (by exists n, e, v, k'); pose proof (hl_waitpid _ _ _ _ _ _ _ E Hn He); [lia|]. apply IH. lia.
Qed.

(** What the waiting thread needs: its event and the place of the result. *)
Definition can_wait (h : hst K) : Prop := static_at key a (h_ev h) /\ is_Some (um_int (h_mem h) !! pstat).
Lemma waitpid_ok pid (h : hst K) : can_wait h ->
  exists r h', pth_waitpid malloc event_destructor calloc_ok key pid (Some pstat) 0 h = Some (r, h') /\
    h_mask h' = h_mask h /\ is_Some (um_int (h_mem h') !! pstat) /\ (forall ev l, r = HWait ev l -> ev = Some a).
Proof.
  intros [Hs [v0 Hv]]. unfold pth_waitpid. destruct (eintr_waitpid pid (Z.lor 0 WNOHANG) (h_k h)) as (n & e & v & k' & E).
  set (h1 := Hst k' (h_ev h) (h_mem h) (h_tv h) (h_pend h) (h_mask h) (h_sigs h)).
  rewrite (st_bind_Some _ _ _ (n, e, v) h1) by (unfold on_hk, zoom; by rewrite E). cbn [fst snd]. rewrite (bool_decide_eq_false_2 (Some pstat = NULL)) by done.
  assert (exists h2, (if (n >? 0) && negb false then h_wr_int (Some pstat) v else mret tt) h1 = Some (tt, h2) /\
    h_mask h2 = h_mask h /\ is_Some (um_int (h_mem h2) !! pstat) /\ h_ev h2 = h_ev h) as (h2 & E2 & Hm & Hi & He).
  { destruct (n >? 0); cbn [andb negb].
    - eexists. split; [unfold h_wr_int; cbn [h1 h_mem]; by rewrite Hv|]. split_and!; [done| |done]. cbn. rewrite lookup_insert_eq. by eexists.
    - exists h1. split_and!; [done|done| |done]. by exists v0. }
  rewrite (st_bind_Some _ _ _ _ _ E2). destruct (_ || _ || _).
  { eexists _, h2. split; [reflexivity|]. by split_and!. }
  rewrite (st_bind_Some _ _ _ (hs_now (h_k h2)) h2) by done.
  destruct (time_event_ok malloc event_destructor calloc_ok key a (pth_timeout (hs_now (h_k h2)) 0 250000) h2) as (h3 & E3 & e3 & -> & F);
    [by rewrite He|].
  rewrite (st_bind_Some _ _ _ _ _ E3). eexists _, _. split; [reflexivity|]. split_and!; [done|done|]. by intros ev l [= <- _].
Qed.

(** The dispositions and the mask. *)
Definition signals_of (s : sst (H:=H) (U:=U) (K:=K)) : Z * Z * gset Z := (s_act s SIGINT, s_act s SIGQUIT, h_mask (s_h s)).
Definition system_step (l : sysl) (during : Z * Z * gset Z) (out : sysout) (s : sst (H:=H) (U:=U) (K:=K)) : Prop :=
  match out with
  | SysRet v => signals_of s = (y_int l, y_quit l, y_mask l) /\ (v = -1 \/ um_int (h_mem (s_h s)) !! pstat = Some v)
  | SysWait ev l' => l' = l /\ ev = Some a /\ signals_of s = during
  | SysExec => False
  end.

Lemma system_wait_ok l (s : sst) : can_wait (s_h s) ->
  exists out s', system_wait malloc event_destructor calloc_ok key pstat l s = Some (out, s') /\ system_step l (signals_of s) out s'.
Proof.
  intros Hw. unfold system_wait. destruct (waitpid_ok (y_pid l) (s_h s) Hw) as (r & h' & E & Hm & [v Hv] & Hev).
  rewrite (st_bind_Some _ _ _ r (Sst h' (s_w s) (s_act s))) by (unfold on_s, zoom; by rewrite E). destruct r as [pid e|ev u].
  - unfold system_return.
    set (act := fun n => if n =? SIGQUIT then y_quit l else if n =? SIGINT then y_int l else s_act s n).
    set (s3 := Sst (set_mask (y_mask l) h') (s_w s) act).
    rewrite (st_bind_Some _ _ _ tt s3) by done. destruct (pid =? -1).
    + eexists _, s3. split; [reflexivity|]. split; [done|by left].
    + rewrite (st_bind_Some _ _ _ v s3) by (unfold on_s, zoom, h_rd_int; cbn [s_h s3 set_mask h_mem]; by rewrite Hv).
      eexists _, s3. split; [reflexivity|]. split; [done|]. right. exact Hv.
  - eexists _, _. split; [reflexivity|]. split_and!; [done|by eapply Hev|]. unfold signals_of. cbn. by rewrite Hm.
Qed.

(** C36: running a command, in the parent: the call returns or waits; while it
    waits, SIGINT and SIGQUIT are ignored and SIGCHLD is blocked; whenever it
    returns, at once or after any number of waits between which the rest of
    the program runs, the dispositions of the two signals and the signal mask
    are those from before the call, and the result is the status of the child
    or -1. *)
Theorem system_correct sh l cmd pid (s : sst) : 0 < pid -> can_wait (s_h s) ->
  let y := Sysl (s_act s SIGINT) (s_act s SIGQUIT) (h_mask (s_h s)) pid in
  (exists out s', pth_system malloc event_destructor calloc_ok key pstat sh l (Some cmd) pid s = Some (out, s') /\
     system_step y (SIG_IGN, SIG_IGN, h_mask (s_h s) ∪ {[SIGCHLD]}) out s') /\
  (forall s2, can_wait (s_h s2) -> exists out s', system_wait malloc event_destructor calloc_ok key pstat y s2 = Some (out, s') /\
     system_step y (signals_of s2) out s').
Proof.
  intros Hpid [Hst [v Hv]] y. split; [|by apply system_wait_ok].
  unfold pth_system. rewrite (st_bind_Some _ _ _ (s_act s SIGINT) (Sst (s_h s) (s_w s) (fun n => if n =? SIGINT then SIG_IGN else s_act s n))) by done.
  set (act := fun n => if n =? SIGQUIT then SIG_IGN else if n =? SIGINT then SIG_IGN else s_act s n).
  rewrite (st_bind_Some _ _ _ (s_act s SIGQUIT) (Sst (s_h s) (s_w s) act)) by done.
  set (h1 := set_mask (h_mask (s_h s) ∪ {[SIGCHLD]}) (s_h s)).
  rewrite (st_bind_Some _ _ _ (0, None, h_mask (s_h s)) (Sst h1 (s_w s) act)) by done.
  set (h2 := set_hmem (Umem (<[pstat := -1]> (um_int (h_mem h1))) (um_sigs (h_mem h1)) (um_fds (h_mem h1))) h1).
  rewrite (st_bind_Some _ _ _ tt (Sst h2 (s_w s) act)).
  2:{ unfold on_s, zoom, h_wr_int. cbn [s_h h1 set_mask h_mem]. by rewrite Hv. }
  destruct (fork_parent l pid (s_w s) Hpid) as (u & Ef).
  rewrite (st_bind_Some _ _ _ pid (Sst h2 (set_user u (s_w s)) act)) by (unfold on_sw, zoom; cbn [s_w]; by rewrite Ef).
  rewrite (proj2 (Z.eqb_neq pid (-1))), (proj2 (Z.eqb_neq pid 0)) by lia. cbn [snd].
  destruct (system_wait_ok y (Sst h2 (set_user u (s_w s)) act)) as (out & s' & E & Hstep).
  { split; [done|]. cbn. rewrite lookup_insert_eq. by eexists. }
  exists out, s'. split; [exact E|]. exact Hstep.
Qed.

(** If fork(2) fails, the caller itself becomes the shell or exits. *)
Lemma system_fork_fails sh l cmd (s : sst) out s' :
  pth_system malloc event_destructor calloc_ok key pstat sh l (Some cmd) (-1) s = Some (out, s') -> out = SysExec.
Proof.
  unfold pth_system. intros E. do 4 apply st_bind_inv in E as (? & ? & _ & E). apply st_bind_inv in E as (p & s5 & Ep & E).
  assert (p = 0) as ->.
  { unfold on_sw, zoom in Ep. match type of Ep with context [pth_fork l (-1) ?w] => destruct (fork_failed l w) as (u & Eu) end.
    rewrite Eu in Ep. by injection Ep as <- _. }
  do 2 apply st_bind_inv in E as (? & ? & _ & E). by injection E as <- _.
Qed.
End spec.

(** ** A concrete run *)

#[export] Instance demo_fork : ForkOps dstate := {| fo_call f arg u := u |}.
(** The child has not ended at the first look; it has at the second. *)
Definition sys0 (l : list Z) : sst := Sst (se0 (Hkern ∅ ∅ ∅ ∅ (Tv 100 0) l)) demo_w0 (fun n => 5 * n).
Lemma sys0_can_wait l : can_wait 20 50 10 (s_h (sys0 l)).
Proof. split; [apply se_static|eexists; reflexivity]. Qed.
Definition sys0_saved : sysl := Sysl 10 15 {[2; 5]} 77.
Lemma system_correct_witness :
  (exists ev s1, pth_system hk_malloc 9 true 20 50 true [] (Some 99%positive) 77 (sys0 [0; 77]) = Some (SysWait ev sys0_saved, s1) /\
    signals_of s1 = (SIG_IGN, SIG_IGN, {[2; 5]} ∪ {[SIGCHLD]})) /\
  (exists v s2, system_wait hk_malloc 9 true 20 50 sys0_saved (sys0 [77]) = Some (SysRet v, s2) /\ signals_of s2 = (10, 15, {[2; 5]})).
Proof.
  destruct (system_correct hk_malloc 9 true 20 50 10 true [] 99 77 (sys0 [0; 77])) as [H1 H2]; [reflexivity|apply sys0_can_wait|].
  split.
  - destruct H1 as (out & s1 & E & Hs). destruct out as [v| |ev y]; [vm_compute in E; discriminate|destruct Hs|].
    destruct Hs as (-> & _ & Hs). exists ev, s1. split; [exact E|exact Hs].
  - destruct (H2 (sys0 [77]) (sys0_can_wait _)) as (out & s2 & E & Hs). destruct out as [v| |ev y]; [|destruct Hs|vm_compute in E; discriminate].
    destruct Hs as [Hs _]. exists v, s2. split; [exact E|exact Hs].
Defined.
