(* ===== verification/Psync.v ===== *)
(** * Synchronization in the Pthread interface (src/pthread.c, lines 714-1085)

    A [pthread_mutex_t], [pthread_rwlock_t] or [pthread_cond_t] of the user is
    a handle: NULL, the value of the static initializer, or the address of
    the object of [Mutex], [Rwlock] or [Cond], which is made at the first use.
    Calls that wait are cut as in these components. *)

From stdpp Require Import base numbers gmap list.
From S2P Require Import Prelude Links Ring Waitq Mutex Rwlock Cond.
Open Scope Z_scope.

(** The functions return zero or an error number. [RStale]: whatever
    [errno] is then. *)
Inductive prc := ROk | RErr (e : errno) | RStale.
#[export] Instance prc_eq_dec : EqDecision prc.
Proof. solve_decision. Defined.
Definition rc_of (r : bool * option errno) : prc :=
  if r.1 then ROk else match r.2 with Some e => RErr e | None => RStale end.
Definition ETIMEDOUT : errno := EOTHER 110.

(** What is known of an attribute object: whether the address is NULL. *)
Definition attr_check (attr : ptr) : prc := match attr with None => RErr EINVAL | Some _ => ROk end.
Definition not_supported (obj : ptr) : prc := match obj with None => RErr EINVAL | Some _ => RErr ENOSYS end.

(** How a call ends: with its result, or in a wait, on the given object. *)
Inductive pcall := PRet (r : prc) | PWait (m : addr).

(** ** Handles

    [S] is the state of the kind of object, with the handles. *)
Record hobj (S : Type) := Hobj {
  ho_get : addr -> S -> option ptr;
  ho_put : addr -> ptr -> S -> S;
  ho_malloc : addr -> S -> S;
  ho_free : addr -> S -> S;
  ho_init : ptr -> st S (bool * option errno)
}.
Arguments Hobj {S}. Arguments ho_get {S}. Arguments ho_put {S}. Arguments ho_malloc {S}. Arguments ho_free {S}. Arguments ho_init {S}.

Section handles.
Context {S : Type} (o : hobj S).

Definition rd_handle (h : addr) : st S ptr := fun s => match ho_get o h s with Some p => Some (p, s) | None => None end.
Definition wr_handle (h : addr) (p : ptr) : st S unit := fun s => Some (tt, ho_put o h p s).

(** [pthread_mutex_init] and its relatives; [alloc]: the result of
    malloc(3). *)
Definition obj_init (alloc : ptr) (h : ptr) : st S prc :=
  match h with
  | None => mret (RErr EINVAL)
  | Some h =>
      match alloc with
      | None => mret (RErr ENOMEM)
      | Some m =>
          (fun s => Some (tt, ho_malloc o m s));;
          r ← ho_init o (Some m);
          match rc_of r with
          | ROk => wr_handle h (Some m);; mret ROk
          | e => mret e
          end
      end
  end.
Definition obj_destroy (h : ptr) : st S prc :=
  match h with
  | None => mret (RErr EINVAL)
  | Some h =>
      p ← rd_handle h;
      (match p with Some m => fun s => Some (tt, ho_free o m s) | None => mret tt end);;
      wr_handle h NULL;; mret ROk
  end.

(** A use of the object, which is made first if the handle is NULL. *)
Definition lazy_init (alloc : ptr) (h : addr) : st S prc :=
  p ← rd_handle h;
  if bool_decide (p = NULL) then obj_init alloc (Some h) else mret ROk.
Definition with_obj {A : Type} (alloc : ptr) (h : ptr) (fail : prc -> A) (use : ptr -> st S A) : st S A :=
  match h with
  | None => mret (fail (RErr EINVAL))
  | Some h =>
      r ← lazy_init alloc h;
      match r with
      | ROk => p ← rd_handle h; use p
      | e => mret (fail e)
      end
  end.
End handles.

(** ** Mutexes and condition variables *)

Record psy := Psy { y_mutex : gmap addr ptr; y_cond : gmap addr ptr; y_cds : cds }.
Definition on_cds {A : Type} (m : st cds A) : st psy A := zoom y_cds (fun c s => Psy (y_mutex s) (y_cond s) c) m.
Definition on_pmx {A : Type} (m : st mxs A) : st psy A := on_cds (on_mx m).
Definition up_mx (f : mxs -> mxs) (s : psy) : psy := Psy (y_mutex s) (y_cond s) (Cds (f (d_mx (y_cds s))) (d_cond (y_cds s))).
Definition up_cond (f : gmap addr cond -> gmap addr cond) (s : psy) : psy := Psy (y_mutex s) (y_cond s) (Cds (d_mx (y_cds s)) (f (d_cond (y_cds s)))).

(** Memory for a mutex, with its ring node. *)
Definition mutex_alloc (m : addr) (x : mxs) : mxs :=
  Mxs (x_park x) (x_mutex x) (Dll (<[m := NULL]> (nxt (x_nodes x))) (<[m := NULL]> (prv (x_nodes x)))) (x_rings x).
Definition mutex_dealloc (m : addr) (x : mxs) : mxs :=
  Mxs (x_park x) (delete m (x_mutex x)) (Dll (delete m (nxt (x_nodes x))) (delete m (prv (x_nodes x)))) (x_rings x).
Definition mutex_obj : hobj psy := Hobj (fun h s => y_mutex s !! h) (fun h p s => Psy (<[h := p]> (y_mutex s)) (y_cond s) (y_cds s))
  (fun m => up_mx (mutex_alloc m)) (fun m => up_mx (mutex_dealloc m)) (fun m => on_pmx (pth_mutex_init m)).
Definition cond_obj : hobj psy := Hobj (fun h s => y_cond s !! h) (fun h p s => Psy (y_mutex s) (<[h := p]> (y_cond s)) (y_cds s))
  (fun c => up_cond id) (fun c => up_cond (delete c)) (fun c => on_cds (pth_cond_init c)).

Section mutex.
Context (cur : addr) (alloc : ptr).

Definition pthread_mutexattr_init := attr_check.
Definition pthread_mutexattr_destroy := attr_check.
Definition pthread_mutexattr_setprioceiling := not_supported.
Definition pthread_mutexattr_getprioceiling := not_supported.
Definition pthread_mutexattr_setprotocol := not_supported.
Definition pthread_mutexattr_getprotocol := not_supported.
Definition pthread_mutexattr_setpshared := not_supported.
Definition pthread_mutexattr_getpshared := not_supported.
Definition pthread_mutexattr_settype := not_supported.
Definition pthread_mutexattr_gettype := not_supported.

Definition pthread_mutex_init (h : ptr) : st psy prc := obj_init mutex_obj alloc h.
Definition pthread_mutex_destroy (h : ptr) : st psy prc := obj_destroy mutex_obj h.
Definition pthread_mutex_setprioceiling (h : ptr) : st psy prc := with_obj mutex_obj alloc h id (fun _ => mret (RErr ENOSYS)).
Definition pthread_mutex_getprioceiling (h : ptr) : st psy prc := with_obj mutex_obj alloc h id (fun _ => mret (RErr ENOSYS)).

Definition lock_ret (m : ptr) (r : Mutex.outcome) : st psy pcall :=
  match r, m with Mutex.Done x, _ => mret (PRet (rc_of x)) | Mutex.Blocked, Some a => mret (PWait a) | Mutex.Blocked, None => undef end.
Definition mutex_lock (tryonly : bool) (h : ptr) : st psy pcall :=
  with_obj mutex_obj alloc h PRet (fun m => r ← on_pmx (pth_mutex_acquire cur m tryonly NULL); lock_ret m r).
Definition pthread_mutex_lock := mutex_lock false.
Definition pthread_mutex_trylock := mutex_lock true.
(** From the return of a wait on. *)
Definition pthread_mutex_lock_resume (m : addr) : st psy pcall :=
  r ← on_pmx (mutex_resume cur m false false NULL); lock_ret (Some m) r.
Definition pthread_mutex_unlock (h : ptr) : st psy prc :=
  with_obj mutex_obj alloc h id (fun m => r ← on_pmx (pth_mutex_release cur m); mret (rc_of r)).
End mutex.

Section condition.
Context (cur : addr) (calloc malloc : ptr).

Definition pthread_condattr_init := attr_check.
Definition pthread_condattr_destroy := attr_check.
Definition pthread_condattr_setpshared := not_supported.
Definition pthread_condattr_getpshared := not_supported.

Definition pthread_cond_init (h : ptr) : st psy prc := obj_init cond_obj calloc h.
Definition pthread_cond_destroy (h : ptr) : st psy prc := obj_destroy cond_obj h.
Definition cond_notify (all : bool) (h : ptr) : st psy prc :=
  with_obj cond_obj calloc h id (fun c => r ← on_cds (pth_cond_notify c all); mret (rc_of r)).
Definition pthread_cond_broadcast := cond_notify true.
Definition pthread_cond_signal := cond_notify false.

(** The wait: for the condition variable, then for the mutex. *)
Inductive cwait := CRet (r : prc) | CWait (c m : addr) | CLock (m : addr).
(** [calloc], [malloc]: the memory for the two objects; [ev]: the event. *)
Definition cond_wait (c m ev : ptr) : st psy cwait :=
  r ← on_cds (pth_cond_await cur c m ev);
  match r, c, m with
  | AwFail e, _, _ => mret (CRet (RErr e))
  | AwWait, Some c, Some m => mret (CWait c m)
  | AwWait, _, _ => undef
  end.
Definition cond_enter (c m : ptr) (use : ptr -> ptr -> st psy cwait) : st psy cwait :=
  match c, m with
  | Some _, Some m' =>
      with_obj cond_obj calloc c CRet (fun _ =>
        r ← lazy_init mutex_obj malloc m';
        match r with
        | ROk =>
            match c with
            | Some c' => x ← rd_handle cond_obj c'; y ← rd_handle mutex_obj m'; use x y
            | None => undef end
        | e => mret (CRet e)
        end)
  | _, _ => mret (CRet (RErr EINVAL))
  end.
Definition pthread_cond_wait (c m : ptr) : st psy cwait := cond_enter c m (fun x y => cond_wait x y NULL).
(** [sec], [nsec]: the time; [ev]: the event that [pth_event] makes of it. *)
Definition pthread_cond_timedwait (c m : ptr) (abstime : option (Z * Z)) (ev : ptr) : st psy cwait :=
  match abstime with
  | None => mret (CRet (RErr EINVAL))
  | Some (sec, nsec) =>
      if bool_decide (c = NULL) || bool_decide (m = NULL) then mret (CRet (RErr EINVAL)) else
      if (sec <? 0) || (nsec <? 0) || (nsec >=? 1000000000) then mret (CRet (RErr EINVAL)) else
      cond_enter c m (fun x y => cond_wait x y ev)
  end.
(** After the waits; [late]: the event of a timed wait occurred. *)
Definition cond_end (m : addr) (late : bool) (r : Mutex.outcome) : st psy cwait :=
  match r with
  | Mutex.Done _ => mret (CRet (if late then RErr ETIMEDOUT else ROk))
  | Mutex.Blocked => mret (CLock m)
  end.
Definition cond_wait_resume (c m : addr) (late : bool) : st psy cwait :=
  r ← on_cds (cond_await_resume cur c m); cond_end m late r.
Definition cond_lock_resume (m : addr) (late : bool) : st psy cwait :=
  r ← on_pmx (mutex_resume cur m false false NULL); cond_end m late r.
End condition.

(** ** Read-write locks *)

Record pry := Pry { y_lock : gmap addr ptr; y_rws : rws }.
Definition on_rws {A : Type} (m : st rws A) : st pry A := zoom y_rws (fun r s => Pry (y_lock s) r) m.
Definition rw_obj : hobj pry := Hobj (fun h s => y_lock s !! h) (fun h p s => Pry (<[h := p]> (y_lock s)) (y_rws s))
  (fun l s => s) (fun l s => Pry (y_lock s) (Rws (w_park (y_rws s)) (delete l (w_lock (y_rws s))))) (fun l => on_rws (pth_rwlock_init l)).

Section rwlock.
Context (cur : addr) (alloc : ptr).

Definition pthread_rwlockattr_init := attr_check.
Definition pthread_rwlockattr_destroy := attr_check.
Definition pthread_rwlockattr_setpshared := not_supported.
Definition pthread_rwlockattr_getpshared := not_supported.

Definition pthread_rwlock_init (h : ptr) : st pry prc := obj_init rw_obj alloc h.
Definition pthread_rwlock_destroy (h : ptr) : st pry prc := obj_destroy rw_obj h.
Definition rw_ret (l : ptr) (r : Rwlock.outcome) : st pry pcall :=
  match r, l with Rwlock.Done x, _ => mret (PRet (rc_of x)) | Rwlock.Blocked, Some a => mret (PWait a) | Rwlock.Blocked, None => undef end.
Definition rwlock_lock (op : rwop) (tryonly : bool) (h : ptr) : st pry pcall :=
  with_obj rw_obj alloc h PRet (fun l => r ← on_rws (pth_rwlock_acquire cur l op tryonly NULL); rw_ret l r).
Definition pthread_rwlock_rdlock := rwlock_lock PTH_RWLOCK_RD false.
Definition pthread_rwlock_tryrdlock := rwlock_lock PTH_RWLOCK_RD true.
Definition pthread_rwlock_wrlock := rwlock_lock PTH_RWLOCK_RW false.
Definition pthread_rwlock_trywrlock := rwlock_lock PTH_RWLOCK_RW true.
Definition pthread_rwlock_resume (op : rwop) (l : addr) : st pry pcall :=
  r ← on_rws (rwlock_resume cur l op false false NULL); rw_ret (Some l) r.
Definition pthread_rwlock_unlock (h : ptr) : st pry prc :=
  with_obj rw_obj alloc h id (fun l => r ← on_rws (pth_rwlock_release cur l); mret (rc_of r)).
End rwlock.
