(* ===== verification/Psyncspec.v ===== *)
(** * What mutexes promise in the Pthread interface

    A mutex that is statically initialized behaves as one that was initialized
    before; and what happens if two schedulers use it for the first time at
    once. *)

From stdpp Require Import base numbers gmap list.
From S2P Require Import Prelude Links Ring Waitq Rwlock Mutex Cond Psync.
Open Scope Z_scope.

(** A new mutex. *)
Definition a_fresh : amutex := AM false NULL 0 [].

(** Memory for a mutex, initialized. *)
Lemma mutex_new s A m : mrel s A -> a_mx A !! m = None -> Z.of_nat (size (a_mx A)) + 1 < 2 ^ 32 ->
  exists s', pth_mutex_init (Some m) (mutex_alloc m s) = Some (ok true, s') /\ mrel s' (a_set A m a_fresh).
Proof.
  intros [Hmx Hth Hq Hsep Hrg Hnodes Hsmall Hfew] Hm Hsz. eexists. split; [reflexivity|]. unfold mutex_alloc.
  cbn [x_park x_mutex x_nodes x_rings]. set (d' := Dll _ _).
  assert (Hf : lframe [m] (x_nodes s) d').
  { apply lframe_upd; intros a; rewrite lookup_insert; case_decide; subst;
      first [by left | right; split; [by left|by eexists]]. }
  constructor; cbn [x_park x_mutex x_nodes x_rings a_set a_mx a_held].
  - intros m' a [[<- <-]|[Hne Ha]]%lookup_insert_Some.
    + eexists. rewrite lookup_insert_eq. split; [done|]. constructor; cbn; try done; try lia. constructor; try done. apply NoDup_nil_2.
    + destruct (Hmx m' a Ha) as (x & Hx & Hok). exists x. by rewrite lookup_insert_ne.
  - exact Hth.
  - intros m' a t [[<- <-]|[Hne Ha]]%lookup_insert_Some; [by intros ?%not_elem_of_nil|by eapply Hq].
  - intros m1 m2 a1 a2 t [[<- <-]|[Hne1 Ha1]]%lookup_insert_Some [[<- <-]|[Hne2 Ha2]]%lookup_insert_Some Hne Ht;
      [done|by apply not_elem_of_nil in Ht|apply not_elem_of_nil|by eapply (Hsep m1 m2)].
  - destruct Hrg as [Hr1 Hr2]. constructor; [|done]. intros t l Hl. destruct (Hr1 t l Hl) as (r & Hr & Hrep).
    exists r. split; [done|]. eapply ring_frame; [exact Hf| |exact Hrep].
    intros x Hx ->%list_elem_of_singleton. specialize (Hsmall t l Hl). rewrite Forall_forall in Hsmall.
    destruct (Hsmall m Hx). congruence.
  - intros m' [a [[<- _]|[Hne Ha]]%lookup_insert_Some].
    + split; cbn; rewrite lookup_insert_eq; by eexists.
    + apply (lf_node _ _ _ Hf), Hnodes. by eexists.
  - intros t l Hl. eapply Forall_impl; [by eapply Hsmall|]. intros m' Hm'. cbn.
    destruct (decide (m = m')) as [<-|]; [rewrite lookup_insert_eq; by eexists|by rewrite lookup_insert_ne].
  - rewrite map_size_insert_None by done. lia.
Qed.

Definition call_of (m : addr) (r : Mutex.outcome) : pcall := match r with Mutex.Done x => PRet (rc_of x) | Mutex.Blocked => PWait m end.
Definition mutexes (s : psy) : mxs := d_mx (y_cds s).
(** The mutex that a use of the handle [p] works on: the one it stands for,
    or a new one in free memory. *)
Definition resolves (A : ast) (p alloc : ptr) (m : addr) (A1 : ast) : Prop :=
  p = Some m /\ A1 = A \/
  p = NULL /\ alloc = Some m /\ a_mx A !! m = None /\ Z.of_nat (size (a_mx A)) + 1 < 2 ^ 32 /\ A1 = a_set A m a_fresh.

Lemma on_pmx_ok {B : Type} (f : st mxs B) s b x : f (mutexes s) = Some (b, x) ->
  on_pmx f s = Some (b, Psy (y_mutex s) (y_cond s) (Cds x (d_cond (y_cds s)))).
Proof. intros H. unfold on_pmx, on_cds, on_mx, zoom. unfold mutexes in H. by rewrite H. Qed.

(** The lazy part of every operation. *)
Lemma with_mutex_ok {B : Type} s A h p alloc m A1 (fail : prc -> B) use :
  mrel (mutexes s) A -> y_mutex s !! h = Some p -> resolves A p alloc m A1 ->
  exists s1, with_obj mutex_obj alloc (Some h) fail use s = use (Some m) s1 /\ mrel (mutexes s1) A1 /\
    y_mutex s1 = <[h := Some m]> (y_mutex s) /\ y_cond s1 = y_cond s.
Proof.
  intros Hr Hp Hres. unfold with_obj, lazy_init. rewrite st_bind_assoc.
  rewrite (st_bind_Some _ _ _ p s) by (unfold rd_handle; cbn; by rewrite Hp).
  destruct Hres as [[-> ->]|(-> & -> & Hm & Hsz & ->)].
  - rewrite bool_decide_eq_false_2 by done. rewrite (st_bind_Some _ _ _ ROk s) by done.
    rewrite (st_bind_Some _ _ _ (Some m) s) by (unfold rd_handle; cbn; by rewrite Hp).
    exists s. split_and!; [done|done| |done]. by rewrite insert_id.
  - rewrite bool_decide_eq_true_2 by done. destruct (mutex_new _ _ _ Hr Hm Hsz) as (x & E & Hx).
    set (s1 := Psy (<[h := Some m]> (y_mutex s)) (y_cond s) (Cds x (d_cond (y_cds s)))).
    rewrite (st_bind_Some _ _ _ ROk s1).
    2:{ unfold obj_init. rewrite (st_bind_Some _ _ _ tt (up_mx (mutex_alloc m) s)) by done. cbn [ho_init mutex_obj].
        rewrite (st_bind_Some _ _ _ _ _ (on_pmx_ok _ (up_mx (mutex_alloc m) s) _ _ E)). done. }
    rewrite (st_bind_Some _ _ _ (Some m) s1) by (unfold rd_handle; cbn; by rewrite lookup_insert_eq).
    by exists s1.
Qed.

(** C30: the lock and unlock functions of the Pthread interface, for a handle
    that is initialized or has the value of the static initializer: without
    memory for a new mutex they give ENOMEM and change nothing; otherwise the
    handle afterwards stands for the mutex, a new one is fair to nobody and
    free, and the mutex changes as the abstract acquisition and release say:
    the result is zero, EBUSY, EDEADLK or EACCES, or the thread waits in its
    queue. *)
Theorem pthread_mutex_correct cur alloc h p l (s : psy) A tryonly :
  mrel (mutexes s) A -> y_mutex s !! h = Some p -> a_held A !! cur = Some l ->
  (forall m' b, a_mx A !! m' = Some b -> cur ∉ a_queue b) ->
  (p = NULL -> alloc = NULL ->
     mutex_lock cur alloc tryonly (Some h) s = Some (PRet (RErr ENOMEM), s) /\
     pthread_mutex_unlock cur alloc (Some h) s = Some (RErr ENOMEM, s)) /\
  (forall m A1 a, resolves A p alloc m A1 -> a_mx A1 !! m = Some a ->
     (a_owner a = NULL -> unheld A1 m) -> (a_owner a = Some cur -> m ∈ l /\ a_count a + 1 < 2 ^ 64) ->
     (exists s', mutex_lock cur alloc tryonly (Some h) s = Some (call_of m (sp_acquire A1 cur m a tryonly).1, s') /\
        mrel (mutexes s') (sp_acquire A1 cur m a tryonly).2 /\ y_mutex s' = <[h := Some m]> (y_mutex s)) /\
     (exists s', pthread_mutex_unlock cur alloc (Some h) s = Some (rc_of (sp_release A1 cur m a).1.1, s') /\
        mrel (mutexes s') (sp_release A1 cur m a).1.2 /\ y_mutex s' = <[h := Some m]> (y_mutex s))).
Proof.
  intros Hr Hp Hl Hq. split.
  - intros -> ->. unfold mutex_lock, pthread_mutex_unlock, with_obj, lazy_init. rewrite !st_bind_assoc.
    rewrite !(st_bind_Some _ _ _ NULL s) by (unfold rd_handle; cbn; by rewrite Hp). done.
  - intros m A1 a Hres Ha Hun Hown.
    assert (Hl1 : a_held A1 !! cur = Some l) by (destruct Hres as [[_ ->]|(_ & _ & _ & _ & ->)]; exact Hl).
    assert (Hq1 : forall m' b, a_mx A1 !! m' = Some b -> cur ∉ a_queue b).
    { destruct Hres as [[_ ->]|(_ & _ & _ & _ & ->)]; [exact Hq|]. intros m' b. cbn [a_set a_mx].
      intros [[<- <-]|[_ Hb]]%lookup_insert_Some; [apply not_elem_of_nil|by eapply Hq]. }
    split.
    + unfold mutex_lock. destruct (with_mutex_ok s A h p alloc m A1 PRet
        (fun m => r ← on_pmx (pth_mutex_acquire cur m tryonly NULL); lock_ret m r) Hr Hp Hres) as (s1 & -> & Hr1 & Hy1 & _).
      destruct (acquire_refines (mutexes s1) A1 cur m a tryonly NULL) as (x & E & Hx & _); [done|done|by eexists|done|done|naive_solver|].
      rewrite (st_bind_Some _ _ _ _ _ (on_pmx_ok _ _ _ _ E)). eexists. split; [by destruct (sp_acquire A1 cur m a tryonly).1|].
      split; [exact Hx|exact Hy1].
    + unfold pthread_mutex_unlock. destruct (with_mutex_ok s A h p alloc m A1 id
        (fun m => r ← on_pmx (pth_mutex_release cur m); mret (rc_of r)) Hr Hp Hres) as (s1 & -> & Hr1 & Hy1 & _).
      destruct (release_refines (mutexes s1) A1 cur m a l) as (x & E & Hx & _); [done|done|done|naive_solver|].
      rewrite (st_bind_Some _ _ _ _ _ (on_pmx_ok _ _ _ _ E)). eexists. split; [done|]. split; [exact Hx|exact Hy1].
Qed.

(** ** Concrete runs *)

Definition psy0 : psy := Psy {[50%positive := NULL; 51%positive := Some 9%positive]} ∅ (Cds demo_mxs ∅).
(** Thread 4 locks the mutex behind 50 for the first time. *)
Lemma pthread_mutex_correct_witness :
  exists s', pthread_mutex_lock 4 (Some 20%positive) (Some 50%positive) psy0 = Some (PRet ROk, s') /\
    y_mutex s' !! 50%positive = Some (Some 20%positive).
Proof.
  destruct (pthread_mutex_correct 4 (Some 20%positive) 50 NULL [] psy0 demo_ast false) as [_ H].
  - exact demo_mrel.
  - reflexivity.
  - reflexivity.
  - intros m' b Hb. single Hb. cbn. by apply (bool_decide_unpack _).
  - destruct (H 20%positive (a_set demo_ast 20 a_fresh) a_fresh) as [(s' & E & _ & Hy) _].
    + right. split_and!; reflexivity.
    + reflexivity.
    + intros _ t l Hl. apply demo_held in Hl as [[-> ->]|[-> _]]; [by apply (bool_decide_unpack _)|apply not_elem_of_nil].
    + discriminate.
    + exists s'. split; [exact E|]. rewrite Hy. apply lookup_insert_eq.
Defined.

(** Two threads of different schedulers lock a mutex with the static
    initializer. Both see the initializer, each makes a mutex and gets it: both
    are in the critical section, and the first cannot unlock. The steps are
    those of [pthread_mutex_lock], of thread 3 and of thread 4. *)
Definition lock_step (cur : addr) : st psy pcall :=
  p ← rd_handle mutex_obj 50; r ← on_pmx (pth_mutex_acquire cur p false NULL); lock_ret p r.
Definition static_race : st psy (bool * bool * pcall * pcall * prc) :=
  p3 ← rd_handle mutex_obj 50;
  p4 ← rd_handle mutex_obj 50;
  pthread_mutex_init (Some 20%positive) (Some 50%positive);;
  r3 ← lock_step 3;
  pthread_mutex_init (Some 21%positive) (Some 50%positive);;
  r4 ← lock_step 4;
  u3 ← pthread_mutex_unlock 3 NULL (Some 50%positive);
  mret (bool_decide (p3 = NULL), bool_decide (p4 = NULL), r3, r4, u3).
Lemma static_mutex_race : exists s', static_race psy0 = Some ((true, true, PRet ROk, PRet ROk, RErr EACCES), s').
Proof. eexists. vm_compute. reflexivity. Qed.

(** A mutex can be destroyed while it is locked: the owner's ring still
    contains the memory that was freed. *)
Lemma destroy_locked_mutex : exists s', pthread_mutex_destroy (Some 51%positive) psy0 = Some (ROk, s') /\
  x_mutex (mutexes s') !! 9%positive = None /\ (r_hook <$> x_rings (mutexes s') !! 1%positive) = Some (Some 9%positive).
Proof. eexists. split_and!; vm_compute; reflexivity. Qed.
