(* ===== verification/Once.v ===== *)
(** * One-time initialization (pth_once of src/pth_lib.c, pthread_once of
      src/pthread.c)

    The control word is 0, 1 while the constructor runs, 2 when it has
    completed. The calls of all threads, on any number of schedulers, run one
    atomic operation at a time; a thread can be cancelled in its constructor,
    which runs the cleanup handler that resets the control word. *)

From stdpp Require Import base numbers gmap list.
From S2P Require Import Prelude.
Open Scope Z_scope.

(** Where a call is: before the load, the compare-and-swap, the yield, the
    registration of the handler; in the constructor; before the handler is
    removed and 2 is stored; returned; or the thread is gone. *)
Inductive opc := OLoad | OCas | OYield | OPush | ORun (handler : bool) | OStore | ORet | OGone.
#[export] Instance opc_eq_dec : EqDecision opc.
Proof. solve_decision. Defined.

(** [o_started], [o_done]: how often the constructor was called and how often
    it returned. *)
Record once := Once { o_ctl : Z; o_pc : gmap addr opc; o_started : nat; o_done : nat }.
Definition PTH_ONCE_INIT : Z := 0.

(** What a step does besides its code: whether memory for the handler is
    there, and whether the thread is cancelled. *)
Inductive oevent := ONext | ONoMemory | OCancel.

Definition pth_once_cleanup (s : once) : once := Once 0 (o_pc s) (o_started s) (o_done s).
Definition at_pc (t : addr) (p : opc) (s : once) : once := Once (o_ctl s) (<[t := p]> (o_pc s)) (o_started s) (o_done s).

(** One step of the call of thread [t]; [None] if it has none. *)
Definition pth_once (t : addr) (e : oevent) (s : once) : option once :=
  match o_pc s !! t with
  | None => None
  | Some p =>
      match p, e with
      | OLoad, ONext => Some (at_pc t (if o_ctl s =? 2 then ORet else if o_ctl s =? 0 then OCas else OYield) s)
      | OCas, ONext =>
          Some (if o_ctl s =? 0 then at_pc t OPush (Once 1 (o_pc s) (o_started s) (o_done s)) else at_pc t OLoad s)
      | OYield, ONext => Some (at_pc t OLoad s)
      | OYield, OCancel => Some (at_pc t OGone s)
      | OPush, ONext => Some (at_pc t (ORun true) (Once (o_ctl s) (o_pc s) (S (o_started s)) (o_done s)))
      | OPush, ONoMemory => Some (at_pc t (ORun false) (Once (o_ctl s) (o_pc s) (S (o_started s)) (o_done s)))
      | ORun _, ONext => Some (at_pc t OStore (Once (o_ctl s) (o_pc s) (o_started s) (S (o_done s))))
      | ORun h, OCancel => Some (at_pc t OGone (if h then pth_once_cleanup s else s))
      | OStore, ONext => Some (at_pc t ORet (Once 2 (o_pc s) (o_started s) (o_done s)))
      | _, _ => None
      end
  end.

(** The same code again. *)
Definition pthread_once := pth_once.

(** All calls start. *)
Definition once_start (threads : list addr) : once := Once PTH_ONCE_INIT (list_to_map ((fun t => (t, OLoad)) <$> threads)) 0 0.

(** Reachability; [memory]: there is always memory for the handler. *)
Inductive once_reach (memory : bool) (threads : list addr) : once -> Prop :=
| once_init : once_reach memory threads (once_start threads)
| once_next s s' t e : once_reach memory threads s -> (if memory then e <> ONoMemory else True) ->
    pth_once t e s = Some s' -> once_reach memory threads s'.

(** ** Exactly one thread runs the constructor *)

(** The call has won and not yet finished. *)
Definition working (p : opc) : bool := match p with OPush | ORun _ | OStore => true | _ => false end.
Definition stored (p : opc) : Prop := p = OStore \/ p = ORet.

(** The control word tells whether a thread is at work and whether the
    constructor has returned. *)
Record once_inv (s : once) : Prop := {
  oi_ctl : o_ctl s = 0 \/ o_ctl s = 1 \/ o_ctl s = 2;
  oi_one : forall t u p q, o_pc s !! t = Some p -> o_pc s !! u = Some q -> working p = true -> working q = true -> t = u;
  oi_busy : forall t p, o_pc s !! t = Some p -> working p = true -> o_ctl s = 1;
  oi_owner : o_ctl s = 1 -> exists t p, o_pc s !! t = Some p /\ working p = true /\ p <> ORun false;
  oi_handler : forall t, o_pc s !! t <> Some (ORun false);
  oi_ret : forall t, o_pc s !! t = Some ORet -> o_ctl s = 2;
  oi_two : o_ctl s = 2 -> o_done s = 1%nat;
  oi_store : forall t, o_pc s !! t = Some OStore -> o_done s = 1%nat;
  oi_zero : o_ctl s <> 2 -> (forall t, o_pc s !! t <> Some OStore) -> o_done s = 0%nat
}.

(** The program counters after a step. *)
Lemma pc_cases (m : gmap addr opc) t p u q : <[t := p]> m !! u = Some q -> (u = t /\ q = p) \/ (u <> t /\ m !! u = Some q).
Proof. rewrite lookup_insert_Some. naive_solver. Qed.
Lemma pc_other (m : gmap addr opc) t p u q : u <> t -> m !! u = Some q -> <[t := p]> m !! u = Some q.
Proof. intros ? ?. by rewrite lookup_insert_ne. Qed.

(** A step of a thread that neither was nor is at work. *)
Lemma once_idle s t p p' : once_inv s -> o_pc s !! t = Some p -> working p = false -> working p' = false ->
  (p' = ORet -> o_ctl s = 2) -> once_inv (at_pc t p' s).
Proof.
  intros [Hc H1 Hb Ho Hh Hr H2 Hs Hz] Ht Hp Hp' Hret. constructor; cbn [at_pc o_ctl o_pc o_done o_started].
  - done.
  - intros u v q1 q2 [[-> ->]|[Hu E1]]%pc_cases [[-> ->]|[Hv E2]]%pc_cases W1 W2; try congruence. by eapply H1.
  - intros u q [[-> ->]|[Hu E]]%pc_cases W; [congruence|by eapply Hb].
  - intros E. destruct (Ho E) as (u & q & Hq & W & ?). exists u, q. split; [|done]. apply pc_other; [|done]. intros ->. congruence.
  - intros u [[-> E]|[Hu E]]%pc_cases; [by subst|by eapply Hh].
  - intros u [[-> E]|[Hu E]]%pc_cases; [by apply Hret|by eapply Hr].
  - done.
  - intros u [[-> E]|[Hu E]]%pc_cases; [by subst|by eapply Hs].
  - intros Hne Hno. apply Hz; [done|]. intros u E. apply (Hno u). apply pc_other; [|done]. intros ->.
    rewrite E in Ht. simplify_eq.
Qed.

(** A step of the thread at work, to [p'], with the new control word. *)
Lemma once_work s t p p' n d : once_inv s -> o_pc s !! t = Some p -> working p = true ->
  (if working p' then n = 1 else n = 0 \/ n = 2) -> p' <> ORun false -> (p' = ORet <-> n = 2) ->
  (d = (if decide (p' = OStore \/ p' = ORet) then 1 else 0))%nat ->
  forall k, once_inv (at_pc t p' (Once n (o_pc s) k d)).
Proof.
  intros [Hc H1 Hb Ho Hh Hr H2 Hs Hz] Ht Hp Hp' Hnf Hret -> k.
  assert (Hn1 : o_ctl s = 1) by (by eapply Hb).
  assert (Hoth : forall u q, u <> t -> o_pc s !! u = Some q -> working q = false).
  { intros u q Hu Hq. destruct (working q) eqn:W; [|done]. destruct Hu. by eapply H1. }
  constructor; cbn [at_pc o_ctl o_pc o_done o_started].
  - destruct (working p'); lia.
  - intros u v q1 q2 [[-> ->]|[Hu E1]]%pc_cases [[-> ->]|[Hv E2]]%pc_cases W1 W2; [done| | |by eapply H1].
    + rewrite (Hoth v q2) in W2 by done. done.
    + rewrite (Hoth u q1) in W1 by done. done.
  - intros u q [[-> ->]|[Hu E]]%pc_cases W; [by rewrite W in Hp'|]. by rewrite (Hoth u q) in W by done.
  - intros ->. exists t, p'. rewrite lookup_insert_eq. destruct (working p'); [done|lia].
  - intros u [[-> E]|[Hu E]]%pc_cases; [by subst|by eapply Hh].
  - intros u [[-> E]|[Hu E]]%pc_cases; [by apply Hret|]. specialize (Hr u E). lia.
  - intros ->. rewrite decide_True; [done|]. right. by apply Hret.
  - intros u [[-> E]|[Hu E]]%pc_cases; [rewrite decide_True by auto; done|]. by specialize (Hoth u _ Hu E).
  - intros Hne Hno. rewrite decide_False; [done|]. intros [->| ->]; [|by destruct Hne; apply Hret].
    apply (Hno t). apply lookup_insert_eq.
Qed.

Lemma once_start_inv threads : once_inv (once_start threads).
Proof.
  assert (H : forall t p, o_pc (once_start threads) !! t = Some p -> p = OLoad).
  { intros t p Hp. unfold once_start in Hp. cbn [o_pc] in Hp. apply elem_of_list_to_map_2 in Hp.
    apply list_elem_of_fmap in Hp as (u & E & _). by injection E. }
  constructor; cbn [once_start o_ctl o_done].
  - by left.
  - intros t u p q Hp _ W. by rewrite (H t p Hp) in W.
  - intros t p Hp W. by rewrite (H t p Hp) in W.
  - done.
  - intros t E. by apply H in E.
  - intros t E. by apply H in E.
  - done.
  - intros t E. by apply H in E.
  - done.
Qed.

Lemma once_step_inv s s' t e : once_inv s -> e <> ONoMemory -> pth_once t e s = Some s' -> once_inv s'.
Proof.
  intros Hi He. unfold pth_once. destruct (o_pc s !! t) as [p|] eqn:Ht; [|done].
  destruct p, e; try done; intros [= <-].
  - eapply once_idle; [done|done|done| |].
    + destruct (o_ctl s =? 2); [done|]. by destruct (o_ctl s =? 0).
    + destruct (Z.eqb_spec (o_ctl s) 2); [done|]. by destruct (o_ctl s =? 0).
  - destruct (Z.eqb_spec (o_ctl s) 0) as [H0|H0]; [|by eapply once_idle].
    destruct Hi as [Hc H1 Hb Ho Hh Hr H2 Hs Hz].
    assert (Hoth : forall u q, o_pc s !! u = Some q -> working q = false).
    { intros u q Hq. destruct (working q) eqn:W; [|done]. specialize (Hb u q Hq W). lia. }
    constructor; cbn [at_pc o_ctl o_pc o_done o_started].
    + lia.
    + intros u v q1 q2 [[-> ->]|[Hu E1]]%pc_cases [[-> ->]|[Hv E2]]%pc_cases W1 W2; [done| | |].
      * by rewrite (Hoth v q2) in W2.
      * by rewrite (Hoth u q1) in W1.
      * by rewrite (Hoth u q1) in W1.
    + done.
    + intros _. exists t, OPush. by rewrite lookup_insert_eq.
    + intros u [[-> E]|[Hu E]]%pc_cases; [done|by eapply Hh].
    + intros u [[-> E]|[Hu E]]%pc_cases; [done|]. specialize (Hr u E). lia.
    + done.
    + intros u [[-> E]|[Hu E]]%pc_cases; [done|by eapply Hs].
    + intros _ Hno. apply Hz; [lia|]. intros u E. specialize (Hoth u _ E). done.
  - by eapply once_idle.
  - by eapply once_idle.
  - assert (Hd : o_done s = 0%nat).
    { apply (oi_zero s Hi); [by rewrite (oi_busy s Hi t _ Ht eq_refl)|]. intros u E.
      assert (u = t) as -> by (by eapply (oi_one s Hi)). congruence. }
    rewrite Hd, (oi_busy s Hi t _ Ht eq_refl). apply (once_work s t OPush); [done|done|done|done|done|by split|done].
  - assert (Hd : o_done s = 0%nat).
    { apply (oi_zero s Hi); [by rewrite (oi_busy s Hi t _ Ht eq_refl)|]. intros u E.
      assert (u = t) as -> by (by eapply (oi_one s Hi)). congruence. }
    rewrite Hd, (oi_busy s Hi t _ Ht eq_refl). apply (once_work s t (ORun handler)); [done|done|done|done|done|by split|done].
  - assert (Hd : o_done s = 0%nat).
    { apply (oi_zero s Hi); [by rewrite (oi_busy s Hi t _ Ht eq_refl)|]. intros u E.
      assert (u = t) as -> by (by eapply (oi_one s Hi)). congruence. }
    destruct handler; [|by destruct (oi_handler s Hi t)].
    unfold pth_once_cleanup. rewrite Hd. apply (once_work s t (ORun true)); [done|done|done|by left|done|by split|done].
  - rewrite (oi_store s Hi t Ht). apply (once_work s t OStore); [done|done|done|by right|done|by split|done].
Qed.

Lemma once_reach_inv threads s : once_reach true threads s -> once_inv s.
Proof. induction 1 as [|s s' t e _ IH He Hs]; [apply once_start_inv|by eapply once_step_inv]. Qed.

(** C37: however the calls of any number of threads interleave, and however
    often one is cancelled in the constructor: at most one call is at work; the
    constructor returns at most once; and a call that has returned finds the
    control word 2, which stays so, with the constructor returned exactly
    once. *)
Theorem once_correct threads s : once_reach true threads s ->
  (forall t u p q, o_pc s !! t = Some p -> o_pc s !! u = Some q -> working p = true -> working q = true -> t = u) /\
  (o_done s <= 1)%nat /\
  (forall t, o_pc s !! t = Some ORet -> o_ctl s = 2 /\ o_done s = 1%nat) /\
  (o_ctl s = 2 -> forall t e s', e <> ONoMemory -> pth_once t e s = Some s' -> o_ctl s' = 2 /\ o_started s' = o_started s).
Proof.
  intros Hr. assert (Hi := once_reach_inv _ _ Hr). split_and!.
  - apply Hi.
  - destruct (decide (o_ctl s = 2)) as [E|E]; [by rewrite (oi_two s Hi E)|].
    destruct (decide (o_done s = 0%nat)) as [->|H0]; [lia|]. assert (o_done s = 1%nat) as ->; [|done].
    destruct (Exists_dec (fun t => o_pc s !! t = Some OStore) (elements (dom (o_pc s)))) as [Hex|Hno].
    + apply Exists_exists in Hex as (t & _ & Ht). by apply (oi_store s Hi t).
    + destruct H0. apply (oi_zero s Hi E). intros t Ht. apply Hno, Exists_exists. exists t. split; [|done].
      apply elem_of_elements, elem_of_dom. by eexists.
  - intros t Ht. assert (E := oi_ret s Hi t Ht). split; [done|]. by apply (oi_two s Hi).
  - intros E t e s' He. unfold pth_once. destruct (o_pc s !! t) as [p|] eqn:Ht; [|done].
    assert (W : working p = false).
    { destruct (working p) eqn:W; [|done]. assert (Hb := oi_busy s Hi t p Ht W). lia. }
    rewrite E. destruct p, e; try done; intros [= <-]; done.
Qed.

(** A thread runs alone for [n] steps. *)
Fixpoint run_alone (n : nat) (t : addr) (s : once) : once :=
  match n with O => s | S n => match pth_once t ONext s with Some s' => run_alone n t s' | None => s end end.
Lemma run_ret n t s : o_pc s !! t = Some ORet -> run_alone n t s = s.
Proof. intros H. destruct n; [done|]. cbn. unfold pth_once. by rewrite H. Qed.
Ltac once_go := cbn [run_alone pth_once at_pc o_pc o_ctl o_started o_done]; unfold pth_once;
  cbn [at_pc o_pc o_ctl o_started o_done]; rewrite ?lookup_insert_eq; cbn [at_pc o_pc o_ctl o_started o_done].

(** Nobody waits for ever: in every reachable state, a call that is not
    over returns within seven steps of its thread if no other call is at
    work, and otherwise the call at work does, the constructor returning. *)
Lemma once_returns threads s t p : once_reach true threads s -> o_pc s !! t = Some p -> p <> OGone ->
  (forall u q, o_pc s !! u = Some q -> working q = true -> u = t) -> o_pc (run_alone 7 t s) !! t = Some ORet.
Proof.
  intros Hr Ht Hg Hoth. assert (Hi := once_reach_inv _ _ Hr).
  assert (Hw : working p = true -> o_ctl s = 1) by (by apply (oi_busy s Hi t)).
  assert (Hc : working p = false -> o_ctl s = 0 \/ o_ctl s = 2).
  { intros W. destruct (oi_ctl s Hi) as [?|[E|?]]; [by left| |by right]. destruct (oi_owner s Hi E) as (u & q & Hq & Wq & _).
    assert (u = t) as -> by (by eapply Hoth). congruence. }
  destruct p; try done; cbn [run_alone]; unfold pth_once; rewrite Ht; cbn [at_pc o_pc o_ctl o_started o_done].
  1-3: destruct (Hc eq_refl) as [E|E]; rewrite ?E; cbn [Z.eqb Z.compare Pos.compare Pos.compare_cont].
  all: repeat (once_go; rewrite ?E; cbn [Z.eqb Z.compare Pos.compare Pos.compare_cont Pos.eqb]); rewrite ?lookup_insert_eq; try done.
Qed.

(** ** Concrete runs *)

(** Thread 1 wins, starts the constructor and is cancelled there; then thread 2
    wins. *)
Definition once_run (l : list (addr * oevent)) (s : once) : option once := foldl (fun o x => o ≫= pth_once x.1 x.2) (Some s) l.
Definition once_demo : list (addr * oevent) :=
  [(1, ONext); (2, ONext); (1, ONext); (1, ONext); (2, ONext); (1, OCancel); (2, ONext); (2, ONext); (2, ONext); (2, ONext)]%positive.
Lemma once_reach_run memory threads l s s' : once_reach memory threads s -> Forall (fun x => if memory then x.2 <> ONoMemory else True) l ->
  once_run l s = Some s' -> once_reach memory threads s'.
Proof.
  revert s. induction l as [|[t e] l IH]; intros s Hr Hl; cbn.
  - by intros [= <-].
  - apply Forall_cons in Hl as [He Hl]. destruct (pth_once t e s) as [s1|] eqn:E.
    + intros H. apply (IH s1); [by eapply once_next|done|exact H].
    + intros H. exfalso. clear -H. induction l as [|x l IH]; [done|]. by apply IH.
Qed.
Definition once_end : once := default (once_start []) (once_run once_demo (once_start [1; 2]%positive)).
Lemma once_end_reach : once_reach true [1; 2]%positive once_end.
Proof.
  apply (once_reach_run true [1; 2]%positive once_demo (once_start [1; 2]%positive)); [constructor|repeat constructor; discriminate|].
  vm_compute. reflexivity.
Qed.
Lemma once_correct_witness : o_pc once_end !! 2%positive = Some OStore /\ (o_done once_end <= 1)%nat.
Proof.
  destruct (once_correct [1; 2]%positive once_end once_end_reach) as (_ & H & _). split; [vm_compute; reflexivity|exact H].
Defined.
Lemma once_returns_witness : o_pc (run_alone 7 2 once_end) !! 2%positive = Some ORet.
Proof.
  apply (once_returns [1; 2]%positive once_end 2 OStore once_end_reach); [vm_compute; reflexivity|discriminate|].
  intros u q Hu W. apply (oi_one _ (once_reach_inv _ _ once_end_reach) u 2%positive q OStore); [exact Hu|vm_compute; reflexivity|exact W|reflexivity].
Defined.

(** The registration of the handler is not checked: without memory for it, a
    cancelled constructor leaves the control word at 1, and every other call
    waits for ever. *)
Lemma once_no_memory : exists s, once_reach false [1; 2]%positive s /\ o_ctl s = 1 /\ o_pc s !! 1%positive = Some OGone /\
  o_pc s !! 2%positive = Some OYield /\ once_run [(2, ONext); (2, ONext)]%positive s = Some s.
Proof.
  set (l := [(1, ONext); (1, ONext); (1, ONoMemory); (1, OCancel); (2, ONext)]%positive).
  exists (default (once_start []) (once_run l (once_start [1; 2]%positive))). split.
  - apply (once_reach_run false [1; 2]%positive l (once_start [1; 2]%positive)); [constructor|repeat constructor|vm_compute; reflexivity].
  - split_and!; vm_compute; reflexivity.
Qed.
