(* ===== verification/Pthread.v ===== *)
(** * The Pthread interface (src/pthread.c, lines 111-650 and 1087-1095)

    Attributes, threads, thread-specific data, cancellation and fork handlers
    in terms of the functions of the other components. The synchronization
    objects are in [Psync], [pthread_once] is in [Once]. The initialization of
    the library at the first call is not in the model. *)

From stdpp Require Import base numbers gmap list.
From S2P Require Import Prelude Links Util Data Clean Event Queues World Thread Attr Lib Fork Psync.
Open Scope Z_scope.

(** ** Attributes

    A [pthread_attr_t] of the user holds the address of the attribute
    object. *)
Record pats := Pats { pt_handle : gmap addr ptr; pt_attrs : attrs }.
Definition on_attrs {A : Type} (m : st attrs A) : st pats A := zoom pt_attrs (fun a s => Pats (pt_handle s) a) m.
Definition rd_attr_handle (h : addr) : st pats ptr := fun s => match pt_handle s !! h with Some p => Some (p, s) | None => None end.
Definition wr_attr_handle (h : addr) (p : ptr) : st pats unit := fun s => Some (tt, Pats (<[h := p]> (pt_handle s)) (pt_attrs s)).

Definition pthread_attr_init (alloc : ptr) (junk : pth_attr) (attr : ptr) : st pats prc :=
  match attr with
  | None => mret (RErr EINVAL)
  | Some h =>
      r ← on_attrs (pth_attr_new alloc junk);
      match r with
      | (Some _ as na, _) => wr_attr_handle h na;; mret ROk
      | (None, e) => mret (rc_of (false, e))
      end
  end.
Definition pthread_attr_destroy (attr : ptr) : st pats prc :=
  match attr with
  | None => mret (RErr EINVAL)
  | Some h =>
      na ← rd_attr_handle h;
      if bool_decide (na = NULL) then mret (RErr EINVAL) else
      on_attrs (pth_attr_destroy na);; wr_attr_handle h NULL;; mret ROk
  end.

Definition pthread_attr_setinheritsched := not_supported.
Definition pthread_attr_setschedparam := not_supported.
Definition pthread_attr_setschedpolicy := not_supported.
Definition pthread_attr_setscope := not_supported.
Definition get_not_supported (attr out : ptr) : prc := if bool_decide (attr = NULL) || bool_decide (out = NULL) then RErr EINVAL else RErr ENOSYS.
Definition pthread_attr_getinheritsched := get_not_supported.
Definition pthread_attr_getschedparam := get_not_supported.
Definition pthread_attr_getschedpolicy := get_not_supported.
Definition pthread_attr_getscope := get_not_supported.
Definition pthread_attr_setguardsize (attr : ptr) (size : Z) : prc := if bool_decide (attr = NULL) || (size <? 0) then RErr EINVAL else RErr ENOSYS.
Definition pthread_attr_getguardsize := get_not_supported.

(** Setting and getting an attribute of the object. A result is the return
    value with what is stored through the other argument, if it succeeds. *)
Definition attr_rc (r : ares) : prc := rc_of r.1.
Definition pattr_set (attr : ptr) (op : attr_op) (v : attr_val) : st pats prc :=
  match attr with
  | None => mret (RErr EINVAL)
  | Some h => na ← rd_attr_handle h; r ← on_attrs (pth_attr_set na op v); mret (attr_rc r)
  end.
Definition pattr_get (attr : ptr) (out : bool) (op : attr_op) : st pats (prc * option attr_val) :=
  match attr with
  | None => mret (RErr EINVAL, None)
  | Some h =>
      if negb out then mret (RErr EINVAL, None) else
      na ← rd_attr_handle h; r ← on_attrs (pth_attr_get na op); mret (attr_rc r, if (r.1.1 : bool) then r.2 else None)
  end.

Definition pthread_attr_setstacksize (attr : ptr) (stacksize : Z) : st pats prc := pattr_set attr PTH_ATTR_STACK_SIZE (VInt (u32 stacksize)).
(** An [unsigned int] is stored at the beginning of a [size_t] that contains
    [old]. *)
Definition pthread_attr_getstacksize (attr : ptr) (stacksize : option Z) : st pats (prc * option Z) :=
  r ← pattr_get attr (bool_decide (is_Some stacksize)) PTH_ATTR_STACK_SIZE;
  mret (r.1, match r.2, stacksize with Some (VInt v), Some old => Some (old - old mod 2 ^ 32 + u32 v) | _, _ => None end).
Definition pthread_attr_setstackaddr (attr stackaddr : ptr) : st pats prc := pattr_set attr PTH_ATTR_STACK_ADDR (VPtr stackaddr).
Definition pthread_attr_getstackaddr (attr : ptr) (out : bool) : st pats (prc * option attr_val) := pattr_get attr out PTH_ATTR_STACK_ADDR.
Definition PTHREAD_CREATE_DETACHED : Z := 1.
Definition PTHREAD_CREATE_JOINABLE : Z := 2.
Definition pthread_attr_setdetachstate (attr : ptr) (detachstate : Z) : st pats prc :=
  if bool_decide (attr = NULL) then mret (RErr EINVAL) else
  if detachstate =? PTHREAD_CREATE_DETACHED then pattr_set attr PTH_ATTR_JOINABLE (VInt 0)
  else if detachstate =? PTHREAD_CREATE_JOINABLE then pattr_set attr PTH_ATTR_JOINABLE (VInt 1)
  else mret (RErr EINVAL).
Definition pthread_attr_getdetachstate (attr : ptr) (out : bool) : st pats (prc * option Z) :=
  r ← pattr_get attr out PTH_ATTR_JOINABLE;
  mret (r.1, match r.2 with Some (VInt s) => Some (if s =? 1 then PTHREAD_CREATE_JOINABLE else PTHREAD_CREATE_DETACHED) | _ => None end).
(** [name]: the memory from the name on. *)
Definition pthread_attr_setname_np (attr : ptr) (name : option (list Z)) : st pats prc :=
  match name with None => mret (RErr EINVAL) | Some s => pattr_set attr PTH_ATTR_NAME (VStr s) end.
Definition pthread_attr_getname_np (attr : ptr) (out : bool) : st pats (prc * option attr_val) := pattr_get attr out PTH_ATTR_NAME.
Definition PTH_PRIO_MIN : Z := -5.
Definition PTH_PRIO_MAX : Z := 5.
Definition pthread_attr_setprio_np (attr : ptr) (prio : Z) : st pats prc :=
  if bool_decide (attr = NULL) || ((prio <? PTH_PRIO_MIN) || (prio >? PTH_PRIO_MAX)) then mret (RErr EINVAL)
  else pattr_set attr PTH_ATTR_PRIO (VInt prio).
Definition pthread_attr_getprio_np (attr : ptr) (out : bool) : st pats (prc * option attr_val) := pattr_get attr out PTH_ATTR_PRIO.

(** Detaching works on an attribute object that is bound to the thread. *)
Definition __pthread_detach (alloc : ptr) (junk : pth_attr) (thread : ptr) : st attrs prc :=
  match thread with
  | None => mret (RErr EINVAL)
  | Some _ =>
      r ← pth_attr_of alloc junk thread;
      match r with
      | (Some _ as na, _) =>
          b ← pth_attr_set na PTH_ATTR_JOINABLE (VInt 0);
          if (b.1.1 : bool) then pth_attr_destroy na;; mret ROk else mret (attr_rc b)
      | (None, e) => mret (rc_of (false, e))
      end
  end.

(** ** Threads *)

Definition PTHREAD_THREADS_MAX : Z := 10000.
Definition PTHREAD_CANCELED : Z := -1.

(** The scheduler of the next thread: [rr] is the counter after its
    increment, [ns] the number of schedulers. *)
Definition pthread_rr_next (rr ns : Z) : Z := if ns >? 1 then u32 rr mod u32 ns else 0.

Section threads.
Context {H U : Type} `{!QueueOps H, !CleanupOps H U, !SpawnOps U}.
Abbreviation wd := (world H U).
Context (self : addr) (malloc : gset addr -> ptr) (fcntl : Z -> Z * errno) (event_destructor : addr).

(** [tab]: the schedulers, [rr]: the counter before the call; the results are
    the return value, the thread that is stored, and the counter. *)
Definition pthread_create (tab : list addr) (rr : Z) (env : sysenv) (thread : bool) (attr : option pth_attr) (start_routine : start) (arg : ptr)
    : st wd (prc * ptr * Z) :=
  if negb thread || match start_routine with SNull => true | _ => false end then mret (RErr EINVAL, NULL, rr) else
  n ← pth_ctrl_threads PTH_CTRL_GETTHREADS;
  if n >=? PTHREAD_THREADS_MAX then mret (RErr EAGAIN, NULL, rr) else
  let ns := Z.of_nat (length tab) in
  let rr' := if ns >? 1 then i32 (rr + 1) else rr in
  r ← pth_spawn_on self malloc tab (pthread_rr_next rr' ns) env attr start_routine arg;
  mret (match r.1 with None => RErr EAGAIN | Some _ => ROk end, r.1, rr').

Definition pthread_self : st wd ptr := getg g_current.
Definition pthread_equal (t1 t2 : ptr) : bool := bool_decide (t1 = t2).
Definition pthread_yield_np : st wd (call prc) :=
  r ← pth_yield self malloc NULL; mret (match r with Ret _ _ => Ret ROk None | Switch => Switch | Exits => Exits end).

(** The result of a function that gives [FALSE] and [errno]. *)
Definition call_rc (r : call bool) : call prc :=
  match r with Ret b e => Ret (rc_of (b, e)) None | Switch => Switch | Exits => Exits end.
(** The value of the thread; a cancelled one has the same value as in Pth. *)
Definition join_rc (r : call (option Z)) : call (prc * option Z) :=
  match r with
  | Ret (Some v) _ => Ret (ROk, Some (if v =? PTH_CANCELED then PTHREAD_CANCELED else v)) None
  | Ret None e => Ret (rc_of (false, e), None) None
  | Switch => Switch | Exits => Exits
  end.
Definition pthread_join (ev_key : addr) (calloc_ok : bool) (thread : ptr) : st wd (call (prc * option Z)) :=
  r ← pth_join self malloc fcntl event_destructor ev_key calloc_ok thread; mret (join_rc r).
Definition pthread_kill (PTH_NSIG : Z) (sigact : Z -> option bool) (thread : ptr) (sig : Z) : st wd (call prc) :=
  r ← pth_raise self malloc PTH_NSIG sigact thread sig; mret (call_rc r).
Definition pthread_exit (cb : addr) (junk_arg : ptr) (junk_tv : Timeval.pth_time_t) (value : Z) : st wd exiting :=
  pth_exit malloc fcntl event_destructor cb junk_arg junk_tv value.
Definition pthread_abort (ev_key : addr) (calloc_ok : bool) (thread : ptr) : st wd (call prc) :=
  r ← pth_abort self malloc fcntl event_destructor ev_key calloc_ok thread; mret (call_rc r).

(** ** Cancellation *)

Definition pthread_cancel (thread : ptr) : st wd prc := r ← pth_cancel self malloc thread; mret (rc_of r).
Definition pthread_testcancel : st wd bool := pth_cancel_point.

Definition PTHREAD_CANCEL_ENABLE : Z := 1.
Definition PTHREAD_CANCEL_DISABLE : Z := 2.
Definition PTHREAD_CANCEL_ASYNCHRONOUS : Z := 1.
Definition PTHREAD_CANCEL_DEFERRED : Z := 2.
(** One of two bits is set and the other one cleared. *)
Definition pick (b on off s : Z) : Z := Z.land (Z.lor s (if b =? 1 then on else off)) (Z.lnot (if b =? 1 then off else on)).

(** [want]: the old state is stored; the result is what is stored there. *)
Definition pthread_setcancelstate (state : Z) (want : bool) : st wd (option Z) :=
  o ← (if want then os ← pth_cancel_state 0; mret (Some (if has os PTH_CANCEL_ENABLE then PTHREAD_CANCEL_ENABLE else PTHREAD_CANCEL_DISABLE))
       else mret None);
  (if state =? 0 then mret tt
   else s ← pth_cancel_state 0;
        pth_cancel_state (pick (if state =? PTHREAD_CANCEL_ENABLE then 1 else 0) PTH_CANCEL_ENABLE PTH_CANCEL_DISABLE s);; mret tt);;
  mret o.
Definition pthread_setcanceltype (type : Z) (want : bool) : st wd (option Z) :=
  o ← (if want then ot ← pth_cancel_state 0; mret (Some (if has ot PTH_CANCEL_DEFERRED then PTHREAD_CANCEL_DEFERRED else PTHREAD_CANCEL_ASYNCHRONOUS))
       else mret None);
  (if type =? 0 then mret tt
   else t ← pth_cancel_state 0;
        pth_cancel_state (pick (if type =? PTHREAD_CANCEL_DEFERRED then 1 else 0) PTH_CANCEL_DEFERRED PTH_CANCEL_ASYNCHRONOUS t);; mret tt);;
  mret o.
End threads.

Definition pthread_setschedparam : prc := RErr ENOSYS.
Definition pthread_getschedparam : prc := RErr ENOSYS.

(** The concurrency level is only remembered. *)
Definition pthread_getconcurrency (level : Z) : Z := level.
Definition pthread_setconcurrency (new_level level : Z) : prc * Z := if new_level <? 0 then (RErr EINVAL, level) else (ROk, new_level).

(** ** Thread-specific data and cleanup handlers *)

Section keys.
Context {U : Type}.
Definition pthread_key_create (key : bool) (destructor : ptr) : st (kstate U) (prc * option nat) :=
  r ← pth_key_create key destructor; mret (rc_of r.2, r.1).
Definition pthread_key_delete (key : Z) : st (kstate U) prc := r ← pth_key_delete key; mret (rc_of r).
Definition pthread_setspecific (calloc_ok : bool) (key : Z) (value : ptr) : st (kstate U) prc :=
  r ← pth_key_setdata calloc_ok key value; mret (rc_of r).
Definition pthread_getspecific (key : Z) : st (kstate U) ptr := r ← pth_key_getdata key; mret r.1.

Definition pthread_cleanup_push (malloc_ok : bool) (routine arg : ptr) : st (clst U) unit :=
  pth_cleanup_push malloc_ok routine arg;; mret tt.
Definition pthread_cleanup_pop (call : addr -> ptr -> clst U -> clst U) (execute : bool) : st (clst U) unit :=
  pth_cleanup_pop call execute;; mret tt.
End keys.

(** ** Handlers of fork

    The handlers of the user are called by three functions that get the entry
    of the table; the entries are numbered from 1. *)
Record pinfo := Pinfo { pi_prepare : ptr; pi_parent : ptr; pi_child : ptr }.
(** The three callback functions; a NULL handler is called, too. *)
Inductive pcb := CbPrepare | CbParent | CbChild.
Definition pthread_atfork_cb (cb : pcb) (i : pinfo) : option addr :=
  match cb with CbPrepare => pi_prepare i | CbParent => pi_parent i | CbChild => pi_child i end.
Definition cb_addr (cb : pcb) : addr := match cb with CbPrepare => 1 | CbParent => 2 | CbChild => 3 end%positive.

(** The table, and the handlers of [pth_fork]. *)
Definition pthread_atfork (i : pinfo) (s : list pinfo * list atfork) : prc * (list pinfo * list atfork) :=
  let '(info, l) := s in
  if Z.of_nat (length info) >? PTH_ATFORK_MAX - 1 then (RErr ENOMEM, s) else
  let info' := info ++ [i] in
  let h := Atfork (Some (cb_addr CbPrepare)) (Some (cb_addr CbParent)) (Some (cb_addr CbChild)) (Some (Pos.of_nat (length info'))) in
  let '(b, e, l') := pth_atfork_push h l in
  (rc_of (b, e), (info', l')).
