(* ===== verification/Pthreadspec.v ===== *)
(** * What the Pthread interface promises *)

From stdpp Require Import base numbers gmap list.
From S2P Require Import Prelude Links Timeval Util Data Event Queues World Thread Demo Attr Lib Fork Psync Pthread.
Open Scope Z_scope.

(** ** Cancellability

    Of each pair of flags exactly one is set. *)
Definition cancel_ok (c : Z) : Prop :=
  0 <= c < 16 /\ has c PTH_CANCEL_ENABLE = negb (has c PTH_CANCEL_DISABLE) /\
  has c PTH_CANCEL_ASYNCHRONOUS = negb (has c PTH_CANCEL_DEFERRED).
(** What a program sees of it. *)
Definition state_of (c : Z) : Z := if has c PTH_CANCEL_ENABLE then PTHREAD_CANCEL_ENABLE else PTHREAD_CANCEL_DISABLE.
Definition type_of (c : Z) : Z := if has c PTH_CANCEL_DEFERRED then PTHREAD_CANCEL_DEFERRED else PTHREAD_CANCEL_ASYNCHRONOUS.

Definition cancel_okb (c : Z) : bool :=
  eqb (has c PTH_CANCEL_ENABLE) (negb (has c PTH_CANCEL_DISABLE)) && eqb (has c PTH_CANCEL_ASYNCHRONOUS) (negb (has c PTH_CANCEL_DEFERRED)).
Definition new_state (st c : Z) : Z := u32 (pick (if st =? PTHREAD_CANCEL_ENABLE then 1 else 0) PTH_CANCEL_ENABLE PTH_CANCEL_DISABLE c).
Definition new_type (ty c : Z) : Z := u32 (pick (if ty =? PTHREAD_CANCEL_DEFERRED then 1 else 0) PTH_CANCEL_DEFERRED PTH_CANCEL_ASYNCHRONOUS c).

(** All sixteen values. *)
Lemma cancel_cases (P : Z -> bool) c : 0 <= c < 16 -> forallb P (seqZ 0 16) = true -> P c = true.
Proof. intros Hc H. rewrite forallb_forall in H. apply H, list_elem_of_In, elem_of_seqZ. lia. Qed.
Lemma cancel_okb_spec c : cancel_ok c <-> 0 <= c < 16 /\ cancel_okb c = true.
Proof. unfold cancel_ok, cancel_okb. rewrite andb_true_iff, !eqb_true_iff. tauto. Qed.

Lemma new_cancel_ok st c : cancel_ok c ->
  (cancel_ok (new_state st c) /\ state_of (new_state st c) = (if st =? PTHREAD_CANCEL_ENABLE then PTHREAD_CANCEL_ENABLE else PTHREAD_CANCEL_DISABLE) /\
   type_of (new_state st c) = type_of c) /\
  (cancel_ok (new_type st c) /\ type_of (new_type st c) = (if st =? PTHREAD_CANCEL_DEFERRED then PTHREAD_CANCEL_DEFERRED else PTHREAD_CANCEL_ASYNCHRONOUS) /\
   state_of (new_type st c) = state_of c).
Proof.
  rewrite !cancel_okb_spec. intros [Hc Hok].
  assert (H : forall b1 b2 : bool,
    let s := u32 (pick (if b1 then 1 else 0) PTH_CANCEL_ENABLE PTH_CANCEL_DISABLE c) in
    let t := u32 (pick (if b2 then 1 else 0) PTH_CANCEL_DEFERRED PTH_CANCEL_ASYNCHRONOUS c) in
    (negb (cancel_okb c) || ((0 <=? s) && (s <? 16) && cancel_okb s && (state_of s =? (if b1 then 1 else 2)) && (type_of s =? type_of c) &&
       (0 <=? t) && (t <? 16) && cancel_okb t && (type_of t =? (if b2 then 2 else 1)) && (state_of t =? state_of c))) = true).
  { intros b1 b2. apply (cancel_cases (fun c => let s := u32 (pick (if b1 then 1 else 0) PTH_CANCEL_ENABLE PTH_CANCEL_DISABLE c) in
      let t := u32 (pick (if b2 then 1 else 0) PTH_CANCEL_DEFERRED PTH_CANCEL_ASYNCHRONOUS c) in
      (negb (cancel_okb c) || ((0 <=? s) && (s <? 16) && cancel_okb s && (state_of s =? (if b1 then 1 else 2)) && (type_of s =? type_of c) &&
       (0 <=? t) && (t <? 16) && cancel_okb t && (type_of t =? (if b2 then 2 else 1)) && (state_of t =? state_of c)))) c Hc).
    destruct b1, b2; vm_compute; reflexivity. }
  specialize (H (st =? PTHREAD_CANCEL_ENABLE) (st =? PTHREAD_CANCEL_DEFERRED)). cbv zeta in H. rewrite Hok in H. cbn [negb orb] in H.
  rewrite !andb_true_iff, !Z.leb_le, !Z.ltb_lt, !Z.eqb_eq in H. unfold new_state, new_type. tauto.
Qed.

Section cancel.
Context {H U : Type}.
Abbreviation wd := (world H U).

(** The running thread with another cancellation state. *)
Definition with_cancel (t : addr) (x : tcb) (c : Z) (w : wd) : wd := set_tcb (<[t := set_cancelstate c x]> (w_tcb w)) w.
Definition running (w : wd) (t : addr) (x : tcb) : Prop := g_current (w_g w) = Some t /\ w_tcb w !! t = Some x.

Lemma cancel_state_ok n (w : wd) t x : running w t x ->
  pth_cancel_state n w = Some (t_cancelstate x, if n =? 0 then w else with_cancel t x (u32 n) w).
Proof.
  intros [Hc Hx]. unfold pth_cancel_state. rewrite (st_bind_Some _ _ _ x w).
  2:{ unfold cur_tcb. rewrite (st_bind_Some _ _ _ (Some t) w) by (unfold getg; by rewrite Hc). unfold rd_tcb. by rewrite Hx. }
  destruct (n =? 0); [done|]. rewrite (st_bind_Some _ _ _ tt (with_cancel t x (u32 n) w)); [done|].
  unfold upd_cur. rewrite (st_bind_Some _ _ _ (Some t) w) by (unfold getg; by rewrite Hc). unfold upd_tcb. by rewrite Hx.
Qed.

(** C38: a well-formed cancellation state, one flag of each pair, stays so: of
    the running thread, setting the state or the type gives the old one,
    changes that one as asked, where every value but the one for enabled (or
    deferred) counts as the opposite, and leaves the other one alone; zero
    changes nothing. *)
Theorem cancel_type_sound (w : wd) t x n want : running w t x -> cancel_ok (t_cancelstate x) ->
  let c := t_cancelstate x in
  (exists w', pthread_setcancelstate n want w = Some (if want then Some (state_of c) else None, w') /\
     if n =? 0 then w' = w
     else exists c', w' = with_cancel t x c' w /\ cancel_ok c' /\
       state_of c' = (if n =? PTHREAD_CANCEL_ENABLE then PTHREAD_CANCEL_ENABLE else PTHREAD_CANCEL_DISABLE) /\ type_of c' = type_of c) /\
  (exists w', pthread_setcanceltype n want w = Some (if want then Some (type_of c) else None, w') /\
     if n =? 0 then w' = w
     else exists c', w' = with_cancel t x c' w /\ cancel_ok c' /\
       type_of c' = (if n =? PTHREAD_CANCEL_DEFERRED then PTHREAD_CANCEL_DEFERRED else PTHREAD_CANCEL_ASYNCHRONOUS) /\ state_of c' = state_of c).
Proof.
  intros Hr Hok c. destruct (new_cancel_ok n c Hok) as [Hs Ht].
  assert (H0 : pth_cancel_state 0 w = Some (c, w)) by exact (cancel_state_ok 0 w t x Hr).
  assert (Hnz : forall p, cancel_ok (u32 p) -> (p =? 0) = false) by (intros p Hp; apply Z.eqb_neq; intros ->; by destruct Hp as (_ & ? & _)).
  split.
  - assert (E : pthread_setcancelstate n want w = Some (if want then Some (state_of c) else None, if n =? 0 then w else with_cancel t x (new_state n c) w)).
    { unfold pthread_setcancelstate. rewrite (st_bind_Some _ _ _ (if want then Some (state_of c) else None) w)
        by (destruct want; [by rewrite (st_bind_Some _ _ _ _ _ H0)|done]).
      destruct (n =? 0); [done|]. rewrite st_bind_assoc, (st_bind_Some _ _ _ _ _ H0), st_bind_assoc.
      rewrite (st_bind_Some _ _ _ _ _ (cancel_state_ok _ w t x Hr)). rewrite Hnz by apply Hs. done. }
    rewrite E. eexists. split; [reflexivity|]. destruct (n =? 0); [done|]. by exists (new_state n c).
  - assert (E : pthread_setcanceltype n want w = Some (if want then Some (type_of c) else None, if n =? 0 then w else with_cancel t x (new_type n c) w)).
    { unfold pthread_setcanceltype. rewrite (st_bind_Some _ _ _ (if want then Some (type_of c) else None) w)
        by (destruct want; [by rewrite (st_bind_Some _ _ _ _ _ H0)|done]).
      destruct (n =? 0); [done|]. rewrite st_bind_assoc, (st_bind_Some _ _ _ _ _ H0), st_bind_assoc.
      rewrite (st_bind_Some _ _ _ _ _ (cancel_state_ok _ w t x Hr)). rewrite Hnz by apply Ht. done. }
    rewrite E. eexists. split; [reflexivity|]. destruct (n =? 0); [done|]. by exists (new_type n c).
Qed.
End cancel.

(** ** New threads are spread over the schedulers *)

(** The scheduler of a new thread exists, whatever the counter, also when it
    wraps around. *)
Lemma rr_in_range rr (tab : list addr) : tab <> [] -> Z.of_nat (length tab) < 2 ^ 31 ->
  0 <= pthread_rr_next rr (Z.of_nat (length tab)) < Z.of_nat (length tab).
Proof.
  intros Hn Hl. assert (0 < Z.of_nat (length tab)) by (destruct tab; [done|cbn; lia]). unfold pthread_rr_next.
  destruct (Z.gtb_spec (Z.of_nat (length tab)) 1); [|lia]. rewrite (u32_small (Z.of_nat _)) by lia. apply Z.mod_pos_bound. lia.
Qed.
(** Of as many threads in a row as there are schedulers, each gets one. *)
Lemma rr_spreads rr ns : 1 < ns < 2 ^ 31 -> 0 <= rr -> rr + ns < 2 ^ 31 ->
  forall sid, 0 <= sid < ns -> exists i, 0 <= i < ns /\ pthread_rr_next (rr + i) ns = sid.
Proof.
  intros Hns Hrr Hw sid Hs. exists ((sid - rr) mod ns). pose proof (Z.mod_pos_bound (sid - rr) ns). split; [lia|].
  unfold pthread_rr_next. destruct (Z.gtb_spec ns 1); [|lia]. rewrite (u32_small ns), u32_small by lia.
  rewrite Zplus_mod_idemp_r. replace (rr + (sid - rr)) with sid by lia. by apply Z.mod_small.
Qed.

(** ** Concrete runs *)

(** Thread 12 runs, enabled and deferred. *)
Definition demo_w12 : dworld := set_g (set_current (Some 12%positive) demo_g) demo_w0.
Definition demo_x12 : tcb := demo_tcb 2 PTH_STATE_READY PTH_CANCEL_DEFAULT true.
Lemma cancel_type_sound_witness :
  exists w', pthread_setcancelstate PTHREAD_CANCEL_DISABLE true demo_w12 = Some (Some PTHREAD_CANCEL_ENABLE, w') /\
    exists c', w' = with_cancel 12 demo_x12 c' demo_w12 /\ state_of c' = PTHREAD_CANCEL_DISABLE.
Proof.
  destruct (cancel_type_sound demo_w12 12 demo_x12 PTHREAD_CANCEL_DISABLE true) as [(w' & E & c' & Hw & _ & Hs & _) _].
  - split; reflexivity.
  - split_and!; [discriminate|reflexivity|reflexivity|reflexivity].
  - exists w'. split; [exact E|]. exists c'. split; [exact Hw|exact Hs].
Defined.
(** A value that is neither of the two constants is not refused. *)
Lemma setcancelstate_accepts : exists c' : Z, pthread_setcancelstate 77 false demo_w12 = Some (None, with_cancel 12 demo_x12 c' demo_w12) /\
  state_of c' = PTHREAD_CANCEL_DISABLE.
Proof. eexists. split; [vm_compute; reflexivity|reflexivity]. Qed.

(** The upper half of the size that is got is what was there before. *)
Definition demo_pats : pats := Pats {[5%positive := Some 6%positive]}
  (Attrs {[6%positive := Attr NULL 0 0 [] 1 PTH_CANCEL_DEFAULT 65536 NULL]} ∅).
Lemma getstacksize_half :
  fst <$> pthread_attr_getstacksize (Some 5%positive) (Some (2 ^ 40 + 7)) demo_pats = Some (ROk, Some (2 ^ 40 + 65536)).
Proof. vm_compute. reflexivity. Qed.
(** A size of 4 GB is set as zero. *)
Lemma setstacksize_wraps : exists s, pthread_attr_setstacksize (Some 5%positive) (2 ^ 32) demo_pats = Some (ROk, s) /\
  a_stacksize <$> at_attr (pt_attrs s) !! 6%positive = Some 0.
Proof. eexists. split; vm_compute; reflexivity. Qed.

(** A NULL handler is accepted, and the callback calls it. *)
Lemma atfork_null : exists s, pthread_atfork (Pinfo NULL (Some 9%positive) NULL) ([], []) = (ROk, s) /\
  pthread_atfork_cb CbPrepare <$> s.1 !! 0%nat = Some None /\ af_prepare <$> s.2 !! 0%nat = Some (Some (cb_addr CbPrepare)).
Proof. eexists. split_and!; reflexivity. Qed.
(** If [pth_atfork_push] fails, the entry of the table is not given back. *)
Lemma atfork_leaks : exists s, pthread_atfork (Pinfo NULL NULL NULL) ([], replicate 128 (Atfork NULL NULL NULL NULL)) = (RErr ENOMEM, s) /\ length s.1 = 1%nat.
Proof. eexists. split; vm_compute; reflexivity. Qed.
