(* ===== verification/Selectset.v ===== *)
(** * The select(2) backend of the event manager (src/pth_sched.c, lines
      2138-2593)

    Three sets of descriptors and the greatest member. When select(2) fails,
    each event is checked again with a call for its descriptors alone, for
    which the three sets serve as scratch memory. *)

From stdpp Require Import base numbers gmap list.
From S2P Require Import Prelude Timeval Util Event Queues World Thread Evman Evstep Highsel Highspec.
Open Scope Z_scope.

Abbreviation fds3 := (option fd_set * option fd_set * option fd_set)%type.

(** select(2) with the number of descriptors, the sets and the time to wait,
    [None] for ever: the result, [errno], the new sets and the time that is
    left. Interruptions in a row are bounded by [sy_patience]. *)
Class SelectSys (K : Type) := {
  sy_select : Z -> fds3 -> option pth_time_t -> K -> Z * errno * (fds3 * option pth_time_t) * K;
  sy_patience : K -> nat
}.

(** [rfds], [wfds], [efds], [fdmax] and the system. *)
Record selset (K : Type) := Selset { ss_r : fd_set; ss_w : fd_set; ss_e : fd_set; ss_max : Z; ss_k : K }.
Arguments Selset {K}. Arguments ss_r {K}. Arguments ss_w {K}. Arguments ss_e {K}. Arguments ss_max {K}. Arguments ss_k {K}.

Section backend.
Context {K : Type} `{!SelectSys K}.
Abbreviation ss := (selset K).

Definition FD_CLR (fd : Z) (x : fd_set) : option fd_set := if (0 <=? fd) && (fd <? FD_SETSIZE) then Some (x ∖ {[fd]}) else None.
Definition set_sets (r w e : fd_set) (s : ss) : ss := Selset r w e (ss_max s) (ss_k s).
Definition fd_zero : st ss unit := fun s => Some (tt, set_sets ∅ ∅ ∅ s).
Definition set_fdmax (fd : Z) : st ss unit :=
  fun s => Some (tt, Selset (ss_r s) (ss_w s) (ss_e s) (if ss_max s <? fd then fd else ss_max s) (ss_k s)).

(** What an event asks for is put into the sets. *)
Definition sel_add (goal fd : Z) : st ss unit := fun s =>
  r ← fd_set_if (has goal PTH_UNTIL_FD_READABLE) fd (ss_r s);
  w ← fd_set_if (has goal PTH_UNTIL_FD_WRITEABLE) fd (ss_w s);
  e ← fd_set_if (has goal PTH_UNTIL_FD_EXCEPTION) fd (ss_e s);
  Some (tt, set_sets r w e s).
Definition sel_want_fd (goal fd : Z) : st ss unit := sel_add goal fd;; set_fdmax fd.
Definition sel_want_sets (nfd : Z) (r w e : option fd_set) : st ss unit :=
  (fun s => let o := pth_util_fds_merge nfd r (ss_r s) w (ss_w s) e (ss_e s) in Some (tt, set_sets o.1.1 o.1.2 o.2 s));;
  set_fdmax (nfd - 1).
(** The read end of the signal pipe. *)
Definition sel_commit (sigpipe : Z) : st ss unit := sel_add PTH_UNTIL_FD_READABLE sigpipe;; set_fdmax sigpipe.

(** The call is repeated while it is interrupted, with what is left of its
    arguments. *)
Fixpoint sel_loop (fuel : nat) (nfd : Z) (v : fds3 * option pth_time_t) : st K (Z * fds3) := fun k =>
  let '(n, e, v', k') := sy_select nfd v.1 v.2 k in
  if (n <? 0) && bool_decide (e = EINTR) then match fuel with O => None | S f => sel_loop f nfd v' k' end
  else Some ((n, v'.1), k').
Definition sel_call (nfd : Z) (v : fds3) (t : option pth_time_t) : st K (Z * fds3) :=
  fun k => sel_loop (sy_patience k) nfd (v, t) k.
Definition on_kernel {A : Type} (m : st K A) : st ss A := zoom ss_k (fun k s => Selset (ss_r s) (ss_w s) (ss_e s) (ss_max s) k) m.

(** A call for the three sets. *)
Definition store_sets (v : fds3) : st ss unit := fun s => Some (tt, set_sets (default ∅ v.1.1) (default ∅ v.1.2) (default ∅ v.2) s).
Definition sel_sets (nfd : Z) (t : option pth_time_t) : st ss Z :=
  s ← (get_st : st ss ss);
  r ← on_kernel (sel_call nfd (Some (ss_r s), Some (ss_w s), Some (ss_e s)) t);
  store_sets r.2;;
  mret r.1.

Definition sel_wait (dopoll : bool) (delay : option pth_time_t) : st ss Z :=
  s ← (get_st : st ss ss);
  if negb (dopoll && (ss_max s =? -1)) then sel_sets (ss_max s + 1) (if dopoll then Some pth_time_zero else delay)
  else mret (-1).

(** The signal pipe is taken out of the result; after an error or a timeout
    the sets are empty. *)
Definition sel_adjust (dopoll : bool) (sigpipe rc : Z) : st ss Z := fun s =>
  c ← (if negb dopoll && (rc >? 0) then FD_ISSET sigpipe (ss_r s) else Some false);
  r ← (if (c : bool) then FD_CLR sigpipe (ss_r s) else Some (ss_r s));
  let rc := if (c : bool) then rc - 1 else rc in
  Some (rc, if rc <=? 0 then set_sets ∅ ∅ ∅ s else set_sets r (ss_w s) (ss_e s) s).

(** Has a descriptor the result that an event asks for? *)
Definition fd_hit (b : bool) (fd : Z) (x : fd_set) : option bool := if b then FD_ISSET fd x else Some false.
Definition sel_hit (goal fd : Z) (s : ss) : option bool :=
  r ← fd_hit (has goal PTH_UNTIL_FD_READABLE) fd (ss_r s);
  w ← (if (r : bool) then Some true else fd_hit (has goal PTH_UNTIL_FD_WRITEABLE) fd (ss_w s));
  if (w : bool) then Some true else fd_hit (has goal PTH_UNTIL_FD_EXCEPTION) fd (ss_e s).
Definition sel_clear (fd : Z) : st ss unit := fun s =>
  r ← FD_CLR fd (ss_r s); w ← FD_CLR fd (ss_w s); e ← FD_CLR fd (ss_e s); Some (tt, set_sets r w e s).
Definition sel_late_fd (rc goal fd : Z) : st ss pth_status :=
  h ← (fun s => match sel_hit goal fd s with Some b => Some (b, s) | None => None end);
  if (h : bool) then mret PTH_STATUS_OCCURRED
  else if rc <? 0 then
    sel_add goal fd;;
    rc2 ← sel_sets (fd + 1) (Some pth_time_zero);
    if rc2 >? 0 then sel_clear fd;; mret PTH_STATUS_PENDING
    else if rc2 <? 0 then fd_zero;; mret PTH_STATUS_FAILED
    else mret PTH_STATUS_PENDING
  else mret PTH_STATUS_PENDING.

Definition sel_late_sets (rc nfd : Z) (r w e : option fd_set)
    : st ss (pth_status * Z * (option fd_set * option fd_set * option fd_set)) :=
  s ← (get_st : st ss ss);
  if pth_util_fds_test nfd r (ss_r s) w (ss_w s) e (ss_e s) then
    let x := pth_util_fds_select nfd r (ss_r s) w (ss_w s) e (ss_e s) in mret (PTH_STATUS_OCCURRED, x.1, x.2)
  else if rc <? 0 then
    rc2 ← on_kernel (sel_call (nfd + 1) (r, w, e) (Some pth_time_zero));
    mret (if rc2.1 <? 0 then PTH_STATUS_FAILED else PTH_STATUS_PENDING, 0, (r, w, e))
  else mret (PTH_STATUS_PENDING, 0, (r, w, e)).

#[export] Instance select_backend : FdBackend ss := {|
  fb_begin := fun s => Some (tt, Selset ∅ ∅ ∅ (-1) (ss_k s));
  fb_want_fd := sel_want_fd;
  fb_want_sets := sel_want_sets;
  fb_commit _ := sel_commit;
  fb_wait := sel_wait;
  fb_adjust := sel_adjust;
  fb_late_fd := sel_late_fd;
  fb_late_sets := sel_late_sets
|}.
End backend.

(** The event manager that waits with select(2). *)
Definition pth_sched_eventmanager_select {H U K : Type} `{!QueueOps H, !CleanupOps H U, !PortOps U, !SelectSys K} (self : addr)
    (malloc : gset addr -> ptr) (PTH_NSIG sigpipe : Z) (now : pth_time_t) (dopoll : bool) (ps : list pass)
    : st (emst H U (selset K)) (option pth_time_t) :=
  eventmanager self malloc PTH_NSIG sigpipe now dopoll ps.

(** ** The laws of the system *)

Definition no_sets (v : fds3) : Prop := default ∅ v.1.1 = (∅ : fd_set) /\ default ∅ v.1.2 = (∅ : fd_set) /\ default ∅ v.2 = (∅ : fd_set).
Class SelectLaws (K : Type) `{!SelectSys K} := {
  sl_select : forall nfd v t k n er v' k', sy_select nfd v t k = (n, er, v', k') ->
    (n < 0 -> v'.1 = v) /\ (0 <= n -> part3 v'.1 v) /\ (n = 0 -> no_sets v'.1) /\
    (n < 0 -> er = EINTR -> (sy_patience k' < sy_patience k)%nat)
}.

(** What an event asks for: a descriptor for a goal, or the descriptors of
    sets. *)
Inductive watch := WFd (goal fd : Z) | WSets (nfd : Z) (r w e : option fd_set).
Definition fd_valid (fd : Z) : Prop := 0 <= fd < FD_SETSIZE.
Definition watch_ok (x : watch) : Prop :=
  match x with WFd _ fd => fd_valid fd | WSets nfd _ _ _ => nfd <= FD_SETSIZE end.
(** Its descriptors for one of the three goals. *)
Definition asks (goal : Z) (pick : fds3 -> option fd_set) (x : watch) : fd_set :=
  match x with
  | WFd g fd => if has g goal then {[fd]} else ∅
  | WSets nfd r w e => default ∅ (pick (r, w, e)) ∩ fd_range 0 (Z.to_nat nfd)
  end.
Abbreviation asks_r := (asks PTH_UNTIL_FD_READABLE (fun v => v.1.1)).
Abbreviation asks_w := (asks PTH_UNTIL_FD_WRITEABLE (fun v => v.1.2)).
Abbreviation asks_e := (asks PTH_UNTIL_FD_EXCEPTION snd).

Section laws.
Context {K : Type} `{!SelectSys K, !SelectLaws K}.
Abbreviation ss := (selset K).

Lemma FD_CLR_ok fd x : fd_valid fd -> FD_CLR fd x = Some (x ∖ {[fd]}).
Proof. intros H. unfold FD_CLR. rewrite (proj2 (Z.leb_le _ _)), (proj2 (Z.ltb_lt _ _)) by apply H. done. Qed.
Lemma fd_hit_ok b fd x : fd_valid fd -> fd_hit b fd x = Some (b && fd_in fd x).
Proof. intros H. destruct b; [by apply FD_ISSET_ok|done]. Qed.

(** A call returns. *)
Lemma sel_loop_ok nfd v k f : (sy_patience k <= f)%nat -> exists n v' k', sel_loop f nfd v k = Some ((n, v'), k') /\
  (n < 0 -> v' = v.1) /\ (0 <= n -> part3 v' v.1) /\ (n = 0 -> no_sets v').
Proof.
  revert v k. induction f as [|f IH]; intros v k Hf; cbn [sel_loop]; destruct (sy_select _ _ _ k) as [[[n e] v'] k'] eqn:E;
    destruct (sl_select _ _ _ _ _ _ _ _ E) as (Hs & Hp & H0 & Hi);
    (destruct (Z.ltb_spec n 0) as [Hn|Hn]; cbn [andb]; [|by exists n, v'.1, k']); bcase (e = EINTR) He;
    try (by exists n, v'.1, k'); specialize (Hi Hn He); [lia|].
  destruct (IH v' k') as (n2 & v2 & k2 & E2 & H2); [lia|]. exists n2, v2, k2. split; [exact E2|]. by rewrite <- (Hs Hn).
Qed.
Lemma sel_call_ok nfd v t k : exists n v' k', sel_call nfd v t k = Some ((n, v'), k') /\
  (n < 0 -> v' = v) /\ (0 <= n -> part3 v' v) /\ (n = 0 -> no_sets v').
Proof. by apply (sel_loop_ok nfd (v, t)). Qed.
Lemma sel_sets_ok nfd t (s : ss) : exists n r w e k,
  sel_call nfd (Some (ss_r s), Some (ss_w s), Some (ss_e s)) t (ss_k s) = Some ((n, (Some r, Some w, Some e)), k) /\
  sel_sets nfd t s = Some (n, Selset r w e (ss_max s) k) /\
  r ⊆ ss_r s /\ w ⊆ ss_w s /\ e ⊆ ss_e s /\ (n = 0 -> r = ∅ /\ w = ∅ /\ e = ∅).
Proof.
  destruct (sel_call_ok nfd (Some (ss_r s), Some (ss_w s), Some (ss_e s)) t (ss_k s)) as (n & v & k & E & Hn & Hp & H0).
  assert (Hv : exists r w e, v = (Some r, Some w, Some e) /\ r ⊆ ss_r s /\ w ⊆ ss_w s /\ e ⊆ ss_e s).
  { destruct (decide (n < 0)) as [H|H]; [rewrite (Hn H); eauto 10|].
    assert (Hp' : part3 v (Some (ss_r s), Some (ss_w s), Some (ss_e s))) by (apply Hp; lia). clear Hp. destruct Hp' as (P1 & P2 & P3).
    destruct v as [[[r|] [w|]] [e|]]; try done. eauto 10. }
  destruct Hv as (r & w & e & -> & Hr & Hw & He). exists n, r, w, e, k. split_and!; try done.
  unfold sel_sets. rewrite (st_bind_Some get_st _ s s s eq_refl).
  erewrite st_bind_Some by (unfold on_kernel, zoom; rewrite E; reflexivity). done.
Qed.

Lemma sel_add_ok goal fd (s : ss) : fd_valid fd -> sel_add goal fd s =
  Some (tt, set_sets (asks_r (WFd goal fd) ∪ ss_r s) (asks_w (WFd goal fd) ∪ ss_w s) (asks_e (WFd goal fd) ∪ ss_e s) s).
Proof.
  intros H. unfold sel_add, asks. rewrite !fd_set_if_ok by done. cbn. by repeat case_match; rewrite ?(left_id_L ∅ (∪)).
Qed.

(** One event is added. *)
Definition watch_st (x : watch) : st ss unit :=
  match x with WFd goal fd => fb_want_fd goal fd | WSets nfd r w e => fb_want_sets nfd r w e end.
Definition top (x : watch) : Z := match x with WFd _ fd => fd | WSets nfd _ _ _ => nfd - 1 end.
Lemma watch_st_ok x (s : ss) : watch_ok x -> watch_st x s =
  Some (tt, Selset (asks_r x ∪ ss_r s) (asks_w x ∪ ss_w s) (asks_e x ∪ ss_e s) (Z.max (ss_max s) (top x)) (ss_k s)).
Proof.
  intros Hx. destruct x as [goal fd|nfd r w e]; cbn [watch_st fb_want_fd fb_want_sets select_backend].
  - unfold sel_want_fd. rewrite (st_bind_Some _ _ _ _ _ (sel_add_ok goal fd s Hx)). unfold set_fdmax. cbn. do 3 f_equal.
    destruct (Z.ltb_spec (ss_max s) fd); lia.
  - unfold sel_want_sets. destruct (fds_loops_correct nfd r (ss_r s) w (ss_w s) e (ss_e s)) as (_ & _ & E).
    erewrite st_bind_Some by (rewrite E; reflexivity). unfold set_fdmax, asks. cbn. rewrite !(comm_L (∪) (_ ∩ _)). do 3 f_equal.
    destruct (Z.ltb_spec (ss_max s) (nfd - 1)); lia.
Qed.

(** ** The verdicts *)

(** A descriptor that the event asks for is in the result. *)
Definition ready (r w e : fd_set) (x : watch) : bool := negb (bool_decide (asks_r x ∩ r ∪ asks_w x ∩ w ∪ asks_e x ∩ e = ∅)).
(** The reference for the check after an error: a call for the event alone. *)
Definition recheck (x : watch) : st K pth_status :=
  v ← match x with
      | WFd _ fd => sel_call (fd + 1) (Some (asks_r x), Some (asks_w x), Some (asks_e x)) (Some pth_time_zero)
      | WSets nfd r w e => sel_call (nfd + 1) (r, w, e) (Some pth_time_zero)
      end;
  mret (if v.1 <? 0 then PTH_STATUS_FAILED else PTH_STATUS_PENDING).
(** What the cleanup loop does for one event. *)
Definition late_st (rc : Z) (x : watch) : st ss pth_status :=
  match x with
  | WFd goal fd => fb_late_fd rc goal fd
  | WSets nfd r w e => v ← fb_late_sets rc nfd r w e; mret v.1.1
  end.

Lemma sel_hit_ok goal fd (s : ss) : fd_valid fd -> sel_hit goal fd s = Some (ready (ss_r s) (ss_w s) (ss_e s) (WFd goal fd)).
Proof.
  intros H. unfold sel_hit. rewrite !fd_hit_ok by done. cbn [mbind option_bind].
  assert (Hb : forall (b : bool) (o : fd_set), ((if b then {[fd]} else ∅) : fd_set) ∩ o = if b && fd_in fd o then {[fd]} else ∅).
  { intros b o. unfold fd_in. destruct b; cbn [andb]; [|set_solver]. case_bool_decide; set_solver. }
  unfold ready, asks. rewrite !Hb. repeat case_match; cbn [mbind option_bind] in *; rewrite ?fd_hit_ok in * by done; simplify_eq;
    symmetry; f_equal; rewrite ?negb_true_iff, ?negb_false_iff, ?bool_decide_eq_true, ?bool_decide_eq_false; set_solver.
Qed.
Lemma test_ready nfd r w e (s : ss) : pth_util_fds_test nfd r (ss_r s) w (ss_w s) e (ss_e s) = ready (ss_r s) (ss_w s) (ss_e s) (WSets nfd r w e).
Proof.
  unfold ready, asks, pth_util_fds_test. apply eq_true_iff_eq. rewrite test_from_ok, negb_true_iff, bool_decide_eq_false.
  cbn [fst snd]. assert (Hs : forall i (o : fd_set) (x : fd_set), sp_hits x i o = default ∅ i ∩ x ∩ o) by (intros [i|] o x; cbn; set_solver).
  rewrite !Hs. split; [intros [x Hx] E; set_solver|]. intros Hn. by apply set_choose_L in Hn.
Qed.
Lemma ready_empty x : ready ∅ ∅ ∅ x = false.
Proof. unfold ready. apply negb_false_iff, bool_decide_eq_true. set_solver. Qed.

(** After a call that did not fail. *)
Lemma late_ready rc x (s : ss) : 0 <= rc -> watch_ok x ->
  late_st rc x s = Some (if ready (ss_r s) (ss_w s) (ss_e s) x then PTH_STATUS_OCCURRED else PTH_STATUS_PENDING, s).
Proof.
  intros Hrc Hx. assert (Hlt : (rc <? 0) = false) by (by apply Z.ltb_ge).
  destruct x as [goal fd|nfd r w e]; cbn [late_st fb_late_fd fb_late_sets select_backend].
  - unfold sel_late_fd. erewrite st_bind_Some by (rewrite (sel_hit_ok goal fd s Hx); reflexivity). rewrite Hlt. by destruct (ready _ _ _ _).
  - unfold sel_late_sets, mbind, st_bind, get_st. rewrite test_ready, Hlt. by destruct (ready _ _ _ _).
Qed.

Definition empty_sets (s : ss) : Prop := ss_r s = ∅ /\ ss_w s = ∅ /\ ss_e s = ∅.

(** After a call that failed: the verdict is that of a call for the event
    alone, and the sets are empty again. *)
Lemma late_failed rc x (s : ss) : rc < 0 -> watch_ok x -> empty_sets s ->
  exists v k, recheck x (ss_k s) = Some (v, k) /\ late_st rc x s = Some (v, Selset ∅ ∅ ∅ (ss_max s) k).
Proof.
  intros Hrc Hx (Er & Ew & Ee). assert (Hlt : (rc <? 0) = true) by (by apply Z.ltb_lt).
  destruct x as [goal fd|nfd r w e]; cbn [late_st fb_late_fd fb_late_sets select_backend recheck].
  - unfold sel_late_fd. erewrite st_bind_Some by (rewrite (sel_hit_ok goal fd s Hx), Er, Ew, Ee, ready_empty; reflexivity). rewrite Hlt.
    rewrite (st_bind_Some _ _ _ _ _ (sel_add_ok goal fd s Hx)), Er, Ew, Ee, !(right_id_L ∅ (∪)).
    destruct (sel_sets_ok (fd + 1) (Some pth_time_zero) (set_sets (asks_r (WFd goal fd)) (asks_w (WFd goal fd)) (asks_e (WFd goal fd)) s))
      as (n & r & w & e & k & E & E2 & Hr & Hw & He & H0).
    rewrite (st_bind_Some _ _ _ _ _ E2). clear E2.
    cbn [set_sets ss_r ss_w ss_e ss_max ss_k] in *.
    assert (Hsub : forall (b : bool) (y : fd_set), y ⊆ (if b then {[fd]} else ∅) -> y ∖ {[fd]} = ∅) by (intros [] y; set_solver).
    eexists _, k. split; [unfold recheck; erewrite st_bind_Some by exact E; reflexivity|]. cbn [fst].
    destruct (Z.gtb_spec n 0) as [Hn|Hn].
    + rewrite (proj2 (Z.ltb_ge n 0)) by lia. unfold sel_clear, mbind, st_bind. cbn [ss_r ss_w ss_e].
      rewrite !FD_CLR_ok by done. cbn. by rewrite (Hsub _ _ Hr), (Hsub _ _ Hw), (Hsub _ _ He).
    + destruct (Z.ltb_spec n 0) as [Hm|Hm]; [done|]. destruct H0 as (-> & -> & ->); [lia|]. done.
  - destruct (sel_call_ok (nfd + 1) (r, w, e) (Some pth_time_zero) (ss_k s)) as (n & v & k & E & _).
    eexists _, k. split; [unfold recheck; erewrite st_bind_Some by exact E; reflexivity|].
    unfold sel_late_sets. unfold mbind, st_bind, get_st, on_kernel, zoom. rewrite test_ready, Er, Ew, Ee, ready_empty, Hlt, E. cbn. by rewrite Er, Ew, Ee.
Qed.

(** All events of a pass. *)
Fixpoint watch_all (l : list watch) : st ss unit := match l with [] => mret tt | x :: l' => watch_st x;; watch_all l' end.
Fixpoint late_all (rc : Z) (l : list watch) : st ss (list pth_status) :=
  match l with [] => mret [] | x :: l' => v ← late_st rc x; vs ← late_all rc l'; mret (v :: vs) end.
Fixpoint recheck_all (l : list watch) : st K (list pth_status) :=
  match l with [] => mret [] | x :: l' => v ← recheck x; vs ← recheck_all l'; mret (v :: vs) end.
Definition all_asks (f : watch -> fd_set) (l : list watch) : fd_set := ⋃ (f <$> l).

Lemma watch_all_ok l (s : ss) : Forall watch_ok l -> exists m, watch_all l s =
    Some (tt, Selset (all_asks asks_r l ∪ ss_r s) (all_asks asks_w l ∪ ss_w s) (all_asks asks_e l ∪ ss_e s) m (ss_k s)) /\
  ss_max s <= m /\ (ss_max s < FD_SETSIZE -> m < FD_SETSIZE) /\ Forall (fun x => top x <= m) l.
Proof.
  intros Hl. revert s. induction Hl as [|x l Hx Hl IH]; intros s; cbn [watch_all].
  - exists (ss_max s). unfold all_asks. cbn. rewrite !(left_id_L ∅ (∪)). destruct s. split_and!; [done|cbn; lia|done|done].
  - rewrite (st_bind_Some _ _ _ _ _ (watch_st_ok x s Hx)). edestruct IH as (m & -> & H1 & H2 & H3). exists m. cbn [ss_r ss_w ss_e ss_max ss_k] in *.
    unfold all_asks. cbn [fmap list_fmap union_list foldr]. split_and!; [|lia| |constructor; [lia|done]].
    + do 3 f_equal; apply set_eq; set_solver.
    + assert (top x < FD_SETSIZE) by (destruct x; cbn in *; unfold fd_valid in *; lia). intros. apply H2. lia.
Qed.
Lemma late_all_ready rc l (s : ss) : 0 <= rc -> Forall watch_ok l ->
  late_all rc l s = Some ((fun x => if ready (ss_r s) (ss_w s) (ss_e s) x then PTH_STATUS_OCCURRED else PTH_STATUS_PENDING) <$> l, s).
Proof.
  intros Hrc Hl. induction Hl as [|x l Hx Hl IH]; [done|]. cbn [late_all].
  rewrite (st_bind_Some _ _ _ _ _ (late_ready rc x s Hrc Hx)), (st_bind_Some _ _ _ _ _ IH). done.
Qed.
Lemma late_all_failed rc l (s : ss) : rc < 0 -> Forall watch_ok l -> empty_sets s ->
  exists vs k, recheck_all l (ss_k s) = Some (vs, k) /\ late_all rc l s = Some (vs, Selset ∅ ∅ ∅ (ss_max s) k).
Proof.
  intros Hrc Hl. revert s. induction Hl as [|x l Hx Hl IH]; intros s Hs; cbn [late_all recheck_all].
  - eexists _, _. split; [done|]. destruct s, Hs as (Hr & Hw & He). cbn in *. by subst.
  - destruct (late_failed rc x s Hrc Hx Hs) as (v & k & E1 & E2). rewrite (st_bind_Some _ _ _ _ _ E1), (st_bind_Some _ _ _ _ _ E2).
    destruct (IH (Selset ∅ ∅ ∅ (ss_max s) k)) as (vs & k2 & E3 & E4); [by split_and!|].
    cbn [ss_max ss_k] in *. rewrite (st_bind_Some _ _ _ _ _ E3), (st_bind_Some _ _ _ _ _ E4). by eexists _, _.
Qed.

Lemma asks_top (pick : fds3 -> option fd_set) goal x fd : fd ∈ asks goal pick x -> fd <= top x.
Proof.
  destruct x as [g f|nfd r w e]; cbn [asks top]; [case_match; set_solver by lia|].
  rewrite elem_of_intersection, fd_range_elem. lia.
Qed.
Lemma all_asks_top (pick : fds3 -> option fd_set) goal l m fd : Forall (fun x => top x <= m) l -> fd ∈ all_asks (asks goal pick) l -> fd <= m.
Proof.
  intros Hl (y & Hy & Hfd)%elem_of_union_list. apply list_elem_of_fmap in Hy as (x & -> & Hx).
  rewrite Forall_forall in Hl. specialize (Hl x Hx). apply asks_top in Hfd. lia.
Qed.

(** The pipe. *)
Lemma sel_commit_ok pipe (s : ss) : fd_valid pipe -> sel_commit pipe s =
  Some (tt, Selset ({[pipe]} ∪ ss_r s) (ss_w s) (ss_e s) (Z.max (ss_max s) pipe) (ss_k s)).
Proof.
  intros H. unfold sel_commit. rewrite (st_bind_Some _ _ _ _ _ (sel_add_ok _ pipe s H)). unfold set_fdmax, set_sets.
  cbn [ss_r ss_w ss_e ss_max ss_k]. change (asks_r (WFd PTH_UNTIL_FD_READABLE pipe)) with ({[pipe]} : fd_set).
  change (asks_w (WFd PTH_UNTIL_FD_READABLE pipe)) with (∅ : fd_set). change (asks_e (WFd PTH_UNTIL_FD_READABLE pipe)) with (∅ : fd_set).
  rewrite !(left_id_L ∅ (∪)). do 3 f_equal. destruct (Z.ltb_spec (ss_max s) pipe); lia.
Qed.
Lemma sel_adjust_ok dopoll pipe rc (s : ss) : fd_valid pipe ->
  let hit := negb dopoll && (rc >? 0) && fd_in pipe (ss_r s) in
  let rc' := if hit then rc - 1 else rc in
  sel_adjust dopoll pipe rc s = Some (rc', if rc' <=? 0 then set_sets ∅ ∅ ∅ s
    else set_sets (if hit then ss_r s ∖ {[pipe]} else ss_r s) (ss_w s) (ss_e s) s).
Proof.
  intros H. cbv zeta. unfold sel_adjust. destruct (negb dopoll && (rc >? 0)); cbn [andb mbind option_bind]; [|done].
  rewrite FD_ISSET_ok by done. cbn. destruct (fd_in pipe (ss_r s)); [|done]. by rewrite FD_CLR_ok.
Qed.


(** ** The laws of the backend

    So the theorems about the event manager hold with select(2). *)

Definition sel_watch (s : ss) (fd goal : Z) : Prop :=
  (has goal PTH_UNTIL_FD_READABLE = true -> fd ∈ ss_r s) /\ (has goal PTH_UNTIL_FD_WRITEABLE = true -> fd ∈ ss_w s) /\
  (has goal PTH_UNTIL_FD_EXCEPTION = true -> fd ∈ ss_e s).
End laws.

#[export] Instance select_laws {K : Type} `{!SelectSys K, !SelectLaws K} : FdBackendLaws (selset K).
Proof.
  refine {| fb_ok := fun _ _ => True; fb_fd := fd_valid; fb_watch := sel_watch |}.
  - intros n b _. by eexists.
  - intros n b goal fd _ H. eexists. split; [exact (watch_st_ok (WFd goal fd) b H)|]. split; [done|].
    unfold sel_watch. cbn [ss_r ss_w ss_e asks]. split; [split_and!; intros ->; set_solver|]. intros f g. set_solver.
  - intros n b nfd r w e _ Hf. eexists. split.
    { apply (watch_st_ok (WSets nfd r w e) b). cbn. destruct (decide (nfd <= FD_SETSIZE)); [done|].
      specialize (Hf FD_SETSIZE). unfold fd_valid, FD_SETSIZE in *. lia. }
    split; [done|]. unfold sel_watch. cbn [ss_r ss_w ss_e asks fst snd]. split; [|intros f g; set_solver].
    intros f Hf2. assert (Hrange : f ∈ fd_range 0 (Z.to_nat nfd)) by (apply fd_range_elem; lia).
    assert (Hi : forall o, fd_isset f o = true -> f ∈ default ∅ o) by (intros [o|]; [apply bool_decide_eq_true|done]).
    split_and!; intros Hs%Hi; split_and!; (done || set_solver).
  - intros n b now pipe _ H. eexists. split; [by apply sel_commit_ok|done].
  - intros n b dopoll delay _. cbn [fb_wait select_backend]. unfold sel_wait. rewrite (st_bind_Some get_st _ b b b eq_refl).
    destruct (negb _); [|by eexists _, _]. edestruct sel_sets_ok as (rc & r & w & e & k & _ & -> & _). by eexists _, _.
  - intros n b dopoll pipe rc _ Hp. eexists _, _. split; [by apply sel_adjust_ok|done].
  - intros n b rc goal fd _ Hfd. cbn [fb_late_fd select_backend]. unfold sel_late_fd.
    erewrite st_bind_Some by (rewrite (sel_hit_ok goal fd b Hfd); reflexivity).
    destruct (ready _ _ _ _); [by eexists _, _|]. destruct (rc <? 0); [|by eexists _, _].
    rewrite (st_bind_Some _ _ _ _ _ (sel_add_ok goal fd b Hfd)).
    edestruct sel_sets_ok as (c & r & w & e & k & _ & E & _). rewrite (st_bind_Some _ _ _ _ _ E).
    destruct (c >? 0); [|destruct (c <? 0); by eexists _, _].
    unfold sel_clear, mbind, st_bind. cbn [ss_r ss_w ss_e]. rewrite !FD_CLR_ok by done. by eexists _, _.
  - intros n b rc nfd r w e _ _. cbn [fb_late_sets select_backend]. unfold sel_late_sets, mbind, st_bind, get_st.
    destruct (pth_util_fds_test _ _ _ _ _ _ _).
    { unfold pth_util_fds_select. rewrite select_from_ok. eexists _, _, _, _, _, _. split; [reflexivity|]. split; [done|].
      destruct r, w, e; cbn; split_and!; split; intros H; try (by destruct H); by eexists. }
    destruct (rc <? 0); [|by eexists _, _, _, _, _, _].
    destruct (sel_call_ok (nfd + 1) (r, w, e) (Some pth_time_zero) (ss_k b)) as (c & v & k & E & _).
    unfold on_kernel, zoom. rewrite E. by eexists _, _, _, _, _, _.
Defined.

(** ** A concrete system

    The descriptors that are open, readable and writable. *)

Record skern := Skern { sk_open : gset Z; sk_r : gset Z; sk_w : gset Z }.
Definition bad_below (nfd : Z) (k : skern) (o : option fd_set) : bool :=
  match o with Some x => negb (bool_decide (Forall (fun f => f < nfd -> f ∈ sk_open k) (elements x))) | None => false end.
#[export] Instance sk_sys : SelectSys skern := {|
  sy_select nfd v t k :=
    if bad_below nfd k v.1.1 || bad_below nfd k v.1.2 || bad_below nfd k v.2 then (-1, EBADF, (v, t), k)
    else let r := cut v.1.1 (sk_r k) in let w := cut v.1.2 (sk_w k) in let e := cut v.2 ∅ in
      (osize r + osize w + osize e, EBADF, ((r, w, e), t), k);
  sy_patience _ := O
|}.
#[export] Instance sk_laws : SelectLaws skern.
Proof.
  constructor. intros nfd [[r w] e] t k n er v' k'. cbn [sy_select sk_sys fst snd].
  assert (Ho : forall o, 0 <= osize o) by (intros [x|]; cbn; lia).
  assert (Hz : forall o, osize o = 0 -> default ∅ o = ∅).
  { intros [x|] E; [|done]. cbn in *. assert (Hs : size x = 0%nat) by lia. by apply size_empty_iff, leibniz_equiv in Hs. }
  destruct (_ || _); intros [= <- <- <- <-]; cbn [fst snd]; split_and!; try done; intros H.
  - pose proof (Ho (cut r (sk_r k))). pose proof (Ho (cut w (sk_w k))). pose proof (Ho (cut e ∅)). lia.
  - unfold part3. cbn [fst snd]. split_and!; [destruct r|destruct w|destruct e]; cbn [cut part]; set_solver.
  - pose proof (Ho (cut r (sk_r k))). pose proof (Ho (cut w (sk_w k))). pose proof (Ho (cut e ∅)).
    unfold no_sets. cbn [fst snd]. split_and!; apply Hz; lia.
Qed.

(** Descriptor 4 is closed: the events that want it fail, the others stay
    pending, also the one for descriptor 3, which is readable. *)
Definition sk0 : selset skern := Selset ∅ ∅ ∅ 0 (Skern {[3; 5; 9]} {[3]} {[5]}).
Definition watch0 : list watch :=
  [WFd PTH_UNTIL_FD_READABLE 3; WFd PTH_UNTIL_FD_WRITEABLE 4; WSets 6 (Some {[3]}) (Some {[5]}) None; WSets 5 (Some {[3; 4]}) None None].
Lemma select_pass_demo :
  (fst <$> (fb_begin;; watch_all watch0;; fb_commit (Tv 0 0) 9;; rc ← fb_wait false None; rc ← fb_adjust false 9 rc; late_all rc watch0) sk0)
  = Some [PTH_STATUS_PENDING; PTH_STATUS_FAILED; PTH_STATUS_PENDING; PTH_STATUS_FAILED].
Proof. vm_compute. reflexivity. Qed.
(** The call for a set alone asks for one descriptor too many: an event for
    the descriptors below 4 fails because the set has the closed one 4. *)
Lemma select_recheck_too_many : fst <$> recheck (WSets 4 (Some {[3; 4]}) None None) (ss_k sk0) = Some PTH_STATUS_FAILED /\
  asks_r (WSets 4 (Some {[3; 4]}) None None) = {[3]}.
Proof. split; vm_compute; reflexivity. Qed.
