(* ===== verification/Mp.v ===== *)
(** * Starting and stopping schedulers (src/pth_sched.c, lines 2606-2756)

    The calls [pth_mp_init] and [pth_mp_shutdown] of threads of the primary
    scheduler, and the operating system threads that run the auxiliary
    schedulers, one step at a time. A call gives up the processor where it
    naps; an auxiliary scheduler goes on at any time. *)

From stdpp Require Import base numbers gmap list.
From S2P Require Import Prelude.
Open Scope Z_scope.

Definition PTH_GSCHED_MAX : Z := 64.

(** The parts of a [pth_gsched_t] that matter here: [gs_stop] is whether a stop
    request was posted. *)
Record gs := Gs { gs_id : Z; gs_stop : bool; gs_boot_rc : bool; gs_boot_done : bool }.

(** Where the thread of a scheduler is: before the initialization, the spawn,
    the report of a failure, the report of success; in the scheduler; after
    it; before it announces its exit; returned. *)
Inductive phase := BInit | BSpawn | BFail | BOk | BRun | BDown | BExit | BGone.
#[export] Instance phase_eq_dec : EqDecision phase.
Proof. solve_decision. Defined.

(** Where a call is. [MInit]: at the loop of [pth_mp_init]; [MCreate], [MBoot]:
    before the thread is created, while it boots. [MPost], [MWait], [MJoin]:
    in the three loops of [pth_mp_shutdown]; [MReset]: before the end. *)
Inductive mpc :=
| MInit (nsched : Z)
| MCreate (nsched id : Z) (g : addr)
| MBoot (nsched id : Z) (g : addr)
| MPost (i n : Z)
| MWait (n : Z)
| MJoin (i n : Z)
| MReset
| MRet (r : bool * option errno).
#[export] Instance mpc_eq_dec : EqDecision mpc.
Proof. solve_decision. Defined.

(** [m_os]: the operating system threads, by the scheduler that they run. *)
Record mps := Mps {
  m_ntab : Z; m_nexited : Z; m_tab : gmap Z addr; m_mem : gmap addr gs; m_os : gmap addr phase; m_calls : gmap addr mpc
}.
Definition set_tab (n : Z) (t : gmap Z addr) (s : mps) : mps := Mps n (m_nexited s) t (m_mem s) (m_os s) (m_calls s).
Definition set_nexited (n : Z) (s : mps) : mps := Mps (m_ntab s) n (m_tab s) (m_mem s) (m_os s) (m_calls s).
Definition set_mem (m : gmap addr gs) (s : mps) : mps := Mps (m_ntab s) (m_nexited s) (m_tab s) m (m_os s) (m_calls s).
Definition set_os (o : gmap addr phase) (s : mps) : mps := Mps (m_ntab s) (m_nexited s) (m_tab s) (m_mem s) o (m_calls s).
Definition set_call (c : addr) (p : mpc) (s : mps) : mps := Mps (m_ntab s) (m_nexited s) (m_tab s) (m_mem s) (m_os s) (<[c := p]> (m_calls s)).

(** One step of the thread of scheduler [g]: [ok] is whether what it does
    succeeds; of a running scheduler, whether it has run dry. *)
Definition pth_gsched_bootstrap (g : addr) (ok : bool) (s : mps) : option mps :=
  p ← m_os s !! g;
  let to p s := set_os (<[g := p]> (m_os s)) s in
  let boot rc p := x ← m_mem s !! g; Some (to p (set_mem (<[g := Gs (gs_id x) (gs_stop x) rc true]> (m_mem s)) s)) in
  match p with
  | BInit => x ← m_mem s !! g; Some (to (if ok then BSpawn else BFail) s)
  | BSpawn => x ← m_mem s !! g; Some (to (if ok then BOk else BFail) s)
  | BFail => boot false BGone
  | BOk => boot true BRun
  | BRun => x ← m_mem s !! g; Some (if gs_stop x && ok then to BDown s else s)
  | BDown => x ← m_mem s !! g; Some (to BExit s)
  | BExit => Some (to BGone (set_nexited (m_nexited s + 1) s))
  | BGone => None
  end.

(** How the calls begin: [primary] is whether the calling thread is one of the
    primary scheduler. *)
Definition pth_mp_init (primary : bool) (nsched : Z) : mpc :=
  if (nsched <? 1) || (nsched >? PTH_GSCHED_MAX) then MRet (pth_error false EINVAL)
  else if negb primary then MRet (pth_error false EPERM) else MInit nsched.
Definition pth_mp_shutdown (initialized primary : bool) (s : mps) : mpc :=
  if negb initialized then MRet (pth_error false EINVAL)
  else if negb primary then MRet (pth_error false EPERM) else MPost 1 (m_ntab s).

(** One step of a call: [a] is what calloc gives, [ok] whether a thread can be
    created or a message be posted. *)
Definition mp_step (a : ptr) (ok : bool) (p : mpc) (s : mps) : option (mpc * mps) :=
  match p with
  | MInit nsched =>
      if m_ntab s <? nsched then
        match a with
        | None => Some (MRet (pth_error false ENOMEM), s)
        | Some g => Some (MCreate nsched (m_ntab s) g, set_mem (<[g := Gs (m_ntab s) false false false]> (m_mem s)) s)
        end
      else Some (MRet (Prelude.ok true), s)
  | MCreate nsched id g =>
      if ok then Some (MBoot nsched id g, set_os (<[g := BInit]> (m_os s)) s)
      else Some (MRet (pth_error false EAGAIN), set_mem (delete g (m_mem s)) s)
  | MBoot nsched id g =>
      x ← m_mem s !! g;
      if negb (gs_boot_done x) then Some (p, s)
      else if negb (gs_boot_rc x) then Some (MRet (pth_error false EAGAIN), set_mem (delete g (m_mem s)) s)
      else Some (MInit nsched, set_tab (m_ntab s + 1) (<[id := g]> (m_tab s)) s)
  | MPost i n =>
      if i <? n then
        g ← m_tab s !! i; x ← m_mem s !! g;
        Some (MPost (i + 1) n, if ok then set_mem (<[g := Gs (gs_id x) true (gs_boot_rc x) (gs_boot_done x)]> (m_mem s)) s else s)
      else Some (MWait n, s)
  | MWait n => if m_nexited s <? n - 1 then Some (p, s) else Some (MJoin 1 n, s)
  | MJoin i n =>
      if i <? n then
        g ← m_tab s !! i; x ← m_mem s !! g; ph ← m_os s !! g;
        if negb (bool_decide (ph = BGone)) then Some (p, s)
        else Some (MJoin (i + 1) n, set_tab (m_ntab s) (delete i (m_tab s)) (set_mem (delete g (m_mem s)) s))
      else Some (MReset, s)
  | MReset => Some (MRet (Prelude.ok true), set_nexited 0 (set_tab 1 (m_tab s) s))
  | MRet r => None
  end.

Definition pth_sched_count (s : mps) : Z := m_ntab s.
Definition pth_sched_id (g : addr) (s : mps) : option Z := gs_id <$> m_mem s !! g.

(** ** Reachable states *)

Definition over (p : mpc) : bool := match p with MRet _ => true | _ => false end.
Definition idle (s : mps) : Prop := forall c p, m_calls s !! c = Some p -> over p = true.
Definition mp_start : mps := Mps 1 0 ∅ ∅ ∅ ∅.

(** [serial]: a call begins only when all others are over. calloc gives fresh
    memory. *)
Inductive mp_reach (serial : bool) : mps -> Prop :=
| mr_start : mp_reach serial mp_start
| mr_init s c nsched : mp_reach serial s -> (if serial then idle s else True) -> m_calls s !! c = None ->
    mp_reach serial (set_call c (pth_mp_init true nsched) s)
| mr_shutdown s c : mp_reach serial s -> (if serial then idle s else True) -> m_calls s !! c = None ->
    mp_reach serial (set_call c (pth_mp_shutdown true true s) s)
| mr_call s c p a ok p' s' : mp_reach serial s -> m_calls s !! c = Some p -> (forall g, a = Some g -> m_mem s !! g = None) ->
    mp_step a ok p s = Some (p', s') -> mp_reach serial (set_call c p' s')
| mr_boot s g ok s' : mp_reach serial s -> pth_gsched_bootstrap g ok s = Some s' -> mp_reach serial s'.

(** ** Sums over the table *)

Definition zsum (f : Z -> Z) (l : list Z) : Z := foldr (fun i n => f i + n) 0 l.
Lemma zsum_cons f i l : zsum f (i :: l) = f i + zsum f l.
Proof. done. Qed.
Lemma zsum_ext f g l : (forall i, i ∈ l -> f i = g i) -> zsum f l = zsum g l.
Proof.
  induction l as [|i l IH]; intros H; [done|]. rewrite !zsum_cons, (H i) by (by left). f_equal. apply IH. intros j Hj. apply H. by right.
Qed.
Lemma zsum_one f g l i : NoDup l -> i ∈ l -> (forall j, j <> i -> f j = g j) -> zsum g l = zsum f l + (g i - f i).
Proof.
  intros Hnd Hi He. induction l as [|j l IH]; [by apply not_elem_of_nil in Hi|]. apply NoDup_cons in Hnd as [Hj Hnd].
  rewrite !zsum_cons. apply elem_of_cons in Hi as [<-|Hi].
  - rewrite (zsum_ext g f l); [lia|]. intros k Hk. symmetry. apply He. by intros ->.
  - assert (j <> i) by (by intros ->). rewrite IH, (He j) by done. lia.
Qed.
Lemma zsum_full f l i : (forall j, f j <= 1) -> Z.of_nat (length l) <= zsum f l -> i ∈ l -> f i = 1.
Proof.
  intros H1. assert (Hle : forall k, zsum f k <= Z.of_nat (length k)) by (induction k as [|j k IH]; [done|]; rewrite zsum_cons; cbn [length]; specialize (H1 j); lia).
  induction l as [|j l IH]; intros Hn Hi; [by apply not_elem_of_nil in Hi|]. rewrite zsum_cons in Hn. cbn [length] in Hn. pose proof (H1 j). pose proof (Hle l).
  apply elem_of_cons in Hi as [->|Hi]; [lia|]. apply IH; [lia|done].
Qed.
Lemma zsum_zero f l : (forall i, i ∈ l -> f i = 0) -> zsum f l = 0.
Proof. intros H. rewrite (zsum_ext f (fun _ => 0) l H). clear H. induction l as [|i l IH]; [done|]. by rewrite zsum_cons, IH. Qed.

(** ** The invariant

    For calls that do not overlap, [p] is where the one that is not over is, or
    the end of a call if all are over. *)

Definition slots (s : mps) : list Z := seqZ 1 (m_ntab s - 1).
Definition phase_at (s : mps) (i : Z) : option phase := g ← m_tab s !! i; m_os s !! g.
Definition gone (s : mps) (i : Z) : Z := if bool_decide (phase_at s i = Some BGone) then 1 else 0.
Definition settled (ph : phase) : bool := match ph with BRun | BDown | BExit | BGone => true | _ => false end.
Definition stopping (p : mpc) : bool := match p with MPost _ _ | MWait _ | MJoin _ _ | MReset => true | _ => false end.
Definition joining (p : mpc) : bool := match p with MJoin _ _ | MReset => true | _ => false end.
Definition current (p : mpc) : ptr := match p with MCreate _ _ g | MBoot _ _ g => Some g | _ => NULL end.
Definition first_slot (p : mpc) (s : mps) : Z := match p with MJoin i _ => i | MReset => m_ntab s | _ => 1 end.
(** A scheduler that boots. *)
Definition boot_ok (ph : phase) (x : gs) : Prop :=
  match ph with
  | BInit | BSpawn | BFail | BOk => gs_boot_done x = false
  | BRun => gs_boot_done x = true /\ gs_boot_rc x = true
  | BGone => gs_boot_done x = true /\ gs_boot_rc x = false
  | _ => False
  end.
Definition at_ok (p : mpc) (s : mps) : Prop :=
  match p with
  | MCreate _ id g => id = m_ntab s /\ (forall i, m_tab s !! i <> Some g) /\ m_mem s !! g = Some (Gs id false false false) /\
      (forall ph, m_os s !! g = Some ph -> ph = BGone)
  | MBoot _ id g => id = m_ntab s /\ (forall i, m_tab s !! i <> Some g) /\
      exists x ph, m_mem s !! g = Some x /\ gs_id x = id /\ gs_stop x = false /\ m_os s !! g = Some ph /\ boot_ok ph x
  | MPost i n => n = m_ntab s /\ 1 <= i
  | MWait n => n = m_ntab s
  | MJoin i n => n = m_ntab s /\ 1 <= i <= n /\ (forall j g, m_tab s !! j = Some g -> m_os s !! g = Some BGone)
  | _ => True
  end.
Record minv (p : mpc) (s : mps) : Prop := {
  mi_os : forall g ph, m_os s !! g = Some ph -> ph <> BGone -> is_Some (m_mem s !! g);
  mi_tab : forall i g, m_tab s !! i = Some g -> exists x ph, m_mem s !! g = Some x /\ gs_id x = i /\ m_os s !! g = Some ph /\
    settled ph = true /\ (stopping p = false -> ph = BRun /\ gs_stop x = false);
  mi_mem : forall g, is_Some (m_mem s !! g) -> (exists i, m_tab s !! i = Some g) \/ current p = Some g;
  mi_dom : forall i, is_Some (m_tab s !! i) <-> first_slot p s <= i < m_ntab s;
  mi_count : joining p = false -> m_nexited s = zsum (gone s) (slots s);
  mi_one : 1 <= m_ntab s;
  mi_pc : at_ok p s
}.

Lemma tab_inj p s i j g : minv p s -> m_tab s !! i = Some g -> m_tab s !! j = Some g -> i = j.
Proof.
  intros Hi H1 H2. destruct (mi_tab _ _ Hi i g H1) as (x & _ & Hx & <- & _). destruct (mi_tab _ _ Hi j g H2) as (y & _ & Hy & <- & _).
  congruence.
Qed.
Lemma slots_in s i : i ∈ slots s <-> 1 <= i < m_ntab s.
Proof. unfold slots. rewrite elem_of_seqZ. lia. Qed.
Lemma slots_nodup s : NoDup (slots s).
Proof. apply NoDup_seqZ. Qed.

(** The thread of a scheduler in the table goes on, which it does only while
    the schedulers are being stopped. *)
Lemma minv_settled p s i g ph ph' : minv p s -> m_tab s !! i = Some g -> m_os s !! g = Some ph -> ph <> BGone -> stopping p = true ->
  settled ph' = true -> minv p (set_os (<[g := ph']> (m_os s)) (set_nexited (m_nexited s + (if bool_decide (ph' = BGone) then 1 else 0)) s)).
Proof.
  intros Hm Ht Hg Hph Hs Hset. assert (Hj : joining p = false).
  { destruct p; try done; exfalso.
    - destruct (mi_pc _ _ Hm) as (_ & _ & Hall). by rewrite (Hall _ _ Ht) in Hg; simplify_eq.
    - assert (Hd : is_Some (m_tab s !! i)) by (by eexists). apply (mi_dom _ _ Hm) in Hd. cbn in Hd. lia. }
  destruct (mi_tab _ _ Hm i g Ht) as (x & ph0 & Hx & Hid & Hg0 & _). constructor; cbn [set_os set_nexited m_os m_mem m_tab m_ntab m_nexited].
  - intros g' ph2 H2 Hne. destruct (decide (g' = g)) as [->|Hgg]; [by eexists|]. rewrite lookup_insert_ne in H2 by done. by apply (mi_os _ _ Hm g' ph2).
  - intros j g' Hj'. destruct (mi_tab _ _ Hm j g' Hj') as (y & ph2 & Hy & Hyi & Hgy & Hsy & _).
    destruct (decide (g' = g)) as [->|Hgg]; [rewrite lookup_insert_eq|rewrite lookup_insert_ne by done]; eexists _, _; split_and!; try done; by rewrite Hs.
  - apply (mi_mem _ _ Hm).
  - apply (mi_dom _ _ Hm).
  - intros _. rewrite (mi_count _ _ Hm Hj). symmetry.
    rewrite (zsum_one (gone s) _ (slots s) i); [|apply slots_nodup|apply slots_in|].
    + f_equal. unfold gone, phase_at. cbn [set_os set_nexited m_os m_tab]. rewrite Ht. cbn [mbind option_bind]. rewrite lookup_insert_eq, Hg.
      rewrite (bool_decide_eq_false_2 (Some ph = Some BGone)) by congruence.
      destruct (decide (ph' = BGone)) as [->|?]; [done|]. rewrite !bool_decide_eq_false_2 by congruence. done.
    + assert (Hd : is_Some (m_tab s !! i)) by (by eexists). apply (mi_dom _ _ Hm) in Hd. destruct p; cbn in Hd; try done; lia.
    + intros j Hji. unfold gone, phase_at. cbn [set_os set_nexited m_os m_tab]. destruct (m_tab s !! j) as [g'|] eqn:Hj'; [|done].
      cbn [mbind option_bind]. rewrite lookup_insert_ne; [done|]. intros <-. by apply Hji, (tab_inj p s j i g).
  - apply (mi_one _ _ Hm).
  - assert (Hpc := mi_pc _ _ Hm). by destruct p.
Qed.

(** The scheduler that boots goes on. *)
Lemma minv_booting nsched id g s x' ph' : minv (MBoot nsched id g) s -> gs_id x' = id -> gs_stop x' = false -> boot_ok ph' x' ->
  minv (MBoot nsched id g) (set_os (<[g := ph']> (m_os s)) (set_mem (<[g := x']> (m_mem s)) s)).
Proof.
  intros Hm Hid Hst Hb. destruct (mi_pc _ _ Hm) as (Hn & Hno & x & ph & Hx & _ & _ & Hg & _).
  constructor; cbn [set_os set_mem m_os m_mem m_tab m_ntab m_nexited].
  - intros g' ph2 H2 Hne. destruct (decide (g' = g)) as [->|Hgg]; [rewrite lookup_insert_eq; by eexists|].
    rewrite lookup_insert_ne in H2 by done. rewrite lookup_insert_ne by done. by apply (mi_os _ _ Hm g' ph2).
  - intros i g' Hi. assert (g' <> g) by (intros ->; by apply (Hno i)). rewrite !lookup_insert_ne by done. by apply (mi_tab _ _ Hm).
  - intros g' Hx'. destruct (decide (g' = g)) as [->|Hgg]; [by right|]. rewrite lookup_insert_ne in Hx' by done. by apply (mi_mem _ _ Hm).
  - apply (mi_dom _ _ Hm).
  - intros _. rewrite (mi_count _ _ Hm eq_refl). apply zsum_ext. intros i _. unfold gone, phase_at. cbn [set_os set_mem m_os m_tab].
    destruct (m_tab s !! i) as [g'|] eqn:Hi; [|done]. cbn [mbind option_bind]. rewrite lookup_insert_ne; [done|]. intros <-. by apply (Hno i).
  - apply (mi_one _ _ Hm).
  - split; [done|]. split; [done|]. exists x', ph'. cbn [set_os set_mem m_os m_mem]. by rewrite !lookup_insert_eq.
Qed.

Lemma set_os_same g ph s : m_os s !! g = Some ph -> set_os (<[g := ph]> (m_os s)) s = s.
Proof. intros H. unfold set_os. rewrite insert_id by done. by destruct s. Qed.
Lemma set_mem_same g x s : m_mem s !! g = Some x -> set_mem (<[g := x]> (m_mem s)) s = s.
Proof. intros H. unfold set_mem. rewrite insert_id by done. by destruct s. Qed.
Lemma set_nexited_same s : set_nexited (m_nexited s + 0) s = s.
Proof. unfold set_nexited. rewrite Z.add_0_r. by destruct s. Qed.

(** Every step of a scheduler's thread is defined and keeps the invariant. *)
Lemma minv_bootstrap p g ok s ph : minv p s -> m_os s !! g = Some ph -> ph <> BGone ->
  exists s', pth_gsched_bootstrap g ok s = Some s' /\ minv p s' /\ m_calls s' = m_calls s.
Proof.
  intros Hm Hg Hph. destruct (mi_os _ _ Hm g ph Hg Hph) as [x Hx]. unfold pth_gsched_bootstrap. rewrite Hg. cbn [mbind option_bind]. rewrite Hx.
  destruct (mi_mem _ _ Hm g ltac:(by eexists)) as [[i Hi]|Hc].
  - destruct (mi_tab _ _ Hm i g Hi) as (x0 & ph0 & Hx0 & _ & Hg0 & Hset & Hrun). simplify_eq.
    assert (Hgo : forall ph', settled ph' = true -> ph <> BRun \/ gs_stop x = true -> ph' <> BGone -> exists s',
      Some (set_os (<[g := ph']> (m_os s)) s) = Some s' /\ minv p s' /\ m_calls s' = m_calls s).
    { intros ph' H1 H2 H3. eexists. split; [reflexivity|]. split; [|done].
      assert (Hs : stopping p = true). { destruct (stopping p); [done|]. destruct (Hrun eq_refl) as [-> ?]. destruct H2; congruence. }
      assert (Hm' := minv_settled p s i g ph ph' Hm Hi Hg Hph Hs H1). rewrite bool_decide_eq_false_2, set_nexited_same in Hm' by done. exact Hm'. }
    destruct ph; try done; cbn [mbind option_bind].
    + destruct (gs_stop x && ok) eqn:Est; [|by exists s]. apply Hgo; [done| |done]. right. by apply andb_prop in Est as [??].
    + apply Hgo; auto.
    + eexists. split; [reflexivity|]. split; [|done].
      assert (Hs : stopping p = true) by (destruct (stopping p); [done|]; by destruct (Hrun eq_refl)).
      exact (minv_settled p s i g BExit BGone Hm Hi Hg Hph Hs eq_refl).
  - destruct p; try done; cbn in Hc; injection Hc as ->; destruct (mi_pc _ _ Hm) as (Hid0 & _ & Hrest).
    { destruct Hrest as [_ Hgone]. by apply Hgone in Hg. }
    destruct Hrest as (y & ph0 & Hy & Hid & Hst & Hg0 & Hb). simplify_eq.
    assert (Hgo : forall ph', boot_ok ph' x -> exists s', Some (set_os (<[g := ph']> (m_os s)) s) = Some s' /\
      minv (MBoot nsched (m_ntab s) g) s' /\ m_calls s' = m_calls s).
    { intros ph' H1. eexists. split; [reflexivity|]. split; [|done].
      assert (Hm' := minv_booting nsched _ g s x ph' Hm Hid Hst H1). by rewrite set_mem_same in Hm'. }
    destruct ph; try done; cbn in Hb; cbn [mbind option_bind].
    + destruct ok; by apply Hgo.
    + destruct ok; by apply Hgo.
    + eexists. split; [reflexivity|]. split; [|done]. exact (minv_booting nsched _ g s (Gs (gs_id x) (gs_stop x) false true) BGone Hm Hid Hst (conj eq_refl eq_refl)).
    + eexists. split; [reflexivity|]. split; [|done]. exact (minv_booting nsched _ g s (Gs (gs_id x) (gs_stop x) true true) BRun Hm Hid Hst (conj eq_refl eq_refl)).
    + rewrite Hst. cbn [andb]. by exists s.
Qed.

Lemma count_running s : (forall i g, m_tab s !! i = Some g -> m_os s !! g = Some BRun) -> zsum (gone s) (slots s) = 0.
Proof.
  intros H. apply zsum_zero. intros i _. unfold gone, phase_at. destruct (m_tab s !! i) as [g|] eqn:Hi; [|done].
  cbn [mbind option_bind]. by rewrite (H i g Hi).
Qed.
Lemma minv_running p s i g : minv p s -> stopping p = false -> m_tab s !! i = Some g -> m_os s !! g = Some BRun.
Proof. intros Hm Hp Hi. destruct (mi_tab _ _ Hm i g Hi) as (x & ph & _ & _ & Hg & _ & Hr). by destruct (Hr Hp) as [-> _]. Qed.
Lemma minv_nexited p s : minv p s -> stopping p = false -> m_nexited s = 0.
Proof.
  intros Hm Hp. rewrite (mi_count _ _ Hm); [|by destruct p]. apply count_running. intros i g Hi. by eapply minv_running.
Qed.

(** Where no scheduler is being stopped: the steps of [pth_mp_init]. *)
Lemma minv_calloc nsched s g : minv (MInit nsched) s -> m_mem s !! g = None ->
  minv (MCreate nsched (m_ntab s) g) (set_mem (<[g := Gs (m_ntab s) false false false]> (m_mem s)) s).
Proof.
  intros Hm Hf. assert (Hno : forall i g', m_tab s !! i = Some g' -> g' <> g).
  { intros i g' Hi ->. destruct (mi_tab _ _ Hm i g Hi) as (x & ? & Hx & _). congruence. }
  constructor; cbn [set_mem m_os m_mem m_tab m_ntab m_nexited].
  - intros g' ph Hg Hne. apply (mi_os _ _ Hm) in Hg; [|done]. destruct (decide (g' = g)) as [->|?]; [rewrite lookup_insert_eq; by eexists|by rewrite lookup_insert_ne].
  - intros i g' Hi. assert (g' <> g) by (by apply (Hno i)). rewrite lookup_insert_ne by done. by apply (mi_tab _ _ Hm).
  - intros g' Hx. destruct (decide (g' = g)) as [->|?]; [by right|]. rewrite lookup_insert_ne in Hx by done. left. by destruct (mi_mem _ _ Hm g' Hx).
  - apply (mi_dom _ _ Hm).
  - intros _. apply (mi_count _ _ Hm eq_refl).
  - apply (mi_one _ _ Hm).
  - cbn [at_ok]. split_and!; [done|intros i Hi; by apply (Hno i g)|by cbn; rewrite lookup_insert_eq|].
    intros ph Hg. destruct (decide (ph = BGone)); [done|]. apply (mi_os _ _ Hm) in Hg as [? ?]; [|done]. congruence.
Qed.
Lemma minv_create nsched id s g : minv (MCreate nsched id g) s -> minv (MBoot nsched id g) (set_os (<[g := BInit]> (m_os s)) s).
Proof.
  intros Hm. destruct (mi_pc _ _ Hm) as (Hid & Hno & Hx & _).
  assert (Hne : forall i g', m_tab s !! i = Some g' -> g' <> g) by (intros i g' Hi ->; by apply (Hno i)).
  constructor; cbn [set_os m_os m_mem m_tab m_ntab m_nexited].
  - intros g' ph Hg Hph. destruct (decide (g' = g)) as [->|?]; [by eexists|]. rewrite lookup_insert_ne in Hg by done. by apply (mi_os _ _ Hm g' ph).
  - intros i g' Hi. assert (g' <> g) by (by apply (Hne i)). rewrite lookup_insert_ne by done. by apply (mi_tab _ _ Hm).
  - apply (mi_mem _ _ Hm).
  - apply (mi_dom _ _ Hm).
  - intros _. rewrite (minv_nexited _ _ Hm eq_refl). symmetry. apply count_running. intros i g' Hi. cbn [set_os m_os m_tab] in *.
    rewrite lookup_insert_ne by (intros <-; by apply (Hne i g)). by eapply minv_running.
  - apply (mi_one _ _ Hm).
  - split; [done|]. split; [done|]. exists (Gs id false false false), BInit. cbn [set_os m_os m_mem]. by rewrite lookup_insert_eq.
Qed.
(** The memory of a scheduler that did not start is given back. *)
Lemma minv_free p s g r : minv p s -> stopping p = false -> current p = Some g -> (forall i, m_tab s !! i <> Some g) ->
  (forall ph, m_os s !! g = Some ph -> ph = BGone) -> minv (MRet r) (set_mem (delete g (m_mem s)) s).
Proof.
  intros Hm Hp Hc Hno Hos. constructor; cbn [set_mem m_os m_mem m_tab m_ntab m_nexited].
  - intros g' ph Hg Hph. rewrite lookup_delete_ne; [by apply (mi_os _ _ Hm g' ph)|]. intros <-. by apply Hos in Hg.
  - intros i g' Hi. rewrite lookup_delete_ne by (intros <-; by apply (Hno i)). destruct (mi_tab _ _ Hm i g' Hi) as (x & ph & Hx & Hid & Hg & Hs & Hr).
    exists x, ph. auto 10.
  - intros g' Hx. destruct (decide (g' = g)) as [->|?]; [rewrite lookup_delete_eq in Hx; by destruct Hx|]. rewrite lookup_delete_ne in Hx by done.
    destruct (mi_mem _ _ Hm g' Hx) as [?|Hc']; [by left|congruence].
  - intros i. rewrite (mi_dom _ _ Hm i). by destruct p.
  - intros _. rewrite (minv_nexited _ _ Hm Hp). symmetry. apply count_running. intros i g' Hi. exact (minv_running _ s i g' Hm Hp Hi).
  - apply (mi_one _ _ Hm).
  - done.
Qed.
Lemma minv_register nsched id g s x : minv (MBoot nsched id g) s -> m_mem s !! g = Some x -> gs_boot_done x = true -> gs_boot_rc x = true ->
  minv (MInit nsched) (set_tab (m_ntab s + 1) (<[id := g]> (m_tab s)) s).
Proof.
  intros Hm Hx Hd Hrc. destruct (mi_pc _ _ Hm) as (-> & Hno & x0 & ph & Hx0 & Hid & Hst & Hg & Hb). simplify_eq.
  assert (ph = BRun) as -> by (destruct ph; cbn in Hb; try done; try congruence; destruct Hb; congruence).
  assert (Hall : forall i g', <[m_ntab s := g]> (m_tab s) !! i = Some g' -> m_os s !! g' = Some BRun).
  { intros i g' Hi. destruct (decide (i = m_ntab s)) as [->|?]; [rewrite lookup_insert_eq in Hi; by simplify_eq|].
    rewrite lookup_insert_ne in Hi by done. exact (minv_running _ s i g' Hm eq_refl Hi). }
  assert (Hone := mi_one _ _ Hm). constructor; cbn [set_tab m_os m_mem m_tab m_ntab m_nexited].
  - apply (mi_os _ _ Hm).
  - intros i g' Hi. destruct (decide (i = m_ntab s)) as [->|?].
    + rewrite lookup_insert_eq in Hi. simplify_eq. exists x, BRun. auto 10.
    + rewrite lookup_insert_ne in Hi by done. destruct (mi_tab _ _ Hm i g' Hi) as (y & ph & Hy & Hyi & Hgy & Hs & Hr). exists y, ph. auto 10.
  - intros g' Hg'. left. destruct (mi_mem _ _ Hm g' Hg') as [[i Hi]|Hc].
    + exists i. rewrite lookup_insert_ne; [done|]. intros <-. assert (Hs : is_Some (m_tab s !! m_ntab s)) by (by eexists). apply (mi_dom _ _ Hm) in Hs. cbn in Hs. lia.
    + cbn in Hc. simplify_eq. exists (m_ntab s). by rewrite lookup_insert_eq.
  - intros i. cbn [first_slot]. destruct (decide (i = m_ntab s)) as [->|?]; [rewrite lookup_insert_eq; split; [lia|by eexists]|].
    rewrite lookup_insert_ne by done. rewrite (mi_dom _ _ Hm i). cbn [first_slot]. lia.
  - intros _. rewrite (minv_nexited _ _ Hm eq_refl). symmetry. by apply count_running.
  - lia.
  - done.
Qed.

(** The steps of [pth_mp_shutdown]. *)
Lemma minv_post i n s g x : minv (MPost i n) s -> 1 <= i -> m_tab s !! i = Some g -> m_mem s !! g = Some x ->
  minv (MPost (i + 1) n) (set_mem (<[g := Gs (gs_id x) true (gs_boot_rc x) (gs_boot_done x)]> (m_mem s)) s).
Proof.
  intros Hm Hi Ht Hx. constructor; cbn [set_mem m_os m_mem m_tab m_ntab m_nexited].
  - intros g' ph Hg Hne. destruct (decide (g' = g)) as [->|?]; [rewrite lookup_insert_eq; by eexists|].
    rewrite lookup_insert_ne by done. by apply (mi_os _ _ Hm g' ph).
  - intros j g' Hj. destruct (mi_tab _ _ Hm j g' Hj) as (y & ph & Hy & Hyj & Hg & Hs & _).
    destruct (decide (g' = g)) as [->|?]; [rewrite lookup_insert_eq; simplify_eq; by eexists _, ph|].
    rewrite lookup_insert_ne by done. by exists y, ph.
  - intros g' Hg'. apply (mi_mem _ _ Hm). destruct (decide (g' = g)) as [->|?]; [by eexists|]. by rewrite lookup_insert_ne in Hg'.
  - apply (mi_dom _ _ Hm).
  - intros _. apply (mi_count _ _ Hm eq_refl).
  - apply (mi_one _ _ Hm).
  - destruct (mi_pc _ _ Hm). split; [done|lia].
Qed.
Lemma minv_all_gone n s : minv (MWait n) s -> n - 1 <= m_nexited s -> minv (MJoin 1 n) s.
Proof.
  intros Hm Hn. assert (Hid := mi_pc _ _ Hm). cbn in Hid. subst n. assert (Hone := mi_one _ _ Hm).
  assert (Hall : forall j g, m_tab s !! j = Some g -> m_os s !! g = Some BGone).
  { intros j g Hj. assert (Hd : is_Some (m_tab s !! j)) by (by eexists). apply (mi_dom _ _ Hm) in Hd. cbn in Hd.
    assert (H1 : gone s j = 1).
    { apply (zsum_full (gone s) (slots s)); [intros k; unfold gone; destruct (bool_decide _); lia| |by apply slots_in].
      rewrite <- (mi_count _ _ Hm eq_refl). unfold slots. rewrite length_seqZ. lia. }
    unfold gone, phase_at in H1. rewrite Hj in H1. cbn [mbind option_bind] in H1. by case_bool_decide. }
  constructor; [apply (mi_os _ _ Hm)|apply (mi_tab _ _ Hm)|apply (mi_mem _ _ Hm)|apply (mi_dom _ _ Hm)|done|done|].
  cbn [at_ok]. split; [done|]. split; [lia|done].
Qed.
Lemma minv_join i n s g x : minv (MJoin i n) s -> i < n -> m_tab s !! i = Some g -> m_mem s !! g = Some x ->
  minv (MJoin (i + 1) n) (set_tab (m_ntab s) (delete i (m_tab s)) (set_mem (delete g (m_mem s)) s)).
Proof.
  intros Hm Hin Ht Hx. destruct (mi_pc _ _ Hm) as (-> & Hi & Hall).
  assert (Hne : forall j g', m_tab s !! j = Some g' -> j <> i -> g' <> g) by (intros j g' Hj Hji ->; by apply Hji, (tab_inj _ _ _ _ _ Hm Hj)).
  constructor; cbn [set_tab set_mem m_os m_mem m_tab m_ntab m_nexited].
  - intros g' ph Hg Hph. rewrite lookup_delete_ne; [by apply (mi_os _ _ Hm g' ph)|]. intros <-. rewrite (Hall i g Ht) in Hg. by simplify_eq.
  - intros j g' Hj. apply lookup_delete_Some in Hj as [Hji Hj]. rewrite lookup_delete_ne; [by apply (mi_tab _ _ Hm)|].
    intros <-. by apply (Hne j g Hj).
  - intros g' Hg'. left. destruct (decide (g' = g)) as [->|?]; [rewrite lookup_delete_eq in Hg'; by destruct Hg'|].
    rewrite lookup_delete_ne in Hg' by done. destruct (mi_mem _ _ Hm g' Hg') as [[j Hj]|?]; [|done].
    exists j. rewrite lookup_delete_ne; [done|]. intros <-. congruence.
  - intros j. cbn [first_slot]. destruct (decide (j = i)) as [->|?].
    + rewrite lookup_delete_eq. split; [intros [? ?]; done|lia].
    + rewrite lookup_delete_ne by done. rewrite (mi_dom _ _ Hm j). cbn [first_slot]. lia.
  - done.
  - apply (mi_one _ _ Hm).
  - split_and!; [done|lia|lia|]. intros j g' Hj. cbn [set_tab set_mem m_tab m_os] in *. apply lookup_delete_Some in Hj as [_ Hj]. by apply (Hall j).
Qed.
Lemma minv_reset s r : minv MReset s -> minv (MRet r) (set_nexited 0 (set_tab 1 (m_tab s) s)).
Proof.
  intros Hm. assert (Hnone : forall i, m_tab s !! i = None).
  { intros i. destruct (m_tab s !! i) as [g|] eqn:Hi; [|done]. assert (Hd : is_Some (m_tab s !! i)) by (by eexists).
    apply (mi_dom _ _ Hm) in Hd. cbn in Hd. lia. }
  constructor; cbn [set_nexited set_tab m_os m_mem m_tab m_ntab m_nexited].
  - apply (mi_os _ _ Hm).
  - intros i g Hi. by rewrite Hnone in Hi.
  - intros g Hg. destruct (mi_mem _ _ Hm g Hg) as [[i Hi]|?]; [by rewrite Hnone in Hi|done].
  - intros i. rewrite Hnone. cbn [first_slot]. split; [intros [? ?]; done|lia].
  - intros _. symmetry. apply count_running. intros i g Hi. cbn in Hi. by rewrite Hnone in Hi.
  - done.
  - done.
Qed.

(** Two places with the same obligations. *)
Lemma minv_move p p' s : minv p s -> (stopping p' = false -> stopping p = false) -> joining p' = joining p -> current p' = current p ->
  (forall i, first_slot p s <= i < m_ntab s <-> first_slot p' s <= i < m_ntab s) -> at_ok p' s -> minv p' s.
Proof.
  intros Hm H1 H2 H3 H4 H5. constructor; rewrite ?H2, ?H3; [apply (mi_os _ _ Hm)|
    intros i g Hi; destruct (mi_tab _ _ Hm i g Hi) as (x & ph & ? & ? & ? & ? & ?); exists x, ph; auto 10|apply (mi_mem _ _ Hm)| |apply (mi_count _ _ Hm)|apply (mi_one _ _ Hm)|done].
  intros i. rewrite <- H4. apply (mi_dom _ _ Hm).
Qed.

(** Every step of a call is defined and keeps the invariant. *)
Lemma minv_step a ok p s : minv p s -> over p = false -> (forall g, a = Some g -> m_mem s !! g = None) ->
  exists p' s', mp_step a ok p s = Some (p', s') /\ minv p' s' /\ m_calls s' = m_calls s.
Proof.
  intros Hm Ho Ha. assert (Hpc := mi_pc _ _ Hm). destruct p as [nsched|nsched id g|nsched id g|i n|n|i n| |r]; try done; cbn [mp_step].
  - destruct (Z.ltb_spec (m_ntab s) nsched) as [Hlt|Hlt]; [|by eexists _, s; (split; [reflexivity|]); (split; [|done]); apply (minv_move _ _ _ Hm)].
    destruct a as [g|]; [|by eexists _, s; (split; [reflexivity|]); (split; [|done]); apply (minv_move _ _ _ Hm)].
    eexists _, _. split; [reflexivity|]. split; [|done]. apply minv_calloc; auto.
  - destruct Hpc as (Hid & Hno & Hx & Hos). destruct ok; eexists _, _; (split; [reflexivity|]); (split; [|done]); [by apply minv_create|].
    by eapply minv_free.
  - destruct Hpc as (Hid & Hno & x & ph & Hx & Hxi & Hst & Hg & Hb). rewrite Hx. cbn [mbind option_bind].
    destruct (gs_boot_done x) eqn:Hd; cbn [negb]; [|by exists (MBoot nsched id g), s].
    destruct (gs_boot_rc x) eqn:Hrc; cbn [negb]; eexists _, _; (split; [reflexivity|]); (split; [|done]); [by eapply minv_register|].
    eapply minv_free; try done. intros ph' Hg'. simplify_eq. destruct ph; cbn in Hb; try done; try congruence; destruct Hb; congruence.
  - destruct Hpc as [-> Hi]. destruct (Z.ltb_spec i (m_ntab s)) as [Hlt|Hlt].
    + destruct (proj2 (mi_dom _ _ Hm i)) as [g Hg]; [cbn; lia|]. destruct (mi_tab _ _ Hm i g Hg) as (x & ph & Hx & _).
      rewrite Hg. cbn [mbind option_bind]. rewrite Hx. cbn [mbind option_bind]. eexists _, _. split; [reflexivity|].
      destruct ok; (split; [|done]); [by apply minv_post|]. apply (minv_move _ _ _ Hm); try done. split; [done|lia].
    + eexists _, s. split; [reflexivity|]. split; [|done]. by apply (minv_move _ _ _ Hm).
  - cbn in Hpc. destruct (Z.ltb_spec (m_nexited s) (n - 1)) as [Hlt|Hlt]; [by exists (MWait n), s|].
    eexists _, s. split; [reflexivity|]. split; [|done]. apply minv_all_gone; [done|lia].
  - destruct Hpc as (-> & Hi & Hall). destruct (Z.ltb_spec i (m_ntab s)) as [Hlt|Hlt].
    + destruct (proj2 (mi_dom _ _ Hm i)) as [g Hg]; [cbn; lia|]. destruct (mi_tab _ _ Hm i g Hg) as (x & ph & Hx & _).
      rewrite Hg. cbn [mbind option_bind]. rewrite Hx, (Hall i g Hg). cbn [mbind option_bind]. rewrite bool_decide_eq_true_2 by done. cbn [negb].
      eexists _, _. split; [reflexivity|]. split; [|done]. by eapply minv_join.
    + eexists _, s. split; [reflexivity|]. split; [|done]. apply (minv_move _ _ _ Hm); try done. intros j. cbn [first_slot]. lia.
  - eexists _, _. split; [reflexivity|]. split; [|done]. by apply minv_reset.
Qed.

(** ** Calls that do not overlap *)

Lemma minv_call c q p s : minv p s -> minv p (set_call c q s).
Proof.
  intros Hm. constructor; [apply (mi_os _ _ Hm)|apply (mi_tab _ _ Hm)|apply (mi_mem _ _ Hm)|apply (mi_dom _ _ Hm)|apply (mi_count _ _ Hm)|apply (mi_one _ _ Hm)|].
  assert (Hpc := mi_pc _ _ Hm). by destruct p.
Qed.
(** There is room in the table. *)
Definition room (p : mpc) (s : mps) : Prop := m_ntab s <= PTH_GSCHED_MAX /\
  match p with MInit nsched => nsched <= PTH_GSCHED_MAX | MCreate nsched _ _ | MBoot nsched _ _ => m_ntab s < nsched <= PTH_GSCHED_MAX | _ => True end.
Lemma room_step a ok p s p' s' : room p s -> mp_step a ok p s = Some (p', s') -> room p' s'.
Proof.
  intros [Hn Hr] Hst. destruct p as [nsched|nsched id g|nsched id g|i n|n|i n| |r]; cbn [mp_step] in Hst.
  - destruct (Z.ltb_spec (m_ntab s) nsched); [destruct a|]; by injection Hst as <- <-.
  - destruct ok; by injection Hst as <- <-.
  - destruct (m_mem s !! g) as [x|]; [|done]. cbn [mbind option_bind] in Hst. destruct (negb (gs_boot_done x)); [by injection Hst as <- <-|].
    destruct (negb (gs_boot_rc x)); injection Hst as <- <-; split; cbn [set_mem set_tab m_ntab]; lia || done.
  - destruct (i <? n); [|by injection Hst as <- <-]. destruct (m_tab s !! i) as [g|]; [|done]. cbn [mbind option_bind] in Hst.
    destruct (m_mem s !! g); [|done]. cbn [mbind option_bind] in Hst. injection Hst as <- <-. by destruct ok.
  - destruct (_ <? _); by injection Hst as <- <-.
  - destruct (i <? n); [|by injection Hst as <- <-]. destruct (m_tab s !! i) as [g|]; [|done]. cbn [mbind option_bind] in Hst.
    destruct (m_mem s !! g); [|done]. cbn [mbind option_bind] in Hst. destruct (m_os s !! g) as [ph|]; [|done]. cbn [mbind option_bind] in Hst.
    destruct (negb _); by injection Hst as <- <-.
  - injection Hst as <- <-. split; [cbn; unfold PTH_GSCHED_MAX; lia|done].
  - done.
Qed.
Lemma room_boot p g ok s s' : room p s -> pth_gsched_bootstrap g ok s = Some s' -> room p s'.
Proof.
  intros Hr Hb. assert (Hn : m_ntab s' = m_ntab s); [|unfold room; by rewrite Hn].
  unfold pth_gsched_bootstrap in Hb. destruct (m_os s !! g) as [ph|]; [|done]. cbn [mbind option_bind] in Hb.
  destruct ph; try (destruct (m_mem s !! g) as [x|]; [cbn [mbind option_bind] in Hb|done]); try destruct (_ && _); by simplify_eq.
Qed.

(** The call that is not over, if there is one. *)
Definition serial_inv (s : mps) : Prop :=
  exists p, minv p s /\ room p s /\ ((over p = true /\ idle s) \/
    (over p = false /\ exists c, m_calls s !! c = Some p /\ forall c' p', c' <> c -> m_calls s !! c' = Some p' -> over p' = true)).

Lemma serial_set c p s : minv p s -> room p s -> (forall c' p', c' <> c -> m_calls s !! c' = Some p' -> over p' = true) -> serial_inv (set_call c p s).
Proof.
  intros Hm Hro Ho. exists p. split; [by apply minv_call|]. split; [exact Hro|]. destruct (over p) eqn:E.
  - left. split; [done|]. intros c' p' H. cbn [set_call m_calls] in H. destruct (decide (c' = c)) as [->|?].
    + rewrite lookup_insert_eq in H. by simplify_eq.
    + rewrite lookup_insert_ne in H by done. by apply (Ho c').
  - right. split; [done|]. exists c. cbn [set_call m_calls]. rewrite lookup_insert_eq. split; [done|].
    intros c' p' Hc H. rewrite lookup_insert_ne in H by done. by apply (Ho c').
Qed.
Lemma serial_active s c p : serial_inv s -> m_calls s !! c = Some p -> over p = false ->
  minv p s /\ room p s /\ forall c' p', c' <> c -> m_calls s !! c' = Some p' -> over p' = true.
Proof.
  intros (q & Hm & Hro & [[_ Hi]|[Hq (c0 & H0 & Hall)]]) Hc Hp; [by rewrite (Hi c p Hc) in Hp|].
  destruct (decide (c = c0)) as [->|Hne]; [|by rewrite (Hall c p Hne Hc) in Hp]. by simplify_eq.
Qed.
Lemma serial_idle s : serial_inv s -> idle s -> exists r, minv (MRet r) s /\ m_ntab s <= PTH_GSCHED_MAX.
Proof.
  intros (q & Hm & [Hro _] & [[Hq _]|[Hq (c & Hc & _)]]) Hi; [destruct q; try done; by eexists|]. by rewrite (Hi c q Hc) in Hq.
Qed.
Lemma minv_start r : minv (MRet r) mp_start.
Proof.
  constructor; cbn [mp_start m_os m_mem m_tab m_ntab m_nexited]; try done.
  - intros g [x Hx]. done.
  - intros i. cbn [first_slot]. split; [intros [? H]; done|lia].
Qed.
Lemma idle_others s c : idle s -> forall c' p', c' <> c -> m_calls s !! c' = Some p' -> over p' = true.
Proof. intros H c' p' _. apply H. Qed.

Lemma serial_reach s : mp_reach true s -> serial_inv s.
Proof.
  induction 1 as [|s c nsched Hr IH Hid Hc|s c Hr IH Hid Hc|s c p a ok p' s' Hr IH Hc Ha Hs|s g ok s' Hr IH Hb].
  - exists (MRet (Prelude.ok true)). split; [apply minv_start|]. split; [done|]. by left.
  - destruct (serial_idle s IH Hid) as (r & Hm & Hro). unfold pth_mp_init.
    destruct (Z.ltb_spec nsched 1), (Z.gtb_spec nsched PTH_GSCHED_MAX); cbn [orb negb]; apply serial_set; try (by apply idle_others);
      try (by apply (minv_move _ _ _ Hm)); by split.
  - destruct (serial_idle s IH Hid) as (r & Hm & Hro). apply serial_set; [by apply (minv_move _ _ _ Hm)|done|by apply idle_others].
  - assert (Ho : over p = false) by (by destruct p). destruct (serial_active s c p IH Hc Ho) as (Hm & Hro & Hall).
    destruct (minv_step a ok p s Hm Ho Ha) as (p2 & s2 & Hs2 & Hm2 & Hcs). rewrite Hs in Hs2. injection Hs2 as <- <-.
    apply serial_set; [done|by eapply room_step|]. by rewrite Hcs.
  - destruct IH as (q & Hm & Hro & Hq). unfold idle in Hq. destruct (m_os s !! g) as [ph|] eqn:Hg; [|by unfold pth_gsched_bootstrap in Hb; rewrite Hg in Hb].
    assert (Hph : ph <> BGone) by (intros ->; by unfold pth_gsched_bootstrap in Hb; rewrite Hg in Hb).
    destruct (minv_bootstrap q g ok s ph Hm Hg Hph) as (s2 & Hs2 & Hm2 & Hcs). rewrite Hb in Hs2. injection Hs2 as <-.
    exists q. split; [done|]. split; [by eapply room_boot|]. unfold idle. by rewrite Hcs.
Qed.

(** C17: While calls of pth_mp_init and pth_mp_shutdown do not overlap, every
    step of a call and of a scheduler's thread finds what it uses: a slot of
    the table below the count that holds a scheduler, memory that was not
    given back, a thread that is there to be joined. With no call under way
    the table, which has room for 64, holds exactly the schedulers 1 to
    count - 1, each is running under its own number and no memory is kept for any other; and where
    pth_mp_shutdown ends, every scheduler's thread has returned and no slot and
    no memory is left. *)
Theorem mp_lifecycle s : mp_reach true s ->
  (forall c p a ok, m_calls s !! c = Some p -> over p = false -> (forall g, a = Some g -> m_mem s !! g = None) -> is_Some (mp_step a ok p s)) /\
  (forall g ok ph, m_os s !! g = Some ph -> ph <> BGone -> is_Some (pth_gsched_bootstrap g ok s)) /\
  (forall i, is_Some (m_tab s !! i) -> 1 <= i < PTH_GSCHED_MAX) /\
  (idle s -> forall i, match m_tab s !! i with
    | Some g => 1 <= i < pth_sched_count s /\ pth_sched_id g s = Some i /\ m_os s !! g = Some BRun
    | None => ~ 1 <= i < pth_sched_count s end) /\
  (idle s -> forall g, is_Some (m_mem s !! g) -> exists i, m_tab s !! i = Some g) /\
  (forall c, m_calls s !! c = Some MReset -> (forall i, m_tab s !! i = None) /\ m_mem s = ∅ /\ forall g ph, m_os s !! g = Some ph -> ph = BGone).
Proof.
  intros Hr. assert (Hs := serial_reach s Hr). split_and!.
  - intros c p a ok Hc Hp Ha. destruct (serial_active s c p Hs Hc Hp) as [Hm _].
    destruct (minv_step a ok p s Hm Hp Ha) as (p' & s' & -> & _). by eexists.
  - intros g ok ph Hg Hph. destruct Hs as (q & Hm & _). destruct (minv_bootstrap q g ok s ph Hm Hg Hph) as (s' & -> & _). by eexists.
  - intros i Hi. destruct Hs as (q & Hm & [Hro _] & _). apply (mi_dom _ _ Hm) in Hi. assert (Hpc := mi_pc _ _ Hm). assert (Hone := mi_one _ _ Hm).
    destruct q; cbn [first_slot at_ok] in *; lia.
  - intros Hi i. destruct (serial_idle s Hs Hi) as (r & Hm & _). assert (Hd := mi_dom _ _ Hm i). cbn [first_slot] in Hd. unfold pth_sched_count, pth_sched_id.
    destruct (m_tab s !! i) as [g|] eqn:Hg; [|intros H; apply Hd in H as [? H]; done].
    destruct (mi_tab _ _ Hm i g Hg) as (x & ph & -> & <- & Hos & _ & Hrun). destruct (Hrun eq_refl) as [-> _]. split; [|done]. apply Hd. by eexists.
  - intros Hi g Hg. destruct (serial_idle s Hs Hi) as (r & Hm & _). by destruct (mi_mem _ _ Hm g Hg).
  - intros c Hc. destruct (serial_active s c MReset Hs Hc eq_refl) as [Hm _]. assert (Hn : forall i, m_tab s !! i = None).
    { intros i. destruct (m_tab s !! i) as [g|] eqn:Hi; [|done]. assert (Hd : is_Some (m_tab s !! i)) by (by eexists). apply (mi_dom _ _ Hm) in Hd. cbn in Hd. lia. }
    assert (He : m_mem s = ∅).
    { apply map_empty. intros g. destruct (m_mem s !! g) as [x|] eqn:Hx; [|done]. destruct (mi_mem _ _ Hm g ltac:(by eexists)) as [[i Hi]|?]; [by rewrite Hn in Hi|done]. }
    split_and!; [done|done|]. intros g ph Hg. destruct (decide (ph = BGone)) as [|Hne]; [done|]. apply (mi_os _ _ Hm) in Hg as [x Hx]; [|done]. by rewrite He in Hx.
Qed.

(** ** Shutting down comes to an end *)

(** What changes anything, where messages can be posted and schedulers run dry
    in the end: a step of call [c] or of a scheduler's thread. *)
Inductive mp_next (c : addr) (s : mps) : mps -> Prop :=
| mn_call p p' s' : m_calls s !! c = Some p -> mp_step NULL true p s = Some (p', s') -> set_call c p' s' <> s -> mp_next c s (set_call c p' s')
| mn_thread g ok s' : pth_gsched_bootstrap g ok s = Some s' -> s' <> s -> mp_next c s s'.

Definition weight (ph : option phase) : Z :=
  match ph with Some BRun => 3 | Some BDown => 2 | Some BExit => 1 | _ => 0 end.
Definition work (s : mps) : Z := zsum (fun i => weight (phase_at s i)) (slots s).
Definition call_left (p : mpc) : Z :=
  match p with MPost i n => Z.max 0 (n - i) + n + 5 | MWait n => n + 4 | MJoin i n => Z.max 0 (n - i) + 2 | MReset => 1 | _ => 0 end.
Definition left_over (c : addr) (s : mps) : Z := from_option call_left 0 (m_calls s !! c) + work s.
(** The schedulers that were told to stop. *)
Definition told (p : mpc) (j : Z) : Prop := match p with MPost i _ => j < i | _ => True end.
Definition posted (p : mpc) (s : mps) : Prop :=
  forall j g x, told p j -> m_tab s !! j = Some g -> m_mem s !! g = Some x -> gs_stop x = true.
Definition winding (c : addr) (s : mps) : Prop := exists p, m_calls s !! c = Some p /\ minv p s /\
  (stopping p = true /\ posted p s \/ p = MRet (Prelude.ok true) /\ m_ntab s = 1).

Lemma zsum_nonneg f l : (forall i, 0 <= f i) -> 0 <= zsum f l.
Proof. intros H. induction l as [|i l IH]; [done|]. rewrite zsum_cons. specialize (H i). lia. Qed.
Lemma zsum_short f l : zsum f l < Z.of_nat (length l) -> exists i, i ∈ l /\ f i < 1.
Proof.
  induction l as [|i l IH]; [done|]. rewrite zsum_cons. cbn [length]. intros H. destruct (decide (f i < 1)) as [?|?].
  - exists i. split; [by left|done].
  - destruct IH as (j & Hj & ?); [lia|]. exists j. split; [by right|done].
Qed.
Lemma work_nonneg s : 0 <= work s.
Proof. apply zsum_nonneg. intros i. unfold weight. by destruct (phase_at s i) as [[]|]. Qed.
Lemma left_nonneg c s : winding c s -> 0 <= left_over c s.
Proof.
  intros (p & Hc & Hm & _). unfold left_over. rewrite Hc. cbn [from_option]. pose proof (work_nonneg s). assert (Hone := mi_one _ _ Hm).
  assert (Hpc := mi_pc _ _ Hm). destruct p; cbn [call_left at_ok] in *; lia.
Qed.

(** The thread of a scheduler in the table gets nearer to its end. *)
Lemma thread_step c p g ok s s' : m_calls s !! c = Some p -> minv p s -> current p = NULL -> pth_gsched_bootstrap g ok s = Some s' -> s' <> s ->
  work s' < work s /\ minv p s' /\ m_calls s' = m_calls s /\ m_mem s' = m_mem s /\ m_tab s' = m_tab s /\ m_ntab s' = m_ntab s.
Proof.
  intros Hc Hm Hcur Hb Hne. assert (Hb0 := Hb). unfold pth_gsched_bootstrap in Hb. destruct (m_os s !! g) as [ph|] eqn:Hg; [|done]. cbn [mbind option_bind] in Hb.
  assert (Hph : ph <> BGone) by (by intros ->). destruct (minv_bootstrap p g ok s ph Hm Hg Hph) as (s2 & Hs2 & Hm2 & Hcs). rewrite Hb0 in Hs2. injection Hs2 as <-.
  destruct (mi_os _ _ Hm g ph Hg Hph) as [x Hx]. destruct (mi_mem _ _ Hm g ltac:(by eexists)) as [[i Hi]|?]; [|congruence].
  destruct (mi_tab _ _ Hm i g Hi) as (x0 & ph0 & _ & _ & Hg0 & Hset & _). rewrite Hg in Hg0. injection Hg0 as <-. rewrite Hx in Hb.
  assert (Hi' : first_slot p s <= i < m_ntab s) by (apply (mi_dom _ _ Hm); by eexists).
  assert (Hi1 : 1 <= i). { destruct p; cbn in Hi'; try lia. destruct (mi_pc _ _ Hm) as (_ & ? & _). lia. }
  assert (Hw : forall ph' k, weight (Some ph') < weight (Some ph) -> work (set_os (<[g := ph']> (m_os s)) (set_nexited k s)) < work s).
  { intros ph' k Hlt. unfold work. rewrite (zsum_one (fun j => weight (phase_at s j)) _ (slots s) i); [|apply slots_nodup|apply slots_in; lia|].
    - unfold phase_at at 2 3. cbn [set_os set_nexited m_tab m_os]. rewrite Hi. cbn [mbind option_bind]. rewrite lookup_insert_eq, Hg. lia.
    - intros j Hji. unfold phase_at. cbn [set_os set_nexited m_os m_tab]. destruct (m_tab s !! j) as [g'|] eqn:Hj'; [|done].
      cbn [mbind option_bind]. rewrite lookup_insert_ne; [done|]. intros <-. by apply Hji, (tab_inj p s j i g). }
  destruct ph; try done; cbn [mbind option_bind] in Hb; try (destruct (gs_stop x && ok); [|congruence]); injection Hb as <-.
  - split; [exact (Hw BDown (m_nexited s) eq_refl)|done].
  - split; [exact (Hw BExit (m_nexited s) eq_refl)|done].
  - split; [exact (Hw BGone (m_nexited s + 1) eq_refl)|done].
Qed.

Lemma winding_thread c g ok s s' : winding c s -> pth_gsched_bootstrap g ok s = Some s' -> s' <> s -> winding c s' /\ left_over c s' < left_over c s.
Proof.
  intros (p & Hc & Hm & Hp) Hb Hne. assert (Hcur : current p = NULL) by (destruct Hp as [[? _]|[-> _]]; [by destruct p|done]).
  destruct (thread_step c p g ok s s' Hc Hm Hcur Hb Hne) as (Hw & Hm' & Hcs & Hms & Ht & Hn). split.
  - exists p. rewrite Hcs. split; [done|]. split; [done|]. destruct Hp as [[Hs Hpo]|[-> Hone]]; [left|right; by rewrite Hn].
    split; [done|]. intros j g' x. rewrite Ht, Hms. apply Hpo.
  - unfold left_over. rewrite Hcs. lia.
Qed.

Lemma work_same s s' : m_ntab s' = m_ntab s -> m_os s' = m_os s -> m_tab s' = m_tab s -> work s' = work s.
Proof. intros H1 H2 H3. unfold work, slots, phase_at. by rewrite H1, H2, H3. Qed.

(** A step of the call that is not a nap gets nearer to its end. *)
Lemma winding_step p s p' s' : minv p s -> stopping p = true -> posted p s -> mp_step NULL true p s = Some (p', s') ->
  (p' = p /\ s' = s) \/ (call_left p' + work s' < call_left p + work s /\ m_calls s' = m_calls s /\ minv p' s' /\
    (stopping p' = true /\ posted p' s' \/ p' = MRet (Prelude.ok true) /\ m_ntab s' = 1)).
Proof.
  intros Hm Hs Hpo Hst. assert (Ho : over p = false) by (by destruct p). assert (Hone := mi_one _ _ Hm).
  destruct (minv_step NULL true p s Hm Ho) as (p2 & s2 & Hs2 & Hm2 & Hcs); [done|]. rewrite Hst in Hs2. injection Hs2 as <- <-.
  assert (Hpc := mi_pc _ _ Hm). destruct p as [| | |i n|n|i n| |]; try done; cbn [mp_step at_ok] in *.
  - destruct Hpc as [-> Hi]. destruct (Z.ltb_spec i (m_ntab s)) as [Hlt|Hlt].
    + destruct (m_tab s !! i) as [g|] eqn:Hg; [|done]. cbn [mbind option_bind] in Hst. destruct (m_mem s !! g) as [x|] eqn:Hx; [|done].
      injection Hst as <- <-. right. split; [cbn [call_left]; change (work (set_mem _ s)) with (work s); lia|]. split; [done|]. split; [done|]. left. split; [done|].
      intros j g' y Hj Hg' Hy. cbn [set_mem m_tab m_mem told] in *. destruct (decide (g' = g)) as [->|?].
      * rewrite lookup_insert_eq in Hy. by simplify_eq.
      * rewrite lookup_insert_ne in Hy by done. apply (Hpo j g' y); [|done..]. cbn. assert (j <> i) by congruence. lia.
    + injection Hst as <- <-. right. split; [cbn [call_left]; lia|]. split; [done|]. split; [done|]. left. split; [done|].
      intros j g y _ Hg Hy. apply (Hpo j g y); [|done..]. assert (Hd : is_Some (m_tab s !! j)) by (by eexists). apply (mi_dom _ _ Hm) in Hd. cbn in Hd |- *. lia.
  - destruct (Z.ltb_spec (m_nexited s) (n - 1)) as [Hlt|Hlt]; injection Hst as <- <-; [by left|]. right.
    split; [cbn [call_left]; lia|]. split; [done|]. split; [done|]. left. split; [done|]. intros j g y _. by apply Hpo.
  - destruct Hpc as (-> & Hi & Hall). destruct (Z.ltb_spec i (m_ntab s)) as [Hlt|Hlt].
    + destruct (m_tab s !! i) as [g|] eqn:Hg; [|done]. cbn [mbind option_bind] in Hst. destruct (m_mem s !! g) as [x|] eqn:Hx; [|done].
      cbn [mbind option_bind] in Hst. rewrite (Hall i g Hg) in Hst. cbn [mbind option_bind] in Hst. rewrite bool_decide_eq_true_2 in Hst by done.
      cbn [negb] in Hst. injection Hst as <- <-. right. split; [|split; [done|split; [done|left; split; [done|]]]].
      * assert (Hw : work (set_tab (m_ntab s) (delete i (m_tab s)) (set_mem (delete g (m_mem s)) s)) = work s).
        { unfold work. apply zsum_ext. intros j _. unfold phase_at. cbn [set_tab set_mem m_tab m_os]. destruct (decide (j = i)) as [->|?].
          - rewrite lookup_delete_eq, Hg. cbn [mbind option_bind]. by rewrite (Hall i g Hg).
          - by rewrite lookup_delete_ne. }
        rewrite Hw. cbn [call_left]. lia.
      * intros j g' y _ Hg' Hy. cbn [set_tab set_mem m_tab m_mem] in *. apply lookup_delete_Some in Hg' as [_ Hg']. apply lookup_delete_Some in Hy as [_ Hy].
        by apply (Hpo j g' y).
    + injection Hst as <- <-. right. split; [cbn [call_left]; lia|]. split; [done|]. split; [done|]. left. split; [done|]. intros j g y _. by apply Hpo.
  - injection Hst as <- <-. right. pose proof (work_nonneg s).
    assert (Hw : work (set_nexited 0 (set_tab 1 (m_tab s) s)) = 0) by done. rewrite Hw. cbn [call_left].
    split; [lia|]. split; [done|]. split; [done|]. by right.
Qed.

(** As long as the call is not over, there is a step. *)
Lemma winding_progress c s : winding c s -> (exists s', mp_next c s s') \/ m_calls s !! c = Some (MRet (Prelude.ok true)) /\ m_ntab s = 1.
Proof.
  intros (p & Hc & Hm & [[Hs Hpo]|[-> Hn]]); [|by right]. left. assert (Ho : over p = false) by (by destruct p).
  destruct (minv_step NULL true p s Hm Ho) as (p' & s' & Hst & _ & Hcs); [done|].
  destruct (decide (p' = p)) as [->|Hne].
  - destruct p as [| | |i n|n|i n| |]; try done; cbn [mp_step] in Hst.
    + destruct (i <? n); [|done]. destruct (m_tab s !! i) as [g|]; [|done]. cbn [mbind option_bind] in Hst. destruct (m_mem s !! g); [|done].
      injection Hst as ?. lia.
    + destruct (Z.ltb_spec (m_nexited s) (n - 1)) as [Hlt|Hlt]; [|done]. assert (Hpc := mi_pc _ _ Hm). cbn in Hpc. subst n.
      assert (Hone := mi_one _ _ Hm). rewrite (mi_count _ _ Hm eq_refl) in Hlt.
      destruct (zsum_short (gone s) (slots s)) as (i & Hi & Hg1); [unfold slots at 2; rewrite length_seqZ; lia|]. apply slots_in in Hi.
      destruct (proj2 (mi_dom _ _ Hm i)) as [g Hg]; [cbn; lia|]. destruct (mi_tab _ _ Hm i g Hg) as (x & ph & Hx & _ & Hos & Hset & _).
      assert (Hph : ph <> BGone).
      { intros ->. unfold gone, phase_at in Hg1. rewrite Hg in Hg1. cbn [mbind option_bind] in Hg1. rewrite Hos, bool_decide_eq_true_2 in Hg1 by done. lia. }
      destruct (minv_bootstrap _ g true s ph Hm Hos Hph) as (s2 & Hb & _). exists s2. apply (mn_thread c s g true); [done|].
      intros ->. unfold pth_gsched_bootstrap in Hb. rewrite Hos in Hb. cbn [mbind option_bind] in Hb. rewrite Hx in Hb.
      assert (Hst' : gs_stop x = true) by (by apply (Hpo i g x)).
      destruct ph; try done; cbn [mbind option_bind] in Hb; rewrite ?Hst' in Hb; injection Hb as Hb;
        apply (f_equal (fun t => m_os t !! g)) in Hb; cbn in Hb; rewrite lookup_insert_eq, Hos in Hb; done.
    + destruct (Z.ltb_spec i n) as [Hlt|Hlt]; [|done]. destruct (mi_pc _ _ Hm) as (-> & Hi & Hall).
      destruct (m_tab s !! i) as [g|] eqn:Hg; [|done]. cbn [mbind option_bind] in Hst. destruct (m_mem s !! g); [|done].
      cbn [mbind option_bind] in Hst. rewrite (Hall i g Hg) in Hst. cbn [mbind option_bind] in Hst. rewrite bool_decide_eq_true_2 in Hst by done.
      injection Hst as ?. lia.
  - exists (set_call c p' s'). apply (mn_call c s p p' s' Hc Hst). intros He. apply (f_equal (fun t => m_calls t !! c)) in He.
    cbn in He. rewrite lookup_insert_eq, Hc in He. by simplify_eq.
Qed.

Lemma winding_next c s s' : winding c s -> mp_next c s s' -> winding c s' /\ left_over c s' < left_over c s.
Proof.
  intros Hw [p p' s1 Hc Hst Hne|g ok s1 Hb Hne]; [|by apply (winding_thread c g ok)].
  destruct Hw as (q & Hq & Hm & Hr). assert (q = p) as -> by congruence. destruct Hr as [[Hs Hpo]|[-> _]]; [|done].
  destruct (winding_step p s p' s1 Hm Hs Hpo Hst) as [[-> ->]|(Hlt & Hcs & Hm' & Hr')].
  { exfalso. apply Hne. unfold set_call. rewrite insert_id by done. by destruct s. }
  split.
  - exists p'. cbn [set_call m_calls]. rewrite lookup_insert_eq. split; [done|]. split; [by apply minv_call|]. exact Hr'.
  - unfold left_over. cbn [set_call m_calls]. rewrite lookup_insert_eq, Hc. cbn [from_option].
    change (work (set_call c p' s1)) with (work s1). lia.
Qed.
Lemma winding_acc c s : winding c s -> Acc (flip (mp_next c)) s.
Proof.
  remember (Z.to_nat (left_over c s)) as n eqn:Hn. revert s Hn. induction (lt_wf n) as [n _ IH]. intros s -> Hw. constructor. intros s' Hs'.
  destruct (winding_next c s s' Hw Hs') as [Hw' Hlt]. pose proof (left_nonneg c s' Hw'). eapply IH; [|reflexivity|done]. lia.
Qed.

(** C18: pth_mp_shutdown returns. Where its messages can be posted and every
    scheduler runs dry once it was told to stop, the call and the schedulers'
    threads cannot go on for ever without a step that changes nothing, whatever
    the order of their steps, and until the call is over there is always a step
    that changes something; it then returns TRUE and one scheduler is left. *)
Theorem mp_shutdown_returns s c : mp_reach true s -> idle s -> m_calls s !! c = None ->
  let s0 := set_call c (pth_mp_shutdown true true s) s in
  Acc (flip (mp_next c)) s0 /\
  forall s', rtc (mp_next c) s0 s' ->
    (exists s'', mp_next c s' s'') \/ m_calls s' !! c = Some (MRet (Prelude.ok true)) /\ pth_sched_count s' = 1.
Proof.
  intros Hr Hi Hc s0. destruct (serial_idle s (serial_reach s Hr) Hi) as (r & Hm & _). assert (Hw : winding c s0).
  { exists (MPost 1 (m_ntab s)). unfold s0. cbn [set_call m_calls]. rewrite lookup_insert_eq. split; [done|].
    split; [apply minv_call; by apply (minv_move _ _ _ Hm)|]. left. split; [done|]. intros j g x Hj Hg _. cbn in Hj, Hg.
    assert (Hd : is_Some (m_tab s !! j)) by (by eexists). apply (mi_dom _ _ Hm) in Hd. cbn in Hd. lia. }
  split; [by apply winding_acc|]. intros s' Hs'. apply winding_progress. clearbody s0.
  induction Hs' as [|s1 s2 s3 H12 _ IH]; [done|]. apply IH. by eapply winding_next.
Qed.

(** ** Runs *)

(** A call begins, a call goes on, a scheduler's thread goes on. *)
Inductive mp_act := AInit (c : addr) (n : Z) | AShut (c : addr) | ACall (c : addr) (a : ptr) (ok : bool) | ABoot (g : addr) (ok : bool).
Definition idleb (s : mps) : bool := bool_decide (map_Forall (fun _ p => over p = true) (m_calls s)).
Definition fresh_for (a : ptr) (s : mps) : bool := if a is Some g then bool_decide (m_mem s !! g = None) else true.
Definition mp_act_step (serial : bool) (x : mp_act) (s : mps) : option mps :=
  match x with
  | AInit c n => if negb serial || idleb s then if m_calls s !! c is None then Some (set_call c (pth_mp_init true n) s) else None else None
  | AShut c => if negb serial || idleb s then if m_calls s !! c is None then Some (set_call c (pth_mp_shutdown true true s) s) else None else None
  | ACall c a ok => p ← m_calls s !! c; if fresh_for a s then '(p', s') ← mp_step a ok p s; Some (set_call c p' s') else None
  | ABoot g ok => pth_gsched_bootstrap g ok s
  end.
Fixpoint mp_run (serial : bool) (l : list mp_act) (s : mps) : option mps :=
  match l with [] => Some s | x :: l => s' ← mp_act_step serial x s; mp_run serial l s' end.

Lemma mp_act_reach serial x s s' : mp_reach serial s -> mp_act_step serial x s = Some s' -> mp_reach serial s'.
Proof.
  intros Hr. assert (Hid : negb serial || idleb s = true -> if serial then idle s else True).
  { destruct serial; [|done]. cbn. unfold idleb. intros H%bool_decide_eq_true. exact H. }
  destruct x as [c n|c|c a ok|g ok]; cbn [mp_act_step].
  - destruct (negb serial || idleb s); [|done]. destruct (m_calls s !! c) eqn:Hc; [done|]. intros [= <-]. exact (mr_init serial s c n Hr (Hid eq_refl) Hc).
  - destruct (negb serial || idleb s); [|done]. destruct (m_calls s !! c) eqn:Hc; [done|]. intros [= <-]. exact (mr_shutdown serial s c Hr (Hid eq_refl) Hc).
  - destruct (m_calls s !! c) as [p|] eqn:Hc; [|done]. cbn [mbind option_bind]. destruct (fresh_for a s) eqn:Hf; [|done].
    destruct (mp_step a ok p s) as [[p' s1]|] eqn:Hst; [|done]. cbn [mbind option_bind]. intros [= <-]. eapply mr_call; try done.
    intros g ->. by apply bool_decide_eq_true in Hf.
  - intros Hb. by eapply mr_boot.
Qed.
Lemma mp_run_reach serial l s s' : mp_reach serial s -> mp_run serial l s = Some s' -> mp_reach serial s'.
Proof.
  revert s. induction l as [|x l IH]; intros s Hr; cbn [mp_run]; [by intros [= <-]|].
  destruct (mp_act_step serial x s) as [s1|] eqn:Hx; [|done]. cbn [mbind option_bind]. intros H. eapply IH; [|done]. by eapply mp_act_reach.
Qed.

(** One auxiliary scheduler is started, another does not come up; then the first
    is stopped. *)
Definition demo_start : list mp_act :=
  [AInit 1 3; ACall 1 (Some 10%positive) true; ACall 1 NULL true; ABoot 10 true; ACall 1 NULL true; ABoot 10 true; ABoot 10 true; ACall 1 NULL true;
   ACall 1 (Some 11%positive) true; ACall 1 NULL true; ABoot 11 false; ABoot 11 true; ABoot 10 true; ACall 1 NULL true].
Definition demo_stop : list mp_act :=
  [AShut 2; ACall 2 NULL true; ACall 2 NULL true; ACall 2 NULL true; ABoot 10 true; ABoot 10 true; ABoot 10 true; ACall 2 NULL true; ACall 2 NULL true; ACall 2 NULL true].
Definition at_end (s : option mps) : mps := from_option id mp_start s.

Lemma mp_lifecycle_witness : exists s1 s2,
  mp_run true demo_start mp_start = Some s1 /\ m_calls s1 !! 1%positive = Some (MRet (pth_error false EAGAIN)) /\ idle s1 /\
  pth_sched_count s1 = 2 /\ m_os s1 !! 10%positive = Some BRun /\ m_mem s1 !! 11%positive = None /\
  mp_run true demo_stop s1 = Some s2 /\ m_calls s2 !! 2%positive = Some MReset /\ m_mem s2 = ∅.
Proof.
  exists (at_end (mp_run true demo_start mp_start)), (at_end (mp_run true (demo_start ++ demo_stop) mp_start)).
  assert (H1 : mp_reach true (at_end (mp_run true demo_start mp_start))) by (apply (mp_run_reach true demo_start mp_start); [apply mr_start|vm_compute; reflexivity]).
  assert (H2 : mp_reach true (at_end (mp_run true (demo_start ++ demo_stop) mp_start))) by (apply (mp_run_reach true (demo_start ++ demo_stop) mp_start); [apply mr_start|vm_compute; reflexivity]).
  assert (Hi : idle (at_end (mp_run true demo_start mp_start))).
  { assert (Hb : idleb (at_end (mp_run true demo_start mp_start)) = true) by (vm_compute; reflexivity).
    apply bool_decide_eq_true in Hb. exact Hb. }
  destruct (mp_lifecycle _ H1) as (_ & _ & _ & Ht & _). destruct (mp_lifecycle _ H2) as (_ & _ & _ & _ & _ & Hr).
  assert (Hc : m_calls (at_end (mp_run true (demo_start ++ demo_stop) mp_start)) !! 2%positive = Some MReset) by (vm_compute; reflexivity).
  destruct (Hr _ Hc) as (_ & Hmem & _). specialize (Ht Hi 1).
  assert (Ht1 : m_tab (at_end (mp_run true demo_start mp_start)) !! 1 = Some 10%positive) by (vm_compute; reflexivity). rewrite Ht1 in Ht.
  destruct Ht as (_ & _ & Hos).
  repeat match goal with |- _ /\ _ => split end; try exact Hi; try exact Hc; try exact Hos; try exact Hmem; vm_compute; reflexivity.
Defined.

Lemma mp_shutdown_returns_witness :
  let s0 := set_call 2 (pth_mp_shutdown true true (at_end (mp_run true demo_start mp_start))) (at_end (mp_run true demo_start mp_start)) in
  m_calls s0 !! 2%positive = Some (MPost 1 2) /\ Acc (flip (mp_next 2)) s0.
Proof.
  intros s0. split; [vm_compute; reflexivity|]. apply mp_shutdown_returns.
  - apply (mp_run_reach true demo_start mp_start); [apply mr_start|vm_compute; reflexivity].
  - assert (Hb : idleb (at_end (mp_run true demo_start mp_start)) = true) by (vm_compute; reflexivity). apply bool_decide_eq_true in Hb. exact Hb.
  - vm_compute. reflexivity.
Defined.

(** Two calls of [pth_mp_init] that overlap take the same number: of the two
    schedulers that run only the second is in the table, a slot below the count
    is empty, and the next [pth_mp_shutdown] reads it. *)
Definition demo_overlap : list mp_act :=
  [AInit 1 2; AInit 2 2; ACall 1 (Some 10%positive) true; ACall 1 NULL true; ACall 2 (Some 11%positive) true; ACall 2 NULL true;
   ABoot 10 true; ABoot 10 true; ABoot 10 true; ABoot 11 true; ABoot 11 true; ABoot 11 true;
   ACall 1 NULL true; ACall 2 NULL true; ACall 1 NULL true; ACall 2 NULL true; AShut 3; ACall 3 NULL true].
Lemma mp_init_overlap :
  let s := at_end (mp_run false demo_overlap mp_start) in
  mp_reach false s /\ pth_sched_count s = 3 /\ m_tab s !! 1 = Some 11%positive /\ m_tab s !! 2 = None /\ m_os s !! 10%positive = Some BRun /\
  m_calls s !! 3%positive = Some (MPost 2 3) /\ mp_step NULL true (MPost 2 3) s = None.
Proof.
  intros s. split; [apply (mp_run_reach false demo_overlap mp_start); [apply mr_start|vm_compute; reflexivity]|]. split_and!; vm_compute; reflexivity.
Qed.

(** A stop message for which there is no memory: the call naps for ever. *)
Definition demo_lost : list mp_act :=
  [AInit 1 2; ACall 1 (Some 10%positive) true; ACall 1 NULL true; ABoot 10 true; ABoot 10 true; ABoot 10 true; ACall 1 NULL true; ACall 1 NULL true;
   AShut 2; ACall 2 NULL false; ACall 2 NULL true].
Lemma mp_shutdown_lost_post :
  let s := at_end (mp_run true demo_lost mp_start) in
  mp_reach true s /\ m_calls s !! 2%positive = Some (MWait 2) /\ (forall a ok, mp_step a ok (MWait 2) s = Some (MWait 2, s)) /\
  (forall g ok s', pth_gsched_bootstrap g ok s = Some s' -> s' = s).
Proof.
  intros s. split; [apply (mp_run_reach true demo_lost mp_start); [apply mr_start|vm_compute; reflexivity]|].
  split; [vm_compute; reflexivity|]. split; [intros a ok; vm_compute; reflexivity|]. intros g ok s' H.
  assert (Hos : m_os s = {[10%positive := BRun]}) by (vm_compute; reflexivity). unfold pth_gsched_bootstrap in H. rewrite Hos in H.
  destruct (decide (g = 10%positive)) as [->|Hne]; [|by rewrite lookup_singleton_ne in H].
  assert (Hx : gs_stop <$> m_mem s !! 10%positive = Some false) by (vm_compute; reflexivity).
  rewrite lookup_singleton_eq in H. cbn [mbind option_bind] in H. destruct (m_mem s !! 10%positive) as [x|]; [|done].
  cbn in Hx. injection Hx as Hx. cbn [mbind option_bind] in H. rewrite Hx in H. by injection H.
Qed.
