(* ===== verification/Loop.v ===== *)
(** * The scheduler loop (src/pth_sched.c, lines 446-756)

    The endless loop of [pth_scheduler], a round at a time, out of the parts
    of [Dispatch] and the event manager of [Evman]: adopt the new threads,
    update the load average, choose a thread, switch to it, put it away when
    it comes back, look for events. The thread that runs is a parameter. *)

From stdpp Require Import base numbers gmap list.
From Stdlib Require Import Floats.SpecFloat.
From S2P Require Import Prelude Links Pqueue Ring Timeval Msg Waitq Clean Util Event Inbox Queues World Thread Demo.
From S2P Require Import Sched Dispatch Evman Evstep Pollset Evdemo Evcleanup Evassemble Evpass.
Open Scope Z_scope.

(** ** The load average

    [float] and [double] are the IEEE formats of 24 and 53 bits. *)
Definition dbl (f : spec_float) : spec_float :=
  match f with S754_finite s m e => binary_round 53 1024 s m e | f => f end.
Definition flt (f : spec_float) : spec_float :=
  match f with S754_finite s m e => binary_round 24 128 s m e | f => f end.
Definition int_dbl (n : Z) : spec_float := binary_normalize 53 1024 n 0 false.
(** [0.25], [0.75] and [1.0F] *)
Definition quarter : spec_float := S754_finite false (2 ^ 52) (-54).
Definition three_quarters : spec_float := S754_finite false (3 * 2 ^ 51) (-53).
Definition load_init : spec_float := S754_finite false (2 ^ 23) (-23).

Definition load_step (numready : Z) (v : spec_float) : spec_float :=
  flt (SFadd 53 1024 (SFmul 53 1024 (int_dbl numready) quarter) (SFmul 53 1024 (dbl v) three_quarters)).

(** [loadval], [loadticknext] and [loadtickgap] of the scheduler. *)
Record load := Load { l_val : spec_float; l_next : pth_time_t; l_gap : pth_time_t }.

(** The loop of [pth_scheduler_load], which runs at least once. *)
Fixpoint load_loop (fuel : nat) (numready : Z) (ttmp next gap : pth_time_t) (v : spec_float) : option spec_float :=
  let v := load_step numready v in
  let ttmp := pth_time_sub ttmp gap in
  if 0 <=? pth_time_cmp ttmp next then
    match fuel with O => None | S fuel' => load_loop fuel' numready ttmp next gap v end
  else Some v.
(** One more than the seconds that the ticks are behind are enough. *)
Definition load_fuel (now next : pth_time_t) : nat := Z.to_nat (tv_sec now - tv_sec next + 1).
Definition pth_scheduler_load (numready : Z) (now : pth_time_t) (l : load) : option load :=
  if 0 <=? pth_time_cmp now (l_next l) then
    v ← load_loop (load_fuel now (l_next l)) numready now (l_next l) (l_gap l) (l_val l);
    Some (Load v (pth_time_add now (l_gap l)) (l_gap l))
  else Some l.

Example load_steady : load_step 1 load_init = load_init.
Proof. vm_compute. reflexivity. Qed.
Example load_idle_tick : pth_scheduler_load 0 (Tv 52 500000) (Load load_init (Tv 50 0) (Tv 1 0)) =
  Some (Load (S754_finite false 14155776 (-25)) (Tv 53 500000) (Tv 1 0)).
Proof. vm_compute. reflexivity. Qed.

(** How often the loop runs: once for each second begun since the tick. *)
Definition load_ticks (now next : pth_time_t) : nat :=
  Z.to_nat (tv_sec now - tv_sec next + (if tv_usec next <=? tv_usec now then 1 else 0)).
Definition sane (t : pth_time_t) : Prop := - 2 ^ 62 < tv_sec t < 2 ^ 62 /\ 0 <= tv_usec t <= 1000000.

Lemma cmp_sane a b : sane a -> sane b -> - 2 ^ 30 < tv_sec a - tv_sec b < 2 ^ 30 ->
  (0 <=? pth_time_cmp a b) = (if tv_usec b <=? tv_usec a then 0 <=? tv_sec a - tv_sec b else 0 <? tv_sec a - tv_sec b).
Proof.
  unfold sane, pth_time_cmp. intros [Ha Ha'] [Hb Hb'] Hab. cbv zeta. fits.
  destruct (Z.eqb_spec (tv_sec a - tv_sec b) 0), (Z.leb_spec (tv_usec b) (tv_usec a)); lia.
Qed.
Lemma sub_second t : sane t -> - 2 ^ 61 < tv_sec t -> pth_time_sub t (Tv 1 0) = Tv (tv_sec t - 1) (tv_usec t).
Proof.
  unfold sane, pth_time_sub. intros [H1 H2] H3. cbn [tv_sec tv_usec]. cbv zeta. fits. rewrite Z.sub_0_r.
  destruct (Z.ltb_spec (tv_usec t) 0); [lia|done].
Qed.

Lemma load_loop_ok n next fuel : sane next -> - 2 ^ 60 < tv_sec next -> forall t v, sane t ->
  0 <= tv_sec t - tv_sec next < 2 ^ 30 -> (0 <=? pth_time_cmp t next) = true -> tv_sec t - tv_sec next <= Z.of_nat fuel ->
  load_loop fuel n t next (Tv 1 0) v = Some (Nat.iter (load_ticks t next) (load_step n) v).
Proof.
  intros Hn Hn'. induction fuel as [|fuel IH]; intros t v Ht Hd Hc Hf; rewrite (cmp_sane t next Ht Hn) in Hc by lia;
    assert (Ht' : sane (Tv (tv_sec t - 1) (tv_usec t))) by (unfold sane in *; cbn [tv_sec tv_usec]; lia);
    assert (Hcc := cmp_sane _ next Ht' Hn ltac:(cbn [tv_sec]; lia)); cbn [tv_sec tv_usec] in Hcc;
    cbn [load_loop]; cbv zeta; rewrite (sub_second t Ht) by lia; rewrite Hcc.
  - assert (load_ticks t next = 1%nat) as -> by (unfold load_ticks; destruct (tv_usec next <=? tv_usec t); lia).
    destruct (tv_usec next <=? tv_usec t); [|lia]. by destruct (Z.leb_spec 0 (tv_sec t - 1 - tv_sec next)); [lia|].
  - assert (Hone : load_ticks t next = S (load_ticks (Tv (tv_sec t - 1) (tv_usec t)) next)).
    { unfold load_ticks. cbn [tv_sec tv_usec]. destruct (tv_usec next <=? tv_usec t); lia. }
    destruct (0 <=? pth_time_cmp (Tv (tv_sec t - 1) (tv_usec t)) next) eqn:Eg; rewrite <- Hcc.
    + rewrite IH; [by rewrite Hone, Nat.iter_succ_r|done| |done|cbn [tv_sec]; lia].
      cbn [tv_sec]. destruct (tv_usec next <=? tv_usec t); lia.
    + assert (load_ticks t next = 1%nat) as ->; [|done]. unfold load_ticks. destruct (tv_usec next <=? tv_usec t); lia.
Qed.

(** The load is brought up to date: one step of the average for each second
    begun since the last tick, none before it, and the next tick is a second
    from now. *)
Lemma load_ok n now l : l_gap l = Tv 1 0 -> sane now -> sane (l_next l) -> - 2 ^ 60 < tv_sec (l_next l) ->
  - 2 ^ 30 < tv_sec now - tv_sec (l_next l) < 2 ^ 30 ->
  pth_scheduler_load n now l = Some (if 0 <=? pth_time_cmp now (l_next l)
    then Load (Nat.iter (load_ticks now (l_next l)) (load_step n) (l_val l)) (pth_time_add now (Tv 1 0)) (Tv 1 0) else l).
Proof.
  intros Hg Hn Hx Hx' Hd. unfold pth_scheduler_load. destruct (0 <=? pth_time_cmp now (l_next l)) eqn:Hc; [|done].
  assert (Hc' := Hc). rewrite (cmp_sane now _ Hn Hx Hd) in Hc'. rewrite Hg.
  rewrite load_loop_ok; [done|done..| |done|]; unfold load_fuel; destruct (tv_usec (l_next l) <=? tv_usec now); lia.
Qed.

(** ** A round of the loop *)

Section ops.
Context {H U B : Type} `{!QueueOps H, !CleanupOps H U, !PortOps U, !FdBackend B}.
Abbreviation wd := (world H U).
Abbreviation em := (emst H U B).
Context (self : addr) (malloc : gset addr -> ptr).
Context (PTH_NSIG SIGSEGV sigpipe : Z).

(** The scheduler with its load average. *)
Record sst := Sst { ss_em : em; ss_load : load }.
Definition on_em {A : Type} (m : st em A) : st sst A := zoom ss_em (fun e s => Sst e (ss_load s)) m.
Definition sw (s : sst) : wd := em_w (ss_em s).

(** What a round gets from outside: the clock before it waits without a ready
    thread, at the start and at the end of the thread's run; what the threads
    do from the switch to them until they switch back; the disposition of
    [SIGSEGV]; the passes of the event manager. *)
Record round := Round {
  r_idle : pth_time_t;
  r_start : pth_time_t;
  r_end : pth_time_t;
  r_run : addr -> st em unit;
  r_sigaction_ok : bool;
  r_sigsegv_dfl : bool;
  r_passes : list pass
}.

(** How a round ends: the next one follows, with its [snapshot], after the
    thread [ran]; or the passes of the round are over and the event manager
    asks for another one; or the loop is left to the boot context; or the
    process aborts, without a thread or on a stack overflow. *)
Inductive outcome :=
| CNext (ran : ptr) (snapshot : pth_time_t)
| CBusy (ran : ptr)
| CLeave
| CAbort
| COverflow.

(** [pth_scheduler_load(g, &snapshot)] *)
Definition sched_load (snapshot : pth_time_t) : st sst unit := fun s =>
  l ← pth_scheduler_load (elements (sw s) RQ) snapshot (ss_load s); Some (tt, Sst (ss_em s) l).

(** [sched_select], in two parts. *)
Definition sched_adopt : st wd unit := w ← get_st; sched_new (Z.to_nat (qo_elements NQ (w_q w))).
Definition sched_pick : st wd ptr := t ← on_q (qo_delmax RQ); updg (set_current t);; mret t.

Definition manage (ran : ptr) (now : pth_time_t) (dopoll : bool) (ps : list pass) : st sst outcome :=
  r ← on_em (eventmanager self malloc PTH_NSIG sigpipe now dopoll ps);
  mret (match r with Some snapshot => CNext ran snapshot | None => CBusy ran end).

(** From the switch to the thread [c] to the event manager. *)
Definition sched_thread (snapshot : pth_time_t) (r : round) (c : addr) : st sst outcome :=
  on_em (on_w (sched_dispatch PTH_NSIG (Some c) snapshot (r_start r)));;
  on_em (r_run r c);;
  go ← on_em (on_w (sched_back PTH_NSIG SIGSEGV (Some c) (r_end r) (r_sigaction_ok r) (r_sigsegv_dfl r)));
  if (go : bool) then
    on_em (on_w (sched_settle self malloc));;
    s ← get_st;
    match sched_after (sw s) with
    | ALeave => mret CLeave
    | AWait => manage (Some c) (r_end r) false (r_passes r)
    | APoll => manage (Some c) (r_end r) true (r_passes r)
    end
  else mret COverflow.

Definition sched_round (snapshot : pth_time_t) (r : round) : st sst outcome :=
  on_em (on_w sched_adopt);;
  sched_load snapshot;;
  t ← on_em (on_w sched_pick);
  s ← get_st;
  match t with
  | None =>
      match sched_idle (sw s) with
      | ILeave => mret CLeave
      | IWait => manage NULL (r_idle r) false (r_passes r)
      | IAbort => mret CAbort
      end
  | Some c => sched_thread snapshot r c
  end.

(** The loop, for the given rounds. *)
Fixpoint sched_loop (snapshot : pth_time_t) (rs : list round) : st sst outcome :=
  match rs with
  | [] => mret (CNext NULL snapshot)
  | r :: rs' =>
      o ← sched_round snapshot r;
      match o with CNext _ snapshot' => sched_loop snapshot' rs' | _ => mret o end
  end.
(** Its beginning. *)
Definition pth_scheduler (now : pth_time_t) (rs : list round) : st sst outcome :=
  s ← get_st;
  on_em (on_w (upd_tcb (g_scheduler (w_g (sw s))) (set_state PTH_STATE_SCHEDULER)));;
  sched_loop now rs.
End ops.
Arguments Sst {H U B}. Arguments ss_em {H U B}. Arguments ss_load {H U B}.
Arguments round : clear implicits. Arguments Round {H U B}. Arguments r_idle {H U B}. Arguments r_start {H U B}. Arguments r_end {H U B}. Arguments r_run {H U B}.
Arguments r_sigaction_ok {H U B}. Arguments r_sigsegv_dfl {H U B}. Arguments r_passes {H U B}.

(** ** Steps that concern no waiting thread *)

Section frame.
Context {H U : Type} `{!QueueOps H, !CleanupOps H U}.
Abbreviation wd := (world H U).

Definition same_thread (x y : tcb) : Prop :=
  t_events y = t_events x /\ t_joinable y = t_joinable x /\ t_home y = t_home x.
Record gentle (w w' : wd) : Prop := {
  ge_user : w_user w' = w_user w;
  ge_ev : w_ev w' = w_ev w;
  ge_inb : w_inb w' = w_inb w;
  ge_sched : g_scheduler (w_g w') = g_scheduler (w_g w);
  ge_tcb : forall t x, w_tcb w !! t = Some x -> exists y, w_tcb w' !! t = Some y /\ same_thread x y
}.
Lemma gentle_refl w : gentle w w.
Proof. constructor; try done. intros t x Hx. by exists x. Qed.
Lemma gentle_trans w1 w2 w3 : gentle w1 w2 -> gentle w2 w3 -> gentle w1 w3.
Proof.
  intros [A1 A2 A3 A4 A5] [B1 B2 B3 B4 B5]. constructor; try congruence.
  intros t x Hx. destruct (A5 t x Hx) as (y & Hy & ? & ? & ?). destruct (B5 t y Hy) as (z & Hz & ? & ? & ?).
  exists z. split; [done|]. unfold same_thread. split_and!; congruence.
Qed.

(** A computation whose steps are all gentle. *)
Definition framed {A : Type} (m : st wd A) : Prop := forall w a w', m w = Some (a, w') -> gentle w w'.
Lemma framed_ret {A : Type} (a : A) : framed (mret a).
Proof. intros w b w' [= _ <-]. apply gentle_refl. Qed.
Lemma framed_bind {A C : Type} (m : st wd A) (k : A -> st wd C) : framed m -> (forall a, framed (k a)) -> framed (m ≫= k).
Proof.
  intros Hm Hk w c w' Hc. unfold mbind, st_bind in Hc. destruct (m w) as [[a w1]|] eqn:Em; [|done].
  eapply gentle_trans; [by eapply Hm|by eapply Hk].
Qed.
Lemma framed_undef {A : Type} : framed (undef : st wd A).
Proof. by intros w a w'. Qed.
Lemma framed_get : framed get_st.
Proof. intros w a w' [= _ <-]. apply gentle_refl. Qed.
Lemma framed_getg {A : Type} (f : gsched -> A) : framed (getg f).
Proof. intros w a w' [= _ <-]. apply gentle_refl. Qed.
Lemma framed_rd t : framed (rd_tcb t).
Proof. intros w a w'. unfold rd_tcb. destruct t as [t|]; [|done]. destruct (w_tcb w !! t); [|done]. intros [= _ <-]. apply gentle_refl. Qed.
Lemma framed_q {A : Type} (m : st H A) : framed (on_q m).
Proof.
  intros w a w'. unfold on_q, zoom. destruct (m (w_q w)) as [[b q]|]; [|done]. intros [= _ <-].
  constructor; try done. intros t x Hx. by exists x.
Qed.
Lemma framed_updg f : (forall g, g_scheduler (f g) = g_scheduler g) -> framed (updg f).
Proof. intros Hf w a w' [= _ <-]. constructor; try done; [apply Hf|]. intros t x Hx. by exists x. Qed.
Lemma framed_upd t f : (forall x, same_thread x (f x)) -> framed (upd_tcb t f).
Proof.
  intros Hf w a w'. unfold upd_tcb. destruct t as [t|]; [|done]. destruct (w_tcb w !! t) as [x|] eqn:Hx; [|done].
  intros [= _ <-]. constructor; try done. intros u y Hy. destruct (decide (u = t)) as [->|Hne]; cbn.
  - exists (f x). rewrite lookup_insert_eq. by simplify_eq.
  - exists y. by rewrite lookup_insert_ne.
Qed.
Lemma framed_updw (f : wd -> wd) : (forall w, gentle w (f w)) -> framed (updw f).
Proof. by intros Hf w a w' [= _ <-]. Qed.
End frame.

Create HintDb frame.
#[export] Hint Resolve framed_ret framed_undef framed_get framed_getg framed_rd framed_q : frame.
Ltac framed :=
  repeat first
    [ apply framed_bind; [|intros ?]
    | solve [auto with frame]
    | apply framed_updg; by intros []
    | apply framed_upd; by intros []
    | match goal with |- framed (if ?b then _ else _) => destruct b | |- framed (match ?p with _ => _ end) => destruct p end ].

Section parts.
Context {H U : Type} `{!QueueOps H, !CleanupOps H U}.
Abbreviation wd := (world H U).
Context (PTH_NSIG SIGSEGV : Z).

Lemma sched_new_framed fuel : framed (sched_new (H := H) (U := U) fuel).
Proof. induction fuel as [|fuel IH]; cbn [sched_new]; framed. Qed.
Lemma sched_select_framed : framed (sched_select (H := H) (U := U)).
Proof. unfold sched_select. framed. apply sched_new_framed. Qed.
Lemma sched_dispatch_framed cur snapshot now : framed (sched_dispatch (H := H) (U := U) PTH_NSIG cur snapshot now).
Proof.
  unfold sched_dispatch. framed. apply framed_updw. intros w. constructor; try done. intros t x Hx. by exists x.
Qed.
Lemma sched_back_framed cur snapshot ok dfl : framed (sched_back (H := H) (U := U) PTH_NSIG SIGSEGV cur snapshot ok dfl).
Proof.
  unfold sched_back. framed; apply framed_updw; intros w; constructor; try done; intros t x Hx; by exists x.
Qed.
End parts.

(** ** The invariant of the loop *)

Section loop.
Context {H U B : Type} `{!QueueOps H, !QueueLaws H, !CleanupOps H U, !PortOps U, !FdBackend B, !FdBackendLaws B}.
Context (self : addr) (G E : gset addr) `{!CleanupLaws H U self G E, !FreeLaws H U}.
Context (malloc : gset addr -> ptr) (malloc_fresh : forall A a, malloc A = Some a -> a ∉ A).
Context (PTH_NSIG SIGSEGV sigpipe : Z) (pipe_ok : fb_fd (B := B) sigpipe).
(** Freeing a thread's own resources leaves the message ports alone. *)
Context (keep_ports : forall u u', fr_keep u u' -> dom (m_ports (po_ports u')) = dom (m_ports (po_ports u))).
(** The times that the clock tells: seventeen years at most. *)
Context (Clk : pth_time_t -> Prop).
Context (Clk_sane : forall a, Clk a -> sane a /\ - 2 ^ 59 < tv_sec a < 2 ^ 59).
Context (Clk_win : forall a b, Clk a -> Clk b -> - 2 ^ 29 < tv_sec a - tv_sec b < 2 ^ 29).
Abbreviation wd := (world H U).
Abbreviation em := (emst H U B).
Abbreviation winv := (winv self G E).
Abbreviation body s := (e_body (w_ev (em_w s))).

(** The threads of [P] wait, each for the events [R]. No one waits for the
    death of a detached thread of this scheduler. *)
Record waits (P : addr -> Prop) (R : addr -> list addr) (s : em) : Prop := {
  wa_wait : forall a, P a -> waiter s a (R a);
  wa_time : forall a now, P a -> Clk now -> timed now s (R a);
  wa_tid : forall a e x t, P a -> e ∈ R a -> body s !! e = Some x -> ev_args x = ATID (Some t) ->
    exists y, w_tcb (em_w s) !! t = Some y /\ (t_joinable y = true \/ t_home y <> self);
  wa_dis : forall a b e, P a -> P b -> e ∈ R a -> e ∈ R b -> a = b
}.

(** [n]: the waits that the system still answers; [N]: the threads that other
    schedulers will still send; [T]: all threads in transit; [L]: the
    scheduler's own thread and others that are in no queue; [R]: the events
    that are waited for; [l]: the inbox. *)
Record loop_inv (n : nat) (N L : gset addr) (Q : qlists) (T : gset addr) (R : addr -> list addr)
    (l : list (addr * gbody)) (s : em) : Prop := {
  li_w : winv (em_w s) Q (T ∪ L);
  li_dis : T ## L;
  li_b : exists m, (n <= m)%nat /\ fb_ok m (em_b s);
  li_ev : events_ok E (w_ev (em_w s));
  li_wait : waits (in_q Q WQ) R s;
  li_inb : inbox_ok G self (w_inb (em_w s)) l;
  li_mild : Forall mild l.*2;
  li_msgs : msgs_ok E Q T (rev l.*2);
  li_pool : N ⊆ T;
  li_new : forall t, t ∈ N -> Some t ∉ spawned (rev l.*2)
}.

(** What the other schedulers send in the course of the passes. *)
Inductive arrivals : gset addr -> list pass -> gset addr -> Prop :=
| arr_nil N : arrivals N [] N
| arr_cons N p ps new N' :
    (forall h, inbox_ok G self h [] -> inbox_ok G self (pa_arrive p h) new) -> Forall mild new.*2 ->
    msgs_ok E (fun _ => []) N (rev new.*2) -> arrivals (transit N (rev new.*2)) ps N' -> arrivals N (p :: ps) N'.

Lemma clk_near a : Clk a -> near a a.
Proof. intros Ha. destruct (Clk_sane a Ha) as [[_ Hu] _]. unfold near. lia. Qed.

Lemma waits_sub (P P' : addr -> Prop) R s : (forall a, P' a -> P a) -> waits P R s -> waits P' R s.
Proof. intros HP [A1 A2 A3 A4]. constructor; eauto. Qed.

(** A step that keeps the threads that wait and those that are waited for. *)
Lemma waits_step (P : addr -> Prop) R (s s' : em) : waits P R s -> em_mem s' = em_mem s -> w_ev (em_w s') = w_ev (em_w s) ->
  dom (m_ports (po_ports (w_user (em_w s')))) = dom (m_ports (po_ports (w_user (em_w s)))) ->
  (forall t x, w_tcb (em_w s) !! t = Some x -> P t \/ t_joinable x = true \/ t_home x <> self ->
     exists y, w_tcb (em_w s') !! t = Some y /\ same_thread x y) -> waits P R s'.
Proof.
  intros [A1 A2 A3 A4] Hm He Hu Ht. constructor.
  - intros a Ha. assert (Hta := A3 a). destruct (A1 a Ha) as [(x & Hx & Hex) Hr Hwf]. constructor.
    + destruct (Ht a x Hx ltac:(by left)) as (y & Hy & Hey & _). exists y. split; [done|congruence].
    + by rewrite He.
    + intros e y Hel Hy. rewrite He in Hy. assert (Hw := Hwf e y Hel Hy). assert (Hte := fun t => Hta e y t Ha Hel Hy).
      destruct Hw; rewrite ?Hm, ?Hu in *; try by (constructor; rewrite ?Hm, ?Hu).
      constructor. intros t ->. destruct (Hte t eq_refl) as (z & Hz & Hj). destruct (Ht t z Hz ltac:(by right)) as (z' & Hz' & _).
      apply elem_of_dom. by exists z'.
  - intros a now Ha Hn e y. rewrite He. by apply A2.
  - intros a e y t Ha Hel Hy Har. rewrite He in Hy. destruct (A3 a e y t Ha Hel Hy Har) as (z & Hz & Hj).
    destruct (Ht t z Hz ltac:(by right)) as (z' & Hz' & _ & Hj' & Hh'). exists z'. split; [done|]. by rewrite Hj', Hh'.
  - done.
Qed.
Lemma waits_gentle P R (s : em) (w' : wd) : waits P R s -> gentle (em_w s) w' -> waits P R (set_w w' s).
Proof.
  intros Hs [B1 B2 B3 B4 B5]. eapply waits_step; [exact Hs|done|done|by cbn; rewrite B1|]. intros t x Hx _. by apply B5.
Qed.

(** The threads in transit, when messages are applied. *)
Lemma transit_sub ms : forall T, transit T ms ⊆ T.
Proof.
  induction ms as [|m ms IH]; intros T; cbn [transit]; [done|].
  etrans; [apply IH|]. destruct (g_kind m); try done. destruct (g_thread m); set_solver.
Qed.
Lemma transit_mono ms : forall N T, N ⊆ T -> transit N ms ⊆ transit T ms.
Proof.
  induction ms as [|m ms IH]; intros N T HN; cbn [transit]; [done|]. apply IH.
  destruct (g_kind m); try done. destruct (g_thread m); [set_solver|done].
Qed.
Lemma transit_keeps ms : forall N T, N ⊆ T -> (forall t, t ∈ N -> Some t ∉ spawned ms) -> N ⊆ transit T ms.
Proof.
  induction ms as [|m ms IH]; intros N T HN Hs; cbn [transit]; [done|].
  unfold spawned in Hs. rewrite filter_cons in Hs. apply IH.
  - destruct (g_kind m) eqn:Hk; try done. destruct (g_thread m) as [t|] eqn:Ht; [|done].
    intros u Hu. apply elem_of_difference. split; [by apply HN|]. intros ->%elem_of_singleton.
    apply (Hs t Hu). rewrite decide_True by done. rewrite fmap_cons, Ht. by left.
  - intros t Ht Hin. apply (Hs t Ht). case_decide; [|done]. rewrite fmap_cons. by right.
Qed.
Lemma arrivals_sub N ps N' : arrivals N ps N' -> N' ⊆ N.
Proof. induction 1; [done|]. etrans; [done|apply transit_sub]. Qed.
Lemma arrivals_app N ps ps' N' : arrivals N (ps ++ ps') N' -> exists N1, arrivals N ps N1 /\ arrivals N1 ps' N'.
Proof.
  revert N. induction ps as [|p ps IH]; intros N HN; [exists N; split; [constructor|done]|]. cbn [app] in HN.
  inversion HN as [|? ? ? new ? H1 H2 H3 H4]; subst. destruct (IH _ H4) as (N1 & Ha & Hb). exists N1. split; [by econstructor|done].
Qed.
Lemma msgs_more Q N T ms : Forall mild ms -> N ⊆ T -> msgs_ok E (fun _ => []) N ms -> msgs_ok E Q T ms.
Proof.
  intros Hm HN [He Hs Hd]. constructor; try done. rewrite Forall_forall in Hm, He |- *. intros m Hin. specialize (He m Hin). specialize (Hm m Hin).
  unfold msg_ok, mild in *. destruct (g_kind m); try done. destruct He as (t & Ht & Hi). exists t. split; [done|by apply HN].
Qed.
Lemma loop_inv_weak n n' N N' L Q T R l s : loop_inv n N L Q T R l s -> (n' <= n)%nat -> N' ⊆ N -> loop_inv n' N' L Q T R l s.
Proof.
  intros [A1 A2 (m & Hm & A3) A4 A5 A6 A7 A8 A9 A10] Hn HN. constructor; try done; [|set_solver|auto].
  exists m. split; [lia|done].
Qed.

(** ** The event manager keeps it *)

Lemma loop_inv_pass n N L Q T R l now dopoll p new (s : em) :
  loop_inv (Datatypes.S n) N L Q T R l s -> Clk now ->
  (forall h, inbox_ok G self h [] -> inbox_ok G self (pa_arrive p h) new) -> Forall mild new.*2 ->
  msgs_ok E (fun _ => []) N (rev new.*2) ->
  exists d again s' Q' T', em_pass self malloc PTH_NSIG sigpipe now dopoll p s = Some ((d, again), s') /\
    loop_inv n (transit N (rev new.*2)) L Q' T' R [] s' /\ g_scheduler (w_g (em_w s')) = g_scheduler (w_g (em_w s)).
Proof.
  intros [A1 A2 (m & Hm & A3) A4 A5 A6 A7 A8 A9 A10] Hnow Harr Hnm Hnew. destruct m as [|m]; [lia|].
  set (T1 := transit T (rev l.*2)).
  assert (HN1 : N ⊆ T1) by (by apply transit_keeps).
  destruct (pass_ok self G E malloc R PTH_NSIG sigpipe pipe_ok m now dopoll p Q T L l new s)
    as (d & again & s' & Q' & E1 & Hw' & Hb' & _ & _ & _ & _ & _ & _ & Hi' & Hg' & HW & Hbody & Hj); try done.
  - by apply clk_near.
  - intros a Ha. split; [by apply (wa_wait _ _ _ A5)|]. by apply (wa_time _ _ _ A5).
  - apply (wa_dis _ _ _ A5).
  - rewrite fmap_app. by apply Forall_app.
  - eapply msgs_more; [by apply Forall_rev|exact HN1|done].
  - exists d, again, s', Q', (transit T1 (rev new.*2)). split; [done|]. split; [|done].
    assert (Hback : forall a e x, in_q Q' WQ a -> e ∈ R a -> body s' !! e = Some x ->
      in_q Q WQ a /\ exists y, body s !! e = Some y /\ ev_args x = ev_args y).
    { intros a e x Ha He Hx. destruct (HW a Ha) as [Haq _]. split; [done|].
      destruct (waiter_events s a (R a) (wa_wait _ _ _ A5 a Haq) e He) as [y Hy]. destruct (Hbody e y Hy) as (v & Hx').
      rewrite Hx in Hx'. injection Hx' as ->. by exists y. }
    constructor; try done.
    + assert (Hs1 := transit_sub (rev l.*2) T). assert (Hs2 := transit_sub (rev new.*2) T1). set_solver.
    + exists m. split; [lia|done].
    + intros a Ha. destruct (A4 a Ha) as [x Hx]. destruct (Hbody a x Hx) as (v & Hy). by eexists.
    + constructor.
      * intros a Ha. by apply HW.
      * intros a now' Ha Hc e x He Hx. destruct (Hback a e x Ha He Hx) as (Haq & y & Hy & Hey).
        assert (Htm := wa_time _ _ _ A5 a now' Haq Hc e y He Hy). unfold timed_ok in *. by rewrite Hey.
      * intros a e x t Ha He Hx Har. destruct (Hback a e x Ha He Hx) as (Haq & y & Hy & Hey).
        destruct (wa_tid _ _ _ A5 a e y t Haq He Hy ltac:(congruence)) as (z & Hz & Hjz).
        destruct (Hj t z Hz) as (z' & Hz' & Hj' & Hh'). exists z'. split; [done|]. by rewrite Hj', Hh'.
      * intros a b e Ha Hb. apply (wa_dis _ _ _ A5); [by apply (HW a Ha)|by apply (HW b Hb)].
    + constructor; constructor.
    + by apply transit_mono.
    + intros t _ Hin. by apply not_elem_of_nil in Hin.
Qed.

Lemma manage_ok ps : forall n N N' L Q T R l now dopoll (s : em),
  loop_inv (length ps + n) N L Q T R l s -> Clk now -> Forall (fun p => Clk (pa_now p)) ps -> arrivals N ps N' ->
  exists r s' Q' T' l', eventmanager self malloc PTH_NSIG sigpipe now dopoll ps s = Some (r, s') /\
    loop_inv n N' L Q' T' R l' s' /\ g_scheduler (w_g (em_w s')) = g_scheduler (w_g (em_w s)) /\
    (forall snapshot, r = Some snapshot -> Clk snapshot).
Proof.
  induction ps as [|p ps IH]; intros n N N' L Q T R l now dopoll s Hs Hnow Hps Harr; inversion Harr as [|? ? ? new ? H1 H2 H3 H4]; subst.
  { exists None, s, Q, T, l. by split_and!. }
  apply Forall_cons in Hps as [Hp Hps].
  destruct (loop_inv_pass (length ps + n) N L Q T R l now dopoll p new s Hs Hnow H1 H2 H3) as (d & again & s1 & Q1 & T1 & E1 & Hs1 & Hg1).
  cbn [eventmanager]. rewrite (st_bind_Some _ _ _ _ _ E1). cbn [fst snd]. destruct again.
  - destruct (IH n _ N' L Q1 T1 R [] (pa_now p) d s1 Hs1 Hp Hps H4) as (r & s2 & Q2 & T2 & l2 & E2 & Hs2 & Hg2 & Hr).
    exists r, s2, Q2, T2, l2. split_and!; try done. congruence.
  - exists (Some now), s1, Q1, T1, []. split_and!; try done; [|by intros ? [= <-]].
    eapply loop_inv_weak; [exact Hs1|lia|by eapply arrivals_sub].
Qed.

(** ** Switching to a thread and back *)

Lemma upd_ok (w : wd) Q L t x f : winv w Q L -> w_tcb w !! t = Some x ->
  t_home (f x) = t_home x -> t_join_waitq (f x) = t_join_waitq x -> t ∈ L \/ t_state (f x) = t_state x ->
  upd_tcb (Some t) f w = Some (tt, set_tcb (<[t := f x]> (w_tcb w)) w) /\ winv (set_tcb (<[t := f x]> (w_tcb w)) w) Q L.
Proof.
  intros Hw Hx Hh Hj Hs. split; [by apply x_upd_tcb|].
  eapply winv_same; [exact Hw|eapply tinv_upd; [apply Hw|exact Hx|done|done|tauto]|done|done].
Qed.

Lemma dispatch_ok (w : wd) Q L c x sd snapshot now :
  winv w Q ({[c]} ∪ L) -> c ∉ L -> sd ∈ L -> g_scheduler (w_g w) = Some sd -> g_current (w_g w) = Some c -> w_tcb w !! c = Some x ->
  exists w' y, sched_dispatch PTH_NSIG (Some c) snapshot now w = Some (tt, w') /\ winv w' Q ({[c]} ∪ L) /\
    g_current (w_g w') = Some c /\ w_tcb w' !! c = Some y /\ t_state y = t_state x /\ t_dispatches y = t_dispatches x + 1.
Proof.
  intros Hw HcL Hsd Hg Hc Hx. unfold sched_dispatch. rewrite (st_bind_Some _ _ _ _ _ (x_rd_tcb w c x Hx)).
  set (w1 := if t_sigpendcnt x >? 0 then
     set_os (raise_sigs PTH_NSIG (t_sigpending x) (w_os w))
       (set_g (set_sigs (w_os w) (g_sigblock (w_g w)) (g_sigcatch (w_g w)) (g_sigraised (w_g w)) (w_g w)) w) else w).
  rewrite (st_bind_Some _ _ w tt w1) by (unfold w1; by destruct (t_sigpendcnt x >? 0)).
  assert (H1 : w_tcb w1 = w_tcb w /\ g_scheduler (w_g w1) = Some sd /\ g_current (w_g w1) = Some c /\ winv w1 Q ({[c]} ∪ L)).
  { unfold w1. destruct (t_sigpendcnt x >? 0); [|done]. split_and!; try done.
    eapply winv_same; [exact Hw|by eapply tinv_other; [..|apply Hw]|done|done]. }
  destruct H1 as (Ht1 & Hs1 & Hc1 & Hw1). assert (Hx1 : w_tcb w1 !! c = Some x) by (by rewrite Ht1).
  destruct (upd_ok w1 Q _ c x (set_lastran (pth_time_set now None)) Hw1 Hx1 eq_refl eq_refl ltac:(by right)) as [E2 Hw2].
  rewrite (st_bind_Some _ _ _ _ _ E2). set (x2 := set_lastran _ x) in *. set (w2 := set_tcb _ w1) in *.
  rewrite (st_bind_Some (getg g_scheduler) _ w2 (Some sd) w2) by (unfold getg; cbn; by rewrite Hs1).
  assert (Hne : sd <> c) by (by intros ->).
  destruct (ti_loose _ _ _ _ _ (wi_t _ _ _ _ _ _ Hw2) sd ltac:(set_solver)) as (_ & ys & Hys & _).
  destruct (upd_ok w2 Q _ sd ys (fun y => set_running (pth_time_add (t_running y) (pth_time_sub now snapshot)) y) Hw2 Hys
    eq_refl eq_refl ltac:(by right)) as [E3 Hw3].
  rewrite (st_bind_Some _ _ _ _ _ E3). set (w3 := set_tcb _ w2) in *.
  assert (Hx3 : w_tcb w3 !! c = Some x2) by (cbn; rewrite lookup_insert_ne by done; by rewrite lookup_insert_eq).
  destruct (upd_ok w3 Q _ c x2 (fun y => set_dispatches (t_dispatches y + 1) y) Hw3 Hx3 eq_refl eq_refl ltac:(by right)) as [E4 Hw4].
  eexists _, _. split; [exact E4|]. split; [exact Hw4|]. split; [exact Hc1|]. cbn. rewrite lookup_insert_eq. by split_and!.
Qed.

(** A thread comes back dead, waiting or ready; with a bad guard it is dead
    then, or the process ends. *)
Definition handed_back (s : Z) : Prop := s = PTH_STATE_DEAD \/ s = PTH_STATE_WAITING \/ s = PTH_STATE_READY.
Definition guard_bad (x : tcb) : Prop := exists v, t_guard x = Some v /\ v <> 57005.

Lemma back_ok (w : wd) Q L c x snapshot aok dfl :
  winv w Q ({[c]} ∪ L) -> w_tcb w !! c = Some x -> handed_back (t_state x) ->
  exists go w' y, sched_back PTH_NSIG SIGSEGV (Some c) snapshot aok dfl w = Some (go, w') /\ winv w' Q ({[c]} ∪ L) /\
    g_current (w_g w') = g_current (w_g w) /\ w_tcb w' !! c = Some y /\
    (go = false -> guard_bad y /\ aok = true /\ dfl = true) /\
    (go = true -> t_state y = t_state x \/ t_state y = PTH_STATE_DEAD).
Proof.
  intros Hw Hx Hs. unfold sched_back.
  destruct (upd_ok w Q _ c x (fun y => set_running (pth_time_add (t_running y) (pth_time_sub snapshot (t_lastran y))) y)
    Hw Hx eq_refl eq_refl ltac:(by right)) as [E1 Hw1].
  rewrite (st_bind_Some _ _ _ _ _ E1). set (x1 := set_running _ x) in *. set (w1 := set_tcb _ w) in *.
  assert (Hx1 : w_tcb w1 !! c = Some x1) by (cbn; by rewrite lookup_insert_eq).
  rewrite (st_bind_Some _ _ _ _ _ (x_rd_tcb w1 c x1 Hx1)).
  match goal with |- context [mbind ?k ?m w1] => set (sigs := m) end.
  assert (H2 : exists w2 S n, sigs w1 = Some (tt, w2) /\ winv w2 Q ({[c]} ∪ L) /\ g_current (w_g w2) = g_current (w_g w) /\
    w_tcb w2 !! c = Some (set_sigpend S n x1)).
  { unfold sigs. destruct (t_sigpendcnt x1 >? 0).
    2: { exists w1, (t_sigpending x1), (t_sigpendcnt x1). rewrite set_sigpend_id. by split_and!. }
    rewrite (st_bind_Some get_st _ w1 w1 w1 eq_refl).
    destruct (drop_sigs PTH_NSIG (g_sigpending (w_g w1)) (w_os w1) (t_sigpending x1, t_sigpendcnt x1, w_os w1)) as [[S n] os].
    destruct (upd_ok w1 Q _ c x1 (set_sigpend S n) Hw1 Hx1 eq_refl eq_refl ltac:(by right)) as [E2 Hw2].
    rewrite (st_bind_Some _ _ _ _ _ E2). eexists _, S, n. split; [reflexivity|]. split; [|split; [done|cbn; by rewrite lookup_insert_eq]].
    eapply winv_same; [exact Hw2|by eapply tinv_other; [..|apply Hw2]|done|done]. }
  destruct H2 as (w2 & S & n & E2 & Hw2 & Hc2 & Hx2). rewrite (st_bind_Some _ _ _ _ _ E2). clearbody sigs.
  set (x2 := set_sigpend S n x1) in *. rewrite (st_bind_Some _ _ _ _ _ (x_rd_tcb w2 c x2 Hx2)).
  change (t_guard x2) with (t_guard x). destruct (t_guard x) as [v|] eqn:Hg; [|exists true, w2, x2; split_and!; try done; intros _; by left].
  destruct (Z.eqb_spec v 57005) as [->|Hv]; cbn [negb]; [exists true, w2, x2; split_and!; try done; intros _; by left|].
  destruct aok, dfl; cbn [andb]; [exists false, w2, x2; split_and!; try done; intros _; split_and!; try done; exists v; by split|..].
  all: destruct (upd_ok w2 Q _ c x2 (set_join_arg 57005) Hw2 Hx2 eq_refl eq_refl ltac:(by right)) as [E3 Hw3];
    rewrite (st_bind_Some _ _ _ _ _ E3); set (x3 := set_join_arg _ x2) in *; set (w3 := set_tcb _ w2) in *;
    assert (Hx3 : w_tcb w3 !! c = Some x3) by (cbn; by rewrite lookup_insert_eq);
    destruct (upd_ok w3 Q _ c x3 (set_state PTH_STATE_DEAD) Hw3 Hx3 eq_refl eq_refl ltac:(left; set_solver)) as [E4 Hw4];
    rewrite (st_bind_Some _ _ _ _ _ E4); set (w4 := set_tcb _ w3) in *;
    eexists true, _, (set_state PTH_STATE_DEAD x3); (split; [reflexivity|]);
    (split; [eapply winv_same; [exact Hw4|by eapply tinv_other; [..|apply Hw4]|done|done]|]);
    (split; [done|split; [cbn; by rewrite lookup_insert_eq|split; [done|by right]]]).
Qed.

(** What a thread does between the switch to it and the switch back: it keeps
    the invariant, and if it waits it does so like the others. *)
Definition run_ok (c : addr) (run : st em unit) : Prop :=
  forall n N L Q T R l s x,
    loop_inv n N ({[c]} ∪ L) Q T R l s -> c ∉ L -> g_current (w_g (em_w s)) = Some c ->
    w_tcb (em_w s) !! c = Some x -> t_state x = PTH_STATE_READY ->
    exists s' Q' T' R' l' x', run s = Some (tt, s') /\ loop_inv n N ({[c]} ∪ L) Q' T' R' l' s' /\
      g_current (w_g (em_w s')) = Some c /\ g_scheduler (w_g (em_w s')) = g_scheduler (w_g (em_w s)) /\
      w_tcb (em_w s') !! c = Some x' /\ handed_back (t_state x') /\
      (t_state x' = PTH_STATE_WAITING -> waits (fun a => in_q Q' WQ a \/ a = c) R' s').

Lemma settled_waits c x (w w' : wd) Q Q' a : settled c x w w' Q Q' -> in_q Q' WQ a ->
  in_q Q WQ a \/ (a = c /\ t_state x = PTH_STATE_WAITING).
Proof.
  unfold settled, in_q. intros Hs Ha. destruct (t_state x =? PTH_STATE_DEAD); [destruct (t_joinable x)|destruct (Z.eqb_spec (t_state x) PTH_STATE_WAITING)];
    destruct Hs as [-> _]; rewrite ?qupd_ne in Ha by done; try by left.
  rewrite qupd_eq, in_ins in Ha. destruct Ha as [->|Ha]; [by right|by left].
Qed.

Lemma settle_keeps n N L Q T R l (s : em) c x :
  loop_inv n N ({[c]} ∪ L) Q T R l s -> c ∉ L -> g_current (w_g (em_w s)) = Some c ->
  w_tcb (em_w s) !! c = Some x -> handed_back (t_state x) ->
  (t_state x = PTH_STATE_WAITING -> waits (fun a => in_q Q WQ a \/ a = c) R s) ->
  exists w' Q', sched_settle self malloc (em_w s) = Some (tt, w') /\ loop_inv n N L Q' T R l (set_w w' s) /\
    g_scheduler (w_g w') = g_scheduler (w_g (em_w s)).
Proof.
  intros [A1 A2 A3 A4 A5 A6 A7 A8 A9 A10] HcL Hc Hx Hs Hwait.
  assert (Hset : T ∪ ({[c]} ∪ L) = {[c]} ∪ (T ∪ L)) by set_solver. rewrite Hset in A1.
  assert (HcT : c ∉ T ∪ L) by set_solver.
  destruct (settle_ok self G E malloc malloc_fresh (em_w s) Q (T ∪ L) c x A1 HcT Hc Hx Hs)
    as (w' & Q' & E1 & Hw' & Hsd & Hg' & _ & _ & _ & Honly).
  destruct (Honly _) as [B1 B2 B3 B4]. exists w', Q'. split; [done|]. split; [|done]. constructor; try done.
  - set_solver.
  - cbn. by rewrite B2.
  - assert (Hw : waits (in_q Q' WQ) R s).
    { destruct (decide (t_state x = PTH_STATE_WAITING)) as [Hst|Hst].
      - eapply waits_sub; [|exact (Hwait Hst)]. intros a [?|[? _]]%(settled_waits _ _ _ _ _ _ _ Hsd); [by left|by right].
      - eapply waits_sub; [|exact A5]. intros a [?|[_ ?]]%(settled_waits _ _ _ _ _ _ _ Hsd); done. }
    eapply waits_step; [exact Hw|done|done|by apply keep_ports|]. intros t y Hy Hwhy. cbn.
    destruct (decide (t = c)) as [->|Hne]; [|exists y; rewrite B4 by done; done].
    destruct (ti_loose _ _ _ _ _ (wi_t _ _ _ _ _ _ A1) c ltac:(set_solver)) as (Hnq & x' & Hx' & Hh). simplify_eq.
    unfold settled in Hsd. destruct (Z.eqb_spec (t_state x) PTH_STATE_DEAD) as [Hd|Hd].
    + destruct (t_joinable x) eqn:Hj.
      * destruct Hsd as (_ & _ & ->). rewrite lookup_insert_eq. by eexists.
      * exfalso. destruct Hwhy as [Hq|[?|?]]; [|done|done]. destruct Hsd as (-> & _). unfold in_q in Hq; rewrite qupd_ne in Hq by done. by apply (Hnq WQ).
    + exists x. split; [|done]. destruct (t_state x =? PTH_STATE_WAITING); [by destruct Hsd as (_ & _ & ->)|by destruct Hsd as (_ & ->)].
  - by apply B3.
  - eapply mild_msgs_ok; [by apply Forall_rev|done].
Qed.

(** ** A round *)

Record load_inv (ld : load) : Prop := {
  ld_gap : l_gap ld = Tv 1 0;
  ld_next : sane (l_next ld) /\ - 2 ^ 60 < tv_sec (l_next ld);
  ld_win : forall now, Clk now -> - 2 ^ 29 - 2 < tv_sec now - tv_sec (l_next ld) < 2 ^ 29 + 2
}.
Lemma load_keeps n now ld : Clk now -> load_inv ld -> exists ld', pth_scheduler_load n now ld = Some ld' /\ load_inv ld'.
Proof.
  intros Hn [L1 [L2 L3] L4]. destruct (Clk_sane now Hn) as [Hs Hs'].
  rewrite (load_ok n now ld L1 Hs L2 L3) by (specialize (L4 now Hn); lia). eexists. split; [reflexivity|].
  destruct (0 <=? pth_time_cmp now (l_next ld)); [|by constructor].
  assert (Ha : pth_time_add now (Tv 1 0) = Tv (tv_sec now + 1) (tv_usec now)).
  { unfold pth_time_add, sane in *. cbn [tv_sec tv_usec]. cbv zeta. fits. rewrite Z.add_0_r.
    by destruct (Z.gtb_spec (tv_usec now) 1000000); [lia|]. }
  rewrite Ha. constructor; cbn [l_gap l_next tv_sec tv_usec]; [done| |].
  - unfold sane in *. cbn [tv_sec tv_usec]. lia.
  - intros b Hb. specialize (Clk_win b now Hb Hn). lia.
Qed.

Abbreviation sst := (sst (H := H) (U := U) (B := B)).
Record round_ok (r : round H U B) : Prop := {
  ro_idle : Clk (r_idle r);
  ro_end : Clk (r_end r);
  ro_passes : Forall (fun p => Clk (pa_now p)) (r_passes r);
  ro_run : forall c, run_ok c (r_run r c)
}.
Definition all_empty (Q : qlists) : Prop := Q NQ = [] /\ Q RQ = [] /\ Q WQ = [] /\ Q SQ = [].
Definition ran_of (o : outcome) : option ptr :=
  match o with CNext t _ | CBusy t => Some t | _ => None end.

(** What holds after a round, by the way it ended. *)
Definition round_end (n : nat) (N L : gset addr) (sd : addr) (o : outcome) (s : sst) : Prop :=
  g_scheduler (w_g (sw s)) = Some sd /\ load_inv (ss_load s) /\
  match o with
  | CNext _ snapshot => Clk snapshot /\ exists Q T R l, loop_inv n N L Q T R l (ss_em s)
  | CBusy _ => exists Q T R l, loop_inv n N L Q T R l (ss_em s)
  | CLeave => g_id (w_g (sw s)) <> 0 /\ g_stop (w_g (sw s)) = true /\
      exists Q T R l, loop_inv n N L Q T R l (ss_em s) /\ all_empty Q
  | CAbort => g_id (w_g (sw s)) = 0 /\ exists Q T R l, loop_inv n N L Q T R l (ss_em s) /\ all_empty Q
  | COverflow => exists c x, g_current (w_g (sw s)) = Some c /\ w_tcb (sw s) !! c = Some x /\ guard_bad x
  end.

Lemma x_on_em {A : Type} (m : st em A) (s : sst) a e : m (ss_em s) = Some (a, e) -> on_em m s = Some (a, Sst e (ss_load s)).
Proof. intros Hm. unfold on_em, zoom. by rewrite Hm. Qed.
Lemma elements_ok (w : wd) Q L n : winv w Q L -> elements w n = Z.of_nat (length (Q n)).
Proof. intros Hw. apply (q_elements_ok _ _ _ n (ti_q _ _ _ _ _ (wi_t _ _ _ _ _ _ Hw))). Qed.
Lemma elements_zero (w : wd) Q L n : winv w Q L -> (elements w n =? 0) = true -> Q n = [].
Proof. intros Hw Hn%Z.eqb_eq. rewrite (elements_ok w Q L n Hw) in Hn. apply nil_length_inv. lia. Qed.
Lemma select_split (w : wd) : sched_select w = (sched_adopt;; sched_pick) w.
Proof. unfold sched_select, sched_adopt, sched_pick. by rewrite st_bind_assoc. Qed.

Lemma idle_ok (w : wd) Q L : winv w Q L -> Q RQ = [] ->
  match sched_idle w with
  | ILeave => g_id (w_g w) <> 0 /\ g_stop (w_g w) = true /\ all_empty Q
  | IAbort => g_id (w_g w) = 0 /\ all_empty Q
  | IWait => True
  end.
Proof.
  intros Hw HR. unfold sched_idle, all_empty. assert (Hz := fun n => elements_zero w Q L n Hw).
  destruct (Z.eqb_spec (g_id (w_g w)) 0) as [Hid|Hid]; cbn [negb].
  - assert (Hp : forall n, (elements w n >? 0) = false -> Q n = []).
    { intros n Hn. apply Hz, Z.eqb_eq. rewrite Z.gtb_ltb in Hn. apply Z.ltb_ge in Hn.
      rewrite (elements_ok w Q L n Hw) in *. lia. }
    destruct (elements w WQ >? 0) eqn:E1; [done|]. destruct (elements w NQ >? 0) eqn:E2; [done|].
    destruct (elements w SQ >? 0) eqn:E3; [done|]. cbn [orb]. split_and!; auto.
  - destruct (g_stop (w_g w)); [|done]. destruct (elements w NQ =? 0) eqn:E1; [|done].
    destruct (elements w WQ =? 0) eqn:E2; [|done]. destruct (elements w SQ =? 0) eqn:E3; [|done]. cbn [andb]. split_and!; auto.
Qed.
Lemma after_ok (w : wd) Q L : winv w Q L ->
  match sched_after w with
  | ALeave => g_id (w_g w) <> 0 /\ g_stop (w_g w) = true /\ all_empty Q
  | AWait => Q RQ = [] /\ Q NQ = []
  | APoll => True
  end.
Proof.
  intros Hw. unfold sched_after, all_empty. assert (Hz := fun n => elements_zero w Q L n Hw).
  destruct (elements w RQ =? 0) eqn:E1; [|done]. destruct (elements w NQ =? 0) eqn:E2; [|done]. cbn [andb].
  destruct (Z.eqb_spec (g_id (w_g w)) 0) as [Hid|Hid]; cbn [negb andb]; [by auto|].
  destruct (g_stop (w_g w)); cbn [andb]; [|by auto]. destruct (elements w WQ =? 0) eqn:E3; cbn [andb]; [|by auto].
  destruct (elements w SQ =? 0) eqn:E4; split_and!; auto.
Qed.

(** The end of a round, in the event manager. *)
Lemma manage_end ps n N N' L Q T R l ran now dopoll sd (s : sst) :
  loop_inv (length ps + n) N L Q T R l (ss_em s) -> load_inv (ss_load s) -> g_scheduler (w_g (sw s)) = Some sd ->
  Clk now -> Forall (fun p => Clk (pa_now p)) ps -> arrivals N ps N' ->
  exists o s', manage self malloc PTH_NSIG sigpipe ran now dopoll ps s = Some (o, s') /\ ran_of o = Some ran /\ round_end n N' L sd o s'.
Proof.
  intros Hs Hl Hsd Hnow Hps Harr.
  destruct (manage_ok ps n N N' L Q T R l now dopoll (ss_em s) Hs Hnow Hps Harr) as (r & e & Q' & T' & l' & E1 & He & Hg & Hr).
  unfold manage. rewrite (st_bind_Some _ _ _ _ _ (x_on_em _ s _ _ E1)). eexists _, _. split; [reflexivity|].
  destruct r as [snapshot|]; (split; [done|]); (split; [unfold sw in *; cbn; congruence|]); (split; [done|]).
  - split; [by apply Hr|]. by exists Q', T', R, l'.
  - by exists Q', T', R, l'.
Qed.

(** What is chosen, and that it concerns no waiting thread. *)
Lemma loop_inv_select n N L Q T R l (s : em) sd :
  loop_inv n N L Q T R l s -> g_scheduler (w_g (em_w s)) = Some sd ->
  exists w1 w2 Q' t, sched_adopt (em_w s) = Some (tt, w1) /\ sched_pick w1 = Some (t, w2) /\
    winv w2 Q' (opt_set t ∪ (T ∪ L)) /\ waits (in_q Q' WQ) R (set_w w2 s) /\ gentle (em_w s) w2 /\
    g_current (w_g w2) = t /\ t = head (adopt (g_favournew (w_g (em_w s))) (Q NQ) (Q RQ)).*1 /\
    (t = NULL -> Q' RQ = []) /\
    (forall c, t = Some c -> c ∉ T ∪ L /\ exists x, w_tcb w2 !! c = Some x /\ t_state x = PTH_STATE_READY).
Proof.
  intros [A1 A2 A3 A4 A5 A6 A7 A8 A9 A10] Hsd.
  destruct (select_ok self G E (em_w s) Q (T ∪ L) A1) as (w2 & Q' & t & E1 & Hw & Hc & _ & (Ht & HN & HR & Hn & _) & Hst & _).
  assert (Hge := sched_select_framed _ _ _ E1). rewrite select_split in E1. unfold mbind, st_bind in E1.
  destruct (sched_adopt (em_w s)) as [[[] w1]|] eqn:Ea; [|done].
  exists w1, w2, Q', t. split_and!; try done.
  - apply waits_gentle; [|done]. eapply waits_sub; [|exact A5]. intros a. unfold in_q. by rewrite (Hn WQ).
  - intros ->. rewrite HR. by destruct (adopt _ _ _).
  - intros c ->. split; [|by apply Hst]. intros Hin. assert (Hi := wi_t _ _ _ _ _ _ A1).
    destruct (ti_loose _ _ _ _ _ Hi c Hin) as [Hno _].
    assert (Hq : c ∈ (adopt (g_favournew (w_g (em_w s))) (Q NQ) (Q RQ)).*1).
    { destruct ((adopt (g_favournew (w_g (em_w s))) (Q NQ) (Q RQ)).*1) as [|b k]; [done|]. injection Ht as ->. by left. }
    apply in_adopt in Hq as [Hq|Hq]; [by apply (Hno NQ)|by apply (Hno RQ)].
Qed.

Lemma gentle_inv n N N' L L' Q Q' T R l (s : em) (w' : wd) : loop_inv n N L Q T R l s -> N' ⊆ N -> winv w' Q' (T ∪ L') -> T ## L' ->
  gentle (em_w s) w' -> (forall a, in_q Q' WQ a -> in_q Q WQ a) -> loop_inv n N' L' Q' T R l (set_w w' s).
Proof.
  intros [A1 A2 A3 A4 A5 A6 A7 A8 A9 A10] HN Hw Hd Hge HW. assert (Hge' := Hge). destruct Hge' as [B1 B2 B3 B4 B5]. constructor; try done.
  - cbn. by rewrite B2.
  - apply waits_gentle; [|done]. by eapply waits_sub.
  - cbn. by rewrite B3.
  - eapply mild_msgs_ok; [by apply Forall_rev|done].
  - set_solver.
  - auto.
Qed.

Lemma thread_ok n N N' L Q T R l sd c x snapshot r (s : sst) :
  loop_inv (length (r_passes r) + n) N ({[c]} ∪ L) Q T R l (ss_em s) -> c ∉ L -> sd ∈ L -> g_scheduler (w_g (sw s)) = Some sd ->
  g_current (w_g (sw s)) = Some c -> w_tcb (sw s) !! c = Some x -> t_state x = PTH_STATE_READY ->
  load_inv (ss_load s) -> round_ok r -> arrivals N (r_passes r) N' ->
  exists o s', sched_thread self malloc PTH_NSIG SIGSEGV sigpipe snapshot r c s = Some (o, s') /\
    (ran_of o = Some (Some c) \/ o = CLeave \/ o = COverflow) /\ round_end n N' L sd o s'.
Proof.
  intros Hs HcL Hsd Hg Hc Hx Hst Hl [_ R2 R3 R4] Harr. assert (Hset : forall T : gset addr, T ∪ ({[c]} ∪ L) = {[c]} ∪ (T ∪ L)) by set_solver.
  assert (Hdj : forall T : gset addr, T ## {[c]} ∪ L -> c ∉ T ∪ L) by set_solver.
  assert (Hw := li_w _ _ _ _ _ _ _ _ Hs). rewrite Hset in Hw. assert (HcT := Hdj T (li_dis _ _ _ _ _ _ _ _ Hs)).
  destruct (dispatch_ok (sw s) Q (T ∪ L) c x sd snapshot (r_start r) Hw HcT ltac:(set_solver) Hg Hc Hx)
    as (w1 & x1 & E1 & Hw1 & Hc1 & Hx1 & Hst1 & _).
  assert (Hge1 := sched_dispatch_framed _ _ _ _ _ _ _ E1). unfold sched_thread.
  rewrite (st_bind_Some _ _ _ _ _ (x_on_em _ s _ _ (x_on_w _ (ss_em s) _ _ E1))).
  assert (Hs1 : loop_inv (length (r_passes r) + n) N ({[c]} ∪ L) Q T R l (set_w w1 (ss_em s))).
  { eapply gentle_inv; [exact Hs|done|by rewrite Hset|apply (li_dis _ _ _ _ _ _ _ _ Hs)|done|done]. }
  destruct (R4 c _ _ _ _ _ _ _ _ x1 Hs1 HcL Hc1 Hx1 ltac:(congruence))
    as (s2 & Q2 & T2 & R2' & l2 & x2 & E2 & Hs2 & Hc2 & Hg2 & Hx2 & Hb2 & Hwt2).
  rewrite (st_bind_Some _ _ _ _ _ (x_on_em _ (Sst (set_w w1 (ss_em s)) (ss_load s)) _ _ E2)). cbn [ss_load].
  assert (Hw2 := li_w _ _ _ _ _ _ _ _ Hs2). rewrite Hset in Hw2.
  destruct (back_ok (em_w s2) Q2 (T2 ∪ L) c x2 (r_end r) (r_sigaction_ok r) (r_sigsegv_dfl r) Hw2 Hx2 Hb2)
    as (go & w3 & x3 & E3 & Hw3 & Hc3 & Hx3 & Hf & Ht).
  assert (Hge3 := sched_back_framed _ _ _ _ _ _ _ _ _ E3).
  rewrite (st_bind_Some _ _ _ _ _ (x_on_em _ (Sst s2 (ss_load s)) _ _ (x_on_w _ s2 _ _ E3))). cbn [ss_load].
  assert (Hg3 : g_scheduler (w_g w3) = Some sd) by (rewrite (ge_sched _ _ Hge3), Hg2; cbn; by rewrite (ge_sched _ _ Hge1)).
  destruct go.
  2: { eexists _, _. split; [reflexivity|]. split; [by right; right|]. split; [done|]. split; [done|]. exists c, x3. split_and!; [unfold sw; cbn; congruence|done|by apply Hf]. }
  assert (Hs3 : loop_inv (length (r_passes r) + n) N ({[c]} ∪ L) Q2 T2 R2' l2 (set_w w3 s2)).
  { eapply gentle_inv; [exact Hs2|done|by rewrite Hset|apply (li_dis _ _ _ _ _ _ _ _ Hs2)|done|done]. }
  destruct (settle_keeps _ N L Q2 T2 R2' l2 (set_w w3 s2) c x3 Hs3 HcL) as (w4 & Q4 & E4 & Hs4 & Hg4); [cbn; by rewrite Hc3|done|..].
  { destruct (Ht eq_refl) as [-> | ->]; [done|by left]. }
  { intros Hwt. apply waits_gentle; [|done]. apply Hwt2. by destruct (Ht eq_refl) as [He|He]; rewrite He in Hwt. }
  rewrite (st_bind_Some _ _ _ _ _ (x_on_em _ (Sst (set_w w3 s2) (ss_load s)) _ _ (x_on_w _ (set_w w3 s2) _ _ E4))). cbn [ss_load].
  set (s4 := Sst (set_w w4 (set_w w3 s2)) (ss_load s)). rewrite (st_bind_Some get_st _ s4 s4 s4 eq_refl).
  assert (Hg4' : g_scheduler (w_g (sw s4)) = Some sd) by (cbn; rewrite Hg4; exact Hg3).
  assert (Haf := after_ok (sw s4) Q4 _ (li_w _ _ _ _ _ _ _ _ Hs4)).
  assert (Hman : forall d, exists o s', manage self malloc PTH_NSIG sigpipe (Some c) (r_end r) d (r_passes r) s4 = Some (o, s') /\
    (ran_of o = Some (Some c) \/ o = CLeave \/ o = COverflow) /\ round_end n N' L sd o s').
  { intros d. destruct (manage_end (r_passes r) n N N' L Q4 T2 R2' l2 (Some c) (r_end r) d sd s4 Hs4 Hl Hg4' R2 R3 Harr)
      as (o & s' & E5 & Hran & Hend). exists o, s'. split_and!; auto. }
  destruct (sched_after (sw s4)); [apply Hman|apply Hman|].
  eexists _, s4. split; [reflexivity|]. split; [by right; left|]. split; [done|]. split; [done|]. destruct Haf as (H1 & H2 & H3). split_and!; try done.
  exists Q4, T2, R2', l2. split; [|done]. eapply loop_inv_weak; [exact Hs4|lia|by eapply arrivals_sub].
Qed.

Lemma round_lemma n N N' L Q T R l sd snapshot r (s : sst) :
  loop_inv (length (r_passes r) + n) N L Q T R l (ss_em s) -> load_inv (ss_load s) -> g_scheduler (w_g (sw s)) = Some sd -> sd ∈ L ->
  Clk snapshot -> round_ok r -> arrivals N (r_passes r) N' ->
  exists o s', sched_round self malloc PTH_NSIG SIGSEGV sigpipe snapshot r s = Some (o, s') /\ round_end n N' L sd o s' /\
    match head (adopt (g_favournew (w_g (sw s))) (Q NQ) (Q RQ)).*1 with
    | Some c => ran_of o = Some (Some c) \/ o = CLeave \/ o = COverflow
    | None => ran_of o = Some NULL \/ o = CLeave \/ o = CAbort
    end.
Proof.
  intros Hs Hl Hg Hsd Hclk Hr Harr. assert (Hr' := Hr). destruct Hr' as [R1 R2 R3 R4].
  destruct (loop_inv_select _ N L Q T R l (ss_em s) sd Hs Hg) as (w1 & w2 & Q2 & t & E1 & E2 & Hw2 & Hwt & Hge & Hc & Ht & Hnil & Hsome).
  unfold sched_round. rewrite (st_bind_Some _ _ _ _ _ (x_on_em _ s _ _ (x_on_w _ (ss_em s) _ _ E1))).
  set (s1 := Sst (set_w w1 (ss_em s)) (ss_load s)).
  destruct (load_keeps (elements (sw s1) RQ) snapshot (ss_load s) Hclk Hl) as (ld & El & Hl').
  rewrite (st_bind_Some (sched_load snapshot) _ s1 tt (Sst (ss_em s1) ld)) by (unfold sched_load; cbn [ss_load s1]; by rewrite El).
  rewrite (st_bind_Some _ _ _ _ _ (x_on_em _ (Sst (ss_em s1) ld) _ _ (x_on_w _ (set_w w1 (ss_em s)) _ _ E2))). cbn [ss_load].
  change (set_w w2 (set_w w1 (ss_em s))) with (set_w w2 (ss_em s)). set (s2 := Sst (set_w w2 (ss_em s)) ld).
  rewrite (st_bind_Some get_st _ s2 s2 s2 eq_refl).
  assert (Hs2 : loop_inv (length (r_passes r) + n) N (opt_set t ∪ L) Q2 T R l (ss_em s2)).
  { destruct Hs as [A1 A2 A3 A4 A5 A6 A7 A8 A9 A10]. assert (Hge' := Hge). destruct Hge' as [B1 B2 B3 B4 B5]. constructor; try done.
    - assert (Hset : T ∪ (opt_set t ∪ L) = opt_set t ∪ (T ∪ L)) by set_solver. by rewrite Hset.
    - destruct t as [c|]; cbn [opt_set]; [|set_solver]. destruct (Hsome c eq_refl) as [Hc' _]. set_solver.
    - cbn. by rewrite B2.
    - cbn. by rewrite B3.
    - eapply mild_msgs_ok; [by apply Forall_rev|done]. }
  assert (Hg2 : g_scheduler (w_g (sw s2)) = Some sd) by (unfold sw; cbn; rewrite (ge_sched _ _ Hge); exact Hg).
  fold (sw s) in Ht. rewrite <- Ht. destruct t as [c|].
  - destruct (Hsome c eq_refl) as [HcT (x & Hx & Hst)].
    destruct (thread_ok n N N' L Q2 T R l sd c x snapshot r s2 Hs2 ltac:(set_solver) Hsd Hg2 Hc Hx Hst Hl' Hr Harr)
      as (o & s' & E3 & Hran & Hend). by exists o, s'.
  - cbn [opt_set] in Hs2. rewrite (left_id_L ∅ (∪)) in Hs2.
    assert (Hid := idle_ok (sw s2) Q2 _ (li_w _ _ _ _ _ _ _ _ Hs2) (Hnil eq_refl)).
    assert (Hweak := loop_inv_weak _ n _ N' _ _ _ _ _ _ Hs2 ltac:(lia) (arrivals_sub _ _ _ Harr)).
    destruct (sched_idle (sw s2)).
    + destruct (manage_end (r_passes r) n N N' L Q2 T R l NULL (r_idle r) false sd s2 Hs2 Hl' Hg2 R1 R3 Harr) as (o & s' & E3 & Hran & Hend).
      exists o, s'. split_and!; auto.
    + exists CLeave, s2. split_and!; try done; [|by auto]. destruct Hid as (H1 & H2 & H3). split_and!; try done. by exists Q2, T, R, l.
    + exists CAbort, s2. split_and!; try done; [|by auto]. destruct Hid as (H1 & H3). split_and!; try done. by exists Q2, T, R, l.
Qed.

(** The passes of the rounds. *)
Definition all_passes (rs : list (round H U B)) : list pass := concat (r_passes <$> rs).

Lemma loop_lemma rs : forall n N N' L Q T R l sd snapshot (s : sst),
  loop_inv (length (all_passes rs) + n) N L Q T R l (ss_em s) -> load_inv (ss_load s) -> g_scheduler (w_g (sw s)) = Some sd -> sd ∈ L ->
  Clk snapshot -> Forall round_ok rs -> arrivals N (all_passes rs) N' ->
  exists o s', sched_loop self malloc PTH_NSIG SIGSEGV sigpipe snapshot rs s = Some (o, s') /\ round_end n N' L sd o s'.
Proof.
  induction rs as [|r rs IH]; intros n N N' L Q T R l sd snapshot s Hs Hl Hg Hsd Hclk Hrs Harr.
  { exists (CNext NULL snapshot), s. split; [done|]. inversion Harr; subst. split_and!; try done. by exists Q, T, R, l. }
  apply Forall_cons in Hrs as [Hr Hrs]. unfold all_passes in Hs, Harr. cbn [fmap list_fmap concat] in Hs, Harr.
  fold (all_passes rs) in Hs, Harr. rewrite length_app, <- Nat.add_assoc in Hs. apply arrivals_app in Harr as (N1 & Ha1 & Ha2).
  destruct (round_lemma _ N N1 L Q T R l sd snapshot r s Hs Hl Hg Hsd Hclk Hr Ha1) as (o & s1 & E1 & Hend & _).
  cbn [sched_loop]. rewrite (st_bind_Some _ _ _ _ _ E1).
  assert (Hsub := arrivals_sub _ _ _ Ha2). destruct Hend as (Hg1 & Hl1 & Hend). destruct o as [ran snap|ran| | |].
  - destruct Hend as (Hsnap & Q1 & T1 & R1 & l1 & Hs1). by apply (IH n N1 N' L Q1 T1 R1 l1 sd snap s1).
  - eexists _, s1. split; [reflexivity|]. split_and!; try done. destruct Hend as (Q1 & T1 & R1 & l1 & Hs1).
    exists Q1, T1, R1, l1. eapply loop_inv_weak; [exact Hs1|lia|done].
  - destruct Hend as (H1 & H2 & Q1 & T1 & R1 & l1 & Hs1 & He). eexists _, s1. split; [reflexivity|]. split_and!; try done.
    exists Q1, T1, R1, l1. split; [eapply loop_inv_weak; [exact Hs1|lia|done]|done].
  - destruct Hend as (H1 & Q1 & T1 & R1 & l1 & Hs1 & He). eexists _, s1. split; [reflexivity|]. split_and!; try done.
    exists Q1, T1, R1, l1. split; [eapply loop_inv_weak; [exact Hs1|lia|done]|done].
  - eexists _, s1. split; [reflexivity|]. by split_and!.
Qed.


End loop.

(** ** Concrete rounds

    In the world of [Evpass], where 13 waits for a wakeup that another
    scheduler sends; the threads 11 and 12 just yield. *)
#[export] Instance demo_free : FreeLaws queues dstate.
Proof.
  refine {| fr_keep := fun _ _ => True |}; [done|done|]. intros m t w w' [->| ->] Hm; [|injection Hm as <-; exists (w_user w); by destruct w].
  cbn in Hm. unfold zoom in Hm. destruct (run_handlers t false (w_user w)) as [[[] u]|]; [|done]. injection Hm as <-. by exists u.
Defined.
Lemma demo_keep_ports (u u' : dstate) : fr_keep (H := queues) u u' -> dom (m_ports (po_ports u')) = dom (m_ports (po_ports u)).
Proof. done. Qed.
Definition loop_sst (q : queues) : sst (H := queues) (U := dstate) (B := pollset) :=
  Sst (set_b (Pollset [] 0 (fun _ => true) [Answer 0 EINVAL []; Answer 0 EINVAL []]) (pend_em q)) (Load load_init (Tv 50 0) (Tv 1 0)).
Definition loop_clk (t : pth_time_t) : Prop := 50 <= tv_sec t <= 60 /\ 0 <= tv_usec t <= 1000000.
Definition yield_round (p : pass) : round queues dstate pollset :=
  Round (Tv 51 0) (Tv 50 0) (Tv 51 0) (fun _ => mret tt) true true [p].
Definition quiet_pass : pass := Pass (fun _ _ => false) [] (fun h => h) (Tv 52 0).

Lemma yield_ok c : run_ok (B := pollset) 1 demo_G demo_E loop_clk c (mret tt).
Proof.
  intros n N L Q T R l s x Hs Hc Hcur Hx Hst. exists s, Q, T, R, l, x. split_and!; try done; [right; by right|].
  intros Hw. by rewrite Hst in Hw.
Qed.
Lemma yield_round_ok p : loop_clk (pa_now p) -> round_ok 1 demo_G demo_E loop_clk (yield_round p).
Proof. intros Hp. constructor; [done..| |intros c; apply yield_ok]. by apply Forall_singleton. Qed.
Lemma loop_sst_inv : exists q, loop_inv (B := pollset) 1 demo_G demo_E loop_clk 2 ∅ {[10%positive]} demo_Q ∅ wait_ring [] (ss_em (loop_sst q)).
Proof.
  destruct pend_inv as [q Hq]. exists q. constructor; try done.
  - exists 2%nat. split; [lia|]. split; [done|]. vm_compute. lia.
  - intros a Ha. unfold demo_E in Ha. apply elem_of_singleton in Ha as ->. by eexists.
  - assert (Hwt := pend_waiter q). constructor.
    + intros a Ha. eapply estep_waiter; [by apply (estep_same (fun _ => False) (pend_em q))|by apply Hwt].
    + intros a now Ha [Hn Hu] e x He Hx. set_unfold in He.
      destruct He as [->|[->|[]]]; vm_compute in Hx; injection Hx as <-; [done|]. split; cbn; lia.
    + intros a e x t Ha He Hx Har. set_unfold in He. destruct He as [->|[->|[]]]; vm_compute in Hx; injection Hx as <-; done.
    + intros a b e Ha Hb _ _. unfold in_q in *. cbn in Ha, Hb. apply list_elem_of_singleton in Ha as ->.
      by apply list_elem_of_singleton in Hb as ->.
  - apply pend_inbox.
  - constructor; constructor.
Qed.
Lemma loop_load : load_inv loop_clk (ss_load (loop_sst no_queues)).
Proof. constructor; cbn; [done|unfold sane; cbn; lia|]. intros now [Hn _]. lia. Qed.
Lemma wake_arrival : arrivals 1 demo_G demo_E ∅ [wake_pass] ∅.
Proof.
  apply (arr_cons 1 demo_G demo_E ∅ wake_pass [] wake_msg); [apply wake_arrives|by repeat constructor| |constructor].
  constructor; [|constructor|constructor]. constructor; [|constructor]. intros a [= <-]. unfold demo_E. set_solver.
Qed.
Lemma quiet_arrival N : arrivals 1 demo_G demo_E N [quiet_pass] N.
Proof. apply (arr_cons 1 demo_G demo_E N quiet_pass [] []); [done|constructor|constructor; constructor|constructor]. Qed.
Lemma loop_clk_sane a : loop_clk a -> sane a /\ - 2 ^ 59 < tv_sec a < 2 ^ 59.
Proof. unfold loop_clk, sane. lia. Qed.
Lemma loop_clk_win a b : loop_clk a -> loop_clk b -> - 2 ^ 29 < tv_sec a - tv_sec b < 2 ^ 29.
Proof. unfold loop_clk. lia. Qed.

