(* ===== verification/Syscall.v ===== *)
(** * Hard system call mapping (src/pth_syscall.c)

    With this mapping the library defines [read], [write] and so on itself:
    the entry points, which initialize the library and go on in its threaded
    variants. Where the library needs the real function it takes an exit point:
    the address that was resolved when the library was initialized, or else
    the raw system call. The dynamic loader and the system are parameters. *)

From stdpp Require Import base numbers list.
From Stdlib Require Import Strings.Ascii Strings.String.
From S2P Require Import Prelude.
Open Scope Z_scope.

(** ** The table of functions *)

(** [PTH_SCF_...] *)
Inductive scf :=
| SCF_fork | SCF_waitpid | SCF_system | SCF_nanosleep | SCF_usleep | SCF_sleep | SCF_sigprocmask | SCF_sigwait
| SCF_select | SCF_poll | SCF_connect | SCF_accept | SCF_read | SCF_write | SCF_readv | SCF_writev | SCF_recv
| SCF_send | SCF_recvfrom | SCF_sendto | SCF_pread | SCF_pwrite.
Definition scf_num (f : scf) : nat :=
  match f with
  | SCF_fork => 0 | SCF_waitpid => 1 | SCF_system => 2 | SCF_nanosleep => 3 | SCF_usleep => 4 | SCF_sleep => 5
  | SCF_sigprocmask => 6 | SCF_sigwait => 7 | SCF_select => 8 | SCF_poll => 9 | SCF_connect => 10 | SCF_accept => 11
  | SCF_read => 12 | SCF_write => 13 | SCF_readv => 14 | SCF_writev => 15 | SCF_recv => 16 | SCF_send => 17
  | SCF_recvfrom => 18 | SCF_sendto => 19 | SCF_pread => 20 | SCF_pwrite => 21
  end%nat.
(** The names in [pth_syscall_fct_tab]. *)
Definition scf_names : list string :=
  ["fork"; "waitpid"; "system"; "nanosleep"; "usleep"; "sleep"; "sigprocmask"; "sigwait"; "select"; "poll"; "connect";
   "accept"; "read"; "write"; "readv"; "writev"; "recv"; "send"; "recvfrom"; "sendto"; "pread"; "pwrite"]%string.

(** ** The dynamic loader

    [dl_next name]: [dlsym(RTLD_NEXT, name)]; [dl_open path], [dl_sym handle
    name] and [dl_close handle]: the functions of that name. *)
Class Dl (D : Type) := {
  dl_next : string -> D -> option Z;
  dl_open : string -> D -> option Z * D;
  dl_sym : Z -> string -> D -> option Z;
  dl_close : Z -> D -> D
}.

(** The tables: [t_libs], the copy of the paths; the libraries up to the entry
    without a path; the addresses of the functions. [t_alloc]: [strdup] gets
    memory. *)
Record tabs (D : Type) := Tabs {
  t_libs : bool;
  t_lib : list (string * option Z);
  t_fct : list (option Z);
  t_dl : D;
  t_alloc : bool
}.
Arguments Tabs {D}. Arguments t_libs {D}. Arguments t_lib {D}. Arguments t_fct {D}. Arguments t_dl {D}. Arguments t_alloc {D}.

(** What stands before and behind the first occurrence of a character. *)
Fixpoint strchr (c : ascii) (s : string) : option (string * string) :=
  match s with
  | EmptyString => None
  | String a s' =>
      if Ascii.eqb a c then Some (EmptyString, s')
      else match strchr c s' with Some (b, r) => Some (String a b, r) | None => None end
  end.
(** Filling the table: at most 127 paths. *)
Fixpoint lib_paths (n : nat) (s : string) : list string :=
  match n with
  | O => []
  | S n' => match strchr ":" s with Some (p, r) => p :: lib_paths n' r | None => [s] end
  end.

Section init.
Context {D : Type} `{!Dl D}.
(** [PTH_SYSCALL_LIBS], and the configuration. *)
Context (PTH_SYSCALL_LIBS : string) (HAVE_DL HAVE_RTLD_NEXT : bool).

(** The first iteration: the libraries that are loaded. *)
Fixpoint resolve_loaded (tab : list (string * option Z)) (name : string) (d : D) : option Z :=
  match tab with
  | [] => None
  | (_, Some h) :: tab' => match dl_sym h name d with Some a => Some a | None => resolve_loaded tab' name d end
  | (_, None) :: tab' => resolve_loaded tab' name d
  end.
(** The second iteration: loading more libraries. *)
Fixpoint load_more (tab : list (string * option Z)) (name : string) (d : D) : option Z * list (string * option Z) * D :=
  match tab with
  | [] => (None, [], d)
  | (p, Some h) :: tab' => let '(a, t, d) := load_more tab' name d in (a, (p, Some h) :: t, d)
  | (p, None) :: tab' =>
      let '(o, d) := dl_open p d in
      match o with
      | None => let '(a, t, d) := load_more tab' name d in (a, (p, None) :: t, d)
      | Some h =>
          match dl_sym h name d with
          | Some a => (Some a, (p, Some h) :: tab', d)
          | None => let '(a, t, d) := load_more tab' name d in (a, (p, Some h) :: t, d)
          end
      end
  end.
(** The address of one function; [cur] is the one in the table so far. *)
Definition resolve1 (name : string) (cur : option Z) (tab : list (string * option Z)) (d : D)
    : option Z * list (string * option Z) * D :=
  let addr := if HAVE_RTLD_NEXT then dl_next name d else cur in
  match addr with
  | Some a => (Some a, tab, d)
  | None => match resolve_loaded tab name d with Some a => (Some a, tab, d) | None => load_more tab name d end
  end.
Fixpoint resolve_all (names : list string) (fct : list (option Z)) (tab : list (string * option Z)) (d : D)
    : list (option Z) * list (string * option Z) * D :=
  match names, fct with
  | name :: names', cur :: fct' =>
      let '(a, tab, d) := resolve1 name cur tab d in
      let '(l, tab, d) := resolve_all names' fct' tab d in
      (a :: l, tab, d)
  | _, _ => ([], tab, d)
  end.

Definition pth_syscall_init : st (tabs D) unit := fun s =>
  if negb (t_alloc s) then None
  else
    let lib := (fun p => (p, None)) <$> lib_paths 127 PTH_SYSCALL_LIBS in
    if HAVE_DL then
      let '(l, lib, d) := resolve_all scf_names (t_fct s) lib (t_dl s) in
      Some (tt, Tabs true lib l d (t_alloc s))
    else Some (tt, Tabs true lib (t_fct s) (t_dl s) (t_alloc s)).

(** All handles are closed and all paths reset; the addresses stay. *)
Definition close_all (lib : list (string * option Z)) (d : D) : D :=
  foldl (fun d x => match x.2 with Some h => dl_close h d | None => d end) d lib.
Definition pth_syscall_kill : st (tabs D) unit := fun s =>
  if HAVE_DL then Some (tt, Tabs false [] (t_fct s) (close_all (t_lib s) (t_dl s)) (t_alloc s))
  else Some (tt, Tabs false (t_lib s) (t_fct s) (t_dl s) (t_alloc s)).
End init.

(** ** Exit points

    Results come with [errno], if it was set. [os_fct a args]: a call of the
    function at [a]; [os_syscall no args]: syscall(2); [os_socketcall no op
    args]: the same for [SYS_socketcall], with the arguments in an array;
    [os_warn name]: the warning on [stderr] that names the call. *)
Class Os (W : Type) := {
  os_fct : Z -> list Z -> st W (Z * option errno);
  os_syscall : Z -> list Z -> st W (Z * option errno);
  os_socketcall : Z -> Z -> list Z -> st W (Z * option errno);
  os_warn : string -> st W unit
}.

Section exits.
Context {W : Type} `{!Os W}.
(** The addresses in [pth_syscall_fct_tab]. [SYS name]: the number of a system
    call, if there are syscall(2) and this number; [SOCKOP name] likewise. *)
Context (fct : list (option Z)) (SYS SOCKOP : string -> option Z).

(** What is left when no address was resolved; [conv] is the cast. *)
Inductive fallback :=
| FCall (no : Z) (args : list Z) (conv : Z -> Z)
| FSocket (no op : Z) (args : list Z) (conv : Z -> Z)
| FNone (syscall : string).
Definition by_syscall (name : string) (args : list Z) (conv : Z -> Z) (other : fallback) : fallback :=
  match SYS name with Some no => FCall no args conv | None => other end.
Definition by_socketcall (op : string) (args : list Z) (conv : Z -> Z) (other : fallback) : fallback :=
  match SYS "socketcall", SOCKOP op with Some no, Some n => FSocket no n args conv | _, _ => other end.

Definition fct_addr (f : scf) : option Z := default None (fct !! scf_num f).
Definition fall_back (o : fallback) : st W (Z * option errno) :=
  match o with
  | FCall no args conv => r ← os_syscall no args; mret (conv r.1, r.2)
  | FSocket no op args conv => r ← os_socketcall no op args; mret (conv r.1, r.2)
  (* PTH_SYSCALL_ERROR *)
  | FNone syscall => os_warn syscall;; mret (-1, Some ENOSYS)
  end.
Definition sc_exit (f : scf) (args : list Z) (other : fallback) : st W (Z * option errno) :=
  match fct_addr f with Some a => os_fct a args | None => fall_back other end.

Definition pth_sc_fork : st W (Z * option errno) :=
  sc_exit SCF_fork [] (by_syscall "fork" [] i32 (FNone "fork")).
Definition pth_sc_sigprocmask (how set oset : Z) : st W (Z * option errno) :=
  sc_exit SCF_sigprocmask [how; set; oset]
    (by_syscall "__sigprocmask14" [how; set; oset] i32 (by_syscall "sigprocmask" [how; set; oset] i32 (FNone "sigprocmask"))).
Definition pth_sc_waitpid (wpid status options : Z) : st W (Z * option errno) :=
  sc_exit SCF_waitpid [wpid; status; options] (by_syscall "waitpid" [wpid; status; options] i32 (FNone "waitpid")).
Definition pth_sc_connect (s addr addrlen : Z) : st W (Z * option errno) :=
  sc_exit SCF_connect [s; addr; addrlen]
    (by_syscall "connect" [s; addr; addrlen] i32 (by_socketcall "connect" [u64 s; u64 addr; u64 addrlen] i32 (FNone "connect"))).
Definition pth_sc_accept (s addr addrlen : Z) : st W (Z * option errno) :=
  sc_exit SCF_accept [s; addr; addrlen]
    (by_syscall "accept" [s; addr; addrlen] i32 (by_socketcall "accept" [u64 s; u64 addr; u64 addrlen] i32 (FNone "accept"))).
Definition pth_sc_select (nfds r w e timeout : Z) : st W (Z * option errno) :=
  sc_exit SCF_select [nfds; r; w; e; timeout]
    (by_syscall "_newselect" [nfds; r; w; e; timeout] i32 (by_syscall "select" [nfds; r; w; e; timeout] i32 (FNone "accept"))).
Definition pth_sc_read (fd buf nbytes : Z) : st W (Z * option errno) :=
  sc_exit SCF_read [fd; buf; nbytes] (by_syscall "read" [fd; buf; nbytes] i64 (FNone "read")).
Definition pth_sc_write (fd buf nbytes : Z) : st W (Z * option errno) :=
  sc_exit SCF_write [fd; buf; nbytes] (by_syscall "write" [fd; buf; nbytes] i64 (FNone "write")).
Definition pth_sc_readv (fd iov iovcnt : Z) : st W (Z * option errno) :=
  sc_exit SCF_readv [fd; iov; iovcnt] (by_syscall "readv" [fd; iov; iovcnt] i64 (FNone "readv")).
Definition pth_sc_writev (fd iov iovcnt : Z) : st W (Z * option errno) :=
  sc_exit SCF_writev [fd; iov; iovcnt] (by_syscall "writev" [fd; iov; iovcnt] i64 (FNone "writev")).
Definition pth_sc_recv (fd buf nbytes flags : Z) : st W (Z * option errno) :=
  sc_exit SCF_recv [fd; buf; nbytes; flags]
    (by_syscall "recv" [fd; buf; nbytes; flags] i64 (by_syscall "recvfrom" [fd; buf; nbytes; flags; 0; 0] i64 (FNone "recv"))).
Definition pth_sc_send (fd buf nbytes flags : Z) : st W (Z * option errno) :=
  sc_exit SCF_send [fd; buf; nbytes; flags]
    (by_syscall "send" [fd; buf; nbytes; flags] i64 (by_syscall "sendto" [fd; buf; nbytes; flags; 0; 0] i64 (FNone "send"))).
Definition pth_sc_recvfrom (fd buf nbytes flags from fromlen : Z) : st W (Z * option errno) :=
  sc_exit SCF_recvfrom [fd; buf; nbytes; flags; from; fromlen]
    (by_syscall "recvfrom" [fd; buf; nbytes; flags; from; fromlen] i64 (FNone "recvfrom")).
Definition pth_sc_sendto (fd buf nbytes flags to tolen : Z) : st W (Z * option errno) :=
  sc_exit SCF_sendto [fd; buf; nbytes; flags; to; tolen]
    (by_syscall "sendto" [fd; buf; nbytes; flags; to; tolen] i64 (FNone "sendto")).
End exits.

(** ** Entry points

    The threaded variants, [pth_fork] and so on, as [api name]. *)
Inductive entry :=
| A_fork | A_nanosleep | A_usleep | A_sleep | A_system | A_sigmask | A_sigwait | A_waitpid | A_connect | A_accept
| A_select | A_pselect | A_poll | A_read | A_write | A_readv | A_writev | A_pread | A_pwrite | A_recv | A_send
| A_recvfrom | A_sendto.
Class PthApi (W : Type) := {
  pth_initialized : W -> bool;
  pth_init : st W bool;
  api : entry -> list Z -> st W (Z * option errno)
}.

Section entries.
Context {W : Type} `{!PthApi W}.
Abbreviation result := (Z * option errno)%type.

Definition pth_implicit_init : st W unit := fun w => if negb (pth_initialized w) then (pth_init;; mret tt) w else Some (tt, w).
(** The external entry point for an application. *)
Definition external (f : entry) (args : list Z) : st W result := pth_implicit_init;; api f args.

Definition fork : st W result := external A_fork [].
Definition nanosleep (rqtp rmtp : Z) : st W result := external A_nanosleep [rqtp; rmtp].
Definition usleep (sec : Z) : st W result := external A_usleep [sec].
Definition sleep (sec : Z) : st W result := external A_sleep [sec].
Definition system (cmd : Z) : st W result := external A_system [cmd].
Definition sigprocmask (how set oset : Z) : st W result := external A_sigmask [how; set; oset].
Definition sigwait (set sigp : Z) : st W result := external A_sigwait [set; sigp].
Definition waitpid (wpid status options : Z) : st W result := external A_waitpid [wpid; status; options].
Definition connect (s addr addrlen : Z) : st W result := external A_connect [s; addr; addrlen].
Definition accept (s addr addrlen : Z) : st W result := external A_accept [s; addr; addrlen].
Definition select (nfds r w e timeout : Z) : st W result := external A_select [nfds; r; w; e; timeout].
Definition pselect (nfds r w e ts mask : Z) : st W result := external A_pselect [nfds; r; w; e; ts; mask].
Definition poll (pfd nfd timeout : Z) : st W result := external A_poll [pfd; nfd; timeout].
Definition read (fd buf nbytes : Z) : st W result := external A_read [fd; buf; nbytes].
Definition write (fd buf nbytes : Z) : st W result := external A_write [fd; buf; nbytes].
Definition readv (fd iov iovcnt : Z) : st W result := external A_readv [fd; iov; iovcnt].
Definition writev (fd iov iovcnt : Z) : st W result := external A_writev [fd; iov; iovcnt].
Definition pread (fd buf nbytes offset : Z) : st W result := external A_pread [fd; buf; nbytes; offset].
Definition pwrite (fd buf nbytes offset : Z) : st W result := external A_pwrite [fd; buf; nbytes; offset].
Definition recv (fd buf nbytes flags : Z) : st W result := external A_recv [fd; buf; nbytes; flags].
Definition send (fd buf nbytes flags : Z) : st W result := external A_send [fd; buf; nbytes; flags].
Definition recvfrom (fd buf nbytes flags from fromlen : Z) : st W result := external A_recvfrom [fd; buf; nbytes; flags; from; fromlen].
Definition sendto (fd buf nbytes flags to tolen : Z) : st W result := external A_sendto [fd; buf; nbytes; flags; to; tolen].
End entries.

(** * What resolving gives *)

(** The exit points by name. *)
Inductive exit_call :=
| X_fork | X_sigprocmask (how set oset : Z) | X_waitpid (wpid status options : Z) | X_connect (s addr addrlen : Z)
| X_accept (s addr addrlen : Z) | X_select (nfds r w e timeout : Z) | X_read (fd buf nbytes : Z)
| X_write (fd buf nbytes : Z) | X_readv (fd iov iovcnt : Z) | X_writev (fd iov iovcnt : Z)
| X_recv (fd buf nbytes flags : Z) | X_send (fd buf nbytes flags : Z)
| X_recvfrom (fd buf nbytes flags from fromlen : Z) | X_sendto (fd buf nbytes flags to tolen : Z).
Definition exit_point {W} `{!Os W} (fct : list (option Z)) (SYS SOCKOP : string -> option Z) (c : exit_call)
    : st W (Z * option errno) :=
  match c with
  | X_fork => pth_sc_fork fct SYS
  | X_sigprocmask how set oset => pth_sc_sigprocmask fct SYS how set oset
  | X_waitpid wpid status options => pth_sc_waitpid fct SYS wpid status options
  | X_connect s addr addrlen => pth_sc_connect fct SYS SOCKOP s addr addrlen
  | X_accept s addr addrlen => pth_sc_accept fct SYS SOCKOP s addr addrlen
  | X_select nfds r w e timeout => pth_sc_select fct SYS nfds r w e timeout
  | X_read fd buf nbytes => pth_sc_read fct SYS fd buf nbytes
  | X_write fd buf nbytes => pth_sc_write fct SYS fd buf nbytes
  | X_readv fd iov iovcnt => pth_sc_readv fct SYS fd iov iovcnt
  | X_writev fd iov iovcnt => pth_sc_writev fct SYS fd iov iovcnt
  | X_recv fd buf nbytes flags => pth_sc_recv fct SYS fd buf nbytes flags
  | X_send fd buf nbytes flags => pth_sc_send fct SYS fd buf nbytes flags
  | X_recvfrom fd buf nbytes flags from fromlen => pth_sc_recvfrom fct SYS fd buf nbytes flags from fromlen
  | X_sendto fd buf nbytes flags to tolen => pth_sc_sendto fct SYS fd buf nbytes flags to tolen
  end.
(** The function an exit point stands for, and what it passes to it. *)
Definition exit_name (c : exit_call) : string :=
  match c with
  | X_fork => "fork" | X_sigprocmask _ _ _ => "sigprocmask" | X_waitpid _ _ _ => "waitpid" | X_connect _ _ _ => "connect"
  | X_accept _ _ _ => "accept" | X_select _ _ _ _ _ => "select" | X_read _ _ _ => "read" | X_write _ _ _ => "write"
  | X_readv _ _ _ => "readv" | X_writev _ _ _ => "writev" | X_recv _ _ _ _ => "recv" | X_send _ _ _ _ => "send"
  | X_recvfrom _ _ _ _ _ _ => "recvfrom" | X_sendto _ _ _ _ _ _ => "sendto"
  end.
Definition exit_args (c : exit_call) : list Z :=
  match c with
  | X_fork => []
  | X_sigprocmask a b c | X_waitpid a b c | X_connect a b c | X_accept a b c | X_read a b c | X_write a b c
  | X_readv a b c | X_writev a b c => [a; b; c]
  | X_recv a b c d | X_send a b c d => [a; b; c; d]
  | X_select a b c d e => [a; b; c; d; e]
  | X_recvfrom a b c d e f | X_sendto a b c d e f => [a; b; c; d; e; f]
  end.

(** The dynamic loader: a path always gives the same library; a handle that is
    open gives its functions; opening and closing count. *)
Class DlLaws (D : Type) `{!Dl D} (next lib : string -> option Z) (sym : Z -> string -> option Z) (refs : D -> Z -> nat)
    : Prop := {
  dl_next_is : forall n d, dl_next n d = next n;
  dl_open_is : forall p d, (dl_open p d).1 = lib p;
  dl_open_refs : forall p d h, refs (dl_open p d).2 h = (refs d h + if decide (lib p = Some h) then 1 else 0)%nat;
  dl_sym_is : forall h n d, (0 < refs d h)%nat -> dl_sym h n d = sym h n;
  dl_close_refs : forall h d h', (0 < refs d h)%nat -> refs (dl_close h d) h' = (refs d h' - if decide (h = h') then 1 else 0)%nat
}.

Section spec.
Context (lib : string -> option Z) (sym : Z -> string -> option Z).
(** The first library in path order that can be loaded and defines the name. *)
Fixpoint first_def (paths : list string) (name : string) : option Z :=
  match paths with
  | [] => None
  | p :: paths' =>
      match (h ← lib p; sym h name) with Some a => Some a | None => first_def paths' name end
  end.
Definition loaded (p : string) : string * option Z := (p, lib p).
Definition unloaded (p : string) : string * option Z := (p, None).
(** How often the table holds a handle. *)
Fixpoint held (tab : list (string * option Z)) (h : Z) : nat :=
  match tab with
  | [] => 0
  | x :: tab' => (if decide (x.2 = Some h) then 1 else 0) + held tab' h
  end.
End spec.

(** ** Resolving one function *)

Lemma held_app (l k : list (string * option Z)) h : held (l ++ k) h = (held l h + held k h)%nat.
Proof. induction l as [|x l IH]; simpl; [done|]. rewrite IH. lia. Qed.
Lemma held_unloaded ps h : held (unloaded <$> ps) h = 0%nat.
Proof. induction ps as [|p ps IH]; cbn [fmap list_fmap held]; [done|]. unfold unloaded at 1. rewrite IH. by rewrite decide_False. Qed.
Lemma held_loaded lib p ps h :
  held (loaded lib <$> p :: ps) h = ((if decide (lib p = Some h) then 1 else 0) + held (loaded lib <$> ps) h)%nat.
Proof. done. Qed.
Lemma held_in (t : list (string * option Z)) p h : (p, Some h) ∈ t -> (0 < held t h)%nat.
Proof.
  induction t as [|x t IH]; [by intros ?%elem_of_nil|]. intros [<- | H]%elem_of_cons; simpl.
  - rewrite decide_True by done. lia.
  - specialize (IH H). lia.
Qed.

Section resolve.
Context {D : Type} `{!Dl D} {next lib : string -> option Z} {sym : Z -> string -> option Z} {refs : D -> Z -> nat}
  `{!DlLaws D next lib sym refs}.
Implicit Types (d : D) (ps : list string) (tab : list (string * option Z)).

(** The handles of the table are open. *)
Definition open_in tab d : Prop := forall p h, (p, Some h) ∈ tab -> (0 < refs d h)%nat.
(** The paths before a point have been tried, those behind it not. *)
Abbreviation tried ps qs := ((loaded lib <$> ps) ++ (unloaded <$> qs)).

Lemma open_cons x tab d : open_in (x :: tab) d -> open_in tab d.
Proof. intros H p h Hi. apply (H p). by apply list_elem_of_further. Qed.
Lemma open_unloaded ps d : open_in (unloaded <$> ps) d.
Proof. intros p h (q & [=] & _)%list_elem_of_fmap. Qed.
Lemma first_def_app ps qs name :
  first_def lib sym (ps ++ qs) name = match first_def lib sym ps name with Some a => Some a | None => first_def lib sym qs name end.
Proof. induction ps as [|p ps IH]; simpl; [done|]. by destruct (mbind _ _). Qed.

Lemma resolve_unloaded ps name d : resolve_loaded (unloaded <$> ps) name d = None.
Proof. by induction ps. Qed.
Lemma resolve_loaded_is ps qs name d :
  open_in (tried ps qs) d -> resolve_loaded (tried ps qs) name d = first_def lib sym ps name.
Proof.
  induction ps as [|p ps IH]; simpl; intros Ho; [apply resolve_unloaded|].
  unfold loaded at 1. destruct (lib p) as [h|] eqn:E; simpl.
  - rewrite dl_sym_is by (apply (Ho p); unfold loaded; rewrite E; apply list_elem_of_here).
    destruct (sym h name); [done|]. apply IH. by eapply open_cons.
  - apply IH. by eapply open_cons.
Qed.

Lemma load_unloaded qs name d :
  exists q1 q2 d', qs = q1 ++ q2 /\
    load_more (unloaded <$> qs) name d = (first_def lib sym qs name, tried q1 q2, d') /\
    forall h, refs d' h = (refs d h + held (loaded lib <$> q1) h)%nat.
Proof.
  revert d. induction qs as [|q qs IH]; intros d.
  { exists [], [], d. split_and!; [done..|]. intros h. simpl. lia. }
  cbn [fmap list_fmap load_more unloaded]. pose proof (dl_open_is q d) as E. pose proof (dl_open_refs q d) as R.
  destruct (dl_open q d) as [o d1]. simpl in E, R. subst o. cbn [first_def].
  destruct (lib q) as [h|] eqn:Eq; cbn [mbind option_bind].
  - assert (Hs : dl_sym h name d1 = sym h name) by (apply dl_sym_is; rewrite R, decide_True by done; lia). rewrite Hs.
    destruct (sym h name) as [a|].
    + exists [q], qs, d1. split_and!; [done|by cbn; unfold loaded; rewrite Eq|].
      intros h'. rewrite R, held_loaded, Eq. simpl. lia.
    + destruct (IH d1) as (q1 & q2 & d' & -> & -> & Hr). exists (q :: q1), q2, d'.
      split_and!; [done|by cbn; unfold loaded; rewrite Eq|]. intros h'. rewrite Hr, R, held_loaded, Eq. lia.
  - destruct (IH d1) as (q1 & q2 & d' & -> & -> & Hr). exists (q :: q1), q2, d'.
    split_and!; [done|by cbn; unfold loaded; rewrite Eq|]. intros h'. rewrite Hr, R, held_loaded, Eq. lia.
Qed.

Lemma load_more_is ps qs name d :
  first_def lib sym ps name = None ->
  exists q1 q2 d', qs = q1 ++ q2 /\
    load_more (tried ps qs) name d = (first_def lib sym (ps ++ qs) name, tried (ps ++ q1) q2, d') /\
    forall h, (refs d' h + held (tried ps qs) h = refs d h + held (tried (ps ++ q1) q2) h)%nat.
Proof.
  revert d. induction ps as [|p ps IH]; intros d Hn.
  { destruct (load_unloaded qs name d) as (q1 & q2 & d' & -> & E & R). exists q1, q2, d'.
    split_and!; [done|done|]. intros h. cbn [fmap list_fmap app]. rewrite R, held_app, !held_unloaded. lia. }
  cbn [first_def] in Hn. cbn [app first_def]. change (tried (p :: ps) qs) with ((p, lib p) :: tried ps qs).
  destruct (lib p) as [h|] eqn:Ep; cbn [mbind option_bind load_more] in *.
  - destruct (sym h name); [done|]. destruct (IH d Hn) as (q1 & q2 & d' & -> & E & R). exists q1, q2, d'.
    change (tried (p :: (ps ++ q1)) q2) with ((p, lib p) :: tried (ps ++ q1) q2). rewrite E, Ep.
    split_and!; [done|done|]. intros h'. specialize (R h'). cbn [held]. lia.
  - pose proof (dl_open_is p d) as Eo. pose proof (dl_open_refs p d) as Ro.
    destruct (dl_open p d) as [o d1]. simpl in Eo, Ro. rewrite Ep in Eo, Ro. subst o.
    destruct (IH d1 Hn) as (q1 & q2 & d' & -> & E & R). exists q1, q2, d'.
    change (tried (p :: (ps ++ q1)) q2) with ((p, lib p) :: tried (ps ++ q1) q2). rewrite E, Ep.
    split_and!; [done|done|]. intros h'. specialize (R h'). specialize (Ro h'). cbn [held].
    rewrite decide_False in Ro by done. rewrite !decide_False by done. lia.
Qed.

(** What every handle of the table counts on top of [base]. *)
Definition counted (base : Z -> nat) tab d : Prop := forall h, refs d h = (base h + held tab h)%nat.
Lemma counted_open base tab d : counted base tab d -> open_in tab d.
Proof. intros H p h Hi%held_in. rewrite (H h). lia. Qed.

Context (HAVE_RTLD_NEXT : bool).
(** The address a function gets; [cur] is the one in the table before. *)
Definition address ps (name : string) (cur : option Z) : option Z :=
  match (if HAVE_RTLD_NEXT then next name else cur) with
  | Some a => Some a
  | None => first_def lib sym ps name
  end.

Lemma resolve1_is base ps qs name cur d :
  counted base (tried ps qs) d ->
  exists ps' qs' d', ps ++ qs = ps' ++ qs' /\
    resolve1 HAVE_RTLD_NEXT name cur (tried ps qs) d = (address (ps ++ qs) name cur, tried ps' qs', d') /\
    counted base (tried ps' qs') d'.
Proof.
  intros Hc. unfold resolve1, address. rewrite dl_next_is.
  destruct (if HAVE_RTLD_NEXT then next name else cur) as [a|]; [by exists ps, qs, d|].
  rewrite resolve_loaded_is by (by eapply counted_open). destruct (first_def lib sym ps name) as [a|] eqn:Ef.
  - exists ps, qs, d. by rewrite first_def_app, Ef.
  - destruct (load_more_is ps qs name d Ef) as (q1 & q2 & d' & -> & E & R). exists (ps ++ q1), q2, d'.
    rewrite E, (assoc_L (++)). split_and!; [done|done|]. intros h. specialize (R h). rewrite (Hc h) in R. lia.
Qed.

Lemma resolve_all_is base names fct ps qs d :
  counted base (tried ps qs) d -> List.length fct = List.length names ->
  exists ps' qs' d', ps ++ qs = ps' ++ qs' /\
    resolve_all HAVE_RTLD_NEXT names fct (tried ps qs) d = (zip_with (address (ps ++ qs)) names fct, tried ps' qs', d') /\
    counted base (tried ps' qs') d'.
Proof.
  revert fct ps qs d. induction names as [|name names IH]; intros [|cur fct] ps qs d Hc Hl; try done.
  { by exists ps, qs, d. }
  destruct (resolve1_is base ps qs name cur d Hc) as (ps1 & qs1 & d1 & Ep & E1 & Hc1).
  destruct (IH fct ps1 qs1 d1 Hc1) as (ps2 & qs2 & d2 & Ep2 & E2 & Hc2); [by injection Hl|].
  exists ps2, qs2, d2. cbn [resolve_all zip_with]. rewrite E1, E2, Ep. by rewrite <- Ep2.
Qed.

(** Closing the handles takes back what they count. *)
Lemma close_all_is base tab d : counted base tab d -> forall h, refs (close_all tab d) h = base h.
Proof.
  revert d. induction tab as [|[p [h|]] tab IH]; intros d Hc h'; cbn.
  - rewrite (Hc h'). simpl. lia.
  - apply IH. intros k. rewrite dl_close_refs by (rewrite (Hc h); cbn [held snd]; rewrite decide_True by done; lia).
    rewrite (Hc k). cbn [held snd]. destruct (decide (h = k)) as [->|]; [rewrite decide_True by done; lia|].
    rewrite decide_False by congruence. lia.
  - apply IH. intros k. rewrite (Hc k). cbn [held snd]. by rewrite decide_False.
Qed.
End resolve.

(** ** The exit points *)

Lemma scf_names_num f : exists name, scf_names !! scf_num f = Some name.
Proof. destruct f; eexists; reflexivity. Qed.

(** The number an exit point uses is that of its name. *)
Definition exit_scf (c : exit_call) : scf :=
  match c with
  | X_fork => SCF_fork | X_sigprocmask _ _ _ => SCF_sigprocmask | X_waitpid _ _ _ => SCF_waitpid
  | X_connect _ _ _ => SCF_connect | X_accept _ _ _ => SCF_accept | X_select _ _ _ _ _ => SCF_select
  | X_read _ _ _ => SCF_read | X_write _ _ _ => SCF_write | X_readv _ _ _ => SCF_readv | X_writev _ _ _ => SCF_writev
  | X_recv _ _ _ _ => SCF_recv | X_send _ _ _ _ => SCF_send | X_recvfrom _ _ _ _ _ _ => SCF_recvfrom
  | X_sendto _ _ _ _ _ _ => SCF_sendto
  end.
Lemma exit_scf_name c : scf_names !! scf_num (exit_scf c) = Some (exit_name c).
Proof. by destruct c. Qed.
Lemma exit_point_resolved {W} `{!Os W} (fct : list (option Z)) SYS SOCKOP c a :
  fct_addr fct (exit_scf c) = Some a -> exit_point fct SYS SOCKOP c = os_fct a (exit_args c).
Proof. intros E. destruct c; simpl in *; unfold pth_sc_fork, pth_sc_sigprocmask, pth_sc_waitpid, pth_sc_connect, pth_sc_accept,
  pth_sc_select, pth_sc_read, pth_sc_write, pth_sc_readv, pth_sc_writev, pth_sc_recv, pth_sc_send, pth_sc_recvfrom, pth_sc_sendto,
  sc_exit; by rewrite E.
Qed.
Lemma exit_point_none {W} `{!Os W} (fct : list (option Z)) SOCKOP c w :
  fct_addr fct (exit_scf c) = None ->
  exit_point fct (fun _ => None) SOCKOP c w =
    (os_warn (if decide (exit_name c = "select"%string) then "accept"%string else exit_name c);; mret (-1, Some ENOSYS)) w.
Proof. intros E. destruct c; simpl in *; unfold pth_sc_fork, pth_sc_sigprocmask, pth_sc_waitpid, pth_sc_connect, pth_sc_accept,
  pth_sc_select, pth_sc_read, pth_sc_write, pth_sc_readv, pth_sc_writev, pth_sc_recv, pth_sc_send, pth_sc_recvfrom, pth_sc_sendto,
  sc_exit; by rewrite E.
Qed.

(** ** The paths *)

Fixpoint colons (s : string) : nat :=
  match s with EmptyString => 0 | String a s' => (if Ascii.eqb a ":" then 1 else 0) + colons s' end.
Lemma strchr_none s : strchr ":" s = None -> colons s = 0%nat.
Proof.
  induction s as [|a s IH]; simpl; [done|]. destruct (Ascii.eqb a ":"); [done|].
  destruct (strchr ":" s) as [[]|]; [done|]. intros _. by apply IH.
Qed.
Lemma strchr_some s p r :
  strchr ":" s = Some (p, r) -> s = String.append p (String ":" r) /\ colons p = 0%nat /\ colons s = S (colons r).
Proof.
  revert p. induction s as [|a s IH]; simpl; intros p; [done|]. destruct (Ascii.eqb a ":") eqn:E.
  - intros [= <- <-]. by apply Ascii.eqb_eq in E as ->.
  - destruct (strchr ":" s) as [[b r']|]; [|done]. intros [= <- <-]. destruct (IH b eq_refl) as (-> & Hb & Hs).
    simpl. by rewrite E.
Qed.
Lemma lib_paths_ne n s : (0 < n)%nat -> lib_paths n s <> [].
Proof. destruct n; [lia|]. simpl. by destruct (strchr ":" s) as [[]|]. Qed.
(** The paths are the pieces between the colons, as long as the table has room. *)
Lemma lib_paths_split n s :
  (colons s < n)%nat -> String.concat ":" (lib_paths n s) = s /\ Forall (fun p => colons p = 0%nat) (lib_paths n s).
Proof.
  revert s. induction n as [|n IH]; intros s Hn; [lia|]. simpl. destruct (strchr ":" s) as [[p r]|] eqn:E.
  - destruct (strchr_some s p r E) as (-> & Hp & Hc). destruct (IH r) as [Ec Hf]; [lia|].
    split; [|by constructor]. rewrite <- Ec at 2. simpl.
    destruct (lib_paths n r) eqn:El; [|done]. exfalso. by apply (lib_paths_ne n r); [lia|].
  - split; [done|]. constructor; [by apply strchr_none|done].
Qed.

Section result.
Context {D : Type} `{!Dl D} {next lib : string -> option Z} {sym : Z -> string -> option Z} {refs : D -> Z -> nat}
  `{!DlLaws D next lib sym refs}.
Context (PTH_SYSCALL_LIBS : string) (HAVE_RTLD_NEXT : bool).
Abbreviation paths := (lib_paths 127 PTH_SYSCALL_LIBS).
Abbreviation address := (address (next := next) (lib := lib) (sym := sym) HAVE_RTLD_NEXT paths).
Abbreviation init := (pth_syscall_init PTH_SYSCALL_LIBS true HAVE_RTLD_NEXT).

Lemma init_is (s : tabs D) :
  t_alloc s = true -> List.length (t_fct s) = 22%nat ->
  exists l d, init s = Some (tt, Tabs true l (zip_with address scf_names (t_fct s)) d true) /\ l.*1 = paths /\
    counted (refs := refs) (refs (t_dl s)) l d.
Proof.
  intros Ha Hl. unfold pth_syscall_init. rewrite Ha. cbn [negb].
  destruct (resolve_all_is HAVE_RTLD_NEXT (refs (t_dl s)) scf_names (t_fct s) [] paths (t_dl s)) as (ps & qs & d & Ep & E & Hc).
  { intros h. cbn [fmap list_fmap app]. rewrite held_unloaded. lia. }
  { by rewrite Hl. }
  cbn [fmap list_fmap app] in E, Ep. change ((fun p => (p, None)) <$> paths) with (unloaded <$> paths). rewrite E.
  eexists _, d. split_and!; [done| |done]. rewrite Ep, fmap_app, <- !list_fmap_compose. f_equal; apply list_fmap_id.
Qed.

Lemma address_in (fct : list (option Z)) c :
  List.length fct = 22%nat ->
  fct_addr (zip_with address scf_names fct) (exit_scf c) = address (exit_name c) (fct_addr fct (exit_scf c)).
Proof.
  intros Hl. unfold fct_addr. rewrite lookup_zip_with, exit_scf_name. cbn [mbind option_bind].
  destruct (lookup_lt_is_Some_2 fct (scf_num (exit_scf c))) as [x ->]; [|done]. rewrite Hl. destruct c; simpl; lia.
Qed.
End result.

(** The cast of the result of a system call. *)
Definition exit_conv (c : exit_call) : Z -> Z :=
  match c with
  | X_read _ _ _ | X_write _ _ _ | X_readv _ _ _ | X_writev _ _ _ | X_recv _ _ _ _ | X_send _ _ _ _
  | X_recvfrom _ _ _ _ _ _ | X_sendto _ _ _ _ _ _ => i64
  | _ => i32
  end.
Lemma exit_point_syscall {W} `{!Os W} (fct : list (option Z)) SYS SOCKOP c no :
  fct_addr fct (exit_scf c) = None -> SYS (exit_name c) = Some no ->
  SYS "__sigprocmask14"%string = None -> SYS "_newselect"%string = None ->
  exit_point fct SYS SOCKOP c = (r ← os_syscall no (exit_args c); mret (exit_conv c r.1, r.2)).
Proof. intros E Hn H1 H2. destruct c; simpl in *; unfold pth_sc_fork, pth_sc_sigprocmask, pth_sc_waitpid, pth_sc_connect,
  pth_sc_accept, pth_sc_select, pth_sc_read, pth_sc_write, pth_sc_readv, pth_sc_writev, pth_sc_recv, pth_sc_send, pth_sc_recvfrom,
  pth_sc_sendto, sc_exit, by_syscall; rewrite E, ?H1, ?H2, Hn; reflexivity.
Qed.

(** Without [RTLD_NEXT], an address that was resolved outlives the library it
    is in: after [pth_syscall_kill] the libraries count what they did before,
    and the next [pth_syscall_init] does not look again. *)
Lemma syscall_reinit_stale {D} `{!Dl D} {next lib sym refs} `{!DlLaws D next lib sym refs} (PTH_SYSCALL_LIBS : string)
    (s s1 s2 : tabs D) c a :
  t_alloc s = true -> List.length (t_fct s) = 22%nat ->
  pth_syscall_init PTH_SYSCALL_LIBS true false s = Some (tt, s1) -> fct_addr (t_fct s1) (exit_scf c) = Some a ->
  pth_syscall_kill true s1 = Some (tt, s2) ->
  (forall h, refs (t_dl s2) h = refs (t_dl s) h) /\
  exists s3, pth_syscall_init PTH_SYSCALL_LIBS true false s2 = Some (tt, s3) /\ fct_addr (t_fct s3) (exit_scf c) = Some a.
Proof.
  intros Ha Hl E1 Hf E2. destruct (init_is PTH_SYSCALL_LIBS false s Ha Hl) as (l & d & E & Hp & Hc).
  rewrite E1 in E. set (s1' := Tabs _ _ _ _ _) in E. assert (s1 = s1') as -> by congruence.
  assert (s2 = Tabs false [] (t_fct s1') (close_all (t_lib s1') (t_dl s1')) (t_alloc s1')) as -> by (unfold pth_syscall_kill in E2; congruence).
  unfold s1' in Hf |- *. cbn [t_dl t_fct t_lib t_alloc] in Hf |- *. clear E E1 E2.
  split; [by eapply close_all_is|]. set (s2 := Tabs _ _ _ _ _).
  assert (Hl2 : List.length (t_fct s2) = 22%nat) by (unfold s2; cbn [t_fct]; rewrite length_zip_with, Hl; reflexivity).
  destruct (init_is PTH_SYSCALL_LIBS false s2 eq_refl Hl2) as (l3 & d3 & E3 & _). eexists. split; [exact E3|].
  cbn [t_fct]. rewrite address_in by done. unfold s2. cbn [t_fct]. rewrite Hf. reflexivity.
Qed.


(** ** A loader and a system to compute with *)

Module SysDemo.
(** The open handles; the C library is found under its second path. *)
Definition find_lib (p : string) : option Z :=
  if String.eqb p "/lib/libc.so" then Some 1 else if String.eqb p "/lib/libsocket.so" then Some 2 else None.
Definition find_sym (h : Z) (name : string) : option Z :=
  if (h =? 1) && (String.eqb name "read" || String.eqb name "send") then Some 100
  else if (h =? 2) && (String.eqb name "send" || String.eqb name "recv") then Some 200 else None.
Fixpoint take_out (h : Z) (l : list Z) : list Z :=
  match l with [] => [] | x :: l' => if decide (h = x) then l' else x :: take_out h l' end.
Fixpoint times (l : list Z) (h : Z) : nat :=
  match l with [] => 0 | x :: l' => (if decide (x = h) then 1 else 0) + times l' h end.
#[export] Instance demo_dl : Dl (list Z) := {
  dl_next _ _ := None;
  dl_open p l := match find_lib p with Some h => (Some h, h :: l) | None => (None, l) end;
  dl_sym h name l := if decide (h ∈ l) then find_sym h name else None;
  dl_close := take_out
}.
Lemma times_in h l : (0 < times l h)%nat -> h ∈ l.
Proof.
  induction l as [|x l IH]; simpl; [lia|]. destruct (decide (x = h)) as [->|]; [intros; apply list_elem_of_here|].
  intros. apply list_elem_of_further, IH. lia.
Qed.
Lemma times_out h l h' :
  (0 < times l h)%nat -> times (take_out h l) h' = (times l h' - if decide (h = h') then 1 else 0)%nat.
Proof.
  induction l as [|x l IH]; simpl; [lia|]. intros H. destruct (decide (h = x)) as [->|Hx].
  - destruct (decide (x = h')); lia.
  - rewrite decide_False in H by congruence. simpl. rewrite IH by lia.
    destruct (decide (x = h')) as [<-|]; [|lia]. rewrite (decide_False (P := h = x)) by done. lia.
Qed.
#[export] Instance demo_laws : DlLaws (list Z) (fun _ => None) find_lib find_sym times.
Proof.
  split; [done| | | |apply times_out].
  - intros p l. simpl. by destruct (find_lib p).
  - intros p l h. unfold dl_open, demo_dl. destruct (find_lib p) as [k|]; cbn [snd times].
    + destruct (decide (k = h)) as [->|]; [rewrite decide_True by done; lia|]. rewrite decide_False by congruence. lia.
    + rewrite decide_False by done. lia.
  - intros h n l H%times_in. simpl. by rewrite decide_True.
Qed.
(** What was called. *)
Definition log := list (Z * list Z).
#[export] Instance demo_os : Os log := {
  os_fct a args w := Some ((7, None), w ++ [(a, args)]);
  os_syscall no args w := Some ((8, None), w ++ [(- no, args)]);
  os_socketcall no _ args w := Some ((9, None), w ++ [(- no, args)]);
  os_warn _ w := Some (tt, w)
}.
Definition libs : string := "/usr/lib/libc.so:/lib/libc.so:/lib/libsocket.so".
Definition start : tabs (list Z) := Tabs false [] (replicate 22 None) [2] true.
End SysDemo.
Import SysDemo.

