(* ===== verification/Ctrl.v ===== *)
(** * Queries and the start of the Pthread interface (src/pth_lib.c, lines
    161-216; src/pthread.c)

    [pth_ctrl]; the initialization that every Pthread function performs first,
    and the replacements of the system's blocking functions. *)

From stdpp Require Import base numbers gmap list.
From Stdlib Require Import Floats.SpecFloat.
From S2P Require Import Prelude Links Pqueue Ring Timeval Msg Waitq Clean Util Event Inbox Queues World Thread Demo Sched Dispatch Lib Loop Syscall.
Open Scope Z_scope.

Definition PTH_CTRL_GETAVLOAD : Z := bit 1.
Definition PTH_CTRL_GETNAME : Z := bit 3.
Definition PTH_CTRL_DUMPSTATE : Z := bit 10.
Definition PTH_CTRL_FAVOURNEW : Z := bit 11.

Section ctrl.
Context {H U : Type} `{!QueueOps H}.
Abbreviation wd := (world H U).
(** [name t]: the address of the name in [t]; [dump]: the dump of the state,
    which only writes to a stream; [loadval]: the load average. *)
Context (name : addr -> Z) (dump : st wd unit) (loadval : spec_float).

(** The arguments behind [query]: a thread, a number. The result, [errno], and
    what is stored for the load average. *)
Definition ctrl_query (query : Z) (t : ptr) (favournew : Z) : st wd (Z * option spec_float) :=
  if has query PTH_CTRL_GETTHREADS then n ← pth_ctrl_threads query; mret (n, None)
  else if has query PTH_CTRL_GETAVLOAD then mret (0, Some loadval)
  else if has query PTH_CTRL_GETPRIO then x ← rd_tcb t; mret (t_prio x, None)
  else if has query PTH_CTRL_GETNAME then match t with Some a => rd_tcb t;; mret (name a, None) | None => undef end
  else if has query PTH_CTRL_DUMPSTATE then dump;; mret (0, None)
  else if has query PTH_CTRL_FAVOURNEW then
    (fun w => Some (tt, set_g (set_favournew (negb (favournew =? 0)) (w_g w)) w));; mret (0, None)
  else mret (-1, None).
Definition pth_ctrl (query : Z) (t : ptr) (favournew : Z) : st wd (Z * option errno * option spec_float) :=
  r ← ctrl_query query t favournew;
  if r.1 =? -1 then mret (-1, Some EINVAL, r.2) else mret (r.1, None, r.2).

Lemma ctrl_unknown w : pth_ctrl 0 None 0 w = Some ((-1, Some EINVAL, None), w).
Proof. done. Qed.
Lemma ctrl_prio_is w t x : w_tcb w !! t = Some x -> t_prio x <> -1 -> pth_ctrl PTH_CTRL_GETPRIO (Some t) 0 w = Some ((t_prio x, None, None), w).
Proof.
  intros Hx Hp. unfold pth_ctrl, ctrl_query. cbn [has]. change (has PTH_CTRL_GETPRIO PTH_CTRL_GETTHREADS) with false.
  change (has PTH_CTRL_GETPRIO PTH_CTRL_GETAVLOAD) with false. change (has PTH_CTRL_GETPRIO PTH_CTRL_GETPRIO) with true. cbv iota.
  rewrite st_bind_assoc, (st_bind_Some _ _ _ _ _ (x_rd_tcb w t x Hx)), (st_bind_Some (mret _) _ w (t_prio x, None) w eq_refl). cbn [fst snd].
  by destruct (Z.eqb_spec (t_prio x) (-1)).
Qed.
(** The priority -1, which is in the range of priorities, is reported as an
    error. *)
Lemma ctrl_prio_minus_one w t x : w_tcb w !! t = Some x -> t_prio x = -1 ->
  pth_ctrl PTH_CTRL_GETPRIO (Some t) 0 w = Some ((-1, Some EINVAL, None), w).
Proof.
  intros Hx Hp. unfold pth_ctrl, ctrl_query. change (has PTH_CTRL_GETPRIO PTH_CTRL_GETTHREADS) with false.
  change (has PTH_CTRL_GETPRIO PTH_CTRL_GETAVLOAD) with false. change (has PTH_CTRL_GETPRIO PTH_CTRL_GETPRIO) with true. cbv iota.
  rewrite st_bind_assoc, (st_bind_Some _ _ _ _ _ (x_rd_tcb w t x Hx)), (st_bind_Some (mret _) _ w (t_prio x, None) w eq_refl). cbn [fst snd].
  by rewrite Hp.
Qed.
End ctrl.

(** ** Starting the Pthread interface *)

(** The calls of the library, and the variable [pthread_initialized].
    [rt_atexit]: [pthread_shutdown] is registered. *)
Class PthreadRt (W : Type) := {
  pthread_initialized : W -> bool;
  set_pthread_initialized : bool -> W -> W;
  pth_mp_init : Z -> st W bool;
  rt_atexit : st W unit;
  pth_mp_shutdown : st W unit;
  pth_kill : st W bool
}.
Definition PTH_GSCHED_MAX : Z := 64.
(** [env]: the value of [atol] for PTH_SCHEDULERS, if it is set; [online]: the
    number of processors. *)
Definition pthread_nsched_want (env : option Z) (online : Z) : Z :=
  let n := match env with Some v => v | None => 0 end in
  let n := if n <? 1 then (if online <? 1 then 1 else online) else n in
  if n >? PTH_GSCHED_MAX then PTH_GSCHED_MAX else n.
Lemma nsched_want_bounds env online : 1 <= pthread_nsched_want env online <= PTH_GSCHED_MAX.
Proof.
  unfold pthread_nsched_want, PTH_GSCHED_MAX. destruct env as [v|]; repeat case_match; lia.
Qed.

Section startup.
Context {W : Type} `{!PthApi W, !PthreadRt W} (PTH_MP : bool) (env : option Z) (online : Z).
Abbreviation result := (Z * option errno)%type.

Definition pthread_shutdown : st W unit :=
  (if PTH_MP then pth_mp_shutdown else mret tt);;
  pth_kill;; mret tt.
Definition pthread_initialize : st W unit := fun w =>
  if negb (pthread_initialized w) then
    (pth_init;;
     (if PTH_MP then pth_mp_init (pthread_nsched_want env online);; mret tt else mret tt);;
     rt_atexit) (set_pthread_initialized true w)
  else Some (tt, w).
(** The thread-safe replacement of a function. *)
Definition replacement (f : entry) (args : list Z) : st W result := pthread_initialize;; api f args.

Definition __pthread_fork : st W result := replacement A_fork [].
Definition __pthread_sleep (sec : Z) : st W result := replacement A_sleep [sec].
Definition __pthread_system (cmd : Z) : st W result := replacement A_system [cmd].
Definition __pthread_nanosleep (rqtp rmtp : Z) : st W result := replacement A_nanosleep [rqtp; rmtp].
Definition __pthread_usleep (sec : Z) : st W result := replacement A_usleep [sec].
Definition __pthread_sigwait (set sig : Z) : st W result := replacement A_sigwait [set; sig].
Definition __pthread_waitpid (pid status options : Z) : st W result := replacement A_waitpid [pid; status; options].
Definition __pthread_connect (s addr addrlen : Z) : st W result := replacement A_connect [s; addr; addrlen].
Definition __pthread_accept (s addr addrlen : Z) : st W result := replacement A_accept [s; addr; addrlen].
Definition __pthread_select (nfds r w e timeout : Z) : st W result := replacement A_select [nfds; r; w; e; timeout].
Definition __pthread_poll (pfd nfd timeout : Z) : st W result := replacement A_poll [pfd; nfd; timeout].
Definition __pthread_read (fd buf nbytes : Z) : st W result := replacement A_read [fd; buf; nbytes].
Definition __pthread_write (fd buf nbytes : Z) : st W result := replacement A_write [fd; buf; nbytes].
Definition __pthread_readv (fd piovec iocnt : Z) : st W result := replacement A_readv [fd; piovec; iocnt].
Definition __pthread_writev (fd piovec iocnt : Z) : st W result := replacement A_writev [fd; piovec; iocnt].
Definition __pthread_recv (fd buf nbytes flags : Z) : st W result := replacement A_recv [fd; buf; nbytes; flags].
Definition __pthread_send (fd buf nbytes flags : Z) : st W result := replacement A_send [fd; buf; nbytes; flags].
Definition __pthread_recvfrom (fd buf nbytes flags from fromlen : Z) : st W result := replacement A_recvfrom [fd; buf; nbytes; flags; from; fromlen].
Definition __pthread_sendto (fd buf nbytes flags to tolen : Z) : st W result := replacement A_sendto [fd; buf; nbytes; flags; to; tolen].
Definition __pthread_pread (fd buf nbytes offset : Z) : st W result := replacement A_pread [fd; buf; nbytes; offset].
Definition __pthread_pwrite (fd buf nbytes offset : Z) : st W result := replacement A_pwrite [fd; buf; nbytes; offset].

(** The variable belongs to the interface. *)
Class PthreadRtLaws : Prop := {
  rl_set : forall b w, pthread_initialized (set_pthread_initialized b w) = b;
  rl_init : forall w b w', pth_init w = Some (b, w') -> pthread_initialized w' = pthread_initialized w;
  rl_mp : forall n w b w', pth_mp_init n w = Some (b, w') -> pthread_initialized w' = pthread_initialized w;
  rl_atexit : forall w b w', rt_atexit w = Some (b, w') -> pthread_initialized w' = pthread_initialized w
}.
(** The first call initializes, also if that fails: whatever [pth_init] returns
    nobody tries again. *)
Lemma pthread_initialize_once `{!PthreadRtLaws} w w' : pthread_initialize w = Some (tt, w') -> pthread_initialized w' = true /\
  pthread_initialize w' = Some (tt, w').
Proof.
  intros E. assert (Hi : pthread_initialized w' = true); [|split; [done|]; unfold pthread_initialize; by rewrite Hi].
  unfold pthread_initialize in E. destruct (pthread_initialized w) eqn:Ei; cbn [negb] in E; [by simplify_eq|].
  apply st_bind_inv in E as (b & w1 & E1 & E). apply st_bind_inv in E as (u & w2 & E2 & E).
  rewrite (rl_atexit _ _ _ E). transitivity (pthread_initialized w1).
  - destruct PTH_MP; [|by injection E2 as <- <-]. apply st_bind_inv in E2 as (c & w3 & E3 & [= <- <-]). by eapply rl_mp.
  - rewrite (rl_init _ _ _ E1). apply rl_set.
Qed.
End startup.
